(* ===== verification/_CoqProject ===== *)
-Q . S2P
Prelude.v
PyDecimal.v
DecimalTheory.v
Money.v
Types.v
Config.v
Sizing.v
Exposure.v
Stress.v
Calendar.v
TzRules.v
PyFloat.v
PyText.v
Risk.v
Protect.v
StateExn.v
PyDict.v
PyJson.v
Venue.v
Oms.v
OmsInv.v
Paper.v
PaperInv.v
PaperProps.v
PaperOms.v
Reconcile.v
Deadman.v
Portfolio.v
Ids.v
Agent.v
AgentDurable.v
AgentManage.v
AgentEntry.v
AgentCycle.v
AgentInv.v
AgentPaths.v
AgentDemo.v
AgentRestart.v
AgentProps.v
AgentFacts.v
AuditChain.v
Trials.v
Verdicts.v
Acceptance.v
AcceptanceProps.v
Schedule.v
ScheduleProps.v
News.v
NewsPolicy.v
NewsInv.v
NewsProps.v
FloatTheory.v
UnitFloat.v
IsoTime.v
Licence.v
LicenceGuard.v
LicenceLease.v
LicenceGate.v
LicenceProps.v
LicenceTerms.v
CrossValidation.v
CrossValidationProps.v
Memory.v
MemoryProps.v
Proposals.v
ProposalProps.v
Postmortem.v
PostmortemProps.v
Security.v
SecurityInv.v
SecurityRate.v
SecurityProps.v
SecurityOwners.v
Clock.v
TerminalWatchdog.v
Health.v
Bound.v
Jalali.v
EquityLedger.v
