(* ===== verification/Prelude.v ===== *)
(** * Sentinel-FX: a verification development

    Sentinel-FX ([src/sentinel]) is an autonomous FX trading agent.  A decision
    cycle polls the kill switch, reads the account and the quotes, asks the
    strategies for signals, passes every proposed entry through the risk engine,
    sends what is approved through the order manager, tightens the stops of open
    positions, and reconciles its book with the venue's; a separate process
    watches the heartbeat of that cycle.  This development models the part that
    decides what may be traded and how it is executed, from the arithmetic of
    amounts up to the dead-man switch, and proves what it guarantees.

    ** The files, in dependency order

    - [Prelude]: exceptions as values ([exn], [res], the bind [let*]), the
      development's tactics, generic lemmas.
    - [PyDecimal], [DecimalTheory]: Python's [decimal] module as the program uses
      it (coefficient and exponent, 28-digit context, ROUND_HALF_EVEN), and its
      theory: every operation returns the nearest representable value, rounding
      is monotone, relative error bounds.  Nothing in the components computes on
      idealised rationals: theorems compare the rational values ([dval]) of the
      decimals the code computes.
    - [Money]: core/money.py.  Price and lot grids, instruments, cost arithmetic.
    - [Types]: core/types.py.  Quotes, bars, intents, orders, positions, accounts.
    - [Config]: [RiskConfig] of core/config.py with its validators.
    - [Sizing], [Exposure], [Stress]: risk/sizing.py, risk/exposure.py and
      risk/stress.py, the functions the risk engine calls.
    - [Calendar], [TzRules]: Python's [datetime] arithmetic and core/tzrules.py, the
      summer-time rules; the order of dates and their fields.
    - [Risk]: risk/engine.py.  [evaluate_entry] is the composition of its blocks
      in the order of the source, [RiskContext] its input.
    - [Protect]: risk/protect.py.  Break-even, partial take, trail, give-back,
      the time stop and the weekend flat.
    - [PyFloat]: Python's binary floats, their rounding to decimals included.
    - [StateExn]: a state monad with exceptions for the effectful components, with
      [Steps], which lifts a preorder on states to a computation, [wp], the
      weakest precondition of a computation, and [Raises], what it may raise.
    - [PyDict]: insertion-ordered dictionaries.
    - [PyText], [PyJson]: the methods of texts, the texts of decimals and integers with
      their round trips, and JSON values; a file is what reading it gives.
    - [Venue]: brokers/base.py.  The venue as a type class over its own state;
      the components below are proved for every instance.
    - [Oms], [OmsInv]: execution/oms.py and its theorems.  The state [OmsState]
      holds the order table, the quarantine, the records, the trace of journal
      records and venue calls, and the venue; [reachable] is the set of states
      its clients' calls lead to, whether a call returns or raises.
    - [Paper], [PaperInv], [PaperProps]: brokers/paper.py, the simulated venue, its
      invariant, and what it promises; [paper_venue] is its instance of [Venue].
    - [PaperOms]: [Oms] over that instance: the system of both, its
      specification as a ledger of executions, and the refinement.
    - [Reconcile]: execution/reconcile.py.  The report under construction, the
      venue's positions (mutable objects, by instrument), the venue, and which of the
      next writes to the journal succeed.
    - [Deadman]: ops/killswitch.py and ops/watchdog.py.  Files are what reading
      them gives; a turn of the watchdog is a function of what it observes.
    - [Portfolio]: risk/portfolio.py.  The group view across accounts.
    - [Ids]: core/ids.py.  The client order id of an intent.
    - [Agent], [AgentDurable], [AgentManage], [AgentEntry], [AgentCycle]:
      agent/orchestrator.py.  The state of the agent and the class [Desk] of what it
      asks of the outside; the durable state, its file, the halt and the budget
      windows; the open positions; signals to orders, the advisory queue and manual
      tickets; the start and the decision cycle, which composes all of the above.
    - [AgentInv], [AgentPaths]: what the parts of the agent leave alone (the orders, the
      counters, the halt), the context [build_context] returns, and the rule by which
      an invariant of the three paths that can open a position is one of the agent.
    - [AgentRestart], [AgentProps], [AgentFacts]: the theorems of the agent;
      [AgentDemo] is a concrete desk, on which a cycle opens a position.
    - [AuditChain]: core/audit.py.  The journal as the lines its file holds, with the
      digest as a parameter; the records the components append are entries of it.
    - [Trials]: research/trials.py.  The ledger of what was searched, and the trial
      count a candidate is charged with.
    - [Verdicts]: research/verdicts.py and the guard of api/state.py.  The registry
      of verdicts, the fingerprint of a configuration, and the check of its badges
      at the start and at a write.
    - [Acceptance], [AcceptanceProps]: research/acceptance.py.  The gates of the
      protocol over the class [Statistics] of estimators, the verdict, promotion and
      suspension; and the theorems, which compose the protocol, the registry and the
      check at the start.
    - [Schedule], [ScheduleProps]: news/schedule.py and the weekly export of
      news/feeds.py.  Recurrence rules, their days and the instants they expand to.
    - [News], [NewsPolicy]: news/calendar.py, news/policy.py and the extractions of
      news/desk.py.  The tables of the economic calendar, the statements that change
      them, the windows, the surprises, and the assessment of every instrument.
    - [NewsInv], [NewsProps]: what every call on the calendar keeps, and the theorems,
      which compose the policy with the engine.
    - [FloatTheory], [UnitFloat], [IsoTime]: the rounding of the binary floats, the floats
      between zero and one, and the moments of a licence with their texts.
    - [Licence], [LicenceTerms]: licensing/license.py and the comparison of
      fingerprint.py.  Licences, their terms, issuing, reading, verifying and renewing,
      over the class [Vendor] of signatures; and the theorems of issuing and renewing.
    - [LicenceGuard], [LicenceLease], [LicenceGate]: licensing/clock_guard.py,
      activation.py, and enforcement.py with integrity.py.  The record of times and the
      cached lease are files the licensee can change between two checks; the gate
      composes a verdict of them, and the start drops to advisory without one.
    - [LicenceProps]: what a record remembers through any checks, and
      the theorems of the gate over any sequence of questions.
    - [CrossValidation], [CrossValidationProps]: research/cv.py.  Purged folds, the
      combinatorial splits and their paths, the walk forward, and the selection of a
      variant out of sample, over the class [Numpy] of two statistics.
    - [Memory], [MemoryProps]: agent/memory.py and the findings of agent/postmortem.py.
      The table of lessons as rows, the statements that change it, the reviews, and the
      caution multiplier, over the class [CMath] of the C library.
    - [Proposals], [ProposalProps]: agent/proposals.py and the end of [Agent._learn].  The
      checks of a proposal, what findings ask for, the lessons of one regime, the queue
      and its file; [learn_findings] composes them with the memory.
    - [Postmortem], [PostmortemProps]: agent/postmortem.py, the step-up procedure of
      research/stats.py and a strategy's pass of [Agent._learn].  The autopsy of a trade
      and its record, the alternative exits, and the findings of many autopsies over the
      class [Scipy]; [learn_strategy] composes the stored records with the two above.
    - [Clock]: core/clock.py, and the quotients of integers as floats: they
      are finite, and truncate to the integer quotient for operands of a calendar.
    - [TerminalWatchdog]: ops/terminal_watchdog.py.  The counters
      of the watchdog over the class [Console] of what it reads and does; the theorem wraps
      a console in one that logs its calls.
    - [Health]: ops/health.py.  Probes and outages; an outage is an object
      the list and the running one share, so they refer into a store.
    - [Bound]: brokers/bound.py.  The account binding as a [Venue] over the
      venue it wraps, with the adapter's other methods by their name.
    - [Jalali], [EquityLedger]: core/jalali.py and ops/equity_ledger.py.  The Persian
      calendar, the table of days and the monthly returns; a day is its ordinal.
    - [Security]: api/security.py.  Accounts and their database, login, sessions,
      lockouts, the second factor and the rate limits; the class [Host] is the
      clocks, the database's failures, the hashes and the authenticator.  A write is
      the two halves that other calls may come between.
    - [SecurityInv], [SecurityRate], [SecurityOwners], [SecurityProps]: what each
      operation leaves alone (lockouts, used codes, rates, accounts) and the
      theorems over any sequence of calls ([run_all]); [demo_host] is a host.

    ** How the components interact

    [Risk] calls [Sizing], [Exposure], [Stress] and [Money] on [Types] under a
    [Config]; the totals of [Portfolio] and the number of orders [Oms] reports
    unresolved are fields of its context.  [Protect] works on one position and
    uses [TzRules] for the weekend.  [Oms] and [Reconcile] call a [Venue], of which [Paper] is an instance.  The
    kill switch of [Deadman] is the first absolute stop of [Risk].  The agent's
    [cycle] polls that switch, hydrates the positions, calls [reconcile] and
    [resolve_all_unknown] when they are due, builds the context of
    [evaluate_entry], calls [evaluate_protection] on every position and [submit]
    on what the engine approved and the mode allows: its state embeds the order
    manager's, and its desk is a venue.  A strategy trades real money only with
    the lifecycle "accepted", the badge that [Acceptance] gives, [Verdicts] stores
    and checks, and the live veto of [Risk] reads.  The assessment of [NewsPolicy]
    is what the agent's desk answers about news, and [blocked_news] of it is the
    blackout in the context of [Risk].  [LicenceGate.may_trade_live] is what the
    desk of the agent answers at its live gate; it sets the mode at the start.  Of the
    findings of a pass [Proposals.learn_findings] makes calls on [Memory], whose caution
    the agent multiplies its sizes by, and proposals, dry-run on [Config].
    The start wraps the venue of a broker in [Bound.bound_venue], an instance of [Venue]
    for which every theorem of the order manager and of the agent holds; the watchdog of
    the terminal looks past it.  [Health] measures with [Clock] the skew that [Risk]
    bounds; [EquityLedger] keeps the equity of each cycle by the months of [Jalali].
    [Security] decides who may give the
    agent an order by hand; it shares no state with it.

    ** What the theorems show

    - Entries ([Risk], [Sizing], [Stress], [Exposure], [Config]): an approved
      entry passed every gate, so none of the absolute stops held, its stop is on
      the losing side, its size is within the lot limits and the risk budget, and
      the prospective book is within the portfolio limits; a decision is always
      returned on validated inputs; the sizing, the drawdown ladder, the stress
      cap, the currency netting and the correlation clusters meet their
      specifications.
    - Orders ([OmsInv]): states move along legal transitions only and terminal
      states are final; an unknown outcome locks its instrument; the trace of
      every order follows the write-ahead protocol with a bounded number of
      sends, one where the venue cannot recognise a repeated id; a submission
      that returns has decided its order.
    - The simulated venue ([PaperInv], [PaperProps]): well-formed after every
      operation that returns or raises; no order executed twice; a bar that
      reaches both barriers scored as the stop; the margin close-out terminates;
      carry independent of how often the clock is read; stops only tighten when
      modified; the log replays from any cursor.
    - Both together ([PaperOms]): every interleaving of calls, prices, cancels and
      clock readings refines a ledger in which an order is executed at most once;
      what the manager says of an order is true of the ledger; resolving the
      unknown orders always returns and settles them.
    - Positions ([Protect], [Reconcile]): protection never gives ground; a
      reconciliation is clean exactly when the books agree and every position has a
      confirmed stop, and one that returns never leaves a position without a stop the
      venue accepted but by halting the agent.
    - The agent ([AgentProps], [AgentFacts], [AgentRestart], [Ids]), for every desk: a
      halted agent, or one whose kill file exists, opens nothing by any call; a cycle
      does what its mode allows; the counted entries stay within the caps once they
      are, if the state file keeps them; the book holds only what the engine approved
      on the context built for it; a restart reads back what was saved; a close is not
      reported unless it was seen; the rolling window of equity marks is the trailing
      day; the order id names the intent.
    - The journal ([AuditChain]): it keeps every record through restarts and crashes
      that tear a line, its chain verifies, as long as nothing is written after a crash
      that lost only a newline, and the head hash pins its content.
    - Acceptance ([Trials], [Verdicts], [AcceptanceProps]): a verdict accepts exactly
      when every gate that is due was judged and passed; after a start every badge
      rests on such a run of this strategy under this fingerprint, which is taken with
      the default policy, and no earned badge is lost; the searches of a family are
      all charged, once each.
    - News ([ScheduleProps], [NewsProps]): a rule, as every bundled series has one,
      expands to exactly its releases; a
      release is one row of the calendar, whatever restates it; a less certain source
      does not move it; an instrument is blocked exactly in the windows of its
      currencies' events or under a contradiction, and the engine then approves no
      entry on it; expectations recorded after they were due and releases
      after the cutoff do not change a surprise.
    - Licences ([LicenceTerms], [LicenceProps]): an issued licence reads back as
      itself and verifies while it is in force; renewals keep the day of the
      subscription; live trading is allowed only on a recent check of a licence that
      is in order, whatever happened to the files; an expiry and a moment that were
      recorded under one machine key are not undone by the clock.  The digests and the
      signatures are parameters, and the file of the record itself can be edited: the
      last theorems show two ways out.
    - Learning ([MemoryProps], [ProposalProps]): a lesson has one active version, and one
      retired for a cause stays retired; the caution it adds up to is a number between
      its floor and one; a proposal moves a parameter within its bounds and not toward
      more risk, is applied only when reviewed and validated, and a pass of learning
      does no more than propose.  An alternative exit is counted wherever its rule would
      have fired ([PostmortemProps]); significance is the step-up procedure; and the
      pass loses the regime its evidence comes from.
    - Research ([CrossValidationProps]): a training set holds no label that reaches what
      is tested; the choice of a variant depends on no bar that is held out; the paths
      visit all of history; the walk forward ends and looks back only.
    - Access ([SecurityProps], [SecurityOwners]): a lockout holds until it expires;
      the text of a code authorises one write, of those that do not overlap; the
      attempts at a code are bounded per minute; a write needs the role the account has
      now, and so does a session; an enabled owner remains whatever is called and
      whatever the database refuses, if no other process takes one away.
    - The terminal ([Bound], [TerminalWatchdog], [Health], [EquityLedger], [Jalali]): a
      guarded call reaches the venue only right after it stated an account that serves
      the binding; the watchdog acts only in its order and at its times; the outages are
      the runs of failed probes; a monthly return is of the last day recorded in its month
      against the last one recorded before it, or against an earlier one in it, on one
      account; the Persian dates of 1178 to 1633 count days and their months follow the
      days.
    - Operations ([Deadman], [Portfolio], [TzRules], [Money]): a stale heartbeat keeps
      the kill file in place, unless the journal or the file refuses it; outages are
      journalled as episodes; the group totals count every row or report it; time-zone
      round trips; grid rounding.
    - A few theorems of kind "error" state behaviour the code does not intend:
      each names inputs on which an operation raises or loses information.

    ** Conventions, bounds and fuel

    Names follow the source; a record's fields carry a prefix.  A block that
    appends vetoes returns them; a method that changes its object is a
    computation of [StateExn].  [Oms.send_loop] runs on fuel
    [Oms.submit_fuel] = max_retries + 1, the number of attempts the loop
    condition admits (an exhausted fuel ends like an exhausted budget);
    [Paper.margin_loop] on the number of positions, and
    [PaperProps.margin_loop_closes_out] proves it enough.  Decimals
    leave out the sign of zero, the non-finite values and the exponent limits.
    Binary floats appear where the code divides nanoseconds by 1e9 and in the
    frictions of the simulated venue: they are the standard library's [SpecFloat]
    at double precision.  The draws of [random.Random] and the power of the C
    library are a parameter ([Paper.Random]), of which nothing is assumed; of the powers
    of one half and the logarithms of the lessons [MemoryProps.CMathLaws] states the range.
    [CrossValidation.wf_loop] runs on fuel, and [walk_forward_looks_back] proves
    [wf_fuel] turns enough.

    ** What is not modelled

    The network venue adapters, strategies, the estimators and backtests of the
    research, the texts and downloads of the news, learning, the routes
    of the HTTP interface and the dashboard; messages, [to_dict] and other
    presentation everywhere; threads inside one order manager; statistics on
    binary floats (execution reports, rolling correlation).  Of the
    agent: the correlation matrix, the ADX and the regime of a frame, the bars a
    trade lived through, the pass of learning and the statistic of the performance guard
    are answers of the desk, whose content [Postmortem.learn_strategy] gives, over trades
    and bars that are its input; the callback after a cycle, the heartbeat thread, explanations and the display
    copies of a decision are left out.  A position a venue returns is a fresh
    object, and the decisions a cycle lists are those at the time it returned.  Of
    the accounts: the summaries, the enrolment address and the threads, except for
    the two halves of a write; texts are Latin-1.  Of licensing: keys, envelopes, the
    probing of a machine, signing leases and manifests, the request to the vendor.

    ** Plan

    What could follow: the flatten of the dead-man watchdog, the retries and topics of the
    notifications, the matching of broker connections to profiles. *)

From Stdlib Require Import ZArith QArith Lia Lqa.
From stdpp Require Export base decidable gmap strings list.

Declare Scope py_scope.
Delimit Scope py_scope with py.

(** ** Raising code *)

(** The exceptions the modelled code can raise; messages are not kept. *)
Inductive exn :=
| ValueError
| KeyError
| IndexError
| InvalidOperation
| DivisionByZero
| OverflowError
| TypeError
| AttributeError
| OSError
| IllegalTransition
| AuditChainDamaged
| ConfigError
| ConversionMissingError
| TransientError
| PermanentError
| UnknownOutcomeError
| BrokerError
| LicenseInvalid
| LicenseExpired
| LicenseMachineMismatch
| LeaseError
| OtherError.

#[export] Instance exn_eq_dec : EqDecision exn.
Proof. solve_decision. Defined.

(** A Python expression that either has a value or raises. *)
Inductive res (A : Type) :=
| Ok (a : A)
| Raise (e : exn).
Arguments Ok {A} a.
Arguments Raise {A} e.

Definition rbind {A B} (c : res A) (k : A -> res B) : res B :=
  match c with
  | Ok a => k a
  | Raise e => Raise e
  end.

Notation "'let*' x ':=' c 'in' k" := (rbind c (fun x => k))
  (at level 10, x pattern, c at level 100, k at level 200) : py_scope.

(** ** Tactics *)

(** Open every existential and conjunction of the context. *)
Ltac open_all :=
  repeat match goal with
  | H : _ /\ _ |- _ => destruct H
  | H : exists x, _ |- _ => let y := fresh x in destruct H as [y H]
  end.

(** Split a successful bind into its two successful parts. *)
Ltac inv_res :=
  repeat match goal with
  | H : rbind ?c _ = Ok _ |- _ =>
      let E := fresh "E" in destruct c eqn:E; cbn [rbind] in H; [|discriminate H]
  | H : Ok _ = Ok _ |- _ => injection H as H
  | H : Raise _ = Ok _ |- _ => discriminate H
  | H : Ok _ = Raise _ |- _ => discriminate H
  end.

(** Decide the next [if] of the hypothesis or of the goal, keeping the equation. *)
Ltac case_if E :=
  match goal with
  | |- context [if ?b then _ else _] => destruct b eqn:E
  end.
Ltac case_if_in H E :=
  match type of H with
  | context [if ?b then _ else _] => destruct b eqn:E
  end.

Lemma Ok_inj {A} (a b : A) : Ok a = Ok b -> a = b.
Proof. now intros [= ->]. Qed.

Lemma rbind_Ok {A B} (c : res A) (k : A -> res B) b :
  rbind c k = Ok b <-> exists a, c = Ok a /\ k a = Ok b.
Proof. destruct c; cbn; split; [eauto|intros (?&[= ->]&?); auto|discriminate|intros (?&[=]&_)]. Qed.

(** [for x in xs: out.extend(f(x))], stopping at the first exception. *)
Fixpoint rflat {A B} (f : A -> res (list B)) (xs : list A) : res (list B) :=
  match xs with
  | [] => Ok []
  | x :: rest => rbind (f x) (fun ys => rbind (rflat f rest) (fun zs => Ok (ys ++ zs)))
  end.

Lemma rflat_total {A B} (f : A -> res (list B)) xs :
  (forall x, x ∈ xs -> exists ys, f x = Ok ys) -> exists zs, rflat f xs = Ok zs.
Proof.
  induction xs as [|x xs IH]; intros H; cbn [rflat]; [eauto|].
  destruct (H x) as [ys ->]; [set_solver|]. cbn [rbind].
  destruct IH as [zs ->]; [set_solver|]. cbn [rbind]. eauto.
Qed.

Lemma rflat_nil {A B} (f : A -> res (list B)) xs :
  rflat f xs = Ok [] -> forall x, x ∈ xs -> f x = Ok [].
Proof.
  induction xs as [|x xs IH]; cbn [rflat]; [set_solver|].
  destruct (f x) as [ys|] eqn:E; [|discriminate]. cbn [rbind].
  destruct (rflat f xs) as [zs|]; [|discriminate]. cbn [rbind]. intros [= H].
  apply app_eq_nil in H as [-> ->]. intros z Hz. apply elem_of_cons in Hz as [->|Hz]; auto.
Qed.

(** ** Lists as Python uses them *)

(** Insertion of a key in a sorted list of keys, without duplicates. *)
Fixpoint insert_key (k : string) (ks : list string) : list string :=
  match ks with
  | [] => [k]
  | x :: rest =>
      match String.compare k x with
      | Lt => k :: ks
      | Eq => ks
      | Gt => x :: insert_key k rest
      end
  end.

(** [sorted(set(ks))]. *)
Definition sorted_set (ks : list string) : list string := foldr insert_key [] ks.

(** Insertion of a string in a sorted list, duplicates kept. *)
Fixpoint insert_str (k : string) (ks : list string) : list string :=
  match ks with
  | [] => [k]
  | x :: rest => if String.leb k x then k :: ks else x :: insert_str k rest
  end.

(** [sorted(ks)]. *)
Definition sorted_strings (ks : list string) : list string := foldr insert_str [] ks.

(** [list(dict.fromkeys(xs))]: first occurrences, in order. *)
Fixpoint fromkeys_aux (seen xs : list string) : list string :=
  match xs with
  | [] => []
  | x :: rest => if bool_decide (x ∈ seen) then fromkeys_aux seen rest
                 else x :: fromkeys_aux (x :: seen) rest
  end.
Definition fromkeys (xs : list string) : list string := fromkeys_aux [] xs.

(** The pairs [(a, b)] with [a] before [b], in the order of the nested loops
    [for i, a in enumerate(xs): for b in xs[i + 1:]]. *)
Fixpoint pairs_of {A} (xs : list A) : list (A * A) :=
  match xs with
  | [] => []
  | x :: rest => map (pair x) rest ++ pairs_of rest
  end.

Lemma sorted_set_elem x ks : x ∈ sorted_set ks <-> x ∈ ks.
Proof.
  induction ks as [|k ks IH]; [done|]. cbn [sorted_set foldr]. fold (sorted_set ks).
  rewrite elem_of_cons, <- IH. clear IH. generalize (sorted_set ks) as l. intros l.
  induction l as [|y l IH]; cbn [insert_key]; [set_solver|].
  destruct (String.compare k y) eqn:E.
  - apply String.compare_eq_iff in E. subst. set_solver.
  - set_solver.
  - rewrite !elem_of_cons, IH. tauto.
Qed.

Lemma sorted_strings_perm ks : sorted_strings ks ≡ₚ ks.
Proof.
  induction ks as [|k ks IH]; [done|]. cbn [sorted_strings foldr]. fold (sorted_strings ks).
  rewrite <- IH at 2. clear IH. generalize (sorted_strings ks) as l. intros l.
  induction l as [|y l IH]; cbn [insert_str]; [done|].
  destruct (String.leb k y); [done|]. rewrite IH. constructor.
Qed.

Lemma fromkeys_aux_spec seen xs x : x ∈ fromkeys_aux seen xs <-> x ∈ xs /\ x ∉ seen.
Proof.
  revert seen. induction xs as [|y xs IH]; intros seen; cbn [fromkeys_aux]; [set_solver|].
  case_bool_decide as E; rewrite ?elem_of_cons, IH; [set_solver|].
  destruct (decide (x = y)) as [->|]; set_solver.
Qed.

Lemma fromkeys_elem xs x : x ∈ fromkeys xs <-> x ∈ xs.
Proof. unfold fromkeys. rewrite fromkeys_aux_spec. set_solver. Qed.

Lemma fromkeys_aux_NoDup seen xs : NoDup (fromkeys_aux seen xs).
Proof.
  revert seen. induction xs as [|y xs IH]; intros seen; cbn [fromkeys_aux]; [constructor|].
  case_bool_decide; [apply IH|]. constructor; [|apply IH].
  rewrite fromkeys_aux_spec. set_solver.
Qed.

Lemma fromkeys_NoDup xs : NoDup (fromkeys xs).
Proof. apply fromkeys_aux_NoDup. Qed.

Lemma pairs_of_elem {A} (xs : list A) a b : (a, b) ∈ pairs_of xs -> a ∈ xs /\ b ∈ xs.
Proof.
  induction xs as [|x xs IH]; cbn [pairs_of]; [set_solver|].
  rewrite elem_of_app. intros [H|H]; [|set_solver].
  apply list_elem_of_In, in_map_iff in H as (y & [= <- <-] & Hy). apply list_elem_of_In in Hy. set_solver.
Qed.
