(* ===== verification/DecimalTheory.v ===== *)
(** Theory of the decimal arithmetic of [PyDecimal]: the rational value of a
    decimal, the nearest-representable relation every operation satisfies, its
    monotonicity and its relative error, the specification of the comparisons
    and of [to_integral_value] and [quantize]. *)

From Stdlib Require Import ZArith QArith Qabs Qpower Lia Lqa.
From stdpp Require Import base.
From S2P Require Import Prelude PyDecimal.

Local Open Scope Z_scope.

#[export] Instance Qeq_default : SetoidTactics.DefaultRelation Qeq := {}.

(** ** Powers of ten and values *)

Definition p10 (e : Z) : Q := ((10 # 1) ^ e)%Q.

Definition dval (d : decimal) : Q := (inject_Z (coef d) * p10 (expo d))%Q.

Lemma p10_pos e : (0 < p10 e)%Q.
Proof. apply Qpower_0_lt. reflexivity. Qed.

Lemma p10_add a b : (p10 (a + b) == p10 a * p10 b)%Q.
Proof. apply Qpower_plus. discriminate. Qed.

Lemma p10_Z e : 0 <= e -> (p10 e == inject_Z (10 ^ e))%Q.
Proof. intros. unfold p10. now rewrite Zpower_Qpower. Qed.

Lemma p10_le a b : a <= b -> (p10 a <= p10 b)%Q.
Proof.
  intros H. destruct (Z.eq_dec a b) as [->|]; [apply Qle_refl|].
  apply Qlt_le_weak, Qpower_lt_compat_l; [lia|reflexivity].
Qed.

Lemma p10_shift c e k : 0 <= k -> (inject_Z c * p10 (e + k) == inject_Z (c * 10 ^ k) * p10 e)%Q.
Proof. intros. rewrite p10_add, (p10_Z k) by lia. rewrite inject_Z_mult. ring. Qed.

Lemma inject_Z_le a b : (inject_Z a <= inject_Z b)%Q <-> a <= b.
Proof. symmetry. rewrite Zle_Qle. reflexivity. Qed.

Lemma inject_Z_lt a b : (inject_Z a < inject_Z b)%Q <-> a < b.
Proof. symmetry. rewrite Zlt_Qlt. reflexivity. Qed.

Lemma scaled_le a b e : (inject_Z a * p10 e <= inject_Z b * p10 e)%Q <-> a <= b.
Proof. rewrite Qmult_le_r by apply p10_pos. apply inject_Z_le. Qed.

Lemma scaled_lt a b e : (inject_Z a * p10 e < inject_Z b * p10 e)%Q <-> a < b.
Proof. rewrite Qmult_lt_r by apply p10_pos. apply inject_Z_lt. Qed.

Lemma dval_at_exp d e : e <= expo d -> (dval d == inject_Z (at_exp d e) * p10 e)%Q.
Proof.
  intros. unfold dval, at_exp. rewrite <- p10_shift by lia.
  now replace (e + (expo d - e)) with (expo d) by lia.
Qed.

Lemma dval_mk c e : (dval (mkDec c e) == inject_Z c * p10 e)%Q.
Proof. reflexivity. Qed.

Lemma dval_ZERO : (dval ZERO == 0)%Q.
Proof. reflexivity. Qed.

Lemma dval_of_Z z : (dval (dec_of_Z z) == inject_Z z)%Q.
Proof. unfold dval. cbn. unfold p10. cbn. ring. Qed.

(** ** Comparisons *)

Lemma dleb_spec a b : dleb a b = true <-> (dval a <= dval b)%Q.
Proof.
  unfold dleb. cbv zeta.
  rewrite (dval_at_exp a (Z.min (expo a) (expo b))), (dval_at_exp b (Z.min (expo a) (expo b))) by lia.
  rewrite scaled_le, Z.leb_le. reflexivity.
Qed.

Lemma dltb_spec a b : dltb a b = true <-> (dval a < dval b)%Q.
Proof.
  unfold dltb. rewrite Bool.negb_true_iff, <- Bool.not_true_iff_false, dleb_spec.
  split; intros; lra.
Qed.

Lemma dleb_false a b : dleb a b = false <-> (dval b < dval a)%Q.
Proof. rewrite <- Bool.not_true_iff_false, dleb_spec. split; intros; lra. Qed.

Lemma dltb_false a b : dltb a b = false <-> (dval b <= dval a)%Q.
Proof. rewrite <- Bool.not_true_iff_false, dltb_spec. split; intros; lra. Qed.

Lemma deqb_spec a b : deqb a b = true <-> (dval a == dval b)%Q.
Proof.
  unfold deqb. cbv zeta. set (e := Z.min _ _).
  rewrite (dval_at_exp a e), (dval_at_exp b e) by lia.
  rewrite Z.eqb_eq. split.
  - intros ->. reflexivity.
  - intros H. apply Z.le_antisymm; apply (scaled_le _ _ e); lra.
Qed.

Lemma is_zero_spec a : is_zero a = true <-> (dval a == 0)%Q.
Proof.
  unfold is_zero, dval. rewrite Z.eqb_eq. pose proof (p10_pos (expo a)). split.
  - intros ->. ring.
  - intros H'. apply Qmult_integral in H' as [H'|H']; [|lra].
    unfold Qeq in H'. cbn in H'. lia.
Qed.

Lemma is_zero_false a : is_zero a = false <-> ~ (dval a == 0)%Q.
Proof. rewrite <- Bool.not_true_iff_false, is_zero_spec. reflexivity. Qed.


Lemma dmin_le_l a b : (dval (dmin a b) <= dval a)%Q.
Proof. unfold dmin. destruct (dltb b a) eqn:E; [apply dltb_spec in E|]; lra. Qed.

Lemma dmin_le_r a b : (dval (dmin a b) <= dval b)%Q.
Proof. unfold dmin. destruct (dltb b a) eqn:E; [|apply dltb_false in E]; lra. Qed.

Lemma dmax_ge_l a b : (dval a <= dval (dmax a b))%Q.
Proof. unfold dmax. destruct (dltb a b) eqn:E; [apply dltb_spec in E|]; lra. Qed.

Lemma dmax_ge_r a b : (dval b <= dval (dmax a b))%Q.
Proof. unfold dmax. destruct (dltb a b) eqn:E; [|apply dltb_false in E]; lra. Qed.

Lemma dmin_cases a b : dmin a b = a \/ dmin a b = b.
Proof. unfold dmin. destruct (dltb b a); auto. Qed.

Lemma dmax_cases a b : dmax a b = a \/ dmax a b = b.
Proof. unfold dmax. destruct (dltb a b); auto. Qed.

(** ** Digits *)

Lemma ndigits_fuel_spec f n :
  0 < n -> Z.log2 n <= Z.of_nat f ->
  1 <= ndigits_fuel f n /\ 10 ^ (ndigits_fuel f n - 1) <= n < 10 ^ ndigits_fuel f n.
Proof.
  revert n. induction f as [|f IH]; intros n Hn Hl; cbn [ndigits_fuel].
  - assert (n = 1) as -> by (pose proof (Z.log2_spec n Hn); pose proof (Z.log2_nonneg n);
      assert (Z.log2 n = 0) as E by lia; rewrite E in *; change (2 ^ Z.succ 0) with 2 in *; lia).
    cbn. lia.
  - destruct (Z.ltb_spec n 10); [cbn; lia|].
    assert (0 < n / 10) by (apply Z.div_str_pos; lia).
    assert (Z.log2 (n / 10) <= Z.of_nat f).
    { assert (n / 10 < 2 ^ Z.log2 n).
      { pose proof (Z.log2_spec n Hn) as [_ H2]. rewrite Z.pow_succ_r in H2 by apply Z.log2_nonneg.
        apply Z.div_lt_upper_bound; lia. }
      apply Z.log2_lt_pow2 in H1; lia. }
    destruct (IH (n / 10)) as (H2 & H3 & H4); auto.
    set (k := ndigits_fuel f (n / 10)) in *. split; [lia|].
    replace (1 + k - 1) with (Z.succ (k - 1)) by lia. replace (1 + k) with (Z.succ k) by lia.
    rewrite !Z.pow_succ_r by lia.
    pose proof (Z.div_mod n 10 ltac:(lia)). pose proof (Z.mod_pos_bound n 10 ltac:(lia)). lia.
Qed.

Lemma ndigits_spec n :
  0 < n -> 1 <= ndigits n /\ 10 ^ (ndigits n - 1) <= n < 10 ^ ndigits n.
Proof.
  intros. apply ndigits_fuel_spec; [lia|].
  rewrite Z2Nat.id; [lia | apply Z.log2_nonneg].
Qed.

Lemma ndigits_pos n : 0 <= n -> 1 <= ndigits n.
Proof.
  intros. destruct (Z.eq_dec n 0) as [->|]; [reflexivity|]. apply ndigits_spec; lia.
Qed.

Lemma ndigits_lt n : 0 <= n -> n < 10 ^ ndigits n.
Proof.
  intros. destruct (Z.eq_dec n 0) as [->|]; [reflexivity|]. apply ndigits_spec; lia.
Qed.

Lemma ndigits_le_iff n k : 0 <= n -> 1 <= k -> ndigits n <= k <-> n < 10 ^ k.
Proof.
  intros Hn Hk. split; intros H.
  - apply Z.lt_le_trans with (10 ^ ndigits n); [now apply ndigits_lt|].
    apply Z.pow_le_mono_r; lia.
  - destruct (Z.eq_dec n 0) as [->|]; [exact Hk|].
    destruct (ndigits_spec n ltac:(lia)) as (H1 & H2 & _).
    assert (10 ^ (ndigits n - 1) < 10 ^ k) as H3 by lia.
    apply Z.pow_lt_mono_r_iff in H3; lia.
Qed.

(** ** Rounding to an integer *)

Lemma half_even_err n d : 0 < d -> 2 * Z.abs (half_even n d * d - n) <= d.
Proof.
  intros Hd. unfold half_even. cbv zeta.
  pose proof (Z.div_mod n d ltac:(lia)). pose proof (Z.mod_pos_bound n d Hd).
  destruct (Z.ltb_spec (2 * (n mod d)) d); [nia|].
  destruct (Z.ltb_spec d (2 * (n mod d))); [nia|].
  destruct (Z.even (n / d)); nia.
Qed.

Lemma half_even_nonneg n d : 0 < d -> 0 <= n -> 0 <= half_even n d.
Proof.
  intros Hd Hn. unfold half_even. cbv zeta.
  pose proof (Z.div_pos n d Hn Hd).
  repeat (match goal with |- context [if ?b then _ else _] => destruct b end; try lia).
Qed.

Lemma half_even_1 n : half_even n 1 = n.
Proof. unfold half_even. cbv zeta. rewrite Z.div_1_r, Z.mod_1_r. reflexivity. Qed.

Lemma half_even_exact q d : 0 < d -> half_even (q * d) d = q.
Proof.
  intros. unfold half_even. cbv zeta. rewrite Z.mod_mul, Z.div_mul by lia.
  destruct (Z.ltb_spec (2 * 0) d); lia.
Qed.

Lemma half_even_upper n d m : 0 < d -> n <= m * d -> half_even n d <= m.
Proof. intros Hd Hn. pose proof (half_even_err n d Hd). nia. Qed.

Lemma half_even_lower n d m : 0 < d -> m * d <= n -> m <= half_even n d.
Proof. intros Hd Hn. pose proof (half_even_err n d Hd). nia. Qed.

(** ** Representable values and correct rounding *)

(** A value with at most [p] significant digits ([10 ^ p] itself included). *)
Definition Repr (p : Z) (x : Q) : Prop :=
  exists c e, Z.abs c <= 10 ^ p /\ (x == inject_Z c * p10 e)%Q.

(** Half a unit in the last place, relatively: [10 ^ (1 - p) / 2]. *)
Definition ulp (p : Z) : Q := (p10 (1 - p) * (1 # 2))%Q.

(** [r] is [x] correctly rounded to [p] digits. *)
Record Rounded (p : Z) (x r : Q) : Prop := {
  rounded_repr : Repr p r;
  rounded_nearest : forall y, Repr p y -> (Qabs (r - x) <= Qabs (y - x))%Q;
  rounded_err : (Qabs (r - x) <= Qabs x * ulp p)%Q;
}.

#[export] Instance Repr_proper p : Morphisms.Proper (Qeq ==> iff) (Repr p).
Proof. intros x y E. unfold Repr. setoid_rewrite E. reflexivity. Qed.

#[export] Instance Rounded_proper p : Morphisms.Proper (Qeq ==> Qeq ==> iff) (Rounded p).
Proof.
  intros x y E r s F; split; intros [H1 H2 H3]; split.
  - now rewrite <- F.
  - intros. rewrite <- E, <- F. auto.
  - now rewrite <- E, <- F.
  - now rewrite F.
  - intros. rewrite E, F. auto.
  - now rewrite E, F.
Qed.

Lemma ulp_pos p : (0 < ulp p)%Q.
Proof. unfold ulp. pose proof (p10_pos (1 - p)). lra. Qed.

Lemma Repr_opp p x : Repr p x -> Repr p (- x).
Proof.
  intros (c & e & H & E). exists (- c), e. split; [lia|].
  rewrite E, inject_Z_opp. ring.
Qed.

Lemma Rounded_self p x : Repr p x -> Rounded p x x.
Proof.
  intros H. assert (E : (Qabs (x - x) == 0)%Q).
  { setoid_replace (x - x)%Q with 0%Q by ring. reflexivity. }
  split; [exact H| |]; intros; rewrite E.
  - apply Qabs_nonneg.
  - apply Qmult_le_0_compat; [apply Qabs_nonneg | apply Qlt_le_weak, ulp_pos].
Qed.

Lemma Qabs_minus_opp x y : (Qabs (- x - - y) == Qabs (x - y))%Q.
Proof.
  setoid_replace (- x - - y)%Q with (- (x - y))%Q by ring. apply Qabs_opp.
Qed.

Lemma Rounded_opp p x r : Rounded p x r -> Rounded p (- x) (- r).
Proof.
  intros [H1 H2 H3]. split.
  - now apply Repr_opp.
  - intros y Hy. rewrite Qabs_minus_opp.
    specialize (H2 (- y)%Q (Repr_opp _ _ Hy)).
    setoid_replace (- y - x)%Q with (- (y - - x))%Q in H2 by ring.
    now rewrite Qabs_opp in H2.
  - rewrite Qabs_minus_opp, Qabs_opp. exact H3.
Qed.

Lemma Qabs_le_iff x y : (Qabs x <= y)%Q <-> (- y <= x /\ x <= y)%Q.
Proof. apply Qabs_Qle_condition. Qed.

Lemma Qabs_cases x : (Qabs x == x /\ 0 <= x)%Q \/ (Qabs x == - x /\ x <= 0)%Q.
Proof.
  destruct (Qlt_le_dec x 0).
  - right. split; [apply Qabs_neg; lra | lra].
  - left. split; [now apply Qabs_pos | lra].
Qed.

(** Nothing representable is nearer to [x] than the nearest multiple of a
    quantum that is fine enough for [x]. *)
Lemma grid_nearest p x m q :
  1 <= p ->
  (p10 (q + p - 1) <= x)%Q ->
  (Qabs (inject_Z m * p10 q - x) <= p10 q * (1 # 2))%Q ->
  forall y, Repr p y -> (Qabs (inject_Z m * p10 q - x) <= Qabs (y - x))%Q.
Proof.
  intros Hp Hx Hm. pose proof (p10_pos q) as Hq.
  assert (Hgrid : forall z, (Qabs (inject_Z m * p10 q - x) <= Qabs (inject_Z z * p10 q - x))%Q).
  { intros z. destruct (Z.eq_dec z m) as [->|Hne]; [lra|].
    apply Qabs_le_iff in Hm as [Hl Hu].
    assert (Hd : (inject_Z z * p10 q <= inject_Z m * p10 q - p10 q
                 \/ inject_Z m * p10 q + p10 q <= inject_Z z * p10 q)%Q).
    { destruct (Z.lt_ge_cases z m).
      - left. assert (inject_Z (z + 1) * p10 q <= inject_Z m * p10 q)%Q by (apply scaled_le; lia).
        rewrite inject_Z_plus in H0. change (inject_Z 1) with 1%Q in H0. lra.
      - right. assert (inject_Z (m + 1) * p10 q <= inject_Z z * p10 q)%Q by (apply scaled_le; lia).
        rewrite inject_Z_plus in H0. change (inject_Z 1) with 1%Q in H0. lra. }
    destruct (Qabs_cases (inject_Z m * p10 q - x)) as [[-> ?]|[-> ?]];
    destruct (Qabs_cases (inject_Z z * p10 q - x)) as [[-> ?]|[-> ?]]; destruct Hd; lra. }
  intros y (c & e & Hc & ->). destruct (Z.lt_ge_cases e q) as [He|He].
  - (* finer than the quantum: bounded by 10^(q+p-1), itself a multiple *)
    specialize (Hgrid (10 ^ (p - 1))).
    assert (E : (inject_Z (10 ^ (p - 1)) * p10 q == p10 (q + p - 1))%Q).
    { rewrite <- p10_Z by lia. rewrite <- p10_add. now replace (p - 1 + q) with (q + p - 1) by lia. }
    rewrite E in Hgrid.
    assert (Hy : (inject_Z c * p10 e <= p10 (q + p - 1))%Q).
    { apply Qle_trans with (inject_Z (10 ^ p) * p10 e)%Q; [apply scaled_le; lia|].
      rewrite <- p10_Z by lia. rewrite <- p10_add. apply p10_le. lia. }
    destruct (Qabs_cases (p10 (q + p - 1) - x)) as [[A ?]|[A ?]];
    destruct (Qabs_cases (inject_Z c * p10 e - x)) as [[B ?]|[B ?]];
      rewrite ?A, ?B in *; lra.
  - specialize (Hgrid (c * 10 ^ (e - q))).
    rewrite <- p10_shift in Hgrid by lia. now replace (q + (e - q)) with e in Hgrid by lia.
Qed.

Lemma grid_rounded p x m q :
  1 <= p -> 0 <= m <= 10 ^ p ->
  (p10 (q + p - 1) <= x)%Q ->
  (Qabs (inject_Z m * p10 q - x) <= p10 q * (1 # 2))%Q ->
  Rounded p x (inject_Z m * p10 q).
Proof.
  intros Hp Hm Hx He. split.
  - exists m, q. split; [lia|reflexivity].
  - now apply grid_nearest.
  - pose proof (p10_pos (q + p - 1)). rewrite (Qabs_pos x) by lra.
    apply Qle_trans with (p10 (q + p - 1) * ulp p)%Q.
    + unfold ulp. rewrite Qmult_assoc, <- p10_add.
      now replace (q + p - 1 + (1 - p)) with q by lia.
    + apply Qmult_le_r; [apply ulp_pos | exact Hx].
Qed.

(** *** Consequences *)

Section RoundedFacts.
Context {p : Z}.
Implicit Types x y r s m : Q.

Lemma Rounded_exact x r : Repr p x -> Rounded p x r -> (r == x)%Q.
Proof.
  intros Hx [_ H _]. specialize (H x Hx).
  setoid_replace (x - x)%Q with 0%Q in H by ring. change (Qabs 0) with 0%Q in H.
  destruct (Qabs_cases (r - x)) as [[E ?]|[E ?]]; rewrite E in H; lra.
Qed.

Lemma Rounded_mono_strict x y r s :
  (x < y)%Q -> Rounded p x r -> Rounded p y s -> (r <= s)%Q.
Proof.
  intros Hxy [Rr Hr _] [Rs Hs _]. specialize (Hr s Rs). specialize (Hs r Rr).
  destruct (Qlt_le_dec s r) as [C|C]; [exfalso|exact C].
  destruct (Qabs_cases (r - x)) as [[A ?]|[A ?]], (Qabs_cases (s - x)) as [[B ?]|[B ?]],
    (Qabs_cases (r - y)) as [[A' ?]|[A' ?]], (Qabs_cases (s - y)) as [[B' ?]|[B' ?]];
    rewrite A, B in Hr; rewrite A', B' in Hs; lra.
Qed.

(** A representable bound on the exact value bounds the rounded one. *)
Lemma Rounded_le x r m : Repr p m -> (x <= m)%Q -> Rounded p x r -> (r <= m)%Q.
Proof.
  intros Hm Hxm Hr. apply Qle_lteq in Hxm as [Hlt|Heq].
  - eapply Rounded_mono_strict; eauto using Rounded_self.
  - rewrite Heq in Hr. apply Rounded_exact in Hr; [lra|exact Hm].
Qed.

Lemma Rounded_ge x r m : Repr p m -> (m <= x)%Q -> Rounded p x r -> (m <= r)%Q.
Proof.
  intros Hm Hxm Hr. apply Qle_lteq in Hxm as [Hlt|Heq].
  - eapply Rounded_mono_strict; eauto using Rounded_self.
  - rewrite <- Heq in Hr. apply Rounded_exact in Hr; [lra|exact Hm].
Qed.

Lemma Repr_0 : 0 <= p -> Repr p 0.
Proof. exists 0, 0. split; [|reflexivity]. change (Z.abs 0) with 0. lia. Qed.

Lemma Rounded_nonneg x r : 0 <= p -> (0 <= x)%Q -> Rounded p x r -> (0 <= r)%Q.
Proof. intros Hp. apply Rounded_ge, Repr_0, Hp. Qed.

Lemma Rounded_nonpos x r : 0 <= p -> (x <= 0)%Q -> Rounded p x r -> (r <= 0)%Q.
Proof. intros Hp. apply Rounded_le, Repr_0, Hp. Qed.

Lemma ulp_le_half : 1 <= p -> (ulp p <= 1 # 2)%Q.
Proof.
  intros. unfold ulp. assert (p10 (1 - p) <= p10 0)%Q by (apply p10_le; lia).
  change (p10 0) with 1%Q in H0. lra.
Qed.

Lemma Rounded_upper x r : (0 <= x)%Q -> Rounded p x r -> (r <= x * (1 + ulp p))%Q.
Proof.
  intros Hx [_ _ H]. rewrite (Qabs_pos x) in H by assumption.
  apply Qabs_le_iff in H as [_ H]. lra.
Qed.

Lemma Rounded_lower x r : (0 <= x)%Q -> Rounded p x r -> (x * (1 - ulp p) <= r)%Q.
Proof.
  intros Hx [_ _ H]. rewrite (Qabs_pos x) in H by assumption.
  apply Qabs_le_iff in H as [H _]. lra.
Qed.

Lemma Rounded_pos x r : 1 <= p -> (0 < x)%Q -> Rounded p x r -> (0 < r)%Q.
Proof.
  intros Hp Hx Hr. apply Rounded_lower in Hr; [|lra].
  pose proof (ulp_le_half Hp). nra.
Qed.

Lemma Rounded_neg x r : 1 <= p -> (x < 0)%Q -> Rounded p x r -> (r < 0)%Q.
Proof.
  intros Hp Hx Hr. apply Rounded_opp, Rounded_pos in Hr; lra || auto.
Qed.
End RoundedFacts.

(** ** The operations are correctly rounded *)

Lemma Qabs_scaled z e : (Qabs (inject_Z z * p10 e) == inject_Z (Z.abs z) * p10 e)%Q.
Proof.
  rewrite Qabs_Qmult, (Qabs_pos (p10 e)) by apply Qlt_le_weak, p10_pos. reflexivity.
Qed.

(** The integer form of "within half a quantum". *)
Lemma half_quantum m n d e k :
  0 <= k -> 0 < d ->
  2 * Z.abs (m * 10 ^ k * d - n) <= 10 ^ k * d ->
  (Qabs (inject_Z m * p10 (e + k) - (inject_Z n / inject_Z d) * p10 e) <= p10 (e + k) * (1 # 2))%Q.
Proof.
  intros Hk Hd H. rewrite p10_shift by lia.
  assert (Hd' : (0 < inject_Z d)%Q) by now apply (inject_Z_lt 0).
  assert (E : (inject_Z (m * 10 ^ k) * p10 e - inject_Z n / inject_Z d * p10 e
               == inject_Z (m * 10 ^ k * d - n) * p10 e / inject_Z d)%Q).
  { unfold Zminus. rewrite inject_Z_plus, inject_Z_opp, (inject_Z_mult (m * 10 ^ k) d).
    field. lra. }
  rewrite E. unfold Qdiv. rewrite Qabs_Qmult, Qabs_scaled.
  rewrite (Qabs_pos (/ inject_Z d)) by (apply Qlt_le_weak, Qinv_lt_0_compat, Hd').
  apply Qle_shift_div_r; [exact Hd'|].
  assert (E2 : (p10 (e + k) * (1 # 2) * inject_Z d
                == inject_Z (10 ^ k * d) * p10 e * (1 # 2))%Q).
  { rewrite p10_add, (p10_Z k) by lia. rewrite inject_Z_mult. ring. }
  rewrite E2.
  assert (H' : (inject_Z (2 * Z.abs (m * 10 ^ k * d - n)) * p10 e <= inject_Z (10 ^ k * d) * p10 e)%Q)
    by now apply scaled_le.
  rewrite inject_Z_mult in H'. change (inject_Z 2) with 2%Q in H'. lra.
Qed.

Definition signed (s : Z) (x : Q) : Q := (inject_Z s * x)%Q.

Lemma Rounded_signed p c x r :
  Rounded p x r -> Rounded p (inject_Z (Z.sgn c) * x) (inject_Z (Z.sgn c) * r).
Proof.
  intros H. assert (Hs : Z.sgn c = 0 \/ Z.sgn c = 1 \/ Z.sgn c = -1) by lia.
  destruct Hs as [->|[->| ->]].
  - assert (0 <= 10 ^ p) by (apply Z.pow_nonneg; lia).
    assert (E : forall z, (inject_Z 0 * z == 0)%Q) by (intros; ring). rewrite !E.
    apply Rounded_self. exists 0, 0. split; [exact H0|reflexivity].
  - assert (E : forall z, (inject_Z 1 * z == z)%Q) by (intros; ring). now rewrite !E.
  - assert (E : forall z, (inject_Z (-1) * z == - z)%Q) by (intros; ring). rewrite !E.
    now apply Rounded_opp.
Qed.

(** The two branches of [fix_] past the precision test have one value. *)
Lemma fix_carry (p s m e : Z) :
  1 <= p -> 0 <= m <= 10 ^ p ->
  (dval (let c := s * m in
         if ndigits (Z.abs m) <=? p then mkDec c e else mkDec (Z.quot c 10) (e + 1))%Z
   == inject_Z (s * m) * p10 e)%Q.
Proof.
  intros Hp Hm. cbv zeta. rewrite Z.abs_eq by lia.
  destruct (Z.leb_spec (ndigits m) p) as [_|Hn]; [reflexivity|].
  assert (m = 10 ^ p) as ->.
  { destruct (Z.lt_ge_cases m (10 ^ p)) as [C|C]; [|lia].
    apply ndigits_le_iff in C; lia. }
  replace (10 ^ p) with (10 * 10 ^ (p - 1))
    by (rewrite <- Z.pow_succ_r by lia; f_equal; lia).
  replace (s * (10 * 10 ^ (p - 1))) with (s * 10 ^ (p - 1) * 10) by ring.
  rewrite Z.quot_mul by lia. unfold dval. cbn [coef expo].
  rewrite p10_shift by lia. reflexivity.
Qed.

(** The value of [fix_] when digits are dropped: a multiple of the quantum. *)
Lemma fix_value p d (n := Z.abs (coef d)) (k := ndigits n - p) (m := half_even n (10 ^ k)) :
  1 <= p -> p < ndigits n ->
  0 <= m <= 10 ^ p /\
  (dval (fix_ p d) == inject_Z (Z.sgn (coef d)) * (inject_Z m * p10 (expo d + k)))%Q.
Proof.
  intros Hp Hn. assert (0 < n).
  { destruct (Z.eq_dec n 0) as [E|]; [|lia]. rewrite E in Hn. change (ndigits 0) with 1 in Hn. lia. }
  destruct (ndigits_spec n ltac:(lia)) as (_ & Hlo & Hhi).
  assert (Hk : 0 < 10 ^ k) by (apply Z.pow_pos_nonneg; lia).
  assert (Hm : 0 <= m <= 10 ^ p).
  { split; [apply half_even_nonneg; lia|]. apply half_even_upper; [exact Hk|].
    rewrite <- Z.pow_add_r by lia. replace (p + k) with (ndigits n) by lia. lia. }
  split; [exact Hm|]. unfold fix_. cbv zeta. fold n.
  destruct (Z.leb_spec (ndigits n) p) as [C|_]; [lia|]. fold k.
  assert (Hs : round_div ROUND_HALF_EVEN (coef d) (10 ^ k) = Z.sgn (coef d) * m) by reflexivity.
  rewrite Hs. replace (ndigits (Z.abs (Z.sgn (coef d) * m))) with (ndigits (Z.abs m))
    by (f_equal; rewrite Z.abs_mul; destruct (coef d); cbn in *; lia).
  pose proof (fix_carry p (Z.sgn (coef d)) m (expo d + k) Hp Hm) as E. cbv zeta in E.
  rewrite E, inject_Z_mult. ring.
Qed.

Lemma fix_rounded p d : 1 <= p -> Rounded p (dval d) (dval (fix_ p d)).
Proof.
  intros Hp. set (n := Z.abs (coef d)).
  destruct (Z.le_gt_cases (ndigits n) p) as [Hn|Hn].
  - unfold fix_. cbv zeta. fold n. destruct (Z.leb_spec (ndigits n) p); [|lia].
    apply Rounded_self. exists (coef d), (expo d). split; [|reflexivity].
    fold n. apply Z.lt_le_incl, ndigits_le_iff; lia.
  - destruct (fix_value p d Hp Hn) as (Hm & ->). fold n in Hm |- *.
    set (k := ndigits n - p) in *. set (m := half_even n (10 ^ k)) in *.
    assert (0 < n).
    { destruct (Z.eq_dec n 0) as [E|]; [|lia]. rewrite E in Hn. change (ndigits 0) with 1 in Hn. lia. }
    destruct (ndigits_spec n ltac:(lia)) as (_ & Hlo & Hhi).
    assert (Ed : (dval d == inject_Z (Z.sgn (coef d)) * (inject_Z n * p10 (expo d)))%Q).
    { unfold dval. rewrite Qmult_assoc, <- inject_Z_mult. unfold n.
      now rewrite Z.mul_comm, Z.abs_sgn. }
    rewrite Ed. apply Rounded_signed, grid_rounded; auto.
    + apply Qle_trans with (inject_Z (10 ^ (ndigits n - 1)) * p10 (expo d))%Q.
      * rewrite <- p10_Z by lia. rewrite <- p10_add. apply p10_le. lia.
      * apply scaled_le. lia.
    + pose proof (half_quantum m n 1 (expo d) k ltac:(lia) ltac:(lia)) as HQ.
      assert (E1 : (inject_Z n / inject_Z 1 == inject_Z n)%Q) by (change (inject_Z 1) with 1%Q; field).
      rewrite E1 in HQ. apply HQ. rewrite !Z.mul_1_r. apply half_even_err, Z.pow_pos_nonneg; lia.
Qed.

Lemma exact_add_val a b : (dval (exact_add a b) == dval a + dval b)%Q.
Proof.
  unfold exact_add. cbv zeta. set (e := Z.min _ _).
  rewrite dval_mk, inject_Z_plus, (dval_at_exp a e), (dval_at_exp b e) by lia. ring.
Qed.

Lemma copy_negate_val a : (dval (copy_negate a) == - dval a)%Q.
Proof. unfold dval, copy_negate. cbn [coef expo]. rewrite inject_Z_opp. ring. Qed.

Lemma copy_abs_val a : (dval (copy_abs a) == Qabs (dval a))%Q.
Proof. unfold dval. rewrite Qabs_scaled. reflexivity. Qed.

Lemma mul_exact_val a b :
  (dval (mkDec (coef a * coef b) (expo a + expo b)) == dval a * dval b)%Q.
Proof. unfold dval. cbn [coef expo]. rewrite p10_add, inject_Z_mult. ring. Qed.

Lemma add_rounded p a b : 1 <= p -> Rounded p (dval a + dval b) (dval (add_ p a b)).
Proof. intros. unfold add_. rewrite <- exact_add_val. now apply fix_rounded. Qed.

Lemma sub_rounded p a b : 1 <= p -> Rounded p (dval a - dval b) (dval (sub_ p a b)).
Proof.
  intros. unfold sub_. unfold Qminus. rewrite <- copy_negate_val. now apply add_rounded.
Qed.

Lemma mul_rounded p a b : 1 <= p -> Rounded p (dval a * dval b) (dval (mul_ p a b)).
Proof. intros. unfold mul_. rewrite <- mul_exact_val. now apply fix_rounded. Qed.

Lemma neg_rounded p a : 1 <= p -> Rounded p (- dval a) (dval (neg_ p a)).
Proof. intros. unfold neg_. rewrite <- copy_negate_val. now apply fix_rounded. Qed.

Lemma abs_rounded p a : 1 <= p -> Rounded p (Qabs (dval a)) (dval (abs_ p a)).
Proof. intros. unfold abs_. rewrite <- copy_abs_val. now apply fix_rounded. Qed.

(** *** Division *)

Lemma strip_zeros_val f c e ideal : (dval (strip_zeros f c e ideal) == inject_Z c * p10 e)%Q.
Proof.
  revert c e. induction f as [|f IH]; intros c e; cbn [strip_zeros]; [reflexivity|].
  destruct ((e <? ideal) && (c mod 10 =? 0)) eqn:E; [|reflexivity].
  apply andb_prop in E as [_ E]. apply Z.eqb_eq in E. rewrite IH, p10_shift by lia.
  replace (c / 10 * 10 ^ 1) with c; [reflexivity|].
  pose proof (Z.div_mod c 10 ltac:(lia)). change (10 ^ 1) with 10. lia.
Qed.

(** Making an inexact quotient odd in its last place keeps it on the side of
    every midpoint the exact quotient is on. *)
Lemma sticky_digit n d m k (c := n / d) (c' := if c mod 5 =? 0 then c + 1 else c) :
  0 < d -> n mod d <> 0 -> 1 <= k ->
  2 * Z.abs (m * 10 ^ k - c') <= 10 ^ k -> 2 * Z.abs (m * 10 ^ k * d - n) <= 10 ^ k * d.
Proof.
  intros Hd Hr Hk. replace (10 ^ k) with (10 * 10 ^ (k - 1))
    by (rewrite <- Z.pow_succ_r by lia; f_equal; lia).
  set (w := 10 ^ (k - 1)). intros H.
  pose proof (Z.div_mod n d ltac:(lia)) as Hn. fold c in Hn.
  pose proof (Z.mod_pos_bound n d Hd).
  assert (Hc : c' mod 5 <> 0 /\ (c' = c \/ c' = c + 1 /\ c mod 5 = 0)).
  { unfold c'. destruct (Z.eqb_spec (c mod 5) 0) as [E|E]; [|split; auto; lia].
    split; [|auto]. rewrite <- Z.add_mod_idemp_l, E by lia. discriminate. }
  destruct Hc as [H5 Hc].
  assert (Hlo : 5 * (2 * m * w - w) < c').
  { destruct (Z.eq_dec (5 * (2 * m * w - w)) c') as [E|]; [|lia].
    rewrite <- E, Z.mul_comm, Z.mod_mul in H5 by lia. lia. }
  assert (Hhi : c' < 5 * (2 * m * w + w)).
  { destruct (Z.eq_dec (5 * (2 * m * w + w)) c') as [E|]; [|lia].
    rewrite <- E, Z.mul_comm, Z.mod_mul in H5 by lia. lia. }
  assert (5 * (2 * m * w - w) <= c /\ c + 1 <= 5 * (2 * m * w + w)) as [L U] by lia.
  assert (5 * (2 * m * w - w) * d <= c * d) by (apply Z.mul_le_mono_nonneg_r; lia).
  assert ((c + 1) * d <= 5 * (2 * m * w + w) * d) by (apply Z.mul_le_mono_nonneg_r; lia).
  replace (5 * (2 * m * w - w) * d) with (10 * (m * w * d) - 5 * (w * d)) in * by ring.
  replace (5 * (2 * m * w + w) * d) with (10 * (m * w * d) + 5 * (w * d)) in * by ring.
  replace (m * (10 * w) * d) with (10 * (m * w * d)) by ring.
  replace (10 * w * d) with (10 * (w * d)) by ring.
  replace ((c + 1) * d) with (c * d + d) in * by ring. lia.
Qed.

(** The scaled quotient of [div_] has at least [p + 1] digits. *)
Lemma quotient_digits p ia ib (shift := ndigits ib - ndigits ia + p + 1)
  (n := if 0 <=? shift then ia * 10 ^ shift else ia)
  (d := if 0 <=? shift then ib else ib * 10 ^ (- shift)) :
  1 <= p -> 0 < ia -> 0 < ib -> 0 < d /\ 10 ^ p <= n / d.
Proof.
  intros Hp Ha Hb. destruct (ndigits_spec ia Ha) as (Ha1 & Ha2 & _).
  destruct (ndigits_spec ib Hb) as (Hb1 & _ & Hb2).
  assert (Hd : 0 < d).
  { unfold d. destruct (Z.leb_spec 0 shift); [lia|].
    apply Z.mul_pos_pos; [lia|]. apply Z.pow_pos_nonneg; lia. }
  split; [exact Hd|]. apply Z.div_le_lower_bound; [exact Hd|].
  unfold n, d. destruct (Z.leb_spec 0 shift) as [Hs|Hs].
  - apply Z.le_trans with (10 ^ ndigits ib * 10 ^ p); [apply Z.mul_le_mono_nonneg_r; lia|].
    apply Z.le_trans with (10 ^ (ndigits ia - 1) * 10 ^ shift).
    + rewrite <- !Z.pow_add_r by lia. apply Z.pow_le_mono_r; lia.
    + apply Z.mul_le_mono_nonneg_r; lia.
  - apply Z.le_trans with (10 ^ ndigits ib * 10 ^ (- shift) * 10 ^ p).
    + rewrite <- !Z.mul_assoc. apply Z.mul_le_mono_nonneg_r; [|lia].
      apply Z.mul_nonneg_nonneg; lia.
    + rewrite <- !Z.pow_add_r by lia.
      replace (ndigits ib + - shift + p) with (ndigits ia - 1) by lia. exact Ha2.
Qed.

(** The exact quotient, on the scale [div_] computes it. *)
Lemma quotient_scale ia ib shift e
  (n := if 0 <=? shift then ia * 10 ^ shift else ia)
  (d := if 0 <=? shift then ib else ib * 10 ^ (- shift)) :
  0 < ib ->
  (inject_Z n / inject_Z d * p10 (e - shift) == inject_Z ia / inject_Z ib * p10 e)%Q.
Proof.
  intros Hb. assert (Hb' : (0 < inject_Z ib)%Q) by now apply (inject_Z_lt 0).
  pose proof (p10_pos (e - shift)).
  unfold n, d. destruct (Z.leb_spec 0 shift) as [Hs|Hs].
  - replace e with (e - shift + shift) at 2 by lia.
    rewrite p10_add, (p10_Z shift), inject_Z_mult by lia. field. lra.
  - assert (Hp : (0 < inject_Z (10 ^ (- shift)))%Q).
    { apply (inject_Z_lt 0), Z.pow_pos_nonneg; lia. }
    replace (e - shift) with (e + - shift) by lia.
    rewrite p10_add, (p10_Z (- shift)), inject_Z_mult by lia. field. split; lra.
Qed.

(** The leading power of ten of the sticky quotient bounds the quotient too. *)
Lemma leading_power c (c' := if c mod 5 =? 0 then c + 1 else c) :
  0 < c' -> 2 <= ndigits c' -> 10 ^ (ndigits c' - 1) <= c.
Proof.
  intros Hc Hn. destruct (ndigits_spec c' Hc) as (_ & H & _).
  replace (10 ^ (ndigits c' - 1)) with (5 * (2 * 10 ^ (ndigits c' - 2))) in *.
  - revert H. unfold c' at 2. set (w := 10 ^ (ndigits c' - 2)).
    destruct (Z.eqb_spec (c mod 5) 0) as [E|E]; [|lia]. intros H.
    pose proof (Z.div_mod c 5 ltac:(lia)). lia.
  - replace (ndigits c' - 1) with (Z.succ (ndigits c' - 2)) by lia.
    rewrite Z.pow_succ_r by lia. ring.
Qed.

Lemma dval_quotient a b :
  ~ (dval b == 0)%Q ->
  (dval a / dval b == inject_Z (Z.sgn (coef a) * Z.sgn (coef b))
     * (inject_Z (Z.abs (coef a)) / inject_Z (Z.abs (coef b)) * p10 (expo a - expo b)))%Q.
Proof.
  intros Hb. unfold dval in *. pose proof (p10_pos (expo a)). pose proof (p10_pos (expo b)).
  replace (expo a) with (expo a - expo b + expo b) by lia. rewrite p10_add.
  replace (expo a - expo b + expo b - expo b) with (expo a - expo b) by lia.
  assert (Hc : coef b <> 0) by (intros E; apply Hb; rewrite E; ring).
  assert (Hb' : (0 < inject_Z (Z.abs (coef b)))%Q) by (apply (inject_Z_lt 0); lia).
  assert (Es : forall z, (inject_Z z == inject_Z (Z.sgn z) * inject_Z (Z.abs z))%Q).
  { intros z. rewrite <- inject_Z_mult, Z.mul_comm, Z.abs_sgn. reflexivity. }
  rewrite (Es (coef a)), (Es (coef b)), inject_Z_mult.
  assert (Hs : (inject_Z (Z.sgn (coef b)) == 1 \/ inject_Z (Z.sgn (coef b)) == -1)%Q).
  { destruct (coef b); [lia|left|right]; reflexivity. }
  destruct Hs as [Hs|Hs]; rewrite Hs; field; repeat split; lra.
Qed.

Lemma div_rounded p a b r :
  1 <= p -> div_ p a b = Ok r -> Rounded p (dval a / dval b) (dval r).
Proof.
  intros Hp. unfold div_. destruct (is_zero b) eqn:Hb; [destruct (is_zero a); discriminate|].
  apply is_zero_false in Hb. destruct (is_zero a) eqn:Ha.
  { intros [= <-]. apply is_zero_spec in Ha. rewrite Ha.
    assert (E0 : (0 / dval b == 0)%Q) by (field; exact Hb). rewrite E0.
    assert (E1 : (dval (mkDec 0 (expo a - expo b)) == 0)%Q) by (unfold dval; cbn [coef]; ring).
    rewrite E1. apply Rounded_self, Repr_0. lia. }
  apply is_zero_false in Ha. cbv zeta. rewrite (dval_quotient a b Hb).
  assert (coef a <> 0 /\ coef b <> 0) as [Hca Hcb].
  { split; intros E; [apply Ha|apply Hb]; unfold dval; rewrite E; ring. }
  set (ia := Z.abs (coef a)). set (ib := Z.abs (coef b)).
  set (sh := ndigits ib - ndigits ia + p + 1).
  pose proof (quotient_scale ia ib sh (expo a - expo b) ltac:(lia)) as Hx.
  destruct (quotient_digits p ia ib Hp ltac:(lia) ltac:(lia)) as [Hd Hc]. fold sh in Hd, Hc.
  cbv zeta in Hx, Hd, Hc. rewrite <- Hx. clear Hx.
  set (n := if 0 <=? sh then ia * 10 ^ sh else ia) in *.
  set (d := if 0 <=? sh then ib else ib * 10 ^ (- sh)) in *.
  set (e := expo a - expo b - sh). set (c := n / d) in *.
  rewrite <- Z.sgn_mul. set (ab := coef a * coef b). assert (ab <> 0) by (unfold ab; nia).
  destruct (Z.eqb_spec (n mod d) 0) as [Hm|Hm]; intros [= <-].
  - set (t := strip_zeros _ c e _).
    assert (Et : (inject_Z n / inject_Z d * p10 e == dval t)%Q).
    { unfold t. rewrite strip_zeros_val. pose proof (Z.div_mod n d ltac:(lia)) as E.
      rewrite Hm, Z.add_0_r in E. rewrite E. fold c. rewrite inject_Z_mult.
      assert (~ inject_Z d == 0)%Q by (apply Qnot_eq_sym, Qlt_not_eq; now apply (inject_Z_lt 0)).
      now field. }
    rewrite Et. assert (Es : (inject_Z (Z.sgn ab) * dval t == dval (mkDec (Z.sgn ab * coef t) (expo t)))%Q).
    { unfold dval. cbn [coef expo]. rewrite inject_Z_mult. ring. }
    rewrite Es. now apply fix_rounded.
  - set (c' := if c mod 5 =? 0 then c + 1 else c).
    assert (Hc' : 10 ^ p <= c') by (unfold c'; destruct (c mod 5 =? 0); lia).
    assert (Hpp : 0 < 10 ^ p) by (apply Z.pow_pos_nonneg; lia).
    assert (Eabs : Z.abs (Z.sgn ab * c') = c') by nia.
    assert (Esgn : Z.sgn (Z.sgn ab * c') = Z.sgn ab).
    { rewrite Z.sgn_mul, Z.sgn_sgn. rewrite (Z.sgn_pos c') by lia. lia. }
    assert (Hdig : p < ndigits c').
    { destruct (Z.le_gt_cases (ndigits c') p) as [C|C]; [|exact C]. apply ndigits_le_iff in C; lia. }
    destruct (fix_value p (mkDec (Z.sgn ab * c') e) Hp) as (Hm' & ->); [cbn [coef]; now rewrite Eabs|].
    cbn [coef expo] in *. rewrite Eabs, Esgn in *. set (k := ndigits c' - p) in *.
    set (m := half_even c' (10 ^ k)) in *.
    assert (Hk : 0 < 10 ^ k) by (apply Z.pow_pos_nonneg; lia).
    pose proof (half_even_err c' (10 ^ k) Hk) as He. fold m in He.
    pose proof (sticky_digit n d m k Hd Hm ltac:(lia)) as Hst. fold c c' in Hst. specialize (Hst He).
    apply Rounded_signed, grid_rounded; auto; [|apply half_quantum; auto; lia].
    replace (e + k + p - 1) with (e + (ndigits c' - 1)) by (unfold k; lia).
    rewrite p10_add, (p10_Z (ndigits c' - 1)), Qmult_comm by lia.
    apply Qmult_le_r; [apply p10_pos|]. apply Qle_shift_div_l; [now apply (inject_Z_lt 0)|].
    rewrite <- inject_Z_mult. apply inject_Z_le.
    assert (10 ^ (ndigits c' - 1) <= c) by (apply (leading_power c); fold c'; lia).
    pose proof (Z.mul_div_le n d Hd). fold c in H1. nia.
Qed.

Lemma div_total p a b : ~ (dval b == 0)%Q -> exists r, div_ p a b = Ok r.
Proof.
  intros Hb. unfold div_. apply is_zero_false in Hb. rewrite Hb.
  destruct (is_zero a); [eauto|]. cbv zeta. destruct (_ =? 0); eauto.
Qed.

Lemma div_raises p a b e : div_ p a b = Raise e -> (dval b == 0)%Q.
Proof.
  intros H. destruct (is_zero b) eqn:E; [now apply is_zero_spec|].
  apply is_zero_false in E. destruct (div_total p a b E) as [r ->] in H. discriminate.
Qed.

(** ** [to_integral_value] and [quantize] *)

Lemma coef_sign d : (0 <= dval d)%Q <-> 0 <= coef d.
Proof.
  rewrite <- (scaled_le 0 (coef d) (expo d)). fold (dval d).
  assert (E : (inject_Z 0 * p10 (expo d) == 0)%Q) by ring. now rewrite E.
Qed.

Lemma dval_frac d : expo d < 0 -> (dval d * inject_Z (10 ^ (- expo d)) == inject_Z (coef d))%Q.
Proof.
  intros. unfold dval. rewrite <- p10_Z by lia. rewrite <- Qmult_assoc, <- p10_add.
  replace (expo d + - expo d) with 0 by lia. change (p10 0) with 1%Q. ring.
Qed.

Lemma to_integral_down d :
  (0 <= dval d)%Q ->
  exists z, 0 <= z /\ (dval (to_integral_value ROUND_DOWN d) == inject_Z z)%Q
    /\ (inject_Z z <= dval d)%Q /\ (dval d < inject_Z (z + 1))%Q.
Proof.
  intros Hd. apply coef_sign in Hd. unfold to_integral_value.
  destruct (Z.leb_spec 0 (expo d)) as [He|He].
  - exists (coef d * 10 ^ expo d).
    assert (E : (dval d == inject_Z (coef d * 10 ^ expo d))%Q).
    { unfold dval. rewrite p10_Z, inject_Z_mult by lia. reflexivity. }
    rewrite E. assert (0 <= 10 ^ expo d) by (apply Z.pow_nonneg; lia).
    repeat split; [nia|apply Qle_refl|apply inject_Z_lt; lia].
  - unfold rescale. destruct (Z.leb_spec 0 (expo d)); [lia|].
    set (w := 10 ^ (0 - expo d)). assert (Hw : 0 < w) by (apply Z.pow_pos_nonneg; lia).
    exists (coef d / w). cbn [round_div].
    pose proof (dval_frac d He) as E. replace (- expo d) with (0 - expo d) in E by lia. fold w in E.
    assert (Hw' : (0 < inject_Z w)%Q) by now apply (inject_Z_lt 0).
    pose proof (Z.div_mod (coef d) w ltac:(lia)). pose proof (Z.mod_pos_bound (coef d) w Hw).
    split; [apply Z.div_pos; lia|]. split; [|split].
    + rewrite Z.quot_div_nonneg by lia. rewrite dval_mk. change (p10 0) with 1%Q. ring.
    + apply (Qmult_le_r _ _ (inject_Z w) Hw'). rewrite E, <- inject_Z_mult. apply inject_Z_le. lia.
    + apply (Qmult_lt_r _ _ (inject_Z w) Hw'). rewrite E, <- inject_Z_mult. apply inject_Z_lt. lia.
Qed.

(** Rounding half to even commutes with negation and is within one half. *)
Lemma to_integral_half_even d :
  exists z, (dval (to_integral_value ROUND_HALF_EVEN d) == inject_Z z)%Q
    /\ (Qabs (inject_Z z - dval d) <= 1 # 2)%Q.
Proof.
  unfold to_integral_value. destruct (Z.leb_spec 0 (expo d)) as [He|He].
  - exists (coef d * 10 ^ expo d).
    assert (E : (dval d == inject_Z (coef d * 10 ^ expo d))%Q).
    { unfold dval. rewrite p10_Z, inject_Z_mult by lia. reflexivity. }
    split; [exact E|]. rewrite E. setoid_replace (inject_Z (coef d * 10 ^ expo d) - inject_Z (coef d * 10 ^ expo d))%Q
      with 0%Q by ring. discriminate.
  - unfold rescale. destruct (Z.leb_spec 0 (expo d)); [lia|].
    set (w := 10 ^ (0 - expo d)). assert (Hw : 0 < w) by (apply Z.pow_pos_nonneg; lia).
    cbn [round_div]. set (m := half_even (Z.abs (coef d)) w). exists (Z.sgn (coef d) * m).
    split; [rewrite dval_mk; change (p10 0) with 1%Q; ring|].
    pose proof (dval_frac d He) as E. replace (- expo d) with (0 - expo d) in E by lia. fold w in E.
    assert (Hw' : (0 < inject_Z w)%Q) by now apply (inject_Z_lt 0).
    apply (Qmult_le_r _ _ (inject_Z w) Hw').
    rewrite <- (Qabs_pos (inject_Z w)) at 1 by lra. rewrite <- Qabs_Qmult.
    setoid_replace ((inject_Z (Z.sgn (coef d) * m) - dval d) * inject_Z w)%Q
      with (inject_Z (Z.sgn (coef d) * m) * inject_Z w - dval d * inject_Z w)%Q by ring.
    rewrite E, <- inject_Z_mult. unfold Qminus. rewrite <- inject_Z_opp, <- inject_Z_plus.
    change (Qabs (inject_Z ?z)) with (inject_Z (Z.abs z)).
    assert (He' : 2 * Z.abs (Z.sgn (coef d) * m * w + - coef d) <= w).
    { pose proof (half_even_err (Z.abs (coef d)) w Hw) as HE. fold m in HE.
      destruct (coef d); cbn [Z.sgn Z.abs] in *; lia. }
    apply inject_Z_le in He'. rewrite inject_Z_mult in He'. change (inject_Z 2) with 2%Q in He'. lra.
Qed.

Lemma fix_id p d : ndigits (Z.abs (coef d)) <= p -> fix_ p d = d.
Proof. intros. unfold fix_. cbv zeta. destruct (Z.leb_spec (ndigits (Z.abs (coef d))) p); [auto|lia]. Qed.

Lemma adjusted_spec d :
  ~ (dval d == 0)%Q -> (p10 (adjusted d) <= Qabs (dval d))%Q.
Proof.
  intros Hd. assert (coef d <> 0) by (intros E; apply Hd; unfold dval; rewrite E; ring).
  unfold adjusted, dval. rewrite Qabs_scaled.
  destruct (ndigits_spec (Z.abs (coef d)) ltac:(lia)) as (H1 & H2 & _).
  replace (expo d + ndigits (Z.abs (coef d)) - 1) with (ndigits (Z.abs (coef d)) - 1 + expo d) by lia.
  rewrite p10_add, (p10_Z (ndigits _ - 1)) by lia. now apply scaled_le.
Qed.

(** Quantizing a value that is already on the grid keeps it, and does not
    raise when the grid coordinate fits the precision. *)
Lemma quantize_on_grid p d ex z :
  1 <= p -> Z.abs z < 10 ^ p -> (dval d == inject_Z z * p10 (expo ex))%Q ->
  quantize_ p d ex = Ok (mkDec z (expo ex)).
Proof.
  intros Hp Hz Hd. unfold quantize_. destruct (is_zero d) eqn:E0.
  { apply is_zero_spec in E0. rewrite E0 in Hd. f_equal. f_equal.
    pose proof (p10_pos (expo ex)). symmetry in Hd. apply Qmult_integral in Hd as [Hd|Hd]; [|lra].
    unfold Qeq in Hd. cbn in Hd. lia. }
  apply is_zero_false in E0. pose proof (adjusted_spec d E0) as Ha.
  rewrite Hd, Qabs_scaled in Ha.
  assert (Hlt : (p10 (adjusted d) < p10 (p + expo ex))%Q).
  { eapply Qle_lt_trans; [exact Ha|]. rewrite p10_add, (p10_Z p) by lia. now apply scaled_lt. }
  assert (adjusted d < p + expo ex) by (apply (Qpower_lt_compat_l_inv (10 # 1)); [exact Hlt|reflexivity]).
  destruct (Z.ltb_spec p (adjusted d - expo ex + 1)); [lia|].
  assert (Hr : rescale ROUND_HALF_EVEN d (expo ex) = mkDec z (expo ex)).
  { unfold rescale. destruct (Z.leb_spec (expo ex) (expo d)) as [He|He].
    - f_equal. rewrite (dval_at_exp d (expo ex)) in Hd by lia.
      apply Z.le_antisymm; apply (scaled_le _ _ (expo ex)); lra.
    - f_equal. set (w := 10 ^ (expo ex - expo d)).
      assert (Hw : 0 < w) by (apply Z.pow_pos_nonneg; lia).
      assert (Ec : coef d = z * w).
      { unfold dval in Hd. replace (expo ex) with (expo d + (expo ex - expo d)) in Hd by lia.
        rewrite p10_shift in Hd by lia. fold w in Hd.
        apply Z.le_antisymm; apply (scaled_le _ _ (expo d)); lra. }
      cbn [round_div]. rewrite Ec, Z.sgn_mul, Z.abs_mul, (Z.abs_eq w), (Z.sgn_pos w) by lia.
      rewrite half_even_exact by lia. rewrite Z.mul_1_r, Z.mul_comm. apply Z.abs_sgn. }
  rewrite Hr. cbv zeta. cbn [coef].
  assert (ndigits (Z.abs z) <= p) by (apply ndigits_le_iff; lia).
  destruct (Z.ltb_spec p (ndigits (Z.abs z))); [lia|]. now rewrite fix_id.
Qed.

(** ** Rounding depends on the value only, and is monotone *)

Lemma half_even_scale n d m : 0 < d -> 0 < m -> half_even (n * m) (d * m) = half_even n d.
Proof.
  intros Hd Hm. unfold half_even. cbv zeta.
  rewrite Z.div_mul_cancel_r, Z.mul_mod_distr_r by lia.
  rewrite (Z.mul_assoc 2).
  assert (E : forall x y, (x * m <? y * m) = (x <? y)).
  { intros. apply Bool.eq_iff_eq_true. rewrite !Z.ltb_lt. nia. }
  rewrite !E. reflexivity.
Qed.

Lemma ndigits_scale n k : 0 < n -> 0 <= k -> ndigits (n * 10 ^ k) = ndigits n + k.
Proof.
  intros Hn Hk. destruct (ndigits_spec n Hn) as (H1 & H2 & H3).
  assert (Hp : 0 < 10 ^ k) by (apply Z.pow_pos_nonneg; lia).
  destruct (ndigits_spec (n * 10 ^ k)) as (H4 & H5 & H6); [nia|].
  set (m := ndigits (n * 10 ^ k)) in *.
  assert (10 ^ (ndigits n - 1 + k) <= n * 10 ^ k) by (rewrite Z.pow_add_r by lia; nia).
  assert (n * 10 ^ k < 10 ^ (ndigits n + k)) by (rewrite Z.pow_add_r by lia; nia).
  assert (10 ^ (ndigits n - 1 + k) < 10 ^ m) as L by lia. apply Z.pow_lt_mono_r_iff in L; [|lia..].
  assert (10 ^ (m - 1) < 10 ^ (ndigits n + k)) as U by lia. apply Z.pow_lt_mono_r_iff in U; lia.
Qed.

Lemma fix_scale p d k :
  1 <= p -> 0 <= k ->
  (dval (fix_ p (mkDec (coef d * 10 ^ k) (expo d - k))) == dval (fix_ p d))%Q.
Proof.
  intros Hp Hk. set (d' := mkDec _ _).
  assert (Ev : (dval d' == dval d)%Q).
  { unfold dval at 1. cbn [coef expo d']. unfold d'. cbn [coef expo].
    rewrite <- p10_shift by lia. now replace (expo d - k + k) with (expo d) by lia. }
  destruct (Z.le_gt_cases (ndigits (Z.abs (coef d))) p) as [Hn|Hn].
  - rewrite (fix_id p d Hn). rewrite <- Ev. apply (Rounded_exact (p := p)); [|now apply fix_rounded].
    rewrite Ev. exists (coef d), (expo d). split; [|reflexivity].
    apply Z.lt_le_incl, ndigits_le_iff; lia.
  - destruct (fix_value p d Hp Hn) as [_ ->].
    assert (Hc : 0 < Z.abs (coef d)).
    { destruct (Z.eq_dec (coef d) 0) as [E|]; [|lia]. rewrite E in Hn. change (ndigits (Z.abs 0)) with 1 in Hn. lia. }
    assert (Hw : 0 < 10 ^ k) by (apply Z.pow_pos_nonneg; lia).
    assert (Ea : Z.abs (coef d') = Z.abs (coef d) * 10 ^ k) by (unfold d'; cbn [coef]; rewrite Z.abs_mul; lia).
    assert (Es : Z.sgn (coef d') = Z.sgn (coef d)).
    { unfold d'. cbn [coef]. rewrite Z.sgn_mul, (Z.sgn_pos (10 ^ k)) by lia. lia. }
    destruct (fix_value p d' Hp) as [_ ->]; [rewrite Ea, ndigits_scale by lia; lia|].
    rewrite Es, Ea, ndigits_scale by lia.
    replace (ndigits (Z.abs (coef d)) + k - p) with (ndigits (Z.abs (coef d)) - p + k) by lia.
    rewrite Z.pow_add_r, half_even_scale by (try apply Z.pow_pos_nonneg; lia).
    unfold d'. cbn [expo].
    now replace (expo d - k + (ndigits (Z.abs (coef d)) - p + k)) with (expo d + (ndigits (Z.abs (coef d)) - p)) by lia.
Qed.

Lemma fix_compat p a b : 1 <= p -> (dval a == dval b)%Q -> (dval (fix_ p a) == dval (fix_ p b))%Q.
Proof.
  intros Hp. revert a b.
  assert (H : forall a b, expo a <= expo b -> (dval a == dval b)%Q -> (dval (fix_ p a) == dval (fix_ p b))%Q).
  { intros a b He E. rewrite <- (fix_scale p b (expo b - expo a)) by lia.
    replace (mkDec (coef b * 10 ^ (expo b - expo a)) (expo b - (expo b - expo a))) with a; [reflexivity|].
    rewrite (dval_at_exp b (expo a) He) in E. unfold at_exp in E.
    replace (expo b - (expo b - expo a)) with (expo a) by lia.
    destruct a as [ca ea]. cbn [coef expo dval] in *. f_equal.
    apply Z.le_antisymm; apply (scaled_le _ _ ea); unfold dval in E; cbn [coef expo] in E; lra. }
  intros a b E. destruct (Z.le_ge_cases (expo a) (expo b)); [now apply H|].
  symmetry. apply H; [assumption|now symmetry].
Qed.

(** Rounding to [p] digits is monotone. *)
Lemma fix_mono p a b : 1 <= p -> (dval a <= dval b)%Q -> (dval (fix_ p a) <= dval (fix_ p b))%Q.
Proof.
  intros Hp H. apply Qle_lteq in H as [H|H].
  - eapply Rounded_mono_strict; [exact H| |]; now apply fix_rounded.
  - rewrite (fix_compat p a b Hp H). apply Qle_refl.
Qed.

Lemma fix_negate p d : 1 <= p -> (dval (fix_ p (copy_negate d)) == - dval (fix_ p d))%Q.
Proof.
  intros Hp. destruct (Z.le_gt_cases (ndigits (Z.abs (coef d))) p) as [Hn|Hn].
  - rewrite !fix_id by (unfold copy_negate; cbn [coef]; rewrite ?Z.abs_opp; exact Hn). apply copy_negate_val.
  - destruct (fix_value p d Hp Hn) as [_ ->].
    destruct (fix_value p (copy_negate d) Hp) as [_ ->]; unfold copy_negate; cbn [coef expo]; rewrite Z.abs_opp; [exact Hn|].
    rewrite Z.sgn_opp, inject_Z_opp. ring.
Qed.

(** ** The default context *)

(** Half a unit in the last of 28 places, relatively. *)
Definition eps : Q := ulp prec.

Lemma eps_val : (eps == 1 # 2000000000000000000000000000)%Q.
Proof. reflexivity. Qed.

Lemma dadd_R a b : Rounded prec (dval a + dval b) (dval (dadd a b)).
Proof. now apply add_rounded. Qed.

Lemma dsub_R a b : Rounded prec (dval a - dval b) (dval (dsub a b)).
Proof. now apply sub_rounded. Qed.

Lemma dmul_R a b : Rounded prec (dval a * dval b) (dval (dmul a b)).
Proof. now apply mul_rounded. Qed.

Lemma dneg_R a : Rounded prec (- dval a) (dval (dneg a)).
Proof. now apply neg_rounded. Qed.

Lemma dabs_R a : Rounded prec (Qabs (dval a)) (dval (dabs a)).
Proof. now apply abs_rounded. Qed.

Lemma ddiv_R a b r : ddiv a b = Ok r -> Rounded prec (dval a / dval b) (dval r).
Proof. now apply div_rounded. Qed.

Lemma ddiv_total a b : ~ (dval b == 0)%Q -> exists r, ddiv a b = Ok r.
Proof. apply div_total. Qed.

(** A decimal of at most [prec] digits is representable; decided by evaluation. *)
Definition short (d : decimal) : bool := ndigits (Z.abs (coef d)) <=? prec.

Lemma short_Repr d : short d = true -> Repr prec (dval d).
Proof.
  unfold short. rewrite Z.leb_le. intros H. exists (coef d), (expo d). split; [|reflexivity].
  apply Z.lt_le_incl, ndigits_le_iff; [lia|discriminate|exact H].
Qed.

Lemma dadd_Repr a b : Repr prec (dval (dadd a b)).
Proof. apply (rounded_repr _ _ _ (dadd_R a b)). Qed.

Lemma dmul_Repr a b : Repr prec (dval (dmul a b)).
Proof. apply (rounded_repr _ _ _ (dmul_R a b)). Qed.

Lemma ddiv_Repr a b r : ddiv a b = Ok r -> Repr prec (dval r).
Proof. intros H. apply (rounded_repr _ _ _ (ddiv_R a b r H)). Qed.

Section Signs.
Implicit Types a b : decimal.
Local Open Scope Q_scope.

Lemma rnonneg x r : 0 <= x -> Rounded prec x r -> 0 <= r.
Proof. now apply Rounded_nonneg. Qed.

Lemma rpos x r : 0 < x -> Rounded prec x r -> 0 < r.
Proof. now apply Rounded_pos. Qed.

Lemma dadd_nonneg a b : 0 <= dval a -> 0 <= dval b -> 0 <= dval (dadd a b).
Proof. intros. apply (rnonneg (dval a + dval b)); [lra|apply dadd_R]. Qed.

Lemma dadd_pos a b : 0 <= dval a -> 0 < dval b -> 0 < dval (dadd a b).
Proof. intros. apply (rpos (dval a + dval b)); [lra|apply dadd_R]. Qed.

Lemma dmul_nonneg a b : 0 <= dval a -> 0 <= dval b -> 0 <= dval (dmul a b).
Proof. intros. apply (rnonneg (dval a * dval b)); [nra|apply dmul_R]. Qed.

Lemma dmul_pos a b : 0 < dval a -> 0 < dval b -> 0 < dval (dmul a b).
Proof. intros. apply (rpos (dval a * dval b)); [nra|apply dmul_R]. Qed.

Lemma Qdiv_nonneg x y : 0 <= x -> 0 < y -> 0 <= x / y.
Proof. intros. apply Qle_shift_div_l; lra. Qed.

Lemma Qdiv_pos x y : 0 < x -> 0 < y -> 0 < x / y.
Proof. intros. apply Qlt_shift_div_l; lra. Qed.

Lemma ddiv_nonneg a b (r : decimal) : 0 <= dval a -> 0 < dval b -> ddiv a b = Ok r -> 0 <= dval r.
Proof.
  intros. apply (rnonneg (dval a / dval b)); [now apply Qdiv_nonneg|now apply ddiv_R].
Qed.

Lemma ddiv_pos a b (r : decimal) : 0 < dval a -> 0 < dval b -> ddiv a b = Ok r -> 0 < dval r.
Proof.
  intros. apply (rpos (dval a / dval b)); [now apply Qdiv_pos|now apply ddiv_R].
Qed.

Lemma dabs_nonneg a : 0 <= dval (dabs a).
Proof. apply (rnonneg (Qabs (dval a))); [apply Qabs_nonneg|apply dabs_R]. Qed.

Lemma dsum_from_nonneg xs a :
  0 <= dval a -> Forall (fun x => 0 <= dval x) xs -> 0 <= dval (fold_left dadd xs a).
Proof.
  intros Ha Hxs. revert a Ha. induction Hxs; intros; [exact Ha|].
  cbn [fold_left]. apply IHHxs. now apply dadd_nonneg.
Qed.

Lemma dsum_nonneg xs : Forall (fun x => 0 <= dval x) xs -> 0 <= dval (dsum xs).
Proof. apply dsum_from_nonneg. discriminate. Qed.
End Signs.

(** The rounded operations are monotone. *)

Lemma dadd_mono a b a' b' :
  (dval a <= dval a')%Q -> (dval b <= dval b')%Q -> (dval (dadd a b) <= dval (dadd a' b'))%Q.
Proof. intros. apply fix_mono; [discriminate|]. rewrite !exact_add_val. lra. Qed.

Lemma dsub_mono a b a' b' :
  (dval a <= dval a')%Q -> (dval b' <= dval b)%Q -> (dval (dsub a b) <= dval (dsub a' b'))%Q.
Proof. intros. apply fix_mono; [discriminate|]. rewrite !exact_add_val, !copy_negate_val. lra. Qed.

Lemma dmul_mono a b a' b' :
  (0 <= dval a <= dval a')%Q -> (0 <= dval b <= dval b')%Q ->
  (dval (dmul a b) <= dval (dmul a' b'))%Q.
Proof.
  intros. apply fix_mono; [discriminate|]. rewrite !mul_exact_val.
  now apply Qmult_le_compat_nonneg.
Qed.

Lemma dneg_val a : Repr prec (dval a) -> (dval (dneg a) == - dval a)%Q.
Proof. intros H. eapply Rounded_exact; [|apply dneg_R]. now apply Repr_opp. Qed.

Lemma dmul_zero_l a b : (dval a == 0)%Q -> (dval (dmul a b) == 0)%Q.
Proof.
  intros H. eapply (Rounded_exact (p := prec)); [now apply Repr_0|].
  pose proof (dmul_R a b) as E. rewrite H, Qmult_0_l in E. exact E.
Qed.

Lemma dmul_zero_r a b : (dval b == 0)%Q -> (dval (dmul a b) == 0)%Q.
Proof.
  intros H. eapply (Rounded_exact (p := prec)); [now apply Repr_0|].
  pose proof (dmul_R a b) as E. rewrite H, Qmult_0_r in E. exact E.
Qed.

Lemma dadd_zero_r a b : Repr prec (dval a) -> (dval b == 0)%Q -> (dval (dadd a b) == dval a)%Q.
Proof.
  intros HR H. eapply Rounded_exact; [exact HR|].
  pose proof (dadd_R a b) as E. rewrite H, Qplus_0_r in E. exact E.
Qed.

Lemma ddiv_nonpos a b (r : decimal) :
  (dval a <= 0)%Q -> (0 < dval b)%Q -> ddiv a b = Ok r -> (dval r <= 0)%Q.
Proof.
  intros Ha Hb H. apply (Rounded_nonpos (p := prec) (dval a / dval b)); [discriminate| |now apply ddiv_R].
  apply Qle_shift_div_r; lra.
Qed.

Lemma dsub_pos_inv a b : (0 < dval (dsub a b))%Q -> (dval b < dval a)%Q.
Proof.
  intros H. destruct (Qlt_le_dec (dval b) (dval a)) as [|C]; [assumption|].
  assert (dval (dsub a b) <= 0)%Q; [|lra].
  apply (Rounded_nonpos (p := prec) (dval a - dval b)); [discriminate|lra|apply dsub_R].
Qed.

Lemma Qmult_le_left z x y : (0 <= z)%Q -> (x <= y)%Q -> (z * x <= z * y)%Q.
Proof. intros Hz H. rewrite (Qmult_comm z x), (Qmult_comm z y). now apply Qmult_le_compat_r. Qed.

(** Rounding preserves bounds on the absolute value. *)

Lemma fix_abs_le p a b :
  1 <= p -> (Qabs (dval a) <= dval b)%Q -> (Qabs (dval (fix_ p a)) <= dval (fix_ p b))%Q.
Proof.
  intros Hp H. apply Qabs_le_iff in H as [H1 H2]. apply Qabs_le_iff. split.
  - rewrite <- fix_negate by exact Hp. apply fix_mono; [exact Hp|]. rewrite copy_negate_val. lra.
  - now apply fix_mono.
Qed.

Lemma dadd_abs_le a x b y :
  (Qabs (dval a) <= dval b)%Q -> (Qabs (dval x) <= dval y)%Q ->
  (Qabs (dval (dadd a x)) <= dval (dadd b y))%Q.
Proof.
  intros H1 H2. apply fix_abs_le; [discriminate|]. rewrite !exact_add_val.
  eapply Qle_trans; [apply Qabs_triangle|]. now apply Qplus_le_compat.
Qed.

Lemma dsub_abs_le a x b y :
  (Qabs (dval a) <= dval b)%Q -> (Qabs (dval x) <= dval y)%Q ->
  (Qabs (dval (dsub a x)) <= dval (dadd b y))%Q.
Proof.
  intros H1 H2. apply (dadd_abs_le a (copy_negate x)); [exact H1|].
  now rewrite copy_negate_val, Qabs_opp.
Qed.

Create HintDb dec discriminated.
#[export] Hint Resolve dadd_R dsub_R dmul_R dneg_R dabs_R ddiv_R : dec.
#[export] Hint Resolve dadd_Repr dmul_Repr ddiv_Repr : dec.
#[export] Hint Resolve dadd_nonneg dmul_nonneg dmul_pos dabs_nonneg ddiv_nonneg ddiv_pos : dec.
#[export] Hint Resolve dsum_nonneg Qlt_le_weak : dec.
#[export] Hint Resolve dadd_mono dsub_mono dmul_mono : dec.

(** ** Relative error bounds, composable through a formula *)

Section Bounds.
Implicit Types a b : decimal.
Implicit Types A B : Q.
Local Open Scope Q_scope.

Lemma dadd_upper a b A B :
  0 <= dval a <= A -> 0 <= dval b <= B -> dval (dadd a b) <= (A + B) * (1 + eps).
Proof.
  intros Ha Hb. pose proof (Rounded_upper (dval a + dval b) _ ltac:(lra) (dadd_R a b)) as H.
  fold eps in H. rewrite eps_val in *. lra.
Qed.

Lemma dadd_lower a b A B :
  0 <= A <= dval a -> 0 <= B <= dval b -> (A + B) * (1 - eps) <= dval (dadd a b).
Proof.
  intros Ha Hb. pose proof (Rounded_lower (dval a + dval b) _ ltac:(lra) (dadd_R a b)) as H.
  fold eps in H. rewrite eps_val in *. lra.
Qed.

Lemma dmul_upper a b A B :
  0 <= dval a <= A -> 0 <= dval b <= B -> dval (dmul a b) <= A * B * (1 + eps).
Proof.
  intros Ha Hb. pose proof (Rounded_upper _ _ (Qmult_le_0_compat (dval a) (dval b) ltac:(lra) ltac:(lra)) (dmul_R a b)) as H.
  fold eps in H. eapply Qle_trans; [exact H|].
  apply Qmult_le_compat_r; [now apply Qmult_le_compat_nonneg|rewrite eps_val; lra].
Qed.

Lemma dmul_lower a b A B :
  0 <= A <= dval a -> 0 <= B <= dval b -> A * B * (1 - eps) <= dval (dmul a b).
Proof.
  intros Ha Hb. pose proof (Rounded_lower _ _ (Qmult_le_0_compat (dval a) (dval b) ltac:(lra) ltac:(lra)) (dmul_R a b)) as H.
  fold eps in H. eapply Qle_trans; [|exact H].
  apply Qmult_le_compat_r; [now apply Qmult_le_compat_nonneg|rewrite eps_val; lra].
Qed.

Lemma Qdiv_mono A B x y : 0 <= A <= x -> 0 < y <= B -> A / B <= x / y.
Proof.
  intros Ha Hb. apply Qle_shift_div_l; [lra|].
  assert (E : A / B * y == A * (y / B)) by (field; lra). rewrite E.
  apply Qle_trans with (A * 1); [|lra].
  rewrite !(Qmult_comm A). apply Qmult_le_compat_r; [|lra]. apply Qle_shift_div_r; lra.
Qed.

Lemma ddiv_upper a b (r : decimal) A B :
  ddiv a b = Ok r -> 0 <= dval a <= A -> 0 < B <= dval b -> dval r <= A / B * (1 + eps).
Proof.
  intros Hr Ha Hb. apply ddiv_R in Hr.
  pose proof (Rounded_upper _ _ (Qdiv_nonneg (dval a) (dval b) ltac:(lra) ltac:(lra)) Hr) as H.
  fold eps in H. eapply Qle_trans; [exact H|].
  apply Qmult_le_compat_r; [|rewrite eps_val; lra]. apply Qdiv_mono; lra.
Qed.

Lemma ddiv_lower a b (r : decimal) A B :
  ddiv a b = Ok r -> 0 <= A <= dval a -> 0 < dval b <= B -> A / B * (1 - eps) <= dval r.
Proof.
  intros Hr Ha Hb. apply ddiv_R in Hr.
  pose proof (Rounded_lower _ _ (Qdiv_nonneg (dval a) (dval b) ltac:(lra) ltac:(lra)) Hr) as H.
  fold eps in H. eapply Qle_trans; [|exact H].
  apply Qmult_le_compat_r; [|rewrite eps_val; lra]. apply Qdiv_mono; lra.
Qed.

Lemma ratio_lower_aux s t e :
  0 < s -> 0 < t -> 0 < e -> e < 1 # 100 ->
  s / t * (1 - 4 * e) <= s * (1 - e) / (t * (1 + e)) * (1 - e).
Proof.
  intros Hs Ht He Hc. pose proof (Qdiv_pos s t Hs Ht).
  assert (E : s * (1 - e) / (t * (1 + e)) * (1 - e) == s / t * ((1 - e) * (1 - e) / (1 + e)))
    by (field; split; lra).
  rewrite E. apply Qmult_le_l; [assumption|]. apply Qle_shift_div_l; [lra|]. nra.
Qed.

Lemma ratio_upper_aux s t e :
  0 < s -> 0 < t -> 0 < e -> e < 1 # 100 ->
  s * (1 + e) / (t * (1 - e)) * (1 + e) <= s / t * (1 + 4 * e).
Proof.
  intros Hs Ht He Hc. pose proof (Qdiv_pos s t Hs Ht).
  assert (E : s * (1 + e) / (t * (1 - e)) * (1 + e) == s / t * ((1 + e) * (1 + e) / (1 - e)))
    by (field; split; lra).
  rewrite E. apply Qmult_le_l; [assumption|]. apply Qle_shift_div_r; [lra|]. nra.
Qed.

Lemma eps_small : 0 < eps /\ eps < 1 # 100.
Proof. split; reflexivity. Qed.

(** A quotient of two sums, each rounded once, rounded again. *)
Lemma ratio_bounds a b (r : decimal) s t :
  0 < s -> 0 < t -> 0 < dval b ->
  s * (1 - eps) <= dval a <= s * (1 + eps) -> t * (1 - eps) <= dval b <= t * (1 + eps) ->
  ddiv a b = Ok r -> s / t * (1 - 4 * eps) <= dval r <= s / t * (1 + 4 * eps).
Proof.
  intros Hs Ht Hb [La Ua] [Lb Ub] Hr. destruct eps_small as [E1 E2].
  assert (P1 : 0 <= s * (1 - eps)) by (apply Qmult_le_0_compat; lra).
  assert (P2 : 0 < t * (1 - eps)) by (apply Qmult_lt_0_compat; lra).
  split.
  - eapply Qle_trans; [now apply ratio_lower_aux|].
    now apply (ddiv_lower a b).
  - eapply Qle_trans; [|now apply ratio_upper_aux].
    apply (ddiv_upper a b); [exact Hr| |]; split; auto; lra.
Qed.
End Bounds.
