(* ===== verification/Money.v ===== *)
(** [sentinel/core/money.py]: the coercion of values to decimals, the price and
    lot grids, the instrument record with its validation, and the cost
    arithmetic (round-trip cost, break-even win rate, annual cost, minimum
    equity).  Amounts are [PyDecimal.decimal]s; what raises in Python is a
    [Raise] here. *)

From Stdlib Require Import ZArith QArith Lia Lqa.
From stdpp Require Import base strings.
From S2P Require Import Prelude PyDecimal DecimalTheory.

Local Open Scope dec_scope.
Local Open Scope py_scope.

(** ** [dec]: every way a value enters the decimal world *)

(** The Python values [dec] distinguishes.  A finite float is given by the
    decimal its [repr] denotes; [None] is a non-finite value, or a string that
    does not parse. *)
Inductive pyval :=
| PDecimal (v : option decimal)
| PBool (b : bool)
| PInt (z : Z)
| PFloat (v : option decimal)
| PStr (v : option (option decimal)).

Definition dec (value : pyval) : res decimal :=
  match value with
  | PDecimal (Some d) => Ok d
  | PDecimal None => Raise ValueError
  | PBool _ => Raise ValueError
  | PInt z => Ok (dec_of_Z z)
  | PFloat (Some d) => Ok d
  | PFloat None => Raise ValueError
  | PStr (Some (Some d)) => Ok d
  | PStr _ => Raise ValueError
  end.

(** [quantize]: snap to the grid [exp], at 34 digits. *)
Definition quantize (value ex : decimal) (m : rounding) : res decimal :=
  if ex <=? 0 then Raise ValueError
  else
    let* q := div_ 34 value ex in
    let steps := to_integral_value m q in
    quantize_ 34 (mul_ 34 steps ex) ex.

(** ** Instruments *)

Inductive AssetClass := FX_SPOT | FX_CFD | METAL | INDEX_CFD | CRYPTO.

Record Instrument := mkInstrument {
  inst_symbol : string;
  inst_base : string;
  inst_quote : string;
  inst_asset_class : AssetClass;
  inst_pip : decimal;
  inst_tick : decimal;
  inst_contract_size : decimal;
  inst_min_lot : decimal;
  inst_lot_step : decimal;
  inst_max_lot : decimal;
  inst_margin_rate : decimal;
  inst_venue : string
}.

(** The defaults of the dataclass. *)
Definition default_instrument (symbol base quote : string) : Instrument :=
  mkInstrument symbol base quote FX_CFD 0.0001 0.00001 100000 0.01 0.01 100 0.033 "sim".

(** [Instrument.__post_init__]. *)
Definition Instrument_post_init (i : Instrument) : res unit :=
  if existsb (fun v => v <=? 0)
       [inst_pip i; inst_tick i; inst_contract_size i; inst_min_lot i; inst_lot_step i; inst_max_lot i]
  then Raise ValueError
  else if inst_lot_step i >? inst_min_lot i then Raise ValueError
  else if inst_pip i <? inst_tick i then Raise ValueError
  else Ok tt.

Definition pip_decimals (i : Instrument) : Z := Z.max 0 (- expo (inst_pip i)).
Definition price_decimals (i : Instrument) : Z := Z.max 0 (- expo (inst_tick i)).

Definition round_price (i : Instrument) (price : decimal) : res decimal :=
  quantize price (inst_tick i) ROUND_HALF_EVEN.
Definition price_to_pips (i : Instrument) (delta : decimal) : res decimal :=
  ddiv delta (inst_pip i).
Definition pips_to_price (i : Instrument) (pips : decimal) : decimal := pips * inst_pip i.
Definition units (i : Instrument) (lots : decimal) : decimal := lots * inst_contract_size i.

Definition round_lots_down (i : Instrument) (l : decimal) : res decimal :=
  if l <=? 0 then Ok ZERO
  else
    let* q := ddiv l (inst_lot_step i) in
    let steps := to_integral_value ROUND_DOWN q in
    quantize (steps * inst_lot_step i) (inst_lot_step i) ROUND_HALF_EVEN.

Definition pip_value_quote (i : Instrument) (lots : decimal) : decimal :=
  units i lots * inst_pip i.

(** ** Conversion to the account currency *)

Record ConversionRate := mkConversionRate {
  cr_pair : string;
  cr_rate : decimal;
  cr_as_of_ns : Z;
  cr_source : string
}.

Definition convert (r : ConversionRate) (amount : decimal) : decimal := amount * cr_rate r.

Definition pip_value_account (i : Instrument) (lots : decimal) (account_ccy : string)
    (quote_to_account : option ConversionRate) : res decimal :=
  let v := pip_value_quote i lots in
  if bool_decide (inst_quote i = account_ccy) then Ok v
  else match quote_to_account with
       | None => Raise ValueError
       | Some r => Ok (convert r v)
       end.

(** ** Cost arithmetic *)

Record CostModel := mkCostModel {
  cm_spread_pips : decimal;
  cm_commission_per_lot_round_turn : decimal;
  cm_swap_long_per_lot_per_day : decimal;
  cm_swap_short_per_lot_per_day : decimal;
  cm_news_spread_multiplier : decimal;
  cm_slippage_pips_median : decimal
}.

(** [CostModel(spread_pips=spread)], the other fields at their defaults. *)
Definition default_cost_model (spread : decimal) : CostModel :=
  mkCostModel spread 7.0 0 0 4.0 0.1.

Definition round_trip_pips (cm : CostModel) (lots pip_val_account : decimal)
    (during_news : bool) : res decimal :=
  if pip_val_account <=? 0 then Raise ValueError
  else
    let spread := cm_spread_pips cm * (if during_news then cm_news_spread_multiplier cm else 1) in
    let* commission_pips := ddiv (cm_commission_per_lot_round_turn cm * lots) pip_val_account in
    Ok (spread + commission_pips + (cm_slippage_pips_median cm * 2)).

Definition break_even_win_rate (T S c : decimal) : res decimal :=
  if (T <=? 0) || (S <=? 0) then Raise ValueError
  else if (T + S) =? 0 then Raise ValueError
  else ddiv (S + c) (T + S).

Definition expectancy_pips (p T S c : decimal) : res decimal :=
  if negb ((0 <=? p) && (p <=? 1)) then Raise ValueError
  else Ok (p * (T - c) - (1 - p) * (S + c)).

Definition LOT_GRANULARITY_TOLERANCE : decimal := 0.20.

Definition annual_cost_pct_of_equity (bp leverage : decimal) (trades_per_year : Z) : res decimal :=
  if (trades_per_year <? 0)%Z || (leverage <? 0) then Raise ValueError
  else if bp <? 0 then Raise ValueError
  else ddiv (bp * leverage * dec_of_Z trades_per_year) 100.

Definition min_equity_for_granularity (S r : decimal) (i : Instrument)
    (pip_value_per_lot max_rounding_error : decimal) : res decimal :=
  if (S <=? 0) || (r <=? 0) then Raise ValueError
  else if negb ((ZERO <? max_rounding_error) && (max_rounding_error <=? 1)) then Raise ValueError
  else
    let* min_lots := ddiv (inst_lot_step i) max_rounding_error in
    ddiv (min_lots * pip_value_per_lot * S) r.

(** ** The instrument invariant *)

(** What [__post_init__] establishes for every instrument the program holds. *)
Record Instrument_ok (i : Instrument) : Prop := {
  ok_pip : (0 < dval (inst_pip i))%Q;
  ok_tick : (0 < dval (inst_tick i))%Q;
  ok_contract : (0 < dval (inst_contract_size i))%Q;
  ok_min_lot : (0 < dval (inst_min_lot i))%Q;
  ok_lot_step : (0 < dval (inst_lot_step i))%Q;
  ok_max_lot : (0 < dval (inst_max_lot i))%Q;
  ok_step_le_min : (dval (inst_lot_step i) <= dval (inst_min_lot i))%Q;
  ok_tick_le_pip : (dval (inst_tick i) <= dval (inst_pip i))%Q
}.

Lemma post_init_spec i : Instrument_post_init i = Ok tt <-> Instrument_ok i.
Proof.
  unfold Instrument_post_init.
  destruct (existsb _ _) eqn:Ex.
  - split; [discriminate|]. intros [].
    apply existsb_exists in Ex as (v & Hv & Hle). apply dleb_spec in Hle.
    change (dval 0) with 0%Q in Hle. cbn [In] in Hv.
    repeat destruct Hv as [<-|Hv]; lra.
  - assert (Hpos : forall v, In v [inst_pip i; inst_tick i; inst_contract_size i; inst_min_lot i;
                               inst_lot_step i; inst_max_lot i] -> (0 < dval v)%Q).
    { intros v Hv. destruct (dleb v 0) eqn:E; [|now apply dleb_false in E].
      assert (existsb (fun v => v <=? 0)%dec [inst_pip i; inst_tick i; inst_contract_size i;
                inst_min_lot i; inst_lot_step i; inst_max_lot i] = true)
        by (apply existsb_exists; eauto). congruence. }
    destruct (dltb (inst_min_lot i) (inst_lot_step i)) eqn:E1;
      [apply dltb_spec in E1; split; [discriminate|intros []; lra]|].
    destruct (dltb (inst_pip i) (inst_tick i)) eqn:E2;
      [apply dltb_spec in E2; split; [discriminate|intros []; lra]|].
    apply dltb_false in E1, E2. split; [intros _|reflexivity].
    split; try (apply Hpos; cbn [In]; tauto); assumption.
Qed.

(** ** The lot grid *)

Lemma to_integral_on_integers p d z :
  (dval d == inject_Z z)%Q -> (dval (to_integral_value p d) == inject_Z z)%Q.
Proof.
  intros H. unfold to_integral_value. destruct (Z.leb_spec 0 (expo d)) as [He|He]; [exact H|].
  unfold rescale. destruct (Z.leb_spec 0 (expo d)); [lia|].
  set (w := (10 ^ (0 - expo d))%Z). assert (Hw : (0 < w)%Z) by (apply Z.pow_pos_nonneg; lia).
  assert (Hc : coef d = (z * w)%Z).
  { pose proof (dval_frac d He) as E. replace (- expo d)%Z with (0 - expo d)%Z in E by lia. fold w in E.
    rewrite H, <- inject_Z_mult in E. unfold Qeq in E. cbn in E. lia. }
  rewrite dval_mk. change (p10 0) with 1%Q. rewrite Qmult_1_r, Hc. destruct p; cbn [round_div].
  - rewrite Z.sgn_mul, Z.abs_mul, (Z.abs_eq w), (Z.sgn_pos w), half_even_exact by lia.
    rewrite Z.mul_1_r, Z.mul_comm, Z.abs_sgn. reflexivity.
  - rewrite Z.quot_mul by lia. reflexivity.
Qed.

Lemma Repr_mono p q x : (0 <= p <= q)%Z -> Repr p x -> Repr q x.
Proof.
  intros H (c & e & Hc & E). exists c, e. split; [|exact E].
  etransitivity; [exact Hc|]. apply Z.pow_le_mono_r; lia.
Qed.

(** Quantizing a multiple of the step returns it, in the step's own exponent. *)
Lemma quantize_multiple v ex k m :
  (0 < dval ex)%Q -> (Z.abs (k * coef ex) < 10 ^ 34)%Z -> (dval v == inject_Z k * dval ex)%Q ->
  quantize v ex m = Ok (mkDec (k * coef ex) (expo ex)).
Proof.
  intros Hex Hk Hv. unfold quantize.
  assert (E0 : dleb ex 0 = false) by (apply dleb_false; exact Hex). rewrite E0.
  destruct (div_total 34 v ex) as [q Hq]; [lra|]. rewrite Hq. cbn [rbind].
  assert (Hce : (0 < coef ex)%Z).
  { apply (scaled_lt 0 _ (expo ex)). fold (dval ex). assert (inject_Z 0 * p10 (expo ex) == 0)%Q by ring. lra. }
  assert (Hqv : (dval q == inject_Z k)%Q).
  { apply div_rounded in Hq; [|lia]. rewrite Hv in Hq.
    assert (E : (inject_Z k * dval ex / dval ex == inject_Z k)%Q) by (field; lra). rewrite E in Hq.
    apply Rounded_exact in Hq; [exact Hq|]. exists k, 0%Z. split; [nia|change (p10 0) with 1%Q; ring]. }
  apply quantize_on_grid; [lia|exact Hk|].
  pose proof (to_integral_on_integers m q k Hqv) as Hs.
  assert (Hm : (dval (to_integral_value m q) * dval ex == inject_Z (k * coef ex) * p10 (expo ex))%Q).
  { rewrite Hs, inject_Z_mult. unfold dval. ring. }
  rewrite <- Hm. eapply (Rounded_exact (p := 34)); [|apply mul_rounded; lia].
  exists (k * coef ex)%Z, (expo ex). split; [lia|exact Hm].
Qed.

(** The largest value below which a lot count fits the context precision. *)
Definition lot_range (i : Instrument) : Q := p10 (27 + expo (inst_lot_step i)).

Lemma coef_pos d : (0 < dval d)%Q -> (0 < coef d)%Z.
Proof.
  intros H. apply (scaled_lt 0 _ (expo d)). fold (dval d).
  assert (inject_Z 0 * p10 (expo d) == 0)%Q by ring. lra.
Qed.

Lemma round_lots_down_ok i l :
  Instrument_ok i -> (0 < dval l)%Q -> (dval l < lot_range i)%Q ->
  exists q k, ddiv l (inst_lot_step i) = Ok q /\ (0 <= k)%Z
    /\ (inject_Z k <= dval q)%Q /\ (dval q < inject_Z (k + 1))%Q
    /\ round_lots_down i l = Ok (mkDec (k * coef (inst_lot_step i)) (expo (inst_lot_step i))).
Proof.
  intros Hi Hl Hr. set (st := inst_lot_step i). pose proof (ok_lot_step _ Hi) as Hs. fold st in Hs.
  pose proof (coef_pos _ Hs) as Hc.
  destruct (ddiv_total l st) as [q Hq]; [lra|].
  pose proof (ddiv_pos _ _ _ Hl Hs Hq) as Hqp.
  destruct (to_integral_down q) as (k & Hk & Ek & Hlo & Hhi); [lra|].
  exists q, k. repeat (split; [assumption|]).
  assert (Hup : (dval q <= dval l / dval st * (1 + eps))%Q) by (apply (ddiv_upper l st); auto; lra).
  assert (Hz : (inject_Z (k * coef st) * p10 (expo st) < p10 (28 + expo st))%Q).
  { assert (E : (inject_Z (k * coef st) * p10 (expo st) == inject_Z k * dval st)%Q)
      by (rewrite inject_Z_mult; unfold dval; ring). rewrite E.
    apply Qle_lt_trans with (dval l / dval st * (1 + eps) * dval st)%Q.
    - apply Qmult_le_compat_r; lra.
    - assert (E2 : (dval l / dval st * (1 + eps) * dval st == dval l * (1 + eps))%Q) by (field; lra).
      rewrite E2. unfold lot_range in Hr. fold st in Hr.
      replace (28 + expo st)%Z with (1 + (27 + expo st))%Z by lia. rewrite p10_add.
      change (p10 1) with 10%Q. rewrite eps_val. lra. }
  rewrite p10_add, (p10_Z 28) in Hz by lia. apply scaled_lt in Hz.
  unfold round_lots_down. fold st.
  assert (E0 : dleb l 0 = false) by (apply dleb_false; exact Hl). rewrite E0, Hq. cbn [rbind].
  apply quantize_multiple; [exact Hs| |].
  - rewrite Z.abs_eq by nia. lia.
  - assert (E : (dval (to_integral_value ROUND_DOWN q) * dval st == inject_Z k * dval st)%Q) by now rewrite Ek.
    rewrite <- E. eapply (Rounded_exact (p := prec)); [|apply dmul_R].
    exists (k * coef st)%Z, (expo st). split; [unfold prec; nia|]. rewrite E, inject_Z_mult. unfold dval. ring.
Qed.

Lemma round_lots_down_bounds i l r :
  Instrument_ok i -> (0 < dval l)%Q -> (dval l < lot_range i)%Q -> round_lots_down i l = Ok r ->
  (0 <= dval r)%Q /\ (dval r <= dval l * (1 + eps))%Q.
Proof.
  intros Hi Hl Hr H. destruct (round_lots_down_ok i l Hi Hl Hr) as (q & k & Hq & Hk & Hlo & Hhi & E).
  rewrite E in H. injection H as <-. set (st := inst_lot_step i) in *.
  pose proof (ok_lot_step _ Hi) as Hs. fold st in Hs.
  rewrite dval_mk, inject_Z_mult, <- Qmult_assoc. fold (dval st).
  assert (0 <= inject_Z k)%Q by now apply (inject_Z_le 0).
  split; [now apply Qmult_le_0_compat; lra|].
  assert (Hup : (dval q <= dval l / dval st * (1 + eps))%Q) by (apply (ddiv_upper l st); auto; lra).
  apply Qle_trans with (dval l / dval st * (1 + eps) * dval st)%Q.
  - apply Qmult_le_compat_r; lra.
  - apply Qle_lteq. right. field. lra.
Qed.

(** Rounding a lot size down never raises for a size in range, lands on a
    whole number [k] of lot steps, loses less than one step, and does not
    increase the size: exactly so when the step divides it within the context
    precision (every power-of-ten step), and by less than a part in 10^27
    otherwise. *)
Theorem round_lots_down_spec (i : Instrument) (l : decimal)
    (Hi : Instrument_ok i) (Hl : (0 < dval l)%Q) (Hr : (dval l < lot_range i)%Q) :
  exists r k, round_lots_down i l = Ok r /\ (0 <= k)%Z
    /\ (dval r == inject_Z k * dval (inst_lot_step i))%Q
    /\ (dval r <= dval l * (1 + eps))%Q
    /\ (Repr prec (dval l / dval (inst_lot_step i)) -> (dval r <= dval l)%Q)
    /\ (dval l * (1 - eps) < dval r + dval (inst_lot_step i))%Q.
Proof.
  destruct (round_lots_down_ok i l Hi Hl Hr) as (q & k & Hq & Hk & Hlo & Hhi & E).
  eexists _, k. split; [exact E|]. set (st := inst_lot_step i) in *.
  pose proof (ok_lot_step _ Hi) as Hs. fold st in Hs.
  assert (Ev : (dval (mkDec (k * coef st) (expo st)) == inject_Z k * dval st)%Q)
    by (rewrite dval_mk, inject_Z_mult; unfold dval; ring).
  assert (Hlow : (dval l / dval st * (1 - eps) <= dval q)%Q) by (apply (ddiv_lower l st); auto; lra).
  split; [exact Hk|]. split; [exact Ev|]. split; [|split].
  - apply (round_lots_down_bounds i l _ Hi Hl Hr E).
  - intros HR. rewrite Ev. pose proof (Rounded_exact _ _ HR (ddiv_R _ _ _ Hq)) as Eq.
    apply Qle_trans with (dval q * dval st)%Q; [apply Qmult_le_compat_r; lra|].
    rewrite Eq. apply Qle_lteq. right. field. lra.
  - rewrite Ev. rewrite inject_Z_plus in Hhi. change (inject_Z 1) with 1%Q in Hhi.
    apply Qle_lt_trans with (dval q * dval st)%Q.
    + apply Qle_trans with (dval l / dval st * (1 - eps) * dval st)%Q; [|apply Qmult_le_compat_r; lra].
      apply Qle_lteq. right. field. lra.
    + apply Qlt_le_trans with ((inject_Z k + 1) * dval st)%Q; [apply Qmult_lt_compat_r; lra|lra].
Qed.

Definition eur_usd : Instrument := default_instrument "EUR_USD" "EUR" "USD".

Lemma eur_usd_ok : Instrument_ok eur_usd.
Proof. apply post_init_spec. reflexivity. Defined.

Lemma round_lots_down_spec_witness :
  exists r k, round_lots_down eur_usd 0.537 = Ok r /\ (0 <= k)%Z
    /\ (dval r == inject_Z k * dval 0.01)%Q
    /\ (dval r <= dval 0.537 * (1 + eps))%Q
    /\ (Repr prec (dval 0.537 / dval 0.01) -> (dval r <= dval 0.537)%Q)
    /\ (dval 0.537 * (1 - eps) < dval r + dval 0.01)%Q.
Proof. apply (round_lots_down_spec eur_usd 0.537 eur_usd_ok); reflexivity. Defined.

(** The 28-digit division in [round_lots_down] can round a size that is
    just below a whole number of lot steps up to it, so on a step that is not
    a power of ten the rounded lots can exceed the size asked for (in the 28th
    digit). *)
Theorem round_lots_down_can_round_up :
  exists i l r, Instrument_ok i /\ (0 < dval l)%Q /\ (dval l < lot_range i)%Q
    /\ round_lots_down i l = Ok r /\ (dval l < dval r)%Q.
Proof.
  exists (mkInstrument "X" "X" "USD" INDEX_CFD 0.01 0.01 1 3.3 3.3 100 0.033 "sim").
  exists 9.899999999999999999999999999%dec, 9.9%dec.
  split; [apply post_init_spec; reflexivity|].
  split; [reflexivity|]. split; [reflexivity|]. split; reflexivity.
Qed.

(** For a positive target and stop and a non-negative cost the break-even
    win rate is defined and is the root [(S + c) / (T + S)] of the expectancy up to the
    rounding of its three operations; any other target or stop raises. *)
Theorem break_even_win_rate_spec (T S c : decimal) (Hc : (0 <= dval c)%Q) :
  ((dval T <= 0 \/ dval S <= 0)%Q /\ break_even_win_rate T S c = Raise ValueError)
  \/ exists p, break_even_win_rate T S c = Ok p /\ (0 < dval p)%Q
     /\ ((dval S + dval c) / (dval T + dval S) * (1 - 4 * eps) <= dval p)%Q
     /\ (dval p <= (dval S + dval c) / (dval T + dval S) * (1 + 4 * eps))%Q.
Proof.
  unfold break_even_win_rate.
  destruct (dleb T 0) eqn:ET; [left; split; [left; now apply dleb_spec in ET|reflexivity]|].
  destruct (dleb S 0) eqn:ES; [left; split; [right; now apply dleb_spec in ES|reflexivity]|].
  apply dleb_false in ET, ES. change (dval 0) with 0%Q in ET, ES. cbn [orb].
  pose proof (dadd_pos T S ltac:(lra) ES) as Hp.
  assert (E0 : deqb (dadd T S) 0 = false).
  { apply Bool.not_true_iff_false. rewrite deqb_spec. change (dval 0) with 0%Q. lra. }
  rewrite E0. right. destruct (ddiv_total (dadd S c) (dadd T S)) as [p Hpp]; [lra|].
  exists p. split; [exact Hpp|].
  pose proof (dadd_upper S c _ _ (conj (Qlt_le_weak _ _ ES) (Qle_refl _)) (conj Hc (Qle_refl _))) as U1.
  pose proof (dadd_lower S c _ _ (conj (Qlt_le_weak _ _ ES) (Qle_refl _)) (conj Hc (Qle_refl _))) as L1.
  pose proof (dadd_upper T S _ _ (conj (Qlt_le_weak _ _ ET) (Qle_refl _)) (conj (Qlt_le_weak _ _ ES) (Qle_refl _))) as U2.
  pose proof (dadd_lower T S _ _ (conj (Qlt_le_weak _ _ ET) (Qle_refl _)) (conj (Qlt_le_weak _ _ ES) (Qle_refl _))) as L2.
  pose proof (ratio_bounds _ _ _ (dval S + dval c) (dval T + dval S) ltac:(lra) ltac:(lra) Hp
    (conj L1 U1) (conj L2 U2) Hpp) as [Hlo Hhi].
  split; [|split; assumption]. eapply ddiv_pos; [|exact Hp|exact Hpp].
  rewrite eps_val in L1. lra.
Qed.

(** The table of the research brief: 3 pips of target and stop, 1 of cost. *)
Lemma break_even_win_rate_spec_witness :
  break_even_win_rate 3 3 1 = Ok (mkDec 6666666666666666666666666667 (-28))
  /\ (((dval 3 <= 0 \/ dval 3 <= 0)%Q /\ break_even_win_rate 3 3 1 = Raise ValueError)
      \/ exists p, break_even_win_rate 3 3 1 = Ok p /\ (0 < dval p)%Q
         /\ ((dval 3 + dval 1) / (dval 3 + dval 3) * (1 - 4 * eps) <= dval p)%Q
         /\ (dval p <= (dval 3 + dval 1) / (dval 3 + dval 3) * (1 + 4 * eps))%Q).
Proof. split; [reflexivity|]. apply (break_even_win_rate_spec 3 3 1). discriminate. Defined.
