(* ===== verification/Types.v ===== *)
(** [sentinel/core/types.py]: the domain records shared by every layer, their
    validation and their derived quantities.  Field names carry a prefix of the
    record ([pos_side] is [Position.side]).  A default timestamp
    ([wall_ns()]) is an explicit field; [to_dict] is presentation. *)

From Stdlib Require Import ZArith QArith Qabs Lia Lqa.
From stdpp Require Import base strings list.
From S2P Require Import Prelude PyDecimal DecimalTheory Money.

Local Open Scope dec_scope.
Local Open Scope py_scope.

Inductive Side := BUY | SELL.
#[export] Instance Side_eq_dec : EqDecision Side.
Proof. solve_decision. Defined.

(** [Side.sign], as the decimal [D(side.sign)] every use takes it to. *)
Definition sign (s : Side) : decimal := match s with BUY => 1 | SELL => mkDec (-1) 0 end.
Definition opposite (s : Side) : Side := match s with BUY => SELL | SELL => BUY end.

Inductive OrderType := MARKET | LIMIT | STOP.

Inductive OrderState :=
| PENDING | SENT | ACKED | PARTIAL | FILLED | REJECTED | CANCELLED | UNKNOWN.
#[export] Instance OrderState_eq_dec : EqDecision OrderState.
Proof. solve_decision. Defined.

Definition terminal (s : OrderState) : bool :=
  match s with FILLED | REJECTED | CANCELLED => true | _ => false end.

Inductive DataQuality := DQ_OK | DQ_STALE | DQ_GAP | DQ_SUSPECT.
#[export] Instance DataQuality_eq_dec : EqDecision DataQuality.
Proof. solve_decision. Defined.

(** ** Quotes and bars *)

Record Quote := mkQuote {
  q_instrument : string;
  q_bid : decimal;
  q_ask : decimal;
  q_ts_ns : Z;
  q_received_ns : Z;
  q_source : string
}.

Definition Quote_post_init (q : Quote) : res unit :=
  if q_ask q <? q_bid q then Raise ValueError else Ok tt.

(** [(bid + ask) / D("2")].  Dividing by the literal never raises
    ([mid_ddiv]), so the property has a plain value. *)
Definition mid (q : Quote) : decimal :=
  match ddiv (q_bid q + q_ask q) 2 with Ok m => m | Raise _ => ZERO end.
Definition spread (q : Quote) : decimal := q_ask q - q_bid q.
Definition spread_pips (q : Quote) (i : Instrument) : res decimal := ddiv (spread q) (inst_pip i).
Definition age_ns (q : Quote) (now_ns : Z) : Z := (now_ns - q_received_ns q)%Z.
Definition price_for (q : Quote) (s : Side) : decimal :=
  match s with BUY => q_ask q | SELL => q_bid q end.

Record Bar := mkBar {
  bar_instrument : string;
  bar_timeframe : string;
  bar_open : decimal;
  bar_high : decimal;
  bar_low : decimal;
  bar_close : decimal;
  bar_volume : decimal;
  bar_start_ns : Z;
  bar_end_ns : Z;
  bar_complete : bool;
  bar_source : string;
  bar_quality : DataQuality
}.

Definition Bar_post_init (b : Bar) : res unit :=
  if bar_high b <? bar_low b then Raise ValueError
  else if negb ((bar_low b <=? bar_open b) && (bar_open b <=? bar_high b)) then Raise ValueError
  else if negb ((bar_low b <=? bar_close b) && (bar_close b <=? bar_high b)) then Raise ValueError
  else if (bar_end_ns b <=? bar_start_ns b)%Z then Raise ValueError
  else Ok tt.

(** ** Orders *)

Record OrderIntent := mkOrderIntent {
  oi_client_order_id : string;
  oi_strategy : string;
  oi_instrument : string;
  oi_side : Side;
  oi_lots : decimal;
  oi_order_type : OrderType;
  oi_limit_price : option decimal;
  oi_stop_loss : option decimal;
  oi_take_profit : option decimal;
  oi_decision_ns : Z;
  oi_risk_amount : decimal;
  oi_risk_pct : decimal;
  oi_expected_cost_pips : decimal
}.

(** [OrderIntent.__post_init__]; its coercion of floats to decimals has
    happened when the fields are decimals. *)
Definition OrderIntent_post_init (o : OrderIntent) : res unit :=
  if oi_lots o <=? 0 then Raise ValueError
  else if match oi_order_type o, oi_limit_price o with
          | MARKET, Some _ => true
          | MARKET, None => false
          | _, None => true
          | _, Some _ => false
          end then Raise ValueError
  else match oi_stop_loss o, oi_take_profit o with
       | Some sl, Some tp =>
           match oi_side o with
           | BUY => if negb (sl <? tp) then Raise ValueError else Ok tt
           | SELL => if negb (sl >? tp) then Raise ValueError else Ok tt
           end
       | _, _ => Ok tt
       end.

Record Fill := mkFill {
  fill_client_order_id : string;
  fill_venue_order_id : string;
  fill_instrument : string;
  fill_side : Side;
  fill_lots : decimal;
  fill_price : decimal;
  fill_ts_ns : Z;
  fill_received_ns : Z;
  fill_commission : decimal;
  fill_financing : decimal;
  fill_slippage_pips : decimal
}.

Record Order := mkOrder {
  o_intent : OrderIntent;
  o_state : OrderState;
  o_stop_confirmed : bool;
  o_venue_order_id : option string;
  o_sent_ns : option Z;
  o_acked_ns : option Z;
  o_fills : list Fill;
  o_reject_reason : option string;
  o_attempts : Z;
  o_last_error : option exn
}.

(** [Order(intent=intent, state=OrderState.PENDING)]. *)
Definition new_order (i : OrderIntent) : Order :=
  mkOrder i PENDING true None None None [] None 0 None.

Definition filled_lots (o : Order) : decimal := dsum (map fill_lots (o_fills o)).

Definition avg_fill_price (o : Order) : res (option decimal) :=
  let total := filled_lots o in
  if total <=? 0 then Ok None
  else
    let* v := ddiv (dsum (map (fun f => fill_price f * fill_lots f) (o_fills o))) total in
    Ok (Some v).

(** ** Positions and accounts *)

Record Position := mkPosition {
  pos_instrument : string;
  pos_side : Side;
  pos_lots : decimal;
  pos_entry_price : decimal;
  pos_opened_ns : Z;
  pos_strategy : string;
  pos_stop_loss : option decimal;
  pos_take_profit : option decimal;
  pos_broker_stop_confirmed : bool;
  pos_client_order_id : option string;
  pos_realised_pnl : decimal;
  pos_financing_paid : decimal;
  pos_commission_paid : decimal;
  pos_initial_risk : decimal;
  pos_max_favourable : decimal;
  pos_max_adverse : decimal;
  pos_partial_taken : bool;
  pos_breakeven_moved : bool
}.

(** A freshly built position, the other fields at the dataclass defaults. *)
Definition new_position (instrument : string) (side : Side) (lots entry_price : decimal)
    (opened_ns : Z) (strategy : string) (initial_risk : decimal) : Position :=
  mkPosition instrument side lots entry_price opened_ns strategy None None false None ZERO ZERO ZERO
    initial_risk ZERO ZERO false false.

Definition unrealised (p : Position) (q : Quote) (i : Instrument) (quote_to_account : decimal)
    : decimal :=
  let exit_price := price_for q (opposite (pos_side p)) in
  let delta := (exit_price - pos_entry_price p) * sign (pos_side p) in
  delta * units i (pos_lots p) * quote_to_account.

Definition r_multiple (p : Position) (q : Quote) (i : Instrument) (quote_to_account : decimal)
    : res (option decimal) :=
  if pos_initial_risk p <=? 0 then Ok None
  else
    let* r := ddiv (unrealised p q i quote_to_account) (pos_initial_risk p) in
    Ok (Some r).

(** [ClosedTrade]: one completed round trip.  The learning layer's annotations
    (regime, news, features, slippage on each side, tags) stay at their
    defaults here. *)
Record ClosedTrade := mkClosedTrade {
  ct_trade_id : string;
  ct_strategy : string;
  ct_instrument : string;
  ct_side : Side;
  ct_lots : decimal;
  ct_entry_price : decimal;
  ct_exit_price : decimal;
  ct_opened_ns : Z;
  ct_closed_ns : Z;
  ct_pnl : decimal;
  ct_pnl_pips : decimal;
  ct_commission : decimal;
  ct_financing : decimal;
  ct_initial_risk : decimal;
  ct_r_multiple : decimal;
  ct_exit_reason : string;
  ct_max_favourable_r : decimal;
  ct_max_adverse_r : decimal
}.

Definition won (t : ClosedTrade) : bool := ct_pnl t >? 0.

Record AccountState := mkAccountState {
  acc_account_id : string;
  acc_currency : string;
  acc_balance : decimal;
  acc_equity : decimal;
  acc_margin_used : decimal;
  acc_margin_available : decimal;
  acc_unrealised_pnl : decimal;
  acc_open_positions : Z;
  acc_last_transaction_id : string;
  acc_ts_ns : Z;
  acc_account_type : string;
  acc_leverage : Z
}.

Definition margin_level_pct (a : AccountState) : res (option decimal) :=
  if acc_margin_used a <=? 0 then Ok None
  else
    let* l := ddiv (acc_equity a) (acc_margin_used a) in
    Ok (Some (l * 100)).

Definition is_live (a : AccountState) : option bool :=
  if bool_decide (acc_account_type a = "live") then Some true
  else if bool_decide (acc_account_type a = "demo") then Some false
  else None.

(** ** Facts the components share *)

Lemma mid_ddiv q : ddiv (q_bid q + q_ask q) 2 = Ok (mid q).
Proof.
  unfold mid. destruct (ddiv_total (q_bid q + q_ask q) 2) as [m ->]; [discriminate|reflexivity].
Qed.

Lemma sign_val s : (dval (sign s) == match s with BUY => 1 | SELL => -1 end)%Q.
Proof. destruct s; reflexivity. Qed.

Lemma opposite_involutive s : opposite (opposite s) = s.
Proof. now destruct s. Qed.

(** Multiplying by a side's sign is exact on a representable value. *)
Lemma mul_sign x s :
  Repr prec (dval x) -> (dval (x * sign s) == dval x * dval (sign s))%Q.
Proof.
  intros H. eapply Rounded_exact; [|apply dmul_R]. rewrite sign_val. destruct s.
  - now rewrite Qmult_1_r.
  - assert (E : (dval x * (-1) == - dval x)%Q) by ring. rewrite E. now apply Repr_opp.
Qed.

(** Signing a value does not change its magnitude beyond the one rounding. *)
Lemma mul_sign_abs x s : (Qabs (dval (x * sign s)) <= dval (dabs x))%Q.
Proof.
  apply fix_abs_le; [discriminate|]. rewrite mul_exact_val, sign_val, copy_abs_val.
  destruct s; [now rewrite Qmult_1_r; apply Qle_refl|].
  assert (E : (dval x * (-1) == - dval x)%Q) by ring. rewrite E, Qabs_opp. apply Qle_refl.
Qed.

(** What a validated order intent guarantees about its geometry. *)
Lemma OrderIntent_post_init_spec o :
  OrderIntent_post_init o = Ok tt ->
  (0 < dval (oi_lots o))%Q
  /\ (oi_order_type o = MARKET <-> oi_limit_price o = None)
  /\ (forall sl tp, oi_stop_loss o = Some sl -> oi_take_profit o = Some tp ->
      match oi_side o with BUY => dval sl < dval tp | SELL => dval tp < dval sl end)%Q.
Proof.
  unfold OrderIntent_post_init.
  destruct (dleb (oi_lots o) 0) eqn:El; [discriminate|].
  apply dleb_false in El. change (dval 0) with 0%Q in El.
  destruct (oi_order_type o), (oi_limit_price o) as [lp|]; try discriminate;
    (intros H; split; [exact El|]; split; [split; (reflexivity || discriminate)|]);
    intros sl tp Esl Etp; rewrite Esl, Etp in H; destruct (oi_side o);
    match type of H with context [negb ?b] => destruct b eqn:E; [|discriminate] end;
    now apply dltb_spec in E.
Qed.
