(* ===== verification/Config.v ===== *)
(** [RiskConfig] of [sentinel/core/config.py]: the risk envelope, the bounds
    its fields declare ([Field(ge=..., le=...)]) and the cross-field validator
    [_coherent].  A float field that the code only compares or hands to [dec]
    is given by the decimal its [repr] denotes (an order isomorphism). *)

From Stdlib Require Import ZArith QArith Lia Lqa Sorted.
From stdpp Require Import base list.
From S2P Require Import Prelude PyDecimal DecimalTheory.

Local Open Scope dec_scope.
Local Open Scope py_scope.

(** One row of the drawdown ladder. *)
Record LadderRow := mkRow { row_drawdown_pct : decimal; row_risk_multiplier : decimal }.

Record RiskConfig := mkRiskConfig {
  rc_risk_per_trade_pct : decimal;
  rc_max_lots_per_trade : decimal;
  rc_min_stop_pips : decimal;
  rc_max_stop_pips : decimal;
  rc_min_reward_risk : decimal;
  rc_require_broker_side_stop : bool;
  rc_max_open_positions : Z;
  rc_max_positions_per_instrument : Z;
  rc_max_gross_leverage : decimal;
  rc_max_currency_exposure_pct : decimal;
  rc_max_correlated_risk_pct : decimal;
  rc_max_total_open_risk_pct : decimal;
  rc_max_group_open_risk_pct : decimal;
  rc_max_group_currency_exposure_pct : decimal;
  rc_group_ledger_stale_sec : Z;
  rc_correlation_threshold : decimal;
  rc_correlation_lookback_bars : Z;
  rc_daily_loss_limit_pct : decimal;
  rc_weekly_loss_limit_pct : decimal;
  rc_monthly_loss_limit_pct : decimal;
  rc_max_drawdown_halt_pct : decimal;
  rc_max_trades_per_day : Z;
  rc_max_trades_per_week : Z;
  rc_max_trades_per_year : Z;
  rc_min_seconds_between_entries : Z;
  rc_max_annual_cost_pct_of_equity : decimal;
  rc_ladder_enabled : bool;
  rc_ladder : list LadderRow;
  rc_breakeven_trigger_r : decimal;
  rc_partial_take_r : decimal;
  rc_partial_take_fraction : decimal;
  rc_trail_atr_multiple : decimal;
  rc_trail_activate_r : decimal;
  rc_giveback_arm_r : decimal;
  rc_giveback_keep_fraction : decimal;
  rc_max_hold_sec : Z;
  rc_daily_profit_lock_pct : decimal;
  rc_profit_lock_keep_fraction : decimal;
  rc_ladder_hysteresis_pct : decimal;
  rc_rolling_24h_loss_limit_pct : decimal;
  rc_max_data_staleness_sec : Z;
  rc_max_clock_skew_ms : decimal;
  rc_max_spread_pips_multiple : decimal;
  rc_block_minutes_before_high_impact : Z;
  rc_block_minutes_after_high_impact : Z;
  rc_weekend_flat : bool;
  rc_friday_close_utc_hour : Z;
  rc_max_offline_seconds_before_freeze : Z
}.

(** The field defaults. *)
Definition default_ladder : list LadderRow :=
  [mkRow 3.0 0.75; mkRow 5.0 0.5; mkRow 7.0 0.25; mkRow 8.5 0.0].

Definition default_risk_config : RiskConfig :=
  mkRiskConfig 0.50 5 10 250 1.2 true 4 1 5 1.25 0.90 2.00 3.00 2.00 300 0.65 240 2.0 4.0 6.0 10.0
    6 20 500 300 15 true default_ladder 1.0 1.5 0.5 2.5 1.0 1.5 0.5 0 3.0 0.6 0.5 2.5 90 750.0 2.5
    30 30 true 19 120.

Definition in_range (lo hi v : decimal) : bool := (lo <=? v) && (v <=? hi).
Definition in_rangeZ (lo hi v : Z) : bool := (lo <=? v)%Z && (v <=? hi)%Z.

(** The declared bounds of the fields. *)
Definition RiskConfig_fields_ok (c : RiskConfig) : bool :=
  in_range 0.01 2.0 (rc_risk_per_trade_pct c)
  && (0 <? rc_max_lots_per_trade c) && (rc_max_lots_per_trade c <=? 100)
  && (1 <=? rc_min_stop_pips c) && (0 <? rc_max_stop_pips c) && (0.3 <=? rc_min_reward_risk c)
  && in_rangeZ 0 50 (rc_max_open_positions c) && in_rangeZ 0 10 (rc_max_positions_per_instrument c)
  && (0 <? rc_max_gross_leverage c) && (rc_max_gross_leverage c <=? 100)
  && (0 <? rc_max_currency_exposure_pct c) && (0 <? rc_max_correlated_risk_pct c)
  && (0 <? rc_max_total_open_risk_pct c) && (0 <? rc_max_group_open_risk_pct c)
  && (0 <? rc_max_group_currency_exposure_pct c)
  && in_rangeZ 30 3600 (rc_group_ledger_stale_sec c)
  && in_range 0 1 (rc_correlation_threshold c) && in_rangeZ 30 5000 (rc_correlation_lookback_bars c)
  && (0 <? rc_daily_loss_limit_pct c) && (rc_daily_loss_limit_pct c <=? 20)
  && (0 <? rc_weekly_loss_limit_pct c) && (rc_weekly_loss_limit_pct c <=? 40)
  && (0 <? rc_monthly_loss_limit_pct c) && (rc_monthly_loss_limit_pct c <=? 60)
  && (0 <? rc_max_drawdown_halt_pct c) && (rc_max_drawdown_halt_pct c <=? 50)
  && in_rangeZ 0 500 (rc_max_trades_per_day c) && in_rangeZ 0 2000 (rc_max_trades_per_week c)
  && in_rangeZ 0 100000 (rc_max_trades_per_year c)
  && in_rangeZ 0 86400 (rc_min_seconds_between_entries c)
  && (0 <? rc_max_annual_cost_pct_of_equity c)
  && (0 <=? rc_breakeven_trigger_r c) && (0 <=? rc_partial_take_r c)
  && in_range 0 1 (rc_partial_take_fraction c)
  && (0 <=? rc_trail_atr_multiple c) && (0 <=? rc_trail_activate_r c)
  && (0 <=? rc_giveback_arm_r c) && in_range 0 0.95 (rc_giveback_keep_fraction c)
  && in_rangeZ 0 2592000 (rc_max_hold_sec c)
  && (0 <=? rc_daily_profit_lock_pct c) && in_range 0 1 (rc_profit_lock_keep_fraction c)
  && in_range 0 5 (rc_ladder_hysteresis_pct c) && (0 <=? rc_rolling_24h_loss_limit_pct c)
  && in_rangeZ 1 3600 (rc_max_data_staleness_sec c) && (0 <? rc_max_clock_skew_ms c)
  && (0 <? rc_max_spread_pips_multiple c)
  && in_rangeZ 0 600 (rc_block_minutes_before_high_impact c)
  && in_rangeZ 0 600 (rc_block_minutes_after_high_impact c)
  && in_rangeZ 0 23 (rc_friday_close_utc_hour c)
  && in_rangeZ 5 7200 (rc_max_offline_seconds_before_freeze c).

(** [xs == sorted(xs)] for an order given as a boolean [<=]. *)
Fixpoint ordered (le : decimal -> decimal -> bool) (xs : list decimal) : bool :=
  match xs with
  | x :: ((y :: _) as rest) => le x y && ordered le rest
  | _ => true
  end.

(** The ladder's own rules, checked when it is enabled. *)
Definition ladder_coherent (ladder : list LadderRow) (halt : decimal) : res unit :=
  let dds := map row_drawdown_pct ladder in
  let mults := map row_risk_multiplier ladder in
  if negb (ordered dleb dds) then Raise ValueError
  else if negb (ordered (fun x y => y <=? x) mults) then Raise ValueError
  else if existsb (fun m => negb (in_range 0 1 m)) mults then Raise ValueError
  else match last dds with
       | Some d => if d >? halt then Raise ValueError else Ok tt
       | None => Ok tt
       end.

(** [RiskConfig._coherent], condition by condition. *)
Definition coherent (c : RiskConfig) : res unit :=
  let budget := rc_risk_per_trade_pct c * dec_of_Z (rc_max_open_positions c) in
  if rc_min_stop_pips c >=? rc_max_stop_pips c then Raise ValueError
  else if rc_daily_loss_limit_pct c >? rc_weekly_loss_limit_pct c then Raise ValueError
  else if rc_weekly_loss_limit_pct c >? rc_monthly_loss_limit_pct c then Raise ValueError
  else if rc_monthly_loss_limit_pct c >? rc_max_drawdown_halt_pct c then Raise ValueError
  else if (rc_max_trades_per_week c * 2 <? rc_max_trades_per_day c * 5)%Z then Raise ValueError
  else
    let* _ := if rc_ladder_enabled c
              then ladder_coherent (rc_ladder c) (rc_max_drawdown_halt_pct c) else Ok tt in
    if (rc_partial_take_fraction c >? 0) && (rc_partial_take_r c <=? 0) then Raise ValueError
    else if (rc_trail_activate_r c >? 0) && (rc_breakeven_trigger_r c >? 0)
            && (rc_trail_activate_r c <? rc_breakeven_trigger_r c) then Raise ValueError
    else if (rc_giveback_arm_r c >? 0) && (rc_giveback_keep_fraction c <=? 0) then Raise ValueError
    else if (rc_rolling_24h_loss_limit_pct c >? 0)
            && (rc_rolling_24h_loss_limit_pct c >? rc_weekly_loss_limit_pct c) then Raise ValueError
    else if rc_max_currency_exposure_pct c <? rc_risk_per_trade_pct c then Raise ValueError
    else if rc_max_correlated_risk_pct c <? rc_risk_per_trade_pct c then Raise ValueError
    else if rc_max_total_open_risk_pct c <? rc_risk_per_trade_pct c then Raise ValueError
    else if (0 <? rc_max_open_positions c)%Z && (rc_max_total_open_risk_pct c <? budget)
    then Raise ValueError
    else if budget >? rc_daily_loss_limit_pct c * 3 then Raise ValueError
    else Ok tt.

(** A configuration pydantic accepts. *)
Definition RiskConfig_valid (c : RiskConfig) : bool :=
  RiskConfig_fields_ok c && match coherent c with Ok _ => true | Raise _ => false end.

(** ** What validation establishes *)

Lemma default_config_valid : RiskConfig_valid default_risk_config = true.
Proof. reflexivity. Qed.

Lemma in_range_spec lo hi v :
  in_range lo hi v = true <-> (dval lo <= dval v /\ dval v <= dval hi)%Q.
Proof. unfold in_range. now rewrite Bool.andb_true_iff, !dleb_spec. Qed.

Lemma ordered_Sorted le xs :
  ordered le xs = true -> Sorted.Sorted (fun x y => le x y = true) xs.
Proof.
  induction xs as [|x [|y xs] IH]; intros H; [constructor|constructor; constructor|].
  cbn [ordered] in H. apply andb_prop in H as [H1 H2].
  constructor; [now apply IH|]. now constructor.
Qed.

(** What the validator establishes of an enabled ladder. *)
Record Ladder_ok (ladder : list LadderRow) : Prop := {
  ladder_dds : Sorted.StronglySorted (fun a b => (row_drawdown_pct a <=? row_drawdown_pct b) = true) ladder;
  ladder_mults : Sorted.StronglySorted (fun a b => (row_risk_multiplier b <=? row_risk_multiplier a) = true) ladder;
  ladder_unit : Forall (fun r => 0 <= dval (row_risk_multiplier r) /\ dval (row_risk_multiplier r) <= 1)%Q ladder
}.

Lemma Sorted_map_strong {A} (f : A -> decimal) (R : decimal -> decimal -> Prop) (xs : list A) :
  (forall a b c, R a b -> R b c -> R a c) ->
  Sorted.Sorted R (map f xs) -> Sorted.StronglySorted (fun a b => R (f a) (f b)) xs.
Proof.
  intros Htr H. apply Sorted.Sorted_StronglySorted in H; [|exact Htr].
  induction xs as [|x xs IH]; [constructor|]. cbn [map] in H.
  apply Sorted.StronglySorted_inv in H as [H1 H2]. constructor; [now apply IH|].
  rewrite List.Forall_map in H2. exact H2.
Qed.

Lemma ladder_coherent_ok ladder halt : ladder_coherent ladder halt = Ok tt -> Ladder_ok ladder.
Proof.
  unfold ladder_coherent.
  destruct (ordered dleb _) eqn:E1; [|discriminate].
  destruct (ordered _ (map row_risk_multiplier ladder)) eqn:E2; [|discriminate].
  destruct (existsb _ _) eqn:E3; [discriminate|]. intros _. cbn [negb] in *. split.
  - apply (Sorted_map_strong row_drawdown_pct (fun a b => (a <=? b) = true)); [|now apply ordered_Sorted].
    intros a b c. rewrite !dleb_spec. lra.
  - apply (Sorted_map_strong row_risk_multiplier (fun a b => (b <=? a) = true));
      [|now apply (ordered_Sorted (fun x y => dleb y x))].
    intros a b c. rewrite !dleb_spec. lra.
  - apply List.Forall_forall. intros r Hr. rewrite <- (in_range_spec 0 1).
    destruct (in_range 0 1 (row_risk_multiplier r)) eqn:E; [reflexivity|].
    assert (existsb (fun m => negb (in_range 0 1 m)) (map row_risk_multiplier ladder) = true).
    { apply existsb_exists. exists (row_risk_multiplier r). rewrite E. split; [now apply in_map|reflexivity]. }
    congruence.
Qed.

(** Everything the validator promises the engine. *)
Record Config_ok (c : RiskConfig) : Prop := {
  cfg_risk : (dval 0.01 <= dval (rc_risk_per_trade_pct c) /\ dval (rc_risk_per_trade_pct c) <= 2)%Q;
  cfg_lots : (0 < dval (rc_max_lots_per_trade c) /\ dval (rc_max_lots_per_trade c) <= 100)%Q;
  cfg_stops : (1 <= dval (rc_min_stop_pips c) /\ dval (rc_min_stop_pips c) < dval (rc_max_stop_pips c))%Q;
  cfg_daily : (0 < dval (rc_daily_loss_limit_pct c)
               /\ dval (rc_daily_loss_limit_pct c) <= dval (rc_weekly_loss_limit_pct c))%Q;
  cfg_monthly : (dval (rc_weekly_loss_limit_pct c) <= dval (rc_monthly_loss_limit_pct c)
                 /\ dval (rc_monthly_loss_limit_pct c) <= dval (rc_max_drawdown_halt_pct c))%Q;
  cfg_ladder : rc_ladder_enabled c = true -> Ladder_ok (rc_ladder c);
  cfg_currency : (dval (rc_risk_per_trade_pct c) <= dval (rc_max_currency_exposure_pct c))%Q;
  cfg_correlated : (dval (rc_risk_per_trade_pct c) <= dval (rc_max_correlated_risk_pct c))%Q;
  cfg_total : (dval (rc_risk_per_trade_pct c) <= dval (rc_max_total_open_risk_pct c))%Q;
  cfg_hysteresis : (0 <= dval (rc_ladder_hysteresis_pct c))%Q;
  cfg_keep : (0 <= dval (rc_giveback_keep_fraction c) /\ dval (rc_giveback_keep_fraction c) <= dval 0.95)%Q;
  cfg_partial : (0 <= dval (rc_partial_take_fraction c) /\ dval (rc_partial_take_fraction c) <= 1)%Q;
  cfg_positions : (0 <= rc_max_open_positions c <= 50)%Z
}.

Lemma coherent_inv c :
  coherent c = Ok tt ->
  dltb (rc_min_stop_pips c) (rc_max_stop_pips c) = true
  /\ dleb (rc_daily_loss_limit_pct c) (rc_weekly_loss_limit_pct c) = true
  /\ dleb (rc_weekly_loss_limit_pct c) (rc_monthly_loss_limit_pct c) = true
  /\ dleb (rc_monthly_loss_limit_pct c) (rc_max_drawdown_halt_pct c) = true
  /\ (rc_ladder_enabled c = true -> Ladder_ok (rc_ladder c))
  /\ dleb (rc_risk_per_trade_pct c) (rc_max_currency_exposure_pct c) = true
  /\ dleb (rc_risk_per_trade_pct c) (rc_max_correlated_risk_pct c) = true
  /\ dleb (rc_risk_per_trade_pct c) (rc_max_total_open_risk_pct c) = true.
Proof.
  unfold coherent. cbv zeta. intros H.
  repeat (match type of H with
          | (if ?b then Raise _ else _) = Ok _ => let E := fresh "E" in destruct b eqn:E; [discriminate H|]
          end).
  destruct (if rc_ladder_enabled c then _ else _) as [[]|] eqn:El; [|discriminate H]. cbn [rbind] in H.
  repeat (match type of H with
          | (if ?b then Raise _ else _) = Ok _ => let E := fresh "E" in destruct b eqn:E; [discriminate H|]
          end).
  unfold dltb in *. rewrite ?Bool.negb_false_iff in *. rewrite Bool.negb_true_iff.
  repeat (split; [assumption|]). split; [|repeat split; assumption].
  intros En. rewrite En in El. now apply ladder_coherent_ok in El.
Qed.

Lemma RiskConfig_valid_ok c : RiskConfig_valid c = true -> Config_ok c.
Proof.
  unfold RiskConfig_valid. intros H. apply andb_prop in H as [Hf Hc].
  destruct (coherent c) as [[]|] eqn:E; [|discriminate]. apply coherent_inv in E.
  unfold RiskConfig_fields_ok in Hf. rewrite !Bool.andb_true_iff in Hf. open_all.
  unfold in_rangeZ in *. rewrite ?Bool.andb_true_iff, ?in_range_spec, ?dleb_spec, ?dltb_spec, ?Z.leb_le in *.
  change (dval 0) with 0%Q in *. change (dval 1) with 1%Q in *. change (dval 100) with 100%Q in *.
  change (dval 2.0) with (20 # 10)%Q in *.
  open_all. split; first [assumption | lra | lia | split; (assumption || lra)].
Qed.

(** A configuration the validator accepts has ordered loss budgets, a
    monotone ladder of multipliers in [0, 1], a non-empty stop band, and room
    for at least one full-size trade under every portfolio ceiling. *)
Theorem RiskConfig_valid_sound (c : RiskConfig) (H : RiskConfig_valid c = true) : Config_ok c.
Proof. now apply RiskConfig_valid_ok. Qed.

Lemma RiskConfig_valid_sound_witness : Config_ok default_risk_config.
Proof. apply (RiskConfig_valid_sound default_risk_config). reflexivity. Defined.
