(* ===== verification/Sizing.v ===== *)
(** [sentinel/risk/sizing.py]: risk-based position sizing with the rounding
    error reported, and the drawdown ladder with its hysteresis band.  The
    explanatory notes are kept as tags; their wording is presentation. *)

From Stdlib Require Import ZArith QArith Qabs Lia Lqa Sorted.
From stdpp Require Import base list.
From S2P Require Import Prelude PyDecimal DecimalTheory Money Config.

Local Open Scope dec_scope.
Local Open Scope py_scope.

Inductive SizingNote :=
| NoConversion | NoDefinableRisk | EquityNotPositive | BudgetZero | PipValueZero
| BelowMinimumLot | GranularityDeviation | CappedAtMaxLots.

Record SizingResult := mkSizing {
  sz_lots : decimal;
  sz_risk_amount : decimal;
  sz_risk_pct : decimal;
  sz_intended_lots : decimal;
  sz_rounding_error_pct : decimal;
  sz_pip_value_account : decimal;
  sz_stop_pips : decimal;
  sz_required_min_equity : decimal;
  sz_notes : list SizingNote;
  sz_feasible : bool
}.

(** A refusal before any size exists. *)
Definition refused (stop_pips : decimal) (n : SizingNote) : SizingResult :=
  mkSizing ZERO ZERO ZERO ZERO ZERO ZERO stop_pips ZERO [n] false.

Definition default_max_rounding_error_pct : decimal := LOT_GRANULARITY_TOLERANCE * 100.

(** The part of [size_position] after its argument checks. *)
Definition size_within_budget (equity stop_pips effective_risk_pct pip_value_per_lot : decimal)
    (i : Instrument) (max_lots max_rounding_error_pct : decimal) (risk_budget : decimal)
    : res SizingResult :=
  let* intended := ddiv risk_budget (stop_pips * pip_value_per_lot) in
  let capped := dmin intended max_lots in
  let* lots := round_lots_down i capped in
  let* tolerance := ddiv max_rounding_error_pct 100 in
  let* min_lots_needed := ddiv (inst_lot_step i) tolerance in
  let* required_min_equity :=
    ddiv (min_lots_needed * pip_value_per_lot * stop_pips * 100) effective_risk_pct in
  if lots <? inst_min_lot i then
    Ok (mkSizing ZERO ZERO ZERO intended 100 pip_value_per_lot stop_pips required_min_equity
          [BelowMinimumLot] false)
  else
    let actual_risk := lots * stop_pips * pip_value_per_lot in
    let* rounding_error_pct :=
      if capped >? 0 then (let* q := ddiv (dabs (capped - lots)) capped in Ok (q * 100))
      else Ok ZERO in
    let feasible := negb (rounding_error_pct >? max_rounding_error_pct) in
    let notes := (if feasible then [] else [GranularityDeviation])
                 ++ (if capped <? intended then [CappedAtMaxLots] else []) in
    let* share := ddiv actual_risk equity in
    Ok (mkSizing lots actual_risk (share * 100) intended rounding_error_pct pip_value_per_lot
          stop_pips required_min_equity notes feasible).

Definition size_position (equity risk_pct entry_price stop_price : decimal) (i : Instrument)
    (quote_to_account : option decimal) (risk_multiplier max_lots max_rounding_error_pct : decimal)
    : res SizingResult :=
  match quote_to_account with
  | None => Ok (refused ZERO NoConversion)
  | Some rate =>
      let stop_distance := dabs (entry_price - stop_price) in
      if stop_distance <=? 0 then Ok (refused ZERO NoDefinableRisk)
      else if equity <=? 0 then Ok (refused ZERO EquityNotPositive)
      else
        let* stop_pips := ddiv stop_distance (inst_pip i) in
        let effective_risk_pct := risk_pct * risk_multiplier in
        if effective_risk_pct <=? 0 then Ok (refused stop_pips BudgetZero)
        else
          let* risk_budget := ddiv (equity * effective_risk_pct) 100 in
          let pip_value_per_lot := pip_value_quote i 1 * rate in
          if pip_value_per_lot <=? 0 then Ok (refused stop_pips PipValueZero)
          else size_within_budget equity stop_pips effective_risk_pct pip_value_per_lot i
                 max_lots max_rounding_error_pct risk_budget
  end.

(** ** The drawdown ladder *)

(** The loop [for i, row in enumerate(ladder, start=1)]: the last rung reached. *)
Fixpoint ladder_target (dd : decimal) (ladder : list LadderRow) (i target : Z) : Z :=
  match ladder with
  | [] => target
  | row :: rest => ladder_target dd rest (i + 1) (if row_drawdown_pct row <=? dd then i else target)
  end.

Definition ladder_row (ladder : list LadderRow) (i : Z) : res LadderRow :=
  match ladder !! Z.to_nat i with Some r => Ok r | None => Raise IndexError end.

Definition ladder_rung (dd : decimal) (ladder : list LadderRow) (current_rung : Z)
    (hysteresis_pct : decimal) : res Z :=
  match ladder with
  | [] => Ok 0%Z
  | _ =>
      let target := ladder_target dd ladder 1 0 in
      if (current_rung <=? target)%Z then Ok target
      else if (Z.of_nat (length ladder) <? current_rung)%Z then Ok target
      else
        let* row := ladder_row ladder (current_rung - 1) in
        if dd <=? row_drawdown_pct row - hysteresis_pct then Ok target else Ok current_rung
  end.

Definition ladder_multiplier (dd : decimal) (ladder : list LadderRow) (enabled : bool)
    (current_rung : Z) (hysteresis_pct : decimal) : res decimal :=
  match ladder with
  | [] => Ok ONE
  | _ =>
      if negb enabled then Ok ONE
      else
        let* rung := ladder_rung dd ladder current_rung hysteresis_pct in
        if (rung <=? 0)%Z then Ok ONE
        else
          let* row := ladder_row ladder (Z.min rung (Z.of_nat (length ladder)) - 1) in
          Ok (row_risk_multiplier row)
  end.

(** ** Ladder: facts *)

Lemma StronglySorted_lookup {A} (R : A -> A -> Prop) (xs : list A) i j x y :
  StronglySorted R xs -> (i < j)%nat -> xs !! i = Some x -> xs !! j = Some y -> R x y.
Proof.
  intros HS. revert i j. induction HS as [|a l HS IH HF]; intros i j Hij Hi Hj; [discriminate|].
  destruct j as [|j]; [lia|]. cbn in Hj. destruct i as [|i]; cbn in Hi.
  - injection Hi as ->. rewrite List.Forall_forall in HF. apply HF.
    apply list_elem_of_In, list_elem_of_lookup. eauto.
  - apply (IH i j); auto. lia.
Qed.

Lemma ladder_target_range dd ladder i t :
  (ladder_target dd ladder i t = t) \/ (i <= ladder_target dd ladder i t < i + Z.of_nat (length ladder))%Z.
Proof.
  revert i t. induction ladder as [|r l IH]; intros i t; cbn [ladder_target length]; [now left|].
  destruct (IH (i + 1)%Z (if row_drawdown_pct r <=? dd then i else t)) as [->|H].
  - destruct (_ <=? dd); [right; lia|now left].
  - right. lia.
Qed.

Lemma ladder_target_bounds dd ladder :
  (0 <= ladder_target dd ladder 1 0 <= Z.of_nat (length ladder))%Z.
Proof. destruct (ladder_target_range dd ladder 1 0); lia. Qed.

(** On an ascending ladder the target rung is the number of thresholds reached. *)
Lemma ladder_target_mono d1 d2 ladder i t1 t2 :
  (dval d1 <= dval d2)%Q -> (t1 <= t2)%Z -> (t2 < i)%Z ->
  (ladder_target d1 ladder i t1 <= ladder_target d2 ladder i t2)%Z.
Proof.
  intros Hd. revert i t1 t2. induction ladder as [|r l IH]; intros i t1 t2 Ht Hi; cbn [ladder_target]; [exact Ht|].
  destruct (row_drawdown_pct r <=? d1) eqn:E1.
  - assert (E2 : (row_drawdown_pct r <=? d2) = true) by (apply dleb_spec; apply dleb_spec in E1; lra).
    rewrite E2. apply IH; lia.
  - destruct (row_drawdown_pct r <=? d2); apply IH; lia.
Qed.

Lemma ladder_row_total ladder i :
  (0 <= i < Z.of_nat (length ladder))%Z -> exists r, ladder_row ladder i = Ok r /\ In r ladder
    /\ ladder !! Z.to_nat i = Some r.
Proof.
  intros Hi. unfold ladder_row.
  destruct (lookup_lt_is_Some_2 ladder (Z.to_nat i)) as [r Hr]; [lia|].
  rewrite Hr. exists r. repeat split; auto. apply list_elem_of_In, list_elem_of_lookup. eauto.
Qed.

Lemma ladder_rung_cases dd ladder cur h :
  exists g, ladder_rung dd ladder cur h = Ok g
    /\ (g = ladder_target dd ladder 1 0
        \/ g = cur /\ (ladder_target dd ladder 1 0 < cur <= Z.of_nat (length ladder))%Z
           /\ exists r, ladder !! Z.to_nat (cur - 1) = Some r
                        /\ dleb dd (row_drawdown_pct r - h) = false).
Proof.
  unfold ladder_rung. destruct ladder as [|r0 l]; [exists 0%Z; split; [reflexivity|now left]|].
  set (lad := r0 :: l). set (t := ladder_target dd lad 1 0).
  pose proof (ladder_target_bounds dd lad) as Hb. fold t in Hb.
  destruct (Z.leb_spec cur t); [eauto|].
  destruct (Z.ltb_spec (Z.of_nat (length lad)) cur); [eauto|].
  destruct (ladder_row_total lad (cur - 1)) as (r & Hr & _ & Hl); [lia|].
  rewrite Hr. cbn [rbind]. destruct (dleb dd _) eqn:E; [eauto|].
  exists cur. split; [reflexivity|right]. split; [reflexivity|]. split; [lia|eauto].
Qed.

Lemma ladder_multiplier_cases dd ladder en cur h :
  exists m, ladder_multiplier dd ladder en cur h = Ok m
    /\ (m = ONE \/ exists r, In r ladder /\ en = true /\ m = row_risk_multiplier r).
Proof.
  unfold ladder_multiplier. destruct ladder as [|r0 l]; [eauto|]. set (lad := r0 :: l).
  destruct en; cbn [negb]; [|eauto].
  destruct (ladder_rung_cases dd lad cur h) as (g & -> & Hg). cbn [rbind].
  destruct (Z.leb_spec g 0); [eauto|].
  destruct (ladder_row_total lad (Z.min g (Z.of_nat (length lad)) - 1)) as (r & -> & Hin & _).
  - assert (0 < Z.of_nat (length lad))%Z by (unfold lad; cbn [length]; lia). lia.
  - exists (row_risk_multiplier r). split; [reflexivity|right; eauto].
Qed.

Lemma ladder_multiplier_unit dd ladder en cur h m :
  (en = true -> Ladder_ok ladder) -> ladder_multiplier dd ladder en cur h = Ok m ->
  (0 <= dval m /\ dval m <= 1)%Q.
Proof.
  intros HL Hm. destruct (ladder_multiplier_cases dd ladder en cur h) as (m' & Hm' & Hc).
  rewrite Hm in Hm'. injection Hm' as <-. destruct Hc as [->|(r & Hin & -> & ->)].
  - split; discriminate.
  - destruct (HL eq_refl) as [_ _ HU]. rewrite List.Forall_forall in HU. auto.
Qed.

(** ** Sizing: facts *)

(** Every branch of [size_position] that stops early carries no size. *)
Definition no_size (r : SizingResult) : Prop :=
  sz_lots r = ZERO /\ sz_risk_amount r = ZERO /\ sz_risk_pct r = ZERO /\ sz_feasible r = false.

(** The inputs for which sizing is defined: a valid instrument whose lot count
    fits the context, and a positive cap. *)
Record SizingInputs_ok (i : Instrument) (max_lots max_err : decimal) : Prop := {
  si_inst : Instrument_ok i;
  si_cap : (0 < dval max_lots)%Q;
  si_range : (dval max_lots < lot_range i)%Q;
  si_tol : (0 < dval max_err)%Q
}.

Lemma pip_value_pos i : Instrument_ok i -> (0 < dval (pip_value_quote i 1))%Q.
Proof.
  intros Hi. unfold pip_value_quote, units. apply dmul_pos; [apply dmul_pos|]; try apply Hi. reflexivity.
Qed.

(** The successful path of [size_within_budget], step by step. *)
Lemma size_within_budget_inv equity sp eff pv i ml me budget r :
  size_within_budget equity sp eff pv i ml me budget = Ok r ->
  exists intended lots tol mn rq,
    ddiv budget (sp * pv) = Ok intended /\ round_lots_down i (dmin intended ml) = Ok lots
    /\ ddiv me 100 = Ok tol /\ ddiv (inst_lot_step i) tol = Ok mn
    /\ ddiv (mn * pv * sp * 100) eff = Ok rq
    /\ ((dltb lots (inst_min_lot i) = true /\ no_size r /\ sz_notes r = [BelowMinimumLot])
        \/ (dltb lots (inst_min_lot i) = false /\ sz_lots r = lots /\ sz_stop_pips r = sp
            /\ sz_risk_amount r = lots * sp * pv /\ sz_intended_lots r = intended
            /\ sz_feasible r = negb (sz_rounding_error_pct r >? me)
            /\ exists share, ddiv (lots * sp * pv) equity = Ok share /\ sz_risk_pct r = share * 100)).
Proof.
  unfold size_within_budget. cbv zeta. intros H. apply rbind_Ok in H as (intended & E1 & H).
  apply rbind_Ok in H as (lots & E2 & H). apply rbind_Ok in H as (tol & E3 & H).
  apply rbind_Ok in H as (mn & E4 & H). apply rbind_Ok in H as (rq & E5 & H).
  exists intended, lots, tol, mn, rq. repeat (split; [assumption|]).
  destruct (dltb lots (inst_min_lot i)) eqn:E.
  - injection H as <-. left. repeat split.
  - apply rbind_Ok in H as (rerr & E6 & H). apply rbind_Ok in H as (share & E7 & H).
    injection H as <-. right. cbn. repeat split. exists share. split; [exact E7|reflexivity].
Qed.

(** Past its checks, [size_position] is [size_within_budget] on these values. *)
Record Sized (equity risk_pct entry stop : decimal) (i : Instrument) (rate mult : decimal)
    (sp eff budget pv : decimal) : Prop := {
  sd_equity : (0 < dval equity)%Q;
  sd_stop : ddiv (dabs (entry - stop)) (inst_pip i) = Ok sp;
  sd_dist : (0 < dval (dabs (entry - stop)))%Q;
  sd_eff : eff = risk_pct * mult;
  sd_eff_pos : (0 < dval eff)%Q;
  sd_budget : ddiv (equity * eff) 100 = Ok budget;
  sd_pv : pv = pip_value_quote i 1 * rate;
  sd_pv_pos : (0 < dval pv)%Q
}.

Lemma size_position_cases equity risk_pct entry stop i qa mult ml me r :
  size_position equity risk_pct entry stop i qa mult ml me = Ok r ->
  (no_size r /\ sz_notes r <> [])
  \/ exists rate sp eff budget pv, qa = Some rate
     /\ Sized equity risk_pct entry stop i rate mult sp eff budget pv
     /\ size_within_budget equity sp eff pv i ml me budget = Ok r.
Proof.
  unfold size_position. destruct qa as [rate|]; [|intros [= <-]; left; repeat split; discriminate].
  cbv zeta. destruct (dleb (dabs (entry - stop)) 0) eqn:E1; [intros [= <-]; left; repeat split; discriminate|].
  destruct (dleb equity 0) eqn:E2; [intros [= <-]; left; repeat split; discriminate|].
  intros H. apply rbind_Ok in H as (sp & Esp & H).
  destruct (dleb (risk_pct * mult) 0) eqn:E3; [injection H as <-; left; repeat split; discriminate|].
  apply rbind_Ok in H as (budget & Eb & H).
  destruct (dleb (pip_value_quote i 1 * rate) 0) eqn:E4; [injection H as <-; left; repeat split; discriminate|].
  apply dleb_false in E1, E2, E3, E4. change (dval 0) with 0%Q in *.
  right. exists rate, sp, (risk_pct * mult), budget, (pip_value_quote i 1 * rate).
  split; [reflexivity|]. split; [split; auto|exact H].
Qed.

Lemma Sized_pos equity risk_pct entry stop i rate mult sp eff budget pv :
  Instrument_ok i -> Sized equity risk_pct entry stop i rate mult sp eff budget pv ->
  (0 < dval sp /\ 0 < dval budget /\ 0 < dval (sp * pv))%Q.
Proof.
  intros Hi [He Hs Hd -> Hf Hb Hpv Hp]. pose proof (ok_pip _ Hi).
  assert (0 < dval sp)%Q by (eapply ddiv_pos; [|  |exact Hs]; assumption).
  split; [assumption|]. split; [|now apply dmul_pos].
  eapply ddiv_pos; [| |exact Hb]; [now apply dmul_pos|reflexivity].
Qed.

Lemma capped_in_range i ml intended :
  (0 < dval ml)%Q -> (dval ml < lot_range i)%Q -> (0 < dval intended)%Q ->
  (0 < dval (dmin intended ml) /\ dval (dmin intended ml) < lot_range i
   /\ dval (dmin intended ml) <= dval ml /\ dval (dmin intended ml) <= dval intended)%Q.
Proof.
  intros H1 H2 H3. pose proof (dmin_le_l intended ml). pose proof (dmin_le_r intended ml).
  destruct (dmin_cases intended ml) as [E|E]; rewrite E in *; repeat split; lra.
Qed.

Lemma size_within_budget_total equity sp eff pv i ml me budget :
  SizingInputs_ok i ml me -> (0 < dval equity)%Q -> (0 < dval sp)%Q -> (0 < dval eff)%Q ->
  (0 < dval pv)%Q -> (0 < dval budget)%Q ->
  exists r, size_within_budget equity sp eff pv i ml me budget = Ok r.
Proof.
  intros [Hi Hml Hr Hme] He Hsp Heff Hpv Hb. unfold size_within_budget. cbv zeta.
  assert (Hd : (0 < dval (sp * pv))%Q) by now apply dmul_pos.
  destruct (ddiv_total budget (sp * pv)) as [intended E1]; [lra|]. rewrite E1. cbn [rbind].
  assert (Hint : (0 < dval intended)%Q) by (eapply ddiv_pos; [| |exact E1]; assumption).
  destruct (capped_in_range i ml intended Hml Hr Hint) as (C1 & C2 & _).
  destruct (round_lots_down_ok i _ Hi C1 C2) as (q & k & _ & _ & _ & _ & E2). rewrite E2. cbn [rbind].
  destruct (ddiv_total me 100) as [tol E3]; [discriminate|]. rewrite E3. cbn [rbind].
  assert (Ht : (0 < dval tol)%Q) by (eapply ddiv_pos; [| |exact E3]; [assumption|reflexivity]).
  destruct (ddiv_total (inst_lot_step i) tol) as [mn E4]; [lra|]. rewrite E4. cbn [rbind].
  destruct (ddiv_total (mn * pv * sp * 100) eff) as [rq E5]; [lra|]. rewrite E5. cbn [rbind].
  set (lots := mkDec (k * _) _). case_if E; [eauto|].
  destruct (ddiv_total (dabs (dmin intended ml - lots)) (dmin intended ml)) as [q' E6]; [lra|].
  rewrite E6. destruct (ddiv_total (lots * sp * pv) equity) as [share E7]; [lra|].
  case_if E8; cbn [rbind]; rewrite E7; cbn [rbind]; eauto.
Qed.

Lemma size_position_ok equity risk_pct entry stop i qa mult ml me :
  SizingInputs_ok i ml me -> exists r, size_position equity risk_pct entry stop i qa mult ml me = Ok r.
Proof.
  intros HI. pose proof HI as [Hi Hml Hr Hme]. unfold size_position. destruct qa as [rate|]; [|eauto]. cbv zeta.
  destruct (dleb (dabs (entry - stop)) 0) eqn:E1; [eauto|].
  destruct (dleb equity 0) eqn:E2; [eauto|].
  pose proof (ok_pip _ Hi) as Hp. apply dleb_false in E1, E2. change (dval 0) with 0%Q in *.
  destruct (ddiv_total (dabs (entry - stop)) (inst_pip i)) as [sp Esp]; [lra|]. rewrite Esp. cbn [rbind].
  destruct (dleb (risk_pct * mult) 0) eqn:E3; [eauto|].
  apply dleb_false in E3. change (dval 0) with 0%Q in E3.
  destruct (ddiv_total (equity * (risk_pct * mult)) 100) as [b Eb]; [discriminate|]. rewrite Eb. cbn [rbind].
  destruct (dleb (pip_value_quote i 1 * rate) 0) eqn:E4; [eauto|].
  apply dleb_false in E4. change (dval 0) with 0%Q in E4.
  apply size_within_budget_total; auto.
  - eapply ddiv_pos; [| |exact Esp]; assumption.
  - eapply ddiv_pos; [| |exact Eb]; [now apply dmul_pos|reflexivity].
Qed.

(** The accumulated rounding of the sizing formula, as one factor. *)
Lemma sizing_rounding :
  ((1 + eps) * (1 + eps) * (1 + eps) * (1 + eps) * (1 + eps) * (1 + eps) * (1 + eps) / (1 - eps)
   <= 1 + 9 * eps)%Q.
Proof. vm_compute. discriminate. Qed.

Lemma budget_upper equity risk_pct mult budget :
  (0 <= dval equity)%Q -> (0 <= dval risk_pct)%Q -> (0 <= dval mult)%Q ->
  ddiv (equity * (risk_pct * mult)) 100 = Ok budget ->
  (dval budget <= dval equity * dval risk_pct * dval mult / 100 * ((1 + eps) * (1 + eps) * (1 + eps)))%Q.
Proof.
  intros He Hr Hm Hb.
  pose proof (dmul_upper risk_pct mult _ _ (conj Hr (Qle_refl _)) (conj Hm (Qle_refl _))) as U1.
  pose proof (dmul_nonneg risk_pct mult Hr Hm) as N1.
  pose proof (dmul_upper equity (risk_pct * mult) _ _ (conj He (Qle_refl _)) (conj N1 U1)) as U2.
  pose proof (dmul_nonneg equity _ He N1) as N2.
  eapply Qle_trans; [apply (ddiv_upper _ _ _ _ 100 Hb (conj N2 U2)); split; [reflexivity|apply Qle_refl]|].
  apply Qle_lteq. right. field.
Qed.

(** A size at or below the intended one risks no more than the budget. *)
Lemma actual_risk_upper budget sp pv intended lots :
  (0 < dval sp)%Q -> (0 < dval pv)%Q -> (0 <= dval budget)%Q -> (0 <= dval lots)%Q ->
  ddiv budget (sp * pv) = Ok intended -> (dval lots <= dval intended * (1 + eps))%Q ->
  (dval (lots * sp * pv) <= dval budget * ((1 + eps) * (1 + eps) * (1 + eps) * (1 + eps) / (1 - eps)))%Q.
Proof.
  intros Hs Hp Hb Hl Hi Hle. destruct eps_small as [E1 E2].
  assert (Hs0 : (0 <= dval sp)%Q) by lra. assert (Hp0 : (0 <= dval pv)%Q) by lra.
  pose proof (dmul_lower sp pv _ _ (conj Hs0 (Qle_refl _)) (conj Hp0 (Qle_refl _))) as L1.
  pose proof (Qmult_lt_0_compat _ _ Hs Hp) as Hsp.
  assert (Hpos : (0 < dval sp * dval pv * (1 - eps))%Q) by (apply Qmult_lt_0_compat; lra).
  pose proof (ddiv_upper _ _ _ _ _ Hi (conj Hb (Qle_refl _)) (conj Hpos L1)) as U1.
  pose proof (dmul_upper lots sp _ _ (conj Hl (Qle_refl _)) (conj Hs0 (Qle_refl _))) as U2.
  pose proof (dmul_upper (lots * sp) pv _ _ (conj (dmul_nonneg _ _ Hl Hs0) U2) (conj Hp0 (Qle_refl _))) as U3.
  eapply Qle_trans; [exact U3|].
  set (I := (dval budget / (dval sp * dval pv * (1 - eps)) * (1 + eps))%Q) in *.
  apply Qle_trans with (I * (1 + eps) * dval sp * (1 + eps) * dval pv * (1 + eps))%Q.
  - assert (HI : (dval lots <= I * (1 + eps))%Q).
    { eapply Qle_trans; [exact Hle|]. apply Qmult_le_compat_r; [exact U1|lra]. }
    repeat (apply Qmult_le_compat_r; [|lra]). exact HI.
  - apply Qle_lteq. right. unfold I. field. repeat split; lra.
Qed.

Lemma size_position_feasible_lots equity risk_pct entry stop i qa mult ml me r :
  SizingInputs_ok i ml me -> size_position equity risk_pct entry stop i qa mult ml me = Ok r ->
  sz_feasible r = true ->
  (dval (inst_min_lot i) <= dval (sz_lots r) /\ dval (sz_lots r) <= dval ml * (1 + eps))%Q.
Proof.
  intros HI H Hf. pose proof HI as [Hi Hml Hr Hme].
  apply size_position_cases in H as [[(_ & _ & _ & C) _]|(rate & sp & eff & b & pv & _ & HS & H)]; [congruence|].
  destruct (Sized_pos _ _ _ _ _ _ _ _ _ _ _ Hi HS) as (_ & Hbud & Hd).
  apply size_within_budget_inv in H as (int & lots & tol & mn & rq & E1 & E2 & _ & _ & _ & H).
  destruct H as [(_ & (_ & _ & _ & C) & _)|(Hmin & -> & _)]; [congruence|].
  apply dltb_false in Hmin. split; [exact Hmin|].
  assert (Hint : (0 < dval int)%Q) by (eapply ddiv_pos; [| |exact E1]; assumption).
  destruct (capped_in_range i ml int Hml Hr Hint) as (C1 & C2 & C3 & _).
  destruct (round_lots_down_bounds i _ _ Hi C1 C2 E2) as [_ U].
  eapply Qle_trans; [exact U|]. apply Qmult_le_compat_r; [exact C3|]. pose proof eps_small. lra.
Qed.

(** A feasible size: on the lot grid, with its risk representable and within the
    budget up to the rounding of the formula. *)
Lemma size_position_feasible_risk equity risk_pct entry stop i qa mult ml me r :
  SizingInputs_ok i ml me -> (0 <= dval risk_pct)%Q -> (0 <= dval mult)%Q ->
  size_position equity risk_pct entry stop i qa mult ml me = Ok r -> sz_feasible r = true ->
  (exists k, dval (sz_lots r) == inject_Z k * dval (inst_lot_step i))%Q
  /\ Repr prec (dval (sz_risk_amount r)) /\ (0 <= dval (sz_risk_amount r))%Q
  /\ (dval (sz_risk_amount r) <= dval equity * dval risk_pct * dval mult / 100 * (1 + 9 * eps))%Q.
Proof.
  intros HI Hp Hm H Hf. pose proof HI as [Hi Hml Hr Hme].
  apply size_position_cases in H as [[(_ & _ & _ & C) _]|(rate & sp & eff & b & pv & _ & HS & H)]; [congruence|].
  destruct (Sized_pos _ _ _ _ _ _ _ _ _ _ _ Hi HS) as (Hsp & Hbud & Hd).
  apply size_within_budget_inv in H as (int & lots & tol & mn & rq & E1 & E2 & _ & _ & _ & H).
  destruct H as [(_ & (_ & _ & _ & C) & _)|(_ & El & _ & Er & _)]; [congruence|].
  rewrite El, Er. assert (Hint : (0 < dval int)%Q) by (eapply ddiv_pos; [| |exact E1]; assumption).
  destruct (capped_in_range i ml int Hml Hr Hint) as (C1 & C2 & _ & C4).
  destruct (round_lots_down_bounds i _ _ Hi C1 C2 E2) as [N U].
  destruct (round_lots_down_ok i _ Hi C1 C2) as (q & k & _ & _ & _ & _ & E2').
  destruct HS as [He _ _ -> _ Hb -> Hpv].
  split; [|split; [apply dmul_Repr|split]].
  - exists k. rewrite E2' in E2. injection E2 as <-. rewrite dval_mk, inject_Z_mult. unfold dval. ring.
  - apply dmul_nonneg; [apply dmul_nonneg|]; lra.
  - assert (Hle : (dval lots <= dval int * (1 + eps))%Q).
    { eapply Qle_trans; [exact U|]. apply Qmult_le_compat_r; [exact C4|]. pose proof eps_small. lra. }
    eapply Qle_trans; [apply (actual_risk_upper b sp _ int lots); auto; lra|].
    pose proof (budget_upper equity risk_pct mult b ltac:(lra) Hp Hm Hb) as UB.
    set (X := (dval equity * dval risk_pct * dval mult / 100)%Q) in *.
    assert (HX : (0 <= X)%Q) by (apply Qdiv_nonneg; [|reflexivity]; apply Qmult_le_0_compat; [apply Qmult_le_0_compat|]; lra).
    eapply Qle_trans; [apply Qmult_le_compat_r; [exact UB|vm_compute; discriminate]|].
    rewrite <- Qmult_assoc. apply Qmult_le_left; [exact HX|vm_compute; discriminate].
Qed.

(** Sizing is defined for every valid instrument; a feasible size is a
    whole number of lot steps between the instrument's minimum and the cap,
    and the risk it commits at the stop is within the budget
    [equity * risk_pct * multiplier / 100], up to the rounding of its nine
    operations (less than a part in 10^26). *)
Theorem size_position_risk_bounded (equity risk_pct entry stop : decimal) (i : Instrument)
    (qa : option decimal) (mult ml me : decimal)
    (HI : SizingInputs_ok i ml me) (Hp : (0 <= dval risk_pct)%Q) (Hm : (0 <= dval mult)%Q) :
  exists r, size_position equity risk_pct entry stop i qa mult ml me = Ok r
    /\ (sz_feasible r = true ->
        (exists k, dval (sz_lots r) == inject_Z k * dval (inst_lot_step i))%Q
        /\ (dval (inst_min_lot i) <= dval (sz_lots r))%Q
        /\ (dval (sz_lots r) <= dval ml * (1 + eps))%Q
        /\ (dval (sz_risk_amount r)
            <= dval equity * dval risk_pct * dval mult / 100 * (1 + 9 * eps))%Q).
Proof.
  destruct (size_position_ok equity risk_pct entry stop i qa mult ml me HI) as [r H].
  exists r. split; [exact H|]. intros Hf.
  destruct (size_position_feasible_lots _ _ _ _ _ _ _ _ _ _ HI H Hf) as [L1 L2].
  destruct (size_position_feasible_risk _ _ _ _ _ _ _ _ _ _ HI Hp Hm H Hf) as (G & _ & _ & R). auto.
Qed.

Lemma eur_usd_sizing_ok : SizingInputs_ok eur_usd 5 default_max_rounding_error_pct.
Proof. split; [exact eur_usd_ok|reflexivity|reflexivity|reflexivity]. Defined.

Lemma size_position_risk_bounded_witness :
  exists r, size_position 10000 0.5 1.1 1.098 eur_usd (Some ONE) 1 5 default_max_rounding_error_pct = Ok r
    /\ (sz_feasible r = true ->
        (exists k, dval (sz_lots r) == inject_Z k * dval (inst_lot_step eur_usd))%Q
        /\ (dval (inst_min_lot eur_usd) <= dval (sz_lots r))%Q
        /\ (dval (sz_lots r) <= dval 5 * (1 + eps))%Q
        /\ (dval (sz_risk_amount r) <= dval 10000 * dval 0.5 * dval 1 / 100 * (1 + 9 * eps))%Q).
Proof.
  apply (size_position_risk_bounded 10000 0.5 1.1 1.098 eur_usd (Some ONE) 1 5 _ eur_usd_sizing_ok);
    discriminate.
Defined.

Example size_eur_usd :
  exists r, size_position 10000 0.5 1.1 1.098 eur_usd (Some ONE) 1 5 default_max_rounding_error_pct = Ok r
    /\ sz_feasible r = true /\ deqb (sz_lots r) 0.25 = true /\ deqb (sz_risk_amount r) 50 = true.
Proof. eexists. split; [vm_compute; reflexivity|]. repeat split. Qed.

(** The ladder rung is defined for every drawdown and every remembered
    rung; it steps down as soon as a threshold is reached, and steps back up
    only when the drawdown has cleared the band below the current rung's
    threshold. *)
Theorem ladder_rung_hysteresis (dd h : decimal) (ladder : list LadderRow) (cur : Z) :
  exists g, ladder_rung dd ladder cur h = Ok g
    /\ (ladder_target dd ladder 1 0 <= g)%Z
    /\ ((cur <= ladder_target dd ladder 1 0)%Z -> g = ladder_target dd ladder 1 0)
    /\ ((cur <= Z.of_nat (length ladder))%Z -> (g < cur)%Z ->
        exists row, ladder !! Z.to_nat (cur - 1) = Some row
          /\ (dval dd <= dval (row_drawdown_pct row - h))%Q).
Proof.
  destruct (ladder_rung_cases dd ladder cur h) as (g & Hg & Hc). exists g. split; [exact Hg|].
  destruct Hc as [->|(-> & Hr & row & Hrow & Hd)].
  - split; [lia|]. split; [auto|]. intros Hcur Hlt. revert Hg. unfold ladder_rung.
    destruct ladder as [|r0 l]; [cbn in *; lia|]. set (lad := r0 :: l) in *.
    destruct (Z.leb_spec cur (ladder_target dd lad 1 0)); [lia|].
    destruct (Z.ltb_spec (Z.of_nat (length lad)) cur); [lia|].
    pose proof (ladder_target_bounds dd lad).
    destruct (ladder_row_total lad (cur - 1)) as (row & -> & _ & Hrow); [lia|]. cbn [rbind].
    destruct (dleb dd _) eqn:E; intros HH; [|assert (cur = ladder_target dd lad 1 0) by congruence; lia]. exists row. split; [exact Hrow|now apply dleb_spec].
  - split; [lia|]. split; intros; lia.
Qed.

(** Under an enabled, validated ladder the multiplier always exists, lies
    in [0, 1], and never grows with the drawdown when the remembered rung is
    the same and no band is held. *)
Theorem ladder_multiplier_antitone (d1 d2 : decimal) (ladder : list LadderRow) (h : decimal)
    (HL : Ladder_ok ladder) (Hd : (dval d1 <= dval d2)%Q) :
  exists m1 m2, ladder_multiplier d1 ladder true 0 h = Ok m1 /\ ladder_multiplier d2 ladder true 0 h = Ok m2
    /\ (0 <= dval m2)%Q /\ (dval m2 <= dval m1)%Q /\ (dval m1 <= 1)%Q.
Proof.
  assert (Hstep : forall d, exists m, ladder_multiplier d ladder true 0 h = Ok m
    /\ (0 <= dval m /\ dval m <= 1)%Q
    /\ let t := ladder_target d ladder 1 0 in
       if (t <=? 0)%Z then m = ONE else exists r, ladder !! Z.to_nat (t - 1) = Some r /\ m = row_risk_multiplier r).
  { intros d. destruct (ladder_multiplier_cases d ladder true 0 h) as (m & Hm & _). exists m.
    split; [exact Hm|]. split; [eapply ladder_multiplier_unit; [|exact Hm]; auto|]. cbv zeta.
    revert Hm. unfold ladder_multiplier, ladder_rung. destruct ladder as [|r0 l]; [now intros [= <-]|].
    set (lad := r0 :: l). cbn [negb]. pose proof (ladder_target_bounds d lad) as Hb.
    destruct (Z.leb_spec 0 (ladder_target d lad 1 0)); [|lia]. cbn [rbind].
    destruct (Z.leb_spec (ladder_target d lad 1 0) 0); [now intros [= <-]|].
    rewrite Z.min_l by lia.
    destruct (ladder_row_total lad (ladder_target d lad 1 0 - 1)) as (r & -> & _ & Hr); [lia|].
    intros [= <-]. eauto. }
  destruct (Hstep d1) as (m1 & H1 & U1 & T1), (Hstep d2) as (m2 & H2 & U2 & T2).
  exists m1, m2. repeat (split; [tauto|]). split; [|tauto].
  assert (Ht : (ladder_target d1 ladder 1 0 <= ladder_target d2 ladder 1 0)%Z) by (apply ladder_target_mono; auto; lia).
  cbv zeta in T1, T2. revert T1 T2. set (t1 := ladder_target d1 ladder 1 0) in *. set (t2 := ladder_target d2 ladder 1 0) in *.
  destruct (Z.leb_spec t1 0); [intros ->; intros _; tauto|].
  destruct (Z.leb_spec t2 0); [lia|]. intros (r1 & L1 & ->) (r2 & L2 & ->).
  destruct (Z.eq_dec t1 t2) as [->|]; [rewrite L1 in L2; injection L2 as ->; lra|].
  apply dleb_spec.
  exact (StronglySorted_lookup _ ladder (Z.to_nat (t1 - 1)) (Z.to_nat (t2 - 1)) _ _
           (ladder_mults _ HL) ltac:(lia) L1 L2).
Qed.

Lemma default_ladder_ok : Ladder_ok default_ladder.
Proof. apply (ladder_coherent_ok _ 10). reflexivity. Defined.

Lemma ladder_multiplier_antitone_witness :
  exists m1 m2, ladder_multiplier 4 default_ladder true 0 0.5 = Ok m1
    /\ ladder_multiplier 6 default_ladder true 0 0.5 = Ok m2
    /\ (0 <= dval m2)%Q /\ (dval m2 <= dval m1)%Q /\ (dval m1 <= 1)%Q.
Proof. apply (ladder_multiplier_antitone 4 6 default_ladder 0.5 default_ladder_ok). discriminate. Defined.
