(* ===== verification/Exposure.v ===== *)
(** [sentinel/risk/exposure.py]: decomposition of a book into currency legs,
    gross notional, and single-linkage clusters over the correlation graph.
    Dictionaries are [gmap]s, except [groups], whose insertion order decides the
    order of the clusters and which is an association list.  The optional
    [unconvertible] list the callers always supply is returned beside the
    result.  [rolling_correlation] (binary floats) is not modelled. *)

From Stdlib Require Import ZArith QArith Qabs Lia Lqa.
From stdpp Require Import base gmap strings list relations.
From S2P Require Import Prelude PyDecimal DecimalTheory Money Types.

Local Open Scope dec_scope.
Local Open Scope py_scope.

Record CurrencyExposure := mkExposure {
  ce_currency : string;
  ce_net_risk : decimal;
  ce_gross_risk : decimal;
  ce_net_notional : decimal;
  ce_contributors : list string
}.

Record Cluster := mkCluster {
  cl_instruments : list string;
  cl_total_risk : decimal;
  cl_max_pairwise_corr : decimal
}.

(** [x or ZERO]. *)
Definition or_zero (x : decimal) : decimal := if is_zero x then ZERO else x.

(** A [defaultdict(lambda: ZERO)] read. *)
Definition get0 (m : gmap string decimal) (k : string) : decimal := default ZERO (m !! k).

(** ** Currency legs *)

Record LegState := mkLegs {
  lg_net : gmap string decimal;
  lg_gross : gmap string decimal;
  lg_notional : gmap string decimal;
  lg_contributors : gmap string (list string);
  lg_unconvertible : list string
}.

Definition legs0 : LegState := mkLegs ∅ ∅ ∅ ∅ [].

Definition add_at (m : gmap string decimal) (k : string) (v : decimal) : gmap string decimal :=
  <[k := get0 m k + v]> m.
Definition sub_at (m : gmap string decimal) (k : string) (v : decimal) : gmap string decimal :=
  <[k := get0 m k - v]> m.
Definition append_at (m : gmap string (list string)) (k v : string) : gmap string (list string) :=
  <[k := default [] (m !! k) ++ [v]]> m.

Section CurrencyExposure.
Variable instruments : gmap string Instrument.
Variable risk_by_instrument conversions mid_prices : gmap string decimal.
Variable account_currency : string.

(** The rate of a leg's quote currency, as this loop looks it up. *)
Definition leg_rate (i : Instrument) : option decimal :=
  if bool_decide (inst_quote i = account_currency) then Some ONE
  else conversions !! inst_quote i.

(** The body of the loop over the positions. *)
Definition leg_step (s : LegState) (pos : Position) : LegState :=
  match instruments !! pos_instrument pos with
  | None => s
  | Some i =>
      let risk := default (or_zero (pos_initial_risk pos))
                          (risk_by_instrument !! pos_instrument pos) in
      let sgn := sign (pos_side pos) in
      match leg_rate i with
      | None => mkLegs (lg_net s) (lg_gross s) (lg_notional s) (lg_contributors s)
                  (lg_unconvertible s ++ [pos_instrument pos])
      | Some conv =>
          let m := default (pos_entry_price pos) (mid_prices !! pos_instrument pos) in
          let notional := units i (pos_lots pos) * m * conv in
          mkLegs
            (sub_at (add_at (lg_net s) (inst_base i) (risk * sgn)) (inst_quote i) (risk * sgn))
            (add_at (add_at (lg_gross s) (inst_base i) (dabs risk)) (inst_quote i) (dabs risk))
            (sub_at (add_at (lg_notional s) (inst_base i) (notional * sgn))
                    (inst_quote i) (notional * sgn))
            (append_at (append_at (lg_contributors s) (inst_base i) (pos_instrument pos))
                       (inst_quote i) (pos_instrument pos))
            (lg_unconvertible s)
      end
  end.

Definition exposure_of (s : LegState) (ccy : string) : CurrencyExposure :=
  mkExposure ccy (get0 (lg_net s) ccy) (get0 (lg_gross s) ccy) (get0 (lg_notional s) ccy)
    (sorted_set (default [] (lg_contributors s !! ccy))).

(** [currency_exposure]: the exposures by currency, sorted, and the
    instruments that could not be converted. *)
Definition currency_exposure (positions : list Position) : list CurrencyExposure * list string :=
  let s := fold_left leg_step positions legs0 in
  (map (exposure_of s)
     (sorted_set (map fst (map_to_list (lg_net s)) ++ map fst (map_to_list (lg_gross s)))),
   lg_unconvertible s).

(** ** Gross notional *)

(** The rate of a leg's quote currency; a rate that is not positive is none. *)
Definition gross_rate (i : Instrument) : option decimal :=
  if bool_decide (inst_quote i = account_currency) then Some ONE
  else match conversions !! inst_quote i with
       | Some r => if r <=? 0 then None else Some r
       | None => None
       end.

Definition gross_step (acc : decimal * list string) (pos : Position) : decimal * list string :=
  let '(total, unconv) := acc in
  match instruments !! pos_instrument pos with
  | None => acc
  | Some i =>
      let m := default (pos_entry_price pos) (mid_prices !! pos_instrument pos) in
      match gross_rate i with
      | None => (total, if bool_decide (inst_quote i ∈ unconv) then unconv
                        else unconv ++ [inst_quote i])
      | Some conv => (total + units i (pos_lots pos) * m * conv, unconv)
      end
  end.

Definition gross_notional (positions : list Position) : decimal * list string :=
  fold_left gross_step positions (ZERO, []).
End CurrencyExposure.

(** ** Correlation clusters *)

Abbreviation parents := (gmap string string).

(** The loop of [find]: path halving, bounded by [fuel] ([find_rep] shows the
    fuel below is never exhausted). *)
Fixpoint find (fuel : nat) (parent : parents) (x : string) : parents * string :=
  match fuel with
  | O => (parent, x)
  | S f =>
      let px := default x (parent !! x) in
      if bool_decide (px = x) then (parent, x)
      else
        let gx := default px (parent !! px) in
        find f (<[x := gx]> parent) gx
  end.

Definition union_ (fuel : nat) (parent : parents) (a b : string) : parents :=
  let '(p1, ra) := find fuel parent a in
  let '(p2, rb) := find fuel p1 b in
  if bool_decide (ra = rb) then p2 else <[rb := ra]> p2.

Section Clusters.
Variable risk_by_instrument : gmap string decimal.
Variable correlations : gmap (string * string) decimal.
Variable threshold : decimal.

Definition corr (a b : string) : decimal :=
  match correlations !! (a, b) with
  | Some c => c
  | None => default ZERO (correlations !! (b, a))
  end.

(** [abs(corr(a, b)) >= threshold]. *)
Definition linked (ab : string * string) : bool :=
  copy_abs (corr ab.1 ab.2) >=? threshold.

Definition cluster_fuel (names : list string) : nat := S (length (pairs_of names)).

Definition union_all (names : list string) : parents :=
  fold_left (fun p ab => if linked ab then union_ (cluster_fuel names) p ab.1 ab.2 else p)
    (pairs_of names) (list_to_map (map (fun n => (n, n)) names)).

(** [groups[root].append(n)] on a dictionary in insertion order. *)
Fixpoint group_append (root n : string) (groups : list (string * list string))
    : list (string * list string) :=
  match groups with
  | [] => [(root, [n])]
  | (r, ms) :: rest => if bool_decide (r = root) then (r, ms ++ [n]) :: rest
                       else (r, ms) :: group_append root n rest
  end.

Definition group_step (fuel : nat) (acc : parents * list (string * list string)) (n : string)
    : parents * list (string * list string) :=
  let '(p, groups) := acc in
  let '(p', root) := find fuel p n in
  (p', group_append root n groups).

(** [max] of a non-empty list of absolute correlations. *)
Definition max_corr (members : list string) : decimal :=
  match map (fun ab => copy_abs (corr ab.1 ab.2)) (pairs_of members) with
  | [] => ZERO
  | c :: cs => fold_left dmax cs c
  end.

Definition cluster_of (members : list string) : Cluster :=
  mkCluster (sorted_strings members) (dsum (map (get0 risk_by_instrument) members))
    (max_corr members).

(** Insertion into a list sorted by descending total risk; stable. *)
Fixpoint insert_cluster (c : Cluster) (cs : list Cluster) : list Cluster :=
  match cs with
  | [] => [c]
  | d :: rest => if cl_total_risk d <? cl_total_risk c then c :: cs
                 else d :: insert_cluster c rest
  end.

Definition groups_of (names : list string) : list (string * list string) :=
  (fold_left (group_step (cluster_fuel names)) names (union_all names, [])).2.

(** [correlation_clusters]. *)
Definition correlation_clusters (candidates : list string) : list Cluster :=
  let names := fromkeys candidates in
  fold_left (fun cs g => insert_cluster (cluster_of g.2) cs) (groups_of names) [].
End Clusters.

(** ** Netting *)

(** Per currency, the signed legs never exceed the gross ones. *)
Definition net_within (net gross : gmap string decimal) : Prop :=
  forall k, (Qabs (dval (get0 net k)) <= dval (get0 gross k))%Q.

Lemma net_within_add net gross k x y :
  net_within net gross -> (Qabs (dval x) <= dval y)%Q ->
  net_within (add_at net k x) (add_at gross k y).
Proof.
  intros H Hx c. unfold add_at, get0. destruct (decide (k = c)) as [->|Hne].
  - rewrite !lookup_insert_eq. cbn [from_option id]. apply dadd_abs_le; [apply H|exact Hx].
  - rewrite !lookup_insert_ne by exact Hne. apply H.
Qed.

Lemma net_within_sub net gross k x y :
  net_within net gross -> (Qabs (dval x) <= dval y)%Q ->
  net_within (sub_at net k x) (add_at gross k y).
Proof.
  intros H Hx c. unfold add_at, sub_at, get0. destruct (decide (k = c)) as [->|Hne].
  - rewrite !lookup_insert_eq. cbn [from_option id]. apply dsub_abs_le; [apply H|exact Hx].
  - rewrite !lookup_insert_ne by exact Hne. apply H.
Qed.

Lemma leg_step_net insts rbi convs mids ccy s p :
  net_within (lg_net s) (lg_gross s) ->
  net_within (lg_net (leg_step insts rbi convs mids ccy s p)) (lg_gross (leg_step insts rbi convs mids ccy s p)).
Proof.
  intros H. unfold leg_step. destruct (insts !! _) as [i|]; [|exact H].
  destruct (leg_rate _ _ _) as [r|]; [|exact H]. cbn [lg_net lg_gross].
  apply net_within_sub; [apply net_within_add|]; auto using mul_sign_abs.
Qed.

(** In every book, the net risk of each currency is at most its gross
    risk in absolute value: hedged legs can only reduce what is counted. *)
Theorem currency_exposure_netting (insts : gmap string Instrument)
    (rbi convs mids : gmap string decimal) (ccy : string) (ps : list Position) :
  Forall (fun e => Qabs (dval (ce_net_risk e)) <= dval (ce_gross_risk e))%Q
    (currency_exposure insts rbi convs mids ccy ps).1.
Proof.
  unfold currency_exposure. cbn [fst]. apply Forall_map, Forall_true. intros k.
  cbn [exposure_of ce_net_risk ce_gross_risk compose]. revert k.
  change (net_within (lg_net (fold_left (leg_step insts rbi convs mids ccy) ps legs0))
                     (lg_gross (fold_left (leg_step insts rbi convs mids ccy) ps legs0))).
  assert (H0 : net_within (lg_net legs0) (lg_gross legs0)) by (intros k; discriminate).
  revert H0. generalize legs0. induction ps as [|p ps IH]; intros s Hs; [exact Hs|].
  cbn [fold_left]. apply IH, leg_step_net, Hs.
Qed.

(** ** Union-find: representatives *)

(** [parent] is a forest over [names] whose roots are given by [rep], of depth
    [depth], at most [k]. *)
Record UF (names : list string) (k : nat) (parent : parents)
    (rep : string -> string) (depth : string -> nat) : Prop := {
  uf_parent : forall x, x ∈ names -> exists y, parent !! x = Some y /\ y ∈ names
                /\ rep y = rep x /\ (y = x \/ (depth y < depth x)%nat);
  uf_root : forall x, x ∈ names -> parent !! x = Some x -> rep x = x;
  uf_rep : forall x, x ∈ names -> rep x ∈ names /\ parent !! rep x = Some (rep x);
  uf_depth : forall x, x ∈ names -> (depth x <= k)%nat
}.

Lemma UF_init names :
  UF names 0 (list_to_map (map (fun n => (n, n)) names)) (fun x => x) (fun _ => O).
Proof.
  assert (Hl : forall x, x ∈ names ->
    (list_to_map (map (fun n => (n, n)) names) : gmap string string) !! x = Some x).
  { intros x Hx. induction names as [|n ns IH]; [set_solver|]. cbn.
    destruct (decide (n = x)) as [->|Hne]; [now rewrite lookup_insert_eq|].
    rewrite lookup_insert_ne by done. apply IH. set_solver. }
  split; eauto 10.
Qed.

(** [find] returns the representative and keeps the forest, within its fuel. *)
Lemma find_rep names k parent rep depth fuel x :
  UF names k parent rep depth -> x ∈ names -> (depth x < fuel)%nat ->
  exists p', find fuel parent x = (p', rep x) /\ UF names k p' rep depth.
Proof.
  revert parent x. induction fuel as [|f IH]; intros parent x HU Hx Hf; [lia|]. cbn [find].
  destruct (uf_parent _ _ _ _ _ HU x Hx) as (y & Hy & Hyn & Ry & Dy). rewrite Hy. cbn [from_option id].
  case_bool_decide as E.
  - subst y. exists parent. rewrite (uf_root _ _ _ _ _ HU x Hx Hy). auto.
  - destruct Dy as [?|Dy]; [done|].
    destruct (uf_parent _ _ _ _ _ HU y Hyn) as (z & Hz & Hzn & Rz & Dz). rewrite Hz. cbn [from_option id].
    assert (Dzx : (depth z < depth x)%nat) by (destruct Dz as [->|?]; lia).
    assert (Hne : rep x <> x).
    { intros C. destruct (uf_rep _ _ _ _ _ HU x Hx) as [_ HR]. rewrite C in HR. congruence. }
    assert (HU' : UF names k (<[x := z]> parent) rep depth).
    { split.
      - intros w Hw. destruct (decide (x = w)) as [<-|Hxw].
        + exists z. rewrite lookup_insert_eq. split; [done|]. split; [done|]. split; [congruence|auto].
        + rewrite lookup_insert_ne by done. now apply (uf_parent _ _ _ _ _ HU).
      - intros w Hw. destruct (decide (x = w)) as [<-|Hxw].
        + rewrite lookup_insert_eq. intros [= ->]. lia.
        + rewrite lookup_insert_ne by done. now apply (uf_root _ _ _ _ _ HU).
      - intros w Hw. destruct (uf_rep _ _ _ _ _ HU w Hw) as [H1 H2]. split; [done|].
        rewrite lookup_insert_ne; [done|]. intros ->. apply Hne.
        now apply (uf_root _ _ _ _ _ HU).
      - apply (uf_depth _ _ _ _ _ HU). }
    destruct (IH (<[x := z]> parent) z HU' Hzn) as (p' & Hp & HUp); [lia|].
    exists p'. rewrite Hp. split; [|done]. congruence.
Qed.

(** [union_] merges the two classes and deepens the forest by at most one. *)
Lemma union_rep names k parent rep depth fuel a b :
  UF names k parent rep depth -> a ∈ names -> b ∈ names -> (k < fuel)%nat ->
  exists p' depth', union_ fuel parent a b = p'
    /\ UF names (S k) p' (fun x => if bool_decide (rep x = rep b) then rep a else rep x) depth'.
Proof.
  intros HU Ha Hb Hf. unfold union_.
  destruct (find_rep names k parent rep depth fuel a HU Ha) as (p1 & -> & H1);
    [pose proof (uf_depth _ _ _ _ _ HU a Ha); lia|].
  destruct (find_rep names k p1 rep depth fuel b H1 Hb) as (p2 & -> & H2);
    [pose proof (uf_depth _ _ _ _ _ HU b Hb); lia|].
  case_bool_decide as E.
  - exists p2, depth. split; [done|].
    assert (Hx : forall x, (if bool_decide (rep x = rep b) then rep a else rep x) = rep x)
      by (intros; case_bool_decide; congruence).
    split; intros x Hn; cbv beta.
    + destruct (uf_parent _ _ _ _ _ H2 x Hn) as (y & ?). exists y. now rewrite !Hx.
    + rewrite Hx. now apply (uf_root _ _ _ _ _ H2).
    + rewrite Hx. now apply (uf_rep _ _ _ _ _ H2).
    + pose proof (uf_depth _ _ _ _ _ H2 x Hn). lia.
  - set (ra := rep a) in *. set (rb := rep b) in *.
    destruct (uf_rep _ _ _ _ _ H2 a Ha) as [Han Har]. destruct (uf_rep _ _ _ _ _ H2 b Hb) as [Hbn Hbr].
    fold ra in Han, Har. fold rb in Hbn, Hbr.
    pose proof (uf_root _ _ _ _ _ H2 rb Hbn Hbr) as Rb. pose proof (uf_root _ _ _ _ _ H2 ra Han Har) as Ra.
    exists (<[rb := ra]> p2), (fun x => if bool_decide (x = ra) then O
                                       else if bool_decide (rep x = rb) then S (depth x)
                                       else if bool_decide (rep x = ra) then S (depth x) else depth x).
    split; [done|]. split.
    + intros x Hx. destruct (decide (x = rb)) as [->|Hxb].
      * exists ra. rewrite lookup_insert_eq. split; [done|]. split; [done|].
        rewrite Rb, Ra. rewrite (bool_decide_eq_true_2 (rb = rb)), (bool_decide_eq_false_2 (ra = rb)) by done.
        split; [done|]. right. rewrite (bool_decide_eq_true_2 (ra = ra)), (bool_decide_eq_false_2 (rb = ra)) by congruence.
        lia.
      * rewrite lookup_insert_ne by done.
        destruct (uf_parent _ _ _ _ _ H2 x Hx) as (y & Hy & Hyn & Ry & Dy).
        exists y. split; [done|]. split; [done|]. rewrite Ry. split; [done|].
        destruct Dy as [->|Dy]; [by left|right].
        assert (Hxra : x <> ra) by (intros ->; rewrite Har in Hy; injection Hy as <-; lia).
        rewrite (bool_decide_eq_false_2 (x = ra)) by done.
        repeat case_bool_decide; lia.
    + intros x Hx. destruct (decide (x = rb)) as [->|Hxb].
      * rewrite lookup_insert_eq. intros [= C]. congruence.
      * rewrite lookup_insert_ne by done. intros Hp. pose proof (uf_root _ _ _ _ _ H2 x Hx Hp) as Rx.
        rewrite Rx. case_bool_decide; congruence.
    + intros x Hx. destruct (uf_rep _ _ _ _ _ H2 x Hx) as [Hr1 Hr2].
      case_bool_decide as Ex.
      * split; [done|]. rewrite lookup_insert_ne by congruence. done.
      * split; [done|]. rewrite lookup_insert_ne by congruence. done.
    + intros x Hx. pose proof (uf_depth _ _ _ _ _ H2 x Hx). repeat case_bool_decide; lia.
Qed.

(** ** Union-find: connectedness *)

(** The equivalence the edges [es] generate. *)
Definition conn (es : list (string * string)) : string -> string -> Prop :=
  rtsc (fun x y => (x, y) ∈ es).

Lemma conn_nil x y : conn [] x y <-> x = y.
Proof.
  split; [|intros ->; apply rtc_refl].
  induction 1 as [|x y z [H|H] _ IH]; [done| |]; set_solver.
Qed.

Lemma conn_sym es x y : conn es x y -> conn es y x.
Proof. unfold conn. intros H. now symmetry. Qed.

Lemma conn_mono es es' x y : (forall e, e ∈ es -> e ∈ es') -> conn es x y -> conn es' x y.
Proof.
  intros Hs. unfold conn, rtsc. apply rtc_subrel. intros u v [H|H]; [left|right]; auto.
Qed.

(** One more edge connects what it joins and nothing else. *)
Lemma conn_cons es a b x y :
  conn (es ++ [(a, b)]) x y
  <-> conn es x y \/ (conn es x a /\ conn es b y) \/ (conn es x b /\ conn es a y).
Proof.
  split.
  - induction 1 as [x|x y z Hs _ IH]; [left; apply rtc_refl|].
    assert (Hs' : conn es x y \/ (x = a /\ y = b) \/ (x = b /\ y = a)).
    { destruct Hs as [H|H]; rewrite elem_of_app, list_elem_of_singleton in H;
        (destruct H as [H|[= -> ->]]; [left|tauto]).
      - apply rtc_once. by left. - apply rtc_once. by right. }
    assert (T : forall u v w, conn es u v -> conn es v w -> conn es u w) by (intros; etrans; eauto).
    destruct Hs' as [H|[[-> ->]|[-> ->]]].
    + destruct IH as [?|[[? ?]|[? ?]]]; eauto 6.
    + destruct IH as [?|[[? ?]|[? ?]]]; [right; left|right; left|left; eauto];
        (split; [apply rtc_refl|eauto]).
    + destruct IH as [?|[[? ?]|[? ?]]]; [right; right|left; eauto|right; right];
        (split; [apply rtc_refl|eauto]).
  - assert (M : forall u v, conn es u v -> conn (es ++ [(a, b)]) u v)
      by (intros u v; apply conn_mono; set_solver).
    assert (Hab : conn (es ++ [(a, b)]) a b) by (apply rtc_once; left; set_solver).
    intros [H|[[H1 H2]|[H1 H2]]]; [auto| |].
    + etrans; [apply M, H1|]. etrans; [exact Hab|auto].
    + etrans; [apply M, H1|]. etrans; [apply conn_sym, Hab|auto].
Qed.

(** ** The clusters are the connected components *)

Section ClusterFacts.
Context (risks : gmap string decimal) (corrs : gmap (string * string) decimal) (thr : decimal).
Abbreviation linked := (linked corrs thr).

(** The edges the union loop processes. *)
Definition edges (ps : list (string * string)) : list (string * string) :=
  filter (fun ab => linked ab = true) ps.

(** [rep] decides connectedness by the edges [es] over [names]. *)
Definition decides (names : list string) (rep : string -> string) (es : list (string * string)) : Prop :=
  forall x y, x ∈ names -> y ∈ names -> rep x = rep y <-> conn es x y.

Lemma decides_union names rep es a b :
  a ∈ names -> b ∈ names -> decides names rep es ->
  decides names (fun x => if bool_decide (rep x = rep b) then rep a else rep x) (es ++ [(a, b)]).
Proof.
  intros Ha Hb HD x y Hx Hy. rewrite conn_cons.
  rewrite <- (HD x y), <- (HD x a), <- (HD b y), <- (HD x b), <- (HD a y) by done.
  repeat case_bool_decide; intuition congruence.
Qed.

Lemma union_fold names fuel ps :
  forall k p rep depth es,
  (forall a b, (a, b) ∈ ps -> a ∈ names /\ b ∈ names) ->
  (k + length ps < fuel)%nat -> UF names k p rep depth -> decides names rep es ->
  exists k' rep' depth',
    UF names k' (fold_left (fun p ab => if linked ab then union_ fuel p ab.1 ab.2 else p) ps p) rep' depth'
    /\ (k' < fuel)%nat /\ decides names rep' (es ++ edges ps).
Proof.
  induction ps as [|[a b] ps IH]; intros k p rep depth es Hps Hk HU HD; cbn [fold_left length] in *.
  - exists k, rep, depth. cbn. rewrite app_nil_r. split; [done|]. split; [lia|done].
  - destruct (Hps a b) as [Ha Hb]; [set_solver|]. cbn [fst snd].
    assert (Hps' : forall a b, (a, b) ∈ ps -> a ∈ names /\ b ∈ names) by (intros; apply Hps; set_solver).
    destruct (linked (a, b)) eqn:E; unfold edges; rewrite filter_cons.
    + rewrite decide_True by done. fold (edges ps).
      destruct (union_rep names k p rep depth fuel a b HU Ha Hb) as (p' & d' & -> & HU'); [lia|].
      replace (es ++ (a, b) :: edges ps) with ((es ++ [(a, b)]) ++ edges ps) by now rewrite <- app_assoc.
      eapply IH; [done| |exact HU'|now apply decides_union]. lia.
    + rewrite decide_False by congruence. fold (edges ps). eapply IH; [done| |exact HU|exact HD]. lia.
Qed.

Lemma union_all_spec names :
  exists k rep depth, UF names k (union_all corrs thr names) rep depth
    /\ (k < cluster_fuel names)%nat /\ decides names rep (edges (pairs_of names)).
Proof.
  unfold union_all. apply (union_fold names (cluster_fuel names) (pairs_of names) 0 _ (fun x => x) (fun _ => O) []).
  - intros a b. apply pairs_of_elem.
  - unfold cluster_fuel. lia.
  - apply UF_init.
  - intros x y _ _. now rewrite conn_nil.
Qed.

(** *** Grouping by representative *)

Lemma group_fold names k rep depth fuel ns :
  (k < fuel)%nat -> (forall n, n ∈ ns -> n ∈ names) ->
  forall p gs, UF names k p rep depth ->
  (fold_left (group_step fuel) ns (p, gs)).2
  = fold_left (fun gs n => group_append (rep n) n gs) ns gs.
Proof.
  intros Hk. induction ns as [|n ns IH]; intros Hns p gs HU; cbn [fold_left]; [done|].
  unfold group_step at 2.
  destruct (find_rep names k p rep depth fuel n HU) as (p' & -> & HU'); [set_solver| |].
  - pose proof (uf_depth _ _ _ _ _ HU n ltac:(set_solver)). lia.
  - apply IH; [set_solver|done].
Qed.

(** The groups built so far: disjoint, one per representative. *)
Definition grouped (rep : string -> string) (done_ : list string)
    (gs : list (string * list string)) : Prop :=
  concat (map snd gs) ≡ₚ done_ /\ NoDup (map fst gs)
  /\ Forall (fun g => Forall (fun n => rep n = g.1) g.2) gs.

Lemma group_append_fst root n gs :
  map fst (group_append root n gs)
  = if bool_decide (root ∈ map fst gs) then map fst gs else map fst gs ++ [root].
Proof.
  induction gs as [|[r ms] gs IH]; cbn [group_append map]; [done|]. cbn [fst].
  destruct (decide (r = root)) as [->|Hne].
  - rewrite bool_decide_eq_true_2 by done. cbn. rewrite bool_decide_eq_true_2 by set_solver. done.
  - rewrite bool_decide_eq_false_2 by done. cbn. rewrite IH.
    repeat case_bool_decide; set_solver.
Qed.

Lemma group_append_concat root n gs :
  concat (map snd (group_append root n gs)) ≡ₚ n :: concat (map snd gs).
Proof.
  induction gs as [|[r ms] gs IH]; cbn [group_append]; [done|].
  case_bool_decide; cbn.
  - rewrite <- app_assoc. cbn. now rewrite Permutation_middle.
  - rewrite IH. now rewrite Permutation_middle.
Qed.

Lemma grouped_append rep done_ gs n :
  grouped rep done_ gs -> grouped rep (n :: done_) (group_append (rep n) n gs).
Proof.
  intros (H1 & H2 & H3). split; [|split].
  - now rewrite group_append_concat, H1.
  - rewrite group_append_fst. case_bool_decide; [done|].
    apply NoDup_app. split; [done|]. split; [set_solver|apply NoDup_singleton].
  - clear H1 H2. induction H3 as [|[r ms] gs Hg HF IH]; cbn [group_append].
    + apply Forall_singleton. now apply Forall_singleton.
    + case_bool_decide as E; [|now constructor]. constructor; [|exact HF]. cbn in *. subst.
      apply Forall_app. split; [exact Hg|now apply Forall_singleton].
Qed.

Lemma grouped_fold rep ns done_ gs :
  grouped rep done_ gs ->
  grouped rep (rev ns ++ done_) (fold_left (fun gs n => group_append (rep n) n gs) ns gs).
Proof.
  revert done_ gs. induction ns as [|n ns IH]; intros done_ gs H; cbn [fold_left rev app]; [done|].
  rewrite <- app_assoc. cbn. now apply IH, grouped_append.
Qed.

(** Two grouped names share a group exactly when they share a representative. *)
Lemma grouped_same rep done_ gs g a b :
  grouped rep done_ gs -> g ∈ gs -> a ∈ g.2 -> b ∈ done_ -> (b ∈ g.2 <-> rep a = rep b).
Proof.
  intros (H1 & H2 & H3) Hg Ha Hb. rewrite Forall_forall in H3.
  assert (Hrep : forall g n, g ∈ gs -> n ∈ g.2 -> rep n = g.1).
  { intros g' n Hg' Hn. specialize (H3 g' Hg'). rewrite Forall_forall in H3. auto. }
  split; [intros; now rewrite (Hrep g a), (Hrep g b)|]. intros E.
  rewrite <- H1 in Hb. apply list_elem_of_In, in_concat in Hb as (ms & Hms & Hin).
  apply in_map_iff in Hms as (g' & <- & Hg'). apply list_elem_of_In in Hin, Hg'.
  rewrite (Hrep g a), (Hrep g' b) in E by done.
  apply list_elem_of_lookup in Hg as [i Hi], Hg' as [j Hj].
  assert (i = j) as ->.
  { apply (NoDup_lookup (map fst gs) i j g.1); [done| |]; rewrite list_lookup_fmap; [rewrite Hi|rewrite Hj]; cbn; congruence. }
  congruence.
Qed.

Lemma groups_of_spec names :
  exists rep, grouped rep (rev names) (groups_of corrs thr names)
    /\ decides names rep (edges (pairs_of names)).
Proof.
  destruct (union_all_spec names) as (k & rep & depth & HU & Hk & HD).
  exists rep. split; [|done]. unfold groups_of.
  rewrite (group_fold names k rep depth) by auto.
  rewrite <- (app_nil_r (rev names)). apply grouped_fold. repeat split; constructor.
Qed.

Lemma insert_cluster_perm c cs : insert_cluster c cs ≡ₚ c :: cs.
Proof.
  induction cs as [|d cs IH]; cbn [insert_cluster]; [done|].
  destruct (dltb _ _); [done|]. rewrite IH. constructor.
Qed.

Lemma clusters_perm gs cs :
  fold_left (fun cs (g : string * list string) => insert_cluster (cluster_of risks corrs g.2) cs) gs cs
  ≡ₚ map (fun g => cluster_of risks corrs g.2) gs ++ cs.
Proof.
  revert cs. induction gs as [|g gs IH]; intros cs; cbn [fold_left map app]; [done|].
  rewrite IH, insert_cluster_perm. now rewrite Permutation_middle.
Qed.
End ClusterFacts.

(** The correlation clusters are the connected components of the
    correlation graph: together they hold every candidate exactly once, two
    candidates share a cluster exactly when a chain of pairs at or above the
    threshold links them, and a cluster's risk is the sum over its members. *)
Theorem correlation_clusters_components (risks : gmap string decimal)
    (corrs : gmap (string * string) decimal) (thr : decimal) (candidates : list string) :
  let names := fromkeys candidates in
  let cs := correlation_clusters risks corrs thr candidates in
  concat (map cl_instruments cs) ≡ₚ names
  /\ (forall c a b, c ∈ cs -> a ∈ cl_instruments c -> b ∈ names ->
      (b ∈ cl_instruments c <-> conn (edges corrs thr (pairs_of names)) a b))
  /\ (forall c, c ∈ cs -> exists members, members ≡ₚ cl_instruments c
      /\ cl_total_risk c = dsum (map (get0 risks) members)).
Proof.
  cbv zeta. set (names := fromkeys candidates). unfold correlation_clusters. fold names.
  destruct (groups_of_spec corrs thr names) as (rep & HG & HD).
  set (gs := groups_of corrs thr names) in *.
  pose proof (clusters_perm risks corrs gs []) as HP. rewrite app_nil_r in HP.
  assert (Hc : forall c, c ∈ fold_left (fun cs (g : string * list string) =>
             insert_cluster (cluster_of risks corrs g.2) cs) gs [] ->
             exists g, g ∈ gs /\ c = cluster_of risks corrs g.2).
  { intros c Hc. rewrite HP in Hc. apply list_elem_of_In, in_map_iff in Hc as (g & <- & Hg).
    exists g. split; [now apply list_elem_of_In|done]. }
  pose proof HG as (HG1 & _).
  assert (Hn : forall x, x ∈ rev names <-> x ∈ names) by (intros; rewrite !list_elem_of_In; symmetry; apply in_rev).
  split; [|split].
  - rewrite HP, map_map. cbn [cl_instruments cluster_of].
    transitivity (rev names); [|symmetry; apply Permutation_rev]. rewrite <- HG1.
    clear. induction gs as [|g gs IH]; cbn; [done|]. now rewrite sorted_strings_perm, IH.
  - intros c a b Hin Ha Hb. apply Hc in Hin as (g & Hg & ->). cbn [cl_instruments cluster_of] in *.
    rewrite sorted_strings_perm in Ha |- *.
    assert (Hag : a ∈ names).
    { apply Hn. rewrite <- HG1. apply list_elem_of_In, in_concat. exists g.2.
      split; [apply in_map|]; now apply list_elem_of_In. }
    rewrite <- (HD a b) by done. eapply grouped_same; eauto. now apply Hn.
  - intros c Hin. apply Hc in Hin as (g & Hg & ->). exists g.2. cbn. split; [|done].
    now rewrite sorted_strings_perm.
Qed.
