(* ===== verification/Stress.v ===== *)
(** [sentinel/risk/stress.py]: what the book loses if every currency gaps, and
    the largest position whose own gap loss still fits a budget.  A scenario is
    a fraction held as a binary float; it is given by the decimal its [repr]
    denotes, the value [dec] takes it to. *)

From Stdlib Require Import ZArith QArith Lia Lqa.
From stdpp Require Import base gmap strings list.
From S2P Require Import Prelude PyDecimal DecimalTheory Money Types.

Local Open Scope dec_scope.
Local Open Scope py_scope.

Abbreviation scenarios := (gmap string decimal).

Definition DEFAULT_SCENARIOS : scenarios :=
  list_to_map [("CHF", 0.3); ("GBP", 0.09); ("JPY", 0.07); ("AUD", 0.07); ("NZD", 0.06);
    ("EUR", 0.02); ("USD", 0.02); ("TRY", 0.2); ("ZAR", 0.1); ("MXN", 0.1); ("RUB", 0.3);
    ("XAU", 0.06); ("XAG", 0.1); ("*", 0.03)].

(** The larger gap of the two legs, clamped to the unit interval. *)
Definition scenario_gap (i : Instrument) (sc : scenarios) : decimal :=
  let dflt := default 0.03 (sc !! "*") in
  let worst := dmax (default dflt (sc !! inst_base i)) (default dflt (sc !! inst_quote i)) in
  dmax 0.0 (dmin 1.0 worst).

(** [None] when the position cannot be priced. *)
Definition position_notional (i : Instrument) (lots mid : decimal) (conversion : option decimal)
    : option decimal :=
  match conversion with
  | None => None
  | Some conv =>
      if (conv <=? 0) || (mid <=? 0) then None
      else Some (units i lots * mid * conv)
  end.

Section Book.
Variable instruments : gmap string Instrument.
Variable mids conversions : gmap string decimal.
Variable account_currency : string.
Variable sc : scenarios.

Definition stress_conversion (i : Instrument) : option decimal :=
  if bool_decide (inst_quote i = account_currency) then Some ONE else conversions !! inst_quote i.

(** The body of the loop over the positions. *)
Definition stress_step (acc : decimal * list string) (p : Position) : decimal * list string :=
  let '(total, unpriced) := acc in
  match instruments !! pos_instrument p with
  | None => (total, unpriced ++ [pos_instrument p])
  | Some i =>
      match position_notional i (pos_lots p)
              (default (pos_entry_price p) (mids !! pos_instrument p)) (stress_conversion i) with
      | None => (total, unpriced ++ [pos_instrument p])
      | Some notional => (total + notional * scenario_gap i sc, unpriced)
      end
  end.

(** [book_stress_loss]: the loss and the instruments that could not be priced. *)
Definition book_stress_loss (positions : list Position) : decimal * list string :=
  fold_left stress_step positions (ZERO, []).
End Book.

Definition max_lots_within (budget : decimal) (i : Instrument) (mid : decimal)
    (conversion : option decimal) (sc : scenarios) : res decimal :=
  match position_notional i 1 mid conversion with
  | None => Ok ZERO
  | Some one_lot =>
      if one_lot <=? 0 then Ok ZERO
      else
        let per_lot := one_lot * scenario_gap i sc in
        if per_lot <=? 0 then Ok 1e9
        else
          let* q := ddiv budget per_lot in
          Ok (dmax ZERO q)
  end.

(** ** Signs and bounds *)

Lemma scenario_gap_unit i sc :
  (0 <= dval (scenario_gap i sc) /\ dval (scenario_gap i sc) <= 1)%Q.
Proof.
  unfold scenario_gap. cbv zeta. generalize (default (default 0.03 (sc !! "*")) (sc !! inst_base i)).
  intros x. generalize (dmax x (default (default 0.03 (sc !! "*")) (sc !! inst_quote i))). intros w.
  pose proof (dmax_ge_l 0.0 (dmin 1.0 w)) as H. pose proof (dmin_le_l 1.0 w) as H1.
  change (dval 0.0) with (0 # 10)%Q in H. change (dval 1.0) with (10 # 10)%Q in H1.
  split; [lra|]. destruct (dmax_cases 0.0 (dmin 1.0 w)) as [E|E]; rewrite E in *; [discriminate|lra].
Qed.

Lemma position_notional_spec i lots mid c v :
  position_notional i lots mid c = Some v <->
  exists conv, c = Some conv /\ (0 < dval conv)%Q /\ (0 < dval mid)%Q /\ v = units i lots * mid * conv.
Proof.
  unfold position_notional. destruct c as [conv|]; [|split; [discriminate|now intros (?&[=]&_)]].
  destruct (dleb conv 0) eqn:E1; cbn [orb].
  { apply dleb_spec in E1. change (dval 0) with 0%Q in E1.
    split; [discriminate|]. intros (? & [= <-] & H & _). lra. }
  destruct (dleb mid 0) eqn:E2.
  { apply dleb_spec in E2. change (dval 0) with 0%Q in E2.
    split; [discriminate|]. intros (? & _ & _ & H & _). lra. }
  apply dleb_false in E1, E2. change (dval 0) with 0%Q in E1, E2.
  split; [intros [= <-]; eauto|]. now intros (? & [= <-] & _ & _ & ->).
Qed.

Lemma notional_nonneg i lots mid c v :
  Instrument_ok i -> (0 <= dval lots)%Q -> position_notional i lots mid c = Some v ->
  (0 <= dval v)%Q.
Proof.
  intros Hi Hl (conv & _ & Hc & Hm & ->)%position_notional_spec.
  pose proof (ok_contract _ Hi). unfold units. auto 8 with dec.
Qed.

Lemma book_stress_loss_snoc insts mids convs ccy sc ps p :
  book_stress_loss insts mids convs ccy sc (ps ++ [p])
  = stress_step insts mids convs ccy sc (book_stress_loss insts mids convs ccy sc ps) p.
Proof. unfold book_stress_loss. now rewrite fold_left_app. Qed.


Lemma stress_step_ge insts mids convs ccy sc acc p :
  (forall n i, insts !! n = Some i -> Instrument_ok i) -> (0 <= dval (pos_lots p))%Q ->
  (0 <= dval acc.1)%Q -> (0 <= dval (stress_step insts mids convs ccy sc acc p).1)%Q.
Proof.
  intros Hi Hl Ha. unfold stress_step. destruct acc as [t u]. cbn [fst] in Ha.
  destruct (insts !! _) as [i|] eqn:Ei; [|exact Ha].
  destruct (position_notional _ _ _ _) as [n|] eqn:En; [|exact Ha]. cbn [fst].
  apply dadd_nonneg; [exact Ha|]. apply dmul_nonneg; [|apply scenario_gap_unit].
  exact (notional_nonneg i _ _ _ _ (Hi _ _ Ei) Hl En).
Qed.

Lemma book_stress_nonneg insts mids convs ccy sc ps :
  (forall n i, insts !! n = Some i -> Instrument_ok i) ->
  Forall (fun p => 0 <= dval (pos_lots p))%Q ps ->
  (0 <= dval (book_stress_loss insts mids convs ccy sc ps).1)%Q.
Proof.
  intros Hi H. induction ps as [|p ps IH] using rev_ind; [discriminate|].
  apply Forall_app in H as [H1 H2]. inversion_clear H2 as [|? ? Hp _].
  rewrite book_stress_loss_snoc. apply stress_step_ge; auto.
Qed.

Lemma book_stress_Repr insts mids convs ccy sc ps :
  Repr prec (dval (book_stress_loss insts mids convs ccy sc ps).1).
Proof.
  induction ps as [|p ps IH] using rev_ind; [apply short_Repr; reflexivity|].
  rewrite book_stress_loss_snoc. unfold stress_step.
  destruct (book_stress_loss _ _ _ _ _ ps) as [t u].
  destruct (insts !! _); [|exact IH]. destruct (position_notional _ _ _ _); [|exact IH].
  apply dadd_Repr.
Qed.

(** The stress loss of a size against the size [q] the budget buys. *)
Lemma stressed_notional_upper budget i mid conv g lots q :
  Instrument_ok i -> (0 < dval mid)%Q -> (0 < dval conv)%Q -> (0 < dval g)%Q ->
  (0 <= dval budget)%Q -> (0 <= dval lots)%Q ->
  ddiv budget (units i 1 * mid * conv * g) = Ok q -> (dval lots <= dval q * (1 + eps))%Q ->
  (dval (units i lots * mid * conv * g)
   <= dval budget * ((1 + eps) * (1 + eps) * (1 + eps) * (1 + eps) * (1 + eps) * (1 + eps)
                     / ((1 - eps) * (1 - eps) * (1 - eps) * (1 - eps))))%Q.
Proof.
  intros Hi Hm Hc Hg Hb Hl Hq Hle. destruct eps_small as [E1 E2]. pose proof (ok_contract _ Hi) as Hk.
  unfold units in *. set (K := inst_contract_size i) in *.
  assert (H1 : (0 <= 1 <= dval 1)%Q) by (split; discriminate).
  assert (HK : (0 <= dval K <= dval K)%Q) by lra. assert (HM : (0 <= dval mid <= dval mid)%Q) by lra.
  assert (HV : (0 <= dval conv <= dval conv)%Q) by lra. assert (HG : (0 <= dval g <= dval g)%Q) by lra.
  assert (N : forall x y, (0 <= x -> 0 <= y -> 0 <= x * y)%Q) by apply Qmult_le_0_compat.
  assert (Hs : (0 <= 1 - eps)%Q) by lra. assert (Hp : (0 <= 1 + eps)%Q) by lra.
  pose proof (dmul_lower 1 K _ _ H1 HK) as L1.
  pose proof (dmul_lower (1 * K) mid _ _ (conj (N _ _ (N _ _ (proj1 H1) (proj1 HK)) Hs) L1) HM) as L2.
  pose proof (dmul_lower (1 * K * mid) conv _ _
    (conj (N _ _ (N _ _ (N _ _ (N _ _ (proj1 H1) (proj1 HK)) Hs) (proj1 HM)) Hs) L2) HV) as L3.
  pose proof (dmul_lower (1 * K * mid * conv) g _ _
    (conj (N _ _ (N _ _ (N _ _ (N _ _ (N _ _ (N _ _ (proj1 H1) (proj1 HK)) Hs) (proj1 HM)) Hs) (proj1 HV)) Hs) L3) HG) as L4.
  set (D := (1 * dval K * (1 - eps) * dval mid * (1 - eps) * dval conv * (1 - eps) * dval g * (1 - eps))%Q) in *.
  assert (HD : (0 < D)%Q) by (unfold D; repeat (apply Qmult_lt_0_compat; [|lra]); lra).
  pose proof (ddiv_upper _ _ _ _ _ Hq (conj Hb (Qle_refl _)) (conj HD L4)) as UQ.
  set (L := (dval budget / D * (1 + eps) * (1 + eps))%Q).
  assert (HL : (dval lots <= L)%Q).
  { eapply Qle_trans; [exact Hle|]. apply Qmult_le_compat_r; [exact UQ|lra]. }
  pose proof (dmul_upper lots K _ _ (conj Hl HL) HK) as U1.
  assert (P1 : (0 <= dval (lots * K))%Q) by (apply dmul_nonneg; lra).
  pose proof (dmul_upper (lots * K) mid _ _ (conj P1 U1) HM) as U2.
  assert (P2 : (0 <= dval (lots * K * mid))%Q) by (apply dmul_nonneg; lra).
  pose proof (dmul_upper (lots * K * mid) conv _ _ (conj P2 U2) HV) as U3.
  assert (P3 : (0 <= dval (lots * K * mid * conv))%Q) by (apply dmul_nonneg; lra).
  pose proof (dmul_upper _ g _ _ (conj P3 U3) HG) as U4.
  eapply Qle_trans; [exact U4|]. apply Qle_lteq. right. unfold L, D. field. repeat split; lra.
Qed.

Lemma stress_rounding :
  ((1 + eps) * (1 + eps) * (1 + eps) * (1 + eps) * (1 + eps) * (1 + eps)
   / ((1 - eps) * (1 - eps) * (1 - eps) * (1 - eps)) <= 1 + 11 * eps)%Q.
Proof. vm_compute. discriminate. Qed.

(** Adding a capped position to a book of loss [t] stays within the limit. *)
Lemma stressed_book_upper t limit i mid conv sc q lots l :
  Instrument_ok i -> (0 <= dval t)%Q -> (0 < dval mid)%Q -> (0 < dval conv)%Q ->
  (0 < dval (units i 1 * mid * conv * scenario_gap i sc))%Q ->
  ddiv (limit - t) (units i 1 * mid * conv * scenario_gap i sc) = Ok q -> (0 < dval q)%Q ->
  (dval (dmax ZERO q) < lot_range i)%Q -> round_lots_down i (dmax ZERO q) = Ok lots ->
  (0 <= dval l <= dval lots)%Q ->
  (dval (t + units i l * mid * conv * scenario_gap i sc) <= dval limit * (1 + 20 * eps))%Q.
Proof.
  intros Hi Ht Hm Hc Hd Eq Hq Hr Hl Hp.
  assert (Ecap : dmax ZERO q = q).
  { unfold dmax. assert (E : dltb ZERO q = true) by (apply dltb_spec; exact Hq). now rewrite E. }
  rewrite Ecap in *. destruct (round_lots_down_bounds i q lots Hi Hq Hr Hl) as [_ U].
  assert (Hb : (0 < dval (limit - t))%Q).
  { destruct (Qlt_le_dec 0 (dval (limit - t))) as [|C]; [assumption|].
    pose proof (ddiv_nonpos _ _ _ C Hd Eq). lra. }
  pose proof (dsub_pos_inv _ _ Hb) as Hlt. pose proof (scenario_gap_unit i sc) as [Hg _].
  assert (Hg' : (0 < dval (scenario_gap i sc))%Q).
  { destruct (Qlt_le_dec 0 (dval (scenario_gap i sc))) as [|C]; [assumption|].
    assert (E0 : (dval (scenario_gap i sc) == 0)%Q) by lra.
    pose proof (dmul_zero_r (units i 1 * mid * conv) _ E0). lra. }
  pose proof (stressed_notional_upper (limit - t) i mid conv _ l q Hi Hm Hc Hg' (Qlt_le_weak _ _ Hb)
    (proj1 Hp) Eq (Qle_trans _ _ _ (proj2 Hp) U)) as UN.
  pose proof (Rounded_upper (p := prec) (dval limit - dval t) _ (Qlt_le_weak _ _ (proj1 (Qlt_minus_iff _ _) Hlt)) (dsub_R limit t)) as US. fold eps in US.
  set (N := units i l * mid * conv * scenario_gap i sc) in *.
  set (B := dval (limit - t)) in *. set (X := (dval limit - dval t)%Q) in *.
  assert (HX : (0 <= X)%Q) by (unfold X; lra).
  assert (HN : (dval N <= X * (1 + 13 * eps))%Q).
  { eapply Qle_trans; [exact UN|].
    apply Qle_trans with (B * (1 + 11 * eps))%Q.
    - apply Qmult_le_left; [apply Qlt_le_weak; exact Hb|exact stress_rounding].
    - apply Qle_trans with (X * (1 + eps) * (1 + 11 * eps))%Q.
      + apply Qmult_le_compat_r; [exact US|vm_compute; discriminate].
      + rewrite <- Qmult_assoc. apply Qmult_le_left; [exact HX|vm_compute; discriminate]. }
  assert (HN0 : (0 <= dval N)%Q).
  { pose proof (ok_contract _ Hi). unfold N, units. repeat (apply dmul_nonneg; [|lra]). lra. }
  pose proof (dadd_upper t N _ _ (conj Ht (Qle_refl _)) (conj HN0 HN)) as UA.
  eapply Qle_trans; [exact UA|]. unfold X in *. clear -Ht Hlt. rewrite eps_val. lra.
Qed.

(** A position whose size is the rounded-down cap, or smaller, either
    leaves the book's stress loss where it was or keeps the whole book within
    the budget [limit], up to the rounding of its operations. *)
Theorem stress_cap_sound (insts : gmap string Instrument) (mids convs : gmap string decimal)
    (ccy : string) (sc : scenarios) (ps : list Position) (p : Position) (i : Instrument)
    (mid limit cap lots : decimal)
    (Hok : forall n j, insts !! n = Some j -> Instrument_ok j)
    (Hps : Forall (fun p => 0 <= dval (pos_lots p))%Q ps)
    (Hi : insts !! pos_instrument p = Some i)
    (Hmid : mids !! pos_instrument p = Some mid)
    (Hcap : max_lots_within (limit - (book_stress_loss insts mids convs ccy sc ps).1) i mid
              (stress_conversion convs ccy i) sc = Ok cap)
    (Hr : (dval cap < lot_range i)%Q)
    (Hlots : round_lots_down i cap = Ok lots)
    (Hp : (0 <= dval (pos_lots p) <= dval lots)%Q) :
  let before := (book_stress_loss insts mids convs ccy sc ps).1 in
  let after := (book_stress_loss insts mids convs ccy sc (ps ++ [p])).1 in
  (dval after <= dval before)%Q \/ (dval after <= dval limit * (1 + 20 * eps))%Q.
Proof.
  cbv zeta. pose proof (book_stress_nonneg insts mids convs ccy sc ps Hok Hps) as HT.
  pose proof (book_stress_Repr insts mids convs ccy sc ps) as HR.
  rewrite book_stress_loss_snoc. unfold stress_step.
  destruct (book_stress_loss insts mids convs ccy sc ps) as [t u]. cbn [fst] in *.
  rewrite Hi, Hmid. cbn [from_option id]. pose proof (Hok _ _ Hi) as Hik.
  destruct (position_notional i (pos_lots p) mid _) as [n|] eqn:En; [|left; apply Qle_refl]. cbn [fst].
  apply position_notional_spec in En as (conv & Ec & Hc & Hm & ->). rewrite Ec in Hcap.
  assert (Hzero : (dval (units i (pos_lots p) * mid * conv * scenario_gap i sc) == 0)%Q ->
    (dval (t + units i (pos_lots p) * mid * conv * scenario_gap i sc) <= dval t)%Q).
  { intros E. apply Qle_lteq. right. now apply dadd_zero_r. }
  assert (H1l : (0 < dval (units i 1 * mid * conv))%Q).
  { pose proof (ok_contract _ Hik). unfold units. repeat (apply dmul_pos; [|assumption]). reflexivity. }
  unfold max_lots_within in Hcap.
  assert (E1 : position_notional i 1 mid (Some conv) = Some (units i 1 * mid * conv))
    by (apply position_notional_spec; eauto). rewrite E1 in Hcap. clear E1.
  assert (E2 : dleb (units i 1 * mid * conv) 0 = false) by (apply dleb_false; exact H1l).
  rewrite E2 in Hcap. clear E2.
  destruct (dleb (units i 1 * mid * conv * scenario_gap i sc) 0) eqn:E3.
  - (* a zero gap costs nothing *)
    left. apply Hzero, dmul_zero_r. apply dleb_spec in E3. change (dval 0) with 0%Q in E3.
    pose proof (scenario_gap_unit i sc) as [Hg0 _].
    destruct (Qlt_le_dec 0 (dval (scenario_gap i sc))) as [C|C]; [|lra].
    pose proof (dmul_pos _ _ H1l C). lra.
  - apply dleb_false in E3. change (dval 0) with 0%Q in E3.
    destruct (ddiv _ _) as [q|] eqn:Eq; [|discriminate]. cbn [rbind] in Hcap. injection Hcap as <-.
    destruct (Qlt_le_dec 0 (dval q)) as [Hq|Hq].
    + right. eapply stressed_book_upper; eauto.
    + left. apply Hzero. do 3 apply dmul_zero_l. unfold units. apply dmul_zero_l.
      assert (El : dleb (dmax ZERO q) 0 = true).
      { apply dleb_spec. destruct (dmax_cases ZERO q) as [->| ->]; [discriminate|exact Hq]. }
      unfold round_lots_down in Hlots. rewrite El in Hlots. injection Hlots as <-.
      change (dval ZERO) with 0%Q in Hp. lra.
Qed.

Lemma stress_cap_sound_witness :
  let insts : gmap string Instrument := {[ "EUR_USD" := eur_usd ]} in
  let mids : gmap string decimal := {[ "EUR_USD" := 1.1 ]} in
  let p := new_position "EUR_USD" BUY 0.45 1.1 0 "s" 50 in
  let before := (book_stress_loss insts mids ∅ "USD" DEFAULT_SCENARIOS []).1 in
  let after := (book_stress_loss insts mids ∅ "USD" DEFAULT_SCENARIOS ([] ++ [p])).1 in
  (dval after <= dval before)%Q \/ (dval after <= dval 1000 * (1 + 20 * eps))%Q.
Proof.
  cbv zeta.
  apply (stress_cap_sound {[ "EUR_USD" := eur_usd ]} {[ "EUR_USD" := 1.1 ]} ∅ "USD" DEFAULT_SCENARIOS []
           (new_position "EUR_USD" BUY 0.45 1.1 0 "s" 50) eur_usd 1.1 1000
           (match max_lots_within 1000 eur_usd 1.1 (Some ONE) DEFAULT_SCENARIOS with Ok c => c | Raise _ => ZERO end)
           0.45).
  - intros n j [_ <-]%lookup_singleton_Some. exact eur_usd_ok.
  - constructor.
  - reflexivity.
  - reflexivity.
  - vm_compute. reflexivity.
  - vm_compute. reflexivity.
  - vm_compute. reflexivity.
  - split; vm_compute; discriminate.
Defined.
