(* ===== verification/Calendar.v ===== *)
(** The part of Python's [datetime] the program uses: proleptic Gregorian
    dates as ordinals (1 is 0001-01-01, a Monday), naive date-times as
    microseconds since that midnight, and [datetime.fromtimestamp] of a float. *)

From Stdlib Require Import ZArith Lia SpecFloat.
From stdpp Require Import base list.
From S2P Require Import Prelude.

Local Open Scope Z_scope.
Local Open Scope py_scope.

(** ** Dates *)

Definition is_leap (y : Z) : bool :=
  (y mod 4 =? 0) && (negb (y mod 100 =? 0) || (y mod 400 =? 0)).

Definition days_in_month (y m : Z) : Z :=
  if (m =? 2) && is_leap y then 29
  else nth (Z.to_nat m) [0; 31; 28; 31; 30; 31; 30; 31; 31; 30; 31; 30; 31] 0.

Definition days_before_year (y : Z) : Z :=
  let p := y - 1 in p * 365 + p / 4 - p / 100 + p / 400.

Definition days_before_month (y m : Z) : Z :=
  nth (Z.to_nat m) [0; 0; 31; 59; 90; 120; 151; 181; 212; 243; 273; 304; 334] 0
  + (if (2 <? m) && is_leap y then 1 else 0).

Definition ymd2ord (y m d : Z) : Z := days_before_year y + days_before_month y m + d.

(** [date.fromordinal]. *)
Definition ord2ymd (ord : Z) : Z * Z * Z :=
  let n := ord - 1 in
  let n400 := n / 146097 in let n := n mod 146097 in
  let n100 := n / 36524 in let n := n mod 36524 in
  let n4 := n / 1461 in let n := n mod 1461 in
  let n1 := n / 365 in let n := n mod 365 in
  let year := n400 * 400 + 1 + n100 * 100 + n4 * 4 + n1 in
  if (n1 =? 4) || (n100 =? 4) then (year - 1, 12, 31)
  else
    let month := Z.shiftr (n + 50) 5 in
    let preceding := days_before_month year month in
    if n <? preceding
    then let preceding' := preceding - days_in_month year (month - 1) in
         (year, month - 1, n - preceding' + 1)
    else (year, month, n - preceding + 1).

Definition MINYEAR : Z := 1.
Definition MAXYEAR : Z := 9999.

(** [date(y, m, d)], as an ordinal. *)
Definition date_ (y m d : Z) : res Z :=
  if negb ((MINYEAR <=? y) && (y <=? MAXYEAR)) then Raise ValueError
  else if negb ((1 <=? m) && (m <=? 12)) then Raise ValueError
  else if negb ((1 <=? d) && (d <=? days_in_month y m)) then Raise ValueError
  else Ok (ymd2ord y m d).

Definition weekday (ord : Z) : Z := (ord + 6) mod 7.
Definition date_year (ord : Z) : Z := (ord2ymd ord).1.1.
Definition date_month (ord : Z) : Z := (ord2ymd ord).1.2.
Definition date_day (ord : Z) : Z := (ord2ymd ord).2.

Definition MAXORDINAL : Z := 3652059.

(** [d + timedelta(days=k)]. *)
Definition date_add (ord k : Z) : res Z :=
  let r := ord + k in
  if (1 <=? r) && (r <=? MAXORDINAL) then Ok r else Raise OverflowError.

(** ** Naive date-times *)

Definition HOUR_US : Z := 3600 * 1000000.
Definition DAY_US : Z := 24 * HOUR_US.

Abbreviation datetime := Z.

Definition dt_date (t : datetime) : Z := t / DAY_US + 1.
Definition dt_year (t : datetime) : Z := date_year (dt_date t).
Definition dt_hour (t : datetime) : Z := (t mod DAY_US) / HOUR_US.
Definition dt_weekday (t : datetime) : Z := weekday (dt_date t).
(** [timetuple().tm_yday]. *)
Definition dt_yday (t : datetime) : Z := dt_date t - days_before_year (dt_year t).

Definition datetime_ok (t : datetime) : bool := (0 <=? t) && (t <? MAXORDINAL * DAY_US).

(** [dt.datetime(y, m, d, h)]. *)
Definition datetime_ (y m d h : Z) : res datetime :=
  let* ord := date_ y m d in
  if (0 <=? h) && (h <=? 23) then Ok ((ord - 1) * DAY_US + h * HOUR_US) else Raise ValueError.

(** [t + timedelta(hours=h)]. *)
Definition add_hours (t : datetime) (h : Z) : res datetime :=
  let r := t + h * HOUR_US in
  if datetime_ok r then Ok r else Raise OverflowError.

(** ** [datetime.fromtimestamp(ns / 1e9)] *)

Definition fprec : Z := 53.
Definition femax : Z := 1024.

(** [float(z)]; [None] stands for the overflow Python raises on. *)
Definition float_of_Z (z : Z) : spec_float := binary_normalize fprec femax z 0 false.
Definition fdiv (x y : spec_float) : spec_float := SFdiv fprec femax x y.
Definition fmul (x y : spec_float) : spec_float := SFmul fprec femax x y.

(** Integral part (toward zero) and fractional part of a finite float. *)
Definition modf (x : spec_float) : option (Z * spec_float) :=
  match x with
  | S754_zero _ => Some (0, x)
  | S754_finite s m e =>
      if 0 <=? e then Some (cond_Zopp s (Z.pos m * 2 ^ e), S754_zero s)
      else
        let d := 2 ^ (- e) in
        Some (cond_Zopp s (Z.pos m / d),
              binary_normalize fprec femax (cond_Zopp s (Z.pos m mod d)) e s)
  | _ => None
  end.

(** A finite float rounded to the nearest integer, ties to even. *)
Definition fround (x : spec_float) : Z :=
  match x with
  | S754_finite s m e =>
      if 0 <=? e then cond_Zopp s (Z.pos m * 2 ^ e)
      else
        let d := 2 ^ (- e) in let q := Z.pos m / d in let r := Z.pos m mod d in
        cond_Zopp s (if (2 * r <? d) || ((2 * r =? d) && Z.even q) then q else q + 1)
  | _ => 0
  end.

Definition EPOCH_ORD : Z := 719163.

(** Microseconds since the epoch of a float of seconds, half-even. *)
Definition float_to_us (x : spec_float) : option Z :=
  match modf x with
  | None => None
  | Some (ip, fp) => Some (ip * 1000000 + fround (fmul fp (float_of_Z 1000000)))
  end.

(** [datetime.fromtimestamp(ns / 1e9, tz=timezone(offset))], the offset given in
    microseconds. *)
Definition from_timestamp_ns (ns offset : Z) : res datetime :=
  match float_to_us (fdiv (float_of_Z ns) (float_of_Z 1000000000)) with
  | None => Raise OverflowError
  | Some us =>
      let t := (EPOCH_ORD - 1) * DAY_US + us in
      if negb (datetime_ok t) then Raise ValueError
      else if datetime_ok (t + offset) then Ok (t + offset) else Raise OverflowError
  end.

(** [d / 1e9 < n] for integers [d] and [n]. *)
Definition seconds_ltb (d n : Z) : bool :=
  SFltb (fdiv (float_of_Z d) (float_of_Z 1000000000)) (float_of_Z n).

(** ** The year of an ordinal *)

Lemma date_year_bounds ord :
  1 <= ord -> days_before_year (date_year ord) < ord <= days_before_year (date_year ord + 1).
Proof.
  intros H. unfold date_year, ord2ymd. set (n := ord - 1).
  assert (Hn : 0 <= n) by lia. replace ord with (n + 1) by lia. clearbody n. clear H ord.
  set (a := n / 146097). set (r := n mod 146097). set (b := r / 36524). set (r2 := r mod 36524).
  set (c := r2 / 1461). set (r3 := r2 mod 1461). set (d := r3 / 365). set (r4 := r3 mod 365).
  assert (Ea : n = 146097 * a + r /\ 0 <= r < 146097) by (split; [apply Z.div_mod; lia|apply Z.mod_pos_bound; lia]).
  assert (Eb : r = 36524 * b + r2 /\ 0 <= r2 < 36524) by (split; [apply Z.div_mod; lia|apply Z.mod_pos_bound; lia]).
  assert (Ec : r2 = 1461 * c + r3 /\ 0 <= r3 < 1461) by (split; [apply Z.div_mod; lia|apply Z.mod_pos_bound; lia]).
  assert (Ed : r3 = 365 * d + r4 /\ 0 <= r4 < 365) by (split; [apply Z.div_mod; lia|apply Z.mod_pos_bound; lia]).
  clearbody a b c d r r2 r3 r4.
  assert (Hb : 0 <= b <= 4) by lia. assert (Hc : 0 <= c <= 24) by lia. assert (Hd : 0 <= d <= 4) by lia.
  assert (Hy : forall y, y = a * 400 + 1 + b * 100 + c * 4 + d ->
    (d = 4 \/ b = 4 -> days_before_year (y - 1) < n + 1 <= days_before_year (y - 1 + 1))
    /\ (d <> 4 -> b <> 4 -> days_before_year y < n + 1 <= days_before_year (y + 1))).
  { intros y ->. unfold days_before_year. split; intros; Z.to_euclidean_division_equations; lia. }
  specialize (Hy _ eq_refl) as [H1 H2].
  destruct (Z.eqb_spec d 4) as [E|E]; cbn [orb]; [apply H1; auto|].
  destruct (Z.eqb_spec b 4) as [E'|E']; [apply H1; auto|].
  cbv zeta. case_if E1; apply H2; assumption.
Qed.

Lemma year_length y : days_before_year (y + 1) - days_before_year y = if is_leap y then 366 else 365.
Proof.
  unfold days_before_year, is_leap. rewrite Z.add_simpl_r.
  assert (H4 : y / 4 - (y - 1) / 4 = if y mod 4 =? 0 then 1 else 0)
    by (case_if E; [apply Z.eqb_eq in E|apply Z.eqb_neq in E]; Z.to_euclidean_division_equations; lia).
  assert (H100 : y / 100 - (y - 1) / 100 = if y mod 100 =? 0 then 1 else 0)
    by (case_if E; [apply Z.eqb_eq in E|apply Z.eqb_neq in E]; Z.to_euclidean_division_equations; lia).
  assert (H400 : y / 400 - (y - 1) / 400 = if y mod 400 =? 0 then 1 else 0)
    by (case_if E; [apply Z.eqb_eq in E|apply Z.eqb_neq in E]; Z.to_euclidean_division_equations; lia).
  assert (A : y mod 400 = 0 -> y mod 100 = 0) by (Z.to_euclidean_division_equations; lia).
  assert (B : y mod 100 = 0 -> y mod 4 = 0) by (Z.to_euclidean_division_equations; lia).
  destruct (Z.eqb_spec (y mod 4) 0), (Z.eqb_spec (y mod 100) 0), (Z.eqb_spec (y mod 400) 0); cbn [andb negb orb]; try tauto; lia.
Qed.

Lemma days_before_year_mono y z : y <= z -> days_before_year y <= days_before_year z.
Proof. unfold days_before_year. intros. Z.to_euclidean_division_equations. lia. Qed.

(** ** Ordinals and dates *)

Lemma same_leap_month y z m : is_leap y = is_leap z -> days_before_month y m = days_before_month z m.
Proof. unfold days_before_month. now intros ->. Qed.

Lemma same_leap_length y z m : is_leap y = is_leap z -> days_in_month y m = days_in_month z m.
Proof. unfold days_in_month. now intros ->. Qed.

(** Month and day of the [n]-th day (from 0) of a year, as [ord2ymd] finds them. *)
Definition month_day (year n : Z) : Z * Z :=
  let month := Z.shiftr (n + 50) 5 in
  let preceding := days_before_month year month in
  if n <? preceding
  then (month - 1, n - (preceding - days_in_month year (month - 1)) + 1)
  else (month, n - preceding + 1).

Definition month_day_ok (year n : Z) : bool :=
  let '(m, d) := month_day year n in
  (1 <=? m) && (m <=? 12) && (1 <=? d) && (d <=? days_in_month year m)
  && (days_before_month year m + d =? n + 1).

Lemma month_day_checked :
  forallb (fun k => month_day_ok 2000 (Z.of_nat k)) (seq 0 366)
  && forallb (fun k => month_day_ok 2001 (Z.of_nat k)) (seq 0 365) = true.
Proof. vm_compute. reflexivity. Qed.

Lemma month_day_spec y n :
  0 <= n < (if is_leap y then 366 else 365) -> month_day_ok y n = true.
Proof.
  intros Hn. pose proof month_day_checked as H. apply andb_prop in H as [H1 H2].
  rewrite forallb_forall in H1, H2.
  assert (E : forall z, is_leap y = is_leap z -> month_day_ok y n = month_day_ok z n).
  { intros z Hz. unfold month_day_ok, month_day.
    rewrite !(same_leap_month y z _ Hz), !(same_leap_length y z _ Hz).
    case_if Ei; now rewrite !(same_leap_month y z _ Hz), !(same_leap_length y z _ Hz). }
  destruct (is_leap y) eqn:Ey.
  - rewrite (E 2000) by reflexivity. specialize (H1 (Z.to_nat n)). rewrite Z2Nat.id in H1 by lia.
    apply H1, in_seq. lia.
  - rewrite (E 2001) by reflexivity. specialize (H2 (Z.to_nat n)). rewrite Z2Nat.id in H2 by lia.
    apply H2, in_seq. lia.
Qed.

Lemma ord2ymd_spec ord :
  1 <= ord ->
  exists y n, 0 <= n < (if is_leap y then 366 else 365) /\ ord = days_before_year y + n + 1
    /\ ord2ymd ord = (y, (month_day y n).1, (month_day y n).2).
Proof.
  intros H. pose proof (date_year_bounds ord H) as B. unfold date_year in B. revert B.
  unfold ord2ymd. set (n := ord - 1).
  assert (Hn : 0 <= n) by lia. replace ord with (n + 1) by lia. clearbody n. clear H ord.
  set (a := n / 146097). set (r := n mod 146097). set (b := r / 36524). set (r2 := r mod 36524).
  set (c := r2 / 1461). set (r3 := r2 mod 1461). set (d := r3 / 365). set (r4 := r3 mod 365).
  assert (Ea : n = 146097 * a + r /\ 0 <= r < 146097) by (split; [apply Z.div_mod; lia|apply Z.mod_pos_bound; lia]).
  assert (Eb : r = 36524 * b + r2 /\ 0 <= r2 < 36524) by (split; [apply Z.div_mod; lia|apply Z.mod_pos_bound; lia]).
  assert (Ec : r2 = 1461 * c + r3 /\ 0 <= r3 < 1461) by (split; [apply Z.div_mod; lia|apply Z.mod_pos_bound; lia]).
  assert (Ed : r3 = 365 * d + r4 /\ 0 <= r4 < 365) by (split; [apply Z.div_mod; lia|apply Z.mod_pos_bound; lia]).
  clearbody a b c d r r2 r3 r4. cbv zeta.
  set (y := a * 400 + 1 + b * 100 + c * 4 + d).
  assert (Hy : (d = 4 \/ b = 4 -> n + 1 = days_before_year (y - 1) + 365 + 1)
    /\ (d <> 4 -> b <> 4 -> n + 1 = days_before_year y + r4 + 1)).
  { unfold y, days_before_year. split; intros; Z.to_euclidean_division_equations; lia. }
  destruct Hy as [H1 H2]. clearbody y.
  destruct ((d =? 4) || (b =? 4)) eqn:E; cbn [fst].
  - intros B. assert (E' : d = 4 \/ b = 4) by (apply orb_prop in E as [E|E]; apply Z.eqb_eq in E; auto).
    specialize (H1 E'). pose proof (year_length (y - 1)) as L. exists (y - 1), 365.
    destruct (is_leap (y - 1)) eqn:El; [|lia]. split; [lia|]. split; [exact H1|].
    assert (M : month_day (y - 1) 365 = (12, 31)); [|now rewrite M].
    unfold month_day. change (Z.shiftr (365 + 50) 5) with 12. unfold days_before_month. rewrite El. reflexivity.
  - apply orb_false_elim in E as [E1 E2]. apply Z.eqb_neq in E1, E2. specialize (H2 E1 E2).
    intros B. exists y, r4. pose proof (year_length y) as L.
    assert (Y : days_before_year y < n + 1 <= days_before_year (y + 1)) by (revert B; case_if Ei; cbn [fst]; auto).
    split; [lia|]. split; [exact H2|]. unfold month_day. case_if Ei; reflexivity.
Qed.

Lemma ord2ymd_date ord :
  1 <= ord <= MAXORDINAL -> date_ (date_year ord) (date_month ord) (date_day ord) = Ok ord.
Proof.
  intros H. destruct (ord2ymd_spec ord ltac:(lia)) as (y & n & Hn & Ho & E).
  unfold date_year, date_month, date_day. rewrite E. cbn [fst snd].
  pose proof (month_day_spec y n Hn) as M. unfold month_day_ok in M.
  destruct (month_day y n) as [m d]. cbn [fst snd]. rewrite !andb_true_iff, !Z.leb_le, Z.eqb_eq in M.
  assert (Hy : 1 <= y <= 9999).
  { pose proof (year_length y) as L. unfold MAXORDINAL in H.
    destruct (Z.le_gt_cases y 0).
    - pose proof (days_before_year_mono (y + 1) 1 ltac:(lia)). change (days_before_year 1) with 0 in *. destruct (is_leap y); lia.
    - destruct (Z.le_gt_cases 10000 y); [|lia].
      pose proof (days_before_year_mono 10000 y ltac:(lia)). change (days_before_year 10000) with 3652059 in *. lia. }
  unfold date_, MINYEAR, MAXYEAR. rewrite !(proj2 (Z.leb_le _ _)) by lia. cbn [andb negb]. f_equal.
  unfold ymd2ord. lia.
Qed.
