(* ===== verification/TzRules.v ===== *)
(** [sentinel/core/tzrules.py]: the summer-time rules of the release zones,
    arithmetically.  Local and UTC moments are naive date-times ([Calendar]);
    the time-zone tag Python attaches to a UTC value carries no information
    here.  [verify_against_zoneinfo] (a test helper over the system's zone
    database) and [local_to_utc_ns] are not modelled. *)

From Stdlib Require Import ZArith Lia.
From stdpp Require Import base strings list.
From S2P Require Import Prelude Calendar.

Local Open Scope Z_scope.
Local Open Scope py_scope.

(** The second component of [_BASE]. *)
Inductive regime := RUs | REu | RNone.
#[export] Instance regime_eq_dec : EqDecision regime.
Proof. solve_decision. Defined.

Definition BASE (zone : string) : option (Z * regime) :=
  if bool_decide (zone = "America/New_York") then Some (-5, RUs)
  else if bool_decide (zone = "Europe/Frankfurt") then Some (1, REu)
  else if bool_decide (zone = "Europe/London") then Some (0, REu)
  else if bool_decide (zone = "Asia/Tokyo") then Some (9, RNone)
  else if bool_decide (zone = "UTC") then Some (0, RNone)
  else None.

(** [_nth_weekday]. *)
Definition nth_weekday (year month wd n : Z) : res Z :=
  let* first := date_ year month 1 in
  let offset := (wd - weekday first) mod 7 in
  date_ year month (1 + offset + (n - 1) * 7).

(** [_last_weekday]. *)
Definition last_weekday (year month wd : Z) : res Z :=
  let* nxt := if month =? 12 then date_ (year + 1) 1 1 else date_ year (month + 1) 1 in
  let* lst := date_add nxt (-1) in
  date_add lst (- ((weekday lst - wd) mod 7)).

(** [_us_dst]. *)
Definition us_dst (moment : datetime) : res bool :=
  let year := dt_year moment in
  let* start := nth_weekday year 3 6 2 in
  let* end_ := nth_weekday year 11 6 1 in
  let today := dt_date moment in
  if (today <? start) || (end_ <? today) then Ok false
  else if (start <? today) && (today <? end_) then Ok true
  else if today =? start then Ok (2 <=? dt_hour moment)
  else Ok (dt_hour moment <? 2).

Definition us_dst_bounds_utc (year : Z) : res (datetime * datetime) :=
  let* start := nth_weekday year 3 6 2 in
  let* end_ := nth_weekday year 11 6 1 in
  let* lo := datetime_ (date_year start) (date_month start) (date_day start) 7 in
  let* hi := datetime_ (date_year end_) (date_month end_) (date_day end_) 6 in
  Ok (lo, hi).

(** [_eu_dst]. *)
Definition eu_dst (moment : datetime) : res bool :=
  let year := dt_year moment in
  let* start := last_weekday year 3 6 in
  let* end_ := last_weekday year 10 6 in
  let today := dt_date moment in
  if (today <? start) || (end_ <? today) then Ok false
  else if (start <? today) && (today <? end_) then Ok true
  else if today =? start then Ok (2 <=? dt_hour moment)
  else Ok (dt_hour moment <? 2).

Definition utc_offset_hours (zone : string) (moment : datetime) : res Z :=
  match BASE zone with
  | None => Raise ValueError
  | Some (base, RUs) => let* b := us_dst moment in Ok (base + (if b : bool then 1 else 0))
  | Some (base, REu) => let* b := eu_dst moment in Ok (base + (if b : bool then 1 else 0))
  | Some (base, RNone) => Ok base
  end.

Definition local_to_utc (local : datetime) (zone : string) : res datetime :=
  let* offset := utc_offset_hours zone local in
  add_hours local (- offset).

Definition utc_to_local (utc : datetime) (zone : string) : res datetime :=
  let* o1 := utc_offset_hours zone utc in
  let* guess := add_hours utc o1 in
  let* o2 := utc_offset_hours zone guess in
  add_hours utc o2.

(** ** The switch dates *)

Lemma weekday_range d : 0 <= weekday d < 7.
Proof. apply Z.mod_pos_bound. lia. Qed.

Lemma weekday_add d k : weekday (d + k) = (weekday d + k) mod 7.
Proof. unfold weekday. rewrite Zplus_mod_idemp_l. f_equal. lia. Qed.

Lemma date_valid y m d :
  1 <= y <= 9999 -> 1 <= m <= 12 -> 1 <= d <= days_in_month y m -> date_ y m d = Ok (ymd2ord y m d).
Proof.
  intros Hy Hm Hd. unfold date_, MINYEAR, MAXYEAR.
  rewrite !(proj2 (Z.leb_le _ _)) by lia. reflexivity.
Qed.

Lemma nth_weekday_spec_aux y m wd n :
  1 <= y <= 9999 -> 1 <= m <= 12 -> 0 <= wd < 7 -> 1 <= n -> 7 * n <= days_in_month y m ->
  exists d, nth_weekday y m wd n = Ok (ymd2ord y m d)
    /\ 7 * (n - 1) + 1 <= d <= 7 * n /\ weekday (ymd2ord y m d) = wd.
Proof.
  intros Hy Hm Hw Hn Hd. unfold nth_weekday. rewrite date_valid by lia. cbn [rbind]. cbv zeta.
  set (w := weekday (ymd2ord y m 1)). pose proof (Z.mod_pos_bound (wd - w) 7 ltac:(lia)).
  exists (1 + (wd - w) mod 7 + (n - 1) * 7). split; [apply date_valid; lia|]. split; [lia|].
  replace (ymd2ord y m (1 + (wd - w) mod 7 + (n - 1) * 7))
    with (ymd2ord y m 1 + ((wd - w) mod 7 + (n - 1) * 7)) by (unfold ymd2ord; lia).
  rewrite weekday_add. fold w. Z.to_euclidean_division_equations. lia.
Qed.

Lemma days_before_year_range y : 1 <= y <= 9999 -> 0 <= days_before_year y <= 3651694.
Proof. unfold days_before_year. intros H. Z.to_euclidean_division_equations. lia. Qed.

Lemma days_before_month_const y m c :
  nth (Z.to_nat m) [0; 0; 31; 59; 90; 120; 151; 181; 212; 243; 273; 304; 334] 0 = c ->
  c <= days_before_month y m <= c + 1.
Proof. unfold days_before_month. intros ->. destruct ((2 <? m) && is_leap y); lia. Qed.

Lemma last_weekday_spec_aux y m wd :
  1 <= y <= 9999 -> 1 <= m <= 11 -> 0 <= wd < 7 ->
  exists d, last_weekday y m wd = Ok d
    /\ ymd2ord y (m + 1) 1 - 7 <= d <= ymd2ord y (m + 1) 1 - 1 /\ weekday d = wd.
Proof.
  intros Hy Hm Hw. unfold last_weekday. destruct (Z.eqb_spec m 12); [lia|].
  assert (Hdim : 1 <= days_in_month y (m + 1)).
  { unfold days_in_month. case_if E; [lia|].
    assert (Hk : exists k, m = Z.of_nat k /\ (1 <= k <= 11)%nat) by (exists (Z.to_nat m); lia).
    destruct Hk as (k & -> & Hk). replace (Z.to_nat (Z.of_nat k + 1)) with (S k) by lia.
    do 12 (destruct k as [|k]; [cbn; lia|]). lia. }
  rewrite date_valid by lia. cbn [rbind]. pose proof (days_before_year_range y Hy).
  assert (Hb : 31 <= days_before_month y (m + 1) <= 335).
  { assert (Hk : exists k, m = Z.of_nat k /\ (1 <= k <= 11)%nat) by (exists (Z.to_nat m); lia).
    destruct Hk as (k & -> & Hk). unfold days_before_month.
    replace (Z.to_nat (Z.of_nat k + 1)) with (S k) by lia.
    do 12 (destruct k as [|k]; [cbn [nth]; destruct (_ && _); lia|]). lia. }
  set (x := ymd2ord y (m + 1) 1) in *. assert (Hx : 32 <= x <= 3652030) by (unfold x, ymd2ord; lia).
  unfold date_add, MAXORDINAL.
  assert (E1 : (1 <=? x + -1) && (x + -1 <=? 3652059) = true) by (apply andb_true_intro; split; apply Z.leb_le; lia).
  rewrite E1. cbn [rbind]. set (w := weekday (x + -1)).
  pose proof (Z.mod_pos_bound (w - wd) 7 ltac:(lia)).
  set (r := (w - wd) mod 7) in *. exists (x + -1 + - r).
  assert (E2 : (1 <=? x + -1 + - r) && (x + -1 + - r <=? 3652059) = true) by (apply andb_true_intro; split; apply Z.leb_le; lia).
  rewrite E2. split; [reflexivity|]. split; [lia|].
  rewrite weekday_add. fold w. pose proof (weekday_range (x + -1)). fold w in H1.
  unfold r. Z.to_euclidean_division_equations. lia.
Qed.

(** ** Summer time as a window of local days and hours *)

Definition in_window (s e d h : Z) : bool :=
  if (d <? s) || (e <? d) then false
  else if (s <? d) && (d <? e) then true
  else if d =? s then 2 <=? h else h <? 2.

Lemma in_window_res s e d h base :
  (let* b := if (d <? s) || (e <? d) then Ok false
             else if (s <? d) && (d <? e) then Ok true
             else if d =? s then Ok (2 <=? h) else Ok (h <? 2)
   in Ok (base + (if b : bool then 1 else 0)))
  = Ok (base + if in_window s e d h then 1 else 0).
Proof.
  unfold in_window. destruct (_ || _); [reflexivity|]. destruct (_ && _); [reflexivity|].
  destruct (d =? s); reflexivity.
Qed.

(** The switch days of a regime, where it has any. *)
Definition switch_days (r : regime) (year : Z) : option (res Z * res Z) :=
  match r with
  | RUs => Some (nth_weekday year 3 6 2, nth_weekday year 11 6 1)
  | REu => Some (last_weekday year 3 6, last_weekday year 10 6)
  | RNone => None
  end.

(** The window of year [y] lies well inside the year. *)
Definition inside (y s e : Z) : Prop :=
  days_before_year y + 31 < s /\ s + 31 < e /\ e + 31 < days_before_year (y + 1).

Lemma us_days y : 1 <= y <= 9999 ->
  exists s e, nth_weekday y 3 6 2 = Ok s /\ nth_weekday y 11 6 1 = Ok e /\ inside y s e.
Proof.
  intros Hy.
  destruct (nth_weekday_spec_aux y 3 6 2) as (d1 & E1 & B1 & _); try lia;
    [change (days_in_month y 3) with 31; lia|].
  destruct (nth_weekday_spec_aux y 11 6 1) as (d2 & E2 & B2 & _); try lia;
    [change (days_in_month y 11) with 30; lia|].
  eexists _, _. split; [exact E1|]. split; [exact E2|].
  pose proof (year_length y) as YL. unfold inside, ymd2ord.
  change (days_before_month y 3) with (59 + if is_leap y then 1 else 0).
  change (days_before_month y 11) with (304 + if is_leap y then 1 else 0).
  destruct (is_leap y); lia.
Qed.

Lemma eu_days y : 1 <= y <= 9999 ->
  exists s e, last_weekday y 3 6 = Ok s /\ last_weekday y 10 6 = Ok e /\ inside y s e.
Proof.
  intros Hy. destruct (last_weekday_spec_aux y 3 6) as (d1 & E1 & B1 & _); try lia.
  destruct (last_weekday_spec_aux y 10 6) as (d2 & E2 & B2 & _); try lia.
  eexists _, _. split; [exact E1|]. split; [exact E2|].
  pose proof (year_length y) as YL. revert B1 B2. unfold inside, ymd2ord.
  change (days_before_month y (3 + 1)) with (90 + if is_leap y then 1 else 0).
  change (days_before_month y (10 + 1)) with (304 + if is_leap y then 1 else 0).
  destruct (is_leap y); lia.
Qed.

Lemma dt_year_bounds t :
  0 <= t -> days_before_year (dt_year t) < dt_date t <= days_before_year (dt_year t + 1).
Proof.
  intros H. apply date_year_bounds. unfold dt_date.
  assert (0 <= t / DAY_US) by (apply Z.div_pos; [lia|reflexivity]). lia.
Qed.

Lemma datetime_ok_spec t : datetime_ok t = true <-> 0 <= t < MAXORDINAL * DAY_US.
Proof. unfold datetime_ok. rewrite andb_true_iff, Z.leb_le, Z.ltb_lt. reflexivity. Qed.

Lemma dt_year_range t : datetime_ok t = true -> 1 <= dt_year t <= 9999.
Proof.
  intros H%datetime_ok_spec. pose proof (dt_year_bounds t ltac:(lia)) as B.
  assert (Hd : 1 <= dt_date t <= MAXORDINAL).
  { unfold dt_date. assert (t / DAY_US < MAXORDINAL) by (apply Z.div_lt_upper_bound; [reflexivity|lia]).
    assert (0 <= t / DAY_US) by (apply Z.div_pos; [lia|reflexivity]). lia. }
  destruct (Z.le_gt_cases (dt_year t) 0) as [C|C].
  { pose proof (days_before_year_mono (dt_year t + 1) 1 ltac:(lia)). change (days_before_year 1) with 0 in *. lia. }
  destruct (Z.le_gt_cases 10000 (dt_year t)) as [C'|C']; [|lia].
  pose proof (days_before_year_mono 10000 (dt_year t) C'). change (days_before_year 10000) with 3652059 in *.
  unfold MAXORDINAL in *. lia.
Qed.

(** Near [t], the window of [t]'s own year decides, whatever the year of [u]. *)
Lemma window_of_year t u y s e s' e' :
  0 <= u -> days_before_year y < dt_date t <= days_before_year (y + 1) ->
  Z.abs (dt_date u - dt_date t) <= 2 -> inside y s e -> inside (dt_year u) s' e' ->
  (dt_year u = y -> s' = s /\ e' = e) ->
  in_window s' e' (dt_date u) (dt_hour u) = in_window s e (dt_date u) (dt_hour u).
Proof.
  intros Hu Ht Hd Hin Hin' He. pose proof (dt_year_bounds u Hu) as Bu.
  destruct (Z.eq_dec (dt_year u) y) as [E|E]; [destruct (He E); subst; reflexivity|].
  unfold inside in *. unfold in_window.
  destruct (Z.lt_ge_cases (dt_year u) y) as [C|C].
  - pose proof (days_before_year_mono (dt_year u + 1) y ltac:(lia)).
    rewrite (proj2 (Z.ltb_lt (dt_date u) s)) by lia. rewrite (proj2 (Z.ltb_lt e' (dt_date u))) by lia.
    now rewrite Bool.orb_true_r.
  - pose proof (days_before_year_mono (y + 1) (dt_year u) ltac:(lia)).
    rewrite (proj2 (Z.ltb_lt (dt_date u) s')) by lia. rewrite (proj2 (Z.ltb_lt e (dt_date u))) by lia.
    now rewrite Bool.orb_true_r.
Qed.

(** The offset of a zone at [u], read on the window of a nearby moment's year. *)
Lemma offset_near zone base r t u s e :
  BASE zone = Some (base, r) -> datetime_ok t = true -> datetime_ok u = true ->
  Z.abs (dt_date u - dt_date t) <= 2 ->
  switch_days r (dt_year t) = Some (Ok s, Ok e) ->
  inside (dt_year t) s e
  /\ utc_offset_hours zone u
     = Ok (base + if in_window s e (dt_date u) (dt_hour u) then 1 else 0).
Proof.
  intros HB Ht Hu Hd Hs. pose proof (dt_year_range t Ht) as Yt. pose proof (dt_year_range u Hu) as Yu.
  apply datetime_ok_spec in Ht, Hu. pose proof (dt_year_bounds t ltac:(lia)) as Bt.
  unfold utc_offset_hours. rewrite HB. destruct r; [| |discriminate]; cbn [switch_days] in Hs; injection Hs as Es Ee.
  - destruct (us_days _ Yt) as (s1 & e1 & A1 & A2 & A3). rewrite A1 in Es. rewrite A2 in Ee. injection Es as ->. injection Ee as ->.
    split; [exact A3|]. destruct (us_days _ Yu) as (s2 & e2 & C1 & C2 & C3).
    unfold us_dst. rewrite C1, C2. cbn [rbind].
    assert (W : in_window s2 e2 (dt_date u) (dt_hour u) = in_window s e (dt_date u) (dt_hour u)).
    { apply (window_of_year t u (dt_year t)); auto; [lia|]. intros E. rewrite E in *. split; congruence. }
    rewrite <- W. apply in_window_res.
  - destruct (eu_days _ Yt) as (s1 & e1 & A1 & A2 & A3). rewrite A1 in Es. rewrite A2 in Ee. injection Es as ->. injection Ee as ->.
    split; [exact A3|]. destruct (eu_days _ Yu) as (s2 & e2 & C1 & C2 & C3).
    unfold eu_dst. rewrite C1, C2. cbn [rbind].
    assert (W : in_window s2 e2 (dt_date u) (dt_hour u) = in_window s e (dt_date u) (dt_hour u)).
    { apply (window_of_year t u (dt_year t)); auto; [lia|]. intros E. rewrite E in *. split; congruence. }
    rewrite <- W. apply in_window_res.
Qed.

Lemma switch_days_ok r y :
  1 <= y <= 9999 -> r <> RNone ->
  exists s e, switch_days r y = Some (Ok s, Ok e) /\ inside y s e.
Proof.
  intros Hy Hr. destruct r; [| |congruence]; cbn [switch_days].
  - destruct (us_days y Hy) as (s & e & -> & -> & H). eauto.
  - destruct (eu_days y Hy) as (s & e & -> & -> & H). eauto.
Qed.

(** ** Hours and days after a shift *)

Definition hours_of (t : datetime) : Z := 24 * dt_date t + dt_hour t.

Lemma dt_hour_range t : 0 <= dt_hour t < 24.
Proof.
  unfold dt_hour, DAY_US. pose proof (Z.mod_pos_bound t (24 * HOUR_US) ltac:(reflexivity)).
  split; [apply Z.div_pos; [lia|reflexivity]|apply Z.div_lt_upper_bound; [reflexivity|lia]].
Qed.

Lemma hours_of_val t : hours_of t = t / HOUR_US + 24.
Proof.
  unfold hours_of, dt_date, dt_hour, DAY_US, HOUR_US. Z.to_euclidean_division_equations. lia.
Qed.

Lemma hours_of_add t k : hours_of (t + k * HOUR_US) = hours_of t + k.
Proof. rewrite !hours_of_val, Z.div_add by discriminate. lia. Qed.

Lemma dates_near t k : -24 <= k <= 24 -> Z.abs (dt_date (t + k * HOUR_US) - dt_date t) <= 2.
Proof.
  intros Hk. pose proof (hours_of_add t k) as E. unfold hours_of in E.
  pose proof (dt_hour_range t). pose proof (dt_hour_range (t + k * HOUR_US)). lia.
Qed.

Lemma in_window_iff s e t :
  s < e -> in_window s e (dt_date t) (dt_hour t) = true <-> 24 * s + 2 <= hours_of t < 24 * e + 2.
Proof.
  intros Hse. unfold in_window, hours_of. pose proof (dt_hour_range t) as Hh.
  destruct (Z.ltb_spec (dt_date t) s), (Z.ltb_spec e (dt_date t)); cbn [orb]; try (split; [discriminate|lia]).
  destruct (Z.ltb_spec s (dt_date t)), (Z.ltb_spec (dt_date t) e); cbn [andb]; [split; [lia|reflexivity]| | |];
    destruct (Z.eqb_spec (dt_date t) s); try lia; rewrite ?Z.leb_le, ?Z.ltb_lt; lia.
Qed.

Lemma datetime_room t :
  2 <= dt_year t <= 9998 -> datetime_ok t = true -> forall k, -24 <= k <= 24 -> datetime_ok (t + k * HOUR_US) = true.
Proof.
  intros Hy Ht k Hk. apply datetime_ok_spec in Ht. apply datetime_ok_spec.
  pose proof (dt_year_bounds t ltac:(lia)) as B.
  pose proof (days_before_year_mono 2 (dt_year t) ltac:(lia)) as L.
  pose proof (days_before_year_mono (dt_year t + 1) 9999 ltac:(lia)) as U.
  change (days_before_year 2) with 365 in L. change (days_before_year 9999) with 3651694 in U.
  unfold dt_date in B. pose proof (Z.div_mod t DAY_US ltac:(discriminate)).
  pose proof (Z.mod_pos_bound t DAY_US ltac:(reflexivity)).
  unfold MAXORDINAL, DAY_US, HOUR_US in *. lia.
Qed.

(** The offset of a zone in terms of the hours of the moment. *)
Lemma offset_hours zone base r t k s e :
  BASE zone = Some (base, r) -> datetime_ok t = true -> 2 <= dt_year t <= 9998 -> -24 <= k <= 24 ->
  switch_days r (dt_year t) = Some (Ok s, Ok e) ->
  exists b, utc_offset_hours zone (t + k * HOUR_US) = Ok (base + b)
    /\ (b = 1 /\ 24 * s + 2 <= hours_of t + k < 24 * e + 2
        \/ b = 0 /\ ~ 24 * s + 2 <= hours_of t + k < 24 * e + 2) /\ s + 31 < e.
Proof.
  intros HB Ht Hy Hk Hs.
  destruct (offset_near zone base r t (t + k * HOUR_US) s e) as [(_ & Hse & _) ->]; auto using datetime_room, dates_near.
  eexists. split; [reflexivity|]. split; [|exact Hse]. rewrite <- hours_of_add.
  rewrite <- (in_window_iff s e) by lia. destruct (in_window _ _ _ _); [left|right]; split; auto; discriminate.
Qed.

Lemma BASE_range zone base r : BASE zone = Some (base, r) -> -5 <= base <= 9.
Proof. unfold BASE. repeat case_bool_decide; intros [= <- _]; lia. Qed.

Lemma add_hours_room t k :
  2 <= dt_year t <= 9998 -> datetime_ok t = true -> -24 <= k <= 24 ->
  add_hours t k = Ok (t + k * HOUR_US).
Proof. intros. unfold add_hours. now rewrite datetime_room. Qed.

(** Converting a local time to UTC and back returns it, in every zone and
    for every moment of the years 2 to 9998 that is not in the second or third
    hour of the day summer time starts; neither conversion raises there. *)
Theorem local_utc_round_trip (zone : string) (base : Z) (r : regime) (t : datetime)
    (HB : BASE zone = Some (base, r)) (Ht : datetime_ok t = true) (Hy : 2 <= dt_year t <= 9998)
    (Hx : forall s e, switch_days r (dt_year t) = Some (Ok s, Ok e) -> dt_date t = s ->
          dt_hour t <> 1 /\ dt_hour t <> 2) :
  exists u, local_to_utc t zone = Ok u /\ utc_to_local u zone = Ok t.
Proof.
  pose proof (BASE_range _ _ _ HB) as Hb.
  assert (back : forall k, add_hours (t + - k * HOUR_US) k = Ok t).
  { intros k. unfold add_hours. replace (t + - k * HOUR_US + k * HOUR_US) with t by ring. now rewrite Ht. }
  destruct (decide (r = RNone)) as [->|Hr].
  - exists (t + - base * HOUR_US). unfold local_to_utc, utc_to_local, utc_offset_hours. rewrite HB. cbn [rbind].
    rewrite (add_hours_room t) by (auto; lia). split; [reflexivity|].
    rewrite !back. reflexivity.
  - destruct (switch_days_ok r (dt_year t) ltac:(lia) Hr) as (s & e & Hs & _).
    pose proof (fun k => offset_hours zone base r t k s e HB Ht Hy) as O.
    destruct (O 0 ltac:(lia) Hs) as (b0 & E0 & C0 & Hse). rewrite Z.mul_0_l, Z.add_0_r in E0.
    unfold local_to_utc. rewrite E0. cbn [rbind]. rewrite (add_hours_room t) by (auto; lia).
    eexists. split; [reflexivity|]. unfold utc_to_local.
    destruct (O (- (base + b0)) ltac:(lia) Hs) as (b1 & -> & C1 & _). cbn [rbind].
    replace (add_hours (t + - (base + b0) * HOUR_US) (base + b1)) with (add_hours t (b1 - b0))
      by (unfold add_hours; replace (t + - (base + b0) * HOUR_US + (base + b1) * HOUR_US)
          with (t + (b1 - b0) * HOUR_US) by ring; reflexivity).
    rewrite (add_hours_room t) by (auto; lia). cbn [rbind].
    destruct (O (b1 - b0) ltac:(lia) Hs) as (b2 & -> & C2 & _). cbn [rbind].
    assert (E : b2 = b0).
    { assert (hours_of t <> 24 * s + 1 /\ hours_of t <> 24 * s + 2).
      { unfold hours_of. pose proof (dt_hour_range t).
        destruct (Z.eq_dec (dt_date t) s) as [Ed|Ed]; [destruct (Hx s e Hs Ed); lia|lia]. }
      lia. }
    subst b2. apply back.
Qed.

Lemma local_utc_round_trip_witness :
  exists u, local_to_utc (738733 * DAY_US + 8 * HOUR_US) "America/New_York" = Ok u
    /\ utc_to_local u "America/New_York" = Ok (738733 * DAY_US + 8 * HOUR_US).
Proof.
  apply (local_utc_round_trip "America/New_York" (-5) RUs); [reflexivity|reflexivity| |].
  - vm_compute. split; discriminate.
  - intros s e _ _. vm_compute. split; discriminate.
Defined.

(** The UTC switch instants of a year are exact: outside the hour that
    summer time skips, a New York local time is daylight time exactly when its
    UTC instant lies between the two instants of its year. *)
Theorem us_dst_bounds_agree (t : datetime)
    (Ht : datetime_ok t = true) (Hy : 2 <= dt_year t <= 9998)
    (Hx : forall s, nth_weekday (dt_year t) 3 6 2 = Ok s -> dt_date t = s -> dt_hour t <> 2) :
  exists b u lo hi, us_dst t = Ok b /\ local_to_utc t "America/New_York" = Ok u
    /\ us_dst_bounds_utc (dt_year t) = Ok (lo, hi) /\ (b = true <-> lo <= u < hi).
Proof.
  assert (HB : BASE "America/New_York" = Some (-5, RUs)) by reflexivity.
  destruct (us_days (dt_year t) ltac:(lia)) as (s & e & Es & Ee & Hin).
  assert (Hs : switch_days RUs (dt_year t) = Some (Ok s, Ok e)) by (cbn [switch_days]; now rewrite Es, Ee).
  destruct (offset_hours _ _ _ t 0 s e HB Ht Hy ltac:(lia) Hs) as (b & E & C & _).
  rewrite Z.mul_0_l, Z.add_0_r in E. unfold local_to_utc. rewrite E. cbn [rbind].
  rewrite add_hours_room by (auto; lia).
  unfold us_dst_bounds_utc. rewrite Es, Ee. cbn [rbind].
  assert (Hr : 1 <= s <= MAXORDINAL /\ 1 <= e <= MAXORDINAL).
  { pose proof (days_before_year_range (dt_year t) ltac:(lia)).
    pose proof (days_before_year_range (dt_year t + 1) ltac:(lia)). unfold inside, MAXORDINAL in *. lia. }
  destruct Hr as [Rs Re]. unfold datetime_. rewrite !ord2ymd_date by assumption. cbn [rbind Z.leb andb Z.compare].
  destruct (us_dst t) as [bb|] eqn:Ed; [|unfold utc_offset_hours in E; rewrite HB, Ed in E; discriminate].
  assert (Eb : b = if bb then 1 else 0).
  { unfold utc_offset_hours in E. rewrite HB, Ed in E. cbn [rbind] in E. injection E as E. lia. }
  eexists bb, _, _, _. split; [reflexivity|]. split; [reflexivity|]. split; [reflexivity|].
  assert (Hnot : hours_of t <> 24 * s + 2).
  { unfold hours_of. pose proof (dt_hour_range t). intros C'.
    apply (Hx s Es); [lia|]. lia. }
  rewrite hours_of_val in *.
  assert (HT : t = HOUR_US * (t / HOUR_US) + t mod HOUR_US) by (apply Z.div_mod; discriminate).
  pose proof (Z.mod_pos_bound t HOUR_US ltac:(reflexivity)).
  set (q := t / HOUR_US) in *. clearbody q. unfold inside in Hin.
  unfold DAY_US, HOUR_US in *. destruct bb; subst b; split; try discriminate; intros; try reflexivity; lia.
Qed.

Lemma us_dst_bounds_agree_witness :
  exists b u lo hi, us_dst (738733 * DAY_US) = Ok b
    /\ local_to_utc (738733 * DAY_US) "America/New_York" = Ok u
    /\ us_dst_bounds_utc (dt_year (738733 * DAY_US)) = Ok (lo, hi) /\ (b = true <-> lo <= u < hi).
Proof.
  apply (us_dst_bounds_agree (738733 * DAY_US)); [reflexivity| |].
  - vm_compute. split; discriminate.
  - intros s _ _. vm_compute. discriminate.
Defined.

(** In the hour before the switch the second pass of [utc_to_local] still
    misses: 06:30 UTC on 10 March 2024 is 01:30 in New York and 01:30 UTC on
    31 March 2024 is 02:30 in London, but the code answers 02:30 and 01:30,
    local times that do not exist on those days. *)
Theorem utc_to_local_misses_switch :
  let ny := 738954 * DAY_US + 6 * HOUR_US + 30 * 60000000 in
  let ldn := 738975 * DAY_US + 1 * HOUR_US + 30 * 60000000 in
  ord2ymd (dt_date ny) = (2024, 3, 10) /\ ord2ymd (dt_date ldn) = (2024, 3, 31)
  /\ local_to_utc (ny - 5 * HOUR_US) "America/New_York" = Ok ny
  /\ utc_to_local ny "America/New_York" = Ok (ny - 4 * HOUR_US)
  /\ local_to_utc (ldn + HOUR_US) "Europe/London" = Ok ldn
  /\ utc_to_local ldn "Europe/London" = Ok ldn.
Proof. vm_compute. repeat split. Qed.

(** * The fields of a date: ordinals and (year, month, day) correspond, in order. *)

Definition valid_ymd (y m d : Z) : Prop := 1 <= y <= 9999 /\ 1 <= m <= 12 /\ 1 <= d <= days_in_month y m.

Lemma months m : 1 <= m <= 12 ->
  m = 1 \/ m = 2 \/ m = 3 \/ m = 4 \/ m = 5 \/ m = 6 \/ m = 7 \/ m = 8 \/ m = 9 \/ m = 10 \/ m = 11 \/ m = 12.
Proof. lia. Qed.

(** A month begins where the month before ends. *)
Lemma month_step y m : 1 <= m <= 12 -> 28 <= days_in_month y m <= 31 /\
  days_before_month y m + days_in_month y m = if m =? 12 then (if is_leap y then 366 else 365) else days_before_month y (m + 1).
Proof.
  intros H. unfold days_before_month, days_in_month.
  destruct (months m H) as [->|[->|[->|[->|[->|[->|[->|[->|[->|[->|[->| ->]]]]]]]]]]]; destruct (is_leap y);
    (split; [split; vm_compute; discriminate|reflexivity]).
Qed.

Lemma month_order y m k : 1 <= m -> m + Z.of_nat k + 1 <= 12 -> days_before_month y m + days_in_month y m <= days_before_month y (m + 1 + Z.of_nat k).
Proof.
  intros Hm. induction k as [|k IH]; intros Hk.
  - destruct (month_step y m) as [_ ->]; [lia|]. rewrite (proj2 (Z.eqb_neq m 12)) by lia. replace (m + 1 + Z.of_nat 0) with (m + 1) by lia. lia.
  - destruct (month_step y (m + 1 + Z.of_nat k)) as [L E]; [lia|]. rewrite (proj2 (Z.eqb_neq _ 12)) in E by lia.
    replace (m + 1 + Z.of_nat (S k)) with (m + 1 + Z.of_nat k + 1) by lia. specialize (IH ltac:(lia)). lia.
Qed.

Lemma month_start y m : 1 <= m <= 12 -> 0 <= days_before_month y m.
Proof.
  intros Hm. destruct (Z.eq_dec m 1) as [->|]; [change (days_before_month y 1) with 0; lia|].
  pose proof (month_order y 1 (Z.to_nat (m - 2)) ltac:(lia) ltac:(lia)) as O. replace (1 + 1 + Z.of_nat (Z.to_nat (m - 2))) with m in O by lia.
  destruct (month_step y 1) as [? _]; [lia|]. change (days_before_month y 1) with 0 in O. lia.
Qed.

(** Dates of a later month are later. *)
Lemma date_order y m d y' m' d' : valid_ymd y m d -> valid_ymd y' m' d' -> 12 * y + m < 12 * y' + m' -> ymd2ord y m d < ymd2ord y' m' d'.
Proof.
  intros (Hy & Hm & Hd) (Hy' & Hm' & Hd') H. unfold ymd2ord. destruct (Z.eq_dec y y') as [->|Hne].
  - pose proof (month_order y' m (Z.to_nat (m' - m - 1)) ltac:(lia) ltac:(lia)) as O. replace (m + 1 + Z.of_nat (Z.to_nat (m' - m - 1))) with m' in O by lia. lia.
  - assert (Hlt : y < y') by lia. pose proof (days_before_year_mono (y + 1) y' ltac:(lia)). pose proof (year_length y).
    assert (Hend : days_before_month y m + days_in_month y m <= if is_leap y then 366 else 365).
    { destruct (Z.eq_dec m 12) as [->|]; [destruct (month_step y 12) as [_ ->]; [lia|reflexivity]|].
      pose proof (month_order y m (Z.to_nat (11 - m)) ltac:(lia) ltac:(lia)) as O. replace (m + 1 + Z.of_nat (Z.to_nat (11 - m))) with 12 in O by lia.
      destruct (month_step y 12) as [L E]; [lia|]. rewrite Z.eqb_refl in E. rewrite <- E. lia. }
    pose proof (month_start y' m' Hm'). lia.
Qed.

Lemma ymd_inj y m d y' m' d' : valid_ymd y m d -> valid_ymd y' m' d' -> ymd2ord y m d = ymd2ord y' m' d' -> y = y' /\ m = m' /\ d = d'.
Proof.
  intros V V' E. assert (H : 12 * y + m = 12 * y' + m').
  { destruct (Z.lt_trichotomy (12 * y + m) (12 * y' + m')) as [L|[L|L]]; [|exact L|].
    - pose proof (date_order _ _ _ _ _ _ V V' L). lia.
    - pose proof (date_order _ _ _ _ _ _ V' V L). lia. }
  destruct V as (? & ? & ?), V' as (? & ? & ?). assert (y = y') by lia. assert (m = m') by lia. subst. unfold ymd2ord in E. lia.
Qed.

Lemma fields_valid o : 1 <= o <= MAXORDINAL -> valid_ymd (date_year o) (date_month o) (date_day o) /\ ymd2ord (date_year o) (date_month o) (date_day o) = o.
Proof.
  intros H. pose proof (ord2ymd_date o H) as E. unfold date_ in E.
  destruct ((MINYEAR <=? date_year o) && (date_year o <=? MAXYEAR)) eqn:E1; cbn [negb] in E; [|discriminate].
  destruct ((1 <=? date_month o) && (date_month o <=? 12)) eqn:E2; cbn [negb] in E; [|discriminate].
  destruct ((1 <=? date_day o) && _) eqn:E3; cbn [negb] in E; [|discriminate]. injection E as E.
  rewrite andb_true_iff, !Z.leb_le in E1, E2, E3. split; [exact (conj E1 (conj E2 E3))|exact E].
Qed.

Lemma ymd_range y m d : valid_ymd y m d -> 1 <= ymd2ord y m d <= MAXORDINAL.
Proof.
  intros (Hy & Hm & Hd). pose proof (days_before_year_range y Hy) as Y.
  assert (valid : valid_ymd 9999 12 31) by (now vm_compute).
  destruct (Z.eq_dec (12 * y + m) (12 * 9999 + 12)) as [E|Ne].
  - assert (y = 9999 /\ m = 12) as [-> ->] by lia. unfold ymd2ord, MAXORDINAL. change (days_before_year 9999) with 3651694.
    change (days_before_month 9999 12) with 334. change (days_in_month 9999 12) with 31 in Hd. lia.
  - pose proof (date_order y m d 9999 12 31 (conj Hy (conj Hm Hd)) valid ltac:(lia)) as L. change (ymd2ord 9999 12 31) with MAXORDINAL in L.
    pose proof (month_start y m Hm). unfold ymd2ord in *. lia.
Qed.

Lemma fields_of y m d : valid_ymd y m d -> date_year (ymd2ord y m d) = y /\ date_month (ymd2ord y m d) = m /\ date_day (ymd2ord y m d) = d.
Proof. intros V. destruct (fields_valid _ (ymd_range _ _ _ V)) as [V' E]. exact (ymd_inj _ _ _ _ _ _ V' V E). Qed.
