(* ===== verification/PyFloat.v ===== *)
(** Binary floats where the program computes with them: the standard library's
    [SpecFloat] at double precision (as in [Calendar]), the float nearest to a
    decimal, [dec(round(x, n))] and [dec(x)], which take a float back to a
    decimal, the latter by the shortest digits that read back to it ([repr]). *)

From Stdlib Require Import ZArith QArith SpecFloat Lia Lqa.
From stdpp Require Import base.
From S2P Require Import Prelude PyDecimal DecimalTheory Calendar.

Local Open Scope Z_scope.

Definition fadd (x y : spec_float) : spec_float := SFadd fprec femax x y.
Definition fsub (x y : spec_float) : spec_float := SFsub fprec femax x y.

(** Mantissa with its sign, and exponent, of a finite float. *)
Definition mantissa (x : spec_float) : Z := match x with S754_finite s m _ => cond_Zopp s (Z.pos m) | _ => 0 end.
Definition exponent (x : spec_float) : Z := match x with S754_finite _ _ e => e | _ => 0 end.

(** [x < y], comparing the exact values. *)
Definition fltb (x y : spec_float) : bool :=
  match x, y with
  | S754_nan, _ | _, S754_nan => false
  | S754_infinity s, S754_infinity s' => s && negb s'
  | S754_infinity s, _ => s
  | _, S754_infinity s => negb s
  | _, _ => let e := Z.min (exponent x) (exponent y) in
            mantissa x * 2 ^ (exponent x - e) <? mantissa y * 2 ^ (exponent y - e)
  end.

(** An exact value as operands of the correctly rounded division below: it
    takes unnormalised mantissas. *)
Definition raw (z : Z) : spec_float :=
  match z with Z0 => S754_zero false | Zpos p => S754_finite false p 0 | Zneg p => S754_finite true p 0 end.

(** [float(d)], and the value of a float literal written as [d]. *)
Definition float_of_dec (d : decimal) : spec_float :=
  if 0 <=? expo d then float_of_Z (coef d * 10 ^ expo d) else fdiv (raw (coef d)) (raw (10 ^ (- expo d))).

(** [max(x, y)] and [min(x, y)] of floats: the first argument wins a tie. *)
Definition fmax (x y : spec_float) : spec_float := if fltb x y then y else x.
Definition fmin (x y : spec_float) : spec_float := if fltb y x then y else x.

(** The integer [k] with [round(x, n) = k / 10 ** n]: Python rounds the exact
    binary value, ties to even. *)
Definition round_digits (x : spec_float) (n : Z) : option Z :=
  match x with
  | S754_zero _ => Some 0
  | S754_finite s m e =>
      let v := if 0 <=? e then Z.pos m * 2 ^ e * 10 ^ n else half_even (Z.pos m * 10 ^ n) (2 ^ (- e)) in
      Some (cond_Zopp s v)
  | _ => None
  end.

(** [dec(round(x, n))]: the digits [repr] shows, which keep one place after the
    point; a float that is not finite raises.  The shortest representation is
    the rounded decimal itself while it has at most fifteen digits. *)
Definition dec_round (x : spec_float) (n : Z) : res decimal :=
  match round_digits x n with
  | Some k => Ok (strip_zeros (Z.to_nat n) k (- n) (-1))
  | None => Raise ValueError
  end.

(** [round(x, n)]; a float that is not finite is returned as it is. *)
Definition fround_to (x : spec_float) (n : Z) : spec_float :=
  match round_digits x n with Some k => float_of_dec (mkDec k (- n)) | None => x end.

(** ** [repr] *)

Definition feqb (x y : spec_float) : bool := SFeqb x y.
(** [x <= y]. *)
Definition fleb (x y : spec_float) : bool := fltb x y || feqb x y.
(** [round(x)]. *)
Definition py_round (x : spec_float) : res Z :=
  match x with S754_nan => Raise ValueError | S754_infinity _ => Raise OverflowError | _ => Ok (fround x) end.

(** The neighbours of the positive value [n / d] on the grid of [10 ^ g],
    the nearer first. *)
Definition grid_neighbours (n d g : Z) : list Z :=
  let a := if 0 <=? g then n else n * 10 ^ (- g) in
  let b := if 0 <=? g then d * 10 ^ g else d in
  let q := a / b in
  let r := a mod b in
  if r =? 0 then [q] else if 2 * r <=? b then [q; q + 1] else [q + 1; q].

(** The first grid, from the coarsest, with a neighbour that reads back to [x]. *)
Fixpoint shortest (fuel : nat) (x : spec_float) (n d g : Z) : option decimal :=
  match fuel with
  | O => None
  | S f =>
      match List.find (fun c => (0 <? c) && feqb (float_of_dec (mkDec c g)) x) (grid_neighbours n d g) with
      | Some c => Some (mkDec c g)
      | None => shortest f x n d (g - 1)
      end
  end.

(** The exponent [Decimal(repr(x))] has: a whole number below [10 ^ 16] is
    written with [.0]. *)
Definition repr_form (r : decimal) : decimal :=
  if (0 <=? expo r) && (adjusted r <? 16) then mkDec (coef r * 10 ^ (expo r + 1)) (-1) else r.

(** [Decimal(repr(x))]; every double needs at most 343 places after the point. *)
Definition repr_float (x : spec_float) : option decimal :=
  match x with
  | S754_zero _ => Some (mkDec 0 (-1))
  | S754_finite s m e =>
      let n := if 0 <=? e then Z.pos m * 2 ^ e else Z.pos m in
      let d := if 0 <=? e then 1 else 2 ^ (- e) in
      let top := if n <? d then 0 else ndigits (n / d) in
      match shortest (Z.to_nat (top + 344)) (S754_finite false m e) n d top with
      | Some r => Some (repr_form (if s then copy_negate r else r))
      | None => None
      end
  | _ => None
  end.

(** [dec(x)] of a float. *)
Definition dec_float (x : spec_float) : res decimal :=
  match repr_float x with Some d => Ok d | None => Raise ValueError end.

(** The float lies between [0.0] and [1.0]. *)
Definition unit_float (x : spec_float) : bool :=
  negb (fltb x (float_of_Z 0)) && negb (fltb (float_of_Z 1) x)
  && match x with S754_nan => false | _ => true end.

Lemma shortest_spec fuel x n d : forall g r,
  shortest fuel x n d g = Some r ->
  0 < coef r /\ feqb (float_of_dec r) x = true /\ expo r <= g /\ coef r ∈ grid_neighbours n d (expo r).
Proof.
  induction fuel as [|f IH]; intros g r; cbn [shortest]; [discriminate|].
  destruct (List.find _ _) as [c|] eqn:E.
  - apply List.find_some in E as [Hin [Hc Hf]%andb_true_iff]. intros [= <-]. cbn [coef expo].
    apply Z.ltb_lt in Hc. apply list_elem_of_In in Hin. auto with lia.
  - intros H. apply IH in H. intuition lia.
Qed.

Lemma grid_neighbours_le n d g c :
  0 <= n <= d -> 0 < d -> g <= 0 -> c ∈ grid_neighbours n d g -> c <= 10 ^ (- g).
Proof.
  intros Hn Hd Hg. unfold grid_neighbours.
  assert (Hp : 0 < 10 ^ (- g)) by (apply Z.pow_pos_nonneg; lia).
  assert (Ea : (if 0 <=? g then n else n * 10 ^ (- g)) = n * 10 ^ (- g))
    by (destruct (Z.leb_spec 0 g); [replace g with 0 by lia; cbn; lia|reflexivity]).
  assert (Eb : (if 0 <=? g then d * 10 ^ g else d) = d)
    by (destruct (Z.leb_spec 0 g); [replace g with 0 by lia; cbn; lia|reflexivity]).
  rewrite Ea, Eb. cbv zeta. set (p := 10 ^ (- g)) in *.
  pose proof (Z.div_mod (n * p) d ltac:(lia)) as H. pose proof (Z.mod_pos_bound (n * p) d Hd) as Hr.
  set (q := n * p / d) in *. set (r := (n * p) mod d) in *.
  assert (H1 : q <= p) by nia.
  destruct (Z.eqb_spec r 0) as [E|E]; [intros Hc; apply list_elem_of_singleton in Hc; lia|].
  assert (H2 : q + 1 <= p) by nia.
  destruct (2 * r <=? d); rewrite !elem_of_cons; set_solver by lia.
Qed.

Lemma repr_form_val r : (dval (repr_form r) == dval r)%Q.
Proof.
  unfold repr_form. destruct (_ && _) eqn:Eb; [|reflexivity].
  apply andb_true_iff in Eb as [Eb _]. apply Z.leb_le in Eb. destruct r as [c g]. cbn [coef expo] in *.
  rewrite !dval_mk, inject_Z_mult, <- p10_Z, <- Qmult_assoc, <- p10_add by lia.
  now replace (g + 1 + -1) with g by lia.
Qed.

(** A float between [0.0] and [1.0] is printed as a decimal between 0 and 1. *)
Lemma dec_float_unit x d : unit_float x = true -> dec_float x = Ok d -> (0 <= dval d /\ dval d <= 1)%Q.
Proof.
  unfold unit_float, dec_float. intros [[H0 H1]%andb_true_iff Hn]%andb_true_iff.
  apply negb_true_iff in H0, H1. destruct x as [s|s| |s m e]; try discriminate.
  { intros [= <-]. split; discriminate. }
  unfold fltb in H0, H1. cbn [mantissa exponent] in H0, H1.
  destruct s; [apply Z.ltb_ge in H0; cbn in H0; exfalso; nia|].
  unfold repr_float. set (n := if 0 <=? e then Z.pos m * 2 ^ e else Z.pos m).
  set (d0 := if 0 <=? e then 1 else 2 ^ (- e)).
  assert (Hd : 0 < d0) by (unfold d0; destruct (Z.leb_spec 0 e); [lia|apply Z.pow_pos_nonneg; lia]).
  assert (Hle : 0 <= n <= d0).
  { split; [unfold n; destruct (0 <=? e); lia|]. apply Z.ltb_ge in H1.
    change (mantissa (float_of_Z 1)) with (2 ^ 52) in H1. change (exponent (float_of_Z 1)) with (-52) in H1.
    unfold n, d0. destruct (Z.leb_spec 0 e) as [He|He].
    - rewrite Z.min_l in H1 by lia. replace (e - -52) with (e + 52) in H1 by lia.
      rewrite Z.pow_add_r in H1 by lia. change (-52 - -52) with 0 in H1.
      apply (Z.mul_le_mono_pos_r _ _ (2 ^ 52)); [reflexivity|]. rewrite <- Z.mul_assoc. exact H1.
    - destruct (Z.le_gt_cases e (-52)) as [Hs|Hs].
      + rewrite Z.min_r in H1 by lia. rewrite Z.sub_diag, Z.mul_1_r in H1.
        rewrite <- Z.pow_add_r in H1 by lia. now replace (52 + (-52 - e)) with (- e) in H1 by lia.
      + rewrite Z.min_l in H1 by lia. replace (e - -52) with (52 + e) in H1 by lia.
        change (-52 - -52) with 0 in H1. rewrite Z.mul_1_r in H1.
        replace (2 ^ 52) with (2 ^ (- e) * 2 ^ (52 + e)) in H1 by (rewrite <- Z.pow_add_r by lia; f_equal; lia).
        apply (Z.mul_le_mono_pos_r _ _ (2 ^ (52 + e))); [apply Z.pow_pos_nonneg; lia|exact H1]. }
  cbv zeta. set (top := if n <? d0 then 0 else ndigits (n / d0)).
  destruct (shortest _ _ _ _ _) as [r|] eqn:E; [|discriminate]. intros [= <-].
  apply shortest_spec in E as (Hc & Hf & Hg & Hin).
  assert (Hr : (0 <= dval r /\ dval r <= 1)%Q).
  { destruct r as [c g]. cbn [coef expo] in *. rewrite dval_mk. pose proof (p10_pos g) as Hp.
    assert (Hcq : (0 < inject_Z c)%Q) by now apply (inject_Z_lt 0).
    split; [apply Qmult_le_0_compat; lra|].
    destruct (Z.le_gt_cases g 0) as [Hg0|Hg0].
    - apply grid_neighbours_le in Hin; [|exact Hle|exact Hd|exact Hg0].
      apply Qle_trans with (inject_Z (10 ^ (- g)) * p10 g)%Q.
      + apply Qmult_le_compat_r; [now rewrite <- Zle_Qle|lra].
      + rewrite <- p10_Z, <- p10_add by lia. replace (- g + g) with 0 by lia. discriminate.
    - exfalso. assert (Et : g = 1).
      { unfold top in Hg. destruct (Z.ltb_spec n d0); [lia|]. replace n with d0 in Hg by lia.
        rewrite Z.div_same in Hg by lia. change (ndigits 1) with 1 in Hg. lia. }
      subst g. assert (Ec : c = 1).
      { unfold grid_neighbours in Hin. change (0 <=? 1) with true in Hin. cbv iota zeta in Hin.
        rewrite (Z.div_small n (d0 * 10 ^ 1)), (Z.mod_small n (d0 * 10 ^ 1)) in Hin by lia.
        assert (c = 0 \/ c = 1); [|lia]. clear - Hin. clearbody n d0.
        destruct (n =? 0); [|destruct (_ <=? _)]; apply list_elem_of_In in Hin; cbn in Hin; lia. }
      subst c.
      assert (Em : m = 5629499534213120%positive /\ e = (-49)).
      { unfold feqb, SFeqb in Hf. change (float_of_dec (mkDec 1 1)) with (S754_finite false 5629499534213120 (-49)) in Hf.
        revert Hf. cbn [SFcompare]. destruct (Z.compare_spec (-49) e) as [<-| |]; try discriminate.
        destruct (Pos.compare_cont Eq 5629499534213120 m) eqn:Em; try discriminate.
        apply Pos.compare_eq in Em. now subst m. }
      destruct Em as [-> ->]. vm_compute in Hle. destruct Hle as [_ Hle]. now apply Hle. }
  now rewrite repr_form_val.
Qed.

(** A float that is not above [1.0] is printed as a decimal of at most 1. *)
Lemma dec_float_le_one x d : fltb (float_of_Z 1) x = false -> dec_float x = Ok d -> (dval d <= 1)%Q.
Proof.
  intros H1 H. destruct (fltb x (float_of_Z 0)) eqn:H0.
  - destruct x as [s|s| |s m e]; try discriminate.
    destruct s; [|unfold fltb in H0; cbn [mantissa exponent cond_Zopp] in H0; apply Z.ltb_lt in H0; cbn in H0;
                  pose proof (Z.pow_nonneg 2 (e - Z.min e 0)); exfalso; nia].
    unfold dec_float, repr_float in H. destruct (shortest _ _ _ _ _) as [r|] eqn:E; [|discriminate].
    injection H as <-. apply shortest_spec in E as (Hc & _).
    assert (Hneg : (dval (copy_negate r) <= 0)%Q).
    { destruct r as [c g]. unfold copy_negate. cbn [coef expo] in *. rewrite dval_mk. pose proof (p10_pos g).
      assert (inject_Z (- c) <= 0)%Q by (apply (inject_Z_le _ 0); lia). nra. }
    rewrite repr_form_val. lra.
  - apply (dec_float_unit x d); [|exact H]. unfold unit_float. rewrite H0, H1. now destruct x.
Qed.

(** The clamp of a multiplier. *)
Lemma clamp_unit x : fltb (float_of_Z 1) (fmax (float_of_Z 0) (fmin (float_of_Z 1) x)) = false.
Proof.
  unfold fmin. destruct (fltb x (float_of_Z 1)) eqn:E; [|reflexivity].
  unfold fmax. destruct (fltb (float_of_Z 0) x); [|reflexivity].
  destruct x as [s|s| |s m e]; try reflexivity; try discriminate.
  - now destruct s.
  - unfold fltb in *. cbn [mantissa exponent] in *. rewrite Z.min_comm. apply Z.ltb_ge. apply Z.ltb_lt in E. lia.
Qed.

(** A float below one that is not above [1.0] is not above it either. *)
Lemma fltb_below_one x y :
  fltb (float_of_Z 1) x = false -> fltb y x = true -> fltb (float_of_Z 1) y = false.
Proof.
  intros Hx Hy. destruct x as [sx|sx| |sx mx ex], y as [sy|sy| |sy my ey]; try reflexivity; try discriminate;
    try (destruct sx; discriminate); try (destruct sy; (reflexivity || discriminate)); try (destruct sx, sy; discriminate).
  - unfold fltb in *. cbn [mantissa exponent] in *. apply Z.ltb_ge. apply Z.ltb_lt in Hy. cbn [Z.mul] in Hy.
    assert (0 < 2 ^ (ey - Z.min ey 0)) by (apply Z.pow_pos_nonneg; lia).
    assert (cond_Zopp sy (Z.pos my) < 0) by nia.
    assert (0 <= 2 ^ (ey - Z.min (exponent (float_of_Z 1)) ey)) by (apply Z.pow_nonneg; lia).
    assert (0 <= mantissa (float_of_Z 1) * 2 ^ (exponent (float_of_Z 1) - Z.min (exponent (float_of_Z 1)) ey))
      by (apply Z.mul_nonneg_nonneg; [discriminate|apply Z.pow_nonneg; lia]).
    nia.
  - unfold fltb in *. cbn [mantissa exponent] in *. set (u := mantissa (float_of_Z 1)) in *.
    set (v := exponent (float_of_Z 1)) in *. apply Z.ltb_ge. apply Z.ltb_ge in Hx. apply Z.ltb_lt in Hy.
    set (a := cond_Zopp sx (Z.pos mx)) in *. set (b := cond_Zopp sy (Z.pos my)) in *. clearbody a b u v.
    set (k := Z.min v (Z.min ex ey)).
    assert (S : forall m e f, k <= f <= e -> m * 2 ^ (e - k) = m * 2 ^ (e - f) * 2 ^ (f - k)).
    { intros m e f Hf. rewrite <- Z.mul_assoc, <- Z.pow_add_r by lia. do 2 f_equal. lia. }
    assert (P : forall f, 0 < 2 ^ (f - k) \/ f < k) by (intros f; destruct (Z.lt_ge_cases f k); [now right|left; apply Z.pow_pos_nonneg; lia]).
    apply (Z.mul_le_mono_pos_r _ _ (2 ^ (Z.min v ey - k))); [destruct (P (Z.min v ey)); lia|].
    rewrite <- !S by lia.
    apply (Z.mul_le_mono_nonneg_r _ _ (2 ^ (Z.min v ex - k))) in Hx; [|apply Z.pow_nonneg; lia].
    rewrite <- !S in Hx by lia.
    apply (Z.mul_lt_mono_pos_r (2 ^ (Z.min ey ex - k))) in Hy; [|destruct (P (Z.min ey ex)); lia].
    rewrite <- !S in Hy by lia. lia.
Qed.

Lemma fmin_below_one x y :
  fltb (float_of_Z 1) x = false -> fltb (float_of_Z 1) (fmin x y) = false.
Proof. intros H. unfold fmin. destruct (fltb y x) eqn:E; [now apply (fltb_below_one x y)|exact H]. Qed.

Example float_literal : float_of_dec 0.07%dec = S754_finite false 5044031582654956 (-56).
Proof. reflexivity. Qed.
Example dec_round_half : dec_round (float_of_dec 0.5%dec) 5 = Ok 0.5%dec.
Proof. reflexivity. Qed.
Example dec_round_digits : dec_round (float_of_dec 0.1234567%dec) 5 = Ok 0.12346%dec.
Proof. reflexivity. Qed.
Example dec_round_whole : dec_round (float_of_dec 3%dec) 5 = Ok 3.0%dec.
Proof. reflexivity. Qed.
Example repr_tenth : dec_float (float_of_dec 0.1%dec) = Ok 0.1%dec.
Proof. vm_compute. reflexivity. Qed.
Example repr_sum : dec_float (fadd (float_of_dec 0.1%dec) (float_of_dec 0.2%dec)) = Ok 0.30000000000000004%dec.
Proof. vm_compute. reflexivity. Qed.
Example repr_whole : dec_float (float_of_Z 86400) = Ok 86400.0%dec.
Proof. vm_compute. reflexivity. Qed.
Example repr_large : dec_float (float_of_Z (10 ^ 23)) = Ok (mkDec 1 23).
Proof. vm_compute. reflexivity. Qed.
Example repr_small : dec_float (float_of_dec (mkDec (-15) (-8))) = Ok (mkDec (-15) (-8)).
Proof. vm_compute. reflexivity. Qed.
