(* ===== verification/PyText.v ===== *)
(** The text of decimals and integers: [str(x)], as the program writes amounts
    into its state file and journal, and [Decimal(text)] and [int(text)], as it
    reads them back.  Reading covers the numerals (sign, digits, point,
    exponent); surrounding blanks, underscores between digits and the names of
    special values are not read. *)

From Stdlib Require Import ZArith Lia Ascii String.
From stdpp Require Import base list strings.
From S2P Require Import Prelude PyDecimal.

Local Open Scope Z_scope.

(** ** Digits *)

Fixpoint digits_fuel (fuel : nat) (n : Z) (acc : list Z) : list Z :=
  match fuel with
  | O => acc
  | S f => if n <? 10 then n :: acc else digits_fuel f (n / 10) (n mod 10 :: acc)
  end.

(** The digits of a non-negative integer, most significant first. *)
Definition digits (n : Z) : list Z := digits_fuel (S (Z.to_nat (Z.log2 n))) n [].

Definition value (ds : list Z) : Z := fold_left (fun a d => 10 * a + d) ds 0.

Definition digit_char (d : Z) : ascii := ascii_of_nat (48 + Z.to_nat d).
Definition char_digit (c : ascii) : option Z :=
  let d := Z.of_nat (nat_of_ascii c) - 48 in
  if (0 <=? d) && (d <=? 9) then Some d else None.

Definition is_digit (d : Z) : Prop := 0 <= d <= 9.

(** ** Printing *)

Definition sign_text (neg : bool) : list ascii := if neg then ["-"%char] else [].

(** ["%+d"]. *)
Definition exponent_text (e : Z) : list ascii :=
  "E"%char :: (if e <? 0 then "-"%char else "+"%char) :: map digit_char (digits (Z.abs e)).

(** Where [Decimal.__str__] puts the point, counted from the left. *)
Definition dot_place (e left : Z) : Z := if (e <=? 0) && (-6 <? left) then left else 1.

(** The digits before and after the point. *)
Definition int_frac (ds : list Z) (place : Z) : list Z * list Z :=
  let n := Z.of_nat (length ds) in
  if place <=? 0 then ([0], repeat 0 (Z.to_nat (- place)) ++ ds)
  else if n <=? place then (ds ++ repeat 0 (Z.to_nat (place - n)), [])
  else (take (Z.to_nat place) ds, drop (Z.to_nat place) ds).

Definition chars (neg : bool) (ip fp : list Z) (e : option Z) : list ascii :=
  sign_text neg ++ map digit_char ip ++ (match fp with [] => [] | _ => "."%char :: map digit_char fp end)
  ++ match e with Some e => exponent_text e | None => [] end.

(** [Decimal.__str__]. *)
Definition decimal_chars (d : decimal) : list ascii :=
  let ds := digits (Z.abs (coef d)) in
  let left := expo d + Z.of_nat (length ds) in
  let place := dot_place (expo d) left in
  let (ip, fp) := int_frac ds place in
  chars (coef d <? 0) ip fp (if left =? place then None else Some (left - place)).

Definition str_of_decimal (d : decimal) : string := string_of_list_ascii (decimal_chars d).

(** ** Reading *)

Fixpoint span_digits (l : list ascii) : list Z * list ascii :=
  match l with
  | [] => ([], [])
  | c :: rest => match char_digit c with
                 | Some d => let (ds, l') := span_digits rest in (d :: ds, l')
                 | None => ([], l)
                 end
  end.

Definition read_sign (l : list ascii) : bool * list ascii :=
  match l with
  | "-"%char :: rest => (true, rest)
  | "+"%char :: rest => (false, rest)
  | _ => (false, l)
  end.

Definition apply_sign (neg : bool) (z : Z) : Z := if neg then - z else z.

(** The exponent, to the end of the text. *)
Definition read_exponent (l : list ascii) : option Z :=
  match l with
  | [] => Some 0
  | c :: rest =>
      if bool_decide (c = "E"%char) || bool_decide (c = "e"%char) then
        let (neg, rest) := read_sign rest in
        match span_digits rest with
        | (d :: ds, []) => Some (apply_sign neg (value (d :: ds)))
        | _ => None
        end
      else None
  end.

(** The digits after the point, if there is one. *)
Definition read_fraction (l : list ascii) : list Z * list ascii :=
  match l with "."%char :: rest => span_digits rest | _ => ([], l) end.

Definition read_chars (l : list ascii) : option decimal :=
  let (neg, l) := read_sign l in
  let (ip, l) := span_digits l in
  let (fp, l) := read_fraction l in
  match ip ++ fp with
  | [] => None
  | ds => match read_exponent l with
          | Some e => Some (mkDec (apply_sign neg (value ds)) (e - Z.of_nat (length fp)))
          | None => None
          end
  end.

(** [Decimal(text)]. *)
Definition decimal_of_str (text : string) : option decimal := read_chars (list_ascii_of_string text).

(** ** Integers *)

(** [str(z)]. *)
Definition str_of_int (z : Z) : string :=
  string_of_list_ascii (sign_text (z <? 0) ++ map digit_char (digits (Z.abs z))).

(** [int(text)]. *)
Definition int_of_str (text : string) : option Z :=
  let (neg, l) := read_sign (list_ascii_of_string text) in
  match span_digits l with
  | (d :: ds, []) => Some (apply_sign neg (value (d :: ds)))
  | _ => None
  end.

(** [dec(text)]. *)
Definition dec_str (text : string) : res decimal :=
  match decimal_of_str text with Some d => Ok d | None => Raise ValueError end.

(** ** Reading what was printed *)

Lemma value_app xs ys : value (xs ++ ys) = value xs * 10 ^ Z.of_nat (length ys) + value ys.
Proof.
  unfold value. rewrite fold_left_app. generalize (fold_left (fun a d => 10 * a + d) xs 0). intros a.
  revert a. induction ys as [|y ys IH]; intros a; cbn [fold_left length]; [cbn; lia|].
  rewrite IH, (IH (10 * 0 + y)). rewrite Nat2Z.inj_succ, Z.pow_succ_r by lia. lia.
Qed.

Lemma digits_fuel_spec fuel : forall n acc, 0 <= n < 10 ^ Z.of_nat fuel -> (fuel <> 0)%nat -> Forall is_digit acc ->
  value (digits_fuel fuel n acc) = n * 10 ^ Z.of_nat (length acc) + value acc /\
  Forall is_digit (digits_fuel fuel n acc) /\ digits_fuel fuel n acc <> [].
Proof.
  induction fuel as [|fuel IH]; intros n acc Hn Hf Hacc; [easy|]. cbn [digits_fuel].
  destruct (Z.ltb_spec n 10) as [Hlt|Hge].
  - split; [|split; [constructor; [unfold is_digit; lia|exact Hacc]|discriminate]].
    change (n :: acc) with ([n] ++ acc). rewrite value_app. cbn. lia.
  - destruct (IH (n / 10) (n mod 10 :: acc)) as (Hv & Hd & Hne).
    + rewrite Nat2Z.inj_succ, Z.pow_succ_r in Hn by lia. split; [apply Z.div_pos; lia|apply Z.div_lt_upper_bound; lia].
    + intros ->. cbn in Hn. lia.
    + constructor; [|exact Hacc]. pose proof (Z.mod_pos_bound n 10 ltac:(lia)). unfold is_digit. lia.
    + split; [|auto]. rewrite Hv. change (n mod 10 :: acc) with ([n mod 10] ++ acc). rewrite value_app, length_app.
      cbn [length]. rewrite Nat2Z.inj_add. change (Z.of_nat 1) with 1. rewrite Z.pow_add_r by lia.
      pose proof (Z.div_mod n 10 ltac:(lia)). change (value [n mod 10]) with (10 * 0 + n mod 10). nia.
Qed.

Lemma digits_spec n : 0 <= n -> value (digits n) = n /\ Forall is_digit (digits n) /\ digits n <> [].
Proof.
  intros Hn. destruct (digits_fuel_spec (S (Z.to_nat (Z.log2 n))) n []) as (Hv & Hd & Hne); [|easy|constructor|].
  - split; [exact Hn|]. rewrite Nat2Z.inj_succ, Z2Nat.id by apply Z.log2_nonneg.
    destruct (Z.eq_dec n 0) as [->|Hne]; [reflexivity|].
    pose proof (Z.log2_spec n ltac:(lia)) as [_ H]. eapply Z.lt_le_trans; [exact H|].
    apply Z.pow_le_mono_l. lia.
  - unfold digits. rewrite Hv. cbn. split; [lia|auto].
Qed.

Lemma char_digit_char d : is_digit d -> char_digit (digit_char d) = Some d.
Proof.
  intros Hd. unfold is_digit in Hd.
  assert (E : d = 0 \/ d = 1 \/ d = 2 \/ d = 3 \/ d = 4 \/ d = 5 \/ d = 6 \/ d = 7 \/ d = 8 \/ d = 9) by lia.
  destruct E as [->|[->|[->|[->|[->|[->|[->|[->|[->| ->]]]]]]]]]; reflexivity.
Qed.

Definition no_digit (l : list ascii) : Prop := match l with [] => True | c :: _ => char_digit c = None end.

Lemma span_digits_app ds l : Forall is_digit ds -> no_digit l -> span_digits (map digit_char ds ++ l) = (ds, l).
Proof.
  intros Hds Hl. induction Hds as [|d ds Hd _ IH]; cbn [map app span_digits].
  - destruct l as [|c l]; [reflexivity|]. cbn in Hl. cbn [span_digits]. now rewrite Hl.
  - now rewrite (char_digit_char d Hd), IH.
Qed.

(** A digit is no sign and no point. *)
Lemma read_sign_digits ds l : Forall is_digit ds -> ds <> [] -> read_sign (map digit_char ds ++ l) = (false, map digit_char ds ++ l).
Proof.
  intros Hds Hne. destruct Hds as [|d ds Hd _]; [easy|]. cbn [map app]. generalize (map digit_char ds ++ l).
  intros t. pose proof (char_digit_char d Hd) as E. destruct (digit_char d) as [[] [] [] [] [] [] [] []];
    first [reflexivity|discriminate E].
Qed.

Lemma read_sign_text neg ds l :
  Forall is_digit ds -> ds <> [] -> read_sign (sign_text neg ++ map digit_char ds ++ l) = (neg, map digit_char ds ++ l).
Proof. intros Hds Hne. destruct neg; [reflexivity|]. now apply read_sign_digits. Qed.

Lemma read_exponent_text e : read_exponent (exponent_text e) = Some e.
Proof.
  unfold exponent_text. cbn [read_exponent]. change (bool_decide ("E"%char = "E"%char)) with true. cbn [orb].
  destruct (digits_spec (Z.abs e) ltac:(lia)) as (Hv & Hd & Hne).
  pose proof (span_digits_app (digits (Z.abs e)) [] Hd I) as Hs. rewrite app_nil_r in Hs.
  destruct (digits (Z.abs e)) as [|d ds]; [congruence|]. destruct (Z.ltb_spec e 0) as [He|He].
  - change (read_sign ("-"%char :: map digit_char (d :: ds))) with (true, map digit_char (d :: ds)). cbv iota beta.
    rewrite Hs, Hv. unfold apply_sign. f_equal. lia.
  - change (read_sign ("+"%char :: map digit_char (d :: ds))) with (false, map digit_char (d :: ds)). cbv iota beta.
    rewrite Hs, Hv. unfold apply_sign. f_equal. lia.
Qed.

Lemma no_digit_exponent e : no_digit (match e with Some e => exponent_text e | None => [] end).
Proof. now destruct e. Qed.

Lemma read_written neg ip fp e :
  Forall is_digit ip -> ip <> [] -> Forall is_digit fp ->
  read_chars (chars neg ip fp e) =
    Some (mkDec (apply_sign neg (value (ip ++ fp))) (default 0 e - Z.of_nat (length fp))).
Proof.
  intros Hip Hne Hfp. unfold read_chars, chars. rewrite read_sign_text by assumption.
  assert (He : read_exponent (match e with Some e => exponent_text e | None => [] end) = Some (default 0 e))
    by (destruct e; [apply read_exponent_text|reflexivity]).
  destruct fp as [|f fp].
  - cbn [app]. rewrite span_digits_app by (assumption || apply no_digit_exponent).
    assert (Hdot : read_fraction (match e with Some e => exponent_text e | None => [] end)
                   = ([], match e with Some e => exponent_text e | None => [] end)) by now destruct e.
    rewrite Hdot. rewrite app_nil_r. destruct ip; [easy|]. now rewrite He.
  - cbn [app]. rewrite span_digits_app by (assumption || reflexivity). cbn [app].
    match goal with |- context [read_fraction ("."%char :: ?l)] => change (read_fraction ("."%char :: l)) with (span_digits l) end.
    change (digit_char f :: map digit_char fp ++ ?l) with (map digit_char (f :: fp) ++ l).
    rewrite span_digits_app by (assumption || apply no_digit_exponent).
    destruct ip as [|i ip]; [easy|]. cbn [app]. now rewrite He.
Qed.

Lemma zeros_spec n : Forall is_digit (repeat 0 n) /\ value (repeat 0 n) = 0.
Proof.
  induction n as [|n [IH1 IH2]]; [now split|]. split; [constructor; [unfold is_digit; lia|exact IH1]|].
  change (repeat 0 (S n)) with ([0] ++ repeat 0 n). rewrite value_app, IH2. reflexivity.
Qed.

(** The digits keep their value wherever the point falls. *)
Lemma int_frac_spec ds place :
  Forall is_digit ds -> ds <> [] -> place <= Z.of_nat (length ds) ->
  let (ip, fp) := int_frac ds place in
  Forall is_digit ip /\ ip <> [] /\ Forall is_digit fp /\ value (ip ++ fp) = value ds /\
  Z.of_nat (length fp) = Z.of_nat (length ds) - place.
Proof.
  intros Hds Hne Hp. unfold int_frac. destruct (Z.leb_spec place 0) as [H0|H0].
  - destruct (zeros_spec (Z.to_nat (- place))) as [Hz Hzv].
    split; [constructor; [unfold is_digit; lia|constructor]|]. split; [easy|].
    split; [apply List.Forall_app; auto|]. split.
    + change ([0] ++ repeat 0 (Z.to_nat (- place)) ++ ds) with (repeat 0 (S (Z.to_nat (- place))) ++ ds).
      rewrite value_app. rewrite (proj2 (zeros_spec (S (Z.to_nat (- place))))). lia.
    + rewrite length_app, repeat_length. lia.
  - destruct (Z.leb_spec (Z.of_nat (length ds)) place) as [H1|H1].
    + replace (Z.to_nat (place - Z.of_nat (length ds))) with O by lia. cbn [repeat]. rewrite !app_nil_r.
      repeat (split; [assumption || constructor|]). cbn. lia.
    + split; [now apply Forall_take|]. split.
      * destruct ds as [|d ds]; [easy|]. destruct (Z.to_nat place) as [|n] eqn:En; [lia|]. discriminate.
      * split; [now apply Forall_drop|]. rewrite take_drop. split; [reflexivity|]. rewrite length_drop. lia.
Qed.

(** Reading the text of a decimal gives back the decimal, exponent included:
    also [1.10] stays distinct from [1.1]. *)
Theorem decimal_text_round_trip (d : decimal) : decimal_of_str (str_of_decimal d) = Some d.
Proof.
  unfold decimal_of_str, str_of_decimal. rewrite list_ascii_of_string_of_list_ascii. unfold decimal_chars.
  destruct (digits_spec (Z.abs (coef d)) ltac:(lia)) as (Hv & Hd & Hne). set (ds := digits (Z.abs (coef d))) in *.
  set (left := expo d + Z.of_nat (length ds)). set (place := dot_place (expo d) left).
  assert (Hn : 1 <= Z.of_nat (length ds)) by (destruct ds; [easy|cbn; lia]).
  assert (Hp : place <= Z.of_nat (length ds)).
  { unfold place, dot_place. destruct (Z.leb_spec (expo d) 0), (Z.ltb_spec (-6) left); cbn [andb]; lia. }
  assert (Hleft : left = expo d + Z.of_nat (length ds)) by reflexivity. clearbody place left.
  pose proof (int_frac_spec ds place Hd Hne Hp) as H. destruct (int_frac ds place) as [ip fp].
  destruct H as (Hi & Hine & Hf & Hval & Hlen). rewrite read_written by assumption. rewrite Hval, Hv, Hlen.
  destruct d as [c e]. cbn [coef expo] in *. f_equal. f_equal.
  - unfold apply_sign. destruct (Z.ltb_spec c 0); lia.
  - destruct (Z.eqb_spec left place) as [E|E]; cbn [default id]; unfold id; lia.
Qed.

Lemma dec_str_of_decimal d : dec_str (str_of_decimal d) = Ok d.
Proof. unfold dec_str. now rewrite decimal_text_round_trip. Qed.

Lemma int_text_round_trip z : int_of_str (str_of_int z) = Some z.
Proof.
  unfold int_of_str, str_of_int. rewrite list_ascii_of_string_of_list_ascii.
  destruct (digits_spec (Z.abs z) ltac:(lia)) as (Hv & Hd & Hne).
  pose proof (read_sign_text (z <? 0) _ [] Hd Hne) as Hs. rewrite app_nil_r in Hs. rewrite Hs.
  pose proof (span_digits_app (digits (Z.abs z)) [] Hd I) as Hsp. rewrite app_nil_r in Hsp. rewrite Hsp.
  destruct (digits (Z.abs z)) as [|d ds]; [congruence|]. rewrite Hv. unfold apply_sign.
  destruct (Z.ltb_spec z 0); f_equal; lia.
Qed.

(** The text of a decimal is never empty. *)
Lemma str_of_decimal_nonempty d : str_of_decimal d <> EmptyString.
Proof. intros E. pose proof (decimal_text_round_trip d) as H. now rewrite E in H. Qed.

Lemma str_of_int_nonempty z : str_of_int z <> EmptyString.
Proof. intros E. pose proof (int_text_round_trip z) as H. now rewrite E in H. Qed.

Example str_plain : str_of_decimal 0.00012%dec = "0.00012"%string.
Proof. reflexivity. Qed.
Example str_whole : str_of_decimal 1000%dec = "1000"%string.
Proof. reflexivity. Qed.
Example str_scientific : str_of_decimal (mkDec (-123) (-12)) = "-1.23E-10"%string.
Proof. reflexivity. Qed.

(** * The methods of [str] the program uses, on ASCII texts. *)

Definition on_chars (f : ascii -> bool) (s : string) : string :=
  string_of_list_ascii (List.filter f (list_ascii_of_string s)).
Definition in_range (a b : nat) (c : ascii) : bool := Nat.leb a (nat_of_ascii c) && Nat.leb (nat_of_ascii c) b.
Definition is_alpha (c : ascii) : bool := in_range 65 90 c || in_range 97 122 c.
Definition is_alnum (c : ascii) : bool := is_alpha c || in_range 48 57 c.
Definition is_space (c : ascii) : bool := in_range 9 13 c || in_range 28 32 c.
Definition one_of (chars : string) (c : ascii) : bool := bool_decide (c ∈ list_ascii_of_string chars).

(** [str.lower] on ASCII letters. *)
Definition lower (s : string) : string :=
  string_of_list_ascii (map (fun c => if in_range 65 90 c then ascii_of_nat (nat_of_ascii c + 32) else c)
                          (list_ascii_of_string s)).

Fixpoint drop_while (f : ascii -> bool) (cs : list ascii) : list ascii :=
  match cs with [] => [] | c :: rest => if f c then drop_while f rest else cs end.
Definition rstrip (f : ascii -> bool) (s : string) : string :=
  string_of_list_ascii (rev (drop_while f (rev (list_ascii_of_string s)))).
Definition strip (s : string) : string :=
  rstrip is_space (string_of_list_ascii (drop_while is_space (list_ascii_of_string s))).
(** [sub in s]. *)
Definition contains (sub s : string) : bool :=
  match String.index 0 sub s with Some _ => true | None => false end.
