(* ===== verification/Risk.v ===== *)
(** [sentinel/risk/engine.py]: the risk engine.  [evaluate_entry] is the
    composition of its numbered blocks, one definition each, in the order of the
    source; every block returns the vetoes (and warnings) it appends.  A veto
    keeps its rule name and severity; its message, the observed and limit
    strings and the diagnostics dictionary are presentation.  Floats that are
    only compared or handed to [dec] are the decimals of their [repr]; an age of
    [None] is the infinite one. *)

From Stdlib Require Import ZArith QArith Qabs Lia Lqa.
From stdpp Require Import base gmap strings list.
From S2P Require Import Prelude PyDecimal DecimalTheory Money Types Config Sizing Exposure Stress Calendar.

Local Open Scope dec_scope.
Local Open Scope py_scope.

Inductive Severity := BLOCK | HALT | WARN.
#[export] Instance Severity_eq_dec : EqDecision Severity.
Proof. solve_decision. Defined.

Record Veto := mkVeto { v_rule : string; v_severity : Severity }.
#[export] Instance Veto_eq_dec : EqDecision Veto.
Proof. solve_decision. Defined.

(** [vetoes.append(Veto(rule, ...))] under a condition. *)
Definition veto_when (b : bool) (rule : string) : list Veto := if b then [mkVeto rule BLOCK] else [].
Definition warn_when (b : bool) (rule : string) : list Veto := if b then [mkVeto rule WARN] else [].

Record RiskContext := mkRiskContext {
  ctx_now_ns : Z;
  ctx_account : AccountState;
  ctx_positions : list Position;
  ctx_instruments : gmap string Instrument;
  ctx_quotes : gmap string Quote;
  ctx_conversions : gmap string decimal;
  ctx_equity_peak : decimal;
  ctx_day_pnl : decimal;
  ctx_week_pnl : decimal;
  ctx_month_pnl : decimal;
  ctx_week_start_equity : decimal;
  ctx_month_start_equity : decimal;
  ctx_rolling_24h_pnl : decimal;
  ctx_day_profit_locked : bool;
  ctx_ladder_rung : Z;
  ctx_venue_min_stop_pips : gmap string decimal;
  ctx_day_start_equity : decimal;
  ctx_trades_today : Z;
  ctx_trades_this_week : Z;
  ctx_trades_this_year : Z;
  ctx_last_entry_ns : option Z;
  ctx_pending_risk : decimal;
  ctx_unresolved_orders : Z;
  ctx_missing_conversions : list string;
  ctx_blocking_alarms : list string;
  ctx_regime_risk_multiplier : decimal;
  ctx_clock_skew_ms : option decimal;
  ctx_connectivity_ok : bool;
  ctx_offline_seconds : decimal;
  ctx_data_age_sec : gmap string (option decimal);
  ctx_data_quality : gmap string DataQuality;
  ctx_normal_spread_pips : gmap string decimal;
  ctx_news_blackout : gmap string string;
  ctx_price_divergence : gmap string string;
  ctx_cooldowns : gmap string string;
  ctx_stress_scenarios : gmap string decimal;
  ctx_stress_limit_pct : decimal;
  ctx_correlations : gmap (string * string) decimal;
  ctx_cost_models : gmap string CostModel;
  ctx_halted : bool;
  ctx_halt_reason : string;
  ctx_kill_switch : bool;
  ctx_strategy_lifecycles : gmap string string;
  ctx_live_money : bool;
  ctx_projected_trades_per_year : option Z;
  ctx_group_others_open_risk : option decimal;
  ctx_group_others_equity : decimal;
  ctx_group_others_currency_risk : gmap string decimal;
  ctx_group_unknown_members : list string
}.

Definition conversion (ctx : RiskContext) (quote_ccy : string) : option decimal :=
  if bool_decide (quote_ccy = acc_currency (ctx_account ctx)) then Some ONE
  else ctx_conversions ctx !! quote_ccy.

Definition equity (ctx : RiskContext) : decimal := acc_equity (ctx_account ctx).

(** [(peak - equity) / peak * 100]. *)
Definition peak_drawdown (ctx : RiskContext) : res decimal :=
  let* q := ddiv (ctx_equity_peak ctx - equity ctx) (ctx_equity_peak ctx) in
  Ok (q * 100).

Definition drawdown_pct (ctx : RiskContext) : res decimal :=
  if ctx_equity_peak ctx <=? 0 then Ok ZERO
  else let* dd := peak_drawdown ctx in Ok (dmax ZERO dd).

(** [x or y] on decimals. *)
Definition or_else (x y : decimal) : decimal := if is_zero x then y else x.

Definition pct_of (x base : decimal) : res decimal :=
  if base >? 0 then (let* q := ddiv x base in Ok (q * 100)) else Ok ZERO.

Definition day_pnl_pct (ctx : RiskContext) : res decimal :=
  pct_of (ctx_day_pnl ctx) (or_else (ctx_day_start_equity ctx) (equity ctx)).

Record RiskDecision := mkDecision {
  rd_approved : bool;
  rd_vetoes : list Veto;
  rd_warnings : list Veto;
  rd_sizing : option SizingResult;
  rd_risk_multiplier : decimal;
  rd_approved_lots : decimal;
  rd_risk_amount : decimal;
  rd_risk_pct : decimal;
  rd_expected_cost_pips : decimal;
  rd_break_even_win_rate : option decimal
}.

Definition halting (d : RiskDecision) : bool :=
  existsb (fun v => bool_decide (v_severity v = HALT)) (rd_vetoes d).

(** [RiskDecision(False, vetoes, warnings)]. *)
Definition rejected (vetoes : list Veto) : RiskDecision :=
  mkDecision false vetoes [] None ONE ZERO ZERO ZERO ZERO None.

(** ** 0. Absolute stops *)

Definition absolute_stops (cfg : RiskConfig) (ctx : RiskContext) : res (list Veto) :=
  let* drawdown :=
    if ctx_equity_peak ctx >? 0
    then (let* dd := peak_drawdown ctx in
          Ok (if rc_max_drawdown_halt_pct cfg <=? dd then [mkVeto "max_drawdown" HALT] else []))
    else Ok [] in
  Ok ((if ctx_kill_switch ctx then [mkVeto "kill_switch" HALT] else [])
      ++ (if ctx_halted ctx then [mkVeto "halted" HALT] else [])
      ++ drawdown
      ++ veto_when (0 <? ctx_unresolved_orders ctx)%Z "unresolved_orders"
      ++ veto_when (negb (ctx_connectivity_ok ctx)
                    || (ctx_offline_seconds ctx >? dec_of_Z (rc_max_offline_seconds_before_freeze cfg)))
           "connectivity").

(** ** 1. Lifecycle *)

Definition lifecycle_gate (ctx : RiskContext) (intent : OrderIntent) : list Veto :=
  let lifecycle := default "hypothesis" (ctx_strategy_lifecycles ctx !! oi_strategy intent) in
  veto_when (ctx_live_money ctx && negb (bool_decide (lifecycle = "accepted"))) "lifecycle".

(** ** 2. Data integrity *)

(** The clock-skew test, shared with the standing alarms. *)
Definition skewed (cfg : RiskConfig) (ctx : RiskContext) : bool :=
  match ctx_clock_skew_ms ctx with
  | Some s => copy_abs s >? rc_max_clock_skew_ms cfg
  | None => false
  end.

Definition data_age (ctx : RiskContext) (instrument : string) : option decimal :=
  if bool_decide (ctx_data_age_sec ctx = ∅) then Some ZERO
  else default None (ctx_data_age_sec ctx !! instrument).

Definition stale (cfg : RiskConfig) (ctx : RiskContext) (instrument : string) : bool :=
  match data_age ctx instrument with
  | Some a => a >? dec_of_Z (rc_max_data_staleness_sec cfg)
  | None => true
  end.

Definition data_gates (cfg : RiskConfig) (ctx : RiskContext) (intent : OrderIntent) : list Veto :=
  veto_when (stale cfg ctx (oi_instrument intent)) "stale_data"
  ++ veto_when (negb (bool_decide (default DQ_OK (ctx_data_quality ctx !! oi_instrument intent) = DQ_OK)))
       "data_quality"
  ++ veto_when (skewed cfg ctx) "clock_skew".

(** ** 3. Spread *)

Definition spread_gate (cfg : RiskConfig) (ctx : RiskContext) (intent : OrderIntent) (spread : decimal)
    : list Veto :=
  let normal := default spread (ctx_normal_spread_pips ctx !! oi_instrument intent) in
  veto_when ((normal >? 0) && (spread >? normal * rc_max_spread_pips_multiple cfg)) "spread".

(** ** 4. News blackout, loss-streak cooldown, reference divergence *)

Definition cooldown_scope (ctx : RiskContext) (strategy : string) : option string :=
  if bool_decide (is_Some (ctx_cooldowns ctx !! "*")) then Some "*"
  else if bool_decide (is_Some (ctx_cooldowns ctx !! strategy)) then Some strategy
  else None.

Definition blackout_gates (ctx : RiskContext) (intent : OrderIntent) : list Veto :=
  veto_when (bool_decide (is_Some (ctx_news_blackout ctx !! oi_instrument intent))) "news_blackout"
  ++ veto_when (bool_decide (is_Some (cooldown_scope ctx (oi_strategy intent)))) "loss_streak_cooldown"
  ++ veto_when (bool_decide (is_Some (ctx_price_divergence ctx !! oi_instrument intent)))
       "reference_divergence".

(** ** 5. Stop discipline *)

(** [intent.limit_price or quote.price_for(intent.side)]. *)
Definition entry_ref_of (intent : OrderIntent) (quote : Quote) : decimal :=
  match oi_limit_price intent with
  | Some p => or_else p (price_for quote (oi_side intent))
  | None => price_for quote (oi_side intent)
  end.

Definition pips_between (inst : Instrument) (a b : decimal) : res decimal :=
  ddiv (dabs (a - b)) (inst_pip inst).

Definition reward_gate (cfg : RiskConfig) (intent : OrderIntent) (inst : Instrument)
    (entry_ref stop_pips : decimal) : res (list Veto) :=
  match oi_take_profit intent with
  | Some tp =>
      if stop_pips >? 0 then
        let* target_pips := pips_between inst tp entry_ref in
        let* rr := ddiv target_pips stop_pips in
        Ok (veto_when (rr <? rc_min_reward_risk cfg) "reward_risk")
      else Ok []
  | None => Ok []
  end.

Definition stop_gates (cfg : RiskConfig) (ctx : RiskContext) (intent : OrderIntent) (inst : Instrument)
    (entry_ref stop_loss stop_pips : decimal) : res (list Veto) :=
  let venue_floor := default ZERO (ctx_venue_min_stop_pips ctx !! oi_instrument intent) in
  let* reward := reward_gate cfg intent inst entry_ref stop_pips in
  Ok (veto_when (stop_pips <? rc_min_stop_pips cfg) "stop_too_tight"
      ++ veto_when ((venue_floor >? 0) && (stop_pips <? venue_floor)) "venue_stop_distance"
      ++ veto_when (stop_pips >? rc_max_stop_pips cfg) "stop_too_wide"
      ++ veto_when (bool_decide (oi_side intent = BUY) && (stop_loss >=? entry_ref)) "stop_side"
      ++ veto_when (bool_decide (oi_side intent = SELL) && (stop_loss <=? entry_ref)) "stop_side"
      ++ reward).

(** ** 6. Cost feasibility *)

Definition cost_pips_of (ctx : RiskContext) (intent : OrderIntent) (inst : Instrument)
    (conv spread : decimal) : res decimal :=
  let cm := default (default_cost_model spread) (ctx_cost_models ctx !! oi_instrument intent) in
  match round_trip_pips cm 1 (pip_value_quote inst 1 * conv)
          (bool_decide (is_Some (ctx_news_blackout ctx !! oi_instrument intent))) with
  | Raise ValueError => Ok spread
  | r => r
  end.

(** The vetoes, the warnings and the break-even win rate. *)
Definition cost_gates (intent : OrderIntent) (inst : Instrument) (entry_ref stop_pips cost_pips : decimal)
    : res (list Veto * list Veto * option decimal) :=
  match oi_take_profit intent with
  | Some tp =>
      if stop_pips >? 0 then
        let* target_pips := pips_between inst tp entry_ref in
        let* be := break_even_win_rate target_pips stop_pips cost_pips in
        Ok (if be >=? 0.65 then ([mkVeto "cost_barrier" BLOCK], [], Some be)
            else if be >=? 0.58 then ([], [mkVeto "cost_barrier" WARN], Some be)
            else ([], [], Some be))
      else Ok ([], [], None)
  | None => Ok ([], [], None)
  end.

(** ** 7. Loss budgets *)

(** [ctx.account.equity or D("1")]. *)
Definition base_eq (ctx : RiskContext) : decimal := or_else (equity ctx) 1.

(** [-(pnl / base * D("100"))]. *)
Definition loss_pct (pnl base : decimal) : res decimal :=
  let* q := ddiv pnl base in Ok (- (q * 100)).

Definition rolling_gate (cfg : RiskConfig) (ctx : RiskContext) : res (list Veto) :=
  if (rc_rolling_24h_loss_limit_pct cfg >? 0) && (ctx_rolling_24h_pnl ctx <? 0) then
    let roll_base := equity ctx - ctx_rolling_24h_pnl ctx in
    if roll_base >? 0 then
      let* l := loss_pct (ctx_rolling_24h_pnl ctx) roll_base in
      Ok (veto_when (l >=? rc_rolling_24h_loss_limit_pct cfg) "rolling_24h_loss")
    else Ok []
  else Ok [].

Definition loss_gates (cfg : RiskConfig) (ctx : RiskContext) : res (list Veto) :=
  let* day := day_pnl_pct ctx in
  let* week := loss_pct (ctx_week_pnl ctx) (or_else (ctx_week_start_equity ctx) (base_eq ctx)) in
  let* month := loss_pct (ctx_month_pnl ctx) (or_else (ctx_month_start_equity ctx) (base_eq ctx)) in
  let* rolling := rolling_gate cfg ctx in
  Ok (veto_when (- day >=? rc_daily_loss_limit_pct cfg) "daily_loss"
      ++ veto_when (week >=? rc_weekly_loss_limit_pct cfg) "weekly_loss"
      ++ veto_when (month >=? rc_monthly_loss_limit_pct cfg) "monthly_loss"
      ++ rolling
      ++ veto_when ((rc_daily_profit_lock_pct cfg >? 0)
                    && (ctx_day_profit_locked ctx || (day >=? rc_daily_profit_lock_pct cfg))) "profit_lock").

(** ** 8. Frequency *)

Definition frequency_gates (cfg : RiskConfig) (ctx : RiskContext) : list Veto :=
  veto_when (rc_max_trades_per_day cfg <=? ctx_trades_today ctx)%Z "frequency_day"
  ++ veto_when (rc_max_trades_per_week cfg <=? ctx_trades_this_week ctx)%Z "frequency_week"
  ++ veto_when (rc_max_trades_per_year cfg <=? ctx_trades_this_year ctx)%Z "frequency_year"
  ++ veto_when (match ctx_last_entry_ns ctx with
                | Some last => seconds_ltb (ctx_now_ns ctx - last) (rc_min_seconds_between_entries cfg)
                | None => false
                end) "entry_spacing".

(** The pace of the year so far, extrapolated; [None] and [Some 0] both mean
    no projection.  The float division of the source is exact to the unit for
    the counts involved. *)
Definition projected_trades (ctx : RiskContext) : res (option Z) :=
  match ctx_projected_trades_per_year ctx with
  | Some p => Ok (Some p)
  | None =>
      if (0 <? ctx_trades_this_year ctx)%Z then
        let* dt := from_timestamp_ns (ctx_now_ns ctx) 0 in
        let elapsed := Z.max 1 (dt_yday dt) in
        Ok (Some (ctx_trades_this_year ctx * 365 / elapsed)%Z)
      else Ok None
  end.

Definition mids (ctx : RiskContext) : gmap string decimal := mid <$> ctx_quotes ctx.

Definition book_gross (ctx : RiskContext) (positions : list Position) : decimal * list string :=
  gross_notional (ctx_instruments ctx) (ctx_conversions ctx) (mids ctx)
    (acc_currency (ctx_account ctx)) positions.

Definition leverage_of (ctx : RiskContext) (gross : decimal) : res decimal :=
  if base_eq ctx >? 0 then ddiv gross (base_eq ctx) else Ok ZERO.

Definition annual_cost_gate (cfg : RiskConfig) (ctx : RiskContext) (inst : Instrument) (quote : Quote)
    (conv cost_pips : decimal) : res (list Veto) :=
  let* projected := projected_trades ctx in
  match projected with
  | None | Some 0%Z => Ok []
  | Some n =>
      let notional := units inst 1 * mid quote * conv in
      let* cost_bp :=
        if notional >? 0
        then (let* q := ddiv (cost_pips * inst_pip inst * units inst 1 * conv) notional in Ok (q * 10000))
        else Ok ZERO in
      let* leverage := leverage_of ctx (book_gross ctx (ctx_positions ctx)).1 in
      let* annual := annual_cost_pct_of_equity cost_bp (dmax leverage 1) n in
      Ok (veto_when (annual >? rc_max_annual_cost_pct_of_equity cfg) "annual_cost")
  end.

(** ** 10. Sizing *)

Definition risk_multiplier_of (cfg : RiskConfig) (ctx : RiskContext) : res decimal :=
  let* dd := drawdown_pct ctx in
  let* ladder := ladder_multiplier dd (rc_ladder cfg) (rc_ladder_enabled cfg) (ctx_ladder_rung ctx)
                   (rc_ladder_hysteresis_pct cfg) in
  Ok (ladder * dmax 0 (dmin 1 (ctx_regime_risk_multiplier ctx))).

(** The vetoes, the multiplier and the size before the stress budget. *)
Definition sizing_gates (cfg : RiskConfig) (ctx : RiskContext) (inst : Instrument)
    (entry_ref stop_loss conv : decimal) : res (list Veto * decimal * SizingResult) :=
  let* multiplier := risk_multiplier_of cfg ctx in
  let* sizing := size_position (equity ctx) (rc_risk_per_trade_pct cfg) entry_ref stop_loss inst
                   (Some conv) multiplier (rc_max_lots_per_trade cfg) default_max_rounding_error_pct in
  Ok (veto_when (multiplier <=? 0) "ladder_halt" ++ veto_when (negb (sz_feasible sizing)) "sizing",
      multiplier, sizing).

(** [replace(sizing, lots=cap, ...)]. *)
Definition shrink (s : SizingResult) (cap scale : decimal) : SizingResult :=
  mkSizing cap (sz_risk_amount s * scale) (sz_risk_pct s * scale) (sz_intended_lots s)
    (sz_rounding_error_pct s) (sz_pip_value_account s) (sz_stop_pips s) (sz_required_min_equity s)
    (sz_notes s) (sz_feasible s).

(** ** 10b. Gap stress *)

Definition open_stress (ctx : RiskContext) : decimal * list string :=
  book_stress_loss (ctx_instruments ctx) (mids ctx) (ctx_conversions ctx)
    (acc_currency (ctx_account ctx)) (ctx_stress_scenarios ctx) (ctx_positions ctx).

Definition stress_budget (ctx : RiskContext) : res decimal :=
  let* limit := ddiv (base_eq ctx * ctx_stress_limit_pct ctx) 100 in
  Ok (limit - (open_stress ctx).1).

Definition stress_cap (ctx : RiskContext) (inst : Instrument) (quote : Quote) (conv : decimal) : res decimal :=
  let* budget := stress_budget ctx in
  let* most := max_lots_within budget inst (mid quote) (Some conv) (ctx_stress_scenarios ctx) in
  round_lots_down inst most.

(** The vetoes, the warnings and the possibly smaller size. *)
Definition stress_gates (ctx : RiskContext) (inst : Instrument) (quote : Quote) (conv : decimal)
    (sizing : SizingResult) : res (list Veto * list Veto * SizingResult) :=
  if negb (bool_decide (ctx_stress_scenarios ctx = ∅)) && (ctx_stress_limit_pct ctx >? 0)
     && sz_feasible sizing && (sz_lots sizing >? 0)
  then
    let* cap := stress_cap ctx inst quote conv in
    let unpriced := warn_when (negb (bool_decide ((open_stress ctx).2 = []))) "stress_unpriced" in
    if cap <? sz_lots sizing then
      if cap <? inst_min_lot inst then Ok ([mkVeto "stress_gap" BLOCK], unpriced, sizing)
      else
        let* scale := ddiv cap (sz_lots sizing) in
        Ok ([], unpriced ++ [mkVeto "stress_shrunk" WARN], shrink sizing cap scale)
    else Ok ([], unpriced, sizing)
  else Ok ([], [], sizing).

Definition note_warnings (sizing : SizingResult) : list Veto :=
  if sz_feasible sizing then map (fun _ => mkVeto "sizing" WARN) (sz_notes sizing) else [].

(** ** 11. Portfolio limits, the proposed trade included *)

Definition count_gates (cfg : RiskConfig) (ctx : RiskContext) (intent : OrderIntent) : list Veto :=
  let same := filter (fun p => pos_instrument p = oi_instrument intent) (ctx_positions ctx) in
  veto_when (rc_max_open_positions cfg <=? Z.of_nat (length (ctx_positions ctx)))%Z "max_positions"
  ++ veto_when (rc_max_positions_per_instrument cfg <=? Z.of_nat (length same))%Z "per_instrument".

Definition prospective (ctx : RiskContext) (intent : OrderIntent) (entry_ref : decimal)
    (sizing : SizingResult) : list Position :=
  ctx_positions ctx
  ++ [new_position (oi_instrument intent) (oi_side intent) (sz_lots sizing) entry_ref
        (ctx_now_ns ctx) (oi_strategy intent) (sz_risk_amount sizing)].

Definition leverage_gates (cfg : RiskConfig) (ctx : RiskContext) (book : list Position) : res (list Veto) :=
  let '(gross, unconvertible) := book_gross ctx book in
  let* leverage := leverage_of ctx gross in
  Ok (veto_when (negb (bool_decide (unconvertible = []))) "exposure_unconvertible"
      ++ veto_when (leverage >? rc_max_gross_leverage cfg) "leverage").

(** Risk summed by instrument: the positions, without those on the intent's
    instrument at the intent's own entry price, then the proposed trade. *)
Definition risk_step (intent : OrderIntent) (entry_ref : decimal) (m : gmap string decimal) (p : Position)
    : gmap string decimal :=
  if bool_decide (pos_instrument p = oi_instrument intent) && (pos_entry_price p =? entry_ref) then m
  else add_at m (pos_instrument p) (or_zero (pos_initial_risk p)).

Definition risk_map (intent : OrderIntent) (entry_ref risk_amount : decimal) (book : list Position)
    : gmap string decimal :=
  add_at (fold_left (risk_step intent entry_ref) book ∅) (oi_instrument intent) risk_amount.

Definition exposures_of (ctx : RiskContext) (risks : gmap string decimal) (book : list Position)
    : list CurrencyExposure * list string :=
  currency_exposure (ctx_instruments ctx) risks (ctx_conversions ctx) (mids ctx)
    (acc_currency (ctx_account ctx)) book.

Definition currency_gate (cfg : RiskConfig) (ctx : RiskContext) (e : CurrencyExposure) : res (list Veto) :=
  let* pct := pct_of (dabs (ce_net_risk e)) (base_eq ctx) in
  Ok (veto_when (pct >? rc_max_currency_exposure_pct cfg) "currency_exposure").

Definition exposure_gates (cfg : RiskConfig) (ctx : RiskContext)
    (exposures : list CurrencyExposure * list string) : res (list Veto) :=
  let* per_ccy := rflat (currency_gate cfg ctx) exposures.1 in
  Ok (veto_when (negb (bool_decide (exposures.2 = []))) "exposure_unconvertible" ++ per_ccy).

Definition cluster_gate (cfg : RiskConfig) (ctx : RiskContext) (c : Cluster) : res (list Veto) :=
  if bool_decide (length (cl_instruments c) < 2)%nat then Ok []
  else
    let* pct := pct_of (cl_total_risk c) (base_eq ctx) in
    Ok (veto_when (pct >? rc_max_correlated_risk_pct cfg) "correlated_risk").

Definition cluster_gates (cfg : RiskConfig) (ctx : RiskContext) (risks : gmap string decimal)
    (book : list Position) : res (list Veto) :=
  rflat (cluster_gate cfg ctx)
    (correlation_clusters risks (ctx_correlations ctx) (rc_correlation_threshold cfg)
       (map pos_instrument book)).

Definition margin_gate (ctx : RiskContext) (inst : Instrument) (quote : Quote) (conv lots : decimal)
    : list Veto :=
  let required_margin := units inst lots * mid quote * inst_margin_rate inst * conv in
  veto_when (required_margin >? acc_margin_available (ctx_account ctx) * 0.5) "margin".

Definition unknown_risk_positions (ctx : RiskContext) : list Position :=
  filter (fun p => (pos_initial_risk p <=? 0) = true) (ctx_positions ctx).

(** Open risk (unknown positions charged a full budget), the trade, and the
    orders in flight. *)
Definition total_risk_of (cfg : RiskConfig) (ctx : RiskContext) (risk_amount : decimal) : res decimal :=
  let* budget := ddiv (base_eq ctx * rc_risk_per_trade_pct cfg) 100 in
  let assumed := budget * dec_of_Z (Z.of_nat (length (unknown_risk_positions ctx))) in
  let open_risk := dsum (map (fun p => or_zero (pos_initial_risk p)) (ctx_positions ctx)) + assumed in
  Ok (open_risk + risk_amount + ctx_pending_risk ctx).

Definition total_risk_gate (cfg : RiskConfig) (ctx : RiskContext) (total_risk : decimal) : res (list Veto) :=
  let* pct := pct_of total_risk (base_eq ctx) in
  Ok (veto_when (pct >? rc_max_total_open_risk_pct cfg) "total_open_risk").

(** ** 11b. The owner's other accounts *)

Definition group_currency_gate (cfg : RiskConfig) (ctx : RiskContext) (group_equity : decimal)
    (e : CurrencyExposure) : res (list Veto) :=
  let combined := ce_net_risk e + get0 (ctx_group_others_currency_risk ctx) (ce_currency e) in
  let* pct := pct_of (dabs combined) group_equity in
  Ok (veto_when (pct >? rc_max_group_currency_exposure_pct cfg) "group_currency_exposure").

Definition group_gates (cfg : RiskConfig) (ctx : RiskContext) (total_risk : decimal)
    (exposures : list CurrencyExposure) : res (list Veto) :=
  match ctx_group_others_open_risk ctx with
  | None => Ok []
  | Some others =>
      let group_equity := base_eq ctx + ctx_group_others_equity ctx in
      let* group_pct := pct_of (total_risk + others) group_equity in
      let* per_ccy := rflat (group_currency_gate cfg ctx group_equity) exposures in
      Ok (veto_when (negb (bool_decide (ctx_group_unknown_members ctx = []))) "group_visibility"
          ++ veto_when (group_pct >? rc_max_group_open_risk_pct cfg) "group_total_risk"
          ++ per_ccy)
  end.

(** ** 12. The book must already be protected *)

Definition protected_gate (cfg : RiskConfig) (ctx : RiskContext) : list Veto :=
  veto_when (rc_require_broker_side_stop cfg
             && existsb (fun p => negb (pos_broker_stop_confirmed p)) (ctx_positions ctx)) "unprotected_book".

(** Blocks 11 to 12. *)
Definition portfolio_gates (cfg : RiskConfig) (ctx : RiskContext) (intent : OrderIntent) (inst : Instrument)
    (quote : Quote) (conv entry_ref : decimal) (sizing : SizingResult) : res (list Veto) :=
  let book := prospective ctx intent entry_ref sizing in
  let* leverage := leverage_gates cfg ctx book in
  let risks := risk_map intent entry_ref (sz_risk_amount sizing) book in
  let exposures := exposures_of ctx risks book in
  let* currency := exposure_gates cfg ctx exposures in
  let* clusters := cluster_gates cfg ctx risks book in
  let* total_risk := total_risk_of cfg ctx (sz_risk_amount sizing) in
  let* total := total_risk_gate cfg ctx total_risk in
  let* group := group_gates cfg ctx total_risk exposures.1 in
  Ok (count_gates cfg ctx intent ++ leverage ++ currency ++ clusters
      ++ margin_gate ctx inst quote conv (sz_lots sizing) ++ total ++ group ++ protected_gate cfg ctx).

(** ** The decision *)

(** Blocks 5 to 12, once a stop exists: [vetoes] holds those of the blocks
    before. *)
Definition evaluate_sized (cfg : RiskConfig) (ctx : RiskContext) (intent : OrderIntent) (inst : Instrument)
    (quote : Quote) (conv spread stop_loss : decimal) (vetoes : list Veto) : res RiskDecision :=
  let entry_ref := entry_ref_of intent quote in
  let* stop_pips := pips_between inst entry_ref stop_loss in
  let* stop := stop_gates cfg ctx intent inst entry_ref stop_loss stop_pips in
  let* cost_pips := cost_pips_of ctx intent inst conv spread in
  let* (cost_v, cost_w, be) := cost_gates intent inst entry_ref stop_pips cost_pips in
  let* loss := loss_gates cfg ctx in
  let* annual := annual_cost_gate cfg ctx inst quote conv cost_pips in
  let* (sizing_v, multiplier, sized) := sizing_gates cfg ctx inst entry_ref stop_loss conv in
  let* (stress_v, stress_w, sizing) := stress_gates ctx inst quote conv sized in
  let* portfolio := portfolio_gates cfg ctx intent inst quote conv entry_ref sizing in
  let all := vetoes ++ stop ++ cost_v ++ loss ++ frequency_gates cfg ctx ++ annual ++ sizing_v ++ stress_v
             ++ portfolio in
  let warnings := cost_w ++ stress_w ++ note_warnings sizing
                  ++ warn_when (negb (bool_decide (unknown_risk_positions ctx = []))) "unknown_position_risk" in
  let approved := bool_decide (all = []) in
  Ok (mkDecision approved all warnings (Some sizing) multiplier
        (if approved then sz_lots sizing else ZERO)
        (if approved then sz_risk_amount sizing else ZERO)
        (if approved then sz_risk_pct sizing else ZERO) cost_pips be).

(** [RiskEngine.evaluate_entry]. *)
Definition evaluate_entry (cfg : RiskConfig) (intent : OrderIntent) (ctx : RiskContext) : res RiskDecision :=
  let* stops := absolute_stops cfg ctx in
  let vetoes := stops ++ lifecycle_gate ctx intent in
  match ctx_instruments ctx !! oi_instrument intent with
  | None => Ok (rejected (vetoes ++ [mkVeto "unknown_instrument" BLOCK]))
  | Some inst =>
      match ctx_quotes ctx !! oi_instrument intent with
      | None => Ok (rejected (vetoes ++ [mkVeto "no_price" BLOCK]))
      | Some quote =>
          match conversion ctx (inst_quote inst) with
          | None => Ok (rejected (vetoes ++ [mkVeto "missing_conversion" BLOCK]))
          | Some conv =>
              if conv <=? 0 then Ok (rejected (vetoes ++ [mkVeto "missing_conversion" BLOCK]))
              else
                let* spread := spread_pips quote inst in
                let vetoes := vetoes ++ map (fun _ => mkVeto "portfolio_alarm" BLOCK) (ctx_blocking_alarms ctx)
                              ++ data_gates cfg ctx intent ++ spread_gate cfg ctx intent spread
                              ++ blackout_gates ctx intent in
                match oi_stop_loss intent with
                | None => Ok (rejected (vetoes ++ [mkVeto "no_stop" BLOCK]))
                | Some stop_loss =>
                    evaluate_sized cfg ctx intent inst quote conv spread stop_loss vetoes
                end
          end
      end
  end.

(** [RiskEngine.evaluate_exit]. *)
Definition evaluate_exit (position : Position) (ctx : RiskContext) : RiskDecision :=
  mkDecision true [] [] None ONE (pos_lots position) ZERO ZERO ZERO None.

(** [RiskEngine.portfolio_alarms]. *)
Definition portfolio_alarms (cfg : RiskConfig) (ctx : RiskContext) : res (list Veto) :=
  let* dd := drawdown_pct ctx in
  let* level := margin_level_pct (ctx_account ctx) in
  Ok ((if rc_max_drawdown_halt_pct cfg <=? dd then [mkVeto "max_drawdown" HALT] else [])
      ++ (match level with
          | Some l => if l <? 200 then [mkVeto "margin_level" (if l >=? 150 then WARN else BLOCK)] else []
          | None => []
          end)
      ++ flat_map (fun p => veto_when (rc_require_broker_side_stop cfg && negb (pos_broker_stop_confirmed p))
                              "unprotected_position") (ctx_positions ctx)
      ++ veto_when (skewed cfg ctx) "clock_skew").

(** ** Reading an approval *)

Lemma veto_when_nil b r : veto_when b r = [] <-> b = false.
Proof. destruct b; split; discriminate || reflexivity. Qed.

Lemma app_nil_iff {A} (xs ys : list A) : xs ++ ys = [] <-> xs = [] /\ ys = [].
Proof. split; [apply app_eq_nil|intros [-> ->]; reflexivity]. Qed.

(** What the engine had computed when it approved. *)
Record Approval (cfg : RiskConfig) (intent : OrderIntent) (ctx : RiskContext) (d : RiskDecision)
    (inst : Instrument) (quote : Quote) (conv spread sl stop_pips mult : decimal)
    (sized sizing : SizingResult) (total : decimal) : Prop := {
  ap_inst : ctx_instruments ctx !! oi_instrument intent = Some inst;
  ap_quote : ctx_quotes ctx !! oi_instrument intent = Some quote;
  ap_conv : conversion ctx (inst_quote inst) = Some conv;
  ap_conv_pos : (conv <=? 0) = false;
  ap_stop : oi_stop_loss intent = Some sl;
  ap_stops : absolute_stops cfg ctx = Ok [];
  ap_lifecycle : lifecycle_gate ctx intent = [];
  ap_alarms : ctx_blocking_alarms ctx = [];
  ap_data : data_gates cfg ctx intent = [];
  ap_spread : spread_pips quote inst = Ok spread /\ spread_gate cfg ctx intent spread = [];
  ap_blackout : blackout_gates ctx intent = [];
  ap_stop_pips : pips_between inst (entry_ref_of intent quote) sl = Ok stop_pips;
  ap_stop_gates : stop_gates cfg ctx intent inst (entry_ref_of intent quote) sl stop_pips = Ok [];
  ap_loss : loss_gates cfg ctx = Ok [];
  ap_frequency : frequency_gates cfg ctx = [];
  ap_sizing : sizing_gates cfg ctx inst (entry_ref_of intent quote) sl conv = Ok ([], mult, sized);
  ap_stress : exists w, stress_gates ctx inst quote conv sized = Ok ([], w, sizing);
  ap_portfolio : portfolio_gates cfg ctx intent inst quote conv (entry_ref_of intent quote) sizing = Ok [];
  ap_total : total_risk_of cfg ctx (sz_risk_amount sizing) = Ok total;
  ap_decision : rd_vetoes d = [] /\ rd_sizing d = Some sizing /\ rd_approved_lots d = sz_lots sizing
    /\ rd_risk_amount d = sz_risk_amount sizing /\ rd_risk_pct d = sz_risk_pct sizing
    /\ rd_risk_multiplier d = mult
}.

Lemma evaluate_sized_inv cfg ctx intent inst quote conv spread sl vs d :
  evaluate_sized cfg ctx intent inst quote conv spread sl vs = Ok d ->
  rd_approved d = bool_decide (rd_vetoes d = [])
  /\ (exists rest, rd_vetoes d = vs ++ rest)
  /\ (rd_approved d = false ->
      rd_approved_lots d = ZERO /\ rd_risk_amount d = ZERO /\ rd_risk_pct d = ZERO).
Proof.
  unfold evaluate_sized. cbv zeta. intros H.
  destruct (pips_between _ _ _) as [sp|]; [|discriminate]. cbn [rbind] in H.
  destruct (stop_gates _ _ _ _ _ _ _) as [stop|]; [|discriminate]. cbn [rbind] in H.
  destruct (cost_pips_of _ _ _ _ _) as [cp|]; [|discriminate]. cbn [rbind] in H.
  destruct (cost_gates _ _ _ _ _) as [[[cv cw] be]|]; [|discriminate]. cbn [rbind] in H.
  destruct (loss_gates _ _) as [loss|]; [|discriminate]. cbn [rbind] in H.
  destruct (annual_cost_gate _ _ _ _ _ _) as [annual|]; [|discriminate]. cbn [rbind] in H.
  destruct (sizing_gates _ _ _ _ _ _) as [[[sv mult] sized]|]; [|discriminate]. cbn [rbind] in H.
  destruct (stress_gates _ _ _ _ _) as [[[tv tw] sizing]|]; [|discriminate]. cbn [rbind] in H.
  destruct (portfolio_gates _ _ _ _ _ _ _ _) as [pf|]; [|discriminate]. cbn [rbind] in H.
  injection H as <-. cbn [rd_approved rd_vetoes rd_approved_lots rd_risk_amount rd_risk_pct].
  split; [reflexivity|]. split; [eauto|]. intros E. rewrite !E. auto.
Qed.

(** Every decision of the engine, in one of its two shapes. *)
Lemma evaluate_entry_shape cfg intent ctx d :
  evaluate_entry cfg intent ctx = Ok d ->
  exists stops, absolute_stops cfg ctx = Ok stops
    /\ (exists rest, rd_vetoes d = stops ++ rest)
    /\ rd_approved d = bool_decide (rd_vetoes d = [])
    /\ (rd_approved d = false ->
        rd_approved_lots d = ZERO /\ rd_risk_amount d = ZERO /\ rd_risk_pct d = ZERO).
Proof.
  unfold evaluate_entry. intros H.
  destruct (absolute_stops cfg ctx) as [stops|]; [|discriminate]. cbn [rbind] in H. cbv zeta in H.
  exists stops. split; [reflexivity|].
  assert (R : forall vs v, Ok (rejected ((stops ++ vs) ++ [v])) = Ok d ->
    (exists rest, rd_vetoes d = stops ++ rest) /\ rd_approved d = bool_decide (rd_vetoes d = [])
    /\ (rd_approved d = false ->
        rd_approved_lots d = ZERO /\ rd_risk_amount d = ZERO /\ rd_risk_pct d = ZERO)).
  { intros vs v [= <-]. cbn [rd_vetoes rd_approved rejected]. split; [rewrite <- app_assoc; eauto|].
    split; [|auto]. symmetry. apply bool_decide_eq_false_2. destruct (stops ++ vs); discriminate. }
  destruct (ctx_instruments ctx !! _) as [inst|]; [|eauto].
  destruct (ctx_quotes ctx !! _) as [quote|]; [|eauto].
  destruct (conversion ctx _) as [conv|]; [|eauto].
  destruct (conv <=? 0); [eauto|].
  destruct (spread_pips quote inst) as [spread|]; [|discriminate]. cbn [rbind] in H.
  destruct (oi_stop_loss intent) as [sl|].
  - apply evaluate_sized_inv in H as (H1 & (rest & H2) & H3). split; [|auto].
    rewrite H2, <- !app_assoc. eauto.
  - rewrite <- (app_assoc stops) in H. eauto.
Qed.

Lemma approved_inv cfg intent ctx d :
  evaluate_entry cfg intent ctx = Ok d -> rd_approved d = true ->
  exists inst quote conv spread sl stop_pips mult sized sizing total,
    Approval cfg intent ctx d inst quote conv spread sl stop_pips mult sized sizing total.
Proof.
  intros H Ha. pose proof (evaluate_entry_shape _ _ _ _ H) as (st & Est & _ & Eap & _).
  rewrite Eap in Ha. apply bool_decide_eq_true_1 in Ha. revert H Ha. unfold evaluate_entry.
  rewrite Est. cbn [rbind]. cbv zeta.
  assert (R : forall vs v, rd_vetoes (rejected (vs ++ [v])) <> []) by (intros [|? ?] ?; discriminate).
  destruct (ctx_instruments ctx !! _) as [inst|] eqn:Ei; [|intros [= <-] C; now apply R in C].
  destruct (ctx_quotes ctx !! _) as [quote|] eqn:Eq; [|intros [= <-] C; now apply R in C].
  destruct (conversion ctx _) as [conv|] eqn:Ec; [|intros [= <-] C; now apply R in C].
  destruct (conv <=? 0) eqn:Ecp; [intros [= <-] C; now apply R in C|].
  destruct (spread_pips quote inst) as [spread|] eqn:Es; [|discriminate]. cbn [rbind].
  destruct (oi_stop_loss intent) as [sl|] eqn:Esl; [|intros [= <-] C; now apply R in C].
  unfold evaluate_sized. cbv zeta. intros H Hv. revert H.
  destruct (pips_between _ _ _) as [sp|] eqn:E1; [|discriminate]. cbn [rbind].
  destruct (stop_gates _ _ _ _ _ _ _) as [stop|] eqn:E2; [|discriminate]. cbn [rbind].
  destruct (cost_pips_of _ _ _ _ _) as [cp|]; [|discriminate]. cbn [rbind].
  destruct (cost_gates _ _ _ _ _) as [[[cv cw] be]|]; [|discriminate]. cbn [rbind].
  destruct (loss_gates _ _) as [loss|] eqn:E3; [|discriminate]. cbn [rbind].
  destruct (annual_cost_gate _ _ _ _ _ _) as [annual|]; [|discriminate]. cbn [rbind].
  destruct (sizing_gates _ _ _ _ _ _) as [[[sv mult] sized]|] eqn:E4; [|discriminate]. cbn [rbind].
  destruct (stress_gates _ _ _ _ _) as [[[tv tw] sizing]|] eqn:E5; [|discriminate]. cbn [rbind].
  destruct (portfolio_gates _ _ _ _ _ _ _ _) as [pf|] eqn:E6; [|discriminate]. cbn [rbind].
  intros [= <-]. cbn [rd_vetoes] in Hv.
  destruct (total_risk_of cfg ctx (sz_risk_amount sizing)) as [total|] eqn:E7.
  2:{ exfalso. revert E6. unfold portfolio_gates. cbv zeta. rewrite E7.
      destruct (leverage_gates _ _ _); [|discriminate]. cbn [rbind].
      destruct (exposure_gates _ _ _); [|discriminate]. cbn [rbind].
      destruct (cluster_gates _ _ _ _); discriminate. }
  pose proof Hv as Hall. rewrite !app_nil_iff in Hv. open_all. subst.
  assert (Hal : ctx_blocking_alarms ctx = []) by now apply (map_eq_nil (fun _ => mkVeto "portfolio_alarm" BLOCK)).
  exists inst, quote, conv, spread, sl, sp, mult, sized, sizing, total.
  split; auto; [eauto|]. cbn [rd_vetoes rd_sizing rd_approved_lots rd_risk_amount rd_risk_pct rd_risk_multiplier].
  rewrite !bool_decide_eq_true_2 by exact Hall. repeat split; exact Hall.
Qed.

(** ** The gates of an approval, as inequalities *)

Lemma absolute_stops_nil cfg ctx :
  absolute_stops cfg ctx = Ok [] ->
  ctx_kill_switch ctx = false /\ ctx_halted ctx = false
  /\ (forall dd, (0 < dval (ctx_equity_peak ctx))%Q -> peak_drawdown ctx = Ok dd ->
      (dval dd < dval (rc_max_drawdown_halt_pct cfg))%Q)
  /\ (ctx_unresolved_orders ctx <= 0)%Z
  /\ ctx_connectivity_ok ctx = true
  /\ (dval (ctx_offline_seconds ctx) <= inject_Z (rc_max_offline_seconds_before_freeze cfg))%Q.
Proof.
  unfold absolute_stops. intros H.
  destruct (if ctx_equity_peak ctx >? 0 then _ else _) as [dd|] eqn:Ed; [|discriminate]. cbn [rbind] in H.
  injection H as H. rewrite !app_nil_iff, !veto_when_nil in H. destruct H as (H1 & H2 & H3 & H4 & H5).
  apply orb_false_elim in H5 as [H5 H6]. apply negb_false_iff in H5. apply dltb_false in H6.
  rewrite dval_of_Z in H6. apply Z.ltb_ge in H4. subst dd.
  split; [now destruct (ctx_kill_switch ctx)|]. split; [now destruct (ctx_halted ctx)|].
  split; [|auto]. intros x Hp Hx. destruct (dltb 0 (ctx_equity_peak ctx)) eqn:E.
  - rewrite Hx in Ed. cbn [rbind] in Ed. destruct (rc_max_drawdown_halt_pct cfg <=? x) eqn:E2; [discriminate|].
    now apply dleb_false in E2.
  - apply dltb_false in E. change (dval 0) with 0%Q in E. lra.
Qed.

Lemma stop_gates_nil cfg ctx intent inst entry sl sp :
  stop_gates cfg ctx intent inst entry sl sp = Ok [] ->
  (dval (rc_min_stop_pips cfg) <= dval sp)%Q /\ (dval sp <= dval (rc_max_stop_pips cfg))%Q
  /\ match oi_side intent with BUY => dval sl < dval entry | SELL => dval entry < dval sl end%Q.
Proof.
  unfold stop_gates. cbv zeta. destruct (reward_gate _ _ _ _ _) as [rw|]; [|discriminate]. cbn [rbind].
  intros [= H]. rewrite !app_nil_iff, !veto_when_nil in H. destruct H as (H1 & _ & H2 & H3 & H4 & _).
  apply dltb_false in H1, H2. split; [exact H1|]. split; [exact H2|].
  destruct (oi_side intent); cbn in H3, H4; apply dleb_false; assumption.
Qed.

Lemma stress_gates_sizing ctx inst quote conv sized w sizing :
  stress_gates ctx inst quote conv sized = Ok ([], w, sizing) ->
  sizing = sized
  \/ exists cap scale, stress_cap ctx inst quote conv = Ok cap /\ ddiv cap (sz_lots sized) = Ok scale
     /\ (dval cap < dval (sz_lots sized))%Q /\ (dval (inst_min_lot inst) <= dval cap)%Q
     /\ sizing = shrink sized cap scale.
Proof.
  unfold stress_gates. case_if E; [|intros [= <- <-]; auto].
  destruct (stress_cap _ _ _ _) as [cap|]; [|discriminate]. cbn [rbind]. cbv zeta.
  destruct (cap <? sz_lots sized) eqn:E1; [|intros [= <- <-]; auto].
  destruct (cap <? inst_min_lot inst) eqn:E2; [discriminate|].
  destruct (ddiv _ _) as [sc|] eqn:E3; [|discriminate]. cbn [rbind]. intros [= <- <-].
  right. exists cap, sc. apply dltb_spec in E1. apply dltb_false in E2. auto 10.
Qed.

Lemma protected_gate_nil cfg ctx :
  protected_gate cfg ctx = [] -> rc_require_broker_side_stop cfg = true ->
  Forall (fun p => pos_broker_stop_confirmed p = true) (ctx_positions ctx).
Proof.
  unfold protected_gate. rewrite veto_when_nil. intros H Er. rewrite Er in H. cbn [andb] in H.
  apply List.Forall_forall. intros p Hp. destruct (pos_broker_stop_confirmed p) eqn:E; [reflexivity|].
  assert (C : existsb (fun p => negb (pos_broker_stop_confirmed p)) (ctx_positions ctx) = true)
    by (apply existsb_exists; exists p; rewrite E; auto). congruence.
Qed.

Lemma count_gates_nil cfg ctx intent :
  count_gates cfg ctx intent = [] -> (Z.of_nat (length (ctx_positions ctx)) < rc_max_open_positions cfg)%Z.
Proof. unfold count_gates. cbv zeta. rewrite app_nil_iff, !veto_when_nil. intros [H _]. now apply Z.leb_gt. Qed.

(** The parts of an approved portfolio check. *)
Lemma portfolio_gates_nil cfg ctx intent inst quote conv entry sizing total :
  portfolio_gates cfg ctx intent inst quote conv entry sizing = Ok [] ->
  total_risk_of cfg ctx (sz_risk_amount sizing) = Ok total ->
  let book := prospective ctx intent entry sizing in
  let risks := risk_map intent entry (sz_risk_amount sizing) book in
  count_gates cfg ctx intent = [] /\ leverage_gates cfg ctx book = Ok []
  /\ exposure_gates cfg ctx (exposures_of ctx risks book) = Ok []
  /\ cluster_gates cfg ctx risks book = Ok [] /\ margin_gate ctx inst quote conv (sz_lots sizing) = []
  /\ total_risk_gate cfg ctx total = Ok [] /\ group_gates cfg ctx total (exposures_of ctx risks book).1 = Ok []
  /\ protected_gate cfg ctx = [].
Proof.
  unfold portfolio_gates. cbv zeta. intros H Et. revert H. rewrite Et. cbn [rbind].
  destruct (leverage_gates _ _ _) as [l1|]; [|discriminate]. cbn [rbind].
  destruct (exposure_gates _ _ _) as [l2|]; [|discriminate]. cbn [rbind].
  destruct (cluster_gates _ _ _ _) as [l3|]; [|discriminate]. cbn [rbind].
  destruct (total_risk_gate _ _ _) as [l4|]; [|discriminate]. cbn [rbind].
  destruct (group_gates _ _ _ _) as [l5|]; [|discriminate]. cbn [rbind].
  intros H%Ok_inj. rewrite !app_nil_iff in H.
  destruct H as (H1 & -> & -> & -> & H2 & -> & -> & H3). now repeat (split; [assumption || reflexivity|]).
Qed.

(** A percentage under a limit bounds the amount it was computed from. *)
Lemma pct_of_le x base p limit :
  pct_of x base = Ok p -> (0 < dval base)%Q -> (dval p <= dval limit)%Q -> (0 <= dval limit)%Q ->
  (dval x <= dval base * dval limit / 100 * (1 + 4 * eps))%Q.
Proof.
  unfold pct_of. intros H Hb Hp Hl.
  assert (Eb : dltb 0 base = true) by (apply dltb_spec; exact Hb). rewrite Eb in H.
  destruct (ddiv x base) as [q|] eqn:Eq; [|discriminate]. cbn [rbind] in H. injection H as <-.
  assert (HK : (0 <= dval base * dval limit / 100)%Q)
    by (apply Qdiv_nonneg; [apply Qmult_le_0_compat; lra|reflexivity]).
  assert (HK2 : (0 <= dval base * dval limit / 100 * (1 + 4 * eps))%Q) by (apply Qmult_le_0_compat; [exact HK|discriminate]).
  destruct (Qlt_le_dec 0 (dval x)) as [Hx|Hx]; [|lra].
  pose proof (ddiv_lower x base q _ _ Eq (conj (Qlt_le_weak _ _ Hx) (Qle_refl _)) (conj Hb (Qle_refl _))) as L1.
  destruct eps_small as [E1 E2]. pose proof (Qdiv_pos _ _ Hx Hb) as Hxb.
  assert (P1 : (0 <= dval x / dval base * (1 - eps))%Q) by (apply Qmult_le_0_compat; lra).
  assert (P2 : (0 <= 100 <= dval 100)%Q) by (split; discriminate).
  pose proof (dmul_lower q 100 _ _ (conj P1 L1) P2) as L2.
  assert (L3 : (dval x / dval base * ((1 - eps) * (1 - eps)) * 100 <= dval limit)%Q).
  { eapply Qle_trans; [|exact Hp]. eapply Qle_trans; [|exact L2]. apply Qle_lteq. right. ring. }
  set (y := (dval x / dval base)%Q) in *. assert (Ex : (dval x == y * dval base)%Q) by (unfold y; field; lra).
  rewrite Ex. clearbody y. clear L1 L2 P1 P2 Ex Hx Eq Eb HK HK2.
  assert (H4 : (y * 100 <= dval limit * (1 + 4 * eps))%Q).
  { apply Qle_trans with (y * ((1 - eps) * (1 - eps)) * 100 * (1 + 4 * eps))%Q.
    - assert (E : (y * ((1 - eps) * (1 - eps)) * 100 * (1 + 4 * eps) == y * 100 * ((1 - eps) * (1 - eps) * (1 + 4 * eps)))%Q) by ring.
      rewrite E. apply Qle_trans with (y * 100 * 1)%Q; [lra|]. apply Qmult_le_left; [lra|vm_compute; discriminate].
    - apply Qmult_le_compat_r; [exact L3|discriminate]. }
  apply Qle_trans with (dval limit * (1 + 4 * eps) * dval base / 100)%Q; [|apply Qle_lteq; right; field].
  apply Qle_shift_div_l; [reflexivity|]. rewrite <- (Qmult_assoc y), (Qmult_comm (dval base)), Qmult_assoc.
  apply Qmult_le_compat_r; [exact H4|lra].
Qed.

(** The multiplier only ever shrinks the budget. *)
Lemma risk_multiplier_unit cfg ctx m :
  (rc_ladder_enabled cfg = true -> Ladder_ok (rc_ladder cfg)) -> risk_multiplier_of cfg ctx = Ok m ->
  (0 <= dval m /\ dval m <= 1)%Q.
Proof.
  unfold risk_multiplier_of. intros HL H.
  destruct (drawdown_pct ctx) as [dd|]; [|discriminate]. cbn [rbind] in H.
  destruct (ladder_multiplier _ _ _ _ _) as [l|] eqn:El; [|discriminate]. cbn [rbind] in H. injection H as <-.
  apply ladder_multiplier_unit in El; [|exact HL].
  set (g := dmax 0 (dmin 1 (ctx_regime_risk_multiplier ctx))).
  assert (Hg : (0 <= dval g /\ dval g <= 1)%Q).
  { unfold g. set (w := dmin 1 _). pose proof (dmin_le_l 1 (ctx_regime_risk_multiplier ctx)) as H1. fold w in H1.
    pose proof (dmax_ge_l 0 w) as H0. split; [exact H0|].
    destruct (dmax_cases 0 w) as [E|E]; rewrite E; [discriminate|exact H1]. }
  split; [apply dmul_nonneg; lra|].
  apply (Rounded_le (p := prec) (dval l * dval g)); [apply (short_Repr 1); reflexivity| |apply dmul_R].
  apply Qle_trans with (1 * 1)%Q; [apply Qmult_le_compat_nonneg; lra|discriminate].
Qed.

(** ** Limits of the prospective book *)

(** An amount within a percentage of the base equity, up to rounding. *)
Definition within (ctx : RiskContext) (x limit : decimal) : Prop :=
  (dval x <= dval (base_eq ctx) * dval limit / 100 * (1 + 4 * eps))%Q.

Section Limits.
Variable cfg : RiskConfig.
Variable ctx : RiskContext.
Hypothesis Hcfg : Config_ok cfg.
Hypothesis Heq : (0 < dval (base_eq ctx))%Q.

Lemma pct_gate_within x p limit rule :
  (0 <= dval limit)%Q -> pct_of x (base_eq ctx) = Ok p -> veto_when (p >? limit) rule = [] ->
  within ctx x limit.
Proof.
  intros Hl Hp H. apply veto_when_nil, dltb_false in H. now apply (pct_of_le x (base_eq ctx) p).
Qed.

Lemma risk_pct_nonneg : (0 <= dval (rc_risk_per_trade_pct cfg))%Q.
Proof. destruct (cfg_risk _ Hcfg) as [H _]. change (dval 0.01) with (1 # 100)%Q in H. lra. Qed.

Lemma total_risk_within total :
  total_risk_gate cfg ctx total = Ok [] -> within ctx total (rc_max_total_open_risk_pct cfg).
Proof.
  unfold total_risk_gate. intros H. destruct (pct_of _ _) as [p|] eqn:E; [|discriminate]. cbn [rbind] in H.
  apply Ok_inj in H. eapply pct_gate_within; eauto.
  pose proof risk_pct_nonneg. pose proof (cfg_total _ Hcfg). lra.
Qed.

Lemma exposures_within es :
  exposure_gates cfg ctx es = Ok [] ->
  es.2 = [] /\ forall e, e ∈ es.1 -> within ctx (dabs (ce_net_risk e)) (rc_max_currency_exposure_pct cfg).
Proof.
  unfold exposure_gates. intros H. destruct (rflat _ _) as [vs|] eqn:E; [|discriminate]. cbn [rbind] in H.
  apply Ok_inj, app_nil_iff in H as [H1 ->]. apply veto_when_nil, negb_false_iff, bool_decide_eq_true_1 in H1.
  split; [exact H1|]. intros e He. pose proof (rflat_nil _ _ E e He) as G. unfold currency_gate in G.
  destruct (pct_of _ _) as [p|] eqn:Ep; [|discriminate]. cbn [rbind] in G. apply Ok_inj in G.
  eapply pct_gate_within; eauto. pose proof risk_pct_nonneg. pose proof (cfg_currency _ Hcfg). lra.
Qed.

Lemma clusters_within risks book :
  cluster_gates cfg ctx risks book = Ok [] ->
  forall c, c ∈ correlation_clusters risks (ctx_correlations ctx) (rc_correlation_threshold cfg)
                  (map pos_instrument book) ->
  (2 <= length (cl_instruments c))%nat -> within ctx (cl_total_risk c) (rc_max_correlated_risk_pct cfg).
Proof.
  unfold cluster_gates. intros H c Hc Hl. pose proof (rflat_nil _ _ H c Hc) as G. unfold cluster_gate in G.
  rewrite bool_decide_eq_false_2 in G by lia.
  destruct (pct_of _ _) as [p|] eqn:Ep; [|discriminate]. cbn [rbind] in G. apply Ok_inj in G.
  eapply pct_gate_within; eauto. pose proof risk_pct_nonneg. pose proof (cfg_correlated _ Hcfg). lra.
Qed.
End Limits.

Lemma leverage_within cfg ctx book :
  leverage_gates cfg ctx book = Ok [] ->
  (book_gross ctx book).2 = []
  /\ exists lev, leverage_of ctx (book_gross ctx book).1 = Ok lev
     /\ (dval lev <= dval (rc_max_gross_leverage cfg))%Q.
Proof.
  unfold leverage_gates. destruct (book_gross ctx book) as [g u]. cbn [fst snd]. intros H.
  destruct (leverage_of ctx g) as [lev|]; [|discriminate]. cbn [rbind] in H.
  apply Ok_inj, app_nil_iff in H as [H1 H2]. apply veto_when_nil, negb_false_iff, bool_decide_eq_true_1 in H1.
  apply veto_when_nil, dltb_false in H2. eauto.
Qed.

Lemma margin_within ctx inst quote conv lots :
  margin_gate ctx inst quote conv lots = [] ->
  (dval (units inst lots * mid quote * inst_margin_rate inst * conv)
   <= dval (acc_margin_available (ctx_account ctx) * 0.5))%Q.
Proof. unfold margin_gate. cbv zeta. rewrite veto_when_nil. apply dltb_false. Qed.

(** ** The engine does not raise *)

Lemma or_else_nonzero x y : ~ (dval y == 0)%Q -> ~ (dval (or_else x y) == 0)%Q.
Proof. intros Hy. unfold or_else. destruct (is_zero x) eqn:E; [exact Hy|now apply is_zero_false]. Qed.

Lemma base_eq_nonzero ctx : ~ (dval (base_eq ctx) == 0)%Q.
Proof. apply or_else_nonzero. discriminate. Qed.

Lemma pct_of_total x base : exists p, pct_of x base = Ok p.
Proof.
  unfold pct_of. case_if E; [|eauto]. apply dltb_spec in E. change (dval 0) with 0%Q in E.
  destruct (ddiv_total x base) as [q ->]; [lra|]. cbn [rbind]. eauto.
Qed.

Lemma peak_drawdown_total ctx : (0 < dval (ctx_equity_peak ctx))%Q -> exists dd, peak_drawdown ctx = Ok dd.
Proof.
  intros H. unfold peak_drawdown. destruct (ddiv_total (ctx_equity_peak ctx - equity ctx) (ctx_equity_peak ctx)) as [q ->]; [lra|].
  cbn [rbind]. eauto.
Qed.

Lemma drawdown_pct_total ctx : exists dd, drawdown_pct ctx = Ok dd.
Proof.
  unfold drawdown_pct. destruct (ctx_equity_peak ctx <=? 0) eqn:E; [eauto|]. apply dleb_false in E.
  destruct (peak_drawdown_total ctx E) as [dd ->]. cbn [rbind]. eauto.
Qed.

Lemma absolute_stops_total cfg ctx : exists vs, absolute_stops cfg ctx = Ok vs.
Proof.
  unfold absolute_stops. destruct (ctx_equity_peak ctx >? 0) eqn:E; [|cbn [rbind]; eauto]. apply dltb_spec in E.
  destruct (peak_drawdown_total ctx E) as [dd ->]. cbn [rbind]. eauto.
Qed.

Lemma loss_pct_total x base : ~ (dval base == 0)%Q -> exists p, loss_pct x base = Ok p.
Proof. intros H. unfold loss_pct. destruct (ddiv_total x base H) as [q ->]. cbn [rbind]. eauto. Qed.

Lemma loss_gates_total cfg ctx : exists vs, loss_gates cfg ctx = Ok vs.
Proof.
  unfold loss_gates, day_pnl_pct.
  destruct (pct_of_total (ctx_day_pnl ctx) (or_else (ctx_day_start_equity ctx) (equity ctx))) as [d ->]. cbn [rbind].
  destruct (loss_pct_total (ctx_week_pnl ctx) (or_else (ctx_week_start_equity ctx) (base_eq ctx))) as [w ->];
    [apply or_else_nonzero, base_eq_nonzero|]. cbn [rbind].
  destruct (loss_pct_total (ctx_month_pnl ctx) (or_else (ctx_month_start_equity ctx) (base_eq ctx))) as [m ->];
    [apply or_else_nonzero, base_eq_nonzero|]. cbn [rbind].
  assert (R : exists r, rolling_gate cfg ctx = Ok r).
  { unfold rolling_gate. cbv zeta. case_if E1; [|eauto]. case_if E2; [|eauto].
    apply dltb_spec in E2. change (dval 0) with 0%Q in E2.
    destruct (loss_pct_total (ctx_rolling_24h_pnl ctx) (equity ctx - ctx_rolling_24h_pnl ctx)) as [l ->]; [lra|].
    cbn [rbind]. eauto. }
  destruct R as [r ->]. cbn [rbind]. eauto.
Qed.

Lemma dabs_pos x : ~ (dval x == 0)%Q -> (0 < dval (dabs x))%Q.
Proof.
  intros H. apply (rpos (Qabs (dval x))); [|apply dabs_R].
  destruct (Qabs_cases (dval x)) as [[-> ?]|[-> ?]]; lra.
Qed.

Lemma dsub_nonzero a b : ~ (dval a == dval b)%Q -> ~ (dval (a - b) == 0)%Q.
Proof.
  intros H C. destruct (Q_dec (dval a) (dval b)) as [[L|G]|E]; [| |contradiction].
  - assert (N : (dval a - dval b < 0)%Q) by lra.
    assert (dval (a - b) < 0)%Q; [|lra]. apply (Rounded_neg (p := prec) (dval a - dval b)); [discriminate|exact N|apply dsub_R].
  - assert (N : (0 < dval a - dval b)%Q) by lra. pose proof (rpos _ _ N (dsub_R a b)). lra.
Qed.

Lemma pips_between_total inst a b :
  Instrument_ok inst -> exists p, pips_between inst a b = Ok p /\ (~ (dval a == dval b) -> 0 < dval p)%Q.
Proof.
  intros Hi. pose proof (ok_pip _ Hi) as Hp. unfold pips_between.
  destruct (ddiv_total (dabs (a - b)) (inst_pip inst)) as [p E]; [lra|]. exists p. split; [exact E|].
  intros H. eapply ddiv_pos; [| |exact E]; [apply dabs_pos, dsub_nonzero, H|exact Hp].
Qed.

(** A cost model whose components are not negative. *)
Record CostModel_ok (cm : CostModel) : Prop := {
  cmo_spread : (0 <= dval (cm_spread_pips cm))%Q;
  cmo_commission : (0 <= dval (cm_commission_per_lot_round_turn cm))%Q;
  cmo_news : (0 <= dval (cm_news_spread_multiplier cm))%Q;
  cmo_slippage : (0 <= dval (cm_slippage_pips_median cm))%Q
}.

Lemma default_cost_model_ok spread : (0 <= dval spread)%Q -> CostModel_ok (default_cost_model spread).
Proof. intros H. split; [exact H|discriminate|discriminate|discriminate]. Qed.

(** What the engine needs of its inputs to answer rather than raise. *)
Record Entry_ok (cfg : RiskConfig) (intent : OrderIntent) (ctx : RiskContext) : Prop := {
  eo_inst : forall inst, ctx_instruments ctx !! oi_instrument intent = Some inst ->
            SizingInputs_ok inst (rc_max_lots_per_trade cfg) default_max_rounding_error_pct;
  eo_quote : forall quote, ctx_quotes ctx !! oi_instrument intent = Some quote ->
             (dval (q_bid quote) <= dval (q_ask quote))%Q
             /\ (forall tp, oi_take_profit intent = Some tp -> ~ dval tp == dval (entry_ref_of intent quote))%Q;
  eo_cost : forall cm, ctx_cost_models ctx !! oi_instrument intent = Some cm -> CostModel_ok cm;
  eo_pace : exists n, projected_trades ctx = Ok n /\ (forall k, n = Some k -> 0 <= k)%Z;
  eo_stress : forall inst quote conv budget most,
    ctx_instruments ctx !! oi_instrument intent = Some inst ->
    ctx_quotes ctx !! oi_instrument intent = Some quote -> conversion ctx (inst_quote inst) = Some conv ->
    stress_budget ctx = Ok budget ->
    max_lots_within budget inst (mid quote) (Some conv) (ctx_stress_scenarios ctx) = Ok most ->
    (dval most < lot_range inst)%Q
}.

Section Total.
Variable cfg : RiskConfig.
Variable intent : OrderIntent.
Variable ctx : RiskContext.
Variable inst : Instrument.
Variable quote : Quote.
Variable conv spread : decimal.
Hypothesis HE : Entry_ok cfg intent ctx.
Hypothesis Ei : ctx_instruments ctx !! oi_instrument intent = Some inst.
Hypothesis Eq : ctx_quotes ctx !! oi_instrument intent = Some quote.
Hypothesis Ec : conversion ctx (inst_quote inst) = Some conv.
Hypothesis Hconv : (0 < dval conv)%Q.
Hypothesis Hspread : (0 <= dval spread)%Q.

Lemma inst_ok : Instrument_ok inst.
Proof. apply (si_inst _ _ _ (eo_inst _ _ _ HE _ Ei)). Qed.

Lemma stop_gates_total sl sp : exists vs, stop_gates cfg ctx intent inst (entry_ref_of intent quote) sl sp = Ok vs.
Proof.
  unfold stop_gates, reward_gate. cbv zeta. destruct (oi_take_profit intent) as [tp|]; [|cbn [rbind]; eauto].
  destruct (sp >? 0) eqn:E; [|cbn [rbind]; eauto]. apply dltb_spec in E. change (dval 0) with 0%Q in E.
  destruct (pips_between_total inst tp (entry_ref_of intent quote) inst_ok) as (t & -> & _). cbn [rbind].
  destruct (ddiv_total t sp) as [rr ->]; [lra|]. cbn [rbind]. eauto.
Qed.

Lemma cost_pips_total : exists c, cost_pips_of ctx intent inst conv spread = Ok c /\ (0 <= dval c)%Q.
Proof.
  unfold cost_pips_of. cbv zeta. set (cm := default _ _).
  assert (Hcm : CostModel_ok cm).
  { unfold cm. destruct (ctx_cost_models ctx !! _) as [x|] eqn:E; cbn [from_option id];
      [eapply eo_cost; eauto|now apply default_cost_model_ok]. }
  destruct Hcm as [C1 C2 C3 C4]. unfold round_trip_pips.
  destruct (pip_value_quote inst 1 * conv <=? 0) eqn:E; [eauto|]. apply dleb_false in E. change (dval 0) with 0%Q in E.
  set (pv := pip_value_quote inst 1 * conv) in *.
  destruct (ddiv_total (cm_commission_per_lot_round_turn cm * 1) pv) as [q Hq]; [lra|]. rewrite Hq. cbn [rbind].
  eexists. split; [reflexivity|].
  assert (0 <= dval q)%Q by (eapply ddiv_nonneg; [| |exact Hq]; [apply dmul_nonneg; [exact C2|discriminate]|exact E]).
  apply dadd_nonneg; [apply dadd_nonneg; [|assumption]|]; apply dmul_nonneg; try assumption; [|discriminate].
  case_bool_decide; [exact C3|discriminate].
Qed.

Lemma cost_gates_total sp c : exists r, cost_gates intent inst (entry_ref_of intent quote) sp c = Ok r.
Proof.
  unfold cost_gates. destruct (oi_take_profit intent) as [tp|] eqn:Et; [|eauto].
  destruct (sp >? 0) eqn:E; [|eauto]. apply dltb_spec in E. change (dval 0) with 0%Q in E.
  destruct (pips_between_total inst tp (entry_ref_of intent quote) inst_ok) as (t & -> & Ht). cbn [rbind].
  specialize (Ht (proj2 (eo_quote _ _ _ HE _ Eq) _ Et)). unfold break_even_win_rate.
  assert (E1 : dleb t 0 = false) by (apply dleb_false; exact Ht).
  assert (E2 : dleb sp 0 = false) by (apply dleb_false; exact E). rewrite E1, E2. cbn [orb].
  pose proof (dadd_pos t sp (Qlt_le_weak _ _ Ht) E) as Hs.
  destruct (deqb (t + sp) 0) eqn:E3; [apply deqb_spec in E3; change (dval 0) with 0%Q in E3; lra|].
  destruct (ddiv_total (sp + c) (t + sp)) as [be ->]; [lra|]. cbn [rbind].
  case_if E4; [eauto|]. case_if E5; eauto.
Qed.

Lemma leverage_of_total g : exists l, leverage_of ctx g = Ok l.
Proof.
  unfold leverage_of. case_if E; [|eauto]. apply ddiv_total, base_eq_nonzero.
Qed.

Lemma annual_cost_gate_total c : (0 <= dval c)%Q -> exists vs, annual_cost_gate cfg ctx inst quote conv c = Ok vs.
Proof.
  intros Hc. unfold annual_cost_gate. destruct (eo_pace _ _ _ HE) as (n & -> & Hn). cbn [rbind].
  destruct n as [k|]; [|eauto]. specialize (Hn k eq_refl). cbv zeta.
  set (notional := units inst 1 * mid quote * conv).
  assert (B : exists bp, (if notional >? 0
     then (let* q := ddiv (c * inst_pip inst * units inst 1 * conv) notional in Ok (q * 10000)) else Ok ZERO) = Ok bp
     /\ (0 <= dval bp)%Q).
  { case_if E; [|eexists; split; [reflexivity|discriminate]]. apply dltb_spec in E. change (dval 0) with 0%Q in E.
    destruct (ddiv_total (c * inst_pip inst * units inst 1 * conv) notional) as [q Hq]; [lra|]. rewrite Hq. cbn [rbind].
    eexists. split; [reflexivity|]. apply dmul_nonneg; [|discriminate]. eapply ddiv_nonneg; [|exact E|exact Hq].
    pose proof (ok_pip _ inst_ok). pose proof (ok_contract _ inst_ok). unfold units.
    repeat apply dmul_nonneg; try discriminate; lra. }
  destruct B as (bp & -> & Hbp). cbn [rbind].
  destruct (leverage_of_total (book_gross ctx (ctx_positions ctx)).1) as [l ->]. cbn [rbind].
  assert (A : exists a, annual_cost_pct_of_equity bp (dmax l 1) k = Ok a).
  { unfold annual_cost_pct_of_equity.
    assert (E1 : (k <? 0)%Z = false) by (apply Z.ltb_ge; exact Hn).
    assert (E2 : dltb (dmax l 1) 0 = false).
    { apply dltb_false. pose proof (dmax_ge_r l 1) as H1. eapply Qle_trans; [|exact H1]. discriminate. }
    assert (E3 : dltb bp 0 = false) by (apply dltb_false; exact Hbp). rewrite E1, E2, E3. cbn [orb].
    apply ddiv_total. discriminate. }
  destruct A as [a Ha]. destruct k as [|k|k]; [eauto| |lia]; rewrite Ha; cbn [rbind]; eauto.
Qed.

Lemma sizing_gates_total entry sl : exists r, sizing_gates cfg ctx inst entry sl conv = Ok r.
Proof.
  unfold sizing_gates, risk_multiplier_of. destruct (drawdown_pct_total ctx) as [dd ->]. cbn [rbind].
  destruct (ladder_multiplier_cases dd (rc_ladder cfg) (rc_ladder_enabled cfg) (ctx_ladder_rung ctx)
              (rc_ladder_hysteresis_pct cfg)) as (l & -> & _). cbn [rbind].
  destruct (size_position_ok (equity ctx) (rc_risk_per_trade_pct cfg) entry sl inst (Some conv)
              (l * dmax 0 (dmin 1 (ctx_regime_risk_multiplier ctx))) _ _ (eo_inst _ _ _ HE _ Ei)) as [r ->].
  cbn [rbind]. eauto.
Qed.

Lemma max_lots_within_total budget m c sc : exists most, max_lots_within budget inst m c sc = Ok most.
Proof.
  unfold max_lots_within. destruct (position_notional _ _ _ _) as [n|]; [|eauto].
  case_if E1; [eauto|]. cbv zeta. case_if E2; [eauto|]. apply dleb_false in E2. change (dval 0) with 0%Q in E2.
  destruct (ddiv_total budget (n * scenario_gap inst sc)) as [q ->]; [lra|]. cbn [rbind]. eauto.
Qed.

Lemma stress_gates_total sized : exists r, stress_gates ctx inst quote conv sized = Ok r.
Proof.
  unfold stress_gates. case_if E; [|eauto]. rewrite !andb_true_iff in E. destruct E as [_ El].
  apply dltb_spec in El. change (dval 0) with 0%Q in El.
  assert (C : exists cap, stress_cap ctx inst quote conv = Ok cap).
  { unfold stress_cap. assert (B : exists b, stress_budget ctx = Ok b).
    { unfold stress_budget. destruct (ddiv_total (base_eq ctx * ctx_stress_limit_pct ctx) 100) as [l ->]; [discriminate|].
      cbn [rbind]. eauto. }
    destruct B as [b Eb]. rewrite Eb. cbn [rbind].
    destruct (max_lots_within_total b (mid quote) (Some conv) (ctx_stress_scenarios ctx)) as [most Em]. rewrite Em. cbn [rbind].
    destruct (most <=? 0) eqn:E0; [unfold round_lots_down; rewrite E0; eauto|].
    apply dleb_false in E0.
    destruct (round_lots_down_ok inst most inst_ok E0 (eo_stress _ _ _ HE _ _ _ _ _ Ei Eq Ec Eb Em)) as (q & k & _ & _ & _ & _ & ->).
    eauto. }
  destruct C as [cap ->]. cbn [rbind]. cbv zeta. case_if E1; [|eauto]. case_if E2; [eauto|].
  destruct (ddiv_total cap (sz_lots sized)) as [sc ->]; [lra|]. cbn [rbind]. eauto.
Qed.

Lemma portfolio_gates_total entry sizing :
  exists vs, portfolio_gates cfg ctx intent inst quote conv entry sizing = Ok vs.
Proof.
  unfold portfolio_gates. cbv zeta. unfold leverage_gates. destruct (book_gross _ _) as [g u].
  destruct (leverage_of_total g) as [l ->]. cbn [rbind]. unfold exposure_gates.
  set (es := exposures_of _ _ _).
  destruct (rflat_total (currency_gate cfg ctx) es.1) as [v1 ->].
  { intros e _. unfold currency_gate. destruct (pct_of_total (dabs (ce_net_risk e)) (base_eq ctx)) as [p ->]. cbn [rbind]. eauto. }
  cbn [rbind]. unfold cluster_gates.
  match goal with |- context [rflat (cluster_gate cfg ctx) ?cs] => destruct (rflat_total (cluster_gate cfg ctx) cs) as [v2 ->] end.
  { intros c _. unfold cluster_gate. case_bool_decide; [eauto|].
    destruct (pct_of_total (cl_total_risk c) (base_eq ctx)) as [p ->]. cbn [rbind]. eauto. }
  cbn [rbind]. unfold total_risk_of.
  destruct (ddiv_total (base_eq ctx * rc_risk_per_trade_pct cfg) 100) as [b ->]; [discriminate|]. cbn [rbind].
  unfold total_risk_gate. match goal with |- context [pct_of ?x (base_eq ctx)] => destruct (pct_of_total x (base_eq ctx)) as [p ->]; set (tr := x) end.
  cbn [rbind]. unfold group_gates. destruct (ctx_group_others_open_risk ctx) as [o|]; [|cbn [rbind]; eauto]. cbv zeta.
  match goal with |- context [pct_of ?x ?y] => destruct (pct_of_total x y) as [gp ->] end. cbn [rbind].
  match goal with |- context [rflat ?f es.1] => destruct (rflat_total f es.1) as [v3 ->] end.
  { intros e _. unfold group_currency_gate. cbv zeta. match goal with |- context [pct_of ?x ?y] => destruct (pct_of_total x y) as [q ->] end.
    cbn [rbind]. eauto. }
  cbn [rbind]. eauto.
Qed.

Lemma evaluate_sized_total sl vs : exists d, evaluate_sized cfg ctx intent inst quote conv spread sl vs = Ok d.
Proof.
  unfold evaluate_sized. cbv zeta.
  destruct (pips_between_total inst (entry_ref_of intent quote) sl inst_ok) as (sp & -> & _). cbn [rbind].
  destruct (stop_gates_total sl sp) as [st ->]. cbn [rbind].
  destruct cost_pips_total as (c & -> & Hc). cbn [rbind].
  destruct (cost_gates_total sp c) as [[[cv cw] be] ->]. cbn [rbind].
  destruct (loss_gates_total cfg ctx) as [lo ->]. cbn [rbind].
  destruct (annual_cost_gate_total c Hc) as [an ->]. cbn [rbind].
  destruct (sizing_gates_total (entry_ref_of intent quote) sl) as [[[sv m] sized] ->]. cbn [rbind].
  destruct (stress_gates_total sized) as [[[tv tw] sizing] ->]. cbn [rbind].
  destruct (portfolio_gates_total (entry_ref_of intent quote) sizing) as [pf ->]. cbn [rbind]. eauto.
Qed.
End Total.

(** ** A small account to evaluate the engine on *)

Definition demo_account : AccountState :=
  mkAccountState "acct" "USD" 10000 10000 0 10000 0 0 "" 0 "demo" 30.

Definition demo_quote : Quote := mkQuote "EUR_USD" 1.0999 1.1000 0 0 "sim".

Definition demo_context : RiskContext :=
  mkRiskContext 1710072000000000000 demo_account [] {[ "EUR_USD" := eur_usd ]} {[ "EUR_USD" := demo_quote ]} ∅
    10000 0 0 0 10000 10000 0 false 0 ∅ 10000 0 0 0 None 0 0 [] [] 1 (Some 0.0) true 0.0 ∅ ∅ ∅ ∅ ∅ ∅
    DEFAULT_SCENARIOS 25 ∅ ∅ false "" false ∅ false None None 0 ∅ [].

Definition demo_intent : OrderIntent :=
  mkOrderIntent "c1" "trend" "EUR_USD" BUY 0.01 MARKET None (Some 1.0950) (Some 1.1100) 0 0 0 0.

Definition demo_decision : RiskDecision :=
  match evaluate_entry default_risk_config demo_intent demo_context with
  | Ok d => d
  | Raise _ => rejected []
  end.

Example demo_approved :
  evaluate_entry default_risk_config demo_intent demo_context = Ok demo_decision
  /\ rd_approved demo_decision = true /\ deqb (rd_approved_lots demo_decision) 0.1 = true
  /\ deqb (rd_risk_amount demo_decision) 50 = true.
Proof. vm_compute. repeat split. Qed.

Lemma demo_config_ladder : rc_ladder_enabled default_risk_config = true -> Ladder_ok (rc_ladder default_risk_config).
Proof. intros _. apply (ladder_coherent_ok _ 10). reflexivity. Defined.

Lemma demo_sizing_ok : SizingInputs_ok eur_usd (rc_max_lots_per_trade default_risk_config) default_max_rounding_error_pct.
Proof. split; [exact eur_usd_ok|reflexivity|reflexivity|reflexivity]. Defined.

Lemma demo_stress :
  match stress_budget demo_context with
  | Ok b => match max_lots_within b eur_usd (mid demo_quote) (Some ONE) DEFAULT_SCENARIOS with
            | Ok m => dltb m (mkDec 1 25)
            | Raise _ => false
            end
  | Raise _ => false
  end = true.
Proof. vm_compute. reflexivity. Qed.

Lemma demo_entry_ok : Entry_ok default_risk_config demo_intent demo_context.
Proof.
  split.
  - intros inst [= <-]. exact demo_sizing_ok.
  - intros quote [= <-]. split; [discriminate|]. intros tp [= <-]. vm_compute. discriminate.
  - intros cm [=].
  - exists None. split; [reflexivity|discriminate].
  - intros inst quote conv budget most Hi Hq Hc Hb Hm. pose proof demo_stress as D.
    assert (Ei : ctx_instruments demo_context !! oi_instrument demo_intent = Some eur_usd) by reflexivity.
    rewrite Ei in Hi. injection Hi as <-.
    assert (Eq : ctx_quotes demo_context !! oi_instrument demo_intent = Some demo_quote) by reflexivity.
    rewrite Eq in Hq. injection Hq as <-.
    assert (Ec : conversion demo_context (inst_quote eur_usd) = Some ONE) by reflexivity.
    rewrite Ec in Hc. injection Hc as <-.
    rewrite Hb in D. change (ctx_stress_scenarios demo_context) with DEFAULT_SCENARIOS in Hm.
    rewrite Hm in D. apply dltb_spec in D.
    eapply Qlt_le_trans; [exact D|vm_compute; discriminate].
Qed.

(** ** Theorems *)

(** C1: no entry is approved while the system must not open risk: with the
    kill switch engaged, the agent halted, the drawdown at its halt threshold,
    an order unresolved, the link down, a standing alarm, a full book, or an
    open position without a venue-confirmed stop; and an approved entry has a
    stop on the losing side of a known, priced, convertible instrument. *)
Theorem approved_entry_safe (cfg : RiskConfig) (intent : OrderIntent) (ctx : RiskContext) (d : RiskDecision)
    (H : evaluate_entry cfg intent ctx = Ok d) (Ha : rd_approved d = true) :
  ctx_kill_switch ctx = false /\ ctx_halted ctx = false
  /\ (forall dd, (0 < dval (ctx_equity_peak ctx))%Q -> peak_drawdown ctx = Ok dd ->
      (dval dd < dval (rc_max_drawdown_halt_pct cfg))%Q)
  /\ (ctx_unresolved_orders ctx <= 0)%Z
  /\ ctx_connectivity_ok ctx = true
  /\ (dval (ctx_offline_seconds ctx) <= inject_Z (rc_max_offline_seconds_before_freeze cfg))%Q
  /\ ctx_blocking_alarms ctx = []
  /\ (Z.of_nat (length (ctx_positions ctx)) < rc_max_open_positions cfg)%Z
  /\ (rc_require_broker_side_stop cfg = true ->
      Forall (fun p => pos_broker_stop_confirmed p = true) (ctx_positions ctx))
  /\ exists inst quote conv sl,
       ctx_instruments ctx !! oi_instrument intent = Some inst
       /\ ctx_quotes ctx !! oi_instrument intent = Some quote
       /\ conversion ctx (inst_quote inst) = Some conv /\ (0 < dval conv)%Q
       /\ oi_stop_loss intent = Some sl
       /\ match oi_side intent with
          | BUY => dval sl < dval (entry_ref_of intent quote)
          | SELL => dval (entry_ref_of intent quote) < dval sl
          end%Q.
Proof.
  destruct (approved_inv _ _ _ _ H Ha) as (inst & quote & conv & spread & sl & sp & mult & sized & sizing & total & A).
  destruct A. destruct (absolute_stops_nil _ _ ap_stops0) as (K1 & K2 & K3 & K4 & K5 & K6).
  destruct (stop_gates_nil _ _ _ _ _ _ _ ap_stop_gates0) as (_ & _ & S).
  pose proof (portfolio_gates_nil _ _ _ _ _ _ _ _ _ ap_portfolio0 ap_total0) as P. cbv zeta in P.
  destruct P as (P1 & _ & _ & _ & _ & _ & _ & P2). apply count_gates_nil in P1.
  repeat (split; [assumption|]). split; [now apply protected_gate_nil|].
  exists inst, quote, conv, sl. repeat (split; [assumption|]). apply dleb_false in ap_conv_pos0. auto.
Qed.

Lemma approved_entry_safe_witness :
  rd_approved demo_decision = true /\ ctx_kill_switch demo_context = false.
Proof.
  split; [vm_compute; reflexivity|].
  apply (approved_entry_safe default_risk_config demo_intent demo_context demo_decision);
    vm_compute; reflexivity.
Defined.

(** An approved size is at least the instrument's minimum lot and at most
    the cap, and the risk it commits is within the per-trade budget scaled by a
    multiplier in [0, 1], also after the gap-stress budget has shrunk it. *)
Theorem approved_entry_sized (cfg : RiskConfig) (intent : OrderIntent) (ctx : RiskContext) (d : RiskDecision)
    (HL : rc_ladder_enabled cfg = true -> Ladder_ok (rc_ladder cfg))
    (Hrisk : (0 <= dval (rc_risk_per_trade_pct cfg))%Q)
    (Hok : forall inst, ctx_instruments ctx !! oi_instrument intent = Some inst ->
           SizingInputs_ok inst (rc_max_lots_per_trade cfg) default_max_rounding_error_pct)
    (H : evaluate_entry cfg intent ctx = Ok d) (Ha : rd_approved d = true) :
  exists inst, ctx_instruments ctx !! oi_instrument intent = Some inst
    /\ (dval (inst_min_lot inst) <= dval (rd_approved_lots d)
        /\ dval (rd_approved_lots d) <= dval (rc_max_lots_per_trade cfg) * (1 + eps))%Q
    /\ (0 <= dval (rd_risk_multiplier d) /\ dval (rd_risk_multiplier d) <= 1)%Q
    /\ (dval (rd_risk_amount d)
        <= dval (equity ctx) * dval (rc_risk_per_trade_pct cfg) * dval (rd_risk_multiplier d) / 100 * (1 + 9 * eps))%Q.
Proof.
  destruct (approved_inv _ _ _ _ H Ha) as (inst & quote & conv & spread & sl & sp & mult & sized & sizing & total & A).
  destruct A. exists inst. split; [exact ap_inst0|]. pose proof (Hok _ ap_inst0) as HI.
  unfold sizing_gates in ap_sizing0.
  destruct (risk_multiplier_of cfg ctx) as [m|] eqn:Em; [|discriminate]. cbn [rbind] in ap_sizing0.
  destruct (size_position _ _ _ _ _ _ _ _ _) as [s|] eqn:Es; [|discriminate]. cbn [rbind] in ap_sizing0.
  apply Ok_inj in ap_sizing0. injection ap_sizing0 as Ev -> ->.
  apply app_nil_iff in Ev as [_ Ev]. apply veto_when_nil, negb_false_iff in Ev.
  pose proof (risk_multiplier_unit _ _ _ HL Em) as Hm.
  destruct (size_position_feasible_lots _ _ _ _ _ _ _ _ _ _ HI Es Ev) as [L1 L2].
  destruct (size_position_feasible_risk _ _ _ _ _ _ _ _ _ _ HI Hrisk (proj1 Hm) Es Ev) as (_ & R1 & R2 & R3).
  destruct ap_decision0 as (_ & _ & -> & -> & _ & ->). destruct ap_stress0 as [w Hst].
  apply stress_gates_sizing in Hst as [->|(cap & scale & _ & Esc & C1 & C2 & ->)]; [auto|].
  cbn [shrink sz_lots sz_risk_amount]. split; [split; [exact C2|lra]|]. split; [exact Hm|].
  pose proof (ok_min_lot _ (si_inst _ _ _ HI)) as Hmin.
  assert (Hsc : (0 <= dval scale /\ dval scale <= 1)%Q).
  { assert (D : (dval cap / dval (sz_lots sized) <= 1)%Q) by (apply Qle_shift_div_r; lra).
    split; [apply (ddiv_nonneg cap (sz_lots sized)); [lra|lra|exact Esc]|].
    apply (Rounded_le (p := prec) (dval cap / dval (sz_lots sized))); [apply (short_Repr 1); reflexivity|exact D|now apply ddiv_R]. }
  eapply Qle_trans; [|exact R3]. apply (Rounded_le (p := prec) (dval (sz_risk_amount sized) * dval scale)); [exact R1| |apply dmul_R].
  apply Qle_trans with (dval (sz_risk_amount sized) * 1)%Q; [apply Qmult_le_left; lra|lra].
Qed.

Lemma approved_entry_sized_witness :
  exists inst, ctx_instruments demo_context !! "EUR_USD" = Some inst
    /\ (dval (inst_min_lot inst) <= dval (rd_approved_lots demo_decision)
        /\ dval (rd_approved_lots demo_decision) <= dval (rc_max_lots_per_trade default_risk_config) * (1 + eps))%Q
    /\ (0 <= dval (rd_risk_multiplier demo_decision) /\ dval (rd_risk_multiplier demo_decision) <= 1)%Q
    /\ (dval (rd_risk_amount demo_decision)
        <= dval (equity demo_context) * dval (rc_risk_per_trade_pct default_risk_config)
           * dval (rd_risk_multiplier demo_decision) / 100 * (1 + 9 * eps))%Q.
Proof.
  apply (approved_entry_sized default_risk_config demo_intent demo_context demo_decision).
  - exact demo_config_ladder.
  - discriminate.
  - intros inst [= <-]. exact demo_sizing_ok.
  - vm_compute. reflexivity.
  - vm_compute. reflexivity.
Defined.

(** A position that the risk map leaves out as the proposed leg. *)
Definition same_leg (intent : OrderIntent) (entry : decimal) (p : Position) : bool :=
  bool_decide (pos_instrument p = oi_instrument intent) && (pos_entry_price p =? entry).

(** The risk charged to an instrument: that of every position held on it, but those
    at the entry price on the instrument of the trade, and of the trade. *)
Definition charged (ctx : RiskContext) (intent : OrderIntent) (entry amount : decimal) (symbol : string) : option decimal :=
  let legs := List.filter (fun p => bool_decide (pos_instrument p = symbol) && negb (same_leg intent entry p)) (ctx_positions ctx) in
  let held := fold_left (fun acc p => acc + or_zero (pos_initial_risk p)) legs ZERO in
  if bool_decide (symbol = oi_instrument intent) then Some (held + amount)
  else match legs with [] => None | _ => Some held end.

Lemma risk_fold intent entry symbol book : forall m,
  fold_left (risk_step intent entry) book m !! symbol =
  match List.filter (fun p => bool_decide (pos_instrument p = symbol) && negb (same_leg intent entry p)) book with
  | [] => m !! symbol
  | legs => Some (fold_left (fun acc p => acc + or_zero (pos_initial_risk p)) legs (get0 m symbol))
  end.
Proof.
  induction book as [|p book IH]; intros m; [reflexivity|]. cbn [fold_left List.filter]. rewrite IH. clear IH.
  unfold risk_step. change (bool_decide (pos_instrument p = oi_instrument intent) && (pos_entry_price p =? entry)) with (same_leg intent entry p).
  destruct (same_leg intent entry p) eqn:Es; cbn [negb]; [now rewrite andb_false_r|]. rewrite andb_true_r. unfold add_at.
  destruct (bool_decide_reflect (pos_instrument p = symbol)) as [->|Ne].
  - cbn [fold_left]. assert (E : forall x, get0 (<[symbol := x]> m) symbol = x) by (intros x; unfold get0; now rewrite lookup_insert_eq).
    rewrite lookup_insert_eq, E. now destruct (List.filter _ book).
  - unfold get0. now rewrite lookup_insert_ne by exact Ne.
Qed.

Lemma risk_map_charged ctx intent entry sizing symbol :
  risk_map intent entry (sz_risk_amount sizing) (prospective ctx intent entry sizing) !! symbol =
  charged ctx intent entry (sz_risk_amount sizing) symbol.
Proof.
  unfold risk_map, prospective, charged. rewrite fold_left_app. cbn [fold_left]. unfold risk_step at 1. cbn [pos_instrument pos_entry_price new_position].
  rewrite bool_decide_true by reflexivity. replace (entry =? entry) with true by (symmetry; now apply deqb_spec). cbn [andb].
  unfold add_at. destruct (bool_decide_reflect (symbol = oi_instrument intent)) as [->|Ne].
  - rewrite lookup_insert_eq. f_equal. f_equal. unfold get0 at 1. rewrite risk_fold. destruct (List.filter _ _); [|reflexivity].
    now rewrite lookup_empty.
  - rewrite lookup_insert_ne by congruence. rewrite risk_fold. destruct (List.filter _ _); [apply lookup_empty|]. unfold get0. now rewrite lookup_empty.
Qed.

Lemma one_per_instrument cfg ctx intent : count_gates cfg ctx intent = [] -> (rc_max_positions_per_instrument cfg <= 1)%Z ->
  Forall (fun p => pos_instrument p <> oi_instrument intent) (ctx_positions ctx).
Proof.
  unfold count_gates. cbv zeta. rewrite app_nil_iff, !veto_when_nil. intros [_ H%Z.leb_gt] Hm.
  destruct (filter _ (ctx_positions ctx)) as [|p l] eqn:E; [|cbn [length] in H; lia].
  apply Forall_forall. intros p Hp Hi. assert (Hf : p ∈ filter (fun p => pos_instrument p = oi_instrument intent) (ctx_positions ctx))
    by (now apply list_elem_of_filter). rewrite E in Hf. now apply not_elem_of_nil in Hf.
Qed.

(** C35: an approved entry keeps the prospective book, the trade included, within
    the portfolio limits: total committed risk (unknown positions charged a full
    budget, orders in flight counted), the net risk of every currency, the risk of
    every correlated cluster, gross leverage, and half the available margin; and no
    leg of the book was left unconverted.  Currencies and clusters are measured with
    the risk charged to each instrument: the sum over the positions held on it and
    the trade, but for positions on the instrument of the trade at its very entry
    price, which the code leaves out ([risk_map_drops_same_price]); there are none
    where one position per instrument is allowed. *)
Theorem approved_portfolio_bounded (cfg : RiskConfig) (intent : OrderIntent) (ctx : RiskContext) (d : RiskDecision)
    (Hcfg : Config_ok cfg) (Heq : (0 < dval (base_eq ctx))%Q)
    (H : evaluate_entry cfg intent ctx = Ok d) (Ha : rd_approved d = true) :
  exists inst quote conv sizing total,
    let book := prospective ctx intent (entry_ref_of intent quote) sizing in
    let risks := risk_map intent (entry_ref_of intent quote) (sz_risk_amount sizing) book in
    let exposures := exposures_of ctx risks book in
    rd_sizing d = Some sizing
    /\ ctx_quotes ctx !! oi_instrument intent = Some quote
    /\ conversion ctx (inst_quote inst) = Some conv
    /\ total_risk_of cfg ctx (sz_risk_amount sizing) = Ok total
    /\ within ctx total (rc_max_total_open_risk_pct cfg)
    /\ (forall symbol, risks !! symbol = charged ctx intent (entry_ref_of intent quote) (sz_risk_amount sizing) symbol)
    /\ ((rc_max_positions_per_instrument cfg <= 1)%Z ->
        Forall (fun p => pos_instrument p <> oi_instrument intent) (ctx_positions ctx))
    /\ exposures.2 = [] /\ (book_gross ctx book).2 = []
    /\ (forall e, e ∈ exposures.1 -> within ctx (dabs (ce_net_risk e)) (rc_max_currency_exposure_pct cfg))
    /\ (forall c, c ∈ correlation_clusters risks (ctx_correlations ctx) (rc_correlation_threshold cfg)
                        (map pos_instrument book) ->
        (2 <= length (cl_instruments c))%nat -> within ctx (cl_total_risk c) (rc_max_correlated_risk_pct cfg))
    /\ (exists lev, leverage_of ctx (book_gross ctx book).1 = Ok lev /\ dval lev <= dval (rc_max_gross_leverage cfg))%Q
    /\ (dval (units inst (sz_lots sizing) * mid quote * inst_margin_rate inst * conv)
        <= dval (acc_margin_available (ctx_account ctx) * 0.5))%Q.
Proof.
  destruct (approved_inv _ _ _ _ H Ha) as (inst & quote & conv & spread & sl & sp & mult & sized & sizing & total & A).
  destruct A. exists inst, quote, conv, sizing, total. cbv zeta.
  pose proof (portfolio_gates_nil _ _ _ _ _ _ _ _ _ ap_portfolio0 ap_total0) as P. cbv zeta in P.
  destruct P as (P0 & P1 & P2 & P3 & P4 & P5 & _ & _).
  apply leverage_within in P1 as [G1 G2]. apply (exposures_within cfg ctx Hcfg Heq) in P2 as [X1 X2].
  apply margin_within in P4. split; [tauto|]. repeat (split; [assumption|]).
  split; [now apply total_risk_within|]. split; [intros symbol; apply risk_map_charged|].
  split; [now apply one_per_instrument|]. repeat (split; [assumption|]).
  split; [now apply clusters_within|]. split; assumption.
Qed.

Lemma approved_portfolio_bounded_witness :
  exists inst quote conv sizing total,
    let book := prospective demo_context demo_intent (entry_ref_of demo_intent quote) sizing in
    let risks := risk_map demo_intent (entry_ref_of demo_intent quote) (sz_risk_amount sizing) book in
    let exposures := exposures_of demo_context risks book in
    rd_sizing demo_decision = Some sizing
    /\ ctx_quotes demo_context !! oi_instrument demo_intent = Some quote
    /\ conversion demo_context (inst_quote inst) = Some conv
    /\ total_risk_of default_risk_config demo_context (sz_risk_amount sizing) = Ok total
    /\ within demo_context total (rc_max_total_open_risk_pct default_risk_config)
    /\ (forall symbol, risks !! symbol =
          charged demo_context demo_intent (entry_ref_of demo_intent quote) (sz_risk_amount sizing) symbol)
    /\ ((rc_max_positions_per_instrument default_risk_config <= 1)%Z ->
        Forall (fun p => pos_instrument p <> oi_instrument demo_intent) (ctx_positions demo_context))
    /\ exposures.2 = [] /\ (book_gross demo_context book).2 = []
    /\ (forall e, e ∈ exposures.1 ->
        within demo_context (dabs (ce_net_risk e)) (rc_max_currency_exposure_pct default_risk_config))
    /\ (forall c, c ∈ correlation_clusters risks (ctx_correlations demo_context)
                        (rc_correlation_threshold default_risk_config) (map pos_instrument book) ->
        (2 <= length (cl_instruments c))%nat ->
        within demo_context (cl_total_risk c) (rc_max_correlated_risk_pct default_risk_config))
    /\ (exists lev, leverage_of demo_context (book_gross demo_context book).1 = Ok lev
        /\ dval lev <= dval (rc_max_gross_leverage default_risk_config))%Q
    /\ (dval (units inst (sz_lots sizing) * mid quote * inst_margin_rate inst * conv)
        <= dval (acc_margin_available (ctx_account demo_context) * 0.5))%Q.
Proof.
  apply (approved_portfolio_bounded default_risk_config demo_intent demo_context demo_decision).
  - apply RiskConfig_valid_ok. reflexivity.
  - reflexivity.
  - vm_compute. reflexivity.
  - vm_compute. reflexivity.
Defined.

(** A decision approves exactly when it carries no veto, a refusal commits
    nothing, and the conditions that must stop the whole system are reported
    as halting whatever else is wrong with the intent: no early return masks
    them. *)
Theorem evaluate_entry_decision (cfg : RiskConfig) (intent : OrderIntent) (ctx : RiskContext) (d : RiskDecision)
    (H : evaluate_entry cfg intent ctx = Ok d) :
  (rd_approved d = true <-> rd_vetoes d = [])
  /\ (rd_approved d = false ->
      rd_approved_lots d = ZERO /\ rd_risk_amount d = ZERO /\ rd_risk_pct d = ZERO)
  /\ (ctx_kill_switch ctx = true \/ ctx_halted ctx = true
      \/ (exists dd, (0 < dval (ctx_equity_peak ctx))%Q /\ peak_drawdown ctx = Ok dd
                     /\ (dval (rc_max_drawdown_halt_pct cfg) <= dval dd)%Q) ->
      halting d = true /\ rd_approved d = false).
Proof.
  destruct (evaluate_entry_shape _ _ _ _ H) as (stops & Es & (rest & Ev) & Ea & Hz).
  split; [rewrite Ea; apply bool_decide_eq_true|]. split; [exact Hz|]. intros Hc.
  assert (Hh : existsb (fun v => bool_decide (v_severity v = HALT)) stops = true).
  { revert Es. unfold absolute_stops. intros Es.
    destruct (if ctx_equity_peak ctx >? 0 then _ else _) as [ddv|] eqn:Ed; [|discriminate].
    cbn [rbind] in Es. apply Ok_inj in Es. subst stops. rewrite !existsb_app.
    destruct Hc as [->|[->|(dd & Hp & Hdd & Hle)]]; cbn; [reflexivity|now rewrite Bool.orb_true_r|].
    assert (E0 : dltb 0 (ctx_equity_peak ctx) = true) by (apply dltb_spec; exact Hp).
    rewrite E0, Hdd in Ed. cbn [rbind] in Ed. apply dleb_spec in Hle. rewrite Hle in Ed. injection Ed as <-.
    cbn. now rewrite !Bool.orb_true_r. }
  split.
  - unfold halting. now rewrite Ev, existsb_app, Hh.
  - rewrite Ea, Ev. apply bool_decide_eq_false_2. destruct stops; [discriminate Hh|discriminate].
Qed.

Lemma evaluate_entry_decision_witness :
  (rd_approved demo_decision = true <-> rd_vetoes demo_decision = []).
Proof.
  apply (evaluate_entry_decision default_risk_config demo_intent demo_context demo_decision).
  vm_compute. reflexivity.
Defined.

(** Closing risk is never refused: an exit is approved for the whole
    position in every context, even one whose entries all halt. *)
Theorem evaluate_exit_always (position : Position) (ctx : RiskContext) :
  let d := evaluate_exit position ctx in
  rd_approved d = true /\ rd_vetoes d = [] /\ halting d = false /\ rd_approved_lots d = pos_lots position.
Proof. repeat split. Qed.

(** The take-profit check can leave the engine by an exception instead of
    a veto: a take-profit at the entry price passes the intent's own
    validation, and [evaluate_entry] then raises from the break-even formula. *)
Theorem evaluate_entry_raises_on_flat_target :
  let intent := mkOrderIntent "c1" "trend" "EUR_USD" BUY 0.01 MARKET None (Some 1.0950) (Some 1.1000) 0 0 0 0 in
  OrderIntent_post_init intent = Ok tt
  /\ evaluate_entry default_risk_config intent demo_context = Raise ValueError.
Proof. vm_compute. split; reflexivity. Qed.

(** The risk map does not sum the book: positions on the intent's
    instrument at the intent's entry price are dropped, however many there are
    and whatever they risk, so only the new trade's risk is left. *)
Theorem risk_map_drops_same_price (intent : OrderIntent) (entry_ref amount : decimal) (book : list Position) :
  let same p := bool_decide (pos_instrument p = oi_instrument intent) && (pos_entry_price p =? entry_ref) in
  risk_map intent entry_ref amount (List.filter (fun p => same p) book) = {[ oi_instrument intent := ZERO + amount ]}.
Proof.
  cbv zeta. unfold risk_map.
  assert (E : fold_left (risk_step intent entry_ref)
    (List.filter (fun p => bool_decide (pos_instrument p = oi_instrument intent) && (pos_entry_price p =? entry_ref)) book)
    ∅ = ∅).
  { induction book as [|p book IH]; [reflexivity|]. cbn [List.filter].
    case_if E; [|exact IH]. cbn [fold_left]. unfold risk_step at 2. rewrite E. exact IH. }
  rewrite E. unfold add_at, get0. now rewrite lookup_empty.
Qed.

(** The engine always answers: on validated instruments, quotes and costs,
    with a take-profit off the entry price and a representable pace and stress
    cap, [evaluate_entry] returns a decision and does not raise. *)
Theorem evaluate_entry_total (cfg : RiskConfig) (intent : OrderIntent) (ctx : RiskContext)
    (HE : Entry_ok cfg intent ctx) : exists d, evaluate_entry cfg intent ctx = Ok d.
Proof.
  unfold evaluate_entry. destruct (absolute_stops_total cfg ctx) as [st ->]. cbn [rbind]. cbv zeta.
  destruct (ctx_instruments ctx !! _) as [inst|] eqn:Ei; [|eauto].
  destruct (ctx_quotes ctx !! _) as [quote|] eqn:Eq; [|eauto].
  destruct (conversion ctx _) as [conv|] eqn:Ec; [|eauto].
  destruct (conv <=? 0) eqn:Ecp; [eauto|]. apply dleb_false in Ecp.
  pose proof (ok_pip _ (si_inst _ _ _ (eo_inst _ _ _ HE _ Ei))) as Hp. unfold spread_pips, spread.
  destruct (ddiv_total (q_ask quote - q_bid quote) (inst_pip inst)) as [sp Esp]; [lra|]. rewrite Esp. cbn [rbind].
  destruct (oi_stop_loss intent) as [sl|]; [|eauto].
  apply evaluate_sized_total; auto.
  eapply ddiv_nonneg; [| |exact Esp]; [|exact Hp].
  pose proof (proj1 (eo_quote _ _ _ HE _ Eq)) as Hq.
  apply (rnonneg (dval (q_ask quote) - dval (q_bid quote))); [lra|apply dsub_R].
Qed.

Lemma evaluate_entry_total_witness : exists d, evaluate_entry default_risk_config demo_intent demo_context = Ok d.
Proof. apply (evaluate_entry_total default_risk_config demo_intent demo_context). exact demo_entry_ok. Defined.

(** The standing alarms always exist; the one halting alarm is raised
    exactly when the drawdown has reached its threshold, and a blocking
    "unprotected_position" alarm exactly when a required venue-side stop is
    missing from some open position. *)
Theorem portfolio_alarms_spec (cfg : RiskConfig) (ctx : RiskContext) :
  exists out dd, portfolio_alarms cfg ctx = Ok out /\ drawdown_pct ctx = Ok dd
    /\ ((exists v, v ∈ out /\ v_severity v = HALT) <->
        (dval (rc_max_drawdown_halt_pct cfg) <= dval dd)%Q)
    /\ (mkVeto "unprotected_position" BLOCK ∈ out <->
        rc_require_broker_side_stop cfg = true
        /\ exists p, p ∈ ctx_positions ctx /\ pos_broker_stop_confirmed p = false).
Proof.
  unfold portfolio_alarms. destruct (drawdown_pct_total ctx) as [dd Ed]. rewrite Ed. cbn [rbind].
  assert (M : exists l, margin_level_pct (ctx_account ctx) = Ok l).
  { unfold margin_level_pct. case_if E; [eauto|]. apply dleb_false in E. change (dval 0) with 0%Q in E.
    destruct (ddiv_total (acc_equity (ctx_account ctx)) (acc_margin_used (ctx_account ctx))) as [q ->]; [lra|].
    cbn [rbind]. eauto. }
  destruct M as [l ->]. cbn [rbind]. eexists _, dd. split; [reflexivity|]. split; [reflexivity|].
  set (hl := if rc_max_drawdown_halt_pct cfg <=? dd then _ else _).
  set (ml := match l with Some _ => _ | None => _ end).
  assert (Hm : forall v, v ∈ ml -> v_rule v = "margin_level" /\ v_severity v <> HALT).
  { unfold ml. destruct l as [x|]; [|set_solver]. case_if E1; [|set_solver]. intros v Hv.
    apply list_elem_of_singleton in Hv as ->. cbn. case_if E2; split; auto; discriminate. }
  assert (Hw : forall b r v, v ∈ veto_when b r -> b = true /\ v = mkVeto r BLOCK).
  { intros [] r v Hv; cbn in Hv; [apply list_elem_of_singleton in Hv; auto|set_solver]. }
  assert (Hu : forall v, v ∈ flat_map (fun p => veto_when (rc_require_broker_side_stop cfg && negb (pos_broker_stop_confirmed p))
                              "unprotected_position") (ctx_positions ctx) <->
    v = mkVeto "unprotected_position" BLOCK /\ rc_require_broker_side_stop cfg = true
        /\ exists p, p ∈ ctx_positions ctx /\ pos_broker_stop_confirmed p = false).
  { intros v. rewrite list_elem_of_In, in_flat_map. split.
    - intros (p & Hp & Hv). apply list_elem_of_In, Hw in Hv as [Hb ->]. apply andb_prop in Hb as [H1 H2].
      apply negb_true_iff in H2. apply list_elem_of_In in Hp. eauto.
    - intros (-> & Hr & p & Hp & Hc). exists p. rewrite Hr, Hc. apply list_elem_of_In in Hp. split; [exact Hp|now left]. }
  split; split.
  - intros (v & Hv & Hs). rewrite !elem_of_app in Hv. destruct Hv as [Hv|[Hv|[Hv|Hv]]].
    + unfold hl in Hv. case_if_in Hv E; [now apply dleb_spec|set_solver].
    + destruct (Hm v Hv); contradiction.
    + apply Hu in Hv as [-> _]. discriminate.
    + apply Hw in Hv as [_ ->]. discriminate.
  - intros H. apply dleb_spec in H. exists (mkVeto "max_drawdown" HALT). split; [|reflexivity].
    apply elem_of_app. left. unfold hl. rewrite H. now left.
  - rewrite !elem_of_app. intros [Hv|[Hv|[Hv|Hv]]].
    + unfold hl in Hv. case_if_in Hv E; [|set_solver]. apply list_elem_of_singleton in Hv. discriminate.
    + destruct (Hm _ Hv) as [C _]. discriminate.
    + apply Hu in Hv. tauto.
    + apply Hw in Hv as [_ C]. discriminate.
  - intros H. rewrite !elem_of_app. right. right. left. apply Hu. auto.
Qed.
