(* ===== verification/Protect.v ===== *)
(** [sentinel/risk/protect.py]: profit protection.  [evaluate_protection] is
    the composition of its four rules and of the collapse of competing
    instructions; an instruction keeps its action, stop, size and rule, its
    explanatory text is presentation.  The time stop and the weekend flat are at
    the end. *)

From Stdlib Require Import ZArith QArith Qabs Lia Lqa.
From stdpp Require Import base strings list.
From S2P Require Import Prelude PyDecimal DecimalTheory Money Types Config Calendar TzRules.

Local Open Scope dec_scope.
Local Open Scope py_scope.

Inductive ProtectAction := MOVE_STOP | PARTIAL_CLOSE | CLOSE.
#[export] Instance ProtectAction_eq_dec : EqDecision ProtectAction.
Proof. solve_decision. Defined.

Record ProtectInstruction := mkInstruction {
  pi_action : ProtectAction;
  pi_instrument : string;
  pi_new_stop : option decimal;
  pi_close_lots : option decimal;
  pi_r_at_trigger : decimal;
  pi_rule : string
}.

(** [_tighter]. *)
Definition tighter (side : Side) (current : option decimal) (candidate : decimal) : bool :=
  match current with
  | None => true
  | Some c => match side with BUY => candidate >? c | SELL => candidate <? c end
  end.

(** [_price_at_r]. *)
Definition price_at_r (position : Position) (instrument : Instrument) (target_r risk_distance : decimal)
    : res (option decimal) :=
  if risk_distance <=? 0 then Ok None
  else
    let* p := round_price instrument
                (pos_entry_price position + risk_distance * target_r * sign (pos_side position)) in
    Ok (Some p).

(** [_breakeven_buffer]. *)
Definition breakeven_buffer (instrument : Instrument) (position : Position) (quote_to_account : decimal)
    (cost_model : option CostModel) : decimal :=
  match cost_model with
  | None => inst_pip instrument * 1.5
  | Some cm =>
      let pip_val := pip_value_quote instrument (pos_lots position) * quote_to_account in
      match round_trip_pips cm (pos_lots position) pip_val false with
      | Raise _ => inst_pip instrument * 1.5
      | Ok cost_pips =>
          if cost_pips <=? 0 then inst_pip instrument * 1.5
          else cost_pips * inst_pip instrument + inst_tick instrument
      end
  end.

Section Rules.
Variable position : Position.
Variable quote : Quote.
Variable instrument : Instrument.
Variable config : RiskConfig.
Variable atr : option decimal.
Variable quote_to_account : decimal.
Variable cost_model : option CostModel.

Definition side := pos_side position.
Definition entry := pos_entry_price position.

Definition move_stop (candidate r : decimal) (rule : string) : ProtectInstruction :=
  mkInstruction MOVE_STOP (pos_instrument position) (Some candidate) None r rule.

(** The market price a stop would trigger at. *)
Definition market_ref : decimal := price_for quote (opposite side).

(** [candidate >= ref] for a long, [candidate <= ref] for a short. *)
Definition beyond (candidate : decimal) : bool :=
  match side with BUY => candidate >=? market_ref | SELL => candidate <=? market_ref end.

(** One R in price terms. *)
Definition risk_distance : res decimal :=
  let pip_val := pip_value_quote instrument (pos_lots position) * quote_to_account in
  let* d := if (pos_initial_risk position >? 0) && (pip_val >? 0)
            then (let* q := ddiv (pos_initial_risk position) pip_val in Ok (q * inst_pip instrument))
            else Ok ZERO in
  if d <=? 0 then
    match pos_stop_loss position with
    | Some sl => Ok (if is_zero sl then d else dabs (entry - sl))
    | None => Ok d
    end
  else Ok d.

(** ** 1. Break-even *)

Definition breakeven_candidate : res decimal :=
  let buffer := breakeven_buffer instrument position quote_to_account cost_model in
  let* candidate := round_price instrument (entry + buffer * sign side) in
  if (candidate - entry) * sign side <=? 0
  then round_price instrument (entry + inst_tick instrument * sign side)
  else Ok candidate.

Definition breakeven_rule (r distance : decimal) : res (list ProtectInstruction) :=
  if (rc_breakeven_trigger_r config >? 0) && negb (pos_breakeven_moved position)
     && (r >=? rc_breakeven_trigger_r config) && (distance >? 0)
  then
    let* candidate := breakeven_candidate in
    Ok (if tighter side (pos_stop_loss position) candidate then [move_stop candidate r "breakeven"] else [])
  else Ok [].

(** ** 2. Partial take *)

Definition partial_rule (r : decimal) : res (list ProtectInstruction) :=
  if (rc_partial_take_fraction config >? 0) && negb (pos_partial_taken position)
     && (rc_partial_take_r config >? 0) && (r >=? rc_partial_take_r config)
  then
    let* lots := round_lots_down instrument (pos_lots position * rc_partial_take_fraction config) in
    let remaining := pos_lots position - lots in
    Ok (if (lots >=? inst_min_lot instrument) && (remaining >=? inst_min_lot instrument)
        then [mkInstruction PARTIAL_CLOSE (pos_instrument position) None (Some lots) r "partial_take"]
        else [])
  else Ok [].

(** ** 3. ATR trail *)

Definition trail_rule (r : decimal) : res (list ProtectInstruction) :=
  match atr with
  | Some a =>
      if (rc_trail_atr_multiple config >? 0) && (negb (is_zero a) && (a >? 0))
         && (r >=? rc_trail_activate_r config)
      then
        let* candidate := round_price instrument
                            (market_ref - a * rc_trail_atr_multiple config * sign side) in
        Ok (if tighter side (pos_stop_loss position) candidate && negb (beyond candidate)
            then [move_stop candidate r "atr_trail"] else [])
      else Ok []
  | None => Ok []
  end.

(** ** 4. Give-back ratchet *)

Definition giveback_rule (r distance : decimal) : res (list ProtectInstruction) :=
  let peak := pos_max_favourable position in
  if (rc_giveback_arm_r config >? 0) && (distance >? 0) && (peak >=? rc_giveback_arm_r config)
  then
    let floor_r := peak * rc_giveback_keep_fraction config in
    let* candidate := price_at_r position instrument floor_r distance in
    Ok (match candidate with
        | None => []
        | Some c =>
            if tighter side (pos_stop_loss position) c
            then if beyond c
                 then [mkInstruction CLOSE (pos_instrument position) None None r "giveback"]
                 else [move_stop c r "giveback"]
            else []
        end)
  else Ok [].

(** ** Collapse *)

Definition is_action (a : ProtectAction) (i : ProtectInstruction) : bool := bool_decide (pi_action i = a).

Definition stop_of (i : ProtectInstruction) : decimal := default ZERO (pi_new_stop i).

(** [max(stop_moves, key=...)] for a long, [min] for a short: the first best. *)
Definition safest (first : ProtectInstruction) (rest : list ProtectInstruction) : ProtectInstruction :=
  fold_left (fun best i =>
               if match side with
                  | BUY => stop_of best <? stop_of i
                  | SELL => stop_of i <? stop_of best
                  end then i else best) rest first.

Definition collapse (out : list ProtectInstruction) : list ProtectInstruction :=
  if existsb (is_action CLOSE) out then firstn 1 (List.filter (is_action CLOSE) out)
  else
    match List.filter (is_action MOVE_STOP) out with
    | first :: ((_ :: _) as rest) =>
        List.filter (fun i => negb (is_action MOVE_STOP i)) out ++ [safest first rest]
    | _ => out
    end.

Definition evaluate_protection : res (list ProtectInstruction) :=
  if pos_initial_risk position <=? 0 then Ok []
  else
    let* ro := r_multiple position quote instrument quote_to_account in
    match ro with
    | None => Ok []
    | Some r =>
        let* distance := risk_distance in
        let* i1 := breakeven_rule r distance in
        let* i2 := partial_rule r in
        let* i3 := trail_rule r in
        let* i4 := giveback_rule r distance in
        Ok (collapse (i1 ++ i2 ++ i3 ++ i4))
    end.
End Rules.

(** ** Time stop and weekend flat *)

Definition close_position (position : Position) (rule : string) : ProtectInstruction :=
  mkInstruction CLOSE (pos_instrument position) None None ZERO rule.

Definition time_stop (position : Position) (now_ns max_hold_sec : Z) : option ProtectInstruction :=
  if (max_hold_sec <=? 0)%Z then None
  else if negb (seconds_ltb (now_ns - pos_opened_ns position) max_hold_sec)
       then Some (close_position position "time_stop")
       else None.

(** [_ny_utc_offset_hours]. *)
Definition ny_utc_offset_hours (t : datetime) : res Z := utc_offset_hours "America/New_York" t.

Definition weekend_flat (position : Position) (now_ns : Z) (friday_close_utc_hour : option Z)
    (ny_close_hour : Z) : res (option ProtectInstruction) :=
  let* t := from_timestamp_ns now_ns 0 in
  if negb (dt_weekday t =? 4)%Z then Ok None
  else
    let* cutoff_utc := match friday_close_utc_hour with
                       | Some h => Ok h
                       | None => (let* off := ny_utc_offset_hours t in Ok (ny_close_hour - off)%Z)
                       end in
    Ok (if (cutoff_utc <=? dt_hour t)%Z then Some (close_position position "weekend_flat") else None).

(** ** What an instruction guarantees *)

Lemma filter_cons_true {A} (f : A -> bool) x xs : f x = true -> List.filter f (x :: xs) = x :: List.filter f xs.
Proof. intros H. cbn. now rewrite H. Qed.

Section Facts.
Variable position : Position.
Variable quote : Quote.
Variable instrument : Instrument.
Variable config : RiskConfig.

(** A price is strictly safer for the position than the stop in place, if any. *)
Definition strictly_safer (s : decimal) : Prop :=
  forall c, pos_stop_loss position = Some c ->
    match pos_side position with BUY => dval c < dval s | SELL => dval s < dval c end%Q.

(** A price the market, on the side the position closes at, has not reached. *)
Definition inside_market (s : decimal) : Prop :=
  match pos_side position with BUY => dval s < dval (q_bid quote) | SELL => dval (q_ask quote) < dval s end%Q.

Lemma tighter_safer s : tighter (pos_side position) (pos_stop_loss position) s = true -> strictly_safer s.
Proof. intros H c Hc. rewrite Hc in H. unfold tighter in H. destruct (pos_side position); now apply dltb_spec. Qed.

Lemma beyond_inside s : beyond position quote s = false -> inside_market s.
Proof.
  unfold beyond, inside_market, market_ref, side, price_for.
  destruct (pos_side position); cbn [opposite]; intros H; now apply dleb_false.
Qed.
#[local] Hint Resolve tighter_safer beyond_inside : core.

(** A stop is strictly tighter than the one in place; a trailing or give-back
    stop has not been passed by the market; a partial close leaves both parts
    tradable; the two one-shot rules fire only while their flag is clear. *)
Definition instruction_ok (i : ProtectInstruction) : Prop :=
  pi_instrument i = pos_instrument position /\
  match pi_action i with
  | MOVE_STOP => exists s, pi_new_stop i = Some s
      /\ strictly_safer s
      /\ (if bool_decide (pi_rule i = "breakeven") then pos_breakeven_moved position = false
          else inside_market s)
  | PARTIAL_CLOSE => exists l, pi_close_lots i = Some l /\ pos_partial_taken position = false
      /\ (dval (inst_min_lot instrument) <= dval l)%Q
      /\ (dval (inst_min_lot instrument) <= dval (pos_lots position - l))%Q
  | CLOSE => pi_rule i = "giveback"
  end.

Lemma breakeven_rule_ok qta cm r d out :
  breakeven_rule position instrument config qta cm r d = Ok out ->
  Forall instruction_ok out /\ Forall (fun i => pi_action i = MOVE_STOP) out.
Proof.
  unfold breakeven_rule. case_if E; [|intros <-%Ok_inj; auto].
  destruct (breakeven_candidate _ _ _ _) as [c|]; [|discriminate]. cbn [rbind]. intros <-%Ok_inj.
  rewrite !andb_true_iff, negb_true_iff in E. destruct E as [[[_ Eb] _] _].
  case_if Et; [|auto]. split; (constructor; [|constructor]); [|reflexivity].
  split; [reflexivity|]. cbn [move_stop pi_action pi_new_stop pi_rule].
  exists c. rewrite bool_decide_eq_true_2 by reflexivity. auto.
Qed.

Lemma partial_rule_ok r out :
  partial_rule position instrument config r = Ok out ->
  Forall instruction_ok out /\ Forall (fun i => pi_action i = PARTIAL_CLOSE) out.
Proof.
  unfold partial_rule. case_if E; [|intros <-%Ok_inj; auto].
  destruct (round_lots_down _ _) as [l|]; [|discriminate]. cbn [rbind]. cbv zeta. intros <-%Ok_inj.
  rewrite !andb_true_iff, negb_true_iff in E. destruct E as [[[_ Eb] _] _].
  case_if Et; [|auto]. apply andb_prop in Et as [E1 E2]. apply dleb_spec in E1, E2.
  split; (constructor; [|constructor]); [|reflexivity].
  split; [reflexivity|]. cbn [pi_action pi_close_lots]. eauto 6.
Qed.

Lemma trail_rule_ok atr r out :
  trail_rule position quote instrument config atr r = Ok out ->
  Forall instruction_ok out /\ Forall (fun i => pi_action i = MOVE_STOP) out.
Proof.
  unfold trail_rule. destruct atr as [a|]; [|intros <-%Ok_inj; auto]. case_if E; [|intros <-%Ok_inj; auto].
  destruct (round_price _ _) as [c|]; [|discriminate]. cbn [rbind]. intros <-%Ok_inj.
  case_if Et; [|auto]. apply andb_prop in Et as [E1 E2]. apply negb_true_iff in E2.
  split; (constructor; [|constructor]); [|reflexivity].
  split; [reflexivity|]. cbn [move_stop pi_action pi_new_stop pi_rule].
  exists c. rewrite bool_decide_eq_false_2 by discriminate. auto.
Qed.

Lemma giveback_rule_ok r d out :
  giveback_rule position quote instrument config r d = Ok out ->
  Forall instruction_ok out /\ (length out <= 1)%nat.
Proof.
  unfold giveback_rule. cbv zeta. case_if E; [|intros <-%Ok_inj; cbn; auto].
  destruct (price_at_r _ _ _ _) as [[c|]|]; [| |discriminate]; cbn [rbind]; intros <-%Ok_inj; [|cbn; auto].
  case_if Et; [|cbn; auto]. case_if Eb; (split; [constructor; [|constructor]|cbn; auto]); (split; [reflexivity|]).
  - reflexivity.
  - cbn [move_stop pi_action pi_new_stop pi_rule]. exists c. rewrite bool_decide_eq_false_2 by discriminate. auto.
Qed.
End Facts.

(** ** The collapse of competing instructions *)

Lemma safest_in p f rest : safest p f rest = f \/ safest p f rest ∈ rest.
Proof.
  unfold safest. revert f. induction rest as [|i rest IH]; intros f; cbn [fold_left]; [auto|].
  set (b := match side p with BUY => _ | SELL => _ end). clearbody b. destruct b; destruct (IH i), (IH f); set_solver.
Qed.

(** No stop at hand is tighter than the one kept. *)
Definition no_tighter (s : Side) (best i : ProtectInstruction) : Prop :=
  match s with BUY => dval (stop_of i) <= dval (stop_of best) | SELL => dval (stop_of best) <= dval (stop_of i) end%Q.

Lemma safest_best p f rest i : i ∈ f :: rest -> no_tighter (pos_side p) (safest p f rest) i.
Proof.
  assert (T : forall s a b c, no_tighter s a b -> no_tighter s b c -> no_tighter s a c)
    by (intros []; unfold no_tighter; intros; lra).
  assert (R : forall s a, no_tighter s a a) by (intros []; unfold no_tighter; intros; lra).
  unfold safest, side. revert f i. induction rest as [|j rest IH]; intros f i Hi; cbn [fold_left].
  - apply list_elem_of_singleton in Hi as ->. apply R.
  - set (b := match pos_side p with BUY => _ | SELL => _ end).
    assert (Hb : if b then no_tighter (pos_side p) j f else no_tighter (pos_side p) f j).
    { unfold b, no_tighter. destruct (pos_side p).
      - destruct (stop_of f <? stop_of j) eqn:E; [apply dltb_spec in E; lra|apply dltb_false in E; lra].
      - destruct (stop_of j <? stop_of f) eqn:E; [apply dltb_spec in E; lra|apply dltb_false in E; lra]. }
    clearbody b. rewrite !elem_of_cons in Hi. destruct b.
    + destruct Hi as [->|[->|Hi]]; [eapply T; [apply (IH j j); now left|exact Hb]|apply IH; now left|apply IH; now right].
    + destruct Hi as [->|[->|Hi]]; [apply IH; now left|eapply T; [apply (IH f f); now left|exact Hb]|apply IH; now right].
Qed.

Lemma filter_In_b {A} (f : A -> bool) xs x : x ∈ List.filter f xs <-> x ∈ xs /\ f x = true.
Proof. rewrite !list_elem_of_In. apply List.filter_In. Qed.

Lemma is_action_spec a i : is_action a i = true <-> pi_action i = a.
Proof. unfold is_action. apply bool_decide_eq_true. Qed.

Lemma collapse_incl p out i : i ∈ collapse p out -> i ∈ out.
Proof.
  unfold collapse. case_if E.
  - destruct (List.filter (is_action CLOSE) out) as [|c cs] eqn:Ef; cbn; [set_solver|].
    intros Hi. apply list_elem_of_singleton in Hi as ->.
    assert (H : c ∈ List.filter (is_action CLOSE) out) by (rewrite Ef; now left). now apply filter_In_b in H.
  - destruct (List.filter (is_action MOVE_STOP) out) as [|f [|g rest]] eqn:Ef; auto.
    rewrite elem_of_app, list_elem_of_singleton. intros [Hi| ->]; [now apply filter_In_b in Hi|].
    assert (H : safest p f (g :: rest) ∈ List.filter (is_action MOVE_STOP) out).
    { rewrite Ef. destruct (safest_in p f (g :: rest)) as [->|?]; [now left|now right]. }
    now apply filter_In_b in H.
Qed.

(** Competing instructions collapse to a decision: a close supersedes
    everything and stands alone; otherwise one stop move at most remains, it is
    the tightest of those proposed, and no other instruction is lost. *)
Theorem collapse_spec (p : Position) (out : list ProtectInstruction) :
  let kept := collapse p out in
  (forall i, i ∈ kept -> i ∈ out)
  /\ ((exists c, c ∈ out /\ pi_action c = CLOSE) -> exists c, kept = [c] /\ pi_action c = CLOSE)
  /\ ((forall c, c ∈ out -> pi_action c <> CLOSE) ->
      (length (List.filter (is_action MOVE_STOP) kept) <= 1)%nat
      /\ (forall i, i ∈ out -> pi_action i = MOVE_STOP ->
          exists best, best ∈ kept /\ pi_action best = MOVE_STOP /\ no_tighter (pos_side p) best i)
      /\ (forall i, i ∈ out -> pi_action i <> MOVE_STOP -> i ∈ kept)).
Proof.
  cbv zeta. split; [apply collapse_incl|]. unfold collapse. split.
  - intros (c & Hc & Ha). assert (E : existsb (is_action CLOSE) out = true).
    { apply existsb_exists. exists c. split; [now apply list_elem_of_In|now apply is_action_spec]. }
    rewrite E. destruct (List.filter (is_action CLOSE) out) as [|x xs] eqn:Ef.
    + assert (H : c ∈ List.filter (is_action CLOSE) out) by (apply filter_In_b; split; [exact Hc|now apply is_action_spec]).
      rewrite Ef in H. set_solver.
    + exists x. split; [reflexivity|]. apply is_action_spec.
      assert (H : x ∈ List.filter (is_action CLOSE) out) by (rewrite Ef; now left). now apply filter_In_b in H.
  - intros Hno. assert (E : existsb (is_action CLOSE) out = false).
    { apply Bool.not_true_iff_false. intros C. apply existsb_exists in C as (c & Hc & Ha).
      apply list_elem_of_In in Hc. apply is_action_spec in Ha. now apply (Hno c). }
    rewrite E. clear E Hno. set (ms := List.filter (is_action MOVE_STOP) out).
    assert (Hms : forall i, i ∈ out -> pi_action i = MOVE_STOP -> i ∈ ms)
      by (intros i Hi Ha; apply filter_In_b; split; [exact Hi|now apply is_action_spec]).
    assert (Hms' : forall i, i ∈ ms -> i ∈ out /\ pi_action i = MOVE_STOP)
      by (intros i Hi; apply filter_In_b in Hi as [? ?]; split; [assumption|now apply is_action_spec]).
    assert (R : forall s a, no_tighter s a a) by (intros []; unfold no_tighter; intros; lra).
    destruct ms as [|f [|g rest]] eqn:Em.
    + unfold ms in Em. rewrite Em. split; [cbn; lia|]. split; [intros i Hi Ha; specialize (Hms i Hi Ha); set_solver|auto].
    + unfold ms in Em. rewrite Em. split; [cbn; lia|]. split; [|auto].
      intros i Hi Ha. exists i. auto.
    + destruct (Hms' (safest p f (g :: rest))) as [_ Hsm];
        [destruct (safest_in p f (g :: rest)) as [->|?]; [now left|now right]|].
      split; [|split].
      * rewrite List.filter_app. assert (N : List.filter (is_action MOVE_STOP) (List.filter (fun i => negb (is_action MOVE_STOP i)) out) = []).
        { clear. induction out as [|x xs IH]; [reflexivity|]. cbn. destruct (is_action MOVE_STOP x) eqn:E; cbn; [exact IH|].
          rewrite E. exact IH. }
        rewrite N. cbn. destruct (is_action MOVE_STOP _); cbn; lia.
      * intros i Hi Ha. exists (safest p f (g :: rest)). split; [apply elem_of_app; right; now left|]. split; [exact Hsm|].
        apply safest_best. now apply Hms.
      * intros i Hi Ha. apply elem_of_app. left. apply filter_In_b. split; [exact Hi|].
        apply negb_true_iff, Bool.not_true_iff_false. intros C. apply is_action_spec in C. contradiction.
Qed.

(** ** The rules return *)

(** Prices whose grid step count fits the quantizing precision. *)
Definition price_range (i : Instrument) : Q := p10 (33 + expo (inst_tick i)).

Definition price_ok (i : Instrument) (p : decimal) : Prop :=
  (Qabs (dval p) <= price_range i * (1 # 2))%Q.

Lemma div34_magnitude v ex q :
  (0 < dval ex)%Q -> div_ 34 v ex = Ok q -> (Qabs (dval q) <= Qabs (dval v) / dval ex * (1 + ulp 34))%Q.
Proof.
  intros Hex Hq. apply div_rounded in Hq; [|lia]. destruct Hq as [_ _ He].
  assert (E : (Qabs (dval v / dval ex) == Qabs (dval v) / dval ex)%Q).
  { unfold Qdiv. rewrite Qabs_Qmult. setoid_replace (Qabs (/ dval ex))%Q with (/ dval ex)%Q; [reflexivity|].
    apply Qabs_pos, Qlt_le_weak, Qinv_lt_0_compat, Hex. }
  rewrite E in He. pose proof (Qabs_triangle (dval q - dval v / dval ex) (dval v / dval ex)) as T.
  assert (E2 : (dval q - dval v / dval ex + dval v / dval ex == dval q)%Q) by ring.
  rewrite E2, E in T. set (y := (Qabs (dval v) / dval ex)%Q) in *. clearbody y.
  assert (E3 : (y * (1 + ulp 34) == y * ulp 34 + y)%Q) by ring. rewrite E3. lra.
Qed.

Lemma round_price_total i p :
  Instrument_ok i -> (dval (inst_tick i) <= price_range i)%Q -> price_ok i p ->
  exists z, round_price i p = Ok (mkDec (z * coef (inst_tick i)) (expo (inst_tick i))).
Proof.
  intros Hi Ht Hp. set (ex := inst_tick i) in *. pose proof (ok_tick _ Hi) as Hex. fold ex in Hex.
  unfold round_price. fold ex. unfold quantize.
  assert (E0 : dleb ex 0 = false) by (apply dleb_false; exact Hex). rewrite E0.
  destruct (div_total 34 p ex) as [q Hq]; [lra|]. rewrite Hq. cbn [rbind].
  destruct (to_integral_half_even q) as (z & Ez & Hz). exists z.
  pose proof (div34_magnitude p ex q Hex Hq) as Hm.
  assert (Hc : (0 < coef ex)%Z) by now apply coef_pos.
  assert (Hb : (Z.abs (z * coef ex) < 10 ^ 34)%Z).
  { apply (scaled_lt _ _ (expo ex)). rewrite <- p10_Z by lia. rewrite <- p10_add.
    assert (E : (inject_Z (Z.abs (z * coef ex)) * p10 (expo ex) == inject_Z (Z.abs z) * dval ex)%Q).
    { rewrite Z.abs_mul, (Z.abs_eq (coef ex)), inject_Z_mult by lia. unfold dval. ring. }
    rewrite E. unfold price_ok, price_range in *. fold ex in Ht, Hp.
    replace (34 + expo ex)%Z with (1 + (33 + expo ex))%Z by lia. rewrite p10_add. change (p10 1) with 10%Q.
    set (R := p10 (33 + expo ex)) in *.
    assert (Hz2 : (inject_Z (Z.abs z) <= Qabs (dval q) + (1 # 2))%Q).
    { pose proof (Qabs_triangle (inject_Z z - dval q) (dval q)) as T.
      assert (E2 : (inject_Z z - dval q + dval q == inject_Z z)%Q) by ring. rewrite E2 in T.
      change (Qabs (inject_Z z)) with (inject_Z (Z.abs z)) in T. lra. }
    apply Qle_lt_trans with ((Qabs (dval p) / dval ex * (1 + ulp 34) + (1 # 2)) * dval ex)%Q.
    - apply Qmult_le_compat_r; [|lra]. lra.
    - assert (E3 : ((Qabs (dval p) / dval ex * (1 + ulp 34) + (1 # 2)) * dval ex
                    == Qabs (dval p) * (1 + ulp 34) + (1 # 2) * dval ex)%Q) by (field; lra).
      rewrite E3. assert (HR : (0 < R)%Q) by (unfold R; apply p10_pos).
      assert (U : (Qabs (dval p) * (1 + ulp 34) <= R * (1 # 2) * 2)%Q).
      { apply Qle_trans with (R * (1 # 2) * (1 + ulp 34))%Q; [apply Qmult_le_compat_r; [exact Hp|vm_compute; discriminate]|].
        apply Qmult_le_left; [lra|vm_compute; discriminate]. }
      lra. }
  apply quantize_on_grid; [lia|exact Hb|].
  assert (Hv : (dval (to_integral_value ROUND_HALF_EVEN q) * dval ex == inject_Z (z * coef ex) * p10 (expo ex))%Q).
  { rewrite Ez, inject_Z_mult. unfold dval. ring. }
  rewrite <- Hv. eapply (Rounded_exact (p := 34)); [|apply mul_rounded; lia].
  exists (z * coef ex)%Z, (expo ex). split; [lia|exact Hv].
Qed.

Section Protection.
Variable position : Position.
Variable quote : Quote.
Variable instrument : Instrument.
Variable config : RiskConfig.
Variable atr : option decimal.
Variable qta : decimal.
Variable cm : option CostModel.

(** The prices the rules round and the size they cut are within the range of
    the grids. *)
Record Prices_ok : Prop := {
  po_inst : Instrument_ok instrument;
  po_tick : (dval (inst_tick instrument) <= price_range instrument)%Q;
  po_lots : (dval (pos_lots position * rc_partial_take_fraction config) < lot_range instrument)%Q;
  po_breakeven : price_ok instrument
    (pos_entry_price position + breakeven_buffer instrument position qta cm * sign (pos_side position));
  po_nudge : price_ok instrument (pos_entry_price position + inst_tick instrument * sign (pos_side position));
  po_trail : forall a, atr = Some a ->
    price_ok instrument (market_ref position quote - a * rc_trail_atr_multiple config * sign (pos_side position));
  po_giveback : forall d, risk_distance position instrument qta = Ok d ->
    price_ok instrument (pos_entry_price position
      + d * (pos_max_favourable position * rc_giveback_keep_fraction config) * sign (pos_side position))
}.

Hypothesis HP : Prices_ok.

Lemma rounds p : price_ok instrument p -> exists c, round_price instrument p = Ok c.
Proof. intros H. destruct (round_price_total instrument p (po_inst HP) (po_tick HP) H) as [z ->]. eauto. Qed.

Lemma risk_distance_total : exists d, risk_distance position instrument qta = Ok d.
Proof.
  unfold risk_distance. cbv zeta.
  assert (D : exists d, (if (pos_initial_risk position >? 0) && (pip_value_quote instrument (pos_lots position) * qta >? 0)
    then (let* q := ddiv (pos_initial_risk position) (pip_value_quote instrument (pos_lots position) * qta) in
          Ok (q * inst_pip instrument)) else Ok ZERO) = Ok d).
  { case_if E; [|eauto]. apply andb_prop in E as [_ E]. apply dltb_spec in E. change (dval 0) with 0%Q in E.
    destruct (ddiv_total (pos_initial_risk position) (pip_value_quote instrument (pos_lots position) * qta)) as [q ->]; [lra|].
    cbn [rbind]. eauto. }
  destruct D as [d ->]. cbn [rbind]. case_if E; [|eauto]. destruct (pos_stop_loss position); eauto.
Qed.

Lemma breakeven_rule_total r d : exists out, breakeven_rule position instrument config qta cm r d = Ok out.
Proof.
  unfold breakeven_rule. case_if E; [|eauto].
  assert (C : exists c, breakeven_candidate position instrument qta cm = Ok c).
  { unfold breakeven_candidate, entry, side. cbv zeta. destruct (rounds _ (po_breakeven HP)) as [c ->]. cbn [rbind].
    case_if E1; [|eauto]. apply rounds, po_nudge, HP. }
  destruct C as [c ->]. cbn [rbind]. eauto.
Qed.

Lemma partial_rule_total r : exists out, partial_rule position instrument config r = Ok out.
Proof.
  unfold partial_rule. case_if E; [|eauto].
  assert (C : exists l, round_lots_down instrument (pos_lots position * rc_partial_take_fraction config) = Ok l).
  { destruct (pos_lots position * rc_partial_take_fraction config <=? 0) eqn:E0;
      [unfold round_lots_down; rewrite E0; eauto|]. apply dleb_false in E0.
    destruct (round_lots_down_ok instrument _ (po_inst HP) E0 (po_lots HP)) as (q & k & _ & _ & _ & _ & ->). eauto. }
  destruct C as [l ->]. cbn [rbind]. eauto.
Qed.

Lemma trail_rule_total r : exists out, trail_rule position quote instrument config atr r = Ok out.
Proof.
  unfold trail_rule. destruct atr as [a|] eqn:Ea; [|eauto]. case_if E; [|eauto].
  destruct (rounds _ (po_trail HP a Ea)) as [c Hc]. unfold side. rewrite Hc. cbn [rbind]. eauto.
Qed.

Lemma giveback_rule_total r d :
  risk_distance position instrument qta = Ok d ->
  exists out, giveback_rule position quote instrument config r d = Ok out.
Proof.
  intros Hd. unfold giveback_rule, price_at_r. cbv zeta. case_if E; [|eauto].
  case_if E1; [cbn [rbind]; eauto|].
  destruct (rounds _ (po_giveback HP d Hd)) as [c ->]. cbn [rbind]. eauto.
Qed.

Lemma r_multiple_total : (0 < dval (pos_initial_risk position))%Q ->
  exists r, r_multiple position quote instrument qta = Ok r.
Proof.
  intros H. unfold r_multiple. case_if E; [eauto|].
  destruct (ddiv_total (unrealised position quote instrument qta) (pos_initial_risk position)) as [r ->]; [lra|].
  cbn [rbind]. eauto.
Qed.
End Protection.

(** Every run of the protection, rule by rule. *)
Lemma evaluate_protection_cases position quote instrument config atr qta cm :
  Prices_ok position quote instrument config atr qta cm ->
  evaluate_protection position quote instrument config atr qta cm = Ok []
  \/ exists i1 i2 i3 i4,
       evaluate_protection position quote instrument config atr qta cm
         = Ok (collapse position (i1 ++ i2 ++ i3 ++ i4))
       /\ Forall (instruction_ok position quote instrument) (i1 ++ i2 ++ i3 ++ i4).
Proof.
  intros HP. unfold evaluate_protection. destruct (pos_initial_risk position <=? 0) eqn:E; [auto|]. apply dleb_false in E.
  destruct (r_multiple_total position quote instrument qta E) as [[r|] ->]; cbn [rbind]; [right|auto].
  destruct (risk_distance_total position instrument qta) as [d Hd]. rewrite Hd. cbn [rbind].
  destruct (breakeven_rule_total _ _ _ _ _ _ _ HP r d) as [i1 H1]. rewrite H1. cbn [rbind].
  destruct (partial_rule_total _ _ _ _ _ _ _ HP r) as [i2 H2]. rewrite H2. cbn [rbind].
  destruct (trail_rule_total _ _ _ _ _ _ _ HP r) as [i3 H3]. rewrite H3. cbn [rbind].
  destruct (giveback_rule_total _ _ _ _ _ _ _ HP r d Hd) as [i4 H4]. rewrite H4. cbn [rbind].
  exists i1, i2, i3, i4. split; [reflexivity|].
  apply (breakeven_rule_ok position quote) in H1 as [F1 _]. apply (partial_rule_ok position quote) in H2 as [F2 _].
  apply trail_rule_ok in H3 as [F3 _]. apply giveback_rule_ok in H4 as [F4 _].
  now repeat (apply List.Forall_app; split).
Qed.

(** C36: protection never fails on prices in range and never gives ground:
    every stop it proposes is strictly tighter than the one in place, trailing
    and give-back stops are on the right side of the market, a partial close
    leaves both parts tradable, and the one-shot rules do not fire again once
    their flag is set. *)
Theorem protection_only_tightens (position : Position) (quote : Quote) (instrument : Instrument)
    (config : RiskConfig) (atr : option decimal) (qta : decimal) (cm : option CostModel)
    (HP : Prices_ok position quote instrument config atr qta cm) :
  exists out, evaluate_protection position quote instrument config atr qta cm = Ok out
    /\ Forall (instruction_ok position quote instrument) out.
Proof.
  destruct (evaluate_protection_cases _ _ _ _ _ _ _ HP) as [->|(i1 & i2 & i3 & i4 & -> & F)]; [eauto|].
  eexists. split; [reflexivity|]. apply List.Forall_forall. intros i Hi. apply list_elem_of_In, collapse_incl in Hi.
  rewrite List.Forall_forall in F. apply F. now apply list_elem_of_In.
Qed.

Definition demo_position : Position :=
  mkPosition "EUR_USD" BUY 1 1.1000 0 "trend" (Some 1.0950) None true None 0 0 0 500 2 0 false false.

Definition demo_market : Quote := mkQuote "EUR_USD" 1.1080 1.1081 0 0 "sim".

Lemma demo_floor :
  match risk_distance demo_position eur_usd 1 with
  | Ok d => Qle_bool (Qabs (dval (pos_entry_price demo_position
              + d * (pos_max_favourable demo_position * rc_giveback_keep_fraction default_risk_config)
                * sign (pos_side demo_position)))) (price_range eur_usd * (1 # 2))
  | Raise _ => false
  end = true.
Proof. vm_compute. reflexivity. Qed.

Lemma demo_prices_ok :
  Prices_ok demo_position demo_market eur_usd default_risk_config (Some 0.0010) 1 (Some (default_cost_model 0.8)).
Proof.
  split.
  - exact eur_usd_ok.
  - vm_compute. discriminate.
  - vm_compute. reflexivity.
  - vm_compute. discriminate.
  - vm_compute. discriminate.
  - intros a [= <-]. vm_compute. discriminate.
  - intros d Hd. pose proof demo_floor as F. rewrite Hd in F. now apply Qle_bool_iff in F.
Qed.

Lemma protection_only_tightens_witness :
  exists out, evaluate_protection demo_position demo_market eur_usd default_risk_config
                (Some 0.0010) 1 (Some (default_cost_model 0.8)) = Ok out
    /\ Forall (instruction_ok demo_position demo_market eur_usd) out.
Proof.
  apply (protection_only_tightens demo_position demo_market eur_usd default_risk_config
           (Some 0.0010) 1 (Some (default_cost_model 0.8))). exact demo_prices_ok.
Defined.

Example demo_protection :
  match evaluate_protection demo_position demo_market eur_usd default_risk_config
          (Some 0.0010) 1 (Some (default_cost_model 0.8)) with
  | Ok out => map (fun i => (pi_rule i, pi_new_stop i, pi_close_lots i)) out
  | Raise _ => []
  end = [("partial_take", None, Some 0.50); ("atr_trail", Some 1.10550, None)].
Proof. vm_compute. reflexivity. Qed.

(** ** The weekend *)

Lemma us_switch_sundays y s e :
  (1 <= y <= 9999)%Z -> nth_weekday y 3 6 2 = Ok s -> nth_weekday y 11 6 1 = Ok e ->
  weekday s = 6%Z /\ weekday e = 6%Z.
Proof.
  intros Hy Es Ee.
  destruct (nth_weekday_spec_aux y 3 6 2) as (d1 & E1 & _ & W1); try lia;
    [change (days_in_month y 3) with 31%Z; lia|].
  destruct (nth_weekday_spec_aux y 11 6 1) as (d2 & E2 & _ & W2); try lia;
    [change (days_in_month y 11) with 30%Z; lia|].
  rewrite E1 in Es. rewrite E2 in Ee. injection Es as <-. injection Ee as <-. auto.
Qed.

(** Sundays and Fridays are at least two days apart. *)
Lemma friday_sunday d s : weekday d = 4%Z -> weekday s = 6%Z -> (d - s <= -2 \/ 5 <= d - s)%Z.
Proof. unfold weekday. intros. Z.to_euclidean_division_equations. lia. Qed.

(** With the default margin the book is flattened exactly from 16:00 New
    York time on a Friday: on a Friday (in UTC) the position is closed if and
    only if the New York wall clock of that instant shows that Friday and an
    hour of 16 or later, in summer and in winter. *)
Theorem weekend_flat_new_york (position : Position) (now_ns : Z) (t : datetime)
    (Ht : from_timestamp_ns now_ns 0 = Ok t) (Hok : datetime_ok t = true) (Hy : (2 <= dt_year t <= 9998)%Z)
    (Hf : dt_weekday t = 4%Z) :
  exists r l, weekend_flat position now_ns None 16 = Ok r
    /\ utc_to_local t "America/New_York" = Ok l
    /\ (r = Some (close_position position "weekend_flat") <-> (dt_date l = dt_date t /\ 16 <= dt_hour l)%Z)
    /\ (r = None <-> ~ (dt_date l = dt_date t /\ 16 <= dt_hour l)%Z).
Proof.
  assert (HB : BASE "America/New_York" = Some (-5, RUs)%Z) by reflexivity.
  destruct (us_days (dt_year t) ltac:(lia)) as (s & e & Es & Ee & Hin).
  assert (Hs : switch_days RUs (dt_year t) = Some (Ok s, Ok e)) by (cbn [switch_days]; now rewrite Es, Ee).
  destruct (us_switch_sundays (dt_year t) s e ltac:(lia) Es Ee) as [Ws We].
  pose proof (friday_sunday _ _ Hf Ws) as Ds. pose proof (friday_sunday _ _ Hf We) as De.
  destruct (offset_hours _ _ _ t 0 s e HB Hok Hy ltac:(lia) Hs) as (b & E & C & _).
  rewrite Z.mul_0_l, Z.add_0_r in E.
  destruct (offset_hours _ _ _ t (-5 + b) s e HB Hok Hy ltac:(lia) Hs) as (b2 & E2 & C2 & _).
  pose proof (dt_hour_range t) as Hh. unfold hours_of in C, C2.
  assert (Eb : b2 = b). { lia. } subst b2.
  unfold weekend_flat. rewrite Ht. cbn [rbind]. rewrite Hf. cbn [Z.eqb Pos.eqb negb].
  unfold ny_utc_offset_hours. rewrite E. cbn [rbind].
  unfold utc_to_local. rewrite E. cbn [rbind]. rewrite (add_hours_room t) by (auto; lia). cbn [rbind].
  rewrite E2. cbn [rbind]. rewrite (add_hours_room t) by (auto; lia).
  eexists _, _. split; [reflexivity|]. split; [reflexivity|].
  pose proof (hours_of_add t (-5 + b)) as HL. unfold hours_of in HL.
  pose proof (dt_hour_range (t + (-5 + b) * HOUR_US)) as Hlh.
  destruct (Z.leb_spec (16 - (-5 + b)) (dt_hour t)); split; split; intros; try discriminate; try reflexivity; lia.
Qed.

Lemma weekend_flat_new_york_witness :
  exists r l, weekend_flat demo_position 1710536400000000000 None 16 = Ok r
    /\ utc_to_local 63846133200000000 "America/New_York" = Ok l
    /\ (r = Some (close_position demo_position "weekend_flat")
        <-> (dt_date l = dt_date 63846133200000000 /\ 16 <= dt_hour l)%Z)
    /\ (r = None <-> ~ (dt_date l = dt_date 63846133200000000 /\ 16 <= dt_hour l)%Z).
Proof.
  apply (weekend_flat_new_york demo_position 1710536400000000000).
  - vm_compute. reflexivity.
  - reflexivity.
  - vm_compute. split; discriminate.
  - reflexivity.
Defined.
