(* ===== verification/StateExn.v ===== *)
(** A state monad with exceptions, for code that changes its state and may
    raise: an exception keeps the changes made before it, as in Python.  [Steps]
    lifts a preorder on states to a computation, whether it returns or raises;
    [wp] is the weakest precondition of a computation for a postcondition on what
    it returns and one on what it raises; [Raises] bounds the exceptions of a
    computation.  The effectful components prove their
    invariants with them. *)

From stdpp Require Import base strings list.
From S2P Require Import Prelude.

Section Monad.
Context {S : Type}.

Definition M (A : Type) : Type := S -> S * res A.

Definition ret {A} (a : A) : M A := fun s => (s, Ok a).
Definition throw {A} (e : exn) : M A := fun s => (s, Raise e).
Definition mbind_ {A B} (c : M A) (k : A -> M B) : M B :=
  fun s => match c s with
           | (s', Ok a) => k a s'
           | (s', Raise e) => (s', Raise e)
           end.
Definition gets {A} (f : S -> A) : M A := fun s => (s, Ok (f s)).
Definition modify (f : S -> S) : M unit := fun s => (f s, Ok tt).

(** The outcome of a computation, as a value: [try: ... except]. *)
Definition attempt {A} (c : M A) : M (res A) :=
  fun s => match c s with (s', r) => (s', Ok r) end.

(** A pure result, raised if it is an exception. *)
Definition lift {A} (r : res A) : M A := fun s => (s, r).

Definition when (b : bool) (c : M unit) : M unit := if b then c else ret tt.

(** [for x in xs: f(x)]. *)
Fixpoint each {A} (f : A -> M unit) (xs : list A) : M unit :=
  match xs with
  | [] => ret tt
  | x :: rest => mbind_ (f x) (fun _ => each f rest)
  end.

(** [for x in xs: acc = f(acc, x)]. *)
Fixpoint fold_m {A B} (f : B -> A -> M B) (acc : B) (xs : list A) : M B :=
  match xs with
  | [] => ret acc
  | x :: rest => mbind_ (f acc x) (fun acc => fold_m f acc rest)
  end.

Lemma each_app {A} (f : A -> M unit) xs ys s : each f (xs ++ ys) s = mbind_ (each f xs) (fun _ => each f ys) s.
Proof.
  revert s. induction xs as [|x xs IH]; intros s; cbn [each app]; [reflexivity|].
  unfold mbind_ in *. destruct (f x s) as [s' [[]|e]]; [apply IH|reflexivity].
Qed.

(** ** Relating the states before and after *)

Definition Steps {A} (R : S -> S -> Prop) (c : M A) : Prop := forall s, R s (c s).1.

Section Rules.
Context (R : S -> S -> Prop) `{!PreOrder R}.

Lemma Steps_ret {A} (a : A) : Steps R (ret a).
Proof. intros s. cbn. reflexivity. Qed.

Lemma Steps_throw {A} e : Steps (A := A) R (throw e).
Proof. intros s. cbn. reflexivity. Qed.

Lemma Steps_gets {A} (f : S -> A) : Steps R (gets f).
Proof. intros s. cbn. reflexivity. Qed.

Lemma Steps_lift {A} (r : res A) : Steps R (lift r).
Proof. intros s. cbn. reflexivity. Qed.

Lemma Steps_bind {A B} (c : M A) (k : A -> M B) :
  Steps R c -> (forall a, Steps R (k a)) -> Steps R (mbind_ c k).
Proof.
  intros Hc Hk s. unfold mbind_. pose proof (Hc s) as H. destruct (c s) as [s' [a|e]]; cbn in *.
  - etransitivity; [exact H|apply Hk].
  - exact H.
Qed.

Lemma Steps_attempt {A} (c : M A) : Steps R c -> Steps R (attempt c).
Proof. intros Hc s. unfold attempt. pose proof (Hc s) as H. now destruct (c s). Qed.

Lemma Steps_modify f : (forall s, R s (f s)) -> Steps R (modify f).
Proof. intros H s. apply H. Qed.

Lemma Steps_when b c : Steps R c -> Steps R (when b c).
Proof. intros H. destruct b; [exact H|apply Steps_ret]. Qed.

Lemma Steps_each {A} (f : A -> M unit) xs : (forall x, Steps R (f x)) -> Steps R (each f xs).
Proof.
  intros H. induction xs as [|x xs IH]; [apply Steps_ret|]. cbn [each]. apply Steps_bind; auto.
Qed.

Lemma Steps_fold {A B} (f : B -> A -> M B) xs : (forall b x, Steps R (f b x)) -> forall b, Steps R (fold_m f b xs).
Proof.
  intros H. induction xs as [|x xs IH]; intros b; [apply Steps_ret|]. cbn [fold_m]. apply Steps_bind; auto.
Qed.
End Rules.

(** [R] from a predicate: it holds after if it held before. *)
Definition keeps (P : S -> Prop) (s s' : S) : Prop := P s -> P s'.
#[global] Instance keeps_preorder P : PreOrder (keeps P).
Proof. split; unfold keeps; [intros s; exact id|intros a b c; auto]. Qed.

(** From a state where the first operation keeps [P]. *)
Lemma keeps_bind_at {A B} (P : S -> Prop) (c : M A) (k : A -> M B) s :
  P (c s).1 -> (forall a, Steps (keeps P) (k a)) -> P (mbind_ c k s).1.
Proof. unfold mbind_. destruct (c s) as [s' [a|e]]; intros H Hk; [exact (Hk a s' H)|exact H]. Qed.

(** ** Weakest preconditions *)

Definition wp {A} (c : M A) (Q : A -> S -> Prop) (E : exn -> S -> Prop) (s : S) : Prop :=
  match c s with (s', Ok a) => Q a s' | (s', Raise e) => E e s' end.

Lemma wp_mono {A} (c : M A) (Q Q' : A -> S -> Prop) (E E' : exn -> S -> Prop) s :
  wp c Q E s -> (forall a s', Q a s' -> Q' a s') -> (forall e s', E e s' -> E' e s') -> wp c Q' E' s.
Proof. unfold wp. destruct (c s) as [s' [a|e]]; auto. Qed.

Lemma wp_same {A} (c c' : M A) Q E s : c s = c' s -> wp c' Q E s -> wp c Q E s.
Proof. unfold wp. now intros ->. Qed.

Lemma wp_bind {A B} (c : M A) (k : A -> M B) Q E s :
  wp c (fun a => wp (k a) Q E) E s -> wp (mbind_ c k) Q E s.
Proof. unfold wp, mbind_. destruct (c s) as [s' [a|e]]; auto. Qed.

Lemma wp_ret {A} (a : A) (Q : A -> S -> Prop) E s : Q a s -> wp (ret a) Q E s.
Proof. auto. Qed.
Lemma wp_throw {A} e (Q : A -> S -> Prop) (E : exn -> S -> Prop) s : E e s -> wp (throw e) Q E s.
Proof. auto. Qed.
Lemma wp_gets {A} (f : S -> A) (Q : A -> S -> Prop) E s : Q (f s) s -> wp (gets f) Q E s.
Proof. auto. Qed.
Lemma wp_modify f (Q : unit -> S -> Prop) E s : Q tt (f s) -> wp (modify f) Q E s.
Proof. auto. Qed.

Lemma wp_lift {A} (r : res A) (Q : A -> S -> Prop) (E : exn -> S -> Prop) s :
  (forall a, r = Ok a -> Q a s) -> (forall e, r = Raise e -> E e s) -> wp (lift r) Q E s.
Proof. unfold wp, lift. destruct r; auto. Qed.

Lemma wp_when b c (Q : unit -> S -> Prop) E s :
  (b = true -> wp c Q E s) -> (b = false -> Q tt s) -> wp (when b c) Q E s.
Proof. intros H1 H2. destruct b; [now apply H1|]. apply wp_ret. auto. Qed.

Lemma wp_attempt {A} (c : M A) (Q : res A -> S -> Prop) E s :
  wp c (fun a s' => Q (Ok a) s') (fun e s' => Q (Raise e) s') s -> wp (attempt c) Q E s.
Proof. unfold wp, attempt. now destruct (c s) as [s' [a|e]]. Qed.

(** A loop keeps what its body keeps. *)
Lemma wp_each {A} (f : A -> M unit) xs (I : S -> Prop) (E : exn -> S -> Prop) s :
  (forall x s, x ∈ xs -> I s -> wp (f x) (fun _ => I) E s) -> I s -> wp (each f xs) (fun _ => I) E s.
Proof.
  revert s. induction xs as [|x xs IH]; intros s Hf Hs; cbn [each]; [now apply wp_ret|].
  apply wp_bind. eapply wp_mono; [apply Hf; [left|exact Hs]| |auto].
  intros [] s' Hs'. apply IH; [|exact Hs']. intros y t Hy Ht. apply Hf; [now right|exact Ht].
Qed.

Lemma Steps_wp {A} (I : S -> Prop) (c : M A) :
  (forall s, I s -> wp c (fun _ => I) (fun _ => I) s) -> Steps (keeps I) c.
Proof. intros H s Hs. specialize (H s Hs). unfold wp in H. now destruct (c s) as [s' [a|e]]. Qed.

(** ** What a computation can raise *)

Definition Raises {A} (P : exn -> Prop) (c : M A) : Prop := forall s e, (c s).2 = Raise e -> P e.

Section Raising.
Context (P : exn -> Prop).

Lemma Raises_ret {A} (a : A) : Raises P (ret a).
Proof. intros s e. discriminate. Qed.
Lemma Raises_throw {A} e : P e -> Raises (A := A) P (throw e).
Proof. intros He s e' [= <-]. exact He. Qed.
Lemma Raises_gets {A} (f : S -> A) : Raises P (gets f).
Proof. intros s e. discriminate. Qed.
Lemma Raises_modify f : Raises P (modify f).
Proof. intros s e. discriminate. Qed.
Lemma Raises_lift {A} (r : res A) : (forall e, r = Raise e -> P e) -> Raises P (lift r).
Proof. intros H s e E. now apply H. Qed.
Lemma Raises_attempt {A} (c : M A) : Raises P (attempt c).
Proof. intros s e. unfold attempt. now destruct (c s). Qed.
Lemma Raises_bind {A B} (c : M A) (k : A -> M B) :
  Raises P c -> (forall a, Raises P (k a)) -> Raises P (mbind_ c k).
Proof.
  intros Hc Hk s e. unfold mbind_. pose proof (Hc s) as H. destruct (c s) as [s' [a|e']]; [apply Hk|].
  intros [= <-]. now apply H.
Qed.
Lemma Raises_when b c : Raises P c -> Raises P (when b c).
Proof. intros H. destruct b; [exact H|apply Raises_ret]. Qed.
Lemma Raises_each {A} (f : A -> M unit) xs : (forall x, Raises P (f x)) -> Raises P (each f xs).
Proof. intros H. induction xs as [|x xs IH]; [apply Raises_ret|]. cbn [each]. now apply Raises_bind. Qed.
End Raising.

(** Facts about one run put together. *)
Lemma wp_and {A} (c : M A) (Q Q' : A -> S -> Prop) (E E' : exn -> S -> Prop) s :
  wp c Q E s -> wp c Q' E' s -> wp c (fun a s' => Q a s' /\ Q' a s') (fun e s' => E e s' /\ E' e s') s.
Proof. unfold wp. destruct (c s) as [s' [a|e]]; auto. Qed.

Lemma wp_Raises {A} (P : exn -> Prop) (c : M A) s : Raises P c -> wp c (fun _ _ => True) (fun e _ => P e) s.
Proof. intros H. specialize (H s). unfold wp. destruct (c s) as [s' [a|e]]; [exact I|now apply H]. Qed.

Lemma wp_Steps {A} (R : S -> S -> Prop) (c : M A) s : Steps R c -> wp c (fun _ s' => R s s') (fun _ s' => R s s') s.
Proof. intros H. specialize (H s). unfold wp. now destruct (c s) as [s' [a|e]]. Qed.

Lemma wp_self {A} (c : M A) s : wp c (fun a s' => c s = (s', Ok a)) (fun e s' => c s = (s', Raise e)) s.
Proof. unfold wp. now destruct (c s) as [s' [a|e]]. Qed.

(** ** Computations that return *)

Lemma mbind_Ok {A B} (c : M A) (k : A -> M B) s s' b :
  mbind_ c k s = (s', Ok b) -> exists s1 a, c s = (s1, Ok a) /\ k a s1 = (s', Ok b).
Proof. unfold mbind_. destruct (c s) as [s1 [a|e]]; [eauto|discriminate]. Qed.

Lemma lift_Ok {A} (r : res A) s s' a : lift r s = (s', Ok a) -> s' = s /\ r = Ok a.
Proof. unfold lift. intros H. now injection H. Qed.
Lemma attempt_Ok {A} (c : M A) s s' r : attempt c s = (s', Ok r) -> c s = (s', r).
Proof. unfold attempt. destruct (c s) as [s1 r1]. congruence. Qed.

(** What a loop accumulates, from what its body does. *)
Lemma each_Ok {A} (f : A -> M unit) (g : A -> bool) (ok : S -> bool) xs :
  (forall x s s', f x s = (s', Ok tt) -> ok s' = ok s && g x) ->
  forall s s', each f xs s = (s', Ok tt) -> ok s' = ok s && forallb g xs.
Proof.
  intros Hf. induction xs as [|x xs IH]; intros s s'; cbn [each forallb].
  - intros [= <-]. now rewrite andb_true_r.
  - intros (s1 & [] & H1 & H2)%mbind_Ok. now rewrite (IH _ _ H2), (Hf _ _ _ H1), andb_assoc.
Qed.
End Monad.
Arguments M S A : clear implicits.

Notation "'let!' x ':=' c 'in' k" := (mbind_ c (fun x => k))
  (at level 10, x pattern, c at level 100, k at level 200) : py_scope.
Notation "c ;! k" := (mbind_ c (fun _ => k)) (at level 100, k at level 200, right associativity) : py_scope.

(** Split a computation into its operations. *)
Ltac steps :=
  repeat match goal with
  | |- Steps _ (mbind_ _ _) => apply Steps_bind; [try typeclasses eauto| |intros ?]
  | |- Steps _ (ret _) => apply Steps_ret; typeclasses eauto
  | |- Steps _ (throw _) => apply Steps_throw; typeclasses eauto
  | |- Steps _ (gets _) => apply Steps_gets; typeclasses eauto
  | |- Steps _ (lift _) => apply Steps_lift; typeclasses eauto
  | |- Steps _ (attempt _) => apply Steps_attempt
  | |- Steps _ (when _ _) => apply Steps_when; [try typeclasses eauto|]
  | |- Steps _ (each _ _) => apply Steps_each; [try typeclasses eauto|intros ?]
  | |- Steps _ (fold_m _ _ _) => apply Steps_fold; [try typeclasses eauto|intros ? ?]
  | |- Steps _ (if ?b then _ else _) => destruct b
  | |- Steps _ (match ?x with _ => _ end) => destruct x
  end.

(** Split a claim about exceptions into the operations. *)
Ltac raises_step :=
  match goal with
  | |- Raises _ (mbind_ _ _) => apply Raises_bind; [|intros ?]
  | |- Raises _ (ret _) => apply Raises_ret
  | |- Raises _ (throw _) => apply Raises_throw
  | |- Raises _ (gets _) => apply Raises_gets
  | |- Raises _ (modify _) => apply Raises_modify
  | |- Raises _ (lift _) => apply Raises_lift; intros ? ?
  | |- Raises _ (attempt _) => apply Raises_attempt
  | |- Raises _ (when _ _) => apply Raises_when
  | |- Raises _ (each _ _) => apply Raises_each; intros ?
  | |- Raises _ (if ?b then _ else _) => destruct b
  | |- Raises _ (match ?x with _ => _ end) => let E := fresh "E" in destruct x eqn:E
  end.

(** Run a computation symbolically down to the operations that have their own
    specification. *)
Ltac wp_step :=
  lazymatch goal with
  | |- wp (mbind_ _ _) _ _ _ => apply wp_bind
  | |- wp (ret _) _ _ _ => apply wp_ret
  | |- wp (throw _) _ _ _ => apply wp_throw
  | |- wp (gets _) _ _ _ => apply wp_gets
  | |- wp (modify _) _ _ _ => apply wp_modify
  | |- wp (attempt _) _ _ _ => apply wp_attempt
  | |- wp (lift _) _ _ _ => apply wp_lift; [intros ? ?|intros ? ?]
  | |- wp (when _ _) _ _ _ => apply wp_when; intros ?
  | |- wp (if ?b then _ else _) _ _ _ => let E := fresh "E" in destruct b eqn:E
  | |- wp (match ?x with _ => _ end) _ _ _ => let E := fresh "E" in destruct x eqn:E
  end.
Ltac wps := repeat (wp_step; cbn beta iota zeta).
