(* ===== verification/PyDict.v ===== *)
(** Python dictionaries with text keys, in insertion order: lookup, assignment,
    removal, the comprehension over a list and the merge of two dictionaries. *)

From Stdlib Require Import Lia.
From stdpp Require Import base strings list.
From S2P Require Import Prelude.

Section Dict.
Context {A : Type}.

Fixpoint dict_get (k : string) (d : list (string * A)) : option A :=
  match d with
  | [] => None
  | (k', v) :: rest => if bool_decide (k' = k) then Some v else dict_get k rest
  end.

(** [d[k] = v]: the key keeps its place. *)
Fixpoint dict_set (k : string) (v : A) (d : list (string * A)) : list (string * A) :=
  match d with
  | [] => [(k, v)]
  | (k', v') :: rest => if bool_decide (k' = k) then (k', v) :: rest else (k', v') :: dict_set k v rest
  end.

(** [d.pop(k, None)], the dictionary that is left. *)
Fixpoint dict_del (k : string) (d : list (string * A)) : list (string * A) :=
  match d with
  | [] => []
  | (k', v') :: rest => if bool_decide (k' = k) then rest else (k', v') :: dict_del k rest
  end.

(** [{key(x): x for x in xs}]. *)
Definition dict_of (key : A -> string) (xs : list A) : list (string * A) :=
  fold_left (fun d x => dict_set (key x) x d) xs [].

Lemma dict_get_set k k' v d :
  dict_get k (dict_set k' v d) = if bool_decide (k = k') then Some v else dict_get k d.
Proof.
  induction d as [|[k0 v0] d IH]; cbn [dict_get dict_set].
  - repeat case_bool_decide; congruence.
  - destruct (decide (k0 = k')) as [->|Hne].
    + rewrite bool_decide_eq_true_2 by reflexivity. cbn [dict_get]. repeat case_bool_decide; congruence.
    + rewrite (bool_decide_eq_false_2 (k0 = k')) by assumption. cbn [dict_get]. rewrite IH.
      repeat case_bool_decide; congruence.
Qed.

Lemma dict_set_keys k v d :
  map fst (dict_set k v d) = if bool_decide (k ∈ map fst d) then map fst d else map fst d ++ [k].
Proof.
  induction d as [|[k0 v0] d IH]; cbn [dict_set map fst].
  - rewrite bool_decide_eq_false_2 by apply not_elem_of_nil. reflexivity.
  - destruct (decide (k0 = k)) as [->|Hne].
    + rewrite !bool_decide_eq_true_2; [reflexivity|now left|reflexivity].
    + rewrite (bool_decide_eq_false_2 (k0 = k)) by assumption. cbn [map fst]. rewrite IH.
      destruct (decide (k ∈ map fst d)) as [Hin|Hin].
      * rewrite !bool_decide_eq_true_2; [reflexivity|now right|exact Hin].
      * rewrite !bool_decide_eq_false_2; [reflexivity|rewrite elem_of_cons; naive_solver|exact Hin].
Qed.

Lemma dict_set_new k v d : k ∉ map fst d -> dict_set k v d = d ++ [(k, v)].
Proof.
  induction d as [|[k0 v0] d IH]; cbn [map fst dict_set]; intros Hk; [reflexivity|].
  apply not_elem_of_cons in Hk as [H0 Hk]. rewrite bool_decide_eq_false_2 by congruence. now rewrite IH.
Qed.

Lemma dict_set_NoDup k v d : NoDup (map fst d) -> NoDup (map fst (dict_set k v d)).
Proof.
  intros H. rewrite dict_set_keys. case_bool_decide; [exact H|].
  apply NoDup_app. split; [exact H|split; [|apply NoDup_singleton]].
  intros x Hx Hk. apply list_elem_of_singleton in Hk. congruence.
Qed.

Lemma dict_of_NoDup key xs : NoDup (map fst (dict_of key xs)).
Proof.
  unfold dict_of. assert (G : forall d, NoDup (map fst d) ->
    NoDup (map fst (fold_left (fun d x => dict_set (key x) x d) xs d))).
  { induction xs as [|x xs IH]; intros d Hd; cbn [fold_left]; [exact Hd|]. now apply IH, dict_set_NoDup. }
  apply G. constructor.
Qed.

Lemma dict_get_In k v d : NoDup (map fst d) -> In (k, v) d <-> dict_get k d = Some v.
Proof.
  induction d as [|[k0 v0] d IH]; cbn [map fst dict_get]; intros Hnd; [now split|].
  apply NoDup_cons in Hnd as [Hk Hnd]. specialize (IH Hnd). split.
  - intros [E|Hin].
    + injection E as -> ->. now rewrite bool_decide_eq_true_2.
    + rewrite bool_decide_eq_false_2; [now apply IH|]. intros ->. apply Hk.
      apply list_elem_of_In, in_map_iff. now exists (k, v).
  - case_bool_decide as E; [intros [= ->]; left; now rewrite E|]. intros H. right. now apply IH.
Qed.

Lemma dict_get_None k d : dict_get k d = None <-> k ∉ map fst d.
Proof.
  induction d as [|[k0 v0] d IH]; cbn [dict_get map fst]; [set_solver|].
  rewrite not_elem_of_cons. case_bool_decide as E; [split; [discriminate|intros [? _]; congruence]|].
  rewrite IH. naive_solver.
Qed.

Lemma dict_get_elem k v d : dict_get k d = Some v -> (k, v) ∈ d.
Proof.
  induction d as [|[k0 v0] d IH]; cbn [dict_get]; [discriminate|].
  case_bool_decide as E; [intros [= ->]; subst; left|]. intros Hg. right. auto.
Qed.

Lemma dict_set_elem k v k' v' d : (k', v') ∈ dict_set k v d -> (k', v') = (k, v) \/ (k', v') ∈ d.
Proof.
  induction d as [|[k0 v0] d IH]; cbn [dict_set]; [set_solver|].
  case_bool_decide as E; rewrite !elem_of_cons; [subst|]; naive_solver.
Qed.

Lemma dict_set_length k v d : is_Some (dict_get k d) -> length (dict_set k v d) = length d.
Proof.
  induction d as [|[k0 v0] d IH]; cbn [dict_get dict_set]; [intros [? [=]]|].
  case_bool_decide; intros Hs; cbn [length]; [reflexivity|]. now rewrite IH.
Qed.

Lemma dict_del_elem k kv d : kv ∈ dict_del k d -> kv ∈ d.
Proof.
  induction d as [|[k0 v0] d IH]; cbn [dict_del]; [done|].
  case_bool_decide; rewrite ?elem_of_cons; naive_solver.
Qed.

Lemma dict_del_keys k k' d : NoDup (map fst d) -> k' ∈ map fst (dict_del k d) <-> k' ∈ map fst d /\ k' <> k.
Proof.
  induction d as [|[k0 v0] d IH]; cbn [dict_del map fst]; [set_solver|].
  intros [Hk Hnd]%NoDup_cons. case_bool_decide as E.
  - subst. rewrite elem_of_cons. split; [intros H; split; [now right|]|naive_solver].
    intros ->. contradiction.
  - cbn [map fst]. rewrite !elem_of_cons, (IH Hnd). naive_solver.
Qed.

Lemma dict_del_NoDup k d : NoDup (map fst d) -> NoDup (map fst (dict_del k d)).
Proof.
  induction d as [|[k0 v0] d IH]; cbn [dict_del map fst]; [done|].
  intros [Hk Hnd]%NoDup_cons. case_bool_decide as E; [exact Hnd|]. cbn [map fst].
  apply NoDup_cons. split; [|auto]. rewrite (dict_del_keys k k0 d Hnd). tauto.
Qed.

Lemma dict_get_del k k' d : NoDup (map fst d) ->
  dict_get k (dict_del k' d) = if bool_decide (k = k') then None else dict_get k d.
Proof.
  induction d as [|[k0 v0] d IH]; cbn [dict_get dict_del map fst]; [now case_bool_decide|].
  intros [Hk Hnd]%NoDup_cons. destruct (decide (k0 = k')) as [->|Hne].
  - rewrite (bool_decide_eq_true_2 (k' = k')) by reflexivity. repeat case_bool_decide; try congruence.
    subst. now apply dict_get_None.
  - rewrite (bool_decide_eq_false_2 (k0 = k')) by assumption. cbn [dict_get]. rewrite (IH Hnd).
    repeat case_bool_decide; congruence.
Qed.

Lemma dict_get_del_ne k k' d : k <> k' -> dict_get k (dict_del k' d) = dict_get k d.
Proof.
  intros Hne. induction d as [|[k0 v0] d IH]; cbn [dict_get dict_del]; [reflexivity|].
  destruct (decide (k0 = k')) as [->|E].
  - rewrite (bool_decide_eq_true_2 (k' = k')), bool_decide_eq_false_2 by congruence. reflexivity.
  - rewrite (bool_decide_eq_false_2 (k0 = k')) by exact E. cbn [dict_get]. now rewrite IH.
Qed.

Lemma dict_del_length k d : length (dict_del k d) <= length d.
Proof. induction d as [|[k0 v0] d IH]; cbn [dict_del length]; [lia|]. case_bool_decide; cbn [length]; lia. Qed.

Lemma dict_del_shorter k d : is_Some (dict_get k d) -> length d = S (length (dict_del k d)).
Proof.
  induction d as [|[k0 v0] d IH]; cbn [dict_get dict_del]; [intros [? [=]]|].
  case_bool_decide; intros Hs; cbn [length]; [reflexivity|]. now rewrite IH.
Qed.

(** [{**d, **e}]. *)
Definition dict_merge (d e : list (string * A)) : list (string * A) :=
  fold_left (fun d kv => dict_set kv.1 kv.2 d) e d.

Lemma dict_get_merge_absent k e : forall d,
  k ∉ map fst e -> dict_get k (dict_merge d e) = dict_get k d.
Proof.
  unfold dict_merge. induction e as [|[k' v'] e IH]; intros d; cbn [fold_left map fst]; [done|].
  intros [Hne Hk]%not_elem_of_cons. rewrite (IH _ Hk), dict_get_set. cbn [fst].
  now rewrite bool_decide_eq_false_2.
Qed.
End Dict.

