(* ===== verification/PyJson.v ===== *)
(** JSON values and the files that hold them, as reading gives them. *)

From Stdlib Require Import ZArith Floats.SpecFloat.
From stdpp Require Import base strings list.
From S2P Require Import Prelude PyDict Calendar.

#[warnings="-register-all"]
Inductive json :=
| JNull
| JBool (b : bool)
| JInt (z : Z)
| JFloat (x : spec_float)
| JStr (s : string)
| JList (l : list json)
| JObj (fields : list (string * json)).

(** What [path.read_text()] finds; [Blank] is text that strips to nothing, [Prose]
    text that is not JSON. *)
Inductive file :=
| Absent
| Unreadable
| NotUtf8
| Blank
| Prose (raw : string)
| Json (j : json).

Definition exists_ (f : file) : bool := match f with Absent => false | _ => true end.

(** [data.get(key, default)]: only an object has [get]. *)
Definition json_get (j : json) (key : string) (default : json) : res json :=
  match j with
  | JObj fields => Ok (match dict_get key fields with Some v => v | None => default end)
  | _ => Raise AttributeError
  end.

(** [data[key]]. *)
Definition json_item (j : json) (key : string) : res json :=
  match j with
  | JObj fields => match dict_get key fields with Some v => Ok v | None => Raise KeyError end
  | _ => Raise TypeError
  end.

(** [bool(j)]. *)
Definition truthy (j : json) : bool :=
  match j with
  | JNull => false
  | JBool b => b
  | JInt z => negb (z =? 0)%Z
  | JFloat x => match x with S754_zero _ => false | _ => true end
  | JStr s => negb (bool_decide (s = ""))
  | JList l => match l with [] => false | _ => true end
  | JObj l => match l with [] => false | _ => true end
  end.

(** [int(j)]; [int_of_text] is [int] applied to a text. *)
Definition int_of_json (int_of_text : string -> option Z) (j : json) : res Z :=
  match j with
  | JInt z => Ok z
  | JBool b => Ok (if b then 1 else 0)%Z
  | JFloat x =>
      match x with
      | S754_nan => Raise ValueError
      | S754_infinity _ => Raise OverflowError
      | _ => match modf x with Some (z, _) => Ok z | None => Raise OverflowError end
      end
  | JStr s => match int_of_text s with Some z => Ok z | None => Raise ValueError end
  | JNull | JList _ | JObj _ => Raise TypeError
  end.
