(* ===== verification/Venue.v ===== *)
(** [sentinel/brokers/base.py]: the interface every venue implements, as a type
    class over the venue's own state.  The execution components are proved
    against this class.  An operation either answers or raises one of the
    exceptions of [sentinel/core/errors.py]; every answer may change the venue. *)

From Stdlib Require Import ZArith Lia.
From stdpp Require Import base strings list.
From S2P Require Import Prelude PyDecimal Money Types.

(** What a venue can do. *)
Record BrokerCapabilities := mkCapabilities {
  cap_supports_client_order_id : bool;
  cap_supports_server_side_stop : bool;
  cap_supports_transaction_stream : bool;
  cap_supports_partial_close : bool;
  cap_supports_fractional_lots : bool;
  cap_min_lot : decimal;
  cap_lot_step : decimal;
  cap_name : string;
  cap_notes : string;
  cap_supports_bar_history : option bool
}.

(** The statements of [BrokerCapabilities.degradation_report]; texts as tags. *)
Inductive Degradation :=
| NoBarHistory | NoClientOrderId | NoServerSideStop | NoTransactionStream | NoPartialClose.

Definition degradation_report (c : BrokerCapabilities) : list Degradation :=
  match cap_supports_bar_history c with Some false => [NoBarHistory] | _ => [] end
  ++ (if negb (cap_supports_client_order_id c) then [NoClientOrderId] else [])
  ++ (if negb (cap_supports_server_side_stop c) then [NoServerSideStop] else [])
  ++ (if negb (cap_supports_transaction_stream c) then [NoTransactionStream] else [])
  ++ (if negb (cap_supports_partial_close c) then [NoPartialClose] else []).

(** A history cursor: the empty string, text [int] accepts, or other text. *)
Inductive Cursor := NoCursor | At (n : Z) | Junk.

(** [held[start:]], a negative start counting from the end. *)
Definition slice_from {A} (start : Z) (held : list A) : list A :=
  let start := if (start <? 0)%Z then Z.max 0 (start + Z.of_nat (length held)) else start in
  drop (Z.to_nat start) held.

(** [Broker.fetch_closed_trades]; [held] is the in-memory list of a venue that
    has one. *)
Definition fetch_closed_trades {A} (held : option (list A)) (since_id : Cursor) : list A * Cursor :=
  match held with
  | None => ([], since_id)
  | Some held =>
      let start := match since_id with At n => n | NoCursor | Junk => 0%Z end in
      (slice_from start held, At (Z.of_nat (length held)))
  end.

(** The outcome of one submission attempt. *)
Record SubmitResult := mkSubmitResult {
  sr_state : OrderState;
  sr_venue_order_id : option string;
  sr_fills : list Fill;
  sr_reject_reason : option string;
  sr_favourable_to_client : option bool;
  sr_venue_ts_ns : option Z;
  sr_stop_confirmed : bool;
  sr_stop_reject_reason : option string
}.

(** An operation of a venue with state [W]. *)
Abbreviation venue_op W A := (W -> W * res A).

Class Venue (W : Type) := {
  supports_client_order_id : bool;
  v_instrument : string -> venue_op W Instrument;
  v_quote : string -> venue_op W Quote;
  v_account : venue_op W AccountState;
  v_positions : venue_op W (list Position);
  v_submit : OrderIntent -> venue_op W SubmitResult;
  v_query_order : string -> venue_op W (option SubmitResult);
  v_modify_position : string -> decimal -> venue_op W bool;
  v_transactions_since : string -> venue_op W (list string);
  (** Reading the wall clock of the process. *)
  v_wall_ns : W -> W * Z
}.

(** Polling closed trades with the cursor of the previous poll returns
    exactly the trades recorded since, in order; the first poll returns the
    whole history. *)
Theorem closed_trades_resume {A} (held fresh : list A) (since_id : Cursor) :
  fetch_closed_trades (Some held) NoCursor = (held, At (Z.of_nat (length held))) /\
  fetch_closed_trades (Some (held ++ fresh)) (fetch_closed_trades (Some held) since_id).2 =
    (fresh, At (Z.of_nat (length (held ++ fresh)))).
Proof.
  unfold fetch_closed_trades, slice_from. cbn [snd]. split; [reflexivity|].
  destruct (Z.ltb_spec (Z.of_nat (length held)) 0); [lia|]. now rewrite Nat2Z.id, drop_app_length.
Qed.
