(* ===== verification/Oms.v ===== *)
(** [sentinel/execution/oms.py]: the order manager.  Its state is the table of
    orders (a dictionary in insertion order), the quarantined instruments, the
    execution records, the trace of what was journalled and what was asked of
    the venue, and the venue's own state.  Every method is a computation of
    [StateExn]: an exception keeps what was changed before it.  Methods run one
    after the other: two threads inside [submit] at once are not modelled (the
    code releases its lock while it calls the venue).  Latency and free-text
    error messages are presentation (an exception has no text here).  [on_fill]
    acts on the outside world and may raise; it does not call the manager back.
    [OmsInv.v] holds the theorems. *)

From Stdlib Require Import ZArith Lia.
From stdpp Require Import base gmap strings list relations.
From S2P Require Import Prelude PyDecimal Money Types StateExn Venue.

Local Open Scope dec_scope.
Local Open Scope py_scope.

(** [new in LEGAL[old]]. *)
Definition LEGAL (old new : OrderState) : bool :=
  match old, new with
  | PENDING, (SENT | REJECTED | CANCELLED) => true
  | SENT, (ACKED | FILLED | PARTIAL | REJECTED | UNKNOWN | CANCELLED) => true
  | ACKED, (PARTIAL | FILLED | CANCELLED | REJECTED | UNKNOWN) => true
  | PARTIAL, (FILLED | CANCELLED | UNKNOWN) => true
  | UNKNOWN, (FILLED | PARTIAL | REJECTED | CANCELLED) => true
  | _, _ => false
  end.

(** The journal events the manager writes. *)
Inductive EventType :=
| ORDER_INTENT | ORDER_SENT | ORDER_ACK | ORDER_FILLED | ORDER_REJECTED | ORDER_UNKNOWN
| ORDER_DUPLICATE_BLOCKED | LIMIT_BREACH | HALT | RECONCILE | RECONCILE_MISMATCH.

(** What the manager does outside its own state: journal records (with the
    order id or the instrument they name) and calls of the venue. *)
Inductive Event :=
| Journal (ty : EventType) (key : string)
| Submitted (id : string)
| Queried (id : string)
| Modified (instrument : string).
#[export] Instance EventType_eq_dec : EqDecision EventType.
Proof. solve_decision. Defined.
#[export] Instance Event_eq_dec : EqDecision Event.
Proof. solve_decision. Defined.

Record ExecutionQuality := mkQuality {
  eq_decision_price : decimal;
  eq_fill_price : decimal;
  eq_slippage_pips : decimal;
  eq_rejected : bool;
  eq_reject_favoured_client : option bool;
  eq_venue_ts_ns : option Z
}.

Record SlippageBreach := mkBreach {
  br_client_order_id : string;
  br_instrument : string;
  br_slippage_pips : decimal
}.

(** ** A dictionary in insertion order *)

Abbreviation orders := (list (string * Order)).

Fixpoint order_get (id : string) (os : orders) : option Order :=
  match os with
  | [] => None
  | (k, o) :: rest => if bool_decide (k = id) then Some o else order_get id rest
  end.

Fixpoint order_update (id : string) (f : Order -> Order) (os : orders) : orders :=
  match os with
  | [] => []
  | (k, o) :: rest => if bool_decide (k = id) then (k, f o) :: rest else (k, o) :: order_update id f rest
  end.

(** ** Assignments to an order *)

Definition set_state (st : OrderState) (o : Order) : Order :=
  mkOrder (o_intent o) st (o_stop_confirmed o) (o_venue_order_id o) (o_sent_ns o) (o_acked_ns o)
    (o_fills o) (o_reject_reason o) (o_attempts o) (o_last_error o).
Definition set_stop_confirmed (b : bool) (o : Order) : Order :=
  mkOrder (o_intent o) (o_state o) b (o_venue_order_id o) (o_sent_ns o) (o_acked_ns o)
    (o_fills o) (o_reject_reason o) (o_attempts o) (o_last_error o).
Definition set_acked (venue_id : option string) (ns : Z) (o : Order) : Order :=
  mkOrder (o_intent o) (o_state o) (o_stop_confirmed o)
    (match venue_id with Some v => if bool_decide (v = "") then o_venue_order_id o else Some v
                       | None => o_venue_order_id o end)
    (o_sent_ns o) (Some ns) (o_fills o) (o_reject_reason o) (o_attempts o) (o_last_error o).
Definition set_sent (ns : Z) (o : Order) : Order :=
  mkOrder (o_intent o) (o_state o) (o_stop_confirmed o) (o_venue_order_id o) (Some ns) (o_acked_ns o)
    (o_fills o) (o_reject_reason o) (o_attempts o) (o_last_error o).
Definition add_fill (f : Fill) (o : Order) : Order :=
  mkOrder (o_intent o) (o_state o) (o_stop_confirmed o) (o_venue_order_id o) (o_sent_ns o) (o_acked_ns o)
    (o_fills o ++ [f]) (o_reject_reason o) (o_attempts o) (o_last_error o).
Definition set_reject_reason (r : option string) (o : Order) : Order :=
  mkOrder (o_intent o) (o_state o) (o_stop_confirmed o) (o_venue_order_id o) (o_sent_ns o) (o_acked_ns o)
    (o_fills o) r (o_attempts o) (o_last_error o).
Definition set_attempts (n : Z) (o : Order) : Order :=
  mkOrder (o_intent o) (o_state o) (o_stop_confirmed o) (o_venue_order_id o) (o_sent_ns o) (o_acked_ns o)
    (o_fills o) (o_reject_reason o) n (o_last_error o).
Definition set_last_error (e : exn) (o : Order) : Order :=
  mkOrder (o_intent o) (o_state o) (o_stop_confirmed o) (o_venue_order_id o) (o_sent_ns o) (o_acked_ns o)
    (o_fills o) (o_reject_reason o) (o_attempts o) (Some e).

(** [OrderManager.__init__]: the retry budget left on a venue that cannot
    deduplicate. *)
Definition retry_budget (supports : bool) (max_retries : Z) : Z :=
  if negb supports && (0 <? max_retries)%Z then 0 else max_retries.

Section Manager.
Context {W : Type} `{!Venue W}.
Variable max_retries : Z.
Variable max_slippage_pips : option decimal.
Variable on_fill : option (Order -> Fill -> venue_op W unit).

Record OmsState := mkOms {
  oms_orders : orders;
  oms_quarantine : gset string;
  oms_quality : list ExecutionQuality;
  oms_breaches : list SlippageBreach;
  oms_trace : list Event;
  oms_world : W
}.

Definition set_orders (f : orders -> orders) (s : OmsState) : OmsState :=
  mkOms (f (oms_orders s)) (oms_quarantine s) (oms_quality s) (oms_breaches s) (oms_trace s) (oms_world s).
Definition set_quarantine (f : gset string -> gset string) (s : OmsState) : OmsState :=
  mkOms (oms_orders s) (f (oms_quarantine s)) (oms_quality s) (oms_breaches s) (oms_trace s) (oms_world s).
Definition add_quality (q : ExecutionQuality) (s : OmsState) : OmsState :=
  mkOms (oms_orders s) (oms_quarantine s) (oms_quality s ++ [q]) (oms_breaches s) (oms_trace s) (oms_world s).
Definition add_breach (b : SlippageBreach) (s : OmsState) : OmsState :=
  mkOms (oms_orders s) (oms_quarantine s) (oms_quality s) (oms_breaches s ++ [b]) (oms_trace s) (oms_world s).
Definition add_event (e : Event) (s : OmsState) : OmsState :=
  mkOms (oms_orders s) (oms_quarantine s) (oms_quality s) (oms_breaches s) (oms_trace s ++ [e]) (oms_world s).
Definition set_world (w : W) (s : OmsState) : OmsState :=
  mkOms (oms_orders s) (oms_quarantine s) (oms_quality s) (oms_breaches s) (oms_trace s) w.

Definition OM (A : Type) : Type := M OmsState A.

Definition journal (ty : EventType) (key : string) : OM unit := modify (add_event (Journal ty key)).
Definition update_order (id : string) (f : Order -> Order) : OM unit := modify (set_orders (order_update id f)).
Definition quarantine (instrument : string) : OM unit := modify (set_quarantine (fun q => {[ instrument ]} ∪ q)).
Definition discard (instrument : string) : OM unit := modify (set_quarantine (fun q => q ∖ {[ instrument ]})).
Definition find_order (id : string) : OM (option Order) := gets (fun s => order_get id (oms_orders s)).

(** A call of the venue. *)
Definition ask {A} (op : venue_op W A) : OM A :=
  fun s => match op (oms_world s) with (w, r) => (set_world w s, r) end.
Definition wall_ns : OM Z := ask (fun w => match v_wall_ns w with (w', t) => (w', Ok t) end).

(** The state of an order the code holds; every held order is in the table. *)
Definition state_of (id : string) : OM OrderState :=
  let! o := find_order id in ret (match o with Some o => o_state o | None => PENDING end).

(** ** The state machine *)

(** [_transition]. *)
Definition transition (id : string) (new : OrderState) : OM unit :=
  let! old := state_of id in
  if bool_decide (new = old) then ret tt
  else if negb (LEGAL old new) then journal ORDER_UNKNOWN id ;! throw IllegalTransition
  else update_order id (set_state new).

Definition unresolved (s : OmsState) : list Order :=
  List.filter (fun o => bool_decide (o_state o = UNKNOWN)) (map snd (oms_orders s)).

Definition in_flight (o : Order) : bool :=
  match o_state o with SENT | ACKED | PARTIAL | UNKNOWN => true | _ => false end.

Definition pending_risk (s : OmsState) : decimal :=
  dsum (map (fun o => oi_risk_amount (o_intent o)) (List.filter in_flight (map snd (oms_orders s)))).

(** ** Applying a venue's answer *)

Definition same_fill (f g : Fill) : bool :=
  bool_decide (fill_venue_order_id g = fill_venue_order_id f)
  && (fill_lots g =? fill_lots f) && (fill_price g =? fill_price f).

Definition slippage (intent : OrderIntent) (decision_price : option decimal) (f : Fill) : OM decimal :=
  match decision_price with
  | Some dp =>
      let! inst := ask (v_instrument (oi_instrument intent)) in
      let! q := lift (ddiv (fill_price f - dp) (inst_pip inst)) in
      ret (q * sign (oi_side intent))
  | None => ret (fill_slippage_pips f)
  end.

(** [decision_price or default]. *)
Definition price_or (decision_price : option decimal) (d : decimal) : decimal :=
  match decision_price with Some p => if is_zero p then d else p | None => d end.

(** The body of the loop over the fills of a result. *)
Definition apply_fill (id : string) (intent : OrderIntent) (decision_price : option decimal) (f : Fill) : OM unit :=
  let! o := find_order id in
  if existsb (same_fill f) (match o with Some o => o_fills o | None => [] end) then ret tt
  else
    update_order id (add_fill f) ;!
    let! slip := slippage intent decision_price f in
    modify (add_quality (mkQuality (price_or decision_price (fill_price f)) (fill_price f) slip false None
                           (Some (fill_ts_ns f)))) ;!
    journal ORDER_FILLED id ;!
    when (match max_slippage_pips with Some m => slip >? m | None => false end)
      (modify (add_breach (mkBreach id (oi_instrument intent) slip)) ;! journal LIMIT_BREACH id) ;!
    match on_fill with
    | Some cb =>
        let! o := find_order id in
        match o with Some o => ask (cb o f) | None => ret tt end
    | None => ret tt
    end.

(** The venue filled the order and refused its stop: assert it again. *)
Definition reassert_stop (id : string) (intent : OrderIntent) (stop : decimal) : OM unit :=
  let inst := oi_instrument intent in
  update_order id (set_stop_confirmed false) ;!
  journal RECONCILE_MISMATCH id ;!
  modify (add_event (Modified inst)) ;!
  let! r := attempt (ask (v_modify_position inst stop)) in
  let! reasserted := match r with
                     | Ok b => ret b
                     | Raise _ => journal RECONCILE_MISMATCH id ;! ret false
                     end in
  update_order id (set_stop_confirmed reasserted) ;!
  when (negb reasserted) (quarantine inst ;! journal HALT inst).

Definition target_of (st : OrderState) : OrderState :=
  match st with FILLED => FILLED | PARTIAL => PARTIAL | _ => ACKED end.

Definition becomes_unknown (id instrument : string) : OM unit :=
  transition id UNKNOWN ;! quarantine instrument ;! journal ORDER_UNKNOWN id.

(** [_apply_result]. *)
Definition apply_result (id : string) (intent : OrderIntent) (result : SubmitResult)
    (decision_price : option decimal) : OM unit :=
  let! now := wall_ns in
  update_order id (set_acked (sr_venue_order_id result) now) ;!
  match sr_state result with
  | REJECTED =>
      transition id REJECTED ;!
      update_order id (set_reject_reason (sr_reject_reason result)) ;!
      modify (add_quality (mkQuality (price_or decision_price ZERO) ZERO ZERO true
                             (sr_favourable_to_client result) (sr_venue_ts_ns result))) ;!
      journal ORDER_REJECTED id
  | UNKNOWN => becomes_unknown id (oi_instrument intent)
  | _ =>
      each (apply_fill id intent decision_price) (sr_fills result) ;!
      let target := target_of (sr_state result) in
      let filled := negb (bool_decide (target = ACKED)) in
      let! o := find_order id in
      if filled && bool_decide (match o with Some o => o_fills o | None => [] end = [])
      then becomes_unknown id (oi_instrument intent)
      else
        (match oi_stop_loss intent with
         | Some stop => when (filled && negb (sr_stop_confirmed result)) (reassert_stop id intent stop)
         | None => ret tt
         end) ;!
        transition id target ;!
        when filled (journal ORDER_ACK id)
  end.

(** ** Resolution *)

(** Ask the venue about an order in state UNKNOWN. *)
Definition resolve_query (id : string) (intent : OrderIntent) : OM (option Order) :=
  modify (add_event (Queried id)) ;!
  let! r := attempt (ask (v_query_order id)) in
  match r with
  | Raise BrokerError => journal ORDER_UNKNOWN id ;! find_order id
  | Raise e => throw e
  | Ok None => journal ORDER_UNKNOWN id ;! find_order id
  | Ok (Some result) =>
      apply_result id intent result None ;!
      let! st := state_of id in
      when (terminal st) (discard (oi_instrument intent)) ;!
      journal RECONCILE id ;!
      find_order id
  end.

Definition resolve_unknown (id : string) : OM (option Order) :=
  let! o := find_order id in
  match o with
  | None => ret None
  | Some o =>
      if negb (bool_decide (o_state o = UNKNOWN)) then ret (Some o) else resolve_query id (o_intent o)
  end.

Definition resolve_all_unknown : OM unit :=
  let! os := gets unresolved in
  each (fun o => resolve_unknown (oi_client_order_id (o_intent o)) ;! ret tt) os.

Definition release_quarantine (instrument : string) : OM unit :=
  let! q := gets oms_quarantine in
  when (bool_decide (instrument ∈ q)) (discard instrument ;! journal RECONCILE instrument).

(** ** Submission *)

(** The end of [submit] when no attempt settled the order. *)
Definition exhausted (id instrument : string) : OM unit := becomes_unknown id instrument.

(** The retry loop: [fuel] bounds the attempts left. *)
Fixpoint send_loop (fuel : nat) (id : string) (intent : OrderIntent) (decision_price : option decimal)
    (att : Z) : OM unit :=
  match fuel with
  | O => exhausted id (oi_instrument intent)
  | S n =>
      if negb (att <=? max_retries)%Z then exhausted id (oi_instrument intent)
      else
        let att := (att + 1)%Z in
        update_order id (set_attempts att) ;!
        transition id SENT ;!
        let! now := wall_ns in
        update_order id (set_sent now) ;!
        journal ORDER_SENT id ;!
        modify (add_event (Submitted id)) ;!
        let! r := attempt (ask (v_submit intent)) in
        match r with
        | Raise UnknownOutcomeError =>
            transition id UNKNOWN ;!
            quarantine (oi_instrument intent) ;!
            update_order id (set_last_error UnknownOutcomeError) ;!
            journal ORDER_UNKNOWN id ;!
            resolve_unknown id ;! ret tt
        | Raise TransientError =>
            update_order id (set_last_error TransientError) ;!
            if (max_retries <? att)%Z then exhausted id (oi_instrument intent)
            else send_loop n id intent decision_price att
        | Raise PermanentError =>
            transition id REJECTED ;!
            update_order id (set_reject_reason (Some "")) ;!
            journal ORDER_REJECTED id
        | Raise BrokerError =>
            update_order id (set_last_error BrokerError) ;!
            exhausted id (oi_instrument intent)
        | Raise e => throw e
        | Ok result => apply_result id intent result decision_price
        end
  end.

Definition submit_fuel : nat := S (Z.to_nat max_retries).

Definition submit (intent : OrderIntent) (decision_price : option decimal) : OM (option Order) :=
  let id := oi_client_order_id intent in
  let! q := gets oms_quarantine in
  if bool_decide (oi_instrument intent ∈ q) then throw UnknownOutcomeError
  else
    let! existing := find_order id in
    match existing with
    | Some o => journal ORDER_DUPLICATE_BLOCKED id ;! ret (Some o)
    | None =>
        modify (set_orders (fun os => os ++ [(id, new_order intent)])) ;!
        journal ORDER_INTENT id ;!
        send_loop submit_fuel id intent decision_price 0 ;!
        find_order id
    end.

(** ** Runs of the manager *)

(** The calls its clients make. *)
Inductive Call :=
| CSubmit (intent : OrderIntent) (decision_price : option decimal)
| CResolve (id : string)
| CResolveAll
| CRelease (instrument : string).

Definition run_call (c : Call) : OM unit :=
  match c with
  | CSubmit intent dp => submit intent dp ;! ret tt
  | CResolve id => resolve_unknown id ;! ret tt
  | CResolveAll => resolve_all_unknown
  | CRelease instrument => release_quarantine instrument
  end.

(** A quarantine is released by hand only after a reconciliation has settled
    the orders of its instrument. *)
Definition may_call (c : Call) (s : OmsState) : Prop :=
  match c with
  | CRelease instrument => Forall (fun o => oi_instrument (o_intent o) <> instrument) (unresolved s)
  | _ => True
  end.

(** The states of the manager, from an empty table, whether a call returned or
    raised. *)
Inductive reachable : OmsState -> Prop :=
| reachable_init w : reachable (mkOms [] ∅ [] [] [] w)
| reachable_call c s : reachable s -> may_call c s -> reachable (run_call c s).1.
End Manager.
Arguments OmsState W : clear implicits.
