(* ===== verification/OmsInv.v ===== *)
(** What the order manager of [Oms.v] guarantees, for any venue: the state
    machine only advances, an order whose outcome is unknown locks its
    instrument, and the trace of journal records and venue calls follows the
    write-ahead protocol with a bounded number of sends. *)

From Stdlib Require Import ZArith Lia.
From stdpp Require Import base gmap strings list relations.
From S2P Require Import Prelude PyDecimal Money Types StateExn Venue Oms.

Local Open Scope py_scope.

(** ** The dictionary *)

Lemma order_get_update id k f os :
  order_get k (order_update id f os) = if bool_decide (k = id) then f <$> order_get id os else order_get k os.
Proof.
  induction os as [|[k' o] os IH]; cbn [order_get order_update]; [now case_bool_decide|].
  destruct (decide (k' = id)) as [->|Hk'].
  - rewrite bool_decide_eq_true_2 by reflexivity. cbn [order_get].
    destruct (decide (k = id)) as [->|]; [now rewrite !bool_decide_eq_true_2 by reflexivity|].
    now rewrite (bool_decide_eq_false_2 (id = k)), (bool_decide_eq_false_2 (k = id)) by congruence.
  - rewrite (bool_decide_eq_false_2 (k' = id)) by assumption. cbn [order_get]. rewrite IH.
    repeat case_bool_decide; congruence.
Qed.

Lemma order_get_app k os os' :
  order_get k (os ++ os') = match order_get k os with Some o => Some o | None => order_get k os' end.
Proof. induction os as [|[k' o] os IH]; [reflexivity|]. cbn [app order_get]. now case_bool_decide. Qed.

Lemma order_get_In k o os : order_get k os = Some o -> In (k, o) os.
Proof.
  induction os as [|[k' o'] os IH]; [discriminate|]. cbn [order_get]. case_bool_decide as E.
  - intros [= ->]. left. now rewrite E.
  - intros H. right. now apply IH.
Qed.

Lemma order_get_None k os : order_get k os = None -> k ∉ map fst os.
Proof.
  induction os as [|[k' o] os IH]; cbn [order_get map fst]; [intros _; apply not_elem_of_nil|].
  case_bool_decide; [discriminate|]. intros Hn. rewrite elem_of_cons. intros [?|?]; [congruence|now apply IH].
Qed.

Lemma In_order_get k o os : NoDup (map fst os) -> In (k, o) os -> order_get k os = Some o.
Proof.
  induction os as [|[k' o'] os IH]; [intros _ []|]. cbn [map fst]. intros Hnd.
  apply NoDup_cons in Hnd as [Hk Hnd]. intros [E|Hin]; cbn [order_get].
  - injection E as -> ->. now rewrite bool_decide_eq_true_2.
  - rewrite bool_decide_eq_false_2; [now apply IH|]. intros ->. apply Hk.
    apply list_elem_of_In, in_map_iff. now exists (k, o).
Qed.

Lemma order_update_keys id f os : map fst (order_update id f os) = map fst os.
Proof. induction os as [|[k o] os IH]; cbn; [reflexivity|]. case_bool_decide; cbn; congruence. Qed.

(** ** The primitive operations *)

Section Primitives.
Context {W : Type} `{!Venue W}.
Implicit Types s : OmsState W.

Lemma transition_eq id new s :
  transition id new s =
    let old := match order_get id (oms_orders s) with Some o => o_state o | None => PENDING end in
    if bool_decide (new = old) then (s, Ok tt)
    else if LEGAL old new then (set_orders (order_update id (set_state new)) s, Ok tt)
    else (add_event (Journal ORDER_UNKNOWN id) s, Raise IllegalTransition).
Proof.
  unfold transition, state_of, find_order, mbind_, gets, ret. cbn.
  destruct (order_get id (oms_orders s)); case_bool_decide; try reflexivity;
    match goal with |- context [LEGAL ?a ?b] => destruct (LEGAL a b) end; reflexivity.
Qed.

(** An operation on the venue changes nothing but the venue. *)
Lemma Steps_ask {A} (R : OmsState W -> OmsState W -> Prop) (op : venue_op W A) :
  (forall s w, R s (set_world w s)) -> Steps R (ask op).
Proof. intros H s. unfold ask. specialize (H s). destruct (op (oms_world s)) as [w r]. apply H. Qed.

Lemma Steps_find_order (R : OmsState W -> OmsState W -> Prop) `{!PreOrder R} id : Steps R (find_order id).
Proof. apply Steps_gets. typeclasses eauto. Qed.

Lemma Steps_state_of (R : OmsState W -> OmsState W -> Prop) `{!PreOrder R} id : Steps R (state_of id).
Proof. unfold state_of, find_order. steps. Qed.
End Primitives.

(** Split a computation into its operations and close each one with [leaf]. *)
Ltac oms_steps leaf :=
  steps;
  try first
    [ apply Steps_find_order; typeclasses eauto
    | apply Steps_state_of; typeclasses eauto
    | solve [leaf] ].

(** ** The state machine only advances *)

Definition legal_step (a b : OrderState) : Prop := LEGAL a b = true.

(** What may become of an order: legal transitions, the same intent, and no
    fill lost. *)
Definition order_advances (o o' : Order) : Prop :=
  rtc legal_step (o_state o) (o_state o') /\ o_intent o' = o_intent o /\ o_fills o `prefix_of` o_fills o'.

Section Advance.
Context {W : Type} `{!Venue W}.
Implicit Types s : OmsState W.

Definition advances s s' : Prop :=
  forall id o, order_get id (oms_orders s) = Some o ->
  exists o', order_get id (oms_orders s') = Some o' /\ order_advances o o'.

#[local] Instance order_advances_preorder : PreOrder order_advances.
Proof.
  split.
  - intros o. repeat split; [reflexivity|reflexivity].
  - intros a b c (H1 & H2 & H3) (H4 & H5 & H6). split; [|split].
    + now transitivity (o_state b).
    + congruence.
    + now transitivity (o_fills b).
Qed.

#[local] Instance advances_preorder : PreOrder advances.
Proof.
  split.
  - intros s id o H. exists o. split; [exact H|reflexivity].
  - intros a b c H1 H2 id o Ho. destruct (H1 id o Ho) as (o1 & Ho1 & A1).
    destruct (H2 id o1 Ho1) as (o2 & Ho2 & A2). exists o2. split; [exact Ho2|]. now transitivity o1.
Qed.

Lemma advances_same s s' : oms_orders s' = oms_orders s -> advances s s'.
Proof. intros E id o H. exists o. rewrite E. split; [exact H|reflexivity]. Qed.

Lemma advances_update id f s :
  (forall o, order_get id (oms_orders s) = Some o -> order_advances o (f o)) ->
  advances s (set_orders (order_update id f) s).
Proof.
  intros Hf k o Ho. cbn. rewrite order_get_update. case_bool_decide as E.
  - subst k. rewrite Ho. exists (f o). split; [reflexivity|now apply Hf].
  - exists o. split; [exact Ho|reflexivity].
Qed.

Lemma advances_transition id new : Steps advances (transition id new).
Proof.
  intros s. rewrite transition_eq. cbv zeta. case_bool_decide; [now apply advances_same|].
  destruct (LEGAL _ _) eqn:HL; [|now apply advances_same].
  apply advances_update. intros o Ho. rewrite Ho in HL. repeat split; [|reflexivity].
  now apply rtc_once.
Qed.

Lemma advances_modify f : (forall s, oms_orders (f s) = oms_orders s) -> Steps advances (modify f).
Proof. intros H s. apply advances_same, H. Qed.

Lemma advances_update_order id f : (forall o, order_advances o (f o)) -> Steps advances (update_order id f).
Proof. intros H s. apply advances_update. intros o _. apply H. Qed.

Lemma advances_ask {A} (op : venue_op W A) : Steps advances (ask op).
Proof. apply Steps_ask. intros s w. now apply advances_same. Qed.

Ltac adv :=
  oms_steps ltac:(first
    [ apply advances_transition
    | apply advances_ask
    | apply advances_modify; intros ?; reflexivity
    | apply advances_update_order; intros ?; repeat split; solve [reflexivity | apply prefix_app_r; reflexivity]
    | eauto ]).

Lemma advances_slippage intent dp f : Steps advances (slippage intent dp f).
Proof. unfold slippage. adv. Qed.
#[local] Hint Resolve advances_slippage : core.

Lemma advances_apply_fill ms cb id intent dp f : Steps advances (apply_fill ms cb id intent dp f).
Proof. unfold apply_fill, journal. adv. Qed.
#[local] Hint Resolve advances_apply_fill : core.

Lemma advances_reassert_stop id intent stop : Steps advances (reassert_stop id intent stop).
Proof. unfold reassert_stop, journal, quarantine. adv. Qed.
#[local] Hint Resolve advances_reassert_stop : core.

Lemma advances_becomes_unknown id inst : Steps advances (becomes_unknown id inst).
Proof. unfold becomes_unknown, journal, quarantine. adv. Qed.
#[local] Hint Resolve advances_becomes_unknown : core.

Lemma advances_apply_result ms cb id intent result dp : Steps advances (apply_result ms cb id intent result dp).
Proof. unfold apply_result, journal, wall_ns. adv. Qed.
#[local] Hint Resolve advances_apply_result : core.

Lemma advances_resolve_unknown ms cb id : Steps advances (resolve_unknown ms cb id).
Proof. unfold resolve_unknown, resolve_query, journal, discard. adv. Qed.
#[local] Hint Resolve advances_resolve_unknown : core.

Lemma advances_send_loop mr ms cb fuel : forall id intent dp att,
  Steps advances (send_loop mr ms cb fuel id intent dp att).
Proof.
  induction fuel as [|fuel IH]; intros id intent dp att; cbn [send_loop];
    unfold exhausted, journal, wall_ns, quarantine; adv.
Qed.
#[local] Hint Resolve advances_send_loop : core.

Lemma advances_submit mr ms cb intent dp : Steps advances (submit mr ms cb intent dp).
Proof.
  unfold submit, journal. adv. intros s id o Ho. exists o. cbn. rewrite order_get_app, Ho.
  split; reflexivity.
Qed.

Lemma advances_call mr ms cb c : Steps advances (run_call mr ms cb c).
Proof.
  pose proof (advances_submit mr ms cb) as Hs.
  destruct c; unfold run_call, resolve_all_unknown, release_quarantine, journal, discard; adv.
Qed.
(** *** A submission that returns has settled its order *)

Definition undecided (st : OrderState) : bool :=
  match st with PENDING | SENT => true | _ => false end.

Lemma undecided_rtc a b : rtc legal_step a b -> undecided a = false -> undecided b = false.
Proof.
  induction 1 as [|a c b Hac _ IH]; [done|]. intros Ha. apply IH. now destruct a, c.
Qed.

(** If [c] returns, the order [id] is no longer PENDING or SENT. *)
Definition Settles {A} (id : string) (c : M (OmsState W) A) : Prop :=
  forall s s' a, order_get id (oms_orders s) <> None -> c s = (s', Ok a) ->
  exists o, order_get id (oms_orders s') = Some o /\ undecided (o_state o) = false.

Lemma advances_present s s' id :
  advances s s' -> order_get id (oms_orders s) <> None -> order_get id (oms_orders s') <> None.
Proof.
  intros Ha Hin. destruct (order_get id (oms_orders s)) as [o|] eqn:E; [|done].
  destruct (Ha id o E) as (o' & -> & _). done.
Qed.

Lemma Settles_bind {A B} id (c : M (OmsState W) A) (k : A -> M (OmsState W) B) :
  Steps advances c -> (forall a, Settles id (k a)) -> Settles id (mbind_ c k).
Proof.
  intros Hc Hk s s' b Hin. unfold mbind_. specialize (Hc s).
  destruct (c s) as [s1 [a|e]]; [|discriminate]. intros Hr. eapply Hk; [|exact Hr].
  now apply (advances_present s).
Qed.

Lemma Settles_throw {A} id e : Settles (A := A) id (throw e).
Proof. intros s s' a _ [=]. Qed.

Lemma Settles_transition {A} id new (k : M (OmsState W) A) :
  undecided new = false -> Steps advances k -> Settles id (transition id new ;! k).
Proof.
  intros Hnew Hk s s' a Hin. unfold mbind_. rewrite transition_eq. cbv zeta.
  destruct (order_get id (oms_orders s)) as [o0|] eqn:Ho0; [|done].
  assert (Hgo : forall s1 o1, order_get id (oms_orders s1) = Some o1 -> o_state o1 = new ->
    k s1 = (s', Ok a) -> exists o, order_get id (oms_orders s') = Some o /\ undecided (o_state o) = false).
  { intros s1 o1 H1 E Hr. destruct (Hk s1 id o1 H1) as (o' & Ho' & Hadv & _). rewrite Hr in Ho'.
    exists o'. split; [exact Ho'|]. apply (undecided_rtc _ _ Hadv). now rewrite E. }
  case_bool_decide as E; [now apply Hgo with o0|]. destruct (LEGAL _ _); [|discriminate].
  apply Hgo with (set_state new o0); [|reflexivity]. cbn.
  now rewrite order_get_update, bool_decide_eq_true_2, Ho0 by reflexivity.
Qed.

Lemma Settles_then {A B} id (c : M (OmsState W) A) (k : A -> M (OmsState W) B) :
  Settles id c -> (forall a, Steps advances (k a)) -> Settles id (mbind_ c k).
Proof.
  intros Hc Hk s s' b Hin. unfold mbind_. destruct (c s) as [s1 [a|e]] eqn:E; [|discriminate].
  intros Hr. destruct (Hc s s1 a Hin E) as (o & Ho & Hu).
  destruct (Hk a s1 id o Ho) as (o' & Ho' & Hadv & _). rewrite Hr in Ho'.
  exists o'. split; [exact Ho'|]. exact (undecided_rtc _ _ Hadv Hu).
Qed.

Lemma Settles_becomes_unknown id inst : Settles id (becomes_unknown id inst).
Proof. apply Settles_transition; [reflexivity|]. unfold quarantine, journal. adv. Qed.

Lemma undecided_target st : undecided (target_of st) = false.
Proof. now destruct st. Qed.

Lemma Settles_apply_result ms cb id i result dp : Settles id (apply_result ms cb id i result dp).
Proof.
  unfold apply_result. do 2 (apply Settles_bind; [unfold wall_ns; adv|intros ?]).
  assert (Htarget : forall st (c : M (OmsState W) unit), Steps advances c ->
    Settles id (c ;! transition id (target_of st) ;!
                when (negb (bool_decide (target_of st = ACKED))) (journal ORDER_ACK id))).
  { intros st c Hc. apply Settles_bind; [exact Hc|intros _].
    apply Settles_transition; [apply undecided_target|unfold journal; adv]. }
  assert (Hfills : Steps advances (each (apply_fill ms cb id i dp) (sr_fills result))) by adv.
  destruct (sr_state result) eqn:Hst; try apply Settles_becomes_unknown.
  all: try (apply Settles_transition; [reflexivity|unfold journal; adv]).
  all: apply Settles_bind; [exact Hfills|intros _]; apply Settles_bind; [adv|intros o].
  all: case_match; [apply Settles_becomes_unknown|apply Htarget; adv].
Qed.

Lemma Settles_send_loop mr ms cb fuel id i dp : forall att,
  Settles id (send_loop mr ms cb fuel id i dp att).
Proof.
  induction fuel as [|fuel IH]; intros att; cbn [send_loop]; [apply Settles_becomes_unknown|].
  case_match; [apply Settles_becomes_unknown|].
  do 6 (apply Settles_bind; [unfold wall_ns, journal; adv|intros ?]).
  apply Settles_bind; [adv|intros r]. destruct r as [result|e]; [apply Settles_apply_result|].
  destruct e; try apply Settles_throw.
  all: try (apply Settles_transition; [reflexivity|unfold quarantine, journal; solve [adv]]).
  all: apply Settles_bind; [adv|intros ?]; try case_match; first [apply IH | apply Settles_becomes_unknown].
Qed.
End Advance.

(** ** An unknown outcome locks its instrument *)

Section Lock.
Context {W : Type} `{!Venue W}.
Implicit Types s : OmsState W.

Abbreviation inst_of o := (oi_instrument (o_intent o)).

(** Keys are the ids of the orders they hold, once each. *)
Definition table_ok (os : orders) : Prop :=
  NoDup (map fst os) /\ forall k o, order_get k os = Some o -> oi_client_order_id (o_intent o) = k.

Definition locked s : Prop :=
  forall k o, order_get k (oms_orders s) = Some o -> o_state o = UNKNOWN -> inst_of o ∈ oms_quarantine s.

Definition one_unknown s : Prop :=
  forall k1 k2 o1 o2, order_get k1 (oms_orders s) = Some o1 -> order_get k2 (oms_orders s) = Some o2 ->
  o_state o1 = UNKNOWN -> o_state o2 = UNKNOWN -> inst_of o1 = inst_of o2 -> k1 = k2.

Definition lock_inv s : Prop := table_ok (oms_orders s) /\ locked s /\ one_unknown s.

(** While a call works on order [id], no other order on its instrument is
    unknown. *)
Definition working (id : string) (i : OrderIntent) s : Prop :=
  lock_inv s /\
  (exists o, order_get id (oms_orders s) = Some o /\ o_intent o = i) /\
  forall k o, k <> id -> order_get k (oms_orders s) = Some o -> o_state o = UNKNOWN ->
    inst_of o <> oi_instrument i.

Lemma table_ok_update id f os :
  (forall o, o_intent (f o) = o_intent o) -> table_ok os -> table_ok (order_update id f os).
Proof.
  intros Hf [Hnd Hk]. split; [now rewrite order_update_keys|].
  intros k o. rewrite order_get_update. case_bool_decide as E; [|apply Hk].
  subst k. destruct (order_get id os) as [o0|] eqn:Ho; [|discriminate].
  intros [= <-]. rewrite Hf. now apply Hk.
Qed.

(** An update of the order worked on, with the quarantine it needs. *)
Lemma working_update id i f q s :
  (forall o, o_intent (f o) = o_intent o) ->
  oms_quarantine s ⊆ q ->
  (forall o, order_get id (oms_orders s) = Some o -> o_state (f o) = UNKNOWN ->
     o_state o = UNKNOWN \/ oi_instrument i ∈ q) ->
  working id i s ->
  working id i (set_quarantine (fun _ => q) (set_orders (order_update id f) s)).
Proof.
  intros Hf Hq Hst ((Ht & Hl & H1) & (o & Ho & Hi) & Hother).
  assert (Hget : forall k o', order_get k (order_update id f (oms_orders s)) = Some o' ->
            (k = id /\ o' = f o) \/ (k <> id /\ order_get k (oms_orders s) = Some o')).
  { intros k o'. rewrite order_get_update. case_bool_decide; [|now right].
    rewrite Ho. intros [= <-]. now left. }
  split; [split; [|split]|split].
  - now apply table_ok_update.
  - intros k o' Hk Hu. cbn in *. destruct (Hget _ _ Hk) as [[-> ->]|[Hne Hk']].
    + rewrite Hf. destruct (Hst o Ho Hu) as [Hu'|Hin]; [|now rewrite Hi].
      apply Hq, (Hl _ _ Ho Hu').
    + apply Hq, (Hl _ _ Hk' Hu).
  - intros k1 k2 o1 o2 G1 G2 U1 U2 E. cbn in *.
    destruct (Hget _ _ G1) as [[-> ->]|[N1 G1']], (Hget _ _ G2) as [[-> ->]|[N2 G2']]; [reflexivity| | |].
    + rewrite Hf, Hi in E. now destruct (Hother _ _ N2 G2' U2).
    + rewrite Hf, Hi in E. now destruct (Hother _ _ N1 G1' U1).
    + exact (H1 _ _ _ _ G1' G2' U1 U2 E).
  - exists (f o). cbn. rewrite order_get_update, bool_decide_eq_true_2, Ho by reflexivity.
    split; [reflexivity|]. now rewrite Hf.
  - intros k o' Hne Hk Hu. cbn in *. destruct (Hget _ _ Hk) as [[-> _]|[_ Hk']]; [easy|].
    exact (Hother _ _ Hne Hk' Hu).
Qed.

Lemma working_same id i s s' :
  oms_orders s' = oms_orders s -> oms_quarantine s ⊆ oms_quarantine s' -> keeps (working id i) s s'.
Proof.
  unfold keeps, working, lock_inv, locked, one_unknown. intros -> Hq ((Ht & Hl & H1) & Ho & Hother).
  split; [split; [|split]|split]; auto. intros k o Hk Hu. apply Hq. eauto.
Qed.

Lemma working_update_order id i f :
  (forall o, o_intent (f o) = o_intent o) ->
  (forall o, o_state (f o) = UNKNOWN -> o_state o = UNKNOWN) ->
  Steps (keeps (working id i)) (update_order id f).
Proof.
  intros Hf Hu s Hs. change ((update_order id f s).1) with
    (set_quarantine (fun _ => oms_quarantine s) (set_orders (order_update id f) s)).
  apply working_update; auto.
Qed.

Lemma working_modify id i f :
  (forall s, oms_orders (f s) = oms_orders s) -> (forall s, oms_quarantine s ⊆ oms_quarantine (f s)) ->
  Steps (keeps (working id i)) (modify f).
Proof. intros H1 H2 s. apply working_same; [apply H1|apply H2]. Qed.

Lemma working_ask {A} id i (op : venue_op W A) : Steps (keeps (working id i)) (ask op).
Proof. apply Steps_ask. intros s w. now apply working_same. Qed.

Lemma working_transition id i new : new <> UNKNOWN -> Steps (keeps (working id i)) (transition id new).
Proof.
  intros Hn s. rewrite transition_eq. cbv zeta. case_bool_decide; [now intros Hs|].
  destruct (LEGAL _ _); [|now apply working_same].
  now apply (working_update_order id i (set_state new)).
Qed.

(** Going UNKNOWN quarantines in the same breath. *)
Lemma working_unknown {A} id i (k : OM A) :
  Steps (keeps (working id i)) k ->
  Steps (keeps (working id i)) (transition id UNKNOWN ;! quarantine (oi_instrument i) ;! k).
Proof.
  intros Hk s Hs. unfold mbind_ at 1. rewrite transition_eq. cbv zeta.
  assert (Hq : forall s0, (quarantine (oi_instrument i) ;! k) s0 =
                 k (set_quarantine (fun q => {[ oi_instrument i ]} ∪ q) s0)) by reflexivity.
  case_bool_decide; [|destruct (LEGAL _ _)].
  - rewrite Hq. apply Hk. revert Hs. apply (working_same id i); [reflexivity|]. cbn. set_solver.
  - rewrite Hq. apply Hk.
    change (set_quarantine _ (set_orders ?f s)) with
      (set_quarantine (fun _ => {[ oi_instrument i ]} ∪ oms_quarantine s) (set_orders f s)).
    apply working_update; [reflexivity|set_solver| |assumption]. intros o _ _. right. set_solver.
  - revert Hs. now apply (working_same id i).
Qed.

(** A settled order releases its instrument. *)
Lemma working_release {A} id i (k : OM A) :
  Steps (keeps (working id i)) k ->
  Steps (keeps (working id i))
    (let! st := state_of id in when (terminal st) (discard (oi_instrument i)) ;! k).
Proof.
  intros Hk s Hs. unfold state_of, find_order, mbind_, gets, ret. cbn.
  pose proof Hs as ((Ht & Hl & H1) & (o & Ho & Hi) & Hother). rewrite Ho.
  destruct (terminal (o_state o)) eqn:Hterm; [|apply Hk; exact Hs]. cbn. apply Hk.
  split; [split; [exact Ht|split; [|exact H1]]|split; [now exists o|exact Hother]].
  intros k' o' Hk' Hu. cbn in *. destruct (decide (k' = id)) as [->|Hne].
  - rewrite Ho in Hk'. injection Hk' as <-. now rewrite Hu in Hterm.
  - pose proof (Hl _ _ Hk' Hu). pose proof (Hother _ _ Hne Hk' Hu). set_solver.
Qed.

Ltac work :=
  oms_steps ltac:(first
    [ apply working_transition; discriminate
    | apply working_ask
    | apply working_modify; intros ?; [reflexivity|cbn; set_solver]
    | apply working_update_order; intros ?; cbn; solve [reflexivity | auto]
    | eauto ]).

Lemma working_becomes_unknown id i : Steps (keeps (working id i)) (becomes_unknown id (oi_instrument i)).
Proof. apply working_unknown. unfold journal. work. Qed.
#[local] Hint Resolve working_becomes_unknown : core.

Lemma working_apply_fill ms cb id i dp f : Steps (keeps (working id i)) (apply_fill ms cb id i dp f).
Proof. unfold apply_fill, journal, slippage. work. Qed.
#[local] Hint Resolve working_apply_fill : core.

Lemma working_reassert_stop id i stop : Steps (keeps (working id i)) (reassert_stop id i stop).
Proof. unfold reassert_stop, journal, quarantine. work. Qed.
#[local] Hint Resolve working_reassert_stop : core.

Lemma target_of_known st : target_of st <> UNKNOWN.
Proof. now destruct st. Qed.

Lemma working_apply_result ms cb id i result dp :
  Steps (keeps (working id i)) (apply_result ms cb id i result dp).
Proof.
  pose proof (fun st => working_transition id i _ (target_of_known st)) as Htarget.
  unfold apply_result, journal, wall_ns. work.
Qed.
#[local] Hint Resolve working_apply_result : core.

Lemma working_resolve_query ms cb id i : Steps (keeps (working id i)) (resolve_query ms cb id i).
Proof.
  unfold resolve_query, journal. apply Steps_bind; [typeclasses eauto|work|intros _].
  apply Steps_bind; [typeclasses eauto|work|intros r]. destruct r as [[result|]|e]; [|work|work].
  apply Steps_bind; [typeclasses eauto|work|intros _]. apply working_release. work.
Qed.

(** [resolve_unknown] of an order the table holds. *)
Lemma resolve_unknown_eq ms cb id s o :
  order_get id (oms_orders s) = Some o ->
  resolve_unknown ms cb id s =
    if bool_decide (o_state o = UNKNOWN) then resolve_query ms cb id (o_intent o) s else (s, Ok (Some o)).
Proof.
  intros Ho. unfold resolve_unknown, find_order, mbind_ at 1, gets. cbn. rewrite Ho.
  now case_bool_decide.
Qed.

Lemma working_resolve_unknown ms cb id i : Steps (keeps (working id i)) (resolve_unknown ms cb id).
Proof.
  intros s Hs. pose proof Hs as (_ & (o & Ho & <-) & _). rewrite (resolve_unknown_eq _ _ _ _ o Ho).
  case_bool_decide; [now apply working_resolve_query|exact Hs].
Qed.
#[local] Hint Resolve working_resolve_unknown : core.

Lemma working_send_loop mr ms cb fuel id i dp : forall att,
  Steps (keeps (working id i)) (send_loop mr ms cb fuel id i dp att).
Proof.
  induction fuel as [|fuel IH]; intros att; cbn [send_loop]; unfold exhausted, journal, wall_ns; [work|].
  case_match; [work|].
  do 6 (apply Steps_bind; [typeclasses eauto|work|intros ?]).
  apply Steps_bind; [typeclasses eauto|work|intros r]. destruct r as [result|e]; [work|].
  destruct e; first [apply working_unknown; work | work].
Qed.

(** ** Whole calls *)

Lemma working_resolves s id o :
  lock_inv s -> order_get id (oms_orders s) = Some o -> o_state o = UNKNOWN -> working id (o_intent o) s.
Proof.
  intros Hi Ho Hu. split; [exact Hi|split; [now exists o|]]. destruct Hi as (_ & _ & H1).
  intros k o' Hne Hk Hu' E. apply Hne. exact (H1 _ _ _ _ Hk Ho Hu' Hu E).
Qed.

Lemma lock_inv_resolve_unknown ms cb id : Steps (keeps lock_inv) (resolve_unknown ms cb id).
Proof.
  intros s Hs. destruct (order_get id (oms_orders s)) as [o|] eqn:Ho.
  - rewrite (resolve_unknown_eq _ _ _ _ o Ho). case_bool_decide as E; [|exact Hs].
    now apply (working_resolve_query ms cb id (o_intent o)), working_resolves.
  - unfold resolve_unknown, find_order, mbind_, gets. cbn. rewrite Ho. exact Hs.
Qed.

(** A new order on an instrument that is not quarantined. *)
Lemma working_new s i :
  lock_inv s -> order_get (oi_client_order_id i) (oms_orders s) = None ->
  oi_instrument i ∉ oms_quarantine s ->
  working (oi_client_order_id i) i
    (set_orders (fun os => os ++ [(oi_client_order_id i, new_order i)]) s).
Proof.
  intros ([Hnd Hk] & Hl & H1) Hnone Hq. set (id := oi_client_order_id i) in *.
  assert (Hget : forall k o, order_get k (oms_orders s ++ [(id, new_order i)]) = Some o ->
            order_get k (oms_orders s) = Some o \/ (k = id /\ o = new_order i)).
  { intros k o. rewrite order_get_app. destruct (order_get k (oms_orders s)) eqn:E.
    - intros [= <-]. now left.
    - cbn. case_bool_decide; [|discriminate]. intros [= <-]. right. now subst. }
  split; [split; [split|split]|split]; cbn.
  - rewrite map_app. apply NoDup_app. split; [exact Hnd|split; [|apply NoDup_singleton]].
    intros k Hin. cbn. rewrite list_elem_of_singleton. intros ->. now apply order_get_None in Hnone.
  - intros k o Ho. destruct (Hget _ _ Ho) as [Ho'|[-> ->]]; [now apply Hk|reflexivity].
  - intros k o Ho Hu. destruct (Hget _ _ Ho) as [Ho'|[-> ->]]; [eauto|discriminate].
  - intros k1 k2 o1 o2 G1 G2 U1 U2 E.
    destruct (Hget _ _ G1) as [G1'|[-> ->]], (Hget _ _ G2) as [G2'|[-> ->]]; try discriminate; eauto.
  - exists (new_order i). rewrite order_get_app, Hnone. cbn. now rewrite bool_decide_eq_true_2.
  - intros k o Hne Ho Hu E. destruct (Hget _ _ Ho) as [Ho'|[-> ->]]; [|discriminate].
    apply Hq. rewrite <- E. eauto.
Qed.

Lemma lock_inv_submit mr ms cb i dp : Steps (keeps lock_inv) (submit mr ms cb i dp).
Proof.
  intros s Hs. unfold submit. unfold mbind_ at 1. cbn. case_bool_decide as Hq; [exact Hs|].
  unfold find_order, mbind_ at 1, gets. cbn.
  destruct (order_get _ (oms_orders s)) as [o|] eqn:Ho; [exact Hs|].
  pose proof (working_new s i Hs Ho Hq) as Hw.
  pose proof (working_send_loop mr ms cb) as Hloop.
  assert (Htail : Steps (keeps (working (oi_client_order_id i) i))
    (journal ORDER_INTENT (oi_client_order_id i) ;!
     send_loop mr ms cb (submit_fuel mr) (oi_client_order_id i) i dp 0 ;!
     find_order (oi_client_order_id i))) by (unfold journal; work).
  exact (proj1 (Htail _ Hw)).
Qed.

Lemma lock_inv_release s inst :
  lock_inv s -> Forall (fun o => inst_of o <> inst) (unresolved s) ->
  lock_inv (release_quarantine inst s).1.
Proof.
  intros (Ht & Hl & H1) Hfree. unfold release_quarantine, mbind_ at 1, gets. cbn.
  case_bool_decide; [|done]. cbn. split; [exact Ht|split; [|exact H1]].
  intros k o Ho Hu. cbn in *. pose proof (Hl _ _ Ho Hu).
  enough (inst_of o <> inst) by set_solver.
  rewrite Forall_forall in Hfree. apply Hfree. apply list_elem_of_In, filter_In. split.
  - apply in_map_iff. exists (k, o). split; [reflexivity|now apply order_get_In].
  - now apply bool_decide_eq_true.
Qed.

Lemma lock_inv_call mr ms cb c s :
  lock_inv s -> may_call c s -> lock_inv (run_call mr ms cb c s).1.
Proof.
  intros Hs Hc. destruct c as [i dp|id| |inst]; cbn [run_call].
  - revert Hs. pose proof (lock_inv_submit mr ms cb i dp) as H.
    apply (Steps_bind (keeps lock_inv)); [exact H|intros ?; steps].
  - revert Hs. pose proof (lock_inv_resolve_unknown ms cb id) as H.
    apply (Steps_bind (keeps lock_inv)); [exact H|intros ?; steps].
  - revert Hs. pose proof (lock_inv_resolve_unknown ms cb) as H. revert s Hc. intros s _. revert s.
    change (Steps (keeps lock_inv) (resolve_all_unknown ms cb)). unfold resolve_all_unknown. steps. apply H.
  - now apply lock_inv_release.
Qed.

Lemma lock_inv_reachable mr ms cb s : reachable mr ms cb s -> lock_inv s.
Proof.
  induction 1 as [w|c s _ IH Hc]; [|now apply lock_inv_call].
  split; [split|split]; cbn; [apply NoDup_nil_2|discriminate|intros ? ?; discriminate|intros ? ? ? ?; discriminate].
Qed.
End Lock.

(** ** The trace protocol *)

(** How far the trace has gone with an order; the number counts the sends. *)
Inductive phase :=
| Fresh
| Intended
| Journalled (n : nat)
| AtVenue (n : nat)
| Answered (n : nat).

(** The write-ahead protocol, as an automaton over the events that name the
    order [id].  A send needs its own [ORDER_SENT] record, the first of which
    needs the intent record; once the outcome of a send is recorded (accepted,
    filled, rejected or unknown) nothing is ever sent again. *)
Definition protocol (id : string) (p : phase) (e : Event) : option phase :=
  match e with
  | Submitted k =>
      if bool_decide (k = id) then match p with Journalled n => Some (AtVenue n) | _ => None end else Some p
  | Journal ty k =>
      if negb (bool_decide (k = id)) then Some p
      else match ty with
           | ORDER_INTENT => match p with Fresh => Some Intended | _ => None end
           | ORDER_SENT =>
               match p with
               | Intended => Some (Journalled 1)
               | AtVenue n => Some (Journalled (S n))
               | _ => None
               end
           | ORDER_ACK | ORDER_FILLED | ORDER_REJECTED | ORDER_UNKNOWN | ORDER_DUPLICATE_BLOCKED =>
               match p with
               | AtVenue n | Answered n => Some (Answered n)
               | Intended => Some (Answered 0)
               | _ => None
               end
           | LIMIT_BREACH | HALT | RECONCILE | RECONCILE_MISMATCH => Some p
           end
  | Queried _ | Modified _ => Some p
  end.

Fixpoint follow (id : string) (p : phase) (t : list Event) : option phase :=
  match t with
  | [] => Some p
  | e :: rest => match protocol id p e with Some p' => follow id p' rest | None => None end
  end.

Lemma follow_app id t : forall p t',
  follow id p (t ++ t') = match follow id p t with Some p' => follow id p' t' | None => None end.
Proof.
  induction t as [|e t IH]; intros p t'; [reflexivity|]. cbn [app follow].
  destruct (protocol id p e); [apply IH|reflexivity].
Qed.

(** Events after the send of [id]: no send, no intent, and outcomes of [id] only. *)
Definition quiet (id : string) (e : Event) : bool :=
  match e with
  | Submitted _ | Journal (ORDER_INTENT | ORDER_SENT) _ => false
  | Journal (LIMIT_BREACH | HALT | RECONCILE | RECONCILE_MISMATCH) _ | Queried _ | Modified _ => true
  | Journal _ k => bool_decide (k = id)
  end.

Lemma follow_quiet_other id k p t : k <> id -> forallb (quiet id) t = true -> follow k p t = Some p.
Proof.
  intros Hne. induction t as [|e t IH]; [reflexivity|]. cbn [forallb follow].
  intros [He Ht]%andb_true_iff. specialize (IH Ht).
  destruct e as [[] key| | |]; try discriminate He; cbn [quiet protocol] in *; try exact IH;
    repeat case_bool_decide; try discriminate; try exact IH; cbn; try exact IH; congruence.
Qed.

Definition settled (n : nat) (o : option phase) : Prop := o = Some (AtVenue n) \/ o = Some (Answered n).

Lemma follow_quiet_self id n t : forall p,
  p = AtVenue n \/ p = Answered n -> forallb (quiet id) t = true -> settled n (follow id p t).
Proof.
  induction t as [|e t IH]; cbn [forallb follow]; intros p Hp.
  - intros _. unfold settled. destruct Hp as [-> | ->]; auto.
  - intros [He Ht]%andb_true_iff.
    assert (Hstep : exists p', protocol id p e = Some p' /\ (p' = AtVenue n \/ p' = Answered n)).
    { destruct e as [[] key| | |]; try discriminate He; cbn [protocol]; try (case_bool_decide; cbn [negb]);
        destruct Hp as [-> | ->]; eauto. }
    destruct Hstep as (p' & -> & Hp'). now apply IH.
Qed.

Section Trace.
Context {W : Type} `{!Venue W}.
Implicit Types s : OmsState W.

Abbreviation phase_of id s := (follow id Fresh (oms_trace s)).
Abbreviation order_of id s := (order_get id (oms_orders s)).

(** The events and the table agree about [k]. *)
Definition traced_at (bound : nat) (k : string) s : Prop :=
  match order_of k s with
  | None => phase_of k s = Some Fresh
  | Some _ => exists n, n <= bound /\ settled n (phase_of k s)
  end.

Definition quiet_run (id : string) s s' : Prop :=
  (exists t, oms_trace s' = oms_trace s ++ t /\ forallb (quiet id) t = true) /\
  forall k, order_of k s' = None <-> order_of k s = None.
#[local] Instance quiet_run_preorder id : PreOrder (quiet_run id).
Proof.
  split.
  - intros s. split; [exists []; now rewrite app_nil_r|reflexivity].
  - intros a b c [(t & Ht & Hq) Hd] [(t' & Ht' & Hq') Hd']. split.
    + exists (t ++ t'). rewrite Ht', Ht, app_assoc, forallb_app, Hq, Hq'. auto.
    + intros k. rewrite Hd'. apply Hd.
Qed.

Lemma quiet_run_other id k bound s s' :
  quiet_run id s s' -> k <> id -> traced_at bound k s -> traced_at bound k s'.
Proof.
  intros [(t & Ht & Hq) Hd] Hne. unfold traced_at. specialize (Hd k).
  assert (E : phase_of k s' = phase_of k s).
  { rewrite Ht, follow_app. destruct (phase_of k s); [now apply follow_quiet_other with id|reflexivity]. }
  rewrite E. destruct (order_of k s), (order_of k s'); try done; intuition congruence.
Qed.

Lemma quiet_run_self id bound n s s' :
  quiet_run id s s' -> order_of id s <> None -> n <= bound -> settled n (phase_of id s) ->
  traced_at bound id s'.
Proof.
  intros [(t & Ht & Hq) Hd] Hin Hn Hp. unfold traced_at.
  destruct (order_of id s') eqn:E; [|now apply Hd in E].
  exists n. split; [exact Hn|]. rewrite Ht, follow_app.
  destruct Hp as [-> | ->]; apply follow_quiet_self; auto.
Qed.

Lemma quiet_same id s s' : oms_trace s' = oms_trace s -> oms_orders s' = oms_orders s -> quiet_run id s s'.
Proof. intros E1 E2. split; [exists []; now rewrite E1, app_nil_r|now rewrite E2]. Qed.

Lemma quiet_modify id f :
  (forall s, oms_trace (f s) = oms_trace s) -> (forall s, oms_orders (f s) = oms_orders s) ->
  Steps (quiet_run id) (modify f).
Proof. intros H1 H2 s. apply quiet_same; [apply H1|apply H2]. Qed.

Lemma quiet_event id e : quiet id e = true -> Steps (quiet_run id) (modify (add_event e)).
Proof. intros H s. split; [|reflexivity]. exists [e]. cbn. now rewrite H. Qed.

Lemma quiet_update_order id id' f : Steps (quiet_run id) (update_order id' f).
Proof.
  intros s. split; [exists []; cbn; now rewrite app_nil_r|]. intros k. cbn.
  rewrite order_get_update. case_bool_decide as E; [|reflexivity]. subst k.
  destruct (order_of id' s); cbn; split; congruence.
Qed.

Lemma quiet_ask {A} id (op : venue_op W A) : Steps (quiet_run id) (ask op).
Proof. apply Steps_ask. intros s w. now apply quiet_same. Qed.

Lemma quiet_transition id new : Steps (quiet_run id) (transition id new).
Proof.
  intros s. rewrite transition_eq. cbv zeta. case_bool_decide; [now apply quiet_same|].
  destruct (LEGAL _ _); [exact (quiet_update_order id id _ s)|].
  apply (quiet_event id (Journal ORDER_UNKNOWN id)). cbn. now apply bool_decide_eq_true_2.
Qed.

Ltac hush :=
  oms_steps ltac:(first
    [ apply quiet_transition
    | apply quiet_ask
    | apply quiet_update_order
    | apply quiet_event; cbn [quiet]; first [reflexivity | now apply bool_decide_eq_true_2]
    | apply quiet_modify; intros ?; reflexivity
    | eauto ]).

Lemma quiet_becomes_unknown id inst : Steps (quiet_run id) (becomes_unknown id inst).
Proof. unfold becomes_unknown, journal, quarantine. hush. Qed.
#[local] Hint Resolve quiet_becomes_unknown : core.

Lemma quiet_apply_fill ms cb id i dp f : Steps (quiet_run id) (apply_fill ms cb id i dp f).
Proof. unfold apply_fill, journal, slippage. hush. Qed.
#[local] Hint Resolve quiet_apply_fill : core.

Lemma quiet_reassert_stop id i stop : Steps (quiet_run id) (reassert_stop id i stop).
Proof. unfold reassert_stop, journal, quarantine. hush. Qed.
#[local] Hint Resolve quiet_reassert_stop : core.

Lemma quiet_apply_result ms cb id i result dp : Steps (quiet_run id) (apply_result ms cb id i result dp).
Proof. unfold apply_result, journal, wall_ns. hush. Qed.
#[local] Hint Resolve quiet_apply_result : core.

Lemma quiet_resolve_unknown ms cb id : Steps (quiet_run id) (resolve_unknown ms cb id).
Proof. unfold resolve_unknown, resolve_query, journal, discard. hush. Qed.
#[local] Hint Resolve quiet_resolve_unknown : core.

(** A send of [id] leaves the other orders alone. *)
Definition leaves (k : string) s s' : Prop :=
  (forall p, phase_of k s = Some p -> phase_of k s' = Some p) /\ (order_of k s' = None <-> order_of k s = None).
#[local] Instance leaves_preorder k : PreOrder (leaves k).
Proof.
  split; [intros s; now split|]. intros a b c [H1 H2] [H3 H4]. split; [auto|]. now rewrite H4, H2.
Qed.

Lemma leaves_quiet {A} id k (c : M (OmsState W) A) : k <> id -> Steps (quiet_run id) c -> Steps (leaves k) c.
Proof.
  intros Hne Hc s. destruct (Hc s) as [(t & Ht & Hq) Hd]. split; [|apply Hd].
  intros p Hp. rewrite Ht, follow_app, Hp. now apply follow_quiet_other with id.
Qed.

Lemma leaves_event k e :
  (forall p, protocol k p e = Some p) -> Steps (leaves k) (modify (add_event e)).
Proof. intros He s. split; [|reflexivity]. intros p Hp. cbn. rewrite follow_app, Hp. cbn. now rewrite He. Qed.

Lemma leaves_send_loop mr ms cb fuel id k i dp : k <> id -> forall att,
  Steps (leaves k) (send_loop mr ms cb fuel id i dp att).
Proof.
  intros Hne. assert (Hid : bool_decide (id = k) = false) by now apply bool_decide_eq_false_2.
  induction fuel as [|fuel IH]; intros att; cbn [send_loop]; unfold exhausted, journal, wall_ns;
    [apply (leaves_quiet id); [exact Hne|hush]|].
  case_match; [apply (leaves_quiet id); [exact Hne|hush]|].
  oms_steps ltac:(first
    [ apply IH
    | apply leaves_event; intros p; cbn; now rewrite Hid
    | apply (leaves_quiet id); [exact Hne|solve [hush]]
    | apply (leaves_quiet id); [exact Hne|unfold quarantine; apply quiet_modify; intros ?; reflexivity] ]).
Qed.

(** The send loop, from the phase after [att] sends. *)
Definition started (att : nat) (p : option phase) : Prop :=
  p = Some (match att with 0 => Intended | _ => AtVenue att end).

Lemma started_unknown id att s :
  started att (phase_of id s) -> settled att (phase_of id (add_event (Journal ORDER_UNKNOWN id) s)).
Proof.
  unfold started, settled. intros Hp. cbn. rewrite follow_app, Hp. cbn.
  rewrite bool_decide_eq_true_2 by reflexivity. destruct att; now right.
Qed.

Lemma becomes_unknown_phase bound id inst att s :
  order_of id s <> None -> started att (phase_of id s) -> att <= bound ->
  traced_at bound id (becomes_unknown id inst s).1.
Proof.
  intros Hin Hp Hb. pose proof (quiet_becomes_unknown id inst s) as [_ Hd].
  assert (E : oms_trace (becomes_unknown id inst s).1 = oms_trace (add_event (Journal ORDER_UNKNOWN id) s)).
  { unfold becomes_unknown, mbind_ at 1. rewrite transition_eq. cbv zeta.
    case_bool_decide; [reflexivity|]. now destruct (LEGAL _ _). }
  unfold traced_at. rewrite E. destruct (order_of id (_ .1)) eqn:Ho; [|now apply Hd in Ho].
  exists att. split; [exact Hb|now apply started_unknown].
Qed.

(** One attempt up to the venue's answer: it raises with the order settled, or
    goes on with one more send. *)
Lemma attempt_phase {A} id intent att s (k : res SubmitResult -> M (OmsState W) A) (Q : OmsState W -> Prop) n :
  order_of id s <> None -> started att (phase_of id s) ->
  (forall s', order_of id s' <> None -> settled att (phase_of id s') -> Q s') ->
  (forall s' r, order_of id s' <> None -> phase_of id s' = Some (AtVenue (S att)) -> Q (k r s').1) ->
  Q ((update_order id (set_attempts n) ;! transition id SENT ;!
      let! now := wall_ns in update_order id (set_sent now) ;!
      journal ORDER_SENT id ;! modify (add_event (Submitted id)) ;!
      let! r := attempt (ask (v_submit intent)) in k r) s).1.
Proof.
  intros Hin Hp Hraise Hgo.
  assert (Hupd : forall f s0, order_of id s0 <> None -> order_of id (set_orders (order_update id f) s0) <> None).
  { intros f s0 H0 E. apply H0. now apply (quiet_update_order id id f s0). }
  unfold mbind_ at 1. cbn [update_order modify]. set (s1 := set_orders _ s).
  assert (H1 : order_of id s1 <> None) by now apply Hupd.
  unfold mbind_ at 1. rewrite transition_eq. cbv zeta.
  assert (Hcont : forall s2, oms_trace s2 = oms_trace s -> order_of id s2 <> None ->
    Q ((let! now := wall_ns in update_order id (set_sent now) ;!
        journal ORDER_SENT id ;! modify (add_event (Submitted id)) ;!
        let! r := attempt (ask (v_submit intent)) in k r) s2).1).
  { intros s2 Ht H2. unfold wall_ns, ask, attempt, mbind_. destruct (v_wall_ns (oms_world s2)) as [w now].
    cbn. destruct (v_submit intent w) as [w' r]. apply Hgo; [now apply Hupd|]. cbn.
    rewrite !follow_app, Ht. unfold started in Hp. rewrite Hp. cbn. rewrite !bool_decide_eq_true_2 by reflexivity.
    cbn. destruct att; cbn; now rewrite ?bool_decide_eq_true_2 by reflexivity. }
  case_bool_decide; [now apply Hcont|]. destruct (LEGAL _ _); [apply Hcont; [reflexivity|now apply Hupd]|].
  apply Hraise; [exact H1|]. now apply (started_unknown id att s1).
Qed.

Lemma send_loop_phase mr ms cb id i dp fuel : forall att s,
  order_of id s <> None -> started att (phase_of id s) -> att <= Z.to_nat (mr + 1) ->
  traced_at (Z.to_nat (mr + 1)) id (send_loop mr ms cb fuel id i dp (Z.of_nat att) s).1.
Proof.
  assert (Htail : forall {A} (c : M (OmsState W) A) n s', Steps (quiet_run id) c -> order_of id s' <> None ->
    n <= Z.to_nat (mr + 1) -> settled n (phase_of id s') -> traced_at (Z.to_nat (mr + 1)) id (c s').1).
  { intros A c n s' Hc. eapply quiet_run_self, Hc. }
  induction fuel as [|fuel IH]; intros att s Hin Hp Hb; cbn [send_loop];
    [now apply becomes_unknown_phase with att|].
  destruct (negb _) eqn:Hle; [now apply becomes_unknown_phase with att|].
  assert (Hb' : S att <= Z.to_nat (mr + 1)) by lia.
  apply attempt_phase with att; [exact Hin|exact Hp| |].
  - intros s' Hin' Hs. apply (Htail _ (ret tt) att s'); auto. apply Steps_ret. typeclasses eauto.
  - intros s' r Hin' Hs. destruct r as [result|e].
    { apply (Htail _ _ (S att)); [hush|exact Hin'|exact Hb'|now left]. }
    destruct e; try (apply (Htail _ _ (S att));
      [unfold exhausted, journal, quarantine; solve [hush]|exact Hin'|exact Hb'|now left]).
    unfold mbind_ at 1. cbn [update_order modify].
    case_match; [apply (Htail _ (exhausted _ _) (S att)); [unfold exhausted; hush| |exact Hb'|now left]|];
      [intros E; now apply (quiet_update_order id id) in E|].
    replace (Z.of_nat att + 1)%Z with (Z.of_nat (S att)) by lia.
    apply IH; [intros E; now apply (quiet_update_order id id) in E|exact Hs|exact Hb'].
Qed.

Definition traced (bound : nat) s : Prop := forall k, traced_at bound k s.

Lemma leaves_traced bound k s s' : leaves k s s' -> traced_at bound k s -> traced_at bound k s'.
Proof.
  intros [Hp Hd]. unfold traced_at. destruct (order_of k s') eqn:E', (order_of k s) eqn:E; try done;
    try (intuition congruence).
  - intros (n & Hn & [Hs|Hs]); exists n; (split; [exact Hn|]); [left|right]; now apply Hp.
  - intros Hs. now apply Hp.
Qed.

Lemma quiet_traced bound id s s' :
  order_of id s <> None -> quiet_run id s s' -> traced bound s -> traced bound s'.
Proof.
  intros Hin Hq Hs k. destruct (decide (k = id)) as [->|Hne].
  - specialize (Hs id). unfold traced_at in Hs. destruct (order_of id s) eqn:E; [|done].
    destruct Hs as (n & Hn & Hp). eapply quiet_run_self; eauto. congruence.
  - eapply quiet_run_other; eauto.
Qed.

Lemma traced_submit mr ms cb i dp s :
  traced (Z.to_nat (mr + 1)) s -> traced (Z.to_nat (mr + 1)) (submit mr ms cb i dp s).1.
Proof.
  intros Hs. unfold submit, mbind_ at 1. cbn [gets]. case_bool_decide; [exact Hs|].
  set (id := oi_client_order_id i). unfold find_order at 1, mbind_ at 1. cbn [gets].
  destruct (order_of id s) as [o|] eqn:Ho.
  { apply (quiet_traced _ id s); [congruence| |exact Hs].
    pose proof (quiet_event id (Journal ORDER_DUPLICATE_BLOCKED id)) as H'.
    apply H'. cbn. now apply bool_decide_eq_true_2. }
  set (s1 := add_event (Journal ORDER_INTENT id) (set_orders (fun os => os ++ [(id, new_order i)]) s)).
  assert (E : forall k, (modify (set_orders (fun os => os ++ [(id, new_order i)])) ;!
                 journal ORDER_INTENT id ;! k) s = (k : M (OmsState W) (option Order)) s1) by reflexivity.
  rewrite E. clear E.
  assert (Hloop : forall t, ((send_loop mr ms cb (submit_fuel mr) id i dp 0 ;! find_order id) t).1 =
                       (send_loop mr ms cb (submit_fuel mr) id i dp 0 t).1).
  { intros t. unfold mbind_, find_order, gets. now destruct (send_loop _ _ _ _ _ _ _ _ t) as [? []]. }
  rewrite Hloop. intros k. destruct (decide (k = id)) as [->|Hne].
  - apply (send_loop_phase mr ms cb id i dp _ 0); [| |lia].
    + cbn. rewrite order_get_app, Ho. cbn. now rewrite bool_decide_eq_true_2.
    + specialize (Hs id). unfold traced_at in Hs. rewrite Ho in Hs.
      unfold started. cbn. rewrite follow_app, Hs. cbn. now rewrite bool_decide_eq_true_2.
  - eapply leaves_traced; [now apply (leaves_send_loop mr ms cb _ id k)|].
    eapply leaves_traced; [|exact (Hs k)]. split.
    + intros p Hp. cbn. rewrite follow_app, Hp. cbn. now rewrite bool_decide_eq_false_2 by congruence.
    + cbn. rewrite order_get_app. destruct (order_of k s); [done|]. cbn.
      now rewrite bool_decide_eq_false_2 by congruence.
Qed.

Lemma traced_resolve_unknown ms cb bound id : Steps (keeps (traced bound)) (resolve_unknown ms cb id).
Proof.
  intros s Hs. destruct (order_of id s) as [o|] eqn:Ho.
  - apply (quiet_traced _ id s); [congruence|apply quiet_resolve_unknown|exact Hs].
  - unfold resolve_unknown, find_order, mbind_, gets. cbn. now rewrite Ho.
Qed.

Lemma traced_call mr ms cb c s :
  traced (Z.to_nat (mr + 1)) s -> traced (Z.to_nat (mr + 1)) (run_call mr ms cb c s).1.
Proof.
  intros Hs. destruct c as [i dp|id| |inst]; cbn [run_call].
  - pose proof (traced_submit mr ms cb i dp s Hs) as H. unfold mbind_.
    now destruct (submit mr ms cb i dp s) as [s' []].
  - revert Hs. pose proof (traced_resolve_unknown ms cb (Z.to_nat (mr + 1)) id) as H.
    apply (Steps_bind (keeps _) (PreOrder0 := keeps_preorder _)); [exact H|intros ? s' Hs'; exact Hs'].
  - pose proof (traced_resolve_unknown ms cb (Z.to_nat (mr + 1))) as H. revert Hs.
    apply (Steps_bind (keeps _) (PreOrder0 := keeps_preorder _)); [intros s' Hs'; exact Hs'|intros os].
    apply Steps_each; [apply keeps_preorder|]. intros o.
    apply (Steps_bind (keeps _) (PreOrder0 := keeps_preorder _)); [apply H|intros ? s' Hs'; exact Hs'].
  - unfold release_quarantine, mbind_, gets. cbn. case_bool_decide; [|exact Hs]. intros k.
    specialize (Hs k). unfold traced_at in *. cbn. rewrite follow_app. cbn.
    destruct (order_of k s); [destruct Hs as (n & Hn & [-> | ->]); exists n|rewrite Hs];
      unfold settled; cbn; case_bool_decide; cbn; auto.
Qed.

Lemma traced_reachable mr ms cb s : reachable mr ms cb s -> traced (Z.to_nat (mr + 1)) s.
Proof. induction 1 as [w|c s _ IH Hc]; [intros k; reflexivity|now apply traced_call]. Qed.
End Trace.

(** ** A venue that answers by script, for concrete runs *)

Record Script := mkScript {
  sc_submit : res SubmitResult;
  sc_query : res (option SubmitResult);
  sc_modify : res bool
}.

#[export] Instance Script_venue : Venue Script := {|
  supports_client_order_id := true;
  v_instrument _ w := (w, Raise BrokerError);
  v_quote _ w := (w, Raise BrokerError);
  v_account w := (w, Raise BrokerError);
  v_positions w := (w, Ok []);
  v_submit _ w := (w, sc_submit w);
  v_query_order _ w := (w, sc_query w);
  v_modify_position _ _ w := (w, sc_modify w);
  v_transactions_since _ w := (w, Ok []);
  v_wall_ns w := (w, 0%Z)
|}.

Definition demo_intent (id : string) : OrderIntent :=
  mkOrderIntent id "trend" "EUR_USD" BUY (mkDec 1 (-2)) MARKET None (Some (mkDec 1090 (-3))) None 0 (mkDec 20 0)
    (mkDec 2 (-1)) (mkDec 1 0).

Definition demo_fill : Fill :=
  mkFill "a" "v1" "EUR_USD" BUY (mkDec 1 (-2)) (mkDec 1100 (-3)) 0 0 (mkDec 0 0) (mkDec 0 0) (mkDec 0 0).

Definition demo_result (st : OrderState) (fills : list Fill) (stop_confirmed : bool) : SubmitResult :=
  mkSubmitResult st (Some "v1") fills None None None stop_confirmed None.

(** A send that times out. *)
Definition timed_out (query : res (option SubmitResult)) : OmsState Script :=
  (run_call 2 None None (CSubmit (demo_intent "a") None)
     (mkOms [] ∅ [] [] [] (mkScript (Raise UnknownOutcomeError) query (Ok false)))).1.

Lemma timed_out_reachable query : reachable 2 None None (timed_out query).
Proof. apply reachable_call; [apply reachable_init|exact I]. Qed.

Definition unknown_order (id : string) (s : OmsState Script) : bool :=
  match order_get id (oms_orders s) with
  | Some o => bool_decide (o_state o = UNKNOWN) && bool_decide (oi_instrument (o_intent o) = "EUR_USD")
  | None => false
  end.

Lemma unknown_order_spec id s :
  unknown_order id s = true ->
  exists o, order_get id (oms_orders s) = Some o /\ o_state o = UNKNOWN /\
            oi_instrument (o_intent o) = "EUR_USD".
Proof.
  unfold unknown_order. destruct (order_get id _) as [o|]; [|done].
  intros [H1%bool_decide_eq_true H2%bool_decide_eq_true]%andb_true_iff. eauto.
Qed.

Lemma timed_out_unknown : unknown_order "a" (timed_out (Ok None)) = true.
Proof. vm_compute. reflexivity. Qed.

(** ** The guarantees *)

Section Guarantees.
Context {W : Type} `{!Venue W}.
Implicit Types s : OmsState W.

(** C2: while the outcome of an order is unknown, its instrument is
    quarantined, no second order on that instrument is unknown, and a
    submission on it is refused before anything is journalled or sent. *)
Theorem unknown_locks_instrument mr ms cb s id o :
  reachable mr ms cb s -> order_get id (oms_orders s) = Some o -> o_state o = UNKNOWN ->
  oi_instrument (o_intent o) ∈ oms_quarantine s /\
  (forall id' o', order_get id' (oms_orders s) = Some o' -> o_state o' = UNKNOWN ->
     oi_instrument (o_intent o') = oi_instrument (o_intent o) -> id' = id) /\
  (forall intent dp, oi_instrument intent = oi_instrument (o_intent o) ->
     submit mr ms cb intent dp s = (s, Raise UnknownOutcomeError)).
Proof.
  intros Hr Ho Hu. destruct (lock_inv_reachable mr ms cb s Hr) as (_ & Hl & H1).
  pose proof (Hl id o Ho Hu) as Hq. split; [exact Hq|split].
  - intros id' o' Ho' Hu' E. exact (H1 _ _ _ _ Ho' Ho Hu' Hu E).
  - intros intent dp E. unfold submit, mbind_ at 1. cbn [gets]. rewrite E.
    now rewrite bool_decide_eq_true_2.
Qed.

(** C34: the journal records and venue calls that name an order follow the
    write-ahead protocol, and the venue is sent the order at most [max_retries]
    + 1 times; once where it cannot recognise a repeated client id. *)
Theorem sends_follow_protocol configured ms cb s id :
  reachable (retry_budget supports_client_order_id configured) ms cb s ->
  exists p n, follow id Fresh (oms_trace s) = Some p /\
    (p = Fresh /\ n = 0 \/ p = AtVenue n \/ p = Answered n) /\
    n <= Z.to_nat (configured + 1) /\ (supports_client_order_id = false -> n <= 1).
Proof.
  intros Hr. pose proof (traced_reachable _ _ _ _ Hr id) as Ht. unfold traced_at in Ht.
  assert (Hb : Z.to_nat (retry_budget supports_client_order_id configured + 1) <= Z.to_nat (configured + 1)
    /\ (supports_client_order_id = false ->
        Z.to_nat (retry_budget supports_client_order_id configured + 1) <= 1)).
  { unfold retry_budget. destruct supports_client_order_id; cbn; [lia|].
    destruct (Z.ltb_spec 0 configured); lia. }
  destruct (order_get id (oms_orders s)).
  - destruct Ht as (n & Hn & [Hp|Hp]); (eexists _, n; split; [exact Hp|]); (split; [auto|]);
      (split; [lia|]); intros Hs; destruct Hb as [_ Hb]; specialize (Hb Hs); lia.
  - exists Fresh, 0. split; [exact Ht|]. repeat split; [now left|lia|lia].
Qed.

(** No call, whether it returns or raises, drops an order, rewrites its
    intent or loses a fill, and its state moves only along legal transitions;
    a terminal state is final. *)
Theorem orders_only_advance mr ms cb c s id o :
  order_get id (oms_orders s) = Some o ->
  exists o', order_get id (oms_orders (run_call mr ms cb c s).1) = Some o' /\
    rtc (fun a b => LEGAL a b = true) (o_state o) (o_state o') /\
    o_intent o' = o_intent o /\ o_fills o `prefix_of` o_fills o' /\
    (terminal (o_state o) = true -> o_state o' = o_state o).
Proof.
  intros Ho. destruct (advances_call mr ms cb c s id o Ho) as (o' & Ho' & Hl & Hi & Hf).
  exists o'. repeat (split; [assumption|]). intros Ht.
  destruct Hl as [x|x y z Hxy _]; [reflexivity|]. now destruct x.
Qed.

(** A submission that returns for a new order has decided it: the order is
    in the table, neither pending nor merely sent, and if its outcome is unknown
    its instrument is quarantined. *)
Theorem submit_settles mr ms cb s intent dp s' r :
  reachable mr ms cb s -> order_get (oi_client_order_id intent) (oms_orders s) = None ->
  submit mr ms cb intent dp s = (s', Ok r) ->
  exists o, r = Some o /\ order_get (oi_client_order_id intent) (oms_orders s') = Some o /\
    o_intent o = intent /\ o_state o <> PENDING /\ o_state o <> SENT /\
    (o_state o = UNKNOWN -> oi_instrument intent ∈ oms_quarantine s').
Proof.
  intros Hr Hnone Hs. set (id := oi_client_order_id intent) in *.
  pose proof (lock_inv_submit mr ms cb intent dp s (lock_inv_reachable _ _ _ _ Hr)) as (_ & Hl & _).
  rewrite Hs in Hl. revert Hs. unfold submit, mbind_ at 1. cbn [gets].
  case_bool_decide; [discriminate|]. unfold find_order at 1, mbind_ at 1. cbn [gets]. fold id.
  rewrite Hnone. set (s1 := add_event (Journal ORDER_INTENT id)
                              (set_orders (fun os => os ++ [(id, new_order intent)]) s)).
  assert (H1 : order_get id (oms_orders s1) = Some (new_order intent)).
  { cbn. rewrite order_get_app, Hnone. cbn. now rewrite bool_decide_eq_true_2. }
  assert (E : forall k, (modify (set_orders (fun os => os ++ [(id, new_order intent)])) ;!
                 journal ORDER_INTENT id ;! k) s = (k : M (OmsState W) (option Order)) s1) by reflexivity.
  rewrite E. unfold mbind_, find_order, gets.
  destruct (send_loop mr ms cb (submit_fuel mr) id intent dp 0 s1) as [s2 [[]|e]] eqn:E2; [|discriminate].
  intros [= <- <-]. destruct (advances_send_loop mr ms cb (submit_fuel mr) id intent dp 0 s1 id _ H1) as (o & Ho & _ & Hi & _).
  rewrite E2 in Ho. cbn in Ho. exists o. split; [exact Ho|]. split; [exact Ho|]. split; [exact Hi|].
  destruct (Settles_send_loop mr ms cb (submit_fuel mr) id intent dp 0 s1 s2 tt) as (o2 & Ho2 & Hu);
    [congruence|exact E2|].
  rewrite Ho in Ho2. injection Ho2 as <-. split; [intros X; now rewrite X in Hu|].
  split; [intros X; now rewrite X in Hu|]. intros X.
  cbn in Hi. rewrite <- Hi. now apply (Hl id).
Qed.

#[local] Arguments transition : simpl never.

(** An open answer with no fill, for an order in state UNKNOWN. *)
Lemma apply_result_open ms cb id i result dp s o :
  order_get id (oms_orders s) = Some o -> o_state o = UNKNOWN ->
  target_of (sr_state result) = ACKED -> sr_state result <> REJECTED -> sr_state result <> UNKNOWN ->
  sr_fills result = [] ->
  apply_result ms cb id i result dp s =
    (add_event (Journal ORDER_UNKNOWN id)
       (set_orders (order_update id (set_acked (sr_venue_order_id result) (v_wall_ns (oms_world s)).2))
          (set_world (v_wall_ns (oms_world s)).1 s)), Raise IllegalTransition).
Proof.
  intros Ho Hu Ht Hr Hn Hf. unfold apply_result, mbind_ at 1, wall_ns, ask.
  destruct (v_wall_ns (oms_world s)) as [w now]. cbn [fst snd].
  unfold mbind_ at 1. cbn [update_order modify]. set (s1 := set_orders _ _).
  assert (H1 : order_get id (oms_orders s1) = Some (set_acked (sr_venue_order_id result) now o)).
  { cbn. now rewrite order_get_update, bool_decide_eq_true_2, Ho. }
  assert (Htr : transition id ACKED s1 =
                (add_event (Journal ORDER_UNKNOWN id) s1, Raise IllegalTransition)).
  { rewrite transition_eq, H1. cbn. rewrite Hu. now rewrite bool_decide_eq_false_2. }
  clearbody s1. destruct (sr_state result) eqn:Hst; try done; rewrite Ht, Hf;
    unfold mbind_, find_order, gets, ret; cbn; destruct (oi_stop_loss i);
    rewrite ?(bool_decide_eq_true_2 (ACKED = ACKED)) by reflexivity; cbn; now rewrite Htr.
Qed.

(** Where the venue answers a query with CANCELLED (or with a state that is
    still open) and no fill, [resolve_unknown] raises an illegal transition: the
    order stays UNKNOWN and its instrument stays as it was. *)
Theorem resolve_cancelled_raises mr ms cb s id o w result :
  reachable mr ms cb s -> order_get id (oms_orders s) = Some o -> o_state o = UNKNOWN ->
  v_query_order id (oms_world s) = (w, Ok (Some result)) ->
  sr_state result ∈ [CANCELLED; ACKED; SENT; PENDING] -> sr_fills result = [] ->
  exists s' o', resolve_unknown ms cb id s = (s', Raise IllegalTransition) /\
    order_get id (oms_orders s') = Some o' /\ o_state o' = UNKNOWN /\
    oms_quarantine s' = oms_quarantine s /\ oi_instrument (o_intent o') ∈ oms_quarantine s'.
Proof.
  intros Hr Ho Hu Hq Hst Hf. destruct (lock_inv_reachable _ _ _ _ Hr) as (_ & Hl & _).
  rewrite (resolve_unknown_eq _ _ _ _ _ Ho), bool_decide_eq_true_2 by exact Hu.
  assert (Ht : target_of (sr_state result) = ACKED /\ sr_state result <> REJECTED /\ sr_state result <> UNKNOWN).
  { repeat (apply elem_of_cons in Hst as [-> |Hst]; [repeat split; discriminate|]).
    now apply not_elem_of_nil in Hst. }
  unfold resolve_query, mbind_ at 1. cbn [modify]. unfold mbind_ at 1, attempt, ask at 1. cbn [oms_world add_event].
  rewrite Hq. unfold mbind_ at 1.
  rewrite (apply_result_open ms cb id (o_intent o) result None _ o) by (try apply Ht; assumption).
  eexists _, (set_acked (sr_venue_order_id result) _ o). split; [reflexivity|]. cbn.
  rewrite order_get_update, bool_decide_eq_true_2, Ho by reflexivity. cbn.
  split; [reflexivity|]. split; [exact Hu|]. split; [reflexivity|]. now apply (Hl id).
Qed.

(** A query that settles an unknown order lifts the quarantine of its
    instrument, whatever raised it: also the one set a moment before because the
    venue filled the order and its stop could not be asserted. *)
Theorem resolution_releases ms cb s id o s' r :
  order_get id (oms_orders s) = Some o -> o_state o = UNKNOWN ->
  resolve_unknown ms cb id s = (s', Ok r) ->
  exists o', r = Some o' /\ order_get id (oms_orders s') = Some o' /\ o_intent o' = o_intent o /\
    (terminal (o_state o') = true -> oi_instrument (o_intent o) ∉ oms_quarantine s').
Proof.
  intros Ho Hu. rewrite (resolve_unknown_eq _ _ _ _ _ Ho), bool_decide_eq_true_2 by exact Hu.
  assert (Hkeep : forall s1, oms_orders s1 = oms_orders s ->
    (journal ORDER_UNKNOWN id ;! find_order id) s1 = (s', Ok r) ->
    exists o', r = Some o' /\ order_get id (oms_orders s') = Some o' /\ o_intent o' = o_intent o /\
      (terminal (o_state o') = true -> oi_instrument (o_intent o) ∉ oms_quarantine s')).
  { intros s1 E [= <- <-]. exists o. cbn. rewrite E. rewrite Hu. repeat split; try assumption. discriminate. }
  unfold resolve_query, mbind_ at 1. cbn [modify]. unfold mbind_ at 1, attempt, ask at 1. cbn [oms_world add_event].
  destruct (v_query_order id (oms_world s)) as [w [[result|]|e]].
  2: now apply Hkeep.
  2: destruct e; try discriminate; now apply Hkeep.
  set (s1 := set_world w _). unfold mbind_ at 1.
  pose proof (advances_apply_result ms cb id (o_intent o) result None s1 id o Ho) as (o2 & Ho2 & _ & Hi & _).
  destruct (apply_result ms cb id (o_intent o) result None s1) as [s2 [u|e]]; [|discriminate]. cbn in Ho2.
  unfold state_of, find_order, mbind_, gets, ret. cbn. rewrite Ho2.
  destruct (terminal (o_state o2)) eqn:Ht; cbn; intros [= <- <-]; exists o2; cbn;
    (split; [exact Ho2|split; [exact Ho2|split; [exact Hi|]]]); [set_solver|congruence].
Qed.
End Guarantees.

(** ** Witnesses *)

Lemma unknown_locks_instrument_witness :
  exists s : OmsState Script, "EUR_USD" ∈ oms_quarantine s /\
    submit 2 None None (demo_intent "b") None s = (s, Raise UnknownOutcomeError).
Proof.
  destruct (unknown_order_spec _ _ timed_out_unknown) as (o & Ho & Hu & Hi).
  exists (timed_out (Ok None)).
  destruct (unknown_locks_instrument 2 None None _ _ _ (timed_out_reachable (Ok None)) Ho Hu) as (Hq & _ & Hs).
  split; [rewrite <- Hi; exact Hq|apply Hs; now rewrite Hi].
Defined.

Lemma sends_follow_protocol_witness :
  exists p n, follow "a" Fresh (oms_trace (timed_out (Ok None))) = Some p /\
    (p = Fresh /\ n = 0 \/ p = AtVenue n \/ p = Answered n) /\ n <= 3.
Proof.
  destruct (sends_follow_protocol 2 None None _ "a" (timed_out_reachable (Ok None))) as (p & n & Hf & Hp & Hn & _).
  exists p, n. split; [exact Hf|split; [exact Hp|exact Hn]].
Defined.

Lemma orders_only_advance_witness :
  exists o', order_get "a" (oms_orders (run_call 2 None None (CResolve "a") (timed_out (Ok None))).1) = Some o' /\
    rtc (fun a b => LEGAL a b = true) UNKNOWN (o_state o').
Proof.
  destruct (unknown_order_spec _ _ timed_out_unknown) as (o & Ho & Hu & _).
  destruct (orders_only_advance 2 None None (CResolve "a") _ _ _ Ho) as (o' & Ho' & Hl & _).
  exists o'. split; [exact Ho'|]. rewrite <- Hu. exact Hl.
Defined.

Definition demo_start (st : res SubmitResult) : OmsState Script :=
  mkOms [] ∅ [] [] [] (mkScript st (Ok None) (Ok false)).

Lemma demo_submit_ok :
  match submit 2 None None (demo_intent "a") None (demo_start (Ok (demo_result FILLED [demo_fill] true))) with
  | (s, Ok (Some o)) => bool_decide (o_state o = FILLED)
  | _ => false
  end = true.
Proof. vm_compute. reflexivity. Qed.

Lemma submit_settles_witness :
  exists (s : OmsState Script) o, order_get "a" (oms_orders s) = Some o /\
    o_state o <> PENDING /\ o_state o <> SENT.
Proof.
  pose proof demo_submit_ok as H.
  destruct (submit 2 None None (demo_intent "a") None (demo_start (Ok (demo_result FILLED [demo_fill] true))))
    as [s [r|e]] eqn:E; [|discriminate].
  destruct (submit_settles 2 None None (demo_start (Ok (demo_result FILLED [demo_fill] true)))
              (demo_intent "a") None s r) as (o & _ & Ho & _ & H1 & H2 & _);
    [apply reachable_init|reflexivity|exact E|].
  exists s, o. split; [exact Ho|split; [exact H1|exact H2]].
Defined.

(** A timed-out send whose query says CANCELLED. *)
Definition cancelled_answer := Ok (Some (demo_result CANCELLED [] true)).

Lemma cancelled_unknown : unknown_order "a" (timed_out cancelled_answer) = true.
Proof. vm_compute. reflexivity. Qed.

Lemma timed_out_world : oms_world (timed_out cancelled_answer) = mkScript (Raise UnknownOutcomeError) cancelled_answer (Ok false).
Proof. vm_compute. reflexivity. Qed.

Lemma resolve_cancelled_raises_witness :
  exists s' : OmsState Script,
    resolve_unknown None None "a" (timed_out cancelled_answer) = (s', Raise IllegalTransition).
Proof.
  destruct (unknown_order_spec _ _ cancelled_unknown) as (o & Ho & Hu & _).
  destruct (resolve_cancelled_raises 2 None None _ "a" o (oms_world (timed_out cancelled_answer))
              (demo_result CANCELLED [] true) (timed_out_reachable _) Ho Hu) as (s' & _ & H & _).
  - rewrite timed_out_world. reflexivity.
  - apply elem_of_cons. now left.
  - reflexivity.
  - exists s'. exact H.
Defined.

(** The order is found filled, its stop refused and not to be asserted. *)
Definition naked_fill : OmsState Script :=
  set_world (mkScript (Raise UnknownOutcomeError) (Ok (Some (demo_result FILLED [demo_fill] false))) (Ok false))
    (timed_out (Ok None)).

Lemma naked_fill_unknown : unknown_order "a" naked_fill = true.
Proof. vm_compute. reflexivity. Qed.

Lemma naked_fill_resolved :
  match resolve_unknown None None "a" naked_fill with
  | (s, Ok (Some o)) => bool_decide (o_state o = FILLED) && negb (o_stop_confirmed o)
  | _ => false
  end = true.
Proof. vm_compute. reflexivity. Qed.

Lemma resolution_releases_witness :
  exists (s' : OmsState Script) o', order_get "a" (oms_orders s') = Some o' /\
    o_state o' = FILLED /\ o_stop_confirmed o' = false /\ "EUR_USD" ∉ oms_quarantine s'.
Proof.
  destruct (unknown_order_spec _ _ naked_fill_unknown) as (o & Ho & Hu & Hi).
  pose proof naked_fill_resolved as H.
  destruct (resolve_unknown None None "a" naked_fill) as [s' [r|e]] eqn:E; [|discriminate].
  destruct (resolution_releases None None _ "a" o s' r Ho Hu E) as (o' & -> & Ho' & _ & Hq).
  apply andb_true_iff in H as [H1%bool_decide_eq_true H2%negb_true_iff].
  exists s', o'. split; [exact Ho'|split; [exact H1|split; [exact H2|]]].
  rewrite <- Hi. apply Hq. now rewrite H1.
Defined.
