(* ===== verification/Paper.v ===== *)
(** [sentinel/brokers/paper.py]: the simulated venue.  Its state is the record
    [Paper]; every method is a computation of [StateExn] over it, so a method
    that raises keeps what it changed before.  The generator of the frictions
    is a parameter (class [Random]): what [random.Random] draws, and the power
    function of the C library.  Dictionaries keep their insertion order, which
    the order of positions and of margin close-outs depends on.  An order's
    free-text [last_error] and the figures a transaction spells out as text are
    presentation (the figures are kept as decimals).  A position the venue hands
    out is a value here, not a shared object.  [PaperInv.v] and [PaperOms.v] hold
    the theorems. *)

From Stdlib Require Import ZArith Lia SpecFloat Ascii.
From stdpp Require Import base strings list pretty.
From S2P Require Import Prelude PyDecimal Money Types Calendar TzRules PyFloat StateExn PyDict Venue.

Local Open Scope dec_scope.
Local Open Scope py_scope.

(** ** The friction profile *)

Record SimProfile := mkSimProfile {
  sp_base_spread_pips : list (string * decimal);
  sp_default_spread_pips : decimal;
  sp_commission_per_lot_round_turn : decimal;
  sp_asia_spread_multiple : decimal;
  sp_london_spread_multiple : decimal;
  sp_rollover_spread_multiple : decimal;
  sp_news_spread_multiple : decimal;
  sp_latency_ms_median : spec_float;
  sp_latency_ms_tail : spec_float;
  sp_latency_tail_prob : spec_float;
  sp_slippage_pips_mean : decimal;
  sp_slippage_pips_sigma : decimal;
  sp_adverse_slippage_prob : spec_float;
  sp_last_look_reject_prob : spec_float;
  sp_last_look_favourable_bias : spec_float;
  sp_partial_fill_threshold_lots : decimal;
  sp_partial_fill_ratio : decimal;
  sp_swap_long_pips_per_day : list (string * decimal);
  sp_swap_short_pips_per_day : list (string * decimal);
  sp_triple_swap_weekday : Z;
  sp_stop_out_margin_level_pct : decimal;
  sp_margin_call_level_pct : decimal;
  sp_negative_balance_protection : bool;
  sp_cost_multiplier : decimal;
  sp_latency_multiplier : spec_float
}.

(** [SimProfile()]. *)
Definition default_profile : SimProfile :=
  mkSimProfile [] 0.6 7.0 2.6 1.0 6.0 5.0
    (float_of_dec 85.0) (float_of_dec 420.0) (float_of_dec 0.07)
    0.15 0.35 (float_of_dec 0.68) (float_of_dec 0.015) (float_of_dec 3.5)
    2.0 0.6 [] [] 2 50 100 true 1.0 (float_of_dec 1.0).

(** [SimProfile.stressed]. *)
Definition stressed (p : SimProfile) (cost_x : pyval) (latency_x : spec_float) : res SimProfile :=
  let* c := dec cost_x in
  Ok (mkSimProfile (sp_base_spread_pips p) (sp_default_spread_pips p) (sp_commission_per_lot_round_turn p)
    (sp_asia_spread_multiple p) (sp_london_spread_multiple p) (sp_rollover_spread_multiple p)
    (sp_news_spread_multiple p) (sp_latency_ms_median p) (sp_latency_ms_tail p) (sp_latency_tail_prob p)
    (sp_slippage_pips_mean p) (sp_slippage_pips_sigma p) (sp_adverse_slippage_prob p)
    (sp_last_look_reject_prob p) (sp_last_look_favourable_bias p) (sp_partial_fill_threshold_lots p)
    (sp_partial_fill_ratio p) (sp_swap_long_pips_per_day p) (sp_swap_short_pips_per_day p)
    (sp_triple_swap_weekday p) (sp_stop_out_margin_level_pct p) (sp_margin_call_level_pct p)
    (sp_negative_balance_protection p) (sp_cost_multiplier p * c)
    (fmul (sp_latency_multiplier p) latency_x)).

(** What the simulator draws.  [random()] is a float of [0, 1). *)
Class Random (G : Type) := {
  rng_random : G -> G * spec_float;
  rng_gauss : spec_float -> spec_float -> G -> G * spec_float;
  (** [x ** y] of floats. *)
  libm_pow : spec_float -> spec_float -> spec_float
}.

(** ** The state *)

(** What a transaction records, by its kind. *)
Inductive TxnKind :=
| ORDER_REJECT_MARGIN (required available : decimal)
| ORDER_REJECT_LAST_LOOK (favourable_to_client : bool)
| ORDER_TIMEOUT (latency_ms : spec_float)
| ORDER_FILL (price lots commission slippage_pips : decimal) (hidden : bool)
| NEGATIVE_BALANCE_RESET (balance_before : decimal)
| POSITION_CLOSE (instrument : string) (lots pnl gross_pnl : decimal) (reason : string)
| ROLLOVER (multiplier : decimal) (value_date : Z)
| ORDER_CANCEL
| POSITION_MODIFY (instrument : string) (stop_loss take_profit : option decimal).

Record Txn := mkTxn {
  tx_id : Z;
  tx_kind : TxnKind;
  tx_client_order_id : string;
  tx_ts_ns : Z
}.

Record Paper (G : Type) := mkPaper {
  pb_balance : decimal;
  pb_quotes : list (string * Quote);
  pb_conversions : list (string * decimal);
  pb_positions : list (string * Position);
  pb_orders : list (string * Order);
  pb_closed : list ClosedTrade;
  pb_transactions : list Txn;
  pb_txn_seq : Z;
  pb_now_ns : Z;
  pb_news_window : bool;
  pb_last_rollover_day : option Z;
  pb_peak_equity : decimal;
  pb_trade_seq : Z;
  pb_unvalued : list string;
  pb_rng : G
}.
Arguments mkPaper {G}.
Arguments pb_balance {G}.
Arguments pb_quotes {G}.
Arguments pb_conversions {G}.
Arguments pb_positions {G}.
Arguments pb_orders {G}.
Arguments pb_closed {G}.
Arguments pb_transactions {G}.
Arguments pb_txn_seq {G}.
Arguments pb_now_ns {G}.
Arguments pb_news_window {G}.
Arguments pb_last_rollover_day {G}.
Arguments pb_peak_equity {G}.
Arguments pb_trade_seq {G}.
Arguments pb_unvalued {G}.
Arguments pb_rng {G}.

(** ** Assignments to the state *)

Section Assignments.
Context {G : Type}.
Definition upd_balance (f : decimal -> decimal) (s : Paper G) : Paper G :=
  mkPaper (f (pb_balance s)) (pb_quotes s) (pb_conversions s) (pb_positions s) (pb_orders s)
    (pb_closed s) (pb_transactions s) (pb_txn_seq s) (pb_now_ns s) (pb_news_window s)
    (pb_last_rollover_day s) (pb_peak_equity s) (pb_trade_seq s) (pb_unvalued s) (pb_rng s).
Definition upd_quotes (f : list (string * Quote) -> list (string * Quote)) (s : Paper G) : Paper G :=
  mkPaper (pb_balance s) (f (pb_quotes s)) (pb_conversions s) (pb_positions s) (pb_orders s)
    (pb_closed s) (pb_transactions s) (pb_txn_seq s) (pb_now_ns s) (pb_news_window s)
    (pb_last_rollover_day s) (pb_peak_equity s) (pb_trade_seq s) (pb_unvalued s) (pb_rng s).
Definition upd_conversions (f : list (string * decimal) -> list (string * decimal)) (s : Paper G) : Paper G :=
  mkPaper (pb_balance s) (pb_quotes s) (f (pb_conversions s)) (pb_positions s) (pb_orders s)
    (pb_closed s) (pb_transactions s) (pb_txn_seq s) (pb_now_ns s) (pb_news_window s)
    (pb_last_rollover_day s) (pb_peak_equity s) (pb_trade_seq s) (pb_unvalued s) (pb_rng s).
Definition upd_positions (f : list (string * Position) -> list (string * Position)) (s : Paper G) : Paper G :=
  mkPaper (pb_balance s) (pb_quotes s) (pb_conversions s) (f (pb_positions s)) (pb_orders s)
    (pb_closed s) (pb_transactions s) (pb_txn_seq s) (pb_now_ns s) (pb_news_window s)
    (pb_last_rollover_day s) (pb_peak_equity s) (pb_trade_seq s) (pb_unvalued s) (pb_rng s).
Definition upd_orders (f : list (string * Order) -> list (string * Order)) (s : Paper G) : Paper G :=
  mkPaper (pb_balance s) (pb_quotes s) (pb_conversions s) (pb_positions s) (f (pb_orders s))
    (pb_closed s) (pb_transactions s) (pb_txn_seq s) (pb_now_ns s) (pb_news_window s)
    (pb_last_rollover_day s) (pb_peak_equity s) (pb_trade_seq s) (pb_unvalued s) (pb_rng s).
Definition upd_closed (f : list ClosedTrade -> list ClosedTrade) (s : Paper G) : Paper G :=
  mkPaper (pb_balance s) (pb_quotes s) (pb_conversions s) (pb_positions s) (pb_orders s)
    (f (pb_closed s)) (pb_transactions s) (pb_txn_seq s) (pb_now_ns s) (pb_news_window s)
    (pb_last_rollover_day s) (pb_peak_equity s) (pb_trade_seq s) (pb_unvalued s) (pb_rng s).
Definition upd_transactions (f : list Txn -> list Txn) (s : Paper G) : Paper G :=
  mkPaper (pb_balance s) (pb_quotes s) (pb_conversions s) (pb_positions s) (pb_orders s)
    (pb_closed s) (f (pb_transactions s)) (pb_txn_seq s) (pb_now_ns s) (pb_news_window s)
    (pb_last_rollover_day s) (pb_peak_equity s) (pb_trade_seq s) (pb_unvalued s) (pb_rng s).
Definition upd_txn_seq (f : Z -> Z) (s : Paper G) : Paper G :=
  mkPaper (pb_balance s) (pb_quotes s) (pb_conversions s) (pb_positions s) (pb_orders s)
    (pb_closed s) (pb_transactions s) (f (pb_txn_seq s)) (pb_now_ns s) (pb_news_window s)
    (pb_last_rollover_day s) (pb_peak_equity s) (pb_trade_seq s) (pb_unvalued s) (pb_rng s).
Definition upd_now_ns (f : Z -> Z) (s : Paper G) : Paper G :=
  mkPaper (pb_balance s) (pb_quotes s) (pb_conversions s) (pb_positions s) (pb_orders s)
    (pb_closed s) (pb_transactions s) (pb_txn_seq s) (f (pb_now_ns s)) (pb_news_window s)
    (pb_last_rollover_day s) (pb_peak_equity s) (pb_trade_seq s) (pb_unvalued s) (pb_rng s).
Definition upd_news_window (f : bool -> bool) (s : Paper G) : Paper G :=
  mkPaper (pb_balance s) (pb_quotes s) (pb_conversions s) (pb_positions s) (pb_orders s)
    (pb_closed s) (pb_transactions s) (pb_txn_seq s) (pb_now_ns s) (f (pb_news_window s))
    (pb_last_rollover_day s) (pb_peak_equity s) (pb_trade_seq s) (pb_unvalued s) (pb_rng s).
Definition upd_last_rollover_day (f : option Z -> option Z) (s : Paper G) : Paper G :=
  mkPaper (pb_balance s) (pb_quotes s) (pb_conversions s) (pb_positions s) (pb_orders s)
    (pb_closed s) (pb_transactions s) (pb_txn_seq s) (pb_now_ns s) (pb_news_window s)
    (f (pb_last_rollover_day s)) (pb_peak_equity s) (pb_trade_seq s) (pb_unvalued s) (pb_rng s).
Definition upd_peak_equity (f : decimal -> decimal) (s : Paper G) : Paper G :=
  mkPaper (pb_balance s) (pb_quotes s) (pb_conversions s) (pb_positions s) (pb_orders s)
    (pb_closed s) (pb_transactions s) (pb_txn_seq s) (pb_now_ns s) (pb_news_window s)
    (pb_last_rollover_day s) (f (pb_peak_equity s)) (pb_trade_seq s) (pb_unvalued s) (pb_rng s).
Definition upd_trade_seq (f : Z -> Z) (s : Paper G) : Paper G :=
  mkPaper (pb_balance s) (pb_quotes s) (pb_conversions s) (pb_positions s) (pb_orders s)
    (pb_closed s) (pb_transactions s) (pb_txn_seq s) (pb_now_ns s) (pb_news_window s)
    (pb_last_rollover_day s) (pb_peak_equity s) (f (pb_trade_seq s)) (pb_unvalued s) (pb_rng s).
Definition upd_unvalued (f : list string -> list string) (s : Paper G) : Paper G :=
  mkPaper (pb_balance s) (pb_quotes s) (pb_conversions s) (pb_positions s) (pb_orders s)
    (pb_closed s) (pb_transactions s) (pb_txn_seq s) (pb_now_ns s) (pb_news_window s)
    (pb_last_rollover_day s) (pb_peak_equity s) (pb_trade_seq s) (f (pb_unvalued s)) (pb_rng s).
Definition upd_rng (f : G -> G) (s : Paper G) : Paper G :=
  mkPaper (pb_balance s) (pb_quotes s) (pb_conversions s) (pb_positions s) (pb_orders s)
    (pb_closed s) (pb_transactions s) (pb_txn_seq s) (pb_now_ns s) (pb_news_window s)
    (pb_last_rollover_day s) (pb_peak_equity s) (pb_trade_seq s) (pb_unvalued s) (f (pb_rng s)).
End Assignments.

(** [f"V{seq:08d}"] and [f"T{seq:06d}"]. *)
Fixpoint zeros (n : nat) : string := match n with O => "" | S n => String.append "0" (zeros n) end.
Definition padded (width : nat) (seq : Z) : string :=
  let digits := pretty seq in
  String.append (zeros (width - String.length digits)) digits.
Definition venue_id (seq : Z) : string := String.append "V" (padded 8 seq).
Definition trade_id (seq : Z) : string := String.append "T" (padded 6 seq).

(** [f"{a}_{b}"]. *)
Definition pair_key (a b : string) : string := String.append a (String.append "_" b).

Definition dt_minute (t : datetime) : Z := ((t mod HOUR_US) / 60000000)%Z.

Definition is_buy (s : Side) : bool := match s with BUY => true | SELL => false end.

(** ** Changes of a position the venue holds *)

Definition pos_set_targets (sl tp : option decimal) (confirmed : bool) (p : Position) : Position :=
  mkPosition (pos_instrument p) (pos_side p) (pos_lots p) (pos_entry_price p) (pos_opened_ns p)
    (pos_strategy p) sl tp confirmed (pos_client_order_id p) (pos_realised_pnl p) (pos_financing_paid p)
    (pos_commission_paid p) (pos_initial_risk p) (pos_max_favourable p) (pos_max_adverse p)
    (pos_partial_taken p) (pos_breakeven_moved p).

Definition pos_set_excursions (favourable adverse : decimal) (p : Position) : Position :=
  mkPosition (pos_instrument p) (pos_side p) (pos_lots p) (pos_entry_price p) (pos_opened_ns p)
    (pos_strategy p) (pos_stop_loss p) (pos_take_profit p) (pos_broker_stop_confirmed p)
    (pos_client_order_id p) (pos_realised_pnl p) (pos_financing_paid p)
    (pos_commission_paid p) (pos_initial_risk p) favourable adverse
    (pos_partial_taken p) (pos_breakeven_moved p).

Definition pos_add_financing (charge : decimal) (p : Position) : Position :=
  mkPosition (pos_instrument p) (pos_side p) (pos_lots p) (pos_entry_price p) (pos_opened_ns p)
    (pos_strategy p) (pos_stop_loss p) (pos_take_profit p) (pos_broker_stop_confirmed p)
    (pos_client_order_id p) (pos_realised_pnl p) (pos_financing_paid p + charge)
    (pos_commission_paid p) (pos_initial_risk p) (pos_max_favourable p) (pos_max_adverse p)
    (pos_partial_taken p) (pos_breakeven_moved p).

(** What [_apply_fill] adds to a position on the same side. *)
Definition pos_added (lots entry commission risk : decimal) (sl tp : option decimal) (p : Position) : Position :=
  mkPosition (pos_instrument p) (pos_side p) lots entry (pos_opened_ns p)
    (pos_strategy p) (match sl with Some _ => sl | None => pos_stop_loss p end)
    (match tp with Some _ => tp | None => pos_take_profit p end) (pos_broker_stop_confirmed p)
    (pos_client_order_id p) (pos_realised_pnl p) (pos_financing_paid p)
    (pos_commission_paid p + commission) (pos_initial_risk p + risk) (pos_max_favourable p) (pos_max_adverse p)
    (pos_partial_taken p) (pos_breakeven_moved p).

(** What [_realise] takes away from a position. *)
Definition pos_reduced (lots commission financing risk net_pnl : decimal) (p : Position) : Position :=
  mkPosition (pos_instrument p) (pos_side p) (pos_lots p - lots) (pos_entry_price p) (pos_opened_ns p)
    (pos_strategy p) (pos_stop_loss p) (pos_take_profit p) (pos_broker_stop_confirmed p)
    (pos_client_order_id p) (pos_realised_pnl p + net_pnl) (pos_financing_paid p - financing)
    (pos_commission_paid p - commission) (pos_initial_risk p - risk) (pos_max_favourable p) (pos_max_adverse p)
    (pos_partial_taken p) (pos_breakeven_moved p).

(** The position [_apply_fill] opens. *)
Definition pos_opened (f : Fill) (lots commission risk : decimal) (intent : OrderIntent) : Position :=
  mkPosition (fill_instrument f) (fill_side f) lots (fill_price f) (fill_ts_ns f) (oi_strategy intent)
    (oi_stop_loss intent) (oi_take_profit intent)
    (match oi_stop_loss intent with Some _ => true | None => false end)
    (Some (fill_client_order_id f)) ZERO ZERO commission risk ZERO ZERO false false.

(** ** The broker *)

Section Broker.
Context {G : Type} `{!Random G}.
Variable instruments : list (string * Instrument).
Variable profile : SimProfile.
Variable ccy : string.
Variable account_id : string.

Definition PM (A : Type) : Type := M (Paper G) A.

(** [PaperBroker.__init__], the start time given. *)
Definition open_paper (starting_balance : decimal) (start_ns : Z) (rng : G) : Paper G :=
  mkPaper starting_balance [] [(pair_key ccy ccy, 1)] [] [] [] [] 0 start_ns false None
    starting_balance 0 [] rng.

Definition draw {A} (f : G -> G * A) : PM A :=
  fun s => match f (pb_rng s) with (g, x) => (upd_rng (fun _ => g) s, Ok x) end.

(** [self._instruments[symbol]]. *)
Definition instrument_of (symbol : string) : res Instrument :=
  match dict_get symbol instruments with Some i => Ok i | None => Raise KeyError end.

(** [_record_txn]. *)
Definition record_txn (kind : TxnKind) (client_order_id : string) : PM unit :=
  modify (upd_txn_seq (fun n => n + 1)%Z) ;!
  let! s := gets (fun s => s) in
  modify (upd_transactions (fun ts => ts ++ [mkTxn (pb_txn_seq s) kind client_order_id (pb_now_ns s)])).

(** *** Frictions *)

Definition session_multiple (ts_ns : Z) : res decimal :=
  let* dt := from_timestamp_ns ts_ns 0 in
  let hm := (dt_hour dt * 60 + dt_minute dt)%Z in
  Ok (if ((20 * 60 + 45 <=? hm) && (hm <=? 21 * 60 + 15))%Z then sp_rollover_spread_multiple profile
      else if ((7 * 60 <=? hm) && (hm <? 16 * 60))%Z then sp_london_spread_multiple profile
      else if ((21 * 60 <=? hm) || (hm <? 6 * 60))%Z then sp_asia_spread_multiple profile
      else 1.4).

Definition spread_pips_at (inst : Instrument) (ts_ns : Z) (news_window : bool) : res decimal :=
  let base := match dict_get (inst_symbol inst) (sp_base_spread_pips profile) with
              | Some b => b | None => sp_default_spread_pips profile end in
  let* session := session_multiple ts_ns in
  let mult := session * sp_cost_multiplier profile in
  let mult := if news_window then mult * sp_news_spread_multiple profile else mult in
  Ok (base * mult).

(** [_spread_price]. *)
Definition spread_price (inst : Instrument) (ts_ns : Z) : PM decimal :=
  let! s := gets (fun s => s) in
  let! pips := lift (spread_pips_at inst ts_ns (pb_news_window s)) in
  ret (pips * inst_pip inst).

(** [rng.uniform(a, b)]. *)
Definition rng_uniform (a b : spec_float) : PM spec_float :=
  let! r := draw rng_random in ret (fadd a (fmul (fsub b a) r)).

(** [_latency_ms]. *)
Definition latency_ms : PM spec_float :=
  let! r := draw rng_random in
  let! base := if fltb r (sp_latency_tail_prob profile) then ret (sp_latency_ms_tail profile)
               else let! u := rng_uniform (float_of_dec 0.6) (float_of_dec 1.6) in
                    ret (fmul (sp_latency_ms_median profile) u) in
  ret (fmul base (sp_latency_multiplier profile)).

(** [_slippage_pips]: the side only decides how the caller signs it. *)
Definition slippage_pips (latency : option spec_float) : PM decimal :=
  let! g := draw (rng_gauss (float_of_dec (sp_slippage_pips_mean profile)) (float_of_dec (sp_slippage_pips_sigma profile))) in
  let magnitude := SFabs g in
  let magnitude :=
    match latency with
    | Some l => if fltb (float_of_Z 0) (sp_latency_ms_median profile)
                then fmul magnitude (libm_pow (fmax (float_of_Z 1) (fdiv l (sp_latency_ms_median profile)))
                                              (float_of_dec 0.5))
                else magnitude
    | None => magnitude
    end in
  let! r := draw rng_random in
  let adverse := fltb r (sp_adverse_slippage_prob profile) in
  lift (dec_round (if adverse then magnitude else SFopp magnitude) 5).

(** [_last_look_rejects]. *)
Definition last_look_rejects (favourable_move : bool) : PM bool :=
  let p := sp_last_look_reject_prob profile in
  let p := if favourable_move then fmin (float_of_dec 0.95) (fmul p (sp_last_look_favourable_bias profile)) else p in
  let! r := draw rng_random in ret (fltb r p).

(** *** Reads *)

(** [quote]. *)
Definition quote_of (symbol : string) : PM Quote :=
  let! s := gets (fun s => s) in
  match dict_get symbol (pb_quotes s) with Some q => ret q | None => throw BrokerError end.

Definition conversion_rate (s : Paper G) (quote_ccy account_ccy : string) : res decimal :=
  if bool_decide (quote_ccy = account_ccy) then Ok 1
  else
    match dict_get (pair_key quote_ccy account_ccy) (pb_conversions s) with
    | Some r => Ok r
    | None =>
        match dict_get (pair_key account_ccy quote_ccy) (pb_conversions s) with
        | Some r => if r =? 0 then Raise ConversionMissingError else ddiv 1 r
        | None => Raise ConversionMissingError
        end
    end.

(** [_conv]. *)
Definition conv (inst : Instrument) : PM decimal :=
  let! s := gets (fun s => s) in lift (conversion_rate s (inst_quote inst) ccy).

(** The loop of [account]: unrealised result and margin of the book; a position
    without a quote is passed over, one without a conversion is named. *)
Fixpoint mark_book (ps : list (string * Position)) (unreal margin : decimal) : PM (decimal * decimal) :=
  match ps with
  | [] => ret (unreal, margin)
  | (_, p) :: rest =>
      let! inst := lift (instrument_of (pos_instrument p)) in
      let! s := gets (fun s => s) in
      match dict_get (pos_instrument p) (pb_quotes s) with
      | None => mark_book rest unreal margin
      | Some q =>
          match conversion_rate s (inst_quote inst) ccy with
          | Raise ConversionMissingError =>
              modify (upd_unvalued (fun us => us ++ [pos_instrument p])) ;! mark_book rest unreal margin
          | Raise e => throw e
          | Ok c => mark_book rest (unreal + unrealised p q inst c)
                      (margin + units inst (pos_lots p) * mid q * inst_margin_rate inst * c)
          end
      end
  end.

Definition account : PM AccountState :=
  modify (upd_unvalued (fun _ => [])) ;!
  let! s := gets (fun s => s) in
  let! (unreal, margin) := mark_book (pb_positions s) ZERO ZERO in
  let! s := gets (fun s => s) in
  let equity := pb_balance s + unreal in
  modify (upd_peak_equity (fun p => dmax p equity)) ;!
  ret (mkAccountState account_id ccy (pb_balance s) equity margin (equity - margin) unreal
         (Z.of_nat (length (pb_positions s))) (pretty (pb_txn_seq s)) (pb_now_ns s) "demo" 0).

Definition positions : PM (list Position) := gets (fun s => map snd (pb_positions s)).

Definition open_orders : PM (list Order) :=
  gets (fun s => List.filter (fun o => negb (terminal (o_state o))) (map snd (pb_orders s))).

(** *** The book *)

Definition put_position (instrument : string) (p : Position) : PM unit :=
  modify (upd_positions (dict_set instrument p)).

(** [_realise]: close [lots] of a position and record the round trip. *)
Definition realise (p : Position) (inst : Instrument) (exit_price lots : decimal) (ts_ns : Z)
    (reason : string) (extra_commission : decimal) : PM unit :=
  let! c := conv inst in
  let delta := (exit_price - pos_entry_price p) * sign (pos_side p) in
  let price_pnl := delta * units inst lots * c in
  modify (upd_balance (fun b => b + price_pnl)) ;!
  let! fraction := if pos_lots p >? 0 then lift (ddiv lots (pos_lots p)) else ret 1%dec in
  let risk_share := pos_initial_risk p * fraction in
  let commission_share := pos_commission_paid p * fraction + extra_commission in
  let financing_share := pos_financing_paid p * fraction in
  let net_pnl := price_pnl - commission_share + financing_share in
  modify (upd_trade_seq (fun n => n + 1)%Z) ;!
  let! s := gets (fun s => s) in
  let! pips := lift (ddiv delta (inst_pip inst)) in
  let! r := if risk_share >? 0 then lift (ddiv net_pnl risk_share) else ret ZERO in
  modify (upd_closed (fun ts => ts ++
    [mkClosedTrade (trade_id (pb_trade_seq s)) (pos_strategy p) (pos_instrument p) (pos_side p) lots
       (pos_entry_price p) exit_price (pos_opened_ns p) ts_ns net_pnl pips commission_share
       financing_share risk_share r reason (pos_max_favourable p) (pos_max_adverse p)])) ;!
  let p' := pos_reduced lots (commission_share - extra_commission) financing_share risk_share net_pnl p in
  modify (upd_positions (fun ps => if pos_lots p' <=? 0 then dict_del (pos_instrument p) ps
                                   else dict_set (pos_instrument p) p' ps)) ;!
  let! s := gets (fun s => s) in
  when (sp_negative_balance_protection profile && (pb_balance s <? ZERO))
    (record_txn (NEGATIVE_BALANCE_RESET (pb_balance s)) "" ;! modify (upd_balance (fun _ => ZERO))) ;!
  record_txn (POSITION_CLOSE (pos_instrument p) lots net_pnl price_pnl reason)
    (match pos_client_order_id p with Some id => id | None => "" end).

(** [_apply_fill]. *)
Definition apply_fill (f : Fill) (inst : Instrument) (intent : OrderIntent) : PM unit :=
  let! filled_fraction := if oi_lots intent >? 0 then lift (ddiv (fill_lots f) (oi_lots intent)) else ret 1%dec in
  let risk_for_fill := oi_risk_amount intent * filled_fraction in
  let! s := gets (fun s => s) in
  match dict_get (fill_instrument f) (pb_positions s) with
  | None => put_position (fill_instrument f) (pos_opened f (fill_lots f) (fill_commission f) risk_for_fill intent)
  | Some p =>
      if bool_decide (pos_side p = fill_side f) then
        let total := pos_lots p + fill_lots f in
        let! entry := lift (ddiv ((pos_entry_price p * pos_lots p) + (fill_price f * fill_lots f)) total) in
        put_position (fill_instrument f)
          (pos_added total entry (fill_commission f) risk_for_fill (oi_stop_loss intent) (oi_take_profit intent) p)
      else
        let closing := dmin (pos_lots p) (fill_lots f) in
        let remaining := fill_lots f - closing in
        let! closing_share := if fill_lots f >? 0 then lift (ddiv (fill_commission f * closing) (fill_lots f))
                              else ret ZERO in
        let carried := fill_commission f - closing_share in
        realise p inst (fill_price f) closing (fill_ts_ns f) "opposite_fill" closing_share ;!
        if remaining >? 0 then
          let! opened_fraction := if oi_lots intent >? 0 then lift (ddiv remaining (oi_lots intent)) else ret 1%dec in
          put_position (fill_instrument f)
            (pos_opened f remaining carried (oi_risk_amount intent * opened_fraction) intent)
        else ret tt
  end.

(** *** Market events *)

(** The stop and the target of a position against the price it can be closed at. *)
Definition hit_stop (p : Position) (exit_price : decimal) : bool :=
  match pos_stop_loss p with
  | Some sl => if is_buy (pos_side p) then exit_price <=? sl else exit_price >=? sl
  | None => false
  end.
Definition hit_target (p : Position) (exit_price : decimal) : bool :=
  match pos_take_profit p with
  | Some tp => if is_buy (pos_side p) then exit_price >=? tp else exit_price <=? tp
  | None => false
  end.

(** Excursions in multiples of the initial risk. *)
Definition track_excursions (p : Position) (q : Quote) (inst : Instrument) : PM Position :=
  if pos_initial_risk p >? 0 then
    let! c := conv inst in
    let! r := lift (ddiv (unrealised p q inst c) (pos_initial_risk p)) in
    let p' := pos_set_excursions (dmax (pos_max_favourable p) r) (dmin (pos_max_adverse p) r) p in
    put_position (q_instrument q) p' ;! ret p'
  else ret p.

(** The price a touched stop is filled at before it slips. *)
Definition stop_fill_price (p : Position) (exit_price : decimal) (stop : decimal) : decimal :=
  if is_buy (pos_side p) then dmin exit_price stop else dmax exit_price stop.

Definition check_exits (q : Quote) : PM unit :=
  let! s := gets (fun s => s) in
  match dict_get (q_instrument q) (pb_positions s) with
  | None => ret tt
  | Some p =>
      let! inst := lift (instrument_of (q_instrument q)) in
      let exit_price := price_for q (opposite (pos_side p)) in
      let! p := track_excursions p q inst in
      if hit_stop p exit_price then
        let stop := match pos_stop_loss p with Some sl => sl | None => ZERO end in
        let! slip := slippage_pips None in
        let px := stop_fill_price p exit_price stop + slip * inst_pip inst * sign (opposite (pos_side p)) in
        let! px := lift (round_price inst px) in
        realise p inst px (pos_lots p) (q_ts_ns q) "stop_loss" ZERO
      else if hit_target p exit_price then
        let target := match pos_take_profit p with Some tp => tp | None => ZERO end in
        let! px := lift (round_price inst target) in
        realise p inst px (pos_lots p) (q_ts_ns q) "take_profit" ZERO
      else ret tt
  end.

(** The largest loser among the positions that have a quote. *)
Fixpoint worst_of (ps : list (string * Position)) (worst : option (Position * decimal))
    : PM (option (Position * decimal)) :=
  match ps with
  | [] => ret worst
  | (_, p) :: rest =>
      let! s := gets (fun s => s) in
      match dict_get (pos_instrument p) (pb_quotes s) with
      | None => worst_of rest worst
      | Some q =>
          let! inst := lift (instrument_of (pos_instrument p)) in
          let! c := conv inst in
          let pnl := unrealised p q inst c in
          worst_of rest (match worst with
                         | Some (_, w) => if pnl <? w then Some (p, pnl) else worst
                         | None => Some (p, pnl)
                         end)
      end
  end.

(** [margin_level_pct is None or margin_level_pct > bound]. *)
Definition margin_above (acct : AccountState) (bound : decimal) : res bool :=
  let* level := margin_level_pct acct in
  Ok (match level with None => true | Some l => l >? bound end).

(** The loop of [_check_margin]: every turn closes a position, so as many turns
    as there are positions are enough. *)
Fixpoint margin_loop (fuel : nat) : PM unit :=
  let! s := gets (fun s => s) in
  match fuel, pb_positions s with
  | _, [] => ret tt
  | O, _ :: _ => throw OtherError
  | S n, ps =>
      let! worst := worst_of ps None in
      match worst with
      | None => ret tt
      | Some (p, _) =>
          let! s := gets (fun s => s) in
          match dict_get (pos_instrument p) (pb_quotes s) with
          | None => throw KeyError
          | Some q =>
              let! inst := lift (instrument_of (pos_instrument p)) in
              realise p inst (price_for q (opposite (pos_side p))) (pos_lots p) (pb_now_ns s)
                "margin_stop_out" ZERO ;!
              let! acct := account in
              let! above := lift (margin_above acct (sp_margin_call_level_pct profile)) in
              if above : bool then ret tt else margin_loop n
          end
      end
  end.

Definition check_margin : PM unit :=
  let! acct := account in
  let! above := lift (margin_above acct (sp_stop_out_margin_level_pct profile)) in
  if above : bool then ret tt
  else let! s := gets (fun s => s) in margin_loop (length (pb_positions s)).

(** [date.fromordinal] of the days after [last] up to [day]. *)
Definition pending_days (last day : Z) : list Z :=
  map (fun k => last + 1 + Z.of_nat k)%Z (seq 0 (Z.to_nat (day - last))).

(** The day the venue's value date is on: it rolls at 17:00 New York. *)
Definition value_day (now_ns : Z) : res Z :=
  let* dt := from_timestamp_ns now_ns 0 in
  let* ny_offset := utc_offset_hours "America/New_York" dt in
  let* shifted := add_hours dt (- (17 - ny_offset)) in
  Ok (dt_date shifted).

(** The swap multiplier of a value date; none at the weekend. *)
Definition swap_multiplier (ordinal : Z) : option decimal :=
  if (5 <=? weekday ordinal)%Z then None
  else Some (if (weekday ordinal =? sp_triple_swap_weekday profile)%Z then 3%dec else 1%dec).

Definition charge_position (multiplier : decimal) (kp : string * Position) : PM unit :=
  let p := kp.2 in
  let! inst := lift (instrument_of (pos_instrument p)) in
  let table := if is_buy (pos_side p) then sp_swap_long_pips_per_day profile
               else sp_swap_short_pips_per_day profile in
  let pips := match dict_get (pos_instrument p) table with Some x => x | None => mkDec (-15) (-2) end in
  let! c := conv inst in
  let charge := pips * inst_pip inst * units inst (pos_lots p) * c * multiplier in
  modify (upd_balance (fun b => b + charge)) ;!
  put_position kp.1 (pos_add_financing charge p).

(** One value date of the rollover. *)
Definition roll_day (ordinal : Z) : PM unit :=
  match swap_multiplier ordinal with
  | None => ret tt
  | Some m =>
      let! s := gets (fun s => s) in
      each (charge_position m) (pb_positions s) ;!
      record_txn (ROLLOVER m ordinal) ""
  end.

Definition roll_days (days : list Z) : PM unit := each roll_day days.

(** The rollover of the book up to a value date. *)
Definition roll_to (day : Z) : PM unit :=
  let! s := gets (fun s => s) in
  match pb_last_rollover_day s with
  | None => modify (upd_last_rollover_day (fun _ => Some day))
  | Some last =>
      if (day <=? last)%Z then ret tt
      else
        modify (upd_last_rollover_day (fun _ => Some day)) ;!
        if bool_decide (pb_positions s = []) then ret tt else roll_days (pending_days last day)
  end.

Definition apply_rollover : PM unit :=
  let! s := gets (fun s => s) in
  let! day := lift (value_day (pb_now_ns s)) in
  roll_to day.

Definition set_time (ns : Z) : PM unit :=
  let! s := gets (fun s => s) in
  if (ns <? pb_now_ns s)%Z then throw ValueError else modify (upd_now_ns (fun _ => ns)).

Definition set_news_window (active : bool) : PM unit := modify (upd_news_window (fun _ => active)).

Definition set_conversion (quote_ccy : string) (rate : decimal) : PM unit :=
  modify (upd_conversions (dict_set (pair_key quote_ccy ccy) rate)).

Definition on_quote (q : Quote) : PM unit :=
  modify (upd_quotes (dict_set (q_instrument q) q)) ;!
  let! s := gets (fun s => s) in
  when (pb_now_ns s <? q_ts_ns q)%Z (modify (upd_now_ns (fun _ => q_ts_ns q))) ;!
  match dict_get (q_instrument q) instruments with
  | Some inst => when (bool_decide (inst_quote inst = ccy))
                   (modify (upd_conversions (dict_set (pair_key (inst_quote inst) ccy) 1)))
  | None => ret tt
  end ;!
  apply_rollover ;!
  check_exits q ;!
  check_margin.

(** The quote built around a price: [Quote.__post_init__] refuses a crossed one. *)
Definition spread_quote (instrument : string) (inst : Instrument) (price : decimal) (ts_ns : Z) : PM Quote :=
  let! sp := spread_price inst ts_ns in
  let! half := lift (ddiv sp 2) in
  let! bid := lift (round_price inst (price - half)) in
  let! ask := lift (round_price inst (price + half)) in
  let q := mkQuote instrument bid ask ts_ns ts_ns "sim" in
  lift (Quote_post_init q) ;! ret q.

Definition mark_mid (instrument : string) (m : decimal) (ts_ns : Z) : PM Quote :=
  let! inst := lift (instrument_of instrument) in
  let! q := spread_quote instrument inst m ts_ns in
  on_quote q ;! ret q.

(** The path a bar is replayed along. *)
Definition bar_path (low_first : bool) (o h l c : decimal) (start_ns end_ns : Z) : list (decimal * Z) :=
  let third := (start_ns + (end_ns - start_ns) / 3)%Z in
  let two_thirds := (start_ns + 2 * (end_ns - start_ns) / 3)%Z in
  [(o, start_ns); (if low_first then l else h, third); (if low_first then h else l, two_thirds); (c, end_ns)].

Definition on_bar_prices (instrument : string) (o h l c : decimal) (start_ns end_ns : Z) : PM unit :=
  let! inst := lift (instrument_of instrument) in
  let! s := gets (fun s => s) in
  let low_first := match dict_get instrument (pb_positions s) with
                   | None => true | Some p => is_buy (pos_side p) end in
  each (fun pt => let! q := spread_quote instrument inst pt.1 pt.2 in on_quote q)
    (bar_path low_first o h l c start_ns end_ns).

(** *** Orders *)

Definition upd_order (id : string) (f : Order -> Order) : PM unit :=
  modify (upd_orders (fun os => match dict_get id os with Some o => dict_set id (f o) os | None => os end)).

(** The order a fill leaves behind. *)
Definition order_filled (f : Fill) (st : OrderState) (o : Order) : Order :=
  mkOrder (o_intent o) st (o_stop_confirmed o) (Some (fill_venue_order_id f)) (o_sent_ns o)
    (Some (fill_ts_ns f)) (o_fills o ++ [f]) (o_reject_reason o) (o_attempts o) (o_last_error o).
Definition order_in (st : OrderState) (o : Order) : Order :=
  mkOrder (o_intent o) st (o_stop_confirmed o) (o_venue_order_id o) (o_sent_ns o)
    (o_acked_ns o) (o_fills o) (o_reject_reason o) (o_attempts o) (o_last_error o).
Definition order_rejected (reason : string) (o : Order) : Order :=
  mkOrder (o_intent o) REJECTED (o_stop_confirmed o) (o_venue_order_id o) (o_sent_ns o)
    (o_acked_ns o) (o_fills o) (Some reason) (o_attempts o) (o_last_error o).

(** [_complete]: the venue executes the order. *)
Definition complete (intent : OrderIntent) (inst : Instrument) (q : Quote) (lots : decimal)
    (hidden : bool) (latency : option spec_float) : PM unit :=
  let id := oi_client_order_id intent in
  let! slip := slippage_pips latency in
  let! price := lift (round_price inst (price_for q (oi_side intent) + slip * inst_pip inst * sign (oi_side intent))) in
  let! (fill_lots, st) :=
    if lots >? sp_partial_fill_threshold_lots profile
    then let! fl := lift (round_lots_down inst (lots * sp_partial_fill_ratio profile)) in
         ret (fl, if fl <? lots then PARTIAL else FILLED)
    else ret (lots, FILLED) in
  let commission := sp_commission_per_lot_round_turn profile * fill_lots * sp_cost_multiplier profile in
  modify (upd_txn_seq (fun n => n + 1)%Z) ;!
  let! s := gets (fun s => s) in
  let f := mkFill id (venue_id (pb_txn_seq s)) (oi_instrument intent) (oi_side intent) fill_lots price
             (pb_now_ns s) (pb_now_ns s) commission ZERO slip in
  upd_order id (order_filled f (if hidden then UNKNOWN else st)) ;!
  modify (upd_balance (fun b => b - commission)) ;!
  apply_fill f inst intent ;!
  record_txn (ORDER_FILL price fill_lots commission slip hidden) id.

Definition rejection (reason : string) (favourable : option bool) : SubmitResult :=
  mkSubmitResult REJECTED None [] (Some reason) favourable None true None.

Definition answer (s : Paper G) (st : OrderState) (o : Order) (reason : option string) : SubmitResult :=
  mkSubmitResult st (o_venue_order_id o) (o_fills o) reason None (Some (pb_now_ns s)) true None.

(** The margin an order needs, where it can be valued. *)
Definition margin_required (inst : Instrument) (q : Quote) (lots : decimal) : PM (option decimal) :=
  let! c := attempt (conv inst) in
  match c with
  | Ok c => ret (Some (units inst lots * mid q * inst_margin_rate inst * c))
  | Raise ConversionMissingError => ret None
  | Raise e => throw e
  end.

(** The order as it enters the table. *)
Definition sent_order (intent : OrderIntent) (now_ns : Z) : Order :=
  mkOrder intent SENT true None (Some now_ns) None [] None 1 None.

(** What follows the acceptance of an order: latency, last look, execution. *)
Definition execute (intent : OrderIntent) (inst : Instrument) (q : Quote) (lots : decimal) (timeout_ms : Z)
    : PM SubmitResult :=
  let id := oi_client_order_id intent in
  let! s := gets (fun s => s) in
  modify (upd_orders (dict_set id (sent_order intent (pb_now_ns s)))) ;!
  let! latency := latency_ms in
  if fltb (float_of_Z timeout_ms) latency then
    upd_order id (order_in UNKNOWN) ;!
    record_txn (ORDER_TIMEOUT latency) id ;!
    complete intent inst q lots true (Some latency) ;!
    ret (mkSubmitResult UNKNOWN None [] (Some "TIMEOUT"%string) None None true None)
  else
    let! r := draw rng_random in
    let favourable := fltb r (float_of_dec 0.5) in
    let! rejected := last_look_rejects favourable in
    if rejected : bool then
      upd_order id (order_rejected "LAST_LOOK_REJECT") ;!
      record_txn (ORDER_REJECT_LAST_LOOK favourable) id ;!
      ret (rejection "LAST_LOOK_REJECT" (Some favourable))
    else
      complete intent inst q lots false (Some latency) ;!
      let! s := gets (fun s => s) in
      match dict_get id (pb_orders s) with
      | Some o => ret (answer s (o_state o) o None)
      | None => throw KeyError
      end.

Definition submit (intent : OrderIntent) (timeout_ms : Z) : PM SubmitResult :=
  let id := oi_client_order_id intent in
  let! s := gets (fun s => s) in
  match dict_get id (pb_orders s) with
  | Some o => ret (answer s (o_state o) o (Some "DUPLICATE_CLIENT_ORDER_ID"%string))
  | None =>
      match dict_get (oi_instrument intent) instruments with
      | None => ret (rejection "UNKNOWN_INSTRUMENT" None)
      | Some inst =>
          match dict_get (oi_instrument intent) (pb_quotes s) with
          | None => ret (rejection "NO_PRICE" None)
          | Some q =>
              let! lots := lift (round_lots_down inst (oi_lots intent)) in
              if lots <? inst_min_lot inst then ret (rejection "BELOW_MIN_LOT" None)
              else if lots >? inst_max_lot inst then ret (rejection "ABOVE_MAX_LOT" None)
              else
                let opening := match dict_get (oi_instrument intent) (pb_positions s) with
                               | None => true
                               | Some p => bool_decide (pos_side p = oi_side intent)
                               end in
                let! required := if opening then margin_required inst q lots else ret None in
                let! refused :=
                  match required with
                  | None => ret false
                  | Some required =>
                      let! acct := account in
                      let available := acc_margin_available acct in
                      if required >? available
                      then record_txn (ORDER_REJECT_MARGIN required available) id ;! ret true
                      else ret false
                  end in
                if refused : bool then ret (rejection "INSUFFICIENT_MARGIN" None)
                else execute intent inst q lots timeout_ms
          end
      end
  end.

Definition query_order (client_order_id : string) : PM (option SubmitResult) :=
  let! s := gets (fun s => s) in
  match dict_get client_order_id (pb_orders s) with
  | None => ret None
  | Some o =>
      let filled := negb (bool_decide (o_fills o = [])) in
      let st := if filled then FILLED else o_state o in
      when (bool_decide (o_state o = UNKNOWN) && filled) (upd_order client_order_id (order_in FILLED)) ;!
      ret (Some (answer s st o (o_reject_reason o)))
  end.

Definition cancel (client_order_id : string) : PM bool :=
  let! s := gets (fun s => s) in
  match dict_get client_order_id (pb_orders s) with
  | None => ret false
  | Some o =>
      if terminal (o_state o) then ret false
      else
        upd_order client_order_id (order_in CANCELLED) ;!
        record_txn ORDER_CANCEL client_order_id ;! ret true
  end.

Definition close_position (instrument : string) (lots : option decimal) (reason : string) : PM SubmitResult :=
  let! s := gets (fun s => s) in
  match dict_get instrument (pb_positions s) with
  | None => ret (rejection "NO_POSITION" None)
  | Some p =>
      match dict_get instrument (pb_quotes s) with
      | None => ret (rejection "NO_PRICE" None)
      | Some q =>
          let! inst := lift (instrument_of instrument) in
          let! close_lots := match lots with
                             | Some l => lift (round_lots_down inst (dmin l (pos_lots p)))
                             | None => ret (pos_lots p)
                             end in
          if close_lots <=? 0 then ret (rejection "BELOW_MIN_LOT" None)
          else
            let px := price_for q (opposite (pos_side p)) in
            let! slip := slippage_pips None in
            let! px := lift (round_price inst (px + slip * inst_pip inst * sign (opposite (pos_side p)))) in
            realise p inst px close_lots (pb_now_ns s) reason ZERO ;!
            modify (upd_txn_seq (fun n => n + 1)%Z) ;!
            let! s := gets (fun s => s) in
            ret (mkSubmitResult FILLED (Some (venue_id (pb_txn_seq s))) [] None None (Some (pb_now_ns s)) true None)
      end
  end.

(** A stop that is not on the safe side of the one in force. *)
Definition widens (side : Side) (old new : decimal) : bool :=
  if is_buy side then new <? old else new >? old.

Definition modify_position (instrument : string) (stop_loss take_profit : option decimal) : PM bool :=
  let! s := gets (fun s => s) in
  match dict_get instrument (pb_positions s) with
  | None => ret false
  | Some p =>
      let! inst := lift (instrument_of instrument) in
      let! p := match stop_loss with
                | None => ret p
                | Some stop =>
                    let! new_stop := lift (round_price inst stop) in
                    match pos_stop_loss p with
                    | Some old => if widens (pos_side p) old new_stop then throw PermanentError else ret tt
                    | None => ret tt
                    end ;!
                    let p' := pos_set_targets (Some new_stop) (pos_take_profit p) true p in
                    put_position instrument p' ;! ret p'
                end in
      match take_profit with
      | None => ret tt
      | Some target =>
          let! tp := lift (round_price inst target) in
          put_position instrument (pos_set_targets (pos_stop_loss p) (Some tp) (pos_broker_stop_confirmed p) p)
      end ;!
      record_txn (POSITION_MODIFY instrument stop_loss take_profit)
        (match pos_client_order_id p with Some id => id | None => "" end) ;!
      ret true
  end.

(** [transactions_since], on the cursor [int] makes of its argument. *)
Definition transactions_since (last_id : Cursor) (s : Paper G) : list Txn :=
  let start := match last_id with At n => n | NoCursor | Junk => 0%Z end in
  List.filter (fun t => (start <? tx_id t)%Z) (pb_transactions s).
End Broker.

(** ** The simulator behind the venue interface *)

(** [int(text)]: an optional sign and decimal digits (ids the venue handed out
    are written with nothing else); anything else raises. *)
Fixpoint digits_value (text : string) (acc : Z) : option Z :=
  match text with
  | EmptyString => Some acc
  | String c rest =>
      let d := (Z.of_nat (Ascii.nat_of_ascii c) - 48)%Z in
      if ((0 <=? d) && (d <=? 9))%Z then digits_value rest (10 * acc + d)%Z else None
  end.

Definition cursor_of (text : string) : Cursor :=
  match text with
  | EmptyString => NoCursor
  | String "-"%char (String _ _ as digits) => match digits_value digits 0 with Some n => At (- n) | None => Junk end
  | String "+"%char (String _ _ as digits) => match digits_value digits 0 with Some n => At n | None => Junk end
  | _ => match digits_value text 0 with Some n => At n | None => Junk end
  end.

(** [PaperBroker] as a [Broker]; the clock of the process is its own component of
    the world.  A transaction is identified by its id. *)
Definition on_book {G C A} (c : M (Paper G) A) : venue_op (Paper G * C) A :=
  fun w => match c w.1 with (s, r) => ((s, w.2), r) end.

Definition paper_venue {G C} `{!Random G} (instruments : list (string * Instrument)) (profile : SimProfile)
    (ccy account_id : string) (timeout_ms : Z) (read_clock : C -> C * Z) : Venue (Paper G * C) := {|
  supports_client_order_id := true;
  v_instrument symbol w := (w, instrument_of instruments symbol);
  v_quote symbol := on_book (quote_of symbol);
  v_account := on_book (account instruments ccy account_id);
  v_positions := on_book positions;
  v_submit intent := on_book (submit instruments profile ccy account_id intent timeout_ms);
  v_query_order id := on_book (query_order id);
  v_modify_position symbol stop := on_book (modify_position instruments symbol (Some stop) None);
  v_transactions_since last_id w :=
    (w, Ok (map (fun t => pretty (tx_id t)) (transactions_since (cursor_of last_id) w.1)));
  v_wall_ns w := match read_clock w.2 with (c, t) => ((w.1, c), t) end
|}.
