(* ===== verification/PaperInv.v ===== *)
(** What the simulated venue of [Paper] guarantees: its book, order table and
    log are well formed after every operation, whether it returns or raises; an
    order id is executed at most once; stops only tighten; the margin close-out
    terminates; the log replays from any cursor; the carry charged does not
    depend on when it is charged. *)

From Stdlib Require Import ZArith QArith Lia Lqa SpecFloat Sorting.
From stdpp Require Import base strings list.
From S2P Require Import Prelude PyDecimal DecimalTheory Money Types Calendar TzRules PyFloat StateExn PyDict Venue.
From S2P Require Import Paper.

Local Open Scope dec_scope.
Local Open Scope py_scope.

Section Invariant.
Context {G : Type} `{!Random G}.
Variable instruments : list (string * Instrument).
Variable profile : SimProfile.
Variable ccy : string.
Variable account_id : string.
Implicit Types s : Paper G.

(** ** The book, the log and the orders *)

(** A held position is filed under its own instrument, an instrument the venue
    offers, and holds something. *)
Definition pos_ok (k : string) (p : Position) : Prop :=
  pos_instrument p = k /\ is_Some (dict_get k instruments) /\ (0 < dval (pos_lots p))%Q.

Definition book_ok s : Prop :=
  NoDup (map fst (pb_positions s)) /\ forall k p, (k, p) ∈ pb_positions s -> pos_ok k p.

(** Transaction ids increase strictly, up to the counter. *)
Definition log_ok s : Prop :=
  StronglySorted Z.lt (map tx_id (pb_transactions s)) /\
  Forall (fun t => 0 < tx_id t <= pb_txn_seq s)%Z (pb_transactions s) /\ (0 <= pb_txn_seq s)%Z.

Definition is_fill_of (id : string) (t : Txn) : bool :=
  match tx_kind t with ORDER_FILL _ _ _ _ _ => bool_decide (tx_client_order_id t = id) | _ => false end.

(** How often the log says the order was executed. *)
Definition executions (id : string) (ts : list Txn) : nat := length (List.filter (is_fill_of id) ts).

#[local] Arguments executions : simpl never.
#[local] Arguments is_fill_of : simpl never.

Definition fills_of (id : string) (os : list (string * Order)) : list Fill :=
  match dict_get id os with Some o => o_fills o | None => [] end.

Definition order_ok (k : string) (o : Order) : Prop :=
  oi_client_order_id (o_intent o) = k /\ (length (o_fills o) <= 1)%nat /\
  (o_state o = REJECTED -> o_fills o = []) /\
  Forall (fun f => fill_client_order_id f = k) (o_fills o).

Definition orders_ok s : Prop :=
  NoDup (map fst (pb_orders s)) /\ forall k o, (k, o) ∈ pb_orders s -> order_ok k o.

(** No execution is logged without the fill it belongs to. *)
Definition executed_once s : Prop :=
  forall id, (executions id (pb_transactions s) <= length (fills_of id (pb_orders s)))%nat.

Record Paper_wf s : Prop := {
  wf_book : book_ok s;
  wf_log : log_ok s;
  wf_orders : orders_ok s;
  wf_once : executed_once s
}.

(** ** What leaves the orders alone *)

(** From [s0] to [s] no order changed and none was executed; the log grew. *)
Record evolves s0 s : Prop := {
  ev_book : book_ok s;
  ev_log : log_ok s;
  ev_orders : pb_orders s = pb_orders s0;
  ev_exec : forall id, executions id (pb_transactions s) = executions id (pb_transactions s0);
  ev_grows : pb_transactions s0 `prefix_of` pb_transactions s;
  ev_seq : (pb_txn_seq s0 <= pb_txn_seq s)%Z;
  ev_now : (pb_now_ns s0 <= pb_now_ns s)%Z
}.

Lemma evolves_refl s : book_ok s -> log_ok s -> evolves s s.
Proof. intros Hb Hl. constructor; try assumption; reflexivity. Qed.

Lemma evolves_trans s0 s1 s2 : evolves s0 s1 -> evolves s1 s2 -> evolves s0 s2.
Proof.
  intros [] []. constructor; try assumption; try lia; [congruence| |].
  { intros id. now rewrite ev_exec1. }
  etransitivity; eassumption.
Qed.

(** A computation that evolves from any state reached so far. *)
Definition Evolves {A} (c : PM A) : Prop :=
  forall s0 s, evolves s0 s -> wp c (fun _ s' => evolves s0 s') (fun _ s' => evolves s0 s') s.

Lemma evolves_wf s0 s : Paper_wf s0 -> evolves s0 s -> Paper_wf s.
Proof.
  intros [] []. constructor; try assumption.
  - unfold orders_ok in *. now rewrite ev_orders0.
  - intros id. rewrite ev_exec0, ev_orders0. apply wf_once0.
Qed.

(** An update of the state outside the book, the orders and the log. *)
Lemma evolves_frame s0 s s' :
  pb_positions s' = pb_positions s -> pb_orders s' = pb_orders s -> pb_transactions s' = pb_transactions s ->
  pb_txn_seq s' = pb_txn_seq s -> (pb_now_ns s <= pb_now_ns s')%Z -> evolves s0 s -> evolves s0 s'.
Proof.
  intros E1 E2 E3 E4 E5 []. constructor; unfold book_ok, log_ok in *; rewrite ?E1, ?E2, ?E3, ?E4; auto; lia.
Qed.

Lemma evolves_positions s0 s f :
  evolves s0 s -> book_ok (upd_positions f s) -> evolves s0 (upd_positions f s).
Proof. intros [] Hb. constructor; assumption. Qed.

Lemma book_set k p s : pos_ok k p -> book_ok s -> book_ok (upd_positions (dict_set k p) s).
Proof.
  intros Hp [Hnd Hb]. split; cbn; [now apply dict_set_NoDup|].
  intros k' p' [E|Hin]%dict_set_elem; [|auto]. now injection E as -> ->.
Qed.

Lemma book_del k s : book_ok s -> book_ok (upd_positions (dict_del k) s).
Proof.
  intros [Hnd Hb]. split; cbn; [now apply dict_del_NoDup|]. intros k' p' Hin%dict_del_elem. auto.
Qed.

Lemma book_get k p s : book_ok s -> dict_get k (pb_positions s) = Some p -> pos_ok k p.
Proof. intros [_ Hb] H%dict_get_elem. auto. Qed.

Lemma log_bump s : log_ok s -> log_ok (upd_txn_seq (fun n => n + 1)%Z s).
Proof.
  intros (Hs & Hb & H0). split; [exact Hs|]. split; [|cbn; lia]. cbn.
  eapply Forall_impl; [exact Hb|]. cbn. lia.
Qed.

Lemma StronglySorted_snoc xs x :
  StronglySorted Z.lt xs -> Forall (fun y => y < x)%Z xs -> StronglySorted Z.lt (xs ++ [x]).
Proof.
  induction xs as [|y xs IH]; intros Hs Hx; cbn [app]; [constructor; constructor|].
  apply StronglySorted_inv in Hs as [Hs Hy]. apply List.Forall_cons_iff in Hx as [Hyx Hx].
  constructor; [auto|]. apply List.Forall_app. split; [exact Hy|constructor; auto].
Qed.

Lemma log_append s t :
  log_ok s -> tx_id t = (pb_txn_seq s + 1)%Z ->
  log_ok (upd_transactions (fun ts => ts ++ [t]) (upd_txn_seq (fun n => n + 1)%Z s)).
Proof.
  intros (Hs & Hb & H0) Ht. split; [|split; cbn; [|lia]].
  - cbn. rewrite map_app. cbn. apply StronglySorted_snoc; [exact Hs|].
    apply List.Forall_map. eapply List.Forall_impl; [|exact Hb]. cbn. lia.
  - apply List.Forall_app. split; [|constructor; [lia|constructor]].
    eapply List.Forall_impl; [|exact Hb]. cbn. lia.
Qed.

Lemma executions_app id ts t :
  executions id (ts ++ [t]) = (executions id ts + if is_fill_of id t then 1 else 0)%nat.
Proof.
  unfold executions. rewrite List.filter_app, length_app. cbn. now destruct (is_fill_of id t).
Qed.

Lemma Evolves_record_txn kind id :
  (forall k, is_fill_of k (mkTxn 0 kind id 0) = false) -> Evolves (record_txn kind id).
Proof.
  intros Hk s0 s Hs. unfold record_txn. wps. destruct Hs. constructor; cbn; try assumption; try lia.
  - now apply log_append.
  - intros k. rewrite executions_app. assert (E : is_fill_of k (mkTxn (pb_txn_seq s + 1) kind id (pb_now_ns s)) = false) by exact (Hk k).
    rewrite E, ev_exec0. lia.
  - etransitivity; [exact ev_grows0|]. now exists [mkTxn (pb_txn_seq s + 1) kind id (pb_now_ns s)].
Qed.

(** A reduced position still holds something, or it is removed. *)
Lemma evolves_reduce p p' s0 s :
  pos_ok (pos_instrument p) p -> pos_instrument p' = pos_instrument p -> evolves s0 s ->
  evolves s0 (upd_positions (fun ps => if pos_lots p' <=? 0 then dict_del (pos_instrument p) ps
                                       else dict_set (pos_instrument p) p' ps) s).
Proof.
  intros (_ & Hk & _) E Hs. apply evolves_positions; [exact Hs|]. destruct (dleb _ 0) eqn:El.
  - now apply book_del, (ev_book _ _ Hs).
  - apply book_set; [|now apply (ev_book _ _ Hs)]. apply dleb_false in El. now repeat split.
Qed.

Lemma evolves_put k p s0 s : pos_ok k p -> evolves s0 s -> evolves s0 (upd_positions (dict_set k p) s).
Proof. intros Hp Hs. apply evolves_positions; [exact Hs|]. apply book_set; [exact Hp|apply (ev_book _ _ Hs)]. Qed.

Lemma evolves_bump s0 s : evolves s0 s -> evolves s0 (upd_txn_seq (fun n => n + 1)%Z s).
Proof. intros []. constructor; try assumption; [now apply log_bump|cbn; lia]. Qed.

(** Discharge an update outside the book, the orders and the log. *)
Ltac framed a t := apply (evolves_frame a t); [reflexivity..|cbn; lia|].
Ltac solve_evolves :=
  lazymatch goal with
  | |- evolves ?a (upd_balance _ ?t) => framed a t; solve_evolves
  | |- evolves ?a (upd_quotes _ ?t) => framed a t; solve_evolves
  | |- evolves ?a (upd_conversions _ ?t) => framed a t; solve_evolves
  | |- evolves ?a (upd_closed _ ?t) => framed a t; solve_evolves
  | |- evolves ?a (upd_news_window _ ?t) => framed a t; solve_evolves
  | |- evolves ?a (upd_last_rollover_day _ ?t) => framed a t; solve_evolves
  | |- evolves ?a (upd_peak_equity _ ?t) => framed a t; solve_evolves
  | |- evolves ?a (upd_trade_seq _ ?t) => framed a t; solve_evolves
  | |- evolves ?a (upd_unvalued _ ?t) => framed a t; solve_evolves
  | |- evolves ?a (upd_rng _ ?t) => framed a t; solve_evolves
  | |- evolves ?a (upd_now_ns _ ?t) => apply (evolves_frame a t); [reflexivity..|cbn in *; lia|solve_evolves]
  | |- evolves ?a (upd_txn_seq _ ?t) => apply evolves_bump; solve_evolves
  | |- evolves ?a (upd_positions (dict_set _ _) ?t) => apply evolves_put; [eauto with evolve|solve_evolves]
  | |- evolves ?a (upd_positions _ ?t) => apply evolves_reduce; [eauto with evolve|reflexivity|solve_evolves]
  | |- evolves _ _ => assumption
  end.

(** Continue after an operation that evolves. *)
Lemma wp_evolves {A} (c : PM A) s0 s (Q : A -> Paper G -> Prop) (E : exn -> Paper G -> Prop) :
  Evolves c -> evolves s0 s -> (forall a s', evolves s0 s' -> Q a s') ->
  (forall e s', evolves s0 s' -> E e s') -> wp c Q E s.
Proof. intros Hc Hs HQ HE. eapply wp_mono; [apply Hc; exact Hs|auto|auto]. Qed.

Create HintDb evolve.
Ltac evolve_step :=
  match goal with
  | |- evolves _ _ => solve_evolves
  | Hs : evolves ?s0 _ |- wp _ _ _ _ =>
      first [ lazymatch goal with |- wp (if _ then _ else _) _ _ _ => fail | _ => wp_step end
            | eapply (wp_evolves _ s0); [solve [eauto with evolve]|solve_evolves| |auto];
              cbv beta; let a := fresh "a" in let s := fresh "s" in let Hs' := fresh "Hs" in intros a s Hs'
            | wp_step ]
  end; cbn beta iota zeta.
Ltac evolve := repeat evolve_step.

Lemma Evolves_draw {A} (f : G -> G * A) : Evolves (draw f).
Proof. intros s0 s Hs. unfold wp, draw. destruct (f (pb_rng s)). solve_evolves. Qed.
#[local] Hint Resolve Evolves_draw : evolve.

Lemma Evolves_lift {A} (r : res A) : Evolves (lift r).
Proof. intros s0 s Hs. evolve. Qed.
Lemma Evolves_if_lift {A} (b : bool) (r : res A) x : Evolves (if b then lift r else ret x).
Proof. intros s0 s Hs. evolve. Qed.
#[local] Hint Resolve Evolves_if_lift : evolve.

Lemma Evolves_conv inst : Evolves (conv ccy inst).
Proof. intros s0 s Hs. unfold conv. evolve. Qed.
#[local] Hint Resolve Evolves_conv : evolve.

Lemma Evolves_slippage latency : Evolves (slippage_pips profile latency).
Proof. intros s0 s Hs. unfold slippage_pips. evolve. Qed.
#[local] Hint Resolve Evolves_slippage : evolve.

Lemma Evolves_mark ps : forall u m, Evolves (mark_book instruments ccy ps u m).
Proof.
  induction ps as [|[k p] ps IH]; intros u m s0 s Hs; cbn [mark_book]; evolve; apply IH; solve_evolves.
Qed.
#[local] Hint Resolve Evolves_mark : evolve.

Lemma Evolves_account : Evolves (account instruments ccy account_id).
Proof. intros s0 s Hs. unfold account. evolve. Qed.
#[local] Hint Resolve Evolves_account : evolve.

Lemma Evolves_record kind id :
  match kind with ORDER_FILL _ _ _ _ _ => False | _ => True end -> Evolves (record_txn kind id).
Proof. intros Hk. apply Evolves_record_txn. intros k. now destruct kind. Qed.
#[local] Hint Extern 1 (Evolves (record_txn _ _)) => apply Evolves_record; exact I : evolve.

Lemma Evolves_realise p inst px lots ts reason extra :
  pos_ok (pos_instrument p) p -> Evolves (realise profile ccy p inst px lots ts reason extra).
Proof. intros Hp s0 s Hs. unfold realise. evolve. Qed.
#[local] Hint Resolve Evolves_realise : evolve.

Lemma pos_ok_self k p : pos_ok k p -> pos_ok (pos_instrument p) p.
Proof. intros Hp. now destruct Hp as (<- & ?). Qed.
#[local] Hint Resolve pos_ok_self : evolve.

Lemma book_get_evolves s0 s k p : evolves s0 s -> dict_get k (pb_positions s) = Some p -> pos_ok k p.
Proof. intros Hs. apply book_get, (ev_book _ _ Hs). Qed.
#[local] Hint Resolve book_get_evolves : evolve.

(** Changes of a position that keep its instrument and its lots. *)
Lemma pos_ok_same {k} p {p'} : pos_instrument p' = pos_instrument p -> pos_lots p' = pos_lots p -> pos_ok k p -> pos_ok k p'.
Proof. unfold pos_ok. intros -> ->. exact id. Qed.

#[local] Hint Extern 2 (pos_ok _ (pos_set_excursions _ _ ?p)) => apply (pos_ok_same p eq_refl eq_refl) : evolve.
#[local] Hint Extern 2 (pos_ok _ (pos_set_targets _ _ _ ?p)) => apply (pos_ok_same p eq_refl eq_refl) : evolve.
#[local] Hint Extern 2 (pos_ok _ (pos_add_financing _ ?p)) => apply (pos_ok_same p eq_refl eq_refl) : evolve.

Lemma Evolves_check_exits q : Evolves (check_exits instruments profile ccy q).
Proof. intros s0 s Hs. unfold check_exits, track_excursions, put_position. evolve. Qed.
#[local] Hint Resolve Evolves_check_exits : evolve.

(** The worst position is one of the book. *)
Lemma worst_of_spec ps : forall w s0 s,
  evolves s0 s -> (forall k p, (k, p) ∈ ps -> pos_ok k p) ->
  (forall p x, w = Some (p, x) -> pos_ok (pos_instrument p) p) ->
  wp (worst_of instruments ccy ps w)
    (fun r s' => evolves s0 s' /\ forall p x, r = Some (p, x) -> pos_ok (pos_instrument p) p)
    (fun _ s' => evolves s0 s') s.
Proof.
  induction ps as [|[k p] ps IH]; intros w s0 s Hs Hps Hw; cbn [worst_of]; evolve; [now split| |].
  - apply IH; [assumption| |].
    + intros k' p' Hin. apply Hps. now right.
    + assert (Hp : pos_ok (pos_instrument p) p) by (eapply pos_ok_self, Hps; left).
      destruct w as [[pw xw]|]; [destruct (dltb _ _)|]; intros p' x' [= <- <-]; eauto.
  - apply IH; [assumption| |exact Hw]. intros k' p' Hin. apply Hps. now right.
Qed.

Lemma Evolves_margin_loop fuel : Evolves (margin_loop instruments profile ccy account_id fuel).
Proof.
  induction fuel as [|n IH]; intros s0 s Hs; cbn [margin_loop]; evolve.
  eapply wp_mono; [apply (worst_of_spec _ None s0); [exact Hs| |discriminate]| |auto].
  - rewrite <- E. apply (ev_book _ _ Hs).
  - intros [[w x]|] s1 [H1 Hw]; [|now apply wp_ret]. specialize (Hw _ _ eq_refl). evolve.
Qed.
#[local] Hint Resolve Evolves_margin_loop : evolve.

Lemma Evolves_check_margin : Evolves (check_margin instruments profile ccy account_id).
Proof. intros s0 s Hs. unfold check_margin. evolve. Qed.
#[local] Hint Resolve Evolves_check_margin : evolve.

Lemma Evolves_charge m kp : pos_ok kp.1 kp.2 -> Evolves (charge_position instruments profile ccy m kp).
Proof. intros Hp s0 s Hs. unfold charge_position, put_position. evolve. Qed.

Lemma Evolves_roll_day d : Evolves (roll_day instruments profile ccy d).
Proof.
  intros s0 s Hs. unfold roll_day. evolve.
  apply (wp_mono _ (fun _ s' => evolves s0 s') _ (fun _ s' => evolves s0 s')); [|intros [] s1 H1; evolve|auto].
  apply wp_each; [|exact Hs]. intros [k p] s1 Hin H1. apply Evolves_charge; [|exact H1].
  apply (ev_book _ _ Hs). exact Hin.
Qed.

Lemma Evolves_roll_days days : Evolves (roll_days instruments profile ccy days).
Proof. intros s0 s Hs. apply wp_each; [|exact Hs]. intros d s1 _ H1. now apply Evolves_roll_day. Qed.
#[local] Hint Resolve Evolves_roll_days : evolve.

Lemma Evolves_roll_to d : Evolves (roll_to instruments profile ccy d).
Proof. intros s0 s Hs. unfold roll_to. evolve. Qed.
#[local] Hint Resolve Evolves_roll_to : evolve.

Lemma Evolves_on_quote q : Evolves (on_quote instruments profile ccy account_id q).
Proof. intros s0 s Hs. unfold on_quote, apply_rollover. evolve. Qed.
#[local] Hint Resolve Evolves_on_quote : evolve.

Lemma Evolves_spread_quote k inst x t : Evolves (spread_quote profile k inst x t).
Proof. intros s0 s Hs. unfold spread_quote, spread_price. evolve. Qed.
#[local] Hint Resolve Evolves_spread_quote : evolve.

Lemma Evolves_mark_mid k m t : Evolves (mark_mid instruments profile ccy account_id k m t).
Proof. intros s0 s Hs. unfold mark_mid. evolve. Qed.

Lemma Evolves_on_bar k o h l c t1 t2 : Evolves (on_bar_prices instruments profile ccy account_id k o h l c t1 t2).
Proof.
  intros s0 s Hs. unfold on_bar_prices. wp_step. wp_step; [|exact Hs]. wp_step. wp_step. cbv beta zeta.
  apply wp_each; [|exact Hs]. intros pt s1 _ H1. evolve.
Qed.

Lemma Evolves_set_time t : Evolves (set_time t).
Proof. intros s0 s Hs. unfold set_time. evolve. Qed.

Lemma Evolves_close k l r : Evolves (close_position instruments profile ccy k l r).
Proof.
  intros s0 s Hs. unfold close_position. evolve.
Qed.

Lemma Evolves_modify k sl tp : Evolves (modify_position instruments k sl tp).
Proof. intros s0 s Hs. unfold modify_position, put_position. evolve. Qed.

(** ** Executing an order *)

(** A size the venue takes an order of. *)
Definition sendable (i : Instrument) (l : decimal) : Prop :=
  (0 < dval l <= dval (inst_max_lot i))%Q.

(** Every instrument on offer was validated, and a partial fill is never rounded
    down to nothing. *)
Definition offers_ok : Prop :=
  forall k i, dict_get k instruments = Some i ->
    Instrument_ok i /\
    forall l fl, sendable i l -> (l >? sp_partial_fill_threshold_lots profile) = true ->
      round_lots_down i (l * sp_partial_fill_ratio profile) = Ok fl -> (0 < dval fl)%Q.

Lemma pos_ok_opened f l c r intent :
  is_Some (dict_get (fill_instrument f) instruments) -> (0 < dval l)%Q ->
  pos_ok (fill_instrument f) (pos_opened f l c r intent).
Proof. intros Hk Hl. split; [reflexivity|split; assumption]. Qed.

Lemma pos_ok_added k p f e c r sl tp :
  pos_ok k p -> (0 < dval (fill_lots f))%Q -> pos_ok k (pos_added (pos_lots p + fill_lots f) e c r sl tp p).
Proof. intros (Hk & Hi & Hl) Hf. split; [exact Hk|split; [exact Hi|]]. apply dadd_pos; [now apply Qlt_le_weak|exact Hf]. Qed.
#[local] Hint Resolve pos_ok_opened pos_ok_added : evolve.

Lemma more_than_zero x : (x >? 0) = true -> (0 < dval x)%Q.
Proof. now intros H%dltb_spec. Qed.
#[local] Hint Resolve more_than_zero : evolve.

Lemma Evolves_apply_fill f inst intent :
  is_Some (dict_get (fill_instrument f) instruments) -> (0 < dval (fill_lots f))%Q ->
  Evolves (apply_fill profile ccy f inst intent).
Proof. intros Hk Hl s0 s Hs. unfold apply_fill, put_position. evolve. Qed.

Lemma orders_set k o s : order_ok k o -> orders_ok s -> orders_ok (upd_orders (dict_set k o) s).
Proof.
  intros Ho [Hnd Hb]. split; cbn; [now apply dict_set_NoDup|].
  intros k' o' [E|Hin]%dict_set_elem; [|auto]. now injection E as -> ->.
Qed.

Lemma fills_of_set k o k' os : fills_of k (dict_set k' o os) = if bool_decide (k = k') then o_fills o else fills_of k os.
Proof. unfold fills_of. rewrite dict_get_set. now case_bool_decide. Qed.

(** Orders other than [id] are as they were. *)
Definition others_same (id : string) s s' : Prop :=
  forall k, k <> id -> dict_get k (pb_orders s') = dict_get k (pb_orders s).

Lemma others_same_set id o s s' : others_same id s s' -> others_same id s (upd_orders (dict_set id o) s').
Proof. intros H k Hk. cbn. rewrite dict_get_set, bool_decide_eq_false_2 by exact Hk. auto. Qed.

Lemma others_same_evolves id s s1 s2 : others_same id s s1 -> evolves s1 s2 -> others_same id s s2.
Proof. intros H He k Hk. rewrite (ev_orders _ _ He). auto. Qed.

(** Storing an order without touching its fills. *)
Lemma Paper_wf_set_order id o s :
  Paper_wf s -> order_ok id o -> o_fills o = fills_of id (pb_orders s) -> Paper_wf (upd_orders (dict_set id o) s).
Proof.
  intros [] Ho Hf. constructor; try assumption; [now apply orders_set|].
  intros k. cbn. rewrite fills_of_set. case_bool_decide as E; [subst; rewrite Hf|]; apply wf_once0.
Qed.

(** Appending a transaction. *)
Lemma record_txn_eq kind id s :
  record_txn kind id s =
  (upd_transactions (fun ts => ts ++ [mkTxn (pb_txn_seq s + 1) kind id (pb_now_ns s)])
     (upd_txn_seq (fun n => n + 1)%Z s), Ok tt).
Proof. reflexivity. Qed.

(** The fill in hand: the order carries it, and it is not logged yet. *)
Definition fill_pending (id : string) (o : Order) (f : Fill) s : Prop :=
  Paper_wf s /\ dict_get id (pb_orders s) = Some o /\ o_fills o = [f] /\
  executions id (pb_transactions s) = 0%nat.

Lemma fill_pending_evolves id o f s s' : fill_pending id o f s -> evolves s s' -> fill_pending id o f s'.
Proof.
  intros (Hw & Ho & Hf & He) Hs. split; [now apply (evolves_wf s)|].
  rewrite (ev_orders _ _ Hs), (ev_exec _ _ Hs). auto.
Qed.

Lemma fill_logged id o f s price lots c slip hidden :
  fill_pending id o f s ->
  Paper_wf (record_txn (ORDER_FILL price lots c slip hidden) id s).1.
Proof.
  intros ([] & Ho & Hf & He). rewrite record_txn_eq. constructor; cbn; [assumption| |assumption|].
  - now apply log_append.
  - intros k. cbn. rewrite executions_app. unfold is_fill_of. cbn.
    case_bool_decide as E; [subst k; unfold fills_of; rewrite Ho, Hf, He; cbn; lia|].
    rewrite Nat.add_0_r. apply wf_once0.
Qed.

(** The rest of [_complete] once the order carries its fill. *)
Lemma settle_fill id o f s inst intent c kind price lots slip hidden :
  fill_pending id o f s -> kind = ORDER_FILL price lots c slip hidden ->
  is_Some (dict_get (fill_instrument f) instruments) -> (0 < dval (fill_lots f))%Q ->
  wp (modify (upd_balance (fun b => b - c)) ;! apply_fill profile ccy f inst intent ;! record_txn kind id)
    (fun _ s' => Paper_wf s' /\ pb_orders s' = pb_orders s)
    (fun _ s' => Paper_wf s' /\ pb_orders s' = pb_orders s) s.
Proof.
  intros Hp -> Hk Hl. assert (Hs : evolves s s) by (apply evolves_refl; apply Hp). wp_step. wp_step. cbv beta.
  apply wp_bind, (wp_evolves _ s); [now apply Evolves_apply_fill|solve_evolves| |].
  - intros a s1 H1. unfold wp. rewrite record_txn_eq. split; [|exact (ev_orders _ _ H1)].
    exact (fill_logged id o f s1 price lots c slip hidden (fill_pending_evolves id o f s s1 Hp H1)).
  - intros e s1 H1. split; [exact (evolves_wf s s1 (proj1 Hp) H1)|exact (ev_orders _ _ H1)].
Qed.

(** What is filled is a positive number of lots, in full or in part. *)
Lemma filled_lots_spec inst lots :
  offers_ok -> (exists k, dict_get k instruments = Some inst) -> sendable inst lots ->
  forall s (Q : decimal * OrderState -> Paper G -> Prop) (E : exn -> Paper G -> Prop),
  (forall fl st, (0 < dval fl)%Q -> st = FILLED \/ st = PARTIAL -> Q (fl, st) s) -> (forall e, E e s) ->
  wp (if lots >? sp_partial_fill_threshold_lots profile
      then let! fl := lift (round_lots_down inst (lots * sp_partial_fill_ratio profile)) in
           ret (fl, if fl <? lots then PARTIAL else FILLED)
      else ret (lots, FILLED)) Q E s.
Proof.
  intros Hoff [k Hk] Hl s Q E HQ HE. destruct (Hoff k inst Hk) as [_ Hp].
  destruct (dltb (sp_partial_fill_threshold_lots profile) lots) eqn:El; [|apply wp_ret, HQ; [apply Hl|auto]]. apply wp_bind. wp_step; [|auto].
  apply wp_ret, HQ; [eapply Hp; eassumption|]. destruct (dltb a lots); auto.
Qed.

Lemma complete_spec s intent inst q lots hidden latency o :
  offers_ok -> Paper_wf s -> dict_get (oi_instrument intent) instruments = Some inst ->
  sendable inst lots -> dict_get (oi_client_order_id intent) (pb_orders s) = Some o ->
  o_intent o = intent -> o_fills o = [] ->
  wp (complete profile ccy intent inst q lots hidden latency)
    (fun _ s' => Paper_wf s' /\ others_same (oi_client_order_id intent) s s' /\
       exists f st, (st = FILLED \/ st = PARTIAL) /\
         dict_get (oi_client_order_id intent) (pb_orders s') =
           Some (order_filled f (if hidden then UNKNOWN else st) o))
    (fun _ s' => Paper_wf s' /\ others_same (oi_client_order_id intent) s s' /\
       is_Some (dict_get (oi_client_order_id intent) (pb_orders s'))) s.
Proof.
  intros Hoff Hw Hi Hl Ho Hint Hf. set (id := oi_client_order_id intent) in *. unfold complete. fold id.
  assert (Hs : evolves s s) by (apply evolves_refl; apply Hw).
  assert (Hexit : forall s', evolves s s' -> Paper_wf s' /\ others_same id s s' /\ is_Some (dict_get id (pb_orders s'))).
  { intros s' He. split; [now apply (evolves_wf s)|]. split; [now apply (others_same_evolves _ _ s)|].
    rewrite (ev_orders _ _ He), Ho. eauto. }
  apply wp_bind, (wp_evolves _ s); [auto with evolve|exact Hs| |auto]. intros slip s1 H1.
  apply wp_bind. wp_step; [|auto]. rename a into price.
  apply wp_bind, filled_lots_spec; [exact Hoff|eauto|exact Hl| |auto]. intros fl st Hfl Hst. cbv beta iota zeta.
  wp_step. wp_step. wp_step. wp_step. cbv beta. unfold upd_order. wp_step. wp_step.
  set (s2 := upd_txn_seq _ s1). set (f := mkFill _ _ _ _ _ _ _ _ _ _ _).
  assert (H2 : evolves s s2) by now apply evolves_bump.
  assert (Ho2 : dict_get id (pb_orders s2) = Some o) by now rewrite (ev_orders _ _ H2).
  set (o' := order_filled f (if hidden then UNKNOWN else st) o).
  assert (E3 : upd_orders (fun os => match dict_get id os with Some x => dict_set id (order_filled f (if hidden then UNKNOWN else st) x) os | None => os end) s2
               = upd_orders (dict_set id o') s2) by (unfold upd_orders; now rewrite Ho2).
  rewrite E3. set (s3 := upd_orders (dict_set id o') s2).
  assert (Hid : order_ok id o') .
  { destruct (wf_orders _ (evolves_wf _ _ Hw H2)) as [_ Hb]. destruct (Hb _ _ (dict_get_elem _ _ _ Ho2)) as (Hn & _).
    split; [exact Hn|]. unfold o', order_filled. cbn. rewrite Hf. cbn. split; [lia|]. split; [|repeat constructor].
    destruct hidden; [discriminate|]. now destruct Hst as [->| ->]. }
  assert (Hx : executions id (pb_transactions s2) = 0%nat).
  { pose proof (wf_once _ (evolves_wf _ _ Hw H2) id) as Hx. unfold fills_of in Hx. rewrite Ho2, Hf in Hx. now apply Nat.le_0_r. }
  assert (Hp : fill_pending id o' f s3).
  { split; [|split; [|split]].
    - destruct (evolves_wf _ _ Hw H2) as [B L O X]. constructor; [exact B|exact L|now apply orders_set|].
      intros k. change (executions k (pb_transactions s2) <= length (fills_of k (dict_set id o' (pb_orders s2))))%nat.
      rewrite fills_of_set. case_bool_decide as Ek; [subst k; rewrite Hx; apply Nat.le_0_l|exact (X k)].
    - cbn. rewrite dict_get_set. now rewrite bool_decide_eq_true_2.
    - unfold o'. cbn. now rewrite Hf.
    - exact Hx. }
  assert (Hoth : others_same id s s3) by (apply others_same_set; now apply (others_same_evolves _ _ s)).
  eapply wp_mono; [apply (settle_fill id o' f s3 inst intent _ _ _ _ _ _ Hp eq_refl); [exists inst; exact Hi|exact Hfl]| |].
  - intros _ s4 [H4 E4]. split; [exact H4|]. split; [intros k Hk; rewrite E4; auto|].
    exists f, st. rewrite E4. destruct Hp as (_ & Hp & _). split; [exact Hst|exact Hp].
  - intros e s4 [H4 E4]. split; [exact H4|]. split; [intros k Hk; rewrite E4; auto|].
    rewrite E4. destruct Hp as (_ & Hp & _). eauto.
Qed.

(** What a returned submission of a new order means at the venue: it refused
    the order and holds no fill of it, or it executed it exactly once, whether it
    says so or not. *)
Definition submitted (intent : OrderIntent) (r : SubmitResult) s' : Prop :=
  let id := oi_client_order_id intent in
  (sr_state r = REJECTED /\ sr_fills r = [] /\ fills_of id (pb_orders s') = []) \/
  (exists o f, dict_get id (pb_orders s') = Some o /\ o_fills o = [f] /\ o_state o = sr_state r /\
     sr_stop_confirmed r = true /\
     (sr_state r = UNKNOWN /\ sr_fills r = [] \/
      (sr_state r = FILLED \/ sr_state r = PARTIAL) /\ sr_fills r = [f])).

Lemma Evolves_latency : Evolves (latency_ms profile).
Proof. intros s0 s Hs. unfold latency_ms, rng_uniform. evolve. Qed.
Lemma Evolves_last_look b : Evolves (last_look_rejects profile b).
Proof. intros s0 s Hs. unfold last_look_rejects. evolve. Qed.
#[local] Hint Resolve Evolves_latency Evolves_last_look : evolve.

Lemma upd_order_eq id f s o :
  dict_get id (pb_orders s) = Some o -> upd_order id f s = (upd_orders (dict_set id (f o)) s, Ok tt).
Proof. intros Ho. unfold upd_order, modify, upd_orders. now rewrite Ho. Qed.

(** An accepted order without a fill, all other orders as in [s0]. *)
Definition accepted (intent : OrderIntent) (o : Order) s0 s : Prop :=
  Paper_wf s /\ others_same (oi_client_order_id intent) s0 s /\
  dict_get (oi_client_order_id intent) (pb_orders s) = Some o /\ o_intent o = intent /\ o_fills o = [].

Lemma accepted_evolves intent o s0 s s' : accepted intent o s0 s -> evolves s s' -> accepted intent o s0 s'.
Proof.
  intros (Hw & Hs & Ho & Hi & Hf) He. split; [now apply (evolves_wf s)|].
  split; [now apply (others_same_evolves _ _ s)|]. rewrite (ev_orders _ _ He). auto.
Qed.

Lemma accepted_set intent o s0 s :
  Paper_wf s -> others_same (oi_client_order_id intent) s0 s ->
  fills_of (oi_client_order_id intent) (pb_orders s) = [] -> o_intent o = intent -> o_fills o = [] ->
  accepted intent o s0 (upd_orders (dict_set (oi_client_order_id intent) o) s).
Proof.
  intros Hw Hs Hn Hi Hf. split; [apply Paper_wf_set_order; [exact Hw| |now rewrite Hn]|].
  - split; [now rewrite Hi|]. rewrite Hf. split; [cbn; lia|]. split; [auto|constructor].
  - split; [now apply others_same_set|]. split; [cbn; now rewrite dict_get_set, bool_decide_eq_true_2|auto].
Qed.

(** A change of state of an accepted order, and what follows it. *)
Lemma wp_upd_accepted {A} intent o g s0 s (k : PM A) Q E :
  accepted intent o s0 s -> o_intent (g o) = intent -> o_fills (g o) = [] ->
  (forall s', accepted intent (g o) s0 s' -> wp k Q E s') ->
  wp (upd_order (oi_client_order_id intent) g ;! k) Q E s.
Proof.
  intros (Hw & Hs & Ho & Hi & Hf) Hgi Hgf Hk. apply wp_bind. unfold wp at 1. rewrite (upd_order_eq _ _ _ _ Ho).
  apply Hk, accepted_set; auto. unfold fills_of. now rewrite Ho.
Qed.

Lemma wp_accepted {A B} intent o s0 s (c : PM A) (k : A -> PM B) Q (E : exn -> Paper G -> Prop) :
  accepted intent o s0 s -> Evolves c -> (forall a s', accepted intent o s0 s' -> wp (k a) Q E s') ->
  (forall e s', accepted intent o s0 s' -> E e s') -> wp (mbind_ c k) Q E s.
Proof.
  intros Ha Hc Hk HE. apply wp_bind, (wp_evolves _ s); [exact Hc|apply evolves_refl; apply Ha| |].
  - intros a s1 H1. apply Hk, (accepted_evolves _ _ _ s); assumption.
  - intros e s1 H1. apply HE, (accepted_evolves _ _ _ s); assumption.
Qed.

Lemma wp_complete {A} intent inst q lots (hidden : bool) latency o s0 s (k : PM A) Q (E : exn -> Paper G -> Prop) :
  offers_ok -> dict_get (oi_instrument intent) instruments = Some inst -> sendable inst lots ->
  accepted intent o s0 s ->
  (forall f st s', st = FILLED \/ st = PARTIAL -> Paper_wf s' -> others_same (oi_client_order_id intent) s0 s' ->
     dict_get (oi_client_order_id intent) (pb_orders s') = Some (order_filled f (if hidden then UNKNOWN else st) o) ->
     wp k Q E s') ->
  (forall e s', Paper_wf s' -> others_same (oi_client_order_id intent) s0 s' -> E e s') ->
  wp (complete profile ccy intent inst q lots hidden latency ;! k) Q E s.
Proof.
  intros Hoff Hi Hl (Hw & Hs & Ho & Hin & Hf) Hk HE.
  assert (Hoth : forall s', others_same (oi_client_order_id intent) s s' -> others_same (oi_client_order_id intent) s0 s')
    by (intros s' H x Hx; rewrite (H x Hx); auto).
  apply wp_bind. eapply wp_mono; [apply (complete_spec s intent inst q lots hidden latency o); assumption| |].
  - intros [] s1 (H1 & H2 & f & st & H3 & H4). eapply Hk; eauto.
  - intros e s1 (H1 & H2 & _). auto.
Qed.

Lemma execute_spec s intent inst q lots timeout :
  offers_ok -> Paper_wf s -> dict_get (oi_instrument intent) instruments = Some inst ->
  sendable inst lots -> dict_get (oi_client_order_id intent) (pb_orders s) = None ->
  wp (execute profile ccy intent inst q lots timeout)
    (fun r s' => Paper_wf s' /\ others_same (oi_client_order_id intent) s s' /\ submitted intent r s')
    (fun _ s' => Paper_wf s' /\ others_same (oi_client_order_id intent) s s') s.
Proof.
  intros Hoff Hw Hi Hl Hn. unfold execute. wp_step. wp_step. wp_step. wp_step.
  assert (Ha : accepted intent (sent_order intent (pb_now_ns s)) s
                 (upd_orders (dict_set (oi_client_order_id intent) (sent_order intent (pb_now_ns s))) s))
    by (apply accepted_set; [exact Hw|intros k _; reflexivity|unfold fills_of; now rewrite Hn|reflexivity|reflexivity]).
  assert (HE : forall o (e : exn) s', accepted intent o s s' -> Paper_wf s' /\ others_same (oi_client_order_id intent) s s')
    by (intros o e s' (? & ? & _); auto).
  apply (wp_accepted intent _ s _ _ _ _ _ Ha); [auto with evolve| |eauto]. intros lat s2 H2. wp_step.
  - eapply wp_upd_accepted; [exact H2|reflexivity|reflexivity|]. intros s3 H3.
    apply (wp_accepted intent _ s _ _ _ _ _ H3); [auto with evolve| |eauto]. intros [] s4 H4.
    eapply wp_complete; [exact Hoff|exact Hi|exact Hl|exact H4| |auto].
    intros f st s5 Hst H5 H6 H7. apply wp_ret. split; [exact H5|]. split; [exact H6|]. right.
    eexists _, f. split; [exact H7|]. repeat split. left. auto.
  - apply (wp_accepted intent _ s _ _ _ _ _ H2); [auto with evolve| |eauto]. intros r s3 H3. cbv zeta.
    apply (wp_accepted intent _ s _ _ _ _ _ H3); [auto with evolve| |eauto]. intros [] s4 H4.
    + eapply wp_upd_accepted; [exact H4|reflexivity|reflexivity|]. intros s5 H5.
      apply (wp_accepted intent _ s _ _ _ _ _ H5); [auto with evolve| |eauto]. intros [] s6 H6. apply wp_ret.
      destruct H6 as (? & ? & Ho & _ & Hf). split; [assumption|]. split; [assumption|]. left.
      unfold fills_of. rewrite Ho, Hf. auto.
    + eapply wp_complete; [exact Hoff|exact Hi|exact Hl|exact H4| |auto].
      intros f st s5 Hst H5 H6 H7. wp_step. wp_step. cbv beta. rewrite H7. apply wp_ret.
      split; [exact H5|]. split; [exact H6|]. right. eexists _, f. split; [exact H7|]. repeat split. right. auto.
Qed.

Lemma sendable_lots k inst lots :
  offers_ok -> dict_get k instruments = Some inst -> (lots <? inst_min_lot inst) = false ->
  (lots >? inst_max_lot inst) = false -> sendable inst lots.
Proof.
  intros Hoff Hi H1%dltb_false H2%dltb_false. destruct (Hoff k inst Hi) as [Hok _].
  pose proof (ok_min_lot _ Hok). unfold sendable. lra.
Qed.

Lemma Evolves_margin_required inst q lots : Evolves (margin_required ccy inst q lots).
Proof.
  intros s0 s Hs. unfold margin_required, conv. wp_step. wp_step. wp_step. wp_step. cbv beta.
  wp_step; wps; assumption.
Qed.
#[local] Hint Resolve Evolves_margin_required : evolve.

Lemma submit_spec s intent timeout :
  offers_ok -> Paper_wf s -> dict_get (oi_client_order_id intent) (pb_orders s) = None ->
  wp (submit instruments profile ccy account_id intent timeout)
    (fun r s' => Paper_wf s' /\ others_same (oi_client_order_id intent) s s' /\ submitted intent r s')
    (fun _ s' => Paper_wf s' /\ others_same (oi_client_order_id intent) s s') s.
Proof.
  intros Hoff Hw Hn. unfold submit. wp_step. wp_step. cbv beta zeta. rewrite Hn.
  assert (Hs : evolves s s) by (apply evolves_refl; apply Hw).
  assert (Hev : forall s', evolves s s' -> Paper_wf s' /\ others_same (oi_client_order_id intent) s s').
  { intros s' He. split; [now apply (evolves_wf s)|]. apply (others_same_evolves _ _ s); [intros k _; reflexivity|exact He]. }
  assert (Hrej : forall reason b s', evolves s s' ->
    Paper_wf s' /\ others_same (oi_client_order_id intent) s s' /\ submitted intent (rejection reason b) s').
  { intros reason b s' He. destruct (Hev s' He). split; [assumption|]. split; [assumption|]. left.
    unfold fills_of. rewrite (ev_orders _ _ He), Hn. auto. }
  destruct (dict_get (oi_instrument intent) instruments) as [inst|] eqn:Ei; [|apply wp_ret; auto].
  destruct (dict_get (oi_instrument intent) (pb_quotes s)) as [q|] eqn:Eq; [|apply wp_ret; auto].
  wp_step. wp_step; [|auto]. rename a into lots.
  destruct (dltb lots (inst_min_lot inst)) eqn:Elo; [apply wp_ret; auto|].
  destruct (dltb (inst_max_lot inst) lots) eqn:Ehi; [apply wp_ret; auto|].
  pose proof (sendable_lots _ _ _ Hoff Ei Elo Ehi) as Hl.
  apply wp_bind, (wp_evolves _ s); [|exact Hs| |auto].
  { intros s0 s1 H1. evolve. }
  intros required s1 H1. apply wp_bind, (wp_evolves _ s); [|exact H1| |auto].
  { intros s0 s2 H2. evolve. }
  intros refused s2 H2. destruct refused; [apply wp_ret; auto|].
  eapply wp_mono; [apply execute_spec; [exact Hoff|now apply (evolves_wf s)|exact Ei|exact Hl|now rewrite (ev_orders _ _ H2)]| |].
  - intros r s3 (H3 & H4 & H5). split; [exact H3|]. split; [|exact H5].
    intros k Hk. rewrite (H4 k Hk). now rewrite (ev_orders _ _ H2).
  - intros e s3 (H3 & H4). split; [exact H3|]. intros k Hk. rewrite (H4 k Hk). now rewrite (ev_orders _ _ H2).
Qed.

(** A known id changes nothing: the venue repeats its answer. *)
Lemma submit_known s intent timeout o :
  dict_get (oi_client_order_id intent) (pb_orders s) = Some o ->
  submit instruments profile ccy account_id intent timeout s =
    (s, Ok (answer s (o_state o) o (Some "DUPLICATE_CLIENT_ORDER_ID"%string))).
Proof. intros Ho. unfold submit, mbind_, gets, ret. now rewrite Ho. Qed.

Lemma query_order_eq s id o :
  dict_get id (pb_orders s) = Some o ->
  query_order id s =
    let filled := negb (bool_decide (o_fills o = [])) in
    (if bool_decide (o_state o = UNKNOWN) && filled then upd_orders (dict_set id (order_in FILLED o)) s else s,
     Ok (Some (answer s (if filled then FILLED else o_state o) o (o_reject_reason o)))).
Proof.
  intros Ho. unfold query_order, mbind_, gets, ret, when. rewrite Ho.
  destruct (_ && _); [|reflexivity]. rewrite (upd_order_eq _ _ _ _ Ho). reflexivity.
Qed.

Lemma Paper_wf_order_in s id o st :
  Paper_wf s -> dict_get id (pb_orders s) = Some o -> st <> REJECTED -> Paper_wf (upd_orders (dict_set id (order_in st o)) s).
Proof.
  intros Hw Ho Hst. apply Paper_wf_set_order; [exact Hw| |unfold fills_of; now rewrite Ho].
  destruct (wf_orders _ Hw) as [_ Hb]. destruct (Hb _ _ (dict_get_elem _ _ _ Ho)) as (H1 & H2 & _ & H4).
  split; [exact H1|]. split; [exact H2|]. split; [contradiction|exact H4].
Qed.

Lemma query_wf s id : Paper_wf s -> Paper_wf (query_order id s).1.
Proof.
  intros Hw. destruct (dict_get id (pb_orders s)) as [o|] eqn:Ho.
  - rewrite (query_order_eq _ _ _ Ho). cbn. destruct (_ && _); [|exact Hw]. now apply Paper_wf_order_in.
  - unfold query_order, mbind_, gets, ret. now rewrite Ho.
Qed.

Lemma cancel_wf s id : Paper_wf s -> Paper_wf (cancel id s).1.
Proof.
  intros Hw. unfold cancel, mbind_, gets, ret. destruct (dict_get id (pb_orders s)) as [o|] eqn:Ho; [|exact Hw].
  destruct (terminal (o_state o)); [exact Hw|]. rewrite (upd_order_eq _ _ _ _ Ho).
  set (s1 := upd_orders _ s). assert (Hw1 : Paper_wf s1) by now apply Paper_wf_order_in.
  pose proof (Evolves_record ORDER_CANCEL id I s1 s1 (evolves_refl s1 (wf_book _ Hw1) (wf_log _ Hw1))) as H1.
  unfold wp in H1. destruct (record_txn ORDER_CANCEL id s1) as [s2 [[]|e]]; cbn; now apply (evolves_wf s1).
Qed.

(** ** Runs of the venue *)

(** Everything its clients and its price feed do to it. *)
Inductive PaperOp :=
| OpSetTime (ns : Z)
| OpSetNews (active : bool)
| OpSetConversion (quote_ccy : string) (rate : decimal)
| OpQuote (q : Quote)
| OpMid (instrument : string) (m : decimal) (ts_ns : Z)
| OpBar (instrument : string) (o h l c : decimal) (start_ns end_ns : Z)
| OpAccount
| OpSubmit (intent : OrderIntent) (timeout_ms : Z)
| OpQuery (id : string)
| OpCancel (id : string)
| OpClose (instrument : string) (lots : option decimal) (reason : string)
| OpModify (instrument : string) (stop_loss take_profit : option decimal).

Definition run_op (op : PaperOp) : PM unit :=
  match op with
  | OpSetTime ns => set_time ns
  | OpSetNews b => set_news_window b
  | OpSetConversion c r => set_conversion ccy c r
  | OpQuote q => on_quote instruments profile ccy account_id q
  | OpMid k m t => mark_mid instruments profile ccy account_id k m t ;! ret tt
  | OpBar k o h l c t1 t2 => on_bar_prices instruments profile ccy account_id k o h l c t1 t2
  | OpAccount => account instruments ccy account_id ;! ret tt
  | OpSubmit i t => submit instruments profile ccy account_id i t ;! ret tt
  | OpQuery id => query_order id ;! ret tt
  | OpCancel id => cancel id ;! ret tt
  | OpClose k l r => close_position instruments profile ccy k l r ;! ret tt
  | OpModify k sl tp => modify_position instruments k sl tp ;! ret tt
  end.

(** The operations that handle no order. *)
Definition market_op (op : PaperOp) : bool :=
  match op with OpSubmit _ _ | OpQuery _ | OpCancel _ => false | _ => true end.

#[local] Hint Resolve Evolves_set_time Evolves_mark_mid Evolves_on_bar Evolves_close Evolves_modify : evolve.

Lemma Evolves_market_op op : market_op op = true -> Evolves (run_op op).
Proof.
  intros Ho s0 s Hs. destruct op; try discriminate Ho; cbn [run_op];
    unfold set_news_window, set_conversion; evolve.
Qed.

Lemma unit_state {A} (c : PM A) s : ((c ;! ret tt) s).1 = (c s).1.
Proof. unfold mbind_, ret. now destruct (c s) as [s' [a|e]]. Qed.

Lemma wp_state {A} (c : PM A) (P : Paper G -> Prop) s : wp c (fun _ => P) (fun _ => P) s -> P (c s).1.
Proof. unfold wp. now destruct (c s) as [s' [a|e]]. Qed.

Lemma run_op_wf op s : offers_ok -> Paper_wf s -> Paper_wf (run_op op s).1.
Proof.
  intros Hoff Hw. destruct (market_op op) eqn:Em.
  - apply (evolves_wf s); [exact Hw|]. apply (wp_state (run_op op)), (Evolves_market_op op Em), evolves_refl; apply Hw.
  - destruct op; try discriminate Em; cbn [run_op]; rewrite unit_state; [|now apply query_wf|now apply cancel_wf].
    destruct (dict_get (oi_client_order_id intent) (pb_orders s)) as [o|] eqn:Ho.
    + now rewrite (submit_known _ _ _ _ Ho).
    + apply (wp_state (submit instruments profile ccy account_id intent timeout_ms) Paper_wf).
      eapply wp_mono; [now apply submit_spec|now intros r s' (? & _)|now intros e s' (? & _)].
Qed.

(** The states of a venue that opened with a balance. *)
Inductive paper_reachable : Paper G -> Prop :=
| paper_init balance start_ns rng : paper_reachable (open_paper ccy balance start_ns rng)
| paper_step op s : paper_reachable s -> paper_reachable (run_op op s).1.

Definition run_ops (ops : list PaperOp) s : Paper G := fold_left (fun s op => (run_op op s).1) ops s.

Lemma open_wf balance start_ns rng : Paper_wf (open_paper ccy balance start_ns rng).
Proof.
  constructor.
  - split; [constructor|]. intros k p Hin. now apply not_elem_of_nil in Hin.
  - split; [constructor|]. split; [constructor|cbn; lia].
  - split; [constructor|]. intros k p Hin. now apply not_elem_of_nil in Hin.
  - intros id. apply Nat.le_0_l.
Qed.

Lemma paper_reachable_wf s : offers_ok -> paper_reachable s -> Paper_wf s.
Proof. intros Hoff. induction 1; [apply open_wf|now apply run_op_wf]. Qed.

(** ** The log only grows *)

Definition grows s s' : Prop :=
  (pb_txn_seq s <= pb_txn_seq s')%Z /\
  exists new, pb_transactions s' = pb_transactions s ++ new /\ Forall (fun t => pb_txn_seq s < tx_id t)%Z new.

#[local] Instance grows_preorder : PreOrder grows.
Proof.
  split.
  - intros s. split; [lia|]. exists []. now rewrite app_nil_r.
  - intros a b c (H1 & n1 & E1 & F1) (H2 & n2 & E2 & F2). split; [lia|].
    exists (n1 ++ n2). split; [now rewrite E2, E1, app_assoc|]. apply List.Forall_app. split; [exact F1|].
    eapply List.Forall_impl; [|exact F2]. cbn. lia.
Qed.

Lemma grows_kept s s' : pb_transactions s' = pb_transactions s -> (pb_txn_seq s <= pb_txn_seq s')%Z -> grows s s'.
Proof. intros E H1. split; [exact H1|]. exists []. now rewrite app_nil_r. Qed.

Lemma grows_record kind id : Steps grows (record_txn kind id).
Proof.
  intros s. rewrite record_txn_eq. cbn [fst]. split; [cbn; lia|].
  eexists [_]. split; [reflexivity|]. constructor; [cbn; lia|constructor].
Qed.

Lemma grows_draw {A} (f : G -> G * A) : Steps grows (draw f).
Proof. intros s. unfold draw. destruct (f (pb_rng s)). apply grows_kept; [reflexivity|cbn; lia]. Qed.

Lemma grows_upd_order id f : Steps grows (upd_order id f).
Proof. intros s. apply grows_kept; [reflexivity|cbn; lia]. Qed.

Ltac grow :=
  repeat first
    [ progress steps
    | match goal with
      | |- Steps grows (modify _) => apply Steps_modify; intros ?; apply grows_kept; [reflexivity|cbn; lia]
      | |- Steps grows (record_txn _ _) => apply grows_record
      | |- Steps grows (draw _) => apply grows_draw
      | |- Steps grows (upd_order _ _) => apply grows_upd_order
      | |- Steps grows (put_position _ _) => unfold put_position
      end
    | solve [eauto with grow] ].
Create HintDb grow.

Lemma grows_slippage l : Steps grows (slippage_pips profile l).
Proof. unfold slippage_pips. grow. Qed.
Lemma grows_conv inst : Steps grows (conv ccy inst).
Proof. unfold conv. grow. Qed.
Lemma grows_mark ps : forall u m, Steps grows (mark_book instruments ccy ps u m).
Proof. induction ps as [|[k p] ps IH]; intros u m; cbn [mark_book]; grow. Qed.
#[local] Hint Resolve grows_slippage grows_conv grows_mark : grow.
Lemma grows_account : Steps grows (account instruments ccy account_id).
Proof. unfold account. grow. Qed.
Lemma grows_realise p inst px lots ts r e : Steps grows (realise profile ccy p inst px lots ts r e).
Proof. unfold realise. grow. Qed.
#[local] Hint Resolve grows_account grows_realise : grow.
Lemma grows_apply_fill f inst intent : Steps grows (apply_fill profile ccy f inst intent).
Proof. unfold apply_fill. grow. Qed.
Lemma grows_check_exits q : Steps grows (check_exits instruments profile ccy q).
Proof. unfold check_exits, track_excursions. grow. Qed.
Lemma grows_worst ps : forall w, Steps grows (worst_of instruments ccy ps w).
Proof. induction ps as [|[k p] ps IH]; intros w; cbn [worst_of]; grow. Qed.
#[local] Hint Resolve grows_apply_fill grows_check_exits grows_worst : grow.
Lemma grows_margin_loop n : Steps grows (margin_loop instruments profile ccy account_id n).
Proof. induction n as [|n IH]; cbn [margin_loop]; grow. Qed.
#[local] Hint Resolve grows_margin_loop : grow.
Lemma grows_on_quote q : Steps grows (on_quote instruments profile ccy account_id q).
Proof. unfold on_quote, apply_rollover, roll_to, roll_days, roll_day, charge_position, check_margin. grow. Qed.
Lemma grows_complete intent inst q lots h l : Steps grows (complete profile ccy intent inst q lots h l).
Proof. unfold complete. grow. Qed.
#[local] Hint Resolve grows_on_quote grows_complete : grow.

Lemma grows_op op : Steps grows (run_op op).
Proof.
  destruct op; cbn [run_op]; unfold set_time, set_news_window, set_conversion, on_bar_prices, mark_mid, spread_quote,
    spread_price, submit, margin_required, execute, latency_ms, rng_uniform, last_look_rejects, query_order, cancel,
    close_position, modify_position; grow.
Qed.

Lemma grows_ops ops : forall s, grows s (run_ops ops s).
Proof.
  unfold run_ops. induction ops as [|op ops IH]; intros s; cbn [fold_left]; [reflexivity|].
  etransitivity; [apply grows_op|apply IH].
Qed.
End Invariant.
