(* ===== verification/PaperProps.v ===== *)
(** The properties of the simulated venue: termination of the margin close-out,
    the log as a history that can be resumed, stops that only tighten, bars
    replayed against the position, carry that does not depend on when it is
    charged. *)

From Stdlib Require Import ZArith QArith Lia Lqa SpecFloat Sorting.
From stdpp Require Import base strings list.
From S2P Require Import Prelude PyDecimal DecimalTheory Money Types Calendar TzRules PyFloat StateExn PyDict Venue.
From S2P Require Import Paper PaperInv.

Local Open Scope dec_scope.
Local Open Scope py_scope.

(** ** The exceptions of the venue *)

(** What arithmetic, the calendar, a missing key or a missing conversion raise. *)
Definition data_error (e : exn) : Prop :=
  match e with
  | ValueError | KeyError | InvalidOperation | DivisionByZero | OverflowError | ConversionMissingError => True
  | _ => False
  end.

Create HintDb raises.

Lemma ddiv_raises a b e : ddiv a b = Raise e -> data_error e.
Proof.
  unfold ddiv, div_. destruct (is_zero b); [destruct (is_zero a); intros [= <-]; exact I|].
  destruct (is_zero a); [discriminate|]. cbv zeta. destruct (_ =? 0)%Z; discriminate.
Qed.

Lemma quantize_raises v ex m e : quantize v ex m = Raise e -> data_error e.
Proof.
  unfold quantize. destruct (dleb ex 0); [intros [= <-]; exact I|].
  destruct (div_ 34 v ex) as [q|e'] eqn:Eq; cbn [rbind].
  - unfold quantize_. destruct (is_zero _); [discriminate|]. destruct (_ <? _)%Z; [intros [= <-]; exact I|].
    destruct (_ <? _)%Z; [intros [= <-]; exact I|discriminate].
  - intros [= <-]. revert Eq. unfold div_. destruct (is_zero ex); [destruct (is_zero v); intros [= <-]; exact I|].
    destruct (is_zero v); [discriminate|]. cbv zeta. destruct (_ =? 0)%Z; discriminate.
Qed.

Lemma round_price_raises i p e : round_price i p = Raise e -> data_error e.
Proof. apply quantize_raises. Qed.

Lemma round_lots_raises i l e : round_lots_down i l = Raise e -> data_error e.
Proof.
  unfold round_lots_down. destruct (dleb l 0); [discriminate|].
  destruct (ddiv l _) as [q|e'] eqn:E; cbn [rbind]; [apply quantize_raises|intros [= <-]; eapply ddiv_raises, E].
Qed.

Lemma instrument_raises ins k e : instrument_of ins k = Raise e -> data_error e.
Proof. unfold instrument_of. destruct (dict_get k ins); [discriminate|intros [= <-]; exact I]. Qed.

Lemma dec_round_raises x n e : dec_round x n = Raise e -> data_error e.
Proof. unfold dec_round. destruct (round_digits x n); [discriminate|intros [= <-]; exact I]. Qed.

Lemma conversion_raises {G} (s : Paper G) a b e : conversion_rate s a b = Raise e -> data_error e.
Proof.
  unfold conversion_rate. case_bool_decide; [discriminate|]. destruct (dict_get _ _); [discriminate|].
  destruct (dict_get _ _) as [r|]; [|intros [= <-]; exact I]. destruct (deqb r 0); [intros [= <-]; exact I|].
  apply ddiv_raises.
Qed.

Lemma margin_above_raises a b e : margin_above a b = Raise e -> data_error e.
Proof.
  unfold margin_above, margin_level_pct. destruct (dleb _ 0); [discriminate|].
  destruct (ddiv _ _) as [l|e'] eqn:E; [discriminate|]. intros [= <-]. eapply ddiv_raises, E.
Qed.
#[export] Hint Resolve ddiv_raises round_price_raises round_lots_raises instrument_raises dec_round_raises
  conversion_raises margin_above_raises : raises.

Section Props.
Context {G : Type} `{!Random G}.
Variable instruments : list (string * Instrument).
Variable profile : SimProfile.
Variable ccy : string.
Variable account_id : string.
Implicit Types s : Paper G.

Lemma draw_raises {A} (f : G -> G * A) : Raises data_error (draw f).
Proof. intros s e. unfold draw. destruct (f (pb_rng s)). discriminate. Qed.
#[local] Hint Resolve draw_raises : raises.
#[local] Hint Extern 1 (data_error _) => exact I : raises.

Ltac raise := repeat first [raises_step | solve [eauto with raises]].

Lemma mark_raises ps : forall u m, Raises data_error (mark_book (G := G) instruments ccy ps u m).
Proof. induction ps as [|[k p] ps IH]; intros u m; cbn [mark_book]; raise. Qed.
#[local] Hint Resolve mark_raises : raises.
Lemma account_raises : Raises data_error (account (G := G) instruments ccy account_id).
Proof. unfold account. raise. Qed.
Lemma record_raises kind id : Raises data_error (record_txn (G := G) kind id).
Proof. unfold record_txn. raise. Qed.
Lemma conv_raises inst : Raises data_error (conv (G := G) ccy inst).
Proof. unfold conv. raise. Qed.
Lemma slippage_raises l : Raises data_error (slippage_pips profile l).
Proof. unfold slippage_pips. raise. Qed.
#[local] Hint Resolve account_raises record_raises conv_raises slippage_raises : raises.
Lemma realise_raises p inst px lots ts r e : Raises data_error (realise (G := G) profile ccy p inst px lots ts r e).
Proof. unfold realise. raise. Qed.
#[local] Hint Resolve realise_raises : raises.
Lemma worst_raises ps : forall w, Raises data_error (worst_of (G := G) instruments ccy ps w).
Proof. induction ps as [|[k p] ps IH]; intros w; cbn [worst_of]; raise. Qed.
#[local] Hint Resolve worst_raises : raises.
Lemma apply_fill_raises f inst intent : Raises data_error (apply_fill (G := G) profile ccy f inst intent).
Proof. unfold apply_fill, put_position. raise. Qed.
#[local] Hint Resolve apply_fill_raises : raises.
Lemma complete_raises intent inst q lots h l : Raises data_error (complete profile ccy intent inst q lots h l).
Proof. unfold complete, upd_order. raise. Qed.
#[local] Hint Resolve complete_raises : raises.

Lemma margin_required_raises inst q lots : Raises data_error (margin_required (G := G) ccy inst q lots).
Proof.
  intros s e. unfold margin_required, attempt, conv, mbind_, gets, lift, ret, throw.
  destruct (conversion_rate s (inst_quote inst) ccy) as [c|e'] eqn:E; [discriminate|].
  apply conversion_raises in E. destruct e'; try discriminate; now intros [= <-].
Qed.
#[local] Hint Resolve margin_required_raises : raises.

(** A submission raises nothing an order manager takes for an answer. *)
Lemma submit_raises intent t : Raises data_error (submit instruments profile ccy account_id intent t).
Proof.
  unfold submit, execute, latency_ms, rng_uniform, last_look_rejects, upd_order. raise.
Qed.

(** ** What a close does *)

(** The prices and conversions the venue works with are not touched. *)
Definition same_market s s' : Prop :=
  pb_quotes s' = pb_quotes s /\ pb_conversions s' = pb_conversions s /\ pb_now_ns s' = pb_now_ns s /\
  pb_last_rollover_day s' = pb_last_rollover_day s.

(** One closed trade for these lots, and the position reduced by them. *)
Definition closes (p : Position) (px lots : decimal) (reason : string) s s' : Prop :=
  (exists t, pb_closed s' = pb_closed s ++ [t] /\ ct_instrument t = pos_instrument p /\
     ct_side t = pos_side p /\ ct_lots t = lots /\ ct_exit_price t = px /\ ct_exit_reason t = reason) /\
  (exists p', pos_instrument p' = pos_instrument p /\ pos_side p' = pos_side p /\
     pos_stop_loss p' = pos_stop_loss p /\ pos_lots p' = pos_lots p - lots /\
     pb_positions s' = if pos_lots p' <=? 0 then dict_del (pos_instrument p) (pb_positions s)
                       else dict_set (pos_instrument p) p' (pb_positions s)).

Lemma realise_spec p inst px lots ts reason extra s :
  wp (realise profile ccy p inst px lots ts reason extra)
    (fun _ s' => closes p px lots reason s s' /\ same_market s s') (fun _ s' => same_market s s') s.
Proof.
  unfold realise, conv, record_txn. wps; try (repeat split; reflexivity).
  all: split; [|repeat split; reflexivity].
  all: split; [eexists; repeat split; reflexivity|].
  all: eexists (pos_reduced _ _ _ _ _ p); repeat split; reflexivity.
Qed.

Lemma dec_sub_self x : (x - x <=? 0) = true.
Proof.
  apply dleb_spec. apply (Rounded_nonpos (p := prec) (dval x - dval x)); [unfold prec; lia|lra|apply dsub_R].
Qed.

(** Closing all of a held position removes it. *)
Lemma closes_all p px reason s s' :
  closes p px (pos_lots p) reason s s' -> pb_positions s' = dict_del (pos_instrument p) (pb_positions s).
Proof. intros [_ (p' & _ & _ & _ & El & ->)]. now rewrite El, dec_sub_self. Qed.

(** ** The margin close-out *)

(** The worst position is one of the book, and has a quote. *)
Lemma worst_of_elem ps : forall w s,
  wp (worst_of instruments ccy ps w)
    (fun r s' => s' = s /\
       match r with
       | Some (p, _) => w = r \/ (exists k, (k, p) ∈ ps) /\ is_Some (dict_get (pos_instrument p) (pb_quotes s))
       | None => w = None /\ forall k p, (k, p) ∈ ps -> dict_get (pos_instrument p) (pb_quotes s) = None
       end) (fun _ _ => True) s.
Proof.
  induction ps as [|[k p] ps IH]; intros w s; cbn [worst_of]; unfold conv; wps; try exact I.
  - split; [reflexivity|]. destruct w as [[p x]|]; [now left|]. split; [reflexivity|].
    intros k p Hin. now apply not_elem_of_nil in Hin.
  - eapply wp_mono; [apply IH| |auto]. intros r s' [-> Hr]. split; [reflexivity|].
    set (pnl := unrealised p q a a0) in *.
    assert (Hpk : (exists k0, (k0, p) ∈ (k, p) :: ps) /\ is_Some (dict_get (pos_instrument p) (pb_quotes s)))
      by (split; [exists k; left|rewrite E; eauto]).
    destruct r as [[p1 x1]|]; [|now destruct w as [[w0 x0]|]; [destruct (dltb pnl x0)|]; destruct Hr].
    destruct Hr as [Hr|([k1 Hin] & Hq)]; [|right; split; [exists k1; now right|exact Hq]].
    destruct w as [[w0 x0]|]; [destruct (dltb pnl x0)|]; try (now left); injection Hr as <- <-; now right.
  - eapply wp_mono; [apply IH| |auto]. intros r s' [-> Hr]. split; [reflexivity|].
    destruct r as [[p1 x1]|].
    + destruct Hr as [Hr|([k1 Hin] & Hq)]; [now left|]. right. split; [exists k1; now right|exact Hq].
    + destruct Hr as [Hw Hr]. split; [exact Hw|]. intros k' p' [[= -> ->]|Hin]%elem_of_cons; [exact E|eauto].
Qed.

(** Reading the account marks the book; it does not change it. *)
Definition same_book s s' : Prop :=
  pb_positions s' = pb_positions s /\ pb_closed s' = pb_closed s /\ pb_balance s' = pb_balance s /\ same_market s s'.
#[local] Instance same_book_preorder : PreOrder same_book.
Proof. split; unfold same_book, same_market; [now repeat split|]. intros a b c. intuition congruence. Qed.

Lemma same_book_mark ps : forall u m, Steps same_book (mark_book instruments ccy ps u m).
Proof.
  induction ps as [|[k p] ps IH]; intros u m; cbn [mark_book]; steps; try apply IH.
  apply Steps_modify. now repeat split.
Qed.

Lemma same_book_account : Steps same_book (account instruments ccy account_id).
Proof. unfold account. steps; try apply same_book_mark; apply Steps_modify; now repeat split. Qed.

(** The account as it was read into the state [s]. *)
Definition account_at s (acct : AccountState) : Prop :=
  exists s0, account instruments ccy account_id s0 = (s, Ok acct).

(** The close-out is done: the level is above the call level, or nothing is left
    that has a price. *)
Definition closed_out s : Prop :=
  (exists acct, account_at s acct /\ margin_above acct (sp_margin_call_level_pct profile) = Ok true) \/
  (forall k p, (k, p) ∈ pb_positions s -> dict_get (pos_instrument p) (pb_quotes s) = None).

Lemma margin_loop_spec n : forall s,
  book_ok instruments s -> log_ok s -> (length (pb_positions s) <= n)%nat ->
  wp (margin_loop instruments profile ccy account_id n) (fun _ s' => closed_out s') (fun e _ => data_error e) s.
Proof.
  induction n as [|n IH]; intros s Hb Hl Hn; cbn [margin_loop]; wp_step; wp_step; cbv beta.
  - destruct (pb_positions s) as [|kp ps] eqn:Ep; [|cbn in Hn; lia]. apply wp_ret. right. intros k p.
    rewrite Ep. intros Hin. now apply not_elem_of_nil in Hin.
  - destruct (pb_positions s) as [|kp ps] eqn:Ep.
    { apply wp_ret. right. intros k p. rewrite Ep. intros Hin. now apply not_elem_of_nil in Hin. }
    rewrite <- Ep in *. clear kp ps Ep. apply wp_bind.
    eapply wp_mono; [apply wp_and; [apply (worst_of_elem (pb_positions s) None s)|apply wp_Raises, worst_raises]| |intros e s1 [_ He]; exact He].
    intros [[p x]|] s1 [[-> Hw] _]; [|apply wp_ret; right; apply Hw]. cbv iota beta.
    destruct Hw as [Hw|([k Hin] & [q Hq])]; [discriminate|]. wp_step. wp_step. cbv beta. rewrite Hq. wp_step.
    wp_step; [|eauto with raises]. rename a into inst.
    pose proof (proj2 Hb k p Hin) as Hp. pose proof (proj1 Hp) as Ek. subst k.
    assert (Hev : evolves instruments s s) by now apply evolves_refl.
    apply wp_bind. eapply wp_mono; [apply wp_and; [apply wp_and; [apply realise_spec|]|]| |].
    { apply (wp_Raises data_error), realise_raises. }
    { apply (Evolves_realise instruments profile ccy p inst _ _ _ _ _ (pos_ok_self _ _ _ Hp) s s Hev). }
    2: { intros e s1 [[_ He] _]. exact He. }
    intros [] s1 [[[Hc Hm] _] H1]. apply closes_all in Hc. apply wp_bind.
    eapply wp_mono; [apply wp_and; [apply wp_and; [apply wp_self|apply (wp_Raises data_error), account_raises]|]| |].
    { apply wp_and; [apply (wp_Steps same_book), same_book_account|].
      exact (Evolves_account instruments ccy account_id s s1 H1). }
    2: { intros e s2 [[_ He] _]. exact He. }
    intros acct s2 [[Ha _] [Hsame H2]]. cbv beta. apply wp_bind. wp_step; [|eauto with raises].
    destruct a.
    + apply wp_ret. left. exists acct. split; [now exists s1|assumption].
    + apply IH; [apply (ev_book _ _ _ H2)|apply (ev_log _ _ _ H2)|]. rewrite (proj1 Hsame), Hc.
      assert (Hd : dict_get (pos_instrument p) (pb_positions s) = Some p) by (apply dict_get_In; [apply Hb|now apply list_elem_of_In]).
      pose proof (dict_del_shorter (pos_instrument p) (pb_positions s)) as Hs. rewrite Hd in Hs. specialize (Hs ltac:(eauto)). lia.
Qed.

(** The margin close-out terminates on every well-formed book: the loop
    closes one position a turn, never runs past the number of positions, and
    when it returns the margin level is above the call level or no open position
    has a price left. *)
Theorem margin_loop_closes_out s n :
  Paper_wf instruments s -> (length (pb_positions s) <= n)%nat ->
  match margin_loop instruments profile ccy account_id n s with
  | (s', Ok tt) => closed_out s'
  | (_, Raise e) => data_error e
  end.
Proof.
  intros Hw Hn. pose proof (margin_loop_spec n s (wf_book _ _ Hw) (wf_log _ _ Hw) Hn) as H. unfold wp in H.
  now destruct (margin_loop _ _ _ _ n s) as [s' [[]|e]].
Qed.

(** ** The book *)

(** C39: whatever is asked of the venue, and whether it returns or raises, each
    position it holds is filed once, under its own instrument, an instrument on
    offer, and holds a positive size; each order it holds is filed once, under its
    own id, with at most one fill, none if it was rejected; the transaction ids
    increase strictly; and every execution in the log belongs to an order that
    has the fill, so no order is executed twice. *)
Theorem paper_stays_sound s :
  offers_ok instruments profile -> paper_reachable instruments profile ccy account_id s ->
  NoDup (map fst (pb_positions s)) /\
  (forall k p, (k, p) ∈ pb_positions s ->
     pos_instrument p = k /\ is_Some (dict_get k instruments) /\ (0 < dval (pos_lots p))%Q) /\
  NoDup (map fst (pb_orders s)) /\
  (forall k o, (k, o) ∈ pb_orders s ->
     oi_client_order_id (o_intent o) = k /\ (length (o_fills o) <= 1)%nat /\
     (o_state o = REJECTED -> o_fills o = []) /\ Forall (fun f => fill_client_order_id f = k) (o_fills o)) /\
  StronglySorted Z.lt (map tx_id (pb_transactions s)) /\
  forall id, (executions id (pb_transactions s) <= length (fills_of id (pb_orders s)) <= 1)%nat.
Proof.
  intros Hoff Hr. destruct (paper_reachable_wf _ _ _ _ _ Hoff Hr) as [[B1 B2] (L1 & _) [O1 O2] X].
  split; [exact B1|]. split; [exact B2|]. split; [exact O1|]. split; [exact O2|]. split; [exact L1|].
  intros id. split; [apply X|]. unfold fills_of. destruct (dict_get id (pb_orders s)) as [o|] eqn:Eo; [|cbn; lia].
  apply (O2 id o (dict_get_elem _ _ _ Eo)).
Qed.

(** ** The log *)

Lemma filter_all {A} (f : A -> bool) xs : Forall (fun x => f x = true) xs -> List.filter f xs = xs.
Proof. induction 1 as [|x xs Hx _ IH]; cbn; [reflexivity|]. now rewrite Hx, IH. Qed.
Lemma filter_none {A} (f : A -> bool) xs : Forall (fun x => f x = false) xs -> List.filter f xs = [].
Proof. induction 1 as [|x xs Hx _ IH]; cbn; [reflexivity|]. now rewrite Hx. Qed.

(** Whatever the venue does after a moment, the transactions since that
    moment's counter are exactly the ones recorded after it, in order, with
    strictly increasing ids; from the start, they are the whole log. *)
Theorem transactions_resume s ops :
  offers_ok instruments profile -> paper_reachable instruments profile ccy account_id s ->
  let s' := run_ops instruments profile ccy account_id ops s in
  exists new, pb_transactions s' = pb_transactions s ++ new /\
    transactions_since (At (pb_txn_seq s)) s' = new /\
    StronglySorted Z.lt (map tx_id (pb_transactions s ++ new)) /\
    transactions_since NoCursor s' = pb_transactions s'.
Proof.
  intros Hoff Hr s'. destruct (paper_reachable_wf _ _ _ _ _ Hoff Hr) as [_ (Hs & Hb & H0) _ _].
  destruct (grows_ops instruments profile ccy account_id ops s) as (Hq & new & En & Fn). fold s' in En, Hq.
  assert (Hs' : StronglySorted Z.lt (map tx_id (pb_transactions s')) /\ Forall (fun t => 0 < tx_id t)%Z (pb_transactions s')).
  { assert (Hr' : paper_reachable instruments profile ccy account_id s').
    { unfold s', run_ops. clear -Hr. revert s Hr. induction ops as [|op ops IH]; intros s Hr; cbn [fold_left]; [exact Hr|].
      apply IH. now constructor. }
    destruct (paper_reachable_wf _ _ _ _ _ Hoff Hr') as [_ (H1 & H2 & _) _ _]. split; [exact H1|].
    eapply List.Forall_impl; [|exact H2]. cbn. lia. }
  destruct Hs' as [H1 H2]. exists new. split; [exact En|]. split; [|split].
  - unfold transactions_since. rewrite En, List.filter_app, filter_none, filter_all; [reflexivity| |].
    + eapply List.Forall_impl; [|exact Fn]. cbn. intros t. apply Z.ltb_lt.
    + eapply List.Forall_impl; [|exact Hb]. cbn. intros t. rewrite Z.ltb_ge. lia.
  - now rewrite <- En.
  - apply filter_all. eapply List.Forall_impl; [|exact H2]. cbn. intros t. apply Z.ltb_lt.
Qed.

(** ** Stops *)

(** The stop in force is no looser than before. *)
Definition no_looser (side : Side) (old : option decimal) (new : option decimal) : Prop :=
  match old, new with
  | Some o, Some n => match side with BUY => dval o <= dval n | SELL => dval n <= dval o end
  | Some _, None => False
  | None, _ => True
  end%Q.

(** A request to move a stop is refused, and changes nothing, exactly when
    the stop it asks for rounds to a looser price than the one in force; an accepted one
    leaves a confirmed stop at the rounded price, no looser than before, on a
    position otherwise unchanged, and touches no other position. *)
Theorem modify_stop_spec s k p inst stop new :
  dict_get k (pb_positions s) = Some p -> dict_get k instruments = Some inst ->
  round_price inst stop = Ok new ->
  if match pos_stop_loss p with Some old => widens (pos_side p) old new | None => false end
  then modify_position instruments k (Some stop) None s = (s, Raise PermanentError)
       /\ ~ no_looser (pos_side p) (pos_stop_loss p) (Some new)
  else exists s', modify_position instruments k (Some stop) None s = (s', Ok true) /\
    pb_positions s' = dict_set k (pos_set_targets (Some new) (pos_take_profit p) true p) (pb_positions s) /\
    no_looser (pos_side p) (pos_stop_loss p) (Some new) /\
    pb_orders s' = pb_orders s /\ pb_balance s' = pb_balance s /\ pb_closed s' = pb_closed s.
Proof.
  intros Hp Hi Hr. unfold modify_position, mbind_, gets, instrument_of, lift, put_position, modify. rewrite Hp, Hi, Hr.
  destruct (match pos_stop_loss p with Some old => widens (pos_side p) old new | None => false end) eqn:Ew.
  - destruct (pos_stop_loss p) as [old|] eqn:Es; [|discriminate]. rewrite Ew. split; [reflexivity|].
    unfold no_looser. unfold widens, is_buy in Ew. destruct (pos_side p); apply dltb_spec in Ew; lra.
  - assert (Hn : no_looser (pos_side p) (pos_stop_loss p) (Some new)).
    { unfold no_looser. destruct (pos_stop_loss p) as [old|]; [|exact I].
      unfold widens, is_buy in Ew. destruct (pos_side p); now apply dltb_false in Ew. }
    destruct (pos_stop_loss p) as [old|]; [rewrite Ew|];
      (eexists; split; [reflexivity|]; repeat split; try exact Hn).
Qed.

(** ** Carry *)

Definition at_day (d : Z) : Paper G -> Paper G := upd_last_rollover_day (fun _ => Some d).

(** A computation that neither reads nor writes the day of the last rollover. *)
Definition day_blind (c : PM unit) : Prop := forall d s, c (at_day d s) = (at_day d (c s).1, (c s).2).

Lemma day_blind_bind c k : day_blind c -> day_blind k -> day_blind (c ;! k).
Proof.
  intros Hc Hk d s. unfold mbind_. rewrite Hc. destruct (c s) as [s' [[]|e]]; cbn [fst snd]; [apply Hk|reflexivity].
Qed.

Lemma day_blind_each {A} (f : A -> PM unit) xs : (forall x, day_blind (f x)) -> day_blind (each f xs).
Proof.
  intros Hf. induction xs as [|x xs IH]; cbn [each]; [intros d s; reflexivity|]. now apply day_blind_bind.
Qed.

Lemma day_blind_charge m kp : day_blind (charge_position instruments profile ccy m kp).
Proof.
  intros d s. unfold charge_position, conv, mbind_, gets, lift, put_position, modify.
  destruct (instrument_of instruments (pos_instrument kp.2)) as [inst|e]; [|reflexivity].
  change (conversion_rate (at_day d s)) with (conversion_rate s).
  destruct (conversion_rate s (inst_quote inst) ccy); reflexivity.
Qed.

Lemma day_blind_roll_day day : day_blind (roll_day instruments profile ccy day).
Proof.
  unfold roll_day. destruct (swap_multiplier profile day) as [m|]; [|intros d s; reflexivity].
  intros d s. unfold mbind_ at 1 3 5, gets. change (pb_positions (at_day d s)) with (pb_positions s).
  apply (day_blind_bind (each _ (pb_positions s))); [|intros d' s'; reflexivity].
  apply day_blind_each. intros kp. apply day_blind_charge.
Qed.

Lemma day_blind_roll_days days : day_blind (roll_days instruments profile ccy days).
Proof. apply day_blind_each, day_blind_roll_day. Qed.

(** Charging carry removes no position. *)
Definition holds s : Prop := pb_positions s <> [].

Lemma holds_roll_days days : Steps (keeps holds) (roll_days instruments profile ccy days).
Proof.
  assert (Hset : forall k (p : Position) d, dict_set k p d <> []) by (intros k p [|[k' v] d]; cbn; [discriminate|]; now case_bool_decide).
  unfold roll_days, roll_day, charge_position, conv, put_position, record_txn. steps;
    apply Steps_modify; intros s Hs; try exact Hs; apply Hset.
Qed.

Lemma pending_days_split a b c : (a <= b <= c)%Z -> pending_days a c = pending_days a b ++ pending_days b c.
Proof.
  intros H. unfold pending_days. replace (Z.to_nat (c - a)) with (Z.to_nat (b - a) + Z.to_nat (c - b))%nat by lia.
  rewrite seq_app, map_app. f_equal. cbn [Nat.add]. rewrite <- (Nat.add_0_r (Z.to_nat (b - a))) at 1.
  generalize (Z.to_nat (c - b)) as n, O as k. induction n as [|n IH]; intros k; cbn [seq map]; [reflexivity|].
  f_equal; [lia|]. rewrite <- Nat.add_succ_r. apply IH.
Qed.

Lemma roll_days_app xs ys s :
  roll_days instruments profile ccy (xs ++ ys) s =
  (roll_days instruments profile ccy xs ;! roll_days instruments profile ccy ys) s.
Proof. apply each_app. Qed.

Lemma roll_to_eq s d0 day :
  pb_last_rollover_day s = Some d0 ->
  roll_to instruments profile ccy day s =
    if (day <=? d0)%Z then (s, Ok tt)
    else if bool_decide (pb_positions s = []) then (at_day day s, Ok tt)
    else let '(s', r) := roll_days instruments profile ccy (pending_days d0 day) s in (at_day day s', r).
Proof.
  intros Hd. unfold roll_to, mbind_, gets, modify, ret. rewrite Hd. destruct (day <=? d0)%Z; [reflexivity|].
  case_bool_decide as E; [reflexivity|]. change (upd_last_rollover_day (fun _ => Some day) s) with (at_day day s).
  rewrite day_blind_roll_days. now destruct (roll_days _ _ _ _ s).
Qed.

(** The carry charged does not depend on when the venue looks at the clock:
    rolling the book to one value date and then to a later one charges, day by
    day, what rolling it to the later one at once does, and ends in the same
    state; if a charge cannot be computed, both raise the same exception. *)
Theorem rollover_path_independent s d0 d1 d2 :
  pb_last_rollover_day s = Some d0 -> (d0 <= d1 <= d2)%Z ->
  match (roll_to instruments profile ccy d1 ;! roll_to instruments profile ccy d2) s,
        roll_to instruments profile ccy d2 s with
  | (s1, Ok _), (s2, Ok _) => s1 = s2
  | (_, Raise e1), (_, Raise e2) => e1 = e2
  | _, _ => False
  end.
Proof.
  intros Hd Hle. unfold mbind_. rewrite (roll_to_eq s d0 d1 Hd), (roll_to_eq s d0 d2 Hd).
  destruct (Z.leb_spec d1 d0) as [H1|H1].
  { rewrite (roll_to_eq s d0 d2 Hd). destruct (d2 <=? d0)%Z; [reflexivity|]. case_bool_decide; [reflexivity|].
    now destruct (roll_days _ _ _ _ s) as [s' [[]|e]]. }
  destruct (Z.leb_spec d2 d0) as [H2|H2]; [lia|].
  case_bool_decide as Ep.
  { rewrite (roll_to_eq (at_day d1 s) d1 d2 eq_refl). destruct (Z.leb_spec d2 d1); [now replace d2 with d1 by lia|].
    rewrite bool_decide_eq_true_2 by exact Ep. reflexivity. }
  rewrite (pending_days_split d0 d1 d2 Hle), roll_days_app. unfold mbind_.
  pose proof (holds_roll_days (pending_days d0 d1) s Ep) as Hh.
  destruct (roll_days instruments profile ccy (pending_days d0 d1) s) as [s1 [[]|e]]; [|reflexivity].
  rewrite (roll_to_eq (at_day d1 s1) d1 d2 eq_refl). cbn [fst] in Hh.
  destruct (Z.leb_spec d2 d1) as [H3|H3].
  { replace d2 with d1 by lia. unfold pending_days. now rewrite Z.sub_diag. }
  rewrite bool_decide_eq_false_2 by exact Hh. rewrite day_blind_roll_days.
  now destruct (roll_days instruments profile ccy (pending_days d1 d2) s1) as [s2 [[]|e]].
Qed.

(** ** Bars *)

(** What decides how a position is closed. *)
Definition same_plan (p p' : Position) : Prop :=
  pos_instrument p' = pos_instrument p /\ pos_side p' = pos_side p /\
  pos_stop_loss p' = pos_stop_loss p /\ pos_take_profit p' = pos_take_profit p.

Definition trades_on (k : string) s : list ClosedTrade :=
  List.filter (fun t => bool_decide (ct_instrument t = k)) (pb_closed s).

(** The position on [k], if any, is still there to the same plan. *)
Definition plan_kept (k : string) s s' : Prop :=
  trades_on k s' = trades_on k s /\
  match dict_get k (pb_positions s), dict_get k (pb_positions s') with
  | Some p, Some p' => same_plan p p'
  | None, None => True
  | _, _ => False
  end.

Definition stop_reason (r : string) : Prop := r = "stop_loss"%string \/ r = "margin_stop_out"%string.

(** It was closed, by one trade, at its stop or by the margin close-out. *)
Definition stopped (k : string) s s' : Prop :=
  is_Some (dict_get k (pb_positions s)) /\ dict_get k (pb_positions s') = None /\
  exists t, trades_on k s' = trades_on k s ++ [t] /\ stop_reason (ct_exit_reason t).

Definition fate k s s' : Prop := plan_kept k s s' \/ stopped k s s'.

Lemma same_plan_trans p1 p2 p3 : same_plan p1 p2 -> same_plan p2 p3 -> same_plan p1 p3.
Proof. unfold same_plan. intuition congruence. Qed.

Lemma plan_kept_same k s s' :
  pb_positions s' = pb_positions s -> pb_closed s' = pb_closed s -> plan_kept k s s'.
Proof.
  unfold plan_kept, trades_on. intros -> ->. split; [reflexivity|]. destruct (dict_get k _); [now repeat split|exact I].
Qed.

#[local] Instance plan_kept_preorder k : PreOrder (plan_kept k).
Proof.
  split; [intros s; now apply plan_kept_same|]. intros a b c [E1 H1] [E2 H2]. split; [congruence|].
  destruct (dict_get k (pb_positions a)), (dict_get k (pb_positions b)), (dict_get k (pb_positions c)); try contradiction; auto.
  eapply same_plan_trans; eassumption.
Qed.

#[local] Instance fate_preorder k : PreOrder (fate k).
Proof.
  split; [intros s; left; reflexivity|]. intros a b c [H1|H1] [H2|H2].
  - left. etransitivity; eassumption.
  - right. destruct H1 as [E1 H1], H2 as ([p Hp] & H2 & t & Et & Hr). rewrite Hp in H1. split; [|split; [exact H2|]].
    + destruct (dict_get k (pb_positions a)); [eauto|contradiction].
    + exists t. split; [congruence|exact Hr].
  - right. destruct H1 as (Ha & H1 & t & Et & Hr), H2 as [E2 H2]. rewrite H1 in H2. split; [exact Ha|]. split.
    + destruct (dict_get k (pb_positions c)); [contradiction|reflexivity].
    + exists t. split; [congruence|exact Hr].
  - destruct H1 as (_ & H1 & _), H2 as ([p Hp] & _). congruence.
Qed.

(** What happens elsewhere in the book does not matter. *)
Lemma plan_kept_put k s k1 p1 :
  (k1 = k -> exists p, dict_get k (pb_positions s) = Some p /\ same_plan p p1) ->
  plan_kept k s (upd_positions (dict_set k1 p1) s).
Proof.
  intros Hp. split; [reflexivity|]. cbn. rewrite dict_get_set. case_bool_decide as E.
  - subst k1. destruct (Hp eq_refl) as (p & -> & H1). exact H1.
  - destruct (dict_get k _); [now repeat split|exact I].
Qed.

(** Closing all of a position: of another one, or of this one for its stop. *)
Lemma closes_fate k p px reason s s' :
  book_ok instruments s -> dict_get (pos_instrument p) (pb_positions s) = Some p ->
  closes p px (pos_lots p) reason s s' -> stop_reason reason ->
  fate k s s' /\ (pos_instrument p = k -> stopped k s s').
Proof.
  intros Hb Hp Hc Hr. pose proof (closes_all _ _ _ _ _ Hc) as Hd. destruct Hc as [(t & Et & Hti & _ & _ & _ & Hre) _].
  destruct (decide (pos_instrument p = k)) as [Ek|Hne].
  - assert (Hs : stopped k s s'); [|split; [now right|auto]]. split; [rewrite <- Ek, Hp; eauto|]. split.
    + rewrite Hd, dict_get_del by apply Hb. rewrite Ek. now rewrite bool_decide_eq_true_2.
    + exists t. rewrite Hre. split; [|exact Hr]. unfold trades_on. rewrite Et, List.filter_app. cbn.
      now rewrite bool_decide_eq_true_2 by congruence.
  - split; [left|contradiction]. split.
    + unfold trades_on. rewrite Et, List.filter_app. cbn. rewrite bool_decide_eq_false_2 by congruence. apply app_nil_r.
    + rewrite Hd, dict_get_del, bool_decide_eq_false_2 by (apply Hb || congruence).
      destruct (dict_get k (pb_positions s)); [now repeat split|exact I].
Qed.

Lemma plan_kept_record k kind id : Steps (plan_kept k) (record_txn kind id).
Proof. intros s. now apply plan_kept_same. Qed.
Lemma plan_kept_book k s s' : same_book s s' -> plan_kept k s s'.
Proof. intros (H1 & H2 & _). now apply plan_kept_same. Qed.
Lemma plan_kept_draw k {A} (f : G -> G * A) : Steps (plan_kept k) (draw f).
Proof. intros s. unfold draw. destruct (f (pb_rng s)). now apply plan_kept_same. Qed.
Lemma plan_kept_slippage k l : Steps (plan_kept k) (slippage_pips profile l).
Proof. unfold slippage_pips. steps; apply plan_kept_draw. Qed.

(** A book entry of the state a loop started from, in a state that kept it. *)
Lemma plan_kept_entry k s1 s2 k1 p1 :
  book_ok instruments s1 -> (k1, p1) ∈ pb_positions s1 -> plan_kept k s1 s2 -> k1 = k ->
  exists p, dict_get k (pb_positions s2) = Some p /\ same_plan p p1.
Proof.
  intros Hb Hin [_ H2] ->. assert (E : dict_get k (pb_positions s1) = Some p1) by (apply dict_get_In; [apply Hb|now apply list_elem_of_In]).
  rewrite E in H2. destruct (dict_get k (pb_positions s2)) as [p|]; [|contradiction]. exists p. split; [reflexivity|].
  unfold same_plan in *. intuition congruence.
Qed.

Lemma plan_kept_balance k f s : plan_kept k s (upd_balance f s).
Proof. now apply plan_kept_same. Qed.

Lemma plan_kept_roll_day k d s :
  book_ok instruments s -> wp (roll_day instruments profile ccy d) (fun _ s' => plan_kept k s s') (fun _ s' => plan_kept k s s') s.
Proof.
  intros Hb. unfold roll_day. wps; [|reflexivity].
  apply (wp_mono _ (fun _ s' => plan_kept k s s') _ (fun _ s' => plan_kept k s s')); [| |auto].
  - apply wp_each; [|reflexivity]. intros [k1 p1] s1 Hin H1. unfold charge_position, conv, put_position. wps; try exact H1.
    etransitivity; [exact H1|]. etransitivity; [apply plan_kept_balance|].
    apply plan_kept_put. cbn [fst snd]. intros Ek. exact (plan_kept_entry k s s1 k1 p1 Hb Hin H1 Ek).
  - intros [] s1 H1. unfold wp. rewrite record_txn_eq. etransitivity; [exact H1|]. now apply plan_kept_same.
Qed.

(** A well-formed state, and a computation that leads to one by a fate of [k]. *)
Definition sound s : Prop := evolves instruments s s.
Definition Fated {A} (k : string) (c : PM A) (Q : A -> Paper G -> Paper G -> Prop) : Prop :=
  forall s, sound s -> wp c (fun a s' => sound s' /\ fate k s s' /\ Q a s s') (fun _ _ => True) s.

Lemma sound_evolves s s' : evolves instruments s s' -> sound s'.
Proof. intros []. now apply evolves_refl. Qed.

Lemma sound_day d s : sound s -> sound (at_day d s).
Proof. intros Hs. apply (sound_evolves s), (evolves_frame instruments s s); (reflexivity || exact Hs). Qed.

Lemma Fated_kept {A} k (c : PM A) :
  Evolves instruments c -> Steps (plan_kept k) c -> Fated k c (fun _ => plan_kept k).
Proof.
  intros He Hk s Hs. eapply wp_mono; [apply wp_and; [apply (He s s Hs)|apply (wp_Steps (plan_kept k)), Hk]| |auto].
  intros a s' [H1 H2]. split; [now apply (sound_evolves s)|]. split; [now left|exact H2].
Qed.

Lemma Fated_roll_to k d : Fated k (roll_to instruments profile ccy d) (fun _ => plan_kept k).
Proof.
  intros s Hs. assert (Hdays : forall days s, sound s ->
    wp (roll_days instruments profile ccy days) (fun _ s' => sound s' /\ plan_kept k s s') (fun _ _ => True) s).
  { induction days as [|x days IH]; intros t Ht; [split; [exact Ht|reflexivity]|]. apply wp_bind.
    eapply wp_mono; [apply wp_and; [apply (Evolves_roll_day instruments profile ccy x t t Ht)|
                                    apply (plan_kept_roll_day k x t), (ev_book _ _ _ Ht)]| |auto].
    intros [] t1 [H1 H2]. eapply wp_mono; [apply IH, (sound_evolves t), H1| |auto].
    intros [] t2 [H3 H4]. split; [exact H3|]. etransitivity; eassumption. }
  assert (Hday : forall t, sound t /\ plan_kept k s t -> sound t /\ fate k s t /\ plan_kept k s t) by (intros t [H1 H2]; split; [exact H1|]; split; [now left|exact H2]).
  unfold roll_to. wps.
  - apply Hday. split; [exact Hs|reflexivity].
  - apply Hday. split; [now apply sound_day|now apply plan_kept_same].
  - eapply wp_mono; [apply Hdays, (sound_day d s Hs)| |auto]. intros [] s' [H1 H2]. apply Hday. split; [exact H1|].
    etransitivity; [now apply plan_kept_same|exact H2].
  - apply Hday. split; [now apply sound_day|now apply plan_kept_same].
Qed.

Lemma same_book_draw {A} (f : G -> G * A) : Steps same_book (draw f).
Proof. intros s. unfold draw. destruct (f (pb_rng s)). now repeat split. Qed.
Lemma same_book_slippage l : Steps same_book (slippage_pips profile l).
Proof. unfold slippage_pips. steps; apply same_book_draw. Qed.

Lemma hits_same_plan p p' px : same_plan p p' -> hit_stop p' px = hit_stop p px /\ hit_target p' px = hit_target p px.
Proof. unfold hit_stop, hit_target. intros (_ & -> & -> & ->). split; reflexivity. Qed.

(** Tracking the excursions rewrites the position, to the same plan. *)
Lemma track_spec k q p inst s :
  sound s -> dict_get k (pb_positions s) = Some p -> q_instrument q = k ->
  wp (track_excursions ccy p q inst)
    (fun p' s' => sound s' /\ plan_kept k s s' /\ dict_get k (pb_positions s') = Some p' /\ same_plan p p') (fun _ _ => True) s.
Proof.
  intros Hs Hp Hq. unfold track_excursions, conv, put_position. rewrite Hq. wps; try exact I.
  - assert (Hok : pos_ok instruments k (pos_set_excursions (dmax (pos_max_favourable p) a0) (dmin (pos_max_adverse p) a0) p))
      by (apply (pos_ok_same instruments p eq_refl eq_refl), (book_get _ _ _ s); [apply (ev_book _ _ _ Hs)|exact Hp]).
    split; [apply (sound_evolves s), evolves_put; assumption|]. split; [|split; [cbn; now rewrite dict_get_set, bool_decide_eq_true_2|now repeat split]].
    apply plan_kept_put. intros _. exists p. split; [exact Hp|now repeat split].
  - split; [exact Hs|]. split; [reflexivity|]. split; [exact Hp|now repeat split].
Qed.

(** A position closed in full, in a sound state. *)
Lemma realise_fate k p inst px ts reason s :
  sound s -> dict_get (pos_instrument p) (pb_positions s) = Some p -> stop_reason reason ->
  wp (realise profile ccy p inst px (pos_lots p) ts reason ZERO)
    (fun _ s' => sound s' /\ fate k s s' /\ (pos_instrument p = k -> stopped k s s')) (fun _ _ => True) s.
Proof.
  intros Hs Hp Hr. eapply wp_mono; [apply wp_and; [apply realise_spec|]| |auto].
  { apply (Evolves_realise instruments profile ccy p inst px (pos_lots p) ts reason ZERO) with (s0 := s); [|exact Hs].
    apply (pos_ok_self _ (pos_instrument p)), (book_get _ _ _ s); [apply (ev_book _ _ _ Hs)|exact Hp]. }
  intros [] s' [[Hc _] He]. split; [now apply (sound_evolves s)|].
  exact (closes_fate k p px reason s s' (ev_book _ _ _ Hs) Hp Hc Hr).
Qed.

(** What a quote does to the position it is on, where it does not reach the
    target without reaching the stop. *)
Lemma check_exits_fate k q s :
  sound s -> q_instrument q = k ->
  (forall p, dict_get k (pb_positions s) = Some p ->
     hit_target p (price_for q (opposite (pos_side p))) = true -> hit_stop p (price_for q (opposite (pos_side p))) = true) ->
  wp (check_exits instruments profile ccy q)
    (fun _ s' => sound s' /\ fate k s s' /\
       forall p, dict_get k (pb_positions s) = Some p ->
         hit_stop p (price_for q (opposite (pos_side p))) = true -> stopped k s s') (fun _ _ => True) s.
Proof.
  intros Hs Hq Ht. unfold check_exits. wp_step. wp_step. cbv beta. rewrite Hq.
  destruct (dict_get k (pb_positions s)) as [p|] eqn:Ep; [|apply wp_ret; split; [exact Hs|split; [left; reflexivity|discriminate]]].
  specialize (Ht p eq_refl). set (px := price_for q (opposite (pos_side p))) in *.
  wp_step. wp_step; [|exact I]. rename a into inst. cbv zeta.
  apply wp_bind. eapply wp_mono; [apply (track_spec k q p inst s Hs Ep Hq)| |auto].
  intros p' s1 (H1 & H2 & Ep' & Hpl). destruct (hits_same_plan p p' px Hpl) as [Eh Et]. rewrite Eh, Et.
  assert (Ei : pos_instrument p' = k) by apply (book_get _ _ _ s1 (ev_book _ _ _ H1) Ep').
  destruct (hit_stop p px) eqn:Es.
  - apply wp_bind. eapply wp_mono; [apply wp_and; [apply (Evolves_slippage instruments profile None s1 s1 H1)|
                                                   apply (wp_Steps same_book), same_book_slippage]| |auto].
    intros slip s2 [H3 H4]. wp_step. wp_step; [|exact I].
    eapply wp_mono; [apply (realise_fate k p' inst _ _ _ s2)| |auto].
    + now apply (sound_evolves s1).
    + now rewrite Ei, (proj1 H4).
    + now left.
    + assert (Hk : plan_kept k s s2) by (etransitivity; [exact H2|now apply plan_kept_book]).
      intros [] s3 (H5 & H6 & H7). specialize (H7 Ei). split; [exact H5|].
      assert (Hst : stopped k s s3); [|split; [now right|auto]].
      destruct (fate_preorder k) as [_ Htr]. destruct Hk as [E1 Hk], H7 as (_ & Hn & t & Et' & Hr).
      split; [rewrite Ep; eauto|]. split; [exact Hn|]. exists t. split; [congruence|exact Hr].
  - destruct (hit_target p px) eqn:Ett; [now specialize (Ht eq_refl)|].
    apply wp_ret. split; [exact H1|]. split; [now left|]. intros p0 [= <-]. fold px. congruence.
Qed.

(** Two fates in a row. *)
Lemma wp_fate {A B} k (c : PM A) (f : A -> PM B) s s1 (Q : Paper G -> Prop) :
  fate k s s1 -> wp c (fun a t => sound t /\ fate k s1 t) (fun _ _ => True) s1 ->
  (forall a t, sound t -> fate k s t -> wp (f a) (fun _ => Q) (fun _ _ => True) t) ->
  wp (mbind_ c f) (fun _ => Q) (fun _ _ => True) s1.
Proof.
  intros H1 Hc Hf. apply wp_bind. eapply wp_mono; [exact Hc| |auto]. intros a t [Ht H2].
  apply Hf; [exact Ht|]. etransitivity; eassumption.
Qed.

Lemma account_fate k s :
  sound s -> wp (account instruments ccy account_id) (fun _ t => sound t /\ fate k s t) (fun _ _ => True) s.
Proof.
  intros Hs. eapply wp_mono; [apply wp_and; [apply (Evolves_account instruments ccy account_id s s Hs)|
                                             apply (wp_Steps same_book), same_book_account]| |auto].
  intros a t [H1 H2]. split; [now apply (sound_evolves s)|left; now apply plan_kept_book].
Qed.

Lemma margin_loop_fate k n : forall s,
  sound s -> wp (margin_loop instruments profile ccy account_id n) (fun _ s' => sound s' /\ fate k s s') (fun _ _ => True) s.
Proof.
  induction n as [|n IH]; intros s Hs; cbn [margin_loop]; wp_step; wp_step; cbv beta.
  - destruct (pb_positions s); [apply wp_ret; split; [exact Hs|left; reflexivity]|exact I].
  - destruct (pb_positions s) as [|kp ps] eqn:Ep; [apply wp_ret; split; [exact Hs|left; reflexivity]|].
    rewrite <- Ep. apply wp_bind. eapply wp_mono; [apply (worst_of_elem (pb_positions s) None s)| |auto].
    intros [[p x]|] s1 [-> Hw]; [|apply wp_ret; split; [exact Hs|left; reflexivity]]. cbv iota beta.
    destruct Hw as [Hw|([k1 Hin] & [q Hq])]; [discriminate|]. wp_step. wp_step. cbv beta. rewrite Hq. wp_step.
    wp_step; [|exact I]. destruct (proj2 (ev_book _ _ _ Hs) k1 p Hin) as [Ek _]. subst k1.
    assert (Hd : dict_get (pos_instrument p) (pb_positions s) = Some p)
      by (apply dict_get_In; [apply (ev_book _ _ _ Hs)|now apply list_elem_of_In]).
    apply wp_bind. eapply wp_mono; [apply (realise_fate k p a _ _ _ s Hs Hd); now right| |auto].
    intros [] s1 (H1 & H2 & _).
    apply (wp_fate k _ _ s s1 _ H2); [now apply account_fate|]. intros acct s2 H3 H4. wp_step. wp_step; [|exact I].
    destruct a0; [now apply wp_ret|]. eapply wp_mono; [now apply IH| |auto]. intros [] s3 [H5 H6].
    split; [exact H5|]. etransitivity; eassumption.
Qed.

Lemma check_margin_fate k s :
  sound s -> wp (check_margin instruments profile ccy account_id) (fun _ s' => sound s' /\ fate k s s') (fun _ _ => True) s.
Proof.
  intros Hs. unfold check_margin. apply (wp_fate k _ _ s s); [left; reflexivity|now apply account_fate|].
  intros acct s1 H1 H2. wp_step. wp_step; [|exact I]. destruct a; [now apply wp_ret|]. wp_step. wp_step. cbv beta.
  eapply wp_mono; [now apply margin_loop_fate| |auto]. intros [] s2 [H3 H4]. split; [exact H3|]. etransitivity; eassumption.
Qed.

(** What a quote on [k] reaches. *)
Definition reaches (hit : Position -> decimal -> bool) (k : string) (q : Quote) s : bool :=
  match dict_get k (pb_positions s) with
  | Some p => hit p (price_for q (opposite (pos_side p)))
  | None => false
  end.

Lemma reaches_kept hit k q s s' :
  (forall p p' px, same_plan p p' -> hit p' px = hit p px) -> plan_kept k s s' -> reaches hit k q s' = reaches hit k q s.
Proof.
  intros Hh [_ H]. unfold reaches. destruct (dict_get k (pb_positions s)) as [p|], (dict_get k (pb_positions s')) as [p'|];
    try contradiction; [|reflexivity]. rewrite (Hh p p' _ H). now destruct H as (_ & -> & _).
Qed.

Lemma on_quote_fate k q s :
  sound s -> q_instrument q = k -> (reaches hit_target k q s = true -> reaches hit_stop k q s = true) ->
  wp (on_quote instruments profile ccy account_id q)
    (fun _ s' => sound s' /\ fate k s s' /\ (reaches hit_stop k q s = true -> stopped k s s')) (fun _ _ => True) s.
Proof.
  intros Hs Hq Ht.
  assert (Hpre : forall f : PM unit, (forall t, sound t -> plan_kept k s t -> wp f (fun _ s' => sound s' /\ fate k s s' /\ (reaches hit_stop k q s = true -> stopped k s s')) (fun _ _ => True) t) ->
     wp (modify (upd_quotes (dict_set (q_instrument q) q)) ;!
         let! t := gets (fun s => s) in
         when (pb_now_ns t <? q_ts_ns q)%Z (modify (upd_now_ns (fun _ => q_ts_ns q))) ;!
         match dict_get (q_instrument q) instruments with
         | Some inst => when (bool_decide (inst_quote inst = ccy))
                          (modify (upd_conversions (dict_set (pair_key (inst_quote inst) ccy) 1)))
         | None => ret tt
         end ;! f) (fun _ s' => sound s' /\ fate k s s' /\ (reaches hit_stop k q s = true -> stopped k s s')) (fun _ _ => True) s).
  { intros f Hf. assert (Hs' : evolves instruments s s) by exact Hs. wps; apply Hf; try (apply plan_kept_same; reflexivity);
      apply (sound_evolves s), (evolves_frame instruments s s); try reflexivity; cbn in *; try lia; exact Hs'. }
  unfold on_quote. apply Hpre. clear Hpre. intros s1 H1 Hk1. unfold apply_rollover.
  apply wp_bind. wp_step. wp_step. cbv beta. wp_step. wp_step; [|exact I].
  eapply wp_mono; [now apply Fated_roll_to| |auto]. intros [] s2 (H2 & _ & Hk2).
  assert (Hk : plan_kept k s s2) by (etransitivity; eassumption).
  assert (Es : reaches hit_stop k q s2 = reaches hit_stop k q s) by (apply reaches_kept; [intros; now apply hits_same_plan|exact Hk]).
  assert (Et : reaches hit_target k q s2 = reaches hit_target k q s) by (apply reaches_kept; [intros; now apply hits_same_plan|exact Hk]).
  rewrite <- Es, <- Et in Ht. rewrite <- Es.
  apply wp_bind. eapply wp_mono; [apply (check_exits_fate k q s2 H2 Hq)| |auto].
  { intros p Hp. unfold reaches in Ht. now rewrite Hp in Ht. }
  intros [] s3 (H3 & H4 & H5). eapply wp_mono; [now apply (check_margin_fate k)| |auto]. intros [] s4 (H6 & H7).
  assert (Hf : fate k s s4) by (etransitivity; [left; exact Hk|etransitivity; eassumption]).
  split; [exact H6|]. split; [exact Hf|]. intros Hst. unfold reaches in Hst.
  destruct (dict_get k (pb_positions s2)) as [p|] eqn:Ep; [|discriminate]. specialize (H5 p eq_refl Hst).
  destruct Hf as [[_ Hf]|Hf]; [exfalso|exact Hf].
  destruct H5 as (_ & Hn3 & _), H7 as [[_ H7]|[[p3 Hp3] _]]; [|congruence]. rewrite Hn3 in H7.
  destruct Hk as [_ Hk]. rewrite Ep in Hk. destruct (dict_get k (pb_positions s)); [|contradiction].
  destruct (dict_get k (pb_positions s4)); contradiction.
Qed.

(** Quotes do not open or close the news window. *)
Definition same_news s s' : Prop := pb_news_window s' = pb_news_window s.
#[local] Instance same_news_preorder : PreOrder same_news.
Proof. split; unfold same_news; [now intros s|congruence]. Qed.

Lemma same_news_draw {A} (f : G -> G * A) : Steps same_news (draw f).
Proof. intros s. unfold draw. now destruct (f (pb_rng s)). Qed.
Ltac same_news_steps := repeat first [progress steps | apply Steps_modify; now intros ? | apply same_news_draw | solve [eauto with news]].
Create HintDb news.
Lemma same_news_mark ps : forall u m, Steps same_news (mark_book instruments ccy ps u m).
Proof. induction ps as [|[k p] ps IH]; intros u m; cbn [mark_book]; same_news_steps. Qed.
#[local] Hint Resolve same_news_mark : news.
Lemma same_news_account : Steps same_news (account instruments ccy account_id).
Proof. unfold account. same_news_steps. Qed.
Lemma same_news_realise p inst px lots ts r e : Steps same_news (realise profile ccy p inst px lots ts r e).
Proof. unfold realise, conv, record_txn. same_news_steps. Qed.
Lemma same_news_worst ps : forall w, Steps same_news (worst_of instruments ccy ps w).
Proof. induction ps as [|[k p] ps IH]; intros w; cbn [worst_of]; unfold conv; same_news_steps. Qed.
#[local] Hint Resolve same_news_account same_news_realise same_news_worst : news.
Lemma same_news_margin n : Steps same_news (margin_loop instruments profile ccy account_id n).
Proof. induction n as [|n IH]; cbn [margin_loop]; same_news_steps. Qed.
#[local] Hint Resolve same_news_margin : news.
Lemma same_news_on_quote q : Steps same_news (on_quote instruments profile ccy account_id q).
Proof.
  unfold on_quote, apply_rollover, roll_to, roll_days, roll_day, charge_position, conv, put_position, record_txn,
    check_exits, track_excursions, slippage_pips, check_margin, conv, put_position. same_news_steps.
Qed.

(** The quote a point of the bar is replayed as. *)
Definition quoted (k : string) (inst : Instrument) (pt : decimal * Z) s (q : Quote) : Prop :=
  spread_quote profile k inst pt.1 pt.2 s = (s, Ok q).

Lemma quoted_eq k inst pt s : exists r, spread_quote profile k inst pt.1 pt.2 s = (s, r) /\
  forall q, r = Ok q -> q_instrument q = k.
Proof.
  unfold spread_quote, spread_price, mbind_, gets, lift, ret.
  destruct (spread_pips_at profile inst pt.2 (pb_news_window s)) as [pips|e]; [|eexists; split; [reflexivity|discriminate]].
  destruct (ddiv _ 2) as [half|e]; [|eexists; split; [reflexivity|discriminate]].
  destruct (round_price inst (pt.1 - half)) as [bid|e]; [|eexists; split; [reflexivity|discriminate]].
  destruct (round_price inst (pt.1 + half)) as [ask|e]; [|eexists; split; [reflexivity|discriminate]].
  destruct (Quote_post_init _) as [[]|e]; (eexists; split; [reflexivity|]); [now intros q [= <-]|discriminate].
Qed.

Lemma quoted_news k inst pt s s' q : same_news s s' -> quoted k inst pt s q -> quoted k inst pt s' q.
Proof.
  unfold quoted, spread_quote, spread_price, mbind_, gets, lift, ret. intros ->.
  destruct (spread_pips_at profile inst pt.2 (pb_news_window s)) as [pips|e]; [|discriminate].
  destruct (ddiv _ 2) as [half|e]; [|discriminate].
  destruct (round_price inst (pt.1 - half)) as [bid|e]; [|discriminate].
  destruct (round_price inst (pt.1 + half)) as [ask|e]; [|discriminate].
  destruct (Quote_post_init _) as [[]|e]; [|discriminate]. now intros [= <-].
Qed.

(** One point of the bar. *)
Definition replay k inst (pt : decimal * Z) : PM unit :=
  let! q := spread_quote profile k inst pt.1 pt.2 in on_quote instruments profile ccy account_id q.

Lemma replay_quoted k inst pt s q s' :
  quoted k inst pt s q -> replay k inst pt s = (s', Ok tt) -> on_quote instruments profile ccy account_id q s = (s', Ok tt).
Proof. unfold quoted, replay, mbind_. now intros ->. Qed.

Lemma wp_Ok {A} (c : PM A) Q E s s' a : wp c Q E s -> c s = (s', Ok a) -> Q a s'.
Proof. unfold wp. intros H Hc. now rewrite Hc in H. Qed.

Lemma replay_stopped k inst pt s0 s s' :
  sound s -> stopped k s0 s -> replay k inst pt s = (s', Ok tt) -> sound s' /\ stopped k s0 s'.
Proof.
  intros Hs Hst Hr. destruct (quoted_eq k inst pt s) as (r & Eq & Hq). unfold replay, mbind_ in Hr. rewrite Eq in Hr.
  destruct r as [q|e]; [|discriminate]. specialize (Hq q eq_refl).
  assert (Hn : forall hit, reaches hit k q s = false) by (intros hit; unfold reaches; now rewrite (proj1 (proj2 Hst))).
  destruct (wp_Ok _ _ _ _ _ _ (on_quote_fate k q s Hs Hq ltac:(now rewrite Hn)) Hr) as (H1 & H2 & _).
  split; [exact H1|]. assert (Hf : fate k s0 s') by (etransitivity; [right; exact Hst|exact H2]).
  destruct Hf as [[_ Hf]|Hf]; [|exact Hf]. exfalso. destruct Hst as ([p Hp] & Hnone & _), H2 as [[_ H2]|[[p' Hp'] _]]; [|congruence].
  rewrite Hnone in H2. rewrite Hp in Hf. destruct (dict_get k (pb_positions s')); contradiction.
Qed.

(** A bar whose adverse extreme reaches the stop of the open position is
    scored against it, whichever side the position is on and whatever its other
    extreme and its close reach: the position is closed by exactly one trade, at
    the stop or by the margin close-out, never at the target (unless the bar
    already opens beyond the target). *)
Theorem bar_scores_stop_first s k inst p o h l c t1 t2 s' q1 q2 :
  Paper_wf instruments s -> dict_get k instruments = Some inst -> dict_get k (pb_positions s) = Some p ->
  quoted k inst (o, t1) s q1 ->
  quoted k inst (if is_buy (pos_side p) then l else h, t1 + (t2 - t1) / 3)%Z s q2 ->
  (reaches hit_target k q1 s = true -> reaches hit_stop k q1 s = true) ->
  reaches hit_stop k q2 s = true ->
  on_bar_prices instruments profile ccy account_id k o h l c t1 t2 s = (s', Ok tt) ->
  stopped k s s'.
Proof.
  intros Hw Hi Hp Hq1 Hq2 Ht Hst. unfold on_bar_prices, mbind_ at 1, instrument_of, lift. rewrite Hi.
  unfold mbind_ at 1, gets. rewrite Hp. unfold bar_path. cbv zeta.
  change (fun pt => let! q := spread_quote profile k inst pt.1 pt.2 in on_quote instruments profile ccy account_id q)
    with (replay k inst).
  assert (Hs : sound s) by (apply evolves_refl; apply Hw).
  intros (s1 & [] & E1 & (s2 & [] & E2 & (s3 & [] & E3 & (s4 & [] & E4 & [= <-])%mbind_Ok)%mbind_Ok)%mbind_Ok)%mbind_Ok.
  destruct (quoted_eq k inst (o, t1) s) as (r1 & Eq1 & Hi1). rewrite Hq1 in Eq1. injection Eq1 as <-. specialize (Hi1 q1 eq_refl).
  pose proof (replay_quoted _ _ _ _ _ _ Hq1 E1) as F1.
  destruct (wp_Ok _ _ _ _ _ _ (on_quote_fate k q1 s Hs Hi1 Ht) F1) as (H1 & Hf1 & _).
  assert (H2 : sound s2 /\ stopped k s s2).
  { destruct Hf1 as [Hk|Hstop]; [|exact (replay_stopped _ _ _ _ _ _ H1 Hstop E2)].
    assert (Hn : same_news s s1) by (pose proof (same_news_on_quote q1 s) as Hn; now rewrite F1 in Hn).
    destruct (quoted_eq k inst (if is_buy (pos_side p) then l else h, t1 + (t2 - t1) / 3)%Z s) as (r2 & Eq2 & Hi2).
    rewrite Hq2 in Eq2. injection Eq2 as <-. specialize (Hi2 q2 eq_refl).
    pose proof (replay_quoted _ _ _ _ _ _ (quoted_news _ _ _ _ _ _ Hn Hq2) E2) as F2.
    assert (Hst1 : reaches hit_stop k q2 s1 = true) by (rewrite (reaches_kept hit_stop k q2 s s1); [exact Hst|intros; now apply hits_same_plan|exact Hk]).
    destruct (wp_Ok _ _ _ _ _ _ (on_quote_fate k q2 s1 H1 Hi2 (fun _ => Hst1)) F2) as (H2 & _ & H3).
    split; [exact H2|]. specialize (H3 Hst1). destruct H3 as (_ & Hnone & t & Et & Hr).
    split; [rewrite Hp; eauto|]. split; [exact Hnone|]. exists t. split; [|exact Hr]. now rewrite Et, (proj1 Hk). }
  destruct H2 as [H2 Hs2]. destruct (replay_stopped _ _ _ _ _ _ H2 Hs2 E3) as [H3 Hs3].
  exact (proj2 (replay_stopped _ _ _ _ _ _ H3 Hs3 E4)).
Qed.

(** ** A position the account cannot value *)

(** An order on an instrument whose currency has no conversion is let
    through without a margin check, and the position it opens cannot be closed:
    neither its stop nor its target is ever executed (the quote raises), and
    closing it by hand raises or is refused. *)
Theorem unconvertible_position_stuck s k p inst q lots reason :
  dict_get k (pb_positions s) = Some p -> dict_get k instruments = Some inst -> q_instrument q = k ->
  conversion_rate s (inst_quote inst) ccy = Raise ConversionMissingError -> (pos_initial_risk p >? 0) = true ->
  (forall l, margin_required ccy inst q l s = (s, Ok None)) /\
  check_exits instruments profile ccy q s = (s, Raise ConversionMissingError) /\
  pb_positions (close_position instruments profile ccy k lots reason s).1 = pb_positions s /\
  forall r, (close_position instruments profile ccy k lots reason s).2 = Ok r -> sr_state r = REJECTED.
Proof.
  intros Hp Hi Hq Hc Hr. split; [|split].
  - intros l. unfold margin_required, attempt, conv, mbind_, gets, lift, ret. now rewrite Hc.
  - unfold check_exits, track_excursions, instrument_of, conv, mbind_, gets, lift. rewrite Hq, Hp, Hi, Hr. now rewrite Hc.
  - assert (H : wp (close_position instruments profile ccy k lots reason)
      (fun r s' => pb_positions s' = pb_positions s /\ sr_state r = REJECTED) (fun _ s' => pb_positions s' = pb_positions s) s).
    { unfold close_position, instrument_of. wp_step. wp_step. cbv beta. rewrite Hp, Hi.
      destruct (dict_get k (pb_quotes s)) as [q'|]; [|apply wp_ret; auto].
      wp_step. wp_step; [|reflexivity]. apply wp_bind. injection (H : Ok inst = Ok a) as <-. clear H.
      apply (wp_mono _ (fun _ s' => s' = s) _ (fun _ s' => s' = s)); [destruct lots; wps; reflexivity| |now intros e s' ->].
      intros cl s1 ->. destruct (dleb cl 0); [apply wp_ret; auto|].
      apply wp_bind. eapply wp_mono; [apply (wp_Steps same_book), same_book_slippage| |now intros e s1 [-> _]].
      intros slip s1 (E1 & _ & _ & E2). wp_step. wp_step; [|exact E1]. unfold realise, conv. wp_step. wp_step. wp_step. wp_step.
      wp_step; [|exact E1]. unfold conversion_rate in *. destruct E2 as (_ & E2 & _). rewrite E2 in H0. congruence. }
    unfold wp in H. destruct (close_position instruments profile ccy k lots reason s) as [s' [r|e]]; cbn [fst snd] in *.
    + destruct H as [H1 H2]. split; [exact H1|]. now intros r' [= <-].
    + split; [exact H|discriminate].
Qed.
End Props.

(** The multipliers of a week depend on the weekday it starts after only. *)
Lemma week_multipliers profile d :
  omap (swap_multiplier profile) (pending_days d (d + 7)) =
  omap (fun k => if (5 <=? (weekday d + k) mod 7)%Z then None
                 else Some (if ((weekday d + k) mod 7 =? sp_triple_swap_weekday profile)%Z then 3%dec else 1%dec))
    [1; 2; 3; 4; 5; 6; 7]%Z.
Proof.
  unfold pending_days. replace (Z.to_nat (d + 7 - d)) with 7%nat by lia.
  assert (E : map (fun k => (d + 1 + Z.of_nat k)%Z) (seq 0 7) = map (fun k => (d + k)%Z) [1; 2; 3; 4; 5; 6; 7]%Z).
  { cbn [seq map]. repeat (apply (f_equal2 cons); [lia|]). reflexivity. }
  rewrite E. generalize [1; 2; 3; 4; 5; 6; 7]%Z. intros ks. induction ks as [|k ks IH]; [reflexivity|].
  cbn [map omap list_omap]. rewrite IH. unfold swap_multiplier. now rewrite weekday_add.
Qed.

(** Over any seven consecutive value dates the multipliers of the carry add
    up to seven days, whatever weekday the triple swap is configured on: the
    weekend that is skipped is paid for exactly once. *)
Theorem week_pays_seven_days profile d :
  (0 <= sp_triple_swap_weekday profile <= 4)%Z ->
  dsum (omap (swap_multiplier profile) (pending_days d (d + 7))) = 7%dec.
Proof.
  intros Ht. rewrite week_multipliers. pose proof (weekday_range d) as Hw.
  generalize dependent (weekday d). intros w Hw. generalize dependent (sp_triple_swap_weekday profile). intros t Ht.
  assert (Hin : In w [0; 1; 2; 3; 4; 5; 6]%Z) by (cbn; lia). assert (Hit : In t [0; 1; 2; 3; 4]%Z) by (cbn; lia).
  cbn in Hin, Hit. repeat (destruct Hin as [<-|Hin]; [|]); try contradiction;
    repeat (destruct Hit as [<-|Hit]; [reflexivity|]); contradiction.
Qed.

(** ** Concrete runs *)

(** A generator that plays back a list; the square root for [x ** 0.5]. *)
#[export] Instance playback : Random (list spec_float) := {|
  rng_random g := match g with x :: rest => (rest, x) | [] => ([], float_of_dec 0.5) end;
  rng_gauss _ _ g := match g with x :: rest => (rest, x) | [] => ([], float_of_dec 0.5) end;
  libm_pow x _ := SFsqrt fprec femax x
|}.

Module Demo.

Definition market : list (string * Instrument) := [("EUR_USD"%string, eur_usd)].
Definition run := run_ops (G := list spec_float) market default_profile "USD" "PAPER-001".

(** Wednesday 2024-03-06, noon UTC. *)
Definition noon : Z := (1709726400 * 1000000000)%Z.
Definition start (draws : list decimal) : Paper (list spec_float) := open_paper "USD" 10000 noon (map float_of_dec draws).
Definition eur_quote (bid ask : decimal) (ts : Z) : Quote := mkQuote "EUR_USD" bid ask ts ts "sim".
Definition buy (id : string) (lots : decimal) (stop target : option decimal) : OrderIntent :=
  mkOrderIntent id "trend" "EUR_USD" BUY lots MARKET None stop target 0 50 0.5 1.

(** Latency of 85 ms, no last look, 0.2 pips of adverse slippage. *)
Definition calm : list decimal := [0.5; 0.4; 0.9; 0.9; 0.2; 0.1]%dec.

Definition first_quote : PaperOp := OpQuote (eur_quote 1.1000 1.1001 noon).
Definition open_ops : list PaperOp := [first_quote; OpSubmit (buy "a" 0.10 (Some 1.0950%dec) (Some 1.1050%dec)) 5000].
Definition opened := run open_ops (start (calm ++ [0.1; 0.5]%dec)).

Lemma market_ok : offers_ok market default_profile.
Proof.
  intros k i. unfold market. cbn [dict_get]. case_bool_decide as E; [|discriminate]. intros [= <-].
  split; [exact eur_usd_ok|]. intros l fl [Hl Hm] Ht%dltb_spec Hr. change (dval (inst_max_lot eur_usd)) with 100%Q in Hm.
  change (sp_partial_fill_threshold_lots default_profile) with 2.0%dec in Ht. change (dval 2.0) with (20 # 10)%Q in Ht.
  change (sp_partial_fill_ratio default_profile) with 0.6%dec in Hr.
  pose proof (dmul_upper l 0.6 100 (6 # 10) ltac:(lra) ltac:(split; discriminate)) as U.
  pose proof (dmul_lower l 0.6 2 (6 # 10) ltac:(lra) ltac:(split; discriminate)) as L. rewrite eps_val in U, L.
  assert (Hp : (0 < dval (l * 0.6))%Q) by lra.
  assert (Hrange : (dval (l * 0.6) < lot_range eur_usd)%Q) by (change (lot_range eur_usd) with (p10 25); change (p10 25) with (10000000000000000000000000 # 1)%Q; lra).
  destruct (round_lots_down_spec eur_usd _ eur_usd_ok Hp Hrange) as (r & n & Er & _ & _ & _ & _ & Hlow).
  rewrite Er in Hr. injection Hr as <-. rewrite eps_val in Hlow. change (dval (inst_lot_step eur_usd)) with (1 # 100)%Q in Hlow. lra.
Qed.

Lemma run_reachable ops draws : paper_reachable market default_profile "USD" "PAPER-001" (run ops (start draws)).
Proof.
  unfold run, run_ops. assert (G : forall s, paper_reachable market default_profile "USD" "PAPER-001" s ->
    paper_reachable market default_profile "USD" "PAPER-001"
      (fold_left (fun s op => (run_op market default_profile "USD" "PAPER-001" op s).1) ops s)).
  { induction ops as [|op ops IH]; intros s Hs; cbn [fold_left]; [exact Hs|]. apply IH. now constructor. }
  apply G. constructor.
Qed.

Lemma opened_wf : Paper_wf market opened.
Proof. exact (paper_reachable_wf market default_profile "USD" "PAPER-001" _ market_ok (run_reachable _ _)). Qed.

Definition long_with_stop (p : option Position) : bool :=
  match p with
  | Some p => bool_decide (pos_side p = BUY) && bool_decide (pos_stop_loss p = Some 1.0950%dec)
  | None => false
  end.
Lemma long_with_stop_spec o :
  long_with_stop o = true -> exists p, o = Some p /\ pos_side p = BUY /\ pos_stop_loss p = Some 1.0950%dec.
Proof.
  destruct o as [p|]; [|discriminate].
  intros [H1%bool_decide_eq_true H2%bool_decide_eq_true]%andb_true_iff. eauto.
Qed.
Lemma opened_long : long_with_stop (dict_get "EUR_USD" (pb_positions opened)) = true.
Proof. vm_compute. reflexivity. Qed.

Lemma opened_size : (length (pb_positions opened) <= 1)%nat.
Proof. vm_compute. lia. Qed.

(** The opening quote does not reach the target, the adverse extreme reaches the
    stop, and the replay returns. *)
Definition bar_check (s : Paper (list spec_float)) : bool :=
  match (spread_quote default_profile "EUR_USD" eur_usd 1.1003 noon s).2,
        (spread_quote default_profile "EUR_USD" eur_usd 1.0940 (noon + (noon + 3 * 3600 * 1000000000 - noon) / 3)%Z s).2,
        (on_bar_prices market default_profile "USD" "PAPER-001" "EUR_USD" 1.1003 1.1060 1.0940 1.1055 noon (noon + 3 * 3600 * 1000000000)%Z s).2
  with
  | Ok q1, Ok q2, Ok tt => negb (reaches hit_target "EUR_USD" q1 s) && reaches hit_stop "EUR_USD" q2 s
  | _, _, _ => false
  end.
Lemma bar_check_spec s :
  bar_check s = true ->
  exists q1 q2 s', quoted default_profile "EUR_USD" eur_usd (1.1003%dec, noon) s q1 /\
    quoted default_profile "EUR_USD" eur_usd (1.0940%dec, (noon + (noon + 3 * 3600 * 1000000000 - noon) / 3)%Z) s q2 /\
    reaches hit_target "EUR_USD" q1 s = false /\ reaches hit_stop "EUR_USD" q2 s = true /\
    on_bar_prices market default_profile "USD" "PAPER-001" "EUR_USD" 1.1003 1.1060 1.0940 1.1055 noon (noon + 3 * 3600 * 1000000000)%Z s = (s', Ok tt).
Proof.
  unfold bar_check. set (t2 := (noon + (noon + 3 * 3600 * 1000000000 - noon) / 3)%Z). set (t3 := (noon + 3 * 3600 * 1000000000)%Z).
  destruct (quoted_eq default_profile "EUR_USD" eur_usd (1.1003%dec, noon) s) as (r1 & E1 & _).
  destruct (quoted_eq default_profile "EUR_USD" eur_usd (1.0940%dec, t2) s) as (r2 & E2 & _).
  cbn [fst snd] in E1, E2. rewrite E1, E2. cbn [snd]. destruct r1 as [q1|]; [|discriminate]. destruct r2 as [q2|]; [|discriminate].
  destruct (on_bar_prices _ _ _ _ _ _ _ _ _ _ _ s) as [s' [[]|]]; [|discriminate].
  cbn [snd]. intros [H1%negb_true_iff H2]%andb_true_iff. exists q1, q2, s'. auto.
Qed.
Lemma opened_bar : bar_check opened = true.
Proof. vm_compute. reflexivity. Qed.

Lemma tighter_stop : round_price eur_usd 1.0960 = Ok 1.09600%dec.
Proof. vm_compute. reflexivity. Qed.

(** ** Behaviour the code does not intend *)

(** A partial fill of an order of three lots. *)
Definition partly : Paper (list spec_float) :=
  run [first_quote; OpSubmit (buy "a" 3 (Some 1.0950%dec) None) 5000]
    (open_paper "USD" 100000 noon (map float_of_dec calm)).

Definition partial_check (s : Paper (list spec_float)) : bool :=
  match dict_get "a" (pb_orders s), (query_order "a" s).2 with
  | Some o, Ok (Some r) =>
      bool_decide (o_state o = PARTIAL) && (filled_lots o <? oi_lots (o_intent o)) && bool_decide (sr_state r = FILLED)
  | _, _ => false
  end.

Lemma partial_check_spec s :
  partial_check s = true ->
  exists o r, dict_get "a" (pb_orders s) = Some o /\ o_state o = PARTIAL /\
    (filled_lots o <? oi_lots (o_intent o)) = true /\ (query_order "a" s).2 = Ok (Some r) /\ sr_state r = FILLED.
Proof.
  unfold partial_check. destruct (dict_get "a" (pb_orders s)) as [o|]; [|discriminate].
  destruct ((query_order "a" s).2) as [[r|]|]; try discriminate.
  intros [[H1%bool_decide_eq_true H2]%andb_true_iff H3%bool_decide_eq_true]%andb_true_iff. exists o, r. auto.
Qed.

Lemma partly_check : partial_check partly = true.
Proof. vm_compute. reflexivity. Qed.
End Demo.

(** A second order on the position, with a stop further away. *)
Definition stop_loosened (s s' : Paper (list spec_float)) : bool :=
  match dict_get "EUR_USD" (pb_positions s), dict_get "EUR_USD" (pb_positions s') with
  | Some p, Some p' =>
      match pos_stop_loss p, pos_stop_loss p' with
      | Some old, Some new => bool_decide (pos_side p = pos_side p') && widens (pos_side p) old new
      | _, _ => false
      end
  | _, _ => false
  end.
Definition added_to : Paper (list spec_float) :=
  Demo.run (Demo.open_ops ++ [OpSubmit (Demo.buy "b" 0.10 (Some 1.0900%dec) None) 5000]) (Demo.start (Demo.calm ++ Demo.calm)).

(** An order that adds to a position replaces its stop by its own, however
    loose: the refusal of [modify_position] does not cover it. *)
Theorem adding_can_loosen_stop :
  exists s s' intent, paper_reachable Demo.market default_profile "USD" "PAPER-001" s /\
    (submit Demo.market default_profile "USD" "PAPER-001" intent 5000 s).1 = s' /\ stop_loosened s s' = true.
Proof.
  exists (Demo.run Demo.open_ops (Demo.start (Demo.calm ++ Demo.calm))), added_to, (Demo.buy "b" 0.10 (Some 1.0900%dec) None).
  split; [apply Demo.run_reachable|]. split; [|vm_compute; reflexivity].
  unfold added_to, Demo.run, run_ops. rewrite fold_left_app. cbn [fold_left]. cbn [run_op]. now rewrite unit_state.
Qed.

(** A position in pounds on a dollar account. *)
Definition pound_market : list (string * Instrument) := [("EUR_GBP"%string, default_instrument "EUR_GBP" "EUR" "GBP")].
Definition pound_quote : Quote := mkQuote "EUR_GBP" 0.8500 0.8501 Demo.noon Demo.noon "sim".
Definition pound_book : Paper (list spec_float) :=
  run_ops pound_market default_profile "USD" "PAPER-001"
    [OpQuote pound_quote;
     OpSubmit (mkOrderIntent "a" "trend" "EUR_GBP" BUY 0.10 MARKET None (Some 0.8400%dec) None 0 50 0.5 1) 5000]
    (Demo.start Demo.calm).
Definition stuck_check (s : Paper (list spec_float)) : bool :=
  match dict_get "EUR_GBP" (pb_positions s), conversion_rate s "GBP" "USD" with
  | Some p, Raise ConversionMissingError => pos_initial_risk p >? 0
  | _, _ => false
  end.
Lemma stuck_check_spec s :
  stuck_check s = true ->
  exists p, dict_get "EUR_GBP" (pb_positions s) = Some p /\ conversion_rate s "GBP" "USD" = Raise ConversionMissingError /\
    (pos_initial_risk p >? 0) = true.
Proof.
  unfold stuck_check. destruct (dict_get _ _) as [p|]; [|discriminate].
  destruct (conversion_rate _ _ _) as [|[]]; try discriminate. eauto.
Qed.
Lemma pound_stuck : stuck_check pound_book = true.
Proof. vm_compute. reflexivity. Qed.

Lemma unconvertible_position_stuck_witness :
  exists p, dict_get "EUR_GBP" (pb_positions pound_book) = Some p /\
  (forall l, margin_required "USD" (default_instrument "EUR_GBP" "EUR" "GBP") pound_quote l pound_book = (pound_book, Ok None)) /\
  check_exits pound_market default_profile "USD" pound_quote pound_book = (pound_book, Raise ConversionMissingError) /\
  pb_positions (close_position pound_market default_profile "USD" "EUR_GBP" None "manual" pound_book).1 = pb_positions pound_book /\
  forall r, (close_position pound_market default_profile "USD" "EUR_GBP" None "manual" pound_book).2 = Ok r -> sr_state r = REJECTED.
Proof.
  destruct (stuck_check_spec _ pound_stuck) as (p & Hp & Hc & Hr). exists p. split; [exact Hp|].
  exact (unconvertible_position_stuck pound_market default_profile "USD" pound_book "EUR_GBP" p
    (default_instrument "EUR_GBP" "EUR" "GBP") pound_quote None "manual" Hp eq_refl eq_refl Hc Hr).
Defined.

(** Asked about an order it executed in part, the venue answers that the
    order is filled. *)
Theorem query_reports_partial_as_filled :
  exists (s : Paper (list spec_float)) o r,
    dict_get "a" (pb_orders s) = Some o /\ o_state o = PARTIAL /\ (filled_lots o <? oi_lots (o_intent o)) = true /\
    (query_order "a" s).2 = Ok (Some r) /\ sr_state r = FILLED.
Proof. exists Demo.partly. exact (Demo.partial_check_spec _ Demo.partly_check). Qed.

Lemma margin_loop_closes_out_witness :
  Paper_wf Demo.market Demo.opened /\
  match margin_loop Demo.market default_profile "USD" "PAPER-001" 1 Demo.opened with
  | (s', Ok tt) => closed_out Demo.market default_profile "USD" "PAPER-001" s'
  | (_, Raise e) => data_error e
  end.
Proof.
  split; [exact Demo.opened_wf|].
  exact (margin_loop_closes_out Demo.market default_profile "USD" "PAPER-001" Demo.opened 1 Demo.opened_wf Demo.opened_size).
Defined.

Lemma paper_stays_sound_witness :
  dict_get "EUR_USD" (pb_positions Demo.opened) <> None /\
  forall id, (executions id (pb_transactions Demo.opened) <= length (fills_of id (pb_orders Demo.opened)) <= 1)%nat.
Proof.
  split; [destruct (Demo.long_with_stop_spec _ Demo.opened_long) as (p & Hp & _); rewrite Hp; discriminate|].
  apply (paper_stays_sound Demo.market default_profile "USD" "PAPER-001" Demo.opened Demo.market_ok (Demo.run_reachable _ _)).
Defined.

Lemma transactions_resume_witness :
  exists new, pb_transactions (Demo.run [OpAccount] Demo.opened) = pb_transactions Demo.opened ++ new /\
    transactions_since (At (pb_txn_seq Demo.opened)) (Demo.run [OpAccount] Demo.opened) = new /\
    StronglySorted Z.lt (map tx_id (pb_transactions Demo.opened ++ new)) /\
    transactions_since NoCursor (Demo.run [OpAccount] Demo.opened) = pb_transactions (Demo.run [OpAccount] Demo.opened).
Proof.
  exact (transactions_resume Demo.market default_profile "USD" "PAPER-001" Demo.opened [OpAccount] Demo.market_ok
           (Demo.run_reachable _ _)).
Defined.

Lemma modify_stop_spec_witness :
  exists p, dict_get "EUR_USD" (pb_positions Demo.opened) = Some p /\
  if match pos_stop_loss p with Some old => widens (pos_side p) old 1.09600%dec | None => false end
  then modify_position Demo.market "EUR_USD" (Some 1.0960%dec) None Demo.opened = (Demo.opened, Raise PermanentError)
       /\ ~ no_looser (pos_side p) (pos_stop_loss p) (Some 1.09600%dec)
  else exists s', modify_position Demo.market "EUR_USD" (Some 1.0960%dec) None Demo.opened = (s', Ok true) /\
    pb_positions s' = dict_set "EUR_USD" (pos_set_targets (Some 1.09600%dec) (pos_take_profit p) true p) (pb_positions Demo.opened) /\
    no_looser (pos_side p) (pos_stop_loss p) (Some 1.09600%dec) /\
    pb_orders s' = pb_orders Demo.opened /\ pb_balance s' = pb_balance Demo.opened /\ pb_closed s' = pb_closed Demo.opened.
Proof.
  destruct (Demo.long_with_stop_spec _ Demo.opened_long) as (p & Hp & _). exists p. split; [exact Hp|].
  exact (modify_stop_spec Demo.market Demo.opened "EUR_USD" p eur_usd 1.0960 1.09600 Hp eq_refl Demo.tighter_stop).
Defined.

Lemma rollover_path_independent_witness :
  let s := at_day 738950 Demo.opened in
  match (roll_to Demo.market default_profile "USD" 738951 ;! roll_to Demo.market default_profile "USD" 738953) s,
        roll_to Demo.market default_profile "USD" 738953 s with
  | (s1, Ok _), (s2, Ok _) => s1 = s2
  | (_, Raise e1), (_, Raise e2) => e1 = e2
  | _, _ => False
  end.
Proof.
  intros s. exact (rollover_path_independent Demo.market default_profile "USD" s 738950 738951 738953 eq_refl ltac:(lia)).
Defined.

Lemma week_pays_seven_days_witness :
  dsum (omap (swap_multiplier default_profile) (pending_days 738950 (738950 + 7))) = 7%dec.
Proof. apply (week_pays_seven_days default_profile 738950). split; discriminate. Defined.

Lemma bar_scores_stop_first_witness :
  exists s', on_bar_prices Demo.market default_profile "USD" "PAPER-001" "EUR_USD" 1.1003 1.1060 1.0940 1.1055
               Demo.noon (Demo.noon + 3 * 3600 * 1000000000)%Z Demo.opened = (s', Ok tt) /\
    stopped "EUR_USD" Demo.opened s'.
Proof.
  destruct (Demo.long_with_stop_spec _ Demo.opened_long) as (p & Hp & Hside & _).
  destruct (Demo.bar_check_spec _ Demo.opened_bar) as (q1 & q2 & s' & E1 & E2 & H1 & H2 & E3).
  exists s'. split; [exact E3|].
  apply (bar_scores_stop_first Demo.market default_profile "USD" "PAPER-001" Demo.opened "EUR_USD" eur_usd p 1.1003 1.1060 1.0940
    1.1055 Demo.noon (Demo.noon + 3 * 3600 * 1000000000)%Z s' q1 q2 Demo.opened_wf eq_refl Hp E1).
  - rewrite Hside. exact E2.
  - rewrite H1. discriminate.
  - exact H2.
  - exact E3.
Defined.
