(* ===== verification/PaperOms.v ===== *)
(** The order manager over the simulated venue: the two tables of orders side by
    side.  Every order the manager has decided carries exactly the fills the
    venue holds for it; an order it reports unknown was executed, and asking the
    venue settles it. *)

From Stdlib Require Import ZArith QArith Lia SpecFloat.
From stdpp Require Import base gmap strings list.
From S2P Require Import Prelude PyDecimal Money Types StateExn PyDict Venue Paper PaperInv PaperProps Oms OmsInv.

Local Open Scope py_scope.

Section System.
Context {G C : Type} `{!Random G}.
Variable instruments : list (string * Instrument).
Variable profile : SimProfile.
Variable ccy account_id : string.
Variable timeout_ms : Z.
Variable read_clock : C -> C * Z.
Variable mr : Z.
Variable ms : option decimal.
Variable cb : option (Order -> Fill -> venue_op (Paper G * C) unit).

#[local] Instance venue : Venue (Paper G * C) :=
  paper_venue instruments profile ccy account_id timeout_ms read_clock.

Abbreviation System := (OmsState (Paper G * C)).
Implicit Types s : System.

Definition book_of s : Paper G := (oms_world s).1.

(** The manager's fill callback does not act on the venue. *)
Hypothesis cb_passive : forall g o f w, cb = Some g -> (g o f w).1 = w.
Hypothesis offers : offers_ok instruments profile.

(** ** The relation between the two tables *)

(** What the manager's order says about the venue's. *)
Definition consistent (o : Order) (v : option Order) : Prop :=
  match o_state o with
  | PENDING | SENT => o_fills o = [] \/ exists v', v = Some v' /\ o_fills o = o_fills v'
  | UNKNOWN => exists v' f, v = Some v' /\ o_fills v' = [f] /\ (o_fills o = [] \/ o_fills o = [f])
  | FILLED | PARTIAL => exists v' f, v = Some v' /\ o_fills v' = [f] /\ o_fills o = [f]
  | REJECTED => o_fills o = [] /\ forall v', v = Some v' -> o_fills v' = []
  | ACKED | CANCELLED => False
  end.

(** No order at the venue that the manager does not know. *)
Definition agree_at (k : string) s : Prop :=
  match order_get k (oms_orders s) with
  | Some o => consistent o (dict_get k (pb_orders (book_of s)))
  | None => dict_get k (pb_orders (book_of s)) = None
  end.

Definition agree s : Prop := Paper_wf instruments (book_of s) /\ forall k, agree_at k s.

(** ** One order in progress *)

(** The order [id] is [o] in the manager and [v] at the venue; all others agree. *)
Definition at_ (id : string) (o : Order) (v : option Order) s : Prop :=
  order_get id (oms_orders s) = Some o /\ dict_get id (pb_orders (book_of s)) = v /\
  Paper_wf instruments (book_of s) /\ forall k, k <> id -> agree_at k s.

Lemma at_agree id o v s : at_ id o v s -> consistent o v -> agree s.
Proof.
  intros (Ho & Hv & Hw & Hk) Hc. split; [exact Hw|]. intros k. destruct (decide (k = id)) as [->|Hne]; [|auto].
  unfold agree_at. now rewrite Ho, Hv.
Qed.

Lemma agree_at_frame k s s' :
  order_get k (oms_orders s') = order_get k (oms_orders s) ->
  dict_get k (pb_orders (book_of s')) = dict_get k (pb_orders (book_of s)) -> agree_at k s -> agree_at k s'.
Proof. unfold agree_at. now intros -> ->. Qed.

Lemma at_frame id o v s s' :
  oms_orders s' = oms_orders s -> book_of s' = book_of s -> at_ id o v s -> at_ id o v s'.
Proof.
  intros E1 E2 (Ho & Hv & Hw & Hk). unfold at_. rewrite E1, E2. split; [exact Ho|split; [exact Hv|split; [exact Hw|]]].
  intros k Hne. apply (agree_at_frame k s); [now rewrite E1|now rewrite E2|auto].
Qed.

Lemma at_update id o v f s : at_ id o v s -> at_ id (f o) v (set_orders (order_update id f) s).
Proof.
  intros (Ho & Hv & Hw & Hk). split; [|split; [exact Hv|split; [exact Hw|]]].
  - cbn. now rewrite order_get_update, bool_decide_eq_true_2, Ho.
  - intros k Hne. apply (agree_at_frame k s); [|reflexivity|auto].
    cbn. now rewrite order_get_update, bool_decide_eq_false_2.
Qed.

(** ** Symbolic execution of the manager on that order *)

Lemma wp_upd_at {A} id o v f s (k : OM A) Q E :
  at_ id o v s -> (forall s', at_ id (f o) v s' -> wp k Q E s') -> wp (update_order id f ;! k) Q E s.
Proof. intros Ha Hk. apply wp_bind, wp_modify, Hk, at_update, Ha. Qed.

Lemma wp_upd_at_last id o v f s (Q : unit -> System -> Prop) E :
  at_ id o v s -> (forall s', at_ id (f o) v s' -> Q tt s') -> wp (update_order id f) Q E s.
Proof. intros Ha Hk. apply wp_modify, Hk, at_update, Ha. Qed.

(** A change of the manager's records. *)
Lemma wp_note_at {A} id o v f s (k : OM A) Q E :
  at_ id o v s -> (forall s, oms_orders (f s) = oms_orders s) -> (forall s, oms_world (f s) = oms_world s) ->
  (forall s', at_ id o v s' -> wp k Q E s') -> wp (modify f ;! k) Q E s.
Proof.
  intros Ha H1 H2 Hk. apply wp_bind, wp_modify, Hk. apply (at_frame id o v s); [apply H1| |exact Ha].
  unfold book_of. now rewrite H2.
Qed.

Lemma wp_transition_at {A} id o v new s (k : OM A) Q E :
  at_ id o v s -> o_state o <> new -> LEGAL (o_state o) new = true ->
  (forall s', at_ id (set_state new o) v s' -> wp k Q E s') -> wp (transition id new ;! k) Q E s.
Proof.
  intros Ha Hne Hl Hk. apply wp_bind. unfold wp at 1. rewrite transition_eq. cbv zeta. rewrite (proj1 Ha).
  rewrite bool_decide_eq_false_2 by congruence. rewrite Hl. apply Hk, at_update, Ha.
Qed.

Lemma wp_wall_at {A} id o v s (k : Z -> OM A) Q E :
  at_ id o v s -> (forall n s', at_ id o v s' -> wp (k n) Q E s') -> wp (let! n := wall_ns in k n) Q E s.
Proof.
  intros Ha Hk. apply wp_bind. unfold wp at 1, wall_ns, ask. cbn. destruct (read_clock (oms_world s).2) as [c n].
  apply Hk. now apply (at_frame id o v s).
Qed.

Lemma wp_find_at {A} id o v s (k : option Order -> OM A) Q E :
  at_ id o v s -> wp (k (Some o)) Q E s -> wp (let! x := find_order id in k x) Q E s.
Proof. intros Ha Hk. apply wp_bind, wp_gets. now rewrite (proj1 Ha). Qed.

Lemma wp_state_at {A} id o v s (k : OrderState -> OM A) Q E :
  at_ id o v s -> wp (k (o_state o)) Q E s -> wp (let! x := state_of id in k x) Q E s.
Proof. intros Ha Hk. apply wp_bind. unfold wp at 1, state_of, find_order, mbind_, gets, ret. now rewrite (proj1 Ha). Qed.

(** An operation of the venue that leaves it as it is. *)
Lemma wp_ask_at {A B} id o v s (op : venue_op (Paper G * C) A) (k : A -> OM B) Q (E : exn -> System -> Prop) :
  at_ id o v s -> (forall w, (op w).1 = w) -> (forall a s', at_ id o v s' -> wp (k a) Q E s') ->
  (forall e s', at_ id o v s' -> E e s') -> wp (let! x := ask op in k x) Q E s.
Proof.
  intros Ha Hop Hk HE. apply wp_bind. unfold wp at 1, ask. specialize (Hop (oms_world s)).
  destruct (op (oms_world s)) as [w [a|e]]; cbn in Hop; subst w;
    [apply Hk|apply HE]; now apply (at_frame id o v s).
Qed.

(** The order is at this stage, with this fill or none yet. *)
Definition with_fill (id : string) (st : OrderState) (f : Fill) (v : option Order) s : Prop :=
  exists o, at_ id o v s /\ o_state o = st /\ o_fills o = [f].
Definition maybe_fill (id : string) (st : OrderState) (f : Fill) (v : option Order) s : Prop :=
  exists o, at_ id o v s /\ o_state o = st /\ (o_fills o = [] \/ o_fills o = [f]).

Lemma same_fill_refl f : same_fill f f = true.
Proof.
  unfold same_fill. rewrite bool_decide_eq_true_2 by reflexivity.
  unfold deqb. now rewrite !Z.eqb_refl.
Qed.

(** The manager adopts the fill the venue reports, once. *)
Lemma apply_fill_at id intent dp f o v s :
  at_ id o v s -> (o_fills o = [] \/ o_fills o = [f]) ->
  wp (apply_fill ms cb id intent dp f) (fun _ s' => with_fill id (o_state o) f v s')
    (fun _ s' => maybe_fill id (o_state o) f v s') s.
Proof.
  intros Ha Hf. unfold apply_fill. apply (wp_find_at id o v s); [exact Ha|].
  destruct Hf as [Hf|Hf]; rewrite Hf; cbn [existsb].
  2: { rewrite same_fill_refl. apply wp_ret. now exists o. }
  set (o1 := add_fill f o).
  assert (Hw : forall s', at_ id o1 v s' -> with_fill id (o_state o) f v s').
  { intros s' H1. exists o1. split; [exact H1|]. split; [reflexivity|]. unfold o1. cbn. now rewrite Hf. }
  assert (Hm : forall s', at_ id o1 v s' -> maybe_fill id (o_state o) f v s').
  { intros s' H1. destruct (Hw s' H1) as (o' & ? & ? & ?). exists o'. auto. }
  apply (wp_upd_at id o v _ s _ _ _ Ha). fold o1. intros s1 H1.
  assert (Hrest : forall slip t, at_ id o1 v t ->
    wp (modify (add_quality (mkQuality (price_or dp (fill_price f)) (fill_price f) slip false None (Some (fill_ts_ns f)))) ;!
        journal ORDER_FILLED id ;!
        when (match ms with Some m => (slip >? m)%dec | None => false end)
          (modify (add_breach (mkBreach id (oi_instrument intent) slip)) ;! journal LIMIT_BREACH id) ;!
        match cb with
        | Some g => let! o := find_order id in match o with Some o => ask (g o f) | None => ret tt end
        | None => ret tt
        end) (fun _ s' => with_fill id (o_state o) f v s') (fun _ s' => maybe_fill id (o_state o) f v s') t).
  { intros slip t Ht. apply (wp_note_at id o1 v _ t _ _ _ Ht); [reflexivity|reflexivity|]. intros t1 H2.
    apply (wp_note_at id o1 v _ t1 _ _ _ H2); [reflexivity|reflexivity|]. intros t2 H3.
    apply wp_bind. apply (wp_mono _ (fun _ s' => at_ id o1 v s') _ (fun _ s' => at_ id o1 v s')); [| |intros e s'; apply Hm].
    { apply wp_when; intros _; [|exact H3]. apply (wp_note_at id o1 v _ t2 _ _ _ H3); [reflexivity|reflexivity|].
      intros t3 H4. apply wp_modify. now apply (at_frame id o1 v t3). }
    intros [] t3 H4. destruct cb as [g|] eqn:Ecb; [|apply wp_ret; auto].
    apply (wp_find_at id o1 v t3); [exact H4|].
    unfold wp, ask. pose proof (cb_passive g o1 f (oms_world t3) eq_refl) as Hg.
    destruct (g o1 f (oms_world t3)) as [w [[]|e]]; cbn [fst] in Hg; subst w;
      [apply Hw|apply Hm]; now apply (at_frame id o1 v t3). }
  unfold slippage. destruct dp as [d|]; [|apply wp_bind, wp_ret; now apply Hrest].
  apply wp_bind. apply (wp_ask_at id o1 v s1); [exact H1|now intros w| |auto].
  intros inst s2 H2. wp_step. wp_step; [|auto]. apply wp_ret. now apply Hrest.
Qed.

Lemma at_acked id o v s vid n : at_ id o v s -> at_ id (set_acked vid n o) v (set_orders (order_update id (set_acked vid n)) s).
Proof. apply at_update. Qed.

(** What may be decided about an order in one of these stages. *)
Definition open_stage (st : OrderState) : Prop := st = SENT \/ st = UNKNOWN.

(** The venue reports the execution: the manager's order ends filled, with that
    fill, unless adopting the fill raises. *)
Lemma apply_result_filled id intent r dp f o v s (E : exn -> System -> Prop) :
  at_ id o v s -> open_stage (o_state o) ->
  sr_state r = FILLED \/ sr_state r = PARTIAL -> sr_fills r = [f] -> sr_stop_confirmed r = true ->
  (forall o1 s1, at_ id o1 v s1 -> o_state o1 = o_state o -> o_fills o1 = o_fills o ->
     wp (apply_fill ms cb id intent dp f) (fun _ s' => with_fill id (o_state o) f v s') E s1) ->
  wp (apply_result ms cb id intent r dp) (fun _ s' => with_fill id (sr_state r) f v s') E s.
Proof.
  intros Ha Hst Hr Hrf Hrs Hfill. unfold apply_result.
  apply (wp_wall_at id o v s _ _ _ Ha). intros n s1 H1. apply (wp_upd_at id o v _ s1 _ _ _ H1). intros s2 H2.
  rewrite Hrf, Hrs. set (o2 := set_acked _ n o) in *. set (st := sr_state r) in *. clearbody st.
  destruct Hr as [-> | ->]; cbn [target_of each]; cbv zeta; change (o_state o) with (o_state o2) in *.
  all: apply wp_bind, wp_bind; eapply wp_mono; [apply (Hfill o2 s2 H2); reflexivity| |auto].
  all: intros [] s3 (o3 & H3 & Es3 & Ef3); apply wp_ret; apply (wp_find_at id o3 v s3); [exact H3|].
  all: rewrite Ef3, bool_decide_eq_false_2 by discriminate; rewrite andb_false_r.
  all: apply wp_bind; apply (wp_mono _ (fun _ s' => s' = s3) _ (fun _ _ => False));
    [destruct (oi_stop_loss intent); reflexivity| |contradiction].
  all: intros [] s4 ->; eapply (wp_transition_at id o3 v _ s3);
    [exact H3|rewrite Es3; destruct Hst as [-> | ->]; discriminate|rewrite Es3; now destruct Hst as [-> | ->]|].
  all: intros s5 H5; apply wp_modify; eexists;
    (split; [eapply (at_frame id _ v s5); [reflexivity|reflexivity|exact H5]|]; split; [reflexivity|exact Ef3]).
Qed.

Lemma apply_result_rejected id intent r dp o v s :
  at_ id o v s -> o_state o = SENT -> sr_state r = REJECTED ->
  wp (apply_result ms cb id intent r dp)
    (fun _ s' => exists o', at_ id o' v s' /\ o_state o' = REJECTED /\ o_fills o' = o_fills o) (fun _ _ => False) s.
Proof.
  intros Ha Hst Hr. unfold apply_result. apply (wp_wall_at id o v s _ _ _ Ha). intros n s1 H1.
  apply (wp_upd_at id o v _ s1 _ _ _ H1). intros s2 H2. rewrite Hr. set (o2 := set_acked _ n o) in *.
  apply (wp_transition_at id o2 v REJECTED s2); [exact H2|change (o_state o <> REJECTED); congruence|change (LEGAL (o_state o) REJECTED = true); now rewrite Hst|].
  intros s3 H3. apply (wp_upd_at id _ v _ s3 _ _ _ H3). intros s4 H4.
  apply (wp_note_at id _ v _ s4 _ _ _ H4); [reflexivity|reflexivity|]. intros s5 H5. apply wp_modify.
  eexists. split; [eapply (at_frame id _ v s5); [reflexivity|reflexivity|exact H5]|]. split; reflexivity.
Qed.

Lemma becomes_unknown_at id inst o v s :
  at_ id o v s -> o_state o = SENT ->
  wp (becomes_unknown id inst)
    (fun _ s' => exists o', at_ id o' v s' /\ o_state o' = UNKNOWN /\ o_fills o' = o_fills o) (fun _ _ => False) s.
Proof.
  intros Ha Hst. unfold becomes_unknown. apply (wp_transition_at id o v UNKNOWN s); [exact Ha|congruence|now rewrite Hst|].
  intros s1 H1. apply (wp_note_at id _ v _ s1 _ _ _ H1); [reflexivity|reflexivity|]. intros s2 H2. apply wp_modify.
  eexists. split; [eapply (at_frame id _ v s2); [reflexivity|reflexivity|exact H2]|]. split; reflexivity.
Qed.

Lemma apply_result_unknown id intent r dp o v s :
  at_ id o v s -> o_state o = SENT -> sr_state r = UNKNOWN ->
  wp (apply_result ms cb id intent r dp)
    (fun _ s' => exists o', at_ id o' v s' /\ o_state o' = UNKNOWN /\ o_fills o' = o_fills o) (fun _ _ => False) s.
Proof.
  intros Ha Hst Hr. unfold apply_result. apply (wp_wall_at id o v s _ _ _ Ha). intros n s1 H1.
  apply (wp_upd_at id o v _ s1 _ _ _ H1). intros s2 H2. rewrite Hr. set (o2 := set_acked _ n o) in *.
  now apply (becomes_unknown_at id _ o2 v s2).
Qed.

(** ** A submission *)

(** The venue's side of a submission. *)
Lemma ask_submit intent o s :
  at_ (oi_client_order_id intent) o None s ->
  wp (attempt (ask (v_submit intent)))
    (fun r s' => match r with
       | Ok r => exists v, at_ (oi_client_order_id intent) o v s' /\ submitted intent r (book_of s')
       | Raise e => data_error e /\ exists v, at_ (oi_client_order_id intent) o v s'
       end) (fun _ _ => False) s.
Proof.
  intros (Ho & Hv & Hw & Hk). apply wp_attempt. unfold wp, ask. cbn [v_submit venue paper_venue]. unfold on_book.
  fold (book_of s).
  pose proof (submit_spec instruments profile ccy account_id (book_of s) intent timeout_ms offers Hw Hv) as Hs.
  pose proof (submit_raises instruments profile ccy account_id intent timeout_ms (book_of s)) as Hr. unfold wp in Hs.
  destruct (Paper.submit instruments profile ccy account_id intent timeout_ms (book_of s)) as [b [r|e]].
  - destruct Hs as (H1 & H2 & H3). exists (dict_get (oi_client_order_id intent) (pb_orders b)). split; [|exact H3].
    split; [exact Ho|]. split; [reflexivity|]. split; [exact H1|]. intros k Hne.
    apply (agree_at_frame k s); [reflexivity|exact (H2 k Hne)|auto].
  - destruct Hs as (H1 & H2). split; [now apply Hr|]. exists (dict_get (oi_client_order_id intent) (pb_orders b)).
    split; [exact Ho|]. split; [reflexivity|]. split; [exact H1|]. intros k Hne.
    apply (agree_at_frame k s); [reflexivity|exact (H2 k Hne)|auto].
Qed.

Lemma maybe_fill_agree id f v s :
  maybe_fill id SENT f (Some v) s -> o_fills v = [f] -> agree s.
Proof.
  intros (o & Ha & Est & Hf) Hv. apply (at_agree id o (Some v) s Ha). unfold consistent. rewrite Est.
  destruct Hf as [Hf|Hf]; [now left|right]. exists v. split; [reflexivity|congruence].
Qed.

Lemma send_loop_agree fuel intent dp o s :
  at_ (oi_client_order_id intent) o None s -> o_state o = PENDING -> o_fills o = [] ->
  wp (send_loop mr ms cb fuel (oi_client_order_id intent) intent dp 0) (fun _ => agree) (fun _ => agree) s.
Proof.
  intros Ha Hst Hf. set (id := oi_client_order_id intent) in *.
  assert (Hex : wp (exhausted id (oi_instrument intent)) (fun _ => agree) (fun _ => agree) s).
  { unfold exhausted, becomes_unknown. apply wp_bind. unfold wp at 1. rewrite transition_eq. cbv zeta.
    rewrite (proj1 Ha), Hst. cbn. apply (at_agree id o None); [now apply (at_frame id o None s)|].
    unfold consistent. rewrite Hst. now left. }
  destruct fuel as [|fuel]; cbn [send_loop]; [exact Hex|]. destruct (negb _); [exact Hex|]. cbv zeta.
  apply (wp_upd_at id o None _ s _ _ _ Ha). intros s1 H1.
  apply (wp_transition_at id _ None SENT s1 _ _ _ H1); [change (o_state o <> SENT); congruence|change (LEGAL (o_state o) SENT = true); now rewrite Hst|].
  intros s2 H2. apply (wp_wall_at id _ None s2 _ _ _ H2). intros n s3 H3.
  apply (wp_upd_at id _ None _ s3 _ _ _ H3). intros s4 H4.
  apply (wp_note_at id _ None _ s4 _ _ _ H4); [reflexivity|reflexivity|]. intros s5 H5.
  apply (wp_note_at id _ None _ s5 _ _ _ H5); [reflexivity|reflexivity|]. intros s6 H6.
  set (o6 := set_sent n (set_state SENT (set_attempts (0 + 1) o))) in *.
  assert (E6 : o_state o6 = SENT) by reflexivity. assert (F6 : o_fills o6 = []) by exact Hf.
  apply wp_bind. eapply wp_mono; [apply (ask_submit intent o6 s6 H6)| |contradiction].
  intros [r|e] s7 H7; cbv beta.
  - destruct H7 as (v & H7 & [(Er & Efr & Efv)|(v' & f & Ev & Efv & Esv & Ec & Hout)]).
    + destruct (dict_get id (pb_orders (book_of s7))) as [v'|] eqn:Ev.
      all: eapply wp_mono; [apply (apply_result_rejected id intent r dp o6 v s7 H7 E6 Er)| |contradiction].
      all: intros [] s8 (o8 & H8 & E8 & F8); apply (at_agree id o8 v s8 H8); unfold consistent; rewrite E8, F8, F6.
      all: split; [reflexivity|]; intros w Hw; destruct H7 as (_ & Hv & _); fold id in Efv; rewrite Hw in Hv; unfold fills_of in Efv;
        fold id in Hv; rewrite Hv in Efv; exact Efv.
    + pose proof H7 as (_ & Hv & _). fold id in Ev, Hv. rewrite Ev in Hv. subst v. destruct Hout as [[Er Efr]|[Er Efr]].
      * eapply wp_mono; [apply (apply_result_unknown id intent r dp o6 (Some v') s7 H7 E6 Er)| |contradiction].
        intros [] s8 (o8 & H8 & E8 & F8). apply (at_agree id o8 (Some v') s8 H8). unfold consistent. rewrite E8, F8, F6.
        exists v', f. auto.
      * eapply wp_mono; [apply (apply_result_filled id intent r dp f o6 (Some v') s7 (fun _ s' => maybe_fill id SENT f (Some v') s') H7);
          [now left|exact Er|exact Efr|exact Ec|]| |].
        -- intros o8 s8 H8 Es8 Ef8. rewrite E6. rewrite <- E6, <- Es8. apply apply_fill_at; [exact H8|]. left. congruence.
        -- intros [] s8 (o8 & H8 & E8 & F8). apply (at_agree id o8 (Some v') s8 H8). unfold consistent.
           rewrite E8, F8. destruct Er as [-> | ->]; exists v', f; auto.
        -- intros e s8 H8. now apply (maybe_fill_agree id f v').
  - destruct H7 as [He (v & H7)]. assert (Hag : agree s7) by (apply (at_agree id o6 v s7 H7); unfold consistent; rewrite E6; now left).
    destruct e; try contradiction; exact Hag.
Qed.

Lemma submit_agree intent dp s :
  lock_inv s -> agree s -> wp (submit mr ms cb intent dp) (fun _ => agree) (fun _ => agree) s.
Proof.
  intros Hl [Hw Hk]. unfold submit. wp_step. wp_step. cbv beta. destruct (bool_decide _); [split; assumption|].
  apply wp_bind, wp_gets. destruct (order_get (oi_client_order_id intent) (oms_orders s)) as [o|] eqn:Eo.
  - apply wp_bind, wp_modify, wp_ret. split; [exact Hw|]. intros k. now apply (agree_at_frame k s).
  - apply wp_bind, wp_modify. apply wp_bind, wp_modify. set (s1 := add_event _ _).
    assert (Ha : at_ (oi_client_order_id intent) (new_order intent) None s1).
    { split; [|split; [|split; [exact Hw|]]].
      - cbn. rewrite order_get_app, Eo. cbn. now rewrite bool_decide_eq_true_2.
      - specialize (Hk (oi_client_order_id intent)). unfold agree_at in Hk. now rewrite Eo in Hk.
      - intros k Hne. apply (agree_at_frame k s); [|reflexivity|auto]. cbn. rewrite order_get_app. cbn.
        rewrite bool_decide_eq_false_2 by congruence. now destruct (order_get k (oms_orders s)). }
    apply wp_bind. eapply wp_mono; [apply (send_loop_agree (submit_fuel mr) intent dp _ s1 Ha eq_refl eq_refl)| |auto].
    intros [] s2 H2. exact H2.
Qed.
(** ** Asking the venue about an order *)


(** The venue's answer about an order it executed, whatever it had answered to
    the submission. *)
Lemma query_at id o v f s :
  at_ id o (Some v) s -> o_fills v = [f] ->
  exists s' r v', ask (v_query_order id) s = (s', Ok (Some r)) /\ at_ id o (Some v') s' /\ o_fills v' = [f] /\
    sr_state r = FILLED /\ sr_fills r = [f] /\ sr_stop_confirmed r = true.
Proof.
  intros Ha Hv. pose proof Ha as (Ho & Hd & Hw & Hk).
  unfold ask. cbn [v_query_order venue paper_venue]. unfold on_book. fold (book_of s).
  rewrite (query_order_eq _ _ _ Hd). rewrite Hv. rewrite bool_decide_eq_false_2 by discriminate. cbn [negb].
  destruct (_ && _); cbv zeta.
  - eexists _, _, (order_in FILLED v). split; [reflexivity|].
    split; [|auto]. split; [exact Ho|]. split; [cbn; now rewrite dict_get_set, bool_decide_eq_true_2|].
    split; [now apply Paper_wf_order_in|]. intros k Hne. apply (agree_at_frame k s); [reflexivity| |auto].
    cbn. now rewrite dict_get_set, bool_decide_eq_false_2.
  - eexists _, _, v. split; [reflexivity|].
    split; [|auto]. now apply (at_frame id o (Some v) s).
Qed.

(** Settled: the order is filled with exactly the venue's fill, and its
    instrument can trade again. *)
Definition settled_at (id inst : string) s : Prop :=
  exists o v f, at_ id o (Some v) s /\ o_state o = FILLED /\ o_fills o = [f] /\ o_fills v = [f] /\
    inst ∉ oms_quarantine s.

Lemma resolve_query_at id o v f s (E : exn -> System -> Prop) :
  at_ id o (Some v) s -> o_state o = UNKNOWN -> o_fills v = [f] ->
  (forall v' o1 s1, at_ id o1 (Some v') s1 -> o_state o1 = UNKNOWN -> o_fills o1 = o_fills o -> o_fills v' = [f] ->
     wp (apply_fill ms cb id (o_intent o) None f) (fun _ s' => with_fill id UNKNOWN f (Some v') s') E s1) ->
  wp (resolve_query ms cb id (o_intent o)) (fun _ s' => settled_at id (oi_instrument (o_intent o)) s') E s.
Proof.
  intros Ha Hu Hv Hfill. unfold resolve_query. apply (wp_note_at id o (Some v) _ s _ _ _ Ha); [reflexivity|reflexivity|].
  intros s1 H1. apply wp_bind, wp_attempt. destruct (query_at id o v f s1 H1 Hv) as (s2 & r & v' & Eq & H2 & Hv' & Er & Ef & Ec).
  unfold wp at 1. rewrite Eq. apply wp_bind.
  eapply wp_mono; [apply (apply_result_filled id (o_intent o) r None f o (Some v') s2 E H2);
    [now right|now left|exact Ef|exact Ec|]| |auto].
  - intros o1 s3 H3 E3 F3. rewrite Hu in E3 |- *. now apply (Hfill v' o1).
  - intros [] s3 (o3 & H3 & E3 & F3). rewrite Er in E3. apply (wp_state_at id o3 (Some v') s3); [exact H3|].
    rewrite E3. apply wp_bind, wp_modify, wp_bind, wp_modify, wp_gets. exists o3, v', f.
    split; [now apply (at_frame id o3 (Some v') s3)|]. repeat (split; [assumption|]). cbn. set_solver.
Qed.

(** ** What resolving one order leaves alone *)

Definition only (id inst : string) s s' : Prop :=
  (forall k, k <> id -> order_get k (oms_orders s') = order_get k (oms_orders s)) /\
  forall i, i <> inst -> i ∈ oms_quarantine s' <-> i ∈ oms_quarantine s.
#[local] Instance only_preorder id inst : PreOrder (only id inst).
Proof.
  split; [now split|]. intros a b c [H1 H2] [H3 H4]. split; [intros k Hk; rewrite H3, H1; auto|].
  intros i Hi. rewrite H4, H2; auto.
Qed.




(** An unknown order the manager and the venue agree on. *)
Lemma agree_unknown id o s :
  agree s -> order_get id (oms_orders s) = Some o -> o_state o = UNKNOWN ->
  exists v f, at_ id o (Some v) s /\ o_fills v = [f] /\ (o_fills o = [] \/ o_fills o = [f]).
Proof.
  intros [Hw Hk] Ho Hu. pose proof (Hk id) as Hi. unfold agree_at in Hi. rewrite Ho in Hi. unfold consistent in Hi.
  rewrite Hu in Hi. destruct Hi as (v & f & Hv & Hf & Hof). exists v, f.
  split; [split; [exact Ho|split; [exact Hv|split; [exact Hw|auto]]]|auto].
Qed.

Lemma settled_agree id inst s : settled_at id inst s -> agree s.
Proof.
  intros (o & v & f & Ha & Est & Ef & Ev & _). apply (at_agree id o (Some v) s Ha). unfold consistent. rewrite Est.
  exists v, f. auto.
Qed.

Lemma resolve_agree id s :
  agree s -> wp (resolve_unknown ms cb id) (fun _ => agree) (fun _ => agree) s.
Proof.
  intros Hs. destruct (order_get id (oms_orders s)) as [o|] eqn:Ho.
  - pose proof (resolve_unknown_eq ms cb id s o Ho) as Eq. case_bool_decide as Hu.
    2: { apply (wp_same _ (ret (Some o)) _ _ s Eq). exact Hs. }
    apply (wp_same _ _ _ _ s Eq).
    destruct (agree_unknown id o s Hs Ho Hu) as (v & f & Ha & Hv & Hf).
    eapply wp_mono; [apply (resolve_query_at id o v f s (fun _ => agree) Ha Hu Hv)| |auto].
    + intros v' o1 s1 H1 E1 F1 Hv'. eapply wp_mono; [apply (apply_fill_at id (o_intent o) None f o1 (Some v') s1 H1)| |].
      * now rewrite F1.
      * intros [] s2 H2. now rewrite E1 in H2.
      * intros e s2 (o2 & H2 & E2 & F2). apply (at_agree id o2 (Some v') s2 H2). unfold consistent.
        rewrite E2, E1. exists v', f. auto.
    + intros a s1 H1. exact (settled_agree id _ s1 H1).
  - unfold resolve_unknown. apply wp_bind, wp_gets. rewrite Ho. apply wp_ret. exact Hs.
Qed.



(** ** Resolving everything *)

Abbreviation cid o := (oi_client_order_id (o_intent o)).
Abbreviation inst_of o := (oi_instrument (o_intent o)).





(** ** What a call does at the venue *)

Abbreviation fills_at id s := (fills_of id (pb_orders (book_of s))).

(** Nothing is executed, except the order [id] if it was not yet: once. *)
Definition executes_at_most (id : string) s s' : Prop :=
  Paper_wf instruments (book_of s) ->
  Paper_wf instruments (book_of s') /\ (forall k, k <> id -> fills_at k s' = fills_at k s) /\
  (fills_at id s' = fills_at id s \/
   fills_at id s = [] /\ exists f, fills_at id s' = [f] /\ fill_client_order_id f = id).
#[local] Instance executes_preorder id : PreOrder (executes_at_most id).
Proof.
  split; [intros s Hw; auto|]. intros a b c H1 H2 Hw. destruct (H1 Hw) as (Hb & O1 & E1). destruct (H2 Hb) as (Hc & O2 & E2).
  split; [exact Hc|]. split; [intros k Hk; rewrite O2, O1; auto|].
  destruct E1 as [E1|[N1 (f & F1 & I1)]], E2 as [E2|[N2 (g & F2 & I2)]]; try congruence; eauto.
  - left. congruence.
  - right. split; [congruence|eauto].
  - right. split; [exact N1|]. exists f. split; [congruence|exact I1].
Qed.

Lemma executes_none id s s' :
  (Paper_wf instruments (book_of s) -> Paper_wf instruments (book_of s') /\ forall k, fills_at k s' = fills_at k s) ->
  executes_at_most id s s'.
Proof. intros H Hw. destruct (H Hw) as [H1 H2]. auto. Qed.

Lemma executes_same id s s' : book_of s' = book_of s -> executes_at_most id s s'.
Proof. intros E. apply executes_none. now rewrite E. Qed.

(** The fills held for an order, if it is known. *)
Definition held (k : string) (b : Paper G) : option (list Fill) := option_map o_fills (dict_get k (pb_orders b)).

Lemma held_fills k b b' : held k b' = held k b -> fills_of k (pb_orders b') = fills_of k (pb_orders b).
Proof. unfold held, fills_of. destruct (dict_get k (pb_orders b)), (dict_get k (pb_orders b')); cbn; congruence. Qed.

(** Any other operation of the book, in the manager's world or outside it. *)
Definition no_execution (c : Paper G -> Paper G) : Prop :=
  forall b, Paper_wf instruments b -> Paper_wf instruments (c b) /\ forall k, held k (c b) = held k b.

Lemma no_execution_evolves {A} (c : PM A) : Evolves instruments c -> no_execution (fun b => (c b).1).
Proof.
  intros Hc b Hw. assert (H : evolves instruments b (c b).1)
    by (apply (wp_state c), Hc, evolves_refl; apply Hw).
  split; [now apply (evolves_wf instruments b)|]. intros k. unfold held. now rewrite (ev_orders _ _ _ H).
Qed.

Lemma held_order_in (b : Paper G) id o st k :
  dict_get id (pb_orders b) = Some o -> held k (upd_orders (dict_set id (order_in st o)) b) = held k b.
Proof.
  intros Ho. unfold held. cbn. rewrite dict_get_set. case_bool_decide; [subst|reflexivity]. now rewrite Ho.
Qed.

Lemma no_execution_query id : no_execution (fun b => (query_order id b).1).
Proof.
  intros b Hw. split; [now apply query_wf|]. intros k. destruct (dict_get id (pb_orders b)) as [o|] eqn:Ho.
  - rewrite (query_order_eq _ _ _ Ho). cbn [fst]. cbv zeta. destruct (_ && _); [now apply held_order_in|reflexivity].
  - unfold query_order, mbind_, gets, ret. now rewrite Ho.
Qed.

Lemma no_execution_cancel id : no_execution (fun b => (cancel id b).1).
Proof.
  intros b Hw. split; [now apply cancel_wf|]. intros k. unfold cancel, mbind_, gets, ret.
  destruct (dict_get id (pb_orders b)) as [o|] eqn:Ho; [|reflexivity].
  destruct (terminal (o_state o)); [reflexivity|]. rewrite (upd_order_eq _ _ _ _ Ho).
  exact (held_order_in b id o CANCELLED k Ho).
Qed.

Lemma executes_book id b s : no_execution b -> executes_at_most id s (set_world (b (book_of s), (oms_world s).2) s).
Proof. intros Hb. apply executes_none. intros Hw. destruct (Hb _ Hw) as [H1 H2].
  split; [exact H1|]. intros k. now apply held_fills. Qed.

Lemma executes_ask {A} id (c : PM A) : no_execution (fun b => (c b).1) -> Steps (executes_at_most id) (ask (on_book c)).
Proof.
  intros Hc s. unfold ask, on_book. fold (book_of s). pose proof (executes_book id _ s Hc) as H. cbv beta in H.
  destruct (c (book_of s)) as [b r]. exact H.
Qed.

Lemma executes_submit intent : Steps (executes_at_most (oi_client_order_id intent)) (ask (v_submit intent)).
Proof.
  intros s Hw. unfold ask. cbn [v_submit venue paper_venue]. unfold on_book. fold (book_of s).
  destruct (dict_get (oi_client_order_id intent) (pb_orders (book_of s))) as [o|] eqn:Ho.
  { rewrite (submit_known _ _ _ _ _ _ _ _ Ho). auto. }
  assert (Hs : let b := (Paper.submit instruments profile ccy account_id intent timeout_ms (book_of s)).1 in
    Paper_wf instruments b /\ others_same (oi_client_order_id intent) (book_of s) b).
  { apply (wp_state (Paper.submit instruments profile ccy account_id intent timeout_ms)
             (fun b => Paper_wf instruments b /\ others_same (oi_client_order_id intent) (book_of s) b)).
    eapply wp_mono; [now apply submit_spec|now intros r b (? & ? & _)|auto]. }
  destruct (Paper.submit instruments profile ccy account_id intent timeout_ms (book_of s)) as [b r].
  destruct Hs as [Hb Hoth]. cbn [fst] in *. split; [exact Hb|].
  split; [intros k Hk; unfold fills_of; cbn; now rewrite (Hoth k Hk)|].
  unfold fills_of at 2 3. rewrite Ho. unfold fills_of. cbn.
  destruct (dict_get (oi_client_order_id intent) (pb_orders b)) as [v|] eqn:Ev; [|auto].
  destruct (wf_orders _ _ Hb) as [_ Hv]. destruct (Hv _ _ (dict_get_elem _ _ _ Ev)) as (_ & Hlen & _ & Hid).
  destruct (o_fills v) as [|f [|g fs]]; [auto| |cbn in Hlen; lia]. right. split; [reflexivity|]. exists f.
  split; [reflexivity|]. now apply List.Forall_cons_iff in Hid as [Hid _].
Qed.

Lemma executes_modify id f : (forall s, oms_world (f s) = oms_world s) -> Steps (executes_at_most id) (modify f).
Proof. intros Hf s. apply executes_same. unfold book_of. cbn. now rewrite Hf. Qed.

Lemma executes_read {A} id (op : venue_op (Paper G * C) A) : (forall w, (op w).1.1 = w.1) -> Steps (executes_at_most id) (ask op).
Proof.
  intros Hop s. unfold ask. specialize (Hop (oms_world s)). destruct (op (oms_world s)) as [w r].
  now apply executes_same.
Qed.

Lemma executes_callback id g o f : cb = Some g -> Steps (executes_at_most id) (ask (g o f)).
Proof. intros E. apply executes_read. intros w. now rewrite (cb_passive g o f w E). Qed.

Ltac executing :=
  unfold wall_ns; oms_steps ltac:(first
    [ apply executes_modify; reflexivity
    | apply executes_read; intros ?; cbn; first [reflexivity | now destruct (read_clock _)]
    | eauto ]).

Lemma executes_apply_fill id id' intent dp f : Steps (executes_at_most id) (apply_fill ms cb id' intent dp f).
Proof.
  pose proof (executes_callback id) as Hcb. unfold apply_fill, slippage. destruct cb as [g|]; executing.
Qed.
#[local] Hint Resolve executes_apply_fill : core.

Lemma executes_transition id id' new : Steps (executes_at_most id) (transition id' new).
Proof. unfold transition. executing. Qed.
#[local] Hint Resolve executes_transition : core.

Lemma executes_reassert id id' intent stop : Steps (executes_at_most id) (reassert_stop id' intent stop).
Proof.
  pose proof (executes_ask id (modify_position instruments (oi_instrument intent) (Some stop) None)
                (no_execution_evolves _ (Evolves_modify instruments _ _ _))) as Hm.
  unfold reassert_stop. executing.
Qed.
#[local] Hint Resolve executes_reassert : core.

Lemma executes_unknown id id' inst : Steps (executes_at_most id) (becomes_unknown id' inst).
Proof. unfold becomes_unknown. executing. Qed.
#[local] Hint Resolve executes_unknown : core.

Lemma executes_apply_result id id' intent r dp : Steps (executes_at_most id) (apply_result ms cb id' intent r dp).
Proof. unfold apply_result. executing. Qed.
#[local] Hint Resolve executes_apply_result : core.

Lemma executes_resolve id id' : Steps (executes_at_most id) (resolve_unknown ms cb id').
Proof.
  pose proof (executes_ask id (query_order id') (no_execution_query id')) as Hq.
  unfold resolve_unknown, resolve_query. executing.
Qed.
#[local] Hint Resolve executes_resolve : core.

Lemma executes_send_loop fuel intent dp : forall att,
  Steps (executes_at_most (oi_client_order_id intent)) (send_loop mr ms cb fuel (oi_client_order_id intent) intent dp att).
Proof.
  pose proof (executes_submit intent) as Hsub.
  induction fuel as [|fuel IH]; intros att; cbn [send_loop]; unfold exhausted; executing.
Qed.
#[local] Hint Resolve executes_send_loop : core.

(** The order a call submits; the others execute nothing. *)
Definition call_id (c : Call) : option string :=
  match c with CSubmit intent _ => Some (oi_client_order_id intent) | _ => None end.

Lemma executes_call c id : call_id c = None \/ call_id c = Some id -> Steps (executes_at_most id) (run_call mr ms cb c).
Proof.
  intros Hid. destruct c as [intent dp|id'| |inst]; cbn [run_call].
  - destruct Hid as [Hid|[= <-]]; [discriminate|]. unfold submit. executing.
  - executing.
  - unfold resolve_all_unknown. executing.
  - unfold release_quarantine. executing.
Qed.

(** ** The system: calls of the manager, the market and the clock, interleaved *)

(** A step, with the order it submits. *)
Inductive sys_step : option string -> System -> System -> Prop :=
| step_call c s : may_call c s -> sys_step (call_id c) s (run_call mr ms cb c s).1
| step_venue op s :
    (forall intent t, op <> OpSubmit intent t) ->
    sys_step None s (set_world ((run_op instruments profile ccy account_id op (book_of s)).1, (oms_world s).2) s)
| step_clock c s : sys_step None s (set_world (book_of s, c) s).

Inductive sys_reachable : System -> Prop :=
| sys_init balance start_ns rng c : sys_reachable (mkOms [] ∅ [] [] [] (open_paper ccy balance start_ns rng, c))
| sys_next submitted s s' : sys_reachable s -> sys_step submitted s s' -> sys_reachable s'.

Lemma consistent_held o v v' : option_map o_fills v' = option_map o_fills v -> consistent o v -> consistent o v'.
Proof.
  intros E. unfold consistent. destruct v as [v|], v' as [v'|]; try discriminate E; [|auto].
  cbn in E. injection E as E. destruct (o_state o); auto.
  - intros [H|(x & [= <-] & H)]; [now left|right]. exists v'. now rewrite E.
  - intros [H|(x & [= <-] & H)]; [now left|right]. exists v'. now rewrite E.
  - intros (x & f & [= <-] & H). exists v', f. now rewrite E.
  - intros (x & f & [= <-] & H). exists v', f. now rewrite E.
  - intros [H1 H2]. split; [exact H1|]. intros x [= <-]. rewrite E. now apply H2.
  - intros (x & f & [= <-] & H). exists v', f. now rewrite E.
Qed.

Lemma agree_venue s b c :
  no_execution b -> agree s -> agree (set_world (b (book_of s), c) s).
Proof.
  intros Hb [Hw Hk]. destruct (Hb _ Hw) as [Hw' Hf]. split; [exact Hw'|]. intros k. specialize (Hk k). specialize (Hf k).
  unfold agree_at in *. cbn. unfold held in Hf. destruct (order_get k (oms_orders s)) as [o|].
  - exact (consistent_held o _ _ Hf Hk).
  - fold (book_of s) in *. rewrite Hk in Hf. cbn in Hf. now destruct (dict_get k (pb_orders (b (book_of s)))).
Qed.

Lemma agree_call c s : lock_inv s -> agree s -> agree (run_call mr ms cb c s).1.
Proof.
  intros Hl Hs. destruct c as [intent dp|id| |inst]; cbn [run_call].
  - pose proof (submit_agree intent dp s Hl Hs) as H. unfold wp, mbind_, ret in *. now destruct (submit mr ms cb intent dp s) as [s' [a|e]].
  - pose proof (resolve_agree id s Hs) as H. unfold wp, mbind_, ret in *. now destruct (resolve_unknown ms cb id s) as [s' [a|e]].
  - apply (Steps_wp agree (resolve_all_unknown ms cb)); [|exact Hs]. intros t Ht. unfold resolve_all_unknown.
    apply wp_bind, wp_gets, wp_each; [|exact Ht]. intros o t' _ Ht'. apply wp_bind.
    eapply wp_mono; [apply (resolve_agree _ t' Ht')|auto|auto].
  - unfold release_quarantine, mbind_, gets, when. cbn. destruct Hs as [Hw Hk]. destruct (bool_decide _); now split.
Qed.

Lemma no_execution_op op :
  (forall intent t, op <> OpSubmit intent t) -> no_execution (fun b => (run_op instruments profile ccy account_id op b).1).
Proof.
  intros Ho. destruct (market_op op) eqn:Em.
  - apply no_execution_evolves. now apply Evolves_market_op.
  - destruct op as [| | | | | | |i t|id|id| |]; try discriminate Em; [now destruct (Ho i t)| |]; intros b Hw; cbn [run_op];
      rewrite unit_state; [now apply no_execution_query|now apply no_execution_cancel].
Qed.

Lemma sys_invariant s : sys_reachable s -> lock_inv s /\ agree s.
Proof.
  induction 1 as [balance t0 rng c|submitted s s' _ [Hl Hs] Hstep].
  - split; [apply (lock_inv_reachable mr ms cb); apply reachable_init|]. split; [apply open_wf|]. intros k. reflexivity.
  - destruct Hstep as [c s Hc|op s Hop|c s].
    + split; [now apply lock_inv_call|now apply agree_call].
    + split; [exact Hl|]. apply (agree_venue s _ _ (no_execution_op op Hop) Hs).
    + split; [exact Hl|]. apply (agree_venue s (fun b => b) c); [|exact Hs]. intros b Hw. auto.
Qed.

(** ** The specification: which orders were executed *)

(** The fill each executed order got. *)
Definition Ledger := string -> option Fill.

(** The order that is submitted is executed, for the first and only time, or nothing is. *)
Definition ledger_step (submitted : option string) (l l' : Ledger) : Prop :=
  (forall k, l' k = l k) \/
  exists id f, submitted = Some id /\ l id = None /\ fill_client_order_id f = id /\ forall k, l' k = if bool_decide (k = id) then Some f else l k.

(** What the manager may say of an order, given its execution. *)
Definition reported (o : Order) (x : option Fill) : Prop :=
  match o_state o with
  | PENDING | SENT => o_fills o = [] \/ o_fills o = option_list x
  | UNKNOWN => exists f, x = Some f /\ (o_fills o = [] \/ o_fills o = [f])
  | FILLED | PARTIAL => exists f, x = Some f /\ o_fills o = [f]
  | REJECTED => x = None /\ o_fills o = []
  | ACKED | CANCELLED => False
  end.

Definition ledger_of s : Ledger := fun id => head (fills_at id s).

Definition implements s (l : Ledger) : Prop :=
  (forall id, fills_at id s = option_list (l id)) /\
  (forall id, (executions id (pb_transactions (book_of s)) <= length (option_list (l id)))%nat) /\
  forall id, match order_get id (oms_orders s) with Some o => reported o (l id) | None => l id = None end.

Lemma wf_fills id s : Paper_wf instruments (book_of s) -> fills_at id s = option_list (ledger_of s id).
Proof.
  intros Hw. unfold ledger_of. unfold fills_of. destruct (dict_get id (pb_orders (book_of s))) as [v|] eqn:Ev; [|reflexivity].
  destruct (wf_orders _ _ Hw) as [_ Hv]. destruct (Hv _ _ (dict_get_elem _ _ _ Ev)) as (_ & Hlen & _).
  now destruct (o_fills v) as [|f [|g fs]]; [| |cbn in Hlen; lia].
Qed.

Lemma consistent_reported o v x :
  match v with Some v => o_fills v | None => [] end = option_list x -> consistent o v -> reported o x.
Proof.
  intros E. unfold consistent, reported. destruct (o_state o); try done.
  - intros [H|(v' & -> & H)]; [now left|right; rewrite H; exact E].
  - intros [H|(v' & -> & H)]; [now left|right; rewrite H; exact E].
  - intros (v' & f & -> & Hv & Hf). exists f. rewrite Hv in E. destruct x; [|discriminate E]. injection E as ->. auto.
  - intros (v' & f & -> & Hv & Hf). exists f. rewrite Hv in E. destruct x; [|discriminate E]. injection E as ->. auto.
  - intros [Hf Hv]. split; [|exact Hf]. destruct v as [v|]; [rewrite (Hv v eq_refl) in E|]; now destruct x.
  - intros (v' & f & -> & Hv & Hf). exists f. rewrite Hv in E. destruct x; [|discriminate E]. injection E as ->. auto.
Qed.

Lemma agree_implements s : agree s -> implements s (ledger_of s).
Proof.
  intros [Hw Hk]. pose proof (fun id => wf_fills id s Hw) as Hf. split; [exact Hf|split].
  - intros id. rewrite <- Hf. apply (wf_once _ _ Hw).
  - intros id. specialize (Hk id). unfold agree_at in Hk. destruct (order_get id (oms_orders s)) as [o|].
    + apply (consistent_reported o _ _ (Hf id) Hk).
    + unfold ledger_of, fills_of. now rewrite Hk.
Qed.

Lemma executes_step id s s' :
  executes_at_most id s s' -> Paper_wf instruments (book_of s) -> ledger_step (Some id) (ledger_of s) (ledger_of s').
Proof.
  intros H Hw. destruct (H Hw) as (_ & Ho & [E|(N & f & E & Hid)]); [left|right].
  - intros k. unfold ledger_of. destruct (decide (k = id)) as [->|Hne]; [now rewrite E|now rewrite Ho].
  - exists id, f. unfold ledger_of. rewrite N. split; [reflexivity|]. split; [reflexivity|]. split; [exact Hid|]. intros k.
    case_bool_decide as Ek; [subst; now rewrite E|now rewrite Ho].
Qed.

(** A call that submits nothing executes nothing. *)
Lemma call_quiet c s k :
  call_id c = None -> Paper_wf instruments (book_of s) -> ledger_of (run_call mr ms cb c s).1 k = ledger_of s k.
Proof.
  intros E Hw. destruct (executes_call c ("x" +:+ k) (or_introl E) s Hw) as (_ & Ho & _).
  unfold ledger_of. rewrite Ho; [reflexivity|]. clear. intros H. apply (f_equal String.length) in H. change (String.length k = S (String.length k)) in H. lia.
Qed.

Lemma call_step c s :
  Paper_wf instruments (book_of s) -> ledger_step (call_id c) (ledger_of s) (ledger_of (run_call mr ms cb c s).1).
Proof.
  intros Hw. destruct (call_id c) as [id|] eqn:E; [|left; intros k; now apply call_quiet].
  apply (executes_step id); [|exact Hw]. apply executes_call. auto.
Qed.

(** Submitting an order the manager knows does not move the venue. *)
Lemma resubmission_quiet intent dp s o :
  order_get (oi_client_order_id intent) (oms_orders s) = Some o -> book_of (run_call mr ms cb (CSubmit intent dp) s).1 = book_of s.
Proof.
  intros Ho. cbn [run_call]. unfold submit, mbind_, gets. destruct (bool_decide _); [reflexivity|].
  unfold find_order, gets, modify, journal. rewrite Ho. reflexivity.
Qed.

(** C9: the manager over the simulated venue implements the ledger of
    executions.  Every interleaving of submissions, resolutions, releases, prices,
    closes, cancels and clock readings takes one step of the ledger at a time: the
    order the step submits is executed for the first and only time, if the manager
    did not know it before, or nothing is; a step that submits nothing executes
    nothing, a resolution of an order that was sent included.  After it the venue
    holds exactly the ledger's fills, its log shows none of them twice, no order is at
    the venue that the manager does not know, and what the manager says of each order is true of the ledger: filled with
    that fill, rejected without one, or unknown, which is only said of an order
    that was executed. *)
Theorem manager_refines_ledger submitted s s' :
  sys_reachable s -> sys_step submitted s s' ->
  implements s (ledger_of s) /\ ledger_step submitted (ledger_of s) (ledger_of s') /\ implements s' (ledger_of s') /\
  (forall id o, submitted = Some id -> order_get id (oms_orders s) = Some o -> forall k, ledger_of s' k = ledger_of s k).
Proof.
  intros Hr Hstep. destruct (sys_invariant s Hr) as [_ Hs]. split; [now apply agree_implements|].
  split; [|split; [apply agree_implements, sys_invariant; now apply (sys_next submitted s)|]].
  - pose proof (proj1 Hs) as Hw. destruct Hstep as [c s Hc|op s Hop|c s]; [now apply call_step| |left; reflexivity].
    left. intros k. destruct (no_execution_op op Hop _ Hw) as [_ Hk]. unfold ledger_of. f_equal. now apply held_fills.
  - intros id o -> Ho k. inversion Hstep as [c s0 Hc Ec| |]. subst s0. destruct c as [intent dp|id'| |inst]; try discriminate Ec.
    injection Ec as Ei. rewrite <- Ei in Ho. unfold ledger_of. now rewrite (resubmission_quiet intent dp s o Ho).
Qed.

End System.

(** ** A concrete run: the venue executes an order and the answer is lost *)

Module Lost.
Import Demo.

(** Any answer is later than one millisecond; the clock ticks when it is read. *)
Definition tick (c : Z) : Z * Z := ((c + 1)%Z, c).
Definition silent := @None (Order -> Fill -> venue_op (Paper (list spec_float) * Z) unit).
Definition step_of := sys_step market default_profile "USD" "PAPER-001" 1 tick 2 None silent.
Definition reached := sys_reachable market default_profile "USD" "PAPER-001" 1 tick 2 None silent.
Definition demo_venue := paper_venue (G := list spec_float) market default_profile "USD" "PAPER-001" 1 tick.

Definition empty : OmsState (Paper (list spec_float) * Z) :=
  mkOms [] ∅ [] [] [] (start (calm ++ [0.1; 0.5]%dec), 0%Z).
Definition quoted_once : OmsState (Paper (list spec_float) * Z) :=
  set_world ((run_op market default_profile "USD" "PAPER-001" first_quote (book_of empty)).1, (oms_world empty).2) empty.
Definition order : OrderIntent := buy "a" 0.10 (Some 1.0950%dec) (Some 1.1050%dec).
Definition call := CSubmit order (Some 1.1001%dec).
Definition lost : OmsState (Paper (list spec_float) * Z) := (run_call (Venue0 := demo_venue) 2 None silent call quoted_once).1.

Lemma quoted_reached : reached quoted_once.
Proof.
  apply (sys_next _ _ _ _ _ _ _ _ _ None empty); [apply sys_init|]. apply step_venue. intros intent t. discriminate.
Qed.
Lemma lost_step : step_of (Some "a") quoted_once lost.
Proof. exact (step_call _ _ _ _ _ _ _ _ _ call quoted_once I). Qed.

Definition unknown_at (id : string) (s : OmsState (Paper (list spec_float) * Z)) : bool :=
  match order_get id (oms_orders s) with Some o => bool_decide (o_state o = UNKNOWN) | None => false end.
Lemma lost_unknown : unknown_at "a" lost = true.
Proof. vm_compute. reflexivity. Qed.

Lemma silent_passive : forall g o f w, silent = Some g -> (g o f w).1 = w.
Proof. discriminate. Qed.
End Lost.

Lemma manager_refines_ledger_witness :
  Lost.step_of (Some "a") Lost.quoted_once Lost.lost /\ Lost.unknown_at "a" Lost.lost = true /\
  ledger_step (Some "a") (ledger_of Lost.quoted_once) (ledger_of Lost.lost).
Proof.
  split; [exact Lost.lost_step|]. split; [exact Lost.lost_unknown|].
  assert (H : forall s s', Lost.reached s -> Lost.step_of (Some "a") s s' -> ledger_step (Some "a") (ledger_of s) (ledger_of s')).
  { intros s s' Hr Hs. apply (manager_refines_ledger Demo.market default_profile "USD" "PAPER-001" 1 Lost.tick 2 None
      Lost.silent Lost.silent_passive Demo.market_ok (Some "a") s s' Hr Hs). }
  exact (H _ _ Lost.quoted_reached Lost.lost_step).
Defined.

