(* ===== verification/Reconcile.v ===== *)
(** [sentinel/execution/reconcile.py]: comparing the local book with the venue's
    and protecting what has no stop.  The computation's state is the report under
    construction, the positions the venue returned (objects the code mutates, by
    instrument), the audit records, which of the next writes to the journal succeed
    (those past the list do), and the venue.  Texts are presentation: a
    mismatch keeps its kind, instrument and severity, a note is a tag. *)

From Stdlib Require Import ZArith QArith Lia Lqa.
From stdpp Require Import base gmap strings list.
From S2P Require Import Prelude PyDecimal DecimalTheory Money Types StateExn Venue PyDict.

Local Open Scope dec_scope.
Local Open Scope py_scope.

(** ** The report *)

Inductive MismatchKind := Phantom | Orphan | Direction | SizeDrift.
Inductive MismatchSeverity := SevWarning | SevError | SevCritical.

Record Mismatch := mkMismatch {
  mm_kind : MismatchKind;
  mm_instrument : string;
  mm_severity : MismatchSeverity
}.

Inductive Note :=
| VenueUnreadable
| UnresolvedOrders (n : Z)
| NoPriceForStop (instrument : string)
| AttachFailed (instrument : string)
| StopAttached (instrument : string) (stop distance_pips : decimal) (derived : bool)
| RemainsUnprotected (instrument : string).

Record ReconcileReport := mkReport {
  rr_ts_ns : Z;
  rr_ok : bool;
  rr_mismatches : list Mismatch;
  rr_venue_positions : Z;
  rr_local_positions : Z;
  rr_unprotected : list string;
  rr_unresolved_orders : list string;
  rr_equity : option decimal;
  rr_last_transaction_id : string;
  rr_halt_required : bool;
  rr_notes : list Note
}.

Definition new_report (ts_ns : Z) : ReconcileReport := mkReport ts_ns true [] 0 0 [] [] None "" false [].

Definition not_ok (r : ReconcileReport) : ReconcileReport :=
  mkReport (rr_ts_ns r) false (rr_mismatches r) (rr_venue_positions r) (rr_local_positions r)
    (rr_unprotected r) (rr_unresolved_orders r) (rr_equity r) (rr_last_transaction_id r)
    (rr_halt_required r) (rr_notes r).
Definition require_halt (r : ReconcileReport) : ReconcileReport :=
  mkReport (rr_ts_ns r) (rr_ok r) (rr_mismatches r) (rr_venue_positions r) (rr_local_positions r)
    (rr_unprotected r) (rr_unresolved_orders r) (rr_equity r) (rr_last_transaction_id r)
    true (rr_notes r).
Definition add_mismatch (m : Mismatch) (r : ReconcileReport) : ReconcileReport :=
  mkReport (rr_ts_ns r) (rr_ok r) (rr_mismatches r ++ [m]) (rr_venue_positions r) (rr_local_positions r)
    (rr_unprotected r) (rr_unresolved_orders r) (rr_equity r) (rr_last_transaction_id r)
    (rr_halt_required r) (rr_notes r).
Definition add_unprotected (symbol : string) (r : ReconcileReport) : ReconcileReport :=
  mkReport (rr_ts_ns r) (rr_ok r) (rr_mismatches r) (rr_venue_positions r) (rr_local_positions r)
    (rr_unprotected r ++ [symbol]) (rr_unresolved_orders r) (rr_equity r) (rr_last_transaction_id r)
    (rr_halt_required r) (rr_notes r).
Definition add_note (n : Note) (r : ReconcileReport) : ReconcileReport :=
  mkReport (rr_ts_ns r) (rr_ok r) (rr_mismatches r) (rr_venue_positions r) (rr_local_positions r)
    (rr_unprotected r) (rr_unresolved_orders r) (rr_equity r) (rr_last_transaction_id r)
    (rr_halt_required r) (rr_notes r ++ [n]).
Definition fill_in (account : AccountState) (venue_positions local_positions : Z) (ids : list string)
    (r : ReconcileReport) : ReconcileReport :=
  mkReport (rr_ts_ns r) (rr_ok r) (rr_mismatches r) venue_positions local_positions
    (rr_unprotected r) ids (Some (acc_equity account)) (acc_last_transaction_id account)
    (rr_halt_required r) (rr_notes r).

Inductive Audit := AuditMismatch | AuditReconcile | AuditPositionModify (instrument : string).

(** The position after a stop was attached; the risk is rewritten if it can be. *)
Definition with_stop (stop : decimal) (p : Position) : Position :=
  mkPosition (pos_instrument p) (pos_side p) (pos_lots p) (pos_entry_price p) (pos_opened_ns p)
    (pos_strategy p) (Some stop) (pos_take_profit p) true (pos_client_order_id p) (pos_realised_pnl p)
    (pos_financing_paid p) (pos_commission_paid p) (pos_initial_risk p) (pos_max_favourable p)
    (pos_max_adverse p) (pos_partial_taken p) (pos_breakeven_moved p).
Definition with_risk (risk : decimal) (p : Position) : Position :=
  mkPosition (pos_instrument p) (pos_side p) (pos_lots p) (pos_entry_price p) (pos_opened_ns p)
    (pos_strategy p) (pos_stop_loss p) (pos_take_profit p) (pos_broker_stop_confirmed p)
    (pos_client_order_id p) (pos_realised_pnl p) (pos_financing_paid p) (pos_commission_paid p) risk
    (pos_max_favourable p) (pos_max_adverse p) (pos_partial_taken p) (pos_breakeven_moved p).

(** [venue.stop_loss is None or not venue.broker_stop_confirmed]. *)
Definition unprotected (p : Position) : bool :=
  match pos_stop_loss p with None => true | Some _ => negb (pos_broker_stop_confirmed p) end.

(** A conversion rate that can be used: [conv and conv > 0]. *)
Definition usable (conv : option decimal) : option decimal :=
  match conv with Some c => if negb (is_zero c) && (c >? 0) then Some c else None | None => None end.

(** The stop distance, and whether it comes from the position's own risk. *)
Definition stop_distance (inst : Instrument) (p : Position) (stop_pips : decimal) (conv : option decimal)
    : res (decimal * bool) :=
  if negb (is_zero (pos_initial_risk p)) && (pos_initial_risk p >? 0) then
    match usable conv with
    | Some c =>
        let pip_val := pip_value_quote inst (pos_lots p) * c in
        if pip_val >? 0 then
          let* want := ddiv (pos_initial_risk p) pip_val in
          if want >? 0 then Ok (dmin want stop_pips, true) else Ok (stop_pips, false)
        else Ok (stop_pips, false)
    | None => Ok (stop_pips, false)
    end
  else Ok (stop_pips, false).

(** The risk the book carries once the stop is [distance] pips away. *)
Definition repaired (inst : Instrument) (stop distance : decimal) (conv : option decimal) (p : Position) : Position :=
  let p := with_stop stop p in
  match usable conv with
  | Some c =>
      let pip_val := pip_value_quote inst (pos_lots p) * c in
      if pip_val >? 0 then with_risk (distance * pip_val) p else p
  | None => p
  end.

Section Reconciler.
Context {W : Type} `{!Venue W}.
Variable auto_protect : bool.

Record RState := mkRState {
  rs_report : ReconcileReport;
  rs_positions : list (string * Position);
  rs_audit : list Audit;
  rs_last_report : option ReconcileReport;
  rs_world : W;
  rs_appends : list bool
}.

Definition RM (A : Type) : Type := M RState A.
Definition on_report (f : ReconcileReport -> ReconcileReport) : RM unit :=
  modify (fun s => mkRState (f (rs_report s)) (rs_positions s) (rs_audit s) (rs_last_report s) (rs_world s) (rs_appends s)).
Definition set_positions (ps : list (string * Position)) : RM unit :=
  modify (fun s => mkRState (rs_report s) ps (rs_audit s) (rs_last_report s) (rs_world s) (rs_appends s)).
Definition update_position (symbol : string) (p : Position) : RM unit :=
  modify (fun s => mkRState (rs_report s) (dict_set symbol p (rs_positions s)) (rs_audit s)
                     (rs_last_report s) (rs_world s) (rs_appends s)).
(** [audit.append]: the record is on disk, or the write raises. *)
Definition audit (a : Audit) : RM unit :=
  fun s => let rest := match rs_appends s with [] => [] | _ :: rest => rest end in
           if match rs_appends s with [] => true | b :: _ => b end
           then (mkRState (rs_report s) (rs_positions s) (rs_audit s ++ [a]) (rs_last_report s) (rs_world s) rest, Ok tt)
           else (mkRState (rs_report s) (rs_positions s) (rs_audit s) (rs_last_report s) (rs_world s) rest, Raise OSError).
Definition publish_report : RM ReconcileReport :=
  fun s => (mkRState (rs_report s) (rs_positions s) (rs_audit s) (Some (rs_report s)) (rs_world s) (rs_appends s),
            Ok (rs_report s)).
Definition call {A} (op : venue_op W A) : RM A :=
  fun s => match op (rs_world s) with
           | (w, r) => (mkRState (rs_report s) (rs_positions s) (rs_audit s) (rs_last_report s) w (rs_appends s), r)
           end.

(** [_attach_emergency_stop]. *)
Definition attach_emergency_stop (symbol : string) (p : Position) (stop_pips : decimal) (conv : option decimal)
    : RM unit :=
  let! r := attempt (let! inst := call (v_instrument (pos_instrument p)) in
                     let! q := call (v_quote (pos_instrument p)) in ret (inst, q)) in
  match r with
  | Raise _ => on_report (add_note (NoPriceForStop (pos_instrument p))) ;! on_report require_halt
  | Ok (inst, q) =>
      let ref := price_for q (opposite (pos_side p)) in
      let! d := lift (stop_distance inst p stop_pips conv) in
      let (distance_pips, derived) := d : decimal * bool in
      let offset := inst_pip inst * distance_pips * sign (pos_side p) in
      let! stop := lift (round_price inst (ref - offset)) in
      let! answer := attempt (call (v_modify_position (pos_instrument p) stop)) in
      let! ok := match answer with
                 | Ok b => ret b
                 | Raise _ => on_report (add_note (AttachFailed (pos_instrument p))) ;! ret false
                 end in
      if ok : bool then
        update_position symbol (repaired inst stop distance_pips conv p) ;!
        on_report (add_note (StopAttached (pos_instrument p) stop distance_pips derived)) ;!
        audit (AuditPositionModify (pos_instrument p))
      else
        on_report require_halt ;!
        on_report (add_note (RemainsUnprotected (pos_instrument p)))
  end.

(** [(conversions or {}).get(broker.instrument(symbol).quote) if conversions else None]. *)
Definition conversion_for (conversions : option (gmap string decimal)) (symbol : string) : RM (option decimal) :=
  match conversions with
  | Some m =>
      if bool_decide (m = ∅) then ret None
      else let! inst := call (v_instrument symbol) in ret (m !! inst_quote inst)
  | None => ret None
  end.

Definition check_local (venue_map : list (string * Position)) (entry : string * Position) : RM unit :=
  match dict_get entry.1 venue_map with
  | Some _ => ret tt
  | None => on_report (fun r => not_ok (add_mismatch (mkMismatch Phantom entry.1 SevError) r))
  end.

(** The comparison of one venue position with the local book. *)
Definition compare_position (local_map : list (string * Position)) (symbol : string) (venue : Position) : RM unit :=
  match dict_get symbol local_map with
  | None => on_report (fun r => require_halt (not_ok (add_mismatch (mkMismatch Orphan symbol SevCritical) r)))
  | Some local =>
      if negb (bool_decide (pos_side local = pos_side venue)) then
        on_report (fun r => require_halt (not_ok (add_mismatch (mkMismatch Direction symbol SevCritical) r)))
      else if dabs (pos_lots local - pos_lots venue) >? 0.0001 then
        on_report (fun r => not_ok (add_mismatch (mkMismatch SizeDrift symbol SevError) r))
      else ret tt
  end.

Definition check_venue (local_map : list (string * Position)) (stop_pips : decimal)
    (conversions : option (gmap string decimal)) (entry : string * Position) : RM unit :=
  let (symbol, venue) := entry in
  compare_position local_map symbol venue ;!
  when (unprotected venue)
    (on_report (fun r => not_ok (add_unprotected symbol r)) ;!
     when auto_protect
       (let! conv := conversion_for conversions symbol in
        attach_emergency_stop symbol venue stop_pips conv)).

Definition reconcile (local_positions : list Position) (unresolved_order_ids : list string)
    (emergency_stop_pips : decimal) (conversions : option (gmap string decimal)) : RM ReconcileReport :=
  let! now := call (fun w => match v_wall_ns w with (w', t) => (w', Ok t) end) in
  on_report (fun _ => new_report now) ;!
  let! read := attempt (let! account := call v_account in
                        let! ps := call v_positions in ret (account, ps)) in
  match read with
  | Raise _ =>
      on_report (fun r => add_note VenueUnreadable (require_halt (not_ok r))) ;!
      audit AuditMismatch ;!
      publish_report
  | Ok (account, venue_positions) =>
      on_report (fill_in account (Z.of_nat (length venue_positions)) (Z.of_nat (length local_positions))
                   unresolved_order_ids) ;!
      when (negb (bool_decide (unresolved_order_ids = [])))
        (on_report (fun r => add_note (UnresolvedOrders (Z.of_nat (length unresolved_order_ids)))
                               (require_halt (not_ok r)))) ;!
      let local_map := dict_of pos_instrument local_positions in
      let venue_map := dict_of pos_instrument venue_positions in
      set_positions venue_map ;!
      each (check_local venue_map) local_map ;!
      each (check_venue local_map emergency_stop_pips conversions) venue_map ;!
      let! clean := gets (fun s => match rr_mismatches (rs_report s), rr_unprotected (rs_report s) with
                                   | [], [] => true | _, _ => false end) in
      audit (if clean : bool then AuditReconcile else AuditMismatch) ;!
      publish_report
  end.

(** [replay_transactions]. *)
Definition replay_transactions (last_id : string) : RM (list string) :=
  let! r := attempt (call (v_transactions_since last_id)) in
  match r with
  | Raise _ => audit AuditMismatch ;! ret []
  | Ok events => when (negb (bool_decide (events = []))) (audit AuditReconcile) ;! ret events
  end.
End Reconciler.
Arguments RState W : clear implicits.

(** ** What the report means *)

Section Report.
Context {W : Type} `{!Venue W}.
Implicit Types s : RState W.

Definition same_size (local venue : Position) : bool :=
  bool_decide (pos_side local = pos_side venue) && negb (dabs (pos_lots local - pos_lots venue) >? 0.0001).

Definition known_at (venue_map : list (string * Position)) (entry : string * Position) : bool :=
  match dict_get entry.1 venue_map with Some _ => true | None => false end.

Definition sound_at (local_map : list (string * Position)) (entry : string * Position) : bool :=
  match dict_get entry.1 local_map with Some local => same_size local entry.2 | None => false end
  && negb (unprotected entry.2).

Definition report_ok s : bool := rr_ok (rs_report s).

(** Attaching a stop settles nothing about agreement. *)
Definition same_ok s s' : Prop := report_ok s' = report_ok s.
#[local] Instance same_ok_preorder : PreOrder same_ok.
Proof. split; unfold same_ok; congruence. Qed.

Lemma Steps_call {A} (R : RState W -> RState W -> Prop) (op : venue_op W A) :
  (forall s w, R s (mkRState (rs_report s) (rs_positions s) (rs_audit s) (rs_last_report s) w (rs_appends s))) ->
  Steps R (call op).
Proof. intros H s. unfold call. specialize (H s). destruct (op (rs_world s)) as [w r]. apply H. Qed.

Lemma Steps_audit (R : RState W -> RState W -> Prop) a :
  (forall s records rest, R s (mkRState (rs_report s) (rs_positions s) records (rs_last_report s) (rs_world s) rest)) ->
  Steps R (audit a).
Proof. intros H s. unfold audit. destruct (match rs_appends s with [] => true | b :: _ => b end); apply H. Qed.

Lemma audit_Ok a s s' : audit a s = (s', Ok tt) ->
  rs_report s' = rs_report s /\ rs_positions s' = rs_positions s /\ rs_last_report s' = rs_last_report s /\ rs_world s' = rs_world s.
Proof. unfold audit. destruct (match rs_appends s with [] => true | b :: _ => b end); intros [= <-]. auto. Qed.

Lemma same_ok_modify f : (forall s, report_ok (f s) = report_ok s) -> Steps same_ok (modify f).
Proof. intros H s. apply H. Qed.

Ltac rec_steps leaf := steps; try (apply Steps_call; intros ?s ?w); try (apply Steps_audit; intros ?s ?r ?l); try solve [leaf].

Lemma same_ok_attach symbol p pips conv : Steps same_ok (attach_emergency_stop symbol p pips conv).
Proof.
  unfold attach_emergency_stop, on_report, update_position.
  rec_steps ltac:(first [reflexivity | apply same_ok_modify; intros ?s; reflexivity]).
Qed.

Lemma same_ok_conversion convs symbol : Steps same_ok (conversion_for convs symbol).
Proof. unfold conversion_for. rec_steps ltac:(reflexivity). Qed.

Lemma check_local_ok vm x s s' : check_local vm x s = (s', Ok tt) -> report_ok s' = report_ok s && known_at vm x.
Proof.
  unfold check_local, known_at. destruct (dict_get _ vm); intros [= <-].
  - now rewrite andb_true_r.
  - unfold report_ok. cbn. now rewrite andb_false_r.
Qed.

Lemma check_venue_ok auto lm pips convs x s s' :
  check_venue auto lm pips convs x s = (s', Ok tt) -> report_ok s' = report_ok s && sound_at lm x.
Proof.
  destruct x as [symbol v]. unfold check_venue, sound_at. cbn [fst snd].
  intros (s1 & [] & H1 & H2)%mbind_Ok.
  assert (E1 : report_ok s1 = report_ok s &&
    match dict_get symbol lm with Some local => same_size local v | None => false end).
  { unfold compare_position in H1. destruct (dict_get symbol lm) as [l|]; [|injection H1 as <-; unfold report_ok; cbn; now rewrite andb_false_r].
    unfold same_size. case_bool_decide; cbn [negb andb] in *;
      [|injection H1 as <-; unfold report_ok; cbn; now rewrite andb_false_r].
    destruct (_ >? _); injection H1 as <-; unfold report_ok; cbn;
      now rewrite ?andb_false_r, ?andb_true_r. }
  rewrite andb_assoc, <- E1. destruct (unprotected v); cbn [when negb] in *.
  - rewrite andb_false_r. apply mbind_Ok in H2 as (s2 & [] & H3 & H4). injection H3 as <-.
    assert (E2 : Steps same_ok (when auto (let! conv := conversion_for convs symbol in
                                   attach_emergency_stop symbol v pips conv))).
    { steps; [apply same_ok_conversion|apply same_ok_attach]. }
    specialize (E2 (mkRState (not_ok (add_unprotected symbol (rs_report s1))) (rs_positions s1) (rs_audit s1)
                      (rs_last_report s1) (rs_world s1) (rs_appends s1))).
    unfold same_ok in E2. rewrite H4 in E2. exact E2.
  - injection H2 as <-. now rewrite andb_true_r.
Qed.

(** The two books, compared. *)
Definition books_agree (local_map venue_map : list (string * Position)) : Prop :=
  (forall symbol, is_Some (dict_get symbol local_map) <-> is_Some (dict_get symbol venue_map)) /\
  forall symbol l v, dict_get symbol local_map = Some l -> dict_get symbol venue_map = Some v ->
    pos_side l = pos_side v /\ (dval (dabs (pos_lots l - pos_lots v)) <= dval 0.0001)%Q /\
    is_Some (pos_stop_loss v) /\ pos_broker_stop_confirmed v = true.

Lemma books_agree_spec lm vm :
  NoDup (map fst lm) -> NoDup (map fst vm) ->
  forallb (known_at vm) lm && forallb (sound_at lm) vm = true <-> books_agree lm vm.
Proof.
  intros Hl Hv. rewrite andb_true_iff, !forallb_forall. unfold books_agree, known_at, sound_at. split.
  - intros [H1 H2]. split.
    + intros symbol. split; intros [x Hx].
      * specialize (H1 (symbol, x)). cbn in H1. rewrite dict_get_In in H1 by assumption.
        specialize (H1 Hx). destruct (dict_get symbol vm); [now eexists|discriminate].
      * specialize (H2 (symbol, x)). cbn in H2. rewrite dict_get_In in H2 by assumption.
        specialize (H2 Hx). destruct (dict_get symbol lm); [now eexists|discriminate].
    + intros symbol l v Hgl Hgv. specialize (H2 (symbol, v)). cbn in H2.
      rewrite dict_get_In, Hgl in H2 by assumption. specialize (H2 Hgv).
      apply andb_true_iff in H2 as [[H2 H3]%andb_true_iff H4]. apply bool_decide_eq_true in H2.
      apply negb_true_iff in H3, H4. apply dltb_false in H3. unfold unprotected in H4.
      destruct (pos_stop_loss v); [|discriminate]. apply negb_false_iff in H4. eauto.
  - intros [H1 H2]. split; intros [symbol p] Hin; cbn.
    + apply dict_get_In in Hin; [|assumption]. assert (Hs : is_Some (dict_get symbol vm)) by (apply H1; now exists p).
      destruct Hs as [x ->]. reflexivity.
    + apply dict_get_In in Hin; [|assumption]. assert (Hs : is_Some (dict_get symbol lm)) by (apply H1; now exists p).
      destruct Hs as [x Hx]. rewrite Hx. destruct (H2 _ _ _ Hx Hin) as (E & Hd & [st Hst] & Hc).
      unfold same_size, unprotected. rewrite Hst, Hc, bool_decide_eq_true_2 by exact E. cbn.
      rewrite !andb_true_r. apply negb_true_iff, dltb_false, Hd.
Qed.

(** The state in which the comparison starts. *)
Definition compared auto lm vm pips convs (s0 s' : RState W) : Prop :=
  rs_positions s0 = vm /\
  exists s1 s2, each (check_local vm) lm s0 = (s1, Ok tt) /\
    each (check_venue auto lm pips convs) vm s1 = (s2, Ok tt) /\
    rs_report s' = rs_report s2 /\ rs_positions s' = rs_positions s2 /\
    rs_last_report s' = Some (rs_report s2) /\ rs_world s' = rs_world s2.

(** What a reconciliation that returns has done. *)
Lemma reconcile_run auto local ids pips convs s s' rep :
  reconcile auto local ids pips convs s = (s', Ok rep) ->
  rep = rs_report s' /\ rs_last_report s' = Some rep /\
  let (w1, _) := v_wall_ns (rs_world s) in
  match v_account w1 with
  | (_, Raise _) => rr_ok rep = false /\ rr_halt_required rep = true
  | (w2, Ok account) =>
      match v_positions w2 with
      | (_, Raise _) => rr_ok rep = false /\ rr_halt_required rep = true
      | (_, Ok ps) =>
          exists s0, report_ok s0 = bool_decide (ids = []) /\
            compared auto (dict_of pos_instrument local) (dict_of pos_instrument ps) pips convs s0 s'
      end
  end.
Proof.
  unfold reconcile. intros H. unfold mbind_ at 1, call at 1 in H.
  destruct (v_wall_ns (rs_world s)) as [w1 now]. unfold mbind_ at 1 in H. cbn [on_report modify] in H.
  unfold mbind_ at 1, attempt, mbind_ at 1, call at 1 in H. cbn [rs_world] in H.
  assert (Hfail : forall t s' rep, (audit AuditMismatch ;! publish_report) t = (s', Ok rep) ->
    rr_ok (rs_report t) = false -> rr_halt_required (rs_report t) = true ->
    rep = rs_report s' /\ rs_last_report s' = Some rep /\ rr_ok rep = false /\ rr_halt_required rep = true).
  { intros t u r (t1 & [] & (E & _)%audit_Ok & H')%mbind_Ok. injection H' as <- <-. cbn. rewrite E. auto. }
  destruct (v_account w1) as [w2 [account|e]]; [|now apply Hfail in H].
  unfold mbind_ at 1, call at 1 in H. cbn [rs_world] in H.
  destruct (v_positions w2) as [w3 [ps|e]]; [|now apply Hfail in H].
  cbn [ret] in H. apply mbind_Ok in H as (t1 & [] & E1 & H). injection E1 as <-.
  apply mbind_Ok in H as (t2 & [] & E2 & H). cbv zeta in H.
  apply mbind_Ok in H as (t3 & [] & E3 & H). injection E3 as <-.
  apply mbind_Ok in H as (t4 & [] & E4 & H). apply mbind_Ok in H as (t5 & [] & E5 & H).
  apply mbind_Ok in H as (t6 & clean & E6 & H). injection E6 as <- _.
  apply mbind_Ok in H as (t7 & [] & (A1 & A2 & _ & A3)%audit_Ok & H). injection H as <- <-. cbn. rewrite A1, A2, A3.
  split; [reflexivity|]. split; [reflexivity|].
  exists (mkRState (rs_report t2) (dict_of pos_instrument ps) (rs_audit t2) (rs_last_report t2) (rs_world t2) (rs_appends t2)).
  split; [|split; [reflexivity|exists t4, t5; split; [exact E4|split; [exact E5|auto]]]].
  case_bool_decide; injection E2 as <-; reflexivity.
Qed.

(** A report is clean exactly when the venue could be read, no order is
    unresolved and the two books agree: the same instruments, each on the same
    side, within 0.0001 lots, each with a confirmed stop at the venue.
    The report is also kept as the last one. *)
Theorem reconcile_ok_iff auto local ids pips convs s s' rep :
  reconcile auto local ids pips convs s = (s', Ok rep) ->
  rs_last_report s' = Some rep /\
  (rr_ok rep = true <->
   ids = [] /\ exists w w' account ps,
     v_account (v_wall_ns (rs_world s)).1 = (w, Ok account) /\ v_positions w = (w', Ok ps) /\
     books_agree (dict_of pos_instrument local) (dict_of pos_instrument ps)).
Proof.
  intros (-> & Hlast & H)%reconcile_run. split; [exact Hlast|]. destruct (v_wall_ns (rs_world s)) as [w1 now].
  cbn [fst]. destruct (v_account w1) as [w2 [account|e]]; [|destruct H as [-> _]; split; [discriminate|intros (_ & ? & ? & ? & ? & [=] & _)]].
  destruct (v_positions w2) as [w3 [ps|e]] eqn:Hps; [|destruct H as [-> _]; split;
    [discriminate|intros (_ & ? & ? & ? & ? & [= <- <-] & Hx & _); congruence]].
  destruct H as (s0 & H0 & _ & s1 & s2 & E1 & E2 & Er & _).
  apply (each_Ok _ (known_at _) report_ok _ (check_local_ok _)) in E1.
  apply (each_Ok _ (sound_at _) report_ok _ (check_venue_ok _ _ _ _)) in E2.
  unfold report_ok in *. rewrite Er, E2, E1, H0, <- andb_assoc, andb_true_iff, bool_decide_eq_true,
    books_agree_spec by apply dict_of_NoDup.
  split.
  - intros [Hids Hb]. split; [exact Hids|]. exists w2, w3, account, ps. auto.
  - intros (Hids & ? & ? & ? & ? & [= <- <-] & Hx & Hb). rewrite Hps in Hx. injection Hx as <- <-. auto.
Qed.
End Report.

(** ** Nothing is left without a stop in silence *)

(** A venue with the record of the stops it accepted. *)
Abbreviation accepted_stops := (list (string * decimal)).
Definition over {W A} (op : venue_op W A) : venue_op (W * accepted_stops) A :=
  fun s => match op s.1 with (w, r) => ((w, s.2), r) end.
Definition logged {W} (V : Venue W) : Venue (W * accepted_stops) := {|
  supports_client_order_id := supports_client_order_id;
  v_instrument symbol := over (v_instrument symbol);
  v_quote symbol := over (v_quote symbol);
  v_account := over v_account;
  v_positions := over v_positions;
  v_submit intent := over (v_submit intent);
  v_query_order id := over (v_query_order id);
  v_modify_position symbol stop s :=
    match v_modify_position symbol stop s.1 with
    | (w, Ok true) => ((w, (symbol, stop) :: s.2), Ok true)
    | (w, r) => ((w, s.2), r)
    end;
  v_transactions_since id := over (v_transactions_since id);
  v_wall_ns s := match v_wall_ns s.1 with (w, t) => ((w, s.2), t) end
|}.

Section Protect.
Context {W : Type} (V : Venue W).
#[local] Instance recorded : Venue (W * accepted_stops) := logged V.
Implicit Types s : RState (W * accepted_stops).

(** What handling the position of [k] may change. *)
Definition grows (k : string) s s' : Prop :=
  (rr_halt_required (rs_report s) = true -> rr_halt_required (rs_report s') = true) /\
  (forall x, x ∈ rr_unprotected (rs_report s) -> x ∈ rr_unprotected (rs_report s')) /\
  (forall x, x ∈ (rs_world s).2 -> x ∈ (rs_world s').2) /\
  forall x, x <> k -> dict_get x (rs_positions s') = dict_get x (rs_positions s).
#[local] Instance grows_preorder k : PreOrder (grows k).
Proof.
  split; [intros s; repeat split; auto|]. intros a b c (H1 & H2 & W1 & H3) (H4 & H5 & W2 & H6).
  repeat split; auto. intros x Hx. now rewrite H6, H3.
Qed.

Lemma grows_same k s s' :
  rr_halt_required (rs_report s') = rr_halt_required (rs_report s) \/ rr_halt_required (rs_report s') = true ->
  rr_unprotected (rs_report s) `prefix_of` rr_unprotected (rs_report s') ->
  (exists l, (rs_world s').2 = l ++ (rs_world s).2) ->
  rs_positions s' = rs_positions s -> grows k s s'.
Proof.
  intros H1 [l Hl] [l' Hl'] H3. split; [intros H; destruct H1; congruence|]. split; [|split; [|now rewrite H3]].
  - intros x Hx. rewrite Hl. apply elem_of_app. now left.
  - intros x Hx. rewrite Hl'. apply elem_of_app. now right.
Qed.

Lemma grows_call {A} k (op : venue_op (W * accepted_stops) A) :
  (forall w, exists l, (op w).1.2 = l ++ w.2) -> Steps (grows k) (call op).
Proof.
  intros H s. unfold call. specialize (H (rs_world s)). destruct (op (rs_world s)) as [w r].
  apply grows_same; cbn; [now left|reflexivity|exact H|reflexivity].
Qed.

Lemma over_keeps {A} (op : venue_op W A) w : exists l, (over op w).1.2 = l ++ w.2.
Proof. exists []. unfold over. now destruct (op w.1). Qed.

Lemma modify_keeps symbol stop w : exists l, (v_modify_position (Venue := recorded) symbol stop w).1.2 = l ++ w.2.
Proof. cbn. destruct (v_modify_position symbol stop w.1) as [w' [[]|e]]; [now exists [(symbol, stop)]| |]; now exists []. Qed.

Lemma modify_recorded symbol stop w w' :
  v_modify_position (Venue := recorded) symbol stop w = (w', Ok true) -> (symbol, stop) ∈ w'.2.
Proof. cbn. destruct (v_modify_position symbol stop w.1) as [u [[]|e]]; intros [= <-]. left. Qed.

Lemma grows_update k p : Steps (grows k) (update_position k p).
Proof.
  intros s. split; [done|split; [done|split; [done|]]]. intros x Hx. cbn.
  now rewrite dict_get_set, bool_decide_eq_false_2.
Qed.

Ltac grow :=
  steps; try (apply grows_call; (apply over_keeps || apply modify_keeps)); try (apply Steps_audit; intros ?s ?r ?l); try first
    [ apply grows_update
    | apply grows_same; cbn; solve [auto | reflexivity | exists []; reflexivity | apply prefix_app_r; reflexivity]
    | intros ?s; apply grows_same; cbn; solve [auto | reflexivity | exists []; reflexivity | apply prefix_app_r; reflexivity] ].

Lemma grows_attach symbol p pips conv : Steps (grows symbol) (attach_emergency_stop symbol p pips conv).
Proof. unfold attach_emergency_stop, on_report. grow. Qed.

Lemma grows_conversion k convs symbol : Steps (grows k) (conversion_for convs symbol).
Proof. unfold conversion_for. grow. Qed.

Lemma grows_check_venue auto lm pips convs k v : Steps (grows k) (check_venue auto lm pips convs (k, v)).
Proof.
  unfold check_venue, compare_position, on_report. pose proof grows_conversion. pose proof grows_attach. grow; auto.
Qed.

Lemma repaired_protected inst stop d conv p :
  let p' := repaired inst stop d conv p in
  unprotected p' = false /\ pos_stop_loss p' = Some stop /\ pos_lots p' = pos_lots p /\
  pos_side p' = pos_side p /\ pos_entry_price p' = pos_entry_price p.
Proof.
  unfold repaired. destruct (usable conv); [case_match|]; repeat split.
Qed.

(** The position is protected in the book, by a stop that the venue accepted, or the
    report halts the agent. *)
Definition guarded (k : string) (v : Position) s : Prop :=
  k ∈ rr_unprotected (rs_report s) /\
  (rr_halt_required (rs_report s) = true \/
   exists inst stop d derived pips conv,
     stop_distance inst v pips conv = Ok (d, derived) /\ (pos_instrument v, stop) ∈ (rs_world s).2 /\
     dict_get k (rs_positions s) = Some (repaired inst stop d conv v)).

Lemma attach_guards k v pips conv s s' :
  attach_emergency_stop k v pips conv s = (s', Ok tt) -> k ∈ rr_unprotected (rs_report s) -> guarded k v s'.
Proof.
  intros H Hk. split.
  { pose proof (grows_attach k v pips conv s) as (_ & Hu & _). rewrite H in Hu. now apply Hu. }
  revert H. unfold attach_emergency_stop. intros (s1 & r & _ & H)%mbind_Ok.
  destruct r as [[inst q]|e].
  - apply mbind_Ok in H as (s2 & [d derived] & Hd & H). injection Hd as <- Hd.
    apply mbind_Ok in H as (s3 & stop & _ & H). apply mbind_Ok in H as (s4 & answer & Ea & H).
    apply mbind_Ok in H as (s5 & ok & Eo & H). destruct ok.
    + right. exists inst, stop, d, derived, pips, conv. split; [exact Hd|].
      destruct answer as [b|e]; [injection Eo as <- ->|now apply mbind_Ok in Eo as (? & ? & _ & Eo)].
      apply attempt_Ok in Ea. unfold call in Ea. destruct (v_modify_position (pos_instrument v) stop (rs_world s3)) as [w b] eqn:Em.
      injection Ea as <- ->. apply modify_recorded in Em.
      apply mbind_Ok in H as (s6 & [] & E6 & H). injection E6 as <-. apply mbind_Ok in H as (s7 & [] & E7 & H). injection E7 as <-.
      apply audit_Ok in H as (_ & -> & _ & ->). cbn. split; [exact Em|]. now rewrite dict_get_set, bool_decide_eq_true_2.
    + left. injection H as <-. reflexivity.
  - left. apply mbind_Ok in H as (s2 & [] & _ & H). injection H as <-. reflexivity.
Qed.

Lemma check_venue_guards lm pips convs k v s s' :
  check_venue true lm pips convs (k, v) s = (s', Ok tt) -> unprotected v = true -> guarded k v s'.
Proof.
  unfold check_venue. intros (s1 & [] & _ & H)%mbind_Ok Hv. rewrite Hv in H. cbn [when] in H.
  apply mbind_Ok in H as (s2 & [] & H2 & H). injection H2 as <-.
  apply mbind_Ok in H as (s3 & conv & H3 & H). apply attach_guards in H; [exact H|].
  pose proof (grows_conversion k convs k) as G. match type of H3 with _ ?s2 = _ => specialize (G s2) end.
  rewrite H3 in G. destruct G as (_ & G & _). apply G. cbn. apply elem_of_app. right. now apply list_elem_of_singleton.
Qed.

Lemma guarded_grows k v k' s s' : k <> k' -> grows k' s s' -> guarded k v s -> guarded k v s'.
Proof.
  intros Hne (H1 & H2 & Hw & H3) [Hu H]. split; [now apply H2|]. destruct H as [H|H]; [left; auto|right].
  destruct H as (inst & stop & d & b & pips & conv & Hd & Hl & Hg). exists inst, stop, d, b, pips, conv.
  split; [exact Hd|]. split; [now apply Hw|]. now rewrite H3.
Qed.

Lemma loop_guards lm pips convs vm : NoDup (map fst vm) -> forall s s' k v,
  each (check_venue true lm pips convs) vm s = (s', Ok tt) -> In (k, v) vm -> unprotected v = true ->
  guarded k v s'.
Proof.
  assert (Hkeep : forall k v vm, k ∉ map fst vm -> forall s s',
    each (check_venue true lm pips convs) vm s = (s', Ok tt) -> guarded k v s -> guarded k v s').
  { intros k v vm'. induction vm' as [|[k' v'] vm' IH]; intros Hk s s'; cbn [each]; [now intros [= <-]|].
    intros (s1 & [] & H1 & H2)%mbind_Ok Hg. cbn [map fst] in Hk. apply not_elem_of_cons in Hk as [Hne Hk].
    apply (IH Hk _ _ H2). apply (guarded_grows k v k' s s1); [exact Hne| |exact Hg].
    pose proof (grows_check_venue true lm pips convs k' v' s) as G. now rewrite H1 in G. }
  induction vm as [|[k' v'] vm IH]; intros Hnd s s' k v; cbn [each]; [intros _ []|].
  intros (s1 & [] & H1 & H2)%mbind_Ok Hin Hv. cbn [map fst] in Hnd. apply NoDup_cons in Hnd as [Hk Hnd].
  destruct Hin as [E|Hin]; [|now apply (IH Hnd _ _ _ _ H2)].
  injection E as -> ->. apply (Hkeep k v vm Hk _ _ H2). now apply check_venue_guards in H1.
Qed.

(** C37: when a reconciliation with automatic protection returns, every venue
    position that it found without a confirmed stop is listed, and either the report
    requires the agent to halt, or the venue accepted a stop for the position during
    the run, and its record now carries that stop as confirmed, its size, side and
    entry unchanged.  The venue is any, with the record of the stops it accepted. *)
Theorem reconcile_leaves_nothing_naked local ids pips convs s s' rep w w' account ps symbol v :
  reconcile true local ids pips convs s = (s', Ok rep) -> (rs_world s).2 = [] ->
  v_account (v_wall_ns (rs_world s).1).1 = (w, Ok account) -> v_positions w = (w', Ok ps) ->
  dict_get symbol (dict_of pos_instrument ps) = Some v -> unprotected v = true ->
  symbol ∈ rr_unprotected rep /\
  (rr_halt_required rep = true \/
   exists p stop, dict_get symbol (rs_positions s') = Some p /\ unprotected p = false /\ pos_stop_loss p = Some stop /\
     (pos_instrument v, stop) ∈ (rs_world s').2 /\
     pos_lots p = pos_lots v /\ pos_side p = pos_side v /\ pos_entry_price p = pos_entry_price v).
Proof.
  intros (-> & _ & H)%reconcile_run Hnil Ha Hp Hg Hv. cbn [v_wall_ns recorded logged] in H.
  destruct (v_wall_ns (rs_world s).1) as [w1 now]. cbn [fst] in Ha.
  cbn [v_account recorded logged] in H. unfold over in H at 1. cbn [fst snd] in H. rewrite Ha in H.
  cbn [v_positions recorded logged] in H. unfold over in H at 1. cbn [fst snd] in H. rewrite Hp in H.
  destruct H as (s0 & _ & _ & s1 & s2 & _ & E2 & Er & Epos & _ & Ew).
  apply dict_get_In in Hg; [|apply dict_of_NoDup].
  destruct (loop_guards _ _ _ _ (dict_of_NoDup _ _) _ _ _ _ E2 Hg Hv) as [Hu Hor].
  rewrite Er, Epos, Ew. split; [exact Hu|]. destruct Hor as [Hh|(inst & stop & d & b & pips' & conv & _ & Hl & Hget)]; [now left|].
  right. exists (repaired inst stop d conv v), stop. split; [exact Hget|].
  pose proof (repaired_protected inst stop d conv v) as (H1 & H0 & H2 & H3 & H4). auto 7.
Qed.
End Protect.

Section Unlisted.
Context {W : Type} `{!Venue W}.
Implicit Types s : RState W.

Lemma check_local_returns vm lm : forall s, exists s', each (check_local vm) lm s = (s', Ok tt) /\ rs_appends s' = rs_appends s.
Proof.
  induction lm as [|x lm IH]; intros s; cbn [each]; [now eexists|].
  assert (H : exists s1, check_local vm x s = (s1, Ok tt) /\ rs_appends s1 = rs_appends s)
    by (unfold check_local; case_match; now eexists).
  destruct H as (s1 & H1 & A1). destruct (IH s1) as (s2 & H2 & A2). exists s2. unfold mbind_. rewrite H1, A2. auto.
Qed.

(** An unprotected position on an instrument the venue does not list halts
    the agent when no conversion rates are passed; when they are passed, looking
    up the rate raises out of the reconciliation, and no report is made. *)
Theorem reconcile_unlisted_instrument local ids pips m s w1 w2 w3 account v e :
  v_wall_ns (rs_world s) = (w1, 0%Z) -> v_account w1 = (w2, Ok account) -> v_positions w2 = (w3, Ok [v]) ->
  unprotected v = true -> m <> ∅ -> rs_appends s = [] ->
  (forall w, exists w', v_instrument (pos_instrument v) w = (w', Raise e)) ->
  (reconcile true local ids pips (Some m) s).2 = Raise e /\
  exists s' rep, reconcile true local ids pips None s = (s', Ok rep) /\ rr_halt_required rep = true.
Proof.
  intros Hw Ha Hp Hv Hm Hap Hi. set (k := pos_instrument v) in *.
  set (s0 := mkRState (fill_in account 1 (Z.of_nat (length local)) ids (new_report 0)) (rs_positions s)
               (rs_audit s) (rs_last_report s) w3 (rs_appends s)).
  assert (Hids : exists s1, when (negb (bool_decide (ids = [])))
      (on_report (fun r => add_note (UnresolvedOrders (Z.of_nat (length ids))) (require_halt (not_ok r)))) s0
      = (s1, Ok tt) /\ rs_appends s1 = []) by (case_bool_decide; now eexists).
  destruct Hids as (s1 & Hids & A1).
  destruct (check_local_returns [(k, v)] (dict_of pos_instrument local)
              (mkRState (rs_report s1) [(k, v)] (rs_audit s1) (rs_last_report s1) (rs_world s1) (rs_appends s1))) as (s2 & H2 & A2).
  cbn [rs_appends] in A2. rewrite A1 in A2.
  assert (Hrun : forall convs, reconcile true local ids pips convs s =
    (each (check_venue true (dict_of pos_instrument local) pips convs) [(k, v)] ;!
     let! clean := gets (fun s => match rr_mismatches (rs_report s), rr_unprotected (rs_report s) with
                                  | [], [] => true | _, _ => false end) in
     audit (if clean : bool then AuditReconcile else AuditMismatch) ;! publish_report) s2).
  { intros convs. unfold reconcile. unfold mbind_ at 1, call at 1. rewrite Hw.
    unfold mbind_ at 1. cbn [on_report modify]. unfold mbind_ at 1, attempt, mbind_ at 1, call at 1.
    cbn [rs_world]. rewrite Ha. unfold mbind_ at 1, call at 1. cbn [rs_world]. rewrite Hp. cbn [ret].
    unfold mbind_ at 1. cbn [on_report modify length rs_report rs_positions rs_audit rs_last_report].
    match goal with |- _ ?st = _ => change st with s0 end. unfold mbind_ at 1. rewrite Hids.
    change (dict_of pos_instrument [v]) with [(k, v)].
    unfold mbind_ at 1. cbn [set_positions modify]. unfold mbind_ at 1. now rewrite H2. }
  assert (Hhead : exists s3, compare_position (dict_of pos_instrument local) k v s2 = (s3, Ok tt) /\ rs_appends s3 = []).
  { unfold compare_position. repeat case_match; now eexists. }
  destruct Hhead as (s3 & H3 & A3). rewrite !Hrun. split.
  - cbn [each]. unfold check_venue, mbind_. rewrite H3, Hv. cbn [when].
    unfold conversion_for. rewrite bool_decide_eq_false_2 by exact Hm.
    unfold mbind_, call. cbn. destruct (Hi (rs_world s3)) as [w' ->]. reflexivity.
  - cbn [each]. unfold check_venue, mbind_. rewrite H3, Hv. cbn [when].
    unfold conversion_for, attach_emergency_stop, mbind_, attempt, call. cbn. fold k.
    destruct (Hi (rs_world s3)) as [w' ->]. cbn. unfold audit. cbn [rs_appends]. rewrite A3.
    eexists _, _. split; reflexivity.
Qed.
End Unlisted.

(** The emergency stop is never further than the fallback distance, and
    when the distance comes from the position's own risk, the risk written back
    exceeds the recorded one by at most two roundings. *)
Theorem emergency_stop_distance inst p pips conv stop d derived :
  stop_distance inst p pips conv = Ok (d, derived) -> (0 < dval pips)%Q ->
  (0 < dval d <= dval pips)%Q /\
  (if derived
   then (dval (pos_initial_risk (repaired inst stop d conv p)) <= dval (pos_initial_risk p) * (1 + eps) * (1 + eps))%Q
   else d = pips).
Proof.
  intros H Hpips. unfold stop_distance in H.
  assert (Hfall : Ok (pips, false) = Ok (d, derived) ->
    (0 < dval d <= dval pips)%Q /\
    (if derived
     then (dval (pos_initial_risk (repaired inst stop d conv p)) <= dval (pos_initial_risk p) * (1 + eps) * (1 + eps))%Q
     else d = pips)) by (intros [= <- <-]; split; [split; [exact Hpips|apply Qle_refl]|reflexivity]).
  case_if_in H E1; [|now apply Hfall]. apply andb_true_iff in E1 as [_ E1]. apply dltb_spec in E1.
  destruct (usable conv) as [c|] eqn:Ec; [|now apply Hfall].
  case_if_in H E2; [|now apply Hfall]. destruct (ddiv _ _) as [want|] eqn:E3; [|discriminate]. cbn [rbind] in H.
  case_if_in H E4; [|now apply Hfall]. injection H as <- <-. apply dltb_spec in E4.
  change (dval ZERO) with (0 # 1)%Q in *. 
  split.
  - split; [destruct (dmin_cases want pips) as [-> | ->]; assumption|apply dmin_le_r].
  - unfold repaired. rewrite Ec. change (pos_lots (with_stop stop p)) with (pos_lots p). rewrite E2.
    cbn [with_risk pos_initial_risk].
    apply dltb_spec in E2. set (pv := pip_value_quote inst (pos_lots p) * c) in *.
    pose proof (dmin_le_l want pips) as Hmin.
    pose proof (ddiv_upper _ _ _ (dval (pos_initial_risk p)) (dval pv) E3) as Hw.
    assert (Hpv : (0 < dval pv)%Q) by exact E2. assert (Hir : (0 < dval (pos_initial_risk p))%Q) by exact E1.
    specialize (Hw ltac:(split; [apply Qlt_le_weak; exact Hir|apply Qle_refl])
                   ltac:(split; [exact Hpv|apply Qle_refl])).
    assert (Hd0 : (0 <= dval (dmin want pips))%Q)
      by (apply Qlt_le_weak; destruct (dmin_cases want pips) as [-> | ->]; assumption).
    pose proof (dmul_upper (dmin want pips) pv (dval (pos_initial_risk p) / dval pv * (1 + eps)) (dval pv)) as Hm.
    eapply Qle_trans; [apply Hm; split; try apply Qle_refl; try exact Hd0;
      [eapply Qle_trans; [exact Hmin|exact Hw]|apply Qlt_le_weak, Hpv]|].
    assert (E : (dval (pos_initial_risk p) / dval pv * (1 + eps) * dval pv * (1 + eps) ==
                 dval (pos_initial_risk p) * (1 + eps) * (1 + eps))%Q) by (field; lra).
    rewrite E. apply Qle_refl.
Qed.

(** ** A concrete reconciliation *)

Record Book := mkBook {
  bk_positions : list Position;
  bk_instrument : res Instrument;
  bk_modify : bool
}.

Definition demo_account : AccountState :=
  mkAccountState "001" "USD" 10000 10000 0 10000 0 1 "42" 0 "demo" 30.

#[export] Instance Book_venue : Venue Book := {|
  supports_client_order_id := true;
  v_instrument _ w := (w, bk_instrument w);
  v_quote s w := (w, Ok (mkQuote s 1.1000 1.1001 0 0 "sim"));
  v_account w := (w, Ok demo_account);
  v_positions w := (w, Ok (bk_positions w));
  v_submit _ w := (w, Raise BrokerError);
  v_query_order _ w := (w, Ok None);
  v_modify_position _ _ w := (w, Ok (bk_modify w));
  v_transactions_since _ w := (w, Ok []);
  v_wall_ns w := (w, 0%Z)
|}.

Definition demo_naked : Position := new_position "EUR_USD" BUY 0.10 1.1000 0 "trend" 20.

Definition demo_state (i : res Instrument) : RState Book :=
  mkRState (new_report 0) [] [] None (mkBook [demo_naked] i true) [].

Definition demo_init : RState Book := demo_state (Ok (default_instrument "EUR_USD" "EUR" "USD")).

Lemma demo_run_protected :
  match reconcile true [demo_naked] [] 50 None demo_init with
  | (s, Ok rep) => negb (rr_ok rep) && negb (rr_halt_required rep)
                   && match dict_get "EUR_USD" (rs_positions s) with
                      | Some p => match pos_stop_loss p with Some x => x =? 1.0950 | None => false end
                      | None => false end
  | _ => false
  end = true.
Proof. vm_compute. reflexivity. Qed.

Lemma reconcile_ok_iff_witness : exists (s' : RState Book) rep, rs_last_report s' = Some rep.
Proof.
  pose proof demo_run_protected as H. destruct (reconcile true [demo_naked] [] 50 None demo_init) as [s' [rep|e]] eqn:E; [|discriminate].
  exists s', rep. exact (proj1 (reconcile_ok_iff true [demo_naked] [] 50 None demo_init s' rep E)).
Defined.

Definition demo_logged : RState (Book * list (string * decimal)) :=
  mkRState (new_report 0) [] [] None (rs_world demo_init, []) [].

Lemma demo_run_logged :
  match reconcile (Venue0 := logged Book_venue) true [demo_naked] [] 50 None demo_logged with
  | (s, Ok rep) => negb (rr_halt_required rep) && match (rs_world s).2 with [("EUR_USD", stop)] => stop =? 1.0950 | _ => false end
  | _ => false
  end = true.
Proof. vm_compute. reflexivity. Qed.

Lemma reconcile_leaves_nothing_naked_witness :
  exists (s' : RState (Book * list (string * decimal))) rep, rs_last_report s' = Some rep /\ "EUR_USD" ∈ rr_unprotected rep /\
    rr_halt_required rep = false /\ exists stop, ("EUR_USD", stop) ∈ (rs_world s').2.
Proof.
  pose proof demo_run_logged as H.
  destruct (reconcile (Venue0 := logged Book_venue) true [demo_naked] [] 50 None demo_logged) as [s' [rep|e]] eqn:E; [|discriminate].
  exists s', rep. split; [now apply reconcile_run in E as (_ & E & _)|].
  destruct (reconcile_leaves_nothing_naked Book_venue [demo_naked] [] 50 None demo_logged s' rep
           (rs_world demo_init) (rs_world demo_init) demo_account [demo_naked] "EUR_USD" demo_naked
           E eq_refl eq_refl eq_refl eq_refl eq_refl) as [Hu [Hh|(p & stop & _ & _ & _ & Hl & _)]].
  - rewrite Hh in H. discriminate.
  - split; [exact Hu|]. split; [now apply andb_prop in H as [H%negb_true_iff _]|exists stop; exact Hl].
Defined.

(** A journal that refuses the record of the stop ends the reconciliation. *)
Example refused_record_raises :
  (reconcile true [demo_naked] [] 50 None (mkRState (new_report 0) [] [] None (rs_world demo_init) [false])).2 = Raise OSError.
Proof. vm_compute. reflexivity. Qed.

(** A venue that does not list the instrument. *)
Definition Unlisted_venue : Venue unit := {|
  supports_client_order_id := true;
  v_instrument _ w := (w, Raise KeyError);
  v_quote _ w := (w, Raise KeyError);
  v_account w := (w, Ok demo_account);
  v_positions w := (w, Ok [demo_naked]);
  v_submit _ w := (w, Raise BrokerError);
  v_query_order _ w := (w, Ok None);
  v_modify_position _ _ w := (w, Ok true);
  v_transactions_since _ w := (w, Ok []);
  v_wall_ns w := (w, 0%Z)
|}.

Lemma reconcile_unlisted_instrument_witness :
  (reconcile (Venue0 := Unlisted_venue) true [] [] 50 (Some {[ "USD" := (1 : decimal) ]})
     (mkRState (new_report 0) [] [] None tt [])).2 = Raise KeyError.
Proof.
  refine (proj1 (reconcile_unlisted_instrument (Venue0 := Unlisted_venue) [] [] 50
           {[ "USD" := (1 : decimal) ]} (mkRState (new_report 0) [] [] None tt []) tt tt tt demo_account demo_naked
           KeyError eq_refl eq_refl eq_refl eq_refl _ eq_refl _)).
  - apply map_non_empty_singleton.
  - intros w. now exists w.
Defined.

Lemma demo_distance :
  match stop_distance (default_instrument "EUR_USD" "EUR" "USD") demo_naked 50 (Some (1 : decimal)) with
  | Ok (d, derived) => derived && (d =? 20)
  | _ => false
  end = true.
Proof. vm_compute. reflexivity. Qed.

Lemma emergency_stop_distance_witness :
  exists d derived, stop_distance (default_instrument "EUR_USD" "EUR" "USD") demo_naked 50 (Some (1 : decimal))
    = Ok (d, derived) /\ (0 < dval d <= dval 50)%Q.
Proof.
  pose proof demo_distance as H.
  destruct (stop_distance (default_instrument "EUR_USD" "EUR" "USD") demo_naked 50 (Some (1 : decimal)))
    as [[d derived]|e] eqn:E; [|discriminate].
  exists d, derived. split; [reflexivity|].
  refine (proj1 (emergency_stop_distance (default_instrument "EUR_USD" "EUR" "USD") demo_naked 50 (Some (1 : decimal))
           0 d derived E _)).
  reflexivity.
Defined.
