(* ===== verification/Deadman.v ===== *)
(** [sentinel/ops/killswitch.py] and [sentinel/ops/watchdog.py]: the kill file,
    the heartbeat of the decision loop, and the independent process that engages
    the kill file when the heartbeat stops.  A file is what reading it gives: the
    text is kept up to [json.loads].  [int_of_text] is [int] applied to a text;
    the theorems hold for any such function.  Printed lines, the staging file of
    an atomic write and the threads' timing are not modelled. *)

From Stdlib Require Import ZArith Lia Floats.SpecFloat.
From stdpp Require Import base strings list.
From S2P Require Import Prelude StateExn PyDict PyJson Calendar.

Local Open Scope py_scope.

(** ** The kill switch *)

Record KillState := mkKillState {
  ks_engaged : bool;
  ks_reason : json;
  ks_engaged_at_ns : json;
  ks_engaged_by : json
}.

Definition KillState_to_dict (k : KillState) : list (string * json) :=
  [("engaged", JBool (ks_engaged k)); ("reason", ks_reason k);
   ("engaged_at_ns", ks_engaged_at_ns k); ("engaged_by", ks_engaged_by k)].

(** [KillSwitch.read]. *)
Definition read (f : file) : res KillState :=
  match f with
  | Absent => Ok (mkKillState false (JStr "") JNull (JStr ""))
  | Unreadable => Ok (mkKillState true (JStr "kill file exists but is unreadable") JNull (JStr ""))
  | NotUtf8 => Raise ValueError
  | Blank => Ok (mkKillState true (JStr "manual") JNull (JStr "file"))
  | Prose raw => Ok (mkKillState true (JStr (String.substring 0 200 raw)) JNull (JStr "file"))
  | Json data =>
      let* reason := json_get data "reason" (JStr "manual") in
      let* at_ns := json_get data "engaged_at_ns" JNull in
      let* who := json_get data "engaged_by" (JStr "file") in
      Ok (mkKillState true reason at_ns who)
  end.

Inductive Entry :=
| KillSwitched (engaged : bool)
| DeadmanTrip (re_engaged : bool)
| Flattened
| HeartbeatRecovered.
#[export] Instance Entry_eq_dec : EqDecision Entry.
Proof. solve_decision. Defined.

(** The kill file and one process's view of it: [kw_last] is [_last_state], and
    [kw_appends] tells which of the next writes to the journal succeed, in order
    (those past the list do). *)
Record KillWorld := mkKillWorld {
  kw_file : file;
  kw_last : bool;
  kw_journal : list Entry;
  kw_appends : list bool
}.

Definition KM (A : Type) : Type := M KillWorld A.

(** [KillSwitch.__init__]. *)
Definition open_kill (f : file) (appends : list bool) : res KillWorld :=
  let* st := read f in Ok (mkKillWorld f (ks_engaged st) [] appends).

Definition write_file (f : file) : KM unit :=
  modify (fun s => mkKillWorld f (kw_last s) (kw_journal s) (kw_appends s)).
Definition set_last (b : bool) : KM unit :=
  modify (fun s => mkKillWorld (kw_file s) b (kw_journal s) (kw_appends s)).

(** [audit.append]: the entry is on disk, or the write raises. *)
Definition append_ok (s : KillWorld) : bool :=
  match kw_appends s with [] => true | b :: _ => b end.
Definition record (e : Entry) : KM unit :=
  fun s =>
    let rest := match kw_appends s with [] => [] | _ :: rest => rest end in
    if append_ok s then (mkKillWorld (kw_file s) (kw_last s) (kw_journal s ++ [e]) rest, Ok tt)
    else (mkKillWorld (kw_file s) (kw_last s) (kw_journal s) rest, Raise OSError).

(** [KillSwitch.engage]; [written] tells whether the atomic write succeeds: it
    replaces the file or raises. *)
Definition engage (reason who : string) (now_ns : Z) (written : bool) : KM KillState :=
  let state := mkKillState true (JStr reason) (JInt now_ns) (JStr who) in
  (if written then write_file (Json (JObj (KillState_to_dict state))) else throw OSError) ;!
  record (KillSwitched true) ;!
  set_last true ;!
  ret state.

(** [KillSwitch.release]. *)
Definition release : KM bool :=
  let! f := gets kw_file in
  if negb (exists_ f) then ret false
  else
    write_file Absent ;!
    record (KillSwitched false) ;!
    set_last false ;!
    ret true.

(** [KillSwitch.poll]. *)
Definition poll : KM KillState :=
  let! f := gets kw_file in
  let! state := lift (read f) in
  let! last := gets kw_last in
  when (negb (bool_decide (ks_engaged state = last))) (record (KillSwitched (ks_engaged state))) ;!
  set_last (ks_engaged state) ;!
  ret state.

(** ** The heartbeat *)

Section Heartbeat.
Variable int_of_text : string -> option Z.

Record Heartbeat := mkHeartbeat {
  hb_payload : list (string * json);
  hb_liveness_ns : Z
}.

(** [Heartbeat.update]: what advances liveness. *)
Definition hb_update (fields : list (string * json)) (now_ns : Z) (h : Heartbeat) : Heartbeat :=
  mkHeartbeat (dict_merge (hb_payload h) fields) now_ns.

(** [Heartbeat.beat]: the file it writes. *)
Definition beat (h : Heartbeat) (now_ns mono_ns pid : Z) : file :=
  Json (JObj (dict_merge [("ts_ns", JInt (hb_liveness_ns h)); ("written_ns", JInt now_ns);
                          ("mono_ns", JInt mono_ns); ("pid", JInt pid)] (hb_payload h))).

(** The stamp in the heartbeat file. *)
Definition heartbeat_ts (f : file) : res Z :=
  match f with
  | Absent | Unreadable => Raise OSError
  | NotUtf8 | Blank | Prose _ => Raise ValueError
  | Json data => let* ts := json_item data "ts_ns" in int_of_json int_of_text ts
  end.

(** An age: missing, infinite (the clocks disagree), or in seconds. *)
Inductive Age := NoAge | ClocksDisagree | AgeSec (x : spec_float).

Definition CLOCK_TOLERANCE_SEC : spec_float := float_of_Z 5.
Definition zero_f : spec_float := float_of_Z 0.

(** [x / 1e9]. *)
Definition ns_to_sec (ns : Z) : spec_float := fdiv (float_of_Z ns) (float_of_Z 1000000000).

(** [heartbeat_age]. *)
Definition heartbeat_age (f : file) (now_ns : Z) : res Age :=
  if negb (exists_ f) then Ok NoAge
  else match heartbeat_ts f with
       | Ok ts =>
           let age := ns_to_sec (now_ns - ts) in
           if SFltb age (SFopp CLOCK_TOLERANCE_SEC) then Ok ClocksDisagree
           else Ok (AgeSec (if SFltb zero_f age then age else zero_f))
       | Raise (OSError | KeyError | ValueError) => Ok NoAge
       | Raise e => Raise e
       end.

(** [Heartbeat.age_sec], the same reading without the clock check. *)
Definition age_sec (f : file) (now_ns : Z) : res (option spec_float) :=
  if negb (exists_ f) then Ok None
  else match heartbeat_ts f with
       | Ok ts => Ok (Some (ns_to_sec (now_ns - ts)))
       | Raise (OSError | KeyError | ValueError) => Ok None
       | Raise e => Raise e
       end.

(** ** The watchdog *)

Inductive DeadmanAction := Alert | CloseOnly | Flatten.
#[export] Instance DeadmanAction_eq_dec : EqDecision DeadmanAction.
Proof. solve_decision. Defined.

(** [_kill_engaged]. *)
Definition kill_engaged (f : file) : bool :=
  match read f with Ok st => ks_engaged st | Raise _ => true end.

Definition stale (timeout : spec_float) (age : Age) : bool :=
  match age with NoAge | ClocksDisagree => true | AgeSec x => SFltb timeout x end.

Record Watchdog := mkWatchdog {
  wd_tripped : bool;
  wd_kill : KillWorld
}.

(** What one turn of the loop observes: the heartbeat file, the wall clock, the
    seconds since the start on the monotonic clock, and whether the kill file can
    be written. *)
Record Look := mkLook {
  lk_heartbeat : file;
  lk_now_ns : Z;
  lk_elapsed : spec_float;
  lk_written : bool
}.

Definition WM (A : Type) : Type := M Watchdog A.
Definition on_kill {A} (c : KM A) : WM A :=
  fun s => match c (wd_kill s) with (k, r) => (mkWatchdog (wd_tripped s) k, r) end.
Definition set_tripped (b : bool) : WM unit := modify (fun s => mkWatchdog b (wd_kill s)).

(** One turn of the loop of [main]; [once] is the flag [--once].  [flatten] is
    [flatten_positions], which catches its own exceptions. *)
Definition turn (timeout : spec_float) (action : DeadmanAction) (once : bool) (l : Look) : WM unit :=
  let! age := lift (heartbeat_age (lk_heartbeat l) (lk_now_ns l)) in
  let stale := stale timeout age in
  if stale && negb once && SFltb (lk_elapsed l) timeout then ret tt
  else
    let! tripped := gets wd_tripped in
    let! f := gets (fun s => kw_file (wd_kill s)) in
    if stale && (negb tripped || negb (kill_engaged f)) then
      let first_trip := negb tripped in
      set_tripped true ;!
      on_kill (record (DeadmanTrip (negb first_trip))) ;!
      on_kill (engage "dead-man switch" "watchdog" (lk_now_ns l) (lk_written l)) ;!
      when (bool_decide (action = Flatten) && first_trip) (on_kill (record Flattened))
    else if negb stale && tripped then
      set_tripped false ;!
      on_kill (record HeartbeatRecovered)
    else ret tt.
End Heartbeat.

(** ** The kill file fails closed *)

(** Reading the kill file reports it engaged exactly when it exists,
    whatever its text; except that text which is not UTF-8, or is JSON but not an
    object, makes the reading raise instead of reporting it engaged. *)
Theorem kill_read_spec (f : file) :
  match read f with
  | Ok st => ks_engaged st = exists_ f
  | Raise e => (f = NotUtf8 /\ e = ValueError)
               \/ exists j, f = Json j /\ (forall fields, j <> JObj fields) /\ e = AttributeError
  end.
Proof.
  destruct f as [ | | | |raw|j]; try reflexivity; [now left|].
  destruct j; try reflexivity; right; eexists; (split; [reflexivity|split; [discriminate|reflexivity]]).
Qed.

Lemma kill_engaged_exists f : kill_engaged f = exists_ f.
Proof.
  unfold kill_engaged. pose proof (kill_read_spec f) as H. destruct (read f) as [st|e]; [exact H|].
  destruct H as [[-> _]|(j & -> & _)]; reflexivity.
Qed.

Lemma release_removes s : exists_ (kw_file s) = true -> kw_file (release s).1 = Absent.
Proof.
  intros H. unfold release, mbind_, gets. rewrite H. cbn. unfold record. now destruct (append_ok _).
Qed.

(** An engagement that is written is read back as it was made; one that cannot be
    written changes nothing and raises.  A written one returns and is journalled
    once, and is then no news to the next poll, unless the journal refuses the
    entry: the file is in place and the call raises.  A release makes the file
    absent in both cases. *)
Theorem engage_persists reason who now_ns s :
  let st := mkKillState true (JStr reason) (JInt now_ns) (JStr who) in
  (let '(s', r) := engage reason who now_ns true s in
   read (kw_file s') = Ok st /\ kw_file (release s').1 = Absent /\
   if append_ok s
   then r = Ok st /\ kw_journal s' = kw_journal s ++ [KillSwitched true] /\ poll s' = (s', Ok st)
   else r = Raise OSError /\ kw_journal s' = kw_journal s) /\
  engage reason who now_ns false s = (s, Raise OSError).
Proof.
  split; [|reflexivity]. destruct s as [f la j [|[] rest]];
    unfold engage, mbind_, write_file, set_last, record, ret, modify, append_ok;
    cbn [kw_file kw_last kw_journal kw_appends];
    (split; [reflexivity|]); (split; [now apply release_removes|auto]).
Qed.

(** Polling a file that others write. *)
Definition watch (fs : list file) : KM unit :=
  each (fun f => write_file f ;! poll ;! ret tt) fs.

(** The changes of a sequence, from a first value. *)
Fixpoint changes (last : bool) (bs : list bool) : list bool :=
  match bs with
  | [] => []
  | b :: rest => if bool_decide (b = last) then changes last rest else b :: changes b rest
  end.

(** Polling journals the changes of the switch, each once and in order, and
    nothing else. *)
Theorem poll_journals_changes fs : forall s s',
  watch fs s = (s', Ok tt) ->
  kw_journal s' = kw_journal s ++ map KillSwitched (changes (kw_last s) (map exists_ fs)).
Proof.
  induction fs as [|f fs IH]; intros s s'; cbn [map changes].
  - intros [= <-]. now rewrite app_nil_r.
  - intros (s1 & [] & H1 & H2)%mbind_Ok. apply IH in H2. rewrite H2. clear IH H2.
    apply mbind_Ok in H1 as (t & [] & E & H1). injection E as <-.
    apply mbind_Ok in H1 as (t & st & H1 & E). injection E as <-.
    unfold poll in H1. apply mbind_Ok in H1 as (t1 & f1 & E & H1). injection E as <- <-.
    apply mbind_Ok in H1 as (t2 & st2 & E & H1). injection E as <- Hr.
    cbn [kw_file] in Hr. pose proof (kill_read_spec f) as Hs. rewrite Hr in Hs.
    cbn in H1. rewrite Hs in H1.
    destruct (decide (exists_ f = kw_last s)) as [E|E].
    + rewrite (bool_decide_eq_true_2 (exists_ f = kw_last s)) in * by exact E.
      cbn in H1. injection H1 as <- <-. cbn. now rewrite E.
    + rewrite (bool_decide_eq_false_2 (exists_ f = kw_last s)) in * by exact E.
      cbn [negb when] in H1. unfold record, mbind_ in H1. destruct (append_ok _) in H1; [|discriminate H1].
      cbn in H1. injection H1 as <- <-. cbn [kw_journal kw_last map]. now rewrite <- app_assoc.
Qed.

Lemma watch_example :
  bool_decide (kw_journal (watch [Absent; Blank; Blank; Absent] (mkKillWorld Absent false [] [])).1
               = [KillSwitched true; KillSwitched false]) = true.
Proof. vm_compute. reflexivity. Qed.

Lemma poll_journals_changes_witness :
  exists s', watch [Absent; Blank; Blank; Absent] (mkKillWorld Absent false [] []) = (s', Ok tt) /\
    kw_journal s' = [KillSwitched true; KillSwitched false].
Proof.
  eexists. split; [reflexivity|].
  refine (poll_journals_changes [Absent; Blank; Blank; Absent] (mkKillWorld Absent false [] []) _ eq_refl).
Defined.

(** ** The watchdog *)

Section WatchdogTheory.
Variable int_of_text : string -> option Z.
Implicit Types s : Watchdog.

Abbreviation run_turn := (turn int_of_text).
Abbreviation kill_file s := (kw_file (wd_kill s)).

(** What a turn past the grace period that finds the heartbeat stale comes to:
    the trip is journalled before the kill file is written. *)
Definition trip (action : DeadmanAction) (l : Look) : WM unit :=
  let! tripped := gets wd_tripped in
  set_tripped true ;!
  on_kill (record (DeadmanTrip tripped)) ;!
  on_kill (engage "dead-man switch" "watchdog" (lk_now_ns l) (lk_written l)) ;!
  when (bool_decide (action = Flatten) && negb tripped) (on_kill (record Flattened)).

Lemma turn_stale timeout action once l s age :
  heartbeat_age int_of_text (lk_heartbeat l) (lk_now_ns l) = Ok age -> stale timeout age = true ->
  (once = true \/ SFltb (lk_elapsed l) timeout = false) ->
  run_turn timeout action once l s =
    if negb (wd_tripped s) || negb (exists_ (kill_file s)) then trip action l s else (s, Ok tt).
Proof.
  intros Ha Hst Hgrace. unfold turn. unfold mbind_ at 1, lift. rewrite Ha. cbv zeta. rewrite Hst.
  assert (Hg : true && negb once && SFltb (lk_elapsed l) timeout = false).
  { destruct Hgrace as [-> | ->]; [reflexivity|now rewrite andb_false_r]. }
  rewrite Hg. unfold mbind_ at 1 2, gets. rewrite kill_engaged_exists. cbn [andb negb].
  unfold trip, mbind_ at 5, gets.
  destruct (negb (wd_tripped s) || _); [now rewrite negb_involutive|]. reflexivity.
Qed.

(** The trip returns, with the kill file in place; or the journal refuses the
    trip, and nothing is written; or the file cannot be written, and the trip is
    journalled; or a later journal entry is refused, with the file in place. *)
Lemma trip_cases action l s s' r :
  trip action l s = (s', r) ->
  wd_tripped s' = true /\
  match r with
  | Ok _ => exists_ (kill_file s') = true
  | Raise e => e = OSError /\
      ((append_ok (wd_kill s) = false /\ kill_file s' = kill_file s /\
        kw_journal (wd_kill s') = kw_journal (wd_kill s)) \/
       (lk_written l = false /\ kill_file s' = kill_file s /\
        kw_journal (wd_kill s') = kw_journal (wd_kill s) ++ [DeadmanTrip (wd_tripped s)]) \/
       exists_ (kill_file s') = true)
  end /\
  exists t, kw_journal (wd_kill s') = kw_journal (wd_kill s) ++ t /\
    ((t = [] /\ r = Raise OSError) \/
     exists u, t = DeadmanTrip (wd_tripped s) :: u /\
       (u = [] \/ u = [KillSwitched true] \/
        (u = [KillSwitched true; Flattened] /\ wd_tripped s = false /\ action = Flatten))).
Proof.
  destruct s as [tr [f la j ap]]. unfold trip, mbind_, gets, set_tripped, modify, on_kill, engage, when.
  cbn [wd_tripped wd_kill]. unfold record at 1, append_ok. cbn [kw_appends kw_file kw_last kw_journal wd_kill].
  destruct (match ap with [] => true | b :: _ => b end) eqn:E1; cbn [wd_kill wd_tripped].
  2: { intros [= <- <-]. cbn. split; [reflexivity|]. split; [auto 10|]. exists []. rewrite app_nil_r. auto. }
  destruct (lk_written l) eqn:Ew.
  2: { intros [= <- <-]. cbn. split; [reflexivity|]. split; [auto 10|]. eexists. split; [reflexivity|]. right. eauto. }
  unfold mbind_, write_file, set_last, modify, ret, record, append_ok. cbn.
  destruct (bool_decide (action = Flatten)) eqn:Ef; [apply bool_decide_eq_true in Ef|]; destruct tr; cbn;
    repeat (case_match; cbn); intros; simplify_eq; cbn; (split; [reflexivity|]); (split; [auto 10|]);
    eexists; rewrite <- ?app_assoc; (split; [reflexivity|]); right; eexists; (split; [reflexivity|]); auto.
Qed.

(** C38: past the grace period, a turn that finds the heartbeat stale leaves the
    kill file in place, even if somebody removed it since the last turn, unless
    it raises; and a turn that raises leaves no file in place only when the file
    was missing before it and either the journal refused the trip, which the code
    writes first, or the file itself could not be written. *)
Theorem deadman_engages timeout action once l s age :
  heartbeat_age int_of_text (lk_heartbeat l) (lk_now_ns l) = Ok age -> stale timeout age = true ->
  (once = true \/ SFltb (lk_elapsed l) timeout = false) ->
  exists s' r, run_turn timeout action once l s = (s', r) /\ wd_tripped s' = true /\
    (exists_ (kill_file s') = true \/
     (r = Raise OSError /\ exists_ (kill_file s) = false /\
      (append_ok (wd_kill s) = false \/
       (lk_written l = false /\
        kw_journal (wd_kill s') = kw_journal (wd_kill s) ++ [DeadmanTrip (wd_tripped s)])))).
Proof.
  intros Ha Hst Hgrace. rewrite (turn_stale timeout action once l s age Ha Hst Hgrace).
  destruct (negb (wd_tripped s) || negb (exists_ (kill_file s))) eqn:E.
  - destruct (trip action l s) as [s' r] eqn:Et. exists s', r. split; [reflexivity|].
    apply trip_cases in Et as (Ht & Hr & _). split; [exact Ht|].
    destruct r as [[]|e]; [now left|]. destruct Hr as [-> [(H1 & H2 & _)|[(H1 & H2 & H3)|H]]]; [| |now left];
      rewrite H2; destruct (exists_ (kill_file s)); auto 6.
  - apply orb_false_iff in E as [E1 E2]. rewrite negb_false_iff in E1, E2. eauto 6.
Qed.

(** The watchdog's files and journal after a turn. *)
Definition turned (action : DeadmanAction) s s' (r : res unit) : Prop :=
  (exists_ (kill_file s) = true -> exists_ (kill_file s') = true) /\
  exists t, kw_journal (wd_kill s') = kw_journal (wd_kill s) ++ t /\
    ((t = [] /\ (r = Raise OSError \/ wd_tripped s' = wd_tripped s)) \/
     (t = [HeartbeatRecovered] /\ wd_tripped s = true /\ wd_tripped s' = false) \/
     (exists u, t = DeadmanTrip (wd_tripped s) :: u /\ wd_tripped s' = true /\
        (u = [] \/ u = [KillSwitched true] \/
         (u = [KillSwitched true; Flattened] /\ wd_tripped s = false /\ action = Flatten)))).

Lemma turned_calm action s s' (r r' : res unit) : (s, r') = (s', r) -> turned action s s' r.
Proof. intros [= <- <-]. split; [done|]. exists []. rewrite app_nil_r. auto. Qed.

Lemma turn_cases timeout action once l s s' r :
  run_turn timeout action once l s = (s', r) -> turned action s s' r.
Proof.
  intros E0.
  destruct (heartbeat_age int_of_text (lk_heartbeat l) (lk_now_ns l)) as [age|e] eqn:Ha.
  2: { apply (turned_calm _ _ _ _ (Raise e)). revert E0. unfold turn, mbind_, lift. now rewrite Ha. }
  destruct (stale timeout age) eqn:Hst.
  - destruct (negb once && SFltb (lk_elapsed l) timeout) eqn:Hg.
    { apply (turned_calm _ _ _ _ (Ok tt)). revert E0. unfold turn, mbind_ at 1, lift. rewrite Ha. cbv zeta. now rewrite Hst, <- andb_assoc, Hg. }
    rewrite (turn_stale timeout action once l s age Ha Hst) in E0.
    2: { destruct once; [now left|right; exact Hg]. }
    destruct (negb (wd_tripped s) || _); [|eapply turned_calm, E0].
    apply trip_cases in E0 as (Ht & Hr & t & Hj & Hc). split.
    + destruct r as [[]|e]; [auto|]. destruct Hr as [_ [(_ & -> & _)|[(_ & -> & _)|H]]]; auto.
    + exists t. split; [exact Hj|]. destruct Hc as [[-> ->]|(u & -> & Hu)]; [left; auto|]. right. right. eauto.
  - revert E0. unfold turn, mbind_, lift, gets. rewrite Ha. cbv zeta. rewrite Hst. cbn [andb negb].
    destruct (wd_tripped s) eqn:Et; [|apply turned_calm].
    unfold set_tripped, modify, on_kill, record. destruct (append_ok _) eqn:Ea; cbn; intros [= <- <-]; cbn; (split; [done|]).
    + eexists. split; [reflexivity|]. auto.
    + exists []. rewrite app_nil_r. auto.
Qed.

(** A run: before each turn the kill file may have been put in place, replaced or
    removed by anyone. *)
Definition set_file (f : file) : WM unit := on_kill (write_file f).
Definition guard timeout action (ts : list (file * Look)) : WM unit :=
  each (fun x => set_file x.1 ;! run_turn timeout action false x.2) ts.

(** The outages in a journal: an outage opens with one first trip, may flatten
    the book once, right after that trip, may engage the switch again, and ends
    with the recovery. *)
Inductive outage := Calm | Opened | Engaged | Acted.
Definition outage_step (o : outage) (e : Entry) : option outage :=
  match e, o with
  | DeadmanTrip false, Calm => Some Opened
  | DeadmanTrip true, (Opened | Engaged | Acted) => Some Acted
  | KillSwitched true, Opened => Some Engaged
  | KillSwitched true, Acted => Some Acted
  | Flattened, Engaged => Some Acted
  | HeartbeatRecovered, (Opened | Engaged | Acted) => Some Calm
  | _, _ => None
  end.
Fixpoint outages (o : outage) (j : list Entry) : option outage :=
  match j with
  | [] => Some o
  | e :: rest => match outage_step o e with Some o' => outages o' rest | None => None end
  end.

Lemma outages_app o j j' :
  outages o (j ++ j') = match outages o j with Some o' => outages o' j' | None => None end.
Proof. revert o. induction j as [|e j IH]; intros o; [reflexivity|]. cbn. now destruct (outage_step o e). Qed.

Definition open_ (o : outage) : bool := match o with Calm => false | _ => true end.

(** A journal that is a sequence of outages, the last of them open if the
    watchdog is tripped. *)
Definition episodic s : Prop :=
  exists o, outages Calm (kw_journal (wd_kill s)) = Some o /\ open_ o = wd_tripped s.

Lemma turn_episodic timeout action once l s s' r :
  episodic s -> run_turn timeout action once l s = (s', r) ->
  outages Calm (kw_journal (wd_kill s')) <> None /\ (r = Raise OSError \/ episodic s').
Proof.
  intros (o & Ho & Hopen) E0.
  destruct (turn_cases timeout action once l s s' r E0) as [_ (t & Hj & Hcase)].
  unfold episodic. rewrite Hj, outages_app, Ho.
  destruct Hcase as [[-> E]|[(-> & E1 & E2)|(u & -> & E & Hu)]].
  - split; [discriminate|]. destruct E as [E|E]; [now left|]. right. exists o. split; [reflexivity|congruence].
  - rewrite E1 in Hopen. destruct o; try discriminate Hopen; (split; [discriminate|]); right; exists Calm; now rewrite E2.
  - rewrite E. destruct (wd_tripped s), o; try discriminate Hopen;
      destruct Hu as [-> |[-> |(-> & H & _)]]; try discriminate H; cbn; (split; [discriminate|]); eauto.
Qed.

Lemma guard_episodic timeout action ts : forall s,
  episodic s -> outages Calm (kw_journal (wd_kill (guard timeout action ts s).1)) <> None.
Proof.
  induction ts as [|x ts IH]; intros s Hs; [destruct Hs as (o & Ho & _); cbn; now rewrite Ho|].
  cbn [guard each]. unfold mbind_ at 1. unfold mbind_ at 1. cbn [set_file on_kill write_file modify].
  destruct (run_turn timeout action false x.2 _) as [s' r] eqn:E0.
  eapply turn_episodic in E0 as [Hj Hr]; [|exact Hs].
  destruct r as [[]|e]; [|exact Hj]. destruct Hr as [[=]|Hr]. now apply IH.
Qed.

(** Over any run, whatever others do to the kill file and whichever writes to the
    journal fail, the journal is a sequence of outages: each is opened by one
    first trip, flattens the book at most once and only then, and is closed by one
    recovery; and no turn removes the kill file. *)
Theorem deadman_outages timeout action f la ts appends :
  outages Calm (kw_journal (wd_kill (guard timeout action ts (mkWatchdog false (mkKillWorld f la [] appends))).1))
    <> None /\
  forall l s, implb (exists_ (kill_file s)) (exists_ (kill_file (run_turn timeout action false l s).1)) = true.
Proof.
  split; [apply guard_episodic; exists Calm; split; reflexivity|].
  intros l s. destruct (run_turn timeout action false l s) as [s' r] eqn:E0. cbn [fst].
  destruct (turn_cases timeout action false l s s' r E0) as [H _].
  destruct (exists_ (kill_file s)); [|reflexivity]. now rewrite H.
Qed.

(** The stamp in the heartbeat file is the loop's last update, however often
    the background thread has written the file since: only the loop can make
    itself look alive. *)
Theorem heartbeat_measures_loop h fields t now_ns mono_ns pid now' :
  "ts_ns" ∉ map fst (dict_merge (hb_payload h) fields) ->
  heartbeat_age int_of_text (beat (hb_update fields t h) now_ns mono_ns pid) now' =
    (let age := ns_to_sec (now' - t) in
     if SFltb age (SFopp CLOCK_TOLERANCE_SEC) then Ok ClocksDisagree
     else Ok (AgeSec (if SFltb zero_f age then age else zero_f))).
Proof.
  intros H. unfold heartbeat_age, beat, hb_update. cbn [exists_ negb heartbeat_ts hb_payload hb_liveness_ns json_item].
  rewrite dict_get_merge_absent by exact H. reflexivity.
Qed.
End WatchdogTheory.

(** ** Witnesses *)

(** A heartbeat 300 seconds old. *)
Definition demo_look : Look :=
  mkLook (Json (JObj [("ts_ns", JInt 0)])) 300000000000 (float_of_Z 1000) true.

Definition demo_age : Age := AgeSec (ns_to_sec 300000000000).

Lemma demo_look_age : heartbeat_age (fun _ => None) (lk_heartbeat demo_look) (lk_now_ns demo_look) = Ok demo_age.
Proof. vm_compute. reflexivity. Qed.

Lemma demo_look_stale : stale (float_of_Z 180) demo_age = true.
Proof. vm_compute. reflexivity. Qed.

Lemma demo_look_past_grace : SFltb (lk_elapsed demo_look) (float_of_Z 180) = false.
Proof. vm_compute. reflexivity. Qed.

Lemma deadman_engages_witness :
  exists s' r, turn (fun _ => None) (float_of_Z 180) CloseOnly false demo_look
                 (mkWatchdog true (mkKillWorld Absent false [] [])) = (s', r) /\ wd_tripped s' = true.
Proof.
  destruct (deadman_engages (fun _ => None) (float_of_Z 180) CloseOnly false demo_look
              (mkWatchdog true (mkKillWorld Absent false [] [])) demo_age
              demo_look_age demo_look_stale (or_intror demo_look_past_grace)) as (s' & r & E & Ht & _).
  exists s', r. split; [exact E|exact Ht].
Defined.

(** A journal on a full disk ends the watchdog before the kill file is written. *)
Example unjournalled_trip_engages_nothing :
  let '(s, r) := turn (fun _ => None) (float_of_Z 180) CloseOnly false demo_look
                   (mkWatchdog false (mkKillWorld Absent false [] [false])) in
  r = Raise OSError /\ kw_file (wd_kill s) = Absent /\ lk_written demo_look = true.
Proof. vm_compute. repeat split. Qed.

Lemma heartbeat_measures_loop_witness :
  exists a, heartbeat_age (fun _ => None)
    (beat (hb_update [("cycle", JInt 7)] 0 (mkHeartbeat [] 0)) 5000000000 5 1) 300000000000 = Ok a.
Proof.
  pose proof (heartbeat_measures_loop (fun _ => None) (mkHeartbeat [] 0) [("cycle", JInt 7)] 0 5000000000 5 1
                300000000000) as H.
  cbv zeta in H. case_match; (eexists; apply H; cbn; rewrite list_elem_of_singleton; discriminate).
Defined.

