(* ===== verification/Portfolio.v ===== *)
(** [sentinel/risk/portfolio.py]: the view one engine has of the other accounts of
    its group, from the rows they publish in a shared directory.  Reading a row
    file gives a row or raises; writing the files is not modelled. *)

From Stdlib Require Import ZArith QArith Lia.
From stdpp Require Import base gmap strings list.
From S2P Require Import Prelude PyDecimal DecimalTheory PyDict.

Local Open Scope dec_scope.
Local Open Scope py_scope.

Record GroupRow := mkGroupRow {
  gr_account : string;
  gr_currency : string;
  gr_equity : decimal;
  gr_open_risk : decimal;
  gr_pending_risk : decimal;
  gr_drawdown_pct : decimal;
  gr_positions : Z;
  gr_currency_risk : list (string * decimal);
  gr_written_ns : Z;
  gr_halted : bool
}.

Record GroupView := mkGroupView {
  gv_members : list GroupRow;
  gv_stale : list string;
  gv_unreadable : list string;
  gv_others_open_risk : decimal;
  gv_others_equity : decimal;
  gv_others_positions : Z;
  gv_others_currency_risk : list (string * decimal)
}.

Definition empty_view : GroupView := mkGroupView [] [] [] ZERO ZERO 0 [].

(** [dict.get(key, ZERO)]. *)
Definition leg_risk (ccy : string) (d : list (string * decimal)) : decimal := default ZERO (dict_get ccy d).

(** The loop over the currency legs of a row. *)
Definition add_legs (rate : decimal) (legs d : list (string * decimal)) : list (string * decimal) :=
  fold_left (fun d leg => dict_set leg.1 (leg_risk leg.1 d + leg.2 * rate) d) legs d.

Definition add_unreadable (name : string) (v : GroupView) : GroupView :=
  mkGroupView (gv_members v) (gv_stale v) (gv_unreadable v ++ [name]) (gv_others_open_risk v)
    (gv_others_equity v) (gv_others_positions v) (gv_others_currency_risk v).
Definition add_member (row : GroupRow) (v : GroupView) : GroupView :=
  mkGroupView (gv_members v ++ [row]) (gv_stale v) (gv_unreadable v) (gv_others_open_risk v)
    (gv_others_equity v) (gv_others_positions v) (gv_others_currency_risk v).
Definition add_stale (name : string) (v : GroupView) : GroupView :=
  mkGroupView (gv_members v) (gv_stale v ++ [name]) (gv_unreadable v) (gv_others_open_risk v)
    (gv_others_equity v) (gv_others_positions v) (gv_others_currency_risk v).
Definition add_row (row : GroupRow) (rate : decimal) (v : GroupView) : GroupView :=
  mkGroupView (gv_members v) (gv_stale v) (gv_unreadable v)
    (gv_others_open_risk v + (gr_open_risk row + gr_pending_risk row) * rate)
    (gv_others_equity v + gr_equity row * rate)
    (gv_others_positions v + gr_positions row)%Z
    (add_legs rate (gr_currency_risk row) (gv_others_currency_risk v)).

Section Ledger.
Variables (own_file : string) (now_ns stale_after_ns : Z).
Variables (conversions : option (gmap string decimal)) (own_currency : string).

(** [now - row.written_ns > self.stale_after_ns]. *)
Definition row_stale (row : GroupRow) : bool := (stale_after_ns <? now_ns - gr_written_ns row)%Z.

(** The rate of a row, [None] when it is in another currency without a usable
    rate. *)
Definition row_rate (row : GroupRow) : option decimal :=
  if negb (bool_decide (own_currency = "")) && negb (bool_decide (gr_currency row = ""))
     && negb (bool_decide (gr_currency row = own_currency))
  then match (match conversions with Some m => m !! gr_currency row | None => None end) with
       | Some rate => if rate <=? 0 then None else Some rate
       | None => None
       end
  else Some 1.

(** One file of the directory: its stem and what reading it gives. *)
Definition view_step (v : GroupView) (f : string * res GroupRow) : res GroupView :=
  if bool_decide (f.1 = own_file) then Ok v
  else match f.2 with
       | Raise (OSError | ValueError | KeyError | TypeError) => Ok (add_unreadable f.1 v)
       | Raise e => Raise e
       | Ok row =>
           let v := add_member row v in
           if row_stale row then Ok (add_stale (gr_account row) v)
           else match row_rate row with
                | None => Ok (add_unreadable (gr_account row) v)
                | Some rate => Ok (add_row row rate v)
                end
       end.

Fixpoint view_loop (v : GroupView) (files : list (string * res GroupRow)) : res GroupView :=
  match files with
  | [] => Ok v
  | f :: rest => let* v := view_step v f in view_loop v rest
  end.

(** [GroupLedger.view]; the files come in the order of [sorted(glob)]. *)
Definition view (files : list (string * res GroupRow)) : res GroupView := view_loop empty_view files.

(** ** The specification *)

(** The files of the others. *)
Definition others (files : list (string * res GroupRow)) : list (string * res GroupRow) :=
  List.filter (fun f => negb (bool_decide (f.1 = own_file))) files.

(** The rows that count, with their rates. *)
Definition counted (files : list (string * res GroupRow)) : list (GroupRow * decimal) :=
  omap (fun f => match f.2 with
                 | Ok row => if row_stale row then None else (fun rate => (row, rate)) <$> row_rate row
                 | Raise _ => None
                 end) (others files).

Lemma counted_cons f files :
  counted (f :: files) =
    (if bool_decide (f.1 = own_file) then []
     else match f.2 with
          | Ok row => if row_stale row then [] else match row_rate row with Some r => [(row, r)] | None => [] end
          | Raise _ => [] end) ++ counted files.
Proof.
  unfold counted, others. cbn [List.filter]. case_bool_decide; cbn [negb]; [reflexivity|].
  cbn. destruct (f.2) as [row|]; [|reflexivity]. destruct (row_stale row); [reflexivity|].
  now destruct (row_rate row).
Qed.

Lemma view_loop_spec files : forall v v',
  view_loop v files = Ok v' ->
  gv_others_open_risk v' =
    fold_left (fun a x => a + (gr_open_risk x.1 + gr_pending_risk x.1) * x.2) (counted files) (gv_others_open_risk v) /\
  gv_others_equity v' = fold_left (fun a x => a + gr_equity x.1 * x.2) (counted files) (gv_others_equity v) /\
  gv_others_positions v' = (gv_others_positions v + foldr (fun x a => gr_positions x.1 + a) 0 (counted files))%Z /\
  gv_others_currency_risk v' =
    fold_left (fun d x => add_legs x.2 (gr_currency_risk x.1) d) (counted files) (gv_others_currency_risk v) /\
  (length (gv_stale v') + length (gv_unreadable v') + length (counted files) =
    length (gv_stale v) + length (gv_unreadable v) + length (others files))%nat.
Proof.
  induction files as [|f files IH]; intros v v'; cbn [view_loop].
  - intros [= <-]. cbn. repeat split; lia.
  - destruct (view_step v f) as [v1|] eqn:E; [|discriminate]. cbn [rbind]. intros H.
    apply IH in H as (-> & -> & -> & -> & Hn). clear IH. rewrite counted_cons.
    rewrite !fold_left_app, foldr_app, length_app. unfold others in *. cbn [List.filter].
    unfold view_step in E. case_bool_decide; cbn [negb].
    { injection E as <-. repeat split; exact Hn. }
    destruct (f.2) as [row|e].
    + destruct (row_stale row); [|destruct (row_rate row) as [rate|]]; injection E as <-;
        unfold add_stale, add_row, add_unreadable, add_member in *; cbn in *; rewrite ?length_app in Hn; cbn in Hn;
        repeat split; lia.
    + destruct e; try discriminate; injection E as <-; unfold add_unreadable in *; cbn in *;
        rewrite length_app in Hn; cbn in Hn; repeat split; lia.
Qed.
End Ledger.

(** The view's totals are the sums, in the order of the files, of the
    converted figures of exactly the readable, fresh and convertible rows of the
    others; every other row is reported as stale or unreadable, so when nothing
    is reported every file of the group has been counted. *)
Theorem group_view_spec own_file now_ns stale_after_ns conversions own_currency files v :
  view own_file now_ns stale_after_ns conversions own_currency files = Ok v ->
  let rows := counted own_file now_ns stale_after_ns conversions own_currency files in
  gv_others_open_risk v =
    fold_left (fun a x => a + (gr_open_risk x.1 + gr_pending_risk x.1) * x.2) rows ZERO /\
  gv_others_equity v = fold_left (fun a x => a + gr_equity x.1 * x.2) rows ZERO /\
  gv_others_positions v = foldr (fun x a => gr_positions x.1 + a)%Z 0%Z rows /\
  gv_others_currency_risk v = fold_left (fun d x => add_legs x.2 (gr_currency_risk x.1) d) rows [] /\
  (length (gv_stale v) + length (gv_unreadable v) + length rows = length (others own_file files))%nat.
Proof.
  intros H. apply view_loop_spec in H as (H1 & H2 & H3 & H4 & H5). cbn in H5. repeat split; assumption.
Qed.

(** ** A group of three *)

Definition demo_row (account ccy : string) (risk : decimal) (written : Z) : GroupRow :=
  mkGroupRow account ccy 10000 risk 0 0 1 [("USD", risk)] written false.

Definition demo_files : list (string * res GroupRow) :=
  [("A", Ok (demo_row "A" "USD" 100 90)); ("B", Ok (demo_row "B" "EUR" 50 95)); ("C", Ok (demo_row "C" "USD" 70 10));
   ("D", Raise ValueError)].

Definition demo_view : res GroupView := view "self" 100 30 (Some {[ "EUR" := (1.1 : decimal) ]}) "USD" demo_files.

Lemma demo_view_ok :
  match demo_view with
  | Ok v => (gv_others_open_risk v =? 155) && bool_decide (gv_stale v = ["C"]) && bool_decide (gv_unreadable v = ["D"])
  | _ => false
  end = true.
Proof. vm_compute. reflexivity. Qed.

Lemma group_view_spec_witness :
  exists v, demo_view = Ok v /\
    (length (gv_stale v) + length (gv_unreadable v) +
     length (counted "self" 100 30 (Some {[ "EUR" := (1.1 : decimal) ]}) "USD" demo_files) = 4)%nat.
Proof.
  pose proof demo_view_ok as H. destruct demo_view as [v|e] eqn:E; [|discriminate].
  exists v. split; [reflexivity|].
  destruct (group_view_spec "self" 100 30 (Some {[ "EUR" := (1.1 : decimal) ]}) "USD" demo_files v E)
    as (_ & _ & _ & _ & Hn).
  exact Hn.
Defined.
