(* ===== verification/Ids.v ===== *)
(** [sentinel/core/ids.py]: the client order id, derived from the intent.  The
    digest (BLAKE2b, twelve bytes in hexadecimal) is a parameter. *)

From Stdlib Require Import ZArith Lia Ascii String.
From stdpp Require Import base strings list.
From S2P Require Import Prelude Types PyText.

Local Open Scope py_scope.

(** The characters [_SAFE] keeps. *)
Definition safe_char (c : ascii) : bool :=
  let n := nat_of_ascii c in
  ((48 <=? n) && (n <=? 57)) || ((65 <=? n) && (n <=? 90)) || ((97 <=? n) && (n <=? 122))
  || (n =? 95) || (n =? 45).

(** [_SAFE.sub("", raw)]. *)
Definition sanitise (raw : string) : string :=
  string_of_list_ascii (List.filter safe_char (list_ascii_of_string raw)).

Definition MAX_CLIENT_ID : nat := 32.

(** [_canonical] of the payload of [client_order_id]: the keys in sorted order. *)
Definition canonical (account : string) (attempt : Z) (instrument : string) (seq : Z) (side strategy : string)
    (decision_ns : Z) : string :=
  String.concat "|" ["acct=" +:+ account; "att=" +:+ str_of_int attempt; "inst=" +:+ instrument;
                     "seq=" +:+ str_of_int seq; "side=" +:+ side; "strat=" +:+ strategy;
                     "t=" +:+ str_of_int decision_ns].

Section Id.
Variable digest : string -> string.

(** [client_order_id], [seq] and [attempt] at their defaults. *)
Definition client_order_id (strategy instrument side : string) (decision_ns : Z) (account : string) : res string :=
  if negb (bool_decide (side = "BUY")) && negb (bool_decide (side = "SELL")) then Raise ValueError
  else Ok (String.substring 0 MAX_CLIENT_ID
             (sanitise ("SFX" +:+ digest (canonical account 0 instrument 0 side strategy decision_ns)))).
End Id.

(** ** The id names the intent *)

(** No character of the text is [|]. *)
Fixpoint no_bar (s : string) : bool :=
  match s with
  | EmptyString => true
  | String c s => negb (bool_decide (c = "|"%char)) && no_bar s
  end.

Lemma bar_split a b x y :
  no_bar a = true -> no_bar b = true -> append a (String "|" x) = append b (String "|" y) -> a = b /\ x = y.
Proof.
  revert b. induction a as [|c a IH]; intros [|c' b] Ha Hb E; cbn [append no_bar] in *.
  - injection E as E. now split.
  - injection E as <- _. discriminate Hb.
  - injection E as -> _. discriminate Ha.
  - injection E as <- E. apply andb_true_iff in Ha as [_ Ha], Hb as [_ Hb]. destruct (IH b Ha Hb E) as [-> ->]. now split.
Qed.

Lemma str_of_int_inj a b : str_of_int a = str_of_int b -> a = b.
Proof. intros E. pose proof (int_text_round_trip a) as H. rewrite E, int_text_round_trip in H. now injection H. Qed.

Lemma canonical_inj acct1 inst1 side1 strat1 t1 acct2 inst2 side2 strat2 t2 :
  forallb no_bar [acct1; inst1; side1; strat1; acct2; inst2; side2; strat2] = true ->
  canonical acct1 0 inst1 0 side1 strat1 t1 = canonical acct2 0 inst2 0 side2 strat2 t2 ->
  acct1 = acct2 /\ inst1 = inst2 /\ side1 = side2 /\ strat1 = strat2 /\ t1 = t2.
Proof.
  cbn [forallb]. rewrite !andb_true_iff. intros (Ha1 & Hi1 & Hs1 & Ht1 & Ha2 & Hi2 & Hs2 & Ht2 & _).
  unfold canonical. cbn [String.concat append]. intros E.
  apply (bar_split ("acct=" +:+ acct1) ("acct=" +:+ acct2) _ _ Ha1 Ha2) in E as [E1 E].
  apply (bar_split ("att=" +:+ str_of_int 0) ("att=" +:+ str_of_int 0) _ _ eq_refl eq_refl) in E as [_ E].
  apply (bar_split ("inst=" +:+ inst1) ("inst=" +:+ inst2) _ _ Hi1 Hi2) in E as [E2 E].
  apply (bar_split ("seq=" +:+ str_of_int 0) ("seq=" +:+ str_of_int 0) _ _ eq_refl eq_refl) in E as [_ E].
  apply (bar_split ("side=" +:+ side1) ("side=" +:+ side2) _ _ Hs1 Hs2) in E as [E3 E].
  apply (bar_split ("strat=" +:+ strat1) ("strat=" +:+ strat2) _ _ Ht1 Ht2) in E as [E4 E].
  apply (inj (String.append "acct=")) in E1. apply (inj (String.append "inst=")) in E2.
  apply (inj (String.append "side=")) in E3. apply (inj (String.append "strat=")) in E4.
  apply (inj (String.append "t=")), str_of_int_inj in E. auto.
Qed.

(** A text of safe characters no longer than an id is kept as it is. *)
Fixpoint all_safe (s : string) : bool := match s with EmptyString => true | String c s => safe_char c && all_safe s end.

Lemma sanitise_safe s : all_safe s = true -> sanitise s = s.
Proof.
  unfold sanitise. induction s as [|c s IH]; [reflexivity|]. cbn [all_safe]. intros [Hc Hs]%andb_true_iff.
  cbn [list_ascii_of_string List.filter]. rewrite Hc. cbn [string_of_list_ascii]. now rewrite IH.
Qed.

Lemma substring_whole n s : String.length s <= n -> String.substring 0 n s = s.
Proof.
  revert n. induction s as [|c s IH]; intros [|n] H; try reflexivity; cbn [String.length] in H; [lia|].
  cbn [String.substring]. rewrite IH by lia. reflexivity.
Qed.

Lemma tag_length x : String.length x <= 29 -> String.length ("SFX" +:+ x) <= MAX_CLIENT_ID.
Proof. intros H. change (3 + String.length x <= 32). lia. Qed.

(** A digest of at most 29 safe characters, as twelve bytes in hexadecimal are. *)
Definition short_digest (digest : string -> string) : Prop :=
  forall x, all_safe (digest x) = true /\ String.length (digest x) <= 29.

(** The client order id names the intent: it exists exactly for the two
    sides, is at most 32 safe characters, and two intents with the same id agree in
    strategy, instrument, side, decision time and account, unless the digest
    collides on them; so repeating an intent repeats its id. *)
Theorem client_order_id_names_intent (digest : string -> string) (strat1 inst1 side1 strat2 inst2 side2 : string)
    (t1 t2 : Z) (acct1 acct2 id : string)
    (Hd : short_digest digest)
    (Hc : digest (canonical acct1 0 inst1 0 side1 strat1 t1) = digest (canonical acct2 0 inst2 0 side2 strat2 t2) ->
          canonical acct1 0 inst1 0 side1 strat1 t1 = canonical acct2 0 inst2 0 side2 strat2 t2)
    (Hn : forallb no_bar [acct1; inst1; strat1; acct2; inst2; strat2] = true)
    (H1 : client_order_id digest strat1 inst1 side1 t1 acct1 = Ok id)
    (H2 : client_order_id digest strat2 inst2 side2 t2 acct2 = Ok id) :
  (strat1 = strat2 /\ inst1 = inst2 /\ side1 = side2 /\ t1 = t2 /\ acct1 = acct2)
  /\ all_safe id = true /\ String.length id <= MAX_CLIENT_ID /\ (side1 = "BUY" \/ side1 = "SELL").
Proof.
  assert (R : forall strat inst side t acct, client_order_id digest strat inst side t acct = Ok id ->
    id = "SFX" +:+ digest (canonical acct 0 inst 0 side strat t) /\ (side = "BUY" \/ side = "SELL")).
  { intros strat inst side t acct. unfold client_order_id. destruct (negb _ && negb _) eqn:E; [discriminate|].
    destruct (Hd (canonical acct 0 inst 0 side strat t)) as [Hs Hl].
    rewrite sanitise_safe by exact Hs. rewrite substring_whole by exact (tag_length _ Hl). intros [= <-].
    split; [reflexivity|]. apply andb_false_iff in E as [E|E]; apply negb_false_iff, bool_decide_eq_true in E; auto. }
  destruct (R _ _ _ _ _ H1) as [E1 S1], (R _ _ _ _ _ H2) as [E2 S2]. rewrite E1 in E2. apply (inj (String.append "SFX")) in E2.
  cbn [forallb] in Hn. rewrite !andb_true_iff in Hn. destruct Hn as (Ha1 & Hi1 & Ht1 & Ha2 & Hi2 & Ht2 & _).
  assert (B1 : no_bar side1 = true) by now destruct S1 as [-> | ->].
  assert (B2 : no_bar side2 = true) by now destruct S2 as [-> | ->].
  apply Hc, canonical_inj in E2 as (-> & -> & -> & -> & ->);
    [|cbn [forallb]; now rewrite Ha1, Hi1, B1, Ht1, Ha2, Hi2, B2, Ht2].
  split; [auto|]. destruct (Hd (canonical acct2 0 inst2 0 side2 strat2 t2)) as [Hs Hl]. subst id.
  split; [exact Hs|]. split; [exact (tag_length _ Hl)|exact S2].
Qed.

(** A digest by length, for a concrete id. *)
Definition demo_digest (x : string) : string := str_of_int (Z.of_nat (String.length x) mod 10).

Lemma client_order_id_names_intent_witness :
  client_order_id demo_digest "trend" "EUR_USD" "BUY" 5 "acct" = Ok "SFX9"
  /\ all_safe "SFX9" = true /\ String.length "SFX9" <= MAX_CLIENT_ID.
Proof.
  assert (Hd : short_digest demo_digest).
  { intros x. unfold demo_digest. pose proof (Z.mod_pos_bound (Z.of_nat (String.length x)) 10 eq_refl) as Hb.
    set (n := (_ mod 10)%Z) in *. clearbody n.
    assert (C : n ∈ [0; 1; 2; 3; 4; 5; 6; 7; 8; 9]%Z) by (rewrite !elem_of_cons; lia).
    repeat (apply elem_of_cons in C as [->|C]; [vm_compute; split; [reflexivity|lia]|]). now apply not_elem_of_nil in C. }
  assert (E : client_order_id demo_digest "trend" "EUR_USD" "BUY" 5 "acct" = Ok "SFX9") by (vm_compute; reflexivity).
  split; [exact E|].
  destruct (client_order_id_names_intent demo_digest "trend" "EUR_USD" "BUY" "trend" "EUR_USD" "BUY" 5 5 "acct" "acct"
              "SFX9" Hd (fun _ => eq_refl) eq_refl E E) as (_ & H1 & H2 & _).
  split; [exact H1|exact H2].
Defined.
