(* ===== verification/Agent.v ===== *)
(** [sentinel/agent/orchestrator.py], first part: what the agent knows, the state
    it keeps, its journal, its halt, and the durable part of the state with the
    file a restart reads.  The rest of the agent is in [AgentEntry] (signals to
    orders), [AgentManage] (open positions) and [AgentCycle] (start, cycle, the
    advisory queue and manual tickets).

    Everything the agent asks of the outside world is an operation of [Desk]: the
    venue, the clock, the market feed, the files, the strategies, and the learning,
    news and brain components, whose answers are arbitrary.  The state embeds the
    order manager's ([ag_oms], whose [oms_world] is the state of the desk), so the
    agent's calls are those of [Oms].  A position a venue returns is a fresh
    object.  A Python float is a [spec_float]; a journal entry keeps what it is about. *)

From Stdlib Require Import ZArith SpecFloat.
From stdpp Require Import base gmap strings list.
From S2P Require Import Prelude PyDecimal PyFloat PyText Money Types Config Calendar StateExn PyDict PyJson Venue.
From S2P Require Import Deadman Oms Portfolio.

Local Open Scope dec_scope.
Local Open Scope py_scope.

(** ** Configuration *)

Inductive AgentMode := OBSERVE | ADVISORY | SEMI_AUTO | AUTONOMOUS.
#[export] Instance AgentMode_eq_dec : EqDecision AgentMode.
Proof. solve_decision. Defined.

(** The fields of a strategy allocation the agent reads. *)
Record Allocation := mkAllocation {
  al_name : string;
  al_enabled : bool;
  al_instruments : list string;
  al_timeframe : string;
  al_lifecycle : string
}.

(** [semi_auto_envelope], a missing limit read as zero. *)
Record Envelope := mkEnvelope {
  env_instruments : list string;
  env_max_lots : spec_float;
  env_max_risk_pct : spec_float
}.

(** The configuration the agent reads; [agent.mode] changes and is in the state. *)
Record AgentConfig := mkAgentConfig {
  ac_risk : RiskConfig;
  ac_live : bool;
  ac_account_currency : string;
  ac_commission : decimal;
  ac_slippage : decimal;
  ac_reconcile_interval : Z;
  ac_max_retries : Z;
  ac_max_slippage : option decimal;
  ac_strategies : list Allocation;
  ac_loaded : list string;
  ac_envelope : Envelope;
  ac_windows : list (Z * Z);
  ac_days : list Z;
  ac_manual_live : bool;
  ac_regime : bool;
  ac_news : bool;
  ac_learning : bool;
  ac_guard : bool;
  ac_guard_min_trades : Z;
  ac_proposal_min_sample : Z;
  ac_feed_timeframe : string
}.

(** ** Signals, frames, snapshots *)

Record Signal := mkSignal {
  sg_strategy : string;
  sg_instrument : string;
  sg_side : option Side;
  sg_stop_price : option decimal;
  sg_target_price : option decimal;
  sg_horizon_bars : Z;
  sg_timeframe : string;
  sg_decision_ns : Z
}.

Definition with_decision_ns (ns : Z) (s : Signal) : Signal :=
  mkSignal (sg_strategy s) (sg_instrument s) (sg_side s) (sg_stop_price s) (sg_target_price s)
    (sg_horizon_bars s) (sg_timeframe s) ns.

(** What the agent itself reads of a frame of bars: its length, and the time of
    its last bar. *)
Record Frame := mkFrame { fr_len : Z; fr_last_ns : option Z }.

Record Snap := mkSnap {
  sn_quotes : list (string * Quote);
  sn_frames : list (string * Frame);
  sn_frames_by_tf : list (string * list (string * Frame));
  sn_ages : list (string * option decimal);
  sn_quality : list (string * DataQuality)
}.

(** [FeedSnapshot.frames_for]. *)
Definition frames_for (timeframe : string) (snap : Snap) : list (string * Frame) :=
  if bool_decide (timeframe = "") then sn_frames snap
  else default [] (dict_get timeframe (sn_frames_by_tf snap)).

(** ** Decisions *)

(** The diagnostics of a decision the agent reads back, and its other fields,
    the free text aside. *)
Record Decision := mkAgentDecision {
  de_ts_ns : Z;
  de_strategy : string;
  de_instrument : string;
  de_action : string;
  de_side : option string;
  de_lots : option string;
  de_stop : option string;
  de_target : option string;
  de_risk_amount : option string;
  de_risk_pct : option string;
  de_vetoes : list string;
  de_client_order_id : option string;
  de_caution : option spec_float;
  de_horizon_bars : option Z;
  de_timeframe : string;
  de_order_state : option OrderState
}.

Definition new_decision (ts_ns : Z) (strategy instrument action : string) (side : option string) : Decision :=
  mkAgentDecision ts_ns strategy instrument action side None None None None None [] None None None "" None.

Definition de_set_action (a : string) (d : Decision) : Decision :=
  mkAgentDecision (de_ts_ns d) (de_strategy d) (de_instrument d) a (de_side d) (de_lots d) (de_stop d)
    (de_target d) (de_risk_amount d) (de_risk_pct d) (de_vetoes d) (de_client_order_id d) (de_caution d)
    (de_horizon_bars d) (de_timeframe d) (de_order_state d).
Definition de_set_vetoes (vs : list string) (d : Decision) : Decision :=
  mkAgentDecision (de_ts_ns d) (de_strategy d) (de_instrument d) (de_action d) (de_side d) (de_lots d) (de_stop d)
    (de_target d) (de_risk_amount d) (de_risk_pct d) vs (de_client_order_id d) (de_caution d)
    (de_horizon_bars d) (de_timeframe d) (de_order_state d).
Definition de_add_veto (v : string) (d : Decision) : Decision := de_set_vetoes (de_vetoes d ++ [v]) d.
Definition de_set_id (id : string) (d : Decision) : Decision :=
  mkAgentDecision (de_ts_ns d) (de_strategy d) (de_instrument d) (de_action d) (de_side d) (de_lots d) (de_stop d)
    (de_target d) (de_risk_amount d) (de_risk_pct d) (de_vetoes d) (Some id) (de_caution d)
    (de_horizon_bars d) (de_timeframe d) (de_order_state d).
Definition de_set_levels (stop : string) (target : option string) (d : Decision) : Decision :=
  mkAgentDecision (de_ts_ns d) (de_strategy d) (de_instrument d) (de_action d) (de_side d) (de_lots d) (Some stop)
    target (de_risk_amount d) (de_risk_pct d) (de_vetoes d) (de_client_order_id d) (de_caution d)
    (de_horizon_bars d) (de_timeframe d) (de_order_state d).
Definition de_set_size (lots risk_amount risk_pct : string) (d : Decision) : Decision :=
  mkAgentDecision (de_ts_ns d) (de_strategy d) (de_instrument d) (de_action d) (de_side d) (Some lots) (de_stop d)
    (de_target d) (Some risk_amount) (Some risk_pct) (de_vetoes d) (de_client_order_id d) (de_caution d)
    (de_horizon_bars d) (de_timeframe d) (de_order_state d).
Definition de_set_caution (c : spec_float) (d : Decision) : Decision :=
  mkAgentDecision (de_ts_ns d) (de_strategy d) (de_instrument d) (de_action d) (de_side d) (de_lots d) (de_stop d)
    (de_target d) (de_risk_amount d) (de_risk_pct d) (de_vetoes d) (de_client_order_id d) (Some c)
    (de_horizon_bars d) (de_timeframe d) (de_order_state d).
Definition de_set_horizon (bars : Z) (timeframe : string) (d : Decision) : Decision :=
  mkAgentDecision (de_ts_ns d) (de_strategy d) (de_instrument d) (de_action d) (de_side d) (de_lots d) (de_stop d)
    (de_target d) (de_risk_amount d) (de_risk_pct d) (de_vetoes d) (de_client_order_id d) (de_caution d)
    (Some bars) timeframe (de_order_state d).
Definition de_set_order_state (st : OrderState) (d : Decision) : Decision :=
  mkAgentDecision (de_ts_ns d) (de_strategy d) (de_instrument d) (de_action d) (de_side d) (de_lots d) (de_stop d)
    (de_target d) (de_risk_amount d) (de_risk_pct d) (de_vetoes d) (de_client_order_id d) (de_caution d)
    (de_horizon_bars d) (de_timeframe d) (Some st).

(** ** The desk *)

Record NewsAssessment := mkNews { na_blocked : bool; na_multiplier : decimal; na_reasons : list string }.
Record ReferenceCheck := mkRefCheck { rf_blocked : bool; rf_shrink : bool; rf_multiplier : spec_float; rf_reason : string }.
Record Health := mkHealth { he_clock_skew_ms : option decimal; he_offline_seconds : decimal }.

(** A meta-label filter: act or not, and the size it allows. *)
Abbreviation Gate W := (Signal -> venue_op W (bool * spec_float)).

Record BrainOps (W : Type) := mkBrain {
  br_observe_context : venue_op W unit;
  br_cooldowns : Z -> venue_op W (list (string * string));
  br_stress_settings : venue_op W (list (string * decimal) * decimal);
  br_strategy_layers : string -> string -> venue_op W spec_float;
  br_similarity : Signal -> venue_op W spec_float;
  br_meta_gate : venue_op W (option (Gate W));
  br_record : Signal -> Decision -> venue_op W unit;
  br_resolve : venue_op W unit;
  br_on_trades : list ClosedTrade -> venue_op W unit
}.
Arguments mkBrain {W}.
Arguments br_observe_context {W}. Arguments br_cooldowns {W}. Arguments br_stress_settings {W}.
Arguments br_strategy_layers {W}. Arguments br_similarity {W}. Arguments br_meta_gate {W}.
Arguments br_record {W}. Arguments br_resolve {W}. Arguments br_on_trades {W}.

Record MacroOps (W : Type) := mkMacro {
  mc_refresh : Z -> venue_op W unit;
  mc_layers : string -> Side -> Z -> venue_op W spec_float
}.
Arguments mkMacro {W}. Arguments mc_refresh {W}. Arguments mc_layers {W}.

Record GroupOps (W : Type) := mkGroup {
  gp_account : string;
  gp_own_file : string;
  gp_stale_after_ns : Z;
  gp_publish : GroupRow -> venue_op W unit;
  gp_files : venue_op W (list (string * res GroupRow))
}.
Arguments mkGroup {W}. Arguments gp_account {W}. Arguments gp_own_file {W}. Arguments gp_stale_after_ns {W}.
Arguments gp_publish {W}. Arguments gp_files {W}.

(** An order of the journal: [ORDER_SENT] and the terminal events name it. *)
Inductive JournalEntry := JSent (id : string) | JDone (id : string).

(** Everything the agent calls: the venue, and what is not part of this model. *)
Class Desk (W : Type) := {
  desk_venue :: Venue W;
  d_now : W -> W * Z;
  d_instruments : venue_op W (list (string * Instrument));
  d_conversion_rate : string -> string -> venue_op W decimal;
  d_close_position : string -> option decimal -> string -> venue_op W SubmitResult;
  d_min_stop_distance : option (string -> venue_op W (option decimal));
  d_closed_trades : option (string -> venue_op W (list ClosedTrade * string));
  d_snapshot : list string -> Z -> list string -> venue_op W Snap;
  d_probe : Z -> venue_op W bool;
  d_connected : venue_op W bool;
  d_health : venue_op W Health;
  d_kill_file : W -> W * file;
  d_read_state : W -> W * file;
  d_write_state : json -> venue_op W unit;
  d_journal : venue_op W (list JournalEntry);
  d_entry_gate : option (venue_op W (bool * string));
  d_terminal_check : option (Z -> venue_op W bool);
  d_memory_caution : string -> string -> string -> venue_op W spec_float;
  d_news : option (Z -> list string -> venue_op W (list (string * NewsAssessment)));
  d_reference : option (Z -> list (string * Quote) -> list (string * Instrument)
                        -> venue_op W (list (string * ReferenceCheck)));
  d_brain : option (BrainOps W);
  d_macro : option (MacroOps W);
  d_meta_gate : option (Gate W);
  d_features : Signal -> venue_op W bool;
  d_regime : list (string * Frame) -> venue_op W (string * decimal);
  d_correlations : list (string * Frame) -> venue_op W (list ((string * string) * decimal));
  d_prepare : string -> list (string * Frame) -> venue_op W unit;
  d_warmup : string -> Z;
  d_generate : string -> list (string * Frame) -> string -> Z -> venue_op W (option Signal);
  d_atr : Frame -> venue_op W (option spec_float);
  d_group : option (GroupOps W);
  d_autopsy : ClosedTrade -> venue_op W unit;
  d_autopsy_count : option string -> venue_op W Z;
  d_guard_verdict : string -> Z -> venue_op W (option string);
  d_lessons : option string -> venue_op W (Z * Z);
  d_beat : Heartbeat -> venue_op W unit;
  d_digest : string -> string
}.

(** ** The state *)

(** A value of a position's metadata, a dictionary of arbitrary values. *)
Inductive mval := MDec (d : decimal) | MStr (s : string) | MInt (z : Z) | MBool (b : bool) | MNone.
Abbreviation Meta := (list (string * mval)).

(** What a restart must not forget, in the order of the file. *)
Record Durable := mkDurable {
  du_equity_peak : decimal;
  du_equity_peak_marked : decimal;
  du_day_profit_locked : bool;
  du_ladder_rung : Z;
  du_day_start : decimal;
  du_week_start : decimal;
  du_month_start : decimal;
  du_day_key : option Z;
  du_week_key : option (Z * Z);
  du_month_key : option (Z * Z);
  du_year_key : option Z;
  du_trades_today : Z;
  du_trades_week : Z;
  du_trades_year : Z;
  du_last_entry_ns : option Z;
  du_halted : bool;
  du_halt_reason : string;
  du_meta : list (string * Meta);
  du_entry_regime : list (string * string);
  du_processed : list string;
  du_marks : list (Z * decimal);
  du_cursor : string;
  du_suspended : list (string * string)
}.

(** [Agent.__init__]. *)
Definition fresh_durable : Durable :=
  mkDurable ZERO ZERO false 0 ZERO ZERO ZERO None None None None 0 0 0 None false "" [] [] [] [] "" [].

Inductive AgentEvent :=
| ASystem (what : string)
| AHalt (reason : string)
| AModeChange (what actor : string)
| AConnectivity (what : string)
| ALadder (from_rung to_rung : Z)
| AProfitLock
| AMismatch (instrument : string)
| AReplayed (id : string) (resolved : option OrderState)
| AModify (instrument : string) (failed : bool)
| AClose (instrument : string) (closed : bool)
| APartial (instrument : string) (failed : bool)
| AStale (instrument : string)
| ASignal (what : string)
| AVeto (id : string)
| AProposal (id : string)
| AProposalRejected (id actor : string)
| AProposalAccepted (id actor : string)
| AOpen (id : string)
| ALesson (what : string).

Record AgentState (W : Type) := mkAgent {
  ag_oms : OmsState W;
  ag_durable : Durable;
  ag_mode : AgentMode;
  ag_regime : option (string * decimal);
  ag_kill : KillWorld;
  ag_queue : list Decision;
  ag_decisions : list Decision;
  ag_news : list (string * NewsAssessment);
  ag_reference : list (string * ReferenceCheck);
  ag_spreads : list ((string * string) * list spec_float);
  ag_cycles : Z;
  ag_last_reconcile : Z;
  ag_licence_logged : bool;
  ag_warned_no_history : bool;
  ag_group_view : option GroupView;
  ag_heartbeat : Heartbeat;
  ag_log : list AgentEvent
}.
Arguments mkAgent {W}.
Arguments ag_oms {W}. Arguments ag_durable {W}. Arguments ag_mode {W}. Arguments ag_regime {W}.
Arguments ag_kill {W}. Arguments ag_queue {W}. Arguments ag_decisions {W}. Arguments ag_news {W}.
Arguments ag_reference {W}. Arguments ag_spreads {W}. Arguments ag_cycles {W}. Arguments ag_last_reconcile {W}.
Arguments ag_licence_logged {W}. Arguments ag_warned_no_history {W}. Arguments ag_group_view {W}.
Arguments ag_heartbeat {W}. Arguments ag_log {W}.

(** Assignments to one field. *)
Definition set_equity_peak (f : decimal -> decimal) (s : Durable) : Durable :=
  mkDurable (f (du_equity_peak s)) (du_equity_peak_marked s) (du_day_profit_locked s) (du_ladder_rung s)
    (du_day_start s) (du_week_start s) (du_month_start s) (du_day_key s) (du_week_key s) (du_month_key s)
    (du_year_key s) (du_trades_today s) (du_trades_week s) (du_trades_year s) (du_last_entry_ns s)
    (du_halted s) (du_halt_reason s) (du_meta s) (du_entry_regime s) (du_processed s) (du_marks s)
    (du_cursor s) (du_suspended s).
Definition set_equity_peak_marked (f : decimal -> decimal) (s : Durable) : Durable :=
  mkDurable (du_equity_peak s) (f (du_equity_peak_marked s)) (du_day_profit_locked s) (du_ladder_rung s)
    (du_day_start s) (du_week_start s) (du_month_start s) (du_day_key s) (du_week_key s) (du_month_key s)
    (du_year_key s) (du_trades_today s) (du_trades_week s) (du_trades_year s) (du_last_entry_ns s)
    (du_halted s) (du_halt_reason s) (du_meta s) (du_entry_regime s) (du_processed s) (du_marks s)
    (du_cursor s) (du_suspended s).
Definition set_day_profit_locked (f : bool -> bool) (s : Durable) : Durable :=
  mkDurable (du_equity_peak s) (du_equity_peak_marked s) (f (du_day_profit_locked s)) (du_ladder_rung s)
    (du_day_start s) (du_week_start s) (du_month_start s) (du_day_key s) (du_week_key s) (du_month_key s)
    (du_year_key s) (du_trades_today s) (du_trades_week s) (du_trades_year s) (du_last_entry_ns s)
    (du_halted s) (du_halt_reason s) (du_meta s) (du_entry_regime s) (du_processed s) (du_marks s)
    (du_cursor s) (du_suspended s).
Definition set_ladder_rung (f : Z -> Z) (s : Durable) : Durable :=
  mkDurable (du_equity_peak s) (du_equity_peak_marked s) (du_day_profit_locked s) (f (du_ladder_rung s))
    (du_day_start s) (du_week_start s) (du_month_start s) (du_day_key s) (du_week_key s) (du_month_key s)
    (du_year_key s) (du_trades_today s) (du_trades_week s) (du_trades_year s) (du_last_entry_ns s)
    (du_halted s) (du_halt_reason s) (du_meta s) (du_entry_regime s) (du_processed s) (du_marks s)
    (du_cursor s) (du_suspended s).
Definition set_day_start (f : decimal -> decimal) (s : Durable) : Durable :=
  mkDurable (du_equity_peak s) (du_equity_peak_marked s) (du_day_profit_locked s) (du_ladder_rung s)
    (f (du_day_start s)) (du_week_start s) (du_month_start s) (du_day_key s) (du_week_key s) (du_month_key s)
    (du_year_key s) (du_trades_today s) (du_trades_week s) (du_trades_year s) (du_last_entry_ns s)
    (du_halted s) (du_halt_reason s) (du_meta s) (du_entry_regime s) (du_processed s) (du_marks s)
    (du_cursor s) (du_suspended s).
Definition set_week_start (f : decimal -> decimal) (s : Durable) : Durable :=
  mkDurable (du_equity_peak s) (du_equity_peak_marked s) (du_day_profit_locked s) (du_ladder_rung s)
    (du_day_start s) (f (du_week_start s)) (du_month_start s) (du_day_key s) (du_week_key s) (du_month_key s)
    (du_year_key s) (du_trades_today s) (du_trades_week s) (du_trades_year s) (du_last_entry_ns s)
    (du_halted s) (du_halt_reason s) (du_meta s) (du_entry_regime s) (du_processed s) (du_marks s)
    (du_cursor s) (du_suspended s).
Definition set_month_start (f : decimal -> decimal) (s : Durable) : Durable :=
  mkDurable (du_equity_peak s) (du_equity_peak_marked s) (du_day_profit_locked s) (du_ladder_rung s)
    (du_day_start s) (du_week_start s) (f (du_month_start s)) (du_day_key s) (du_week_key s) (du_month_key s)
    (du_year_key s) (du_trades_today s) (du_trades_week s) (du_trades_year s) (du_last_entry_ns s)
    (du_halted s) (du_halt_reason s) (du_meta s) (du_entry_regime s) (du_processed s) (du_marks s)
    (du_cursor s) (du_suspended s).
Definition set_day_key (f : (option Z) -> (option Z)) (s : Durable) : Durable :=
  mkDurable (du_equity_peak s) (du_equity_peak_marked s) (du_day_profit_locked s) (du_ladder_rung s)
    (du_day_start s) (du_week_start s) (du_month_start s) (f (du_day_key s)) (du_week_key s) (du_month_key s)
    (du_year_key s) (du_trades_today s) (du_trades_week s) (du_trades_year s) (du_last_entry_ns s)
    (du_halted s) (du_halt_reason s) (du_meta s) (du_entry_regime s) (du_processed s) (du_marks s)
    (du_cursor s) (du_suspended s).
Definition set_week_key (f : (option (Z * Z)) -> (option (Z * Z))) (s : Durable) : Durable :=
  mkDurable (du_equity_peak s) (du_equity_peak_marked s) (du_day_profit_locked s) (du_ladder_rung s)
    (du_day_start s) (du_week_start s) (du_month_start s) (du_day_key s) (f (du_week_key s)) (du_month_key s)
    (du_year_key s) (du_trades_today s) (du_trades_week s) (du_trades_year s) (du_last_entry_ns s)
    (du_halted s) (du_halt_reason s) (du_meta s) (du_entry_regime s) (du_processed s) (du_marks s)
    (du_cursor s) (du_suspended s).
Definition set_month_key (f : (option (Z * Z)) -> (option (Z * Z))) (s : Durable) : Durable :=
  mkDurable (du_equity_peak s) (du_equity_peak_marked s) (du_day_profit_locked s) (du_ladder_rung s)
    (du_day_start s) (du_week_start s) (du_month_start s) (du_day_key s) (du_week_key s) (f (du_month_key s))
    (du_year_key s) (du_trades_today s) (du_trades_week s) (du_trades_year s) (du_last_entry_ns s)
    (du_halted s) (du_halt_reason s) (du_meta s) (du_entry_regime s) (du_processed s) (du_marks s)
    (du_cursor s) (du_suspended s).
Definition set_year_key (f : (option Z) -> (option Z)) (s : Durable) : Durable :=
  mkDurable (du_equity_peak s) (du_equity_peak_marked s) (du_day_profit_locked s) (du_ladder_rung s)
    (du_day_start s) (du_week_start s) (du_month_start s) (du_day_key s) (du_week_key s) (du_month_key s)
    (f (du_year_key s)) (du_trades_today s) (du_trades_week s) (du_trades_year s) (du_last_entry_ns s)
    (du_halted s) (du_halt_reason s) (du_meta s) (du_entry_regime s) (du_processed s) (du_marks s)
    (du_cursor s) (du_suspended s).
Definition set_trades_today (f : Z -> Z) (s : Durable) : Durable :=
  mkDurable (du_equity_peak s) (du_equity_peak_marked s) (du_day_profit_locked s) (du_ladder_rung s)
    (du_day_start s) (du_week_start s) (du_month_start s) (du_day_key s) (du_week_key s) (du_month_key s)
    (du_year_key s) (f (du_trades_today s)) (du_trades_week s) (du_trades_year s) (du_last_entry_ns s)
    (du_halted s) (du_halt_reason s) (du_meta s) (du_entry_regime s) (du_processed s) (du_marks s)
    (du_cursor s) (du_suspended s).
Definition set_trades_week (f : Z -> Z) (s : Durable) : Durable :=
  mkDurable (du_equity_peak s) (du_equity_peak_marked s) (du_day_profit_locked s) (du_ladder_rung s)
    (du_day_start s) (du_week_start s) (du_month_start s) (du_day_key s) (du_week_key s) (du_month_key s)
    (du_year_key s) (du_trades_today s) (f (du_trades_week s)) (du_trades_year s) (du_last_entry_ns s)
    (du_halted s) (du_halt_reason s) (du_meta s) (du_entry_regime s) (du_processed s) (du_marks s)
    (du_cursor s) (du_suspended s).
Definition set_trades_year (f : Z -> Z) (s : Durable) : Durable :=
  mkDurable (du_equity_peak s) (du_equity_peak_marked s) (du_day_profit_locked s) (du_ladder_rung s)
    (du_day_start s) (du_week_start s) (du_month_start s) (du_day_key s) (du_week_key s) (du_month_key s)
    (du_year_key s) (du_trades_today s) (du_trades_week s) (f (du_trades_year s)) (du_last_entry_ns s)
    (du_halted s) (du_halt_reason s) (du_meta s) (du_entry_regime s) (du_processed s) (du_marks s)
    (du_cursor s) (du_suspended s).
Definition set_last_entry_ns (f : (option Z) -> (option Z)) (s : Durable) : Durable :=
  mkDurable (du_equity_peak s) (du_equity_peak_marked s) (du_day_profit_locked s) (du_ladder_rung s)
    (du_day_start s) (du_week_start s) (du_month_start s) (du_day_key s) (du_week_key s) (du_month_key s)
    (du_year_key s) (du_trades_today s) (du_trades_week s) (du_trades_year s) (f (du_last_entry_ns s))
    (du_halted s) (du_halt_reason s) (du_meta s) (du_entry_regime s) (du_processed s) (du_marks s)
    (du_cursor s) (du_suspended s).
Definition set_halted (f : bool -> bool) (s : Durable) : Durable :=
  mkDurable (du_equity_peak s) (du_equity_peak_marked s) (du_day_profit_locked s) (du_ladder_rung s)
    (du_day_start s) (du_week_start s) (du_month_start s) (du_day_key s) (du_week_key s) (du_month_key s)
    (du_year_key s) (du_trades_today s) (du_trades_week s) (du_trades_year s) (du_last_entry_ns s)
    (f (du_halted s)) (du_halt_reason s) (du_meta s) (du_entry_regime s) (du_processed s) (du_marks s)
    (du_cursor s) (du_suspended s).
Definition set_halt_reason (f : string -> string) (s : Durable) : Durable :=
  mkDurable (du_equity_peak s) (du_equity_peak_marked s) (du_day_profit_locked s) (du_ladder_rung s)
    (du_day_start s) (du_week_start s) (du_month_start s) (du_day_key s) (du_week_key s) (du_month_key s)
    (du_year_key s) (du_trades_today s) (du_trades_week s) (du_trades_year s) (du_last_entry_ns s)
    (du_halted s) (f (du_halt_reason s)) (du_meta s) (du_entry_regime s) (du_processed s) (du_marks s)
    (du_cursor s) (du_suspended s).
Definition set_meta (f : (list (string * Meta)) -> (list (string * Meta))) (s : Durable) : Durable :=
  mkDurable (du_equity_peak s) (du_equity_peak_marked s) (du_day_profit_locked s) (du_ladder_rung s)
    (du_day_start s) (du_week_start s) (du_month_start s) (du_day_key s) (du_week_key s) (du_month_key s)
    (du_year_key s) (du_trades_today s) (du_trades_week s) (du_trades_year s) (du_last_entry_ns s)
    (du_halted s) (du_halt_reason s) (f (du_meta s)) (du_entry_regime s) (du_processed s) (du_marks s)
    (du_cursor s) (du_suspended s).
Definition set_entry_regime (f : (list (string * string)) -> (list (string * string))) (s : Durable) : Durable :=
  mkDurable (du_equity_peak s) (du_equity_peak_marked s) (du_day_profit_locked s) (du_ladder_rung s)
    (du_day_start s) (du_week_start s) (du_month_start s) (du_day_key s) (du_week_key s) (du_month_key s)
    (du_year_key s) (du_trades_today s) (du_trades_week s) (du_trades_year s) (du_last_entry_ns s)
    (du_halted s) (du_halt_reason s) (du_meta s) (f (du_entry_regime s)) (du_processed s) (du_marks s)
    (du_cursor s) (du_suspended s).
Definition set_processed (f : (list string) -> (list string)) (s : Durable) : Durable :=
  mkDurable (du_equity_peak s) (du_equity_peak_marked s) (du_day_profit_locked s) (du_ladder_rung s)
    (du_day_start s) (du_week_start s) (du_month_start s) (du_day_key s) (du_week_key s) (du_month_key s)
    (du_year_key s) (du_trades_today s) (du_trades_week s) (du_trades_year s) (du_last_entry_ns s)
    (du_halted s) (du_halt_reason s) (du_meta s) (du_entry_regime s) (f (du_processed s)) (du_marks s)
    (du_cursor s) (du_suspended s).
Definition set_marks (f : (list (Z * decimal)) -> (list (Z * decimal))) (s : Durable) : Durable :=
  mkDurable (du_equity_peak s) (du_equity_peak_marked s) (du_day_profit_locked s) (du_ladder_rung s)
    (du_day_start s) (du_week_start s) (du_month_start s) (du_day_key s) (du_week_key s) (du_month_key s)
    (du_year_key s) (du_trades_today s) (du_trades_week s) (du_trades_year s) (du_last_entry_ns s)
    (du_halted s) (du_halt_reason s) (du_meta s) (du_entry_regime s) (du_processed s) (f (du_marks s))
    (du_cursor s) (du_suspended s).
Definition set_cursor (f : string -> string) (s : Durable) : Durable :=
  mkDurable (du_equity_peak s) (du_equity_peak_marked s) (du_day_profit_locked s) (du_ladder_rung s)
    (du_day_start s) (du_week_start s) (du_month_start s) (du_day_key s) (du_week_key s) (du_month_key s)
    (du_year_key s) (du_trades_today s) (du_trades_week s) (du_trades_year s) (du_last_entry_ns s)
    (du_halted s) (du_halt_reason s) (du_meta s) (du_entry_regime s) (du_processed s) (du_marks s)
    (f (du_cursor s)) (du_suspended s).
Definition set_suspended (f : (list (string * string)) -> (list (string * string))) (s : Durable) : Durable :=
  mkDurable (du_equity_peak s) (du_equity_peak_marked s) (du_day_profit_locked s) (du_ladder_rung s)
    (du_day_start s) (du_week_start s) (du_month_start s) (du_day_key s) (du_week_key s) (du_month_key s)
    (du_year_key s) (du_trades_today s) (du_trades_week s) (du_trades_year s) (du_last_entry_ns s)
    (du_halted s) (du_halt_reason s) (du_meta s) (du_entry_regime s) (du_processed s) (du_marks s)
    (du_cursor s) (f (du_suspended s)).

Section Setters.
Context {W : Type}.
Definition with_oms (f : (OmsState W) -> (OmsState W)) (s : AgentState W) : AgentState W :=
  mkAgent (f (ag_oms s)) (ag_durable s) (ag_mode s) (ag_regime s) (ag_kill s) (ag_queue s) (ag_decisions s)
    (ag_news s) (ag_reference s) (ag_spreads s) (ag_cycles s) (ag_last_reconcile s) (ag_licence_logged s)
    (ag_warned_no_history s) (ag_group_view s) (ag_heartbeat s) (ag_log s).
Definition with_durable (f : Durable -> Durable) (s : AgentState W) : AgentState W :=
  mkAgent (ag_oms s) (f (ag_durable s)) (ag_mode s) (ag_regime s) (ag_kill s) (ag_queue s) (ag_decisions s)
    (ag_news s) (ag_reference s) (ag_spreads s) (ag_cycles s) (ag_last_reconcile s) (ag_licence_logged s)
    (ag_warned_no_history s) (ag_group_view s) (ag_heartbeat s) (ag_log s).
Definition with_mode (f : AgentMode -> AgentMode) (s : AgentState W) : AgentState W :=
  mkAgent (ag_oms s) (ag_durable s) (f (ag_mode s)) (ag_regime s) (ag_kill s) (ag_queue s) (ag_decisions s)
    (ag_news s) (ag_reference s) (ag_spreads s) (ag_cycles s) (ag_last_reconcile s) (ag_licence_logged s)
    (ag_warned_no_history s) (ag_group_view s) (ag_heartbeat s) (ag_log s).
Definition with_regime (f : (option (string * decimal)) -> (option (string * decimal))) (s : AgentState W) : AgentState W :=
  mkAgent (ag_oms s) (ag_durable s) (ag_mode s) (f (ag_regime s)) (ag_kill s) (ag_queue s) (ag_decisions s)
    (ag_news s) (ag_reference s) (ag_spreads s) (ag_cycles s) (ag_last_reconcile s) (ag_licence_logged s)
    (ag_warned_no_history s) (ag_group_view s) (ag_heartbeat s) (ag_log s).
Definition with_kill (f : KillWorld -> KillWorld) (s : AgentState W) : AgentState W :=
  mkAgent (ag_oms s) (ag_durable s) (ag_mode s) (ag_regime s) (f (ag_kill s)) (ag_queue s) (ag_decisions s)
    (ag_news s) (ag_reference s) (ag_spreads s) (ag_cycles s) (ag_last_reconcile s) (ag_licence_logged s)
    (ag_warned_no_history s) (ag_group_view s) (ag_heartbeat s) (ag_log s).
Definition with_queue (f : (list Decision) -> (list Decision)) (s : AgentState W) : AgentState W :=
  mkAgent (ag_oms s) (ag_durable s) (ag_mode s) (ag_regime s) (ag_kill s) (f (ag_queue s)) (ag_decisions s)
    (ag_news s) (ag_reference s) (ag_spreads s) (ag_cycles s) (ag_last_reconcile s) (ag_licence_logged s)
    (ag_warned_no_history s) (ag_group_view s) (ag_heartbeat s) (ag_log s).
Definition with_decisions (f : (list Decision) -> (list Decision)) (s : AgentState W) : AgentState W :=
  mkAgent (ag_oms s) (ag_durable s) (ag_mode s) (ag_regime s) (ag_kill s) (ag_queue s) (f (ag_decisions s))
    (ag_news s) (ag_reference s) (ag_spreads s) (ag_cycles s) (ag_last_reconcile s) (ag_licence_logged s)
    (ag_warned_no_history s) (ag_group_view s) (ag_heartbeat s) (ag_log s).
Definition with_news (f : (list (string * NewsAssessment)) -> (list (string * NewsAssessment))) (s : AgentState W) : AgentState W :=
  mkAgent (ag_oms s) (ag_durable s) (ag_mode s) (ag_regime s) (ag_kill s) (ag_queue s) (ag_decisions s)
    (f (ag_news s)) (ag_reference s) (ag_spreads s) (ag_cycles s) (ag_last_reconcile s) (ag_licence_logged s)
    (ag_warned_no_history s) (ag_group_view s) (ag_heartbeat s) (ag_log s).
Definition with_reference (f : (list (string * ReferenceCheck)) -> (list (string * ReferenceCheck))) (s : AgentState W) : AgentState W :=
  mkAgent (ag_oms s) (ag_durable s) (ag_mode s) (ag_regime s) (ag_kill s) (ag_queue s) (ag_decisions s)
    (ag_news s) (f (ag_reference s)) (ag_spreads s) (ag_cycles s) (ag_last_reconcile s) (ag_licence_logged s)
    (ag_warned_no_history s) (ag_group_view s) (ag_heartbeat s) (ag_log s).
Definition with_spreads (f : (list ((string * string) * list spec_float)) -> (list ((string * string) * list spec_float))) (s : AgentState W) : AgentState W :=
  mkAgent (ag_oms s) (ag_durable s) (ag_mode s) (ag_regime s) (ag_kill s) (ag_queue s) (ag_decisions s)
    (ag_news s) (ag_reference s) (f (ag_spreads s)) (ag_cycles s) (ag_last_reconcile s) (ag_licence_logged s)
    (ag_warned_no_history s) (ag_group_view s) (ag_heartbeat s) (ag_log s).
Definition with_cycles (f : Z -> Z) (s : AgentState W) : AgentState W :=
  mkAgent (ag_oms s) (ag_durable s) (ag_mode s) (ag_regime s) (ag_kill s) (ag_queue s) (ag_decisions s)
    (ag_news s) (ag_reference s) (ag_spreads s) (f (ag_cycles s)) (ag_last_reconcile s) (ag_licence_logged s)
    (ag_warned_no_history s) (ag_group_view s) (ag_heartbeat s) (ag_log s).
Definition with_last_reconcile (f : Z -> Z) (s : AgentState W) : AgentState W :=
  mkAgent (ag_oms s) (ag_durable s) (ag_mode s) (ag_regime s) (ag_kill s) (ag_queue s) (ag_decisions s)
    (ag_news s) (ag_reference s) (ag_spreads s) (ag_cycles s) (f (ag_last_reconcile s)) (ag_licence_logged s)
    (ag_warned_no_history s) (ag_group_view s) (ag_heartbeat s) (ag_log s).
Definition with_licence_logged (f : bool -> bool) (s : AgentState W) : AgentState W :=
  mkAgent (ag_oms s) (ag_durable s) (ag_mode s) (ag_regime s) (ag_kill s) (ag_queue s) (ag_decisions s)
    (ag_news s) (ag_reference s) (ag_spreads s) (ag_cycles s) (ag_last_reconcile s) (f (ag_licence_logged s))
    (ag_warned_no_history s) (ag_group_view s) (ag_heartbeat s) (ag_log s).
Definition with_warned_no_history (f : bool -> bool) (s : AgentState W) : AgentState W :=
  mkAgent (ag_oms s) (ag_durable s) (ag_mode s) (ag_regime s) (ag_kill s) (ag_queue s) (ag_decisions s)
    (ag_news s) (ag_reference s) (ag_spreads s) (ag_cycles s) (ag_last_reconcile s) (ag_licence_logged s)
    (f (ag_warned_no_history s)) (ag_group_view s) (ag_heartbeat s) (ag_log s).
Definition with_group_view (f : (option GroupView) -> (option GroupView)) (s : AgentState W) : AgentState W :=
  mkAgent (ag_oms s) (ag_durable s) (ag_mode s) (ag_regime s) (ag_kill s) (ag_queue s) (ag_decisions s)
    (ag_news s) (ag_reference s) (ag_spreads s) (ag_cycles s) (ag_last_reconcile s) (ag_licence_logged s)
    (ag_warned_no_history s) (f (ag_group_view s)) (ag_heartbeat s) (ag_log s).
Definition with_heartbeat (f : Heartbeat -> Heartbeat) (s : AgentState W) : AgentState W :=
  mkAgent (ag_oms s) (ag_durable s) (ag_mode s) (ag_regime s) (ag_kill s) (ag_queue s) (ag_decisions s)
    (ag_news s) (ag_reference s) (ag_spreads s) (ag_cycles s) (ag_last_reconcile s) (ag_licence_logged s)
    (ag_warned_no_history s) (ag_group_view s) (f (ag_heartbeat s)) (ag_log s).
Definition with_log (f : (list AgentEvent) -> (list AgentEvent)) (s : AgentState W) : AgentState W :=
  mkAgent (ag_oms s) (ag_durable s) (ag_mode s) (ag_regime s) (ag_kill s) (ag_queue s) (ag_decisions s)
    (ag_news s) (ag_reference s) (ag_spreads s) (ag_cycles s) (ag_last_reconcile s) (ag_licence_logged s)
    (ag_warned_no_history s) (ag_group_view s) (ag_heartbeat s) (f (ag_log s)).
End Setters.
