(* ===== verification/AgentDurable.v ===== *)
(** [sentinel/agent/orchestrator.py], second part: the agent's computations, its
    journal, the state file with what a restart restores from it, the halt and who
    clears it, the budget windows and the rolling equity marks.  The state file is
    JSON; the loader follows the source on any JSON, the values of a field of
    another type than the program writes being read as the default. *)

From Stdlib Require Import ZArith Lia SpecFloat.
From stdpp Require Import base gmap strings list.
From S2P Require Import Prelude PyDecimal PyFloat PyText Money Types Config Calendar StateExn PyDict PyJson Venue.
From S2P Require Import Deadman Oms Portfolio Agent.

Local Open Scope dec_scope.
Local Open Scope py_scope.

(** [_EQUITY_MARK_WINDOW], [_EQUITY_MARK_BUCKET_NS], and the trailing day. *)
Definition EQUITY_MARK_WINDOW : nat := 400.
Definition EQUITY_MARK_BUCKET_NS : Z := 300 * 1000000000.
Definition DAY_NS : Z := 86400 * 1000000000.

(** The last [n] elements: [xs[-n:]], and a deque with [maxlen=n]. *)
Definition lastn {A} (n : nat) (xs : list A) : list A := drop (length xs - n) xs.

(** ** Values of the metadata *)

(** [str(v)]. *)
Definition mval_str (v : mval) : string :=
  match v with
  | MDec d => str_of_decimal d
  | MStr s => s
  | MInt z => str_of_int z
  | MBool b => if b then "True" else "False"
  | MNone => "None"
  end.

(** [bool(v)]. *)
Definition mval_true (v : mval) : bool :=
  match v with
  | MDec d => negb (is_zero d)
  | MStr s => negb (bool_decide (s = ""))
  | MInt z => negb (z =? 0)%Z
  | MBool b => b
  | MNone => false
  end.

(** [dec(v)]. *)
Definition mval_dec (v : mval) : res decimal :=
  match v with
  | MDec d => Ok d
  | MStr s => dec_str s
  | MInt z => Ok (dec_of_Z z)
  | MBool _ | MNone => Raise ValueError
  end.

(** [int(v)]; a decimal is truncated toward zero. *)
Definition mval_int (v : mval) : res Z :=
  match v with
  | MDec d => Ok (if (0 <=? expo d)%Z then coef d * 10 ^ expo d else Z.quot (coef d) (10 ^ (- expo d)))%Z
  | MStr s => match int_of_str s with Some z => Ok z | None => Raise ValueError end
  | MInt z => Ok z
  | MBool b => Ok (if b then 1 else 0)%Z
  | MNone => Raise TypeError
  end.

(** [meta.get(key, default)], and [meta.get(key, default) or other]. *)
Definition meta_get (key : string) (default_ : mval) (m : Meta) : mval := default default_ (dict_get key m).
Definition meta_or (key : string) (default_ other : mval) (m : Meta) : mval :=
  let v := meta_get key default_ m in if mval_true v then v else other.
(** [str(meta.get(key, ""))]. *)
Definition meta_text (key : string) (m : Meta) : string := mval_str (meta_get key (MStr "") m).
(** [dec(meta.get(key, 0) or 0)]. *)
Definition meta_dec (key : string) (m : Meta) : res decimal := mval_dec (meta_or key (MInt 0) (MInt 0) m).
(** [bool(meta.get(key, False))]. *)
Definition meta_flag (key : string) (m : Meta) : bool := mval_true (meta_get key (MBool false) m).

Definition side_text (s : Side) : string := match s with BUY => "BUY" | SELL => "SELL" end.
(** [Side(text)]. *)
Definition side_of (text : string) : res Side :=
  if bool_decide (text = "BUY") then Ok BUY else if bool_decide (text = "SELL") then Ok SELL else Raise ValueError.

(** ** The state file *)

Definition json_opt_int (o : option Z) : json := match o with Some z => JInt z | None => JNull end.
Definition json_key (k : option (Z * Z)) : json :=
  match k with Some (a, b) => JList [JInt a; JInt b] | None => JList [] end.
Definition json_texts (d : list (string * string)) : json := JObj (map (fun kv => (kv.1, JStr kv.2)) d).
Definition json_meta (m : Meta) : json := JObj (map (fun kv => (kv.1, JStr (mval_str kv.2))) m).
Definition json_decimal (d : decimal) : json := JStr (str_of_decimal d).

(** [_save_state]: the payload. *)
Definition payload (d : Durable) (saved_ns : Z) : json :=
  JObj [("equity_peak", json_decimal (du_equity_peak d));
        ("equity_peak_marked", json_decimal (du_equity_peak_marked d));
        ("day_profit_locked", JBool (du_day_profit_locked d));
        ("ladder_rung", JInt (du_ladder_rung d));
        ("day_start_equity", json_decimal (du_day_start d));
        ("week_start_equity", json_decimal (du_week_start d));
        ("month_start_equity", json_decimal (du_month_start d));
        ("day_key", json_opt_int (du_day_key d)); ("week_key", json_key (du_week_key d));
        ("month_key", json_key (du_month_key d)); ("year_key", json_opt_int (du_year_key d));
        ("trades_today", JInt (du_trades_today d)); ("trades_week", JInt (du_trades_week d));
        ("trades_year", JInt (du_trades_year d)); ("last_entry_ns", json_opt_int (du_last_entry_ns d));
        ("halted", JBool (du_halted d)); ("halt_reason", JStr (du_halt_reason d));
        ("position_meta", JObj (map (fun kv => (kv.1, json_meta kv.2)) (du_meta d)));
        ("entry_regime", json_texts (du_entry_regime d));
        ("processed_trades", JList (map JStr (lastn 5000 (du_processed d))));
        ("equity_marks", JList (map (fun m => JList [JInt m.1; json_decimal m.2]) (du_marks d)));
        ("trade_cursor", JStr (du_cursor d));
        ("guard_suspended", json_texts (du_suspended d));
        ("saved_ns", JInt saved_ns)].

(** ** Reading it *)

(** [dec(j)]. *)
Definition json_dec (j : json) : res decimal :=
  match j with
  | JInt z => Ok (dec_of_Z z)
  | JFloat x => dec_float x
  | JStr s => dec_str s
  | JBool _ | JNull | JList _ | JObj _ => Raise ValueError
  end.

(** [int(j)] and [int(float(j))]. *)
Definition json_int (j : json) : res Z := int_of_json int_of_str j.
Definition json_float_int (j : json) : res Z :=
  let* x := match j with
            | JInt z => Ok (float_of_Z z)
            | JBool b => Ok (float_of_Z (if b then 1 else 0))
            | JFloat x => Ok x
            | JStr s => (let* d := dec_str s in Ok (float_of_dec d))
            | JNull | JList _ | JObj _ => Raise TypeError
            end in
  int_of_json int_of_str (JFloat x).

(** [str(j)] of a text or a number, the only ones the program writes. *)
Definition json_str (j : json) : string :=
  match j with
  | JStr s => s
  | JInt z => str_of_int z
  | JBool b => if b then "True" else "False"
  | JNull => "None"
  | JFloat _ | JList _ | JObj _ => ""
  end.

(** [j or other]. *)
Definition json_or (j other : json) : json := if truthy j then j else other.

(** A key the program compares with integers only: a value of another form is
    unequal to every key, as [None] is. *)
Definition int_key (j : json) : option Z := match j with JInt z => Some z | _ => None end.
Definition pair_key (j : json) : option (Z * Z) :=
  match j with JList [JInt a; JInt b] => Some (a, b) | _ => None end.

(** What iterating over [j] gives. *)
Definition json_iter (j : json) : res (list json) :=
  match j with
  | JList l => Ok l
  | JObj fields => Ok (map (fun kv => JStr kv.1) fields)
  | JStr s => Ok (map (fun c => JStr (String.String c "")) (String.list_ascii_of_string s))
  | JNull | JBool _ | JInt _ | JFloat _ => Raise TypeError
  end.

(** [row[i]]. *)
Definition json_at (row : json) (i : nat) : res json :=
  match row with
  | JList l => match l !! i with Some j => Ok j | None => Raise IndexError end
  | JStr s => match String.list_ascii_of_string s !! i with
              | Some c => Ok (JStr (String.String c "")) | None => Raise IndexError end
  | JObj _ => Raise KeyError
  | JNull | JBool _ | JInt _ | JFloat _ => Raise TypeError
  end.

(** [.items()]. *)
Definition json_items (j : json) : res (list (string * json)) :=
  match j with JObj fields => Ok fields | _ => Raise AttributeError end.

Definition mval_of_json (j : json) : mval :=
  match j with
  | JStr s => MStr s
  | JInt z => MInt z
  | JBool b => MBool b
  | JNull => MNone
  | JFloat _ | JList _ | JObj _ => MStr (json_str j)
  end.

(** [j == "True"]. *)
Definition is_True (j : json) : bool := match j with JStr s => bool_decide (s = "True") | _ => false end.

(** The metadata of one position, as [_load_state] rebuilds it. *)
Definition meta_of_json (m : json) : res Meta :=
  let get key dflt := json_get m key dflt in
  let get0 key := (let* j := get key (JInt 0) in Ok (json_or j (JInt 0))) in
  let* initial_risk := (let* j := get "initial_risk" (JInt 0) in json_dec j) in
  let* strategy := get "strategy" (JStr "") in
  let* opened_ns := (let* j := get0 "opened_ns" in json_int j) in
  let* side := get "side" (JStr "") in
  let* coid := get "client_order_id" (JStr "") in
  let* regime := get "regime" (JStr "") in
  let* provisional := get "provisional" JNull in
  let* partial := get "partial_taken" JNull in
  let* breakeven := get "breakeven_moved" JNull in
  let* lots := (let* j := get0 "lots" in json_dec j) in
  let* entry := (let* j := get0 "entry_price" in json_dec j) in
  let* stop := (let* j := get "stop_loss" JNull in
                match j with
                | JNull => Ok MNone
                | JStr s => if bool_decide (s = "") || bool_decide (s = "None") then Ok MNone
                            else (let* d := dec_str s in Ok (MDec d))
                | _ => (let* d := json_dec j in Ok (MDec d))
                end) in
  let* favourable := (let* j := get0 "max_favourable" in json_dec j) in
  let* adverse := (let* j := get0 "max_adverse" in json_dec j) in
  let* hold := (let* j := get0 "max_hold_sec" in json_float_int j) in
  let* intended := (let* j := get0 "intended_risk" in json_dec j) in
  Ok [("initial_risk", MDec initial_risk); ("strategy", mval_of_json strategy); ("opened_ns", MInt opened_ns);
      ("side", mval_of_json side); ("client_order_id", mval_of_json coid); ("regime", mval_of_json regime);
      ("provisional", MBool (is_True provisional)); ("partial_taken", MBool (is_True partial));
      ("breakeven_moved", MBool (is_True breakeven)); ("lots", MDec lots); ("entry_price", MDec entry);
      ("stop_loss", stop); ("max_favourable", MDec favourable); ("max_adverse", MDec adverse);
      ("max_hold_sec", MInt hold); ("intended_risk", MDec intended)].

Section Core.
Context {W : Type} `{!Desk W}.

Definition AM (A : Type) : Type := M (AgentState W) A.

(** An operation of the desk, and one that cannot raise. *)
Definition ask {A} (op : venue_op W A) : AM A :=
  fun s => match op (oms_world (ag_oms s)) with (w, r) => (with_oms (set_world w) s, r) end.
Definition read {A} (op : W -> W * A) : AM A := ask (fun w => let (w', a) := op w in (w', Ok a)).

(** A computation of the order manager. *)
Definition on_oms {A} (c : OM (W := W) A) : AM A :=
  fun s => match c (ag_oms s) with (o, r) => (with_oms (fun _ => o) s, r) end.

Definition now : AM Z := read d_now.
Definition log (e : AgentEvent) : AM unit := modify (with_log (fun l => l ++ [e])).
Definition durable {A} (f : Durable -> A) : AM A := gets (fun s => f (ag_durable s)).
Definition change (f : Durable -> Durable) : AM unit := modify (with_durable f).
Definition assign {A} (setter : (A -> A) -> Durable -> Durable) (a : A) : AM unit := change (setter (fun _ => a)).

(** [self.halted = True; self.halt_reason = reason]. *)
Definition mark_halted (reason : string) : AM unit :=
  change (fun d => set_halt_reason (fun _ => reason) (set_halted (fun _ => true) d)).

(** [_save_state]. *)
Definition save_state : AM unit :=
  let! d := durable id in
  let! t := now in
  let! r := attempt (ask (d_write_state (payload d t))) in
  match r with
  | Ok _ => ret tt
  | Raise OSError => log (ASystem "state_save_failed") ;! mark_halted "state persistence failed"
  | Raise e => throw e
  end.

(** [halt]. *)
Definition halt (reason : string) : AM unit :=
  let! halted := durable du_halted in
  if halted : bool then ret tt
  else mark_halted reason ;! log (AHalt reason) ;! save_state.

(** [resume]. *)
Definition resume (by_ : string) : AM bool :=
  let! halted := durable du_halted in
  if negb halted then ret false
  else
    assign set_halted false ;!
    log (AModeChange "resumed" by_) ;!
    assign set_halt_reason "" ;!
    save_state ;!
    ret true.

(** [set_mode]. *)
Definition set_mode (cfg : AgentConfig) (m : AgentMode) (by_ : string) : AM unit :=
  if bool_decide (m = AUTONOMOUS) && ac_live cfg
     && existsb (fun a => al_enabled a && negb (bool_decide (al_lifecycle a = "accepted"))) (ac_strategies cfg)
  then throw ValueError
  else modify (with_mode (fun _ => m)) ;! log (AModeChange "mode" by_).

(** ** Restoring *)

(** One row of the equity marks: a malformed one is skipped. *)
Definition restore_mark (row : json) : AM unit :=
  match (let* t := json_at row 0 in let* t := json_int t in
         let* e := json_at row 1 in let* e := json_dec e in Ok (t, e)) with
  | Ok m => change (set_marks (fun ms => lastn EQUITY_MARK_WINDOW (ms ++ [m])))
  | Raise (TypeError | ValueError | IndexError | InvalidOperation) => ret tt
  | Raise e => throw e
  end.

Definition restore_meta (entry : string * json) : AM unit :=
  let! m := lift (meta_of_json entry.2) in
  change (set_meta (dict_set entry.1 m)).

(** [for attr: self.attr = dec(data.get(key, 0))] and the integer counters. *)
Definition restore_dec (data : json) (key : string) (setter : (decimal -> decimal) -> Durable -> Durable) : AM unit :=
  let! d := lift (let* j := json_get data key (JInt 0) in json_dec j) in assign setter d.
Definition restore_int (data : json) (key : string) (setter : (Z -> Z) -> Durable -> Durable) : AM unit :=
  let! n := lift (let* j := json_get data key (JInt 0) in json_int j) in assign setter n.

Definition restore_periods (data : json) : AM unit :=
  restore_dec data "day_start_equity" set_day_start ;!
  restore_dec data "week_start_equity" set_week_start ;!
  restore_dec data "month_start_equity" set_month_start ;!
  (let! j := lift (json_get data "day_key" JNull) in assign set_day_key (int_key j)) ;!
  (let! j := lift (json_get data "week_key" JNull) in
   let! _ := lift (json_iter (json_or j (JList []))) in assign set_week_key (pair_key j)) ;!
  (let! j := lift (json_get data "month_key" JNull) in
   let! _ := lift (json_iter (json_or j (JList []))) in assign set_month_key (pair_key j)) ;!
  (let! j := lift (json_get data "year_key" JNull) in assign set_year_key (int_key j)) ;!
  restore_int data "trades_today" set_trades_today ;!
  restore_int data "trades_week" set_trades_week ;!
  restore_int data "trades_year" set_trades_year ;!
  let! j := lift (json_get data "last_entry_ns" JNull) in assign set_last_entry_ns (int_key j).

(** A halt survives a restart. *)
Definition restore_halt (data : json) : AM unit :=
  let! h := lift (json_get data "halted" JNull) in
  when (truthy h)
    (let! reason := lift (json_get data "halt_reason" (JStr "carried over from a previous run")) in
     mark_halted (json_str reason)).

Definition restore_texts (data : json) (key : string) (wrong : exn)
    (setter : (list (string * string) -> list (string * string)) -> Durable -> Durable) : AM unit :=
  let! j := lift (json_get data key JNull) in
  match json_or j (JObj []) with
  | JObj fields => assign setter (map (fun kv => (kv.1, json_str kv.2)) fields)
  | _ => throw wrong
  end.

Definition restore (data : json) : AM unit :=
  restore_dec data "equity_peak" set_equity_peak ;!
  restore_dec data "equity_peak_marked" set_equity_peak_marked ;!
  (let! j := lift (json_get data "day_profit_locked" (JBool false)) in
   assign set_day_profit_locked (truthy j)) ;!
  (let! j := lift (json_get data "ladder_rung" JNull) in
   let! n := (match j with JNull => ret 0%Z | _ => lift (json_int j) end) in
   assign set_ladder_rung n) ;!
  restore_periods data ;!
  restore_halt data ;!
  restore_texts data "entry_regime" TypeError set_entry_regime ;!
  (let! j := lift (json_get data "processed_trades" JNull) in
   let! ids := lift (json_iter (json_or j (JList []))) in
   assign set_processed (map json_str ids)) ;!
  assign set_marks [] ;!
  (let! j := lift (json_get data "equity_marks" JNull) in
   let! rows := lift (json_iter (json_or j (JList []))) in
   each restore_mark rows) ;!
  (let! j := lift (json_get data "trade_cursor" JNull) in assign set_cursor (json_str (json_or j (JStr "")))) ;!
  (let! j := lift (json_get data "position_meta" JNull) in
   let! entries := lift (json_items (json_or j (JObj []))) in
   each restore_meta entries) ;!
  restore_texts data "guard_suspended" AttributeError set_suspended.

(** [_load_state]: whether a state was restored. *)
Definition load_state : AM bool :=
  let! f := read d_read_state in
  match f with
  | Absent => ret false
  | Unreadable | Blank | Prose _ =>
      log (ASystem "state_load_failed") ;! mark_halted "agent state is unreadable" ;! ret false
  | NotUtf8 => throw ValueError
  | Json data => restore data ;! log (ASystem "state_restored") ;! ret true
  end.

(** ** Budget windows *)

(** [dt.isocalendar()]: year and week. *)
Definition iso_week (t : datetime) : Z * Z :=
  let thursday := (dt_date t - dt_weekday t + 3)%Z in
  let year := date_year thursday in
  (year, (thursday - 1 - days_before_year year) / 7 + 1)%Z.

(** [_venue_day]. *)
Definition venue_day (t : datetime) : res Z := let* u := add_hours t (-21) in Ok (dt_date u).

(** [_roll_periods]: each window whose key changed starts again. *)
Definition roll_periods (now_ns : Z) (equity : decimal) : AM unit :=
  let! t := lift (from_timestamp_ns now_ns 0) in
  let! day := lift (venue_day t) in
  let! d := durable id in
  let rolled_day := negb (bool_decide (du_day_key d = Some day)) in
  when rolled_day
    (change (fun d => set_day_profit_locked (fun _ => false) (set_trades_today (fun _ => 0%Z)
       (set_day_start (fun _ => equity) (set_day_key (fun _ => Some day) d))))) ;!
  let week := iso_week t in
  let rolled_week := negb (bool_decide (du_week_key d = Some week)) in
  when rolled_week
    (change (fun d => set_trades_week (fun _ => 0%Z) (set_week_start (fun _ => equity)
       (set_week_key (fun _ => Some week) d)))) ;!
  let month := (dt_year t, date_month (dt_date t)) in
  let rolled_month := negb (bool_decide (du_month_key d = Some month)) in
  when rolled_month
    (change (fun d => set_month_start (fun _ => equity) (set_month_key (fun _ => Some month) d))) ;!
  let rolled_year := negb (bool_decide (du_year_key d = Some (dt_year t))) in
  when rolled_year
    (change (fun d => set_trades_year (fun _ => 0%Z) (set_year_key (fun _ => Some (dt_year t)) d))) ;!
  when (rolled_day || rolled_week || rolled_month || rolled_year) save_state.

(** [while self._equity_marks and self._equity_marks[0][0] < cutoff: popleft()]. *)
Fixpoint expire (cutoff : Z) (ms : list (Z * decimal)) : list (Z * decimal) :=
  match ms with
  | m :: rest => if (m.1 <? cutoff)%Z then expire cutoff rest else ms
  | [] => []
  end.

(** The marks after [_rolling_24h_pnl]: at most one per bucket. *)
Definition next_marks (now_ns : Z) (equity : decimal) (ms : list (Z * decimal)) : list (Z * decimal) :=
  let ms := match last ms with
            | Some m => if (now_ns / EQUITY_MARK_BUCKET_NS =? m.1 / EQUITY_MARK_BUCKET_NS)%Z then ms
                        else lastn EQUITY_MARK_WINDOW (ms ++ [(now_ns, equity)])
            | None => lastn EQUITY_MARK_WINDOW (ms ++ [(now_ns, equity)])
            end in
  expire (now_ns - DAY_NS)%Z ms.

(** [_rolling_24h_pnl]. *)
Definition rolling_24h_pnl (now_ns : Z) (equity : decimal) : AM decimal :=
  change (set_marks (next_marks now_ns equity)) ;!
  let! ms := durable du_marks in
  ret (match ms with m :: _ => equity - m.2 | [] => ZERO end).

(** [_in_session]. *)
Definition in_session (cfg : AgentConfig) (now_ns : Z) : AM bool :=
  let! t := lift (from_timestamp_ns now_ns 0) in
  ret (bool_decide (dt_weekday t ∈ ac_days cfg)
       && existsb (fun w => (w.1 <=? dt_hour t)%Z && (dt_hour t <? w.2)%Z) (ac_windows cfg)).
End Core.
