(* ===== verification/AgentManage.v ===== *)
(** [sentinel/agent/orchestrator.py], third part: the open positions.  The book
    the agent believes in, the metadata it attaches to what the venue reports,
    the excursions, the exits and their confirmation, the profit lock, and the
    protection applied on every cycle.  The flags a rule sets on a position
    object are those it writes in the metadata: the object is rebuilt from the
    venue's answer on the next cycle. *)

From Stdlib Require Import ZArith.
From stdpp Require Import base gmap strings list.
From S2P Require Import Prelude PyDecimal PyFloat PyText Money Types Config Calendar Risk Protect StateExn PyDict.
From S2P Require Import PyJson Venue Oms Portfolio Agent AgentDurable.

Local Open Scope dec_scope.
Local Open Scope py_scope.

(** ** Fields of a position the agent assigns *)

Definition pos_attach (initial_risk : decimal) (strategy : string) (opened_ns : Z) (partial breakeven : bool)
    (p : Position) : Position :=
  mkPosition (pos_instrument p) (pos_side p) (pos_lots p) (pos_entry_price p) opened_ns strategy (pos_stop_loss p)
    (pos_take_profit p) (pos_broker_stop_confirmed p) (pos_client_order_id p) (pos_realised_pnl p)
    (pos_financing_paid p) (pos_commission_paid p) initial_risk (pos_max_favourable p) (pos_max_adverse p)
    partial breakeven.
Definition pos_excursion (best worst : decimal) (p : Position) : Position :=
  mkPosition (pos_instrument p) (pos_side p) (pos_lots p) (pos_entry_price p) (pos_opened_ns p) (pos_strategy p)
    (pos_stop_loss p) (pos_take_profit p) (pos_broker_stop_confirmed p) (pos_client_order_id p)
    (pos_realised_pnl p) (pos_financing_paid p) (pos_commission_paid p) (pos_initial_risk p) best worst
    (pos_partial_taken p) (pos_breakeven_moved p).

(** ** The book the agent believes in *)

(** One entry of [_local_book]: a provisional one, or one that cannot be read,
    is left out. *)
Definition local_position (entry : string * Meta) : option Position :=
  let m := entry.2 in
  if mval_true (meta_get "provisional" MNone m) then None
  else
    match side_of (meta_text "side" m) with
    | Raise _ => None
    | Ok side =>
        match (let* lots := mval_dec (meta_get "lots" (MInt 0) m) in
               let* risk := mval_dec (meta_get "initial_risk" (MInt 0) m) in
               let price key := (let v := meta_get key MNone m in
                                 if mval_true v then (let* d := mval_dec v in Ok (Some d)) else Ok None) in
               let* entry_price := price "entry_price" in
               let* opened := mval_int (meta_or "opened_ns" MNone (MInt 0) m) in
               let* stop := price "stop_loss" in
               Ok (mkPosition entry.1 side lots (default ZERO entry_price) opened (meta_text "strategy" m) stop None
                     false (Some (meta_text "client_order_id" m)) ZERO ZERO ZERO risk ZERO ZERO false false)) with
        | Ok p => Some p
        | Raise _ => None
        end
    end.

(** [_local_book]. *)
Definition local_book (metas : list (string * Meta)) : list Position := omap local_position metas.

(** What the agent reports of a protective action. *)
Record Protection := mkProtection { pr_instrument : string; pr_rule : string; pr_failed : bool }.

Section Manage.
Context {W : Type} `{!Desk W}.
Variable cfg : AgentConfig.
Local Abbreviation AM := (@AgentDurable.AM W).

Definition meta_of (instrument : string) : AM Meta := durable (fun d => default [] (dict_get instrument (du_meta d))).
Definition drop_meta (instrument : string) : AM unit := change (set_meta (dict_del instrument)).
(** [self._position_meta.setdefault(instrument, {})]. *)
Definition touch_meta (instrument : string) : AM unit :=
  change (set_meta (fun ms => match dict_get instrument ms with Some _ => ms | None => dict_set instrument [] ms end)).
(** [meta[key] = v] on the entry of an instrument. *)
Definition write_meta (instrument key : string) (v : mval) : AM unit :=
  change (set_meta (fun ms => dict_set instrument (dict_set key v (default [] (dict_get instrument ms))) ms)).

(** ** Conversions *)

(** [rate and rate > 0]. *)
Definition usable_rate (rate : decimal) : bool := negb (is_zero rate) && (rate >? 0).

Definition add_conversion (out : gmap string decimal) (entry : string * Instrument) : AM (gmap string decimal) :=
  let q := inst_quote entry.2 in
  if bool_decide (q = ac_account_currency cfg) then ret (<[q := ONE]> out)
  else
    let! r := attempt (ask (d_conversion_rate q (ac_account_currency cfg))) in
    ret (match r with Ok rate => if usable_rate rate then <[q := rate]> out else out | Raise _ => out end).

(** [_conversion_map]. *)
Definition conversion_map : AM (gmap string decimal) :=
  let! insts := ask d_instruments in
  fold_m add_conversion ∅ insts.

(** ** Attaching the metadata *)

Definition hydrate_position (pos : Position) : AM Position :=
  let inst := pos_instrument pos in
  let! m := meta_of inst in
  let! m := (if negb (bool_decide (m = [])) && negb (bool_decide (meta_text "side" m = side_text (pos_side pos)))
             then log (AMismatch inst) ;! drop_meta inst ;!
                  halt "the position does not match the one recorded" ;! ret []
             else ret m) in
  if bool_decide (m = []) then ret pos
  else
    let! risk := (if pos_initial_risk pos <=? 0 then lift (mval_dec (meta_get "initial_risk" (MInt 0) m))
                  else ret (pos_initial_risk pos)) in
    let strategy := if bool_decide (pos_strategy pos = "") then meta_text "strategy" m else pos_strategy pos in
    let! opened := (if (pos_opened_ns pos =? 0)%Z then lift (mval_int (meta_or "opened_ns" (MInt 0) (MInt 0) m))
                    else ret (pos_opened_ns pos)) in
    ret (pos_attach risk strategy opened (meta_flag "partial_taken" m) (meta_flag "breakeven_moved" m) pos).

(** The peak excursions of the metadata; a malformed one is ignored. *)
Definition attach_excursion (pos : Position) : AM Position :=
  let! m := meta_of (pos_instrument pos) in
  if bool_decide (m = []) then ret pos
  else match meta_dec "max_favourable" m with
       | Ok best =>
           let pos := pos_excursion best (pos_max_adverse pos) pos in
           match meta_dec "max_adverse" m with
           | Ok worst => ret (pos_excursion best worst pos)
           | Raise (TypeError | ValueError) => ret pos
           | Raise e => throw e
           end
       | Raise (TypeError | ValueError) => ret pos
       | Raise e => throw e
       end.

Definition map_m {A B} (f : A -> AM B) (xs : list A) : AM (list B) :=
  fold_m (fun acc x => let! y := f x in ret (acc ++ [y])) [] xs.

(** [_hydrate]. *)
Definition hydrate (positions : list Position) : AM (list Position) :=
  let! out := map_m hydrate_position positions in
  let live := map pos_instrument positions in
  change (set_meta (List.filter (fun e : string * Meta => bool_decide (e.1 ∈ live)))) ;!
  map_m attach_excursion out.

(** [_track_excursion]: the position, with its best and worst R. *)
Definition track_excursion (pos : Position) (quote : Quote) (inst : Instrument) (conv : decimal) : AM Position :=
  if pos_initial_risk pos <=? 0 then ret pos
  else
    match ddiv (unrealised pos quote inst conv) (pos_initial_risk pos) with
    | Raise _ => ret pos
    | Ok r =>
        touch_meta (pos_instrument pos) ;!
        let! m := meta_of (pos_instrument pos) in
        let! best0 := lift (meta_dec "max_favourable" m) in
        let! worst0 := lift (meta_dec "max_adverse" m) in
        let best := dmax (dmax best0 r) (pos_max_favourable pos) in
        let worst := dmin (dmin worst0 r) (pos_max_adverse pos) in
        when (negb (best =? best0) || negb (worst =? worst0))
          (write_meta (pos_instrument pos) "max_favourable" (MStr (str_of_decimal best)) ;!
           write_meta (pos_instrument pos) "max_adverse" (MStr (str_of_decimal worst))) ;!
        ret (pos_excursion best worst pos)
    end.

(** [_max_hold_sec]. *)
Definition max_hold_sec (pos : Position) : AM Z :=
  if (0 <? rc_max_hold_sec (ac_risk cfg))%Z then ret (rc_max_hold_sec (ac_risk cfg))
  else
    let! m := meta_of (pos_instrument pos) in
    let v := meta_get "max_hold_sec" MNone m in
    if mval_true v then
      match mval_int v with
      | Ok z => ret z
      | Raise (TypeError | ValueError) => ret 0%Z
      | Raise e => throw e
      end
    else ret 0%Z.

(** ** Exits *)

(** [res.state in (FILLED, PARTIAL)]. *)
Definition executed (st : OrderState) : bool := match st with FILLED | PARTIAL => true | _ => false end.

(** [_close]. *)
Definition close (pos : Position) (code : string) : AM bool :=
  let inst := pos_instrument pos in
  let! r := attempt (ask (d_close_position inst None (String.substring 0 32 code))) in
  match r with
  | Raise _ => log (AClose inst false) ;! halt "could not close a position" ;! ret false
  | Ok res =>
      if executed (sr_state res) then
        let! read := attempt (ask v_positions) in
        let! remaining := (match read with
                           | Ok ps => ret (List.filter (fun p => bool_decide (pos_instrument p = inst)) ps)
                           | Raise _ => log (AConnectivity "post_close_read_failed") ;! ret []
                           end) in
        match remaining with
        | _ :: _ => log (AClose inst false) ;! halt "closed only partially" ;! ret false
        | [] => log (AClose inst true) ;! drop_meta inst ;! ret true
        end
      else log (AClose inst false) ;! halt "could not be closed" ;! ret false
  end.

(** ** The profit lock *)

(** The stop that keeps a position's share of the day's gain; [None] when it
    cannot be computed, would widen the stop, or lies beyond the market. *)
Definition lock_candidate (pos : Position) (quote : Quote) (inst : Instrument) (conv per_position : decimal)
    : res (option decimal) :=
  let unreal := unrealised pos quote inst conv in
  let floor_value := unreal - per_position in
  let pip_val := pip_value_quote inst (pos_lots pos) * conv in
  if pip_val <=? 0 then Ok None
  else
    let ref := price_for quote (opposite (pos_side pos)) in
    let* q := ddiv (unreal - floor_value) pip_val in
    let distance := q * inst_pip inst in
    let* candidate := round_price inst (ref - distance * sign (pos_side pos)) in
    if negb (tighter (pos_side pos) (pos_stop_loss pos) candidate) then Ok None
    else if (match pos_side pos with BUY => candidate >=? ref | SELL => candidate <=? ref end) then Ok None
    else Ok (Some candidate).

(** The move of one stop by the lock. *)
Definition lock_stop (pos : Position) (candidate : decimal) : AM (list Protection) :=
  let inst := pos_instrument pos in
  let! r := attempt (let! moved := ask (v_modify_position inst candidate) in
                     if moved : bool then
                       touch_meta inst ;!
                       write_meta inst "stop_loss" (MStr (str_of_decimal candidate)) ;!
                       log (AModify inst false) ;!
                       ret [mkProtection inst "profit_lock" false]
                     else ret []) in
  match r with Ok out => ret out | Raise _ => log (AModify inst true) ;! ret [] end.

Definition lock_position (snap : Snap) (ctx : RiskContext) (insts : list (string * Instrument))
    (per_position : decimal) (out : list Protection) (pos : Position) : AM (list Protection) :=
  match dict_get (pos_instrument pos) insts, dict_get (pos_instrument pos) (sn_quotes snap) with
  | Some inst, Some quote =>
      match conversion ctx (inst_quote inst) with
      | Some conv =>
          if conv <=? 0 then ret out
          else
            let! c := lift (lock_candidate pos quote inst conv per_position) in
            match c with
            | Some candidate => let! more := lock_stop pos candidate in ret (out ++ more)
            | None => ret out
            end
      | None => ret out
      end
  | _, _ => ret out
  end.

(** [_apply_profit_lock]. *)
Definition apply_profit_lock (positions : list Position) (snap : Snap) (ctx : RiskContext) : AM (list Protection) :=
  let risk := ac_risk cfg in
  if rc_daily_profit_lock_pct risk <=? 0 then ret []
  else
    let! pct := lift (day_pnl_pct ctx) in
    let! locked := durable du_day_profit_locked in
    if (pct <? rc_daily_profit_lock_pct risk) && negb locked then ret []
    else
      when (negb locked) (assign set_day_profit_locked true ;! save_state ;! log AProfitLock) ;!
      let open_positions := List.filter (fun p => pos_lots p >? 0) positions in
      match open_positions with
      | [] => ret []
      | _ =>
          let keep_total := ctx_day_pnl ctx * rc_profit_lock_keep_fraction risk in
          let give_back := ctx_day_pnl ctx - keep_total in
          let! per_position := lift (ddiv give_back (dec_of_Z (Z.of_nat (length open_positions)))) in
          let! insts := ask d_instruments in
          let! out := fold_m (lock_position snap ctx insts per_position) [] open_positions in
          when (match out with [] => false | _ => true end) save_state ;!
          ret out
      end.

(** ** Managing *)

(** [_cost_model]; the constructor's failure gives none. *)
Definition cost_model_of (instrument : string) (snap : Snap) : AM (option CostModel) :=
  let! insts := ask d_instruments in
  ret (match dict_get instrument insts, dict_get instrument (sn_quotes snap) with
       | Some inst, Some quote =>
           match spread_pips quote inst with
           | Ok spread => Some (mkCostModel spread (ac_commission cfg) 0 0 4.0 (ac_slippage cfg))
           | Raise _ => None
           end
       | _, _ => None
       end).

(** The ATR of the frame the position's strategy runs on. *)
Definition atr_of (pos : Position) (snap : Snap) : AM (option decimal) :=
  let inst := pos_instrument pos in
  let own := match List.find (fun a => bool_decide (al_name a = pos_strategy pos)) (ac_strategies cfg) with
             | Some a => if bool_decide (al_timeframe a = "") then None
                         else dict_get inst (frames_for (al_timeframe a) snap)
             | None => None
             end in
  match (match own with Some f => Some f | None => dict_get inst (sn_frames snap) end) with
  | Some f =>
      if (20 <? fr_len f)%Z then
        let! x := ask (d_atr f) in
        match x with Some x => let! d := lift (dec_float x) in ret (Some d) | None => ret None end
      else ret None
  | None => ret None
  end.

Definition protection_of (i : ProtectInstruction) (failed : bool) : Protection :=
  mkProtection (pi_instrument i) (pi_rule i) failed.

(** The body of the [try] for one instruction. *)
Definition apply_instruction (pos : Position) (act : ProtectInstruction) : AM (list Protection) :=
  let inst := pos_instrument pos in
  touch_meta inst ;!
  match pi_action act with
  | MOVE_STOP =>
      match pi_new_stop act with
      | Some stop =>
          let! moved := ask (v_modify_position inst stop) in
          if moved : bool then
            when (bool_decide (pi_rule act = "breakeven")) (write_meta inst "breakeven_moved" (MBool true)) ;!
            write_meta inst "stop_loss" (MStr (str_of_decimal stop)) ;!
            save_state ;!
            log (AModify inst false) ;!
            ret [protection_of act false]
          else log (AModify inst true) ;! ret []
      | None => ret []
      end
  | PARTIAL_CLOSE =>
      match pi_close_lots act with
      | Some lots =>
          if is_zero lots then ret []
          else
            let! res := ask (d_close_position inst (Some lots) "partial_take") in
            if executed (sr_state res) then
              write_meta inst "partial_taken" (MBool true) ;!
              let remaining := pos_lots pos - lots in
              when ((remaining >? 0) && (pos_initial_risk pos >? 0))
                (let! risk := lift (ddiv (pos_initial_risk pos * remaining) (pos_lots pos)) in
                 write_meta inst "initial_risk" (MStr (str_of_decimal risk))) ;!
              save_state ;!
              log (APartial inst false) ;!
              ret [protection_of act false]
            else log (APartial inst true) ;! ret []
      | None => ret []
      end
  | CLOSE =>
      let! closed := close pos (if bool_decide (pi_rule act = "") then "protect_close" else pi_rule act) in
      ret (if closed : bool then [protection_of act false] else [])
  end.

Definition run_instruction (pos : Position) (out : list Protection) (act : ProtectInstruction)
    : AM (list Protection) :=
  let! r := attempt (apply_instruction pos act) in
  match r with
  | Ok more => ret (out ++ more)
  | Raise _ => log (AModify (pos_instrument pos) true) ;! ret out
  end.

(** The two exits that read only the clock: what they report when one applies. *)
Definition timed_exit (pos : Position) (ctx : RiskContext) : AM (option (list Protection)) :=
  let! wf := (if rc_weekend_flat (ac_risk cfg)
              then lift (weekend_flat pos (ctx_now_ns ctx) (Some (rc_friday_close_utc_hour (ac_risk cfg))) 16)
              else ret None) in
  match wf with
  | Some act => let! closed := close pos "weekend_flat" in ret (Some [protection_of act (negb closed)])
  | None =>
      let! limit := max_hold_sec pos in
      match (if (0 <? limit)%Z then time_stop pos (ctx_now_ns ctx) limit else None) with
      | Some act => let! closed := close pos "time_stop" in ret (Some [protection_of act (negb closed)])
      | None => ret None
      end
  end.

(** The rules denominated in R. *)
Definition protect_position (snap : Snap) (ctx : RiskContext) (pos : Position) (quote : Quote) (inst : Instrument)
    : AM (list Protection) :=
  match conversion ctx (inst_quote inst) with
  | Some conv =>
      if conv <=? 0 then log (AStale (pos_instrument pos)) ;! ret [mkProtection (pos_instrument pos) "suspended" false]
      else
        let! pos := track_excursion pos quote inst conv in
        let! atr := atr_of pos snap in
        let! cm := cost_model_of (pos_instrument pos) snap in
        let! acts := lift (evaluate_protection pos quote inst (ac_risk cfg) atr conv cm) in
        fold_m (run_instruction pos) [] acts
  | None => log (AStale (pos_instrument pos)) ;! ret [mkProtection (pos_instrument pos) "suspended" false]
  end.

Definition manage_position (snap : Snap) (ctx : RiskContext) (insts : list (string * Instrument))
    (out : list Protection) (pos : Position) : AM (list Protection) :=
  match dict_get (pos_instrument pos) (sn_quotes snap), dict_get (pos_instrument pos) insts with
  | Some quote, Some inst =>
      let! exit := timed_exit pos ctx in
      match exit with
      | Some more => ret (out ++ more)
      | None => let! more := protect_position snap ctx pos quote inst in ret (out ++ more)
      end
  | _, _ => ret out
  end.

(** [_manage_positions]. *)
Definition manage_positions (positions : list Position) (snap : Snap) (ctx : RiskContext) : AM (list Protection) :=
  let! insts := ask d_instruments in
  let! locked := apply_profit_lock positions snap ctx in
  let! out := fold_m (manage_position snap ctx insts) [] positions in
  ret (locked ++ out).
End Manage.
