(* ===== verification/AgentEntry.v ===== *)
(** [sentinel/agent/orchestrator.py], fourth part: from signals to orders.  The
    context of the risk engine is built from the venue's answers; the caution of
    lessons, news, reference and brain shrinks a size; [act_on_signal],
    [accept_advice] and [manual_order] are the three paths that can reach
    [execute], the only caller of [Oms.submit].  The horizon a strategy declared
    travels beside the intent, whose record has no free metadata. *)

From Stdlib Require Import ZArith SpecFloat Ascii String.
From stdpp Require Import base gmap strings list.
From S2P Require Import Prelude PyDecimal PyFloat PyText Money Types Config Calendar Risk StateExn PyDict PyJson.
From S2P Require Import Venue Deadman Oms Portfolio Ids Agent AgentDurable AgentManage.

Local Open Scope dec_scope.
Local Open Scope py_scope.

Definition SPREAD_WINDOW : nat := 500.
Definition SPREAD_MIN_SAMPLES : nat := 30.

(** [_TIMEFRAME_SECONDS], also the feed's. *)
Definition timeframe_seconds (timeframe : string) : option Z :=
  dict_get timeframe [("M1", 60%Z); ("M5", 300%Z); ("M15", 900%Z); ("M30", 1800%Z); ("H1", 3600%Z);
                      ("H4", 14400%Z); ("D1", 86400%Z); ("W1", 604800%Z)].

(** [can_trade] of strategy/registry.py. *)
Definition can_trade (lifecycle : string) (live_money : bool) : bool :=
  bool_decide (lifecycle ∈ (if live_money then ["accepted"] else ["hypothesis"; "experimental"; "accepted"])).

(** [sorted(window)] of floats. *)
Fixpoint insert_float (x : spec_float) (xs : list spec_float) : list spec_float :=
  match xs with
  | [] => [x]
  | y :: rest => if fltb y x then y :: insert_float x rest else x :: xs
  end.
Definition sorted_floats (xs : list spec_float) : list spec_float := foldr insert_float [] xs.

(** The median, as [_normal_spread] computes it. *)
Definition median (window : list spec_float) : spec_float :=
  let ordered := sorted_floats window in
  let n := length ordered in
  let mid := Nat.div n 2 in
  let at_ i := nth i ordered (float_of_Z 0) in
  if Nat.odd n then at_ mid else fdiv (fadd (at_ (mid - 1)%nat) (at_ mid)) (float_of_Z 2).

(** [str.upper] on ASCII letters. *)
Definition upper (s : string) : string :=
  string_of_list_ascii (map (fun c => let n := nat_of_ascii c in
                                      if (Nat.leb 97 n && Nat.leb n 122) then ascii_of_nat (n - 32) else c)
                          (list_ascii_of_string s)).

Definition opt_text (d : option decimal) : string :=
  match d with Some d => str_of_decimal d | None => "None" end.

(** [str(x) if x else None]. *)
Definition truthy_text (d : option decimal) : option string :=
  match d with Some d => if is_zero d then None else Some (str_of_decimal d) | None => None end.

(** An intent with the size the engine approved. *)
Definition sized_intent (i : OrderIntent) (lots risk_amount risk_pct cost_pips : decimal) : OrderIntent :=
  mkOrderIntent (oi_client_order_id i) (oi_strategy i) (oi_instrument i) (oi_side i) lots (oi_order_type i)
    (oi_limit_price i) (oi_stop_loss i) (oi_take_profit i) (oi_decision_ns i) risk_amount risk_pct cost_pips.

Section Entry.
Context {W : Type} `{!Desk W}.
Variable cfg : AgentConfig.
Local Abbreviation AM := (@AgentDurable.AM W).

(** ** The kill switch *)

(** [KillSwitch.poll], on the file as it is now. *)
Definition kill_poll : AM KillState :=
  let! f := read d_kill_file in
  fun s => match (write_file f ;! poll) (ag_kill s) with (k, r) => (with_kill (fun _ => k) s, r) end.

(** [self.kill.read().engaged]. *)
Definition kill_engaged_now : AM bool :=
  let! f := read d_kill_file in
  let! st := lift (Deadman.read f) in
  ret (ks_engaged st).

(** ** Spreads *)

(** [_session_bucket]. *)
Definition session_bucket (now_ns : Z) : res string :=
  let* t := from_timestamp_ns now_ns 0 in
  let h := dt_hour t in
  Ok (if (20 <=? h)%Z && (h <? 22)%Z then "rollover"
      else if (7 <=? h)%Z && (h <? 17)%Z then "london" else "asia").

Definition spread_window (key : string * string) : AM (list spec_float) :=
  gets (fun s => match List.find (fun e => bool_decide (e.1 = key)) (ag_spreads s) with
                 | Some e => e.2 | None => [] end).

(** [_observe_spread]. *)
Definition observe_spread (instrument : string) (spread : decimal) : AM unit :=
  if spread <=? 0 then ret tt
  else
    let! t := now in
    let! bucket := lift (session_bucket t) in
    let key := (instrument, bucket) in
    let! window := spread_window key in
    modify (with_spreads (fun m => (key, lastn SPREAD_WINDOW (window ++ [float_of_dec spread]))
                                   :: List.filter (fun e => negb (bool_decide (e.1 = key))) m)).

(** [_normal_spread]. *)
Definition normal_spread (instrument : string) (live : decimal) : AM decimal :=
  let! t := now in
  let! bucket := lift (session_bucket t) in
  let! window := spread_window (instrument, bucket) in
  if Nat.ltb (length window) SPREAD_MIN_SAMPLES then ret live
  else if fltb (float_of_Z 0) (median window) then lift (dec_float (median window)) else ret live.

(** ** The context of the risk engine *)

(** The conversions of the quoted instruments, and those that are missing. *)
Definition context_conversion (insts : list (string * Instrument)) (acc : gmap string decimal * list string)
    (q : string * Quote) : AM (gmap string decimal * list string) :=
  match dict_get q.1 insts with
  | None => ret acc
  | Some inst =>
      let ccy := inst_quote inst in
      if bool_decide (ccy = ac_account_currency cfg) then ret (<[ccy := ONE]> acc.1, acc.2)
      else
        let! r := attempt (ask (d_conversion_rate ccy (ac_account_currency cfg))) in
        ret (match r with
             | Ok rate => if usable_rate rate then (<[ccy := rate]> acc.1, acc.2)
                          else (delete ccy acc.1, acc.2 ++ [ccy])
             | Raise _ => (delete ccy acc.1, acc.2 ++ [ccy])
             end)
  end.

(** The independent price check: fresh answers replace the old ones. *)
Definition check_reference (now_ns : Z) (quotes : list (string * Quote)) (insts : list (string * Instrument))
    : AM unit :=
  match d_reference, quotes with
  | Some assess, _ :: _ =>
      let! r := attempt (ask (assess now_ns quotes insts)) in
      match r with
      | Ok fresh =>
          modify (with_reference (fun checks =>
            fold_left (fun checks q => match dict_get q.1 fresh with
                                       | Some c => dict_set q.1 c checks
                                       | None => dict_del q.1 checks
                                       end) quotes checks))
      | Raise _ => modify (with_reference (fun _ => [])) ;! log (AConnectivity "reference_check_failed")
      end
  | _, _ => ret tt
  end.

(** Cooldowns, stress scenarios and stress limit, as far as the brain answers. *)
Definition brain_context (now_ns : Z) : AM (list (string * string) * list (string * decimal) * decimal) :=
  match d_brain with
  | None => ret ([], [], ZERO)
  | Some b =>
      let! r := attempt (ask (br_observe_context b) ;! ask (br_cooldowns b now_ns)) in
      match r with
      | Raise _ => log (AConnectivity "brain_context_failed") ;! ret ([], [], ZERO)
      | Ok cooldowns =>
          let! r := attempt (ask (br_stress_settings b)) in
          match r with
          | Raise _ => log (AConnectivity "brain_context_failed") ;! ret (cooldowns, [], ZERO)
          | Ok (scenarios, limit) => ret (cooldowns, scenarios, limit)
          end
      end
  end.

Definition context_spread (insts : list (string * Instrument))
    (acc : gmap string decimal * gmap string CostModel) (q : string * Quote)
    : AM (gmap string decimal * gmap string CostModel) :=
  match dict_get q.1 insts with
  | None => ret acc
  | Some inst =>
      let! spread := lift (spread_pips q.2 inst) in
      observe_spread q.1 spread ;!
      let! normal := normal_spread q.1 spread in
      ret (<[q.1 := normal]> acc.1, <[q.1 := mkCostModel spread (ac_commission cfg) 0 0 4.0 (ac_slippage cfg)]> acc.2)
  end.

(** [_venue_stop_floors]. *)
Definition venue_stop_floors (insts : list (string * Instrument)) : AM (gmap string decimal) :=
  match d_min_stop_distance with
  | None => ret ∅
  | Some getter =>
      fold_m (fun out entry =>
                let! r := attempt (ask (getter entry.1)) in
                match r with
                | Ok (Some distance) =>
                    if negb (is_zero distance) && (inst_pip entry.2 >? 0)
                    then let! f := lift (ddiv distance (inst_pip entry.2)) in ret (<[entry.1 := f]> out)
                    else ret out
                | Ok None | Raise _ => ret out
                end) ∅ insts
  end.

Definition blocked_news (news : list (string * NewsAssessment)) : gmap string string :=
  list_to_map (omap (fun e => if na_blocked e.2
                              then Some (e.1, String.substring 0 180 (String.concat "; " (na_reasons e.2)))
                              else None) news).
Definition blocked_reference (checks : list (string * ReferenceCheck)) : gmap string string :=
  list_to_map (omap (fun e => if rf_blocked e.2 then Some (e.1, String.substring 0 240 (rf_reason e.2)) else None)
                 checks).

(** [_build_context]. *)
Definition build_context (now_ns : Z) (account : AccountState) (positions : list Position) (snap : Snap)
    (connected : bool) (health : Health) (correlations : list ((string * string) * decimal))
    (blocking : list string) : AM RiskContext :=
  let! insts := ask d_instruments in
  let! (conversions, missing) := fold_m (context_conversion insts) (∅, []) (sn_quotes snap) in
  check_reference now_ns (sn_quotes snap) insts ;!
  let! (cooldowns, scenarios, stress_limit) := brain_context now_ns in
  let! (normal, costs) := fold_m (context_spread insts) (∅, ∅) (sn_quotes snap) in
  let equity := acc_equity account in
  let base v := (if v >? 0 then v else equity) in
  let! d := durable id in
  let day := base (du_day_start d) in
  let week := base (du_week_start d) in
  let month := base (du_month_start d) in
  let! rolling := rolling_24h_pnl now_ns equity in
  let! floors := venue_stop_floors insts in
  let! s := gets id in
  let! kill := kill_engaged_now in
  ret (mkRiskContext now_ns account positions (list_to_map insts) (list_to_map (sn_quotes snap)) conversions
         (du_equity_peak d) (equity - day) (equity - week) (equity - month) week month rolling
         (du_day_profit_locked d) (du_ladder_rung d) floors day (du_trades_today d) (du_trades_week d)
         (du_trades_year d) (du_last_entry_ns d) (pending_risk (ag_oms s))
         (Z.of_nat (length (unresolved (ag_oms s)))) (sorted_set missing) blocking
         (match ag_regime s with Some r => r.2 | None => ONE end) (he_clock_skew_ms health) connected
         (he_offline_seconds health) (list_to_map (sn_ages snap)) (list_to_map (sn_quality snap)) normal
         (blocked_news (ag_news s)) (blocked_reference (ag_reference s)) (list_to_map cooldowns)
         (list_to_map scenarios) stress_limit (list_to_map correlations) costs (du_halted d) (du_halt_reason d) kill
         (fold_left (fun m a => <[al_name a := al_lifecycle a]> m) (ac_strategies cfg) ∅) (ac_live cfg) None
         (gv_others_open_risk <$> ag_group_view s)
         (match ag_group_view s with Some v => gv_others_equity v | None => ZERO end)
         (match ag_group_view s with Some v => list_to_map (gv_others_currency_risk v) | None => ∅ end)
         (match ag_group_view s with Some v => sorted_set (gv_stale v ++ gv_unreadable v) | None => [] end)).

(** ** Permission and caution *)

(** [entry_permission]: whether new risk may be opened. *)
Definition entry_permission : AM bool :=
  if negb (ac_live cfg) then ret true
  else match d_entry_gate with
       | None => ret true
       | Some gate =>
           let! r := attempt (ask gate) in
           ret (match r with Ok (allowed, _) => allowed | Raise _ => false end)
       end.

(** [float(min(dec(caution), m))]. *)
Definition shrink_to (caution : spec_float) (m : decimal) : res spec_float :=
  let* c := dec_float caution in Ok (float_of_dec (dmin c m)).

(** [_caution_for]: the multiplier of lessons, news, reference and brain. *)
Definition caution_for (strategy instrument regime : string) : AM spec_float :=
  let! c := ask (d_memory_caution strategy instrument regime) in
  let! s := gets id in
  let! c := (match dict_get instrument (ag_news s) with
             | Some a => if na_multiplier a <? 1 then lift (shrink_to c (na_multiplier a)) else ret c
             | None => ret c
             end) in
  let! c := (match dict_get instrument (ag_reference s) with
             | Some r => if rf_shrink r
                         then lift (let* m := dec_float (rf_multiplier r) in shrink_to c m) else ret c
             | None => ret c
             end) in
  let! c := (match d_brain with
             | None => ret c
             | Some b =>
                 let! r := attempt (let! m := ask (br_strategy_layers b strategy regime) in
                                    if fltb m (float_of_Z 1)
                                    then lift (let* d := dec_float m in shrink_to c d) else ret c) in
                 match r with Ok c => ret c | Raise _ => log (ALesson "brain_layers_failed") ;! ret c end
             end) in
  ret (fmax (float_of_Z 0) (fmin (float_of_Z 1) c)).

(** [_within_envelope]. *)
Definition within_envelope (intent : OrderIntent) : bool :=
  let env := ac_envelope cfg in
  bool_decide (oi_instrument intent ∈ env_instruments env)
  && negb (fltb (env_max_lots env) (float_of_dec (oi_lots intent)))
  && negb (fltb (env_max_risk_pct env) (float_of_dec (oi_risk_pct intent))).

(** ** Execution *)

(** [order.filled_lots or intent.lots]. *)
Definition lots_of (intent : OrderIntent) (o : Order) : decimal := or_else (filled_lots o) (oi_lots intent).

(** [_realised_risk]. *)
Definition realised_risk (intent : OrderIntent) (o : Order) : AM decimal :=
  let! fill_px := lift (avg_fill_price o) in
  let lots := lots_of intent o in
  match fill_px, oi_stop_loss intent with
  | Some px, Some sl =>
      if lots <=? 0 then ret (oi_risk_amount intent)
      else
        let! insts := ask d_instruments in
        match dict_get (oi_instrument intent) insts with
        | None => ret (oi_risk_amount intent)
        | Some inst =>
            let! r := attempt (
              let! m := conversion_map cfg in
              match m !! inst_quote inst with
              | None => ret (oi_risk_amount intent)
              | Some conv =>
                  if conv <=? 0 then ret (oi_risk_amount intent)
                  else let! pips := lift (ddiv (dabs (px - sl)) (inst_pip inst)) in
                       ret (pips * (pip_value_quote inst lots * conv))
              end) in
            ret (match r with Ok v => v | Raise _ => oi_risk_amount intent end)
        end
  | _, _ => ret (oi_risk_amount intent)
  end.

(** [_horizon_sec]; [horizon] is the intent's metadata: bars and timeframe. *)
Definition horizon_sec (horizon : option (Z * string)) : Z :=
  match horizon with
  | Some (bars, tf) =>
      if (bars <=? 0)%Z then 0%Z
      else (bars * default 0%Z (timeframe_seconds (if bool_decide (tf = "") then ac_feed_timeframe cfg else tf)))%Z
  | None => 0%Z
  end.

Definition regime_name : AM string := gets (fun s => match ag_regime s with Some r => r.1 | None => "" end).

(** The counters of one entry. *)
Definition count_entry : AM unit :=
  change (fun d => set_trades_year (fun n => n + 1)%Z (set_trades_week (fun n => n + 1)%Z
                     (set_trades_today (fun n => n + 1)%Z d))) ;!
  let! t := now in
  assign set_last_entry_ns (Some t).

Definition set_position_meta (instrument : string) (m : Meta) : AM unit := change (set_meta (dict_set instrument m)).

(** An order that may have filled is recorded as provisional, and counted. *)
Definition record_unknown (intent : OrderIntent) : AM unit :=
  let! t := now in
  let! regime := regime_name in
  set_position_meta (oi_instrument intent)
    [("initial_risk", MDec (oi_risk_amount intent)); ("strategy", MStr (oi_strategy intent));
     ("side", MStr (side_text (oi_side intent))); ("client_order_id", MStr (oi_client_order_id intent));
     ("opened_ns", MInt t); ("regime", MStr regime); ("provisional", MBool true);
     ("partial_taken", MBool false); ("breakeven_moved", MBool false)] ;!
  count_entry ;!
  save_state.

(** The metadata of an order that is live at the venue. *)
Definition record_entry (intent : OrderIntent) (horizon : option (Z * string)) (o : Order) : AM unit :=
  let! risk := realised_risk intent o in
  let! px := lift (avg_fill_price o) in
  let! t := now in
  let! regime := regime_name in
  let entry := match px with
               | Some p => if is_zero p then match oi_limit_price intent with Some l => l | None => ZERO end else p
               | None => match oi_limit_price intent with Some l => l | None => ZERO end
               end in
  set_position_meta (oi_instrument intent)
    [("initial_risk", MDec risk); ("intended_risk", MDec (oi_risk_amount intent));
     ("strategy", MStr (oi_strategy intent)); ("side", MStr (side_text (oi_side intent)));
     ("lots", MDec (lots_of intent o)); ("entry_price", MDec entry);
     ("stop_loss", match oi_stop_loss intent with Some sl => MDec sl | None => MNone end);
     ("client_order_id", MStr (oi_client_order_id intent)); ("opened_ns", MInt t); ("regime", MStr regime);
     ("max_hold_sec", MInt (horizon_sec horizon)); ("partial_taken", MBool false);
     ("breakeven_moved", MBool false)] ;!
  change (set_entry_regime (dict_set (oi_instrument intent) regime)) ;!
  log (AOpen (oi_client_order_id intent)).

Definition is_acked (st : OrderState) : bool := match st with ACKED => true | _ => false end.

(** What [_execute] does with the order the manager returns. *)
Definition record_order (intent : OrderIntent) (horizon : option (Z * string)) (o : Order) (decision : Decision)
    : AM Decision :=
  let st := o_state o in
  let decision := de_set_order_state st decision in
  when (bool_decide (st = UNKNOWN)) (record_unknown intent) ;!
  if executed st || is_acked st then
    let decision := de_set_action (if is_acked st then "queued" else "executed") decision in
    count_entry ;!
    when ((filled_lots o >? 0) || is_acked st) (record_entry intent horizon o) ;!
    save_state ;!
    ret decision
  else if bool_decide (st = REJECTED) then ret (de_add_veto "broker_reject" (de_set_action "vetoed" decision))
  else ret (de_set_action "queued" decision).

(** [self.oms.submit]. *)
Definition oms_submit (intent : OrderIntent) (decision_price : decimal) : AM (option Order) :=
  on_oms (submit (retry_budget supports_client_order_id (ac_max_retries cfg)) (ac_max_slippage cfg) None intent
            (Some decision_price)).

(** [_execute]; the manager always returns the order it was given. *)
Definition execute (intent : OrderIntent) (horizon : option (Z * string)) (decision : Decision) (quote : Quote)
    : AM Decision :=
  let! r := attempt (oms_submit intent (price_for quote (oi_side intent))) in
  match r with
  | Raise UnknownOutcomeError => ret (de_add_veto "quarantine" (de_set_action "vetoed" decision))
  | Raise e => throw e
  | Ok None => ret decision
  | Ok (Some o) => record_order intent horizon o decision
  end.

(** ** Signals *)

(** The shrink-only layers that look at the signal itself. *)
Definition layered_caution (signal : Signal) (side : Side) (caution : spec_float) : AM spec_float :=
  let! features := attempt (ask (d_features signal)) in
  let has_features := match features with Ok b => b | Raise _ => false end in
  let! caution := (match d_brain with
                   | Some b =>
                       if has_features then
                         let! r := attempt (ask (br_similarity b signal)) in
                         match r with
                         | Ok m => ret (if fltb m (float_of_Z 1) then fmin caution m else caution)
                         | Raise _ => log (ALesson "brain_similarity_failed") ;! ret caution
                         end
                       else ret caution
                   | None => ret caution
                   end) in
  match d_macro with
  | Some m =>
      let as_of := (sg_decision_ns signal
                    + default 3600 (timeframe_seconds (sg_timeframe signal)) * 1000000000)%Z in
      let! r := attempt (ask (mc_layers m (sg_instrument signal) side as_of)) in
      match r with
      | Ok x => ret (if fltb x (float_of_Z 1) then fmin caution x else caution)
      | Raise _ => log (ALesson "macro_layers_failed") ;! ret caution
      end
  | None => ret caution
  end.

(** The meta-label filter: [None] when it skips the signal. *)
Definition gated_caution (signal : Signal) (caution : spec_float) : AM (option spec_float) :=
  let! gate := (match d_meta_gate, d_brain with
                | Some g, _ => ret (Some g)
                | None, Some b => let! r := attempt (ask (br_meta_gate b)) in
                                  ret (match r with Ok g => g | Raise _ => None end)
                | None, None => ret None
                end) in
  match gate with
  | None => ret (Some caution)
  | Some g =>
      let! r := attempt (ask (g signal)) in
      match r with
      | Ok (false, _) => log (ASignal "meta_label") ;! ret None
      | Ok (true, scale) =>
          ret (Some (if fltb scale (float_of_Z 1) then fmin caution (fmax (float_of_Z 0) scale) else caution))
      | Raise _ => log (ASignal "meta_gate_error") ;! ret (Some caution)
      end
  end.

(** The intent of a signal, or of a ticket: minimum size until the engine has
    sized it. *)
Definition draft_intent (coid strategy instrument : string) (side : Side) (inst : Instrument) (stop : decimal)
    (target : option decimal) (decision_ns : Z) : res OrderIntent :=
  let* sl := round_price inst stop in
  let* tp := match target with
             | Some t => if is_zero t then Ok None else (let* p := round_price inst t in Ok (Some p))
             | None => Ok None
             end in
  let intent := mkOrderIntent coid strategy instrument side (inst_min_lot inst) MARKET None (Some sl) tp decision_ns
                  ZERO ZERO ZERO in
  let* _ := OrderIntent_post_init intent in Ok intent.

Definition scale_intent (intent : OrderIntent) (lots : decimal) (v : RiskDecision) (c : decimal) : OrderIntent :=
  sized_intent intent lots (rd_risk_amount v * c) (rd_risk_pct v * c) (rd_expected_cost_pips v).

Definition de_sized (intent : OrderIntent) (d : Decision) : Decision :=
  de_set_size (str_of_decimal (oi_lots intent)) (str_of_decimal (oi_risk_amount intent))
    (str_of_decimal (oi_risk_pct intent)) d.

(** One proposal per intent, and a bounded queue. *)
Definition enqueue (d : Decision) : AM unit :=
  modify (with_queue (fun q => lastn 500 (List.filter (fun x => negb (bool_decide (de_client_order_id x
                                                                                  = de_client_order_id d))) q ++ [d]))).

(** What the mode lets the agent do with an approved, sized intent. *)
Definition dispatch (intent : OrderIntent) (horizon : option (Z * string)) (decision : Decision) (quote : Quote)
    : AM Decision :=
  let! mode := gets ag_mode in
  match mode with
  | OBSERVE => log (ASignal "proposed") ;! ret (de_set_action "proposed" decision)
  | _ =>
      if bool_decide (mode = ADVISORY) || (bool_decide (mode = SEMI_AUTO) && negb (within_envelope intent)) then
        let decision := de_set_action "queued" decision in
        enqueue decision ;!
        log (AProposal (oi_client_order_id intent)) ;!
        ret decision
      else execute intent horizon decision quote
  end.

(** The verdict of the engine on a signal's intent, and what follows from it. *)
Definition judge_signal (ctx : RiskContext) (inst : Instrument) (quote : Quote) (intent : OrderIntent)
    (horizon : option (Z * string)) (caution : spec_float) (decision : Decision) : AM Decision :=
  let! verdict := lift (evaluate_entry (ac_risk cfg) intent ctx) in
  let decision := de_set_vetoes (map v_rule (rd_vetoes verdict)) decision in
  let decision := de_set_caution (fround_to caution 4) decision in
  let decision := match horizon with Some (bars, tf) => de_set_horizon bars tf decision | None => decision end in
  let decision := de_set_levels (opt_text (oi_stop_loss intent)) (truthy_text (oi_take_profit intent)) decision in
  when (halting verdict) (halt "risk engine halt") ;!
  if negb (rd_approved verdict) then
    log (AVeto (oi_client_order_id intent)) ;! ret (de_set_action "vetoed" decision)
  else
    let! c := lift (dec_float caution) in
    let! lots := lift (round_lots_down inst (rd_approved_lots verdict * c)) in
    if lots <? inst_min_lot inst then ret (de_add_veto "caution_multiplier" (de_set_action "skipped" decision))
    else
      let intent := scale_intent intent lots verdict c in
      dispatch intent horizon (de_sized intent decision) quote.

(** [_act_on_signal], for a signal with a side and a stop. *)
Definition act_on_signal (signal : Signal) (side : Side) (stop : decimal) (ctx : RiskContext) : AM Decision :=
  let decision := new_decision (sg_decision_ns signal) (sg_strategy signal) (sg_instrument signal) "skipped"
                    (Some (side_text side)) in
  match ctx_instruments ctx !! sg_instrument signal, ctx_quotes ctx !! sg_instrument signal with
  | Some inst, Some quote =>
      let! regime := regime_name in
      let! caution := caution_for (sg_strategy signal) (sg_instrument signal) regime in
      let! caution := layered_caution signal side caution in
      let! gated := gated_caution signal caution in
      match gated with
      | None => ret (de_set_vetoes ["meta_label"] decision)
      | Some caution =>
          let! coid := lift (client_order_id d_digest (sg_strategy signal) (sg_instrument signal) (side_text side)
                               (sg_decision_ns signal) (acc_account_id (ctx_account ctx))) in
          let decision := de_set_id coid decision in
          match draft_intent coid (sg_strategy signal) (sg_instrument signal) side inst stop (sg_target_price signal)
                  (sg_decision_ns signal) with
          | Raise ValueError => ret (de_set_vetoes ["malformed_intent"] decision)
          | Raise e => throw e
          | Ok intent =>
              let horizon := if (sg_horizon_bars signal =? 0)%Z then None
                             else Some (sg_horizon_bars signal, sg_timeframe signal) in
              judge_signal ctx inst quote intent horizon caution decision
          end
      end
  | _, _ => ret (de_set_vetoes ["no_market"] decision)
  end.

(** ** The entries of a cycle *)

(** The context after something reached the venue. *)
Definition refresh (snap : Snap) (connected : bool) (health : Health)
    (correlations : list ((string * string) * decimal)) (blocking : list string) : AM RiskContext :=
  let! account := ask v_account in
  let! ps := ask v_positions in
  let! ps := hydrate ps in
  let! t := now in
  build_context t account ps snap connected health correlations blocking.

(** [venue_order_state in ("filled", "partial", "acked", "unknown")]. *)
Definition reached_venue (d : Decision) : bool :=
  match de_order_state d with Some (FILLED | PARTIAL | ACKED | UNKNOWN) => true | _ => false end.

Section Cycle.
Variables (now_ns : Z) (snap : Snap) (connected : bool) (health : Health).
Variable correlations : list ((string * string) * decimal).
Variable blocking : list string.

(** One instrument of one allocation. *)
Definition consider_instrument (strategy : string) (frames : list (string * Frame))
    (acc : list Decision * RiskContext) (sym : string) : AM (list Decision * RiskContext) :=
  match dict_get sym frames with
  | None => ret acc
  | Some frame =>
      if (fr_len frame <=? d_warmup strategy)%Z then ret acc
      else
        let! r := attempt (ask (d_generate strategy frames sym (fr_len frame - 1)%Z)) in
        match r with
        | Raise _ => log (ASignal "generate_error") ;! ret acc
        | Ok None => ret acc
        | Ok (Some signal) =>
            match sg_side signal, sg_stop_price signal with
            | Some side, Some stop =>
                let signal := match fr_last_ns frame with
                              | Some ns => with_decision_ns ns signal | None => signal end in
                let! decision := act_on_signal signal side stop acc.2 in
                match d_brain with Some b => ask (br_record b signal decision) | None => ret tt end ;!
                if reached_venue decision then
                  let! ctx := refresh snap connected health correlations blocking in
                  ret (acc.1 ++ [decision], ctx)
                else ret (acc.1 ++ [decision], acc.2)
            | _, _ => ret acc
            end
        end
  end.

Definition skipped (a : Allocation) : Decision := new_decision now_ns (al_name a) "*" "skipped" None.

(** One allocation. *)
Definition consider_allocation (frames : list (string * Frame)) (acc : list Decision * RiskContext) (a : Allocation)
    : AM (list Decision * RiskContext) :=
  if negb (al_enabled a) || negb (bool_decide (al_name a ∈ ac_loaded cfg)) then ret acc
  else
    let! suspended := durable du_suspended in
    match dict_get (al_name a) suspended with
    | Some _ => ret (acc.1 ++ [skipped a], acc.2)
    | None =>
        if negb (can_trade (al_lifecycle a) (ac_live cfg)) then ret (acc.1 ++ [skipped a], acc.2)
        else
          let tf_frames := if bool_decide (al_timeframe a = "") then frames else frames_for (al_timeframe a) snap in
          if negb (bool_decide (al_timeframe a = "")) && (match tf_frames with [] => true | _ => false end)
          then ret (acc.1 ++ [skipped a], acc.2)
          else
            let tf_frames := List.filter (fun e : string * Frame => bool_decide (e.1 ∈ al_instruments a)
                                                                    && (0 <? fr_len e.2)%Z) tf_frames in
            let! r := attempt (ask (d_prepare (al_name a) tf_frames)) in
            (match r with Ok _ => ret tt | Raise _ => log (ASignal "prepare_failed") end) ;!
            fold_m (consider_instrument (al_name a) tf_frames) acc (al_instruments a)
    end.

(** [_consider_entries]. *)
Definition consider_entries (ctx : RiskContext) (frames : list (string * Frame)) : AM (list Decision) :=
  let! acc := fold_m (consider_allocation frames) ([], ctx) (ac_strategies cfg) in
  ret (acc : list Decision * RiskContext).1.
End Cycle.

(** ** The advisory queue *)

Definition find_advice (id : string) : AM (option Decision) :=
  gets (fun s => List.find (fun d => bool_decide (de_client_order_id d = Some id)) (ag_queue s)).

(** [self._advisory_queue.remove(target)]: the first with this id. *)
Fixpoint remove_advice (id : string) (q : list Decision) : list Decision :=
  match q with
  | [] => []
  | d :: rest => if bool_decide (de_client_order_id d = Some id) then rest else d :: remove_advice id rest
  end.

(** A refusal that leaves the proposal in the queue, with the veto on it. *)
Fixpoint refuse_advice (id veto : string) (q : list Decision) : list Decision :=
  match q with
  | [] => []
  | d :: rest => if bool_decide (de_client_order_id d = Some id)
                 then de_add_veto veto (de_set_action "vetoed" d) :: rest else d :: refuse_advice id veto rest
  end.

Definition refused (veto : string) (d : Decision) : Decision := de_add_veto veto (de_set_action "vetoed" d).

(** What the venue and the feed say of one instrument now. *)
Definition fresh_market (instrument : string) (now_ns : Z) : AM (Snap * option Quote * option Instrument) :=
  let! snap := ask (d_snapshot [instrument] now_ns []) in
  let! insts := ask d_instruments in
  ret (snap, dict_get instrument (sn_quotes snap), dict_get instrument insts).

(** The context of a human path: built afresh, on its own snapshot; [clock] is
    when it is read. *)
Definition fresh_context (clock : AM Z) (snap : Snap) : AM RiskContext :=
  let! account := ask v_account in
  let! now_ns := clock in
  let! ps := ask v_positions in
  let! ps := hydrate ps in
  let! connected := ask d_connected in
  let! health := ask d_health in
  build_context now_ns account ps snap connected health [] [].

Definition opt_dec (text : option string) : res (option decimal) :=
  match text with
  | Some t => if bool_decide (t = "") then Ok None else (let* d := dec_str t in Ok (Some d))
  | None => Ok None
  end.

(** The intent a queued decision stands for. *)
Definition advised_intent (d : Decision) (id : string) (inst : Instrument) : res OrderIntent :=
  let* side := side_of (default "None" (de_side d)) in
  let* lots := opt_dec (de_lots d) in
  let* stop := opt_dec (de_stop d) in
  let* target := opt_dec (de_target d) in
  let intent := mkOrderIntent id (de_strategy d) (de_instrument d) side (default (inst_min_lot inst) lots) MARKET None
                  stop target (de_ts_ns d) ZERO ZERO ZERO in
  let* _ := OrderIntent_post_init intent in Ok intent.

(** A proposal re-judged on the market of now. *)
Definition revalidate (target : Decision) (id by_ : string) : AM Decision :=
  let! t := now in
  let! (snap, q, i) := fresh_market (de_instrument target) t in
  match q, i with
  | Some quote, Some inst =>
      let! ctx := fresh_context now snap in
      let! intent := lift (advised_intent target id inst) in
      let horizon := match de_horizon_bars target with
                     | Some bars => if (bars =? 0)%Z then None else Some (bars, de_timeframe target)
                     | None => None
                     end in
      let! verdict := lift (evaluate_entry (ac_risk cfg) intent ctx) in
      log (AProposalAccepted id by_) ;!
      if negb (rd_approved verdict) then
        ret (de_set_vetoes (map v_rule (rd_vetoes verdict)) (de_set_action "vetoed" target))
      else
        let! regime := regime_name in
        let! fresh := caution_for (de_strategy target) (de_instrument target) regime in
        let proposed := default (float_of_Z 1) (de_caution target) in
        let caution := fmax (float_of_Z 0) (fmin (fmin (float_of_Z 1) fresh) proposed) in
        let! c := lift (dec_float caution) in
        let! lots := lift (round_lots_down inst (rd_approved_lots verdict * c)) in
        if lots <? inst_min_lot inst then ret (refused "caution_multiplier" target)
        else
          let intent := scale_intent intent lots verdict c in
          execute intent horizon (de_set_caution (fround_to caution 4) (de_sized intent target)) quote
  | _, _ => ret (refused "stale_proposal" target)
  end.

(** [accept_advice]. *)
Definition accept_advice (id by_ : string) : AM (option Decision) :=
  let! found := find_advice id in
  match found with
  | None => ret None
  | Some target =>
      let! permitted := entry_permission in
      if negb permitted then
        log (AProposalRejected id by_) ;!
        modify (with_queue (refuse_advice id "licence")) ;!
        ret (Some (refused "licence" target))
      else
        let! suspended := durable du_suspended in
        match dict_get (de_strategy target) suspended with
        | Some _ =>
            modify (with_queue (remove_advice id)) ;!
            log (AProposalRejected id by_) ;!
            ret (Some (refused "performance_guard" target))
        | None =>
            let! t := now in
            let! open_ := in_session cfg t in
            if negb open_ then
              log (AProposalRejected id by_) ;!
              modify (with_queue (refuse_advice id "out_of_session")) ;!
              ret (Some (refused "out_of_session" target))
            else
              modify (with_queue (remove_advice id)) ;!
              let! d := revalidate target id by_ in
              ret (Some d)
        end
  end.

(** [reject_advice]. *)
Definition reject_advice (id by_ : string) : AM bool :=
  let! found := find_advice id in
  match found with
  | None => ret false
  | Some _ => modify (with_queue (remove_advice id)) ;! log (AProposalRejected id by_) ;! ret true
  end.

(** ** Manual tickets *)

Record Ticket := mkTicket {
  tk_instrument : string;
  tk_side : string;
  tk_stop_loss : decimal;
  tk_take_profit : option decimal;
  tk_by : string;
  tk_risk_pct : option decimal;
  tk_preview : bool
}.

Definition MANUAL_STRATEGY : string := "manual".

(** [ctx.strategy_lifecycles = {**ctx.strategy_lifecycles, "manual": "accepted"}]. *)
Definition with_manual_lifecycle (c : RiskContext) : RiskContext :=
  mkRiskContext (ctx_now_ns c) (ctx_account c) (ctx_positions c) (ctx_instruments c) (ctx_quotes c)
    (ctx_conversions c) (ctx_equity_peak c) (ctx_day_pnl c) (ctx_week_pnl c) (ctx_month_pnl c)
    (ctx_week_start_equity c) (ctx_month_start_equity c) (ctx_rolling_24h_pnl c) (ctx_day_profit_locked c)
    (ctx_ladder_rung c) (ctx_venue_min_stop_pips c) (ctx_day_start_equity c) (ctx_trades_today c)
    (ctx_trades_this_week c) (ctx_trades_this_year c) (ctx_last_entry_ns c) (ctx_pending_risk c)
    (ctx_unresolved_orders c) (ctx_missing_conversions c) (ctx_blocking_alarms c) (ctx_regime_risk_multiplier c)
    (ctx_clock_skew_ms c) (ctx_connectivity_ok c) (ctx_offline_seconds c) (ctx_data_age_sec c)
    (ctx_data_quality c) (ctx_normal_spread_pips c) (ctx_news_blackout c) (ctx_price_divergence c)
    (ctx_cooldowns c) (ctx_stress_scenarios c) (ctx_stress_limit_pct c) (ctx_correlations c) (ctx_cost_models c)
    (ctx_halted c) (ctx_halt_reason c) (ctx_kill_switch c)
    (<[MANUAL_STRATEGY := "accepted"]> (ctx_strategy_lifecycles c)) (ctx_live_money c)
    (ctx_projected_trades_per_year c) (ctx_group_others_open_risk c) (ctx_group_others_equity c)
    (ctx_group_others_currency_risk c) (ctx_group_unknown_members c).

(** The caution of a ticket: a human may ask for less risk, never for more;
    [None] when the risk asked for is not positive. *)
Definition ticket_caution (tk : Ticket) (caution : spec_float) : res (option spec_float) :=
  match tk_risk_pct tk with
  | None => Ok (Some caution)
  | Some wanted =>
      let budget := rc_risk_per_trade_pct (ac_risk cfg) in
      if wanted <=? 0 then Ok None
      else if wanted <? budget
           then (let* q := ddiv wanted budget in Ok (Some (fmin caution (float_of_dec q))))
           else Ok (Some caution)
  end.

(** The ticket after the market is known. *)
Definition judge_ticket (tk : Ticket) (side : Side) (now_ns : Z) (snap : Snap) (quote : Quote) (inst : Instrument)
    (decision : Decision) : AM Decision :=
  let! ctx := fresh_context (ret now_ns) snap in
  let ctx := with_manual_lifecycle ctx in
  let! coid := lift (client_order_id d_digest MANUAL_STRATEGY (tk_instrument tk) (side_text side) now_ns
                       (acc_account_id (ctx_account ctx))) in
  let decision := de_set_id coid decision in
  match draft_intent coid MANUAL_STRATEGY (tk_instrument tk) side inst (tk_stop_loss tk) (tk_take_profit tk) now_ns with
  | Raise (ValueError | InvalidOperation) => ret (de_set_vetoes ["malformed_ticket"] (de_set_action "vetoed" decision))
  | Raise e => throw e
  | Ok intent =>
      let! verdict := lift (evaluate_entry (ac_risk cfg) intent ctx) in
      let decision := de_set_vetoes (map v_rule (rd_vetoes verdict)) decision in
      let decision := de_set_levels (opt_text (oi_stop_loss intent)) (truthy_text (oi_take_profit intent)) decision in
      if negb (rd_approved verdict) then
        when (negb (tk_preview tk)) (log (AVeto coid)) ;! ret (de_set_action "vetoed" decision)
      else
        let! regime := regime_name in
        let! caution := caution_for MANUAL_STRATEGY (tk_instrument tk) regime in
        let! asked := lift (ticket_caution tk caution) in
        match asked with
        | None => ret (de_set_vetoes ["malformed_ticket"] (de_set_action "vetoed" decision))
        | Some caution =>
            let! c := lift (dec_float caution) in
            let! lots := lift (round_lots_down inst (rd_approved_lots verdict * c)) in
            let decision := de_set_caution (fround_to caution 4) decision in
            if lots <? inst_min_lot inst then ret (refused "caution_multiplier" decision)
            else
              let intent := scale_intent intent lots verdict c in
              let decision := de_sized intent decision in
              if tk_preview tk then ret (de_set_action "preview" decision)
              else
                log (AProposalAccepted coid (tk_by tk)) ;!
                let! d := execute intent None decision quote in
                modify (with_decisions (fun ds => ds ++ [d])) ;!
                ret d
        end
  end.

(** [manual_order]. *)
Definition manual_order (tk : Ticket) : AM Decision :=
  let! t := now in
  let decision := new_decision t MANUAL_STRATEGY (tk_instrument tk) "skipped" (Some (tk_side tk)) in
  let vetoed rule := de_set_vetoes [rule] (de_set_action "vetoed" decision) in
  match side_of (upper (tk_side tk)) with
  | Raise _ => ret (de_set_vetoes ["malformed_ticket"] decision)
  | Ok side =>
      if ac_live cfg && negb (ac_manual_live cfg) then ret (vetoed "manual_live_disabled")
      else
        let! permitted := entry_permission in
        if negb permitted then ret (vetoed "licence")
        else
          let! open_ := in_session cfg t in
          if negb open_ then ret (vetoed "out_of_session")
          else
            let! (snap, q, i) := fresh_market (tk_instrument tk) t in
            match q, i with
            | Some quote, Some inst => judge_ticket tk side t snap quote inst decision
            | _, _ => ret (vetoed "no_market")
            end
  end.
End Entry.
