(* ===== verification/AgentCycle.v ===== *)
(** [sentinel/agent/orchestrator.py], fifth part: the start of the agent and its
    decision cycle, in the order of the source: kill switch, health, account and
    budgets, positions, reconciliation, regime, news, context and alarms,
    management of the open positions, entries, learning.  The report keeps what
    decides; the callback that displays it is not called. *)

From Stdlib Require Import ZArith SpecFloat.
From stdpp Require Import base gmap strings list.
From S2P Require Import Prelude PyDecimal PyFloat PyText Money Types Config Calendar Sizing Exposure Risk Protect.
From S2P Require Import StateExn PyDict PyJson Venue Deadman Oms Reconcile Portfolio Ids Agent AgentDurable.
From S2P Require Import AgentManage AgentEntry.

Local Open Scope dec_scope.
Local Open Scope py_scope.

Record CycleReport := mkCycleReport {
  cr_degraded : bool;
  cr_halted : bool;
  cr_kill_switch : bool;
  cr_decisions : list Decision;
  cr_protections : list Protection;
  cr_alarms : list Veto;
  cr_reconcile : option ReconcileReport;
  cr_lessons : Z;
  cr_proposals : Z
}.

(** The report of a cycle that could not read the account or the positions. *)
Definition degraded_report (halted kill : bool) : CycleReport := mkCycleReport true halted kill [] [] [] None 0 0.

Section Cycle.
Context {W : Type} `{!Desk W}.
Variable cfg : AgentConfig.
Local Abbreviation AM := (@AgentDurable.AM W).

(** ** Heartbeat *)

(** [self.heartbeat.update(...); self.heartbeat.beat()]. *)
Definition heartbeat (fields : list (string * json)) : AM unit :=
  let! t := read v_wall_ns in
  modify (with_heartbeat (hb_update fields t)) ;!
  let! h := gets ag_heartbeat in
  ask (d_beat h).

Definition beat_degraded (error : string) : AM unit :=
  let! n := gets ag_cycles in
  heartbeat [("cycle", JInt n); ("degraded", JBool true); ("error", JStr error)].

(** ** Reconciliation *)

(** [Reconciler.reconcile] on the venue of the desk, with its defaults; its journal is
    the one the kill switch writes to. *)
Definition reconcile_books (local : list Position) (ids : list string) (conversions : option (gmap string decimal))
    : AM ReconcileReport :=
  fun s => match reconcile true local ids 50 conversions
                   (mkRState (new_report 0) [] [] None (oms_world (ag_oms s)) (kw_appends (ag_kill s))) with
           | (rs, r) => (with_kill (fun k => mkKillWorld (kw_file k) (kw_last k) (kw_journal k) (rs_appends rs))
                           (with_oms (set_world (rs_world rs)) s), r)
           end.

(** ** Start *)

(** [_unterminated_orders_from_journal]. *)
Definition sent_ids (j : list JournalEntry) : list string :=
  omap (fun e => match e with JSent id => Some id | JDone _ => None end) j.
Definition done_ids (j : list JournalEntry) : list string :=
  omap (fun e => match e with JDone id => Some id | JSent _ => None end) j.
Definition unterminated (j : list JournalEntry) : list string :=
  sorted_set (List.filter (fun id => negb (bool_decide (id ∈ done_ids j))) (sent_ids j)).

Definition unterminated_orders : AM (list string) :=
  let! r := attempt (ask d_journal) in
  match r with
  | Ok j => ret (unterminated j)
  | Raise (OSError | ValueError) => halt "the order journal cannot be read" ;! ret []
  | Raise e => throw e
  end.

(** The replay of one order that was sent and never resolved. *)
Definition replay_order (id : string) : AM unit :=
  let! r := attempt (ask (v_query_order id)) in
  let! res := (match r with Ok res => ret res | Raise _ => log (AConnectivity "replay_query_failed") ;! ret None end) in
  log (AReplayed id (sr_state <$> res)) ;!
  match res with
  | None => halt "an order was sent before the last restart and the venue has no record of it"
  | Some _ => ret tt
  end.

(** The baselines after a start: a restart never raises the peak. *)
Definition start_baselines (restored : bool) (account : AccountState) (d : Durable) : Durable :=
  let eq := acc_equity account in
  let base v := (if v <=? 0 then eq else v) in
  if restored then
    let peak := dmax (du_equity_peak d) ZERO in
    set_month_start base (set_week_start base (set_day_start base
      (set_equity_peak (fun _ => if peak <=? 0 then eq else peak) d)))
  else
    set_month_start (fun _ => eq) (set_week_start (fun _ => eq) (set_day_start (fun _ => eq)
      (set_equity_peak (fun _ => acc_balance account) d))).

(** [start]. *)
Definition start : AM unit :=
  log (ASystem "start") ;!
  (let! h := gets ag_heartbeat in ask (d_beat h)) ;!
  let! restored := load_state in
  let! ids := unterminated_orders in
  each replay_order ids ;!
  let! report := reconcile_books [] [] None in
  when (rr_halt_required report) (halt "startup reconciliation found a state that needs a human") ;!
  let! account := ask v_account in
  change (start_baselines restored account) ;!
  save_state.

(** [stop]. *)
Definition stop : AM unit := save_state ;! log (ASystem "stop").

(** ** Learning *)

(** [_closed_trades]. *)
Definition closed_trades : AM (list ClosedTrade) :=
  match d_closed_trades with
  | None =>
      let! warned := gets ag_warned_no_history in
      when (negb warned) (modify (with_warned_no_history (fun _ => true)) ;! log (ALesson "learning_disabled")) ;!
      ret []
  | Some fetch =>
      let! cursor := durable du_cursor in
      let! r := attempt (ask (fetch cursor)) in
      match r with
      | Ok (trades, cursor) => assign set_cursor cursor ;! ret trades
      | Raise _ => log (ALesson "trade_history_read_failed") ;! ret []
      end
  end.

(** One closed trade, unless it was processed before; the trades with an
    autopsy so far. *)
Definition learn_trade (fresh : list ClosedTrade) (t : ClosedTrade) : AM (list ClosedTrade) :=
  let! processed := durable du_processed in
  if bool_decide (ct_trade_id t ∈ processed) then ret fresh
  else
    change (set_processed (fun ids => ids ++ [ct_trade_id t])) ;!
    if ct_initial_risk t <=? 0 then log (ALesson "no risk attribution") ;! ret fresh
    else ask (d_autopsy t) ;! ret (fresh ++ [t]).

(** [_performance_guard]; the verdict of the statistic comes from the desk. *)
Definition performance_guard (strategy : string) : AM unit :=
  if negb (ac_guard cfg) then ret tt
  else
    let! suspended := durable du_suspended in
    match dict_get strategy suspended with
    | Some _ => ret tt
    | None =>
        let! r := attempt (ask (d_guard_verdict strategy (ac_guard_min_trades cfg))) in
        match r with
        | Ok (Some reason) =>
            change (set_suspended (dict_set strategy reason)) ;! log (AHalt "performance_guard") ;! save_state
        | Ok None => ret tt
        | Raise _ => log (ALesson "performance_guard_error")
        end
    end.

(** [release_guard]. *)
Definition release_guard (strategy by_ : string) : AM bool :=
  let! suspended := durable du_suspended in
  match dict_get strategy suspended with
  | None => ret false
  | Some _ =>
      change (set_suspended (dict_del strategy)) ;! log (AModeChange "guard_released" by_) ;! save_state ;! ret true
  end.

Definition learn_scope (acc : Z * Z) (scope : option string) : AM (Z * Z) :=
  let! total := ask (d_autopsy_count scope) in
  (match scope with
   | Some name => when (negb (bool_decide (name = "")) && (ac_guard_min_trades cfg <=? total)%Z) (performance_guard name)
   | None => ret tt
   end) ;!
  if (total <? ac_proposal_min_sample cfg)%Z then ret acc
  else
    let! (lessons, proposals) := ask (d_lessons scope) in
    ret (acc.1 + lessons, acc.2 + proposals)%Z.

(** [_learn]; the scopes, a set in the source, in the order of the strategies. *)
Definition learn : AM (Z * Z) :=
  if negb (ac_learning cfg) then ret (0, 0)%Z
  else
    let! trades := closed_trades in
    let! fresh := fold_m learn_trade [] trades in
    match fresh with
    | [] => ret (0, 0)%Z
    | _ =>
        (match d_brain with
         | Some b => let! r := attempt (ask (br_on_trades b fresh)) in
                     match r with Ok _ => ret tt | Raise _ => log (ALesson "brain_streaks_failed") end
         | None => ret tt
         end) ;!
        let names := map Some (ac_loaded cfg) in
        fold_m learn_scope (0, 0)%Z (names ++ if Nat.ltb 1 (length names) then [None] else [])
    end.

(** ** The cycle *)

(** [_active_instruments]. *)
Definition active_instruments : list string :=
  let out := flat_map (fun a => if al_enabled a then al_instruments a else []) (ac_strategies cfg) in
  sorted_set (match out with [] => env_instruments (ac_envelope cfg) | _ => out end).

(** [_active_timeframes]. *)
Definition active_timeframes : list string :=
  fromkeys (flat_map (fun a => if al_enabled a && negb (bool_decide (al_timeframe a = ""))
                               then [al_timeframe a] else []) (ac_strategies cfg)).

(** A recovered terminal asks for a reconciliation in this cycle. *)
Definition check_terminal (now_ns : Z) : AM unit :=
  match d_terminal_check with
  | None => ret tt
  | Some check =>
      let! r := attempt (ask (check now_ns)) in
      match r with
      | Ok recovered => when recovered (modify (with_last_reconcile (fun _ => 0%Z)))
      | Raise _ => log (AConnectivity "terminal_watchdog_failed")
      end
  end.

(** The peaks and the rung of the drawdown ladder. *)
Definition track_drawdown (account : AccountState) : AM unit :=
  change (fun d => set_equity_peak_marked (fun p => dmax p (acc_equity account))
                     (set_equity_peak (fun p => dmax p (acc_balance account)) d)) ;!
  let! d := durable id in
  let risk := ac_risk cfg in
  when (rc_ladder_enabled risk && (du_equity_peak d >? 0))
    (let! q := lift (ddiv (du_equity_peak d - acc_equity account) (du_equity_peak d)) in
     let previous := du_ladder_rung d in
     let! rung := lift (ladder_rung (q * 100) (rc_ladder risk) previous (rc_ladder_hysteresis_pct risk)) in
     assign set_ladder_rung rung ;!
     when (negb (rung =? previous)%Z) (log (ALadder previous rung) ;! save_state)).

(** The venue's positions, with the agent's metadata. *)
Definition read_positions : AM (list Position) := let! ps := ask v_positions in hydrate ps.

(** Step 3: reconcile when it is due, or while an order is unresolved. *)
Definition reconcile_step (now_ns : Z) (local : list Position) (positions : list Position)
    : AM (list Position * option ReconcileReport) :=
  let! s := gets id in
  let due := negb (seconds_ltb (now_ns - ag_last_reconcile s) (ac_reconcile_interval cfg)) in
  if due || (match unresolved (ag_oms s) with [] => false | _ => true end) then
    on_oms (resolve_all_unknown (ac_max_slippage cfg) None) ;!
    let! ids := gets (fun s => map (fun o => oi_client_order_id (o_intent o)) (unresolved (ag_oms s))) in
    let! conversions := conversion_map cfg in
    let! report := reconcile_books local ids (Some conversions) in
    modify (with_last_reconcile (fun _ => now_ns)) ;!
    when (rr_halt_required report) (halt "reconciliation mismatch") ;!
    let! positions := read_positions in
    ret (positions, Some report)
  else ret (positions, None).

(** Steps 4 and 4b: the regime and the news. *)
Definition observe_market (now_ns : Z) (symbols : list string) (frames : list (string * Frame)) : AM unit :=
  (match frames with
   | _ :: _ => if ac_regime cfg then
                 let! r := attempt (ask (d_regime frames)) in
                 match r with Ok g => modify (with_regime (fun _ => Some g)) | Raise _ => ret tt end
               else ret tt
   | [] => ret tt
   end) ;!
  modify (with_news (fun _ => [])) ;!
  match d_news, symbols with
  | Some assess, _ :: _ =>
      if ac_news cfg then
        let! r := attempt (ask (assess now_ns symbols)) in
        match r with Ok n => modify (with_news (fun _ => n)) | Raise _ => ret tt end
      else ret tt
  | _, _ => ret tt
  end.

(** This engine's row, and the view of the others. *)
Definition group_round (g : GroupOps W) (now_ns : Z) (account : AccountState) (positions : list Position)
    : AM GroupView :=
  let! insts := ask d_instruments in
  let! conv := conversion_map cfg in
  let! s := gets id in
  let d := ag_durable s in
  let risks : gmap string decimal := fold_left (fun m p => <[pos_instrument p := pos_initial_risk p]> m) positions ∅ in
  let exposures := (currency_exposure (list_to_map insts) risks conv ∅ (acc_currency account) positions).1 in
  let open_risk := dsum (map pos_initial_risk positions) in
  let! dd := lift (if du_equity_peak d >? 0
                   then (let* q := ddiv (du_equity_peak d - acc_equity account) (du_equity_peak d) in Ok (q * 100))
                   else Ok ZERO) in
  ask (gp_publish g (mkGroupRow (gp_account g) (acc_currency account) (acc_equity account) open_risk
         (pending_risk (ag_oms s)) dd (Z.of_nat (length positions))
         (map (fun e => (ce_currency e, ce_net_risk e)) exposures) now_ns (du_halted d))) ;!
  let! files := ask (gp_files g) in
  lift (view (gp_own_file g) now_ns (gp_stale_after_ns g) (Some conv) (acc_currency account) files).

(** [_publish_group]. *)
Definition publish_group (now_ns : Z) (account : AccountState) (positions : list Position) : AM unit :=
  match d_group with
  | None => modify (with_group_view (fun _ => None))
  | Some g =>
      let! r := attempt (group_round g now_ns account positions) in
      match r with
      | Ok v => modify (with_group_view (fun _ => Some v))
      | Raise _ => log (AConnectivity "group_ledger_error") ;!
                   modify (with_group_view (fun _ => Some (add_unreadable "ledger" empty_view)))
      end
  end.

Definition is_blocking (v : Veto) : bool := bool_decide (v_severity v = Risk.BLOCK).
Definition is_halting (v : Veto) : bool := bool_decide (v_severity v = Risk.HALT).

(** Step 5: the context and the standing alarms. *)
Definition judge_book (now_ns : Z) (account : AccountState) (positions : list Position) (snap : Snap)
    (connected : bool) (health : Health) (correlations : list ((string * string) * decimal))
    : AM (RiskContext * list Veto) :=
  let! ctx := build_context cfg now_ns account positions snap connected health correlations [] in
  let! alarms := lift (portfolio_alarms (ac_risk cfg) ctx) in
  each (fun a => when (is_halting a) (halt (v_rule a))) alarms ;!
  match List.filter is_blocking alarms with
  | [] => ret (ctx, alarms)
  | blocking =>
      let! ctx := build_context cfg now_ns account positions snap connected health correlations (map v_rule blocking) in
      ret (ctx, alarms)
  end.

(** The licence, which only blocks entries: journalled when it changes. *)
Definition licence_step : AM bool :=
  let! permitted := entry_permission cfg in
  let! logged := gets ag_licence_logged in
  (if negb permitted
   then when (negb logged) (modify (with_licence_logged (fun _ => true)) ;! log (AHalt "licence_blocks_entries"))
   else when logged (modify (with_licence_logged (fun _ => false)) ;! log (AModeChange "licence_entries_restored" ""))) ;!
  ret permitted.

(** Steps 7 to 9: entries, unless something blocks them. *)
Definition entry_step (now_ns : Z) (kill : bool) (snap : Snap) (ctx : RiskContext) (frames : list (string * Frame))
    (connected : bool) (health : Health) (correlations : list ((string * string) * decimal)) (alarms : list Veto)
    : AM (list Decision) :=
  let! halted := durable du_halted in
  let! permitted := licence_step in
  if halted || kill || negb permitted then ret []
  else
    let! open_ := in_session cfg now_ns in
    if open_ : bool
    then consider_entries cfg now_ns snap connected health correlations (map v_rule (List.filter is_blocking alarms))
           ctx frames
    else ret [].

(** Steps 4 to 10, once the account and the positions are known. *)
Definition decide_cycle (now_ns : Z) (kill : bool) (snap : Snap) (connected : bool) (health : Health)
    (account : AccountState) (positions : list Position) (recon : option ReconcileReport) : AM CycleReport :=
  (match d_macro with
   | Some m => let! r := attempt (ask (mc_refresh m now_ns)) in ret tt
   | None => ret tt
   end) ;!
  let symbols := active_instruments in
  let frames := omap (fun s => match dict_get s (sn_frames snap) with
                               | Some f => if (120 <? fr_len f)%Z then Some (s, f) else None
                               | None => None
                               end) symbols in
  observe_market now_ns symbols frames ;!
  let! correlations := (match frames with [] => ret [] | _ => ask (d_correlations frames) end) in
  publish_group now_ns account positions ;!
  let! (ctx, alarms) := judge_book now_ns account positions snap connected health correlations in
  let! halted := durable du_halted in
  let! protections := manage_positions cfg positions snap ctx in
  let! decisions := entry_step now_ns kill snap ctx frames connected health correlations alarms in
  let! (lessons, proposals) := learn in
  (match d_brain with Some b => ask (br_resolve b) | None => ret tt end) ;!
  when (negb (lessons =? 0)%Z || negb (proposals =? 0)%Z) save_state ;!
  modify (with_decisions (fun ds => lastn 5000 (ds ++ decisions))) ;!
  let! s := gets id in
  heartbeat [("cycle", JInt (ag_cycles s)); ("halted", JBool (du_halted (ag_durable s)));
             ("equity", json_decimal (acc_equity account)); ("open_positions", JInt (Z.of_nat (length positions)));
             ("kill_switch", JBool kill)] ;!
  ret (mkCycleReport false halted kill decisions protections alarms recon lessons proposals).

(** [cycle]. *)
Definition cycle : AM CycleReport :=
  let! t := now in
  modify (with_cycles (fun n => n + 1)%Z) ;!
  let! halted0 := durable du_halted in
  let! kill_state := kill_poll in
  let kill := ks_engaged kill_state in
  check_terminal t ;!
  let! connected := ask (d_probe t) in
  let! snap := ask (d_snapshot active_instruments t active_timeframes) in
  let! health := ask d_health in
  let! account := attempt (ask v_account) in
  match account with
  | Raise _ =>
      log (AConnectivity "account_read_failed") ;!
      beat_degraded "account read failed" ;!
      ret (degraded_report halted0 kill)
  | Ok account =>
      roll_periods t (acc_equity account) ;!
      track_drawdown account ;!
      let! local := durable (fun d => local_book (du_meta d)) in
      let! positions := attempt read_positions in
      match positions with
      | Raise _ =>
          log (AConnectivity "position_read_failed") ;!
          beat_degraded "position read failed" ;!
          ret (degraded_report halted0 kill)
      | Ok positions =>
          let! (positions, recon) := reconcile_step t local positions in
          decide_cycle t kill snap connected health account positions recon
      end
  end.
End Cycle.
