(* ===== verification/AgentInv.v ===== *)
(** The agent's steps and what they keep: which of its operations never send an
    order, never clear a halt, never change the mode, never touch the budgets'
    counters ([calm]); what the context of the risk engine says of the state it is
    built from; and the invariants of [AgentProps], operation by operation. *)

From Stdlib Require Import ZArith QArith Lia Lqa SpecFloat.
From stdpp Require Import base gmap strings list.
From S2P Require Import Prelude PyDecimal DecimalTheory PyFloat PyText Money Types Config Calendar Risk Protect.
From S2P Require Import StateExn PyDict PyJson Venue Deadman Oms OmsInv Reconcile Portfolio Ids Agent AgentDurable.
From S2P Require Import AgentManage AgentEntry AgentCycle.

Local Open Scope py_scope.

(** ** The order manager's book and sends *)

Section OmsBook.
Context {W : Type} `{!Venue W}.

Definition is_send (e : Event) : bool := match e with Submitted _ => true | _ => false end.
Definition sends (s : OmsState W) : list Event := List.filter is_send (oms_trace s).

(** The intents of the orders, in the order they were submitted. *)
Definition book (s : OmsState W) : list (string * OrderIntent) :=
  map (fun e => (e.1, o_intent e.2)) (oms_orders s).

Definition idle (s s' : OmsState W) : Prop := book s' = book s /\ sends s' = sends s.

#[export] Instance idle_preorder : PreOrder idle.
Proof. split; [intros s; split; reflexivity|intros a b c [] []; split; congruence]. Qed.

Lemma book_update id f os :
  (forall o, o_intent (f o) = o_intent o) ->
  map (fun e => (e.1, o_intent e.2)) (order_update id f os) = map (fun e => (e.1, o_intent e.2)) os.
Proof.
  intros Hf. induction os as [|[k o] os IH]; [reflexivity|]. cbn [order_update].
  case_bool_decide; cbn [map fst snd]; [now rewrite Hf|now rewrite IH].
Qed.

Lemma idle_update_order id f : (forall o, o_intent (f o) = o_intent o) -> Steps idle (update_order id f).
Proof. intros Hf s. split; [apply book_update, Hf|reflexivity]. Qed.

Lemma idle_event e : is_send e = false -> Steps idle (modify (add_event e)).
Proof. intros He s. split; [reflexivity|]. unfold sends. cbn. rewrite List.filter_app. cbn. now rewrite He, app_nil_r. Qed.

Lemma idle_transition id new : Steps idle (transition id new).
Proof.
  intros s. rewrite transition_eq. cbv zeta. case_bool_decide; [split; reflexivity|].
  destruct (LEGAL _ _); [now apply (idle_update_order id (set_state new))|].
  now apply (idle_event (Journal ORDER_UNKNOWN id)).
Qed.

Lemma idle_ask {A} (op : venue_op W A) : Steps idle (Oms.ask op).
Proof. apply Steps_ask. intros s w. split; reflexivity. Qed.

Ltac idle :=
  oms_steps ltac:(first
    [ apply idle_transition
    | apply idle_ask
    | apply idle_event; reflexivity
    | apply idle_update_order; intros ?; reflexivity
    | apply Steps_modify; intros ?; split; reflexivity
    | eauto ]).

Lemma idle_apply_fill ms cb id intent dp f : Steps idle (apply_fill ms cb id intent dp f).
Proof. unfold apply_fill, slippage, journal. idle. Qed.
#[local] Hint Resolve idle_apply_fill : core.

Lemma idle_apply_result ms cb id intent result dp : Steps idle (apply_result ms cb id intent result dp).
Proof. unfold apply_result, reassert_stop, becomes_unknown, journal, quarantine, wall_ns. idle. Qed.
#[local] Hint Resolve idle_apply_result : core.

Lemma idle_resolve_unknown ms cb id : Steps idle (resolve_unknown ms cb id).
Proof. unfold resolve_unknown, resolve_query, journal, discard. idle. Qed.
#[local] Hint Resolve idle_resolve_unknown : core.

Lemma idle_resolve_all ms cb : Steps idle (resolve_all_unknown ms cb).
Proof. unfold resolve_all_unknown. idle. Qed.

(** Attempts of one order: the book stays, every send is of [id]. *)
Definition attempts id (s s' : OmsState W) : Prop :=
  book s' = book s /\ exists n, sends s' = sends s ++ repeat (Submitted id) n.
#[export] Instance attempts_preorder id : PreOrder (attempts id).
Proof.
  split; [intros s; split; [reflexivity|exists O; symmetry; apply app_nil_r]|].
  intros a b c [H1 [n E1]] [H2 [m E2]]. split; [congruence|]. exists (n + m)%nat.
  now rewrite E2, E1, repeat_app, app_assoc.
Qed.

Lemma idle_attempts {A} id (c : M (OmsState W) A) : Steps idle c -> Steps (attempts id) c.
Proof. intros H s. destruct (H s) as [Hb Hs]. split; [exact Hb|]. exists O. now rewrite Hs, app_nil_r. Qed.

Lemma attempts_send_loop mr ms cb fuel : forall id intent dp att,
  Steps (attempts id) (send_loop mr ms cb fuel id intent dp att).
Proof.
  assert (Hun : forall id inst, Steps (attempts id) (becomes_unknown (W := W) id inst))
    by (intros; apply idle_attempts; unfold becomes_unknown, journal, quarantine; idle).
  induction fuel as [|fuel IH]; intros id intent dp att; cbn [send_loop];
    unfold exhausted, journal, wall_ns, quarantine; [apply Hun|].
  oms_steps ltac:(first
    [ apply Hun | apply IH
    | apply idle_attempts; first
        [ apply idle_transition | apply idle_ask | apply idle_update_order; intros ?; reflexivity
        | apply idle_event; reflexivity | solve [eauto]
        | apply Steps_modify; intros ?; split; reflexivity ]
    | apply Steps_modify; intros ?; split; [reflexivity|exists 1%nat; unfold sends; cbn; now rewrite List.filter_app] ]).
Qed.

(** What [submit] runs once it has looked at the quarantine and the table. *)
Lemma submit_run mr ms cb intent dp s :
  submit mr ms cb intent dp s =
    if bool_decide (oi_instrument intent ∈ oms_quarantine s) then (s, Raise UnknownOutcomeError)
    else match order_get (oi_client_order_id intent) (oms_orders s) with
         | Some o => (add_event (Journal ORDER_DUPLICATE_BLOCKED (oi_client_order_id intent)) s, Ok (Some o))
         | None => (journal ORDER_INTENT (oi_client_order_id intent) ;!
                    send_loop mr ms cb (submit_fuel mr) (oi_client_order_id intent) intent dp 0 ;!
                    find_order (oi_client_order_id intent))
                     (set_orders (fun os => os ++ [(oi_client_order_id intent, new_order intent)]) s)
         end.
Proof.
  unfold submit, mbind_ at 1. cbn [gets]. case_bool_decide; [reflexivity|].
  unfold find_order at 1, mbind_ at 1. cbn [gets]. now destruct (order_get _ _).
Qed.

(** A submission adds at most its own intent to the book, and sends nothing
    else. *)
Definition submission intent (s s' : OmsState W) : Prop :=
  (book s' = book s /\ sends s' = sends s)
  \/ (exists n, book s' = book s ++ [(oi_client_order_id intent, intent)]
                /\ sends s' = sends s ++ repeat (Submitted (oi_client_order_id intent)) n).

Lemma submit_submission mr ms cb intent dp : Steps (submission intent) (submit mr ms cb intent dp).
Proof.
  intros s. rewrite submit_run. case_bool_decide; [left; split; reflexivity|].
  destruct (order_get _ _) as [o|].
  { left. destruct (idle_event (Journal ORDER_DUPLICATE_BLOCKED (oi_client_order_id intent)) eq_refl s). now split. }
  right. set (id := oi_client_order_id intent).
  assert (H' : Steps (attempts id) (journal ORDER_INTENT id ;!
    send_loop mr ms cb (submit_fuel mr) id intent dp 0 ;! find_order id)).
  { unfold journal. steps; [apply idle_attempts, idle_event; reflexivity|apply attempts_send_loop|].
    apply Steps_find_order. typeclasses eauto. }
  destruct (H' (set_orders (fun os => os ++ [(id, new_order intent)]) s)) as [Hb [n Hn]].
  exists n. rewrite Hb, Hn. unfold book. cbn. now rewrite map_app.
Qed.
End OmsBook.

(** ** Calm steps *)

Create HintDb calm.

Definition counts (d : Durable) : Z * Z * Z := (du_trades_today d, du_trades_week d, du_trades_year d).

Section Calm.
Context {W : Type} `{!Desk W}.
Implicit Types s : AgentState W.

(** Nothing sent, no order added, a halt kept, the mode kept. *)
Record hushed s s' : Prop := {
  hu_sends : sends (ag_oms s') = sends (ag_oms s);
  hu_book : book (ag_oms s') = book (ag_oms s);
  hu_halt : du_halted (ag_durable s) = true -> du_halted (ag_durable s') = true;
  hu_mode : ag_mode s' = ag_mode s
}.

(** And the budgets' counters kept. *)
Record calm s s' : Prop := {
  calm_hushed : hushed s s';
  calm_counts : counts (ag_durable s') = counts (ag_durable s)
}.

#[export] Instance hushed_preorder : PreOrder hushed.
Proof. split; [intros s; now split|intros a b c [] []; split; try congruence; auto]. Qed.
#[export] Instance calm_preorder : PreOrder calm.
Proof.
  split; [intros s; now split|intros a b c [H1 E1] [H2 E2]; split; [now transitivity b|congruence]].
Qed.

Lemma hushed_calm {A} (c : AM A) : Steps calm c -> Steps hushed c.
Proof. intros H s. apply (H s). Qed.

Lemma calm_ask {A} (op : venue_op W A) : Steps calm (ask op).
Proof. intros s. unfold ask. destruct (op (oms_world (ag_oms s))) as [w r]. now split. Qed.
Lemma calm_read {A} (op : W -> W * A) : Steps calm (read op).
Proof. apply calm_ask. Qed.
Lemma calm_modify f : (forall s, calm s (f s)) -> Steps calm (modify f).
Proof. apply Steps_modify. Qed.

(** An assignment to the durable state that leaves the halt and the counters. *)
Lemma calm_change f :
  (forall d, du_halted d = true -> du_halted (f d) = true) -> (forall d, counts (f d) = counts d) ->
  Steps calm (change f).
Proof. intros Hh Hc s. split; [split; cbn; auto|cbn; apply Hc]. Qed.

Lemma calm_oms {A} (c : M (OmsState W) A) : Steps idle c -> Steps calm (on_oms c).
Proof. intros H s. unfold on_oms. specialize (H s.(ag_oms)). destruct (c (ag_oms s)) as [o r]. now destruct H. Qed.

End Calm.

(** Split a computation and close each operation with [leaf]. *)
Ltac agent_steps leaf :=
  repeat (steps; try match goal with |- Steps _ (let _ := _ in _) => cbv zeta end);
  try first [ solve [leaf] ].

Ltac calm_leaf := first
  [ apply calm_ask | apply calm_read
  | apply calm_change; [intros ? H; (exact H || reflexivity)|intros ?; reflexivity]
  | apply Steps_modify; intros ?; split; [split; cbn; auto|reflexivity]
  | solve [auto with calm nocore] ].
Ltac calm := agent_steps calm_leaf.

Section CalmSteps.
Context {W : Type} `{!Desk W}.
Local Abbreviation calmly := (Steps (@calm W)).

Lemma calm_log e : calmly (log e).
Proof. unfold log. calm. Qed.
Lemma calm_now : calmly now.
Proof. apply calm_read. Qed.
Lemma calm_mark_halted r : calmly (mark_halted r).
Proof. unfold mark_halted. calm. Qed.
#[local] Hint Resolve calm_ask calm_read calm_log calm_now calm_mark_halted : calm.

Lemma calm_save_state : calmly save_state.
Proof. unfold save_state, durable. calm. Qed.
#[local] Hint Resolve calm_save_state : calm.

Lemma calm_halt r : calmly (halt r).
Proof. unfold halt, durable. calm. Qed.
#[local] Hint Resolve calm_halt : calm.

Lemma calm_rolling now_ns eq_ : calmly (rolling_24h_pnl now_ns eq_).
Proof. unfold rolling_24h_pnl, durable. calm. Qed.
Lemma calm_in_session cfg now_ns : calmly (in_session cfg now_ns).
Proof. unfold in_session. calm. Qed.
#[local] Hint Resolve calm_rolling calm_in_session : calm.

(** *** Open positions *)

Lemma calm_meta_of i : calmly (meta_of i).
Proof. unfold meta_of, durable. calm. Qed.
Lemma calm_drop_meta i : calmly (drop_meta i).
Proof. unfold drop_meta. calm. Qed.
Lemma calm_touch_meta i : calmly (touch_meta i).
Proof. unfold touch_meta. calm. Qed.
Lemma calm_write_meta i k v : calmly (write_meta i k v).
Proof. unfold write_meta. calm. Qed.
#[local] Hint Resolve calm_meta_of calm_drop_meta calm_touch_meta calm_write_meta : calm.

Lemma calm_map_m {A B} (f : A -> AM B) xs : (forall x, calmly (f x)) -> calmly (map_m f xs).
Proof. intros H. unfold map_m. calm. Qed.

Section Cfg.
Variable cfg : AgentConfig.

Lemma calm_conversion_map : calmly (conversion_map cfg).
Proof. unfold conversion_map, add_conversion. calm. Qed.
#[local] Hint Resolve calm_conversion_map : calm.

Lemma calm_hydrate ps : calmly (hydrate ps).
Proof.
  unfold hydrate. calm; try (apply calm_map_m; intros p; unfold hydrate_position, attach_excursion; calm).
Qed.
#[local] Hint Resolve calm_hydrate : calm.

Lemma calm_close p code : calmly (close p code).
Proof. unfold close. calm. Qed.
#[local] Hint Resolve calm_close : calm.

Lemma calm_manage ps snap ctx : calmly (manage_positions cfg ps snap ctx).
Proof.
  assert (H1 : calmly (apply_profit_lock cfg ps snap ctx)).
  { unfold apply_profit_lock, lock_position, lock_stop, durable, assign. calm. }
  assert (H2 : forall pos out act, calmly (run_instruction pos out act)).
  { intros. unfold run_instruction, apply_instruction. calm. }
  assert (H3 : forall pos, calmly (timed_exit cfg pos ctx)).
  { intros. unfold timed_exit, max_hold_sec. calm. }
  assert (H4 : forall pos q i, calmly (protect_position cfg snap ctx pos q i)).
  { intros. unfold protect_position, track_excursion, atr_of, cost_model_of. calm. }
  unfold manage_positions, manage_position. calm.
Qed.
#[local] Hint Resolve calm_manage : calm.

(** *** The context *)

Lemma calm_kill_poll : calmly (kill_poll).
Proof.
  unfold kill_poll. apply Steps_bind; [typeclasses eauto|apply calm_read|]. intros f s.
  destruct ((write_file f ;! poll) (ag_kill s)) as [k r]. now split.
Qed.
Lemma calm_kill_engaged_now : calmly (kill_engaged_now).
Proof. unfold kill_engaged_now. calm. Qed.
Lemma calm_observe_spread i x : calmly (observe_spread i x).
Proof. unfold observe_spread, spread_window. calm. Qed.
Lemma calm_normal_spread i x : calmly (normal_spread i x).
Proof. unfold normal_spread, spread_window. calm. Qed.
#[local] Hint Resolve calm_kill_poll calm_kill_engaged_now calm_observe_spread calm_normal_spread : calm.

Lemma calm_context_conversion insts acc q : calmly (context_conversion cfg insts acc q).
Proof. unfold context_conversion. calm. Qed.
Lemma calm_check_reference t quotes insts : calmly (check_reference t quotes insts).
Proof. unfold check_reference. calm. Qed.
Lemma calm_brain_context t : calmly (brain_context t).
Proof. unfold brain_context. calm. Qed.
Lemma calm_context_spread insts acc q : calmly (context_spread cfg insts acc q).
Proof. unfold context_spread. calm. Qed.
Lemma calm_stop_floors insts : calmly (venue_stop_floors insts).
Proof. unfold venue_stop_floors. calm. Qed.
#[local] Hint Resolve calm_context_conversion calm_check_reference calm_brain_context calm_context_spread
  calm_stop_floors : calm.

Lemma calm_build_context now_ns a ps snap con h corr bl :
  calmly (build_context cfg now_ns a ps snap con h corr bl).
Proof.
  unfold build_context, durable. calm.
Qed.
#[local] Hint Resolve calm_build_context : calm.

Lemma calm_entry_permission : calmly (entry_permission cfg).
Proof. unfold entry_permission. calm. Qed.
Lemma calm_caution_for st i r : calmly (caution_for st i r).
Proof. unfold caution_for. calm. Qed.
Lemma calm_layered_caution sg sd c : calmly (layered_caution sg sd c).
Proof. unfold layered_caution. calm. Qed.
Lemma calm_gated_caution sg c : calmly (gated_caution sg c).
Proof. unfold gated_caution. calm. Qed.
Lemma calm_regime_name : calmly (regime_name).
Proof. unfold regime_name. calm. Qed.
Lemma calm_enqueue d : calmly (enqueue d).
Proof. unfold enqueue. calm. Qed.
#[local] Hint Resolve calm_entry_permission calm_caution_for calm_layered_caution calm_gated_caution
  calm_regime_name calm_enqueue : calm.

Lemma calm_refresh snap con h corr bl : calmly (refresh cfg snap con h corr bl).
Proof. unfold refresh. calm. Qed.
Lemma calm_fresh_market i t : calmly (fresh_market i t).
Proof. unfold fresh_market. calm. Qed.
Lemma calm_fresh_context clock snap : calmly clock -> calmly (fresh_context cfg clock snap).
Proof. intros H. unfold fresh_context. calm. Qed.
Lemma calm_realised_risk i o : calmly (realised_risk cfg i o).
Proof. unfold realised_risk. calm. Qed.
#[local] Hint Resolve calm_refresh calm_fresh_market calm_realised_risk : calm.

Lemma calm_learn : calmly (learn cfg).
Proof.
  assert (H : forall n, calmly (performance_guard cfg n)).
  { intros n. unfold performance_guard, durable. calm. }
  unfold learn, closed_trades, learn_trade, learn_scope, durable, assign. calm.
Qed.
Lemma calm_heartbeat fields : calmly (heartbeat fields).
Proof. unfold heartbeat. calm. Qed.
Lemma calm_beat_degraded e : calmly (beat_degraded e).
Proof. unfold beat_degraded. pose proof calm_heartbeat. calm. Qed.
Lemma calm_reconcile_books local ids conv : calmly (reconcile_books local ids conv).
Proof. intros s. unfold reconcile_books. destruct (reconcile _ _ _ _ _ _) as [rs r]. now split. Qed.
#[local] Hint Resolve calm_learn calm_heartbeat calm_beat_degraded calm_reconcile_books : calm.

Lemma calm_reconcile_step t local ps : calmly (reconcile_step cfg t local ps).
Proof.
  unfold reconcile_step, read_positions. calm. apply calm_oms, idle_resolve_all.
Qed.
Lemma calm_observe_market t sy fr : calmly (observe_market cfg t sy fr).
Proof. unfold observe_market. calm. Qed.
Lemma calm_publish_group t a ps : calmly (publish_group cfg t a ps).
Proof. unfold publish_group, group_round. calm. Qed.
Lemma calm_licence_step : calmly (licence_step cfg).
Proof. unfold licence_step. calm. Qed.
Lemma calm_track_drawdown a : calmly (track_drawdown cfg a).
Proof. unfold track_drawdown, durable, assign. calm. Qed.
Lemma calm_check_terminal t : calmly (check_terminal t).
Proof. unfold check_terminal. calm. Qed.
Lemma calm_read_positions : calmly (read_positions).
Proof. unfold read_positions. calm. Qed.
#[local] Hint Resolve calm_reconcile_step calm_observe_market calm_publish_group calm_licence_step
  calm_track_drawdown calm_check_terminal calm_read_positions : calm.

Lemma calm_judge_book t a ps snap con h corr : calmly (judge_book cfg t a ps snap con h corr).
Proof. unfold judge_book. calm. Qed.
End Cfg.
End CalmSteps.

#[export] Hint Resolve calm_log calm_now calm_mark_halted calm_save_state calm_halt calm_rolling
  calm_in_session calm_meta_of calm_drop_meta calm_touch_meta calm_write_meta calm_conversion_map calm_hydrate
  calm_close calm_manage calm_kill_poll calm_kill_engaged_now calm_observe_spread calm_normal_spread
  calm_context_conversion calm_check_reference calm_brain_context calm_context_spread calm_stop_floors
  calm_build_context calm_entry_permission calm_caution_for calm_layered_caution calm_gated_caution
  calm_regime_name calm_enqueue calm_refresh calm_fresh_market calm_realised_risk calm_learn calm_heartbeat
  calm_beat_degraded calm_reconcile_books calm_reconcile_step calm_observe_market calm_publish_group
  calm_licence_step calm_track_drawdown calm_check_terminal calm_read_positions calm_judge_book calm_ask
  calm_read calm_fresh_context : calm.

(** ** Running a calm computation *)

Section Runs.
Context {W : Type} `{!Desk W}.
Implicit Types s : AgentState W.

(** A property that calm steps keep. *)
Definition stable (P : AgentState W -> Prop) : Prop := forall s s', calm s s' -> P s -> P s'.

Lemma stable_and P P' : stable P -> stable P' -> stable (fun s => P s /\ P' s).
Proof. intros H H' s s' Hc [Hp Hp']. split; [now apply (H s)|now apply (H' s)]. Qed.

Lemma wp_calm {A} (c : AM A) (P : AgentState W -> Prop) s :
  stable P -> Steps calm c -> P s -> wp c (fun _ => P) (fun _ => P) s.
Proof. intros HP Hc Hs. specialize (Hc s). unfold wp. destruct (c s) as [s' [a|e]]; exact (HP _ _ Hc Hs). Qed.

(** Run a calm operation and go on. *)
Lemma wp_calm_bind {A B} (c : AM A) (k : A -> AM B) (P : AgentState W -> Prop) Q (E : exn -> AgentState W -> Prop) s :
  stable P -> Steps calm c -> P s -> (forall a s', P s' -> wp (k a) Q E s') -> (forall e s', P s' -> E e s') ->
  wp (mbind_ c k) Q E s.
Proof.
  intros HP Hc Hs Hk He. apply wp_bind. eapply wp_mono; [apply (wp_calm c P s HP Hc Hs)| |]; auto.
Qed.

Lemma wp_fold_m {A B} (f : B -> A -> AM B) (Inv : B -> AgentState W -> Prop) (E : exn -> AgentState W -> Prop) xs :
  (forall b x s, Inv b s -> wp (f b x) Inv E s) -> forall b s, Inv b s -> wp (fold_m f b xs) Inv E s.
Proof.
  intros Hf. induction xs as [|x xs IH]; intros b s Hs; cbn [fold_m]; [now apply wp_ret|].
  apply wp_bind. eapply wp_mono; [now apply Hf|auto|auto].
Qed.

Lemma keeps_wp {A} (c : AM A) (P : AgentState W -> Prop) s :
  Steps (keeps P) c -> P s -> wp c (fun _ => P) (fun _ => P) s.
Proof. intros H Hs. specialize (H s Hs). unfold wp. now destruct (c s) as [s' [a|e]]. Qed.

Lemma stable_keeps {A} (c : AM A) P : stable P -> Steps calm c -> Steps (keeps P) c.
Proof. intros HP Hc s Hs. exact (HP _ _ (Hc s) Hs). Qed.
End Runs.

(** ** What the context says of the state *)

(** Run the calm operation at the head, keeping what [Hi] says. *)
Ltac run_calm_as HP Hi x :=
  eapply wp_calm_bind; [exact HP|solve [calm]|exact Hi|clear Hi; intros x ? Hi; cbn beta in Hi|cbn beta; tauto].
Ltac run_calm HP Hi := let x := fresh "x" in run_calm_as HP Hi x.

Section Context_.
Context {W : Type} `{!Desk W}.
Variable cfg : AgentConfig.
Implicit Types s : AgentState W.

Definition ctx_counts (ctx : RiskContext) : Z * Z * Z :=
  (ctx_trades_today ctx, ctx_trades_this_week ctx, ctx_trades_this_year ctx).

(** The counters and the halt have not moved since [d]. *)
Definition since (d : Durable) s : Prop :=
  counts (ag_durable s) = counts d /\ (du_halted d = true -> du_halted (ag_durable s) = true).

Lemma stable_since d : stable (since d).
Proof. intros s s' [[_ _ Hh _] Hc] [E H]. split; [congruence|auto]. Qed.

Lemma build_context_spec t a ps snap con h corr bl (P : AgentState W -> Prop) s :
  stable P -> P s ->
  wp (build_context cfg t a ps snap con h corr bl)
     (fun ctx s' => (P s' /\ since (ag_durable s) s')
                    /\ ctx_counts ctx = counts (ag_durable s')
                    /\ (du_halted (ag_durable s) = true -> ctx_halted ctx = true)
                    /\ ctx_now_ns ctx = t /\ ctx_account ctx = a /\ ctx_positions ctx = ps
                    /\ ctx_blocking_alarms ctx = bl)
     (fun _ => P) s.
Proof.
  intros HP Hs. set (d0 := ag_durable s).
  assert (HI : stable (fun s' => P s' /\ since d0 s')) by (apply stable_and; [exact HP|apply stable_since]).
  assert (Hi : P s /\ since d0 s) by (split; [exact Hs|split; auto]). clearbody d0. clear Hs.
  unfold build_context. cbv zeta.
  run_calm HI Hi. run_calm_as HI Hi cm. destruct cm as [conversions missing]. run_calm HI Hi. run_calm_as HI Hi bc.
  destruct bc as [[cooldowns scenarios] stress]. run_calm_as HI Hi nc. destruct nc as [normal costs].
  unfold durable. do 2 wp_step.
  set (d := ag_durable s'3).
  assert (HJ : stable (fun s' => (P s' /\ since d0 s') /\ counts (ag_durable s') = counts d)).
  { apply stable_and; [exact HI|]. intros s1 s2 [_ Hc] E. congruence. }
  assert (Hj : (P s'3 /\ since d0 s'3) /\ counts (ag_durable s'3) = counts d) by auto.
  assert (Hd : du_halted d0 = true -> du_halted d = true) by apply Hi.
  clearbody d. clear Hi. cbn [id].
  run_calm HJ Hj. run_calm HJ Hj. do 2 wp_step. run_calm HJ Hj. wp_step.
  destruct Hj as [Hj Ec]. split; [exact Hj|].
  split; [exact (eq_sym Ec)|]. split; [exact Hd|repeat split].
Qed.
End Context_.
