(* ===== verification/AgentPaths.v ===== *)
(** The paths from a signal, a queued proposal or a ticket to the order manager.
    [Entries] states once what every path does: whatever reaches [execute] was
    approved by the engine on a context built from the state, on the account and the
    positions the venue stated and an instrument it offers, with a size the
    caution can only shrink.  A client names an invariant [P] and what the context
    must say of the state ([linked]), shows that the one call that can send keeps
    [P], and gets that the cycle, the acceptance of a proposal and a ticket do. *)

From Stdlib Require Import ZArith QArith Lia Lqa SpecFloat.
From stdpp Require Import base gmap strings list.
From S2P Require Import Prelude PyDecimal DecimalTheory PyFloat PyText Money Types Config Calendar Risk Protect.
From S2P Require Import StateExn PyDict PyJson Venue Deadman Oms OmsInv Reconcile Portfolio Ids Agent AgentDurable.
From S2P Require Import AgentManage AgentEntry AgentCycle AgentInv.

Local Open Scope dec_scope.
Local Open Scope py_scope.

(** ** What a computation returns *)

Section Returns.
Context {S : Type}.

Definition Returns {A} (Post : A -> Prop) (c : M S A) : Prop := forall s s' a, c s = (s', Ok a) -> Post a.

Lemma Returns_ret {A} (Post : A -> Prop) a : Post a -> Returns Post (ret a).
Proof. intros H s s' b [= _ <-]. exact H. Qed.
Lemma Returns_throw {A} (Post : A -> Prop) e : Returns Post (throw e).
Proof. intros s s' a [=]. Qed.
Lemma Returns_bind {A B} (Post : B -> Prop) (c : M S A) (k : A -> M S B) :
  (forall a, Returns Post (k a)) -> Returns Post (mbind_ c k).
Proof. intros H s s' b (s1 & a & _ & E)%mbind_Ok. exact (H a s1 s' b E). Qed.
Lemma Returns_bind_of {A B} (Mid : A -> Prop) (Post : B -> Prop) (c : M S A) (k : A -> M S B) :
  Returns Mid c -> (forall a, Mid a -> Returns Post (k a)) -> Returns Post (mbind_ c k).
Proof. intros Hc Hk s s' b (s1 & a & E1 & E2)%mbind_Ok. exact (Hk a (Hc _ _ _ E1) s1 s' b E2). Qed.
End Returns.

Ltac returns_step :=
  match goal with
  | |- Returns _ (ret _) => apply Returns_ret
  | |- Returns _ (throw _) => apply Returns_throw
  | |- Returns _ (mbind_ _ _) => apply Returns_bind; intros ?
  | |- Returns _ (if ?b then _ else _) => destruct b
  | |- Returns _ (match ?x with _ => _ end) => destruct x
  end.

(** A caution that is not above one. *)
Definition at_most_one (c : spec_float) : Prop := fltb (float_of_Z 1) c = false.

Section Cautions.
Context {W : Type} `{!Desk W}.

Lemma caution_for_unit strategy instrument regime :
  Returns at_most_one (caution_for (W := W) strategy instrument regime).
Proof. unfold caution_for. repeat returns_step. apply clamp_unit. Qed.

Lemma shrunk_unit (x m : spec_float) (b : bool) :
  at_most_one x -> at_most_one (if b then fmin x m else x).
Proof. intros H. destruct b; [now apply fmin_below_one|exact H]. Qed.

Lemma clamped_unit x : at_most_one x -> at_most_one (fmax (float_of_Z 0) x).
Proof. intros H. unfold fmax. destruct (fltb _ _); [exact H|reflexivity]. Qed.

Lemma layered_caution_unit signal side c :
  at_most_one c -> Returns at_most_one (layered_caution (W := W) signal side c).
Proof.
  intros H. unfold layered_caution. returns_step. cbv zeta.
  apply Returns_bind_of with at_most_one.
  - repeat returns_step; first [assumption|now apply shrunk_unit].
  - intros x Hx. repeat returns_step; first [assumption|now apply shrunk_unit].
Qed.

Definition opt_at_most_one (o : option spec_float) : Prop := match o with Some c => at_most_one c | None => True end.

Lemma gated_caution_unit signal c :
  at_most_one c -> Returns opt_at_most_one (gated_caution (W := W) signal c).
Proof.
  intros H. unfold gated_caution. apply Returns_bind. intros [g|]; [|now apply Returns_ret].
  repeat returns_step; first [exact I|assumption|now apply shrunk_unit].
Qed.

(** Run a calm operation and go on, with what it returns. *)
Lemma wp_calm_returns {A B} (c : AM A) (k : A -> AM B) (Post : A -> Prop) (P : AgentState W -> Prop) Q
    (E : exn -> AgentState W -> Prop) s :
  stable P -> Steps calm c -> Returns Post c -> P s -> (forall a s', Post a -> P s' -> wp (k a) Q E s') ->
  (forall e s', P s' -> E e s') -> wp (mbind_ c k) Q E s.
Proof.
  intros HP Hc Hr Hs Hk He. unfold wp, mbind_. specialize (Hc s). specialize (Hr s).
  destruct (c s) as [s' [a|e]]; cbn in *.
  - apply Hk; [exact (Hr _ _ eq_refl)|exact (HP _ _ Hc Hs)].
  - exact (He _ _ (HP _ _ Hc Hs)).
Qed.
End Cautions.

(** Run the calm operation at the head, keeping what [Hi] says and what it returns. *)
Ltac run_returns HP HR Hi x Hx :=
  eapply wp_calm_returns; [exact HP|solve [calm]|exact HR|exact Hi|clear Hi; intros x ? Hx Hi; cbn beta in Hx, Hi|cbn beta; tauto].

(** ** What the venue stated *)

Section Stated.
Context {W : Type} `{!Desk W}.
Variable cfg : AgentConfig.

(** An instrument of the venue, and an account it stated. *)
Definition offered (symbol : string) (inst : Instrument) : Prop :=
  exists (w w' : W) l, d_instruments w = (w', Ok l) /\ dict_get symbol l = Some inst.
Definition account_stated (a : AccountState) : Prop := exists w w' : W, v_account w = (w', Ok a).
(** The positions the venue stated, with the metadata the agent keeps of them. *)
Definition same_trade (raw p : Position) : Prop :=
  pos_instrument p = pos_instrument raw /\ pos_side p = pos_side raw /\ pos_lots p = pos_lots raw /\
  pos_entry_price p = pos_entry_price raw /\ pos_stop_loss p = pos_stop_loss raw.
#[export] Instance same_trade_transitive : Transitive same_trade.
Proof. intros a b c (?&?&?&?&?) (?&?&?&?&?). repeat split; congruence. Qed.
Definition positions_stated (ps : list Position) : Prop :=
  exists (w w' : W) raw, v_positions w = (w', Ok raw) /\ Forall2 same_trade raw ps.

Lemma dict_get_map (l : list (string * Instrument)) k : (list_to_map l : gmap string Instrument) !! k = dict_get k l.
Proof.
  induction l as [|[k' x] l IH]; cbn [dict_get]; [apply lookup_empty|]. cbn [list_to_map foldr fst snd].
  case_bool_decide as E; [subst; apply lookup_insert_eq|]. rewrite lookup_insert_ne by exact E. exact IH.
Qed.

(** [ctx] is the context the agent builds, between [s0] and [s1], on what the venue stated. *)
Definition built (ctx : RiskContext) (s0 s1 : AgentState W) : Prop :=
  exists t a ps snap con h corr bl, account_stated a /\ positions_stated ps /\
    build_context cfg t a ps snap con h corr bl s0 = (s1, Ok ctx).

(** The instruments of a context are the venue's. *)
Definition offers (ctx : RiskContext) : Prop :=
  forall symbol inst, ctx_instruments ctx !! symbol = Some inst -> offered symbol inst.

Lemma Returns_ask {A} (op : venue_op W A) : Returns (fun a => exists w w', op w = (w', Ok a)) (ask op).
Proof. intros s s' a. unfold ask. destruct (op _) as [w r] eqn:E. intros [= _ ->]. eauto. Qed.
Lemma Returns_attempt {A} (Post : A -> Prop) (c : AM (W := W) A) :
  Returns Post c -> Returns (fun r => match r with Ok a => Post a | Raise _ => True end) (attempt c).
Proof. intros H s s' r. unfold attempt. specialize (H s). destruct (c s) as [s1 [a|e]]; intros [= _ <-]; [exact (H _ _ eq_refl)|exact I]. Qed.

Lemma build_context_offers t a ps snap con h corr bl : Returns offers (build_context cfg t a ps snap con h corr bl).
Proof.
  unfold build_context. cbv zeta. eapply Returns_bind_of; [apply Returns_ask|]. intros insts (w & w' & E).
  repeat returns_step. intros symbol inst. cbn [ctx_instruments]. intros Hi. exists w, w', insts. split; [exact E|].
  now rewrite <- dict_get_map.
Qed.

Lemma Returns_map_m {A B} (R : A -> B -> Prop) (f : A -> AM (W := W) B) xs :
  (forall x, Returns (R x) (f x)) -> Returns (Forall2 R xs) (map_m f xs).
Proof.
  intros Hf. unfold map_m. assert (G : forall pre acc, Forall2 R pre acc ->
    Returns (Forall2 R (pre ++ xs)) (fold_m (fun acc x => let! y := f x in ret (acc ++ [y])) acc xs)).
  { induction xs as [|x xs IH]; intros pre acc Ha; cbn [fold_m]; [apply Returns_ret; now rewrite app_nil_r|].
    apply Returns_bind_of with (fun acc' => Forall2 R (pre ++ [x]) acc').
    - eapply Returns_bind_of; [apply Hf|]. intros y Hy. apply Returns_ret, Forall2_app; auto.
    - intros acc' Ha'. replace (pre ++ x :: xs) with ((pre ++ [x]) ++ xs) by now rewrite <- app_assoc. now apply IH. }
  apply (G [] []). constructor.
Qed.

Lemma hydrate_same ps : Returns (Forall2 same_trade ps) (hydrate (W := W) ps).
Proof.
  unfold hydrate. eapply Returns_bind_of; [apply (Returns_map_m same_trade)|].
  - intros p. unfold hydrate_position. repeat returns_step; now repeat split.
  - intros out Ho. apply Returns_bind. intros _. intros s s' ps' E.
    assert (H : Forall2 same_trade out ps').
    { revert E. apply (Returns_map_m same_trade). intros p. unfold attach_excursion. repeat returns_step; now repeat split. }
    now transitivity out.
Qed.

Lemma stated_hydrated raw ps : (exists w w' : W, v_positions w = (w', Ok raw)) -> Forall2 same_trade raw ps -> positions_stated ps.
Proof. intros (w & w' & E) H. now exists w, w', raw. Qed.

Lemma positions_read : Returns positions_stated read_positions.
Proof.
  unfold read_positions. eapply Returns_bind_of; [apply Returns_ask|]. intros raw (w & w' & E) s s' ps H.
  exists w, w', raw. split; [exact E|]. exact (hydrate_same raw s s' ps H).
Qed.

Lemma reconcile_positions t local ps :
  positions_stated ps -> Returns (fun r => positions_stated r.1) (reconcile_step cfg t local ps).
Proof.
  intros H. unfold reconcile_step. apply Returns_bind. intros s0. cbv zeta. destruct (_ || _); [|now apply Returns_ret].
  do 6 (apply Returns_bind; intros ?). eapply Returns_bind_of; [apply positions_read|]. intros ps' H'. now apply Returns_ret.
Qed.

Lemma fresh_offers instrument t :
  Returns (fun m => forall inst, m.2 = Some inst -> offered instrument inst) (fresh_market (W := W) instrument t).
Proof.
  unfold fresh_market. apply Returns_bind. intros snap. eapply Returns_bind_of; [apply Returns_ask|].
  intros l (w & w' & E). apply Returns_ret. cbn [snd]. intros inst Hi. now exists w, w', l.
Qed.
End Stated.

Lemma draft_instrument coid strategy instrument side inst stop target t intent :
  draft_intent coid strategy instrument side inst stop target t = Ok intent -> oi_instrument intent = instrument.
Proof.
  unfold draft_intent. destruct (round_price inst stop); [|discriminate]. cbn [rbind].
  destruct (match target with Some _ => _ | None => _ end); [|discriminate]. cbn [rbind].
  destruct (OrderIntent_post_init _); [|discriminate]. now intros [= <-].
Qed.

Lemma advised_instrument d id inst intent : advised_intent d id inst = Ok intent -> oi_instrument intent = de_instrument d.
Proof.
  unfold advised_intent. destruct (side_of _); [|discriminate]. cbn [rbind].
  destruct (opt_dec _); [|discriminate]. cbn [rbind]. destruct (opt_dec _); [|discriminate]. cbn [rbind].
  destruct (opt_dec _); [|discriminate]. cbn [rbind]. destruct (OrderIntent_post_init _); [|discriminate]. now intros [= <-].
Qed.

(** ** Vetted intents *)

(** An intent the engine approved on [ctx], at a size the caution shrank. *)
Inductive vetted {W} `{!Desk W} (risk : RiskConfig) (ctx : RiskContext) : OrderIntent -> Prop :=
| Vetted (draft : OrderIntent) (inst : Instrument) (v : RiskDecision) (caution : spec_float) (scale lots : decimal)
    (Hinst : offered (W := W) (oi_instrument draft) inst)
    (Heval : evaluate_entry risk draft ctx = Ok v) (Happ : rd_approved v = true)
    (Hunit : at_most_one caution) (Hscale : dec_float caution = Ok scale)
    (Hlots : round_lots_down inst (rd_approved_lots v * scale) = Ok lots) (Hmin : (lots <? inst_min_lot inst) = false) :
    vetted risk ctx (scale_intent draft lots v scale).

(** Return a decision that did not reach the venue. *)
Ltac unchanged Hi := apply wp_ret; split; [apply Hi|intros _; apply Hi].

(** ** Every path keeps what the one that sends keeps *)

Section Entries.
Context {W : Type} `{!Desk W}.
Variable cfg : AgentConfig.
Variable P : AgentState W -> Prop.
Variable linked : RiskContext -> AgentState W -> Prop.

Hypothesis P_stable : stable P.
Hypothesis linked_stable : forall ctx, stable (linked ctx).
Hypothesis linked_offers : forall ctx s, linked ctx s -> offers (W := W) ctx.
Hypothesis linked_context : forall t a ps snap con h corr bl s, account_stated (W := W) a -> positions_stated (W := W) ps -> P s ->
  wp (build_context cfg t a ps snap con h corr bl) (fun ctx s' => P s' /\ linked ctx s') (fun _ => P) s.

Local Abbreviation before ctx := (fun s => P s /\ linked ctx s).
Lemma before_stable ctx : stable (before ctx).
Proof. now apply stable_and. Qed.

(** After a decision: the context still describes the state, unless something
    reached the venue. *)
Definition after (ctx : RiskContext) (d : Decision) (s : AgentState W) : Prop :=
  P s /\ (reached_venue d = false -> linked ctx s).

Section Dispatch.
Hypothesis dispatch_keeps : forall ctx intent horizon d quote s,
  P s -> linked ctx s -> vetted (ac_risk cfg) ctx intent -> reached_venue d = false ->
  wp (dispatch cfg intent horizon d quote) (after ctx) (fun _ => P) s.
Hypothesis roll_keeps : forall t eq_, Steps (keeps P) (roll_periods t eq_).

Lemma judge_signal_keeps ctx inst quote intent horizon c d s :
  before ctx s -> offered (W := W) (oi_instrument intent) inst -> at_most_one c -> reached_venue d = false ->
  wp (judge_signal cfg ctx inst quote intent horizon c d) (after ctx) (fun _ => P) s.
Proof.
  intros Hi Hin Hc Hd. pose proof (before_stable ctx) as HI. unfold judge_signal. cbv zeta.
  apply wp_bind. wp_step; [|apply Hi]. rename a into v. rename H into Ev.
  run_calm HI Hi. destruct (rd_approved v) eqn:Ea; cbn [negb].
  2:{ run_calm HI Hi. apply wp_ret. destruct horizon as [[bars tf]|]; (split; [apply Hi|intros _; apply Hi]). }
  apply wp_bind. wp_step; [|apply Hi]. apply wp_bind. wp_step; [|apply Hi].
  destruct (_ <? _) eqn:El; [unchanged Hi|].
  apply dispatch_keeps; [apply Hi|apply Hi|econstructor; eassumption|]. now destruct horizon as [[bars tf]|].
Qed.

Lemma act_on_signal_keeps signal side stop ctx s :
  before ctx s -> wp (act_on_signal cfg signal side stop ctx) (after ctx) (fun _ => P) s.
Proof.
  intros Hi. pose proof (before_stable ctx) as HI. unfold act_on_signal. cbv zeta.
  destruct (ctx_instruments ctx !! _) as [inst|] eqn:Ein; [|unchanged Hi].
  apply (linked_offers ctx s (proj2 Hi)) in Ein.
  destruct (ctx_quotes ctx !! _) as [quote|]; [|unchanged Hi].
  run_calm HI Hi.
  eapply wp_calm_returns; [exact HI|solve [calm]|apply caution_for_unit|exact Hi|clear Hi; intros c1 s1 Hc1 Hi|cbn beta; tauto].
  eapply wp_calm_returns; [exact HI|solve [calm]|apply layered_caution_unit, Hc1|exact Hi|clear Hi; intros c2 s2 Hc2 Hi|cbn beta; tauto].
  eapply wp_calm_returns; [exact HI|solve [calm]|apply gated_caution_unit, Hc2|exact Hi|clear Hi; intros g s3 Hg Hi|cbn beta; tauto].
  destruct g as [c|]; [|unchanged Hi].
  apply wp_bind. wp_step; [|apply Hi].
  destruct (draft_intent _ _ _ _ _ _ _ _) as [intent|e] eqn:Ed.
  - apply judge_signal_keeps; auto. now rewrite (draft_instrument _ _ _ _ _ _ _ _ _ Ed).
  - destruct e; try (apply wp_throw, Hi). unchanged Hi.
Qed.

Lemma refresh_keeps snap con h corr bl s :
  P s -> wp (refresh cfg snap con h corr bl) (fun ctx s' => P s' /\ linked ctx s') (fun _ => P) s.
Proof.
  intros Hs. unfold refresh.
  run_returns P_stable (Returns_ask (W := W) v_account) Hs a Ha. run_returns P_stable (Returns_ask (W := W) v_positions) Hs ps0 Hps0.
  run_returns P_stable (hydrate_same ps0) Hs ps Hps. run_calm P_stable Hs.
  apply linked_context; [exact Ha|now apply stated_hydrated with ps0|exact Hs].
Qed.

(** What the entries of a cycle carry: the decisions and the context. *)
Local Abbreviation carried := (fun (acc : list Decision * RiskContext) s => P s /\ linked acc.2 s).

Lemma consider_instrument_keeps snap con h corr bl strategy frames acc sym s :
  carried acc s ->
  wp (consider_instrument cfg snap con h corr bl strategy frames acc sym) carried (fun _ => P) s.
Proof.
  intros Hi. pose proof (before_stable acc.2) as HI. unfold consider_instrument.
  destruct (dict_get sym frames) as [frame|]; [|now apply wp_ret].
  destruct (fr_len frame <=? d_warmup strategy)%Z; [now apply wp_ret|].
  run_calm_as HI Hi g. destruct g as [[signal|]|e]; [|now apply wp_ret|run_calm HI Hi; now apply wp_ret].
  destruct (sg_side signal) as [side|]; [|now apply wp_ret].
  destruct (sg_stop_price signal) as [stop|]; [|now apply wp_ret].
  cbv zeta. apply wp_bind. eapply wp_mono; [apply act_on_signal_keeps, Hi| |auto].
  intros d s1 Hd.
  assert (HA : stable (after acc.2 d)).
  { intros a b Hc [Ha1 Ha2]. split; [exact (P_stable _ _ Hc Ha1)|]. intros E. exact (linked_stable _ _ _ Hc (Ha2 E)). }
  apply wp_bind. eapply wp_mono; [apply (wp_calm _ (after acc.2 d)); [exact HA| |exact Hd]| |].
  - destruct d_brain as [b|]; calm.
  - intros [] s2 [H1 H2]. destruct (reached_venue d); [|apply wp_ret; split; [exact H1|apply H2; reflexivity]].
    apply wp_bind. eapply wp_mono; [apply refresh_keeps, H1| |auto]. intros ctx s3 H3. now apply wp_ret.
  - cbn beta. intros e s2 [H1 _]. exact H1.
Qed.

Lemma consider_allocation_keeps now_ns snap con h corr bl frames acc a s :
  carried acc s ->
  wp (consider_allocation cfg now_ns snap con h corr bl frames acc a) carried (fun _ => P) s.
Proof.
  intros Hi. pose proof (before_stable acc.2) as HI. unfold consider_allocation.
  destruct (_ || _); [now apply wp_ret|]. unfold durable. do 2 wp_step.
  destruct (dict_get _ _); [now apply wp_ret|]. destruct (negb (can_trade _ _)); [now apply wp_ret|].
  cbv zeta. destruct (_ && _); [now apply wp_ret|].
  run_calm HI Hi. eapply (wp_calm_bind _ _ (before acc.2)); [exact HI| |exact Hi|clear Hi; intros ? ? Hi|cbn beta; tauto].
  { match goal with |- Steps _ (match ?r with _ => _ end) => destruct r end; calm. }
  apply (wp_fold_m _ carried); [|exact Hi]. intros b sym s2 Hb. now apply consider_instrument_keeps.
Qed.

Lemma entry_step_keeps now_ns kill snap ctx frames con h corr alarms s :
  before ctx s -> wp (entry_step cfg now_ns kill snap ctx frames con h corr alarms) (fun _ => P) (fun _ => P) s.
Proof.
  intros Hi. pose proof (before_stable ctx) as HI. unfold entry_step, durable. do 2 wp_step.
  run_calm HI Hi. destruct (_ || _); [apply wp_ret, Hi|]. run_calm HI Hi.
  match goal with |- wp (if ?b then _ else _) _ _ _ => destruct b end; [|apply wp_ret, Hi].
  unfold consider_entries. apply wp_bind. eapply wp_mono; [apply (wp_fold_m _ carried (fun _ => P)); [|exact Hi]| |auto].
  - intros acc al s2 Ha. now apply consider_allocation_keeps.
  - cbn beta. intros acc s2 Ha. apply wp_ret, Ha.
Qed.

Lemma judge_book_keeps t a ps snap con h corr s :
  account_stated (W := W) a -> positions_stated (W := W) ps -> P s -> wp (judge_book cfg t a ps snap con h corr) (fun ca s' => P s' /\ linked ca.1 s') (fun _ => P) s.
Proof.
  intros Ha Hps Hs. unfold judge_book. apply wp_bind. eapply wp_mono; [now apply linked_context| |auto].
  intros ctx s1 Hi. pose proof (before_stable ctx) as HI. apply wp_bind. wp_step; [|apply Hi]. run_calm HI Hi.
  destruct (List.filter _ _) as [|b bs]; [now apply wp_ret|].
  apply wp_bind. eapply wp_mono; [apply linked_context; [exact Ha|exact Hps|apply Hi]| |auto]. intros ctx2 s2 H2. now apply wp_ret.
Qed.

Lemma decide_cycle_keeps now_ns kill snap con h account positions recon s :
  account_stated (W := W) account -> positions_stated (W := W) positions -> P s -> wp (decide_cycle cfg now_ns kill snap con h account positions recon) (fun _ => P) (fun _ => P) s.
Proof.
  intros Ha Hps Hs. unfold decide_cycle. cbv zeta. run_calm P_stable Hs. run_calm P_stable Hs. run_calm P_stable Hs.
  run_calm P_stable Hs. apply wp_bind. eapply wp_mono; [now apply judge_book_keeps| |auto].
  intros [ctx alarms] s1 Hi. cbn [fst] in Hi. pose proof (before_stable ctx) as HI.
  unfold durable. do 2 wp_step. run_calm HI Hi. clear Hs.
  apply wp_bind. eapply wp_mono; [apply entry_step_keeps, Hi| |auto]. intros decisions s3 Hs.
  apply (wp_calm _ P); [exact P_stable| |exact Hs]. calm.
Qed.

(** The cycle. *)
Lemma cycle_keeps : Steps (keeps P) (cycle cfg).
Proof.
  apply Steps_wp. intros s Hs. unfold cycle.
  run_calm P_stable Hs. run_calm P_stable Hs. unfold durable at 1. do 2 wp_step. run_calm P_stable Hs.
  cbv zeta. do 4 run_calm P_stable Hs. run_returns P_stable (Returns_attempt _ _ (Returns_ask (W := W) v_account)) Hs acc Ha. destruct acc as [account|e].
  2:{ apply (wp_calm _ P); [exact P_stable|calm|exact Hs]. }
  apply wp_bind. eapply wp_mono; [apply keeps_wp; [apply roll_keeps|exact Hs]| |auto]. intros [] s1 Hs1. clear Hs.
  run_calm P_stable Hs1. unfold durable. do 2 wp_step. run_returns P_stable (Returns_attempt _ _ positions_read) Hs1 ps Hps. destruct ps as [ps|e].
  2:{ apply (wp_calm _ P); [exact P_stable|calm|exact Hs1]. }
  eapply wp_calm_returns; [exact P_stable|solve [calm]|apply reconcile_positions, Hps|exact Hs1|clear Hs1; intros pr ? Hpr Hs1|cbn beta; tauto].
  destruct pr as [ps2 recon]. now apply decide_cycle_keeps.
Qed.
End Dispatch.

(** *** The human paths *)

Section Execute.
Hypothesis execute_keeps : forall ctx intent horizon d quote s,
  P s -> linked ctx s -> vetted (ac_risk cfg) ctx intent ->
  wp (execute cfg intent horizon d quote) (fun _ => P) (fun _ => P) s.

Lemma fresh_context_keeps clock snap s :
  Steps calm clock -> P s -> wp (fresh_context cfg clock snap) (fun ctx s' => P s' /\ linked ctx s') (fun _ => P) s.
Proof.
  intros Hc Hs. unfold fresh_context. run_returns P_stable (Returns_ask (W := W) v_account) Hs a Ha. run_calm P_stable Hs.
  run_returns P_stable (Returns_ask (W := W) v_positions) Hs ps0 Hps0. run_returns P_stable (hydrate_same ps0) Hs ps Hps.
  do 2 run_calm P_stable Hs. apply linked_context; [exact Ha|now apply stated_hydrated with ps0|exact Hs].
Qed.

Lemma revalidate_keeps target id by_ s :
  P s -> wp (revalidate cfg target id by_) (fun _ => P) (fun _ => P) s.
Proof.
  intros Hs. unfold revalidate. run_calm P_stable Hs. run_returns P_stable (fresh_offers (de_instrument target) x) Hs m Hm. destruct m as [[snap q] i]. cbn [snd] in Hm.
  destruct q as [quote|]; [|now apply wp_ret]. destruct i as [inst|]; [|now apply wp_ret].
  apply wp_bind. eapply wp_mono; [apply fresh_context_keeps; [calm|exact Hs]| |auto]. clear Hs.
  intros ctx s1 Hi. pose proof (before_stable ctx) as HI.
  apply wp_bind. wp_step; [|apply Hi]. cbv zeta. apply wp_bind. wp_step; [|apply Hi]. run_calm HI Hi.
  destruct (rd_approved _) eqn:Ea; cbn [negb]; [|apply wp_ret, Hi]. run_calm HI Hi.
  eapply wp_calm_returns; [exact HI|solve [calm]|apply caution_for_unit|exact Hi|clear Hi; intros c1 s4 Hc1 Hi|cbn beta; tauto].
  apply wp_bind. wp_step; [|apply Hi]. apply wp_bind. wp_step; [|apply Hi].
  destruct (_ <? _) eqn:El; [apply wp_ret, Hi|].
  eapply execute_keeps; [apply Hi|apply Hi|]. econstructor; [|eassumption|exact Ea| |eassumption..|exact El].
  { match goal with H : advised_intent _ _ _ = Ok _ |- _ => rewrite (advised_instrument _ _ _ _ H) end. now apply Hm. }
  apply clamped_unit, fmin_below_one, fmin_below_one. reflexivity.
Qed.

Lemma accept_advice_keeps id by_ : Steps (keeps P) (accept_advice cfg id by_).
Proof.
  apply Steps_wp. intros s Hs. unfold accept_advice, find_advice. do 2 wp_step.
  destruct (List.find _ _) as [target|]; [|now apply wp_ret]. run_calm_as P_stable Hs permitted.
  destruct (negb permitted). { apply (wp_calm _ P); [exact P_stable|calm|exact Hs]. }
  unfold durable. do 2 wp_step. destruct (dict_get _ _).
  { apply (wp_calm _ P); [exact P_stable|calm|exact Hs]. }
  run_calm P_stable Hs. run_calm_as P_stable Hs allowed. destruct (negb allowed). { apply (wp_calm _ P); [exact P_stable|calm|exact Hs]. }
  run_calm P_stable Hs. apply wp_bind. eapply wp_mono; [apply revalidate_keeps, Hs| |auto].
  intros d s5 H5. now apply wp_ret.
Qed.

Hypothesis linked_manual : forall ctx s, linked ctx s -> linked (with_manual_lifecycle ctx) s.

Lemma judge_ticket_keeps tk side t snap quote inst d s :
  offered (W := W) (tk_instrument tk) inst -> P s -> wp (judge_ticket cfg tk side t snap quote inst d) (fun _ => P) (fun _ => P) s.
Proof.
  intros Hin Hs. unfold judge_ticket.
  apply wp_bind. eapply wp_mono; [apply fresh_context_keeps; [calm|exact Hs]| |auto]. clear Hs.
  intros ctx0 s1 [Hp Hl]. apply linked_manual in Hl. cbv zeta. set (ctx := with_manual_lifecycle ctx0) in *. clearbody ctx.
  pose proof (conj Hp Hl) as Hi. clear Hp Hl. pose proof (before_stable ctx) as HI.
  apply wp_bind. wp_step; [|apply Hi]. destruct (draft_intent _ _ _ _ _ _ _ _) as [intent|e] eqn:Ed.
  2:{ destruct e; first [apply wp_throw, Hi|apply wp_ret, Hi]. }
  apply wp_bind. wp_step; [|apply Hi]. destruct (rd_approved _) eqn:Ea; cbn [negb].
  2:{ apply (wp_calm _ P); [exact P_stable|calm|apply Hi]. }
  run_calm HI Hi.
  eapply wp_calm_returns; [exact HI|solve [calm]|apply caution_for_unit|exact Hi|clear Hi; intros c1 s3 Hc1 Hi|cbn beta; tauto].
  apply wp_bind. wp_step; [|apply Hi]. rename H1 into Easked. destruct a1 as [c|]; [|apply wp_ret, Hi].
  assert (Hc : at_most_one c).
  { revert Easked. unfold ticket_caution. destruct (tk_risk_pct tk) as [w|]; [|now intros [= <-]].
    destruct (w <=? 0); [discriminate|]. destruct (w <? _); [|now intros [= <-]].
    destruct (ddiv _ _); [|discriminate]. cbn [rbind]. intros [= <-]. now apply fmin_below_one. }
  apply wp_bind. wp_step; [|apply Hi]. apply wp_bind. wp_step; [|apply Hi].
  destruct (_ <? _) eqn:El; [apply wp_ret, Hi|]. destruct (tk_preview tk); [apply wp_ret, Hi|]. run_calm HI Hi.
  apply wp_bind. eapply wp_mono; [eapply execute_keeps; [apply Hi|apply Hi|]| |auto].
  { econstructor; eauto. now rewrite (draft_instrument _ _ _ _ _ _ _ _ _ Ed). }
  intros d' s5 H5. apply (wp_calm _ P); [exact P_stable|calm|exact H5].
Qed.

Lemma manual_order_keeps tk : Steps (keeps P) (manual_order cfg tk).
Proof.
  apply Steps_wp. intros s Hs. unfold manual_order. run_calm P_stable Hs. cbv zeta.
  destruct (side_of _) as [side|e]; [|now apply wp_ret]. destruct (_ && _); [now apply wp_ret|].
  run_calm P_stable Hs. destruct (negb _); [now apply wp_ret|]. run_calm P_stable Hs. destruct (negb _); [now apply wp_ret|].
  run_returns P_stable (fresh_offers (tk_instrument tk) x) Hs m Hm. destruct m as [[snap q] i]. cbn [snd] in Hm.
  destruct q as [quote|]; [|now apply wp_ret]. destruct i as [inst|]; [|now apply wp_ret].
  apply judge_ticket_keeps; [now apply Hm|exact Hs].
Qed.
End Execute.
End Entries.
