(* ===== verification/AgentDemo.v ===== *)
(** A small desk to run the agent on: one instrument, one strategy that always
    wants to buy, a venue that fills at the ask unless told otherwise, files kept
    in the state.  The witnesses of [AgentProps] and [AgentFacts] run on it. *)

From Stdlib Require Import ZArith SpecFloat.
From stdpp Require Import base gmap strings list.
From S2P Require Import Prelude PyDecimal PyFloat PyText Money Types Config Calendar Sizing Risk Protect StateExn.
From S2P Require Import PyDict PyJson Venue Deadman Oms OmsInv Reconcile Portfolio Ids Agent AgentDurable.
From S2P Require Import AgentManage AgentEntry AgentCycle AgentInv.

Local Open Scope dec_scope.

(** What the venue does with the next order. *)
Inductive Floor_mode := Fills | Rejects | Times_out | Loses_link.

Record Floor := mkFloor {
  fl_now : Z;
  fl_mode : Floor_mode;
  fl_positions : list Position;
  fl_state : file;
  fl_kill : file
}.

Definition floor_result (st : OrderState) (fills : list Fill) : SubmitResult :=
  mkSubmitResult st (Some "v1") fills None None None true None.

Definition floor_fill (i : OrderIntent) : Fill :=
  mkFill (oi_client_order_id i) "v1" (oi_instrument i) (oi_side i) (oi_lots i) 1.1000 0 0 0 0 0.

Definition floor_position (i : OrderIntent) : Position :=
  mkPosition (oi_instrument i) (oi_side i) (oi_lots i) 1.1000 0 "" (oi_stop_loss i) (oi_take_profit i) true
    (Some (oi_client_order_id i)) 0 0 0 0 0 0 false false.

Definition floor_submit (i : OrderIntent) : venue_op Floor SubmitResult := fun w =>
  match fl_mode w with
  | Fills => (mkFloor (fl_now w) Fills (fl_positions w ++ [floor_position i]) (fl_state w) (fl_kill w),
              Ok (floor_result FILLED [floor_fill i]))
  | Rejects => (w, Ok (floor_result REJECTED []))
  | Times_out | Loses_link => (w, Raise UnknownOutcomeError)
  end.

Definition floor_close (instrument : string) (lots : option decimal) (reason : string) : venue_op Floor SubmitResult :=
  fun w => (mkFloor (fl_now w) (fl_mode w) [] (fl_state w) (fl_kill w), Ok (floor_result FILLED [])).

#[export] Instance Floor_venue : Venue Floor := {|
  supports_client_order_id := true;
  v_instrument _ w := (w, Ok eur_usd);
  v_quote _ w := (w, Ok demo_quote);
  v_account w := (w, Ok demo_account);
  v_positions w := (w, match fl_mode w with Loses_link => Raise BrokerError | _ => Ok (fl_positions w) end);
  v_submit := floor_submit;
  v_query_order _ w := (w, Ok None);
  v_modify_position _ _ w := (w, Ok true);
  v_transactions_since _ w := (w, Ok []);
  v_wall_ns w := (w, fl_now w)
|}.

Definition floor_signal : Signal :=
  mkSignal "trend" "EUR_USD" (Some BUY) (Some 1.0950) (Some 1.1100) 0 "M15" 1710072000000000000.

Definition floor_frame : Frame := mkFrame 200 (Some 1710072000000000000%Z).
Definition floor_snap : Snap :=
  mkSnap [("EUR_USD", demo_quote)] [("EUR_USD", floor_frame)] [] [("EUR_USD", Some 0.0)] [].

#[export] Instance Floor_desk : Desk Floor := {|
  desk_venue := Floor_venue;
  d_now w := (w, fl_now w);
  d_instruments w := (w, Ok [("EUR_USD", eur_usd)]);
  d_conversion_rate _ _ w := (w, Raise BrokerError);
  d_close_position := floor_close;
  d_min_stop_distance := None;
  d_closed_trades := None;
  d_snapshot _ _ _ w := (w, Ok floor_snap);
  d_probe _ w := (w, Ok true);
  d_connected w := (w, Ok true);
  d_health w := (w, Ok (mkHealth (Some 0.0) 0.0));
  d_kill_file w := (w, fl_kill w);
  d_read_state w := (w, fl_state w);
  d_write_state j w := (mkFloor (fl_now w) (fl_mode w) (fl_positions w) (Json j) (fl_kill w), Ok tt);
  d_journal w := (w, Ok []);
  d_entry_gate := None;
  d_terminal_check := None;
  d_memory_caution _ _ _ w := (w, Ok (float_of_Z 1));
  d_news := None;
  d_reference := None;
  d_brain := None;
  d_macro := None;
  d_meta_gate := None;
  d_features _ w := (w, Ok false);
  d_regime _ w := (w, Ok ("calm", 1));
  d_correlations _ w := (w, Ok []);
  d_prepare _ _ w := (w, Ok tt);
  d_warmup _ := 50%Z;
  d_generate _ _ _ _ w := (w, Ok (Some floor_signal));
  d_atr _ w := (w, Ok None);
  d_group := None;
  d_autopsy _ w := (w, Ok tt);
  d_autopsy_count _ w := (w, Ok 0%Z);
  d_guard_verdict _ _ w := (w, Ok None);
  d_lessons _ w := (w, Ok (0%Z, 0%Z));
  d_beat _ w := (w, Ok tt);
  d_digest _ := "0123456789abcdef01234567"
|}.

(** A demo account: one strategy on one instrument, no caps but the default. *)
Definition floor_config : AgentConfig :=
  mkAgentConfig default_risk_config false "USD" 0 0 60 2 None
    [mkAllocation "trend" true ["EUR_USD"] "" "experimental"] ["trend"]
    (mkEnvelope ["EUR_USD"] (float_of_dec 0.5) (float_of_dec 1)) [(0, 24)%Z] [0; 1; 2; 3; 4; 5; 6]%Z
    false false false false false 30 20 "M15".

Definition floor (mode : Floor_mode) (state kill : file) : Floor := mkFloor 1710072000000000000 mode [] state kill.

Definition agent_with (d : Durable) (m : AgentMode) (w : Floor) : AgentState Floor :=
  mkAgent (mkOms [] ∅ [] [] [] w) d m None (mkKillWorld Absent false [] []) [] [] [] [] [] 0 0 false false None
    (mkHeartbeat [] 0) [].

(** The agent a process starts with. *)
Definition new_agent (m : AgentMode) (w : Floor) : AgentState Floor := agent_with fresh_durable m w.

Definition halted_durable : Durable := set_halt_reason (fun _ => "test") (set_halted (fun _ => true) fresh_durable).

(** An autonomous agent does open. *)
Example autonomous_cycle_opens :
  let s' := (cycle floor_config (new_agent AUTONOMOUS (floor Fills Absent Absent))).1 in
  map (fun e => (oi_instrument e.2, deqb (oi_lots e.2) 0.1)) (book (ag_oms s')) = [("EUR_USD", true)]
  /\ sends (ag_oms s') = [Submitted "SFX0123456789abcdef01234567"] /\ counts (ag_durable s') = (1, 1, 1)%Z.
Proof. vm_compute. repeat split. Qed.
