(* ===== verification/AgentRestart.v ===== *)
(** The state file of the agent: what [save_state] writes is what [load_state]
    restores.  A position's metadata is a dictionary of Python values written as
    texts; it comes back as other values that read the same. *)

From Stdlib Require Import ZArith QArith Lia SpecFloat.
From stdpp Require Import base gmap strings list.
From S2P Require Import Prelude PyDecimal PyFloat PyText Money Types Config Calendar Risk StateExn PyDict PyJson.
From S2P Require Import Venue Deadman Oms OmsInv Reconcile Portfolio Agent AgentDurable AgentManage AgentEntry.
From S2P Require Import AgentCycle AgentInv AgentDemo.

Local Open Scope dec_scope.
Local Open Scope py_scope.

(** ** The metadata of one position *)

(** A value that is absent, or whose text is read as a decimal; a zero is written
    as [0]. *)
Definition dec_readable (key : string) (m : Meta) : bool :=
  match dict_get key m with
  | None => true
  | Some (MDec _) => true
  | Some (MStr t) => match dec_str t with
                     | Ok d => negb (bool_decide (t = "")) && (negb (is_zero d) || bool_decide (d = ZERO))
                     | Raise _ => false
                     end
  | Some (MInt _ | MBool _ | MNone) => false
  end.
Definition text_readable (key : string) (m : Meta) : bool :=
  match dict_get key m with None | Some (MStr _) => true | Some _ => false end.
Definition flag_readable (key : string) (m : Meta) : bool :=
  match dict_get key m with None | Some (MBool _) => true | Some _ => false end.
Definition int_readable (key : string) (m : Meta) : bool :=
  match dict_get key m with None | Some (MInt _) => true | Some _ => false end.
(** A stop: absent, none, a decimal, or the text of one that is not zero. *)
Definition stop_readable (m : Meta) : bool :=
  match dict_get "stop_loss" m with
  | None | Some MNone | Some (MDec _) => true
  | Some (MStr t) => match dec_str t with Ok d => negb (is_zero d) && negb (bool_decide (t = "")) && negb (bool_decide (t = "None"))
                     | Raise _ => false end
  | Some (MInt _ | MBool _) => false
  end.
(** A holding limit is read through a float. *)
Definition hold_readable (m : Meta) : bool :=
  match dict_get "max_hold_sec" m with
  | None => true
  | Some (MInt z) => match json_float_int (JStr (str_of_int z)) with Ok z' => (z =? z')%Z | Raise _ => false end
  | Some _ => false
  end.

(** [if meta]: metadata without a key counts as none. *)
Definition known (m : Meta) : bool := match m with [] => false | _ => true end.

Definition meta_readable (m : Meta) : bool :=
  forallb (fun k => dec_readable k m) ["initial_risk"; "lots"; "entry_price"; "max_favourable"; "max_adverse"; "intended_risk"]
  && forallb (fun k => text_readable k m) ["strategy"; "side"; "client_order_id"; "regime"]
  && forallb (fun k => flag_readable k m) ["provisional"; "partial_taken"; "breakeven_moved"]
  && int_readable "opened_ns" m && stop_readable m && hold_readable m && known m.

(** Everything the agent reads of a position's metadata. *)
Record Reading := mkReading {
  re_known : bool;
  re_risk : res decimal;
  re_strategy : string;
  re_side : string;
  re_regime : string;
  re_opened : res Z;
  re_provisional : bool;
  re_partial : bool;
  re_breakeven : bool;
  re_best : res decimal;
  re_worst : res decimal;
  re_hold : res Z;
  re_book : option Position
}.
Definition reading (instrument : string) (m : Meta) : Reading :=
  mkReading (known m) (mval_dec (meta_get "initial_risk" (MInt 0) m)) (meta_text "strategy" m) (meta_text "side" m) (meta_text "regime" m)
    (mval_int (meta_or "opened_ns" (MInt 0) (MInt 0) m)) (mval_true (meta_get "provisional" MNone m))
    (meta_flag "partial_taken" m) (meta_flag "breakeven_moved" m) (meta_dec "max_favourable" m)
    (meta_dec "max_adverse" m) (mval_int (meta_or "max_hold_sec" MNone (MInt 0) m)) (local_position (instrument, m)).

Lemma json_get_meta m key dflt :
  json_get (json_meta m) key dflt = Ok (match dict_get key m with Some v => JStr (mval_str v) | None => dflt end).
Proof.
  unfold json_get, json_meta. f_equal. induction m as [|[k v] m IH]; [reflexivity|]. cbn [map dict_get fst snd].
  case_bool_decide; [reflexivity|exact IH].
Qed.

(** What the agent reads of a decimal of the metadata: as it is, or with
    [or 0]. *)
Definition dec_read (key : string) (m : Meta) (d : decimal) : Prop :=
  mval_dec (meta_get key (MInt 0) m) = Ok d
  /\ meta_dec key m = Ok (if is_zero d then ZERO else d)
  /\ (let v := meta_get key MNone m in
      let* p := (if mval_true v then (let* d := mval_dec v in Ok (Some d)) else Ok None) in Ok (default ZERO p))
     = Ok (if is_zero d then ZERO else d).

Lemma meta_get_Some key dflt m v : dict_get key m = Some v -> meta_get key dflt m = v.
Proof. unfold meta_get. now intros ->. Qed.
Lemma meta_get_None key dflt m : dict_get key m = None -> meta_get key dflt m = dflt.
Proof. unfold meta_get. now intros ->. Qed.

Lemma dec_read_restored key m d : dict_get key m = Some (MDec d) -> dec_read key m d.
Proof.
  intros E. unfold dec_read, meta_dec, meta_or. rewrite !(meta_get_Some _ _ _ _ E). cbn [mval_true mval_dec].
  destruct (is_zero d); repeat split.
Qed.

(** A decimal of the metadata, and what is written of it. *)
Lemma dec_readable_back key m :
  dec_readable key m = true ->
  exists d, dec_read key m d
    /\ (let* j := json_get (json_meta m) key (JInt 0) in json_dec j) = Ok d
    /\ (let* j := (let* j := json_get (json_meta m) key (JInt 0) in Ok (json_or j (JInt 0))) in json_dec j) = Ok d.
Proof.
  unfold dec_readable. rewrite json_get_meta. cbn [rbind]. unfold json_or.
  destruct (dict_get key m) as [[d|t|z|b|]|] eqn:Ek; try discriminate; cbn [mval_str truthy].
  - intros _. exists d. split; [now apply dec_read_restored|].
    rewrite bool_decide_eq_false_2 by apply str_of_decimal_nonempty. cbn [negb json_dec]. now rewrite dec_str_of_decimal.
  - destruct (dec_str t) as [d|] eqn:Et; [|discriminate]. intros [Ht Hz]%andb_true_iff. exists d. rewrite Ht. cbn [json_dec].
    split; [|now rewrite Et]. unfold dec_read, meta_dec, meta_or. rewrite !(meta_get_Some _ _ _ _ Ek).
    cbn [mval_true mval_dec]. rewrite Ht. cbn [mval_dec]. rewrite Et. cbn [rbind default]. apply orb_true_iff in Hz as [Hz|Hz].
    + apply negb_true_iff in Hz. now rewrite Hz.
    + apply bool_decide_eq_true in Hz. now subst d.
  - intros _. exists ZERO. split; [|split; reflexivity]. unfold dec_read, meta_dec, meta_or. rewrite !(meta_get_None _ _ _ Ek).
    repeat split.
Qed.

Lemma text_readable_back key m :
  text_readable key m = true ->
  exists t, json_get (json_meta m) key (JStr "") = Ok (JStr t) /\ meta_text key m = t.
Proof.
  unfold text_readable, meta_text, meta_get. rewrite json_get_meta.
  destruct (dict_get key m) as [[d|t|z|b|]|]; try discriminate; intros _; cbn; eauto.
Qed.

Lemma flag_readable_back key m :
  flag_readable key m = true ->
  exists j, json_get (json_meta m) key JNull = Ok j /\ meta_flag key m = is_True j
    /\ mval_true (meta_get key MNone m) = is_True j.
Proof.
  unfold flag_readable, meta_flag, meta_get. rewrite json_get_meta.
  destruct (dict_get key m) as [[d|t|z|[]|]|]; try discriminate; intros _; cbn; eauto.
Qed.

Lemma opened_readable_back m :
  int_readable "opened_ns" m = true ->
  exists z, (let* j := (let* j := json_get (json_meta m) "opened_ns" (JInt 0) in Ok (json_or j (JInt 0))) in json_int j) = Ok z
    /\ forall dflt, mval_int dflt = Ok 0%Z \/ mval_true dflt = false -> mval_int (meta_or "opened_ns" dflt (MInt 0) m) = Ok z.
Proof.
  unfold int_readable, json_int. rewrite json_get_meta. cbn [rbind]. unfold json_or, meta_or.
  destruct (dict_get "opened_ns" m) as [[d|t|z|b|]|] eqn:E; try discriminate; intros _.
  - exists z. cbn [mval_str truthy]. rewrite bool_decide_eq_false_2 by apply str_of_int_nonempty. cbn [negb int_of_json].
    rewrite int_text_round_trip. split; [reflexivity|]. intros dflt _. rewrite (meta_get_Some _ _ _ _ E). cbn [mval_true].
    destruct (Z.eqb_spec z 0) as [->|]; reflexivity.
  - exists 0%Z. split; [reflexivity|]. intros dflt Hd. rewrite (meta_get_None _ _ _ E).
    destruct (mval_true dflt) eqn:Et; [|reflexivity]. now destruct Hd.
Qed.

Lemma stop_readable_back m :
  stop_readable m = true ->
  exists o : option decimal,
    (let* j := json_get (json_meta m) "stop_loss" JNull in
     match j with
     | JNull => Ok MNone
     | JStr s => if bool_decide (s = "") || bool_decide (s = "None") then Ok MNone else (let* d := dec_str s in Ok (MDec d))
     | _ => (let* d := json_dec j in Ok (MDec d))
     end) = Ok (match o with Some d => MDec d | None => MNone end)
    /\ (let v := meta_get "stop_loss" MNone m in
        if mval_true v then (let* d := mval_dec v in Ok (Some d)) else Ok None)
       = Ok (match o with Some d => if is_zero d then None else Some d | None => None end).
Proof.
  unfold stop_readable. rewrite json_get_meta. cbn [rbind].
  destruct (dict_get "stop_loss" m) as [[d|t|z|b|]|] eqn:E; try discriminate; cbn [mval_str].
  - intros _. exists (Some d). rewrite (meta_get_Some _ _ _ _ E). cbn [mval_true mval_dec].
    rewrite bool_decide_eq_false_2 by apply str_of_decimal_nonempty.
    rewrite bool_decide_eq_false_2 by (intros C; pose proof (dec_str_of_decimal d) as D; now rewrite C in D).
    cbn [orb]. rewrite dec_str_of_decimal. split; [reflexivity|]. now destruct (is_zero d).
  - destruct (dec_str t) as [d|] eqn:Et; [|discriminate].
    intros [[Hz%negb_true_iff H1%negb_true_iff]%andb_true_iff H2%negb_true_iff]%andb_true_iff.
    exists (Some d). rewrite (meta_get_Some _ _ _ _ E). cbn [mval_true mval_dec]. rewrite H1, H2. cbn [orb negb].
    rewrite Et, Hz. split; reflexivity.
  - intros _. exists None. rewrite (meta_get_Some _ _ _ _ E). split; reflexivity.
  - intros _. exists None. rewrite (meta_get_None _ _ _ E). split; reflexivity.
Qed.

Lemma hold_readable_back m :
  hold_readable m = true ->
  exists z, (let* j := (let* j := json_get (json_meta m) "max_hold_sec" (JInt 0) in Ok (json_or j (JInt 0))) in json_float_int j)
            = Ok z
    /\ mval_int (meta_or "max_hold_sec" MNone (MInt 0) m) = Ok z.
Proof.
  unfold hold_readable. rewrite json_get_meta. cbn [rbind]. unfold json_or, meta_or.
  destruct (dict_get "max_hold_sec" m) as [[d|t|z|b|]|] eqn:E; try discriminate.
  - destruct (json_float_int _) as [z'|] eqn:Ez; [|discriminate]. intros <-%Z.eqb_eq. exists z. cbn [mval_str truthy].
    rewrite bool_decide_eq_false_2 by apply str_of_int_nonempty. cbn [negb]. rewrite Ez. split; [reflexivity|].
    rewrite (meta_get_Some _ _ _ _ E). cbn [mval_true]. destruct (Z.eqb_spec z 0) as [->|]; reflexivity.
  - intros _. exists 0%Z. rewrite (meta_get_None _ _ _ E). split; [vm_compute|]; reflexivity.
Qed.

(** A zero reads as [0]. *)
Definition nz (d : decimal) : decimal := if is_zero d then ZERO else d.

(** What a metadata holds, as the agent reads it. *)
Record Holds (m : Meta) (risk lots entry best worst : decimal) (strategy side coid regime : string)
    (prov part be : bool) (opened : Z) (stop : option decimal) (hold : Z) : Prop := {
  ho_known : known m = true;
  ho_risk : dec_read "initial_risk" m risk;
  ho_lots : dec_read "lots" m lots;
  ho_entry : dec_read "entry_price" m entry;
  ho_best : dec_read "max_favourable" m best;
  ho_worst : dec_read "max_adverse" m worst;
  ho_strategy : meta_text "strategy" m = strategy;
  ho_side : meta_text "side" m = side;
  ho_coid : meta_text "client_order_id" m = coid;
  ho_regime : meta_text "regime" m = regime;
  ho_prov : mval_true (meta_get "provisional" MNone m) = prov;
  ho_part : meta_flag "partial_taken" m = part;
  ho_be : meta_flag "breakeven_moved" m = be;
  ho_opened : forall dflt, mval_int dflt = Ok 0%Z \/ mval_true dflt = false ->
    mval_int (meta_or "opened_ns" dflt (MInt 0) m) = Ok opened;
  ho_stop : (let v := meta_get "stop_loss" MNone m in
             if mval_true v then (let* d := mval_dec v in Ok (Some d)) else Ok None)
            = Ok (match stop with Some d => if is_zero d then None else Some d | None => None end);
  ho_hold : mval_int (meta_or "max_hold_sec" MNone (MInt 0) m) = Ok hold
}.

Definition reading_target (instrument : string) (risk lots entry best worst : decimal) (strategy side coid regime : string)
    (prov part be : bool) (opened : Z) (stop : option decimal) (hold : Z) : Reading :=
    mkReading true (Ok risk) strategy side regime (Ok opened) prov part be (Ok (nz best)) (Ok (nz worst)) (Ok hold)
      (if prov then None
       else match side_of side with
            | Raise _ => None
            | Ok sd => Some (mkPosition instrument sd lots (nz entry) opened strategy
                               (match stop with Some d => if is_zero d then None else Some d | None => None end) None
                               false (Some coid) ZERO ZERO ZERO risk ZERO ZERO false false)
            end).

Lemma reading_of instrument m risk lots entry best worst strategy side coid regime prov part be opened stop hold :
  Holds m risk lots entry best worst strategy side coid regime prov part be opened stop hold ->
  reading instrument m = reading_target instrument risk lots entry best worst strategy side coid regime prov part be opened stop hold.
Proof.
  intros [Hkn [R1 _] [L1 _] (_ & _ & E3) (_ & B2 & _) (_ & W2 & _) Hst Hsi Hco Hrg Hpr Hpa Hbe Hop Hsl Hho].
  unfold reading, reading_target. rewrite Hkn, R1, Hst, Hsi, Hrg, Hpr, Hpa, Hbe, B2, W2, Hho, Hop by now left. f_equal.
  unfold local_position. cbn [fst snd]. rewrite Hpr. destruct prov; [reflexivity|]. rewrite Hsi.
  destruct (side_of side) as [sd|]; [|reflexivity]. rewrite L1, R1. cbn [rbind]. cbv zeta in E3, Hsl |- *.
  destruct (if mval_true (meta_get "entry_price" MNone m) then _ else _) as [p|]; [|discriminate].
  cbn [rbind] in *. injection E3 as Ep. rewrite Hop by now right. cbn [rbind]. rewrite Hsl. cbn [rbind].
  rewrite Hst, Hco. unfold nz. now rewrite Ep.
Qed.

(** A position's metadata survives the file: it reads the same. *)
Lemma meta_restored m :
  meta_readable m = true ->
  exists m', meta_of_json (json_meta m) = Ok m' /\ forall instrument, reading instrument m' = reading instrument m.
Proof.
  unfold meta_readable. cbn [forallb]. rewrite !andb_true_iff.
  intros ((((((Hd & Ht) & Hf) & Ho) & Hs) & Hh) & Hk).
  destruct Hd as (Hd1%dec_readable_back & Hd2%dec_readable_back & Hd3%dec_readable_back & Hd4%dec_readable_back
                  & Hd5%dec_readable_back & Hd6%dec_readable_back & _).
  destruct Ht as (Ht1%text_readable_back & Ht2%text_readable_back & Ht3%text_readable_back & Ht4%text_readable_back & _).
  destruct Hf as (Hf1%flag_readable_back & Hf2%flag_readable_back & Hf3%flag_readable_back & _).
  apply opened_readable_back in Ho as (z & Ez & Rz). apply stop_readable_back in Hs as (sl & Esl & Rsl).
  apply hold_readable_back in Hh as (h & Eh & Rh).
  destruct Hd1 as (risk & Rrisk & Erisk & _), Hd2 as (lots & Rlots & _ & Elots), Hd3 as (entry & Rentry & _ & Eentry),
    Hd4 as (best & Rbest & _ & Ebest), Hd5 as (worst & Rworst & _ & Eworst), Hd6 as (intended & _ & _ & Eintended).
  destruct Ht1 as (strategy & Estr & Rstr), Ht2 as (side & Eside & Rside), Ht3 as (coid & Ecoid & Rcoid),
    Ht4 as (regime & Ereg & Rreg).
  destruct Hf1 as (jp & Ejp & _ & Rprov), Hf2 as (jt & Ejt & Rpart & _), Hf3 as (jb & Ejb & Rbe & _).
  eexists. split.
  { unfold meta_of_json. cbv zeta. rewrite Erisk. cbn [rbind]. rewrite Estr. cbn [rbind]. rewrite Ez. cbn [rbind].
    rewrite Eside. cbn [rbind]. rewrite Ecoid. cbn [rbind]. rewrite Ereg. cbn [rbind]. rewrite Ejp. cbn [rbind].
    rewrite Ejt. cbn [rbind]. rewrite Ejb. cbn [rbind]. rewrite Elots. cbn [rbind]. rewrite Eentry. cbn [rbind].
    rewrite Esl. cbn [rbind]. rewrite Ebest. cbn [rbind]. rewrite Eworst. cbn [rbind]. rewrite Eh. cbn [rbind].
    rewrite Eintended. reflexivity. }
  intros instrument. transitivity (reading_target instrument risk lots entry best worst strategy side coid regime (is_True jp)
    (is_True jt) (is_True jb) z sl h).
  - apply reading_of. split; try (apply dec_read_restored; reflexivity); try reflexivity.
    + intros dflt _. unfold meta_or. rewrite !(meta_get_Some _ _ _ (MInt z)) by reflexivity. cbn [mval_true].
      now destruct (Z.eqb_spec z 0) as [->|].
    + destruct sl as [d|]; [|reflexivity]. cbv zeta. rewrite !(meta_get_Some _ _ _ (MDec d)) by reflexivity. cbn [mval_true].
      now destruct (is_zero d).
    + unfold meta_or. rewrite !(meta_get_Some _ _ _ (MInt h)) by reflexivity. cbn [mval_true].
      now destruct (Z.eqb_spec h 0) as [->|].
  - symmetry. apply reading_of. now split.
Qed.

(** ** The whole file *)

Section Restore.
Context {W : Type} `{!Desk W}.
Implicit Types s : AgentState W.

(** A run that returns, step by step. *)
Lemma run_bind {A B} (c : AM (W := W) A) (k : A -> AM (W := W) B) s s1 a r :
  c s = (s1, Ok a) -> k a s1 = r -> (let! x := c in k x) s = r.
Proof. unfold mbind_. now intros ->. Qed.

Lemma change_run f s : change f s = (with_durable f s, Ok tt).
Proof. reflexivity. Qed.

Lemma restore_dec_run fields key setter d s :
  dict_get key fields = Some (json_decimal d) ->
  restore_dec (JObj fields) key setter s = (with_durable (setter (fun _ => d)) s, Ok tt).
Proof. intros E. unfold restore_dec, mbind_, lift, json_get. rewrite E. cbn [rbind json_dec json_decimal]. now rewrite dec_str_of_decimal. Qed.

Lemma restore_int_run fields key setter z s :
  dict_get key fields = Some (JInt z) ->
  restore_int (JObj fields) key setter s = (with_durable (setter (fun _ => z)) s, Ok tt).
Proof. intros E. unfold restore_int, mbind_, lift, json_get. now rewrite E. Qed.

Lemma restore_texts_run fields key wrong setter ts s :
  dict_get key fields = Some (json_texts ts) ->
  restore_texts (JObj fields) key wrong setter s = (with_durable (setter (fun _ => ts)) s, Ok tt).
Proof.
  intros E. unfold restore_texts, mbind_, lift, json_get. rewrite E.
  assert (Em : map (fun kv => (kv.1, json_str kv.2)) (map (fun kv => (kv.1, JStr kv.2)) ts) = ts).
  { rewrite map_map. cbn. rewrite <- (map_id ts) at 2. apply map_ext. now intros [k v]. }
  unfold json_or, json_texts. destruct ts as [|t ts]; [reflexivity|]. cbn [truthy map]. cbn [map] in Em. now rewrite Em.
Qed.

Lemma restore_marks_run ms : forall s,
  (length (du_marks (ag_durable s)) + length ms <= EQUITY_MARK_WINDOW)%nat ->
  each restore_mark (map (fun m => JList [JInt m.1; json_decimal m.2]) ms) s
  = (with_durable (set_marks (fun old => old ++ ms)) s, Ok tt).
Proof.
  induction ms as [|[t e] ms IH]; intros s Hl; cbn [map each].
  - unfold with_durable, set_marks. rewrite app_nil_r. now destruct s as [? [] ? ? ? ? ? ? ? ? ? ? ? ? ? ? ?].
  - cbn [length] in Hl.
    assert (Hlast : lastn EQUITY_MARK_WINDOW (du_marks (ag_durable s) ++ [(t, e)]) = du_marks (ag_durable s) ++ [(t, e)]).
    { unfold lastn. rewrite length_app. cbn [length]. now replace (_ - _)%nat with 0%nat by lia. }
    eapply (run_bind _ _ s (with_durable (set_marks (fun old => old ++ [(t, e)])) s) tt).
    + unfold restore_mark, json_at. cbn [lookup list_lookup rbind json_int int_of_json fst snd json_dec json_decimal].
      rewrite dec_str_of_decimal. cbn [rbind]. rewrite change_run. unfold with_durable, set_marks. now rewrite Hlast.
    + rewrite IH; [|cbn; rewrite length_app; cbn [length]; lia].
      unfold with_durable, set_marks. cbn. now rewrite <- app_assoc.
Qed.

(** The metadata after a restart, and that it reads the same. *)
Definition renewed (e : string * Meta) : string * Meta :=
  (e.1, match meta_of_json (json_meta e.2) with Ok m' => m' | Raise _ => [] end).

Lemma renewed_reads e i : meta_readable e.2 = true -> reading i (renewed e).2 = reading i e.2.
Proof. intros (m' & E & R)%meta_restored. unfold renewed. rewrite E. apply R. Qed.

Lemma restore_metas_run ms : forall s,
  forallb (fun e : string * Meta => meta_readable e.2) ms = true -> NoDup (map fst (du_meta (ag_durable s) ++ ms)) ->
  each restore_meta (map (fun kv => (kv.1, json_meta kv.2)) ms) s
  = (with_durable (set_meta (fun old => old ++ map renewed ms)) s, Ok tt).
Proof.
  induction ms as [|[k m] ms IH]; intros s Hr Hnd; cbn [map each].
  - unfold with_durable, set_meta. rewrite app_nil_r. now destruct s as [? [] ? ? ? ? ? ? ? ? ? ? ? ? ? ? ?].
  - cbn [forallb fst snd] in Hr. apply andb_true_iff in Hr as [Hm Hr].
    destruct (meta_restored m Hm) as (m' & Em & Rm).
    assert (Er : renewed (k, m) = (k, m')) by (unfold renewed; cbn [fst snd]; now rewrite Em).
    assert (Hset : dict_set k m' (du_meta (ag_durable s)) = du_meta (ag_durable s) ++ [(k, m')]).
    { apply dict_set_new. rewrite map_app in Hnd. apply NoDup_app in Hnd as (_ & Hd & _). intros Hin. apply (Hd k Hin). now left. }
    eapply (run_bind _ _ s (with_durable (set_meta (fun old => old ++ [(k, m')])) s) tt).
    + unfold restore_meta. cbn [fst snd]. eapply run_bind; [unfold lift; now rewrite Em|].
      rewrite change_run. unfold with_durable, set_meta. now rewrite Hset.
    + rewrite IH; [|exact Hr|cbn; rewrite <- app_assoc, map_app; rewrite map_app in Hnd; exact Hnd].
      rewrite Er. unfold with_durable, set_meta. cbn. now rewrite <- app_assoc.
Qed.

(** The other fields. *)
Lemma restore_key_run fields key setter o s :
  dict_get key fields = Some (json_opt_int o) ->
  (let! j := lift (json_get (JObj fields) key JNull) in assign setter (int_key j)) s
  = (with_durable (setter (fun _ => o)) s, Ok tt).
Proof. intros E. unfold mbind_, lift, json_get. rewrite E. now destruct o. Qed.

Lemma restore_pair_run fields key setter o s :
  dict_get key fields = Some (json_key o) ->
  (let! j := lift (json_get (JObj fields) key JNull) in
   let! _ := lift (json_iter (json_or j (JList []))) in assign setter (pair_key j)) s
  = (with_durable (setter (fun _ => o)) s, Ok tt).
Proof. intros E. unfold mbind_, lift, json_get. rewrite E. now destruct o as [[a b]|]. Qed.

Lemma restore_halt_run fields h reason s :
  dict_get "halted" fields = Some (JBool h) -> dict_get "halt_reason" fields = Some (JStr reason) ->
  restore_halt (JObj fields) s
  = (if h then with_durable (fun d => set_halt_reason (fun _ => reason) (set_halted (fun _ => true) d)) s else s, Ok tt).
Proof. intros E1 E2. unfold restore_halt, mbind_, lift, json_get. rewrite E1, E2. now destruct h. Qed.

Lemma restore_cursor_run fields c s :
  dict_get "trade_cursor" fields = Some (JStr c) ->
  (let! j := lift (json_get (JObj fields) "trade_cursor" JNull) in assign set_cursor (json_str (json_or j (JStr "")))) s
  = (with_durable (set_cursor (fun _ => c)) s, Ok tt).
Proof.
  intros E. unfold mbind_, lift, json_get. rewrite E. unfold json_or. cbn [truthy].
  case_bool_decide as Hc; [now subst c|reflexivity].
Qed.

(** A list, or an object, the program may leave empty. *)
Lemma restore_list_run {A B} fields key (f : A -> json) xs (k : list json -> AM (W := W) B) s :
  dict_get key fields = Some (JList (map f xs)) ->
  (let! j := lift (json_get (JObj fields) key JNull) in
   let! rows := lift (json_iter (json_or j (JList []))) in k rows) s = k (map f xs) s.
Proof. intros E. unfold mbind_, lift, json_get. rewrite E. now destruct xs. Qed.
Lemma restore_items_run {A B} fields key (f : A -> string * json) xs (k : list (string * json) -> AM (W := W) B) s :
  dict_get key fields = Some (JObj (map f xs)) ->
  (let! j := lift (json_get (JObj fields) key JNull) in
   let! rows := lift (json_items (json_or j (JObj []))) in k rows) s = k (map f xs) s.
Proof. intros E. unfold mbind_, lift, json_get. rewrite E. now destruct xs. Qed.
End Restore.

(** What a restart knows: the metadata as it reads, the processed trades the
    file keeps, and the reason of a halt only. *)
Definition restored (d : Durable) : Durable :=
  set_meta (map renewed) (set_processed (lastn 5000)
    (set_halt_reason (fun r => if du_halted d then r else "") d)).

(** What [_save_state] can be trusted with. *)
Definition savable (d : Durable) : bool :=
  bool_decide (NoDup (map fst (du_meta d))) && forallb (fun e : string * Meta => meta_readable e.2) (du_meta d)
  && Nat.leb (length (du_marks d)) EQUITY_MARK_WINDOW.

Section Theorems.
Context {W : Type} `{!Desk W}.
Implicit Types s : AgentState W.

Lemma restore_payload d saved s :
  savable d = true -> ag_durable s = fresh_durable ->
  restore (payload d saved) s = (with_durable (fun _ => restored d) s, Ok tt).
Proof.
  unfold savable. intros [[Hnd%bool_decide_eq_true Hr]%andb_true_iff Hm%Nat.leb_le]%andb_true_iff Hf.
  unfold payload, restore. set (fields := _ :: _).
  eapply run_bind; [now apply restore_dec_run|].
  eapply run_bind; [now apply restore_dec_run|].
  eapply run_bind; [reflexivity|].
  eapply run_bind; [reflexivity|].
  eapply run_bind.
  { unfold restore_periods. do 3 (eapply run_bind; [now apply restore_dec_run|]).
    eapply run_bind; [now apply restore_key_run|]. do 2 (eapply run_bind; [now apply restore_pair_run|]).
    eapply run_bind; [now apply restore_key_run|]. do 3 (eapply run_bind; [now apply restore_int_run|]).
    now apply restore_key_run. }
  eapply run_bind; [now apply restore_halt_run|].
  eapply run_bind; [now apply restore_texts_run|].
  eapply run_bind.
  { etransitivity; [exact (restore_list_run fields "processed_trades" JStr (lastn 5000 (du_processed d)) _ _ eq_refl)|].
    rewrite map_map. unfold assign. rewrite map_id. apply change_run. }
  eapply run_bind; [reflexivity|].
  eapply run_bind.
  { etransitivity; [exact (restore_list_run fields "equity_marks" _ (du_marks d) _ _ eq_refl)|]. apply restore_marks_run. exact Hm. }
  eapply run_bind; [now apply restore_cursor_run|].
  eapply run_bind.
  { etransitivity; [exact (restore_items_run fields "position_meta" _ (du_meta d) _ _ eq_refl)|]. apply restore_metas_run; [exact Hr|].
    cbn. destruct (du_halted d); cbn; rewrite Hf; exact Hnd. }
  etransitivity; [now apply restore_texts_run|].
  clear Hnd Hr Hm. f_equal. destruct s as [o d0 ? ? ? ? ? ? ? ? ? ? ? ? ? ? ?]. cbn in Hf. subst d0 fields.
  unfold restored, assign. generalize renewed (lastn (A := string) 5000). intros R L.
  destruct d as [? ? ? ? ? ? ? ? ? ? ? ? ? ? ? h ? ? ? ? ? ? ?]. destruct h; vm_compute; reflexivity.
Qed.

(** C7: a restart restores what must not be forgotten: from the file that
    [_save_state] wrote, a fresh agent reads every budget, counter and peak, the
    halt with its reason, the marks, the suspensions, and for every position a
    metadata that reads the same, so the local book is the one that was saved. *)
Theorem restart_restores (d : Durable) (saved : Z) s
    (Hd : savable d = true) (Hs : ag_durable s = fresh_durable) :
  let r := restore (payload d saved) s in
  r.2 = Ok tt
  /\ ag_durable r.1 = restored d
  /\ counts (ag_durable r.1) = counts d
  /\ Forall2 (fun e e' => e'.1 = e.1 /\ reading e.1 e'.2 = reading e.1 e.2) (du_meta d) (du_meta (ag_durable r.1))
  /\ local_book (du_meta (ag_durable r.1)) = local_book (du_meta d).
Proof.
  cbv zeta. rewrite (restore_payload d saved s Hd Hs). cbn [fst snd with_durable ag_durable].
  split; [reflexivity|]. split; [reflexivity|]. split; [now destruct d|].
  assert (Em : du_meta (restored d) = map renewed (du_meta d)) by now destruct d. rewrite Em.
  unfold savable in Hd. apply andb_true_iff in Hd as [[_ Hr]%andb_true_iff _].
  clear Em. induction (du_meta d) as [|[k m] ms IH]; [split; [constructor|reflexivity]|].
  cbn [forallb] in Hr. apply andb_true_iff in Hr as [Hm Hr]. destruct (IH Hr) as [IH1 IH2]. cbn [map].
  pose proof (renewed_reads (k, m) k Hm) as R. cbn [snd] in R.
  split; [constructor; [now split|exact IH1]|].
  apply (f_equal re_book) in R. cbn [re_book reading] in R.
  unfold local_book in *. cbn [omap list_omap]. change (renewed (k, m)) with (k, (renewed (k, m)).2). now rewrite R, IH2.
Qed.
End Theorems.

(** The agent of [autonomous_cycle_opens], as it was saved. *)
Definition saved_agent : AgentState Floor :=
  (cycle floor_config (new_agent AUTONOMOUS (floor Fills Absent Absent))).1.

Lemma restart_restores_witness :
  savable (ag_durable saved_agent) = true
  /\ counts (ag_durable (restore (payload (ag_durable saved_agent) 7)
                           (new_agent AUTONOMOUS (floor Fills Absent Absent))).1) = (1, 1, 1)%Z
  /\ (restore (payload (ag_durable saved_agent) 7) (new_agent AUTONOMOUS (floor Fills Absent Absent))).2 = Ok tt.
Proof.
  assert (Hd : savable (ag_durable saved_agent) = true) by (vm_compute; reflexivity).
  destruct (restart_restores (ag_durable saved_agent) 7 (new_agent AUTONOMOUS (floor Fills Absent Absent)) Hd eq_refl)
    as (H1 & _ & H2 & _).
  split; [exact Hd|]. split; [|exact H1]. rewrite H2. vm_compute. reflexivity.
Defined.
