(* ===== verification/AgentProps.v ===== *)
(** What the agent guarantees, over every call its clients make: who may send an
    order and when ([halted_agent_is_silent], [kill_file_silences_agent],
    [mode_authority]), how many ([frequency_caps_hold]) and which
    ([book_is_vetted]); what the executor counts. *)

From Stdlib Require Import ZArith QArith Lia Lqa SpecFloat.
From stdpp Require Import base gmap strings list.
From S2P Require Import Prelude PyDecimal DecimalTheory PyFloat PyText Money Types Config Calendar Risk Protect.
From S2P Require Import StateExn PyDict PyJson Venue Deadman Oms OmsInv Reconcile Portfolio Ids Agent AgentDurable.
From S2P Require Import AgentManage AgentEntry AgentCycle AgentInv AgentPaths AgentDemo.

Local Open Scope dec_scope.
Local Open Scope py_scope.

(** Evaluate the tests on constants. *)
Ltac decide_constants :=
  repeat match goal with |- context [bool_decide (?a = ?b)] =>
    let v := eval vm_compute in (bool_decide (a = b)) in change (bool_decide (a = b)) with v end.

(** ** The calls of the agent's clients *)

Inductive AgentCall :=
| CallStart | CallStop | CallCycle
| CallAccept (id actor : string) | CallReject (id actor : string) | CallManual (tk : Ticket)
| CallHalt (reason : string) | CallResume (actor : string)
| CallMode (m : AgentMode) (actor : string) | CallReleaseGuard (strategy actor : string).

Section Calls.
Context {W : Type} `{!Desk W}.
Variable cfg : AgentConfig.

Definition run_agent (c : AgentCall) : AM (W := W) unit :=
  match c with
  | CallStart => start
  | CallStop => stop
  | CallCycle => cycle cfg ;! ret tt
  | CallAccept id actor => accept_advice cfg id actor ;! ret tt
  | CallReject id actor => reject_advice id actor ;! ret tt
  | CallManual tk => manual_order cfg tk ;! ret tt
  | CallHalt reason => halt reason
  | CallResume actor => resume actor ;! ret tt
  | CallMode m actor => set_mode cfg m actor
  | CallReleaseGuard strategy actor => release_guard strategy actor ;! ret tt
  end.

(** Whether a call can reach the executor. *)
Definition opens (c : AgentCall) : bool :=
  match c with CallCycle | CallAccept _ _ | CallManual _ => true | _ => false end.
End Calls.

(** ** Steps that send nothing *)

Section Hushed.
Context {W : Type} `{!Desk W}.
Variable cfg : AgentConfig.
Implicit Types s : AgentState W.

Lemma calm_hushed_steps {A} (c : AM A) : Steps (@calm W) c -> Steps (@hushed W) c.
Proof. intros H s. apply (H s). Qed.

Lemma hushed_change f :
  (forall d, du_halted d = true -> du_halted (f d) = true) -> Steps (@hushed W) (change f).
Proof. intros Hh s. split; cbn; auto. Qed.

Ltac hushed_leaf := first
  [ apply hushed_change; intros ? H; (exact H || reflexivity)
  | apply calm_hushed_steps; solve [calm] ].
Ltac hushed := agent_steps hushed_leaf.

Lemma hushed_roll t eq_ : Steps (@hushed W) (roll_periods t eq_).
Proof. unfold roll_periods, durable. hushed. Qed.

Lemma hushed_restore data : Steps (@hushed W) (restore data).
Proof.
  unfold restore, restore_periods, restore_halt, restore_dec, restore_int, restore_texts, restore_meta, restore_mark, assign.
  hushed.
Qed.

Lemma hushed_start : Steps (@hushed W) start.
Proof.
  pose proof hushed_restore. unfold start, load_state, unterminated_orders, replay_order. hushed; auto.
  apply hushed_change. intros d H'. unfold start_baselines. now match goal with |- context [if ?b then _ else _] => destruct b end.
Qed.
End Hushed.

(** ** What the executor does *)

Section Execute.
Context {W : Type} `{!Desk W}.
Variable cfg : AgentConfig.
Implicit Types s : AgentState W.

(** One more entry on every counter. *)
Definition counted (n : Z * Z * Z) : Z * Z * Z := let '(d, w, y) := n in (d + 1, w + 1, y + 1)%Z.

(** At most one order, the intent's, and nothing sent but it; a halt and the mode
    are kept. *)
Record executes intent s s' : Prop := {
  ex_submission : submission intent (ag_oms s) (ag_oms s');
  ex_halt : du_halted (ag_durable s) = true -> du_halted (ag_durable s') = true;
  ex_mode : ag_mode s' = ag_mode s
}.

Lemma stable_executes intent s : stable (executes intent s).
Proof.
  intros a b [[Hs Hb Hh Hm] _] [H1 H2 H3]. split; [|auto|congruence].
  unfold submission in *. now rewrite Hs, Hb.
Qed.

Lemma stable_counts n : stable (fun s => counts (ag_durable s) = n).
Proof. intros a b [_ Hc] E. exact (eq_trans Hc E). Qed.

(** The order manager settles the order; the agent's own state stays. *)
Lemma oms_submit_executes intent price s :
  let s' := (oms_submit cfg intent price s).1 in
  executes intent s s' /\ counts (ag_durable s') = counts (ag_durable s).
Proof.
  cbv zeta. unfold oms_submit.
  assert (H : forall (c : M (OmsState W) (option Order)), Steps (submission intent) c ->
    executes intent s (on_oms c s).1 /\ counts (ag_durable (on_oms c s).1) = counts (ag_durable s)).
  { intros c Hc. specialize (Hc (ag_oms s)). unfold on_oms. destruct (c (ag_oms s)) as [o r].
    split; [split; cbn; auto|reflexivity]. }
  apply H, submit_submission.
Qed.

Lemma count_entry_counts (P : AgentState W -> Prop) n s :
  (forall a b, hushed a b -> P a -> P b) -> P s -> counts (ag_durable s) = n ->
  wp count_entry (fun _ s' => P s' /\ counts (ag_durable s') = counted n)
    (fun _ s' => P s' /\ counts (ag_durable s') = counted n) s.
Proof.
  intros HP Hs En. unfold count_entry. unfold change at 1. do 2 wp_step.
  assert (HI : stable (fun s' => P s' /\ counts (ag_durable s') = counted n)).
  { apply stable_and; [intros a b [Hh _]; now apply HP|apply stable_counts]. }
  assert (Hi : P (with_durable (fun d => set_trades_year (fun n => n + 1)%Z (set_trades_week (fun n => n + 1)%Z
                     (set_trades_today (fun n => n + 1)%Z d))) s)
    /\ counts (ag_durable (with_durable (fun d => set_trades_year (fun n => n + 1)%Z (set_trades_week (fun n => n + 1)%Z
                     (set_trades_today (fun n => n + 1)%Z d))) s)) = counted n).
  { split; [apply (HP s); [split; cbn; auto|exact Hs]|]. unfold counts in *. cbn. now subst n. }
  apply (wp_calm _ (fun s' => P s' /\ counts (ag_durable s') = counted n)); [exact HI| |exact Hi]. calm.
Qed.

(** Calm steps, one count, calm steps. *)
Section Counting.
Variable P : AgentState W -> Prop.
Hypothesis P_hushed : forall a b, hushed a b -> P a -> P b.
Variable n : Z * Z * Z.

Definition counts_or_not (_ : exn) s : Prop :=
  P s /\ (counts (ag_durable s) = n \/ counts (ag_durable s) = counted n).

Lemma at_stable m : stable (fun s => P s /\ counts (ag_durable s) = m).
Proof. apply stable_and; [intros a b [Hh _]; now apply P_hushed|apply stable_counts]. Qed.

(** Calm steps where the counters are [n], or one more. *)
Lemma calm_at {A} (c : AM A) m (Q : A -> AgentState W -> Prop) s :
  m = n \/ m = counted n -> Steps calm c -> P s /\ counts (ag_durable s) = m ->
  (forall a s', P s' /\ counts (ag_durable s') = m -> Q a s') -> wp c Q counts_or_not s.
Proof.
  intros Hm Hc Hs HQ. eapply wp_mono; [exact (wp_calm c _ s (at_stable m) Hc Hs)|exact HQ|].
  cbn beta. intros e s' [H1 H2]. split; [exact H1|]. subst m. exact Hm.
Qed.

Lemma count_once s :
  P s /\ counts (ag_durable s) = n ->
  wp count_entry (fun _ s' => P s' /\ counts (ag_durable s') = counted n) counts_or_not s.
Proof.
  intros [H1 H2]. eapply wp_mono; [now apply (count_entry_counts P n)|auto|].
  cbn beta. intros e s' [H3 H4]. split; auto.
Qed.

Lemma calm_position_meta i m : Steps calm (set_position_meta (W := W) i m).
Proof. unfold set_position_meta. calm. Qed.

Lemma calm_record_entry intent horizon o : Steps calm (record_entry cfg intent horizon o).
Proof. pose proof calm_position_meta. unfold record_entry. calm; auto. Qed.

Lemma record_unknown_counts intent s :
  P s /\ counts (ag_durable s) = n ->
  wp (record_unknown intent) (fun _ s' => P s' /\ counts (ag_durable s') = counted n) counts_or_not s.
Proof.
  intros Hs. unfold record_unknown.
  apply wp_bind. eapply (calm_at _ n); [auto|calm|exact Hs|]. clear s Hs. intros t s Hs.
  apply wp_bind. eapply (calm_at _ n); [auto|calm|exact Hs|]. clear s Hs. intros g s Hs.
  apply wp_bind. eapply (calm_at _ n); [auto|apply calm_position_meta|exact Hs|]. clear s Hs. intros [] s Hs.
  apply wp_bind. eapply wp_mono; [apply count_once, Hs| |auto]. clear s Hs. intros [] s Hs.
  eapply (calm_at _ (counted n)); [auto|calm|exact Hs|auto].
Qed.

(** The counters move exactly when the order may be live at the venue. *)
Lemma record_order_effect intent horizon o d s :
  P s /\ counts (ag_durable s) = n ->
  wp (record_order cfg intent horizon o d)
     (fun d' s' => P s' /\ counts (ag_durable s') = if reached_venue d' then counted n else n) counts_or_not s.
Proof.
  intros Hs. unfold record_order. cbv zeta.
  pose proof calm_record_entry as Hrec.
  assert (Hlive : forall st a b, st = FILLED \/ st = PARTIAL \/ st = ACKED ->
    wp (count_entry ;! when b (record_entry cfg intent horizon o) ;! save_state ;!
        ret (de_set_action a (de_set_order_state st d)))
       (fun d' s' => P s' /\ counts (ag_durable s') = if reached_venue d' then counted n else n) counts_or_not s).
  { intros st a b Hst. apply wp_bind. eapply wp_mono; [apply count_once, Hs| |auto]. clear s Hs. intros [] s Hs.
    apply wp_bind. eapply (calm_at _ (counted n)); [auto|apply Steps_when; [typeclasses eauto|apply Hrec]|exact Hs|].
    clear s Hs. intros [] s Hs. apply wp_bind. eapply (calm_at _ (counted n)); [auto|calm|exact Hs|].
    clear s Hs. intros [] s Hs. apply wp_ret. now destruct Hst as [-> |[-> | ->]]. }
  destruct (o_state o) eqn:Est;
    decide_constants;
    cbn [executed is_acked orb when]; try (apply wp_bind, wp_ret; first [apply Hlive; tauto|apply wp_ret; exact Hs]).
  apply wp_bind. eapply wp_mono; [apply record_unknown_counts, Hs| |auto]. intros [] s' Hs'. now apply wp_ret.
Qed.
End Counting.

(** The counters moved by one entry or not at all. *)
Definition once s s' : Prop :=
  counts (ag_durable s') = counts (ag_durable s) \/ counts (ag_durable s') = counted (counts (ag_durable s)).

(** [_execute]: at most one order, counted exactly when it may be live. *)
Lemma execute_effect intent horizon d quote s :
  wp (execute cfg intent horizon d quote)
     (fun d' s' => (executes intent s s' /\ once s s')
                   /\ (reached_venue d = false -> counts (ag_durable s')
                       = if reached_venue d' then counted (counts (ag_durable s)) else counts (ag_durable s)))
     (fun _ s' => executes intent s s' /\ once s s') s.
Proof.
  unfold execute. apply wp_bind, wp_attempt.
  pose proof (oms_submit_executes intent (price_for quote (oi_side intent)) s) as [He Hc]. unfold wp at 1.
  destruct (oms_submit _ _ _ _) as [s1 [[o|]|e]]; cbn [fst] in He, Hc.
  - eapply wp_mono; [apply (record_order_effect (executes intent s)); [|split; [exact He|exact Hc]]| |].
    + intros a b [Hs Hb Hh Hm] [H1 H2 H3]. split; [|auto|congruence]. unfold submission in *. now rewrite Hs, Hb.
    + cbn beta. intros d' s' [H1 H2]. split; [split; [exact H1|]|auto]. unfold once. destruct (reached_venue d'); auto.
    + unfold counts_or_not, once. intros e s' [H1 H2]. auto.
  - apply wp_ret. split; [split; [exact He|now left]|]. now intros ->.
  - destruct e; first [apply wp_throw; split; [exact He|now left]|apply wp_ret; split; [split; [exact He|now left]|]; intros Hd].
    unfold reached_venue, de_add_veto in *. cbn. now rewrite Hd.
Qed.
End Execute.

(** ** Calls that do not open *)

Section Closed.
Context {W : Type} `{!Desk W}.
Variable cfg : AgentConfig.
Implicit Types s : AgentState W.

(** Nothing sent, no order added. *)
Definition silent s s' : Prop :=
  sends (ag_oms s') = sends (ag_oms s) /\ book (ag_oms s') = book (ag_oms s).
#[export] Instance silent_preorder : PreOrder silent.
Proof. split; [intros s; now split|intros a b c [] []; split; congruence]. Qed.

(** And the counters kept. *)
Definition settled s s' : Prop := silent s s' /\ counts (ag_durable s') = counts (ag_durable s).
#[export] Instance settled_preorder : PreOrder settled.
Proof. split; [intros s; now split|intros a b c [] []; split; [now transitivity b|congruence]]. Qed.

Lemma silent_after s a b : hushed a b -> silent s a -> silent s b.
Proof. intros [Hs Hb _ _] [H1 H2]. split; congruence. Qed.
Lemma stable_silent s : stable (silent s).
Proof. intros a b [Hh _]. now apply silent_after. Qed.
Lemma silent_hushed {A} (c : AM A) : Steps hushed c -> Steps silent c.
Proof. intros H s. destruct (H s). now split. Qed.
Lemma settled_calm {A} (c : AM A) : Steps calm c -> Steps settled c.
Proof. intros H s. destruct (H s) as [[] ?]. now repeat split. Qed.

Ltac settled := agent_steps ltac:(first
  [ apply settled_calm; solve [calm] | apply Steps_modify; intros ?; repeat split ]).

Lemma settled_closed c : opens c = false -> c <> CallStart -> Steps settled (run_agent cfg c).
Proof.
  intros Ho Hs. destruct c; try discriminate; try (now destruct Hs); cbn [run_agent];
    unfold stop, reject_advice, find_advice, resume, set_mode, release_guard, durable, assign, change; settled.
Qed.

Lemma silent_closed c : opens c = false -> Steps silent (run_agent cfg c).
Proof.
  intros Ho. destruct c; try discriminate Ho; [apply silent_hushed, hushed_start|..];
    intros s; refine (proj1 (settled_closed _ Ho _ s)); discriminate.
Qed.

Definition halted s : Prop := du_halted (ag_durable s) = true.

Lemma stable_halted : stable halted.
Proof. intros a b [[_ _ Hh _] _]. exact Hh. Qed.

Lemma halt_closed c :
  opens c = false -> (forall actor, c <> CallResume actor) -> Steps (keeps halted) (run_agent cfg c).
Proof.
  intros Ho Hr. destruct c; try discriminate; cbn [run_agent].
  - intros s Hs. exact (hu_halt _ _ (hushed_start s) Hs).
  - apply stable_keeps; [exact stable_halted|]. unfold stop. calm.
  - apply stable_keeps; [exact stable_halted|]. unfold reject_advice, find_advice. calm.
  - apply stable_keeps; [exact stable_halted|]. calm.
  - now destruct (Hr actor).
  - unfold set_mode. agent_steps ltac:(apply Steps_modify; intros s Hs; exact Hs).
  - apply stable_keeps; [exact stable_halted|]. unfold release_guard, durable. calm.
Qed.
End Closed.

(** ** What vetting gives *)

Section Vetting.
Context {W : Type} `{!Desk W}.
Variables (risk : RiskConfig) (ctx : RiskContext) (intent : OrderIntent).
Hypothesis V : vetted (W := W) risk ctx intent.

Lemma vetted_open : ctx_kill_switch ctx = false /\ ctx_halted ctx = false.
Proof.
  destruct V. destruct (approved_inv _ _ _ _ Heval Happ) as (? & ? & ? & ? & ? & ? & ? & ? & ? & ? & A).
  destruct A. now destruct (absolute_stops_nil _ _ ap_stops) as (K1 & K2 & _).
Qed.

(** Every counter is below its cap. *)
Definition below (cap n : Z) : Prop := (n <= Z.max 0 cap)%Z.

Lemma vetted_counts :
  let '(d, w, y) := counted (ctx_trades_today ctx, ctx_trades_this_week ctx, ctx_trades_this_year ctx) in
  (d <= rc_max_trades_per_day risk /\ w <= rc_max_trades_per_week risk /\ y <= rc_max_trades_per_year risk)%Z.
Proof.
  destruct V. destruct (approved_inv _ _ _ _ Heval Happ) as (? & ? & ? & ? & ? & ? & ? & ? & ? & ? & A).
  destruct A. unfold frequency_gates in ap_frequency. rewrite !app_nil_iff, !veto_when_nil in ap_frequency.
  cbn. lia.
Qed.

(** The trade of an approved draft: shrunk, in the lots of the venue's instrument, and
    otherwise the same. *)
Definition approved_intent : Prop :=
  exists draft inst v scale,
    evaluate_entry risk draft ctx = Ok v /\ rd_approved v = true /\ offered (W := W) (oi_instrument intent) inst
    /\ (oi_client_order_id intent, oi_instrument intent, oi_side intent, oi_stop_loss intent, oi_take_profit intent)
       = (oi_client_order_id draft, oi_instrument draft, oi_side draft, oi_stop_loss draft, oi_take_profit draft)
    /\ (dval scale <= 1)%Q
    /\ round_lots_down inst (rd_approved_lots v * scale)%dec = Ok (oi_lots intent)
    /\ (dval (inst_min_lot inst) <= dval (oi_lots intent))%Q
    /\ oi_risk_amount intent = (rd_risk_amount v * scale)%dec.

Lemma vetted_approved : approved_intent.
Proof.
  unfold approved_intent. destruct V. exists draft, inst, v, scale. split; [exact Heval|]. split; [exact Happ|]. split; [exact Hinst|]. split; [reflexivity|].
  split; [exact (dec_float_le_one _ _ Hunit Hscale)|]. split; [exact Hlots|]. split; [|reflexivity].
  now apply dltb_false.
Qed.
End Vetting.

(** ** Theorems *)

Section Theorems.
Context {W : Type} `{!Desk W}.
Variable cfg : AgentConfig.
Implicit Types s : AgentState W.

(** What an opening call keeps, from what its one sending step keeps. *)
Lemma opening_call_keeps (P : AgentState W -> Prop) (linked : RiskContext -> AgentState W -> Prop) c :
  stable P -> (forall ctx, stable (linked ctx)) ->
  (forall t a ps snap con h corr bl s, account_stated (W := W) a -> positions_stated (W := W) ps -> P s ->
     wp (build_context cfg t a ps snap con h corr bl) (fun ctx s' => P s' /\ linked ctx s') (fun _ => P) s) ->
  (forall ctx s, linked ctx s -> linked (with_manual_lifecycle ctx) s) ->
  (forall t eq_, Steps (keeps P) (roll_periods t eq_)) ->
  (forall ctx intent horizon d quote s, P s -> linked ctx s -> vetted (ac_risk cfg) ctx intent ->
     wp (execute cfg intent horizon d quote)
        (fun d' s' => P s' /\ (reached_venue d = false -> reached_venue d' = false -> linked ctx s')) (fun _ => P) s) ->
  opens c = true -> Steps (keeps P) (run_agent cfg c).
Proof.
  intros HP HL0 HB0 HM0 HR HE0 Ho. set (linked' := fun ctx s => linked ctx s /\ offers (W := W) ctx).
  assert (HL : forall ctx, stable (linked' ctx)) by (intros ctx a b Hc [H1 H2]; split; [exact (HL0 ctx a b Hc H1)|exact H2]).
  assert (HB : forall t a ps snap con h corr bl s, account_stated (W := W) a -> positions_stated (W := W) ps -> P s ->
     wp (build_context cfg t a ps snap con h corr bl) (fun ctx s' => P s' /\ linked' ctx s') (fun _ => P) s).
  { intros t a ps snap con h corr bl s Ha Hps Hs. pose proof (build_context_offers cfg t a ps snap con h corr bl s) as Hof.
    specialize (HB0 t a ps snap con h corr bl s Ha Hps Hs). unfold wp in *. destruct (build_context _ _ _ _ _ _ _ _ _ s) as [s1 [ctx|e]]; [|exact HB0].
    split; [apply HB0|]. split; [apply HB0|exact (Hof _ _ eq_refl)]. }
  assert (HM : forall ctx s, linked' ctx s -> linked' (with_manual_lifecycle ctx) s) by (intros ctx s [H1 H2]; split; [now apply HM0|exact H2]).
  assert (HE : forall ctx intent horizon d quote s, P s -> linked' ctx s -> vetted (ac_risk cfg) ctx intent ->
     wp (execute cfg intent horizon d quote)
        (fun d' s' => P s' /\ (reached_venue d = false -> reached_venue d' = false -> linked' ctx s')) (fun _ => P) s).
  { intros ctx intent horizon d quote s Hs [Hl Hof] Hv. eapply wp_mono; [now apply (HE0 ctx)| |auto].
    intros d' s' [H1 H2]. split; [exact H1|]. intros Hd Hd'. split; auto. }
  assert (HO : forall ctx s, linked' ctx s -> offers (W := W) ctx) by (intros ctx s [_ H]; exact H).
  clearbody linked'. clear HL0 HB0 HM0 HE0.
  assert (HE' : forall ctx intent horizon d quote s, P s -> linked' ctx s -> vetted (ac_risk cfg) ctx intent ->
    wp (execute cfg intent horizon d quote) (fun _ => P) (fun _ => P) s).
  { intros. eapply wp_mono; [now apply (HE ctx)| |auto]. now intros d' s' [H' _]. }
  assert (Hret : forall A (k : AM A), Steps (keeps P) k -> Steps (keeps P) (k ;! ret tt)).
  { intros A k Hk. apply Steps_bind; [typeclasses eauto|exact Hk|]. intros ?. apply Steps_ret. typeclasses eauto. }
  destruct c; try discriminate Ho; cbn [run_agent]; apply Hret.
  - apply (cycle_keeps cfg P linked' HP HL HO HB); [|exact HR].
    intros ctx intent horizon d quote s Hs Hl Hv Hd. unfold dispatch. do 2 wp_step.
    pose proof (before_stable P linked' HP HL ctx) as HI.
    assert (Hcalm : forall (k : AM Decision), Steps calm k -> Returns (fun d' => reached_venue d' = false) k ->
      wp k (after P linked' ctx) (fun _ => P) s).
    { intros k Hk Hr. specialize (Hk s). specialize (Hr s). unfold wp. destruct (k s) as [s' [d'|e]]; cbn in *.
      - split; [exact (HP _ _ Hk Hs)|intros _; exact (HL ctx _ _ Hk Hl)].
      - exact (HP _ _ Hk Hs). }
    assert (Hexec : wp (execute cfg intent horizon d quote) (after P linked' ctx) (fun _ => P) s).
    { eapply wp_mono; [now apply (HE ctx)| |auto]. intros d' s' [H1 H2]. split; auto. }
    destruct (ag_mode s); [|destruct (_ || _); [|exact Hexec]..];
      (apply Hcalm; [calm|repeat returns_step; exact Hd]).
  - now apply (accept_advice_keeps cfg P linked').
  - now apply (manual_order_keeps cfg P linked').
Qed.

(** C3: a halted agent opens nothing: no call, human acceptance and manual tickets
    included, sends an order or adds one to the book, and nothing but [resume]
    clears the halt; a restart does not. *)
Theorem halted_agent_is_silent (c : AgentCall) s (Hh : du_halted (ag_durable s) = true) :
  let s' := (run_agent cfg c s).1 in
  sends (ag_oms s') = sends (ag_oms s) /\ book (ag_oms s') = book (ag_oms s)
  /\ ((forall actor, c <> CallResume actor) -> du_halted (ag_durable s') = true).
Proof.
  cbv zeta. destruct (opens c) eqn:Ho.
  2:{ destruct (silent_closed cfg c Ho s) as [H1 H2]. repeat split; auto. intros Hr. now apply (halt_closed cfg c Ho Hr). }
  set (P := fun s' => silent s s' /\ halted s').
  enough (K : P (run_agent cfg c s).1) by (destruct K as [[] ?]; auto).
  assert (SP : stable P) by (apply stable_and; [apply stable_silent|exact stable_halted]).
  refine (opening_call_keeps P (fun ctx _ => ctx_halted ctx = true) c SP _ _ _ _ _ Ho s _).
  - intros ctx a b _ H. exact H.
  - intros t a ps snap con h corr bl s0 _ _ H0.
    eapply wp_mono; [apply (build_context_spec cfg t a ps snap con h corr bl P s0 SP H0)| |auto].
    cbn beta. intros ctx s1 ([H1 _] & _ & H2 & _). split; [exact H1|apply H2, H0].
  - auto.
  - intros t eq_ s0 [H1 H2]. pose proof (hushed_roll t eq_ s0) as Hr. split; [|exact (hu_halt _ _ Hr H2)].
    now apply (silent_after s s0).
  - intros ctx intent horizon d quote s0 _ Hl Hv. destruct (vetted_open _ _ _ Hv). congruence.
  - split; [reflexivity|exact Hh].
Qed.

Lemma kill_engaged_returns :
  (forall w, (d_kill_file w).2 <> Absent) -> Returns (fun k => k = true) (kill_engaged_now (W := W)).
Proof.
  intros Hk s s' k. unfold kill_engaged_now, mbind_, read, AgentDurable.ask, lift.
  specialize (Hk (oms_world (ag_oms s))). destruct (d_kill_file _) as [w f]. cbn in *.
  destruct f as [| | | |raw|data]; cbn [Deadman.read]; try (now destruct Hk); try discriminate; try (now intros [= _ <-]).
  destruct (json_get data "reason" _); [|discriminate]. cbn [rbind]. destruct (json_get data "engaged_at_ns" _); [|discriminate].
  cbn [rbind]. destruct (json_get data "engaged_by" _); [|discriminate]. cbn [rbind]. now intros [= _ <-].
Qed.

(** C8: while the kill file exists, readable or not, no call sends an order or
    adds one to the book: the cycle polls it, and a context built for a human
    path reads it again. *)
Theorem kill_file_silences_agent (c : AgentCall) s (Hk : forall w, (d_kill_file w).2 <> Absent) :
  let s' := (run_agent cfg c s).1 in
  sends (ag_oms s') = sends (ag_oms s) /\ book (ag_oms s') = book (ag_oms s).
Proof.
  cbv zeta. destruct (opens c) eqn:Ho; [|exact (silent_closed cfg c Ho s)].
  refine (opening_call_keeps (silent s) (fun ctx _ => ctx_kill_switch ctx = true) c (stable_silent s) _ _ _ _ _ Ho s _).
  - intros ctx a b _ H. exact H.
  - intros t a ps snap con h corr bl s0 _ _ H0.
    assert (HR : Returns (fun ctx => ctx_kill_switch ctx = true) (build_context cfg t a ps snap con h corr bl)).
    { unfold build_context. cbv zeta.
      repeat lazymatch goal with |- Returns _ (mbind_ kill_engaged_now _) => fail | _ => returns_step end.
      apply Returns_bind_of with (fun k => k = true); [now apply kill_engaged_returns|].
      intros k ->. now apply Returns_ret. }
    specialize (HR s0). pose proof (calm_build_context cfg t a ps snap con h corr bl s0) as Hc.
    unfold wp. destruct (build_context _ _ _ _ _ _ _ _ _ s0) as [s1 [ctx|e]]; cbn in *.
    + split; [exact (stable_silent s _ _ Hc H0)|exact (HR _ _ eq_refl)].
    + exact (stable_silent s _ _ Hc H0).
  - auto.
  - intros t eq_ s0 H1. exact (silent_after s _ _ (hushed_roll t eq_ s0) H1).
  - intros ctx intent horizon d quote s0 _ Hl Hv. destruct (vetted_open _ _ _ Hv). congruence.
  - split; reflexivity.
Qed.

(** What a mode may send by itself. *)
Definition may_send (m : AgentMode) (i : OrderIntent) : bool :=
  match m with AUTONOMOUS => true | SEMI_AUTO => within_envelope cfg i | OBSERVE | ADVISORY => false end.

(** The orders added since [s], with their sends. *)
Definition opened (ok : OrderIntent -> bool) s s' : Prop :=
  exists new ids, book (ag_oms s') = book (ag_oms s) ++ new
    /\ forallb (fun e => ok e.2) new = true
    /\ sends (ag_oms s') = sends (ag_oms s) ++ map Submitted ids
    /\ Forall (fun id => id ∈ map fst new) ids.

Lemma opened_silent ok s a b : silent a b -> opened ok s a -> opened ok s b.
Proof. intros [Hs Hb] (new & ids & H1 & H2 & H3 & H4). exists new, ids. repeat split; auto; congruence. Qed.

Lemma opened_executes ok s a b intent :
  ok intent = true -> opened ok s a -> executes intent a b -> opened ok s b.
Proof.
  intros Hok (new & ids & H1 & H2 & H3 & H4) [[[Hb Hs]|(n & Hb & Hs)] _ _].
  - exists new, ids. repeat split; auto; congruence.
  - exists (new ++ [(oi_client_order_id intent, intent)]), (ids ++ repeat (oi_client_order_id intent) n).
    rewrite Hb, Hs, H1, H3, <- !app_assoc, forallb_app, H2. cbn. rewrite Hok.
    repeat split; [now rewrite map_app, map_repeat|]. rewrite map_app. apply Forall_app. split.
    + apply (Forall_impl _ _ _ H4). intros id Hin. now apply elem_of_app; left.
    + apply Forall_forall. intros id Hin. apply elem_of_app. right. apply list_elem_of_In, repeat_spec in Hin.
      subst id. now left.
Qed.

(** C4: what a cycle may do by itself: an observing or advising agent sends
    nothing, a semi-automatic one only intents within its envelope, and every
    order sent is one the cycle added to the book; the mode does not change. *)
Theorem mode_authority s :
  let s' := (cycle cfg s).1 in
  ag_mode s' = ag_mode s /\ opened (may_send (ag_mode s)) s s'.
Proof.
  cbv zeta. set (ok := may_send (ag_mode s)). set (P := fun s' => ag_mode s' = ag_mode s /\ opened ok s s').
  assert (HP : forall a b, hushed a b -> P a -> P b).
  { intros a b [Hs Hb _ Hm] [H1 H2]. split; [congruence|]. apply (opened_silent ok s a); [now split|exact H2]. }
  assert (SP : stable P) by (intros a b [Hh _]; now apply HP).
  refine (cycle_keeps cfg P (fun ctx _ => offers ctx) SP _ _ _ _ _ s _).
  - intros ctx a b _ Hof. exact Hof.
  - intros ctx _ Hof. exact Hof.
  - intros t a ps snap con h corr bl s0 _ _ H0.
    pose proof (build_context_offers cfg t a ps snap con h corr bl s0) as Hof.
    pose proof (wp_calm _ P s0 SP (calm_build_context cfg t a ps snap con h corr bl) H0) as Hp. unfold wp in *.
    destruct (build_context _ _ _ _ _ _ _ _ _ s0) as [s1 [ctx|e]]; [split; [exact Hp|exact (Hof _ _ eq_refl)]|exact Hp].
  - intros ctx intent horizon d quote s0 H0 Hl Hv Hd. unfold dispatch. do 2 wp_step.
    assert (Hexec : ok intent = true ->
      wp (execute cfg intent horizon d quote) (after P (fun ctx _ => offers ctx) ctx) (fun _ => P) s0).
    { intros Hok. eapply wp_mono; [apply execute_effect| |].
      - cbn beta. intros d' s1 [[He _] _]. split; [|auto]. destruct H0 as [Hm Ho].
        split; [destruct He; congruence|]. exact (opened_executes ok s s0 s1 intent Hok Ho He).
      - cbn beta. intros e s1 [He _]. destruct H0 as [Hm Ho].
        split; [destruct He; congruence|]. exact (opened_executes ok s s0 s1 intent Hok Ho He). }
    assert (Hcalm : forall (k : AM Decision), Steps calm k -> wp k (after P (fun ctx _ => offers ctx) ctx) (fun _ => P) s0).
    { intros k Hk. eapply wp_mono; [exact (wp_calm k P s0 SP Hk H0)| |auto]. split; auto. }
    assert (Em : may_send (ag_mode s0) intent = ok intent) by (unfold ok; now rewrite (proj1 H0)).
    destruct (ag_mode s0); decide_constants; cbn [orb andb]; [apply Hcalm; calm|apply Hcalm; calm| |exact (Hexec (eq_sym Em))].
    cbn [may_send] in Em. destruct (within_envelope cfg intent); cbn [negb]; [exact (Hexec (eq_sym Em))|apply Hcalm; calm].
  - intros t eq_. intros s0 H0. exact (HP _ _ (hushed_roll t eq_ s0) H0).
  - split; [reflexivity|]. exists [], []. cbn. rewrite !app_nil_r. repeat split. constructor.
Qed.

(** The counters within the caps of the configuration. *)
Definition within_caps (n : Z * Z * Z) : bool :=
  let '(d, w, y) := n in
  let below cap k := (k <=? Z.max 0 cap)%Z in
  below (rc_max_trades_per_day (ac_risk cfg)) d && below (rc_max_trades_per_week (ac_risk cfg)) w
  && below (rc_max_trades_per_year (ac_risk cfg)) y.

Lemma within_caps_reset d w y (b1 b2 b3 : bool) :
  within_caps (d, w, y) = true ->
  within_caps (if b1 then 0%Z else d, if b2 then 0%Z else w, if b3 then 0%Z else y) = true.
Proof.
  cbn. rewrite !andb_true_iff, !Z.leb_le. destruct b1, b2, b3; lia.
Qed.

Lemma roll_periods_counts t eq_ :
  Steps (keeps (fun s => within_caps (counts (ag_durable s)) = true)) (roll_periods t eq_).
Proof.
  assert (SC : stable (fun s : AgentState W => within_caps (counts (ag_durable s)) = true)).
  { intros a b [_ Hc] H'. now rewrite Hc. }
  assert (Hset : forall f, (forall d, exists b1 b2 b3, counts (f d) =
      (if b1 : bool then 0%Z else du_trades_today d, if b2 : bool then 0%Z else du_trades_week d,
       if b3 : bool then 0%Z else du_trades_year d)) ->
    Steps (keeps (fun s : AgentState W => within_caps (counts (ag_durable s)) = true)) (change f)).
  { intros f Hf s0 H0. destruct (Hf (ag_durable s0)) as (b1 & b2 & b3 & E).
    change (within_caps (counts (f (ag_durable s0))) = true). rewrite E. now apply within_caps_reset. }
  unfold roll_periods, durable. agent_steps ltac:(apply stable_keeps; [exact SC|calm]);
    apply Hset; intros d; first [now exists true, false, false|now exists false, true, false|now exists false, false, true].
Qed.

Lemma call_capped (c : AgentCall) s (Hc : c <> CallStart) (Hs : within_caps (counts (ag_durable s)) = true) :
  within_caps (counts (ag_durable (run_agent cfg c s).1)) = true.
Proof.
  destruct (opens c) eqn:Ho.
  2:{ destruct (settled_closed cfg c Ho Hc s) as [_ E]. now rewrite E. }
  set (P := fun s : AgentState W => within_caps (counts (ag_durable s)) = true).
  assert (SP : stable P) by (intros a b [_ E] H'; unfold P in *; now rewrite E).
  refine (opening_call_keeps P (fun ctx s => ctx_counts ctx = counts (ag_durable s)) c SP _ _ _ _ _ Ho s Hs).
  - intros ctx a b [_ E] H'. congruence.
  - intros t a ps snap con h corr bl s0 _ _ H0.
    eapply wp_mono; [apply (build_context_spec cfg t a ps snap con h corr bl P s0 SP H0)| |auto].
    cbn beta. intros ctx s1 ([H1 _] & H2 & _). split; [exact H1|exact H2].
  - intros ctx s0 E. exact E.
  - intros t eq_. now apply roll_periods_counts.
  - intros ctx intent horizon d quote s0 H0 Hl Hv.
    assert (Hcap : within_caps (counted (counts (ag_durable s0))) = true).
    { pose proof (vetted_counts _ _ _ Hv) as V. rewrite <- Hl. cbn in *. rewrite !andb_true_iff, !Z.leb_le. lia. }
    eapply wp_mono; [apply execute_effect| |].
    + cbn beta. intros d' s1 [[_ Ho1] E]. split; [unfold P; now destruct Ho1 as [-> | ->]|].
      intros Hd Hd'. rewrite (E Hd), Hd'. exact Hl.
    + cbn beta. intros e s1 [_ Ho1]. unfold P. now destruct Ho1 as [-> | ->].
Qed.

(** The state after a sequence of calls. *)
Definition run_calls (cs : list AgentCall) s : AgentState W := fold_left (fun s c => (run_agent cfg c s).1) cs s.

(** The counters that a state file gives, where it can be read, are within the caps. *)
Definition file_count (data : json) (key : string) (cap : Z) : Prop :=
  forall n, (let* j := json_get data key (JInt 0) in json_int j) = Ok n -> (n <= Z.max 0 cap)%Z.
Definition file_within_caps (f : file) : Prop :=
  match f with
  | Json data => file_count data "trades_today" (rc_max_trades_per_day (ac_risk cfg)) /\
      file_count data "trades_week" (rc_max_trades_per_week (ac_risk cfg)) /\
      file_count data "trades_year" (rc_max_trades_per_year (ac_risk cfg))
  | _ => True
  end.

Local Abbreviation capped := (fun s => within_caps (counts (ag_durable s)) = true).
Lemma capped_stable : stable (W := W) capped.
Proof. intros a b [_ E] H'. now rewrite E. Qed.

(** An assignment of one counter. *)
Lemma restore_int_capped data key cap setter :
  (forall n d, within_caps (counts d) = true -> (n <= Z.max 0 cap)%Z -> within_caps (counts (setter (fun _ => n) d)) = true) ->
  file_count data key cap -> Steps (keeps capped) (restore_int data key setter).
Proof.
  intros Hset Hf s Hs. unfold restore_int, mbind_, lift. destruct (let* j := _ in _) as [n|e] eqn:E; [|exact Hs].
  cbn. apply Hset; [exact Hs|exact (Hf n E)].
Qed.

Lemma restore_capped data : file_within_caps (Json data) -> Steps (keeps capped) (restore data).
Proof.
  intros (H1 & H2 & H3).
  assert (S1 : Steps (keeps capped) (restore_int data "trades_today" set_trades_today)).
  { eapply restore_int_capped; [|exact H1]. intros n d. unfold within_caps, counts. cbn. rewrite !andb_true_iff, !Z.leb_le. lia. }
  assert (S2 : Steps (keeps capped) (restore_int data "trades_week" set_trades_week)).
  { eapply restore_int_capped; [|exact H2]. intros n d. unfold within_caps, counts. cbn. rewrite !andb_true_iff, !Z.leb_le. lia. }
  assert (S3 : Steps (keeps capped) (restore_int data "trades_year" set_trades_year)).
  { eapply restore_int_capped; [|exact H3]. intros n d. unfold within_caps, counts. cbn. rewrite !andb_true_iff, !Z.leb_le. lia. }
  unfold restore, restore_periods, restore_halt, restore_dec, restore_texts, restore_meta, restore_mark, assign.
  agent_steps ltac:(first [assumption|apply stable_keeps; [exact capped_stable|calm_leaf]]).
Qed.

Lemma start_capped : (forall w, file_within_caps (d_read_state (W := W) w).2) -> Steps (keeps capped) start.
Proof.
  intros Hf. assert (HL : Steps (keeps capped) load_state).
  { apply Steps_wp. intros s Hs. unfold load_state.
    assert (HR : Returns file_within_caps (read (d_read_state (W := W)))).
    { intros s0 s1 f. unfold read, AgentDurable.ask. specialize (Hf (oms_world (ag_oms s0))).
      destruct (d_read_state _) as [w f']. now intros [= _ <-]. }
    eapply wp_calm_returns; [exact capped_stable|solve [calm]|exact HR|exact Hs|clear s Hs; intros f s Hff Hs|auto].
    apply keeps_wp; [|exact Hs]. destruct f; try (apply stable_keeps; [exact capped_stable|solve [calm]]).
    apply Steps_bind; [typeclasses eauto|now apply restore_capped|]. intros _. apply stable_keeps; [exact capped_stable|calm]. }
  unfold start, unterminated_orders, replay_order.
  agent_steps ltac:(first [exact HL|apply stable_keeps; [exact capped_stable|calm_leaf]]).
  intros s Hs. unfold change, modify. cbn. unfold start_baselines. now match goal with |- context [if ?b then _ else _] => destruct b end.
Qed.

(** C5: the day's, week's and year's entries never exceed the configured caps.  Once
    within them, the counters stay within them through every sequence of calls, entries
    that may or may not have filled included, whatever the venue answers; a restart
    reads the counters from the state file, which is to hold counters within the caps. *)
Theorem frequency_caps_hold (cs : list AgentCall) s :
  within_caps (counts (ag_durable s)) = true ->
  (CallStart ∈ cs -> forall w, file_within_caps (d_read_state (W := W) w).2) ->
  within_caps (counts (ag_durable (run_calls cs s))) = true.
Proof.
  revert s. induction cs as [|c cs IH]; intros s Hs Hf; [exact Hs|]. cbn [run_calls fold_left]. apply IH; [|set_solver].
  assert (c = CallStart \/ c <> CallStart) as [->|Hc] by (destruct c; first [now left|now right]); [apply start_capped; [apply Hf; left|exact Hs]|now apply call_capped].
Qed.

(** [s'] is reached from [s] by a call that may open: orders are added, a halt and the
    mode stay. *)
Record follows s s' : Prop := mkFollows {
  fw_book : exists more, book (ag_oms s') = book (ag_oms s) ++ more;
  fw_halt : du_halted (ag_durable s) = true -> du_halted (ag_durable s') = true;
  fw_mode : ag_mode s' = ag_mode s
}.
#[export] Instance follows_preorder : PreOrder follows.
Proof.
  split; [intros s; split; [exists []; symmetry; apply app_nil_r|auto|auto]|].
  intros a b c [[l1 E1] H1 M1] [[l2 E2] H2 M2]. split; [exists (l1 ++ l2); now rewrite E2, E1, app_assoc|auto|congruence].
Qed.

Lemma follows_hushed a b : hushed a b -> follows a b.
Proof. intros [_ Hb Hh Hm]. split; auto. exists []. now rewrite app_nil_r. Qed.
Lemma follows_executes intent a b : executes intent a b -> follows a b.
Proof. intros [[[E _]|(n & E & _)] Hh Hm]; split; auto; rewrite E; [exists []; now rewrite app_nil_r|eauto]. Qed.

(** The agent built [ctx] from what the venue stated, and since then no entry was counted,
    so none that may be live at the venue was made; a ticket's context has its own
    lifecycle added. *)
Definition current_context (ctx : RiskContext) s : Prop :=
  exists ctx0 s0 s1, built cfg ctx0 s0 s1 /\ (ctx = ctx0 \/ ctx = with_manual_lifecycle ctx0) /\
    follows s1 s /\ counts (ag_durable s) = counts (ag_durable s1).

Lemma current_after ctx a b : follows a b -> counts (ag_durable b) = counts (ag_durable a) -> current_context ctx a -> current_context ctx b.
Proof.
  intros Hf Ec (ctx0 & s0 & s1 & Hb & Hc & Hs & E). exists ctx0, s0, s1. split; [exact Hb|]. split; [exact Hc|].
  split; [now transitivity a|congruence].
Qed.

Lemma manual_again ctx : with_manual_lifecycle (with_manual_lifecycle ctx) = with_manual_lifecycle ctx.
Proof. unfold with_manual_lifecycle. cbn. now rewrite insert_insert_eq. Qed.

(** Every order of the book is, under its own id, an intent the engine approved on a
    context that was current when the orders before it were the book. *)
Definition approved_book s : Prop :=
  forall before e after, book (ag_oms s) = before ++ e :: after ->
    e.1 = oi_client_order_id e.2 /\
    exists ctx at_, book (ag_oms at_) = before /\ current_context ctx at_ /\ approved_intent (W := W) (ac_risk cfg) ctx e.2.

Lemma approved_same a b : book (ag_oms b) = book (ag_oms a) -> approved_book a -> approved_book b.
Proof. unfold approved_book. now intros ->. Qed.

Lemma approved_executes ctx intent a b :
  approved_book a -> current_context ctx a -> vetted (W := W) (ac_risk cfg) ctx intent -> executes intent a b -> approved_book b.
Proof.
  intros Ha Hc Hv [[[E _]|(n & E & _)] _ _]; [now apply (approved_same a)|].
  intros before e after Eb. rewrite E in Eb. destruct after as [|x after] using rev_ind.
  - apply app_inj_tail in Eb as [<- <-]. split; [reflexivity|]. exists ctx, a. split; [reflexivity|]. split; [exact Hc|now apply vetted_approved].
  - clear IHafter. rewrite app_comm_cons, app_assoc in Eb. apply app_inj_tail in Eb as [Eb _]. now apply (Ha before e after).
Qed.

(** C6: every order of the book is the trade of a draft the risk engine approved on
    the context the agent built for it: built by [build_context] on an account and
    positions the venue stated, in a state whose book is a beginning of the orders
    before this one, no entry having been counted since; same instrument, side, stop
    and target, the approved size times a factor of at most one rounded down to the
    lots of an instrument the venue offers under that name, not below the minimum, and
    the approved risk times that factor.  Every call keeps it so, whatever the venue,
    the strategies and the files answer. *)
Theorem book_is_vetted (c : AgentCall) s (Hs : approved_book s) : approved_book (run_agent cfg c s).1.
Proof.
  destruct (opens c) eqn:Ho.
  2:{ destruct (silent_closed cfg c Ho s) as [_ E]. now apply (approved_same s). }
  assert (HP : forall a b, hushed a b -> approved_book a -> approved_book b).
  { intros a b [_ E _ _]. now apply approved_same. }
  assert (SP : stable approved_book) by (intros a b [Hh _]; now apply HP).
  refine (opening_call_keeps approved_book current_context c SP _ _ _ _ _ Ho s Hs).
  - intros ctx a b [Hh Hc]. apply current_after; [now apply follows_hushed|exact Hc].
  - intros t a ps snap con h corr bl s0 Ha Hps H0. pose proof (calm_build_context cfg t a ps snap con h corr bl s0) as Hc.
    unfold wp. destruct (build_context _ _ _ _ _ _ _ _ _ s0) as [s1 [ctx|e]] eqn:E; [|exact (SP _ _ Hc H0)].
    split; [exact (SP _ _ Hc H0)|]. exists ctx, s0, s1. split; [|split; [now left|split; reflexivity]].
    exists t, a, ps, snap, con, h, corr, bl. auto.
  - intros ctx s0 (ctx0 & a & b & Hb & Hc & Hf & E). exists ctx0, a, b. split; [exact Hb|]. split; [right|now split].
    destruct Hc as [-> | ->]; [reflexivity|apply manual_again].
  - intros t eq_ s0 H0. exact (HP _ _ (hushed_roll t eq_ s0) H0).
  - intros ctx intent horizon d quote s0 H0 Hl Hv. eapply wp_mono; [apply execute_effect| |]; cbn beta.
    + intros d' s1 [[He _] Hn]. split; [exact (approved_executes ctx intent s0 s1 H0 Hl Hv He)|]. intros Hd Hd'.
      specialize (Hn Hd). rewrite Hd' in Hn. exact (current_after ctx s0 s1 (follows_executes _ _ _ He) Hn Hl).
    + intros e s1 [He _]. exact (approved_executes ctx intent s0 s1 H0 Hl Hv He).
Qed.
End Theorems.

(** ** The theorems on the demo desk *)

Definition floor_ticket : Ticket := mkTicket "EUR_USD" "buy" 1.0950 None "desk" None false.

Lemma halted_agent_is_silent_witness :
  let s := agent_with halted_durable AUTONOMOUS (floor Fills Absent Absent) in
  let s' := (run_agent floor_config (CallManual floor_ticket) s).1 in
  du_halted (ag_durable s) = true /\ sends (ag_oms s') = [] /\ du_halted (ag_durable s') = true.
Proof.
  set (s := agent_with halted_durable AUTONOMOUS (floor Fills Absent Absent)). cbv zeta.
  destruct (halted_agent_is_silent floor_config (CallManual floor_ticket) s eq_refl) as (H1 & _ & H3).
  split; [reflexivity|]. split; [exact H1|]. apply H3. discriminate.
Defined.

(** The same ticket on an agent that is not halted does send. *)
Example ticket_sends :
  sends (ag_oms (run_agent floor_config (CallManual floor_ticket) (new_agent OBSERVE (floor Fills Absent Absent))).1)
  = [Submitted "SFX0123456789abcdef01234567"].
Proof. vm_compute. reflexivity. Qed.

(** The desk with a kill file that stays. *)
Definition killed_desk : Desk Floor := {|
  desk_venue := Floor_venue;
  d_now := d_now; d_instruments := d_instruments; d_conversion_rate := d_conversion_rate;
  d_close_position := d_close_position; d_min_stop_distance := d_min_stop_distance;
  d_closed_trades := d_closed_trades; d_snapshot := d_snapshot; d_probe := d_probe; d_connected := d_connected;
  d_health := d_health; d_kill_file w := (w, Blank); d_read_state := d_read_state; d_write_state := d_write_state;
  d_journal := d_journal; d_entry_gate := d_entry_gate; d_terminal_check := d_terminal_check;
  d_memory_caution := d_memory_caution; d_news := d_news; d_reference := d_reference; d_brain := d_brain;
  d_macro := d_macro; d_meta_gate := d_meta_gate; d_features := d_features; d_regime := d_regime;
  d_correlations := d_correlations; d_prepare := d_prepare; d_warmup := d_warmup; d_generate := d_generate;
  d_atr := d_atr; d_group := d_group; d_autopsy := d_autopsy; d_autopsy_count := d_autopsy_count;
  d_guard_verdict := d_guard_verdict; d_lessons := d_lessons; d_beat := d_beat; d_digest := d_digest
|}.

Lemma kill_file_silences_agent_witness :
  let s' := (@run_agent Floor killed_desk floor_config CallCycle (new_agent AUTONOMOUS (floor Fills Absent Absent))).1 in
  sends (ag_oms s') = [].
Proof.
  cbv zeta. apply (kill_file_silences_agent (Desk0 := killed_desk) floor_config CallCycle
    (new_agent AUTONOMOUS (floor Fills Absent Absent))). discriminate.
Defined.

(** The desk with a state file that holds two entries of the week. *)
Definition desk_with_file (f : file) : Desk Floor := {|
  desk_venue := Floor_venue;
  d_now := d_now; d_instruments := d_instruments; d_conversion_rate := d_conversion_rate;
  d_close_position := d_close_position; d_min_stop_distance := d_min_stop_distance;
  d_closed_trades := d_closed_trades; d_snapshot := d_snapshot; d_probe := d_probe; d_connected := d_connected;
  d_health := d_health; d_kill_file := d_kill_file; d_read_state w := (w, f); d_write_state := d_write_state;
  d_journal := d_journal; d_entry_gate := d_entry_gate; d_terminal_check := d_terminal_check;
  d_memory_caution := d_memory_caution; d_news := d_news; d_reference := d_reference; d_brain := d_brain;
  d_macro := d_macro; d_meta_gate := d_meta_gate; d_features := d_features; d_regime := d_regime;
  d_correlations := d_correlations; d_prepare := d_prepare; d_warmup := d_warmup; d_generate := d_generate;
  d_atr := d_atr; d_group := d_group; d_autopsy := d_autopsy; d_autopsy_count := d_autopsy_count;
  d_guard_verdict := d_guard_verdict; d_lessons := d_lessons; d_beat := d_beat; d_digest := d_digest
|}.
Definition counted_file : json := JObj [("trades_today", JInt 1); ("trades_week", JInt 2); ("trades_year", JInt 2)].

(** A start reads the file; the cycle that follows opens a position. *)
Lemma frequency_caps_hold_witness :
  let s := @run_calls Floor (desk_with_file (Json counted_file)) floor_config [CallStart; CallCycle]
             (new_agent AUTONOMOUS (floor Fills Absent Absent)) in
  within_caps floor_config (counts (ag_durable s)) = true /\ book (ag_oms s) <> [].
Proof.
  cbv zeta. split; [|vm_compute; discriminate].
  apply (frequency_caps_hold (Desk0 := desk_with_file (Json counted_file)) floor_config [CallStart; CallCycle]); [vm_compute; reflexivity|].
  intros _ w. repeat split; intros n [= <-]; vm_compute; discriminate.
Defined.

Lemma book_is_vetted_witness :
  let s' := (run_agent floor_config CallCycle (new_agent AUTONOMOUS (floor Fills Absent Absent))).1 in
  length (book (ag_oms s')) = 1%nat /\ approved_book floor_config s'.
Proof.
  cbv zeta. split; [vm_compute; reflexivity|].
  apply (book_is_vetted floor_config CallCycle). intros [|] e after; discriminate.
Defined.
