(* ===== verification/AgentFacts.v ===== *)
(** More of what the agent does, operation by operation: the window of equity
    marks, the report of a close, a submission the manager has seen before, the
    client order id, and the size of a vetted intent. *)

From Stdlib Require Import ZArith QArith Lia Lqa SpecFloat Ascii String Sorted.
From stdpp Require Import base gmap strings list.
From S2P Require Import Prelude PyDecimal DecimalTheory PyFloat PyText Money Types Config Calendar Risk Sizing.
From S2P Require Import Protect StateExn PyDict PyJson Venue Deadman Oms OmsInv Reconcile Portfolio Ids Agent.
From S2P Require Import AgentDurable AgentManage AgentEntry AgentCycle AgentInv AgentPaths AgentDemo AgentProps.

Local Open Scope dec_scope.
Local Open Scope py_scope.

(** ** The equity marks of the trailing day *)

Section Marks.

(** The bucket of a mark, and marks in strictly increasing buckets. *)
Definition bucket (m : Z * decimal) : Z := (m.1 / EQUITY_MARK_BUCKET_NS)%Z.
Definition in_buckets : list (Z * decimal) -> Prop := StronglySorted (fun a b => (bucket a < bucket b)%Z).

(** The marks no older than a day. *)
Definition within_day (now_ns : Z) (m : Z * decimal) : bool := (now_ns - DAY_NS <=? m.1)%Z.

Lemma bucket_time a b : (bucket a < bucket b -> a.1 < b.1)%Z.
Proof.
  unfold bucket, EQUITY_MARK_BUCKET_NS. intros H. destruct (Z.lt_ge_cases (a.1) (b.1)) as [E|E]; [exact E|].
  pose proof (Z.div_le_mono b.1 a.1 (300 * 1000000000)). lia.
Qed.

(** Marks [k] buckets apart are nearly [k] bucket lengths apart. *)
Lemma bucket_gap a b k : (bucket a + k <= bucket b -> a.1 + (k - 1) * EQUITY_MARK_BUCKET_NS < b.1)%Z.
Proof.
  unfold bucket. set (B := EQUITY_MARK_BUCKET_NS). assert (HB : (0 < B)%Z) by reflexivity. intros H.
  pose proof (Z.div_mod a.1 B ltac:(lia)). pose proof (Z.mod_pos_bound a.1 B HB).
  pose proof (Z.div_mod b.1 B ltac:(lia)). pose proof (Z.mod_pos_bound b.1 B HB). nia.
Qed.

(** Popping from the front is filtering, the marks being in order. *)
Lemma expire_filter c ms : in_buckets ms -> expire c ms = List.filter (fun m => (c <=? m.1)%Z) ms.
Proof.
  induction 1 as [|m ms Hs IH Hf]; [reflexivity|]. cbn [expire List.filter].
  rewrite Z.leb_antisym. destruct (m.1 <? c)%Z eqn:E; cbn [negb]; [exact IH|].
  f_equal. symmetry. apply forallb_filter_id, forallb_forall. intros x Hx.
  rewrite List.Forall_forall in Hf. apply Hf, bucket_time in Hx. apply Z.ltb_ge in E. apply Z.leb_le. lia.
Qed.

Lemma in_buckets_gap ms : in_buckets ms -> forall i x l,
  ms !! i = Some x -> last ms = Some l -> (bucket x + (Z.of_nat (length ms) - 1 - Z.of_nat i) <= bucket l)%Z.
Proof.
  induction 1 as [|m ms Hs IH Hf]; intros i x l Hi Hl; [discriminate|]. cbn [length].
  destruct ms as [|m' ms]; [cbn in Hl; injection Hl as <-; destruct i; [injection Hi as <-; cbn; lia|discriminate]|].
  assert (Hl' : last (m' :: ms) = Some l) by exact Hl. destruct i as [|i].
  - injection Hi as <-. specialize (IH 0%nat m' l eq_refl Hl'). inversion Hf as [|? ? H1 _]; subst. cbn [length] in *. lia.
  - specialize (IH i x l Hi Hl'). cbn [length] in *. lia.
Qed.

Lemma filter_nothing {A} (f : A -> bool) xs : (forall x, In x xs -> f x = false) -> List.filter f xs = [].
Proof.
  induction xs as [|x xs IH]; intros H; [reflexivity|]. cbn [List.filter]. rewrite H by now left.
  apply IH. intros y Hy. apply H. now right.
Qed.

(** The marks a full window drops are older than a day. *)
Lemma window_drops_old now_ns ms e :
  in_buckets (ms ++ [(now_ns, e)]) ->
  List.filter (within_day now_ns) (lastn EQUITY_MARK_WINDOW (ms ++ [(now_ns, e)]))
  = List.filter (within_day now_ns) (ms ++ [(now_ns, e)]).
Proof.
  intros Hs. set (all := ms ++ [(now_ns, e)]) in *. unfold lastn. set (k := (length all - EQUITY_MARK_WINDOW)%nat).
  transitivity (List.filter (within_day now_ns) (take k all ++ drop k all)); [|now rewrite take_drop].
  rewrite List.filter_app.
  enough (E : List.filter (within_day now_ns) (take k all) = []) by now rewrite E.
  apply filter_nothing. intros x Hx. apply list_elem_of_In, list_elem_of_lookup in Hx as [i Hi].
  apply lookup_take_Some in Hi as [Hi Hk].
  pose proof (in_buckets_gap all Hs i x (now_ns, e) Hi ltac:(unfold all; now rewrite last_snoc)) as G.
  unfold within_day. apply Z.leb_gt.
  assert (G' : (bucket x + 400 <= bucket (now_ns, e))%Z) by (unfold k, EQUITY_MARK_WINDOW in Hk; lia).
  apply bucket_gap in G'. cbn [fst] in G'. unfold DAY_NS, EQUITY_MARK_BUCKET_NS in *. lia.
Qed.

Lemma in_buckets_snoc ms m l :
  in_buckets ms -> last ms = Some l -> (bucket l < bucket m)%Z -> in_buckets (ms ++ [m]).
Proof.
  intros Hs Hl Hm. unfold in_buckets. induction Hs as [|x ms Hs IH Hf]; [discriminate|]. cbn [app].
  destruct ms as [|y ms].
  - cbn in Hl. injection Hl as ->. repeat constructor. exact Hm.
  - constructor; [now apply IH|]. apply Forall_app. split; [exact Hf|]. repeat constructor.
    pose proof (in_buckets_gap (y :: ms) Hs 0 y l eq_refl Hl) as G. inversion Hf as [|? ? H1 _]; subst. cbn [length] in G. lia.
Qed.

Lemma in_buckets_drop k ms : in_buckets ms -> in_buckets (drop k ms).
Proof.
  revert ms. induction k as [|k IH]; intros ms Hs; [exact Hs|]. destruct Hs as [|x ms Hs _]; [constructor|]. now apply IH.
Qed.

Lemma in_buckets_filter f ms : in_buckets ms -> in_buckets (List.filter f ms).
Proof.
  induction 1 as [|x ms Hs IH Hf]; [constructor|]. cbn [List.filter]. destruct (f x); [|exact IH].
  constructor; [exact IH|]. rewrite List.Forall_forall in *. intros y [Hy _]%filter_In. now apply Hf.
Qed.

(** The deque of equity marks is exactly the marks of the trailing day: with
    a clock that does not go back, the fixed window never drops one of them and
    nothing older survives; a mark is added per five-minute bucket, so there are
    never more than the window holds. *)
Theorem marks_are_the_trailing_day (now_ns : Z) (equity : decimal) (ms : list (Z * decimal))
    (Hs : in_buckets ms) (Hnow : Forall (fun m => (m.1 <= now_ns)%Z) ms) (Hl : (length ms <= EQUITY_MARK_WINDOW)%nat) :
  let fresh := match last ms with
               | Some m => if (now_ns / EQUITY_MARK_BUCKET_NS =? bucket m)%Z then [] else [(now_ns, equity)]
               | None => [(now_ns, equity)]
               end in
  let ms' := next_marks now_ns equity ms in
  ms' = List.filter (within_day now_ns) (ms ++ fresh)
  /\ in_buckets ms' /\ Forall (fun m => (m.1 <= now_ns)%Z) ms' /\ (length ms' <= EQUITY_MARK_WINDOW)%nat.
Proof.
  cbv zeta. set (fresh := match last ms with Some m => _ | None => _ end).
  assert (Hall : in_buckets (ms ++ fresh) /\ Forall (fun m => (m.1 <= now_ns)%Z) (ms ++ fresh)).
  { unfold fresh. destruct (last ms) as [l|] eqn:El.
    - destruct (_ =? _)%Z eqn:E; [now rewrite app_nil_r|]. apply Z.eqb_neq in E. split.
      + apply (in_buckets_snoc ms _ l Hs El). apply last_Some in El as [ms0 ->]. apply Forall_app in Hnow as [_ Hn].
        inversion Hn as [|? ? H1 _]; subst. unfold bucket in *. cbn [fst] in *.
        pose proof (Z.div_le_mono l.1 now_ns EQUITY_MARK_BUCKET_NS ltac:(reflexivity) H1). lia.
      + apply Forall_app. split; [exact Hnow|]. repeat constructor. cbn. lia.
    - apply last_None in El. subst ms. split; repeat constructor. cbn. lia. }
  destruct Hall as [Hb Hn].
  assert (E : exists kept, next_marks now_ns equity ms = List.filter (within_day now_ns) kept /\ (length kept <= EQUITY_MARK_WINDOW)%nat
     /\ List.filter (within_day now_ns) kept = List.filter (within_day now_ns) (ms ++ fresh)).
  { unfold next_marks, fresh in *. destruct (last ms) as [l|] eqn:El.
    1: fold (bucket l); destruct (_ =? _)%Z.
    1: { exists ms. rewrite app_nil_r in *. split; [now apply expire_filter|now split]. }
    all: exists (lastn EQUITY_MARK_WINDOW (ms ++ [(now_ns, equity)])).
    all: split; [apply expire_filter; now apply in_buckets_drop|].
    all: split; [unfold lastn; rewrite length_drop, length_app; cbn [length]; lia|now apply window_drops_old]. }
  destruct E as (kept & E & Hk & Ek). rewrite E. split; [exact Ek|]. rewrite Ek.
  split; [now apply in_buckets_filter|]. split.
  - rewrite List.Forall_forall in *. intros x [Hx _]%filter_In. now apply Hn.
  - rewrite <- Ek. etransitivity; [apply filter_length_le|exact Hk].
Qed.
End Marks.

(** ** Closing *)

Section Close.
Context {W : Type} `{!Desk W}.
Implicit Types s : AgentState W.

(** What a close that reports success rests on: the venue executed it, and then
    showed no position of the instrument, or could not be read. *)
Definition closed_evidence (pos : Position) (code : string) (w : W) : Prop :=
  exists w1 res, d_close_position (pos_instrument pos) None (String.substring 0 32 code) w = (w1, Ok res)
    /\ executed (sr_state res) = true
    /\ match (v_positions w1).2 with
       | Ok ps => Forall (fun p => pos_instrument p <> pos_instrument pos) ps
       | Raise _ => True
       end.

Lemma halt_halts reason s :
  wp (halt reason) (fun _ => halted) (fun _ => halted) s.
Proof.
  unfold halt, durable. do 2 wp_step. destruct (du_halted (ag_durable s)) eqn:E; [now apply wp_ret|].
  unfold mark_halted, change. do 2 wp_step. apply (wp_calm _ halted); [exact stable_halted|calm|reflexivity].
Qed.

Lemma dict_del_gone {A} k (d : list (string * A)) : NoDup (map fst d) -> dict_get k (dict_del k d) = None.
Proof.
  induction d as [|[k0 v0] d IH]; intros Hnd; [reflexivity|]. apply NoDup_cons in Hnd as [Hk Hnd]. cbn [dict_del].
  case_bool_decide as E.
  - subst k0. apply eq_None_not_Some. intros [v Hv]. apply Hk. apply (dict_get_In k v d Hnd) in Hv.
    apply list_elem_of_In, (in_map fst _ _ Hv).
  - cbn [dict_get]. rewrite bool_decide_eq_false_2 by exact E. now apply IH.
Qed.

(** A close is reported as done only when the venue executed it and no
    position of the instrument was left to be seen; the metadata is then dropped.
    Every other outcome, exceptions and residual positions included, leaves the
    agent halted. *)
Theorem close_reports_honestly (pos : Position) (code : string) s (Hnd : NoDup (map fst (du_meta (ag_durable s)))) :
  wp (close pos code)
     (fun closed s' => if closed
                       then closed_evidence pos code (oms_world (ag_oms s))
                            /\ dict_get (pos_instrument pos) (du_meta (ag_durable s')) = None
                       else halted s')
     (fun _ => halted) s.
Proof.
  assert (Hno : forall k e s1, wp (log (AClose (pos_instrument pos) k) ;! halt e ;! ret false)
     (fun closed s' => if closed : bool then closed_evidence pos code (oms_world (ag_oms s))
                            /\ dict_get (pos_instrument pos) (du_meta (ag_durable s')) = None else halted s')
     (fun _ => halted) s1).
  { intros k e s1. unfold log. do 2 wp_step. apply wp_bind. eapply wp_mono; [exact (halt_halts e _)| |auto].
    intros [] s2 H2. now apply wp_ret. }
  unfold close. cbv zeta. apply wp_bind, wp_attempt. unfold ask at 1, wp at 1.
  destruct (d_close_position _ _ _ _) as [w1 [res|e]] eqn:Ec; [|apply Hno].
  destruct (executed (sr_state res)) eqn:Ex; [|apply Hno].
  apply wp_bind, wp_attempt. unfold ask, wp at 1. cbn [ag_oms with_oms set_world oms_world].
  destruct (v_positions w1) as [w2 r] eqn:Ep. cbn [with_oms ag_oms].
  assert (Hyes : forall s1, ag_durable s1 = ag_durable s -> closed_evidence pos code (oms_world (ag_oms s)) ->
    wp (log (AClose (pos_instrument pos) true) ;! drop_meta (pos_instrument pos) ;! ret true)
     (fun closed s' => if closed : bool then closed_evidence pos code (oms_world (ag_oms s))
                            /\ dict_get (pos_instrument pos) (du_meta (ag_durable s')) = None else halted s')
     (fun _ => halted) s1).
  { intros s1 E1 Hev. unfold log, drop_meta, change. do 2 wp_step. do 2 wp_step. apply wp_ret. split; [exact Hev|].
    cbn. rewrite E1. now apply dict_del_gone. }
  destruct r as [ps|e].
  - do 2 wp_step. destruct (List.filter _ ps) as [|p rest] eqn:Ef; [|apply Hno]. apply Hyes; [reflexivity|].
    exists w1, res. split; [exact Ec|]. split; [exact Ex|]. rewrite Ep. cbn. apply List.Forall_forall. intros p Hp E.
    assert (Hin : In p (List.filter (fun p => bool_decide (pos_instrument p = pos_instrument pos)) ps)).
    { apply filter_In. split; [exact Hp|]. now apply bool_decide_eq_true. }
    now rewrite Ef in Hin.
  - unfold log at 1. do 3 wp_step. apply wp_ret. apply Hyes; [reflexivity|]. exists w1, res.
    split; [exact Ec|]. split; [exact Ex|]. now rewrite Ep.
Qed.
End Close.

(** ** A submission the manager has seen before *)

Section Duplicate.
Context {W : Type} `{!Desk W}.
Variable cfg : AgentConfig.
Implicit Types s : AgentState W.

Lemma record_order_state intent horizon o d :
  Returns (fun d' => de_order_state d' = Some (o_state o)) (record_order (W := W) cfg intent horizon o d).
Proof. unfold record_order. cbv zeta. repeat returns_step; reflexivity. Qed.

Definition at_venue (st : OrderState) : bool := match st with FILLED | PARTIAL | ACKED => true | _ => false end.

(** An order the manager already holds is not sent again, but the agent
    counts it again: [submit] answers a repeated id with the order it has, and
    [_execute] reads that order's state as a new entry of the day, the week and
    the year. *)
Theorem duplicate_is_counted_again intent horizon d quote s (o : Order)
    (Ho : order_get (oi_client_order_id intent) (oms_orders (ag_oms s)) = Some o)
    (Hst : at_venue (o_state o) = true)
    (Hq : oi_instrument intent ∉ oms_quarantine (ag_oms s)) :
  wp (execute cfg intent horizon d quote)
     (fun d' s' => silent s s' /\ counts (ag_durable s') = counted (counts (ag_durable s)) /\ reached_venue d' = true)
     (fun _ s' => silent s s') s.
Proof.
  unfold execute. apply wp_bind, wp_attempt. unfold oms_submit, on_oms, wp at 1. rewrite submit_run.
  rewrite bool_decide_eq_false_2 by exact Hq. rewrite Ho. set (s1 := with_oms _ s).
  assert (H1 : silent s s1).
  { destruct (idle_event (Journal ORDER_DUPLICATE_BLOCKED (oi_client_order_id intent)) eq_refl (ag_oms s)) as [Hb Hs].
    now split. }
  assert (R : wp (record_order cfg intent horizon o d)
     (fun d' s' => silent s s' /\ counts (ag_durable s') = if reached_venue d' then counted (counts (ag_durable s)) else counts (ag_durable s))
     (counts_or_not (silent s) (counts (ag_durable s))) s1).
  { apply (record_order_effect cfg (silent s)); [intros a b; apply silent_after|]. now split. }
  pose proof (record_order_state intent horizon o d s1) as Hd.
  unfold wp in *. destruct (record_order _ _ _ _ _ s1) as [s2 [d'|e]]; [|exact (proj1 R)].
  specialize (Hd _ _ eq_refl). destruct R as [R1 R2].
  assert (Hr : reached_venue d' = true) by (unfold reached_venue; rewrite Hd; now destruct (o_state o)).
  rewrite Hr in R2. auto.
Qed.
End Duplicate.

(** ** On the demo desk *)

Lemma marks_are_the_trailing_day_witness :
  let ms := [(0, 10000%dec); (400 * 1000000000, 9990%dec)]%Z in
  next_marks (86500 * 1000000000) 9900 ms = [(400 * 1000000000, 9990%dec); (86500 * 1000000000, 9900%dec)]%Z
  /\ in_buckets (next_marks (86500 * 1000000000) 9900 ms).
Proof.
  cbv zeta. set (ms := [(0, 10000%dec); (400 * 1000000000, 9990%dec)]%Z).
  assert (Hs : in_buckets ms) by (repeat constructor).
  assert (Hn : Forall (fun m => (m.1 <= 86500 * 1000000000)%Z) ms) by (repeat constructor; discriminate).
  assert (Hl : (length ms <= EQUITY_MARK_WINDOW)%nat) by (unfold EQUITY_MARK_WINDOW; cbn; lia).
  destruct (marks_are_the_trailing_day (86500 * 1000000000) 9900 ms Hs Hn Hl) as (E & H1 & _).
  split; [rewrite E; vm_compute; reflexivity|exact H1].
Defined.

(** An agent with an open position. *)
Definition floor_entry : Position := new_position "EUR_USD" BUY 0.1 1.1000 0 "trend" 50.
Definition open_agent : AgentState Floor :=
  (cycle floor_config (new_agent AUTONOMOUS (floor Fills Absent Absent))).1.

Lemma close_reports_honestly_witness :
  (close floor_entry "time_stop" open_agent).2 = Ok true
  /\ wp (close floor_entry "time_stop")
       (fun closed s' => if closed
                         then closed_evidence floor_entry "time_stop" (oms_world (ag_oms open_agent))
                              /\ dict_get "EUR_USD" (du_meta (ag_durable s')) = None
                         else halted s')
       (fun _ => halted) open_agent.
Proof.
  split; [vm_compute; reflexivity|]. apply (close_reports_honestly floor_entry "time_stop" open_agent).
  apply (bool_decide_eq_true_1 (NoDup _)). vm_compute. reflexivity.
Defined.

(** The signal of [open_agent] again, on the same bar, after its position was
    stopped out: nothing is sent, and a second entry is counted. *)
Definition stopped_out : AgentState Floor :=
  with_durable (set_last_entry_ns (fun _ => None))
    (with_oms (set_world (floor Fills Absent Absent)) open_agent).

Definition seen_intent : OrderIntent := match book (ag_oms stopped_out) with e :: _ => e.2 | [] => OmsInv.demo_intent "a" end.
Definition seen_order : Order :=
  match order_get (oi_client_order_id seen_intent) (oms_orders (ag_oms stopped_out)) with
  | Some o => o | None => new_order seen_intent
  end.

Lemma duplicate_is_counted_again_witness :
  let run := execute floor_config seen_intent None (new_decision 0 "trend" "EUR_USD" "skipped" None) demo_quote in
  counts (ag_durable (run stopped_out).1) = (2, 2, 2)%Z
  /\ wp run (fun d' s' => silent stopped_out s' /\ counts (ag_durable s') = counted (counts (ag_durable stopped_out))
                          /\ reached_venue d' = true) (fun _ s' => silent stopped_out s') stopped_out.
Proof.
  cbv zeta. split; [vm_compute; reflexivity|].
  apply (duplicate_is_counted_again floor_config seen_intent None _ demo_quote stopped_out seen_order).
  - vm_compute. reflexivity.
  - vm_compute. reflexivity.
  - apply (bool_decide_eq_false_1 (_ ∈ _)). vm_compute. reflexivity.
Defined.
