(* ===== verification/AuditChain.v ===== *)
(** [sentinel/core/audit.py]: the append-only journal with its hash chain.  A
    file is a list of terminated lines and perhaps an unterminated last one; a
    line is what reading it gives.  [sha] stands for the digest of the serialised
    hashed fields: the theorems hold for every function.  [int_of_text] and
    [text_of] are [int] of a text and [str] of a value that is not text.  Flushing,
    permissions, the listeners and the sidecar of a repair are not modelled. *)

From Stdlib Require Import ZArith Lia Floats.SpecFloat.
From stdpp Require Import base strings list.
From S2P Require Import Prelude PyDict PyJson Calendar Deadman.

Local Open Scope py_scope.

Inductive line :=
| LBlank
| LGarbage
| LNotUtf8 (replaced : option json)
| LJson (j : json).

Record log_file := mkLogFile {
  lf_lines : list line;
  lf_tail : option line
}.

Definition all_lines (f : log_file) : list line := lf_lines f ++ option_list (lf_tail f).

Definition GENESIS : string := "0000000000000000000000000000000000000000000000000000000000000000".

(** The hashed fields of a record. *)
Record Body := mkBody {
  b_seq : json;
  b_ts_ns : json;
  b_run_id : json;
  b_event : json;
  b_actor : json;
  b_payload : json;
  b_prev_hash : json
}.

Record AuditRecord := mkAuditRecord {
  ar_body : Body;
  ar_hash : string
}.

(** [AuditRecord.to_dict]. *)
Definition to_dict (r : AuditRecord) : json :=
  let b := ar_body r in
  JObj [("seq", b_seq b); ("ts_ns", b_ts_ns b); ("run_id", b_run_id b); ("event", b_event b);
        ("actor", b_actor b); ("payload", b_payload b); ("prev_hash", b_prev_hash b);
        ("hash", JStr (ar_hash r))].

(** [rec["k"]] for every hashed field, in the order of the call. *)
Definition body_of (j : json) : res Body :=
  let* seq := json_item j "seq" in
  let* ts := json_item j "ts_ns" in
  let* run := json_item j "run_id" in
  let* ev := json_item j "event" in
  let* actor := json_item j "actor" in
  let* payload := json_item j "payload" in
  let* prev := json_item j "prev_hash" in
  Ok (mkBody seq ts run ev actor payload prev).

(** [j == z] and [j == s]. *)
Definition eq_int (j : json) (z : Z) : bool :=
  match j with
  | JInt n => (n =? z)%Z
  | JBool b => ((if b then 1 else 0) =? z)%Z
  | JFloat x => match modf x with Some (i, S754_zero _) => (i =? z)%Z | _ => false end
  | _ => false
  end.
Definition eq_text (j : json) (s : string) : bool :=
  match j with JStr t => bool_decide (t = s) | _ => false end.

Lemma elem_snocs {A} (x b b' : A) l l' : x ∈ l ++ l' -> x ∈ (l ++ [b]) ++ l' ++ [b'].
Proof. set_solver. Qed.
Lemma elem_last_l {A} (b b' : A) l l' : b ∈ (l ++ [b]) ++ l' ++ [b'].
Proof. set_solver. Qed.
Lemma elem_last_r {A} (b b' : A) l l' : b' ∈ (l ++ [b]) ++ l' ++ [b'].
Proof. set_solver. Qed.

Section Log.
Variable sha : Body -> string.
Variable int_of_text : string -> option Z.
Variable text_of : json -> string.
Variable run_id : string.

Definition str_of (j : json) : string := match j with JStr s => s | _ => text_of j end.

Record AuditLog := mkLog {
  al_file : log_file;
  al_seq : Z;
  al_last_hash : string
}.

(** ** Recovery *)

(** The sequence number and hash of the record on a line. *)
Definition head_of (j : json) : res (Z * string) :=
  let* s := json_item j "seq" in
  let* n := int_of_json int_of_text s in
  let* h := json_item j "hash" in
  Ok (n, str_of h).

Definition is_blank (l : line) : bool := match l with LBlank => true | _ => false end.
Definition is_not_utf8 (l : line) : bool := match l with LNotUtf8 _ => true | _ => false end.

(** The lines without the blank ones at the end. *)
Fixpoint strip_blank (ls : list line) : list line :=
  match ls with
  | [] => []
  | l :: rest => match strip_blank rest with
                 | [] => if is_blank l then [] else [l]
                 | rest' => l :: rest'
                 end
  end.

(** [_truncate_torn_tail]: the repaired file, with the sequence and the hash the
    chain resumes from. *)
Definition truncate_torn_tail (f : log_file) : res (log_file * option Z * string) :=
  let lines := strip_blank (all_lines f) in
  match rev lines with
  | [] => Ok (f, None, GENESIS)
  | _ :: rgood =>
      let good := rev rgood in
      let* head := match rgood with
                   | [] => Ok (0%Z, GENESIS)
                   | LJson j :: _ =>
                       match head_of j with
                       | Raise (KeyError | ValueError) => Raise AuditChainDamaged
                       | r => r
                       end
                   | _ => Raise AuditChainDamaged
                   end in
      Ok (mkLogFile good None, Some head.1, head.2)
  end.

(** [_recover_tail]: the file afterwards, the sequence, whether it was repaired,
    the hash. *)
Definition recover_tail (f : log_file) : res (log_file * Z * bool * string) :=
  if existsb is_not_utf8 (all_lines f) then Raise ValueError
  else
    let repair :=
      let* r := truncate_torn_tail f in
      let '(f', seq, h) := r in
      Ok (f', default 0%Z seq, match seq with Some _ => true | None => false end, h) in
    match rev (strip_blank (all_lines f)) with
    | [] => Ok (f, 0%Z, false, GENESIS)
    | LJson j :: _ =>
        match head_of j with
        | Ok (n, h) => Ok (f, n, false, h)
        | Raise (KeyError | ValueError) => repair
        | Raise e => Raise e
        end
    | _ => repair
    end.

(** ** Writing *)

(** Text after an unterminated line lands on that line; two JSON texts on one
    line are not JSON. *)
Definition join (tail : option line) (l : line) : line :=
  match tail with None | Some LBlank => l | Some _ => LGarbage end.

Definition make_record (s : AuditLog) (event actor : string) (payload : json) (ts_ns : Z) : AuditRecord :=
  let b := mkBody (JInt (al_seq s + 1)) (JInt ts_ns) (JStr run_id) (JStr event) (JStr actor) payload
             (JStr (al_last_hash s)) in
  mkAuditRecord b (sha b).

(** [append]. *)
Definition append (event actor : string) (payload : json) (ts_ns : Z) (s : AuditLog) : AuditLog :=
  let r := make_record s event actor payload ts_ns in
  mkLog (mkLogFile (lf_lines (al_file s) ++ [join (lf_tail (al_file s)) (LJson (to_dict r))]) None)
    (al_seq s + 1) (ar_hash r).

(** The record of a repair; its other fields are presentation. *)
Definition repair_payload (seq : Z) (h : string) : json :=
  JObj [("chain_repaired", JBool true); ("resumed_from_seq", JInt seq); ("resumed_from_hash", JStr h)].

(** [AuditLog.__init__]. *)
Definition open_log (f : log_file) (ts_ns : Z) : res AuditLog :=
  let* r := recover_tail f in
  let '(f', seq, repaired, h) := r in
  let s := mkLog f' seq h in
  Ok (if repaired : bool then append "system.start" "audit" (repair_payload seq h) ts_ns s else s).

(** ** Reading *)

(** A record, or the sentinel of a line that does not parse. *)
Inductive reading := RJson (j : json) | RUnparseable (lineno : Z).

Definition read_line (lineno : Z) (l : line) : list reading :=
  match l with
  | LBlank => []
  | LJson j | LNotUtf8 (Some j) => [RJson j]
  | LGarbage | LNotUtf8 None => [RUnparseable lineno]
  end.

Fixpoint read_lines (lineno : Z) (ls : list line) : list reading :=
  match ls with
  | [] => []
  | l :: rest => read_line lineno l ++ read_lines (lineno + 1) rest
  end.

(** [iter_records]. *)
Definition iter_records (f : log_file) : list reading := read_lines 1 (all_lines f).

(** [verify]: whether the chain is intact, and the sequence of the first bad
    record where it has one. *)
Fixpoint verify_from (prev : string) (expected : Z) (rs : list reading) : res (bool * option json) :=
  match rs with
  | [] => Ok (true, None)
  | RUnparseable _ :: _ => Ok (false, None)
  | RJson j :: rest =>
      match j with
      | JObj fields =>
          if match dict_get "__unparseable__" fields with Some v => truthy v | None => false end
          then let* _ := json_item j "__line__" in Ok (false, None)
          else match dict_get "seq" fields, dict_get "hash" fields with
               | Some seq, Some hash =>
                   if negb (eq_int seq expected) then Ok (false, Some seq)
                   else
                     let* p := json_item j "prev_hash" in
                     if negb (eq_text p prev) then Ok (false, Some seq)
                     else
                       let* b := body_of j in
                       if negb (eq_text hash (sha b)) then Ok (false, Some seq)
                       else verify_from (sha b) (expected + 1) rest
               | _, _ => Ok (false, None)
               end
      | _ => Raise AttributeError
      end
  end.
Definition verify (f : log_file) : res (bool * option json) := verify_from GENESIS 1 (iter_records f).

(** [read] without filters: it takes [rec["seq"]] of every reading. *)
Definition read_all (f : log_file) : res (list json) :=
  rflat (fun r => match r with
                  | RJson j => let* _ := json_item j "seq" in Ok [j]
                  | RUnparseable _ => Raise KeyError
                  end) (iter_records f).

(** ** A sound chain *)

Definition line_of (r : AuditRecord) : line := LJson (to_dict r).

(** Records numbered from [n], each carrying the hash of the one before. *)
Fixpoint chained (prev : string) (n : Z) (rs : list AuditRecord) : Prop :=
  match rs with
  | [] => True
  | r :: rest =>
      b_seq (ar_body r) = JInt n /\ b_prev_hash (ar_body r) = JStr prev /\ ar_hash r = sha (ar_body r) /\
      chained (ar_hash r) (n + 1) rest
  end.

Definition head_hash (prev : string) (rs : list AuditRecord) : string :=
  match last rs with Some r => ar_hash r | None => prev end.

Lemma head_hash_cons prev r rs : head_hash prev (r :: rs) = head_hash (ar_hash r) rs.
Proof. unfold head_hash. destruct rs as [|r' rs]; [reflexivity|]. rewrite last_cons_cons. now destruct (last (r' :: rs)) eqn:E; [|apply last_None in E]. Qed.

Lemma head_hash_snoc prev rs r : head_hash prev (rs ++ [r]) = ar_hash r.
Proof. unfold head_hash. now rewrite last_snoc. Qed.

Lemma chained_snoc prev n rs r :
  chained prev n rs ->
  b_seq (ar_body r) = JInt (n + Z.of_nat (length rs)) -> b_prev_hash (ar_body r) = JStr (head_hash prev rs) ->
  ar_hash r = sha (ar_body r) -> chained prev n (rs ++ [r]).
Proof.
  revert prev n. induction rs as [|r0 rs IH]; intros prev n; cbn [chained app length].
  - intros _ Hs Hp Hh. rewrite Z.add_0_r in Hs. auto.
  - intros (H1 & H2 & H3 & H4) Hs Hp Hh. rewrite head_hash_cons in Hp. repeat (split; [assumption|]).
    apply IH; auto. rewrite Hs. f_equal. lia.
Qed.

Lemma chained_last prev n rs r :
  chained prev n (rs ++ [r]) -> b_seq (ar_body r) = JInt (n + Z.of_nat (length rs)).
Proof.
  revert prev n. induction rs as [|r0 rs IH]; intros prev n; cbn [chained app length].
  - intros (H & _). now rewrite Z.add_0_r.
  - intros (_ & _ & _ & H). apply IH in H. rewrite H. f_equal. lia.
Qed.

Lemma read_lines_records rs : forall n, read_lines n (map line_of rs) = map (fun r => RJson (to_dict r)) rs.
Proof. induction rs as [|r rs IH]; intros n; [reflexivity|]. cbn. now rewrite IH. Qed.

Lemma verify_record prev n r rest :
  b_seq (ar_body r) = JInt n -> b_prev_hash (ar_body r) = JStr prev -> ar_hash r = sha (ar_body r) ->
  verify_from prev n (RJson (to_dict r) :: rest) = verify_from (ar_hash r) (n + 1) rest.
Proof.
  intros Hs Hp Hh. destruct r as [b h]. cbn [ar_body ar_hash] in *. subst h.
  assert (Hb : body_of (to_dict (mkAuditRecord b (sha b))) = Ok b) by now destruct b.
  assert (Hi : json_item (to_dict (mkAuditRecord b (sha b))) "prev_hash" = Ok (b_prev_hash b)) by reflexivity.
  cbn [verify_from to_dict] in *. unfold to_dict in *. cbn [ar_body ar_hash] in *.
  set (fields := [("seq", _); _; _; _; _; _; _; _]) in *.
  assert (G1 : dict_get "__unparseable__" fields = None) by reflexivity.
  assert (G2 : dict_get "seq" fields = Some (JInt n)) by (rewrite <- Hs; reflexivity).
  assert (G3 : dict_get "hash" fields = Some (JStr (sha b))) by reflexivity.
  rewrite G1, G2, G3, Hi, Hp, Hb. cbn [eq_int eq_text negb rbind].
  now rewrite Z.eqb_refl, !bool_decide_eq_true_2.
Qed.

Lemma verify_chained rs : forall prev n,
  chained prev n rs -> verify_from prev n (map (fun r => RJson (to_dict r)) rs) = Ok (true, None).
Proof.
  induction rs as [|r rs IH]; intros prev n; [reflexivity|]. cbn [chained map]. intros (H1 & H2 & H3 & H4).
  rewrite verify_record by assumption. now apply IH.
Qed.

(** A line that does not parse, after a sound chain. *)
Lemma verify_garbage rs : forall prev n k,
  chained prev n rs -> verify_from prev n (read_lines k (map line_of rs ++ [LGarbage])) = Ok (false, None).
Proof.
  induction rs as [|r rs IH]; intros prev n k; [reflexivity|]. cbn [chained]. intros (H1 & H2 & H3 & H4).
  change (verify_from prev n (RJson (to_dict r) :: read_lines (k + 1) (map line_of rs ++ [LGarbage])) = Ok (false, None)).
  rewrite verify_record by assumption. now apply IH.
Qed.

Lemma chained_app prev n rs rs' : chained prev n (rs ++ rs') -> chained prev n rs.
Proof. revert prev n. induction rs as [|r rs IH]; intros prev n; cbn [app chained]; [done|]. naive_solver. Qed.

(** The log of the records [rs]. *)
Definition sound (rs : list AuditRecord) (s : AuditLog) : Prop :=
  al_file s = mkLogFile (map line_of rs) None /\ chained GENESIS 1 rs /\
  al_seq s = Z.of_nat (length rs) /\ al_last_hash s = head_hash GENESIS rs.

Lemma sound_append rs s ev actor payload ts :
  sound rs s -> sound (rs ++ [make_record s ev actor payload ts]) (append ev actor payload ts s).
Proof.
  intros (Hf & Hc & Hs & Hh). unfold append. repeat split; cbn.
  - rewrite Hf. cbn. now rewrite map_app.
  - apply chained_snoc; [exact Hc| | |reflexivity]; cbn; [rewrite Hs; f_equal; lia|now rewrite Hh].
  - rewrite length_app, Hs. cbn. lia.
  - now rewrite head_hash_snoc.
Qed.

Lemma strip_records rs : strip_blank (map line_of rs) = map line_of rs.
Proof. induction rs as [|r rs IH]; [reflexivity|]. cbn [map strip_blank]. rewrite IH. now destruct rs. Qed.

Lemma strip_records_torn rs : strip_blank (map line_of rs ++ [LGarbage]) = map line_of rs ++ [LGarbage].
Proof.
  induction rs as [|r rs IH]; [reflexivity|]. cbn [map app strip_blank]. rewrite IH. now destruct rs.
Qed.

Lemma utf8_records rs t : existsb is_not_utf8 t = false -> existsb is_not_utf8 (map line_of rs ++ t) = false.
Proof. intros H. now induction rs. Qed.

Lemma head_of_record r n : b_seq (ar_body r) = JInt n -> head_of (to_dict r) = Ok (n, ar_hash r).
Proof.
  intros H. unfold head_of. assert (G : json_item (to_dict r) "seq" = Ok (JInt n)) by (rewrite <- H; reflexivity).
  now rewrite G.
Qed.

Lemma rev_map_line rs r : rev (map line_of (rs ++ [r])) = LJson (to_dict r) :: rev (map line_of rs).
Proof. now rewrite map_app, rev_app_distr. Qed.

(** A restart resumes a sound log as it was. *)
Lemma reopen rs s ts : sound rs s -> open_log (al_file s) ts = Ok s.
Proof.
  intros (Hf & Hc & Hs & Hh). unfold open_log, recover_tail, all_lines. rewrite Hf. cbn [lf_lines lf_tail option_list].
  rewrite utf8_records, app_nil_r, strip_records by reflexivity.
  destruct s as [f seq h]. cbn in *. subst f seq h.
  destruct rs as [|r rs _] using rev_ind; [reflexivity|]. rewrite rev_map_line.
  pose proof (chained_last _ _ _ _ Hc) as Hseq. rewrite (head_of_record _ _ Hseq). cbn [rbind].
  rewrite head_hash_snoc, length_app. do 2 f_equal. cbn [length]. lia.
Qed.

(** A restart after a write torn before its end drops the torn line only. *)
Lemma reopen_torn rs s ts :
  sound rs s ->
  open_log (mkLogFile (lf_lines (al_file s)) (Some LGarbage)) ts =
    Ok (append "system.start" "audit" (repair_payload (al_seq s) (al_last_hash s)) ts s).
Proof.
  intros (Hf & Hc & Hs & Hh). unfold open_log, recover_tail, truncate_torn_tail, all_lines. rewrite Hf.
  cbn [lf_lines lf_tail option_list]. rewrite utf8_records, strip_records_torn, rev_app_distr by reflexivity.
  cbn [rev app]. destruct s as [f seq h]. cbn in *. subst f seq h.
  destruct rs as [|r rs _] using rev_ind; [reflexivity|]. rewrite rev_map_line.
  pose proof (chained_last _ _ _ _ Hc) as Hseq. rewrite (head_of_record _ _ Hseq). cbn [rbind fst snd default].
  assert (E : rev (LJson (to_dict r) :: rev (map line_of rs)) = map line_of (rs ++ [r])).
  { cbn [rev]. now rewrite rev_involutive, map_app. }
  rewrite E, head_hash_snoc, length_app. cbn [length].
  replace (Z.of_nat (length rs + 1)) with (1 + Z.of_nat (length rs))%Z by lia. reflexivity.
Qed.

(** The log of the records [rs], of which the last has lost its newline. *)
Definition dangling (rs : list AuditRecord) (s : AuditLog) : Prop :=
  exists rs0 r, rs = rs0 ++ [r] /\ al_file s = mkLogFile (map line_of rs0) (Some (line_of r)) /\ chained GENESIS 1 rs /\
    al_seq s = Z.of_nat (length rs) /\ al_last_hash s = head_hash GENESIS rs.

Lemma dangling_lines rs s : dangling rs s -> all_lines (al_file s) = map line_of rs.
Proof. intros (rs0 & r & -> & -> & _). unfold all_lines. cbn. now rewrite map_app. Qed.

(** A restart resumes it as it was. *)
Lemma reopen_dangling rs s ts : dangling rs s -> open_log (al_file s) ts = Ok s.
Proof.
  intros D. pose proof (dangling_lines _ _ D) as E. destruct D as (rs0 & r & -> & Hf & Hc & Hs & Hh).
  unfold open_log, recover_tail. rewrite E.
  pose proof (utf8_records (rs0 ++ [r]) [] eq_refl) as Hu. rewrite app_nil_r in Hu.
  rewrite Hu, strip_records, rev_map_line. pose proof (chained_last _ _ _ _ Hc) as Hseq. rewrite (head_of_record _ _ Hseq). cbn [rbind].
  destruct s as [f seq h]. cbn in *. subst f seq h. rewrite head_hash_snoc, length_app. cbn [length]. do 2 f_equal. lia.
Qed.

(** What verifies and reads as the records it holds. *)
Lemma verify_lines f rs : all_lines f = map line_of rs -> chained GENESIS 1 rs -> verify f = Ok (true, None).
Proof. intros E Hc. unfold verify, iter_records. rewrite E, read_lines_records. now apply verify_chained. Qed.

Lemma read_all_lines f rs : all_lines f = map line_of rs -> read_all f = Ok (map to_dict rs).
Proof.
  intros E. unfold read_all, iter_records. rewrite E, read_lines_records. clear. induction rs as [|r rs IH]; [reflexivity|].
  cbn [map rflat]. assert (G : json_item (to_dict r) "seq" = Ok (b_seq (ar_body r))) by reflexivity.
  rewrite G, IH. reflexivity.
Qed.

Lemma sound_lines rs s : sound rs s -> all_lines (al_file s) = map line_of rs.
Proof. intros (Hf & _). unfold all_lines. rewrite Hf. cbn. apply app_nil_r. Qed.

(** ** What a verified chain pins down *)

(** The hashed fields of the readings that have them all. *)
Definition bodies (rs : list reading) : list Body :=
  omap (fun r => match r with
                 | RJson j => match body_of j with Ok b => Some b | Raise _ => None end
                 | RUnparseable _ => None
                 end) rs.

Fixpoint linked (prev : string) (n : Z) (bs : list Body) : Prop :=
  match bs with
  | [] => True
  | b :: rest => eq_int (b_seq b) n = true /\ b_prev_hash b = JStr prev /\ linked (sha b) (n + 1) rest
  end.

Definition tip (prev : string) (bs : list Body) : string :=
  match last bs with Some b => sha b | None => prev end.

Lemma verify_step prev n r rest v :
  verify_from prev n (r :: rest) = Ok (true, v) ->
  exists j b, r = RJson j /\ body_of j = Ok b /\ eq_int (b_seq b) n = true /\ b_prev_hash b = JStr prev /\
    forall rest', verify_from prev n (r :: rest') = verify_from (sha b) (n + 1) rest'.
Proof.
  destruct r as [j|k]; [|discriminate]. destruct j as [| | | | | |fields]; try discriminate. cbn [verify_from].
  case_if E1; [destruct (json_item _ _); discriminate|].
  destruct (dict_get "seq" fields) as [seq|] eqn:Es; [|discriminate].
  destruct (dict_get "hash" fields) as [hash|]; [|discriminate].
  case_if E2; [discriminate|]. apply negb_false_iff in E2.
  destruct (json_item (JObj fields) "prev_hash") as [p|] eqn:Ep; [|discriminate]. cbn [rbind].
  case_if E3; [discriminate|]. apply negb_false_iff in E3.
  destruct (body_of (JObj fields)) as [b|] eqn:Eb; [|discriminate]. cbn [rbind].
  case_if E4; [discriminate|]. intros _. exists (JObj fields), b. repeat (split; [reflexivity || exact Eb|]).
  assert (Hb : b_seq b = seq /\ b_prev_hash b = p).
  { unfold body_of in Eb. rewrite Ep in Eb. unfold json_item in Eb at 1. rewrite Es in Eb. inv_res.
    subst. split; reflexivity. }
  destruct Hb as [-> ->]. split; [exact E2|]. split.
  - destruct p; try discriminate E3. apply bool_decide_eq_true in E3. now subst.
  - reflexivity.
Qed.

Lemma verify_linked rs v : forall prev n,
  verify_from prev n rs = Ok (true, v) -> linked prev n (bodies rs) /\ length (bodies rs) = length rs.
Proof.
  induction rs as [|r rs IH]; intros prev n; [done|]. intros H.
  pose proof H as H'. apply verify_step in H' as (j & b & -> & Hb & Hs & Hp & Hstep). rewrite Hstep in H.
  apply IH in H as [Hl Hn].
  unfold bodies in *. cbn. rewrite Hb. cbn. split; [auto|now rewrite Hn].
Qed.

Lemma verify_prefix rs rs' v : forall prev n,
  verify_from prev n (rs ++ rs') = Ok (true, v) -> verify_from prev n rs = Ok (true, None).
Proof.
  induction rs as [|r rs IH]; intros prev n; [done|]. cbn [app]. intros H.
  pose proof H as H'. apply verify_step in H' as (j & b & -> & _ & _ & _ & Hstep).
  rewrite Hstep in *. now apply IH in H.
Qed.

Lemma linked_snoc prev n bs b :
  linked prev n (bs ++ [b]) ->
  linked prev n bs /\ eq_int (b_seq b) (n + Z.of_nat (length bs)) = true /\ b_prev_hash b = JStr (tip prev bs).
Proof.
  revert prev n. induction bs as [|b0 bs IH]; intros prev n; cbn [app linked length].
  - intros (H1 & H2 & _). now rewrite Z.add_0_r.
  - intros (H1 & H2 & H3). apply IH in H3 as (H3 & H4 & H5). split; [auto|]. split.
    + replace (n + Z.of_nat (S (length bs)))%Z with (n + 1 + Z.of_nat (length bs))%Z by lia. exact H4.
    + rewrite H5. unfold tip. destruct bs as [|b1 bs]; [reflexivity|]. rewrite last_cons_cons.
      destruct (last (b1 :: bs)) eqn:E; [reflexivity|now apply last_None in E].
Qed.

Lemma eq_int_inj j m n : eq_int j m = true -> eq_int j n = true -> m = n.
Proof.
  destruct j as [|b|z|x| | |]; try discriminate; cbn [eq_int].
  - intros ->%Z.eqb_eq ->%Z.eqb_eq. reflexivity.
  - intros ->%Z.eqb_eq ->%Z.eqb_eq. reflexivity.
  - destruct (modf x) as [[i []]|]; try discriminate. intros ->%Z.eqb_eq ->%Z.eqb_eq. reflexivity.
Qed.

(** No two different records among [bs] have the same digest. *)
Definition no_collision (bs : list Body) : Prop :=
  forall b b', b ∈ bs -> b' ∈ bs -> sha b = sha b' -> b = b'.

Lemma linked_unique bs : forall bs',
  no_collision (bs ++ bs') -> length bs = length bs' ->
  linked GENESIS 1 bs -> linked GENESIS 1 bs' -> tip GENESIS bs = tip GENESIS bs' -> bs = bs'.
Proof.
  induction bs as [|b bs IH] using rev_ind; intros bs' Hc Hlen H H' E.
  - destruct bs'; [reflexivity|discriminate].
  - destruct bs' as [|b' bs' _] using rev_ind; [rewrite length_app in Hlen; cbn in Hlen; lia|].
    rewrite !length_app in Hlen. cbn in Hlen. unfold tip in E. rewrite !last_snoc in E.
    assert (Eb : b = b') by (apply Hc; [apply elem_last_l|apply elem_last_r|exact E]). subst b'.
    apply linked_snoc in H as (H & _ & Hp). apply linked_snoc in H' as (H' & _ & Hp').
    rewrite Hp in Hp'. injection Hp' as Ep. f_equal. apply IH; try assumption; [|lia].
    intros x y Hx Hy. apply Hc; now apply elem_snocs.
Qed.
End Log.

(** ** The guarantees *)

Section Guarantees.
Variable sha : Body -> string.
Variable int_of_text : string -> option Z.
Variable text_of : json -> string.
Variable run_id : string.

Abbreviation add_record := (append sha run_id).
Abbreviation start_log := (open_log sha int_of_text text_of run_id).
Abbreviation check_chain := (verify sha).

(** Where a crash cuts the line of a record that is being written: before it, in it,
    inside a character of several bytes of it, or between it and its newline.  The
    line is a JSON object, which no shorter part of it is. *)
Inductive Tear := NothingWritten | PartOfLine | InsideCharacter | NewlineLost.
Definition torn_file (f : log_file) (r : AuditRecord) (t : Tear) : log_file :=
  match t with
  | NothingWritten => f
  | PartOfLine => mkLogFile (lf_lines f) (Some LGarbage)
  | InsideCharacter => mkLogFile (lf_lines f) (Some (LNotUtf8 None))
  | NewlineLost => mkLogFile (lf_lines f) (Some (join (lf_tail f) (line_of r)))
  end.

Abbreviation repair_record s ts :=
  (make_record sha run_id s "system.start" "audit" (repair_payload (al_seq s) (al_last_hash s)) ts).

(** A journal whose lines all end, one whose last record has lost its newline, and
    one that was written to after that. *)
Inductive Condition := Whole | Dangling | Merged.
Definition after_append (c : Condition) : Condition := match c with Whole => Whole | _ => Merged end.
Definition after_tear (c : Condition) (t : Tear) : Condition :=
  match t, c with
  | NothingWritten, _ => c
  | NewlineLost, Whole => Dangling
  | _, Whole => Whole
  | _, _ => Merged
  end.
Definition records_after (rs : list AuditRecord) (s : AuditLog) (r : AuditRecord) (t : Tear) (ts : Z) : list AuditRecord :=
  match t with
  | NothingWritten => rs
  | PartOfLine | InsideCharacter => rs ++ [repair_record s ts]
  | NewlineLost => rs ++ [r]
  end.

(** The life of a journal: created on an empty file, appended to, and opened by the
    next process, after a clean stop or a crash that tears the line being written
    anywhere.  The list is the records written completely. *)
Inductive life : Condition -> list AuditRecord -> AuditLog -> Prop :=
| life_new ts s : start_log (mkLogFile [] None) ts = Ok s -> life Whole [] s
| life_append c rs s ev actor payload ts :
    life c rs s ->
    life (after_append c) (rs ++ [make_record sha run_id s ev actor payload ts]) (add_record ev actor payload ts s)
| life_restart c rs s ts s' : life c rs s -> start_log (al_file s) ts = Ok s' -> life c rs s'
| life_crash c rs s ev actor payload ts t ts' s' :
    life c rs s ->
    let r := make_record sha run_id s ev actor payload ts in
    start_log (torn_file (al_file s) r t) ts' = Ok s' ->
    life (after_tear c t) (records_after rs s r t ts') s'.

Lemma tear_dangling rs s r : sound sha rs s -> al_file s = mkLogFile (map line_of rs) None ->
  chained sha GENESIS 1 (rs ++ [r]) ->
  dangling sha (rs ++ [r]) (mkLog (torn_file (al_file s) r NewlineLost) (al_seq s + 1) (ar_hash r)).
Proof.
  intros (_ & _ & Hs & _) Hf Hc. exists rs, r. cbn. rewrite Hf, Hs, head_hash_snoc, length_app. cbn. repeat split; [exact Hc|lia].
Qed.

Lemma record_chained rs s ev actor payload ts : sound sha rs s ->
  chained sha GENESIS 1 (rs ++ [make_record sha run_id s ev actor payload ts]).
Proof. intros H. now destruct (sound_append sha run_id rs s ev actor payload ts H) as (_ & Hc & _). Qed.

Lemma reopen_newline rs s ev actor payload ts ts' : sound sha rs s ->
  let r := make_record sha run_id s ev actor payload ts in
  start_log (torn_file (al_file s) r NewlineLost) ts' = Ok (mkLog (torn_file (al_file s) r NewlineLost) (al_seq s + 1) (ar_hash r)).
Proof.
  intros H r. pose proof (tear_dangling rs s r H (proj1 H) (record_chained rs s ev actor payload ts H)) as D.
  exact (reopen_dangling sha int_of_text text_of run_id _ _ ts' D).
Qed.

Lemma reopen_inside rs s r ts : sound sha rs s -> start_log (torn_file (al_file s) r InsideCharacter) ts = Raise ValueError.
Proof.
  intros _. unfold open_log, recover_tail, all_lines. cbn [torn_file lf_lines lf_tail option_list].
  rewrite existsb_app. cbn. now rewrite orb_true_r.
Qed.

Definition healthy (c : Condition) (rs : list AuditRecord) (s : AuditLog) : Prop :=
  match c with Whole => sound sha rs s | Dangling => dangling sha rs s | Merged => True end.

Lemma life_healthy c rs s : life c rs s -> healthy c rs s.
Proof.
  induction 1 as [ts s H|c rs s ev actor payload ts _ IH|c rs s ts s' _ IH H|c rs s ev actor payload ts t ts' s' _ IH r H].
  - injection H as <-. repeat split.
  - destruct c; [now apply sound_append|exact I|exact I].
  - destruct c; cbn in *; [|rewrite (reopen_dangling _ _ _ _ _ s ts IH) in H|exact I].
    + rewrite (reopen _ _ _ _ _ s ts IH) in H. now injection H as <-.
    + now injection H as <-.
  - destruct c; cbn in IH.
    + destruct t; cbn [after_tear healthy records_after].
      * cbn [torn_file] in H. rewrite (reopen _ _ _ _ _ s ts' IH) in H. now injection H as <-.
      * cbn [torn_file] in H. rewrite (reopen_torn _ _ _ _ _ s ts' IH) in H. injection H as <-. now apply sound_append.
      * rewrite (reopen_inside rs s r ts' IH) in H. discriminate H.
      * unfold r in H. rewrite (reopen_newline rs s ev actor payload ts ts' IH) in H. injection H as <-.
        exact (tear_dangling rs s r IH (proj1 IH) (record_chained rs s ev actor payload ts IH)).
    + destruct t; cbn [after_tear healthy records_after]; try exact I.
      cbn [torn_file] in H. rewrite (reopen_dangling _ _ _ _ _ s ts' IH) in H. now injection H as <-.
    + now destruct t.
Qed.

(** C40: through appends, restarts and crashes that tear the line being written
    anywhere, as long as nothing is written after a crash that lost only a newline
    ([unrepaired_tears]), the journal keeps every record written completely, in order
    and nothing else, but for the records of its repairs, and its chain verifies; a
    clean restart resumes it as it was.  After the next crash: a line cut in two is
    dropped, and the repair recorded; a record that lost only its newline is kept;
    a line cut inside a character makes the journal impossible to open.  A write that
    fails while its process lives on is not modelled. *)
Theorem journal_survives c rs s ts :
  life c rs s -> c <> Merged ->
  check_chain (al_file s) = Ok (true, None) /\ read_all (al_file s) = Ok (map to_dict rs) /\
  al_seq s = Z.of_nat (length rs) /\
  start_log (al_file s) ts = Ok s /\
  (c = Whole -> forall ev actor payload ts0,
     let r := make_record sha run_id s ev actor payload ts0 in
     start_log (torn_file (al_file s) r InsideCharacter) ts = Raise ValueError /\
     forall t, t <> InsideCharacter -> exists s', start_log (torn_file (al_file s) r t) ts = Ok s' /\
       check_chain (al_file s') = Ok (true, None) /\ read_all (al_file s') = Ok (map to_dict (records_after rs s r t ts))).
Proof.
  intros H%life_healthy Hm. destruct c; [|clear Hm|contradiction]; cbn [healthy] in H.
  - pose proof (sound_lines _ _ _ H) as El. pose proof H as (Hf & Hc & Hs & _).
    split; [now apply (verify_lines sha _ rs)|]. split; [now apply read_all_lines|]. split; [exact Hs|].
    split; [exact (reopen sha int_of_text text_of run_id _ s ts H)|]. intros _ ev actor payload ts0 r.
    split; [exact (reopen_inside rs s r ts H)|]. intros t Ht. destruct t; [| |contradiction|].
    + exists s. split; [exact (reopen sha int_of_text text_of run_id _ s ts H)|].
      split; [now apply (verify_lines sha _ rs)|now apply read_all_lines].
    + eexists. split; [exact (reopen_torn sha int_of_text text_of run_id _ s ts H)|].
      pose proof (sound_append sha run_id rs s "system.start" "audit" (repair_payload (al_seq s) (al_last_hash s)) ts H) as H'.
      pose proof (sound_lines _ _ _ H') as El'. split; [|now apply read_all_lines].
      apply (verify_lines sha _ _ El'). apply H'.
    + eexists. split; [exact (reopen_newline rs s ev actor payload ts0 ts H)|].
      pose proof (tear_dangling rs s r H Hf (record_chained rs s ev actor payload ts0 H)) as D.
      pose proof (dangling_lines sha _ _ D) as El'. cbn [al_file] in El' |- *. split; [|now apply read_all_lines].
      apply (verify_lines sha _ _ El'). now destruct D as (? & ? & _ & _ & Hc' & _).
  - pose proof (dangling_lines sha _ _ H) as El. pose proof H as (? & ? & _ & _ & Hc & Hs & _).
    split; [now apply (verify_lines sha _ rs)|]. split; [now apply read_all_lines|]. split; [exact Hs|].
    split; [exact (reopen_dangling sha int_of_text text_of run_id _ s ts H)|]. discriminate.
Qed.

(** Two journals that verify and end in the same hash hold the same hashed
    fields in the same order, unless two of their records collide; but dropping
    lines from the end of a journal is not seen by its verification. *)
Theorem verified_tip_pins_history f f' v v' :
  check_chain f = Ok (true, v) -> check_chain f' = Ok (true, v') ->
  let bs := bodies (iter_records f) in
  let bs' := bodies (iter_records f') in
  (no_collision sha (bs ++ bs') -> bs <> [] -> bs' <> [] -> tip sha GENESIS bs = tip sha GENESIS bs' -> bs = bs') /\
  (forall kept dropped, all_lines f = kept ++ dropped -> check_chain (mkLogFile kept None) = Ok (true, None)).
Proof.
  intros H H'. cbv zeta. pose proof (verify_linked _ _ _ _ _ H) as [Hl _].
  pose proof (verify_linked _ _ _ _ _ H') as [Hl' _]. split.
  - intros Hc Hne Hne' E. apply (linked_unique sha); try assumption.
    revert Hc Hne Hne' E Hl Hl'. generalize (bodies (iter_records f)) (bodies (iter_records f')). intros bs bs'.
    destruct bs as [|b bs _] using rev_ind; [done|]. destruct bs' as [|b' bs' _] using rev_ind; [done|].
    intros Hc _ _ E Hl Hl'. unfold tip in E. rewrite !last_snoc in E.
    assert (Eb : b = b') by (apply Hc; [apply elem_last_l|apply elem_last_r|exact E]). subst b'.
    apply linked_snoc in Hl as (_ & H1 & _). apply linked_snoc in Hl' as (_ & H2 & _).
    pose proof (eq_int_inj _ _ _ H1 H2). rewrite !length_app. cbn. lia.
  - intros kept dropped E. unfold verify, iter_records in *. rewrite E in H.
    assert (Happ : forall n, exists t, read_lines n (kept ++ dropped) = read_lines n kept ++ t).
    { clear. induction kept as [|l kept IH]; intros n; [now exists (read_lines n dropped)|].
      destruct (IH (n + 1)%Z) as [t Ht]. exists t. cbn [app read_lines]. now rewrite Ht, app_assoc. }
    destruct (Happ 1%Z) as [t Ht]. rewrite Ht in H. unfold all_lines. cbn [lf_lines lf_tail option_list].
    rewrite app_nil_r. exact (verify_prefix _ _ _ _ _ _ H).
Qed.

(** A record that lost its newline is lost to what is written after it: the next
    record lands on the same line, both are lost to the readers and the chain no
    longer verifies. *)
Theorem unrepaired_tears rs s ev actor payload :
  life Dangling rs s ->
  check_chain (al_file s) = Ok (true, None) /\
  check_chain (al_file (add_record ev actor payload 0 s)) = Ok (false, None).
Proof.
  intros H%life_healthy. cbn [healthy] in H. pose proof (dangling_lines sha _ _ H) as El.
  destruct H as (rs0 & r & -> & Hf & Hc & _). split; [now apply (verify_lines sha _ (rs0 ++ [r]))|].
  unfold verify, iter_records, all_lines, append. rewrite Hf. cbn [al_file lf_lines lf_tail option_list].
  rewrite app_nil_r. apply verify_garbage. now apply chained_app in Hc.
Qed.
End Guarantees.

(** ** Witnesses *)

(** A digest that tells the records of a short journal apart. *)
Definition demo_sha (b : Body) : string := match b_seq b with JInt 1 => "one" | JInt 2 => "two" | _ => "" end.

Definition demo_open (ts : Z) : AuditLog := mkLog (mkLogFile [] None) 0 GENESIS.
Definition demo_log : AuditLog := append demo_sha "run" "order.intent" "system" JNull 1 (demo_open 0).
Definition demo_records : list AuditRecord :=
  [make_record demo_sha "run" (demo_open 0) "order.intent" "system" JNull 1].

Lemma demo_life : life demo_sha (fun _ => None) (fun _ => "") "run" Whole demo_records demo_log.
Proof.
  apply (life_append demo_sha (fun _ => None) (fun _ => "") "run" Whole [] (demo_open 0)).
  now apply life_new with 0%Z.
Qed.

(** The second record is cut in two; the next process opens the journal. *)
Definition demo_repair : AuditRecord :=
  make_record demo_sha "run" demo_log "system.start" "audit" (repair_payload 1 "one") 5.
Definition demo_reopened : AuditLog := append demo_sha "run" "system.start" "audit" (repair_payload 1 "one") 5 demo_log.

Lemma demo_crash : life demo_sha (fun _ => None) (fun _ => "") "run" Whole (demo_records ++ [demo_repair]) demo_reopened.
Proof.
  apply (life_crash demo_sha (fun _ => None) (fun _ => "") "run" Whole demo_records demo_log
           "order.sent" "system" JNull 2 PartOfLine 5 demo_reopened demo_life).
  vm_compute. reflexivity.
Qed.

Lemma journal_survives_witness :
  verify demo_sha (al_file demo_reopened) = Ok (true, None) /\
  read_all (al_file demo_reopened) = Ok (map to_dict (demo_records ++ [demo_repair])) /\
  open_log demo_sha (fun _ => None) (fun _ => "") "run" (al_file demo_reopened) 7 = Ok demo_reopened.
Proof.
  destruct (journal_survives demo_sha (fun _ => None) (fun _ => "") "run" Whole _ demo_reopened 7 demo_crash ltac:(discriminate))
    as (H1 & H3 & _ & H2 & _).
  split; [exact H1|]. split; [exact H3|exact H2].
Defined.

Lemma demo_verified : verify demo_sha (al_file demo_log) = Ok (true, None).
Proof. vm_compute. reflexivity. Qed.

Lemma verified_tip_pins_history_witness :
  verify demo_sha (mkLogFile [] None) = Ok (true, None).
Proof.
  exact (proj2 (verified_tip_pins_history demo_sha (al_file demo_log) (al_file demo_log) None None
                  demo_verified demo_verified) [] (all_lines (al_file demo_log)) eq_refl).
Defined.

(** The second record loses its newline. *)
Definition demo_second : AuditRecord := make_record demo_sha "run" demo_log "order.sent" "system" JNull 2.
Definition demo_dangling : AuditLog := mkLog (torn_file (al_file demo_log) demo_second NewlineLost) 2 "two".

Lemma unrepaired_tears_witness : verify demo_sha (al_file (append demo_sha "run" "" "" JNull 0 demo_dangling)) = Ok (false, None).
Proof.
  refine (proj2 (unrepaired_tears demo_sha (fun _ => None) (fun _ => "") "run" (demo_records ++ [demo_second]) demo_dangling "" "" JNull _)).
  apply (life_crash demo_sha (fun _ => None) (fun _ => "") "run" Whole demo_records demo_log
           "order.sent" "system" JNull 2 NewlineLost 5 demo_dangling demo_life).
  vm_compute. reflexivity.
Defined.
