(* ===== verification/Trials.v ===== *)
(** [sentinel/research/trials.py]: the ledger of everything that was searched, and
    the trial count the deflated Sharpe is charged with.  The tables are lists of
    rows; [digest] is the hash of the serialised key, [family_of] the family the
    strategy registry knows.  Opening and migrating the file, the listing and the
    sentence of the report are not modelled. *)

From Stdlib Require Import ZArith Lia String.
From stdpp Require Import base strings list.
From S2P Require Import Prelude StateExn PyDict PyJson.

Local Open Scope py_scope.

Inductive Kind := Search | Validation.
#[export] Instance Kind_eq_dec : EqDecision Kind.
Proof. solve_decision. Defined.

(** [kind] as it is passed. *)
Definition kind_of (text : string) : option Kind :=
  if bool_decide (text = "search") then Some Search
  else if bool_decide (text = "validation") then Some Validation else None.

Record Trial := mkTrial {
  tr_key : string;
  tr_strategy : string;
  tr_family : string;
  tr_kind : Kind;
  tr_first_seen_ns : Z;
  tr_last_seen_ns : Z;
  tr_runs : Z
}.

Record TrialSession := mkTrialSession { ts_key : string; ts_session : string; ts_seen_ns : Z }.

Record Ledger := mkLedger {
  le_trials : list Trial;
  le_sessions : list TrialSession;
  le_existed_on_open : bool
}.

(** What [record] is given. *)
Record Recorded := mkRecorded {
  rd_strategy : string;
  rd_family : string;
  rd_params : list (string * json);
  rd_instruments : list string;
  rd_timeframe : string;
  rd_data_window : string;
  rd_kind : string;
  rd_session_id : string
}.

(** [TrialSummary], the figures. *)
Record TrialSummary := mkTrialSummary {
  su_strategy : string;
  su_family : string;
  su_strategy_trials : Z;
  su_family_trials : Z;
  su_sessions : Z;
  su_total_runs : Z;
  su_first_seen_ns : option Z;
  su_last_seen_ns : option Z
}.

(** [TrialSummary.charge]. *)
Definition charge (s : TrialSummary) : Z := Z.max (su_strategy_trials s) (su_family_trials s).

(** [effective_trial_count]. *)
Definition effective_trial_count (declared ledger variants floor : Z) : Z :=
  Z.max (Z.max (Z.max declared ledger) variants) floor.

Section Ledger.
Variable digest : json -> string.
Variable family_of : string -> option string.

(** [trial_key]. *)
Definition trial_key (strategy : string) (params : list (string * json)) (instruments : list string)
    (timeframe data_window : string) : string :=
  digest (JObj [("strategy", JStr strategy); ("params", JObj params);
                ("instruments", JList (map JStr (sorted_strings instruments)));
                ("timeframe", JStr timeframe); ("data_window", JStr data_window)]).

Definition key_of (r : Recorded) : string :=
  trial_key (rd_strategy r) (rd_params r) (rd_instruments r) (rd_timeframe r) (rd_data_window r).

Definition LM (A : Type) : Type := M Ledger A.

(** [CASE WHEN ... THEN 'search' ELSE trials.kind END]. *)
Definition stricter (old new : Kind) : Kind :=
  match old, new with Search, _ | _, Search => Search | _, _ => old end.

(** [INSERT INTO trials ... ON CONFLICT(trial_key) DO UPDATE]. *)
Fixpoint upsert_trial (new : Trial) (rows : list Trial) : list Trial :=
  match rows with
  | [] => [new]
  | r :: rest =>
      if bool_decide (tr_key r = tr_key new) then
        mkTrial (tr_key r) (tr_strategy r) (tr_family r) (stricter (tr_kind r) (tr_kind new)) (tr_first_seen_ns r)
          (tr_last_seen_ns new) (tr_runs r + 1)%Z :: rest
      else r :: upsert_trial new rest
  end.

(** [INSERT OR IGNORE INTO trial_sessions]. *)
Definition add_session (new : TrialSession) (rows : list TrialSession) : list TrialSession :=
  if existsb (fun r => bool_decide (ts_key r = ts_key new) && bool_decide (ts_session r = ts_session new)) rows
  then rows else rows ++ [new].

(** [TrialLedger.record] at the time [now]. *)
Definition record (now : Z) (r : Recorded) : LM string :=
  match kind_of (rd_kind r) with
  | None => throw ValueError
  | Some kind =>
      let key := key_of r in
      modify (fun l => mkLedger
        (upsert_trial (mkTrial key (rd_strategy r) (rd_family r) kind now now 1) (le_trials l))
        (add_session (mkTrialSession key (rd_session_id r) now) (le_sessions l)) true) ;!
      ret key
  end.

(** [record_many]. *)
Definition record_many (trials : list (Z * Recorded)) : LM unit := each (fun t => record t.1 t.2 ;! ret tt) trials.

(** A filter of a query: an argument that is empty or [None] does not filter. *)
Definition by_text (arg : option string) (x : string) : bool :=
  match arg with Some s => bool_decide (s = "") || bool_decide (x = s) | None => true end.
Definition by_kind (arg : option Kind) (k : Kind) : bool :=
  match arg with Some k' => bool_decide (k = k') | None => true end.
Definition matches (strategy family : option string) (kind : option Kind) (t : Trial) : bool :=
  by_kind kind (tr_kind t) && by_text strategy (tr_strategy t) && by_text family (tr_family t).

(** [count]. *)
Definition count (strategy family : option string) (kind : option Kind) (l : Ledger) : Z :=
  Z.of_nat (length (List.filter (matches strategy family kind) (le_trials l))).

(** [session_count]: the join, then the distinct sessions. *)
Definition session_count (strategy family : option string) (kind : option Kind) (l : Ledger) : Z :=
  Z.of_nat (length (remove_dups (flat_map (fun s =>
    if existsb (fun t => bool_decide (tr_key t = ts_key s) && matches strategy family kind t) (le_trials l)
    then [ts_session s] else []) (le_sessions l)))).

(** [MIN] and [MAX] of a column. *)
Definition minimum (xs : list Z) : option Z := match xs with [] => None | x :: r => Some (fold_left Z.min r x) end.
Definition maximum (xs : list Z) : option Z := match xs with [] => None | x :: r => Some (fold_left Z.max r x) end.

(** [_recorded_family]: the row last seen; the first of those seen together. *)
Definition recorded_family (strategy : string) (l : Ledger) : option string :=
  let rows := List.filter (fun t => bool_decide (tr_strategy t = strategy)) (le_trials l) in
  match rows with
  | [] => None
  | r :: rest => Some (tr_family (fold_left (fun a b => if (tr_last_seen_ns a <? tr_last_seen_ns b)%Z then b else a) rest r))
  end.

(** [x or y] on texts. *)
Definition or_text (x y : option string) : option string :=
  match x with Some s => if bool_decide (s = "") then y else x | None => y end.

(** [summary]. *)
Definition summary (strategy : string) (family : option string) (l : Ledger) : TrialSummary :=
  let family := match family with
                | Some f => f
                | None => default "unclassified" (or_text (or_text (family_of strategy) (recorded_family strategy l))
                                                    (Some "unclassified"))
                end in
  let rows := List.filter (fun t => bool_decide (tr_strategy t = strategy) && bool_decide (tr_kind t = Search)) (le_trials l) in
  mkTrialSummary strategy family (Z.of_nat (length rows)) (count None (Some family) (Some Search) l)
    (session_count None (Some family) (Some Search) l) (foldr Z.add 0%Z (map tr_runs rows))
    (minimum (map tr_first_seen_ns rows)) (maximum (map tr_last_seen_ns rows)).

(** ** The rows, by key *)

Fixpoint get_trial (k : string) (rows : list Trial) : option Trial :=
  match rows with [] => None | r :: rest => if bool_decide (tr_key r = k) then Some r else get_trial k rest end.

Definition merge (old new : Trial) : Trial :=
  mkTrial (tr_key old) (tr_strategy old) (tr_family old) (stricter (tr_kind old) (tr_kind new)) (tr_first_seen_ns old)
    (tr_last_seen_ns new) (tr_runs old + 1)%Z.

Lemma get_upsert new rows k : get_trial k (upsert_trial new rows) =
  if bool_decide (tr_key new = k)
  then Some (match get_trial k rows with Some r => merge r new | None => new end) else get_trial k rows.
Proof.
  induction rows as [|r rows IH]; cbn [upsert_trial get_trial]; [reflexivity|].
  destruct (bool_decide_reflect (tr_key r = tr_key new)) as [E|E]; cbn [get_trial tr_key].
  - rewrite <- E. now destruct (bool_decide (tr_key r = k)).
  - rewrite IH. destruct (bool_decide_reflect (tr_key r = k)) as [Hk|]; [|reflexivity].
    now rewrite bool_decide_eq_false_2 by congruence.
Qed.

Lemma upsert_keys new rows : map tr_key (upsert_trial new rows) =
  if bool_decide (tr_key new ∈ map tr_key rows) then map tr_key rows else map tr_key rows ++ [tr_key new].
Proof.
  induction rows as [|r rows IH]; cbn [upsert_trial map]; [reflexivity|].
  destruct (bool_decide_reflect (tr_key r = tr_key new)) as [E|E]; cbn [map tr_key].
  - now rewrite bool_decide_eq_true_2 by (rewrite E; left).
  - rewrite IH. destruct (bool_decide_reflect (tr_key new ∈ map tr_key rows)) as [H|H].
    + now rewrite bool_decide_eq_true_2 by (now right).
    + rewrite bool_decide_eq_false_2; [reflexivity|]. rewrite elem_of_cons. intros [?|?]; congruence.
Qed.

Lemma upsert_NoDup new rows : NoDup (map tr_key rows) -> NoDup (map tr_key (upsert_trial new rows)).
Proof.
  rewrite upsert_keys. case_bool_decide as E; [auto|]. intros H. apply NoDup_app. split; [exact H|]. split; [|apply NoDup_singleton].
  intros x Hx ->%list_elem_of_singleton. auto.
Qed.

Lemma get_trial_elem t rows : NoDup (map tr_key rows) -> t ∈ rows <-> get_trial (tr_key t) rows = Some t.
Proof.
  induction rows as [|r rows IH]; cbn [map get_trial]; [split; [now intros ?%not_elem_of_nil|discriminate]|].
  rewrite NoDup_cons, elem_of_cons. intros [Hr Hd]. destruct (bool_decide_reflect (tr_key r = tr_key t)) as [E|E].
  - split; [intros [->|Hin]; [reflexivity|]|intros [= ->]; now left]. destruct Hr. rewrite E. now apply list_elem_of_fmap_2.
  - rewrite <- IH by exact Hd. split; [intros [->|]; congruence|auto].
Qed.

(** ** Counting *)

(** A row counts more once it is known to be a search. *)
Lemma upsert_counts (p : Trial -> bool) new rows : (forall r, p r = true -> p (merge r new) = true) ->
  length (List.filter p rows) <= length (List.filter p (upsert_trial new rows)).
Proof.
  intros Hp. induction rows as [|r rows IH]; cbn [upsert_trial List.filter length]; [lia|].
  case_bool_decide; cbn [List.filter].
  - fold (merge r new). specialize (Hp r). destruct (p r); [rewrite Hp by reflexivity; cbn; lia|]. destruct (p (merge r new)); cbn; lia.
  - destruct (p r); cbn; lia.
Qed.

(** What is charged to a strategy. *)
Definition charged (strategy family : string) (l : Ledger) : Z := charge (summary strategy (Some family) l).

Lemma record_charged now r strategy family l : (charged strategy family l <= charged strategy family (record now r l).1)%Z.
Proof.
  unfold record. destruct (kind_of (rd_kind r)) as [kind|]; [|cbn; lia]. cbn [mbind_ modify ret fst].
  unfold charged, charge, summary, count. cbn [su_strategy_trials su_family_trials le_trials].
  set (new := mkTrial _ _ _ _ _ _ _).
  assert (H1 : forall p : Trial -> bool, (forall t, p t = true -> p (merge t new) = true) ->
                 (Z.of_nat (length (List.filter p (le_trials l))) <= Z.of_nat (length (List.filter p (upsert_trial new (le_trials l)))))%Z).
  { intros p Hp. apply Nat2Z.inj_le, upsert_counts, Hp. }
  apply Z.max_le_compat; apply H1; intros t; unfold matches; cbn [by_kind by_text tr_strategy tr_kind tr_family merge]; destruct (tr_kind t);
    cbn [stricter]; try (rewrite andb_false_r; discriminate); auto; discriminate.
Qed.

(** The distinct keys a family was searched with. *)
Definition searched (family : string) (ops : list (Z * Recorded)) : list string :=
  map (fun t => key_of t.2) (List.filter (fun t => bool_decide (kind_of (rd_kind t.2) = Some Search) &&
                                                   bool_decide (rd_family t.2 = family)) ops).

(** A key has one family. *)
Definition consistent (ops : list (Z * Recorded)) : Prop :=
  forall t t', t ∈ ops -> t' ∈ ops -> key_of t.2 = key_of t'.2 -> rd_family t.2 = rd_family t'.2.

Definition empty_ledger : Ledger := mkLedger [] [] false.

(** The rows say what was recorded. *)
Record explains (ops : list (Z * Recorded)) (l : Ledger) : Prop := mkExplains {
  ex_keys : NoDup (map tr_key (le_trials l));
  ex_row k t : get_trial k (le_trials l) = Some t -> tr_key t = k /\
    (exists o, o ∈ ops /\ key_of o.2 = k /\ rd_family o.2 = tr_family t) /\
    (tr_kind t = Search <-> exists o, o ∈ ops /\ key_of o.2 = k /\ kind_of (rd_kind o.2) = Some Search);
  ex_all o : o ∈ ops -> is_Some (get_trial (key_of o.2) (le_trials l))
}.

Lemma explains_record ops l now r l' key : explains ops l -> record now r l = (l', Ok key) -> explains (ops ++ [(now, r)]) l'.
Proof.
  intros [H1 H2 H3] Hr. unfold record in Hr. destruct (kind_of (rd_kind r)) as [kind|] eqn:Ek; [|discriminate].
  injection Hr as <- <-. set (new := mkTrial _ _ _ _ _ _ _). cbn [le_trials].
  assert (Hin : forall o, o ∈ ops ++ [(now, r)] <-> o ∈ ops \/ o = (now, r)).
  { intros o. rewrite elem_of_app, list_elem_of_singleton. reflexivity. }
  split; cbn [le_trials].
  - now apply upsert_NoDup.
  - intros k t. rewrite get_upsert. destruct (bool_decide_reflect (tr_key new = k)) as [<-|Hk].
    + change (tr_key new) with (key_of r). intros [= <-]. destruct (get_trial (key_of r) (le_trials l)) as [old|] eqn:Eg.
      * destruct (H2 _ _ Eg) as (Ho & (o & Ho1 & Ho2 & Ho3) & Hk). split; [exact Ho|]. split.
        { exists o. rewrite Hin. auto. }
        cbn [merge tr_kind]. split.
        -- destruct (tr_kind old) eqn:Eo; cbn [stricter].
           ++ intros _. destruct (proj1 Hk eq_refl) as (o' & ?). exists o'. rewrite Hin. intuition.
           ++ cbn [tr_kind new]. destruct kind; [|discriminate]. intros _. exists (now, r). rewrite Hin. auto.
        -- intros (o' & Hi & Hkey & Hs). apply Hin in Hi as [Hi | ->].
           ++ assert (Eo : tr_kind old = Search) by (apply Hk; eauto). now rewrite Eo.
           ++ cbn [snd] in Hs. rewrite Ek in Hs. injection Hs as ->. now destruct (tr_kind old).
      * split; [reflexivity|]. split; [exists (now, r); rewrite Hin; auto|]. cbn [tr_kind new]. split.
        -- intros ->. exists (now, r). rewrite Hin. auto.
        -- intros (o & Hi & Hkey & Hs). apply Hin in Hi as [Hi | ->].
           ++ destruct (H3 o Hi) as [x Hx]. rewrite Hkey, Eg in Hx. discriminate.
           ++ cbn [snd] in Hs. rewrite Ek in Hs. now injection Hs.
    + intros Hg. destruct (H2 _ _ Hg) as (Ho & (o & Ho1 & Ho2 & Ho3) & Hkd). split; [exact Ho|]. split.
      * exists o. rewrite Hin. auto.
      * rewrite Hkd. split; intros (o' & Hi & Hkey & Hs); exists o'; [rewrite Hin; auto|].
        apply Hin in Hi as [Hi | ->]; [auto|]. now destruct Hk.
  - intros o. rewrite Hin, get_upsert. intros [Hi | ->].
    + destruct (bool_decide_reflect (tr_key new = key_of o.2)); [eauto|now apply H3].
    + rewrite bool_decide_eq_true_2 by reflexivity. eauto.
Qed.

Lemma explains_many : forall ops done l l', explains done l -> record_many ops l = (l', Ok tt) -> explains (done ++ ops) l'.
Proof.
  induction ops as [|[now r] ops IH]; intros done l l' Hl; cbn [record_many each].
  - intros [= <-]. now rewrite app_nil_r.
  - intros (l1 & [] & H1 & H2)%mbind_Ok. apply mbind_Ok in H1 as (l2 & key & H1 & [= <-]).
    pose proof (explains_record _ _ _ _ _ _ Hl H1) as Hd. specialize (IH _ _ _ Hd H2). now rewrite <- app_assoc in IH.
Qed.

Lemma explains_empty : explains [] empty_ledger.
Proof. split; cbn; [apply NoDup_nil_2|discriminate|now intros o ?%not_elem_of_nil]. Qed.

Lemma NoDup_keys_filter (p : Trial -> bool) rows : NoDup (map tr_key rows) -> NoDup (map tr_key (List.filter p rows)).
Proof.
  induction rows as [|r rows IH]; cbn; [auto|]. rewrite NoDup_cons. intros [Hr Hd]. destruct (p r); [|auto].
  cbn. apply NoDup_cons. split; [|auto]. intros (t & Et & Hin)%list_elem_of_fmap. apply Hr.
  apply list_elem_of_In, List.filter_In in Hin as [Hin _]. rewrite Et. apply list_elem_of_fmap_2, list_elem_of_In, Hin.
Qed.

Lemma searched_elem family ops k :
  k ∈ searched family ops <-> exists o, o ∈ ops /\ key_of o.2 = k /\ kind_of (rd_kind o.2) = Some Search /\ rd_family o.2 = family.
Proof.
  unfold searched. rewrite list_elem_of_fmap. split.
  - intros (o & -> & Hin). apply list_elem_of_In, List.filter_In in Hin as [Hin [H1 H2]%andb_prop].
    apply bool_decide_eq_true in H1, H2. exists o. rewrite list_elem_of_In. auto.
  - intros (o & Hin & <- & H1 & H2). exists o. split; [reflexivity|]. apply list_elem_of_In, List.filter_In.
    split; [now apply list_elem_of_In|]. now rewrite !bool_decide_eq_true_2.
Qed.

Lemma counts_searches family ops l : family <> "" -> consistent ops -> explains ops l ->
  count None (Some family) (Some Search) l = Z.of_nat (length (remove_dups (searched family ops))).
Proof.
  intros Hf Hc [H1 H2 H3]. unfold count. f_equal. rewrite <- (length_map tr_key). apply Permutation_length.
  apply NoDup_Permutation; [now apply NoDup_keys_filter|apply NoDup_remove_dups|]. intros k.
  rewrite elem_of_remove_dups, searched_elem, list_elem_of_fmap. split.
  - intros (t & -> & Hin). apply list_elem_of_In, List.filter_In in Hin as [Hin Hm]. apply list_elem_of_In in Hin.
    apply get_trial_elem in Hin; [|exact H1]. unfold matches, by_kind, by_text in Hm.
    rewrite (bool_decide_eq_false_2 (family = "")) in Hm by exact Hf. rewrite andb_true_r in Hm. cbn [orb] in Hm.
    apply andb_prop in Hm as [Hk%bool_decide_eq_true Hfam%bool_decide_eq_true].
    destruct (H2 _ _ Hin) as (_ & (o & Ho1 & Ho2 & Ho3) & Hs). apply Hs in Hk as (o' & Hi' & Hk' & Hs').
    exists o'. repeat split; auto. rewrite <- Hfam, <- Ho3. apply Hc; auto. congruence.
  - intros (o & Hin & Hk & Hs & Hfam). destruct (H3 o Hin) as [t Ht]. exists t.
    destruct (H2 _ _ Ht) as (Ekey & (o' & Ho1 & Ho2 & Ho3) & Hkd). split; [congruence|]. apply list_elem_of_In, List.filter_In.
    split; [apply list_elem_of_In, get_trial_elem; [exact H1|now rewrite Ekey]|].
    unfold matches, by_kind, by_text. rewrite (bool_decide_eq_true_2 (tr_kind t = Search)) by (apply Hkd; eauto).
    assert (Et : tr_family t = family) by (rewrite <- Hfam, <- Ho3; apply Hc; auto; congruence).
    rewrite (bool_decide_eq_true_2 (tr_family t = family)) by exact Et. now rewrite orb_true_r.
Qed.

Lemma many_charged strategy family : forall ops l, (charged strategy family l <= charged strategy family (record_many ops l).1)%Z.
Proof.
  induction ops as [|[now r] ops IH]; intros l; cbn [record_many each]; [cbn; lia|]. unfold mbind_. cbn [fst snd].
  pose proof (record_charged now r strategy family l) as H. destruct (record now r l) as [l1 [key|e]]; cbn [ret fst] in *; [|exact H].
  etransitivity; [exact H|apply IH].
Qed.

(** C17: A search is charged for.  After any sequence of records that keeps one
    family to a key, the ledger counts the distinct configurations the family was
    searched with: running one again, or validating it, before or after, adds
    nothing and takes nothing away.  The count the deflated Sharpe gate uses is at
    least that number, at least what was declared and evaluated, and at least two,
    and no later record, nor one that fails, makes the charge of any strategy
    smaller. *)
Theorem search_is_charged ops l strategy family declared variants :
  record_many ops empty_ledger = (l, Ok tt) -> consistent ops -> family <> "" ->
  let distinct := Z.of_nat (length (remove_dups (searched family ops))) in
  let n := effective_trial_count declared (charged strategy family l) variants 2 in
  count None (Some family) (Some Search) l = distinct /\
  (distinct <= n /\ declared <= n /\ variants <= n /\ 2 <= n)%Z /\
  forall more, (charged strategy family l <= charged strategy family (record_many more l).1)%Z.
Proof.
  intros Hl Hc Hf distinct n. pose proof (explains_many ops [] _ _ explains_empty Hl) as He.
  assert (Hn : count None (Some family) (Some Search) l = distinct) by now apply counts_searches.
  split; [exact Hn|]. split; [|intros more; apply many_charged].
  assert (distinct <= charged strategy family l)%Z by (rewrite <- Hn; apply Z.le_max_r).
  unfold n, effective_trial_count. lia.
Qed.
End Ledger.

(** ** A witness *)

Definition demo_key (j : json) : string := match j with JObj (("strategy", JStr s) :: ("params", JObj ((k, _) :: _)) :: _) => s +:+ k | _ => "" end.
Definition demo_trial (strategy param kind : string) : Recorded :=
  mkRecorded strategy "trend" [(param, JInt 1)] ["EUR_USD"] "H4" "w" kind "s".
Definition demo_searches : list (Z * Recorded) :=
  [(1, demo_trial "donchian" "a" "validation"); (2, demo_trial "donchian" "a" "search"); (3, demo_trial "donchian" "b" "search");
   (4, demo_trial "ema" "a" "search"); (5, demo_trial "ema" "a" "validation")]%Z.

Example search_is_charged_witness : let l := (record_many demo_key demo_searches empty_ledger).1 in
  count None (Some "trend") (Some Search) l = 3%Z /\ (3 <= effective_trial_count 1 (charged (fun _ => None) "donchian" "trend" l) 0 2)%Z.
Proof.
  destruct (search_is_charged demo_key (fun _ => None) demo_searches (record_many demo_key demo_searches empty_ledger).1
              "donchian" "trend" 1 0) as (H1 & (H2 & _) & _); [vm_compute; reflexivity| |discriminate|split; assumption].
  intros t t' Ht Ht' _. unfold demo_searches in Ht, Ht'. rewrite !elem_of_cons in Ht, Ht'.
  intuition (subst; try reflexivity); exfalso; eapply not_elem_of_nil; eassumption.
Defined.
