(* ===== verification/Verdicts.v ===== *)
(** [sentinel/research/verdicts.py]: the registry of acceptance verdicts, the
    fingerprint that binds a verdict to a configuration, and the check of the
    badges of a configuration at the start and at a write
    ([api/state.py]).  A validated configuration is a record; its sections are the
    values [model_dump] gives.  [digest] is the hash of a serialised value,
    [source] the digest of the source, [file_digest] that of a file that can be
    read.  Opening the database and the listing are not modelled. *)

From Stdlib Require Import ZArith Lia String.
From stdpp Require Import base strings list.
From S2P Require Import Prelude PyDecimal PyText StateExn PyDict PyJson.

Local Open Scope py_scope.

(** ** Configurations *)

(** [StrategyAllocation]. *)
Record StrategyAllocation := mkStrategyAllocation {
  sa_name : string;
  sa_enabled : bool;
  sa_weight : decimal;
  sa_instruments : list string;
  sa_timeframe : string;
  sa_params : list (string * json);
  sa_lifecycle : string;
  sa_accepted_at_ns : option Z;
  sa_acceptance_run_id : option string
}.

(** [SentinelConfig]: the sections these modules read, and the others. *)
Record SystemConfig := mkSystemConfig {
  sy_version : Z;
  sy_updated_at_ns : Z;
  sy_updated_by : string;
  sy_risk : json;
  sy_agent : list (string * json);
  sy_execution : list (string * json);
  sy_news : json;
  sy_research : json;
  sy_rest : list (string * json);
  sy_strategies : list StrategyAllocation
}.

Definition live_venue (c : SystemConfig) : bool :=
  match dict_get "venue_mode" (sy_execution c) with Some (JStr s) => bool_decide (s = "live") | _ => false end.
Definition has_badge (a : StrategyAllocation) : bool := bool_decide (sa_lifecycle a = "accepted").
(** A run id that is a text and not empty. *)
Definition run_named (r : option string) : option string :=
  match r with Some s => if bool_decide (s = "") then None else Some s | None => None end.

(** The validators of [SentinelConfig] that look at the strategies. *)
Definition valid_config (c : SystemConfig) : bool :=
  forallb (fun a => negb (has_badge a) || match run_named (sa_acceptance_run_id a) with Some _ => true | None => false end)
    (sy_strategies c)
  && (negb (live_venue c) || forallb (fun a => negb (sa_enabled a) || has_badge a) (sy_strategies c))
  && bool_decide (NoDup (map sa_name (sy_strategies c))).
Definition model_validate (c : SystemConfig) : res SystemConfig := if valid_config c then Ok c else Raise ValueError.

(** ** Verdicts *)

(** [Gate] and [Verdict] of acceptance.py. *)
Record Gate := mkGate { ga_id : string; ga_passed : bool; ga_blocking : bool }.

Record Verdict := mkVerdict {
  ve_run_id : string;
  ve_strategy : string;
  ve_created_at_ns : Z;
  ve_accepted : bool;
  ve_config_hash : string;
  ve_gates : list Gate;
  ve_declared_trials : Z;
  ve_effective_trials : Z;
  ve_data_label : string
}.

(** [Verdict.failed_gates]. *)
Definition failed_gates (v : Verdict) : list string :=
  map ga_id (List.filter (fun g => ga_blocking g && negb (ga_passed g)) (ve_gates v)).

(** A row of the table, with the verdict it stores. *)
Record VerdictRow := mkVerdictRow {
  vr_run_id : string;
  vr_strategy : string;
  vr_accepted : bool;
  vr_created_ns : Z;
  vr_stored_ns : Z;
  vr_data_label : string;
  vr_config_hash : string;
  vr_payload : Verdict
}.

Record Registry := mkRegistry { rg_rows : list VerdictRow; rg_existed_on_open : bool }.

Definition RM (A : Type) : Type := M Registry A.

(** [get]. *)
Definition get_verdict (run_id : string) (g : Registry) : option VerdictRow :=
  List.find (fun r => bool_decide (vr_run_id r = run_id)) (rg_rows g).

(** [VerdictStore.record] at the time [now]: a run id is inserted once. *)
Definition record_verdict (now : Z) (v : Verdict) (config_hash : string) : RM string :=
  let! known := gets (get_verdict (ve_run_id v)) in
  match known with
  | Some _ => throw OtherError
  | None =>
      modify (fun g => mkRegistry (rg_rows g ++
        [mkVerdictRow (ve_run_id v) (ve_strategy v) (ve_accepted v) (ve_created_at_ns v) now (ve_data_label v)
           (if bool_decide (config_hash = "") then ve_config_hash v else config_hash) v]) true) ;!
      ret (ve_run_id v)
  end.

(** [was_present]. *)
Definition was_present (g : Registry) : bool :=
  rg_existed_on_open g || negb (match rg_rows g with [] => true | _ => false end).

Inductive Refusal :=
| NoRunId | UnknownRun | OtherStrategy | DidNotPass | NotLiveQuality | NoFingerprint | OtherConfiguration | NotBound.

(** [authorises]: why not, if not. *)
Definition authorises (g : Registry) (strategy : string) (run_id : option string) (config_hash : string) : option Refusal :=
  match run_named run_id with
  | None => Some NoRunId
  | Some run_id =>
      match get_verdict run_id g with
      | None => Some UnknownRun
      | Some row =>
          if negb (bool_decide (vr_strategy row = strategy)) then Some OtherStrategy
          else if negb (vr_accepted row) then Some DidNotPass
          else if negb (bool_decide (vr_data_label row = "live-quality")) then Some NotLiveQuality
          else if bool_decide (config_hash = "") then Some NoFingerprint
          else
            let stored := strip (vr_config_hash row) in
            if negb (bool_decide (stored = "")) && negb (bool_decide (stored = config_hash)) then Some OtherConfiguration
            else if bool_decide (stored = "") then Some NotBound
            else None
      end
  end.

Section Fingerprint.
Variable digest : json -> string.
Variable file_digest : string -> option string.
Variable source : string.
Variable default_config : SystemConfig.

(** [runtime_policy]. *)
Definition runtime_policy (c : option SystemConfig) : json :=
  let c := default default_config c in
  let model_path := dict_get "meta_model_path" (sy_agent c) in
  let agent := dict_del "meta_model_path" (dict_del "manual_trading_live" (dict_del "mode" (sy_agent c))) in
  let agent := match model_path with
               | Some (JStr path) =>
                   if bool_decide (path = "") then agent
                   else dict_set "meta_model_sha256"
                          (JStr match file_digest path with Some d => d | None => "unreadable:" +:+ path end) agent
               | _ => agent
               end in
  let execution := foldl (fun d k => dict_del k d) (sy_execution c)
                     ["venue_mode"; "broker"; "expected_account_id"; "expected_account_server"] in
  JObj [("risk", sy_risk c); ("agent", JObj agent); ("execution", JObj execution); ("news", sy_news c);
        ("research", sy_research c)].

(** [config_fingerprint]. *)
Definition config_fingerprint (instruments : list string) (params : list (string * json)) (timeframe : string)
    (runtime_config : option SystemConfig) : string :=
  digest (JObj [("schema", JInt 2); ("instruments", JList (map JStr (sorted_strings instruments)));
                ("params", JObj params); ("timeframe", JStr timeframe); ("source_sha256", JStr source);
                ("runtime", runtime_policy runtime_config)]).

(** The fingerprint of an allocation under a configuration. *)
Definition badge_fingerprint (c : SystemConfig) (a : StrategyAllocation) : string :=
  config_fingerprint (sa_instruments a) (sa_params a) (sa_timeframe a) (Some c).

(** ** The check at the start *)

Inductive Violation := Demoted (name : string) (why : Refusal) | NothingToTrade.

Definition demote (a : StrategyAllocation) : StrategyAllocation :=
  mkStrategyAllocation (sa_name a) false (sa_weight a) (sa_instruments a) (sa_timeframe a) (sa_params a) "suspended" None None.

(** One allocation. *)
Definition recheck (c : SystemConfig) (g : Registry) (a : StrategyAllocation) : StrategyAllocation * list Violation :=
  if negb (has_badge a) then (a, [])
  else match authorises g (sa_name a) (sa_acceptance_run_id a) (badge_fingerprint c a) with
       | None => (a, [])
       | Some why => (demote a, [Demoted (sa_name a) why])
       end.

Definition with_strategies (l : list StrategyAllocation) (c : SystemConfig) : SystemConfig :=
  mkSystemConfig (sy_version c) (sy_updated_at_ns c) (sy_updated_by c) (sy_risk c) (sy_agent c) (sy_execution c) (sy_news c)
    (sy_research c) (sy_rest c) l.
Definition with_mode (mode : string) (c : SystemConfig) : SystemConfig :=
  mkSystemConfig (sy_version c) (sy_updated_at_ns c) (sy_updated_by c) (sy_risk c) (dict_set "mode" (JStr mode) (sy_agent c))
    (sy_execution c) (sy_news c) (sy_research c) (sy_rest c) (sy_strategies c).
Definition stamped (now : Z) (c : SystemConfig) : SystemConfig :=
  mkSystemConfig (sy_version c + 1)%Z now "startup-authority" (sy_risk c) (sy_agent c) (sy_execution c) (sy_news c)
    (sy_research c) (sy_rest c) (sy_strategies c).

(** [enforce_config_authority] at the time [now]: the configuration, what was
    refused, and whether it was repaired. *)
Definition enforce_config_authority (now : Z) (c : SystemConfig) (g : Registry) : res (SystemConfig * list Violation * bool) :=
  if existsb has_badge (sy_strategies c) && negb (was_present g) then Raise OtherError
  else
    let checked := map (recheck c g) (sy_strategies c) in
    let data := with_strategies (map fst checked) c in
    let violations := concat (map snd checked) in
    let idle := live_venue c && negb (existsb (fun a => sa_enabled a && has_badge a) (sy_strategies data)) in
    let data := if idle then with_mode "observe" data else data in
    let violations := violations ++ (if idle then [NothingToTrade] else []) in
    match violations with
    | [] => Ok (c, [], false)
    | _ => let* new := model_validate (stamped now data) in Ok (new, violations, true)
    end.

(** [_guard_privileged_fields], the badges of a configuration that is written. *)
Fixpoint guard_badges (g : Registry) (merged : SystemConfig) (l : list StrategyAllocation) : res unit :=
  match l with
  | [] => Ok tt
  | a :: rest =>
      if negb (has_badge a) then guard_badges g merged rest
      else match authorises g (sa_name a) (sa_acceptance_run_id a) (badge_fingerprint merged a) with
           | None => guard_badges g merged rest
           | Some _ => Raise ValueError
           end
  end.

(** ** What a badge rests on *)

(** A row of the registry that accepted this strategy on this fingerprint. *)
Definition earned (g : Registry) (strategy : string) (run_id : option string) (fingerprint : string) : Prop :=
  exists id row, run_id = Some id /\ id <> "" /\ get_verdict id g = Some row /\ vr_run_id row = id /\
    vr_strategy row = strategy /\ vr_accepted row = true /\ vr_data_label row = "live-quality" /\
    strip (vr_config_hash row) = fingerprint /\ fingerprint <> "".

Lemma get_verdict_spec id g row : get_verdict id g = Some row -> row ∈ rg_rows g /\ vr_run_id row = id.
Proof.
  unfold get_verdict. intros [Hin Hid]%List.find_some. apply bool_decide_eq_true in Hid. split; [|exact Hid].
  now apply list_elem_of_In.
Qed.

Lemma authorises_spec g strategy run_id h : authorises g strategy run_id h = None <-> earned g strategy run_id h.
Proof.
  unfold authorises, earned. split.
  - destruct run_id as [id|]; [|discriminate]. cbn [run_named]. case_bool_decide as Ei; [discriminate|].
    destruct (get_verdict id g) as [row|] eqn:Eg; [|discriminate]. destruct (get_verdict_spec _ _ _ Eg) as [_ Hid].
    case_bool_decide as Es; cbn [negb]; [|discriminate]. destruct (vr_accepted row) eqn:Ea; cbn [negb]; [|discriminate].
    case_bool_decide as El; cbn [negb]; [|discriminate]. case_bool_decide as Eh; [discriminate|]. cbv zeta.
    case_bool_decide as E0; cbn [negb andb]; [discriminate|]. case_bool_decide as E1; cbn [negb andb]; [|discriminate].
    intros _. now exists id, row.
  - intros (id & row & -> & Hi & Hg & Hid & Hs & Ha & Hl & Hh & Hn). cbn [run_named].
    rewrite (bool_decide_eq_false_2 _ Hi), Hg, Ha, Hh. rewrite !bool_decide_eq_true_2 by assumption. cbn [negb].
    rewrite (bool_decide_eq_false_2 _ Hn). now rewrite (bool_decide_eq_true_2 (h = h)).
Qed.

Lemma del_set_dict {A} k (v : A) d : dict_del k (dict_set k v d) = dict_del k d.
Proof.
  induction d as [|[k' v'] d IH]; cbn [dict_set dict_del].
  - now rewrite bool_decide_eq_true_2.
  - case_bool_decide as E; cbn [dict_del]; [now rewrite bool_decide_eq_true_2|]. rewrite bool_decide_eq_false_2 by exact E.
    now rewrite IH.
Qed.

Lemma get_set_other {A} k k' (v : A) d : k' <> k -> dict_get k' (dict_set k v d) = dict_get k' d.
Proof. intros H. rewrite dict_get_set. now rewrite bool_decide_eq_false_2. Qed.

(** The mode, the strategies and the stamp are not in the policy. *)
Lemma policy_repaired now mode l c :
  runtime_policy (Some (stamped now (with_mode mode (with_strategies l c)))) = runtime_policy (Some c) /\
  runtime_policy (Some (stamped now (with_strategies l c))) = runtime_policy (Some c).
Proof.
  split; [|reflexivity]. unfold runtime_policy. cbn [default sy_agent stamped with_mode with_strategies sy_risk sy_execution sy_news sy_research id].
  now rewrite del_set_dict, get_set_other.
Qed.

Lemma fingerprint_policy c c' a : runtime_policy (Some c') = runtime_policy (Some c) -> badge_fingerprint c' a = badge_fingerprint c a.
Proof. intros E. unfold badge_fingerprint, config_fingerprint. now rewrite E. Qed.

(** Each allocation is as it was, or demoted. *)
Lemma recheck_spec c g a : let r := recheck c g a in
  (r = (a, []) /\ (has_badge a = true -> earned g (sa_name a) (sa_acceptance_run_id a) (badge_fingerprint c a))) \/
  (exists why, r = (demote a, [Demoted (sa_name a) why])).
Proof.
  unfold recheck. cbv zeta. destruct (has_badge a) eqn:E; cbn [negb]; [|left; split; [reflexivity|discriminate]].
  destruct (authorises _ _ _ _) as [why|] eqn:Ea; [right; now exists why|]. left. split; [reflexivity|]. intros _.
  now apply authorises_spec.
Qed.

Lemma demoted_badge a : has_badge (demote a) = false.
Proof. reflexivity. Qed.

(** What the check leaves of a configuration. *)
Lemma checked_badges c g a : a ∈ map fst (map (recheck c g) (sy_strategies c)) -> has_badge a = true ->
  a ∈ sy_strategies c /\ earned g (sa_name a) (sa_acceptance_run_id a) (badge_fingerprint c a).
Proof.
  rewrite map_map. intros (x & Ea & Hin)%list_elem_of_fmap Hb. destruct (recheck_spec c g x) as [[Er He]|[why Er]]; rewrite Er in Ea;
    cbn [fst] in Ea; subst a; [auto|]. now rewrite demoted_badge in Hb.
Qed.

Lemma unviolated c g l : concat (map snd (map (recheck c g) l)) = [] -> map fst (map (recheck c g) l) = l.
Proof.
  induction l as [|a l IH]; cbn; [reflexivity|]. intros [H1 H2]%app_eq_nil. rewrite (IH H2).
  destruct (recheck_spec c g a) as [[-> _]|[why E]]; [reflexivity|]. rewrite E in H1. discriminate.
Qed.

Lemma checked_names c g l : map sa_name (map fst (map (recheck c g) l)) = map sa_name l.
Proof.
  induction l as [|a l IH]; cbn; [reflexivity|]. rewrite IH. destruct (recheck_spec c g a) as [[-> _]|[why ->]]; reflexivity.
Qed.

Lemma elem_forallb {A} (f : A -> bool) l : forallb f l = true <-> forall x, x ∈ l -> f x = true.
Proof. rewrite forallb_forall. split; intros H x Hx; apply H; now apply list_elem_of_In. Qed.

(** The repair leaves a configuration the validators accept. *)
Lemma checked_valid now idle c g : valid_config c = true ->
  let data := with_strategies (map fst (map (recheck c g) (sy_strategies c))) c in
  valid_config (stamped now (if idle : bool then with_mode "observe" data else data)) = true.
Proof.
  intros Hv data. unfold valid_config in *. apply andb_prop in Hv as [Hv H3]. apply andb_prop in Hv as [H1 H2].
  assert (Es : sy_strategies (stamped now (if idle then with_mode "observe" data else data)) =
               map fst (map (recheck c g) (sy_strategies c))) by now destruct idle.
  assert (El : live_venue (stamped now (if idle then with_mode "observe" data else data)) = live_venue c) by now destruct idle.
  rewrite Es, El, checked_names. rewrite !andb_true_iff. rewrite elem_forallb in H1. repeat split; [| |exact H3].
  - apply elem_forallb. intros a Hin. destruct (has_badge a) eqn:Eb; [|reflexivity].
    destruct (checked_badges c g a Hin Eb) as [Hc _]. specialize (H1 a Hc). now rewrite Eb in H1.
  - destruct (live_venue c); [|reflexivity]. cbn [negb orb] in *. rewrite elem_forallb in H2. apply elem_forallb. intros a.
    rewrite map_map. intros (x & -> & Hin)%list_elem_of_fmap. destruct (recheck_spec c g x) as [[-> _]|[why ->]]; [now apply H2|reflexivity].
Qed.

Lemma earned_stays c g a : a ∈ sy_strategies c -> has_badge a = true ->
  earned g (sa_name a) (sa_acceptance_run_id a) (badge_fingerprint c a) -> a ∈ map fst (map (recheck c g) (sy_strategies c)).
Proof.
  intros Hin Hb He. rewrite map_map. apply list_elem_of_fmap. exists a. split; [|exact Hin].
  apply authorises_spec in He. unfold recheck. now rewrite Hb, He.
Qed.

Lemma existsb_elem {A} (f : A -> bool) l : existsb f l = true -> exists x, x ∈ l /\ f x = true.
Proof. intros (x & Hin & Hf)%existsb_exists. exists x. split; [now apply list_elem_of_In|exact Hf]. Qed.

(** What a configuration may claim: every badge is earned under it, and a live one
    trades with a badge or only observes. *)
Definition claims_earned (g : Registry) (c : SystemConfig) : Prop :=
  (forall a, a ∈ sy_strategies c -> has_badge a = true ->
     earned g (sa_name a) (sa_acceptance_run_id a) (badge_fingerprint c a)) /\
  (live_venue c = true -> (exists a, a ∈ sy_strategies c /\ sa_enabled a = true /\ has_badge a = true) \/
                          dict_get "mode" (sy_agent c) = Some (JStr "observe")).

Lemma enforce_spec now c g : valid_config c = true ->
  if existsb has_badge (sy_strategies c) && negb (was_present g)
  then enforce_config_authority now c g = Raise OtherError
  else exists c' violations repaired, enforce_config_authority now c g = Ok (c', violations, repaired) /\
    valid_config c' = true /\ claims_earned g c' /\
    (forall a, a ∈ sy_strategies c -> has_badge a = true ->
       earned g (sa_name a) (sa_acceptance_run_id a) (badge_fingerprint c a) -> a ∈ sy_strategies c') /\
    (repaired = false -> c' = c).
Proof.
  intros Hv. unfold enforce_config_authority. destruct (_ && negb (was_present g)); [reflexivity|]. cbv zeta.
  set (data := with_strategies _ c). set (idle := live_venue c && _).
  assert (Hm : idle = false -> live_venue c = true -> exists a, a ∈ sy_strategies data /\ sa_enabled a = true /\ has_badge a = true).
  { unfold idle. intros Hi Hl. rewrite Hl in Hi. cbn [andb] in Hi. apply negb_false_iff, existsb_elem in Hi as (a & Ha & H%andb_prop). eauto. }
  destruct (concat _ ++ _) as [|v vs] eqn:Ev.
  - apply app_eq_nil in Ev as [E1 E2]. destruct idle eqn:Ei; [discriminate|]. exists c, [], false.
    assert (Ed : sy_strategies data = sy_strategies c) by (unfold data; cbn; now apply unviolated).
    split; [reflexivity|]. split; [exact Hv|]. split; [split|auto].
    + intros a Hin Hb. rewrite <- Ed in Hin. now apply (checked_badges c g a Hin Hb).
    + intros Hl. left. rewrite <- Ed. now apply Hm.
  - set (new := stamped now (if idle then with_mode "observe" data else data)).
    pose proof (checked_valid now idle c g Hv) as Hn. cbv zeta in Hn. fold data new in Hn.
    unfold model_validate. rewrite Hn. exists new, (v :: vs), true.
    assert (Es : sy_strategies new = sy_strategies data) by (unfold new; now destruct idle).
    assert (Ep : runtime_policy (Some new) = runtime_policy (Some c)).
    { unfold new. destruct idle; apply policy_repaired. exact "". }
    split; [reflexivity|]. split; [exact Hn|]. split; [split|split].
    + intros a Hin Hb. rewrite Es in Hin. rewrite (fingerprint_policy c new a Ep). now apply (checked_badges c g a Hin Hb).
    + intros Hl. destruct idle eqn:Ei.
      * right. unfold new. cbn. now rewrite dict_get_set, bool_decide_eq_true_2.
      * left. rewrite Es. apply Hm; [reflexivity|exact Hl].
    + intros a Hin Hb He. rewrite Es. now apply earned_stays.
    + discriminate.
Qed.

(** A configuration cannot promote itself.  Whatever a configuration file
    says, what the start lets run has a badge only on a strategy for which the
    registry holds a verdict, under that run id and that name, that passed on
    live-quality data, earned on exactly these instruments, parameters, timeframe,
    source and policies; a live configuration with no such strategy only observes.
    The repair is a valid configuration, no badge that is earned is lost, and a
    configuration with nothing to refuse is returned unchanged.  Only a registry
    that is gone, beside a configuration that claims a badge, stops the start. *)
Theorem startup_keeps_earned_badges now c g : valid_config c = true ->
  if existsb has_badge (sy_strategies c) && negb (was_present g)
  then enforce_config_authority now c g = Raise OtherError
  else exists c' violations repaired, enforce_config_authority now c g = Ok (c', violations, repaired) /\
    valid_config c' = true /\ claims_earned g c' /\
    (forall a, a ∈ sy_strategies c -> has_badge a = true ->
       earned g (sa_name a) (sa_acceptance_run_id a) (badge_fingerprint c a) -> a ∈ sy_strategies c') /\
    (repaired = false -> c' = c).
Proof. exact (enforce_spec now c g). Qed.
End Fingerprint.

(** ** A witness *)

(** A file that claims a badge no run gave, with the verdict of another strategy. *)
Definition demo_claim : SystemConfig :=
  mkSystemConfig 1 0 "owner" JNull [("mode", JStr "autonomous")] [("venue_mode", JStr "live")] JNull JNull []
    [mkStrategyAllocation "trend" true (mkDec 1 0) ["EUR_USD"] "H4" [] "accepted" (Some 5%Z) (Some "run-1")].
Definition demo_registry : Registry :=
  mkRegistry [mkVerdictRow "run-1" "carry" true 1 1 "live-quality" "h" (mkVerdict "run-1" "carry" 1 true "h" [] 1 2 "live-quality")] true.

Example startup_keeps_earned_badges_witness : exists c', valid_config c' = true /\
    claims_earned (fun _ => "h") (fun _ => None) "src" demo_claim demo_registry c' /\
    map sa_lifecycle (sy_strategies c') = ["suspended"] /\ dict_get "mode" (sy_agent c') = Some (JStr "observe").
Proof.
  pose proof (startup_keeps_earned_badges (fun _ => "h") (fun _ => None) "src" demo_claim 9 demo_claim demo_registry eq_refl) as H.
  cbn [existsb has_badge andb negb was_present] in H. destruct H as (c' & vs & r & E & Hv & Hc & _). exists c'.
  split; [exact Hv|]. split; [exact Hc|]. vm_compute in E. injection E as <- _ _. now split.
Defined.
