(* ===== verification/Acceptance.v ===== *)
(** [sentinel/research/acceptance.py]: the protocol that decides whether a strategy
    may trade real money.  The statistics (numpy and stats.py) are the operations of
    the class [Statistics]; a backtest is what the protocol reads of it.  [evaluate]
    judges the gates in the order of the source; texts are left out. *)

From Stdlib Require Import ZArith Lia Floats.SpecFloat String.
From stdpp Require Import base strings list.
From S2P Require Import Prelude PyDecimal Money Calendar PyFloat StateExn PyDict PyText PyJson Trials Verdicts.

Local Open Scope py_scope.

(** ** Layer 0 *)

(** [environment_gates]: what each gate compares. *)
Definition environment_gates (i : Instrument) (equity risk_pct stop_pips target_pips cost_pips pip_value : decimal)
    (idempotent server_stop : bool) (uptime : option spec_float) (withdrawal : option bool) : res (list Gate) :=
  let* be := break_even_win_rate target_pips stop_pips cost_pips in
  let* risk := ddiv risk_pct 100%dec in
  let* required := min_equity_for_granularity stop_pips risk i pip_value LOT_GRANULARITY_TOLERANCE in
  Ok ([mkGate "L0.1" (be <? 0.60)%dec true; mkGate "L0.2" (required <=? equity)%dec true; mkGate "L0.3" idempotent false;
       mkGate "L0.4" server_stop true]
      ++ match uptime with Some u => [mkGate "L0.5" (SFleb (float_of_Z 99) u) true] | None => [] end
      ++ match withdrawal with Some w => [mkGate "L0.6" w true] | None => [] end).

(** ** What the protocol is given *)

Class Statistics := {
  Series : Type;
  Matrix : Type;
  Factors : Type;
  observations : Series -> Z;
  sharpe_ratio : Series -> Z -> spec_float;
  path_drawdown : Series -> spec_float;
  directional_accuracy : Series -> spec_float * Z;
  alpha_significant : Series -> Factors -> Z -> spec_float -> bool;
  shape : Matrix -> list Z;
  columns : Matrix -> list Series;
  backtest_overfitting : Matrix -> Z -> spec_float;
  hansen_spa : Matrix -> spec_float;
  deflated_sharpe_ratio : Series -> Z -> option (list spec_float) -> Z -> spec_float;
  min_track_record_length : Series -> spec_float -> spec_float -> Z -> option spec_float;
  sample_variance : list spec_float -> spec_float
}.

Record ResearchConfig := mkResearchConfig {
  rc_alpha : spec_float;
  rc_pbo_max : spec_float;
  rc_min_dsr : spec_float;
  rc_cpcv_positive_path_fraction : spec_float;
  rc_require_random_walk_beat : bool;
  rc_require_factor_alpha : bool
}.

Definition FORWARD_MIN_TRADES : Z := 50.
Definition REQUIRED_GATES : list string :=
  ["L1"; "L2"; "L3"; "L4"; "L5.1"; "L5.2"; "L6"; "L7"; "L8"; "L9"; "L10"; "L11"; "L12"; "L13"].

Definition zero_float : spec_float := S754_zero false.
Definition positive (x : spec_float) : bool := SFltb zero_float x.

(** [d.get(key) is True], and [d.get(key)] as a condition. *)
Definition is_true (d : list (string * json)) (key : string) : bool :=
  match dict_get key d with Some (JBool true) => true | _ => false end.
Definition says (d : list (string * json)) (key : string) : bool := truthy (default JNull (dict_get key d)).
(** [int(d.get(key, z))]. *)
Definition get_int (d : list (string * json)) (key : string) (z : Z) : res Z :=
  int_of_json int_of_str (default (JInt z) (dict_get key d)).

Section Protocol.
Context `{!Statistics}.
Variable float_of_text : string -> option spec_float.

(** What is read of a [BacktestResult]: its diagnostics, and the instruments,
    parameters and timeframe of its snapshot. *)
Record Backtest := mkBacktest {
  bt_returns : Series;
  bt_signed_forward : Series;
  bt_sharpe : spec_float;
  bt_net_return_pct : spec_float;
  bt_max_drawdown_pct : spec_float;
  bt_n_trades : Z;
  bt_diagnostics : list (string * json);
  bt_instruments : list string;
  bt_params : list (string * json);
  bt_timeframe : string
}.

Record Evaluation := mkEvaluation {
  ev_run_id : string;
  ev_strategy_name : string;
  ev_candidate : Backtest;
  ev_baselines : list (string * Backtest);
  ev_cpcv_path_returns : option (list Series);
  ev_stressed : option Backtest;
  ev_variant_returns : option Matrix;
  ev_pbo_matrix : option Matrix;
  ev_factor_data : option Factors;
  ev_research_config : ResearchConfig;
  ev_declared_trials : Z;
  ev_trial_summary : option TrialSummary;
  ev_max_drawdown_ceiling_pct : spec_float;
  ev_periods_per_year : Z;
  ev_data_label : string;
  ev_environment : list Gate;
  ev_instruments : option (list string);
  ev_params : option (list (string * json));
  ev_timeframe : string;
  ev_unique_variants : option Z;
  ev_provenance : list (string * json);
  ev_forward : list (string * json);
  ev_runtime_config : option SystemConfig
}.

(** [float(j)]. *)
Definition float_of_json (j : json) : res spec_float :=
  match j with
  | JFloat x => Ok x
  | JInt z => match float_of_Z z with S754_infinity _ => Raise OverflowError | x => Ok x end
  | JBool b => Ok (float_of_Z (if b then 1 else 0))
  | JStr s => match float_of_text s with Some x => Ok x | None => Raise ValueError end
  | JNull | JList _ | JObj _ => Raise TypeError
  end.
Definition get_float (d : list (string * json)) (key : string) (z : Z) : res spec_float :=
  float_of_json (default (JInt z) (dict_get key d)).

(** The number of elements of an array. *)
Definition size (m : Matrix) : Z := foldr Z.mul 1%Z (shape m).
Definition nonempty (m : option Matrix) : option Matrix :=
  match m with Some m => if (size m =? 0)%Z then None else Some m | None => None end.

(** ** The gates *)

Section Gates.
Variable e : Evaluation.
Let rc := ev_research_config e.
Let c := ev_candidate e.
Let ppy := ev_periods_per_year e.
Definition cand_sharpe : spec_float := sharpe_ratio (bt_returns (ev_candidate e)) (ev_periods_per_year e).

Definition gate_baselines : bool :=
  forallb (fun b => SFltb (bt_sharpe b.2) cand_sharpe) (ev_baselines e) && positive cand_sharpe.

Definition gate_random_walk : option bool :=
  if rc_require_random_walk_beat rc then
    let (p, n) := directional_accuracy (bt_signed_forward c) in Some (SFltb p (rc_alpha rc) && (30 <=? n)%Z)
  else None.

Definition gate_factors : option bool :=
  if rc_require_factor_alpha rc then
    match ev_factor_data e with Some f => Some (alpha_significant (bt_returns c) f ppy (rc_alpha rc)) | None => None end
  else None.

Definition gate_overfitting : option bool :=
  match nonempty (ev_pbo_matrix e) with
  | Some m => Some (SFleb (backtest_overfitting m ppy) (rc_pbo_max rc))
  | None => None
  end.

(** The variants this run evaluated. *)
Definition variants_of (m : option Matrix) : Z :=
  match nonempty m with
  | Some m => match shape m with _ :: k :: _ => k | _ => 0 end
  | None => 0
  end%Z.
Definition observed_variants : Z :=
  Z.max (Z.max 0 (variants_of (ev_variant_returns e))) (variants_of (ev_pbo_matrix e)).
Definition effective_trials : Z :=
  effective_trial_count (ev_declared_trials e) (match ev_trial_summary e with Some s => charge s | None => 0%Z end)
    observed_variants 2.

(** [len(set(xs))] of floats. *)
Fixpoint distinct_floats (seen xs : list spec_float) : nat :=
  match xs with
  | [] => length seen
  | x :: rest => distinct_floats (if existsb (feqb x) seen then seen else x :: seen) rest
  end.

Definition trial_sharpes : option (list spec_float) :=
  match ev_variant_returns e with
  | Some m =>
      match shape m with
      | [_; k] =>
          if (3 <=? k)%Z then
            let candidates := map (fun col => sharpe_ratio col ppy) (columns m) in
            if Nat.leb 3 (distinct_floats [] (map (fun x => fround_to x 6) candidates))
               && SFltb (float_of_dec (mkDec 1 (-9))) (sample_variance candidates)
            then Some candidates else None
          else None
      | _ => None
      end
  | None => None
  end.

Definition gate_deflated_sharpe : bool :=
  SFleb (rc_min_dsr rc) (deflated_sharpe_ratio (bt_returns c) effective_trials trial_sharpes ppy).

Definition gate_spa : option bool :=
  match nonempty (ev_variant_returns e) with
  | Some m => Some (SFltb (hansen_spa m) (rc_alpha rc))
  | None => None
  end.

(** The paths, unless one configuration is there under several names. *)
Definition cpcv_paths : list Series :=
  match ev_unique_variants e with
  | Some n => if (n <? 2)%Z then [] else default [] (ev_cpcv_path_returns e)
  | None => default [] (ev_cpcv_path_returns e)
  end.

(** [np.mean] of conditions. *)
Definition fraction (bs : list bool) : spec_float :=
  fdiv (float_of_Z (Z.of_nat (length (List.filter id bs)))) (float_of_Z (Z.of_nat (length bs))).

Definition gate_stability : option bool :=
  match cpcv_paths with
  | [] => None
  | paths => Some (SFleb (rc_cpcv_positive_path_fraction rc)
                     (fraction (map (fun p => positive (sharpe_ratio p ppy)) paths)))
  end.

Definition gate_stress : option bool :=
  match ev_stressed e with
  | Some s => Some (positive (bt_sharpe s) && positive (bt_net_return_pct s))
  | None => None
  end.

Definition worst_drawdown : spec_float :=
  fold_left (fun w p => fmax w (path_drawdown p)) cpcv_paths (bt_max_drawdown_pct c).
Definition gate_drawdown : bool := SFleb worst_drawdown (ev_max_drawdown_ceiling_pct e).

Definition gate_power : bool :=
  match min_track_record_length (bt_returns c) zero_float (fsub (float_of_Z 1) (rc_alpha rc)) ppy with
  | Some n => SFleb n (float_of_Z (observations (bt_returns c)))
  | None => false
  end.

Definition gate_data : bool :=
  let prov := ev_provenance e in
  bool_decide (ev_data_label e = "live-quality") && is_true prov "verified" && is_true prov "bid_ask"
  && says prov "sha256" && says prov "cost_schedule" && says prov "broker".

Definition gate_runtime : res bool :=
  let diag := bt_diagnostics c in
  match default (JStr "") (dict_get "engine" diag) with
  | JStr engine =>
      if String.prefix "agent-replay" engine then
        let* cadence := get_int diag "execution_cadence_sec" (10 ^ 9) in
        let* interval := get_int diag "decision_interval_sec" 60 in
        Ok ((cadence <=? interval)%Z && is_true diag "runtime_context_complete")
      else Ok false
  | _ => Raise AttributeError
  end.

Definition gate_forward (expected_hash : string) : res bool :=
  let fwd := ev_forward e in
  if negb (is_true fwd "verified") then Ok false
  else
    let* n := get_int fwd "n_trades" 0 in
    if (n <? FORWARD_MIN_TRADES)%Z then Ok false
    else
      let* pnl := get_float fwd "net_pnl" 0 in
      if negb (positive pnl) then Ok false
      else if negb (match dict_get "runtime_hash" fwd with Some (JStr h) => bool_decide (h = expected_hash) | _ => false end)
           then Ok false
      else
        let* dd := get_float fwd "max_drawdown_pct" 101 in
        Ok (SFleb dd (ev_max_drawdown_ceiling_pct e)).

Definition gate_integrity : res bool :=
  let diag := bt_diagnostics c in
  if says diag "generation_errors" then Ok false
  else
    let* errors := get_int diag "generation_error_count" 0 in
    Ok ((errors =? 0)%Z && negb (says diag "halted") && (30 <=? bt_n_trades c)%Z).
End Gates.

(** ** The verdict *)

Section Fingerprint.
Variable digest : json -> string.
Variable file_digest : string -> option string.
Variable source : string.
Variable default_config : SystemConfig.

(** The fingerprint of the evaluated configuration under a runtime. *)
Definition evaluated_fingerprint (e : Evaluation) (runtime : option SystemConfig) : string :=
  config_fingerprint digest file_digest source default_config
    (match ev_instruments e with Some l => l | None => bt_instruments (ev_candidate e) end)
    (match ev_params e with Some p => p | None => bt_params (ev_candidate e) end)
    (if bool_decide (ev_timeframe e = "") then bt_timeframe (ev_candidate e) else ev_timeframe e) runtime.

(** A gate that is judged, or not. *)
Definition judged (id : string) (outcome : option bool) : list Gate :=
  match outcome with Some passed => [mkGate id passed true] | None => [] end.

(** The gates that a verdict must have under a configuration. *)
Definition required_gates (rc : ResearchConfig) : list string :=
  List.filter (fun id => negb (bool_decide (id = "L2") && negb (rc_require_random_walk_beat rc))
                         && negb (bool_decide (id = "L3") && negb (rc_require_factor_alpha rc))) REQUIRED_GATES.

(** [evaluate] at the time [now], without the registry. *)
Definition evaluate (now : Z) (e : Evaluation) : res Verdict :=
  let before := ev_environment e
    ++ judged "L1" (Some (gate_baselines e)) ++ judged "L2" (gate_random_walk e) ++ judged "L3" (gate_factors e)
    ++ judged "L4" (gate_overfitting e) ++ judged "L5.1" (Some (gate_deflated_sharpe e)) ++ judged "L5.2" (gate_spa e)
    ++ judged "L6" (gate_stability e) ++ judged "L7" (gate_stress e) ++ judged "L8" (Some (gate_drawdown e))
    ++ judged "L9" (Some (gate_power e)) in
  let data := List.filter (fun g => negb (bool_decide (ga_id g = "L10"))) before ++ judged "L10" (Some (gate_data e)) in
  let* parity := gate_runtime e in
  let* forward := gate_forward e (evaluated_fingerprint e (ev_runtime_config e)) in
  let* clean := gate_integrity e in
  let gates := data ++ judged "L11" (Some parity) ++ judged "L12" (Some forward) ++ judged "L13" (Some clean) in
  let missing := List.filter (fun id => negb (bool_decide (id ∈ map ga_id gates))) (required_gates (ev_research_config e)) in
  let gates := gates ++ map (fun id => mkGate id false true) missing in
  Ok (mkVerdict (ev_run_id e) (ev_strategy_name e) now (forallb (fun g => negb (ga_blocking g) || ga_passed g) gates)
        (evaluated_fingerprint e None) gates (ev_declared_trials e) (effective_trials e) (ev_data_label e)).

(** [evaluate] with a registry: every verdict is stored. *)
Definition evaluate_into (now : Z) (e : Evaluation) : RM Verdict :=
  let! v := lift (evaluate now e) in
  record_verdict now v (ve_config_hash v) ;! ret v.

(** [promote]. *)
Definition promote (now : Z) (a : StrategyAllocation) (v : Verdict) : res StrategyAllocation :=
  if negb (ve_accepted v) then Raise ValueError
  else if negb (bool_decide (ve_strategy v = sa_name a)) then Raise ValueError
  else
    let fingerprint := config_fingerprint digest file_digest source default_config (sa_instruments a) (sa_params a)
                         (sa_timeframe a) None in
    if negb (bool_decide (ve_config_hash v = "")) && negb (bool_decide (ve_config_hash v = fingerprint)) then Raise ValueError
    else if bool_decide (ve_run_id v = "") then Raise ValueError
    else Ok (mkStrategyAllocation (sa_name a) (sa_enabled a) (sa_weight a) (sa_instruments a) (sa_timeframe a) (sa_params a)
               "accepted" (Some now) (Some (ve_run_id v))).

(** [suspend]; the reason goes in the parameters. *)
Definition suspend (a : StrategyAllocation) (reason : string) : res StrategyAllocation :=
  Ok (mkStrategyAllocation (sa_name a) false (sa_weight a) (sa_instruments a) (sa_timeframe a)
        (dict_set "suspension_reason" (JStr reason) (sa_params a)) "suspended" (sa_accepted_at_ns a) (sa_acceptance_run_id a)).
End Fingerprint.
End Protocol.
