(* ===== verification/AcceptanceProps.v ===== *)
(** What an accepted verdict means, and what it is worth afterwards: the gates it
    cleared ([cleared]), the registry it is kept in, the badge of a configuration it
    stands behind, and the policy its fingerprint forgets. *)

From Stdlib Require Import ZArith Lia Floats.SpecFloat String.
From stdpp Require Import base strings list.
From S2P Require Import Prelude PyDecimal Money Calendar PyFloat PyText StateExn PyDict PyJson Trials Verdicts Acceptance.

Local Open Scope py_scope.

(** ** Gates and outcomes *)

Definition gate_ok (g : Gate) : bool := negb (ga_blocking g) || ga_passed g.

(** The gates of outcomes, the missing ones added as failures. *)
Definition gates_of (outcomes : list (string * option bool)) : list Gate := concat (map (fun o => judged o.1 o.2) outcomes).
Definition missing_of (required : list string) (gates : list Gate) : list Gate :=
  map (fun id => mkGate id false true) (List.filter (fun id => negb (bool_decide (id ∈ map ga_id gates))) required).

Lemma judged_ids outcomes id : id ∈ map ga_id (gates_of outcomes) <-> exists p, (id, Some p) ∈ outcomes.
Proof.
  unfold gates_of. induction outcomes as [|[i o] outcomes IH]; cbn [map concat].
  - split; [now intros ?%not_elem_of_nil|now intros [p ?%not_elem_of_nil]].
  - rewrite map_app, elem_of_app, IH. split.
    + intros [H|[p H]]; [|exists p; now right]. destruct o as [p|]; cbn in H; [|now apply not_elem_of_nil in H].
      apply list_elem_of_singleton in H as ->. exists p. left.
    + intros [p [[= -> <-]|H]%elem_of_cons]; [left; cbn; left|right; eauto].
Qed.

Lemma judged_ok outcomes : forallb gate_ok (gates_of outcomes) = true <-> forall id p, (id, Some p) ∈ outcomes -> p = true.
Proof.
  unfold gates_of. induction outcomes as [|[i o] outcomes IH]; cbn [map concat].
  - split; [now intros _ id p ?%not_elem_of_nil|reflexivity].
  - rewrite forallb_app, andb_true_iff, IH. split.
    + intros [H1 H2] id p [[= -> <-]|H]%elem_of_cons; [|eauto]. cbn in H1. now rewrite andb_true_r in H1.
    + intros H. split; [|intros id p Hin; apply (H id); now right]. destruct o as [p|]; cbn; [|reflexivity].
      now rewrite (H i p) by left.
Qed.

Lemma missing_ok required gates : forallb gate_ok (missing_of required gates) = true <->
  forall id, id ∈ required -> id ∈ map ga_id gates.
Proof.
  unfold missing_of. rewrite elem_forallb. split.
  - intros H id Hr. destruct (decide (id ∈ map ga_id gates)) as [Hin|Hn]; [exact Hin|]. exfalso.
    specialize (H (mkGate id false true)). cbn in H. discriminate H. apply list_elem_of_fmap. exists id. split; [reflexivity|].
    apply list_elem_of_In, List.filter_In. split; [now apply list_elem_of_In|]. now rewrite bool_decide_eq_false_2.
  - intros H g (id & -> & Hin)%list_elem_of_fmap. apply list_elem_of_In, List.filter_In in Hin as [Hr Hn].
    rewrite bool_decide_eq_true_2 in Hn by (apply H, list_elem_of_In, Hr). discriminate.
Qed.

(** A list of gates passes when the environment does and every outcome that is
    required, or there, is a pass. *)
Lemma verdict_ok environment outcomes required :
  (forall g, g ∈ environment -> ga_id g ∉ required) ->
  forallb gate_ok ((environment ++ gates_of outcomes) ++ missing_of required (environment ++ gates_of outcomes)) = true <->
  forallb gate_ok environment = true /\ (forall id p, (id, Some p) ∈ outcomes -> p = true) /\
  (forall id, id ∈ required -> exists p, (id, Some p) ∈ outcomes).
Proof.
  intros Henv. rewrite !forallb_app, !andb_true_iff, judged_ok, missing_ok. split.
  - intros [[H1 H2] H3]. split; [exact H1|]. split; [exact H2|]. intros id Hr. apply judged_ids. specialize (H3 id Hr).
    rewrite map_app, elem_of_app in H3. destruct H3 as [H3|H3]; [|exact H3]. exfalso.
    apply list_elem_of_fmap in H3 as (g & -> & Hg). exact (Henv g Hg Hr).
  - intros (H1 & H2 & H3). split; [auto|]. intros id Hr. rewrite map_app, elem_of_app. right. apply judged_ids. now apply H3.
Qed.

(** ** Evidence *)

Section Protocol.
Context `{!Statistics}.
Variable float_of_text : string -> option spec_float.
Variable digest : json -> string.
Variable file_digest : string -> option string.
Variable source : string.
Variable default_config : SystemConfig.
Implicit Types e : Evaluation.
Abbreviation fingerprint := (evaluated_fingerprint digest file_digest source default_config).
Abbreviation evaluate := (evaluate float_of_text digest file_digest source default_config).

(** An outcome that was reached, and is a pass. *)
Definition passes (o : option bool) : Prop := o = Some true.

(** What a candidate cleared: every gate, on evidence that was supplied. *)
Record cleared e : Prop := mkCleared {
  cl_baselines : gate_baselines e = true;
  cl_random_walk : rc_require_random_walk_beat (ev_research_config e) = true -> passes (gate_random_walk e);
  cl_factors : rc_require_factor_alpha (ev_research_config e) = true -> passes (gate_factors e);
  cl_overfitting : passes (gate_overfitting e);
  cl_deflated_sharpe : gate_deflated_sharpe e = true;
  cl_spa : passes (gate_spa e);
  cl_stability : passes (gate_stability e);
  cl_stress : passes (gate_stress e);
  cl_drawdown : gate_drawdown e = true;
  cl_power : gate_power e = true;
  cl_data : gate_data e = true;
  cl_runtime : gate_runtime e = Ok true;
  cl_forward : gate_forward float_of_text e (fingerprint e (ev_runtime_config e)) = Ok true;
  cl_integrity : gate_integrity e = Ok true
}.

(** The outcomes in the order of the verdict. *)
Definition outcomes e (parity forward clean : bool) : list (string * option bool) :=
  [("L1", Some (gate_baselines e)); ("L2", gate_random_walk e); ("L3", gate_factors e); ("L4", gate_overfitting e);
   ("L5.1", Some (gate_deflated_sharpe e)); ("L5.2", gate_spa e); ("L6", gate_stability e); ("L7", gate_stress e);
   ("L8", Some (gate_drawdown e)); ("L9", Some (gate_power e)); ("L10", Some (gate_data e)); ("L11", Some parity);
   ("L12", Some forward); ("L13", Some clean)].

(** The environment's gates are those of layer 0. *)
Definition layer_zero e : Prop := forall g, g ∈ ev_environment e -> ga_id g ∉ REQUIRED_GATES.

Lemma filter_everything {A} (f : A -> bool) l : (forall x, x ∈ l -> f x = true) -> List.filter f l = l.
Proof. intros Hf. apply List.forallb_filter_id. now apply elem_forallb. Qed.

(** The verdict as a list of outcomes. *)
Lemma evaluate_gates now e v : layer_zero e -> evaluate now e = Ok v ->
  exists parity forward clean,
    gate_runtime e = Ok parity /\ gate_forward float_of_text e (fingerprint e (ev_runtime_config e)) = Ok forward /\
    gate_integrity e = Ok clean /\ ve_run_id v = ev_run_id e /\ ve_strategy v = ev_strategy_name e /\
    ve_data_label v = ev_data_label e /\ ve_config_hash v = fingerprint e None /\
    let gates := ev_environment e ++ gates_of (outcomes e parity forward clean) in
    let all := gates ++ missing_of (required_gates (ev_research_config e)) gates in
    ve_gates v = all /\ ve_accepted v = forallb gate_ok all.
Proof.
  intros Hl. unfold Acceptance.evaluate. cbv zeta. destruct (gate_runtime e) as [parity|]; [|discriminate].
  destruct (gate_forward _ e _) as [forward|]; [|discriminate]. destruct (gate_integrity e) as [clean|]; [|discriminate].
  intros [= <-]. exists parity, forward, clean. cbn [ve_run_id ve_strategy ve_data_label ve_config_hash ve_gates ve_accepted].
  repeat (split; [reflexivity|]). rewrite filter_everything.
  - match goal with |- ?G ++ _ = _ /\ _ => replace G with (ev_environment e ++ gates_of (outcomes e parity forward clean)) end.
    + now split.
    + unfold gates_of, outcomes. cbn [map concat fst snd]. rewrite app_nil_r.
      do 4 (rewrite <- ?app_assoc; cbn [app]). reflexivity.
  - intros g Hg. apply negb_true_iff, bool_decide_eq_false_2. intros E.
    apply elem_of_app in Hg as [Hg|Hg]; [apply (Hl g Hg); rewrite E; vm_compute; repeat constructor|].
    assert (Hj : ga_id g ∈ map ga_id (gates_of (take 10 (outcomes e parity forward clean)))).
    { apply list_elem_of_fmap_2. unfold gates_of, outcomes. cbn [take map concat fst snd]. now rewrite app_nil_r. }
    apply judged_ids in Hj as [p Hj]. rewrite E in Hj. unfold outcomes in Hj. cbn [take] in Hj.
    rewrite !elem_of_cons in Hj. destruct Hj as [Hj|Hj]; [discriminate|].
    repeat (destruct Hj as [Hj|Hj]; [discriminate|]). now apply not_elem_of_nil in Hj.
Qed.

Lemma outcome_get e parity forward clean id o :
  (id, o) ∈ outcomes e parity forward clean <-> dict_get id (outcomes e parity forward clean) = Some o.
Proof. rewrite list_elem_of_In. apply dict_get_In. apply (bool_decide_unpack _). vm_compute. exact I. Qed.

Lemma required_spec rc id : id ∈ required_gates rc <-> id ∈ REQUIRED_GATES /\
  (id = "L2" -> rc_require_random_walk_beat rc = true) /\ (id = "L3" -> rc_require_factor_alpha rc = true).
Proof.
  unfold required_gates. rewrite !list_elem_of_In, List.filter_In, andb_true_iff, !negb_true_iff, !andb_false_iff, !negb_false_iff,
    !bool_decide_eq_false. destruct (rc_require_random_walk_beat rc), (rc_require_factor_alpha rc); intuition congruence.
Qed.

(** A required gate is there: it was judged. *)
Lemma judged_required e parity forward clean :
  (forall id, id ∈ required_gates (ev_research_config e) -> exists p, (id, Some p) ∈ outcomes e parity forward clean) <->
  (forall id, id ∈ required_gates (ev_research_config e) -> exists p, dict_get id (outcomes e parity forward clean) = Some (Some p)).
Proof. split; intros Hr id Hi; destruct (Hr id Hi) as [p Hp]; exists p; now apply outcome_get. Qed.

Lemma in_protocol id : existsb (String.eqb id) REQUIRED_GATES = true -> id ∈ REQUIRED_GATES.
Proof. intros (x & Hx & ->%String.eqb_eq)%existsb_exists. now apply list_elem_of_In. Qed.

(** Outcomes that pass, the required ones there, are a candidate that cleared. *)
Section Outcomes.
Variables (e : Evaluation) (par fwd cln : bool).
Hypothesis Hp : gate_runtime e = Ok par.
Hypothesis Hf : gate_forward float_of_text e (fingerprint e (ev_runtime_config e)) = Ok fwd.
Hypothesis Hc : gate_integrity e = Ok cln.

Lemma outcomes_clear :
  (forall id p, (id, Some p) ∈ outcomes e par fwd cln -> p = true) ->
  (forall id, id ∈ required_gates (ev_research_config e) -> exists p, dict_get id (outcomes e par fwd cln) = Some (Some p)) ->
  cleared e.
Proof.
  intros Hall Hr.
  assert (Hget : forall id o, dict_get id (outcomes e par fwd cln) = Some o -> o <> None -> o = Some true).
  { intros id [p|] Hd Hn; [|congruence]. f_equal. apply (Hall id). now apply outcome_get. }
  assert (Hpass : forall id o, dict_get id (outcomes e par fwd cln) = Some o -> id ∈ required_gates (ev_research_config e) -> passes o).
  { intros id o Hd Hi. apply (Hget id o Hd). destruct (Hr id Hi) as [p Hp']. congruence. }
  assert (Hsure : forall id b, dict_get id (outcomes e par fwd cln) = Some (Some b) -> b = true).
  { intros id b Hd. specialize (Hget id (Some b) Hd). assert (Some b = Some true) by (apply Hget; discriminate). congruence. }
  assert (Hmust : forall id o, dict_get id (outcomes e par fwd cln) = Some o -> existsb (String.eqb id) REQUIRED_GATES = true ->
            id <> "L2" -> id <> "L3" -> passes o).
  { intros id o Hd Hi H2 H3. apply (Hpass id o Hd), required_spec. split; [now apply in_protocol|]. split; congruence. }
  split.
  - exact (Hsure "L1" _ eq_refl).
  - intros Hw. apply (Hpass "L2" _ eq_refl), required_spec. split; [now apply in_protocol|]. split; [auto|discriminate].
  - intros Hw. apply (Hpass "L3" _ eq_refl), required_spec. split; [now apply in_protocol|]. split; [discriminate|auto].
  - now apply (Hmust "L4" _ eq_refl).
  - exact (Hsure "L5.1" _ eq_refl).
  - now apply (Hmust "L5.2" _ eq_refl).
  - now apply (Hmust "L6" _ eq_refl).
  - now apply (Hmust "L7" _ eq_refl).
  - exact (Hsure "L8" _ eq_refl).
  - exact (Hsure "L9" _ eq_refl).
  - exact (Hsure "L10" _ eq_refl).
  - rewrite Hp. f_equal. exact (Hsure "L11" _ eq_refl).
  - rewrite Hf. f_equal. exact (Hsure "L12" _ eq_refl).
  - rewrite Hc. f_equal. exact (Hsure "L13" _ eq_refl).
Qed.

Lemma cleared_outcomes : cleared e ->
  (forall id p, (id, Some p) ∈ outcomes e par fwd cln -> p = true) /\
  (forall id, id ∈ required_gates (ev_research_config e) -> exists p, dict_get id (outcomes e par fwd cln) = Some (Some p)).
Proof.
  intros [C1 C2 C3 C4 C5 C6 C7 C8 C9 C10 C11 C12 C13 C14]. rewrite Hp in C12. rewrite Hf in C13. rewrite Hc in C14.
  injection C12 as ->. injection C13 as ->. injection C14 as ->. unfold passes in *. split.
  - intros id p Ho. unfold outcomes in Ho. rewrite !elem_of_cons in Ho.
    assert (H2 : gate_random_walk e = Some p -> p = true).
    { intros E. unfold gate_random_walk in E, C2. destruct (rc_require_random_walk_beat _); [|discriminate].
      rewrite E in C2. specialize (C2 eq_refl). congruence. }
    assert (H3 : gate_factors e = Some p -> p = true).
    { intros E. unfold gate_factors in E, C3. destruct (rc_require_factor_alpha _); [|discriminate].
      rewrite E in C3. specialize (C3 eq_refl). congruence. }
    repeat (destruct Ho as [[= -> Ho]|Ho]; [first [congruence|auto]|]). now apply not_elem_of_nil in Ho.
  - intros id [Hi [H2 H3]]%required_spec. unfold REQUIRED_GATES in Hi. rewrite !elem_of_cons in Hi.
    repeat (destruct Hi as [->|Hi]; [eexists; cbn [dict_get outcomes];
      repeat first [rewrite bool_decide_eq_true_2 by reflexivity|rewrite bool_decide_eq_false_2 by discriminate];
      first [reflexivity|f_equal; eauto]|]).
    now apply not_elem_of_nil in Hi.
Qed.
End Outcomes.

Lemma accepted_cleared now e v : layer_zero e -> evaluate now e = Ok v ->
  ve_accepted v = true <-> forallb gate_ok (ev_environment e) = true /\ cleared e.
Proof.
  intros Hl Hv. destruct (evaluate_gates now e v Hl Hv) as (par & fwd & cln & Hp & Hf & Hc & _ & _ & _ & _ & Hg). cbv zeta in Hg.
  destruct Hg as [_ ->].
  rewrite verdict_ok by (intros g Hg Hr; apply (Hl g Hg); now apply required_spec in Hr).
  apply and_iff_compat_l. rewrite judged_required. split; [intros [H1 H2]; exact (outcomes_clear e par fwd cln Hp Hf Hc H1 H2)|].
  now apply cleared_outcomes.
Qed.

(** The evidence that a verdict needs to accept; the baselines are not among it, an empty
    set of them is beaten. *)
Record supplied e : Prop := mkSupplied {
  su_factors : rc_require_factor_alpha (ev_research_config e) = true -> ev_factor_data e <> None;
  su_pbo : nonempty (ev_pbo_matrix e) <> None;
  su_variants : nonempty (ev_variant_returns e) <> None;
  su_paths : cpcv_paths e <> [];
  su_stressed : ev_stressed e <> None;
  su_provenance : is_true (ev_provenance e) "verified" = true;
  su_runtime : is_true (bt_diagnostics (ev_candidate e)) "runtime_context_complete" = true;
  su_forward : is_true (ev_forward e) "verified" = true
}.

Lemma cleared_supplied e : cleared e -> supplied e.
Proof.
  intros C. destruct C as [_ _ C3 C4 _ C6 C7 C8 _ _ C11 C12 C13 _]. split.
  - intros Hf E. specialize (C3 Hf). unfold gate_factors in C3. rewrite Hf, E in C3. discriminate.
  - intros E. unfold gate_overfitting in C4. rewrite E in C4. discriminate.
  - intros E. unfold gate_spa in C6. rewrite E in C6. discriminate.
  - intros E. unfold gate_stability in C7. rewrite E in C7. discriminate.
  - intros E. unfold gate_stress in C8. rewrite E in C8. discriminate.
  - unfold gate_data in C11. rewrite !andb_true_iff in C11. tauto.
  - unfold gate_runtime in C12. destruct (default _ _); try discriminate. destruct (String.prefix _ _); [|discriminate].
    destruct (get_int _ "execution_cadence_sec" _); [|discriminate]. cbn [rbind] in C12.
    destruct (get_int _ "decision_interval_sec" _); [|discriminate]. cbn [rbind] in C12. injection C12 as C12.
    now apply andb_prop in C12 as [_ C12].
  - unfold gate_forward in C13. now destruct (is_true (ev_forward e) "verified").
Qed.

(** C16: What acceptance means.  When the environment adds only its own gates, a
    verdict is accepted exactly if no blocking gate of the environment failed and
    the candidate cleared every gate of the protocol that the configuration asks for:
    it beats every baseline it is given and zero, its signals have content, it has
    alpha after the factors (where the configuration asks for these), its overfitting,
    deflated Sharpe (at the effective trial count), superior ability, stability,
    stress, drawdown and power are within the thresholds, its data is verified
    live-quality, it ran in the agent at the production cadence, a verified forward
    record of at least fifty trades under its own fingerprint is positive and
    within the drawdown, and the run had no errors, no halt and thirty trades.  The
    evidence of layers 3 to 12 has then been supplied ([supplied]); layers 0 and 1
    pass on none ([no_baselines_accepted]). *)
Theorem accepted_iff_cleared now e v : layer_zero e -> evaluate now e = Ok v ->
  (ve_accepted v = true <-> forallb gate_ok (ev_environment e) = true /\ cleared e) /\
  (ve_accepted v = true -> supplied e).
Proof.
  intros Hl Hv. split; [exact (accepted_cleared now e v Hl Hv)|]. intros Ha. apply cleared_supplied.
  now apply (accepted_cleared now e v Hl Hv).
Qed.

(** ** The registry *)

Abbreviation evaluate_into := (evaluate_into float_of_text digest file_digest source default_config).

(** The runs of the protocol on one registry; one that raises stores nothing. *)
Definition protocol_runs (runs : list (Z * Evaluation)) : RM unit :=
  each (fun r => attempt (evaluate_into r.1 r.2) ;! ret tt) runs.

(** The row a run stores. *)
Definition row_of (stored : Z) (v : Verdict) : VerdictRow :=
  mkVerdictRow (ve_run_id v) (ve_strategy v) (ve_accepted v) (ve_created_at_ns v) stored (ve_data_label v) (ve_config_hash v) v.

Lemma record_spec now v g : record_verdict now v (ve_config_hash v) g =
  match get_verdict (ve_run_id v) g with
  | Some _ => (g, Raise OtherError)
  | None => (mkRegistry (rg_rows g ++ [row_of now v]) true, Ok (ve_run_id v))
  end.
Proof.
  unfold record_verdict, mbind_, gets. destruct (get_verdict _ g); [reflexivity|]. unfold modify, row_of. cbn.
  now destruct (bool_decide (ve_config_hash v = "")).
Qed.

(** Every row is the verdict of one of the runs, and a run id is there once. *)
Record kept (runs : list (Z * Evaluation)) (g : Registry) : Prop := mkKept {
  ke_rows row : row ∈ rg_rows g -> exists now e v, (now, e) ∈ runs /\ evaluate now e = Ok v /\ row = row_of now v;
  ke_once : NoDup (map vr_run_id (rg_rows g))
}.

Lemma get_verdict_None id g : get_verdict id g = None -> id ∉ map vr_run_id (rg_rows g).
Proof.
  unfold get_verdict. intros Hn (row & -> & Hin)%list_elem_of_fmap. apply list_elem_of_In in Hin.
  apply (List.find_none _ _ Hn) in Hin. now rewrite bool_decide_eq_true_2 in Hin.
Qed.

Lemma kept_step runs now e g : (now, e) ∈ runs -> kept runs g -> kept runs (evaluate_into now e g).1.
Proof.
  intros Hin [H1 H2]. unfold Acceptance.evaluate_into, mbind_, lift. destruct (evaluate now e) as [v|x] eqn:Ev; [|now split].
  rewrite record_spec. destruct (get_verdict (ve_run_id v) g) eqn:Eg; [now split|]. cbn [ret fst]. split; cbn [rg_rows].
  - intros row [Hr|Hr]%elem_of_app; [now apply H1|]. apply list_elem_of_singleton in Hr as ->. now exists now, e, v.
  - rewrite map_app. apply NoDup_app. split; [exact H2|]. split; [|apply NoDup_singleton].
    intros x Hx ->%list_elem_of_singleton. exact (get_verdict_None _ _ Eg Hx).
Qed.

Lemma runs_kept runs g : kept runs g -> kept runs (protocol_runs runs g).1.
Proof.
  enough (H0 : forall l g, (forall r, r ∈ l -> r ∈ runs) -> kept runs g -> kept runs (protocol_runs l g).1) by (apply H0; auto).
  induction l as [|[now e] l IH]; intros g' Hl Hg; [exact Hg|]. cbn [protocol_runs each].
  unfold mbind_ at 1, mbind_ at 1, attempt. cbn [fst snd].
  pose proof (kept_step runs now e g' (Hl _ ltac:(left)) Hg) as Hk. destruct (evaluate_into now e g') as [g1 r]. cbn [ret fst] in *.
  apply IH; [|exact Hk]. intros r' Hr. apply Hl. now right.
Qed.

(** ** The policy *)

(** What the fingerprint of an allocation hashes, and that of an evaluation. *)
Definition hashed (instruments : list string) (params : list (string * json)) (timeframe : string)
    (runtime : option SystemConfig) : json :=
  JObj [("schema", JInt 2); ("instruments", JList (map JStr (sorted_strings instruments))); ("params", JObj params);
        ("timeframe", JStr timeframe); ("source_sha256", JStr source);
        ("runtime", runtime_policy file_digest default_config runtime)].
Definition hashed_badge (c : SystemConfig) (a : StrategyAllocation) : json :=
  hashed (sa_instruments a) (sa_params a) (sa_timeframe a) (Some c).
Definition hashed_evaluation e : json :=
  hashed (match ev_instruments e with Some l => l | None => bt_instruments (ev_candidate e) end)
    (match ev_params e with Some p => p | None => bt_params (ev_candidate e) end)
    (if bool_decide (ev_timeframe e = "") then bt_timeframe (ev_candidate e) else ev_timeframe e) None.

(** A badge and an evaluation are of the same instruments, parameters and timeframe, and
    the configuration of the badge has the default policy. *)
Definition same_strategy e (c : SystemConfig) (a : StrategyAllocation) : Prop :=
  sorted_strings (sa_instruments a) = sorted_strings (match ev_instruments e with Some l => l | None => bt_instruments (ev_candidate e) end) /\
  sa_params a = (match ev_params e with Some p => p | None => bt_params (ev_candidate e) end) /\
  sa_timeframe a = (if bool_decide (ev_timeframe e = "") then bt_timeframe (ev_candidate e) else ev_timeframe e) /\
  runtime_policy file_digest default_config (Some c) = runtime_policy file_digest default_config None.

Lemma hashed_same e c a : hashed_badge c a = hashed_evaluation e -> same_strategy e c a.
Proof.
  unfold same_strategy, hashed_badge, hashed_evaluation, hashed.
  generalize (runtime_policy file_digest default_config (Some c)), (runtime_policy file_digest default_config None).
  intros p q E. injection E as E1 E2 E3 E4. split; [|split; [exact E2|split; [exact E3|exact E4]]].
  revert E1. apply list_fmap_eq_inj. intros x y E. now injection E.
Qed.

(** C15: A badge is a protocol that was passed.  Start from an empty registry, run
    the protocol any number of times on any evidence (a run that raises, or that
    reuses a run id, stores nothing), and start the system on any valid
    configuration file: every strategy it leaves with a badge has a run, with that
    run id and name, in which the candidate cleared every gate, and the digest of what
    that run evaluated is the digest of the configuration that now runs.  The policy in
    that digest (risk, execution, news, research) is the default one, whatever policy
    the run's forward record was made under: unless the digests collide, the badge is
    of the strategy, instruments, parameters and timeframe of the run, in a system with
    the default policy.  That no run need have been made under it is
    [acceptance_forgets_policy]. *)
Theorem badges_are_passed_protocols runs now c c' violations repaired a :
  let g := (protocol_runs runs (mkRegistry [] false)).1 in
  Forall (fun r => layer_zero r.2) runs -> valid_config c = true ->
  enforce_config_authority digest file_digest source default_config now c g = Ok (c', violations, repaired) ->
  a ∈ sy_strategies c' -> has_badge a = true ->
  exists at_ns e, (at_ns, e) ∈ runs /\ sa_acceptance_run_id a = Some (ev_run_id e) /\ ev_strategy_name e = sa_name a /\ cleared e /\
    strip (digest (hashed_evaluation e)) = digest (hashed_badge c' a) /\
    ((strip (digest (hashed_evaluation e)) = digest (hashed_badge c' a) -> hashed_badge c' a = hashed_evaluation e) ->
     same_strategy e c' a).
Proof.
  intros g Hz Hv He Ha Hb. pose proof (enforce_spec digest file_digest source default_config now c g Hv) as Hs.
  destruct (_ && negb (was_present g)); [congruence|]. destruct Hs as (c1 & vs & rep & E1 & _ & [Hcl _] & _).
  rewrite He in E1. injection E1 as <- <- <-. destruct (Hcl a Ha Hb) as (id & row & Hid & _ & Hg & Hrid & Hst & Hacc & _ & Hh & _).
  apply get_verdict_spec in Hg as [Hin _].
  assert (Hk : kept runs g) by (apply runs_kept; split; [now intros r ?%not_elem_of_nil|apply NoDup_nil_2]).
  destruct (ke_rows _ _ Hk row Hin) as (at_ns & e & v & Hrun & Hev & ->). cbn [row_of vr_run_id vr_strategy vr_accepted vr_config_hash] in *.
  assert (Hle : layer_zero e) by (rewrite Forall_forall in Hz; exact (Hz _ Hrun)).
  destruct (evaluate_gates at_ns e v Hle Hev) as (_ & _ & _ & _ & _ & _ & Er & Es & _ & Ech & _).
  change (badge_fingerprint _ _ _ _ c' a) with (digest (hashed_badge c' a)) in Hh. change (fingerprint e None) with (digest (hashed_evaluation e)) in Ech.
  rewrite Ech in Hh. exists at_ns, e. split; [exact Hrun|]. rewrite Hid, <- Hrid, Er, <- Hst, Es. repeat (split; [reflexivity|]).
  split; [now apply (accepted_cleared at_ns e v Hle Hev)|]. split; [exact Hh|]. intros Hsep. now apply hashed_same, Hsep.
Qed.

Lemma find_last {A} (f : A -> bool) l x : List.find f l = None -> f x = true -> List.find f (l ++ [x]) = Some x.
Proof. induction l as [|y l IH]; cbn; intros Hn Hx; [now rewrite Hx|]. destruct (f y); [discriminate|auto]. Qed.

Lemma stored_row now e g g' v : evaluate_into now e g = (g', Ok v) ->
  evaluate now e = Ok v /\ get_verdict (ve_run_id v) g' = Some (row_of now v).
Proof.
  unfold Acceptance.evaluate_into, mbind_, lift. destruct (evaluate now e) as [v'|x]; [|discriminate]. rewrite record_spec.
  destruct (get_verdict (ve_run_id v') g) eqn:Eg; [discriminate|]. intros [= <- <-]. split; [reflexivity|].
  unfold get_verdict in *. cbn [rg_rows]. apply find_last; [exact Eg|now apply bool_decide_eq_true].
Qed.

(** A verdict does not know its policy.  The protocol judges the forward record
    under the fingerprint of the runtime configuration it is given, but stores the
    verdict under the fingerprint of the default one.  So an accepted verdict of a
    run under a configuration whose risk, execution, news or research settings are
    not the defaults never backs a badge of that configuration, collisions of the
    digest aside; and it backs the badge of any configuration with the default
    settings, under which nothing was run. *)
Theorem acceptance_forgets_policy now e g g' v :
  evaluate_into now e g = (g', Ok v) -> layer_zero e -> ve_accepted v = true -> ev_run_id e <> "" ->
  (forall x, strip (digest x) = digest x /\ digest x <> "") ->
  forall c a, sa_acceptance_run_id a = Some (ev_run_id e) ->
  let badge := badge_fingerprint digest file_digest source default_config c a in
  ((digest (hashed_badge c a) = digest (hashed_evaluation e) -> hashed_badge c a = hashed_evaluation e) ->
   runtime_policy file_digest default_config (Some c) <> runtime_policy file_digest default_config None ->
   ev_runtime_config e = Some c -> ~ earned g' (sa_name a) (sa_acceptance_run_id a) badge) /\
  (hashed_badge c a = hashed_evaluation e -> sa_name a = ev_strategy_name e ->
   earned g' (sa_name a) (sa_acceptance_run_id a) badge).
Proof.
  intros Hi Hl Hacc Hid Hd c a Ha badge. destruct (stored_row now e g g' v Hi) as [Hev Hg].
  destruct (evaluate_gates now e v Hl Hev) as (_ & _ & _ & _ & _ & _ & Er & Es & El & Eh & _).
  assert (Hcl : cleared e) by now apply (accepted_cleared now e v Hl Hev).
  rewrite Er in Hg. change badge with (digest (hashed_badge c a)). change (fingerprint e None) with (digest (hashed_evaluation e)) in Eh.
  split.
  - intros Hsep Hpol _ (id & row & Hrun & _ & Hget & _ & _ & _ & _ & Hh & _). rewrite Ha in Hrun. injection Hrun as <-.
    rewrite Hg in Hget. injection Hget as <-. cbn [row_of vr_config_hash] in Hh. rewrite Eh in Hh.
    destruct (Hd (hashed_evaluation e)) as [Hs _]. rewrite Hs in Hh. symmetry in Hh. apply Hsep in Hh.
    unfold hashed_badge, hashed_evaluation, hashed in Hh. injection Hh. congruence.
  - intros Heq Hname. exists (ev_run_id e), (row_of now v). rewrite Heq, Ha, Hname. destruct (Hd (hashed_evaluation e)) as [Hs Hne].
    cbn [row_of vr_run_id vr_strategy vr_accepted vr_data_label vr_config_hash]. rewrite Eh, Hs, Er, Es, El, Hacc.
    repeat (split; [done|]). split; [|done]. pose proof (cl_data e Hcl) as Hdata. unfold gate_data in Hdata.
    repeat (apply andb_prop in Hdata as [Hdata _]). now apply bool_decide_eq_true in Hdata.
Qed.
End Protocol.

(** ** Witnesses *)

(** Statistics of a strategy that passes, and a digest that sees the risk section. *)
#[local] Instance demo_statistics : Statistics := {
  Series := Z; Matrix := list Z; Factors := unit;
  observations s := 100%Z;
  sharpe_ratio s _ := float_of_Z s;
  path_drawdown s := float_of_Z 4;
  directional_accuracy s := (S754_zero false, 100%Z);
  alpha_significant s f n alpha := true;
  shape m := m;
  columns m := [];
  backtest_overfitting m n := S754_zero false;
  hansen_spa m := S754_zero false;
  deflated_sharpe_ratio s n l k := float_of_Z 1;
  min_track_record_length s a b n := Some (float_of_Z 50);
  sample_variance l := S754_zero false
}.

Definition demo_digest_of (j : json) : string :=
  match j with
  | JObj fields =>
      match dict_get "runtime" fields with
      | Some (JObj r) => match dict_get "risk" r with Some (JInt 1) => "ha" | _ => "hb" end
      | _ => "hb"
      end
  | _ => "hb"
  end.
Definition demo_system (risk : Z) (strategies : list StrategyAllocation) : SystemConfig :=
  mkSystemConfig 1 0 "owner" (JInt risk) [("mode", JStr "autonomous")] [("venue_mode", JStr "live")] JNull JNull [] strategies.
Definition demo_badge : StrategyAllocation :=
  mkStrategyAllocation "trend" true (mkDec 1 0) ["EUR_USD"] "H4" [] "accepted" (Some 5%Z) (Some "run-1").
Definition demo_research : ResearchConfig :=
  mkResearchConfig (float_of_dec (mkDec 1 (-2))) (float_of_dec (mkDec 2 (-1))) (float_of_dec (mkDec 95 (-2)))
    (float_of_dec (mkDec 7 (-1))) true true.
Definition demo_backtest (sharpe : Z) : Backtest :=
  mkBacktest sharpe 0%Z (float_of_Z sharpe) (float_of_Z 9) (float_of_Z 3) 80
    [("engine", JStr "agent-replay-2"); ("execution_cadence_sec", JInt 60); ("decision_interval_sec", JInt 60);
     ("runtime_context_complete", JBool true)] ["EUR_USD"] [] "H4".
Definition demo_evaluation (runtime : option SystemConfig) (forward_hash : string) : Evaluation :=
  mkEvaluation "run-1" "trend" (demo_backtest 2) [("coin flip", demo_backtest 1)] (Some [1; 2]%Z) (Some (demo_backtest 1))
    (Some [10; 3]%Z) (Some [10; 3]%Z) (Some tt) demo_research 1 None (float_of_Z 10) 252 "live-quality" [] None None "" None
    [("verified", JBool true); ("bid_ask", JBool true); ("sha256", JStr "f"); ("cost_schedule", JInt 1); ("broker", JStr "b")]
    [("verified", JBool true); ("n_trades", JInt 60); ("net_pnl", JInt 12); ("runtime_hash", JStr forward_hash);
     ("max_drawdown_pct", JInt 4)] runtime.
Definition no_text (s : string) : option spec_float := None.
Definition no_file (s : string) : option string := None.

Example accepted_iff_cleared_witness :
  cleared no_text demo_digest_of no_file "src" (demo_system 1 []) (demo_evaluation None "ha").
Proof.
  assert (E : exists v, evaluate no_text demo_digest_of no_file "src" (demo_system 1 []) 7 (demo_evaluation None "ha") = Ok v /\
                ve_accepted v = true) by (eexists; vm_compute; split; reflexivity).
  destruct E as (v & Ev & Ha).
  refine (proj2 (proj1 (proj1 (accepted_iff_cleared no_text demo_digest_of no_file "src" (demo_system 1 []) 7
                          (demo_evaluation None "ha") v _ Ev)) Ha)).
  intros g Hg. now apply not_elem_of_nil in Hg.
Defined.

(** Without baselines the first layer passes, against the header of the protocol. *)
Example no_baselines_accepted : forall e,
  e = (let d := demo_evaluation None "ha" in
       mkEvaluation (ev_run_id d) (ev_strategy_name d) (ev_candidate d) [] (ev_cpcv_path_returns d) (ev_stressed d)
         (ev_variant_returns d) (ev_pbo_matrix d) (ev_factor_data d) (ev_research_config d) (ev_declared_trials d)
         (ev_trial_summary d) (ev_max_drawdown_ceiling_pct d) (ev_periods_per_year d) (ev_data_label d) (ev_environment d)
         (ev_instruments d) (ev_params d) (ev_timeframe d) (ev_unique_variants d) (ev_provenance d) (ev_forward d)
         (ev_runtime_config d)) ->
  match evaluate no_text demo_digest_of no_file "src" (demo_system 1 []) 7 e with Ok v => ve_accepted v = true | Raise _ => False end.
Proof. intros e ->. vm_compute. reflexivity. Qed.

Definition demo_runs : list (Z * Evaluation) := [(7%Z, demo_evaluation None "ha")].
Definition demo_started : SystemConfig := demo_system 1 [demo_badge].

Example badges_are_passed_protocols_witness :
  exists at_ns e, (at_ns, e) ∈ demo_runs /\ cleared no_text demo_digest_of no_file "src" (demo_system 1 []) e.
Proof.
  destruct (badges_are_passed_protocols no_text demo_digest_of no_file "src" (demo_system 1 []) demo_runs 9 demo_started
              demo_started [] false demo_badge) as (t & e & H1 & _ & _ & H2 & _).
  - repeat constructor. intros g Hg. now apply not_elem_of_nil in Hg.
  - vm_compute. reflexivity.
  - vm_compute. reflexivity.
  - left.
  - reflexivity.
  - exists t, e. now split.
Defined.

(** A run under a risk section that is not the default. *)
Example acceptance_forgets_policy_witness :
  let g := (evaluate_into no_text demo_digest_of no_file "src" (demo_system 1 []) 7
              (demo_evaluation (Some (demo_system 2 [demo_badge])) "hb") (mkRegistry [] false)).1 in
  ~ earned g "trend" (Some "run-1")
      (badge_fingerprint demo_digest_of no_file "src" (demo_system 1 []) (demo_system 2 [demo_badge]) demo_badge).
Proof.
  intros g. destruct (acceptance_forgets_policy no_text demo_digest_of no_file "src" (demo_system 1 []) 7
    (demo_evaluation (Some (demo_system 2 [demo_badge])) "hb") (mkRegistry [] false) g
    (match (evaluate_into no_text demo_digest_of no_file "src" (demo_system 1 []) 7
              (demo_evaluation (Some (demo_system 2 [demo_badge])) "hb") (mkRegistry [] false)).2 with
     | Ok v => v | Raise _ => mkVerdict "" "" 0 false "" [] 0 0 "" end)) with (c := demo_system 2 [demo_badge]) (a := demo_badge) as [H _].
  - vm_compute. reflexivity.
  - intros x Hx. now apply not_elem_of_nil in Hx.
  - vm_compute. reflexivity.
  - discriminate.
  - intros x. unfold demo_digest_of. repeat case_match; split; solve [vm_compute; reflexivity|discriminate].
  - reflexivity.
  - apply H; [vm_compute; discriminate|vm_compute; discriminate|reflexivity].
Defined.
