(* ===== verification/Schedule.v ===== *)
(** [sentinel/news/schedule.py] and the calendar of [news/feeds.py]: where the
    events of the economic calendar come from.  A recurrence rule carries the
    fields its kind reads; dates are ordinals ([Calendar]).  An event of a source is
    a dictionary: [None] is a key that is absent.  Reading the bundled file and the
    CSV of past releases, and the download of a feed, are not modelled. *)

From Stdlib Require Import ZArith Lia SpecFloat Ascii String.
From stdpp Require Import base strings list.
From S2P Require Import Prelude Calendar TzRules PyFloat PyText.

Local Open Scope Z_scope.
Local Open Scope py_scope.

(** ** Times *)

Definition MINUTE_US : Z := 60 * 1000000.

(** [dt.datetime(y, m, d, h, mi)]. *)
Definition datetime_hm (y m d h mi : Z) : res datetime :=
  let* t := datetime_ y m d h in
  if (0 <=? mi) && (mi <=? 59) then Ok (t + mi * MINUTE_US) else Raise ValueError.

(** [t.timestamp()] of a UTC moment. *)
Definition timestamp (t : datetime) : spec_float :=
  fdiv (raw (t - (EPOCH_ORD - 1) * DAY_US)) (raw 1000000).
(** [int(x * 1e9)]. *)
Definition nanoseconds (x : spec_float) : res Z :=
  match modf (fmul x (float_of_Z 1000000000)) with Some (i, _) => Ok i | None => Raise OverflowError end.

(** [local_to_utc_ns]. *)
Definition local_to_utc_ns (local : datetime) (zone : string) : res Z :=
  let* u := local_to_utc local zone in nanoseconds (timestamp u).

(** [text.partition(":")] as an hour and a minute. *)
Fixpoint cut_colon (cs : list ascii) : list ascii * list ascii :=
  match cs with
  | [] => ([], [])
  | c :: rest => if bool_decide (c = ":"%char) then ([], rest) else let (a, b) := cut_colon rest in (c :: a, b)
  end.
Definition int_text (s : string) : res Z := match int_of_str s with Some z => Ok z | None => Raise ValueError end.
Definition hour_minute (text : string) : res (Z * Z) :=
  let (hh, mm) := cut_colon (list_ascii_of_string text) in
  let* h := int_text (string_of_list_ascii hh) in
  let* mi := match mm with [] => Ok 0 | _ => int_text (string_of_list_ascii mm) end in
  Ok (h, mi).

(** A number in at least [width] characters. *)
Definition padded (width : nat) (z : Z) : string :=
  let ds := list_ascii_of_string (str_of_int (Z.abs z)) in
  let sign := sign_text (z <? 0) in
  string_of_list_ascii (sign ++ repeat "0"%char (width - length sign - length ds) ++ ds).

(** ** Events of a source *)

(** [CERTAINTY_LEVELS], in order. *)
Inductive Certainty := Approximate | ScheduledPattern | Confirmed.
#[export] Instance Certainty_eq_dec : EqDecision Certainty.
Proof. solve_decision. Defined.
Definition certainty_index (c : Certainty) : Z := match c with Approximate => 0 | ScheduledPattern => 1 | Confirmed => 2 end.
Definition certainty_of (text : string) : option Certainty :=
  if bool_decide (text = "approximate") then Some Approximate
  else if bool_decide (text = "scheduled_pattern") then Some ScheduledPattern
  else if bool_decide (text = "confirmed") then Some Confirmed else None.
Definition certainty_text (c : Certainty) : string :=
  match c with Approximate => "approximate" | ScheduledPattern => "scheduled_pattern" | Confirmed => "confirmed" end.
(** [BLACKOUT_CERTAINTIES]. *)
Definition blackout_certainty (c : Certainty) : bool := negb (bool_decide (c = Approximate)).

(** The keys the calendar reads of an event of a source. *)
Record RawEvent := mkRawEvent {
  rw_event_id : option string;
  rw_event_ns : option Z;
  rw_series_id : option string;
  rw_period : option string;
  rw_country : option string;
  rw_currency : option string;
  rw_name : option string;
  rw_impact : option string;
  rw_curated_impact : option string;
  rw_unit : option string;
  rw_zone : option string;
  rw_local_time : option string;
  rw_certainty : option string;
  rw_source : option string;
  rw_forecast : option spec_float;
  rw_previous : option spec_float
}.

(** ** Recurrence rules *)

Inductive Recurrence :=
| NthWeekday (weekday nth every_months anchor_month : Z)
| NthBusinessDay (nth every_months anchor_month : Z)
| DayWindow (typical_day : Z) (weekdays_only : bool) (every_months anchor_month : Z)
| ExplicitDates (dates : list Z)
| EveryNWeeks (anchor weeks : Z)
| UnknownKind.

Record ReleaseSeries := mkReleaseSeries {
  se_series_id : string;
  se_name : string;
  se_country : string;
  se_currency : string;
  se_zone : string;
  se_local_time : string;
  se_hour : Z;
  se_minute : Z;
  se_recurrence : Recurrence;
  se_curated_tier : string;
  se_certainty : Certainty;
  se_unit : option string;
  se_period_lag_months : Z
}.

(** [ReleaseSeries(...)] with [__post_init__]. *)
Definition release_series (series_id name country currency zone local_time : string) (recurrence : Recurrence)
    (curated_tier certainty : string) (unit_ : option string) (lag : Z) : res ReleaseSeries :=
  match certainty_of certainty with
  | None => Raise ValueError
  | Some c =>
      let* hm := hour_minute local_time in
      Ok (mkReleaseSeries series_id name country currency zone local_time hm.1 hm.2 recurrence curated_tier c unit_ lag)
  end.

(** The loop of [period_for]: twelve months are borrowed from the years until the
    month is one. *)
Fixpoint borrow_years (fuel : nat) (y m : Z) : Z * Z :=
  match fuel with
  | O => (y, m)
  | S fuel => if m <=? 0 then borrow_years fuel (y - 1) (m + 12) else (y, m)
  end.
Definition period_of (lag day : Z) : Z * Z :=
  let m := date_month day - lag in borrow_years (Z.to_nat (1 - m)) (date_year day) m.
(** [period_for]. *)
Definition period_for (s : ReleaseSeries) (day : Z) : string :=
  let (y, m) := period_of (se_period_lag_months s) day in padded 4 y +:+ "-" +:+ padded 2 m.

(** [_nth_weekday]. *)
Definition nth_weekday_of (year month wd n : Z) : res (option Z) :=
  let* first := date_ year month 1 in
  if 0 <? n then
    let offset := (wd - weekday first) mod 7 in
    Ok (match date_ year month (1 + offset + (n - 1) * 7) with Ok d => Some d | Raise _ => None end)
  else
    let* nxt := if month =? 12 then date_ (year + 1) 1 1 else date_ year (month + 1) 1 in
    let* last := date_add nxt (-1) in
    let* last := date_add last (- ((weekday last - wd) mod 7)) in
    let* d := date_add last (7 * (n + 1)) in
    Ok (Some d).

(** The loop of [_nth_business_day]; a month has at most 31 days. *)
Fixpoint business_loop (fuel : nat) (month n seen day : Z) : res (option Z) :=
  match fuel with
  | O => Ok None
  | S fuel =>
      if negb (date_month day =? month) then Ok None
      else
        let open := weekday day <? 5 in
        let seen := if open then seen + 1 else seen in
        if open && (seen =? n) then Ok (Some day)
        else let* next := date_add day 1 in business_loop fuel month n seen next
  end.
(** [_nth_business_day]. *)
Definition nth_business_day (year month n : Z) : res (option Z) :=
  let* first := date_ year month 1 in business_loop 32 month n 0 first.

(** [_clamp_to_weekday]; a week-end is two days long. *)
Fixpoint clamp_loop (fuel : nat) (day : Z) : res Z :=
  match fuel with
  | O => Ok day
  | S fuel => if 5 <=? weekday day then let* d := date_add day (-1) in clamp_loop fuel d else Ok day
  end.
Definition clamp_to_weekday (day : Z) : res Z := clamp_loop 2 day.

(** [_month_iter]. *)
Fixpoint month_loop (fuel : nat) (y m ey em : Z) : list (Z * Z) :=
  match fuel with
  | O => []
  | S fuel =>
      if (y <? ey) || ((y =? ey) && (m <=? em))
      then (y, m) :: (if 12 <? m + 1 then month_loop fuel (y + 1) 1 ey em else month_loop fuel y (m + 1) ey em)
      else []
  end.
Definition month_iter (start end_ : Z) : list (Z * Z) :=
  let y := date_year start in let m := date_month start in
  let ey := date_year end_ in let em := date_month end_ in
  month_loop (Z.to_nat (12 * (ey - y) + em - m + 1)) y m ey em.

(** [(m - anchor_month) % every == 0]. *)
Definition due (m every anchor : Z) : res bool :=
  if every =? 0 then Raise DivisionByZero else Ok ((m - anchor) mod every =? 0).

Definition on_months (every anchor : Z) (f : Z -> Z -> res (option Z)) (start end_ : Z) : res (list Z) :=
  rflat (fun ym => let* b := due ym.2 every anchor in
                   if b : bool then let* d := f ym.1 ym.2 in Ok (match d with Some d => [d] | None => [] end)
                   else Ok []) (month_iter start end_).

(** The typical day of a month. *)
Definition window_day (typical : Z) (weekdays_only : bool) (y m : Z) : res (option Z) :=
  let* nxt := if m =? 12 then date_ (y + 1) 1 1 else date_ y (m + 1) 1 in
  let* last := date_add nxt (-1) in
  let* day := date_ y m (Z.min typical (date_day last)) in
  let* day := if weekdays_only then clamp_to_weekday day else Ok day in
  Ok (Some day).

(** The two loops of the cadence in weeks; with less than a week they do not end
    in the source, and raise here. *)
Fixpoint rewind (fuel : nat) (step start cursor : Z) : res Z :=
  if start <? cursor then
    match fuel with
    | O => Raise OtherError
    | S fuel => let* c := date_add cursor (- step) in rewind fuel step start c
    end
  else Ok cursor.
Fixpoint advance (fuel : nat) (step start end_ cursor : Z) : res (list Z) :=
  if cursor <=? end_ then
    match fuel with
    | O => Raise OtherError
    | S fuel =>
        let* next := date_add cursor step in
        let* rest := advance fuel step start end_ next in
        Ok (if start <=? cursor then cursor :: rest else rest)
    end
  else Ok [].
Definition every_weeks (anchor weeks start end_ : Z) : res (list Z) :=
  let* cursor := rewind (Z.to_nat (anchor - start)) (7 * weeks) start anchor in
  advance (Z.to_nat (end_ - cursor + 1)) (7 * weeks) start end_ cursor.

(** [occurrences]. *)
Definition occurrences (s : ReleaseSeries) (start end_ : Z) : res (list Z) :=
  let* out := match se_recurrence s with
              | NthWeekday wd n every anchor => on_months every anchor (fun y m => nth_weekday_of y m wd n) start end_
              | NthBusinessDay n every anchor => on_months every anchor (fun y m => nth_business_day y m n) start end_
              | DayWindow typical only every anchor => on_months every anchor (window_day typical only) start end_
              | ExplicitDates dates => Ok dates
              | EveryNWeeks anchor weeks => every_weeks anchor weeks start end_
              | UnknownKind => Raise ValueError
              end in
  Ok (List.filter (fun d => (start <=? d) && (d <=? end_)) out).

Definition day_text (day : Z) : string := str_of_int (date_year day) +:+ padded 2 (date_month day) +:+ padded 2 (date_day day).

(** The event of a release. *)
Definition release_event (s : ReleaseSeries) (day event_ns : Z) : RawEvent :=
  let period := period_for s day in
  mkRawEvent (Some (se_series_id s +:+ ":" +:+ period +:+ ":" +:+ day_text day)) (Some event_ns) (Some (se_series_id s))
    (Some period) (Some (se_country s)) (Some (se_currency s)) (Some (se_name s)) None (Some (se_curated_tier s))
    (se_unit s) (Some (se_zone s)) (Some (se_local_time s)) (Some (certainty_text (se_certainty s)))
    (Some "bundled_pattern") None None.

(** The release of a day. *)
Definition release_on (s : ReleaseSeries) (start_ns end_ns day : Z) : res (list RawEvent) :=
  let* local := datetime_hm (date_year day) (date_month day) (date_day day) (se_hour s) (se_minute s) in
  let* event_ns := local_to_utc_ns local (se_zone s) in
  if negb ((start_ns <=? event_ns) && (event_ns <=? end_ns)) then Ok [] else Ok [release_event s day event_ns].

(** [expand]. *)
Definition expand (s : ReleaseSeries) (start_ns end_ns : Z) : res (list RawEvent) :=
  let* a := from_timestamp_ns start_ns 0 in
  let* b := from_timestamp_ns end_ns 0 in
  let* lo := date_add (dt_date a) (-1) in
  let* hi := date_add (dt_date b) 1 in
  let* days := occurrences s lo hi in
  rflat (release_on s start_ns end_ns) days.

(** ** Sources *)

Fixpoint insert_by {A} (key : A -> Z) (x : A) (l : list A) : list A :=
  match l with
  | [] => [x]
  | y :: rest => if key x <=? key y then x :: l else y :: insert_by key x rest
  end.
(** [sorted(l, key=key)]. *)
Definition sort_by {A} (key : A -> Z) (l : list A) : list A := foldr (insert_by key) [] l.

(** [RecurringScheduleSource.fetch]. *)
Definition recurring_fetch (series : list ReleaseSeries) (start_ns end_ns : Z) : res (list RawEvent) :=
  let* out := rflat (fun s => expand s start_ns end_ns) series in
  Ok (sort_by (fun e => default 0 (rw_event_ns e)) out).

Definition with_provider (source certainty : option string) (e : RawEvent) : RawEvent :=
  mkRawEvent (rw_event_id e) (rw_event_ns e) (rw_series_id e) (rw_period e) (rw_country e) (rw_currency e) (rw_name e)
    (rw_impact e) (rw_curated_impact e) (rw_unit e) (rw_zone e) (rw_local_time e) certainty source (rw_forecast e) (rw_previous e).
(** [LiveCalendarSource.fetch] on the mapped rows of its provider. *)
Definition live_fetch (name : string) (trust_certainty : bool) (rows : list RawEvent) : list RawEvent :=
  map (fun e => with_provider (Some (default name (rw_source e)))
                  (Some (if trust_certainty then default "confirmed" (rw_certainty e) else "scheduled_pattern")) e) rows.

(** [HistoricalCalendarSource.fetch]. *)
Definition historical_fetch (rows : list RawEvent) (start_ns end_ns : Z) : list RawEvent :=
  List.filter (fun e => match rw_event_ns e with Some t => (start_ns <=? t) && (t <=? end_ns) | None => false end) rows.

(** [re.sub("[^a-z0-9]+", "-", title.lower()).strip("-")]. *)
Fixpoint dashed (gap : bool) (cs : list ascii) : list ascii :=
  match cs with
  | [] => []
  | c :: rest =>
      if in_range 97 122 c || in_range 48 57 c then c :: dashed false rest
      else if gap then dashed true rest else "-"%char :: dashed true rest
  end.
Definition slug (title : string) : string :=
  rstrip (one_of "-") (string_of_list_ascii (drop_while (one_of "-") (dashed false (list_ascii_of_string (lower title))))).

(** [isocalendar]: the year and the week of the Thursday. *)
Definition isocalendar (day : Z) : Z * Z :=
  let thursday := day - weekday day + 3 in
  let y := date_year thursday in (y, (thursday - days_before_year y - 1) / 7 + 1).

(** [ForexFactoryCalendar.normalise] of a row: its title and currency, cut and
    capitalised, its impact, and the UTC moment of its date, if it has one. *)
Definition normalise (currencies : list string) (currency title impact : string) (when_utc : option datetime)
    (forecast previous : option spec_float) : res (option RawEvent) :=
  if negb (bool_decide (currency ∈ currencies)) || bool_decide (title = "")
     || negb (bool_decide (impact ∈ ["high"; "medium"; "low"]))
  then Ok None
  else match when_utc with
       | None => Ok None
       | Some u =>
           let (y, w) := isocalendar (dt_date u) in
           let series := "ff:" +:+ currency +:+ ":" +:+ slug title in
           let period := str_of_int y +:+ "-W" +:+ padded 2 w in
           let* ns := nanoseconds (timestamp u) in
           Ok (Some (mkRawEvent (Some (series +:+ ":" +:+ period)) (Some ns) (Some series) (Some period) (Some currency)
                       (Some currency) (Some title) (Some impact) (Some impact) None (Some "UTC") None (Some "confirmed")
                       (Some "forexfactory") forecast previous))
       end.
