(* ===== verification/ScheduleProps.v ===== *)
(** The recurrence rules of the calendar against what they say: the dates a rule gives
    in a range are exactly the days that satisfy it. *)

From Stdlib Require Import ZArith Lia SpecFloat Ascii String.
From stdpp Require Import base strings list.
From S2P Require Import Prelude Calendar TzRules PyFloat PyText Schedule.

Local Open Scope Z_scope.
Local Open Scope py_scope.

(** ** The months of a range *)

Lemma month_loop_elem ey em y' m' : 1 <= em <= 12 -> forall fuel y m, 1 <= m <= 12 -> 12 * ey + em - (12 * y + m) < Z.of_nat fuel ->
  (y', m') ∈ month_loop fuel y m ey em <-> 1 <= m' <= 12 /\ 12 * y + m <= 12 * y' + m' <= 12 * ey + em.
Proof.
  intros He. induction fuel as [|fuel IH]; intros y m Hm Hf; cbn [month_loop].
  - split; [intros H; now apply not_elem_of_nil in H|lia].
  - destruct ((y <? ey) || ((y =? ey) && (m <=? em))) eqn:E.
    + assert (L : 12 * y + m <= 12 * ey + em) by lia. rewrite elem_of_cons. destruct (Z.ltb_spec 12 (m + 1)).
      * rewrite IH by lia. split; [intros [[= -> ->]|?]; lia|]. intros ?.
        destruct (Z.eq_dec (12 * y' + m') (12 * y + m)); [left; f_equal; lia|right; lia].
      * rewrite IH by lia. split; [intros [[= -> ->]|?]; lia|]. intros ?.
        destruct (Z.eq_dec (12 * y' + m') (12 * y + m)); [left; f_equal; lia|right; lia].
    + split; [intros H; now apply not_elem_of_nil in H|lia].
Qed.

Lemma month_iter_elem lo hi y m : 1 <= lo <= MAXORDINAL -> 1 <= hi <= MAXORDINAL ->
  (y, m) ∈ month_iter lo hi <-> 1 <= m <= 12 /\ 12 * date_year lo + date_month lo <= 12 * y + m <= 12 * date_year hi + date_month hi.
Proof.
  intros Hlo Hhi. destruct (fields_valid lo Hlo) as [(_ & Ml & _) _], (fields_valid hi Hhi) as [(_ & Mh & _) _].
  unfold month_iter. cbv zeta. apply month_loop_elem; lia.
Qed.

(** A date of the range is in one of its months. *)
Lemma month_of_date lo hi d : 1 <= lo -> hi <= MAXORDINAL -> lo <= d <= hi -> (date_year d, date_month d) ∈ month_iter lo hi.
Proof.
  intros Hlo Hhi Hd. apply month_iter_elem; [lia|lia|].
  destruct (fields_valid lo ltac:(lia)) as [Vl El], (fields_valid hi ltac:(lia)) as [Vh Eh], (fields_valid d ltac:(lia)) as [Vd Ed].
  split; [apply Vd|]. split; apply Z.nlt_ge; intros L.
  - pose proof (date_order _ _ _ _ _ _ Vd Vl L). lia.
  - pose proof (date_order _ _ _ _ _ _ Vh Vd L). lia.
Qed.

Lemma rflat_elem {A B} (f : A -> res (list B)) (P : A -> B -> Prop) xs :
  (forall x, x ∈ xs -> exists ys, f x = Ok ys /\ forall y, y ∈ ys <-> P x y) ->
  exists zs, rflat f xs = Ok zs /\ forall y, y ∈ zs <-> exists x, x ∈ xs /\ P x y.
Proof.
  induction xs as [|x xs IH]; intros H; cbn [rflat].
  - exists []. split; [reflexivity|]. intros y. split; [intros Hy; now apply not_elem_of_nil in Hy|intros (x & Hx & _); now apply not_elem_of_nil in Hx].
  - destruct (H x) as (ys & -> & Hys); [set_solver|]. cbn [rbind]. destruct IH as (zs & -> & Hzs); [intros; apply H; set_solver|]. cbn [rbind].
    exists (ys ++ zs). split; [reflexivity|]. intros y. rewrite elem_of_app, Hys, Hzs. split.
    + intros [?|(x' & ? & ?)]; [exists x|exists x']; split; auto; set_solver.
    + intros (x' & Hx & ?). apply elem_of_cons in Hx as [->|Hx]; eauto.
Qed.

(** A rule of one date a month. *)
Lemma on_months_spec every anchor f (P : Z -> Prop) lo hi : every <> 0 -> 1 <= lo -> lo <= hi -> hi <= MAXORDINAL ->
  (forall y m, 1 <= y <= date_year hi -> 1 <= m <= 12 -> exists o, f y m = Ok o /\
     forall d, o = Some d <-> 1 <= d <= MAXORDINAL /\ date_year d = y /\ date_month d = m /\ P d) ->
  exists l, on_months every anchor f lo hi = Ok l /\
    forall d, lo <= d <= hi -> d ∈ l <-> (date_month d - anchor) mod every = 0 /\ P d.
Proof.
  intros He Hlo Hle Hhi Hf. destruct (fields_valid lo ltac:(lia)) as [(Yl & Ml & _) _], (fields_valid hi ltac:(lia)) as [(Yh & Mh & _) _].
  unfold on_months. edestruct (rflat_elem (fun ym => let* b := due ym.2 every anchor in
    if b : bool then let* d := f ym.1 ym.2 in Ok (match d with Some d => [d] | None => [] end) else Ok [])
    (fun ym d => (ym.2 - anchor) mod every = 0 /\ 1 <= d <= MAXORDINAL /\ date_year d = ym.1 /\ date_month d = ym.2 /\ P d) (month_iter lo hi)) as (l & El & Hl).
  - intros [y m] Hym. apply month_iter_elem in Hym; [|lia|lia]. cbn [fst snd]. unfold due. rewrite (proj2 (Z.eqb_neq _ _)) by exact He. cbn [rbind].
    destruct (Z.eqb_spec ((m - anchor) mod every) 0) as [E|E].
    + destruct (Hf y m ltac:(lia) ltac:(lia)) as (o & -> & Ho). cbn [rbind]. eexists. split; [reflexivity|]. intros d. specialize (Ho d).
      destruct o as [d'|]; [rewrite list_elem_of_singleton|]; (split; [intros H|intros [_ H]]).
      * subst d'. split; [exact E|]. now apply Ho.
      * apply Ho in H. congruence.
      * now apply not_elem_of_nil in H.
      * apply Ho in H. discriminate.
    + exists []. split; [reflexivity|]. intros d. split; [intros H; now apply not_elem_of_nil in H|intros [H _]; contradiction].
  - exists l. split; [exact El|]. intros d Hd. rewrite Hl. split.
    + intros ([y m] & _ & E & _ & _ & Em & HP). cbn [fst snd] in *. subst m. auto.
    + intros [E HP]. exists (date_year d, date_month d). cbn [fst snd]. split; [now apply month_of_date|]. split_and!; auto; lia.
Qed.

(** ** The rules *)

(** The n-th given weekday of a month is the one of its n-th week. *)
Lemma nth_weekday_of_spec y m wd n : 1 <= y <= 9999 -> 1 <= m <= 12 -> 1 <= n -> exists o, nth_weekday_of y m wd n = Ok o /\
  forall d, o = Some d <-> 1 <= d <= MAXORDINAL /\ date_year d = y /\ date_month d = m /\ (weekday d = wd mod 7 /\ 7 * (n - 1) < date_day d <= 7 * n).
Proof.
  intros Hy Hm Hn. unfold nth_weekday_of. destruct (month_step y m Hm) as [L _]. rewrite date_valid by lia. cbn [rbind]. cbv zeta.
  rewrite (proj2 (Z.ltb_lt 0 n)) by lia. set (off := (wd - weekday (ymd2ord y m 1)) mod 7). pose proof (Z.mod_pos_bound (wd - weekday (ymd2ord y m 1)) 7 ltac:(lia)) as Ho.
  fold off in Ho. eexists. split; [reflexivity|]. intros d.
  assert (Hw : forall k, weekday (ymd2ord y m k) = (weekday (ymd2ord y m 1) + (k - 1)) mod 7).
  { intros k. rewrite <- weekday_add. f_equal. unfold ymd2ord. lia. }
  unfold date_, MINYEAR, MAXYEAR. rewrite !(proj2 (Z.leb_le _ _)) by lia. cbn [andb negb].
  destruct (1 + off + (n - 1) * 7 <=? days_in_month y m) eqn:E; cbn [negb].
  - apply Z.leb_le in E. pose proof (conj Hy (conj Hm (conj (ltac:(lia) : 1 <= 1 + off + (n - 1) * 7) E))) as V.
    destruct (fields_of _ _ _ V) as (F1 & F2 & F3). split.
    + intros [= <-]. rewrite F1, F2, F3. split; [exact (ymd_range _ _ _ V)|]. do 2 (split; [reflexivity|]). split; [|lia].
      rewrite Hw. unfold off. Z.to_euclidean_division_equations. lia.
    + intros (Hr & <- & <- & Ew & Hd). f_equal. destruct (fields_valid d Hr) as [_ Ed]. rewrite <- Ed at 3. f_equal.
      rewrite <- Ed, Hw in Ew. unfold off in *. Z.to_euclidean_division_equations. lia.
  - apply Z.leb_gt in E. split; [discriminate|]. intros (Hr & <- & <- & Ew & Hd). exfalso. destruct (fields_valid d Hr) as [(_ & _ & Vd) Ed].
    rewrite <- Ed, Hw in Ew. unfold off in *. Z.to_euclidean_division_equations. lia.
Qed.

(** The last day of a month, as the code finds it. *)
Lemma month_last y m : 1 <= y <= 9998 -> 1 <= m <= 12 ->
  exists nxt, (if m =? 12 then date_ (y + 1) 1 1 else date_ y (m + 1) 1) = Ok nxt /\
    date_add nxt (-1) = Ok (ymd2ord y m (days_in_month y m)).
Proof.
  intros Hy Hm. destruct (month_step y m Hm) as [L S].
  assert (V : valid_ymd y m (days_in_month y m)) by (unfold valid_ymd; lia). pose proof (ymd_range _ _ _ V) as R.
  assert (Ha : forall nxt, nxt = ymd2ord y m (days_in_month y m) + 1 -> date_add nxt (-1) = Ok (ymd2ord y m (days_in_month y m))).
  { intros nxt ->. unfold date_add. rewrite (proj2 (andb_true_iff _ _)) by (rewrite !Z.leb_le; lia). f_equal. lia. }
  destruct (Z.eqb_spec m 12) as [->|].
  - rewrite date_valid; [|lia|lia|destruct (month_step (y + 1) 1); lia]. eexists. split; [reflexivity|]. apply Ha.
    unfold ymd2ord. change (days_before_month (y + 1) 1) with 0. pose proof (year_length y). lia.
  - rewrite date_valid; [|lia|lia|destruct (month_step y (m + 1)); lia]. eexists. split; [reflexivity|]. apply Ha.
    unfold ymd2ord. lia.
Qed.

(** A day of a month is determined by what picks it there. *)
Lemma day_of_month (P : Z -> Prop) y m k : 1 <= y <= 9999 -> 1 <= m <= 12 -> 1 <= k <= days_in_month y m ->
  P (ymd2ord y m k) ->
  (forall d, 1 <= d <= MAXORDINAL -> date_year d = y -> date_month d = m -> P d -> date_day d = k) ->
  forall d, Some (ymd2ord y m k) = Some d <-> 1 <= d <= MAXORDINAL /\ date_year d = y /\ date_month d = m /\ P d.
Proof.
  intros Hy Hm Hk HP Hu d. assert (V : valid_ymd y m k) by (unfold valid_ymd; lia). destruct (fields_of _ _ _ V) as (F1 & F2 & F3).
  split.
  - intros [= <-]. rewrite F1, F2. split_and!; auto; apply (ymd_range _ _ _ V).
  - intros (Hr & E1 & E2 & Hd). f_equal. pose proof (Hu d Hr E1 E2 Hd) as E3. destruct (fields_valid d Hr) as [_ Ed]. congruence.
Qed.

(** The n-th given weekday from the end of a month. *)
Lemma last_weekday_of_spec y m wd n : 1 <= y <= 9998 -> 1 <= m <= 12 -> -4 <= n <= -1 -> exists o, nth_weekday_of y m wd n = Ok o /\
  forall d, o = Some d <-> 1 <= d <= MAXORDINAL /\ date_year d = y /\ date_month d = m /\
    (weekday d = wd mod 7 /\ 7 * (- n - 1) <= days_in_month (date_year d) (date_month d) - date_day d < 7 * - n).
Proof.
  intros Hy Hm Hn. destruct (month_step y m Hm) as [L _]. unfold nth_weekday_of. rewrite date_valid by lia. cbn [rbind].
  rewrite (proj2 (Z.ltb_ge 0 n)) by lia. destruct (month_last y m Hy Hm) as (nxt & -> & E). cbn [rbind]. rewrite E. cbn [rbind].
  set (top := days_in_month y m) in *. set (off := (weekday (ymd2ord y m top) - wd) mod 7).
  pose proof (Z.mod_pos_bound (weekday (ymd2ord y m top) - wd) 7 ltac:(lia)) as Ho. fold off in Ho.
  assert (Hday : forall k k', ymd2ord y m k + k' = ymd2ord y m (k + k')) by (intros; unfold ymd2ord; lia).
  assert (Hin : forall k, 1 <= k <= top -> 1 <= ymd2ord y m k <= MAXORDINAL) by (intros k Hk; apply ymd_range; unfold valid_ymd; fold top; lia).
  unfold date_add at 1. rewrite Hday, (proj2 (andb_true_iff _ _)) by (rewrite !Z.leb_le; apply Hin; lia). cbn [rbind].
  unfold date_add at 1. rewrite Hday, (proj2 (andb_true_iff _ _)) by (rewrite !Z.leb_le; apply Hin; lia). cbn [rbind].
  assert (Hw : forall k, weekday (ymd2ord y m k) = (weekday (ymd2ord y m top) + (k - top)) mod 7).
  { intros k. rewrite <- weekday_add. f_equal. unfold ymd2ord. lia. }
  eexists. split; [reflexivity|]. apply (day_of_month (fun d => weekday d = wd mod 7 /\
    7 * (- n - 1) <= days_in_month (date_year d) (date_month d) - date_day d < 7 * - n)); try lia.
  - assert (V : valid_ymd y m (top + - off + 7 * (n + 1))) by (unfold valid_ymd; fold top; lia).
    destruct (fields_of _ _ _ V) as (-> & -> & ->). fold top. split; [|lia]. rewrite Hw. unfold off. Z.to_euclidean_division_equations. lia.
  - intros d Hr <- <- [Ew Hd]. fold top in Hd. destruct (fields_valid d Hr) as [(_ & _ & Vd) Ed]. fold top in Vd.
    rewrite <- Ed, Hw in Ew. unfold off in *. Z.to_euclidean_division_equations. lia.
Qed.

(** The typical day of a month, or the last weekday before it. *)
Definition on_window (typical : Z) (weekdays_only : bool) (d : Z) : Prop :=
  let day := ymd2ord (date_year d) (date_month d) (Z.min typical (days_in_month (date_year d) (date_month d))) in
  if weekdays_only then d <= day /\ weekday d < 5 /\ (forall x, d < x <= day -> 5 <= weekday x) else d = day.

Lemma clamp_to_weekday_spec day : 3 <= day <= MAXORDINAL -> clamp_to_weekday day = Ok (day - Z.max 0 (weekday day - 4)).
Proof.
  intros H. pose proof (Z.mod_pos_bound (day + 6) 7 ltac:(lia)) as Hw. unfold clamp_to_weekday, clamp_loop.
  assert (Hs : forall x, 2 <= x <= MAXORDINAL -> date_add x (-1) = Ok (x + -1)).
  { intros x Hx. unfold date_add. rewrite (proj2 (andb_true_iff _ _)) by (rewrite !Z.leb_le; lia). reflexivity. }
  destruct (Z.leb_spec 5 (weekday day)) as [E|E]; [|f_equal; unfold weekday in *; lia]. rewrite Hs by lia. cbn [rbind].
  assert (Ew : weekday (day + -1) = weekday day - 1) by (unfold weekday in *; Z.to_euclidean_division_equations; lia).
  destruct (Z.leb_spec 5 (weekday (day + -1))) as [E'|E']; [|f_equal; unfold weekday in *; lia]. rewrite Hs by lia. cbn [rbind].
  f_equal. unfold weekday in *. lia.
Qed.

Lemma window_day_spec typical (only : bool) y m : 1 <= y <= 9998 -> 1 <= m <= 12 -> (if only then 3 else 1) <= typical ->
  exists o, window_day typical only y m = Ok o /\
    forall d, o = Some d <-> 1 <= d <= MAXORDINAL /\ date_year d = y /\ date_month d = m /\ on_window typical only d.
Proof.
  intros Hy Hm Ht. destruct (month_step y m Hm) as [L _]. unfold window_day. destruct (month_last y m Hy Hm) as (nxt & -> & E).
  cbn [rbind]. rewrite E. cbn [rbind]. set (top := days_in_month y m) in *.
  assert (Vt : valid_ymd y m top) by (unfold valid_ymd; fold top; lia). destruct (fields_of _ _ _ Vt) as (_ & _ & ->).
  set (k := Z.min typical top). assert (Hk : (if only then 3 else 1) <= k <= top) by (destruct only; lia).
  rewrite date_valid by (fold top; destruct only; lia). cbn [rbind].
  assert (V : valid_ymd y m k) by (unfold valid_ymd; fold top; destruct only; lia).
  assert (Hwin : forall d, date_year d = y -> date_month d = m -> on_window typical only d <->
    if only then d <= ymd2ord y m k /\ weekday d < 5 /\ (forall x, d < x <= ymd2ord y m k -> 5 <= weekday x) else d = ymd2ord y m k).
  { intros d <- <-. reflexivity. }
  destruct only; cbn [rbind].
  - assert (Hb : 0 <= weekday (ymd2ord y m k) < 7) by (unfold weekday; apply Z.mod_pos_bound; lia).
    assert (H3 : 3 <= ymd2ord y m k) by (assert (V1 : valid_ymd y m 1) by (unfold valid_ymd; fold top; lia); pose proof (ymd_range _ _ _ V1); unfold ymd2ord in *; lia).
    rewrite clamp_to_weekday_spec by (pose proof (ymd_range _ _ _ V); lia). cbn [rbind]. set (back := Z.max 0 (weekday (ymd2ord y m k) - 4)).
    assert (Eb : ymd2ord y m k - back = ymd2ord y m (k - back)) by (unfold ymd2ord; lia). rewrite Eb.
    assert (V' : valid_ymd y m (k - back)) by (unfold valid_ymd; fold top; unfold back; lia). destruct (fields_of _ _ _ V') as (F1 & F2 & F3).
    assert (Hw : forall x, ymd2ord y m (k - back) <= x <= ymd2ord y m k -> weekday x = weekday (ymd2ord y m k) - (ymd2ord y m k - x)).
    { intros x Hx. rewrite <- Eb in Hx. unfold back, weekday in *. Z.to_euclidean_division_equations. lia. }
    eexists. split; [reflexivity|]. apply day_of_month; try (fold top; unfold back; lia).
    + apply Hwin; [exact F1|exact F2|]. rewrite <- Eb in *. split; [lia|]. split; [rewrite Hw by lia; lia|].
      intros x Hx. rewrite Hw by lia. lia.
    + intros d Hr Ey Em Hd. apply Hwin in Hd as (Hle & Hd & Hall); [|assumption|assumption].
      assert (d = ymd2ord y m (k - back)) as ->; [|exact F3]. rewrite <- Eb in *.
      destruct (Z.lt_trichotomy d (ymd2ord y m k - back)) as [Hl|[->|Hl]]; [|reflexivity|].
      * pose proof (Hall (ymd2ord y m k - back) ltac:(lia)) as Hc. rewrite Hw in Hc by lia. lia.
      * rewrite Hw in Hd by lia. lia.
  - eexists. split; [reflexivity|]. destruct (fields_of _ _ _ V) as (F1 & F2 & F3). apply day_of_month; try lia.
    + now apply Hwin.
    + intros d Hr Ey Em Hd. apply Hwin in Hd; [|assumption|assumption]. now rewrite Hd.
Qed.

(** The weekdays among the [k] days from [a]. *)
Fixpoint business_days (a : Z) (k : nat) : Z :=
  match k with O => 0 | S k => business_days a k + (if weekday (a + Z.of_nat k) <? 5 then 1 else 0) end.

Lemma business_days_mono a k j : business_days a k <= business_days a (k + j).
Proof. induction j as [|j IH]; [now rewrite Nat.add_0_r|]. rewrite Nat.add_succ_r. cbn [business_days]. destruct (_ <? 5); lia. Qed.

(** The day after a month is in another. *)
Lemma month_end y m : 1 <= y <= 9998 -> 1 <= m <= 12 -> date_month (ymd2ord y m 1 + days_in_month y m) <> m.
Proof.
  intros Hy Hm E. unfold ymd2ord in E. destruct (month_step y m Hm) as [_ S].
  replace (days_before_year y + days_before_month y m + 1 + days_in_month y m) with (days_before_year y + (days_before_month y m + days_in_month y m) + 1) in E by lia.
  rewrite S in E. destruct (Z.eqb_spec m 12) as [->|].
  - assert (V : valid_ymd (y + 1) 1 1) by (destruct (month_step (y + 1) 1); [lia|]; unfold valid_ymd; lia). destruct (fields_of _ _ _ V) as (_ & F & _).
    unfold ymd2ord in F. change (days_before_month (y + 1) 1) with 0 in F. pose proof (year_length y) as Y.
    replace (days_before_year (y + 1) + 0 + 1) with (days_before_year y + (if is_leap y then 366 else 365) + 1) in F by lia. lia.
  - assert (V : valid_ymd y (m + 1) 1) by (destruct (month_step y (m + 1)); [lia|]; unfold valid_ymd; lia). destruct (fields_of _ _ _ V) as (_ & F & _).
    unfold ymd2ord in F. rewrite F in E. lia.
Qed.

Lemma business_loop_spec y m n : 1 <= y <= 9998 -> 1 <= m <= 12 -> forall fuel k,
  days_in_month y m - Z.of_nat k < Z.of_nat fuel -> Z.of_nat k <= days_in_month y m -> business_days (ymd2ord y m 1) k < n ->
  exists o, business_loop fuel m n (business_days (ymd2ord y m 1) k) (ymd2ord y m 1 + Z.of_nat k) = Ok o /\
    forall d, o = Some d <-> exists j : nat, (k <= j)%nat /\ Z.of_nat j < days_in_month y m /\ d = ymd2ord y m 1 + Z.of_nat j /\
                                weekday d < 5 /\ business_days (ymd2ord y m 1) (S j) = n.
Proof.
  intros Hy Hm. set (a := ymd2ord y m 1). destruct (month_step y m Hm) as [L _]. induction fuel as [|fuel IH]; intros k Hf Hk Hs; [lia|].
  assert (Hin : forall j : nat, Z.of_nat j < days_in_month y m -> valid_ymd y m (Z.of_nat j + 1) /\ ymd2ord y m (Z.of_nat j + 1) = a + Z.of_nat j).
  { intros j Hj. split; [unfold valid_ymd; lia|]. unfold a, ymd2ord. lia. }
  cbn [business_loop]. destruct (Z.eq_dec (Z.of_nat k) (days_in_month y m)) as [Ek|Ne].
  - exists None. replace (date_month (a + Z.of_nat k) =? m) with false; [cbn [negb]; split; [reflexivity|]|].
    + intros d. split; [discriminate|]. intros (j & ? & ? & _). lia.
    + symmetry. apply Z.eqb_neq. rewrite Ek. now apply month_end.
  - destruct (Hin k ltac:(lia)) as [V Ev]. destruct (fields_of _ _ _ V) as (_ & F2 & _). rewrite Ev in F2. rewrite F2, Z.eqb_refl. cbn [negb].
    pose proof (ymd_range _ _ _ V) as Rg. rewrite Ev in Rg.
    assert (Hmax : a + Z.of_nat k < MAXORDINAL).
    { assert (V' : valid_ymd 9999 1 1) by (now vm_compute). pose proof (date_order _ _ _ _ _ _ V V' ltac:(lia)) as O. pose proof (ymd_range _ _ _ V'). lia. }
    assert (Ed : date_add (a + Z.of_nat k) 1 = Ok (a + Z.of_nat (S k))).
    { unfold date_add. rewrite (proj2 (andb_true_iff _ _)); [f_equal; lia|]. rewrite !Z.leb_le. lia. }
    assert (Hstep : business_days a (S k) = if weekday (a + Z.of_nat k) <? 5 then business_days a k + 1 else business_days a k)
      by (cbn [business_days]; destruct (_ <? 5); lia).
    assert (Hnext : forall d, business_days a (S k) < n ->
      (exists j : nat, (S k <= j)%nat /\ Z.of_nat j < days_in_month y m /\ d = a + Z.of_nat j /\ weekday d < 5 /\ business_days a (S j) = n) <->
      exists j : nat, (k <= j)%nat /\ Z.of_nat j < days_in_month y m /\ d = a + Z.of_nat j /\ weekday d < 5 /\ business_days a (S j) = n).
    { intros d Hlt. split; intros (j & Hj & R); exists j; (split; [|exact R]); [lia|]. destruct (Nat.eq_dec j k) as [->|]; [|lia]. destruct R as (_ & _ & _ & E). lia. }
    destruct (weekday (a + Z.of_nat k) <? 5) eqn:Eo; cbn [andb].
    + destruct (Z.eqb_spec (business_days a k + 1) n) as [En|En].
      * exists (Some (a + Z.of_nat k)). split; [reflexivity|]. intros d. split.
        -- intros [= <-]. exists k. split_and!; try lia.
        -- intros (j & Hj & Hl & -> & Hw & Ej). f_equal. destruct (Nat.eq_dec j k) as [->|Hne]; [reflexivity|exfalso].
           pose proof (business_days_mono a (S k) (j - S k)) as Mo. replace (S k + (j - S k))%nat with j in Mo by lia.
           cbn [business_days] in Ej. rewrite (proj2 (Z.ltb_lt _ _) Hw) in Ej. lia.
      * rewrite Ed. cbn [rbind]. rewrite <- Hstep. destruct (IH (S k) ltac:(lia) ltac:(lia) ltac:(lia)) as (o & Eo' & Ho).
        exists o. split; [exact Eo'|]. intros d. rewrite Ho. apply Hnext. lia.
    + rewrite Ed. cbn [rbind]. rewrite <- Hstep. destruct (IH (S k) ltac:(lia) ltac:(lia) ltac:(lia)) as (o & Eo' & Ho).
      exists o. split; [exact Eo'|]. intros d. rewrite Ho. apply Hnext. lia.
Qed.

Lemma nth_business_day_spec y m n : 1 <= y <= 9998 -> 1 <= m <= 12 -> 1 <= n -> exists o, nth_business_day y m n = Ok o /\
  forall d, o = Some d <-> 1 <= d <= MAXORDINAL /\ date_year d = y /\ date_month d = m /\
    (weekday d < 5 /\ business_days (ymd2ord (date_year d) (date_month d) 1) (Z.to_nat (date_day d)) = n).
Proof.
  intros Hy Hm Hn. destruct (month_step y m Hm) as [L _]. unfold nth_business_day. rewrite date_valid by lia. cbn [rbind].
  destruct (business_loop_spec y m n Hy Hm 32 0 ltac:(lia) ltac:(lia) ltac:(cbn; lia)) as (o & E & Ho). cbn [business_days] in E. rewrite Z.add_0_r in E.
  exists o. split; [exact E|]. intros d. rewrite Ho. split.
  - intros (j & _ & Hj & Ed & Hw & Eb). assert (V : valid_ymd y m (Z.of_nat j + 1)) by (unfold valid_ymd; lia).
    assert (Ey : ymd2ord y m (Z.of_nat j + 1) = d) by (rewrite Ed; unfold ymd2ord; lia).
    destruct (fields_of _ _ _ V) as (F1 & F2 & F3). pose proof (ymd_range _ _ _ V). rewrite Ey in *. rewrite F1, F2, F3.
    split; [assumption|]. do 2 (split; [reflexivity|]). split; [exact Hw|]. now replace (Z.to_nat (Z.of_nat j + 1)) with (S j) by lia.
  - intros (Hr & <- & <- & Hw & Eb). destruct (fields_valid d Hr) as [(_ & _ & Vd) Ed]. exists (Z.to_nat (date_day d - 1)).
    split_and!; try lia.
    + rewrite Z2Nat.id by lia. rewrite <- Ed at 1. unfold ymd2ord. lia.
    + now replace (S (Z.to_nat (date_day d - 1))) with (Z.to_nat (date_day d)) by lia.
Qed.

(** A cadence in weeks. *)
Lemma rewind_spec step start : 0 < step -> step < start -> forall fuel cursor, cursor - start <= Z.of_nat fuel ->
  1 <= cursor <= MAXORDINAL -> exists c, rewind fuel step start cursor = Ok c /\ 1 <= c <= start /\ (c - cursor) mod step = 0.
Proof.
  intros Hs Hlo. induction fuel as [|fuel IH]; intros cursor Hf Hm; cbn [rewind]; destruct (Z.ltb_spec start cursor); try lia.
  - exists cursor. rewrite Z.sub_diag, Z.mod_0_l by lia. split_and!; lia || reflexivity.
  - unfold date_add. rewrite (proj2 (andb_true_iff _ _)) by (rewrite !Z.leb_le; lia). cbn [rbind].
    destruct (IH (cursor + - step) ltac:(lia) ltac:(lia)) as (c & -> & Hc & E). exists c. split; [reflexivity|]. split; [exact Hc|].
    replace (c - cursor) with (c - (cursor + - step) + (-1) * step) by lia. now rewrite Z_mod_plus_full.
  - exists cursor. rewrite Z.sub_diag, Z.mod_0_l by lia. split_and!; lia || reflexivity.
Qed.

Lemma advance_spec step start end_ : 0 < step -> end_ + step <= MAXORDINAL -> forall fuel cursor, 1 <= cursor ->
  end_ - cursor + 1 <= Z.of_nat fuel -> exists l, advance fuel step start end_ cursor = Ok l /\
    forall d, d ∈ l <-> start <= d <= end_ /\ cursor <= d /\ (d - cursor) mod step = 0.
Proof.
  intros Hs Hhi. induction fuel as [|fuel IH]; intros cursor Hc Hf; cbn [advance]; destruct (Z.leb_spec cursor end_); try lia.
  - exists []. split; [reflexivity|]. intros d. split; [intros H'; now apply not_elem_of_nil in H'|lia].
  - unfold date_add. rewrite (proj2 (andb_true_iff _ _)) by (rewrite !Z.leb_le; lia). cbn [rbind].
    destruct (IH (cursor + step) ltac:(lia) ltac:(lia)) as (l & -> & Hl). cbn [rbind].
    assert (Hd : forall d, (start <= d <= end_ /\ cursor + step <= d /\ (d - (cursor + step)) mod step = 0) <->
      start <= d <= end_ /\ cursor < d /\ (d - cursor) mod step = 0).
    { intros d. replace (d - (cursor + step)) with (d - cursor + (-1) * step) by lia. rewrite Z_mod_plus_full. split; [intuition lia|].
      intros (? & ? & E). split; [assumption|]. split; [|exact E]. apply Z.mod_divide in E as [q E]; [|lia]. assert (1 <= q) by nia. nia. }
    destruct (Z.leb_spec start cursor); eexists; (split; [reflexivity|]); intros d.
    + rewrite elem_of_cons, Hl, Hd. split; [intros [->|(? & ? & ?)]; [rewrite Z.sub_diag, Z.mod_0_l by lia|]; split_and!; try lia; assumption|].
      intros (? & ? & ?). destruct (Z.eq_dec d cursor); [auto|right; split_and!; try lia; assumption].
    + rewrite Hl, Hd. split; intros (? & ? & ?); split_and!; try lia; assumption.
  - exists []. split; [reflexivity|]. intros d. split; [intros H'; now apply not_elem_of_nil in H'|lia].
Qed.

(** The days of a rule. *)
Definition rule_day (r : Recurrence) (d : Z) : Prop :=
  match r with
  | NthWeekday wd n every anchor =>
      (date_month d - anchor) mod every = 0 /\ weekday d = wd mod 7 /\
      if 0 <? n then 7 * (n - 1) < date_day d <= 7 * n
      else 7 * (- n - 1) <= days_in_month (date_year d) (date_month d) - date_day d < 7 * - n
  | NthBusinessDay n every anchor =>
      (date_month d - anchor) mod every = 0 /\ weekday d < 5 /\
      business_days (ymd2ord (date_year d) (date_month d) 1) (Z.to_nat (date_day d)) = n
  | ExplicitDates l => d ∈ l
  | EveryNWeeks anchor weeks => (d - anchor) mod (7 * weeks) = 0
  | DayWindow typical only every anchor => (date_month d - anchor) mod every = 0 /\ on_window typical only d
  | UnknownKind => False
  end.

(** The rules whose days are stated, away from the ends of the calendar.  What is
    left out: a weekday counted to 0 or before the fourth from the end, and a
    weekday window that starts on the first or second of a month, which may fall
    in another month than its own; months or weeks that are no step; and an
    unknown kind, which raises. *)
Definition rule_ok (r : Recurrence) (lo hi : Z) : Prop :=
  match r with
  | NthWeekday _ n every _ => (1 <= n \/ -4 <= n <= -1) /\ every <> 0
  | NthBusinessDay n every _ => 1 <= n /\ every <> 0
  | DayWindow typical only every _ => (if only then 3 else 1) <= typical /\ every <> 0
  | ExplicitDates _ => True
  | EveryNWeeks anchor weeks => 1 <= weeks /\ 7 * weeks < lo /\ hi + 7 * weeks <= MAXORDINAL /\ 1 <= anchor <= MAXORDINAL
  | UnknownKind => False
  end.

Lemma every_weeks_spec anchor weeks lo hi : rule_ok (EveryNWeeks anchor weeks) lo hi -> exists l, every_weeks anchor weeks lo hi = Ok l /\
  forall d, lo <= d <= hi -> d ∈ l <-> (d - anchor) mod (7 * weeks) = 0.
Proof.
  intros (Hw & Hlo & Hhi & Ha). unfold every_weeks.
  destruct (rewind_spec (7 * weeks) lo ltac:(lia) Hlo (Z.to_nat (anchor - lo)) anchor ltac:(lia) Ha) as (c & -> & Hc & E). cbn [rbind].
  destruct (advance_spec (7 * weeks) lo hi ltac:(lia) Hhi (Z.to_nat (hi - c + 1)) c ltac:(lia) ltac:(lia)) as (l & -> & Hl).
  exists l. split; [reflexivity|]. intros d Hd. rewrite Hl. replace (d - anchor) with (d - c + (c - anchor)) by lia.
  apply Z.mod_divide in E as [q E]; [|lia]. rewrite E, Z_mod_plus_full. intuition lia.
Qed.

(** The dates a rule gives in a range are its days there. *)
Lemma occurrences_spec s lo hi : rule_ok (se_recurrence s) lo hi -> 1 <= lo -> lo <= hi -> date_year hi <= 9998 -> hi <= MAXORDINAL ->
  exists l, occurrences s lo hi = Ok l /\ forall d, d ∈ l <-> lo <= d <= hi /\ rule_day (se_recurrence s) d.
Proof.
  intros Hr Hlo Hle Hy Hhi. unfold occurrences.
  enough (E : exists l, match se_recurrence s with
    | NthWeekday wd n every anchor => on_months every anchor (fun y m => nth_weekday_of y m wd n) lo hi
    | NthBusinessDay n every anchor => on_months every anchor (fun y m => nth_business_day y m n) lo hi
    | DayWindow typical only every anchor => on_months every anchor (window_day typical only) lo hi
    | ExplicitDates dates => Ok dates
    | EveryNWeeks anchor weeks => every_weeks anchor weeks lo hi
    | UnknownKind => Raise ValueError
    end = Ok l /\ forall d, lo <= d <= hi -> d ∈ l <-> rule_day (se_recurrence s) d).
  { destruct E as (l & -> & Hl). cbn [rbind]. eexists. split; [reflexivity|]. intros d.
    rewrite list_elem_of_In, List.filter_In, <- list_elem_of_In, andb_true_iff, !Z.leb_le. specialize (Hl d). tauto. }
  destruct (se_recurrence s) as [wd n every anchor|n every anchor|typical only every anchor|dates|anchor weeks|]; cbn [rule_ok rule_day] in *; try easy.
  - apply on_months_spec; try assumption; [apply Hr|]. intros y m Hy' Hm.
    destruct (Z.ltb_spec 0 n); [apply nth_weekday_of_spec|apply last_weekday_of_spec]; lia.
  - apply on_months_spec; try assumption; [apply Hr|]. intros y m Hy' Hm. apply nth_business_day_spec; lia.
  - apply on_months_spec; try assumption; [apply Hr|]. intros y m Hy' Hm. apply window_day_spec; lia.
  - exists dates. split; [reflexivity|]. auto.
  - now apply every_weeks_spec.
Qed.

(** The instant of the release of a day. *)
Definition release_ns (s : ReleaseSeries) (day : Z) : res Z :=
  let* local := datetime_hm (date_year day) (date_month day) (date_day day) (se_hour s) (se_minute s) in
  local_to_utc_ns local (se_zone s).

(** C20: The events that a series contributes to a window are exactly those of the
    days of its rule, from the day before to the day after, whose local time falls
    in the window: none is missed, none is invented, each is the whole event of its
    day, and the expansion returns.  The rules are those of [rule_ok], which hold
    of every series that is bundled. *)
Theorem expand_gives_releases s start_ns end_ns a b : from_timestamp_ns start_ns 0 = Ok a -> from_timestamp_ns end_ns 0 = Ok b ->
  1 < dt_date a -> dt_date a <= dt_date b -> dt_date b < MAXORDINAL -> date_year (dt_date b + 1) <= 9998 ->
  rule_ok (se_recurrence s) (dt_date a - 1) (dt_date b + 1) ->
  (forall d, dt_date a - 1 <= d <= dt_date b + 1 -> exists t, release_ns s d = Ok t) ->
  exists l, expand s start_ns end_ns = Ok l /\
    forall e, e ∈ l <-> exists d t, dt_date a - 1 <= d <= dt_date b + 1 /\ rule_day (se_recurrence s) d /\
      release_ns s d = Ok t /\ start_ns <= t <= end_ns /\ e = release_event s d t.
Proof.
  intros Ea Eb H1 Hab Hb Hy Hr Ht. unfold expand. rewrite Ea, Eb. cbn [rbind]. unfold date_add.
  rewrite !(proj2 (andb_true_iff _ _)) by (rewrite !Z.leb_le; lia). cbn [rbind].
  destruct (occurrences_spec s (dt_date a - 1) (dt_date b + 1) Hr ltac:(lia) ltac:(lia) Hy ltac:(lia)) as (days & Ed & Hd).
  change (dt_date a + -1) with (dt_date a - 1). rewrite Ed. cbn [rbind].
  destruct (rflat_elem (release_on s start_ns end_ns)
    (fun d e => exists t, release_ns s d = Ok t /\ start_ns <= t <= end_ns /\ e = release_event s d t) days) as (l & El & Hl).
  - intros d Hdd. apply Hd in Hdd as [Hdr _]. destruct (Ht d Hdr) as (t & Et). unfold release_ns in Et. unfold release_on, release_ns.
    destruct (datetime_hm _ _ _ _ _) as [local|]; [|discriminate]. cbn [rbind] in *. rewrite Et. cbn [rbind].
    destruct ((start_ns <=? t) && (t <=? end_ns)) eqn:Ew; cbn [negb]; eexists; (split; [reflexivity|]); intros e.
    + rewrite andb_true_iff, !Z.leb_le in Ew. rewrite list_elem_of_singleton. split; [eauto|]. now intros (t' & [= <-] & _ & ->).
    + split; [intros H; now apply not_elem_of_nil in H|]. intros (t' & [= <-] & Hw & _).
      rewrite (proj2 (andb_true_iff _ _)) in Ew; [discriminate|]. now rewrite !Z.leb_le.
  - exists l. split; [exact El|]. intros e. rewrite Hl. split.
    + intros (d & [Hdr Hrd]%Hd & t & R). exists d, t. tauto.
    + intros (d & t & Hdr & Hrd & R). exists d. split; [now apply Hd|eauto].
Qed.

(** ** A witness *)

Definition payrolls : ReleaseSeries :=
  mkReleaseSeries "US.NFP" "Non-Farm Payrolls" "US" "USD" "America/New_York" "08:30" 8 30 (NthWeekday 4 1 1 1) "high" ScheduledPattern None 1.

(** A Friday in March: the release is at 13:30 UTC. *)
Example expand_gives_releases_witness : exists l, expand payrolls 1772798400000000000 1772809200000000000 = Ok l /\
  forall e, e ∈ l <-> exists d t, 739680 <= d <= 739682 /\ rule_day (se_recurrence payrolls) d /\
    release_ns payrolls d = Ok t /\ 1772798400000000000 <= t <= 1772809200000000000 /\ e = release_event payrolls d t.
Proof.
  set (day := ymd2ord 2026 3 6).
  destruct (expand_gives_releases payrolls 1772798400000000000 1772809200000000000 ((day - 1) * DAY_US + 12 * HOUR_US) ((day - 1) * DAY_US + 15 * HOUR_US))
    as (l & El & Hl).
  - vm_compute. reflexivity.
  - vm_compute. reflexivity.
  - vm_compute. reflexivity.
  - vm_compute. discriminate.
  - vm_compute. reflexivity.
  - vm_compute. discriminate.
  - split; [left; vm_compute; discriminate|discriminate].
  - intros d Hd. assert (Hc : d = 739680 \/ d = 739681 \/ d = 739682) by (replace (dt_date _) with 739681 in Hd by reflexivity; replace (dt_date _) with 739681 in Hd by reflexivity; lia).
    destruct Hc as [-> | [-> | ->]]; eexists; vm_compute; reflexivity.
  - exists l. split; [exact El|]. exact Hl.
Defined.

(** The rules of [data/recurring_releases.json]. *)
Definition bundled_rules : list Recurrence :=
  [NthWeekday 4 1 1 1; NthBusinessDay 1 1 1; DayWindow 12 true 1 1; DayWindow 16 true 1 1; DayWindow 29 true 3 1;
   EveryNWeeks (ymd2ord 2026 1 28) 6; EveryNWeeks (ymd2ord 2026 2 5) 6; DayWindow 31 true 1 1; EveryNWeeks (ymd2ord 2026 2 5) 6;
   DayWindow 17 true 1 1; EveryNWeeks (ymd2ord 2026 1 23) 7; NthWeekday 4 1 1 1; EveryNWeeks (ymd2ord 2026 2 3) 6].

Lemma bundled_rules_ok lo hi : 50 <= lo -> hi <= MAXORDINAL - 50 -> Forall (fun r => rule_ok r lo hi) bundled_rules.
Proof.
  intros Hlo Hhi. unfold bundled_rules. repeat apply Forall_cons_2; try apply Forall_nil_2; cbn [rule_ok];
    try change (ymd2ord 2026 1 28) with 739644; try change (ymd2ord 2026 2 5) with 739652;
    try change (ymd2ord 2026 1 23) with 739639; try change (ymd2ord 2026 2 3) with 739650; unfold MAXORDINAL in *; lia.
Qed.

Definition us_cpi : ReleaseSeries :=
  mkReleaseSeries "US.CPI" "CPI" "US" "USD" "America/New_York" "08:30" 8 30 (DayWindow 12 true 1 1) "high" ScheduledPattern None 1.

(** The twelfth of April 2026 is a Sunday: the release is given on Friday, the tenth. *)
Example window_clamps_to_friday : occurrences us_cpi (ymd2ord 2026 4 1) (ymd2ord 2026 4 30) = Ok [ymd2ord 2026 4 10].
Proof. vm_compute. reflexivity. Qed.

(** A rule for the first of the month, on weekdays, loses a release: the first of
    February 2026 is a Sunday and its Friday is in January, whose window asks
    January's rule alone. *)
Example early_window_loses_a_release :
  occurrences (mkReleaseSeries "X" "X" "US" "USD" "UTC" "08:30" 8 30 (DayWindow 1 true 1 1) "low" Approximate None 1)
    (ymd2ord 2026 1 20) (ymd2ord 2026 1 31) = Ok [].
Proof. vm_compute. reflexivity. Qed.
