(* ===== verification/News.v ===== *)
(** [sentinel/news/calendar.py]: the economic calendar.  The tables are lists of
    rows, in the order of their insertion; a statement that violates a unique key
    raises.  A call reads the clock once ([now]).  Creating and migrating the tables
    and the listings for the dashboard are not modelled; the median and the
    deviation of numpy are the class [Numpy]. *)

From Stdlib Require Import ZArith Lia SpecFloat Ascii String.
From stdpp Require Import base strings list.
From S2P Require Import Prelude PyDecimal Calendar TzRules PyFloat PyText StateExn PyDict Schedule.

Local Open Scope Z_scope.
Local Open Scope py_scope.

(** ** The tables *)

(** [IMPACT_LEVELS], in order. *)
Inductive Impact := Low | Medium | High.
#[export] Instance Impact_eq_dec : EqDecision Impact.
Proof. solve_decision. Defined.
Definition impact_index (i : Impact) : Z := match i with Low => 0 | Medium => 1 | High => 2 end.
Definition impact_of (text : string) : option Impact :=
  if bool_decide (text = "low") then Some Low
  else if bool_decide (text = "medium") then Some Medium
  else if bool_decide (text = "high") then Some High else None.

(** [CalendarEvent], also a row of [events]. *)
Record CalendarEvent := mkEvent {
  ce_event_id : string;
  ce_event_ns : Z;
  ce_country : string;
  ce_currency : string;
  ce_name : string;
  ce_impact : Impact;
  ce_period : option string;
  ce_unit : option string;
  ce_source : string;
  ce_series_id : option string;
  ce_zone : string;
  ce_local_time : string;
  ce_certainty : Certainty;
  ce_curated_impact : Impact;
  ce_measured_impact : option Impact;
  ce_forecast : option spec_float;
  ce_previous : option spec_float;
  ce_revision_count : Z;
  ce_status : string;
  ce_first_seen_ns : Z;
  ce_updated_ns : Z
}.

(** [blocks_trading]. *)
Definition blocks_trading (e : CalendarEvent) : bool := blackout_certainty (ce_certainty e).

(** What a revision notes of a field. *)
Inductive FieldValue := VNone | VInt (z : Z) | VText (s : string) | VFloat (x : spec_float).
Record Revision := mkRevision {
  rv_event_id : string;
  rv_recorded_ns : Z;
  rv_field : string;
  rv_old : FieldValue;
  rv_new : FieldValue;
  rv_source : string
}.
Record Consensus := mkConsensus {
  co_event_id : string;
  co_recorded_ns : Z;
  co_consensus : option spec_float;
  co_previous : option spec_float;
  co_source : string
}.
Record Actual := mkActual {
  ac_event_id : string;
  ac_actual : option spec_float;
  ac_revised_prev : option spec_float;
  ac_published_ns : Z;
  ac_received_ns : Z;
  ac_source : string;
  ac_is_revision : bool
}.

Record CalendarDb := mkCalendarDb {
  cd_events : list CalendarEvent;
  cd_revisions : list Revision;
  cd_consensus : list Consensus;
  cd_actuals : list Actual
}.
Definition CM (A : Type) : Type := M CalendarDb A.

Definition on_events (f : list CalendarEvent -> list CalendarEvent) (d : CalendarDb) : CalendarDb :=
  mkCalendarDb (f (cd_events d)) (cd_revisions d) (cd_consensus d) (cd_actuals d).
Definition on_revisions (f : list Revision -> list Revision) (d : CalendarDb) : CalendarDb :=
  mkCalendarDb (cd_events d) (f (cd_revisions d)) (cd_consensus d) (cd_actuals d).
Definition on_consensus (f : list Consensus -> list Consensus) (d : CalendarDb) : CalendarDb :=
  mkCalendarDb (cd_events d) (cd_revisions d) (f (cd_consensus d)) (cd_actuals d).
Definition on_actuals (f : list Actual -> list Actual) (d : CalendarDb) : CalendarDb :=
  mkCalendarDb (cd_events d) (cd_revisions d) (cd_consensus d) (f (cd_actuals d)).

(** ** Ingestion *)

Inductive Action := Inserted | Rescheduled | Updated | Unchanged.
#[export] Instance Action_eq_dec : EqDecision Action.
Proof. solve_decision. Defined.
Record UpsertResult := mkUpsert { up_event_id : string; up_action : Action; up_previous_event_ns : option Z }.

(** [_record_revision]. *)
Definition record_revision (event_id fieldname : string) (old new : FieldValue) (source : string) (now : Z) : CM unit :=
  modify (on_revisions (fun l => l ++ [mkRevision event_id now fieldname old new source])).

(** [SELECT * FROM events WHERE event_id=?]. *)
Definition get_event (event_id : string) (d : CalendarDb) : option CalendarEvent :=
  List.find (fun r => bool_decide (ce_event_id r = event_id)) (cd_events d).
Definition named (t : option string) : bool := match t with Some s => negb (bool_decide (s = "")) | None => false end.
(** The row of a release: both keys are there and equal. *)
Definition same_release (e r : CalendarEvent) : bool :=
  match ce_series_id e, ce_period e, ce_series_id r, ce_period r with
  | Some s, Some p, Some s', Some p' => bool_decide (s = s') && bool_decide (p = p')
  | _, _, _, _ => false
  end.
Definition find_release (e : CalendarEvent) (d : CalendarDb) : option CalendarEvent :=
  if named (ce_series_id e) && named (ce_period e) then List.find (same_release e) (cd_events d) else None.

(** [INSERT INTO events]: the identity is a primary key and the release is unique. *)
Definition insert_event (e : CalendarEvent) : CM unit :=
  let! clash := gets (fun d => existsb (fun r => bool_decide (ce_event_id r = ce_event_id e) || same_release e r) (cd_events d)) in
  if clash : bool then throw OtherError else modify (on_events (fun l => l ++ [e])).

(** The row that is inserted for an event. *)
Definition new_row (now : Z) (e : CalendarEvent) : CalendarEvent :=
  mkEvent (ce_event_id e) (ce_event_ns e) (ce_country e) (ce_currency e) (ce_name e) (ce_impact e) (ce_period e) (ce_unit e)
    (ce_source e) (ce_series_id e) (ce_zone e) (ce_local_time e) (ce_certainty e) (ce_curated_impact e) (ce_measured_impact e)
    (ce_forecast e) (ce_previous e) 0 (ce_status e) now now.

Definition float_changed (old new : option spec_float) : bool :=
  match old, new with Some x, Some y => negb (feqb x y) | None, Some _ => true | _, None => false end.
Definition float_value (x : option spec_float) : FieldValue := match x with Some x => VFloat x | None => VNone end.
Definition impact_text (i : Impact) : string := match i with Low => "low" | Medium => "medium" | High => "high" end.

(** The fields that are compared after the time: whether each changed, and how. *)
Definition field_changes (row e : CalendarEvent) : list (bool * string * FieldValue * FieldValue) :=
  [ (negb (bool_decide (ce_certainty row = ce_certainty e)), "certainty", VText (certainty_text (ce_certainty row)),
     VText (certainty_text (ce_certainty e)));
    (float_changed (ce_forecast row) (ce_forecast e), "forecast", float_value (ce_forecast row), float_value (ce_forecast e));
    (float_changed (ce_previous row) (ce_previous e), "previous", float_value (ce_previous row), float_value (ce_previous e));
    (negb (bool_decide (ce_curated_impact row = ce_curated_impact e)), "curated_impact",
     VText (impact_text (ce_curated_impact row)), VText (impact_text (ce_curated_impact e)));
    (negb (bool_decide (ce_name row = ce_name e)), "name", VText (ce_name row), VText (ce_name e)) ].

(** The time of the row is kept against a less certain restatement. *)
Definition keep_time (row e : CalendarEvent) : bool := certainty_index (ce_certainty e) <? certainty_index (ce_certainty row).
Definition surer (row e : CalendarEvent) : Certainty :=
  if certainty_index (ce_certainty row) <? certainty_index (ce_certainty e) then ce_certainty e else ce_certainty row.

Definition or_string (s t : string) : string := if bool_decide (s = "") then t else s.
Definition or_float (x y : option spec_float) : option spec_float := match x with Some _ => x | None => y end.

(** [UPDATE events SET ...] of the row of an event. *)
Definition updated_row (now : Z) (action : Action) (row e r : CalendarEvent) : CalendarEvent :=
  mkEvent (ce_event_id r) (if keep_time row e then ce_event_ns row else ce_event_ns e) (ce_country e) (ce_currency e) (ce_name e)
    (match ce_measured_impact row with Some _ => ce_impact row | None => ce_impact e end) (ce_period r) (ce_unit r)
    (ce_source e) (ce_series_id r) (or_string (ce_zone e) (ce_zone row)) (or_string (ce_local_time e) (ce_local_time row))
    (surer row e) (ce_curated_impact e) (ce_measured_impact r) (or_float (ce_forecast e) (ce_forecast r))
    (or_float (ce_previous e) (ce_previous r)) (ce_revision_count r + (if bool_decide (action = Rescheduled) then 1 else 0))
    (ce_status r) (ce_first_seen_ns r) now.

(** Reconciling an event with the row that is already there. *)
Definition reconcile_row (now : Z) (row e : CalendarEvent) : CM UpsertResult :=
  let existing_id := ce_event_id row in
  let moved := negb (ce_event_ns row =? ce_event_ns e) in
  when moved (record_revision existing_id "event_ns" (VInt (ce_event_ns row)) (VInt (ce_event_ns e)) (ce_source e) now) ;!
  each (fun c => when c.1.1.1 (record_revision existing_id c.1.1.2 c.1.2 c.2 (ce_source e) now)) (field_changes row e) ;!
  let action := if moved then Rescheduled
                else if existsb (fun c => c.1.1.1) (field_changes row e) then Updated else Unchanged in
  let action := if keep_time row e && bool_decide (action = Rescheduled) then Unchanged else action in
  modify (on_events (map (fun r => if bool_decide (ce_event_id r = existing_id) then updated_row now action row e r else r))) ;!
  ret (mkUpsert existing_id action (if bool_decide (action = Rescheduled) then Some (ce_event_ns row) else None)).

(** [add_event]. *)
Definition add_event (now : Z) (e : CalendarEvent) : CM UpsertResult :=
  let! row := gets (fun d => match get_event (ce_event_id e) d with Some r => Some r | None => find_release e d end) in
  match row with
  | None => insert_event (new_row now e) ;! ret (mkUpsert (ce_event_id e) Inserted None)
  | Some row => reconcile_row now row e
  end.

Definition key_of {A} (x : option A) : res A := match x with Some a => Ok a | None => Raise KeyError end.
Definition valid_of {A} (x : option A) : res A := match x with Some a => Ok a | None => Raise ValueError end.
(** [raw.get(a) or ...] of texts. *)
Definition or_key (x y : option string) : option string := if named x then x else y.

(** [_event_from_row]; the events of a source are fresh. *)
Definition event_from_row (raw : RawEvent) : res CalendarEvent :=
  let curated := default "medium" (or_key (rw_curated_impact raw) (or_key (rw_impact raw) (Some "medium"))) in
  let* ns := key_of (rw_event_ns raw) in
  let id := default (default "X" (rw_series_id raw) +:+ ":" +:+ str_of_int ns) (or_key (rw_event_id raw) None) in
  let* currency := key_of (rw_currency raw) in
  let* name := key_of (rw_name raw) in
  let* impact := valid_of (impact_of (default curated (or_key (rw_impact raw) None))) in
  let* curated := valid_of (impact_of curated) in
  let* certainty := valid_of (certainty_of (default "confirmed" (rw_certainty raw))) in
  Ok (mkEvent id ns (default "" (rw_country raw)) currency name impact (rw_period raw) (rw_unit raw)
        (default "feed" (rw_source raw)) (rw_series_id raw) (default "UTC" (rw_zone raw)) (default "" (rw_local_time raw))
        certainty curated None (rw_forecast raw) (rw_previous raw) 0 "scheduled" 0 0).

(** [IngestReport]: the counts, the number of errors, the events that are advised. *)
Record IngestReport := mkIngest {
  in_inserted : Z;
  in_rescheduled : Z;
  in_unchanged : Z;
  in_updated : Z;
  in_rejected : Z;
  in_errors : Z;
  in_advisories : list string
}.
Definition count_action (a : Action) (r : IngestReport) : IngestReport :=
  mkIngest (in_inserted r + (if bool_decide (a = Inserted) then 1 else 0)) (in_rescheduled r + (if bool_decide (a = Rescheduled) then 1 else 0))
    (in_unchanged r + (if bool_decide (a = Unchanged) then 1 else 0)) (in_updated r + (if bool_decide (a = Updated) then 1 else 0))
    (in_rejected r) (in_errors r) (in_advisories r).
Definition reject (r : IngestReport) : IngestReport :=
  mkIngest (in_inserted r) (in_rescheduled r) (in_unchanged r) (in_updated r) (in_rejected r + 1) (in_errors r + 1) (in_advisories r).
Definition advise (e : CalendarEvent) (r : IngestReport) : IngestReport :=
  if negb (blocks_trading e) && bool_decide (ce_impact e = High)
  then mkIngest (in_inserted r) (in_rescheduled r) (in_unchanged r) (in_updated r) (in_rejected r) (in_errors r) (in_advisories r ++ [ce_name e])
  else r.

Definition ingest_row (now : Z) (r : IngestReport) (raw : RawEvent) : CM IngestReport :=
  match event_from_row raw with
  | Raise _ => ret (reject r)
  | Ok e => let! u := add_event now e in ret (advise e (count_action (up_action u) r))
  end.

(** [ingest] of what the source answers. *)
Definition ingest (now : Z) (fetched : res (list RawEvent)) : CM IngestReport :=
  match fetched with
  | Raise _ => ret (mkIngest 0 0 0 0 0 1 [])
  | Ok rows => fold_m (ingest_row now) (mkIngest 0 0 0 0 0 0 []) rows
  end.

(** ** The clocks *)

Definition moved_row (now want : Z) (r : CalendarEvent) : CalendarEvent :=
  mkEvent (ce_event_id r) want (ce_country r) (ce_currency r) (ce_name r) (ce_impact r) (ce_period r) (ce_unit r) (ce_source r)
    (ce_series_id r) (ce_zone r) (ce_local_time r) (ce_certainty r) (ce_curated_impact r) (ce_measured_impact r) (ce_forecast r)
    (ce_previous r) (ce_revision_count r) (ce_status r) (ce_first_seen_ns r) now.

(** The instant a row should have, from its local time and its zone. *)
Definition wanted_ns (r : CalendarEvent) : res Z :=
  let* utc := from_timestamp_ns (ce_event_ns r) 0 in
  let (hh, mm) := cut_colon (list_ascii_of_string (ce_local_time r)) in
  let* local := utc_to_local utc (ce_zone r) in
  let day := dt_date local in
  let* h := int_text (string_of_list_ascii hh) in
  let* mi := match mm with [] => Ok 0 | _ => int_text (string_of_list_ascii mm) end in
  let* l := datetime_hm (date_year day) (date_month day) (date_day day) h mi in
  local_to_utc_ns l (ce_zone r).

Definition reschedule_row (now : Z) (moved : Z) (r : CalendarEvent) : CM Z :=
  match wanted_ns r with
  | Raise _ => ret moved
  | Ok want =>
      if want =? ce_event_ns r then ret moved
      else
        record_revision (ce_event_id r) "event_ns" (VInt (ce_event_ns r)) (VInt want) "dst_recompute" now ;!
        modify (on_events (map (fun x => if bool_decide (ce_event_id x = ce_event_id r) then moved_row now want x else x))) ;!
        ret (moved + 1)
  end.

(** [reschedule_for_dst]. *)
Definition reschedule_for_dst (now from_ns to_ns : Z) : CM Z :=
  let! rows := gets (fun d => List.filter (fun r =>
    (from_ns <=? ce_event_ns r) && (ce_event_ns r <=? to_ns) && negb (bool_decide (ce_local_time r = ""))
    && bool_decide (ce_status r = "scheduled")) (cd_events d)) in
  fold_m (reschedule_row now) 0 rows.

(** ** What was expected and what was released *)

(** [x or wall_ns()]. *)
Definition or_now (x : option Z) (now : Z) : Z := match x with Some z => if z =? 0 then now else z | None => now end.

(** [record_consensus]: [INSERT OR IGNORE]. *)
Definition record_consensus (now : Z) (event_id : string) (consensus previous : option spec_float) (source : string)
    (recorded_ns : option Z) : CM unit :=
  let at_ := or_now recorded_ns now in
  modify (on_consensus (fun l =>
    if existsb (fun c => bool_decide (co_event_id c = event_id) && (co_recorded_ns c =? at_)) l then l
    else l ++ [mkConsensus event_id at_ consensus previous source])).

Definition released (now : Z) (r : CalendarEvent) : CalendarEvent :=
  mkEvent (ce_event_id r) (ce_event_ns r) (ce_country r) (ce_currency r) (ce_name r) (ce_impact r) (ce_period r) (ce_unit r)
    (ce_source r) (ce_series_id r) (ce_zone r) (ce_local_time r) (ce_certainty r) (ce_curated_impact r) (ce_measured_impact r)
    (ce_forecast r) (ce_previous r) (ce_revision_count r) "released" (ce_first_seen_ns r) (ce_updated_ns r).

Definition get_actual (event_id : string) (d : CalendarDb) : option Actual :=
  List.find (fun a => bool_decide (ac_event_id a = event_id)) (cd_actuals d).

(** [record_actual]: [INSERT OR REPLACE]. *)
Definition record_actual (now : Z) (event_id : string) (actual revised_prev : option spec_float) (published_ns : Z)
    (source : string) (received_ns : option Z) : CM unit :=
  let! prior := gets (get_actual event_id) in
  let old := match prior with Some a => ac_actual a | None => None end in
  let is_revision := match old, actual with Some x, Some y => negb (feqb x y) | _, _ => false end in
  when is_revision (record_revision event_id "actual" (float_value old) (float_value actual) source now) ;!
  modify (on_actuals (fun l => List.filter (fun a => negb (bool_decide (ac_event_id a = event_id))) l
    ++ [mkActual event_id actual revised_prev published_ns (or_now received_ns now) source is_revision])) ;!
  modify (on_events (map (fun r => if bool_decide (ce_event_id r = event_id) then released now r else r))).

Definition measured (now : Z) (tier : option Impact) (r : CalendarEvent) : CalendarEvent :=
  mkEvent (ce_event_id r) (ce_event_ns r) (ce_country r) (ce_currency r) (ce_name r) (default (ce_curated_impact r) tier)
    (ce_period r) (ce_unit r) (ce_source r) (ce_series_id r) (ce_zone r) (ce_local_time r) (ce_certainty r)
    (ce_curated_impact r) tier (ce_forecast r) (ce_previous r) (ce_revision_count r) (ce_status r) (ce_first_seen_ns r) now.
(** [set_measured_impact]: how many rows it changed. *)
Definition set_measured_impact (now : Z) (series_id : string) (tier : option string) : CM Z :=
  let set_ (tier : option Impact) : CM Z :=
    let here r := bool_decide (ce_series_id r = Some series_id) in
    let! n := gets (fun d => Z.of_nat (length (List.filter here (cd_events d)))) in
    modify (on_events (map (fun r => if here r then measured now tier r else r))) ;! ret n in
  match tier with
  | None => set_ None
  | Some t => match impact_of t with None => throw ValueError | Some i => set_ (Some i) end
  end.

(** ** Queries *)

Definition MINUTE_NS : Z := 60 * 1000000000.

(** [event_ns BETWEEN lo AND hi AND impact IN (...) ORDER BY event_ns]. *)
Definition in_window (lo hi : Z) (floor_ : Impact) (r : CalendarEvent) : bool :=
  (lo <=? ce_event_ns r) && (ce_event_ns r <=? hi) && (impact_index floor_ <=? impact_index (ce_impact r)).
Definition select_events (f : CalendarEvent -> bool) (d : CalendarDb) : list CalendarEvent :=
  sort_by ce_event_ns (List.filter f (cd_events d)).

(** [upcoming]. *)
Definition upcoming (now_ns horizon_sec : Z) (min_impact : Impact) (d : CalendarDb) : list CalendarEvent :=
  select_events (in_window now_ns (now_ns + horizon_sec * 1000000000) min_impact) d.

(** The label of a blackout: the event it names and its time. *)
Record Label := mkLabel { lb_name : string; lb_event_ns : Z }.

(** A row of the window: the nearest event of a currency gives the label. *)
Definition note_row (now_ns : Z) (wanted : list string) (acc : list (string * Label) * list (string * Z)) (r : CalendarEvent) :
    list (string * Label) * list (string * Z) :=
  if negb (bool_decide (ce_currency r ∈ wanted)) then acc
  else
    let distance := Z.abs (ce_event_ns r - now_ns) in
    match dict_get (ce_currency r) acc.2 with
    | Some nearest => if nearest <=? distance then acc
                      else (dict_set (ce_currency r) (mkLabel (ce_name r) (ce_event_ns r)) acc.1, dict_set (ce_currency r) distance acc.2)
    | None => (dict_set (ce_currency r) (mkLabel (ce_name r) (ce_event_ns r)) acc.1, dict_set (ce_currency r) distance acc.2)
    end.

(** The events of the window that may block. *)
Definition may_block (now_ns before_min after_min : Z) (min_impact : Impact) (require_certain : bool) (r : CalendarEvent) : bool :=
  in_window (now_ns - after_min * MINUTE_NS) (now_ns + before_min * MINUTE_NS) min_impact r
  && (negb require_certain || blocks_trading r).

(** [blackout]. *)
Definition blackout (now_ns : Z) (currencies : list string) (before_min after_min : Z) (min_impact : Impact)
    (require_certain : bool) (d : CalendarDb) : list (string * Label) :=
  (fold_left (note_row now_ns currencies) (select_events (may_block now_ns before_min after_min min_impact require_certain) d)
     ([], [])).1.

(** [advisories]: the events that are advised. *)
Definition advisories (now_ns : Z) (currencies : list string) (horizon_sec : Z) (min_impact : Impact) (d : CalendarDb) :
    list CalendarEvent :=
  List.filter (fun r => bool_decide (ce_currency r ∈ currencies))
    (select_events (fun r => in_window now_ns (now_ns + horizon_sec * 1000000000) min_impact r
                             && bool_decide (ce_certainty r = Approximate)) d).

(** [sym.replace("/", "_").split("_")]. *)
Fixpoint split_pair (cs : list ascii) : list (list ascii) :=
  match cs with
  | [] => [[]]
  | c :: rest =>
      let parts := split_pair rest in
      if one_of "/_" c then [] :: parts
      else match parts with p :: ps => (c :: p) :: ps | [] => [[c]] end
  end.
(** The parts of three letters. *)
Definition currencies_of (sym : string) : list string :=
  map string_of_list_ascii (List.filter (fun p => Nat.eqb (length p) 3) (split_pair (list_ascii_of_string sym))).
Definition currencies_in (instruments : list string) : list string := sorted_set (flat_map currencies_of instruments).

(** [instrument_blackout]. *)
Definition instrument_blackout (now_ns : Z) (instruments : list string) (before_min after_min : Z) (min_impact : Impact)
    (require_certain : bool) (d : CalendarDb) : list (string * (string * Label)) :=
  let by_ccy := blackout now_ns (currencies_in instruments) before_min after_min min_impact require_certain d in
  fold_left (fun out sym => match List.find (fun cl => contains cl.1 sym) by_ccy with
                            | Some cl => dict_set sym cl out
                            | None => out
                            end) instruments [].

(** ** Surprises *)

(** [consensus_as_of]: the last one recorded by then. *)
Definition consensus_as_of (event_id : string) (as_of_ns : Z) (d : CalendarDb) : option Consensus :=
  fold_left (fun best c =>
    if bool_decide (co_event_id c = event_id) && (co_recorded_ns c <=? as_of_ns)
       && match best with Some b => co_recorded_ns b <? co_recorded_ns c | None => true end
    then Some c else best) (cd_consensus d) None.

(** The join of the events of a series with what they released before a time. *)
Definition released_before (series_id : string) (before_ns : Z) (d : CalendarDb) : list (string * Z * Z * spec_float) :=
  flat_map (fun e => flat_map (fun a =>
      if bool_decide (ac_event_id a = ce_event_id e) && bool_decide (ce_series_id e = Some series_id)
         && (ac_published_ns a <? before_ns)
      then match ac_actual a with Some x => [(ce_event_id e, ce_event_ns e, ac_published_ns a, x)] | None => [] end
      else []) (cd_actuals d)) (cd_events d).
(** [historical_surprises]: when each was published, and its surprise. *)
Definition past_surprise (exclude : option string) (d : CalendarDb) (r : string * Z * Z * spec_float) : list (Z * spec_float) :=
  let '(id, scheduled, published, x) := r in
  if named exclude && bool_decide (exclude = Some id) then []
  else match consensus_as_of id scheduled d with
       | Some c => match co_consensus c with Some y => [(published, fsub x y)] | None => [] end
       | None => []
       end.
Definition historical_surprises (series_id : string) (before_ns : Z) (exclude : option string) (d : CalendarDb) :
    list (Z * spec_float) :=
  flat_map (past_surprise exclude d) (sort_by (fun r => r.1.2) (released_before series_id before_ns d)).

Class Numpy := { median : list spec_float -> spec_float; deviation : list spec_float -> spec_float }.

Record Dispersion := mkDispersion { ds_scale : option spec_float; ds_n : Z; ds_method : string }.
Record Surprise := mkSurprise {
  sp_event_id : string;
  sp_actual : spec_float;
  sp_consensus : spec_float;
  sp_surprise : spec_float;
  sp_standardised : option spec_float;
  sp_consensus_recorded_ns : Z;
  sp_published_ns : Z;
  sp_usable_ns : Z;
  sp_valid : bool;
  sp_series_id : option string;
  sp_dispersion : option spec_float;
  sp_dispersion_n : Z;
  sp_dispersion_method : string
}.

Section Surprises.
Context `{!Numpy}.

Definition zero_f : spec_float := S754_zero false.

(** [surprise_dispersion]. *)
Definition surprise_dispersion (series_id : string) (before_ns : Z) (exclude : option string) (min_obs : Z) (d : CalendarDb) : Dispersion :=
  let values := map snd (historical_surprises series_id before_ns exclude d) in
  let n := Z.of_nat (length values) in
  if n <? min_obs then mkDispersion None n "insufficient"
  else
    let med := median values in
    let robust := fmul (float_of_dec (mkDec 14826 (-4))) (median (map (fun v => SFabs (fsub v med)) values)) in
    if SFleb robust zero_f then
      let sd := deviation values in
      if SFleb sd zero_f then mkDispersion None n "degenerate" else mkDispersion (Some sd) n "sd"
    else mkDispersion (Some robust) n "mad".

(** [surprise]. *)
Definition surprise (event_id : string) (decision_ns : option Z) (history_sd : option spec_float) (min_history : Z)
    (d : CalendarDb) : option Surprise :=
  match get_actual event_id d, get_event event_id d with
  | Some a, Some e =>
      let value := default zero_f (ac_actual a) in
      let cutoff := default (ce_event_ns e) decision_ns in
      match consensus_as_of event_id (ce_event_ns e) d with
      | Some (mkConsensus _ recorded (Some c) _ _) =>
          let s := fsub value c in
          let (standardised, disp) :=
            match history_sd with
            | Some h => if SFltb zero_f h then (Some (fdiv s h), mkDispersion (Some h) 0 "caller_supplied") else (None, mkDispersion None 0 "none")
            | None => (None, mkDispersion None 0 "none")
            end in
          let (standardised, disp) :=
            match standardised with
            | Some _ => (standardised, disp)
            | None =>
                match ce_series_id e with
                | Some series =>
                    if bool_decide (series = "") then (None, disp)
                    else
                      let disp := surprise_dispersion series cutoff (Some event_id) min_history d in
                      (match ds_scale disp with Some x => if feqb x zero_f then None else Some (fdiv s x) | None => None end, disp)
                | None => (None, disp)
                end
            end in
          Some (mkSurprise event_id value c s standardised recorded (ac_published_ns a) (ac_received_ns a) true (ce_series_id e)
                  (ds_scale disp) (ds_n disp) (ds_method disp))
      | _ => Some (mkSurprise event_id value zero_f zero_f None 0 (ac_published_ns a) (ac_received_ns a) false (ce_series_id e) None 0 "")
      end
  | _, _ => None
  end.
End Surprises.
