(* ===== verification/NewsPolicy.v ===== *)
(** [sentinel/news/policy.py]: what the news may do to trading.  An assessment is
    an object of its instrument; the texts of its reasons are left to the constructors
    of [Reason]. *)

From Stdlib Require Import ZArith Lia SpecFloat Ascii String.
From stdpp Require Import base gmap strings list.
From S2P Require Import Prelude PyDecimal Calendar PyFloat PyText StateExn PyDict Agent Schedule News.

Local Open Scope Z_scope.
Local Open Scope py_scope.

(** What is read of an [Extraction]. *)
Record Extraction := mkExtraction {
  ex_article_id : string;
  ex_currencies : list string;
  ex_is_correction : bool;
  ex_contradicts_prior : bool;
  ex_confidence : spec_float;
  ex_valid : bool;
  ex_errors : list string
}.

Inductive Reason :=
| EventWindow (currency : string) (label : Label)
| DateUnconfirmed (name : string)
| Correction (article_id : string)
| Contradiction (article_id : string)
| Warnings (article_id first : string).

(** [NewsAssessment]. *)
Record Assessment := mkAssessment {
  as_instrument : string;
  as_blocked : bool;
  as_size_multiplier : decimal;
  as_reasons : list Reason;
  as_events : list (string * Label);
  as_extractions : list string;
  as_role : string;
  as_advisories : list (string * string)
}.

(** [NewsPolicy], with its calendar. *)
Record NewsPolicy := mkNewsPolicy {
  np_calendar : option CalendarDb;
  np_role : string;
  np_before_min : Z;
  np_after_min : Z;
  np_min_impact : Impact;
  np_correction_size_multiplier : decimal;
  np_contradiction_blocks : bool;
  np_require_certain_dates : bool;
  np_unconfirmed_size_multiplier : decimal
}.

(** The constructor: an unknown role is refused. *)
Definition news_policy (p : NewsPolicy) : res NewsPolicy :=
  if bool_decide (np_role p ∈ ["risk_filter"; "meta_label"; "signal"]) then Ok p else Raise ValueError.

Definition block (why : Reason) (a : Assessment) : Assessment :=
  mkAssessment (as_instrument a) true (as_size_multiplier a) (as_reasons a ++ [why]) (as_events a) (as_extractions a) (as_role a)
    (as_advisories a).
(** [a.size_multiplier = min(a.size_multiplier, m)]. *)
Definition shrink_size (m : decimal) (why : Reason) (a : Assessment) : Assessment :=
  mkAssessment (as_instrument a) (as_blocked a) (if (m <? as_size_multiplier a)%dec then m else as_size_multiplier a)
    (as_reasons a ++ [why]) (as_events a) (as_extractions a) (as_role a) (as_advisories a).
Definition add_label (cl : string * Label) (a : Assessment) : Assessment :=
  mkAssessment (as_instrument a) (as_blocked a) (as_size_multiplier a) (as_reasons a) (as_events a ++ [cl]) (as_extractions a)
    (as_role a) (as_advisories a).
Definition add_article (id : string) (a : Assessment) : Assessment :=
  mkAssessment (as_instrument a) (as_blocked a) (as_size_multiplier a) (as_reasons a) (as_events a) (as_extractions a ++ [id])
    (as_role a) (as_advisories a).
Definition add_advisory (cn : string * string) (a : Assessment) : Assessment :=
  mkAssessment (as_instrument a) (as_blocked a) (as_size_multiplier a) (as_reasons a) (as_events a) (as_extractions a) (as_role a)
    (as_advisories a ++ [cn]).
Definition clamp_size (a : Assessment) : Assessment :=
  if (as_size_multiplier a >? 1)%dec
  then mkAssessment (as_instrument a) (as_blocked a) 1%dec (as_reasons a) (as_events a) (as_extractions a) (as_role a) (as_advisories a)
  else a.

(** The effect of each source on the assessment of an instrument. *)
Definition window_effect (cl : string * Label) (a : Assessment) : Assessment := block (EventWindow cl.1 cl.2) (add_label cl a).
Definition advisory_effect (m : decimal) (e : CalendarEvent) (a : Assessment) : Assessment :=
  if contains (ce_currency e) (as_instrument a)
  then shrink_size m (DateUnconfirmed (ce_name e)) (add_advisory (ce_currency e, ce_name e) a) else a.
Definition extraction_effect (p : NewsPolicy) (ex : Extraction) (a : Assessment) : Assessment :=
  if negb (ex_valid ex) || negb (existsb (fun c => contains c (as_instrument a)) (ex_currencies ex)) then a
  else
    let a := add_article (ex_article_id ex) a in
    let a := if ex_is_correction ex then shrink_size (np_correction_size_multiplier p) (Correction (ex_article_id ex)) a else a in
    let a := if ex_contradicts_prior ex && np_contradiction_blocks p then block (Contradiction (ex_article_id ex)) a else a in
    match ex_errors ex with
    | [] => a
    | first :: _ => shrink_size 0.75%dec (Warnings (ex_article_id ex) first) a
    end.

(** [a = out[sym]] and the changes of the object. *)
Definition on_sym (sym : string) (f : Assessment -> Assessment) (out : list (string * Assessment)) : list (string * Assessment) :=
  match dict_get sym out with Some a => dict_set sym (f a) out | None => out end.
(** [for sym in instruments]. *)
Definition on_each (instruments : list string) (f : Assessment -> Assessment) (out : list (string * Assessment)) :
    list (string * Assessment) :=
  fold_left (fun out sym => on_sym sym f out) instruments out.

(** [assess]: the assessments by instrument.  [source] is what the source of
    extractions answers, when the policy has one. *)
Definition assess (p : NewsPolicy) (now_ns : Z) (instruments : list string) (extractions : option (list Extraction))
    (source : option (res (list Extraction))) : list (string * Assessment) :=
  let out := fold_left (fun out sym => dict_set sym (mkAssessment sym false 1%dec [] [] [] (np_role p) []) out) instruments [] in
  let extractions := match extractions, source with
                     | Some l, _ => l
                     | None, Some (Ok l) => l
                     | None, _ => []
                     end in
  let out := match np_calendar p with
             | Some d =>
                 let out := fold_left (fun out b => on_sym b.1 (window_effect b.2) out)
                   (instrument_blackout now_ns instruments (np_before_min p) (np_after_min p) (np_min_impact p)
                      (np_require_certain_dates p) d) out in
                 fold_left (fun out e => on_each instruments (advisory_effect (np_unconfirmed_size_multiplier p) e) out)
                   (advisories now_ns (currencies_in instruments) (np_before_min p * 60) (np_min_impact p) d) out
             | None => out
             end in
  let out := fold_left (fun out ex => on_each instruments (extraction_effect p ex) out) extractions out in
  map (fun e => (e.1, clamp_size e.2)) out.

(** [may_originate_trade]. *)
Definition may_originate_trade (p : NewsPolicy) : bool := bool_decide (np_role p = "signal").

(** [NewsDesk.recent_extractions] (news/desk.py): the valid extractions of the last
    [minutes]; a contradiction counts while it is fresh and confident. *)
Definition without_contradiction (ex : Extraction) : Extraction :=
  mkExtraction (ex_article_id ex) (ex_currencies ex) (ex_is_correction ex) false (ex_confidence ex) (ex_valid ex) (ex_errors ex).
Definition recent_extractions (now_ns minutes block_minutes : Z) (block_min_confidence : spec_float)
    (pairs : list (Z * Extraction)) : list Extraction :=
  flat_map (fun p : Z * Extraction => let (ts, ex) := p in
    if (ts <? now_ns - minutes * MINUTE_NS) || negb (ex_valid ex) then []
    else if ex_contradicts_prior ex && ((ts <? now_ns - block_minutes * MINUTE_NS) || fltb (ex_confidence ex) block_min_confidence)
         then [without_contradiction ex] else [ex]) pairs.

(** An assessment as the agent reads it. *)
Definition seen_by_agent (text : Reason -> string) (a : Assessment) : NewsAssessment :=
  mkNews (as_blocked a) (as_size_multiplier a) (map text (as_reasons a)).
