(* ===== verification/NewsInv.v ===== *)
(** What the calls on the economic calendar keep: one row for a release, and the
    time of a row against less certain restatements. *)

From Stdlib Require Import ZArith Lia SpecFloat Ascii String.
From stdpp Require Import base strings list.
From S2P Require Import Prelude PyDecimal Calendar PyFloat PyText StateExn PyDict Schedule News.

Local Open Scope Z_scope.
Local Open Scope py_scope.

(** ** Calls *)

Inductive CalendarCall :=
| AddEvent (e : CalendarEvent)
| Ingest (fetched : res (list RawEvent))
| RescheduleForDst (from_ns to_ns : Z)
| RecordConsensus (event_id : string) (consensus previous : option spec_float) (source : string) (recorded_ns : option Z)
| RecordActual (event_id : string) (actual revised_prev : option spec_float) (published_ns : Z) (source : string)
    (received_ns : option Z)
| SetMeasuredImpact (series_id : string) (tier : option string).

Definition ignore {A} (c : CM A) : CM unit := c ;! ret tt.
Definition call (now : Z) (c : CalendarCall) : CM unit :=
  match c with
  | AddEvent e => ignore (add_event now e)
  | Ingest rows => ignore (ingest now rows)
  | RescheduleForDst a b => ignore (reschedule_for_dst now a b)
  | RecordConsensus id c p src t => record_consensus now id c p src t
  | RecordActual id a r p src t => record_actual now id a r p src t
  | SetMeasuredImpact s t => ignore (set_measured_impact now s t)
  end.
(** A sequence of calls, each at its time; one that raises does not stop the next. *)
Definition calls (cs : list (Z * CalendarCall)) (d : CalendarDb) : CalendarDb := fold_left (fun d c => (call c.1 c.2 d).1) cs d.

Definition empty_db : CalendarDb := mkCalendarDb [] [] [] [].

(** ** The identity of a row *)

Definition identity (r : CalendarEvent) : string * option string * option string := (ce_event_id r, ce_series_id r, ce_period r).
Definition identities (d : CalendarDb) := map identity (cd_events d).

(** An identity is one row's, and so is a release. *)
Definition one_row (d : CalendarDb) : Prop :=
  NoDup (map ce_event_id (cd_events d)) /\
  forall r r', r ∈ cd_events d -> r' ∈ cd_events d -> same_release r r' = true -> ce_event_id r = ce_event_id r'.

Definition grows (d d' : CalendarDb) : Prop := (exists new, identities d' = identities d ++ new) /\ (one_row d -> one_row d').
#[export] Instance grows_preorder : PreOrder grows.
Proof.
  split.
  - intros d. split; [|auto]. exists []. now rewrite app_nil_r.
  - intros a b c [(n & E) H] [(n' & E') H']. split; [|auto]. exists (n ++ n'). now rewrite E', E, app_assoc.
Qed.

Lemma identities_ids d : map ce_event_id (cd_events d) = map (fun k => k.1.1) (identities d).
Proof. unfold identities. rewrite map_map. reflexivity. Qed.

Lemma same_release_identity a b a' b' : identity a = identity a' -> identity b = identity b' -> same_release a b = same_release a' b'.
Proof. unfold identity, same_release. intros [= _ -> ->] [= _ -> ->]. reflexivity. Qed.

Lemma same_identities d d' : identities d' = identities d -> grows d d'.
Proof.
  intros E. split; [exists []; now rewrite app_nil_r|]. intros [Hn Hu].
  split; [now rewrite identities_ids, E, <- identities_ids|].
  assert (Hk : forall r, r ∈ cd_events d' -> exists q, q ∈ cd_events d /\ identity q = identity r).
  { intros r Hr. assert (H : identity r ∈ identities d') by now apply list_elem_of_fmap_2.
    rewrite E in H. apply list_elem_of_fmap in H as (q & Eq & Hq). eauto. }
  intros r r' (q & Hq & Eq)%Hk (q' & Hq' & Eq')%Hk S.
  rewrite <- (same_release_identity q q' r r' Eq Eq') in S. specialize (Hu q q' Hq Hq' S).
  injection Eq as <- _ _. now injection Eq' as <- _ _.
Qed.

Lemma Steps_map (f : CalendarEvent -> CalendarEvent) : (forall r, identity (f r) = identity r) -> Steps grows (modify (on_events (map f))).
Proof. intros H. apply Steps_modify. intros d. apply same_identities. unfold identities. cbn. rewrite map_map. now apply map_ext. Qed.

Lemma Steps_map_at id (f : CalendarEvent -> CalendarEvent) : (forall r, identity (f r) = identity r) ->
  Steps grows (modify (on_events (map (fun r => if bool_decide (ce_event_id r = id) then f r else r)))).
Proof. intros H. apply Steps_map. intros r. now case_bool_decide. Qed.

Lemma Steps_revision id f o n src now : Steps grows (record_revision id f o n src now).
Proof. apply Steps_modify. intros d. now apply same_identities. Qed.

Lemma same_release_sym a b : same_release a b = same_release b a.
Proof.
  unfold same_release. destruct (ce_series_id a), (ce_period a), (ce_series_id b), (ce_period b); try reflexivity.
  f_equal; apply bool_decide_ext; split; now intros ->.
Qed.

Lemma Steps_insert e : Steps grows (insert_event e).
Proof.
  intros d. unfold insert_event, mbind_, gets, throw, modify. cbn.
  destruct (existsb _ _) eqn:E; cbn; [reflexivity|].
  assert (Hno : forall r, r ∈ cd_events d -> ce_event_id r <> ce_event_id e /\ same_release e r = false).
  { intros r Hr. destruct (bool_decide (ce_event_id r = ce_event_id e) || same_release e r) eqn:Er.
    - assert (true = false); [|discriminate]. rewrite <- E. symmetry. apply existsb_exists. exists r. split; [now apply list_elem_of_In|exact Er].
    - apply orb_false_iff in Er as [E1 E2]. split; [now apply bool_decide_eq_false in E1|exact E2]. }
  split; [exists [identity e]; unfold identities; cbn; now rewrite map_app|]. intros [Hn Hu]. split; cbn.
  - rewrite map_app. apply NoDup_app. split; [exact Hn|]. split; [|apply NoDup_singleton].
    intros x (r & -> & Hr)%list_elem_of_fmap Hx. apply list_elem_of_singleton in Hx. now apply (Hno r Hr).
  - intros r r' Hr Hr' S. apply elem_of_app in Hr, Hr'. rewrite !list_elem_of_singleton in *.
    destruct Hr as [Hr| ->], Hr' as [Hr'| ->]; [now apply Hu| | |reflexivity].
    + rewrite same_release_sym in S. now rewrite (proj2 (Hno r Hr)) in S.
    + now rewrite (proj2 (Hno r' Hr')) in S.
Qed.

Ltac grow_step :=
  match goal with
  | |- Steps _ (mbind_ _ _) => apply Steps_bind; [typeclasses eauto| |intros ?]
  | |- Steps _ (gets _) => apply Steps_gets; typeclasses eauto
  | |- Steps _ (ret _) => apply Steps_ret; typeclasses eauto
  | |- Steps _ (throw _) => apply Steps_throw; typeclasses eauto
  | |- Steps _ (when _ _) => apply Steps_when; [typeclasses eauto|]
  | |- Steps _ (each _ _) => apply Steps_each; [typeclasses eauto|intros ?]
  | |- Steps _ (fold_m _ _ _) => apply Steps_fold; [typeclasses eauto|intros ? ?]
  | |- Steps _ (record_revision _ _ _ _ _ _) => apply Steps_revision
  | |- Steps _ (insert_event _) => apply Steps_insert
  | |- Steps _ (modify (on_events (map (fun r => if bool_decide (ce_event_id r = _) then _ else r)))) => apply Steps_map_at; reflexivity
  | |- Steps _ (if ?b then _ else _) => destruct b
  | |- Steps _ (match ?x with _ => _ end) => destruct x
  end.

Lemma Steps_add now e : Steps grows (add_event now e).
Proof. unfold add_event, reconcile_row. cbv zeta. repeat grow_step. Qed.

Lemma Steps_ingest_row now r raw : Steps grows (ingest_row now r raw).
Proof. unfold ingest_row. destruct (event_from_row raw); repeat (apply Steps_add || grow_step). Qed.

Lemma Steps_calendar now c : Steps grows (call now c).
Proof.
  destruct c; cbn [call]; unfold ignore, ingest, reschedule_for_dst, reschedule_row, record_consensus, record_actual, set_measured_impact;
    cbv zeta; repeat (apply Steps_add || apply Steps_ingest_row || grow_step).
  all: try (apply Steps_modify; intros d; now apply same_identities).
  all: apply Steps_map; intros r; now case_bool_decide.
Qed.

Lemma calls_grow cs : forall d, grows d (calls cs d).
Proof. induction cs as [|c cs IH]; intros d; [reflexivity|]. cbn. etransitivity; [exact (Steps_calendar c.1 c.2 d)|apply IH]. Qed.

(** ** The time of a row *)

Lemma get_event_elem id d r : get_event id d = Some r -> r ∈ cd_events d /\ ce_event_id r = id.
Proof. unfold get_event. intros [H E]%List.find_some. split; [now apply list_elem_of_In|now apply bool_decide_eq_true in E]. Qed.

Lemma find_unique {A} (f : A -> bool) l x : x ∈ l -> f x = true -> (forall y, y ∈ l -> f y = true -> y = x) -> List.find f l = Some x.
Proof.
  intros Hx Hf Hu. destruct (List.find f l) as [y|] eqn:E.
  - apply List.find_some in E as [Hy Fy]. f_equal. apply Hu; [now apply list_elem_of_In|exact Fy].
  - rewrite (List.find_none _ _ E x) in Hf; [discriminate|now apply list_elem_of_In].
Qed.

Lemma same_id d r r' : NoDup (map ce_event_id (cd_events d)) -> r ∈ cd_events d -> r' ∈ cd_events d ->
  ce_event_id r = ce_event_id r' -> r = r'.
Proof.
  intros Hn Hr Hr' E. apply list_elem_of_lookup in Hr as [i Hi], Hr' as [j Hj].
  assert (i = j); [|congruence]. apply (NoDup_lookup (map ce_event_id (cd_events d)) i j (ce_event_id r) Hn).
  - change (map ce_event_id) with (fmap (M := list) ce_event_id). now rewrite list_lookup_fmap, Hi.
  - change (map ce_event_id) with (fmap (M := list) ce_event_id). now rewrite list_lookup_fmap, Hj, E.
Qed.

Lemma get_event_unique d r : NoDup (map ce_event_id (cd_events d)) -> r ∈ cd_events d -> get_event (ce_event_id r) d = Some r.
Proof.
  intros Hn Hr. apply find_unique; [exact Hr|now apply bool_decide_eq_true|].
  intros y Hy E. apply bool_decide_eq_true in E. now apply (same_id d).
Qed.

(** What [add_event] finds is a row, with the identity or of the release. *)
Lemma found_row d e row :
  (match get_event (ce_event_id e) d with Some r => Some r | None => find_release e d end) = Some row ->
  row ∈ cd_events d /\ (ce_event_id row = ce_event_id e \/ same_release e row = true).
Proof.
  destruct (get_event (ce_event_id e) d) as [r|] eqn:E.
  - intros [= ->]. apply get_event_elem in E as [H E]. auto.
  - unfold find_release. destruct (_ && _); [|discriminate]. intros [H F]%List.find_some. split; [now apply list_elem_of_In|auto].
Qed.

Lemma revision_noted b id f o n src now d :
  exists revs, when b (record_revision id f o n src now) d = (on_revisions (fun l => l ++ revs) d, Ok tt).
Proof.
  destruct b; [now exists [mkRevision id now f o n src]|]. exists []. unfold on_revisions, when, ret.
  rewrite app_nil_r. now destruct d.
Qed.

Lemma revisions_noted (cs : list (bool * string * FieldValue * FieldValue)) id src now : forall d,
  exists revs, each (fun c => when c.1.1.1 (record_revision id c.1.1.2 c.1.2 c.2 src now)) cs d = (on_revisions (fun l => l ++ revs) d, Ok tt).
Proof.
  induction cs as [|c cs IH]; intros d; [exact (revision_noted false id "" VNone VNone src now d)|].
  cbn [each]. unfold mbind_ at 1. destruct (revision_noted c.1.1.1 id c.1.1.2 c.1.2 c.2 src now d) as (r1 & ->).
  destruct (IH (on_revisions (fun l => l ++ r1) d)) as (r2 & ->). exists (r1 ++ r2). unfold on_revisions. cbn. now rewrite <- app_assoc.
Qed.

Lemma reconcile_row_spec now row e d : exists d' action,
  reconcile_row now row e d = (d', Ok (mkUpsert (ce_event_id row) action (if bool_decide (action = Rescheduled) then Some (ce_event_ns row) else None))) /\
  cd_events d' = map (fun r => if bool_decide (ce_event_id r = ce_event_id row) then updated_row now action row e r else r) (cd_events d) /\
  cd_consensus d' = cd_consensus d /\ cd_actuals d' = cd_actuals d.
Proof.
  unfold reconcile_row. cbv zeta. unfold mbind_ at 1.
  match goal with |- context [when ?b (record_revision ?i ?f ?o ?n ?s ?t) d] => destruct (revision_noted b i f o n s t d) as (r1 & ->) end.
  unfold mbind_ at 1.
  match goal with |- context [each _ ?l ?s] => destruct (revisions_noted l (ce_event_id row) (ce_source e) now s) as (r2 & ->) end.
  unfold mbind_, modify, ret. eexists _, _. split; [reflexivity|]. now cbn.
Qed.

Lemma add_event_spec now e d d' u : add_event now e d = (d', Ok u) ->
  (cd_events d' = cd_events d ++ [new_row now e] /\ up_event_id u = ce_event_id e /\ up_action u = Inserted) \/
  exists row action, row ∈ cd_events d /\ (ce_event_id row = ce_event_id e \/ same_release e row = true) /\
    up_event_id u = ce_event_id row /\ up_action u = action /\
    cd_events d' = map (fun r => if bool_decide (ce_event_id r = ce_event_id row) then updated_row now action row e r else r) (cd_events d).
Proof.
  unfold add_event, mbind_, gets. destruct (match get_event (ce_event_id e) d with Some r => Some r | None => find_release e d end) as [row|] eqn:E.
  - intros H. destruct (reconcile_row_spec now row e d) as (d1 & action & H1 & H2 & _). rewrite H1 in H. injection H as <- <-.
    right. exists row, action. destruct (found_row d e row E) as [Hr Ho]. now split_and!.
  - unfold insert_event, mbind_, gets, throw, modify. destruct (existsb _ _); [discriminate|]. intros [= <- <-]. left. now cbn.
Qed.

(** A row keeps the time and the certainty of [r]. *)
Definition row_stands (r : CalendarEvent) (d : CalendarDb) : Prop :=
  one_row d /\ exists r', get_event (ce_event_id r) d = Some r' /\ ce_event_ns r' = ce_event_ns r /\ ce_certainty r' = ce_certainty r.

Lemma find_mapped (f : CalendarEvent -> CalendarEvent) id l : (forall r, ce_event_id (f r) = ce_event_id r) ->
  List.find (fun r => bool_decide (ce_event_id r = id)) (map f l) = option_map f (List.find (fun r => bool_decide (ce_event_id r = id)) l).
Proof. intros H. induction l as [|x l IH]; [reflexivity|]. cbn. rewrite H. now case_bool_decide. Qed.

Lemma find_app_some {A} (f : A -> bool) l k x : List.find f l = Some x -> List.find f (l ++ k) = Some x.
Proof. induction l as [|y l IH]; [discriminate|]. cbn. now destruct (f y). Qed.

Lemma add_event_stands now e r : certainty_index (ce_certainty e) < certainty_index (ce_certainty r) ->
  Steps (keeps (row_stands r)) (add_event now e).
Proof.
  intros Hc d [H1 (r' & G & En & Ec)]. destruct (Steps_add now e d) as [_ Hone]. specialize (Hone H1).
  split; [exact Hone|]. destruct (add_event now e d) as [d' [u|x]] eqn:E; cbn [fst] in *.
  - destruct (add_event_spec _ _ _ _ _ E) as [(Ed & _)|(row & action & Hr & _ & _ & _ & Ed)].
    + exists r'. split; [|auto]. unfold get_event. rewrite Ed. now apply find_app_some.
    + unfold get_event. rewrite Ed, find_mapped by (intros q; now case_bool_decide). unfold get_event in G. rewrite G. cbn [option_map].
      eexists. split; [reflexivity|]. case_bool_decide as Hid; [|auto].
      destruct (get_event_elem _ _ _ G) as [Hr' Ei]. assert (row = r') as -> by (apply (same_id d); [apply H1|exact Hr|exact Hr'|now symmetry]).
      cbn. unfold surer, keep_time. rewrite Ec. rewrite (proj2 (Z.ltb_lt _ _) Hc), (proj2 (Z.ltb_ge _ _)) by lia. auto.
  - assert (Ed : d' = d); [|subst d'; eauto]. revert E. unfold add_event, mbind_, gets.
    destruct (match get_event (ce_event_id e) d with Some r => Some r | None => find_release e d end) as [row|].
    + destruct (reconcile_row_spec now row e d) as (d1 & action & -> & _). discriminate.
    + unfold insert_event, mbind_, gets, throw, modify. destruct (existsb _ _); [|discriminate]. now intros [= <- _].
Qed.

(** An event with the identity of a row updates it. *)
Lemma known_event_updates now e row d : one_row d -> row ∈ cd_events d -> ce_event_id e = ce_event_id row ->
  exists action, get_event (ce_event_id row) (add_event now e d).1 = Some (updated_row now action row e row).
Proof.
  intros [Hn _] Hr Ei. pose proof (get_event_unique d row Hn Hr) as G. unfold add_event, mbind_, gets. rewrite Ei, G.
  destruct (reconcile_row_spec now row e d) as (d1 & action & -> & Ed & _). exists action. cbn [fst].
  unfold get_event in *. rewrite Ed, find_mapped by (intros q; now case_bool_decide). rewrite G. cbn [option_map].
  now rewrite bool_decide_true.
Qed.

(** The certainty a source states. *)
Definition less_certain (c : Certainty) (raw : RawEvent) : Prop :=
  forall c', certainty_of (default "confirmed" (rw_certainty raw)) = Some c' -> certainty_index c' < certainty_index c.

Lemma event_certainty raw e : event_from_row raw = Ok e -> certainty_of (default "confirmed" (rw_certainty raw)) = Some (ce_certainty e).
Proof.
  unfold event_from_row, key_of, valid_of. cbv zeta.
  destruct (rw_event_ns raw), (rw_currency raw), (rw_name raw), (impact_of _); cbn [rbind]; try discriminate;
    destruct (impact_of _); cbn [rbind]; try discriminate; destruct (certainty_of _); cbn [rbind]; try discriminate; now intros [= <-].
Qed.

Lemma ingest_stands now rows r : Forall (less_certain (ce_certainty r)) rows ->
  forall rep, Steps (keeps (row_stands r)) (fold_m (ingest_row now) rep rows).
Proof.
  induction 1 as [|raw rows Hl _ IH]; intros rep; cbn [fold_m]; [apply Steps_ret; typeclasses eauto|].
  apply Steps_bind; [typeclasses eauto| |exact IH]. unfold ingest_row.
  destruct (event_from_row raw) as [e|] eqn:E; [|apply Steps_ret; typeclasses eauto].
  apply Steps_bind; [typeclasses eauto| |intros ?; apply Steps_ret; typeclasses eauto].
  apply add_event_stands, Hl, event_certainty, E.
Qed.

(** ** The window *)

Lemma insert_by_perm {A} (key : A -> Z) x l : insert_by key x l ≡ₚ x :: l.
Proof. induction l as [|y l IH]; [reflexivity|]. cbn. destruct (_ <=? _); [reflexivity|]. rewrite IH. apply Permutation_swap. Qed.
Lemma sort_by_perm {A} (key : A -> Z) l : sort_by key l ≡ₚ l.
Proof. induction l as [|x l IH]; [reflexivity|]. cbn. now rewrite insert_by_perm, IH. Qed.
Lemma elem_selected f d r : r ∈ select_events f d <-> r ∈ cd_events d /\ f r = true.
Proof. unfold select_events. rewrite sort_by_perm, !list_elem_of_In, List.filter_In. reflexivity. Qed.

Definition far (now : Z) (r : CalendarEvent) : Z := Z.abs (ce_event_ns r - now).
Definition label_of (r : CalendarEvent) : Label := mkLabel (ce_name r) (ce_event_ns r).
(** The entry of a currency names its nearest event; a wanted currency without an
    entry has no event. *)
Definition entry_ok (now : Z) (wanted : list string) (rows : list CalendarEvent) (c : string) (label : option Label) (nearest : option Z) : Prop :=
  match label, nearest with
  | Some lb, Some n => c ∈ wanted /\ exists r, r ∈ rows /\ ce_currency r = c /\ lb = label_of r /\ n = far now r /\
                         forall r', r' ∈ rows -> ce_currency r' = c -> far now r <= far now r'
  | None, None => forall r, r ∈ rows -> ce_currency r = c -> c ∉ wanted
  | _, _ => False
  end.
Definition nearest_named (now : Z) (wanted : list string) (rows : list CalendarEvent) (acc : list (string * Label) * list (string * Z)) : Prop :=
  forall c, entry_ok now wanted rows c (dict_get c acc.1) (dict_get c acc.2).

(** A row that does not change the entry of a currency. *)
Lemma entry_kept now wanted rows c label nearest r : entry_ok now wanted rows c label nearest ->
  (ce_currency r = c -> c ∈ wanted -> exists n, nearest = Some n /\ n <= far now r) -> entry_ok now wanted (rows ++ [r]) c label nearest.
Proof.
  unfold entry_ok. intros H Hr. destruct label, nearest as [n|]; try tauto.
  - destruct H as (Hc & q & Hq & Eq & El & En & Hle). split; [exact Hc|]. exists q. split; [set_solver|]. do 3 (split; [assumption|]).
    intros r' Hr' Ec. apply elem_of_app in Hr' as [Hr'|Hr']; [now apply Hle|]. apply list_elem_of_singleton in Hr' as ->.
    destruct (Hr Ec Hc) as (m & [= <-] & Hm). lia.
  - intros q Hq Ec Hw. apply elem_of_app in Hq as [Hq|Hq]; [now apply (H q)|]. apply list_elem_of_singleton in Hq as ->.
    now destruct (Hr Ec Hw) as (m & ? & _).
Qed.

(** A row that is nearer than the entry of its currency. *)
Lemma entry_set now wanted rows label nearest r : entry_ok now wanted rows (ce_currency r) label nearest -> ce_currency r ∈ wanted ->
  (forall n, nearest = Some n -> far now r < n) ->
  entry_ok now wanted (rows ++ [r]) (ce_currency r) (Some (label_of r)) (Some (far now r)).
Proof.
  intros H Hw Hd. split; [exact Hw|]. exists r. split; [set_solver|]. do 3 (split; [reflexivity|]). intros r' Hr' Ec.
  apply elem_of_app in Hr' as [Hr'|Hr']; [|apply list_elem_of_singleton in Hr' as ->; lia].
  unfold entry_ok in H. destruct label, nearest as [n|]; try tauto.
  - destruct H as (_ & q & _ & _ & _ & -> & Hq). specialize (Hq r' Hr' Ec). specialize (Hd _ eq_refl). lia.
  - exfalso. now apply (H r' Hr' Ec).
Qed.

Lemma nearest_named_step now wanted rows acc r : nearest_named now wanted rows acc ->
  nearest_named now wanted (rows ++ [r]) (note_row now wanted acc r).
Proof.
  intros H c. specialize (H c). unfold note_row. fold (far now r). fold (label_of r).
  assert (Hset : ce_currency r ∈ wanted -> (forall n, dict_get (ce_currency r) acc.2 = Some n -> far now r < n) ->
    entry_ok now wanted (rows ++ [r]) c (dict_get c (dict_set (ce_currency r) (label_of r) acc.1))
      (dict_get c (dict_set (ce_currency r) (far now r) acc.2))).
  { intros Hw Hd. rewrite !dict_get_set. case_bool_decide as E; [subst c; now apply (entry_set _ _ _ _ _ _ H)|].
    apply (entry_kept _ _ _ _ _ _ _ H). congruence. }
  case_bool_decide as Ew; cbn [negb]; [|apply (entry_kept _ _ _ _ _ _ _ H); now intros <-].
  destruct (dict_get (ce_currency r) acc.2) as [n|] eqn:En; [|now apply Hset].
  destruct (Z.leb_spec n (far now r)); [apply (entry_kept _ _ _ _ _ _ _ H); intros <- _; eauto|].
  apply Hset; [exact Ew|]. intros m [= <-]. lia.
Qed.

Lemma nearest_named_fold now wanted rows : forall done acc, nearest_named now wanted done acc ->
  nearest_named now wanted (done ++ rows) (fold_left (note_row now wanted) rows acc).
Proof.
  induction rows as [|r rows IH]; intros done acc H; [now rewrite app_nil_r|]. cbn [fold_left].
  rewrite (assoc_L (++) done [r] rows : done ++ r :: rows = _). apply IH, nearest_named_step, H.
Qed.

(** [blackout]: a wanted currency is blocked exactly when one of its events is in the
    window, and the label is the nearest. *)
Lemma blackout_spec now wanted before after floor_ certain d c :
  match dict_get c (blackout now wanted before after floor_ certain d) with
  | Some lb => c ∈ wanted /\ exists r, r ∈ cd_events d /\ may_block now before after floor_ certain r = true /\ ce_currency r = c /\
                 lb = label_of r /\ forall r', r' ∈ cd_events d -> may_block now before after floor_ certain r' = true ->
                                      ce_currency r' = c -> far now r <= far now r'
  | None => forall r, r ∈ cd_events d -> may_block now before after floor_ certain r = true -> ce_currency r = c -> c ∉ wanted
  end.
Proof.
  unfold blackout. set (rows := select_events _ d).
  pose proof (nearest_named_fold now wanted rows [] ([], [])) as H. cbn [app] in H.
  specialize (H ltac:(intros x; intros r Hr; now apply not_elem_of_nil in Hr) c).
  assert (Hrow : forall r, r ∈ rows <-> r ∈ cd_events d /\ may_block now before after floor_ certain r = true) by (intros r; apply elem_selected).
  unfold entry_ok in H.
  destruct (dict_get c _) as [lb|]; [destruct (dict_get c _); [|tauto]|destruct (dict_get c _); [tauto|]].
  - destruct H as (Hc & r & [Hr Hm]%Hrow & Ec & El & _ & Hle). split; [exact Hc|]. exists r. split_and!; try assumption.
    intros r' Hr' Hm'. apply Hle, Hrow. auto.
  - intros r Hr Hm. apply H, Hrow. auto.
Qed.
