(* ===== verification/NewsProps.v ===== *)
(** What the economic calendar and the news policy guarantee, and two behaviours of
    the calendar that they do not intend. *)

From Stdlib Require Import ZArith QArith Lia Lqa SpecFloat Ascii String.
From stdpp Require Import base gmap strings list.
From S2P Require Import Prelude PyDecimal DecimalTheory Money Types Config Stress Calendar PyFloat PyText Risk StateExn PyDict Agent AgentEntry Schedule News NewsPolicy NewsInv.

Local Open Scope Z_scope.
Local Open Scope py_scope.

(** Whatever is ingested, rescheduled, recorded or measured, and whether the
    calls return or raise, an identity is one row's and so is a release (its series
    and period); a row is never dropped and never changes its identity. *)
Theorem releases_stay_single cs cs' : let d := calls cs empty_db in
  one_row d /\ exists new, identities (calls cs' d) = identities d ++ new.
Proof.
  split; [|apply calls_grow]. apply (calls_grow cs empty_db). split; [constructor|]. intros r r' H. now apply not_elem_of_nil in H.
Qed.

(** A source that is less certain than a row, whatever it states and however
    often, moves neither the time nor the certainty of the row. *)
Theorem certain_time_is_kept now rows r d : one_row d -> get_event (ce_event_id r) d = Some r ->
  Forall (less_certain (ce_certainty r)) rows ->
  exists r', get_event (ce_event_id r) (ingest now (Ok rows) d).1 = Some r' /\
    ce_event_ns r' = ce_event_ns r /\ ce_certainty r' = ce_certainty r.
Proof.
  intros H1 G Hl. cbn [ingest].
  destruct (ingest_stands now rows r Hl (mkIngest 0 0 0 0 0 0 []) d) as [_ H]; [now split; [|exists r]|exact H].
Qed.

(** The same restatement, of an event that was not measured, gives the row its
    own impact: a confirmed release of high impact that a pattern calls less no
    longer blocks trading, at any time. *)
Theorem restatement_lowers_impact now e row d : one_row d -> row ∈ cd_events d -> ce_event_id e = ce_event_id row ->
  ce_measured_impact row = None -> certainty_index (ce_certainty e) < certainty_index (ce_certainty row) ->
  exists r', get_event (ce_event_id row) (add_event now e d).1 = Some r' /\ ce_event_ns r' = ce_event_ns row /\
    ce_certainty r' = ce_certainty row /\ ce_impact r' = ce_impact e /\
    (ce_impact e <> High -> forall at_ b a certain, may_block at_ b a High certain r' = false).
Proof.
  intros H1 Hr Ei Hm Hc. destruct (known_event_updates now e row d H1 Hr Ei) as (action & G). eexists. split; [exact G|].
  cbn. unfold keep_time, surer. rewrite (proj2 (Z.ltb_lt _ _) Hc), (proj2 (Z.ltb_ge _ _)), Hm by lia. split_and!; try reflexivity.
  intros Hi at_ b a certain. unfold may_block, in_window. cbn. rewrite Hm. destruct (ce_impact e); [| |contradiction]; now rewrite !andb_false_r.
Qed.

(** The event of a row of the weekly export. *)
Definition weekly_event (currency title : string) (week : Z * Z) (ns : Z) (i : Impact) (forecast previous : option spec_float) : CalendarEvent :=
  let series := "ff:" +:+ currency +:+ ":" +:+ slug title in
  let period := str_of_int week.1 +:+ "-W" +:+ padded 2 week.2 in
  mkEvent (series +:+ ":" +:+ period) ns currency currency title i (Some period) None "forexfactory" (Some series) "UTC" ""
    Confirmed i None forecast previous 0 "scheduled" 0 0.

Lemma normalise_event ccys currency title impact u f p raw : normalise ccys currency title impact (Some u) f p = Ok (Some raw) ->
  exists ns i, let x := weekly_event currency title (isocalendar (dt_date u)) ns i f p in
    impact_of impact = Some i /\ (rw_event_ns raw = Some ns /\ rw_event_id raw = Some (ce_event_id x) /\ rw_series_id raw = ce_series_id x) /\
    event_from_row raw = Ok x.
Proof.
  unfold normalise. destruct (_ || _) eqn:E; [discriminate|]. apply orb_false_elim in E as [_ Hi]. apply negb_false_iff, bool_decide_eq_true in Hi.
  destruct (isocalendar (dt_date u)) as [y w] eqn:Ew. destruct (nanoseconds _) as [ns|] eqn:En; [|discriminate]. cbn [rbind]. intros [= <-].
  assert (Hx : exists i, impact_of impact = Some i /\ impact <> "").
  { rewrite !elem_of_cons in Hi. destruct Hi as [-> | [-> | [-> | Hi%not_elem_of_nil]]]; [exists High|exists Medium|exists Low|easy]; easy. }
  destruct Hx as (i & Ei & Hne). exists ns, i. split; [exact Ei|]. split; [now split_and!|].
  unfold event_from_row, or_key, named, key_of, valid_of. cbn [rw_curated_impact rw_impact rw_event_ns rw_event_id rw_currency rw_name rw_certainty].
  rewrite !bool_decide_false by (exact Hne || discriminate). cbn [negb default rbind]. unfold id. now rewrite Ei.
Qed.

Lemma find_snoc {A} (f : A -> bool) l x : List.find f l = None -> List.find f (l ++ [x]) = if f x then Some x else None.
Proof. induction l as [|y l IH]; [reflexivity|]. cbn. destruct (f y); [discriminate|exact IH]. Qed.

(** Two events with one identity, new to the store: one row is left, with the time of
    the second. *)
Lemma ingest_two now e1 e2 x1 x2 d : event_from_row e1 = Ok x1 -> event_from_row e2 = Ok x2 ->
  (forall r, r ∈ cd_events d -> ce_event_id r <> ce_event_id x1 /\ same_release x1 r = false) ->
  ce_event_id x2 = ce_event_id x1 ->
  exists action, cd_events (ingest now (Ok [e1; e2]) d).1 = cd_events d ++ [updated_row now action (new_row now x1) x2 (new_row now x1)].
Proof.
  intros F1 F2 Hd Hi. cbn [ingest fold_m]. unfold ingest_row at 1. rewrite F1.
  assert (G0 : forall e, ce_event_id e = ce_event_id x1 -> get_event (ce_event_id e) d = None).
  { intros e ->. unfold get_event. destruct (List.find _ _) as [r|] eqn:E; [|reflexivity]. apply List.find_some in E as [Hr E].
    apply bool_decide_eq_true in E. apply list_elem_of_In in Hr. now destruct (Hd r Hr). }
  assert (E1 : add_event now x1 d = (on_events (fun l => l ++ [new_row now x1]) d, Ok (mkUpsert (ce_event_id x1) Inserted None))).
  { unfold add_event, mbind_ at 1, gets. rewrite (G0 x1 eq_refl).
    assert (Hf : find_release x1 d = None).
    { unfold find_release. destruct (_ && _); [|reflexivity]. destruct (List.find _ _) as [r|] eqn:E; [|reflexivity].
      apply List.find_some in E as [Hr E]. apply list_elem_of_In in Hr. destruct (Hd r Hr). congruence. }
    rewrite Hf. unfold insert_event, mbind_, gets.
    replace (existsb _ (cd_events d)) with false; [reflexivity|]. symmetry. apply not_true_iff_false. intros (r & Hr & E)%existsb_exists.
    apply list_elem_of_In in Hr. destruct (Hd r Hr) as [A B]. apply orb_prop in E as [E|E]; [now apply bool_decide_eq_true in E|].
    change (same_release (new_row now x1) r) with (same_release x1 r) in E. congruence. }
  unfold mbind_ at 2. unfold mbind_ at 1. rewrite E1. cbn [up_action]. unfold ret at 1. unfold ingest_row. rewrite F2.
  set (d1 := on_events _ d). unfold mbind_.
  assert (G1 : get_event (ce_event_id x2) d1 = Some (new_row now x1)).
  { unfold get_event, d1. cbn. rewrite find_snoc; [|exact (G0 x2 Hi)]. now rewrite bool_decide_true by (now rewrite Hi). }
  unfold add_event, mbind_, gets. rewrite G1. destruct (reconcile_row_spec now (new_row now x1) x2 d1) as (d2 & action & -> & Ed & _).
  exists action. cbn. rewrite Ed. unfold d1. cbn [cd_events on_events]. rewrite map_app. cbn [map]. rewrite bool_decide_true by reflexivity. f_equal.
  rewrite <- (map_id (cd_events d)) at 2. apply map_ext_in. intros r Hr. apply list_elem_of_In in Hr.
  rewrite bool_decide_false; [reflexivity|]. exact (proj1 (Hd r Hr)).
Qed.

(** Two releases of one title in one week of the export are one row: after both
    are ingested only the second has a window, and the time of the first, if it is
    further than the window, is free. *)
Theorem same_week_loses_window now ccys currency title impact u1 u2 f1 f2 p1 p2 e1 e2 d : one_row d ->
  normalise ccys currency title impact (Some u1) f1 p1 = Ok (Some e1) ->
  normalise ccys currency title impact (Some u2) f2 p2 = Ok (Some e2) ->
  isocalendar (dt_date u1) = isocalendar (dt_date u2) ->
  (forall r, r ∈ cd_events d -> Some (ce_event_id r) <> rw_event_id e1 /\ ce_series_id r <> rw_series_id e1 /\
                                 (ce_currency r <> currency \/ ce_impact r <> High)) ->
  exists r, cd_events (ingest now (Ok [e1; e2]) d).1 = cd_events d ++ [r] /\ rw_event_ns e2 = Some (ce_event_ns r) /\
    forall t1 before after, rw_event_ns e1 = Some t1 -> t1 + before * MINUTE_NS < ce_event_ns r \/ ce_event_ns r < t1 - after * MINUTE_NS ->
      dict_get currency (blackout t1 [currency] before after High true (ingest now (Ok [e1; e2]) d).1) = None.
Proof.
  intros H1 N1 N2 Ew Hd. destruct (normalise_event _ _ _ _ _ _ _ _ N1) as (t1 & i1 & Hi & R1 & F1).
  destruct (normalise_event _ _ _ _ _ _ _ _ N2) as (t2 & i2 & _ & R2 & F2). cbv zeta in R1, F1, R2, F2. rewrite <- Ew in R2, F2.
  set (w := isocalendar (dt_date u1)) in *. set (x1 := weekly_event currency title w t1 i1 f1 p1) in *.
  set (x2 := weekly_event currency title w t2 i2 f2 p2) in *.
  assert (Hs : rw_event_id e1 = Some (ce_event_id x1) /\ rw_series_id e1 = ce_series_id x1) by (exact (conj (proj1 (proj2 R1)) (proj2 (proj2 R1)))).
  destruct Hs as [Hid Hse]. rewrite Hid, Hse in Hd.
  destruct (ingest_two now e1 e2 x1 x2 d F1 F2) as (action & Ed).
  { intros r Hr. destruct (Hd r Hr) as (A & B & _). split; [congruence|].
    unfold same_release. destruct (ce_series_id r) as [s|]; [|reflexivity]. destruct (ce_period r); [|reflexivity].
    cbn. rewrite bool_decide_false; [reflexivity|]. cbn in B. congruence. }
  { reflexivity. }
  exists (updated_row now action (new_row now x1) x2 (new_row now x1)). rewrite (proj1 R2). split; [exact Ed|]. split; [reflexivity|].
  intros t before after [= <-]%(eq_trans (eq_sym (proj1 R1))) Hout.
  pose proof (blackout_spec t1 [currency] before after High true (ingest now (Ok [e1; e2]) d).1 currency) as B.
  destruct (dict_get _ _) as [lb|]; [exfalso|reflexivity]. destruct B as (_ & r & Hr & Hm & Ec & _).
  rewrite Ed in Hr. apply elem_of_app in Hr as [Hr|Hr].
  - destruct (Hd r Hr) as (_ & _ & [H|H]); [easy|]. unfold may_block, in_window in Hm. apply andb_prop in Hm as [[_ Hm]%andb_prop _].
    destruct (ce_impact r); cbn in Hm; easy.
  - apply list_elem_of_singleton in Hr as ->. cbn in Hm, Hout. unfold may_block, in_window in Hm. cbn in Hm.
    rewrite !andb_true_iff, !Z.leb_le in Hm. lia.
Qed.

(** ** The policy *)

(** What an assessment of the dictionary says of its instrument. *)
Definition shows (s : string) (b : bool) (out : list (string * Assessment)) : Prop :=
  exists a, dict_get s out = Some a /\ as_instrument a = s /\ as_blocked a = b.

Lemma get_on_sym s sym f out : dict_get s (on_sym sym f out) = if bool_decide (s = sym) then option_map f (dict_get s out) else dict_get s out.
Proof.
  unfold on_sym. case_bool_decide as E; [subst s|].
  - destruct (dict_get sym out) as [a|] eqn:G; [|now rewrite G]. rewrite dict_get_set. now rewrite bool_decide_true.
  - destruct (dict_get sym out) as [a|]; [|reflexivity]. rewrite dict_get_set. case_bool_decide; [congruence|reflexivity].
Qed.

(** An effect that blocks an instrument or leaves it. *)
Definition blocks_when (f : Assessment -> Assessment) (hit : string -> bool) : Prop :=
  forall a, as_instrument (f a) = as_instrument a /\ as_blocked (f a) = as_blocked a || hit (as_instrument a).

Lemma shows_on_sym s b sym f hit out : blocks_when f hit -> shows s b out ->
  shows s (b || (bool_decide (s = sym) && hit s)) (on_sym sym f out).
Proof.
  intros H (a & G & Ei & Eb). unfold shows. rewrite get_on_sym, G. destruct (H a) as [Hi Hb]. case_bool_decide as E; cbn [option_map].
  - exists (f a). rewrite Hi, Hb, Ei, Eb. auto.
  - exists a. now rewrite orb_false_r.
Qed.

Lemma shows_on_each s f hit instruments : blocks_when f hit -> s ∈ instruments -> forall b out, shows s b out ->
  shows s (b || hit s) (on_each instruments f out).
Proof.
  intros H. unfold on_each. enough (E : forall b out, shows s b out ->
    shows s (b || (bool_decide (s ∈ instruments) && hit s)) (fold_left (fun out sym => on_sym sym f out) instruments out)).
  { intros Hs b out Ho. specialize (E b out Ho). now rewrite bool_decide_true in E. }
  induction instruments as [|y l IH]; intros b out Ho; [now rewrite orb_false_r|].
  cbn [fold_left]. specialize (IH _ _ (shows_on_sym s b y f hit out H Ho)). revert IH.
  replace (bool_decide (s ∈ y :: l)) with (bool_decide (s = y) || bool_decide (s ∈ l)).
  - destruct b, (bool_decide (s = y)), (bool_decide (s ∈ l)), (hit s); auto.
  - rewrite <- bool_decide_or. apply bool_decide_ext. now rewrite elem_of_cons.
Qed.

Lemma shows_each s {A} (f : A -> Assessment -> Assessment) (hit : A -> string -> bool) instruments xs :
  (forall x, blocks_when (f x) (hit x)) -> s ∈ instruments -> forall b out, shows s b out ->
  shows s (b || existsb (fun x => hit x s) xs) (fold_left (fun out x => on_each instruments (f x) out) xs out).
Proof.
  intros H Hs. induction xs as [|x xs IH]; intros b out Ho; [now rewrite orb_false_r|]. cbn [fold_left existsb].
  rewrite orb_assoc. apply IH. now apply shows_on_each.
Qed.

Lemma shows_windows s (bl : list (string * (string * Label))) : forall b out, shows s b out ->
  shows s (b || existsb (fun x => bool_decide (s = x.1)) bl) (fold_left (fun out x => on_sym x.1 (window_effect x.2) out) bl out).
Proof.
  induction bl as [|x bl IH]; intros b out Ho; [now rewrite orb_false_r|]. cbn [fold_left existsb]. rewrite orb_assoc. apply IH.
  rewrite <- (andb_true_r (bool_decide (s = x.1))).
  apply (shows_on_sym s b x.1 (window_effect x.2) (fun _ => true)); [|exact Ho]. intros a. split; [reflexivity|]. cbn. now rewrite orb_true_r.
Qed.

Lemma shows_init s role instruments : forall out, s ∈ instruments \/ shows s false out ->
  shows s false (fold_left (fun out sym => dict_set sym (mkAssessment sym false 1%dec [] [] [] role []) out) instruments out).
Proof.
  induction instruments as [|y l IH]; intros out [H|H]; [now apply not_elem_of_nil in H|exact H| |]; cbn [fold_left]; apply IH.
  - destruct (decide (s ∈ l)); [auto|]. right. apply elem_of_cons in H as [->|H]; [|easy]. eexists. rewrite dict_get_set, bool_decide_true; auto.
  - right. destruct H as (a & G & ? & ?). unfold shows. rewrite dict_get_set. case_bool_decide as E; [subst y; eexists; eauto|eauto].
Qed.

(** The extraction contradicts earlier reports on a currency of the instrument. *)
Definition contradicts (p : NewsPolicy) (ex : Extraction) (s : string) : bool :=
  ex_valid ex && existsb (fun c => contains c s) (ex_currencies ex) && ex_contradicts_prior ex && np_contradiction_blocks p.
Lemma extraction_blocks p ex : blocks_when (extraction_effect p ex) (contradicts p ex).
Proof.
  intros a. unfold extraction_effect, contradicts. destruct (ex_valid ex), (existsb _ _); cbn [negb orb andb]; try (now rewrite orb_false_r).
  destruct (ex_is_correction ex), (ex_contradicts_prior ex), (np_contradiction_blocks p), (ex_errors ex); cbn; rewrite ?orb_true_r, ?orb_false_r; auto.
Qed.
Lemma advisory_blocks m e : blocks_when (advisory_effect m e) (fun _ => false).
Proof. intros a. unfold advisory_effect. rewrite orb_false_r. destruct (contains _ _); auto. Qed.

Definition considered (extractions : option (list Extraction)) (source : option (res (list Extraction))) : list Extraction :=
  match extractions, source with Some l, _ => l | None, Some (Ok l) => l | None, _ => [] end.

Lemma get_clamped s out : dict_get s (map (fun e => (e.1, clamp_size e.2)) out) = option_map clamp_size (dict_get s out).
Proof. induction out as [|[k a] out IH]; [reflexivity|]. cbn. now case_bool_decide. Qed.

Lemma existsb_contradicts p s exs : existsb (fun x => contradicts p x s) exs = true <->
  np_contradiction_blocks p = true /\ exists ex, ex ∈ exs /\ ex_valid ex = true /\ ex_contradicts_prior ex = true /\
    exists c, c ∈ ex_currencies ex /\ contains c s = true.
Proof.
  rewrite existsb_exists. unfold contradicts. split.
  - intros (ex & Hx%list_elem_of_In & H). rewrite !andb_true_iff, existsb_exists in H. destruct H as [[[Hv (c & Hc%list_elem_of_In & Ec)] Hp] Hb].
    split; [exact Hb|]. exists ex. split_and!; eauto.
  - intros (Hb & ex & Hx & Hv & Hp & c & Hc & Ec). exists ex. split; [now apply list_elem_of_In|]. rewrite Hv, Hp, Hb.
    cbn. rewrite !andb_true_r. apply existsb_exists. exists c. split; [now apply list_elem_of_In|exact Ec].
Qed.

(** The instruments that are blacked out. *)
Lemma blackout_instruments now syms before after floor_ certain d s : s ∈ syms ->
  existsb (fun x => bool_decide (s = x.1)) (instrument_blackout now syms before after floor_ certain d) = true <->
  exists r, r ∈ cd_events d /\ may_block now before after floor_ certain r = true /\
            ce_currency r ∈ currencies_in syms /\ contains (ce_currency r) s = true.
Proof.
  intros Hs. unfold instrument_blackout. set (by_ccy := blackout _ _ _ _ _ _ _).
  assert (Hk : (exists cl, cl ∈ by_ccy /\ contains cl.1 s = true) <-> exists r, r ∈ cd_events d /\
    may_block now before after floor_ certain r = true /\ ce_currency r ∈ currencies_in syms /\ contains (ce_currency r) s = true).
  { pose proof (fun c => blackout_spec now (currencies_in syms) before after floor_ certain d c) as B. fold by_ccy in B. split.
    - intros ([c lb] & Hc & Ec). specialize (B c). destruct (dict_get c by_ccy) as [lb'|] eqn:G.
      + destruct B as (Hw & r & Hr & Hm & Er & _). exists r. rewrite Er. auto.
      + apply dict_get_None in G. destruct G. change c with ((c, lb).1). now apply list_elem_of_fmap_2.
    - intros (r & Hr & Hm & Hw & Ec). specialize (B (ce_currency r)). destruct (dict_get (ce_currency r) by_ccy) as [lb|] eqn:G.
      + exists (ce_currency r, lb). split; [now apply dict_get_elem|exact Ec].
      + now destruct (B r Hr Hm eq_refl). }
  rewrite <- Hk. clear Hk.
  assert (Hget : forall out, existsb (fun x => bool_decide (s = x.1)) out = true <-> is_Some (dict_get (A := string * Label) s out)).
  { induction out as [|[k v] out IH]; cbn; [split; [discriminate|now intros []]|]. destruct (decide (k = s)) as [->|Hk].
    - rewrite !bool_decide_true by reflexivity. cbn. split; eauto.
    - rewrite !bool_decide_false by congruence. exact IH. }
  rewrite Hget. enough (E : forall out, is_Some (dict_get s (fold_left (fun out sym =>
      match List.find (fun cl => contains cl.1 sym) by_ccy with Some cl => dict_set sym cl out | None => out end) syms out)) <->
    is_Some (dict_get s out) \/ s ∈ syms /\ exists cl, cl ∈ by_ccy /\ contains cl.1 s = true).
  { rewrite E. split; [intros [[? [=]]|[_ ?]]; assumption|auto]. }
  clearbody by_ccy. clear Hs Hget. induction syms as [|y l IH]; intros out; cbn [fold_left]; [split; [auto|intros [?|[H _]]; [assumption|now apply not_elem_of_nil in H]]|].
  rewrite IH. destruct (List.find _ by_ccy) as [cl|] eqn:F.
  - apply List.find_some in F as [Hc%list_elem_of_In Ec]. rewrite dict_get_set. case_bool_decide as E.
    + subst y. split; [intros _; right; split; [set_solver|eauto]|eauto].
    + rewrite elem_of_cons. intuition congruence.
  - rewrite elem_of_cons. split; [intuition auto|]. intros [?|[[->|?] (cl & Hc & Ec)]]; [auto| |right; eauto].
    rewrite (List.find_none _ _ F cl) in Ec; [discriminate|now apply list_elem_of_In].
Qed.

Lemma news_effect p d now syms extractions source s : np_calendar p = Some d -> s ∈ syms ->
  exists a, dict_get s (assess p now syms extractions source) = Some a /\ (dval (as_size_multiplier a) <= 1)%Q /\
    (as_blocked a = true <->
      (exists r, r ∈ cd_events d /\ may_block now (np_before_min p) (np_after_min p) (np_min_impact p) (np_require_certain_dates p) r = true /\
                 ce_currency r ∈ currencies_in syms /\ contains (ce_currency r) s = true) \/
      (np_contradiction_blocks p = true /\ exists ex, ex ∈ considered extractions source /\ ex_valid ex = true /\
         ex_contradicts_prior ex = true /\ exists c, c ∈ ex_currencies ex /\ contains c s = true)).
Proof.
  intros Hc Hs. unfold assess. rewrite Hc. fold (considered extractions source). cbv zeta.
  set (bl := instrument_blackout _ _ _ _ _ _ _). set (ads := advisories _ _ _ _ _).
  pose proof (shows_init s (np_role p) syms [] (or_introl Hs)) as H0. apply (shows_windows s bl) in H0.
  apply (shows_each s _ (fun _ _ => false) syms ads (advisory_blocks (np_unconfirmed_size_multiplier p)) Hs) in H0.
  apply (shows_each s _ (contradicts p) syms (considered extractions source) (extraction_blocks p) Hs) in H0.
  destruct H0 as (a & G & _ & Eb). exists (clamp_size a). rewrite get_clamped, G. split; [reflexivity|]. split.
  - assert (E1 : (dval 1%dec == 1)%Q) by reflexivity. unfold clamp_size. destruct (_ >? _)%dec eqn:E; cbn [as_size_multiplier]; [lra|].
    apply dltb_false in E. lra.
  - replace (as_blocked (clamp_size a)) with (as_blocked a) by (unfold clamp_size; now destruct (_ >? _)%dec).
    rewrite Eb, !orb_true_iff, existsb_contradicts. unfold bl. rewrite blackout_instruments by exact Hs.
    rewrite existsb_exists. split; [|intuition auto]. intros [[[?|?]|(? & _ & ?)]|?]; try discriminate; auto.
Qed.

(** An instrument is blocked exactly when an event of one of its currencies, of
    enough impact and sure enough, is within the minutes before or after, or a valid
    extraction on one of them contradicts what was reported; and the news never
    enlarge a position. *)
Theorem news_blocks_iff p d now syms extractions source s : np_calendar p = Some d -> s ∈ syms ->
  exists a, dict_get s (assess p now syms extractions source) = Some a /\ (dval (as_size_multiplier a) <= 1)%Q /\
    (as_blocked a = true <->
      (exists r, r ∈ cd_events d /\ may_block now (np_before_min p) (np_after_min p) (np_min_impact p) (np_require_certain_dates p) r = true /\
                 ce_currency r ∈ currencies_in syms /\ contains (ce_currency r) s = true) \/
      (np_contradiction_blocks p = true /\ exists ex, ex ∈ considered extractions source /\ ex_valid ex = true /\
         ex_contradicts_prior ex = true /\ exists c, c ∈ ex_currencies ex /\ contains c s = true)).
Proof. exact (news_effect p d now syms extractions source s). Qed.

Lemma blocked_in_context (text : Reason -> string) out s a : dict_get s out = Some a -> as_blocked a = true ->
  blocked_news (map (fun e => (e.1, seen_by_agent text e.2)) out) !! s <> None.
Proof.
  intros G Hb. unfold blocked_news. rewrite <- not_elem_of_list_to_map. intros H. apply H.
  apply list_elem_of_fmap. eexists (s, _). split; [reflexivity|]. apply list_elem_of_omap. exists (s, seen_by_agent text a). split.
  - change (s, seen_by_agent text a) with ((fun e : string * Assessment => (e.1, seen_by_agent text e.2)) (s, a)).
    now apply list_elem_of_fmap_2, dict_get_elem.
  - cbn. now rewrite Hb.
Qed.

(** C18: With the news of a cycle in its context, the engine approves no entry on an
    instrument inside the window of a release: the event is in the calendar, of the
    impact and certainty the policy asks for, its currency one of the instrument's. *)
Theorem release_window_vetoes p d now syms source (text : Reason -> string) cfg intent ctx dec r :
  np_calendar p = Some d -> ctx_news_blackout ctx = blocked_news (map (fun e => (e.1, seen_by_agent text e.2)) (assess p now syms None source)) ->
  r ∈ cd_events d -> (impact_index (np_min_impact p) <= impact_index (ce_impact r))%Z ->
  np_require_certain_dates p = false \/ blocks_trading r = true ->
  (ce_event_ns r - np_before_min p * MINUTE_NS <= now <= ce_event_ns r + np_after_min p * MINUTE_NS)%Z ->
  oi_instrument intent ∈ syms -> ce_currency r ∈ currencies_in syms -> contains (ce_currency r) (oi_instrument intent) = true ->
  evaluate_entry cfg intent ctx = Ok dec -> rd_approved dec = false.
Proof.
  intros Hc Hn Hr Hi Ht Hw Hs Hcc Hct He. destruct (rd_approved dec) eqn:Ha; [exfalso|reflexivity].
  destruct (approved_inv _ _ _ _ He Ha) as (inst & quote & conv & spread & sl & sp & mult & sized & sizing & total & A).
  pose proof (ap_blackout _ _ _ _ _ _ _ _ _ _ _ _ _ _ A) as B. apply app_eq_nil in B as [B _].
  destruct (news_effect p d now syms None source (oi_instrument intent) Hc Hs) as (a & G & _ & Hb).
  apply (blocked_in_context text _ _ a G); [|rewrite <- Hn].
  - apply Hb. left. exists r. split_and!; try assumption. unfold may_block, in_window. rewrite !andb_true_iff, !Z.leb_le, orb_true_iff, negb_true_iff.
    split; [lia|]. destruct Ht; auto.
  - unfold veto_when in B. case_bool_decide as E; [discriminate|]. now apply eq_None_not_Some.
Qed.

(** ** Surprises *)

Lemma filter_kept {A} (f : A -> bool) l : (forall x, x ∈ l -> f x = true) -> List.filter f l = l.
Proof. induction l as [|x l IH]; intros H; [reflexivity|]. cbn. rewrite (H x), IH; [reflexivity| |]; set_solver. Qed.

(** A call that is later than the facts: an expectation recorded after its event was
    due, or the first release of another event, published after the cutoff. *)
Definition late (event_id : string) (cutoff : Z) (d : CalendarDb) (c : Z * CalendarCall) : Prop :=
  match c.2 with
  | RecordConsensus id _ _ _ t => forall r, r ∈ cd_events d -> ce_event_id r = id -> ce_event_ns r < or_now t c.1
  | RecordActual id _ _ published _ _ => id <> event_id /\ get_actual id d = None /\ cutoff <= published
  | _ => False
  end.
Fixpoint all_late (event_id : string) (cutoff : Z) (cs : list (Z * CalendarCall)) (d : CalendarDb) : Prop :=
  match cs with [] => True | c :: rest => late event_id cutoff d c /\ all_late event_id cutoff rest (call c.1 c.2 d).1 end.

Lemma consensus_app id t d d' cs : cd_consensus d' = cd_consensus d ++ cs ->
  Forall (fun c => co_event_id c = id -> t < co_recorded_ns c) cs -> consensus_as_of id t d' = consensus_as_of id t d.
Proof.
  intros E H. unfold consensus_as_of. rewrite E, fold_left_app. generalize (fold_left (fun best c =>
    if bool_decide (co_event_id c = id) && (co_recorded_ns c <=? t) && match best with Some b => co_recorded_ns b <? co_recorded_ns c | None => true end
    then Some c else best) (cd_consensus d) None).
  clear E. induction H as [|c cs Hc _ IH]; intros best; [reflexivity|]. cbn [fold_left]. rewrite IH. case_bool_decide as Ei; cbn [andb]; [|reflexivity].
  rewrite (proj2 (Z.leb_gt _ _)) by now apply Hc. reflexivity.
Qed.

Definition due_of (r : CalendarEvent) : Z * option string := (ce_event_ns r, ce_series_id r).
(** The tables say the same of the surprise of an event. *)
Record same_facts (event_id : string) (cutoff : Z) (d d' : CalendarDb) : Prop := mkSameFacts {
  sf_event : option_map due_of (get_event event_id d') = option_map due_of (get_event event_id d);
  sf_actual : get_actual event_id d' = get_actual event_id d;
  sf_consensus : forall r, r ∈ cd_events d -> consensus_as_of (ce_event_id r) (ce_event_ns r) d' = consensus_as_of (ce_event_id r) (ce_event_ns r) d;
  sf_released : forall series, released_before series cutoff d' = released_before series cutoff d
}.

Lemma flat_map_same {A B} (f g : A -> list B) l : (forall x, x ∈ l -> f x = g x) -> flat_map f l = flat_map g l.
Proof. induction l as [|x l IH]; intros H; [reflexivity|]. cbn. rewrite (H x), IH; [reflexivity| |]; set_solver. Qed.

Lemma flat_map_nil {A B} (f : A -> list B) l : (forall x, x ∈ l -> f x = []) -> flat_map f l = [].
Proof. induction l as [|x l IH]; intros H; [reflexivity|]. cbn. rewrite (H x), IH; [reflexivity| |]; set_solver. Qed.

Lemma released_event series cutoff d x : x ∈ released_before series cutoff d -> exists r, r ∈ cd_events d /\ x.1.1 = (ce_event_id r, ce_event_ns r).
Proof.
  unfold released_before. intros (r & Hr & (q & _ & H)%in_flat_map)%list_elem_of_In%in_flat_map.
  exists r. split; [now apply list_elem_of_In|]. revert H. destruct (_ && _); [|easy]. destruct (ac_actual q); [|easy]. now intros [<-|[]].
Qed.

Lemma surprises_same series cutoff exclude event_id d d' : same_facts event_id cutoff d d' ->
  historical_surprises series cutoff exclude d' = historical_surprises series cutoff exclude d.
Proof.
  intros S. unfold historical_surprises. rewrite (sf_released _ _ _ _ S). apply flat_map_same. intros [[[id t] p] x] Hx.
  rewrite sort_by_perm in Hx. destruct (released_event _ _ _ _ Hx) as (r & Hr & [= -> ->]). unfold past_surprise.
  now rewrite (sf_consensus _ _ _ _ S r Hr).
Qed.

Lemma surprise_same {NP : Numpy} event_id decision sd n d d' e : get_event event_id d = Some e ->
  same_facts event_id (default (ce_event_ns e) decision) d d' ->
  surprise event_id decision sd n d' = surprise event_id decision sd n d.
Proof.
  intros G S. pose proof (sf_event _ _ _ _ S) as E. rewrite G in E. destruct (get_event event_id d') as [e'|] eqn:G'; [|discriminate].
  injection E as En Es. unfold surprise. rewrite (sf_actual _ _ _ _ S), G, G', En, Es. destruct (get_actual event_id d); [|reflexivity].
  destruct (get_event_elem _ _ _ G) as [He <-]. rewrite (sf_consensus _ _ _ _ S e He).
  destruct (consensus_as_of _ _ d) as [[? ? [?|] ? ?]|]; try reflexivity.
  destruct (ce_series_id e) as [series|]; [|reflexivity]. unfold surprise_dispersion. now rewrite (surprises_same series _ _ _ _ _ S).
Qed.

(** An actual of another event, published after the cutoff. *)
Lemma released_app series cutoff d (f : CalendarEvent -> CalendarEvent) a d' :
  (forall r, ce_event_id (f r) = ce_event_id r /\ due_of (f r) = due_of r) -> cutoff <= ac_published_ns a ->
  cd_events d' = map f (cd_events d) -> cd_actuals d' = cd_actuals d ++ [a] -> released_before series cutoff d' = released_before series cutoff d.
Proof.
  intros Hf Ha Ee Ed. unfold released_before. rewrite Ee, flat_map_concat_map, map_map, <- flat_map_concat_map. rewrite Ed. apply flat_map_same. intros r _.
  destruct (Hf r) as [-> [= -> ->]]. rewrite flat_map_app. cbn [flat_map]. rewrite (proj2 (Z.ltb_ge _ _)) by exact Ha.
  now rewrite andb_false_r, !app_nil_r.
Qed.

Lemma late_same event_id cutoff d c : late event_id cutoff d c -> same_facts event_id cutoff d (call c.1 c.2 d).1.
Proof.
  destruct c as [now [| | |id c p src t|id a r p src t|]]; cbn [late fst snd call]; try easy.
  - intros H. unfold record_consensus, modify. cbv zeta. cbn [fst]. split; try reflexivity. intros r Hr.
    apply (consensus_app _ _ _ _ (if existsb (fun c => bool_decide (co_event_id c = id) && (co_recorded_ns c =? or_now t now)) (cd_consensus d) then []
      else [mkConsensus id (or_now t now) c p src])); cbn.
    + destruct (existsb _ _); [now rewrite app_nil_r|reflexivity].
    + destruct (existsb _ _); repeat constructor. cbn. intros E. now apply H.
  - intros (Hne & Hno & Hp). unfold record_actual, mbind_, gets. rewrite Hno. cbn [when]. unfold ret at 1, modify.
    set (d' := (_, _).1). assert (Ea : List.filter (fun a => negb (bool_decide (ac_event_id a = id))) (cd_actuals d) = cd_actuals d).
    { apply filter_kept. intros x Hx. apply negb_true_iff, bool_decide_eq_false. intros E.
      unfold get_actual in Hno. pose proof (List.find_none _ _ Hno x) as F. apply list_elem_of_In in Hx. specialize (F Hx).
      now apply bool_decide_eq_false in F. }
    assert (Ed : cd_actuals d' = cd_actuals d ++ [mkActual id a r p (or_now t now) src false]) by (cbn; now rewrite Ea).
    split.
    + unfold get_event. cbn. rewrite find_mapped by (intros q; now case_bool_decide). destruct (List.find _ _) as [q|]; [|reflexivity].
      cbn. now case_bool_decide.
    + unfold get_actual. rewrite Ed. destruct (List.find (fun x => bool_decide (ac_event_id x = event_id)) (cd_actuals d)) as [x|] eqn:F.
      * now apply find_app_some.
      * rewrite find_snoc by exact F. now rewrite bool_decide_false.
    + reflexivity.
    + intros series. refine (released_app series cutoff d _ (mkActual id a r p (or_now t now) src false) d' _ Hp eq_refl Ed).
      intros q. cbn beta. now case_bool_decide.
Qed.

(** C19: The surprise of a release, its scale included, is not changed by expectations
    recorded after their own event was due, nor by first figures of other releases
    published at the cutoff or after.  What is not covered changes it: a revised figure
    takes the place of the first, with its own time ([revision_drops_a_release]), and
    an expectation recorded after the cutoff but before its event is due is taken
    ([expectation_after_cutoff_counts]). *)
Theorem surprise_no_lookahead {NP : Numpy} event_id decision sd n cs : forall d e, get_event event_id d = Some e ->
  all_late event_id (default (ce_event_ns e) decision) cs d ->
  surprise event_id decision sd n (calls cs d) = surprise event_id decision sd n d.
Proof.
  induction cs as [|c cs IH]; intros d e G H; [reflexivity|]. destruct H as [H Hcs]. pose proof (late_same _ _ _ _ H) as S.
  pose proof (sf_event _ _ _ _ S) as E. rewrite G in E. cbn [calls fold_left]. change (fold_left _ cs ?x) with (calls cs x).
  destruct (get_event event_id (call c.1 c.2 d).1) as [e'|] eqn:G'; [|discriminate]. injection E as En Es.
  rewrite (IH _ e' G') by now rewrite En. exact (surprise_same _ _ _ _ _ _ _ G S).
Qed.

(** ** The theorems on a demo calendar *)

Definition demo_ns : Z := 1710072000000000000.
Definition demo_raw (certainty impact : string) (ns : Z) (series : string) : RawEvent :=
  mkRawEvent None (Some ns) (Some series) (Some "2024-02") (Some "US") (Some "USD") (Some "Payrolls") (Some impact) (Some impact) None
    None None (Some certainty) None None None.
(** A confirmed release in ten minutes. *)
Definition demo_calendar : CalendarDb :=
  calls [(1, Ingest (Ok [demo_raw "confirmed" "high" (demo_ns + 10 * MINUTE_NS) "US.NFP"]))] empty_db.
Definition demo_row : CalendarEvent := default (new_row 0 (weekly_event "" "" (0, 0) 0 Low None None)) (head (cd_events demo_calendar)).
Definition demo_policy : NewsPolicy := mkNewsPolicy (Some demo_calendar) "risk_filter" 30 30 High 0.5%dec true true 0.75%dec.

Lemma demo_one_row : one_row demo_calendar.
Proof. apply (calls_grow _ empty_db). split; [constructor|]. intros r r' H. now apply not_elem_of_nil in H. Qed.

Example certain_time_is_kept_witness : exists r', get_event (ce_event_id demo_row)
    (ingest 2 (Ok [demo_raw "scheduled_pattern" "medium" (demo_ns + 90 * MINUTE_NS) "US.NFP"]) demo_calendar).1 = Some r' /\
  ce_event_ns r' = demo_ns + 10 * MINUTE_NS /\ ce_certainty r' = Confirmed.
Proof.
  apply (certain_time_is_kept 2 _ demo_row demo_calendar demo_one_row); [reflexivity|].
  repeat constructor. intros c' [= <-]. vm_compute. reflexivity.
Defined.

(** A pattern of the same release, of medium impact. *)
Definition demo_pattern : CalendarEvent :=
  mkEvent (ce_event_id demo_row) (demo_ns + 10 * MINUTE_NS) "US" "USD" "Payrolls" Medium (Some "2024-02") None "bundled_pattern"
    (Some "US.NFP") "UTC" "" ScheduledPattern Medium None None None 0 "scheduled" 0 0.

Example restatement_lowers_impact_witness : may_block demo_ns 30 30 High true demo_row = true /\
  exists r', get_event (ce_event_id demo_row) (add_event 2 demo_pattern demo_calendar).1 = Some r' /\ ce_certainty r' = Confirmed /\
    may_block demo_ns 30 30 High true r' = false.
Proof.
  split; [reflexivity|].
  destruct (restatement_lowers_impact 2 demo_pattern demo_row demo_calendar demo_one_row) as (r' & G & _ & Ec & _ & Hb);
    [left|reflexivity|reflexivity|vm_compute; reflexivity|].
  exists r'. split; [exact G|]. split; [exact Ec|]. apply Hb. discriminate.
Defined.

(** Two testimonies of one official, on a Tuesday and the Wednesday after. *)
Definition tuesday : Z := (ymd2ord 2024 3 5 - 1) * DAY_US + 15 * HOUR_US.
Definition testimony (u : Z) : RawEvent :=
  match normalise ["USD"] "USD" "Fed Chair Powell Testifies" "high" (Some u) None None with
  | Ok (Some e) => e | _ => demo_raw "" "" 0 "" end.

Example same_week_loses_window_witness : exists r,
  cd_events (ingest 1 (Ok [testimony tuesday; testimony (tuesday + DAY_US)]) empty_db).1 = [r] /\
  dict_get "USD" (blackout (default 0 (rw_event_ns (testimony tuesday))) ["USD"] 30 30 High true
    (ingest 1 (Ok [testimony tuesday; testimony (tuesday + DAY_US)]) empty_db).1) = None.
Proof.
  destruct (same_week_loses_window 1 ["USD"] "USD" "Fed Chair Powell Testifies" "high" tuesday (tuesday + DAY_US) None None None None
    (testimony tuesday) (testimony (tuesday + DAY_US)) empty_db) as (r & Er & Et & Hw).
  - split; [constructor|]. intros r r' H. now apply not_elem_of_nil in H.
  - vm_compute. reflexivity.
  - vm_compute. reflexivity.
  - vm_compute. reflexivity.
  - intros r H. now apply not_elem_of_nil in H.
  - exists r. split; [exact Er|]. apply Hw; [vm_compute; reflexivity|]. left.
    assert (E : ce_event_ns r = 1709737200000000000) by (vm_compute in Et; now injection Et). rewrite E. vm_compute. reflexivity.
Defined.

Example news_blocks_iff_witness : exists a, dict_get "EUR_USD" (assess demo_policy demo_ns ["EUR_USD"] None None) = Some a /\ as_blocked a = true.
Proof.
  destruct (news_blocks_iff demo_policy demo_calendar demo_ns ["EUR_USD"] None None "EUR_USD" eq_refl) as (a & G & _ & Hb); [left|].
  exists a. split; [exact G|]. apply Hb. left. exists demo_row. split; [left|]. split; [reflexivity|]. split; [|reflexivity].
  apply (bool_decide_unpack _). vm_compute. exact I.
Defined.

Definition no_text (w : Reason) : string := "news".
Definition news_context (m : gmap string string) : RiskContext :=
  mkRiskContext demo_ns demo_account [] {[ "EUR_USD" := eur_usd ]} {[ "EUR_USD" := demo_quote ]} ∅
    10000%dec 0%dec 0%dec 0%dec 10000%dec 10000%dec 0%dec false 0 ∅ 10000%dec 0 0 0 None 0%dec 0 [] [] 1%dec (Some 0.0%dec) true 0.0%dec ∅ ∅ ∅ m ∅ ∅
    DEFAULT_SCENARIOS 25%dec ∅ ∅ false "" false ∅ false None None 0%dec ∅ [].
Definition decided (m : gmap string string) : RiskDecision :=
  match evaluate_entry default_risk_config demo_intent (news_context m) with Ok d => d | Raise _ => rejected [] end.
Definition demo_news : gmap string string :=
  blocked_news (map (fun e => (e.1, seen_by_agent no_text e.2)) (assess demo_policy demo_ns ["EUR_USD"] None None)).

(** The same entry is approved without the news. *)
Example release_window_vetoes_witness : rd_approved (decided ∅) = true /\ rd_approved (decided demo_news) = false.
Proof.
  split; [vm_compute; reflexivity|].
  refine (release_window_vetoes demo_policy demo_calendar demo_ns ["EUR_USD"] None no_text default_risk_config demo_intent (news_context demo_news)
    (decided demo_news) demo_row eq_refl eq_refl _ _ _ _ _ _ _ _).
  - left.
  - discriminate.
  - right. reflexivity.
  - vm_compute. split; discriminate.
  - left.
  - apply (bool_decide_unpack _). vm_compute. exact I.
  - reflexivity.
  - vm_compute. reflexivity.
Defined.

#[local] Instance demo_numpy : Numpy := { median := fun l => default zero_f (head l); deviation := fun _ => zero_f }.
Definition demo_known : CalendarDb :=
  calls [(1, RecordConsensus (ce_event_id demo_row) (Some (float_of_Z 180)) None "poll" (Some demo_ns));
         (2, RecordActual (ce_event_id demo_row) (Some (float_of_Z 150)) None (demo_ns + 11 * MINUTE_NS) "bls" None)] demo_calendar.

Example surprise_no_lookahead_witness : let later := [(3, RecordConsensus (ce_event_id demo_row) (Some (float_of_Z 150)) None "poll" (Some (demo_ns + 12 * MINUTE_NS)))] in
  option_map sp_surprise (surprise (ce_event_id demo_row) None None 8 (calls later demo_known)) = Some (float_of_Z (-30)).
Proof.
  cbv zeta. rewrite (surprise_no_lookahead (ce_event_id demo_row) None None 8 _ demo_known (released 2 demo_row)); [vm_compute; reflexivity|vm_compute; reflexivity|].
  split; [|exact I]. intros r Hr _. apply list_elem_of_singleton in Hr as ->. vm_compute. reflexivity.
Defined.

(** As of a time after the first figure, the release is counted; once it is revised
    later, it no longer is. *)
Example revision_drops_a_release : let cutoff := (demo_ns + 60 * MINUTE_NS)%Z in
  let revised := [(3, RecordActual (ce_event_id demo_row) (Some (float_of_Z 140)) None (demo_ns + 120 * MINUTE_NS) "bls" None)] in
  historical_surprises "US.NFP" cutoff None demo_known = [((demo_ns + 11 * MINUTE_NS)%Z, float_of_Z (-30))] /\
  historical_surprises "US.NFP" cutoff None (calls revised demo_known) = [].
Proof. vm_compute. split; reflexivity. Qed.

(** The expectation of five minutes before the release, for a decision taken at ten. *)
Example expectation_after_cutoff_counts :
  let later := [(3, RecordConsensus (ce_event_id demo_row) (Some (float_of_Z 160)) None "poll" (Some (demo_ns + 5 * MINUTE_NS)))] in
  option_map sp_surprise (surprise (ce_event_id demo_row) (Some demo_ns) None 8 demo_known) = Some (float_of_Z (-30)) /\
  option_map sp_surprise (surprise (ce_event_id demo_row) (Some demo_ns) None 8 (calls later demo_known)) = Some (float_of_Z (-10)).
Proof. vm_compute. split; reflexivity. Qed.
