(* ===== verification/FloatTheory.v ===== *)
(** Bounds on the rounding of binary floats: the value a rounded mantissa keeps, of
    an integer, of a product with an exact result and of a quotient. *)

From Stdlib Require Import ZArith Lia SpecFloat.
From stdpp Require Import base list.
From S2P Require Import Prelude Calendar PyFloat.

Local Open Scope Z_scope.

(** ** Bits of a mantissa *)

Lemma digits2_log2 p : Z.pos (digits2_pos p) = Z.log2 (Z.pos p) + 1.
Proof.
  induction p as [p IH|p IH|]; cbn [digits2_pos]; [| |reflexivity]; rewrite Pos2Z.inj_succ, IH.
  - rewrite (Pos2Z.inj_xI p), Z.log2_succ_double by lia. lia.
  - rewrite (Pos2Z.inj_xO p), Z.log2_double by lia. lia.
Qed.
Lemma Zdigits2_log2 q : 0 < q -> Zdigits2 q = Z.log2 q + 1.
Proof. destruct q as [|q|q]; try lia. intros _. apply digits2_log2. Qed.

Lemma fexp_normal x : -1021 <= x -> fexp fprec femax x = x - 53.
Proof. intros H. unfold fexp, emin, fprec, femax. lia. Qed.

Lemma shr_1_half r : 0 <= shr_m r -> shr_m (shr_1 r) = shr_m r / 2.
Proof. destruct r as [m r s]. cbn [shr_m]. destruct m as [|[p|p|]|]; try reflexivity; cbn [shr_1 shr_m]; intros; [|rewrite (Pos2Z.inj_xO p), Z.mul_comm, Z.div_mul by lia|lia]; try reflexivity.
  rewrite (Pos2Z.inj_xI p). Z.to_euclidean_division_equations. lia.
Qed.

Lemma iter_shr p : forall r, 0 <= shr_m r -> shr_m (SpecFloat.iter_pos shr_1 p r) = shr_m r / 2 ^ Z.pos p.
Proof.
  induction p as [p IH|p IH|]; intros r Hr; cbn [SpecFloat.iter_pos].
  - pose proof (shr_1_half r Hr) as H1. assert (0 <= shr_m (shr_1 r)) by (rewrite H1; apply Z.div_pos; lia).
    pose proof (IH _ H) as H2. assert (0 <= shr_m (SpecFloat.iter_pos shr_1 p (shr_1 r))) by (rewrite H2; apply Z.div_pos; lia).
    rewrite IH, H2, H1 by assumption. rewrite !Z.div_div by lia. f_equal. rewrite (Pos2Z.inj_xI p).
    replace (2 * Z.pos p + 1) with (1 + (Z.pos p + Z.pos p)) by lia. rewrite !Z.pow_add_r by lia. lia.
  - pose proof (IH r Hr) as H2. assert (0 <= shr_m (SpecFloat.iter_pos shr_1 p r)) by (rewrite H2; apply Z.div_pos; lia).
    rewrite IH, H2 by assumption. rewrite !Z.div_div by lia. f_equal. rewrite (Pos2Z.inj_xO p).
    replace (2 * Z.pos p) with (Z.pos p + Z.pos p) by lia. now rewrite Z.pow_add_r by lia.
  - rewrite (shr_1_half r Hr). reflexivity.
Qed.

Lemma shr_value r e n : 0 <= shr_m r -> 0 <= n -> shr_m (shr r e n).1 = shr_m r / 2 ^ n /\ (shr r e n).2 = e + n.
Proof.
  intros Hr Hn. unfold shr. destruct n as [|p|p]; [|split; [now apply iter_shr|reflexivity]|lia].
  cbn [fst snd]. change (2 ^ 0) with 1. rewrite Z.div_1_r. split; [reflexivity|lia].
Qed.

(** ** Rounding *)

(** Shifting to 53 bits keeps the leading ones. *)
Lemma shr_leading q e l : 2 ^ 52 <= q -> -1074 <= e ->
  exists r, shr_fexp fprec femax q e l = (r, e + (Z.log2 q - 52)) /\ shr_m r = q / 2 ^ (Z.log2 q - 52).
Proof.
  intros Hq He. assert (Hl : 52 <= Z.log2 q) by (apply Z.log2_le_pow2; lia).
  unfold shr_fexp. rewrite Zdigits2_log2, fexp_normal by lia. replace (Z.log2 q + 1 + e - 53 - e) with (Z.log2 q - 52) by lia.
  assert (R : shr_m (shr_record_of_loc q l) = q) by (destruct l as [|[]]; reflexivity).
  destruct (shr_value (shr_record_of_loc q l) e (Z.log2 q - 52)) as [V1 V2]; [lia|lia|]. rewrite R in V1.
  destruct (shr _ _ _) as [r e']. cbn [fst snd] in *. exists r. now subst.
Qed.

(** The value of a finite positive float, scaled to an integer. *)
Definition scaled (m e : Z) : Z := m * 2 ^ (e + 1074).

(** A mantissa of at least 53 bits rounds to its leading 53 bits, or to one more. *)
Lemma round_value q e l : 2 ^ 52 <= q -> -1074 <= e -> e + Z.log2 q <= 900 ->
  exists m e' m2, binary_round_aux fprec femax false q e l = S754_finite false m e' /\ 2 ^ 52 <= Z.pos m < 2 ^ 53 /\
    e + (Z.log2 q - 52) <= e' <= e + (Z.log2 q - 52) + 1 /\ Z.pos m * 2 ^ (e' - (e + (Z.log2 q - 52))) = m2 /\
    q / 2 ^ (Z.log2 q - 52) <= m2 <= q / 2 ^ (Z.log2 q - 52) + 1.
Proof.
  intros Hq He Hmax. set (n := Z.log2 q - 52). assert (Hl : 52 <= Z.log2 q) by (apply Z.log2_le_pow2; lia).
  pose proof (Z.log2_spec q ltac:(lia)) as [L1 L2]. set (m1 := q / 2 ^ n).
  assert (Hn : 2 ^ n * 2 ^ 52 = 2 ^ Z.log2 q) by (rewrite <- Z.pow_add_r by lia; f_equal; lia).
  assert (Hpn : 0 < 2 ^ n) by (apply Z.pow_pos_nonneg; lia). rewrite Z.pow_succ_r in L2 by lia.
  pose proof (Z.div_mod q (2 ^ n) ltac:(lia)) as D. pose proof (Z.mod_pos_bound q (2 ^ n) ltac:(lia)) as Dm. fold m1 in D.
  assert (Hm1 : 2 ^ 52 <= m1 < 2 ^ 53) by (change (2 ^ 53) with (2 * 2 ^ 52); nia).
  destruct (shr_leading q e l Hq He) as (r & S1 & Er). fold n in S1, Er. fold m1 in Er.
  unfold binary_round_aux. rewrite S1, Er. set (m2 := round_nearest_even m1 _).
  assert (Hm2 : m1 <= m2 <= m1 + 1) by (unfold m2, round_nearest_even; destruct (loc_of_shr_record r) as [|[]]; [lia|destruct (Z.even m1); lia|lia|lia]).
  clearbody m2.
  assert (Hcap : forall x, x <= 901 -> (x <=? femax - fprec) = true) by (intros; apply Z.leb_le; unfold femax, fprec; lia).
  unfold shr_fexp. rewrite Zdigits2_log2 by lia. destruct (Z.eq_dec m2 (2 ^ 53)) as [E53|N53].
  - rewrite E53, Z.log2_pow2, fexp_normal by lia. replace (53 + 1 + (e + n) - 53 - (e + n)) with 1 by lia.
    change (shr_m (shr (shr_record_of_loc (2 ^ 53) loc_Exact) (e + n) 1).1) with (2 ^ 52).
    change (shr (shr_record_of_loc (2 ^ 53) loc_Exact) (e + n) 1) with (Build_shr_record (2 ^ 52) false false, e + n + 1). cbn [shr_m].
    change (2 ^ 52) with (Z.pos 4503599627370496) at 1. cbv beta iota. rewrite Hcap by lia. exists 4503599627370496%positive, (e + n + 1), m2.
    split; [reflexivity|]. split; [lia|]. split; [lia|]. split; [|exact Hm2].
    replace (e + n + 1 - (e + n)) with 1 by lia. rewrite E53. reflexivity.
  - assert (El : Z.log2 m2 = 52) by (apply Z.log2_unique; change (2 ^ Z.succ 52) with (2 ^ 53); lia).
    rewrite El, fexp_normal by lia. replace (52 + 1 + (e + n) - 53 - (e + n)) with 0 by lia. cbn [shr shr_record_of_loc shr_m].
    destruct m2 as [|m|m]; try lia. rewrite Hcap by lia. exists m, (e + n), (Z.pos m).
    split; [reflexivity|]. split; [lia|]. split; [lia|]. split; [|exact Hm2]. replace (e + n - (e + n)) with 0 by lia. lia.
Qed.

(** The rounded mantissa keeps the leading bits: it loses less than one part in [2^52]. *)
Lemma round_keeps q e l : 2 ^ 52 <= q -> -1074 <= e -> e + Z.log2 q <= 900 ->
  exists m e', binary_round_aux fprec femax false q e l = S754_finite false m e' /\ 2 ^ 52 <= Z.pos m < 2 ^ 53 /\ e <= e' /\ e' <= e + Z.log2 q /\
    scaled q e * (2 ^ 52 - 1) <= scaled (Z.pos m) e' * 2 ^ 52.
Proof.
  intros Hq He Hmax. destruct (round_value q e l Hq He Hmax) as (m & e' & m2 & E & Hm & Hee & Em & Hm2). exists m, e'.
  set (n := Z.log2 q - 52) in *. assert (Hl : 52 <= Z.log2 q) by (apply Z.log2_le_pow2; lia).
  split; [exact E|]. split; [exact Hm|]. split; [lia|]. split; [lia|].
  pose proof (Z.log2_spec q ltac:(lia)) as [L1 _]. set (m1 := q / 2 ^ n) in *.
  assert (Hn : 2 ^ n * 2 ^ 52 = 2 ^ Z.log2 q) by (rewrite <- Z.pow_add_r by lia; f_equal; lia).
  assert (Hpn : 0 < 2 ^ n) by (apply Z.pow_pos_nonneg; lia).
  pose proof (Z.div_mod q (2 ^ n) ltac:(lia)) as D. pose proof (Z.mod_pos_bound q (2 ^ n) ltac:(lia)) as Dm. fold m1 in D.
  unfold scaled. replace (e' + 1074) with (e' - (e + n) + (e + 1074) + n) by lia.
  assert (HK : 0 <= e + 1074) by lia. set (K := e + 1074) in *. clearbody K. rewrite !Z.pow_add_r by lia.
  assert (0 < 2 ^ K) by (apply Z.pow_pos_nonneg; lia).
  assert (A : m1 * 2 ^ n <= m2 * 2 ^ n) by (apply Z.mul_le_mono_nonneg_r; lia).
  assert (q * (2 ^ 52 - 1) <= m2 * 2 ^ n * 2 ^ 52) by lia.
  replace (Z.pos m * (2 ^ (e' - (e + n)) * 2 ^ K * 2 ^ n) * 2 ^ 52) with (m2 * 2 ^ n * 2 ^ 52 * 2 ^ K) by (rewrite <- Em; ring).
  rewrite <- Z.mul_assoc, (Z.mul_comm (2 ^ K)), Z.mul_assoc. apply Z.mul_le_mono_nonneg_r; lia.
Qed.

(** Rounding a mantissa that holds an integer, with at most one bit to spare. *)
Lemma round_integer k s : 0 < k -> 0 < s -> 53 <= Z.log2 (k * 2 ^ s) + 1 <= 54 ->
  exists m e, binary_round_aux fprec femax false (k * 2 ^ s) (- s) loc_Exact = S754_finite false m e /\ - s <= e <= 0 /\ Z.pos m = k * 2 ^ (- e).
Proof.
  intros Hk Hs HD. assert (Hp : forall j, 0 <= j -> 0 < k * 2 ^ j) by (intros j Hj; pose proof (Z.pow_pos_nonneg 2 j); nia).
  assert (fit : forall m j, 0 <= j <= s -> Z.pos m = k * 2 ^ j -> Z.log2 (Z.pos m) + 1 = 53 -> shr_fexp fprec femax (Z.pos m) (- j) loc_Exact = (Build_shr_record (Z.pos m) false false, - j)).
  { intros m j Hj Em El. unfold shr_fexp, Zdigits2. rewrite digits2_log2, El, fexp_normal.
    - replace (53 + - j - 53 - - j) with 0 by lia. reflexivity.
    - rewrite Em, Z.log2_mul_pow2 in El by lia. pose proof (Z.log2_nonneg k). lia. }
  assert (done : forall m j, 0 <= j <= s -> Z.pos m = k * 2 ^ j -> Z.log2 (Z.pos m) + 1 = 53 ->
     binary_round_aux fprec femax false (Z.pos m) (- j) loc_Exact = S754_finite false m (- j)).
  { intros m j Hj Em El. unfold binary_round_aux. rewrite (fit m j) by assumption. cbn [shr_m loc_of_shr_record round_nearest_even].
    rewrite (fit m j) by assumption. cbn [shr_m]. rewrite (proj2 (Z.leb_le _ _)) by (unfold femax, fprec; lia). reflexivity. }
  destruct (k * 2 ^ s) as [|q|q] eqn:Eq; try (specialize (Hp s); lia).
  destruct (Z.eq_dec (Z.log2 (Z.pos q) + 1) 53) as [E|Ne].
  - exists q, (- s). rewrite (done q s) by (auto; lia). split; [reflexivity|]. rewrite Z.opp_involutive. split; [lia|auto].
  - assert (E : Z.log2 (Z.pos q) + 1 = 54) by lia. destruct q as [q|q|].
    + exfalso. assert (P : 2 ^ s = 2 * 2 ^ (s - 1)) by (rewrite <- Z.pow_succ_r by lia; f_equal; lia). lia.
    + assert (Em : Z.pos q = k * 2 ^ (s - 1)).
      { assert (P : 2 ^ s = 2 * 2 ^ (s - 1)) by (rewrite <- Z.pow_succ_r by lia; f_equal; lia). lia. }
      assert (Eq2 : Z.log2 (Z.pos q) + 1 = 53) by (rewrite Pos2Z.inj_xO, Z.log2_double in E by lia; lia).
      exists q, (- (s - 1)). split; [|rewrite Z.opp_involutive; split; [lia|auto]].
      unfold binary_round_aux. unfold shr_fexp at 1. cbn [Zdigits2]. rewrite digits2_log2, E, fexp_normal.
      2:{ rewrite Em, Z.log2_mul_pow2 in Eq2 by lia. pose proof (Z.log2_nonneg k). lia. }
      replace (54 + - s - 53 - - s) with 1 by lia. cbn [shr SpecFloat.iter_pos shr_1 shr_record_of_loc orb shr_m loc_of_shr_record round_nearest_even].
      replace (- s + 1) with (- (s - 1)) by lia. rewrite (fit q (s - 1)) by (auto; lia). cbn [shr_m].
      rewrite (proj2 (Z.leb_le _ _)) by (unfold femax, fprec; lia). reflexivity.
    + discriminate E.
Qed.


(** ** Integers *)

Lemma iter_xO p k : Z.pos (Pos.iter xO p k) = Z.pos p * 2 ^ Z.pos k.
Proof.
  induction k as [|k IH] using Pos.peano_ind; [cbn; lia|]. rewrite Pos.iter_succ, Pos2Z.inj_xO, IH, Pos2Z.inj_succ, Z.pow_succ_r by lia. ring.
Qed.

(** The mantissa and exponent an integer is rounded from. *)
Lemma float_of_Z_aligned d : 0 < d -> Z.log2 d <= 51 ->
  float_of_Z d = binary_round_aux fprec femax false (d * 2 ^ (52 - Z.log2 d)) (- (52 - Z.log2 d)) loc_Exact.
Proof.
  destruct d as [|p|p]; try lia. intros _ Hl. unfold float_of_Z, binary_normalize, binary_round. rewrite digits2_log2.
  pose proof (Z.log2_nonneg (Z.pos p)). rewrite fexp_normal by lia. unfold shl_align.
  replace (Z.log2 (Z.pos p) + 1 + 0 - 53 - 0) with (- (52 - Z.log2 (Z.pos p))) by lia.
  destruct (52 - Z.log2 (Z.pos p)) as [|k|k] eqn:E; try lia. change (- Z.pos k) with (Z.neg k) at 1. cbv iota. rewrite iter_xO. f_equal. lia.
Qed.

Lemma float_of_Z_large d : 0 < d -> 52 <= Z.log2 d -> float_of_Z d = binary_round_aux fprec femax false d 0 loc_Exact.
Proof.
  destruct d as [|p|p]; try lia. intros _ Hl. unfold float_of_Z, binary_normalize, binary_round. rewrite digits2_log2, fexp_normal by lia. unfold shl_align.
  destruct (_ - 0) as [|k|k] eqn:E; [reflexivity|reflexivity|lia].
Qed.

(** An integer of less than 52 bits is its float. *)
Lemma float_of_Z_exact n : 0 < n < 2 ^ 52 -> exists m e, float_of_Z n = S754_finite false m e /\ -1074 <= e /\ scaled (Z.pos m) e = n * 2 ^ 1074.
Proof.
  intros Hn. assert (Hl : 0 <= Z.log2 n <= 51) by (split; [apply Z.log2_nonneg|]; assert (Z.log2 n < 52) by (apply Z.log2_lt_pow2; lia); lia).
  rewrite float_of_Z_aligned by lia. destruct (round_integer n (52 - Z.log2 n)) as (m & e & E & He & Em); [lia|lia|rewrite Z.log2_mul_pow2 by lia; lia|].
  exists m, e. split; [exact E|]. split; [lia|]. unfold scaled. rewrite Em, <- Z.mul_assoc, <- Z.pow_add_r by lia. f_equal. f_equal. lia.
Qed.

Lemma float_of_Z_keeps d : 0 < d -> Z.log2 d <= 800 -> exists m e, float_of_Z d = S754_finite false m e /\ 2 ^ 52 <= Z.pos m < 2 ^ 53 /\
  -52 <= e <= 800 /\ d * 2 ^ 1074 * (2 ^ 52 - 1) <= scaled (Z.pos m) e * 2 ^ 52.
Proof.
  intros Hd Hl. pose proof (Z.log2_nonneg d). pose proof (Z.log2_spec d Hd) as [L1 L2]. destruct (Z.le_gt_cases 52 (Z.log2 d)) as [Hb|Hb].
  - rewrite float_of_Z_large by lia. destruct (round_keeps d 0 loc_Exact) as (m & e & E & Hm & He & He' & Hv);
      [etransitivity; [apply Z.pow_le_mono_r; [lia|exact Hb]|exact L1]|lia|lia|].
    exists m, e. unfold scaled in *. replace (0 + 1074) with 1074 in Hv by lia. split_and!; try assumption; lia.
  - rewrite float_of_Z_aligned by lia. set (s := 52 - Z.log2 d) in *. assert (Hq : Z.log2 (d * 2 ^ s) = 52) by (rewrite Z.log2_mul_pow2 by lia; lia).
    assert (Hpos : 0 < d * 2 ^ s) by (apply Z.mul_pos_pos; [lia|apply Z.pow_pos_nonneg; lia]).
    pose proof (Z.log2_spec _ Hpos) as [Q1 Q2]. rewrite Hq in Q1.
    destruct (round_keeps (d * 2 ^ s) (- s) loc_Exact) as (m & e & E & Hm & He & He' & Hv); [exact Q1|lia|lia|].
    exists m, e. split_and!; try assumption; try lia. etransitivity; [|exact Hv]. unfold scaled.
    rewrite <- (Z.mul_assoc d (2 ^ s)), <- Z.pow_add_r by lia. replace (s + (- s + 1074)) with 1074 by lia. reflexivity.
Qed.

(** ** Comparing *)

Lemma fltb_scaled m e m' e' : -1074 <= e -> -1074 <= e' ->
  fltb (S754_finite false m e) (S754_finite false m' e') = (scaled (Z.pos m) e <? scaled (Z.pos m') e').
Proof.
  intros H H'. unfold fltb, scaled. cbn [mantissa exponent cond_Zopp]. set (k := Z.min e e').
  replace (e + 1074) with (e - k + (k + 1074)) by lia. replace (e' + 1074) with (e' - k + (k + 1074)) by lia.
  assert (0 <= k + 1074) by lia. assert (0 <= e - k) by lia. assert (0 <= e' - k) by lia. clearbody k.
  rewrite !(Z.pow_add_r 2 _ (k + 1074)) by lia. set (P := 2 ^ (k + 1074)). assert (0 < P) by (apply Z.pow_pos_nonneg; lia). clearbody P.
  destruct (_ <? _) eqn:E; symmetry; [apply Z.ltb_lt in E; apply Z.ltb_lt|apply Z.ltb_ge in E; apply Z.ltb_ge]; nia.
Qed.

(** ** Seconds of nanoseconds *)

Definition BILLION : Z := 1000000000.
(** A number of nanoseconds that is more than [n] seconds by a second is more than [n] as a float. *)
Lemma seconds_above n d : 0 < n < 2 ^ 40 -> (n + 1) * BILLION <= d -> Z.log2 d <= 800 ->
  fltb (float_of_Z n) (fdiv (float_of_Z d) (float_of_Z BILLION)) = true.
Proof.
  intros Hn Hd Hl. destruct (float_of_Z_exact n) as (mn & en & -> & Hen & Vn); [lia|].
  destruct (float_of_Z_keeps d) as (m & e & -> & Hm & He & V); [unfold BILLION in Hd; lia|exact Hl|].
  change (float_of_Z BILLION) with (S754_finite false 8388608000000000 (-23)). unfold fdiv, SFdiv, SFdiv_core_binary.
  rewrite !Zdigits2_log2 by lia. change (Z.log2 (Z.pos 8388608000000000)) with 52.
  assert (Lm : Z.log2 (Z.pos m) = 52) by (apply Z.log2_unique; change (2 ^ Z.succ 52) with (2 ^ 53); lia).
  rewrite Lm. rewrite fexp_normal by lia. replace (Z.min _ _) with (e - 30) by lia. replace (e - -23 - (e - 30)) with 53 by lia. cbv iota.
  rewrite Z.shiftl_mul_pow2 by lia. pose proof (Z_div_mod (Z.pos m * 2 ^ 53) (Z.pos 8388608000000000) ltac:(reflexivity)) as D.
  destruct (Z.div_eucl _ _) as [q r]. destruct D as [D1 D2]. cbn [xorb].
  assert (Hq : 2 ^ 52 <= q < 2 ^ 54) by lia.
  assert (Lq : 52 <= Z.log2 q <= 53) by (split; [apply Z.log2_le_pow2; lia|]; assert (Z.log2 q < 54) by (apply Z.log2_lt_pow2; lia); lia).
  destruct (round_keeps q (e - 30) (new_location (Z.pos 8388608000000000) r)) as (m' & e' & -> & Hm' & He' & _ & V'); [lia|lia|lia|].
  rewrite fltb_scaled by lia. apply Z.ltb_lt. rewrite Vn. revert V V'. unfold scaled. generalize (Z.pos m' * 2 ^ (e' + 1074)). intros R.
  replace (e + 1074) with (30 + (e - 30 + 1074)) by lia. rewrite (Z.pow_add_r 2 30) by lia.
  assert (0 < 2 ^ (e - 30 + 1074)) by (apply Z.pow_pos_nonneg; lia). set (P := 2 ^ (e - 30 + 1074)) in *. clearbody P.
  assert (HT : 0 < 2 ^ 1074) by reflexivity. set (T := 2 ^ 1074) in *. clearbody T. intros V V'.
  assert (A : (Z.pos m * 2 ^ 53 - Z.pos 8388608000000000) * P <= q * P * Z.pos 8388608000000000).
  { rewrite D1. replace (q * P * Z.pos 8388608000000000) with (Z.pos 8388608000000000 * q * P) by ring. apply Z.mul_le_mono_nonneg_r; lia. }
  assert (B : Z.pos 8388608000000000 * P * 2 ^ 52 <= Z.pos m * 2 ^ 53 * P).
  { replace (Z.pos 8388608000000000 * P * 2 ^ 52) with (Z.pos 8388608000000000 * 2 ^ 52 * P) by ring. apply Z.mul_le_mono_nonneg_r; lia. }
  unfold BILLION in Hd. assert (C : (n + 1) * 1000000000 * T <= d * T) by (apply Z.mul_le_mono_nonneg_r; lia).
  assert (N : n * T <= 2 ^ 40 * T) by (apply Z.mul_le_mono_nonneg_r; lia). lia.
Qed.
