(* ===== verification/UnitFloat.v ===== *)
(** Binary floats between zero and one: products, complements and rounded values of
    them stay there. *)

From Stdlib Require Import ZArith Lia SpecFloat.
From stdpp Require Import base list.
From S2P Require Import Prelude PyDecimal Calendar PyFloat FloatTheory.

Local Open Scope Z_scope.

(** ** The finite floats of the interval *)

Lemma fltb_one m e : e <= 0 -> fltb (float_of_Z 1) (S754_finite false m e) = (2 ^ (- e) <? Z.pos m).
Proof.
  intros He. change (float_of_Z 1) with (S754_finite false 4503599627370496 (-52)). unfold fltb. cbn [mantissa exponent cond_Zopp].
  set (k := Z.min (-52) e). assert (E : Z.pos 4503599627370496 * 2 ^ (-52 - k) = 2 ^ (- k)).
  { change (Z.pos 4503599627370496) with (2 ^ 52). rewrite <- Z.pow_add_r by lia. f_equal. lia. }
  rewrite E. replace (- k) with (- e + (e - k)) by lia. rewrite Z.pow_add_r by lia.
  assert (0 < 2 ^ (e - k)) by (apply Z.pow_pos_nonneg; lia). set (P := 2 ^ (e - k)) in *. clearbody P.
  destruct (Z.ltb_spec (2 ^ (- e)) (Z.pos m)) as [L|L]; [apply Z.ltb_lt|apply Z.ltb_ge]; nia.
Qed.

Lemma fltb_pos_zero m e : fltb (S754_finite false m e) (float_of_Z 0) = false.
Proof.
  unfold fltb. cbn [mantissa exponent cond_Zopp float_of_Z binary_normalize]. apply Z.ltb_ge.
  pose proof (Z.pow_nonneg 2 (e - Z.min e 0)). lia.
Qed.

Lemma unit_finite m e : e <= 0 -> Z.pos m <= 2 ^ (- e) -> unit_float (S754_finite false m e) = true.
Proof. intros He Hm. unfold unit_float. rewrite fltb_pos_zero, fltb_one by exact He. now rewrite (proj2 (Z.ltb_ge _ _)) by exact Hm. Qed.
Lemma unit_zero s : unit_float (S754_zero s) = true.
Proof. now destruct s. Qed.

Lemma unit_cases x : unit_float x = true -> (exists s, x = S754_zero s) \/ exists m e, x = S754_finite false m e /\ e <= 0 /\ Z.pos m <= 2 ^ (- e).
Proof.
  unfold unit_float. intros H. apply andb_prop in H as [H Hn]. apply andb_prop in H as [H0 H1].
  apply negb_true_iff in H0. apply negb_true_iff in H1. destruct x as [s|s| |s m e]; try discriminate; [left; eauto|destruct s; discriminate|].
  right. destruct s.
  - unfold fltb in H0. cbn [mantissa exponent cond_Zopp float_of_Z binary_normalize] in H0. apply Z.ltb_ge in H0.
    assert (0 < 2 ^ (e - Z.min e 0)) by (apply Z.pow_pos_nonneg; lia). nia.
  - exists m, e. split; [reflexivity|]. destruct (Z.le_gt_cases e 0) as [He|He].
    + split; [exact He|]. rewrite fltb_one in H1 by exact He. now apply Z.ltb_ge in H1.
    + exfalso. unfold fltb in H1. change (float_of_Z 1) with (S754_finite false 4503599627370496 (-52)) in H1. cbn [mantissa exponent cond_Zopp] in H1.
      apply Z.ltb_ge in H1. replace (Z.min (-52) e) with (-52) in H1 by lia. replace (-52 - -52) with 0 in H1 by lia.
      replace (e - -52) with (e + 52) in H1 by lia. rewrite Z.pow_add_r in H1 by lia.
      assert (2 <= 2 ^ e) by (replace e with (1 + (e - 1)) by lia; rewrite Z.pow_add_r by lia; pose proof (Z.pow_pos_nonneg 2 (e - 1)); lia).
      change (Z.pos 4503599627370496) with (2 ^ 52) in H1. lia.
Qed.

(** ** Rounding *)

(** A shift leaves the mantissa halved as often as the exponent grows. *)
Lemma shr_fexp_cases q e l : 0 <= q -> exists r n, shr_fexp fprec femax q e l = (r, e + n) /\ 0 <= n /\ shr_m r = q / 2 ^ n /\
  (0 < n -> e + n = fexp fprec femax (Zdigits2 q + e)) /\ (n = 0 -> r = shr_record_of_loc q l).
Proof.
  intros Hq. unfold shr_fexp. set (k := fexp fprec femax (Zdigits2 q + e) - e).
  assert (R : shr_m (shr_record_of_loc q l) = q) by (destruct l as [|[]]; reflexivity).
  destruct (Z.le_gt_cases k 0) as [Hk|Hk].
  - exists (shr_record_of_loc q l), 0. assert (E : shr (shr_record_of_loc q l) e k = (shr_record_of_loc q l, e)) by (destruct k; reflexivity || lia).
    rewrite E, R, Z.add_0_r, Z.pow_0_r, Z.div_1_r. split_and!; auto; lia.
  - destruct (shr_value (shr_record_of_loc q l) e k) as [V1 V2]; [rewrite R; exact Hq|lia|]. rewrite R in V1.
    destruct (shr (shr_record_of_loc q l) e k) as [r e'] eqn:E. cbn [fst snd] in *. subst e'. exists r, k. split_and!; auto; lia.
Qed.

Lemma fexp_unit q e : 0 <= q -> e <= 0 -> q <= 2 ^ (- e) -> fexp fprec femax (Zdigits2 q + e) <= 0.
Proof.
  intros Hq He Hle. assert (D : Zdigits2 q + e <= 1).
  { destruct (Z.eq_dec q 0) as [->|Hn]; [cbn; lia|]. rewrite Zdigits2_log2 by lia.
    assert (Z.log2 q <= Z.log2 (2 ^ (- e))) by (apply Z.log2_le_mono; exact Hle). rewrite Z.log2_pow2 in * by lia. lia. }
  unfold fexp, emin, fprec, femax. lia.
Qed.

(** Shifting a power of two leaves nothing behind. *)
Lemma iter_shr_exact p : forall x, 0 < x -> SpecFloat.iter_pos shr_1 p (Build_shr_record (x * 2 ^ Z.pos p) false false) = Build_shr_record x false false.
Proof.
  assert (one : forall x, 0 < x -> shr_1 (Build_shr_record (x * 2) false false) = Build_shr_record x false false).
  { intros [|x|x] Hx; try lia. rewrite Z.mul_comm. reflexivity. }
  induction p as [p IH|p IH|]; intros x Hx; cbn [SpecFloat.iter_pos].
  - replace (x * 2 ^ Z.pos p~1) with (x * 2 ^ Z.pos p * 2 ^ Z.pos p * 2).
    2:{ rewrite (Pos2Z.inj_xI p). replace (2 * Z.pos p + 1) with (Z.pos p + Z.pos p + 1) by lia. rewrite !Z.pow_add_r by lia. ring. }
    assert (0 < 2 ^ Z.pos p) by (apply Z.pow_pos_nonneg; lia).
    rewrite one by (repeat apply Z.mul_pos_pos; lia). rewrite IH by (apply Z.mul_pos_pos; lia). now apply IH.
  - replace (x * 2 ^ Z.pos p~0) with (x * 2 ^ Z.pos p * 2 ^ Z.pos p).
    2:{ rewrite (Pos2Z.inj_xO p). replace (2 * Z.pos p) with (Z.pos p + Z.pos p) by lia. rewrite !Z.pow_add_r by lia. ring. }
    assert (0 < 2 ^ Z.pos p) by (apply Z.pow_pos_nonneg; lia). rewrite IH by (apply Z.mul_pos_pos; lia). now apply IH.
  - change (2 ^ 1) with 2. now apply one.
Qed.

Lemma shr_power k n : 0 <= n <= k -> shr (Build_shr_record (2 ^ k) false false) (- k) n = (Build_shr_record (2 ^ (k - n)) false false, - (k - n)).
Proof.
  intros H. destruct n as [|p|p]; cbn [shr]; [f_equal; [now rewrite Z.sub_0_r|lia]| |lia].
  replace (2 ^ k) with (2 ^ (k - Z.pos p) * 2 ^ Z.pos p) by (rewrite <- Z.pow_add_r by lia; f_equal; lia).
  rewrite iter_shr_exact by (apply Z.pow_pos_nonneg; lia). f_equal. lia.
Qed.

(** The bound a location adds to a mantissa. *)
Definition slack (l : location) : Z := match l with loc_Exact => 0 | loc_Inexact _ => 1 end.

Lemma round_half_bound q e l : 0 <= q -> e <= 0 -> q + slack l <= 2 ^ (- e) -> exists r e1,
  shr_fexp fprec femax q e l = (r, e1) /\ e1 <= 0 /\ 0 <= round_nearest_even (shr_m r) (loc_of_shr_record r) <= 2 ^ (- e1).
Proof.
  intros Hq He Hb. assert (Hs : 0 <= slack l) by (destruct l; cbn; lia).
  destruct (shr_fexp_cases q e l Hq) as (r & n & E & Hn & Er & Hf & H0). exists r, (e + n). split; [exact E|].
  assert (He1 : e + n <= 0).
  { destruct (Z.eq_dec n 0) as [->|]; [lia|]. rewrite Hf by lia. apply fexp_unit; lia. }
  split; [exact He1|]. assert (Hp : 0 < 2 ^ n) by (apply Z.pow_pos_nonneg; lia).
  assert (Hr0 : 0 <= shr_m r) by (rewrite Er; apply Z.div_pos; lia).
  assert (Ep : 2 ^ (- e) = 2 ^ (- (e + n)) * 2 ^ n) by (rewrite <- Z.pow_add_r by lia; f_equal; lia).
  assert (Up : shr_m r <= round_nearest_even (shr_m r) (loc_of_shr_record r) <= shr_m r + 1).
  { unfold round_nearest_even. destruct (loc_of_shr_record r) as [|[]]; try lia. destruct (Z.even _); lia. }
  split; [lia|]. destruct (Z.lt_ge_cases (shr_m r) (2 ^ (- (e + n)))) as [L|L]; [lia|].
  assert (Hq2 : 2 ^ (- e) <= q).
  { rewrite Ep. rewrite Er in L. pose proof (Z.mul_div_le q (2 ^ n) Hp). nia. }
  assert (slack l = 0) by lia. assert (l = loc_Exact) as -> by (destruct l; [reflexivity|cbn in *; lia]).
  assert (Eq : q = 2 ^ (- e)) by (cbn in Hb; lia).
  assert (R : r = Build_shr_record (2 ^ (- (e + n))) false false).
  { destruct (Z.eq_dec n 0) as [->|Hn0]; [rewrite H0 by reflexivity; cbn; rewrite Eq; do 2 f_equal; lia|].
    unfold shr_fexp in E. rewrite <- (Hf ltac:(lia)) in E. replace (e + n - e) with n in E by lia. cbn [shr_record_of_loc] in E. rewrite Eq in E.
    pose proof (shr_power (- e) n ltac:(lia)) as S. rewrite Z.opp_involutive in S. rewrite S in E. injection E as <- _. do 2 f_equal. lia. }
  rewrite R. cbn [shr_m loc_of_shr_record round_nearest_even]. lia.
Qed.

(** What rounds to a value of at most one is between zero and one. *)
Lemma round_unit q e l : 0 <= q -> e <= 0 -> q + slack l <= 2 ^ (- e) -> unit_float (binary_round_aux fprec femax false q e l) = true.
Proof.
  intros Hq He Hb. destruct (round_half_bound q e l Hq He Hb) as (r & e1 & E & He1 & Hm). unfold binary_round_aux. rewrite E.
  set (q1 := round_nearest_even _ _) in *. clearbody q1.
  destruct (shr_fexp_cases q1 e1 loc_Exact (proj1 Hm)) as (r2 & n & E2 & Hn & Er2 & Hf & _). rewrite E2.
  assert (He2 : e1 + n <= 0).
  { destruct (Z.eq_dec n 0) as [->|]; [lia|]. rewrite Hf by lia. apply fexp_unit; lia. }
  assert (Hp : 0 < 2 ^ n) by (apply Z.pow_pos_nonneg; lia).
  assert (Hr : 0 <= shr_m r2 <= 2 ^ (- (e1 + n))).
  { rewrite Er2. split; [apply Z.div_pos; lia|]. apply Z.div_le_upper_bound; [lia|]. rewrite <- Z.pow_add_r by lia. replace (n + - (e1 + n)) with (- e1) by lia. lia. }
  destruct (shr_m r2) as [|m|m] eqn:Em; [apply unit_zero| |lia].
  rewrite (proj2 (Z.leb_le _ _)) by (unfold femax, fprec; lia). apply unit_finite; lia.
Qed.

(** ** The operations *)

Lemma fmul_unit x y : unit_float x = true -> unit_float y = true -> unit_float (fmul x y) = true.
Proof.
  intros Hx Hy. destruct (unit_cases x Hx) as [[s ->]|(m & e & -> & He & Hm)], (unit_cases y Hy) as [[s' ->]|(m' & e' & -> & He' & Hm')];
    cbn [fmul SFmul]; try apply unit_zero.
  apply round_unit; [lia|lia|]. cbn [slack]. rewrite Z.add_0_r, Pos2Z.inj_mul. replace (- (e + e')) with (- e + - e') by lia.
  rewrite Z.pow_add_r by lia. apply Z.mul_le_mono_nonneg; lia.
Qed.

Lemma shl_align_value m e e' : e' <= e -> Z.pos (fst (shl_align m e e')) = Z.pos m * 2 ^ (e - e').
Proof.
  intros H. unfold shl_align. destruct (e' - e) as [|p|p] eqn:E; cbn [fst].
  - replace (e - e') with 0 by lia. lia.
  - lia.
  - rewrite iter_xO. do 2 f_equal. lia.
Qed.

Lemma binary_round_unit m e : e <= 0 -> Z.pos m <= 2 ^ (- e) -> unit_float (binary_round fprec femax false m e) = true.
Proof.
  intros He Hm. unfold binary_round. set (f := fexp fprec femax (Z.pos (digits2_pos m) + e)). unfold shl_align.
  destruct (f - e) as [|p|p] eqn:E; try (apply round_unit; cbn [slack]; lia).
  apply round_unit; [lia|lia|]. cbn [slack]. rewrite iter_xO, Z.add_0_r. replace (- f) with (- e + Z.pos p) by lia. rewrite Z.pow_add_r by lia.
  apply Z.mul_le_mono_nonneg_r; [apply Z.pow_nonneg; lia|exact Hm].
Qed.

(** [1.0 - x]. *)
Lemma one_minus_unit x : unit_float x = true -> unit_float (fsub (float_of_Z 1) x) = true.
Proof.
  intros Hx. change (float_of_Z 1) with (S754_finite false 4503599627370496 (-52)).
  destruct (unit_cases x Hx) as [[s ->]|(m & e & -> & He & Hm)]; [reflexivity|]. unfold fsub. cbn [SFsub].
  set (ez := Z.min (-52) e). cbn [cond_Zopp]. rewrite !shl_align_value by lia.
  assert (E1 : Z.pos 4503599627370496 * 2 ^ (-52 - ez) = 2 ^ (- ez)).
  { change (Z.pos 4503599627370496) with (2 ^ 52). rewrite <- Z.pow_add_r by lia. f_equal. lia. }
  assert (E2 : Z.pos m * 2 ^ (e - ez) <= 2 ^ (- ez)).
  { replace (- ez) with (- e + (e - ez)) by lia. rewrite Z.pow_add_r by lia. apply Z.mul_le_mono_nonneg_r; [apply Z.pow_nonneg; lia|exact Hm]. }
  rewrite E1. assert (E3 : 0 <= Z.pos m * 2 ^ (e - ez)) by (apply Z.mul_nonneg_nonneg; [lia|apply Z.pow_nonneg; lia]).
  destruct (2 ^ (- ez) - Z.pos m * 2 ^ (e - ez)) as [|p|p] eqn:Ed; [apply unit_zero|apply binary_round_unit; lia|lia].
Qed.

(** A quotient of at most one. *)
Lemma fdiv_raw_unit k n : 0 <= k <= n -> 0 < n < 2 ^ 52 -> unit_float (fdiv (raw k) (raw n)) = true.
Proof.
  intros Hk Hn. destruct n as [|n|n]; try lia. destruct k as [|k|k]; [reflexivity| |lia]. cbn [raw fdiv SFdiv]. unfold SFdiv_core_binary.
  set (e' := Z.min _ (0 - 0)). assert (He : e' <= 0) by lia. replace (0 - 0 - e') with (- e') by lia.
  assert (M : (match - e' with Z0 => Z.pos k | Z.pos _ => Z.shiftl (Z.pos k) (- e') | Z.neg _ => 0 end) = Z.pos k * 2 ^ (- e')).
  { destruct (- e') as [|p|p] eqn:E; [lia| |lia]. now rewrite Z.shiftl_mul_pow2 by lia. }
  rewrite M. pose proof (Z_div_mod (Z.pos k * 2 ^ (- e')) (Z.pos n) ltac:(lia)) as D. destruct (Z.div_eucl _ _) as [q r]. destruct D as [D1 D2].
  assert (Hp : 0 < 2 ^ (- e')) by (apply Z.pow_pos_nonneg; lia). cbn [xorb].
  assert (Hq : 0 <= q) by nia.
  apply round_unit; [exact Hq|exact He|].
  assert (Hs : r = 0 /\ slack (new_location (Z.pos n) r) = 0 \/ 0 < r /\ slack (new_location (Z.pos n) r) = 1).
  { unfold new_location. destruct (Z.even _); cbn beta iota; unfold new_location_even, new_location_odd;
      (destruct (Z.eqb_spec r 0) as [->|Hr0]; [left; split; reflexivity|right; split; [lia|reflexivity]]). }
  assert (B : Z.pos n * q + r <= Z.pos n * 2 ^ (- e')) by nia.
  destruct Hs as [[-> ->]|[Hr ->]]; nia.
Qed.

Lemma half_even_bound a d n : 0 < d -> 0 <= a <= n * d -> 0 <= half_even a d <= n.
Proof.
  intros Hd Ha. unfold half_even. pose proof (Z.div_mod a d ltac:(lia)) as D. pose proof (Z.mod_pos_bound a d Hd) as M.
  assert (0 <= a / d) by (apply Z.div_pos; lia). assert (a / d <= n) by (apply Z.div_le_upper_bound; lia).
  destruct (2 * (a mod d) <? d) eqn:E1; [lia|]. apply Z.ltb_ge in E1. assert (a / d < n) by nia.
  destruct (d <? _); [lia|]. destruct (Z.even _); lia.
Qed.

(** [round(x, n)]. *)
Lemma fround_to_unit x n : 0 <= n <= 15 -> unit_float x = true -> unit_float (fround_to x n) = true.
Proof.
  intros Hn Hx. assert (Hp : 0 < 10 ^ n < 2 ^ 52).
  { split; [apply Z.pow_pos_nonneg; lia|]. apply Z.le_lt_trans with (10 ^ 15); [apply Z.pow_le_mono_r; lia|reflexivity]. }
  assert (K : exists k, round_digits x n = Some k /\ 0 <= k <= 10 ^ n).
  { destruct (unit_cases x Hx) as [[s ->]|(m & e & -> & He & Hm)]; [exists 0; split; [reflexivity|lia]|]. cbn [round_digits cond_Zopp].
    eexists. split; [reflexivity|]. destruct (Z.leb_spec 0 e) as [H0|H0].
    - assert (e = 0) as -> by lia. cbn in Hm. assert (Z.pos m = 1) by lia. lia.
    - apply half_even_bound; [apply Z.pow_pos_nonneg; lia|]. nia. }
  destruct K as (k & Ek & Hk). unfold fround_to. rewrite Ek. unfold float_of_dec. cbn [expo coef]. rewrite Z.opp_involutive.
  destruct (Z.leb_spec 0 (- n)) as [H0|H0]; [|apply fdiv_raw_unit; lia].
  assert (n = 0) as -> by lia. change (10 ^ 0) with 1 in Hk. change (10 ^ - 0) with 1. assert (Hk1 : (k = 0) \/ (k = 1)) by lia. destruct Hk1 as [-> | ->]; reflexivity.
Qed.

(** ** Order *)

Lemma fltb_asym x y : fltb x y = true -> fltb y x = false.
Proof.
  assert (core : forall a ea b eb, (a * 2 ^ (ea - Z.min ea eb) <? b * 2 ^ (eb - Z.min ea eb)) = true ->
    (b * 2 ^ (eb - Z.min eb ea) <? a * 2 ^ (ea - Z.min eb ea)) = false).
  { intros a ea b eb H%Z.ltb_lt. rewrite (Z.min_comm eb ea). apply Z.ltb_ge. lia. }
  destruct x as [s|s| |s m e], y as [s'|s'| |s' m' e']; try discriminate; try (destruct s; try discriminate; reflexivity);
    try (destruct s'; try discriminate; reflexivity); try (destruct s, s'; try discriminate; reflexivity); try reflexivity; exact (core _ _ _ _).
Qed.

Lemma fmax_not_below x y : fltb (fmax x y) x = false.
Proof.
  unfold fmax. destruct (fltb x y) eqn:E; [now apply fltb_asym|]. destruct (fltb x x) eqn:E'; [|reflexivity]. pose proof (fltb_asym _ _ E'). congruence.
Qed.

(** [min(1.0, x)] of what is not negative. *)
Lemma fmin_unit x : fltb x (float_of_Z 0) = false -> unit_float (fmin (float_of_Z 1) x) = true.
Proof.
  intros H. unfold fmin. destruct (fltb x (float_of_Z 1)) eqn:E; [|reflexivity].
  unfold unit_float. rewrite H, (fltb_asym _ _ E). destruct x; try reflexivity; discriminate.
Qed.
Lemma fmin_unit_or x : (x = S754_nan \/ unit_float x = true) -> unit_float (fmin (float_of_Z 1) x) = true.
Proof.
  intros [->|H]; [reflexivity|]. apply fmin_unit. unfold unit_float in H. apply andb_prop in H as [H _]. apply andb_prop in H as [H _]. now apply negb_true_iff in H.
Qed.

(** [max(0.0, min(1.0, x))]. *)
Lemma clamp_is_unit x : unit_float (fmax (float_of_Z 0) (fmin (float_of_Z 1) x)) = true.
Proof.
  unfold unit_float. rewrite fmax_not_below, clamp_unit. unfold fmax, fmin. destruct (fltb x (float_of_Z 1)) eqn:E; [|reflexivity].
  destruct (fltb (float_of_Z 0) x) eqn:E'; [|reflexivity]. destruct x; try reflexivity; discriminate.
Qed.

Lemma round_plus q e l : fltb (binary_round_aux fprec femax false q e l) (float_of_Z 0) = false.
Proof.
  unfold binary_round_aux. destruct (shr_fexp _ _ _ _ _) as [r e']. destruct (shr_fexp _ _ _ _ _) as [r' e'']. destruct (shr_m r') as [|m|m]; [reflexivity| |reflexivity].
  destruct (_ <=? _); [apply fltb_pos_zero|reflexivity].
Qed.

(** A quotient of what is not negative by what is positive. *)
Lemma fdiv_plus x y : fltb x (float_of_Z 0) = false -> fltb (float_of_Z 0) y = true -> fltb (fdiv x y) (float_of_Z 0) = false.
Proof.
  assert (neg : forall m e, fltb (S754_finite true m e) (float_of_Z 0) = true).
  { intros m e. unfold fltb. cbn [mantissa exponent cond_Zopp float_of_Z binary_normalize]. apply Z.ltb_lt.
    assert (0 < 2 ^ (e - Z.min e 0)) by (apply Z.pow_pos_nonneg; lia). nia. }
  intros Hx Hy. destruct y as [s|s| |s m e]; try (destruct s; discriminate); try discriminate.
  - destruct s; [discriminate|]. destruct x as [s|s| |s m e]; try (destruct s; (reflexivity || discriminate)); try reflexivity.
  - destruct s; [rewrite (fltb_asym _ _ (neg m e)) in Hy; discriminate|].
    destruct x as [s|s| |s m' e']; try (destruct s; (reflexivity || discriminate)); try reflexivity.
    destruct s; [rewrite neg in Hx; discriminate|]. cbn [fdiv SFdiv]. destruct (SFdiv_core_binary _ _ _ _) as [[q f] l]. apply round_plus.
Qed.
