(* ===== verification/IsoTime.v ===== *)
(** The texts and floats that stand for UTC moments, as core and licensing write and
    read them: [isoformat] at whole seconds with its [Z], [fromisoformat] of such a
    text, [timestamp] and [fromtimestamp].  What [fromisoformat] makes of a text of
    another form is the class [OtherTexts]. *)

From Stdlib Require Import ZArith Lia SpecFloat Ascii String.
From stdpp Require Import base strings list.
From S2P Require Import Prelude Calendar TzRules PyFloat PyText FloatTheory.

Local Open Scope Z_scope.
Local Open Scope py_scope.

Definition SECOND_US : Z := 1000000.
Definition MINUTE_SEC : Z := 60.

(** ** Floats of seconds *)

(** Microseconds since the epoch. *)
Definition EPOCH_US : Z := (EPOCH_ORD - 1) * DAY_US.

(** [timedelta.total_seconds()] of a number of microseconds. *)
Definition total_seconds (us : Z) : spec_float := fdiv (raw us) (raw SECOND_US).
(** [t.timestamp()] of a UTC moment. *)
Definition unix_time (t : datetime) : spec_float := total_seconds (t - EPOCH_US).
(** [datetime.fromtimestamp(x, tz=timezone.utc)]. *)
Definition fromtimestamp (x : spec_float) : res datetime :=
  match float_to_us x with
  | None => match x with S754_nan => Raise ValueError | _ => Raise OverflowError end
  | Some us => if datetime_ok (EPOCH_US + us) then Ok (EPOCH_US + us) else Raise ValueError
  end.

(** ** Texts *)

Definition two_digits (z : Z) : list ascii := [digit_char (z / 10 mod 10); digit_char (z mod 10)].
Definition four_digits (z : Z) : list ascii := two_digits (z / 100) ++ two_digits (z mod 100).

(** Seconds of the day. *)
Definition dt_seconds (t : datetime) : Z := (t mod DAY_US) / SECOND_US.
(** The moment at its whole second. *)
Definition whole_second (t : datetime) : datetime := t - t mod SECOND_US.

(** [t.replace(microsecond=0).isoformat().replace("+00:00", "Z")]. *)
Definition iso_chars (t : datetime) : list ascii :=
  let d := dt_date t in let s := dt_seconds t in
  four_digits (date_year d) ++ ["-"%char] ++ two_digits (date_month d) ++ ["-"%char] ++ two_digits (date_day d) ++ ["T"%char]
  ++ two_digits (s / 3600) ++ [":"%char] ++ two_digits (s / 60 mod 60) ++ [":"%char] ++ two_digits (s mod 60) ++ ["Z"%char].
Definition iso_text (t : datetime) : string := string_of_list_ascii (iso_chars t).

(** [_rfc3339]. *)
Definition rfc3339 (epoch : spec_float) : res string := let* t := fromtimestamp epoch in Ok (iso_text t).

Definition number (cs : list ascii) : option Z :=
  foldl (fun n c => match n, char_digit c with Some n, Some d => Some (10 * n + d) | _, _ => None end) (Some 0) cs.

(** The fields of a text of that form: [None] when it is not. *)
Definition iso_fields (cs : list ascii) : option (Z * Z * Z * (Z * Z * Z)) :=
  match cs with
  | [y1; y2; y3; y4; p1; m1; m2; p2; d1; d2; p3; h1; h2; p4; i1; i2; p5; s1; s2; p6] =>
      if bool_decide ([p1; p2; p3; p4; p5; p6] = list_ascii_of_string "--T::Z") then
        match number [y1; y2; y3; y4], number [m1; m2], number [d1; d2], number [h1; h2], number [i1; i2], number [s1; s2] with
        | Some y, Some m, Some d, Some h, Some i, Some s => Some (y, m, d, (h, i, s))
        | _, _, _, _, _, _ => None
        end
      else None
  | _ => None
  end.

(** [dt.datetime(y, m, d, h, i, s)]. *)
Definition moment (y m d h i s : Z) : res datetime :=
  let* ord := date_ y m d in
  if (0 <=? h) && (h <=? 23) && (0 <=? i) && (i <=? 59) && (0 <=? s) && (s <=? 59)
  then Ok ((ord - 1) * DAY_US + (3600 * h + 60 * i + s) * SECOND_US) else Raise ValueError.

(** [datetime.fromisoformat] of any other text, as a UTC moment; a text without a
    zone is read as UTC. *)
Class OtherTexts := other_text : string -> res datetime.

Section Parsing.
Context {OT : OtherTexts}.

(** [_parse_ts]. *)
Definition parse_ts (value : string) : res datetime :=
  let text := strip value in
  match iso_fields (list_ascii_of_string text) with
  | Some (y, m, d, (h, i, s)) => moment y m d h i s
  | None => other_text text
  end.
End Parsing.

(** ** Reading back what is written *)

Lemma digit_range z : is_digit (z mod 10).
Proof. unfold is_digit. pose proof (Z.mod_pos_bound z 10). lia. Qed.

Lemma number_digits ds n : Forall is_digit ds ->
  foldl (fun n c => match n, char_digit c with Some n, Some d => Some (10 * n + d) | _, _ => None end) (Some n) (map digit_char ds)
  = Some (foldl (fun n d => 10 * n + d) n ds).
Proof.
  intros H. revert n. induction H as [|d ds Hd _ IH]; intros n; [reflexivity|]. cbn [map foldl]. rewrite char_digit_char by exact Hd. apply IH.
Qed.

Lemma number_two z : 0 <= z < 100 -> number (two_digits z) = Some z.
Proof.
  intros H. unfold number, two_digits. change [digit_char ?a; digit_char ?b] with (map digit_char [a; b]).
  rewrite number_digits by (repeat constructor; apply digit_range). cbn [foldl]. f_equal. Z.to_euclidean_division_equations. lia.
Qed.
Lemma number_four z : 0 <= z < 10000 -> number (four_digits z) = Some z.
Proof.
  intros H. unfold number, four_digits, two_digits. cbn [app].
  change [digit_char ?a; digit_char ?b; digit_char ?c; digit_char ?d] with (map digit_char [a; b; c; d]).
  rewrite number_digits by (repeat constructor; apply digit_range). cbn [foldl]. f_equal. Z.to_euclidean_division_equations. lia.
Qed.

Lemma iso_fields_chars y m d h i s : 0 <= y < 10000 -> 0 <= m < 100 -> 0 <= d < 100 -> 0 <= h < 100 -> 0 <= i < 100 -> 0 <= s < 100 ->
  iso_fields (four_digits y ++ ["-"%char] ++ two_digits m ++ ["-"%char] ++ two_digits d ++ ["T"%char] ++ two_digits h ++ [":"%char]
              ++ two_digits i ++ [":"%char] ++ two_digits s ++ ["Z"%char]) = Some (y, m, d, (h, i, s)).
Proof.
  intros Hy Hm Hd Hh Hi Hs. pose proof (number_four y Hy) as Ny. pose proof (number_two m Hm) as Nm. pose proof (number_two d Hd) as Nd.
  pose proof (number_two h Hh) as Nh. pose proof (number_two i Hi) as Ni. pose proof (number_two s Hs) as Ns.
  unfold four_digits, two_digits in *. cbn [app] in *. cbn [iso_fields]. rewrite bool_decide_true by reflexivity.
  now rewrite Ny, Nm, Nd, Nh, Ni, Ns.
Qed.

Lemma not_space_digit d : is_digit d -> is_space (digit_char d) = false.
Proof.
  intros H. unfold is_digit in H.
  assert (E : d = 0 \/ d = 1 \/ d = 2 \/ d = 3 \/ d = 4 \/ d = 5 \/ d = 6 \/ d = 7 \/ d = 8 \/ d = 9) by lia.
  destruct E as [->|[->|[->|[->|[->|[->|[->|[->|[->| ->]]]]]]]]]; reflexivity.
Qed.

Lemma strip_solid c cs e : is_space c = false -> is_space e = false ->
  strip (string_of_list_ascii (c :: cs ++ [e])) = string_of_list_ascii (c :: cs ++ [e]).
Proof.
  intros Hc He. unfold strip, rstrip. rewrite !list_ascii_of_string_of_list_ascii. cbn [drop_while]. rewrite Hc.
  change (c :: cs ++ [e]) with ((c :: cs) ++ [e]).
  rewrite rev_app_distr. cbn [rev app drop_while]. rewrite He.
  change (e :: rev cs ++ [c]) with (rev [e] ++ rev (c :: cs)). now rewrite <- rev_app_distr, rev_involutive.
Qed.

Lemma strip_iso t : strip (iso_text t) = iso_text t.
Proof.
  unfold iso_text, iso_chars. cbv zeta. rewrite !app_assoc. unfold four_digits, two_digits. cbn [app].
  match goal with |- strip (string_of_list_ascii (?c :: ?l)) = _ =>
    let l' := eval cbv [app] in (removelast l) in replace (c :: l) with (c :: (removelast l) ++ ["Z"%char]) by reflexivity end.
  apply strip_solid; [apply not_space_digit, digit_range|reflexivity].
Qed.

(** A moment that is written reads back as its whole second. *)
Lemma parse_iso {OT : OtherTexts} t : datetime_ok t = true -> parse_ts (iso_text t) = Ok (whole_second t).
Proof.
  intros Ht. unfold parse_ts. rewrite strip_iso. unfold iso_text. rewrite list_ascii_of_string_of_list_ascii. unfold iso_chars. cbv zeta.
  apply datetime_ok_spec in Ht. assert (Hd : 1 <= dt_date t <= MAXORDINAL).
  { unfold dt_date. split; [pose proof (Z.div_pos t DAY_US ltac:(lia) ltac:(reflexivity)); lia|].
    pose proof (Z.div_lt_upper_bound t DAY_US MAXORDINAL ltac:(reflexivity) ltac:(lia)). lia. }
  destruct (fields_valid _ Hd) as [(Hy & Hm & Hday) Ho].
  assert (Hs : 0 <= dt_seconds t < 86400).
  { unfold dt_seconds. pose proof (Z.mod_pos_bound t DAY_US ltac:(reflexivity)). split; [apply Z.div_pos; [lia|reflexivity]|].
    apply Z.div_lt_upper_bound; [reflexivity|]. change (SECOND_US * 86400) with DAY_US. lia. }
  pose proof (month_step (date_year (dt_date t)) _ Hm) as [Hl _].
  rewrite iso_fields_chars; try lia; try (Z.to_euclidean_division_equations; lia).
  unfold moment. rewrite ord2ymd_date by exact Hd. cbn [rbind].
  rewrite !(proj2 (andb_true_iff _ _)) by (rewrite ?andb_true_iff, ?Z.leb_le; Z.to_euclidean_division_equations; lia).
  f_equal. unfold whole_second, dt_date, dt_seconds. unfold SECOND_US. change DAY_US with (86400 * 1000000).
  Z.to_euclidean_division_equations. lia.
Qed.

(** ** Whole seconds as floats *)

(** The seconds of a whole number of seconds are that float. *)
Lemma total_seconds_exact k : 0 < k < 2 ^ 52 -> exists m e, total_seconds (k * SECOND_US) = S754_finite false m e /\ e <= 0 /\ Z.pos m = k * 2 ^ (- e).
Proof.
  intros Hk. unfold total_seconds, fdiv, raw. assert (Hpos : 0 < k * SECOND_US) by (unfold SECOND_US; lia).
  destruct (k * SECOND_US) as [|u|u] eqn:Eu; try lia. unfold SECOND_US at 1. unfold SFdiv, SFdiv_core_binary. cbn [xorb].
  assert (L : Z.log2 k + 19 <= Z.log2 (Z.pos u) <= Z.log2 k + 20).
  { rewrite <- Eu. pose proof (Z.log2_mul_below k SECOND_US ltac:(lia) ltac:(reflexivity)) as B.
    pose proof (Z.log2_mul_above k SECOND_US ltac:(lia) ltac:(discriminate)) as A. change (Z.log2 SECOND_US) with 19 in *. lia. }
  assert (Lk : 0 <= Z.log2 k <= 51) by (split; [apply Z.log2_nonneg|]; assert (Z.log2 k < 52) by (apply Z.log2_lt_pow2; lia); lia).
  unfold Zdigits2. rewrite digits2_log2. change (Z.pos (digits2_pos 1000000)) with 20.
  rewrite fexp_normal by lia. set (s := 53 + 20 - (Z.log2 (Z.pos u) + 1)).
  replace (Z.min _ _) with (- s) by lia. replace (0 - 0 - - s) with s by lia.
  assert (Hs : 0 < s) by lia. rewrite Z.shiftl_mul_pow2 by lia.
  assert (Em : match s with 0 => Z.pos u | Z.pos _ => Z.pos u * 2 ^ s | Z.neg _ => 0 end = k * 2 ^ s * SECOND_US).
  { destruct s; lia. }
  rewrite Em. change (Z.pos 1000000) with SECOND_US. pose proof (Z_div_mod (k * 2 ^ s * SECOND_US) SECOND_US ltac:(reflexivity)) as D.
  destruct (Z.div_eucl _ _) as [q r]. destruct D as [D1 D2]. assert (Er : r = 0 /\ q = k * 2 ^ s) by (unfold SECOND_US in *; lia).
  destruct Er as [-> ->]. change (new_location SECOND_US 0) with loc_Exact.
  destruct (round_integer k s) as (m & e & E & ? & ?); [lia|lia| |exists m, e; now split_and!].
  rewrite Z.log2_mul_pow2 by lia. lia.
Qed.

Lemma fromtimestamp_whole t : t mod SECOND_US = 0 -> EPOCH_US <= t < EPOCH_US + 2 ^ 52 * SECOND_US -> datetime_ok t = true -> fromtimestamp (unix_time t) = Ok t.
Proof.
  intros Hm Hr Ht. unfold unix_time. assert (E : exists k, t - EPOCH_US = k * SECOND_US /\ 0 <= k < 2 ^ 52).
  { exists ((t - EPOCH_US) / SECOND_US). change EPOCH_US with (62135596800 * SECOND_US) in *. unfold SECOND_US in *. Z.to_euclidean_division_equations. lia. }
  destruct E as (k & E & Hk). rewrite E. assert (F : float_to_us (total_seconds (k * SECOND_US)) = Some (k * SECOND_US)).
  { destruct (Z.eq_dec k 0) as [->|]; [reflexivity|]. destruct (total_seconds_exact k) as (m & e & -> & He & Em); [lia|].
    unfold float_to_us, modf. destruct (0 <=? e) eqn:Ee.
    - assert (e = 0) as -> by (apply Z.leb_le in Ee; lia). cbn [cond_Zopp]. change (2 ^ (- 0)) with 1 in Em. change (2 ^ 0) with 1. rewrite Em.
      change (fround (fmul (S754_zero false) (float_of_Z 1000000))) with 0. f_equal. unfold SECOND_US. lia.
    - apply Z.leb_gt in Ee. cbn [cond_Zopp]. rewrite Em, Z.div_mul, Z.mod_mul by (apply Z.pow_nonzero; lia).
      change (fround (fmul (binary_normalize fprec femax 0 e false) (float_of_Z 1000000))) with 0. f_equal. unfold SECOND_US. lia. }
  unfold fromtimestamp. rewrite F. replace (EPOCH_US + k * SECOND_US) with t by lia. now rewrite Ht.
Qed.
