(* ===== verification/Licence.v ===== *)
(** [sentinel/licensing/license.py] and the comparison of [fingerprint.py]: a signed
    licence, its terms, how it is issued, read, verified and renewed.

    A licence file is what decoding its envelope gives.  The signature scheme (the
    [cryptography] package over the canonical bytes of a payload) is the class
    [Vendor]; [int_of_text] is [int] of a text.  A flag among the integers of a
    payload counts as its number. *)

From Stdlib Require Import ZArith Lia SpecFloat Ascii String.
From stdpp Require Import base strings list.
From S2P Require Import Prelude Calendar TzRules PyFloat PyText PyDict PyJson IsoTime.

Local Open Scope Z_scope.
Local Open Scope py_scope.

(** ** The grant *)

Definition LICENSE_FORMAT : Z := 2.
Definition DEFAULT_TERM_MONTHS : Z := 3.

(** [TIER_CAPABILITIES]. *)
Definition TIER_CAPABILITIES : list (string * list (string * json)) :=
  [("evaluation", [("live_trading", JBool false); ("max_instruments", JInt 3); ("max_accounts", JInt 1);
                   ("max_equity", JStr "25000"); ("research_lab", JBool false); ("llm_news", JBool false)]);
   ("research", [("live_trading", JBool false); ("max_instruments", JNull); ("max_accounts", JInt 1);
                 ("max_equity", JNull); ("research_lab", JBool true); ("llm_news", JBool true)]);
   ("live_single", [("live_trading", JBool true); ("max_instruments", JInt 8); ("max_accounts", JInt 1);
                    ("max_equity", JNull); ("research_lab", JBool true); ("llm_news", JBool true)]);
   ("live_multi", [("live_trading", JBool true); ("max_instruments", JNull); ("max_accounts", JInt 5);
                   ("max_equity", JNull); ("research_lab", JBool true); ("llm_news", JBool true)]);
   ("unlimited", [("live_trading", JBool true); ("max_instruments", JNull); ("max_accounts", JNull);
                  ("max_equity", JNull); ("research_lab", JBool true); ("llm_news", JBool true)])].

Record License := mkLicense {
  li_licence_id : string;
  li_issued_to : string;
  li_issued_at : string;
  li_expires_at : option string;
  li_tier : string;
  li_machine : list (string * json);
  li_capabilities : list (string * json);
  li_notes : json;
  li_format : json;
  li_activation_url : json;
  li_activation_interval_hours : Z;
  li_term_months : Z;
  li_term_index : Z;
  li_subscription_id : json;
  li_anchor_day : Z
}.

(** A licence file, as decoding its envelope finds it. *)
Inductive Document := NoEnvelope | Corrupt | Envelope (body : json).

Class Vendor := {
  sign : string -> json -> res string;             (* private key, payload *)
  verifies : string -> json -> json -> bool;       (* public key, signature, payload *)
  decodes : json -> bool;                          (* a signature is base64 *)
  vendor_int : string -> option Z
}.

(** ** Derived values *)

Section Licence.
Context {OT : OtherTexts} {VD : Vendor}.

Definition blank (s : string) : bool := bool_decide (s = "").
(** [License.expiry]; its text was read when the licence was. *)
Definition expiry (l : License) : res (option datetime) :=
  match li_expires_at l with
  | Some text => if blank text then Ok None else let* t := parse_ts text in Ok (Some t)
  | None => Ok None
  end.
Definition issued (l : License) : res datetime := parse_ts (li_issued_at l).

(** [License.capability]. *)
Definition capability (l : License) (name : string) (default : json) : json :=
  match dict_get name (li_capabilities l) with
  | Some v => v
  | None => match dict_get (li_tier l) TIER_CAPABILITIES with
            | Some caps => match dict_get name caps with Some v => v | None => default end
            | None => default
            end
  end.

Definition DAY_SEC : spec_float := float_of_Z 86400.
(** [License.days_remaining]. *)
Definition days_remaining (l : License) (now : datetime) : res (option spec_float) :=
  let* e := expiry l in
  Ok (match e with Some t => Some (fdiv (total_seconds (t - now)) DAY_SEC) | None => None end).

Inductive Stage := Healthy | Approaching | Due | Critical | Lapsed | Perpetual | ClockMoved | Revoked | NoStage.
#[export] Instance Stage_eq_dec : EqDecision Stage.
Proof. solve_decision. Defined.
Definition at_most (x : spec_float) (n : Z) : bool := negb (fltb (float_of_Z n) x).
(** [License.renewal_stage]. *)
Definition renewal_stage (remaining : option spec_float) : Stage :=
  match remaining with
  | None => Perpetual
  | Some r => if fltb r (float_of_Z 0) then Lapsed else if at_most r 3 then Critical else if at_most r 14 then Due
              else if at_most r 30 then Approaching else Healthy
  end.

(** ** Terms *)

(** [when.replace(year, month, day)]. *)
Definition replace_date (t : datetime) (y m d : Z) : res datetime :=
  let* ord := date_ y m d in Ok ((ord - 1) * DAY_US + t mod DAY_US).
Definition dt_month (t : datetime) : Z := date_month (dt_date t).
Definition dt_day (t : datetime) : Z := date_day (dt_date t).

Definition add_months (when : datetime) (months : Z) : res datetime :=
  if months <? 0 then Raise ValueError
  else
    let total := dt_month when - 1 + months in
    let year := dt_year when + total / 12 in
    let month := total mod 12 + 1 in
    replace_date when year month (Z.min (dt_day when) (days_in_month year month)).

Definition term_end (begins : datetime) (months anchor_day : Z) : res datetime :=
  let* e := add_months begins months in
  if negb (anchor_day =? 0) && (dt_day e <? anchor_day)
  then replace_date e (dt_year e) (dt_month e) (Z.min anchor_day (days_in_month (dt_year e) (dt_month e)))
  else Ok e.

(** ** Issuing *)

(** The fields of a payload, in the order of [asdict]. *)
Definition payload (l : License) : json :=
  JObj [("licence_id", JStr (li_licence_id l)); ("issued_to", JStr (li_issued_to l)); ("issued_at", JStr (li_issued_at l));
        ("expires_at", match li_expires_at l with Some t => JStr t | None => JNull end); ("tier", JStr (li_tier l));
        ("machine", JObj (li_machine l)); ("capabilities", JObj (li_capabilities l)); ("notes", li_notes l);
        ("format", li_format l); ("activation_url", li_activation_url l);
        ("activation_interval_hours", JInt (li_activation_interval_hours l)); ("term_months", JInt (li_term_months l));
        ("term_index", JInt (li_term_index l)); ("subscription_id", li_subscription_id l); ("anchor_day", JInt (li_anchor_day l))].

(** The arguments of [issue]; [term_months] and [valid_days] are [None] when the
    caller did not mention them. *)
Record Order := mkOrder {
  or_issued_to : string;
  or_tier : string;
  or_term_months : option (option Z);
  or_valid_days : option (option Z);
  or_machine : list (string * json);
  or_capabilities : list (string * json);
  or_notes : json;
  or_activation_url : json;
  or_activation_interval_hours : Z;
  or_allow_unbound : bool;
  or_perpetual : bool;
  or_subscription_id : json;
  or_term_index : Z;
  or_anchor_day : Z;
  or_starts_at : option datetime
}.

Definition guard (ok : bool) (e : exn) : res unit := if ok then Ok tt else Raise e.
Definition strip_text (j : json) : res json := match j with JStr s => Ok (JStr (strip s)) | _ => Raise AttributeError end.
Definition or_int (z d : Z) : Z := if z =? 0 then d else z.

(** The end of the term that is sold and its months. *)
Definition term_sold (o : Order) (begins : datetime) : res (option string * Z) :=
  match or_perpetual o, or_valid_days o with
  | true, _ | _, Some None => Ok (None, 0)
  | false, Some (Some days) =>
      let* _ := guard (0 <? days) LicenseInvalid in
      let* text := rfc3339 (fadd (unix_time begins) (float_of_Z (days * 86400))) in Ok (Some text, 0)
  | false, None =>
      let months := match or_term_months o with Some (Some m) => m | _ => DEFAULT_TERM_MONTHS end in
      let* _ := guard (0 <? months) LicenseInvalid in
      let* _ := guard (months <=? 60) LicenseInvalid in
      let* e := term_end begins months (or_int (or_anchor_day o) (dt_day begins)) in
      let* text := rfc3339 (unix_time e) in Ok (Some text, months)
  end.

(** [issue]; [fresh_id] is the identity it draws. *)
Definition issue (private_key fresh_id : string) (o : Order) (current : datetime) : res Document :=
  let* _ := guard (bool_decide (or_tier o ∈ map fst TIER_CAPABILITIES)) LicenseInvalid in
  let* _ := guard (negb (blank (strip (or_issued_to o)))) LicenseInvalid in
  let* _ := guard (negb (bool_decide (or_machine o = [])) || or_allow_unbound o) LicenseInvalid in
  let begins := default current (or_starts_at o) in
  let days := match or_valid_days o with Some (Some _) => true | _ => false end in
  let months_given := match or_term_months o with Some _ => true | None => false end in
  let* _ := guard (negb (or_perpetual o && (months_given || days))) LicenseInvalid in
  let* _ := guard (negb (days && months_given)) LicenseInvalid in
  let* _ := guard ((or_anchor_day o =? 0) || ((1 <=? or_anchor_day o) && (or_anchor_day o <=? 31))) LicenseInvalid in
  let* sold := term_sold o begins in
  let* _ := match sold.1 with
            | Some text => let* e := parse_ts text in guard (current <? e) LicenseInvalid
            | None => Ok tt
            end in
  let* issued_at := rfc3339 (unix_time current) in
  let* notes := strip_text (or_notes o) in
  let* subscription := strip_text (if truthy (or_subscription_id o) then or_subscription_id o else JStr fresh_id) in
  let l := mkLicense fresh_id (strip (or_issued_to o)) issued_at sold.1 (or_tier o) (or_machine o) (or_capabilities o) notes
             (JInt LICENSE_FORMAT) (or_activation_url o) (or_activation_interval_hours o) sold.2 (Z.max 1 (or_term_index o)) subscription
             (or_int (or_anchor_day o) (match sold.1 with Some _ => dt_day begins | None => 0 end)) in
  let* signature := sign private_key (payload l) in
  Ok (Envelope (JObj [("payload", payload l); ("signature", JStr signature); ("algorithm", JStr "Ed25519")])).

(** ** Reading *)

Definition same_text (j : json) (s : string) : bool := match j with JStr t => bool_decide (t = s) | _ => false end.
(** [except Exception: raise LicenseInvalid]. *)
Definition invalid {A} (r : res A) : res A := match r with Ok a => Ok a | Raise _ => Raise LicenseInvalid end.

Definition text_field (fields : list (string * json)) (key : string) : res string :=
  match dict_get key fields with Some (JStr s) => Ok s | _ => Raise LicenseInvalid end.
Definition object_field (fields : list (string * json)) (key : string) : res (list (string * json)) :=
  match dict_get key fields with Some (JObj l) => Ok l | None => Ok [] | _ => Raise LicenseInvalid end.
Definition int_field (fields : list (string * json)) (key : string) (d : Z) : res Z :=
  match dict_get key fields with
  | Some (JInt z) => Ok z | Some (JBool b) => Ok (if b then 1 else 0) | None => Ok d | _ => Raise LicenseInvalid
  end.
Definition any_field (fields : list (string * json)) (key : string) (d : json) : json := default d (dict_get key fields).

(** The licence of the known fields, with [_check_types]. *)
Definition license_of (fields : list (string * json)) : res License :=
  let* licence_id := text_field fields "licence_id" in
  let* issued_to := text_field fields "issued_to" in
  let* issued_at := text_field fields "issued_at" in
  let* expires_at := match dict_get "expires_at" fields with
                     | Some (JStr s) => Ok (Some s) | Some JNull => Ok None | _ => Raise LicenseInvalid
                     end in
  let* tier := text_field fields "tier" in
  let* machine := object_field fields "machine" in
  let* capabilities := object_field fields "capabilities" in
  let* interval := int_field fields "activation_interval_hours" 0 in
  let* months := int_field fields "term_months" 0 in
  let* index := int_field fields "term_index" 1 in
  let* anchor := int_field fields "anchor_day" 0 in
  let l := mkLicense licence_id issued_to issued_at expires_at tier machine capabilities (any_field fields "notes" (JStr ""))
             (any_field fields "format" (JInt LICENSE_FORMAT)) (any_field fields "activation_url" JNull) interval months index
             (any_field fields "subscription_id" (JStr "")) anchor in
  let* _ := invalid (issued l) in
  let* _ := invalid (expiry l) in
  Ok l.

(** [int(payload.get("format", 0))] with its handler. *)
Definition format_of (j : json) : res Z :=
  match int_of_json vendor_int j with Raise TypeError | Raise ValueError => Raise LicenseInvalid | r => r end.

(** [parse]: the licence, its signature and the payload that is signed. *)
Definition parse (d : Document) : res (License * json * json) :=
  match d with
  | NoEnvelope | Corrupt => Raise LicenseInvalid
  | Envelope (JObj body) =>
      let* _ := guard (same_text (any_field body "algorithm" JNull) "Ed25519") LicenseInvalid in
      match dict_get "payload" body with
      | Some (JObj fields) =>
          let* fmt := format_of (any_field fields "format" (JInt 0)) in
          let* _ := guard (fmt <=? LICENSE_FORMAT) LicenseInvalid in
          let* signature := invalid (json_item (JObj body) "signature") in
          let* _ := guard (decodes signature) LicenseInvalid in
          let* l := license_of fields in
          Ok (l, signature, JObj fields)
      | _ => Raise LicenseInvalid
      end
  | Envelope _ => Raise LicenseInvalid
  end.

(** ** Verifying *)

Definition MATCH_THRESHOLD : Z := 3.
(** [fingerprint_matches]: whether enough components agree, and how many. *)
Definition fingerprint_matches (bound : list (string * json)) (current : list (string * string)) : bool * Z :=
  let matched := Z.of_nat (length (List.filter (fun kv =>
    match dict_get kv.1 current with Some s => same_text kv.2 s | None => false end) bound)) in
  let required := Z.min MATCH_THRESHOLD (Z.of_nat (length bound)) in
  match bound with
  | [] => (true, 0)
  | _ => ((required <=? matched) && (0 <? required), matched)
  end.

(** Past the expiry and the days of grace. *)
Definition past_grace (e now : datetime) (grace_days : Z) : bool :=
  fltb (fadd (unix_time e) (float_of_Z (grace_days * 86400))) (unix_time now).

(** [verify]. *)
Definition verify (d : Document) (public_key : string) (check_machine : bool) (grace_days : Z) (now : datetime)
    (current_fingerprint : list (string * string)) : res License :=
  let* parsed := parse d in
  let '(l, signature, signed) := parsed in
  let* _ := guard (verifies public_key signature signed) LicenseInvalid in
  let* from := issued l in
  let* limit := add_hours now 24 in
  let* _ := guard (negb (limit <? from)) LicenseInvalid in
  let* e := expiry l in
  let* _ := match e with Some e => guard (negb (past_grace e now grace_days)) LicenseExpired | None => Ok tt end in
  let* _ := guard (negb check_machine || bool_decide (li_machine l = []) || (fingerprint_matches (li_machine l) current_fingerprint).1)
              LicenseMachineMismatch in
  Ok l.

(** ** Renewing *)

(** The months of the renewal, or its days. *)
Definition renewal_term (term_months : option Z) (previous : License) (from e : datetime) : Z + Z :=
  match term_months with
  | Some m => inl m
  | None => if li_term_months previous =? 0 then inr (Z.max 1 (fround (fdiv (total_seconds (e - from)) DAY_SEC)))
            else inl (li_term_months previous)
  end.

(** What the caller of [renew] may change. *)
Record Changes := mkChanges {
  ch_term_months : option Z;
  ch_machine : option (list (string * json));
  ch_tier : option string;
  ch_capabilities : option (list (string * json));
  ch_notes : option string;
  ch_late_renewal_grace_days : Z
}.

(** The order of a renewal. *)
Definition renewal_order (c : Changes) (previous : License) (from e current : datetime) : Order :=
  let lapsed := fdiv (total_seconds (current - e)) DAY_SEC in
  let starts_at := if at_most lapsed (ch_late_renewal_grace_days c) then e else current in
  let machine := default (li_machine previous) (ch_machine c) in
  let term := renewal_term (ch_term_months c) previous from e in
  mkOrder (li_issued_to previous)
    (match ch_tier c with Some t => if blank t then li_tier previous else t | None => li_tier previous end)
    (match term with inl m => Some (Some m) | inr _ => None end)
    (match term with inl _ => None | inr days => Some (Some days) end)
    machine (default (li_capabilities previous) (ch_capabilities c))
    (match ch_notes c with Some n => JStr n | None => li_notes previous end)
    (li_activation_url previous) (li_activation_interval_hours previous) (bool_decide (machine = [])) false
    (if truthy (li_subscription_id previous) then li_subscription_id previous else JStr (li_licence_id previous))
    (li_term_index previous + 1)
    (match term with inl _ => or_int (li_anchor_day previous) (dt_day e) | inr _ => 0 end)
    (Some starts_at).

(** [renew]. *)
Definition renew (d : Document) (private_key public_key fresh_id : string) (c : Changes) (current : datetime) : res Document :=
  let* previous := verify d public_key false (10 ^ 6) current [] in
  match li_expires_at previous with
  | None => Raise LicenseInvalid
  | Some _ =>
      let* e := expiry previous in
      let* from := issued previous in
      match e with
      | None => Raise OtherError
      | Some e => issue private_key fresh_id (renewal_order c previous from e current) current
      end
  end.
End Licence.
