(* ===== verification/LicenceGuard.v ===== *)
(** [sentinel/licensing/clock_guard.py]: the record of the times an installation has
    seen.  It is a file the licensee can change at any moment.  The keyed digest of
    the record is the class [Mac]: it takes what the key is derived from (the machine
    map of the licence and the vendor's key) and the body it serialises. *)

From Stdlib Require Import ZArith Lia SpecFloat Ascii String.
From stdpp Require Import base strings list.
From S2P Require Import Prelude Calendar PyFloat PyText StateExn PyDict PyJson IsoTime Licence.

Local Open Scope Z_scope.
Local Open Scope py_scope.

Definition CLOCK_SLACK_SEC : Z := 6 * 3600.
Definition EXPIRED_KEPT : Z := 200.

(** What a key is derived from, and the digest of a body under it. *)
Record KeyMaterial := mkKey { km_bound : list (string * json); km_public_key : string }.
Class Mac := {
  tag : KeyMaterial -> json -> string;
  text_of : json -> string          (* [str] of a value that is not text *)
}.

(** ** The record *)

Record GuardState := mkGuardState {
  gs_high_water_ns : Z;
  gs_first_seen_ns : Z;
  gs_checks : Z;
  gs_expired_licences : list string;
  gs_last_licence_id : string;
  gs_version : Z
}.
Definition no_record : GuardState := mkGuardState 0 0 0 [] "" 1.

(** [list(dict.fromkeys(l))]. *)
Fixpoint distinct (l : list string) : list string :=
  match l with [] => [] | x :: rest => x :: List.filter (fun y => negb (bool_decide (y = x))) (distinct rest) end.

(** [GuardState.to_dict]. *)
Definition state_json (s : GuardState) : json :=
  JObj [("version", JInt (gs_version s)); ("high_water_ns", JInt (gs_high_water_ns s)); ("first_seen_ns", JInt (gs_first_seen_ns s));
        ("checks", JInt (gs_checks s)); ("expired_licences", JList (map JStr (distinct (gs_expired_licences s))));
        ("last_licence_id", JStr (gs_last_licence_id s))].

Record GuardReport := mkGuardReport {
  gr_ok : bool;
  gr_rolled_back : bool;
  gr_rollback_seconds : spec_float;
  gr_previously_expired : bool;
  gr_state_missing : bool;
  gr_state_unreadable : bool;
  gr_state_unwritable : bool;
  gr_checks : Z;
  gr_first_seen_ns : Z
}.
Definition degraded (r : GuardReport) : bool := gr_state_missing r || gr_state_unreadable r || gr_state_unwritable r.

Section Guard.
Context {VD : Vendor} {MC : Mac}.

Definition is_ascii (s : string) : bool := forallb (fun c => Nat.ltb (nat_of_ascii c) 128) (list_ascii_of_string s).
(** [hmac.compare_digest(a, b)] of texts: it refuses characters beyond ASCII. *)
Definition compare_digest (a b : string) : res bool :=
  if is_ascii a && is_ascii b then Ok (bool_decide (a = b)) else Raise TypeError.
Definition str_of (j : json) : string := match j with JStr s => s | _ => text_of j end.

(** The identities of a record; those of a body that authenticates are texts. *)
Fixpoint texts_of (l : list json) : res (list string) :=
  match l with
  | [] => Ok []
  | JStr s :: rest => let* ss := texts_of rest in Ok (s :: ss)
  | _ => Raise TypeError
  end.
Definition identities_of (j : json) : res (list string) :=
  if negb (truthy j) then Ok [] else match j with JList l => texts_of l | _ => Raise TypeError end.

Definition read_state (body : json) : res GuardState :=
  let int key d := let* j := json_get body key (JInt d) in int_of_json vendor_int j in
  let* high := int "high_water_ns" 0 in
  let* first := int "first_seen_ns" 0 in
  let* checks := int "checks" 0 in
  let* listed := json_get body "expired_licences" (JList []) in
  let* expired := identities_of listed in
  let* last := json_get body "last_licence_id" (JStr "") in
  let* version := int "version" 1 in
  Ok (mkGuardState high first checks expired (str_of last) version).

(** [_read]: the state, and whether the record is missing or unreadable. *)
Definition read_record (key : KeyMaterial) (f : file) : res (GuardState * bool * bool) :=
  match f with
  | Absent => Ok (no_record, true, false)
  | Json (JObj fields) =>
      match dict_get "state" fields, dict_get "tag" fields with
      | Some body, Some t =>
          let* same := compare_digest (tag key body) (str_of t) in
          if negb same then Ok (no_record, false, true)
          else let* s := read_state body in Ok (s, false, false)
      | _, _ => Ok (no_record, false, true)
      end
  | _ => Ok (no_record, false, true)
  end.

(** What [_write] leaves in the file. *)
Definition record_file (key : KeyMaterial) (s : GuardState) : file :=
  Json (JObj [("state", state_json s); ("tag", JStr (tag key (state_json s)))]).

(** [(high - now) / 1e9]. *)
Definition rollback_of (high now : Z) : spec_float :=
  if high =? 0 then float_of_Z 0 else fdiv (float_of_Z (high - now)) (float_of_Z 1000000000).

(** [expired[-200:]] after the identity is added. *)
Definition note_expired (id : string) (expired : bool) (l : list string) : list string :=
  if expired && negb (blank id) then
    let l := if bool_decide (id ∈ l) then l else l ++ [id] in
    drop (length l - Z.to_nat EXPIRED_KEPT) l
  else l.

(** The state after this moment. *)
Definition advance (s : GuardState) (now_ns : Z) (id : string) (expired : bool) : GuardState :=
  mkGuardState (Z.max (gs_high_water_ns s) now_ns) (or_int (gs_first_seen_ns s) now_ns) (gs_checks s + 1)
    (note_expired id expired (gs_expired_licences s)) (if blank id then gs_last_licence_id s else id) (gs_version s).

(** [ClockGuard.evaluate]; [writes] is whether the record can be written. *)
Definition guard_evaluate (slack_sec : Z) (key : KeyMaterial) (writes : bool) (now_ns : Z) (licence_id : string) (licence_expired : bool)
    : @M file GuardReport :=
  let! f := gets id in
  let! read := lift (read_record key f) in
  let '(s, missing, unreadable) := read in
  let rollback := rollback_of (gs_high_water_ns s) now_ns in
  let rolled_back := fltb (float_of_Z slack_sec) rollback in
  let previously := negb (blank licence_id) && bool_decide (licence_id ∈ gs_expired_licences s) in
  let s' := advance s now_ns licence_id licence_expired in
  modify (fun f => if writes then record_file key s' else f) ;!
  ret (mkGuardReport (negb rolled_back && negb previously) rolled_back (if rolled_back then rollback else float_of_Z 0)
         previously missing unreadable (negb writes) (gs_checks s') (gs_first_seen_ns s')).
End Guard.
