(* ===== verification/LicenceLease.v ===== *)
(** [sentinel/licensing/activation.py], the client: the signed lease a licence with an
    activation address must hold.  A lease keeps the moments of its texts.  Signing a
    lease is the vendor's server's; the transport is what it answers. *)

From Stdlib Require Import ZArith Lia SpecFloat Ascii String.
From stdpp Require Import base strings list.
From S2P Require Import Prelude Calendar PyFloat PyText StateExn PyDict PyJson IsoTime Licence LicenceGuard.

Local Open Scope Z_scope.
Local Open Scope py_scope.

Definition LEASE_FORMAT : Z := 1.
Definition MINUTE : Z := 60 * SECOND_US.
Definition SERVER_SLACK : Z := 10 * MINUTE.
Definition ROLLBACK_TOLERANCE : Z := 6 * HOUR_US.
Definition RETRY_AFTER : Z := 5 * MINUTE.
Definition MAX_HOURS : Z := 24 * 999999999.

Record Lease := mkLease {
  le_licence_id : json;
  le_device : json;
  le_nonce : json;
  le_status : json;
  le_issued : datetime;
  le_expiry : datetime;
  le_server_clock : datetime;
  le_message : json
}.

(** Why a lease does not grant anything. *)
Inductive Refusal := NoLease | ServerAhead | Withdrawn (status message : json) | CheckFailed | NoRefusal.
Record LeaseStatus := mkLeaseStatus {
  ls_required : bool;
  ls_ok : bool;
  ls_refusal : Refusal;
  ls_lease : option Lease;
  ls_refreshed : bool;
  ls_network_error : bool;
  ls_rolled_back : bool
}.

(** The state of the client: the cached document and the last attempt. *)
Record Client := mkClient { cl_cache : file; cl_last_attempt : option datetime }.
Definition set_cache (f : file) (c : Client) : Client := mkClient f (cl_last_attempt c).
Definition set_attempt (t : datetime) (c : Client) : Client := mkClient (cl_cache c) (Some t).

(** What a round trip finds: the nonce that is drawn, the answer, and whether the
    cache can be written. *)
Record Exchange := mkExchange { ex_nonce : string; ex_answer : res json; ex_cache_writes : bool }.

Class Device := device_digest : list (string * string) -> string.

Section Lease.
Context {OT : OtherTexts} {VD : Vendor} {MC : Mac} {DV : Device}.

Definition add_us (t : datetime) (us : Z) : res datetime := if datetime_ok (t + us) then Ok (t + us) else Raise OverflowError.
(** [except Exception: raise LeaseError]. *)
Definition malformed {A} (r : res A) : res A := match r with Ok a => Ok a | Raise _ => Raise LeaseError end.
Definition time_of (j : json) : res datetime := match j with JStr s => parse_ts s | _ => Raise AttributeError end.

(** The lease of the known fields, with the moments of its texts. *)
Definition lease_of (payload : json) : res Lease :=
  let* licence_id := json_item payload "licence_id" in
  let* device := json_item payload "device" in
  let* nonce := json_item payload "nonce" in
  let* status := json_item payload "status" in
  let* issued_at := json_item payload "issued_at" in
  let* expires_at := json_item payload "expires_at" in
  let* server_time := json_item payload "server_time" in
  let* message := json_get payload "message" (JStr "") in
  let* e := time_of expires_at in
  let* i := time_of issued_at in
  let* s := time_of server_time in
  Ok (mkLease licence_id device nonce status i e s message).

(** [verify_lease]. *)
Definition verify_lease (document : json) (public_key licence_id device : string) (nonce : option string) (current : datetime) : res Lease :=
  match document with
  | JObj fields =>
      let* _ := guard (same_text (any_field fields "algorithm" JNull) "Ed25519") LeaseError in
      match dict_get "payload" fields with
      | Some (JObj body) =>
          let payload := JObj body in
          let signature := JStr (str_of (any_field fields "signature" (JStr ""))) in
          let* _ := guard (decodes signature) LeaseError in
          let* _ := guard (verifies public_key signature payload) LeaseError in
          let* fmt := malformed (int_of_json vendor_int (any_field body "format" (JInt 0))) in
          let* _ := guard (fmt <=? LEASE_FORMAT) LeaseError in
          let* lease := malformed (lease_of payload) in
          let* _ := guard (same_text (le_licence_id lease) licence_id) LeaseError in
          let* _ := guard (same_text (le_device lease) device) LeaseError in
          let* fits := match nonce with Some n => compare_digest (str_of (le_nonce lease)) n | None => Ok true end in
          let* _ := guard fits LeaseError in
          let* limit := add_us current SERVER_SLACK in
          let* _ := guard (negb ((limit <? le_issued lease) || (limit <? le_server_clock lease))) LeaseError in
          let* _ := guard (current <? le_expiry lease) LeaseError in
          Ok lease
      | _ => Raise LeaseError
      end
  | _ => Raise LeaseError
  end.

(** [_read_cached]. *)
Definition read_cached (f : file) : option json := match f with Json JNull => None | Json j => Some j | _ => None end.

(** The lease in the cache, if it still verifies. *)
Definition cached_lease (public_key licence_id device : string) (current : datetime) (f : file) : res (option Lease) :=
  match read_cached f with
  | Some document =>
      match verify_lease document public_key licence_id device None current with
      | Ok lease => Ok (Some lease) | Raise LeaseError => Ok None | Raise e => Raise e
      end
  | None => Ok None
  end.

Definition due_for_refresh (cached : option Lease) (current : datetime) (interval_hours : Z) : bool :=
  match cached with Some l => interval_hours * HOUR_US <=? current - le_issued l | None => true end.
Definition throttled (cached : option Lease) (last_attempt : option datetime) (current : datetime) : bool :=
  match last_attempt, cached with Some t, Some _ => current - t <? RETRY_AFTER | _, _ => false end.

(** One attempt: the fresh lease, once it is verified and written to the cache. *)
Definition refresh (public_key licence_id device : string) (x : Exchange) (current : datetime) : @M Client Lease :=
  let! answer := lift (ex_answer x) in
  let! fresh := lift (verify_lease answer public_key licence_id device (Some (ex_nonce x)) current) in
  if ex_cache_writes x then modify (set_cache (Json answer)) ;! ret fresh else throw OSError.

(** What a lease, once there is one, allows. *)
Definition judge_lease (cached : option Lease) (refreshed network_error : bool) (current : datetime) : res LeaseStatus :=
  match cached with
  | None => Ok (mkLeaseStatus true false NoLease None refreshed network_error false)
  | Some l =>
      let* late := add_us current ROLLBACK_TOLERANCE in
      Ok (if late <? le_server_clock l then mkLeaseStatus true false ServerAhead (Some l) refreshed network_error true
          else if negb (same_text (le_status l) "active")
          then mkLeaseStatus true false (Withdrawn (le_status l) (le_message l)) (Some l) refreshed network_error false
          else mkLeaseStatus true true NoRefusal (Some l) refreshed network_error false)
  end.

(** [ActivationClient.status]. *)
Definition lease_status (public_key : string) (l : License) (fingerprint : list (string * string)) (x : Exchange) (current : datetime)
    : @M Client LeaseStatus :=
  if negb (truthy (li_activation_url l)) || (li_activation_interval_hours l <=? 0)
  then ret (mkLeaseStatus false true NoRefusal None false false false)
  else
    let device := device_digest fingerprint in
    let interval := li_activation_interval_hours l in
    lift (guard (interval <=? MAX_HOURS) OverflowError) ;!
    let! cache := gets cl_cache in
    let! cached := lift (cached_lease public_key (li_licence_id l) device current cache) in
    let! last := gets cl_last_attempt in
    if due_for_refresh cached current interval && negb (throttled cached last current) then
      modify (set_attempt current) ;!
      let! fresh := attempt (refresh public_key (li_licence_id l) device x current) in
      match fresh with
      | Ok lease => lift (judge_lease (Some lease) true false current)
      | Raise _ => lift (judge_lease cached false true current)
      end
    else lift (judge_lease cached false false current).
End Lease.
