(* ===== verification/LicenceGate.v ===== *)
(** [sentinel/licensing/enforcement.py], [integrity.py] and the use of the gate in
    [bootstrap.py]: whether live trading is licensed.

    The state of the gate is its files (the timing record and the lease, which the
    licensee may change between two checks), the key of the record, and the verdict it
    reuses.  The rest of the outside is what a check finds: [Outside].  The sentences
    shown to the operator are left out; which warnings are given is kept. *)

From Stdlib Require Import ZArith Lia SpecFloat Ascii String.
From stdpp Require Import base strings list.
From S2P Require Import Prelude Calendar PyFloat PyText StateExn PyDict PyJson Agent IsoTime Licence LicenceGuard LicenceLease.

Local Open Scope Z_scope.
Local Open Scope py_scope.

(** ** The manifest *)

Record IntegrityReport := mkIntegrity {
  ig_ok : bool;
  ig_checked : Z;
  ig_missing : list string;
  ig_modified : list string;
  ig_unsigned : bool;
  ig_error : bool
}.
Definition integrity_error : IntegrityReport := mkIntegrity false 0 [] [] false true.

(** The manifest file as reading finds it. *)
Inductive Manifest := NoManifest | ManifestUnreadable | ManifestText (f : file).

Section Integrity.
Context {VD : Vendor}.

(** One protected file: its recorded digest against the one it has. *)
Definition check_file (hash : string -> option string) (entry : string * json) (r : IntegrityReport) : IntegrityReport :=
  match hash entry.1 with
  | None => mkIntegrity (ig_ok r) (ig_checked r) (ig_missing r ++ [entry.1]) (ig_modified r) false false
  | Some h => mkIntegrity (ig_ok r) (ig_checked r + 1) (ig_missing r)
                (if same_text entry.2 h then ig_modified r else ig_modified r ++ [entry.1]) false false
  end.
(** [verify_manifest]; [hash] is the digest of an installed file, [None] when it is missing. *)
Definition verify_manifest (hash : string -> option string) (text : file) (public_key : string) : res IntegrityReport :=
  match text with
  | Json (JObj document) =>
      match dict_get "payload" document, dict_get "signature" document with
      | Some payload, Some signature =>
          if negb (decodes signature) || negb (verifies public_key signature payload) then Ok integrity_error
          else
            let* files := json_get payload "files" (JObj []) in
            match files with
            | JObj entries =>
                let items := map (fun k => (k, any_field entries k JNull)) (sorted_strings (map fst entries)) in
                let r := fold_left (fun r e => check_file hash e r) items (mkIntegrity true 0 [] [] false false) in
                Ok (mkIntegrity (bool_decide (ig_missing r = []) && bool_decide (ig_modified r = [])) (ig_checked r) (ig_missing r) (ig_modified r) false false)
            | _ => Raise AttributeError
            end
      | _, _ => Ok integrity_error
      end
  | _ => Ok integrity_error
  end.
End Integrity.

(** ** The verdict *)

Inductive Warning := NotEnforced | InGrace | ExpiresSoon | Tampered | NoMemory | NotActivated | ServerUnreachable.

Record LicenseStatus := mkLicenseStatus {
  st_valid : bool;
  st_licence : option License;
  st_integrity : option IntegrityReport;
  st_warnings : list Warning;
  st_in_grace : bool;
  st_days_remaining : option spec_float;
  st_unlicensed_mode : bool;
  st_clock : option GuardReport;
  st_activation : option LeaseStatus;
  st_stage : Stage
}.
Definition refused (clock : option GuardReport) (stage : Stage) : LicenseStatus :=
  mkLicenseStatus false None None [] false None false clock None stage.

(** ** The gate *)

Inductive LicenceFile := NoFile | FileUnreadable (e : exn) | FileText (d : Document).

(** What does not change while the gate lives. *)
Record GateConfig := mkGateConfig {
  gc_public_key : string;
  gc_lease_public_key : string;
  gc_grace_days : Z;
  gc_fingerprint : option (list (string * string));
  gc_guard : bool;
  gc_slack_sec : Z;
  gc_require_manifest : bool;
  gc_recheck_ns : Z
}.

Record GateState := mkGateState {
  gt_timing : file;
  gt_client : Client;
  gt_bound : list (string * json);
  gt_status : option LicenseStatus;
  gt_checked_ns : Z
}.

(** What a check finds outside. *)
Record Outside := mkOutside {
  ou_now : datetime;
  ou_monotonic : Z;
  ou_monotonic_after : Z;
  ou_licence : LicenceFile;
  ou_timing_writes : bool;
  ou_exchange : Exchange;
  ou_fingerprint : list (string * string);
  ou_manifest : Manifest;
  ou_hash : string -> option string
}.

Abbreviation GM := (@M GateState).

Definition set_timing (f : file) (s : GateState) : GateState := mkGateState f (gt_client s) (gt_bound s) (gt_status s) (gt_checked_ns s).
Definition set_client (c : Client) (s : GateState) : GateState := mkGateState (gt_timing s) c (gt_bound s) (gt_status s) (gt_checked_ns s).
Definition set_bound (b : list (string * json)) (s : GateState) : GateState := mkGateState (gt_timing s) (gt_client s) b (gt_status s) (gt_checked_ns s).
Definition set_status (v : LicenseStatus) (t : Z) (s : GateState) : GateState := mkGateState (gt_timing s) (gt_client s) (gt_bound s) (Some v) t.

(** A computation on a part of the state. *)
Definition on_timing {A} (c : @M file A) : GM A := fun s => let (f, r) := c (gt_timing s) in (set_timing f s, r).
Definition on_client {A} (c : @M Client A) : GM A := fun s => let (f, r) := c (gt_client s) in (set_client f s, r).

(** A gate of a new process, over the files that are there. *)
Definition new_gate (cfg : GateConfig) (timing lease : file) : GateState :=
  mkGateState timing (mkClient lease None) (map (fun kv => (kv.1, JStr kv.2)) (default [] (gc_fingerprint cfg))) None 0.

Section Gate.
Context {OT : OtherTexts} {VD : Vendor} {MC : Mac} {DV : Device}.
Context (cfg : GateConfig).

(** [int(now.timestamp() * 1e9)]. *)
Definition now_ns_of (now : datetime) : res Z :=
  match modf (fmul (unix_time now) (float_of_Z 1000000000)) with Some (i, _) => Ok i | None => Raise OverflowError end.

(** [_run_guard]: a guard that fails gives no report. *)
Definition run_guard (o : Outside) (licence_id : string) (expired : bool) : GM (option GuardReport) :=
  if negb (gc_guard cfg) then ret None
  else
    let! bound := gets gt_bound in
    let! r := attempt (let! now_ns := lift (now_ns_of (ou_now o)) in
                       on_timing (guard_evaluate (gc_slack_sec cfg) (mkKey bound (gc_public_key cfg)) (ou_timing_writes o) now_ns licence_id expired)) in
    ret (match r with Ok report => Some report | Raise _ => None end).

(** [_check_integrity]. *)
Definition check_integrity (o : Outside) : res IntegrityReport :=
  match ou_manifest o with
  | NoManifest => Ok (if gc_require_manifest cfg then integrity_error else mkIntegrity true 0 [] [] true false)
  | ManifestUnreadable => Ok integrity_error
  | ManifestText f => verify_manifest (ou_hash o) f (gc_public_key cfg)
  end.

Definition own_fingerprint (o : Outside) : list (string * string) := default (ou_fingerprint o) (gc_fingerprint cfg).
Definition lease_fingerprint (o : Outside) : list (string * string) :=
  match gc_fingerprint cfg with Some (c :: rest) => c :: rest | _ => ou_fingerprint o end.

(** [_activation_status]: a client that fails is a missing lease. *)
Definition activation_status (o : Outside) (l : License) : GM LeaseStatus :=
  let! r := attempt (on_client (lease_status (gc_lease_public_key cfg) l (lease_fingerprint o) (ou_exchange o) (ou_now o))) in
  ret (match r with
       | Ok s => s
       | Raise _ => let required := truthy (li_activation_url l) && negb (li_activation_interval_hours l =? 0) in
                    mkLeaseStatus required (negb required) CheckFailed None false false false
       end).

(** What is read of a licence before its signature is checked: its identity and
    whether it is past its grace; the record is keyed on its machine map. *)
Definition peek (o : Outside) (d : Document) : GM (string * bool) :=
  match parse d with
  | Ok (l, _, _) =>
      let! e := lift (expiry l) in
      modify (set_bound (li_machine l)) ;!
      ret (li_licence_id l, match e with Some e => past_grace e (ou_now o) (gc_grace_days cfg) | None => false end)
  | Raise LicenseInvalid => ret ("", false)
  | Raise e => throw e
  end.

(** The verdict on a licence that verified. *)
Definition judge (l : License) (remaining : option spec_float) (integrity : IntegrityReport) (clock : option GuardReport) (activation : LeaseStatus)
    : LicenseStatus :=
  let in_grace := match remaining with Some r => fltb r (float_of_Z 0) | None => false end in
  let renewal := match remaining with Some r => if in_grace then [InGrace] else if at_most r 30 then [ExpiresSoon] else [] | None => [] end in
  let tampered := if negb (ig_ok integrity) && negb (ig_unsigned integrity) then [Tampered] else [] in
  let clock_ok := match clock with Some r => gr_ok r | None => true end in
  let memory := match clock with Some r => if degraded r && gr_ok r then [NoMemory] else [] | None => [] end in
  let stage := match clock with
               | Some r => if gr_ok r then renewal_stage remaining else if gr_rolled_back r then ClockMoved else Lapsed
               | None => renewal_stage remaining
               end in
  let missing := ls_required activation && negb (ls_ok activation) in
  let withdrawn := missing && match ls_lease activation with Some lease => negb (same_text (le_status lease) "active") | None => false end in
  let online := if missing then (if withdrawn then [] else [NotActivated])
                else if ls_network_error activation && ls_ok activation then [ServerUnreachable] else [] in
  mkLicenseStatus (clock_ok && negb withdrawn) (Some l) (Some integrity) (renewal ++ tampered ++ memory ++ online) in_grace remaining false clock
    (Some activation) (if withdrawn then Revoked else stage).

(** [_evaluate]. *)
Definition evaluate_licence (o : Outside) : GM LicenseStatus :=
  if blank (gc_public_key cfg) then ret (mkLicenseStatus true None None [NotEnforced] false None true None None NoStage)
  else match ou_licence o with
  | NoFile => let! clock := run_guard o "" false in ret (refused clock NoStage)
  | FileUnreadable e => throw e
  | FileText d =>
      let! peeked := peek o d in
      match verify d (gc_public_key cfg) true (gc_grace_days cfg) (ou_now o) (own_fingerprint o) with
      | Raise LicenseExpired => let! clock := run_guard o peeked.1 true in ret (refused clock Lapsed)
      | Raise LicenseMachineMismatch | Raise LicenseInvalid =>
          let! clock := run_guard o peeked.1 peeked.2 in ret (refused clock NoStage)
      | Raise e => throw e
      | Ok l =>
          let! remaining := lift (days_remaining l (ou_now o)) in
          let! integrity := lift (check_integrity o) in
          let! clock := run_guard o (li_licence_id l) false in
          let! activation := activation_status o l in
          ret (judge l remaining integrity clock activation)
      end
  end.

(** [check], for no given instant. *)
Definition check (o : Outside) (force : bool) : GM LicenseStatus :=
  let! last := gets gt_status in
  let! at_ := gets gt_checked_ns in
  let fresh := ou_monotonic o - at_ <? gc_recheck_ns cfg in
  match last with
  | Some v => if fresh && negb force then ret v
              else let! v := evaluate_licence o in modify (set_status v (ou_monotonic_after o)) ;! ret v
  | None => let! v := evaluate_licence o in modify (set_status v (ou_monotonic_after o)) ;! ret v
  end.

(** ** The questions *)

Inductive NoTrade := NotValid (s : Stage) | TierWithoutLive | NeedsActivation | FilesModified.

(** Why a verdict does not allow live trading. *)
Definition live_refusal (v : LicenseStatus) : res (option NoTrade) :=
  if st_unlicensed_mode v then Ok None
  else if negb (st_valid v) then Ok (Some (NotValid (st_stage v)))
  else match st_licence v with
  | None => Raise OtherError
  | Some l =>
      if negb (truthy (capability l "live_trading" (JBool false))) then Ok (Some TierWithoutLive)
      else if match st_activation v with Some a => ls_required a && negb (ls_ok a) | None => false end then Ok (Some NeedsActivation)
      else if match st_integrity v with Some i => negb (ig_ok i) && negb (ig_unsigned i) | None => false end then Ok (Some FilesModified)
      else Ok None
  end.
(** [may_trade_live]. *)
Definition may_trade_live (o : Outside) : GM (option NoTrade) :=
  let! v := check o false in lift (live_refusal v).

(** [may_use]. *)
Definition may_use (o : Outside) (name : string) : GM bool :=
  let! v := check o false in
  lift (if st_unlicensed_mode v then Ok true
        else if negb (st_valid v) then Ok false
        else match st_licence v with None => Raise OtherError | Some l => Ok (truthy (capability l name (JBool false))) end).

(** [check_limits], as the start calls it: whether the instruments exceed the licence. *)
Definition check_limits (o : Outside) (instruments : Z) : GM bool :=
  let! v := check o false in
  lift (match st_licence v with
        | Some l =>
            if st_unlicensed_mode v || negb (st_valid v) then Ok false
            else match capability l "max_instruments" JNull with
                 | JNull => Ok false
                 | j => let* most := int_of_json vendor_int j in Ok (most <? instruments)
                 end
        | None => Ok false
        end).

(** The mode the agent starts in: without a licence for live trading it advises. *)
Definition licensed_mode (o : Outside) (live_venue : bool) (mode : AgentMode) : GM AgentMode :=
  let! v := check o false in
  if live_venue then
    let! refusal := may_trade_live o in
    ret (match refusal with None => mode | Some _ => ADVISORY end)
  else ret mode.
End Gate.
