(* ===== verification/LicenceProps.v ===== *)
(** What a licence to trade live rests on, what the record of times remembers, and
    behaviours of the gate that it does not intend. *)

From Stdlib Require Import ZArith Lia SpecFloat Ascii String.
From stdpp Require Import base strings list.
From S2P Require Import Prelude Calendar PyFloat PyText StateExn PyDict PyJson FloatTheory IsoTime Licence LicenceGuard LicenceLease LicenceGate.

Local Open Scope Z_scope.
Local Open Scope py_scope.

(** * What the record of times remembers from one check to the next. *)

(** ** Lists of identities *)

Lemma distinct_elem x l : x ∈ distinct l <-> x ∈ l.
Proof.
  induction l as [|y l IH]; cbn [distinct]; [reflexivity|]. rewrite !elem_of_cons, list_elem_of_In, filter_In, <- list_elem_of_In, IH.
  destruct (decide (x = y)) as [->|Hne]; [tauto|]. rewrite bool_decide_false by exact Hne. cbn. tauto.
Qed.

Lemma filter_length {A} (f : A -> bool) l : (length (List.filter f l) <= length l)%nat.
Proof. induction l as [|x l IH]; cbn; [lia|]. destruct (f x); cbn; lia. Qed.
Lemma distinct_length l : (length (distinct l) <= length l)%nat.
Proof.
  induction l as [|y l IH]; cbn [distinct length]; [lia|]. pose proof (filter_length (fun z => negb (bool_decide (z = y))) (distinct l)). lia.
Qed.

(** An identity is kept while the list has room. *)
Lemma note_expired_elem id (expired : bool) l x : x ∈ l -> (length l + (if expired then 1 else 0) <= 200)%nat -> x ∈ note_expired id expired l.
Proof.
  intros Hx Hl. unfold note_expired. destruct (expired && _) eqn:E; [|exact Hx]. apply andb_prop in E as [-> _].
  change (Z.to_nat EXPIRED_KEPT) with 200%nat. case_bool_decide.
  - replace (length l - 200)%nat with 0%nat by lia. exact Hx.
  - rewrite length_app. cbn [length]. replace (length l + 1 - 200)%nat with 0%nat by lia. apply elem_of_app. now left.
Qed.
Lemma note_expired_length id (expired : bool) l : (length (note_expired id expired l) <= length l + (if expired then 1 else 0))%nat.
Proof.
  unfold note_expired. destruct (expired && _) eqn:E; [|lia]. apply andb_prop in E as [-> _]. rewrite length_drop.
  case_bool_decide; [|rewrite length_app; cbn [length]]; lia.
Qed.
Lemma note_expired_self id l : id <> "" -> (length l < 200)%nat -> id ∈ note_expired id true l.
Proof.
  intros Hid Hl. unfold note_expired, blank. rewrite (bool_decide_false (id = "")) by exact Hid. cbn [negb andb].
  change (Z.to_nat EXPIRED_KEPT) with 200%nat. case_bool_decide as Hin.
  - now replace (length l - 200)%nat with 0%nat by lia.
  - rewrite length_app. cbn [length]. replace (length l + 1 - 200)%nat with 0%nat by lia. apply elem_of_app. right. now left.
Qed.

(** ** What is written is read back *)

Section Memory.
Context {VD : Vendor} {MC : Mac}.
(** The digest is in hexadecimal. *)
Context (tag_ascii : forall key body, is_ascii (tag key body) = true).

Definition holds (key : KeyMaterial) (f : file) (s : GuardState) : Prop := read_record key f = Ok (s, false, false).

Lemma texts_of_texts l : texts_of (map JStr l) = Ok l.
Proof. induction l as [|s l IH]; cbn [map texts_of]; [reflexivity|]. now rewrite IH. Qed.

Definition written (s : GuardState) : GuardState :=
  mkGuardState (gs_high_water_ns s) (gs_first_seen_ns s) (gs_checks s) (distinct (gs_expired_licences s)) (gs_last_licence_id s) (gs_version s).
Lemma holds_written key s : holds key (record_file key s) (written s).
Proof.
  unfold holds, record_file, read_record. change (dict_get "state" _) with (Some (state_json s)).
  change (dict_get "tag" _) with (Some (JStr (tag key (state_json s)))). cbv beta iota. cbn [str_of].
  unfold compare_digest. rewrite !tag_ascii. cbn [andb rbind]. rewrite bool_decide_true by reflexivity. cbn [negb].
  change (read_state (state_json s)) with (let* expired := identities_of (JList (map JStr (distinct (gs_expired_licences s)))) in
    Ok (mkGuardState (gs_high_water_ns s) (gs_first_seen_ns s) (gs_checks s) expired (gs_last_licence_id s) (gs_version s))).
  unfold identities_of. destruct (map JStr _) as [|j l] eqn:E; cbn [truthy negb].
  - apply map_eq_nil in E. unfold written. now rewrite E.
  - rewrite <- E, texts_of_texts. reflexivity.
Qed.

(** ** Sequences of checks under one key *)

Record Moment := mkMoment { mo_now_ns : Z; mo_licence_id : string; mo_expired : bool; mo_writes : bool }.
Context (slack_sec : Z) (key : KeyMaterial).

Definition at_moment (m : Moment) (f : file) : file * res GuardReport :=
  guard_evaluate slack_sec key (mo_writes m) (mo_now_ns m) (mo_licence_id m) (mo_expired m) f.
Definition moments (ms : list Moment) (f : file) : file := fold_left (fun f m => (at_moment m f).1) ms f.
Definition expiries (ms : list Moment) : nat := length (List.filter mo_expired ms).

(** One check of a record that authenticates: its report, and the record it leaves. *)
Lemma at_moment_holds m f s : holds key f s ->
  (at_moment m f).2 = Ok (let s' := advance s (mo_now_ns m) (mo_licence_id m) (mo_expired m) in
    let rollback := rollback_of (gs_high_water_ns s) (mo_now_ns m) in
    let rolled_back := fltb (float_of_Z slack_sec) rollback in
    let previously := negb (blank (mo_licence_id m)) && bool_decide (mo_licence_id m ∈ gs_expired_licences s) in
    mkGuardReport (negb rolled_back && negb previously) rolled_back (if rolled_back then rollback else float_of_Z 0) previously false false
      (negb (mo_writes m)) (gs_checks s') (gs_first_seen_ns s')) /\
  holds key (at_moment m f).1 (if mo_writes m then written (advance s (mo_now_ns m) (mo_licence_id m) (mo_expired m)) else s).
Proof.
  intros H. unfold at_moment, guard_evaluate, mbind_, gets, lift, id. rewrite H. cbn [modify ret fst snd]. split; [reflexivity|].
  destruct (mo_writes m); [apply holds_written|exact H].
Qed.

(** What of a record and of the moments after it is in the record they leave. *)
Definition remembered (s : GuardState) (ms : list Moment) (s' : GuardState) : Prop :=
  let room := (length (gs_expired_licences s) + expiries ms <= 200)%nat in
  gs_high_water_ns s <= gs_high_water_ns s' /\ (forall m, m ∈ ms -> mo_writes m = true -> mo_now_ns m <= gs_high_water_ns s') /\
  (forall bound, gs_high_water_ns s <= bound -> (forall m, m ∈ ms -> mo_now_ns m <= bound) -> gs_high_water_ns s' <= bound) /\
  (length (gs_expired_licences s') <= length (gs_expired_licences s) + expiries ms)%nat /\
  (forall x, x ∈ gs_expired_licences s -> room -> x ∈ gs_expired_licences s') /\
  forall m, m ∈ ms -> mo_writes m = true -> mo_expired m = true -> mo_licence_id m <> "" -> room -> mo_licence_id m ∈ gs_expired_licences s'.

Lemma remembered_one m s : remembered s [m] (if mo_writes m then written (advance s (mo_now_ns m) (mo_licence_id m) (mo_expired m)) else s).
Proof.
  unfold remembered, expiries. cbn [List.filter]. assert (E : length (if mo_expired m then [m] else []) = if mo_expired m then 1%nat else 0%nat) by now destruct (mo_expired m).
  rewrite E. cbv zeta. destruct (mo_writes m) eqn:Ew; cbn [written advance gs_high_water_ns gs_expired_licences]; split_and!; try lia.
  - intros m' ->%list_elem_of_singleton _. lia.
  - intros bound Hs Hm. specialize (Hm m ltac:(left)). lia.
  - etransitivity; [apply distinct_length|apply note_expired_length].
  - intros x Hx Hl. apply distinct_elem, note_expired_elem; assumption.
  - intros m' ->%list_elem_of_singleton _ He Hid Hl. rewrite He in *. apply distinct_elem, note_expired_self; [exact Hid|lia].
  - intros m' ->%list_elem_of_singleton Hw. congruence.
  - auto.
  - intros m' ->%list_elem_of_singleton Hw. congruence.
Qed.

Lemma remembered_trans s ms s1 ms' s2 : remembered s ms s1 -> remembered s1 ms' s2 -> remembered s (ms ++ ms') s2.
Proof.
  unfold remembered, expiries. rewrite List.filter_app, length_app. intros (A1 & A2 & A3 & A4 & A5 & A6) (B1 & B2 & B3 & B4 & B5 & B6). cbv zeta in *.
  split_and!; try lia.
  - intros m [Hm|Hm]%elem_of_app Hw; [specialize (A2 m Hm Hw); lia|exact (B2 m Hm Hw)].
  - intros bound Hs Hm. apply B3; [apply A3; [exact Hs|]|]; intros m Hin; apply Hm, elem_of_app; auto.
  - intros x Hx Hl. apply B5; [apply A5; [exact Hx|]|]; lia.
  - intros m [Hm|Hm]%elem_of_app Hw He Hid Hl; [apply B5; [apply A6; auto|]; lia|apply B6; auto; lia].
Qed.

Lemma moments_remember ms : forall f s, holds key f s -> exists s', holds key (moments ms f) s' /\ remembered s ms s'.
Proof.
  induction ms as [|m ms IH]; intros f s H.
  - exists s. split; [exact H|]. unfold remembered, expiries. cbv zeta. split_and!; auto; try lia; try (intros m Hm; now apply not_elem_of_nil in Hm).
  - destruct (at_moment_holds m f s H) as [_ H1]. destruct (IH _ _ H1) as (s' & H' & R). exists s'. split; [exact H'|].
    exact (remembered_trans s [m] _ ms s' (remembered_one m s) R).
Qed.
End Memory.

(** * The permission and the gate *)

(** ** What a permission rests on *)

Section Permission.
Context {OT : OtherTexts} {VD : Vendor} {MC : Mac} {DV : Device}.
Context (cfg : GateConfig).

(** A lease that is held at a moment: verified, of this licence on this machine,
    unexpired, active, and no server clock far ahead. *)
Definition holds_lease (l : License) (o : Outside) : Prop :=
  exists document nonce lease,
    verify_lease document (gc_lease_public_key cfg) (li_licence_id l) (device_digest (lease_fingerprint cfg o)) nonce (ou_now o) = Ok lease /\
    same_text (le_status lease) "active" = true /\ le_server_clock lease <= ou_now o + ROLLBACK_TOLERANCE.

(** What the record of times says against a licence at a moment. *)
Definition record_objects (key : KeyMaterial) (f : file) (now_ns : Z) (id : string) : bool :=
  match read_record key f with
  | Ok (s, _, _) => fltb (float_of_Z (gc_slack_sec cfg)) (rollback_of (gs_high_water_ns s) now_ns)
                    || (negb (blank id) && bool_decide (id ∈ gs_expired_licences s))
  | Raise _ => false
  end.

(** Everything a permission needs, as one check found it. *)
Definition licensed (signed : json -> Prop) (o : Outside) (timing : file) : Prop :=
  exists d l signature p from,
    ou_licence o = FileText d /\ parse d = Ok (l, signature, p) /\ signed p /\
    issued l = Ok from /\ from <= ou_now o + 24 * HOUR_US /\
    (exists e, expiry l = Ok e /\ match e with Some e => past_grace e (ou_now o) (gc_grace_days cfg) = false | None => True end) /\
    (li_machine l = [] \/ (fingerprint_matches (li_machine l) (own_fingerprint cfg o)).1 = true) /\
    truthy (capability l "live_trading" (JBool false)) = true /\
    (truthy (li_activation_url l) = true -> 0 < li_activation_interval_hours l -> holds_lease l o) /\
    (exists i, check_integrity cfg o = Ok i /\ (ig_ok i = true \/ ig_unsigned i = true)) /\
    (gc_guard cfg = true -> forall now_ns, now_ns_of (ou_now o) = Ok now_ns ->
       record_objects (mkKey (li_machine l) (gc_public_key cfg)) timing now_ns (li_licence_id l) = false).

Lemma guard_ok ok e a : guard ok e = Ok a -> ok = true.
Proof. unfold guard. now destruct ok. Qed.

Lemma verify_facts d pk grace now fp l : verify d pk true grace now fp = Ok l ->
  exists signature p from, parse d = Ok (l, signature, p) /\ verifies pk signature p = true /\ issued l = Ok from /\ from <= now + 24 * HOUR_US /\
    (exists e, expiry l = Ok e /\ match e with Some e => past_grace e now grace = false | None => True end) /\
    (li_machine l = [] \/ (fingerprint_matches (li_machine l) fp).1 = true).
Proof.
  unfold verify. destruct (parse d) as [[[l' signature] p]|] eqn:Ep; [|discriminate]. cbn [rbind]. intros H. inv_res. subst l'.
  repeat match goal with E : guard _ _ = Ok _ |- _ => apply guard_ok in E end.
  exists signature, p, a0. unfold add_hours in E1. destruct (datetime_ok _); [|discriminate]. injection E1 as <-.
  split_and!; try reflexivity; try assumption.
  - apply negb_true_iff, Z.ltb_ge in E2. lia.
  - eexists. split; [eassumption|]. destruct a3; [|exact I]. now apply guard_ok, negb_true_iff in E4.
  - rewrite !orb_true_iff, bool_decide_eq_true in E5. destruct E5 as [[E5|E5]|E5]; [discriminate|now left|now right].
Qed.

Lemma judge_lease_ok cached refreshed err now st : judge_lease cached refreshed err now = Ok st -> ls_ok st = true ->
  exists lease, cached = Some lease /\ same_text (le_status lease) "active" = true /\ le_server_clock lease <= now + ROLLBACK_TOLERANCE.
Proof.
  unfold judge_lease. destruct cached as [lease|]; [|intros [= <-]; discriminate]. unfold add_us. destruct (datetime_ok _); [|discriminate].
  cbn [rbind]. intros [= <-]. destruct (_ <? _) eqn:El; [discriminate|]. destruct (same_text _ _) eqn:Ea; [|discriminate].
  intros _. exists lease. apply Z.ltb_ge in El. auto.
Qed.

Lemma cached_lease_some pk id device now f lease : cached_lease pk id device now f = Ok (Some lease) ->
  exists document, verify_lease document pk id device None now = Ok lease.
Proof.
  unfold cached_lease. destruct (read_cached f) as [document|]; [|discriminate].
  destruct (verify_lease document pk id device None now) as [x|[]] eqn:E; try discriminate. intros [= <-]. eauto.
Qed.

(** A status that is asked for judges a lease that verified, if any. *)
Lemma lease_status_outcome l o x c c' st : lease_status (gc_lease_public_key cfg) l (lease_fingerprint cfg o) x (ou_now o) c = (c', Ok st) ->
  truthy (li_activation_url l) = true -> 0 < li_activation_interval_hours l ->
  exists cached refreshed err, judge_lease cached refreshed err (ou_now o) = Ok st /\
    forall lease, cached = Some lease -> exists document nonce,
      verify_lease document (gc_lease_public_key cfg) (li_licence_id l) (device_digest (lease_fingerprint cfg o)) nonce (ou_now o) = Ok lease.
Proof.
  intros H Hu Hi. unfold lease_status in H. rewrite Hu, (proj2 (Z.leb_gt _ _)) in H by exact Hi. cbn [negb orb] in H.
  apply mbind_Ok in H as (s1 & [] & _ & H). apply mbind_Ok in H as (s2 & cache & _ & H). apply mbind_Ok in H as (s3 & cached & Ec & H).
  apply mbind_Ok in H as (s4 & last & _ & H). apply lift_Ok in Ec as [_ Ec].
  assert (old : forall r e, judge_lease cached r e (ou_now o) = Ok st -> exists cd r e, judge_lease cd r e (ou_now o) = Ok st /\
    forall lease, cd = Some lease -> exists document nonce,
      verify_lease document (gc_lease_public_key cfg) (li_licence_id l) (device_digest (lease_fingerprint cfg o)) nonce (ou_now o) = Ok lease).
  { intros r e Hj. exists cached, r, e. split; [exact Hj|]. intros lease ->. apply cached_lease_some in Ec as (document & Ev). eauto. }
  destruct (_ && _); [|apply lift_Ok in H as [_ H]; exact (old _ _ H)].
  apply mbind_Ok in H as (s5 & [] & _ & H). apply mbind_Ok in H as (s6 & fresh & Ef & H). apply attempt_Ok in Ef.
  destruct fresh as [lease|err]; apply lift_Ok in H as [_ H]; [|exact (old _ _ H)].
  apply mbind_Ok in Ef as (s8 & answer & _ & Ef). apply mbind_Ok in Ef as (s9 & fresh & Ev & Ef). apply lift_Ok in Ev as [_ Ev].
  exists (Some lease), true, false. split; [exact H|]. intros ? [= <-]. exists answer, (Some (ex_nonce x)).
  destruct (ex_cache_writes x); [|discriminate Ef]. apply mbind_Ok in Ef as (? & ? & _ & Ef). injection Ef as _ <-. exact Ev.
Qed.

Lemma judge_lease_required cached refreshed err now st : judge_lease cached refreshed err now = Ok st -> ls_required st = true.
Proof.
  unfold judge_lease. destruct cached as [lease|]; [|now intros [= <-]]. destruct (add_us _ _); [|discriminate]. cbn [rbind].
  intros [= <-]. destruct (_ <? _); [reflexivity|]. now destruct (negb _).
Qed.

Lemma activation_ok o l s s' a : activation_status cfg o l s = (s', Ok a) -> ls_required a && negb (ls_ok a) = false ->
  truthy (li_activation_url l) = true -> 0 < li_activation_interval_hours l -> holds_lease l o.
Proof.
  unfold activation_status. intros H Hok Hu Hi. apply mbind_Ok in H as (s1 & r & Er & H). injection H as _ <-. apply attempt_Ok in Er.
  unfold on_client in Er. destruct (lease_status _ _ _ _ _ _) as [c r'] eqn:El. injection Er as _ <-. destruct r' as [a|e].
  - destruct (lease_status_outcome _ _ _ _ _ _ El Hu Hi) as (cached & rf & err & Hj & Hv). rewrite (judge_lease_required _ _ _ _ _ Hj) in Hok.
    destruct (judge_lease_ok _ _ _ _ _ Hj) as (lease & -> & Ha & Hs); [now apply negb_false_iff in Hok|].
    destruct (Hv lease eq_refl) as (document & nonce & Ev). now exists document, nonce, lease.
  - cbn in Hok. rewrite Hu, (proj2 (Z.eqb_neq _ _)) in Hok by lia. discriminate.
Qed.

(** The guard either fails or reports what the record says. *)
Lemma run_guard_report o lid expired s s' clock : run_guard cfg o lid expired s = (s', Ok clock) -> gc_guard cfg = true ->
  match clock with Some r => gr_ok r = true | None => True end ->
  forall now_ns, now_ns_of (ou_now o) = Ok now_ns ->
    record_objects (mkKey (gt_bound s) (gc_public_key cfg)) (gt_timing s) now_ns lid = false.
Proof.
  unfold run_guard. intros H Hg Hok now_ns En. rewrite Hg in H. cbn [negb] in H.
  apply mbind_Ok in H as (s1 & bound & Eb & H). injection Eb as <- <-. apply mbind_Ok in H as (s2 & r & Er & H). apply attempt_Ok in Er.
  injection H as _ <-. rewrite En in Er. unfold mbind_ at 1, lift, on_timing in Er. unfold guard_evaluate in Er.
  unfold mbind_, gets, lift in Er. unfold record_objects. unfold id in Er.
  destruct (read_record (mkKey (gt_bound s) (gc_public_key cfg)) (gt_timing s)) as [[[st missing] unreadable]|e]; [|reflexivity].
  cbn [modify ret] in Er. injection Er as _ <-. cbn [gr_ok] in Hok. now rewrite andb_true_iff, !negb_true_iff, <- orb_false_iff in Hok.
Qed.

Lemma expiry_of_parsed d l signature p : parse d = Ok (l, signature, p) -> exists e, expiry l = Ok e.
Proof.
  unfold parse. destruct d as [| |[]]; try discriminate. intros H. inv_res. destruct (dict_get "payload" fields) as [[]|]; try discriminate. inv_res.
  subst. unfold license_of in *. inv_res. subst. unfold invalid in *. destruct (expiry _); [eauto|discriminate].
Qed.

(** A verdict that allows live trading is on a licence that was in order. *)
Lemma evaluation_licensed (signed : json -> Prop) o s s' v :
  (forall signature p, verifies (gc_public_key cfg) signature p = true -> signed p) -> blank (gc_public_key cfg) = false ->
  evaluate_licence cfg o s = (s', Ok v) -> live_refusal v = Ok None -> licensed signed o (gt_timing s).
Proof.
  intros Hs Hk H Hv. unfold evaluate_licence in H. rewrite Hk in H. destruct (ou_licence o) as [|e|d] eqn:Eo.
  - apply mbind_Ok in H as (? & ? & _ & H). injection H as _ <-. discriminate Hv.
  - discriminate H.
  - apply mbind_Ok in H as (s1 & peeked & Ep & H). destruct (verify d _ _ _ _ _) as [l|e] eqn:Ev.
    2:{ destruct e; try discriminate H; apply mbind_Ok in H as (? & ? & _ & H); injection H as _ <-; discriminate Hv. }
    destruct (verify_facts _ _ _ _ _ _ Ev) as (signature & p & from & Ed & Hsig & Hi & Hf & He & Hm).
    apply mbind_Ok in H as (s2 & remaining & Er & H). apply mbind_Ok in H as (s3 & integrity & Ei & H).
    apply mbind_Ok in H as (s4 & clock & Ec & H). apply mbind_Ok in H as (s5 & activation & Ea & H). injection H as _ <-.
    apply lift_Ok in Er as [-> Er]. apply lift_Ok in Ei as [-> Ei].
    assert (B : gt_bound s1 = li_machine l /\ gt_timing s1 = gt_timing s).
    { unfold peek in Ep. rewrite Ed in Ep. apply mbind_Ok in Ep as (? & ? & Ee & Ep). apply lift_Ok in Ee as [-> _].
      apply mbind_Ok in Ep as (? & [] & Eb & Ep). injection Eb as <-. injection Ep as <- _. now destruct s. }
    destruct B as [B1 B2]. unfold live_refusal in Hv. cbn in Hv.
    destruct (negb (_ && _)) eqn:Eok in Hv; [discriminate|]. apply negb_false_iff, andb_prop in Eok as [Eclock _].
    destruct (negb (truthy _)) eqn:Ecap in Hv; [discriminate|]. destruct (ls_required activation && _) eqn:Eact in Hv; [discriminate|].
    destruct (negb (ig_ok integrity) && _) eqn:Eint in Hv; [discriminate|].
    exists d, l, signature, p, from. split_and!; try assumption; try reflexivity.
    + exact (Hs _ _ Hsig).
    + now apply negb_false_iff in Ecap.
    + intros Hu Hpos. exact (activation_ok _ _ _ _ _ Ea Eact Hu Hpos).
    + exists integrity. split; [exact Ei|]. destruct (ig_ok integrity), (ig_unsigned integrity); auto; discriminate.
    + intros Hg. rewrite <- B1, <- B2. apply (run_guard_report _ _ _ _ _ _ Ec Hg). destruct clock; [exact Eclock|exact I].
Qed.

(** ** Sequences of checks *)

(** What can happen to a gate: a question, or the licensee changes its files. *)
Inductive GateEvent :=
| AskCheck (o : Outside) (force : bool)
| AskLive (o : Outside)
| AskUse (o : Outside) (name : string)
| AskLimits (o : Outside) (instruments : Z)
| ReplaceTiming (f : file)
| ReplaceLease (f : file).

Definition gate_step (e : GateEvent) (s : GateState) : GateState :=
  match e with
  | AskCheck o force => (check cfg o force s).1
  | AskLive o => (may_trade_live cfg o s).1
  | AskUse o name => (may_use cfg o name s).1
  | AskLimits o n => (check_limits cfg o n s).1
  | ReplaceTiming f => set_timing f s
  | ReplaceLease f => set_client (set_cache f (gt_client s)) s
  end.
Definition gate_run (es : list GateEvent) (s : GateState) : GateState := fold_left (fun s e => gate_step e s) es s.

(** The moment an event asks at. *)
Definition asked_at (e : GateEvent) : option Outside :=
  match e with
  | AskCheck o _ | AskLive o | AskUse o _ | AskLimits o _ => Some o
  | ReplaceTiming _ | ReplaceLease _ => None
  end.

(** Event [e] of [es] asked at [o], when the gate was in state [t]. *)
Definition asked_in (s0 : GateState) (es : list GateEvent) (o : Outside) (t : GateState) : Prop :=
  exists before e after, es = before ++ e :: after /\ asked_at e = Some o /\ t = gate_run before s0.

(** The verdict that is reused is what an evaluation of the run found, in the state
    the gate was in then. *)
Definition verdict_found (s0 : GateState) (es : list GateEvent) (s : GateState) : Prop :=
  forall v, gt_status s = Some v -> exists o t t', asked_in s0 es o t /\
    evaluate_licence cfg o t = (t', Ok v) /\ gt_checked_ns s = ou_monotonic_after o.

(** Evaluating leaves the verdict and its time alone. *)
Definition same_verdict (s s' : GateState) : Prop := gt_status s' = gt_status s /\ gt_checked_ns s' = gt_checked_ns s.
#[local] Instance same_verdict_preorder : PreOrder same_verdict.
Proof. split; [intros s; now split|]. intros a b c [E1 E2] [E3 E4]. split; congruence. Qed.

Lemma Steps_on_timing {A} (c : M file A) : Steps same_verdict (on_timing c).
Proof. intros s. unfold on_timing. destruct (c (gt_timing s)). now split. Qed.
Lemma Steps_on_client {A} (c : M Client A) : Steps same_verdict (on_client c).
Proof. intros s. unfold on_client. destruct (c (gt_client s)). now split. Qed.

Lemma Steps_guard o lid expired : Steps same_verdict (run_guard cfg o lid expired).
Proof.
  unfold run_guard. destruct (negb _); [apply Steps_ret, _|]. steps. apply Steps_on_timing.
Qed.

Lemma Steps_peek o d : Steps same_verdict (peek cfg o d).
Proof.
  unfold peek. destruct (parse d) as [[[l signature] p]|[]]; try (apply Steps_throw, _); try (apply Steps_ret, _).
  steps. apply Steps_modify. now split.
Qed.
Lemma Steps_activation o l : Steps same_verdict (activation_status cfg o l).
Proof. unfold activation_status. steps. apply Steps_on_client. Qed.

Lemma Steps_evaluate o : Steps same_verdict (evaluate_licence cfg o).
Proof.
  unfold evaluate_licence. destruct (blank _); [apply Steps_ret, _|]. destruct (ou_licence o) as [|e|d].
  - steps. apply Steps_guard.
  - apply Steps_throw, _.
  - apply Steps_bind; [apply _|apply Steps_peek|]. intros peeked.
    destruct (verify _ _ _ _ _ _) as [l|[]]; try (apply Steps_throw, _); steps; try apply Steps_guard. apply Steps_activation.
Qed.

Lemma check_reuses o force s :
  (gt_status (check cfg o force s).1 = gt_status s /\ gt_checked_ns (check cfg o force s).1 = gt_checked_ns s /\
   forall v, (check cfg o force s).2 = Ok v -> gt_status s = Some v /\ ou_monotonic o - gt_checked_ns s < gc_recheck_ns cfg) \/
  exists t' r, evaluate_licence cfg o s = (t', r) /\ (check cfg o force s).2 = r /\
    match r with
    | Ok v => gt_status (check cfg o force s).1 = Some v /\ gt_checked_ns (check cfg o force s).1 = ou_monotonic_after o
    | Raise _ => gt_status (check cfg o force s).1 = gt_status s /\ gt_checked_ns (check cfg o force s).1 = gt_checked_ns s
    end.
Proof.
  set (ask := let! v := evaluate_licence cfg o in modify (set_status v (ou_monotonic_after o)) ;! ret v).
  assert (E : check cfg o force s = match gt_status s with
    | Some v => if (ou_monotonic o - gt_checked_ns s <? gc_recheck_ns cfg) && negb force then (s, Ok v) else ask s
    | None => ask s
    end) by (unfold check, gets; unfold mbind_ at 1 2; destruct (gt_status s); [now destruct (_ && _)|reflexivity]).
  assert (run : exists t' r, evaluate_licence cfg o s = (t', r) /\ (ask s).2 = r /\
    match r with
    | Ok v => gt_status (ask s).1 = Some v /\ gt_checked_ns (ask s).1 = ou_monotonic_after o
    | Raise _ => gt_status (ask s).1 = gt_status s /\ gt_checked_ns (ask s).1 = gt_checked_ns s
    end).
  { pose proof (Steps_evaluate o s) as S. unfold ask, mbind_. destruct (evaluate_licence cfg o s) as [t [v|e]];
      (eexists _, _; split; [reflexivity|]; split; [reflexivity|]); [now split|exact S]. }
  rewrite E. destruct (gt_status s) as [v|] eqn:Ev; [|right; exact run]. destruct (_ && _) eqn:Ef; [left|right; exact run].
  apply andb_prop in Ef as [Ef _]. apply Z.ltb_lt in Ef. split; [exact Ev|]. split; [reflexivity|]. intros v' [= <-]. auto.
Qed.

Lemma check_found s0 es e o force :
  verdict_found s0 es (gate_run es s0) -> asked_at e = Some o ->
  verdict_found s0 (es ++ [e]) (check cfg o force (gate_run es s0)).1.
Proof.
  intros F Ha v Hv. assert (later : forall o' t, asked_in s0 es o' t -> asked_in s0 (es ++ [e]) o' t).
  { intros o' t (b & x & a & -> & R). exists b, x, (a ++ [e]). split; [now rewrite <- app_assoc|exact R]. }
  assert (old : gt_status (check cfg o force (gate_run es s0)).1 = gt_status (gate_run es s0) ->
    gt_checked_ns (check cfg o force (gate_run es s0)).1 = gt_checked_ns (gate_run es s0) ->
    exists o' t t', asked_in s0 (es ++ [e]) o' t /\ evaluate_licence cfg o' t = (t', Ok v) /\
      gt_checked_ns (check cfg o force (gate_run es s0)).1 = ou_monotonic_after o').
  { intros E1 E2. rewrite E1 in Hv. rewrite E2. destruct (F v Hv) as (o' & t & t' & R & E). exists o', t, t'. auto. }
  destruct (check_reuses o force (gate_run es s0)) as [(E1 & E2 & _)|(t' & r & Ee & _ & R)]; [now apply old|].
  destruct r as [v'|e']; [|now apply old]. destruct R as [R1 R2]. exists o, (gate_run es s0), t'. split.
  - exists es, e, []. auto.
  - split; [congruence|exact R2].
Qed.

Lemma gate_run_found s0 es : gt_status s0 = None -> verdict_found s0 es (gate_run es s0).
Proof.
  intros H0. induction es as [|e es IH] using rev_ind; [intros v; cbn; congruence|].
  assert (asked : forall (A : Type) (c : LicenseStatus -> M GateState A) o, (forall v, Steps same_verdict (c v)) -> asked_at e = Some o ->
    verdict_found s0 (es ++ [e]) ((let! v := check cfg o false in c v) (gate_run es s0)).1).
  { intros A c o Hc Ha. pose proof (check_found s0 es e o false IH Ha) as F. unfold mbind_.
    destruct (check cfg o false (gate_run es s0)) as [t [v|x]]; [|exact F]. destruct (Hc v t) as [E1 E2].
    intros v' Hv. rewrite E1 in Hv. rewrite E2. exact (F v' Hv). }
  replace (gate_run (es ++ [e]) s0) with (gate_step e (gate_run es s0)) by (unfold gate_run; now rewrite fold_left_app).
  assert (kept : forall s, gt_status s = gt_status (gate_run es s0) -> gt_checked_ns s = gt_checked_ns (gate_run es s0) ->
    verdict_found s0 (es ++ [e]) s).
  { intros s E1 E2 v Hv. rewrite E1 in Hv. rewrite E2. destruct (IH v Hv) as (o & t & t' & (b & x & a & -> & R) & E). exists o, t, t'.
    split; [|exact E]. exists b, x, (a ++ [e]). split; [now rewrite <- app_assoc|exact R]. }
  destruct e; cbn [gate_step]; [now apply check_found| | | |now apply kept|now apply kept];
    apply asked; try reflexivity; intros v; apply Steps_lift, _.
Qed.

(** C21: Where a vendor's key is configured, whatever was asked before and whatever
    became of the files, live trading is allowed only on a check that found a licence
    signed by the vendor, in force or in its days of grace, for this machine (or
    bound to none) and for live trading, with a lease if it needs one, files that
    match the manifest (or no signed manifest), and, if the guard is on, nothing
    against it in the record of times that was on disk when the check was made.  The
    check is the one made now, or one of the run that ended less than the recheck
    interval ago. *)
Theorem live_trading_is_licensed (signed : json -> Prop) timing lease es o s' :
  (forall signature p, verifies (gc_public_key cfg) signature p = true -> signed p) -> blank (gc_public_key cfg) = false ->
  let s0 := new_gate cfg timing lease in
  may_trade_live cfg o (gate_run es s0) = (s', Ok None) ->
  licensed signed o (gt_timing (gate_run es s0)) \/
  exists o' t, asked_in s0 es o' t /\ licensed signed o' (gt_timing t) /\
    ou_monotonic o - ou_monotonic_after o' < gc_recheck_ns cfg.
Proof.
  intros Hs Hk s0 H. apply mbind_Ok in H as (s1 & v & Ec & Hv). apply lift_Ok in Hv as [_ Hv].
  destruct (check_reuses o false (gate_run es s0)) as [(_ & _ & R)|(t' & r & Ee & Er & _)]; rewrite Ec in *.
  - right. destruct (R v eq_refl) as [Es Hr]. destruct (gate_run_found s0 es eq_refl v Es) as (o' & t & t' & Ha & Ee & Et).
    exists o', t. split; [exact Ha|]. split; [exact (evaluation_licensed signed o' t t' v Hs Hk Ee Hv)|lia].
  - left. cbn in Er. subst r. exact (evaluation_licensed signed o _ t' v Hs Hk Ee Hv).
Qed.

(** ** The clock *)

(** A verdict on a licence runs the guard under the key of its machine map. *)
Lemma evaluation_guard o d l signature p s s' v : blank (gc_public_key cfg) = false -> ou_licence o = FileText d ->
  parse d = Ok (l, signature, p) -> evaluate_licence cfg o s = (s', Ok v) -> st_valid v = true ->
  exists s1 s2 clock, gt_bound s1 = li_machine l /\ gt_timing s1 = gt_timing s /\
    run_guard cfg o (li_licence_id l) false s1 = (s2, Ok clock) /\ match clock with Some r => gr_ok r = true | None => True end.
Proof.
  intros Hk Eo Ed H Hv. unfold evaluate_licence in H. rewrite Hk, Eo in H. apply mbind_Ok in H as (s1 & peeked & Ep & H).
  assert (B : gt_bound s1 = li_machine l /\ gt_timing s1 = gt_timing s).
  { unfold peek in Ep. rewrite Ed in Ep. apply mbind_Ok in Ep as (? & ? & Ee & Ep). apply lift_Ok in Ee as [-> _].
    apply mbind_Ok in Ep as (? & [] & Eb & Ep). injection Eb as <-. injection Ep as <- _. now destruct s. }
  destruct B as [B1 B2]. destruct (verify d _ _ _ _ _) as [l'|e] eqn:Ev.
  2:{ destruct e; try discriminate H; apply mbind_Ok in H as (? & ? & _ & H); injection H as _ <-; discriminate Hv. }
  destruct (verify_facts _ _ _ _ _ _ Ev) as (sg & p' & from & Ed' & _). rewrite Ed in Ed'. injection Ed' as <- _ _.
  apply mbind_Ok in H as (s2 & remaining & Er & H). apply mbind_Ok in H as (s3 & integrity & Ei & H).
  apply mbind_Ok in H as (s4 & clock & Ec & H). apply mbind_Ok in H as (s5 & activation & _ & H). injection H as _ <-.
  apply lift_Ok in Er as [-> _]. apply lift_Ok in Ei as [-> _]. exists s1, s4, clock. split_and!; try assumption.
  cbn in Hv. apply andb_prop in Hv as [Hv _]. destruct clock; [exact Hv|exact I].
Qed.

(** C22: With the guard on, while the record of times is the one that checks under one
    key left: a licence whose expiry they recorded, or that was in the record, is not
    valid, if at most two hundred licences expired; and no licence is valid on a clock
    that is behind a moment they recorded by more than the slack and a second.  The
    key is made of the machine map of the licence: a check without a licence file, or
    of a licence for other machines, and a tag that is not ASCII, leave the record
    without effect ([missing_licence_erases_history], [foreign_tag_silences_guard]). *)
Theorem clock_cannot_be_wound_back timing st0 ms o d l signature p now_ns s s' v :
  (forall key body, is_ascii (tag key body) = true) -> blank (gc_public_key cfg) = false -> gc_guard cfg = true -> 0 < gc_slack_sec cfg < 2 ^ 40 ->
  let key := mkKey (li_machine l) (gc_public_key cfg) in
  holds key timing st0 -> gt_timing s = moments (gc_slack_sec cfg) key ms timing ->
  ou_licence o = FileText d -> parse d = Ok (l, signature, p) -> now_ns_of (ou_now o) = Ok now_ns -> 0 <= now_ns ->
  gs_high_water_ns st0 < 2 ^ 64 -> (forall m, m ∈ ms -> mo_now_ns m < 2 ^ 64) ->
  (li_licence_id l <> "" /\ (length (gs_expired_licences st0) + expiries ms <= 200)%nat /\
     (li_licence_id l ∈ gs_expired_licences st0 \/
      exists m, m ∈ ms /\ mo_writes m = true /\ mo_expired m = true /\ mo_licence_id m = li_licence_id l)) \/
  (exists m, m ∈ ms /\ mo_writes m = true /\ now_ns + (gc_slack_sec cfg + 1) * BILLION <= mo_now_ns m) ->
  evaluate_licence cfg o s = (s', Ok v) -> st_valid v = false.
Proof.
  intros Htag Hk Hg Hslack key Hh Ht Eo Ed En Hn Hb0 Hb Hcase H. destruct (st_valid v) eqn:Hv; [|reflexivity]. exfalso.
  destruct (evaluation_guard o d l signature p s s' v Hk Eo Ed H Hv) as (s1 & s2 & clock & B1 & B2 & Er & Hok).
  pose proof (run_guard_report _ _ _ _ _ _ Er Hg Hok now_ns En) as R. rewrite B1, B2, Ht in R. fold key in R.
  destruct (moments_remember Htag (gc_slack_sec cfg) key ms timing st0 Hh) as (s3 & H3 & _ & R2 & R3 & _ & R5 & R6).
  unfold record_objects in R. unfold holds in H3. rewrite H3 in R. apply orb_false_elim in R as [Rc Rx].
  destruct Hcase as [(Hid & Hroom & Hin)|(m & Hm & Hw & Hback)].
  - unfold blank in Rx. rewrite (bool_decide_false (li_licence_id l = "")) in Rx by exact Hid. cbn [negb andb] in Rx. apply bool_decide_eq_false in Rx. apply Rx.
    destruct Hin as [Hin|(m & Hm & Hw & He & E)]; [exact (R5 _ Hin Hroom)|]. rewrite <- E in Hid |- *. exact (R6 m Hm Hw He Hid Hroom).
  - specialize (R2 m Hm Hw). assert (Hhigh : gs_high_water_ns s3 <= 2 ^ 64) by (apply R3; [lia|]; intros m' Hm'; specialize (Hb m' Hm'); lia).
    unfold rollback_of in Rc. rewrite (proj2 (Z.eqb_neq _ _)) in Rc by (unfold BILLION in Hback; lia). change 1000000000 with BILLION in Rc.
    rewrite seconds_above in Rc; [discriminate|exact Hslack|lia|].
    transitivity (Z.log2 (2 ^ 64)); [apply Z.log2_le_mono; lia|]. rewrite Z.log2_pow2 by lia. lia.
Qed.

(** ** What the gate does not intend *)

(** A verdict on a licence that verifies, from the parts it is made of. *)
Lemma evaluation_parts o d l s s' v : blank (gc_public_key cfg) = false -> ou_licence o = FileText d ->
  verify d (gc_public_key cfg) true (gc_grace_days cfg) (ou_now o) (own_fingerprint cfg o) = Ok l ->
  evaluate_licence cfg o s = (s', Ok v) ->
  exists s1 s2 remaining integrity clock activation, gt_bound s1 = li_machine l /\ gt_timing s1 = gt_timing s /\
    run_guard cfg o (li_licence_id l) false s1 = (s2, Ok clock) /\ activation_status cfg o l s2 = (s', Ok activation) /\
    v = judge l remaining integrity clock activation.
Proof.
  intros Hk Eo Ev H. destruct (verify_facts _ _ _ _ _ _ Ev) as (signature & p & from & Ed & _).
  unfold evaluate_licence in H. rewrite Hk, Eo in H. apply mbind_Ok in H as (s1 & peeked & Ep & H). rewrite Ev in H.
  assert (B : gt_bound s1 = li_machine l /\ gt_timing s1 = gt_timing s).
  { unfold peek in Ep. rewrite Ed in Ep. apply mbind_Ok in Ep as (? & ? & Ee & Ep). apply lift_Ok in Ee as [-> _].
    apply mbind_Ok in Ep as (? & [] & Eb & Ep). injection Eb as <-. injection Ep as <- _. now destruct s. }
  destruct B as [B1 B2]. apply mbind_Ok in H as (s2 & remaining & Er & H). apply mbind_Ok in H as (s3 & integrity & Ei & H).
  apply mbind_Ok in H as (s4 & clock & Ec & H). apply mbind_Ok in H as (s5 & activation & Ea & H). injection H as <- <-.
  apply lift_Ok in Er as [-> _]. apply lift_Ok in Ei as [-> _]. now exists s1, s4, remaining, integrity, clock, activation.
Qed.

Lemma activation_not_required o l s s' a : truthy (li_activation_url l) = false -> activation_status cfg o l s = (s', Ok a) ->
  a = mkLeaseStatus false true NoRefusal None false false false /\ gt_timing s' = gt_timing s.
Proof.
  intros Hu H. unfold activation_status in H. apply mbind_Ok in H as (s1 & r & Er & H). injection H as <- <-. apply attempt_Ok in Er.
  unfold on_client, lease_status in Er. rewrite Hu in Er. injection Er as <- <-. now destruct s.
Qed.

(** A tag with a character beyond ASCII makes the comparison raise, and the gate
    takes a guard that raises for none: the licence is valid at any clock, whatever
    the record said, without a warning, and the record stays as it is. *)
Theorem foreign_tag_silences_guard o d l fields body t s s' v : blank (gc_public_key cfg) = false -> ou_licence o = FileText d ->
  verify d (gc_public_key cfg) true (gc_grace_days cfg) (ou_now o) (own_fingerprint cfg o) = Ok l -> truthy (li_activation_url l) = false ->
  gt_timing s = Json (JObj fields) -> dict_get "state" fields = Some body -> dict_get "tag" fields = Some (JStr t) -> is_ascii t = false ->
  evaluate_licence cfg o s = (s', Ok v) ->
  st_valid v = true /\ st_clock v = None /\ (NoMemory ∉ st_warnings v) /\ gt_timing s' = gt_timing s.
Proof.
  intros Hk Eo Ev Hu Et Eb Etag Hascii H. destruct (evaluation_parts o d l s s' v Hk Eo Ev H) as (s1 & s2 & r & i & clock & a & B1 & B2 & Ec & Ea & ->).
  destruct (activation_not_required _ _ _ _ _ Hu Ea) as [-> Et2].
  assert (G : clock = None /\ gt_timing s2 = gt_timing s1).
  { unfold run_guard in Ec. destruct (negb (gc_guard cfg)); [injection Ec as <- <-; auto|]. apply mbind_Ok in Ec as (s3 & bound & Eg & Ec). injection Eg as <- _.
    apply mbind_Ok in Ec as (s4 & q & Eq & Ec). apply attempt_Ok in Eq. injection Ec as <- <-. unfold mbind_ at 1, lift in Eq.
    destruct (now_ns_of (ou_now o)); [|injection Eq as <- <-; auto]. unfold on_timing, guard_evaluate, mbind_, gets, lift, id in Eq.
    rewrite B2, Et in Eq. cbn [read_record] in Eq. rewrite Eb, Etag in Eq. cbn [str_of] in Eq. unfold compare_digest in Eq.
    rewrite Hascii, andb_false_r in Eq. cbn [rbind] in Eq. injection Eq as <- <-. split; [reflexivity|]. cbn. congruence. }
  destruct G as [-> G]. cbn -[at_most fltb]. split_and!; try reflexivity; [|congruence].
  rewrite !not_elem_of_app. split_and!; repeat (destruct r as [x|]; [destruct (fltb _ _)|]); repeat case_if E; set_solver.
Qed.

(** In a new process without its licence file the guard has another key: it takes the
    record for a foreign one and starts it again from that moment, so the history is
    gone when the file is back, and the licence is valid at any clock. *)
Theorem missing_licence_erases_history o1 o2 d l st0 m lease n1 s2 v :
  (forall key body, is_ascii (tag key body) = true) ->
  (forall bound b b', bound <> [] -> tag (mkKey [] (gc_public_key cfg)) b <> tag (mkKey bound (gc_public_key cfg)) b') ->
  blank (gc_public_key cfg) = false -> gc_guard cfg = true -> gc_fingerprint cfg = None -> ou_licence o1 = NoFile -> ou_timing_writes o1 = true ->
  now_ns_of (ou_now o1) = Ok n1 -> 0 < gc_slack_sec cfg < 2 ^ 40 ->
  m <> [] -> li_machine l <> [] -> truthy (li_activation_url l) = false -> ou_licence o2 = FileText d ->
  verify d (gc_public_key cfg) true (gc_grace_days cfg) (ou_now o2) (own_fingerprint cfg o2) = Ok l ->
  let s1 := (evaluate_licence cfg o1 (new_gate cfg (record_file (mkKey m (gc_public_key cfg)) st0) lease)).1 in
  evaluate_licence cfg o2 s1 = (s2, Ok v) -> st_valid v = true.
Proof.
  intros Htag Hinj Hk Hg Hfp E1 Hw En1 Hslack Hm Hl Hu Eo Ev s1 H.
  assert (foreign : forall key key' s, (forall b b', tag key b <> tag key' b') -> read_record key (record_file key' s) = Ok (no_record, false, true)).
  { intros key key' s Hne. unfold read_record, record_file. change (dict_get "state" _) with (Some (state_json s)).
    change (dict_get "tag" _) with (Some (JStr (tag key' (state_json s)))). cbv beta iota. cbn [str_of]. unfold compare_digest. rewrite !Htag. cbn [andb rbind].
    rewrite bool_decide_false; [reflexivity|apply Hne]. }
  assert (T1 : exists st, gt_timing s1 = record_file (mkKey [] (gc_public_key cfg)) st).
  { unfold s1, evaluate_licence. rewrite Hk, E1. unfold run_guard. rewrite Hg. cbn [negb]. unfold mbind_ at 1. unfold mbind_ at 1. unfold gets, attempt.
    destruct (now_ns_of (ou_now o1)) as [n|]; [|discriminate]. unfold mbind_ at 2, lift. unfold on_timing, guard_evaluate, mbind_, gets, lift, id.
    assert (B : gt_bound (new_gate cfg (record_file (mkKey m (gc_public_key cfg)) st0) lease) = []) by (cbn; rewrite Hfp; reflexivity). rewrite B.
    change (gt_timing (new_gate cfg ?f lease)) with f. rewrite foreign by (intros; now apply Hinj). cbn [modify ret fst]. rewrite Hw. eexists. reflexivity. }
  destruct T1 as (st & T1). destruct (evaluation_parts o2 d l s1 s2 v Hk Eo Ev H) as (t1 & t2 & r & i & clock & a & B1 & B2 & Ec & Ea & ->).
  destruct (activation_not_required _ _ _ _ _ Hu Ea) as [-> _]. cbn. rewrite andb_true_r. destruct clock as [report|]; [|reflexivity].
  unfold run_guard in Ec. rewrite Hg in Ec. cbn [negb] in Ec. apply mbind_Ok in Ec as (t3 & bound & Eg & Ec). injection Eg as <- <-.
  apply mbind_Ok in Ec as (t4 & q & Eq & Ec). apply attempt_Ok in Eq. injection Ec as <- Ec. destruct q as [report'|]; [injection Ec as ->|discriminate Ec].
  unfold mbind_ at 1, lift in Eq. destruct (now_ns_of (ou_now o2)); [|discriminate]. unfold on_timing, guard_evaluate, mbind_, gets, lift, id in Eq.
  rewrite B1, B2, T1, foreign in Eq by (intros b b' E; now apply (Hinj (li_machine l) b' b Hl)). cbn [modify ret] in Eq. injection Eq as _ <-. cbn [gr_ok no_record gs_high_water_ns gs_expired_licences].
  unfold rollback_of. rewrite Z.eqb_refl, andb_false_r, andb_true_r.
  destruct (float_of_Z_exact (gc_slack_sec cfg)) as (k & e & -> & _); [lia|]. unfold fltb. cbn [mantissa exponent float_of_Z binary_normalize cond_Zopp].
  apply negb_true_iff, Z.ltb_ge. pose proof (Z.pow_nonneg 2 (e - Z.min e 0)). lia.
Qed.

(** When the answer cannot be written to the cache, the verdict of the server is
    dropped with it: a licence it has just withdrawn keeps the lease it had.  With a
    cache that can be written the same answer refuses it. *)
Theorem unwritable_cache_keeps_lease l o c nonce answer old fresh : 
  truthy (li_activation_url l) = true -> 0 < li_activation_interval_hours l <= MAX_HOURS ->
  let device := device_digest (lease_fingerprint cfg o) in
  cached_lease (gc_lease_public_key cfg) (li_licence_id l) device (ou_now o) (cl_cache c) = Ok (Some old) ->
  same_text (le_status old) "active" = true -> le_server_clock old <= ou_now o -> datetime_ok (ou_now o + ROLLBACK_TOLERANCE) = true ->
  li_activation_interval_hours l * HOUR_US <= ou_now o - le_issued old -> cl_last_attempt c = None ->
  verify_lease answer (gc_lease_public_key cfg) (li_licence_id l) device (Some nonce) (ou_now o) = Ok fresh ->
  same_text (le_status fresh) "active" = false ->
  let ask writes := (lease_status (gc_lease_public_key cfg) l (lease_fingerprint cfg o) (mkExchange nonce (Ok answer) writes) (ou_now o) c).2 in
  (exists st, ask false = Ok st /\ ls_ok st = true /\ ls_lease st = Some old) /\ (exists st, ask true = Ok st /\ ls_ok st = false).
Proof.
  intros Hu [Hi Hmax] device Ec Ha Hclock Hok Hdue Hlast Ev Hw ask.
  assert (E : forall writes, ask writes = if writes then judge_lease (Some fresh) true false (ou_now o) else judge_lease (Some old) false true (ou_now o)).
  { intros writes. unfold ask, lease_status. rewrite Hu, (proj2 (Z.leb_gt _ _)) by exact Hi. cbn [negb orb].
    unfold guard. rewrite (proj2 (Z.leb_le _ _)) by exact Hmax. unfold mbind_ at 1, lift at 1. unfold mbind_ at 1, gets at 1.
    unfold mbind_ at 1, lift at 1. fold device. rewrite Ec. unfold mbind_ at 1, gets at 1. unfold due_for_refresh. rewrite (proj2 (Z.leb_le _ _)) by exact Hdue.
    unfold throttled. rewrite Hlast. cbn [negb andb]. unfold mbind_ at 1, modify at 1. unfold mbind_ at 1, attempt, refresh. unfold mbind_ at 1, lift at 1. cbn [ex_answer].
    unfold mbind_ at 1, lift at 1. cbn [ex_nonce]. rewrite Ev. cbn [ex_cache_writes]. destruct writes; reflexivity. }
  rewrite !E. unfold judge_lease, add_us. rewrite Hok. cbn [rbind]. rewrite Ha, Hw. cbn [negb].
  rewrite (proj2 (Z.ltb_ge _ (le_server_clock old))) by (unfold ROLLBACK_TOLERANCE, HOUR_US; lia).
  split; [eexists; split; [reflexivity|now split]|]. destruct (_ <? _); eexists; (split; [reflexivity|reflexivity]).
Qed.
End Permission.

(** ** The theorems on a demo licence *)

Definition demo_buyer (p : json) : bool :=
  match p with JObj fields => same_text (any_field fields "issued_to" JNull) "Buyer" | _ => false end.
#[local] Instance demo_texts : OtherTexts := fun _ => Raise ValueError.
#[local] Instance demo_vendor : Vendor := {
  sign := fun _ _ => Ok "vendor"; verifies := fun _ s p => same_text s "vendor" && demo_buyer p; decodes := fun _ => true; vendor_int := fun _ => None }.
#[local] Instance demo_mac : Mac := { tag := fun k _ => if bool_decide (km_bound k = []) then "a" else "b"; text_of := fun _ => "" }.
#[local] Instance demo_device : Device := fun _ => "device".

Definition demo_day : datetime := (ymd2ord 2026 3 1 - 1) * DAY_US.
Definition demo_machine : list (string * json) := [("machine_id", JStr "a1"); ("cpu", JStr "b2")].
Definition demo_order : Order :=
  mkOrder "Buyer" "live_single" None None demo_machine [] (JStr "") JNull 0 false false JNull 1 0 None.
Definition demo_document : Document := match issue "key" "AAAA-0001" demo_order demo_day with Ok d => d | Raise _ => NoEnvelope end.
Definition demo_license : License :=
  match parse demo_document with Ok (l, _, _) => l | Raise _ => mkLicense "" "" "" None "" [] [] JNull JNull JNull 0 0 0 JNull 0 end.
Definition demo_gate : GateConfig := mkGateConfig "pub" "pub" 14 None true CLOCK_SLACK_SEC false 900000000000.
Definition demo_outside (now : datetime) (f : LicenceFile) : Outside :=
  mkOutside now 0 1 f true (mkExchange "n" (Raise OSError) true) [("machine_id", "a1"); ("cpu", "b2")] NoManifest (fun _ => None).
Definition demo_o : Outside := demo_outside (demo_day + 10 * DAY_US) (FileText demo_document).
Definition demo_key : KeyMaterial := mkKey (li_machine demo_license) (gc_public_key demo_gate).
Definition verdict_at (o : Outside) (s : GateState) : option bool :=
  match (evaluate_licence demo_gate o s).2 with Ok v => Some (st_valid v) | Raise _ => None end.

(** A minute after a check, the same verdict is reused. *)
Definition demo_minute : Outside :=
  mkOutside (demo_day + 10 * DAY_US) 60000000000 60000000001 NoFile true (mkExchange "n" (Raise OSError) true) [] NoManifest (fun _ => None).

Example live_trading_is_licensed_witness : exists o' t,
  asked_in demo_gate (new_gate demo_gate Absent Absent) [AskLive demo_o] o' t /\
  licensed demo_gate (fun p => demo_buyer p = true) o' (gt_timing t).
Proof.
  destruct (live_trading_is_licensed demo_gate (fun p => demo_buyer p = true) Absent Absent [AskLive demo_o] demo_minute
    (may_trade_live demo_gate demo_minute (gate_run demo_gate [AskLive demo_o] (new_gate demo_gate Absent Absent))).1)
    as [H|(o' & t & Ha & H & _)]; [intros s p H; now apply andb_prop in H as [_ H]|reflexivity|vm_compute; reflexivity| |now exists o', t].
  destruct H as (d & l & signature & p & from & E & _). discriminate E.
Defined.

(** Twenty days in, the clock is set back to the tenth. *)
Definition ns_or_zero (r : res Z) : Z := match r with Ok n => n | Raise _ => 0 end.
Definition demo_seen : Moment := mkMoment (ns_or_zero (now_ns_of (demo_day + 20 * DAY_US))) "AAAA-0001" false true.
Definition demo_timing : file := record_file demo_key no_record.
Definition demo_later : GateState := set_timing (moments (gc_slack_sec demo_gate) demo_key [demo_seen] demo_timing) (new_gate demo_gate Absent Absent).

Lemma demo_tags key body : is_ascii (tag key body) = true.
Proof. cbn. now case_bool_decide. Qed.

Example clock_cannot_be_wound_back_witness : verdict_at demo_o demo_later = Some false.
Proof.
  unfold verdict_at. destruct (evaluate_licence demo_gate demo_o demo_later) as [s' [v|e]] eqn:E; [|vm_compute in E; discriminate]. cbn [snd]. f_equal.
  refine (clock_cannot_be_wound_back demo_gate demo_timing (written no_record) [demo_seen] demo_o demo_document demo_license (JStr "vendor") (payload demo_license)
    (ns_or_zero (now_ns_of (demo_day + 10 * DAY_US))) demo_later s' v demo_tags eq_refl eq_refl _ _ _ eq_refl _ _ _ _ _ _ E).
  - split; reflexivity.
  - apply (holds_written demo_tags).
  - unfold demo_later, set_timing, demo_key. cbn [gt_timing]. reflexivity.
  - vm_compute. reflexivity.
  - vm_compute. reflexivity.
  - vm_compute. discriminate.
  - reflexivity.
  - intros m ->%list_elem_of_singleton. vm_compute. reflexivity.
  - right. exists demo_seen. split; [left|]. split; [reflexivity|]. vm_compute. discriminate.
Defined.

(** A tag beyond ASCII on a record that lists the licence. *)
Definition demo_expired : GuardState := mkGuardState 0 0 1 ["AAAA-0001"] "" 1.
Definition demo_foreign : GateState :=
  set_timing (Json (JObj [("state", state_json demo_expired); ("tag", JStr (String (Ascii.ascii_of_nat 233) ""))])) (new_gate demo_gate Absent Absent).

Example foreign_tag_silences_guard_witness : verdict_at demo_o demo_foreign = Some true.
Proof.
  unfold verdict_at. destruct (evaluate_licence demo_gate demo_o demo_foreign) as [s' [v|e]] eqn:E; [|vm_compute in E; discriminate]. cbn [snd]. f_equal.
  refine (proj1 (foreign_tag_silences_guard demo_gate demo_o demo_document demo_license _ (state_json demo_expired) (String (Ascii.ascii_of_nat 233) "")
    demo_foreign s' v eq_refl eq_refl _ eq_refl eq_refl eq_refl eq_refl eq_refl E)). vm_compute. reflexivity.
Defined.

(** The record lists the licence as expired; a check without the file comes between. *)
Definition demo_recorded : GateState := new_gate demo_gate (record_file demo_key demo_expired) Absent.
Definition demo_absent : Outside := demo_outside (demo_day + 5 * DAY_US) NoFile.

Example missing_licence_erases_history_witness : verdict_at demo_o demo_recorded = Some false /\
  verdict_at demo_o (evaluate_licence demo_gate demo_absent demo_recorded).1 = Some true.
Proof.
  split; [vm_compute; reflexivity|]. unfold demo_recorded, demo_key. set (s1 := (evaluate_licence demo_gate demo_absent _).1).
  unfold verdict_at. destruct (evaluate_licence demo_gate demo_o s1) as [s2 [v|e]] eqn:E; [|vm_compute in E; discriminate]. cbn [snd]. f_equal.
  refine (missing_licence_erases_history demo_gate demo_absent demo_o demo_document demo_license demo_expired (li_machine demo_license) Absent
    (ns_or_zero (now_ns_of (demo_day + 5 * DAY_US))) s2 v demo_tags _ eq_refl eq_refl eq_refl eq_refl eq_refl _ _ _ _ eq_refl eq_refl _ E).
  - clear. intros bound b b' Hb. cbn. rewrite (bool_decide_false (bound = [])) by exact Hb. discriminate.
  - vm_compute. reflexivity.
  - split; reflexivity.
  - vm_compute. discriminate.
  - vm_compute. discriminate.
  - vm_compute. reflexivity.
Defined.

(** A licence that must be activated, its lease of two days ago, and the answer that
    withdraws it. *)
Definition demo_online : License :=
  mkLicense "AAAA-0001" "Buyer" "2026-03-01T00:00:00Z" None "live_single" [] [] JNull (JInt 2) (JStr "https://vendor") 24 0 1 JNull 0.
Definition demo_lease (status issued expires : string) : json :=
  JObj [("payload", JObj [("issued_to", JStr "Buyer"); ("licence_id", JStr "AAAA-0001"); ("device", JStr "device"); ("nonce", JStr "n"); ("status", JStr status);
                          ("issued_at", JStr issued); ("expires_at", JStr expires); ("server_time", JStr issued)]);
        ("signature", JStr "vendor"); ("algorithm", JStr "Ed25519")].
Definition demo_client : Client := mkClient (Json (demo_lease "active" "2026-03-09T00:00:00Z" "2026-03-20T00:00:00Z")) None.
Definition lease_or (r : res Lease) : Lease :=
  match r with Ok x => x | Raise _ => mkLease JNull JNull JNull JNull 0 0 0 JNull end.
Definition lease_read (status issued expires : string) (nonce : option string) : Lease :=
  lease_or (verify_lease (demo_lease status issued expires) "pub" "AAAA-0001" "device" nonce (demo_day + 10 * DAY_US)).

Example unwritable_cache_keeps_lease_witness : exists st,
  (lease_status "pub" demo_online [] (mkExchange "n" (Ok (demo_lease "revoked" "2026-03-11T00:00:00Z" "2026-03-20T00:00:00Z")) false)
     (demo_day + 10 * DAY_US) demo_client).2 = Ok st /\ ls_ok st = true.
Proof.
  destruct (unwritable_cache_keeps_lease demo_gate demo_online demo_o demo_client "n" (demo_lease "revoked" "2026-03-11T00:00:00Z" "2026-03-20T00:00:00Z")
    (lease_read "active" "2026-03-09T00:00:00Z" "2026-03-20T00:00:00Z" None) (lease_read "revoked" "2026-03-11T00:00:00Z" "2026-03-20T00:00:00Z" (Some "n")))
    as [(st & E & Hok & _) _]; try (vm_compute; reflexivity).
  - split; [vm_compute; reflexivity|vm_compute; discriminate].
  - vm_compute. discriminate.
  - vm_compute. discriminate.
  - exists st. split; [exact E|exact Hok].
Defined.
