(* ===== verification/LicenceTerms.v ===== *)
(** Licences that are issued and renewed: what is read back, and the days on which
    the terms of a subscription end. *)

From Stdlib Require Import ZArith Lia SpecFloat Ascii String.
From stdpp Require Import base strings list.
From S2P Require Import Prelude Calendar TzRules PyFloat PyText PyDict PyJson FloatTheory IsoTime Licence.

Local Open Scope Z_scope.
Local Open Scope py_scope.

(** ** Moments and their fields *)

Lemma dt_date_range t : datetime_ok t = true -> 1 <= dt_date t <= MAXORDINAL.
Proof.
  intros H%datetime_ok_spec. unfold dt_date. split; [pose proof (Z.div_pos t DAY_US ltac:(lia) ltac:(reflexivity)); lia|].
  pose proof (Z.div_lt_upper_bound t DAY_US MAXORDINAL ltac:(reflexivity) ltac:(lia)). lia.
Qed.

Lemma dt_split t : t = (dt_date t - 1) * DAY_US + t mod DAY_US.
Proof. unfold dt_date. pose proof (Z.div_mod t DAY_US ltac:(discriminate)). lia. Qed.

Lemma replace_date_ok t y m d t' : replace_date t y m d = Ok t' ->
  valid_ymd y m d /\ dt_date t' = ymd2ord y m d /\ t' mod DAY_US = t mod DAY_US /\ datetime_ok t' = true /\
  dt_year t' = y /\ dt_month t' = m /\ dt_day t' = d.
Proof.
  unfold replace_date, date_. destruct ((MINYEAR <=? y) && (y <=? MAXYEAR)) eqn:E1; cbn [negb]; [|discriminate].
  destruct ((1 <=? m) && (m <=? 12)) eqn:E2; cbn [negb]; [|discriminate]. destruct ((1 <=? d) && _) eqn:E3; cbn [negb]; [|discriminate].
  cbn [rbind]. intros [= <-]. rewrite andb_true_iff, !Z.leb_le in E1, E2, E3. assert (V : valid_ymd y m d) by (split_and!; unfold MINYEAR, MAXYEAR in *; lia).
  pose proof (ymd_range _ _ _ V) as R. pose proof (Z.mod_pos_bound t DAY_US ltac:(reflexivity)) as B.
  set (t' := (ymd2ord y m d - 1) * DAY_US + t mod DAY_US). assert (Ed : dt_date t' = ymd2ord y m d).
  { unfold dt_date, t'. rewrite Z.div_add_l, Z.div_small by (try discriminate; lia). lia. }
  destruct (fields_of y m d V) as (F1 & F2 & F3). unfold dt_year, dt_month, dt_day. rewrite Ed. split_and!; try assumption; try reflexivity.
  - unfold t'. rewrite Z.add_comm, Z.mod_add by discriminate. apply Z.mod_small. lia.
  - apply datetime_ok_spec. unfold t', MAXORDINAL in *. change DAY_US with 86400000000 in *. lia.
Qed.

(** Months from year one. *)
Definition month_index (t : datetime) : Z := 12 * dt_year t + dt_month t - 1.

Lemma month_index_fields t : datetime_ok t = true -> 1 <= dt_month t <= 12 /\ 1 <= dt_day t <= days_in_month (dt_year t) (dt_month t).
Proof. intros H. destruct (fields_valid _ (dt_date_range t H)) as [(_ & Hm & Hd) _]. now split. Qed.

Lemma add_months_ok t months t' : datetime_ok t = true -> add_months t months = Ok t' ->
  month_index t' = month_index t + months /\ dt_day t' = Z.min (dt_day t) (days_in_month (dt_year t') (dt_month t')) /\
  t' mod DAY_US = t mod DAY_US /\ datetime_ok t' = true.
Proof.
  intros Ht. unfold add_months. destruct (months <? 0) eqn:E; [discriminate|]. apply Z.ltb_ge in E. intros H.
  apply replace_date_ok in H as (_ & _ & Em & Hok & Y & M & D). destruct (month_index_fields t Ht) as [Hm _].
  unfold month_index. rewrite Y, M. split_and!; try assumption. Z.to_euclidean_division_equations. lia.
Qed.

(** The end of a term: the month is the right one, the day the anchor, or the last
    day of a shorter month. *)
Lemma term_end_ok t months a e : datetime_ok t = true -> 1 <= a <= 31 -> term_end t months a = Ok e ->
  exists plain, add_months t months = Ok plain /\ month_index e = month_index t + months /\ e mod DAY_US = t mod DAY_US /\ datetime_ok e = true /\
    dt_day e = Z.max (dt_day plain) (Z.min a (days_in_month (dt_year e) (dt_month e))) /\
    e = plain + (dt_day e - dt_day plain) * DAY_US.
Proof.
  intros Ht Ha H. unfold term_end in H. destruct (add_months t months) as [plain|] eqn:Ep; [|discriminate]. cbn [rbind] in H.
  destruct (add_months_ok t months plain Ht Ep) as (I & D & Em & Hok). exists plain. split; [reflexivity|].
  destruct (month_index_fields plain Hok) as [Hm Hd]. rewrite (proj2 (Z.eqb_neq a 0)) in H by lia. cbn [negb andb] in H.
  destruct (dt_day plain <? a) eqn:El.
  - apply Z.ltb_lt in El. apply replace_date_ok in H as (V & Ed & Em' & Hok' & Y & M & D').
    unfold month_index in *. rewrite Y, M, D'. destruct (fields_valid _ (dt_date_range plain Hok)) as [_ Eo].
    change (ymd2ord (dt_year plain) (dt_month plain) (dt_day plain) = dt_date plain) in Eo.
    split; [exact I|]. split; [now rewrite Em'|]. split; [exact Hok'|]. split; [lia|].
    rewrite (dt_split e) at 1. rewrite (dt_split plain) at 1. rewrite Ed, Em', <- Eo. unfold ymd2ord. ring.
  - apply Z.ltb_ge in El. injection H as <-. split_and!; try assumption; lia.
Qed.

(** A later month is a later moment, and an index is one month of one year. *)
Lemma later_month t t' : datetime_ok t = true -> datetime_ok t' = true -> month_index t < month_index t' -> t < t'.
Proof.
  intros H H' L. destruct (fields_valid _ (dt_date_range t H)) as [V E]. destruct (fields_valid _ (dt_date_range t' H')) as [V' E'].
  pose proof (date_order _ _ _ _ _ _ V V') as O. rewrite E, E' in O.
  assert (D : dt_date t < dt_date t') by (apply O; unfold month_index, dt_year, dt_month in L; lia).
  pose proof (dt_split t) as S. pose proof (dt_split t') as S'. pose proof (Z.mod_pos_bound t DAY_US ltac:(reflexivity)).
  pose proof (Z.mod_pos_bound t' DAY_US ltac:(reflexivity)). change DAY_US with 86400000000 in *. lia.
Qed.

Lemma same_month t t' : datetime_ok t = true -> datetime_ok t' = true -> month_index t = month_index t' -> dt_year t = dt_year t' /\ dt_month t = dt_month t'.
Proof.
  intros H H' E. destruct (month_index_fields t H) as [M _]. destruct (month_index_fields t' H') as [M' _]. unfold month_index in E. lia.
Qed.

(** The anchored day of a moment's month. *)
Definition on_anchor (a : Z) (t : datetime) : Prop := dt_day t = Z.min a (days_in_month (dt_year t) (dt_month t)).

(** From an anchored day, a term ends on an anchored day. *)
Lemma term_end_anchored t months a e : datetime_ok t = true -> 1 <= a <= 31 -> term_end t months a = Ok e -> dt_day t <= a -> on_anchor a e.
Proof.
  intros Ht Ha H Hd. destruct (term_end_ok t months a e Ht Ha H) as (plain & Ep & Ie & _ & Hok & D & _).
  destruct (add_months_ok t months plain Ht Ep) as (Ip & Dp & _ & Hokp).
  destruct (same_month plain e Hokp Hok ltac:(lia)) as [Y M]. rewrite Y, M in Dp. unfold on_anchor. lia.
Qed.

(** ** Reading back an issued licence *)

Section Terms.
Context {OT : OtherTexts} {VD : Vendor}.
(** What [sign] returns is base64. *)
Context (sign_decodes : forall key p s, sign key p = Ok s -> decodes (JStr s) = true).

Lemma guard_passed ok e a : guard ok e = Ok a -> ok = true.
Proof. unfold guard. now destruct ok. Qed.

Definition signed_document (l : License) (signature : string) : Document :=
  Envelope (JObj [("payload", payload l); ("signature", JStr signature); ("algorithm", JStr "Ed25519")]).

Definition payload_fields (l : License) : list (string * json) := match payload l with JObj fields => fields | _ => [] end.
Lemma license_of_payload l from e : issued l = Ok from -> expiry l = Ok e -> license_of (payload_fields l) = Ok l.
Proof.
  intros Hi He. destruct l as [id to at_ ex tier machine caps notes fmt url interval months index sub anchor].
  transitivity (let l := mkLicense id to at_ ex tier machine caps notes fmt url interval months index sub anchor in
    let* _ := invalid (issued l) in let* _ := invalid (expiry l) in Ok l); [destruct ex; reflexivity|].
  cbv zeta. rewrite Hi, He. reflexivity.
Qed.

Lemma parse_signed l signature from e key : li_format l = JInt LICENSE_FORMAT -> issued l = Ok from -> expiry l = Ok e ->
  sign key (payload l) = Ok signature -> parse (signed_document l signature) = Ok (l, JStr signature, payload l).
Proof.
  intros Hf Hi He Hs.
  transitivity (let* fmt := format_of (li_format l) in let* _ := guard (fmt <=? LICENSE_FORMAT) LicenseInvalid in
    let* _ := guard (decodes (JStr signature)) LicenseInvalid in let* l' := license_of (payload_fields l) in
    Ok (l', JStr signature, payload l)); [reflexivity|].
  rewrite Hf, (sign_decodes _ _ _ Hs), (license_of_payload l from e Hi He). reflexivity.
Qed.

(** The text of a moment that [_rfc3339] writes. *)
Lemma rfc3339_ok x text : rfc3339 x = Ok text -> exists t, fromtimestamp x = Ok t /\ datetime_ok t = true /\ text = iso_text t.
Proof.
  unfold rfc3339, fromtimestamp. destruct (float_to_us x) as [us|]; [|destruct x; discriminate]. destruct (datetime_ok _) eqn:E; [|discriminate].
  cbn [rbind]. intros [= <-]. eauto.
Qed.
Lemma iso_not_blank t : blank (iso_text t) = false.
Proof. unfold blank. apply bool_decide_eq_false. unfold iso_text, iso_chars, four_digits, two_digits. cbn. discriminate. Qed.

(** What a successful [issue] signs. *)
Lemma issue_ok key id o now d : issue key id o now = Ok d ->
  exists l signature sold from, d = signed_document l signature /\ sign key (payload l) = Ok signature /\
    term_sold o (default now (or_starts_at o)) = Ok sold /\ li_format l = JInt LICENSE_FORMAT /\ issued l = Ok from /\
    li_expires_at l = sold.1 /\ li_term_months l = sold.2 /\ li_licence_id l = id /\ li_issued_to l = strip (or_issued_to o) /\ li_tier l = or_tier o /\
    li_machine l = or_machine o /\ li_capabilities l = or_capabilities o /\
    li_anchor_day l = or_int (or_anchor_day o) (match sold.1 with Some _ => dt_day (default now (or_starts_at o)) | None => 0 end) /\
    match sold.1 with Some text => exists e, parse_ts text = Ok e /\ now < e | None => True end.
Proof.
  unfold issue. intros H. inv_res. repeat match goal with E : guard _ _ = Ok _ |- _ => clear E end. subst d.
  match goal with E : rfc3339 _ = Ok ?x |- _ => destruct (rfc3339_ok _ _ E) as (t & _ & Ht & ->) end.
  match goal with E' : sign _ _ = Ok ?g |- _ => eexists _, g, _, (whole_second t); split; [reflexivity|]; split; [exact E'|]; split; [reflexivity|] end.
  split; [reflexivity|].
  split; [exact (parse_iso t Ht)|]. repeat (split; [reflexivity|]).
  match goal with E : match ?s with Some _ => _ | None => _ end = Ok _ |- _ => destruct s as [text|]; [|exact I] end.
  inv_res. match goal with E : guard _ _ = Ok _ |- _ => apply guard_passed, Z.ltb_lt in E end. eauto.
Qed.

(** An issued licence reads back as itself, with what the order asked for, and
    verifies under the vendor's key wherever it is in force and on its machine. *)
Theorem issued_licence_reads_back key id o now d : issue key id o now = Ok d ->
  exists l signature, parse d = Ok (l, JStr signature, payload l) /\ sign key (payload l) = Ok signature /\
    li_licence_id l = id /\ li_issued_to l = strip (or_issued_to o) /\ li_tier l = or_tier o /\ li_machine l = or_machine o /\
    li_capabilities l = or_capabilities o /\
    (exists e, expiry l = Ok e /\ match e with Some e => now < e | None => term_sold o (default now (or_starts_at o)) = Ok (None, 0) end) /\
    forall public_key check_machine grace at_ fingerprint from e limit, verifies public_key (JStr signature) (payload l) = true ->
      issued l = Ok from -> add_hours at_ 24 = Ok limit -> from <= limit ->
      expiry l = Ok e -> match e with Some e => past_grace e at_ grace = false | None => True end ->
      (fingerprint_matches (li_machine l) fingerprint).1 = true -> verify d public_key check_machine grace at_ fingerprint = Ok l.
Proof.
  intros H. destruct (issue_ok key id o now d H) as (l & g & sold & from & -> & Hs & Ht & Hf & Hi & He & Hm & Hid & Hto & Htier & Hmach & Hcap & _ & Hexp).
  assert (E : exists e, expiry l = Ok e /\ match e with Some e => now < e | None => term_sold o (default now (or_starts_at o)) = Ok (None, 0) end).
  { unfold expiry. rewrite He. destruct sold as [[text|] months]; cbn [fst] in *.
    - destruct Hexp as (e & Ep & Hlt). assert (Hb : blank text = false).
      { unfold term_sold in Ht. destruct (or_perpetual o), (or_valid_days o) as [[days|]|]; try discriminate Ht; inv_res; subst;
          match goal with E : rfc3339 _ = Ok _ |- _ => destruct (rfc3339_ok _ _ E) as (? & _ & _ & ->); apply iso_not_blank end. }
      rewrite Hb, Ep. now exists (Some e).
    - exists None. split; [reflexivity|]. rewrite Ht. unfold term_sold in Ht.
      destruct (or_perpetual o), (or_valid_days o) as [[days|]|]; inv_res; congruence. }
  destruct E as (e & Ee & Hlt). pose proof (parse_signed l g from e key Hf Hi Ee Hs) as P.
  exists l, g. split_and!; try assumption; [now exists e|].
  intros pk cm grace at_ fp from' e' limit Hv Hi' Hl Hle He' Hg Hfp. unfold verify. rewrite P. cbn [rbind]. rewrite Hv. cbn [guard rbind].
  rewrite Hi', Hl. cbn [rbind]. rewrite (proj2 (Z.ltb_ge _ _)) by exact Hle. cbn [negb guard rbind]. rewrite He'. cbn [rbind].
  rewrite Hfp, orb_true_r. destruct e' as [e'|]; [rewrite Hg|]; reflexivity.
Qed.

(** ** Renewals *)

(** A renewal, and whether it comes while the old term still counts. *)
Record Renewal := mkRenewal { rn_private_key : string; rn_public_key : string; rn_id : string; rn_changes : Changes; rn_at : datetime }.
Definition renew_with (r : Renewal) (d : Document) : res Document :=
  renew d (rn_private_key r) (rn_public_key r) (rn_id r) (rn_changes r) (rn_at r).
Definition lapsed_days (r : Renewal) (e : datetime) : spec_float := fdiv (total_seconds (rn_at r - e)) DAY_SEC.
Definition in_time (r : Renewal) (e : datetime) : bool := at_most (lapsed_days r e) (ch_late_renewal_grace_days (rn_changes r)).

(** The licence of a document, a subscription of [m] months anchored to day [a]
    whose term ends at [e]. *)
Record subscription (d : Document) (m a : Z) (e : datetime) : Prop := {
  sb_licence : exists l signature p, parse d = Ok (l, signature, p) /\ li_expires_at l <> None /\ expiry l = Ok (Some e) /\
                 li_term_months l = m /\ li_anchor_day l = a;
  sb_whole : e mod SECOND_US = 0;
  sb_epoch : EPOCH_US <= e;
  sb_ok : datetime_ok e = true
}.

Lemma verify_parses d pk cm grace now fp l : verify d pk cm grace now fp = Ok l -> exists signature p, parse d = Ok (l, signature, p).
Proof. unfold verify. destruct (parse d) as [[[l' g] p]|]; [|discriminate]. cbn [rbind]. intros H. inv_res. subst. eauto. Qed.

Lemma whole_day t : t mod SECOND_US = t mod DAY_US mod SECOND_US.
Proof. change DAY_US with (86400 * SECOND_US). unfold SECOND_US. Z.to_euclidean_division_equations. lia. Qed.

(** The new term of a subscription that is renewed for the same months. *)
Lemma renewal_term_end r d d' m a e : subscription d m a e -> 0 < m -> 1 <= a <= 31 -> ch_term_months (rn_changes r) = None ->
  rn_at r mod SECOND_US = 0 -> EPOCH_US <= rn_at r -> datetime_ok (rn_at r) = true ->
  renew_with r d = Ok d' ->
  let begins := if in_time r e then e else rn_at r in
  exists e', term_end begins m a = Ok e' /\ subscription d' m a e'.
Proof.
  intros [(l & g & p & Ep & Hex & He & Hm & Ha) Hw Hepoch Hok] Hpos Hanchor Hc Hcw Hce Hcok H begins. unfold renew_with, renew in H. inv_res.
  match goal with E : verify _ _ _ _ _ _ = Ok _ |- _ => destruct (verify_parses _ _ _ _ _ _ _ E) as (g' & p' & Ep') end.
  rewrite Ep in Ep'. injection Ep' as <- _ _. destruct (li_expires_at l) as [text|]; [|contradiction]. inv_res.
  rewrite He in H.
  destruct (issue_ok _ _ _ _ _ H) as (l' & signature & sold & from & -> & Hs & Ht & Hf & Hi & He' & Hm' & _ & _ & _ & _ & _ & Ha' & Hexp).
  unfold term_sold, renewal_order in Ht. cbn [or_perpetual or_valid_days or_term_months or_anchor_day or_starts_at] in Ht.
  unfold renewal_term in Ht. rewrite Hc, Hm, (proj2 (Z.eqb_neq m 0)) in Ht by lia. rewrite Ha in Ht. unfold or_int at 1 2 in Ht.
  rewrite (proj2 (Z.eqb_neq a 0)) in Ht by lia. cbn [default] in Ht. fold (lapsed_days r e) in Ht. change (at_most _ _) with (in_time r e) in Ht. fold begins in Ht.
  inv_res. repeat match goal with E : guard _ _ = Ok _ |- _ => clear E end. subst sold.
  match goal with E : term_end _ _ _ = Ok ?x |- _ => rename x into e', E into Et end.
  assert (Ea : (if a =? 0 then dt_day (id begins) else a) = a) by now rewrite (proj2 (Z.eqb_neq a 0)) by lia.
  unfold id in Et, Ea. rewrite Ea in Et. exists e'. split; [exact Et|].
  assert (B : datetime_ok begins = true /\ begins mod SECOND_US = 0) by (unfold begins; destruct (in_time r e); auto). destruct B as [B1 B2].
  destruct (term_end_ok begins m a e' B1 Hanchor Et) as (plain & _ & Im & Emod & Eok & _).
  assert (Hmin : EPOCH_US <= e').
  { pose proof (later_month begins e' B1 Eok ltac:(lia)). assert (EPOCH_US <= begins) by (unfold begins; destruct (in_time r e); assumption). lia. }
  assert (W : e' mod SECOND_US = 0) by (rewrite whole_day, Emod, <- whole_day; exact B2).
  match goal with E : rfc3339 _ = Ok _ |- _ => unfold rfc3339 in E; rewrite (fromtimestamp_whole e' W) in E; [cbn [rbind] in E; injection E as <-| |exact Eok] end.
  2:{ split; [exact Hmin|]. apply datetime_ok_spec in Eok. unfold EPOCH_US, EPOCH_ORD, MAXORDINAL, SECOND_US in *. change DAY_US with 86400000000 in *. lia. }
  cbn [fst snd] in *. assert (Ex : expiry l' = Ok (Some e')).
  { unfold expiry. rewrite He', iso_not_blank, parse_iso by exact Eok. cbn [rbind]. unfold whole_second. now rewrite W, Z.sub_0_r. }
  split; try assumption. exists l', (JStr signature), (payload l'). split_and!; try assumption.
  - apply (parse_signed l' signature from (Some e') _ Hf Hi Ex Hs).
  - rewrite He'. discriminate.
  - rewrite Ha'. unfold renewal_order, renewal_term. cbn [or_anchor_day]. rewrite Hc, Hm, (proj2 (Z.eqb_neq m 0)) by lia. rewrite Ha.
    unfold or_int. now rewrite !(proj2 (Z.eqb_neq a 0)) by lia.
Qed.

(** A renewal of a document for the months it has, at a moment of whole seconds, that
    comes in time. *)
Definition plain_renewal (r : Renewal) : Prop :=
  ch_term_months (rn_changes r) = None /\ rn_at r mod SECOND_US = 0 /\ EPOCH_US <= rn_at r /\ datetime_ok (rn_at r) = true.
Definition expiry_of (d : Document) : res (option datetime) := let* parsed := parse d in expiry parsed.1.1.
Definition renewed_in_time (d d' : Document) : Prop :=
  exists r e, plain_renewal r /\ expiry_of d = Ok (Some e) /\ in_time r e = true /\ renew_with r d = Ok d'.

Lemma subscription_expiry d m a e : subscription d m a e -> expiry_of d = Ok (Some e).
Proof. intros [(l & g & p & Ep & _ & He & _) _ _ _]. unfold expiry_of. rewrite Ep. exact He. Qed.

(** A subscription keeps its day: after [n] renewals in time of a subscription of [m]
    months that is anchored to day [a], the licence reads as one whose term ends
    [n * m] months after the first, at the same time of day, on day [a] or on the last
    day of a shorter month. *)
Theorem renewals_keep_the_day d m a e n d' : subscription d m a e -> 0 < m -> 1 <= a <= 31 -> on_anchor a e ->
  nsteps renewed_in_time n d d' ->
  exists e', subscription d' m a e' /\ month_index e' = month_index e + Z.of_nat n * m /\ e' mod DAY_US = e mod DAY_US /\ on_anchor a e'.
Proof.
  intros Hs Hm Ha Hd Hn. revert e Hs Hd. induction Hn as [d|n d d1 d' (r & e0 & (Hc & Hw & He & Hok) & Hx & Hin & Hr) _ IH]; intros e Hs Hd.
  - exists e. split_and!; try assumption; lia.
  - pose proof (subscription_expiry d m a e Hs) as Hx'. rewrite Hx in Hx'. injection Hx' as ->.
    destruct (renewal_term_end r d d1 m a e Hs Hm Ha Hc Hw He Hok Hr) as (e1 & Et & Hs1). rewrite Hin in Et.
    destruct (term_end_ok e m a e1 (sb_ok _ _ _ _ Hs) Ha Et) as (_ & _ & I1 & M1 & _).
    destruct (IH e1 Hs1) as (e' & S' & I' & M' & D'); [apply (term_end_anchored e m a e1 (sb_ok _ _ _ _ Hs) Ha Et); unfold on_anchor in Hd; lia|].
    exists e'. split_and!; [exact S'| |congruence|exact D']. rewrite I', I1. lia.
Qed.

(** A renewal that comes late begins at its own moment but keeps the day of the old
    anchor: the term ends as many days after the months that were sold as the anchor
    is later than the day of the renewal, within the month. *)
Theorem late_renewal_gains_days r d d' m a e : subscription d m a e -> 0 < m -> 1 <= a <= 31 -> plain_renewal r ->
  in_time r e = false -> renew_with r d = Ok d' -> dt_day (rn_at r) <= 28 -> dt_day (rn_at r) < a ->
  exists sold e', add_months (rn_at r) m = Ok sold /\ expiry_of d' = Ok (Some e') /\
    e' = sold + (Z.min a (days_in_month (dt_year e') (dt_month e')) - dt_day (rn_at r)) * DAY_US.
Proof.
  intros Hs Hm Ha (Hc & Hw & He & Hok) Hin Hr H28 Hlt.
  destruct (renewal_term_end r d d' m a e Hs Hm Ha Hc Hw He Hok Hr) as (e' & Et & Hs'). rewrite Hin in Et.
  destruct (term_end_ok (rn_at r) m a e' Hok Ha Et) as (sold & Ep & _ & _ & Hok' & _ & E).
  pose proof (term_end_anchored (rn_at r) m a e' Hok Ha Et ltac:(lia)) as D. unfold on_anchor in D.
  destruct (add_months_ok (rn_at r) m sold Hok Ep) as (_ & Dp & _ & Hokp).
  destruct (month_index_fields sold Hokp) as [M _]. destruct (month_step (dt_year sold) (dt_month sold) M) as [B _].
  exists sold, e'. split; [exact Ep|]. split; [exact (subscription_expiry _ _ _ _ Hs')|]. rewrite <- D.
  replace (dt_day (rn_at r)) with (dt_day sold) by lia. exact E.
Qed.

End Terms.

(** ** The theorems on a demo subscription *)

#[local] Instance term_texts : OtherTexts := fun _ => Raise ValueError.
#[local] Instance term_vendor : Vendor := {
  sign := fun _ _ => Ok "vendor"; verifies := fun _ s _ => same_text s "vendor"; decodes := fun s => same_text s "vendor"; vendor_int := fun _ => None }.

Definition noon (y m d : Z) : datetime := (ymd2ord y m d - 1) * DAY_US + 12 * HOUR_US.
Definition month_order : Order :=
  mkOrder " Buyer " "live_single" (Some (Some 1)) None [("cpu", JStr "b2")] [] (JStr "") JNull 0 false false JNull 1 0 None.
Definition or_nothing (r : res Document) : Document := match r with Ok d => d | Raise _ => NoEnvelope end.
Definition first_term : Document := or_nothing (issue "key" "AAAA-0001" month_order (noon 2026 1 31)).
Definition renewal_at (id : string) (t : datetime) : Renewal := mkRenewal "key" "pub" id (mkChanges None None None None None 14) t.
Definition second_term : Document := or_nothing (renew_with (renewal_at "BBBB-0002" (noon 2026 2 25)) first_term).
Definition third_term : Document := or_nothing (renew_with (renewal_at "CCCC-0003" (noon 2026 4 2)) second_term).
Definition late_term : Document := or_nothing (renew_with (renewal_at "DDDD-0004" (noon 2026 4 10)) first_term).

Lemma demo_sign_decodes key p s : sign key p = Ok s -> decodes (JStr s) = true.
Proof. now intros [= <-]. Qed.

Lemma first_subscription : subscription first_term 1 31 (noon 2026 2 28).
Proof.
  split; [|reflexivity|vm_compute; discriminate|reflexivity].
  destruct (parse first_term) as [[[l g] p]|] eqn:E; [|vm_compute in E; discriminate]. exists l, g, p.
  vm_compute in E. injection E as <- <- <-. split_and!; try (vm_compute; reflexivity). discriminate.
Qed.

Example issued_licence_reads_back_witness : exists l, parse first_term = Ok (l, JStr "vendor", payload l) /\
  li_issued_to l = "Buyer" /\ verify first_term "pub" true 0 (noon 2026 2 20) [("cpu", "b2")] = Ok l.
Proof.
  destruct (issued_licence_reads_back demo_sign_decodes "key" "AAAA-0001" month_order (noon 2026 1 31) first_term ltac:(vm_compute; reflexivity))
    as (l & g & P & Sg & _ & To & _ & _ & _ & _ & V). cbn in Sg. injection Sg as <-. exists l. split; [exact P|]. split; [exact To|].
  pose proof P as P'. vm_compute in P'. injection P' as El. 
  apply (V "pub" true 0 (noon 2026 2 20) [("cpu", "b2")] (noon 2026 1 31) (Some (noon 2026 2 28)) (noon 2026 2 21)); subst l; vm_compute; congruence.
Defined.

(** The month that began on the 31st of January is renewed three days early and then
    two days late; it ends on the last day of March and then of April. *)
Example renewals_keep_the_day_witness : expiry_of third_term = Ok (Some (noon 2026 4 30)) /\
  exists e', subscription third_term 1 31 e' /\ on_anchor 31 e'.
Proof.
  split; [vm_compute; reflexivity|].
  destruct (renewals_keep_the_day demo_sign_decodes first_term 1 31 (noon 2026 2 28) 2 third_term first_subscription ltac:(lia) ltac:(lia) ltac:(reflexivity))
    as (e' & S & _ & _ & D); [|now exists e'].
  apply nsteps_l with second_term; [|apply nsteps_l with third_term; [|constructor]].
  - exists (renewal_at "BBBB-0002" (noon 2026 2 25)), (noon 2026 2 28). split; [split_and!; try reflexivity; vm_compute; discriminate|]. split_and!; vm_compute; reflexivity.
  - exists (renewal_at "CCCC-0003" (noon 2026 4 2)), (noon 2026 3 31). split; [split_and!; try reflexivity; vm_compute; discriminate|]. split_and!; vm_compute; reflexivity.
Defined.

(** Renewed on the 10th of April, the month lasts until the 31st of May. *)
Example late_renewal_gains_days_witness : expiry_of late_term = Ok (Some (noon 2026 5 31)) /\ add_months (noon 2026 4 10) 1 = Ok (noon 2026 5 10) /\
  exists sold, noon 2026 5 31 = sold + 21 * DAY_US.
Proof.
  split; [vm_compute; reflexivity|]. split; [vm_compute; reflexivity|].
  assert (P : plain_renewal (renewal_at "DDDD-0004" (noon 2026 4 10))) by (split_and!; vm_compute; congruence).
  destruct (late_renewal_gains_days demo_sign_decodes (renewal_at "DDDD-0004" (noon 2026 4 10)) first_term late_term 1 31 (noon 2026 2 28) first_subscription
    ltac:(lia) ltac:(lia) P ltac:(vm_compute; reflexivity) ltac:(vm_compute; reflexivity) ltac:(vm_compute; discriminate) ltac:(vm_compute; reflexivity))
    as (sold & e' & _ & X & E).
  assert (X' : expiry_of late_term = Ok (Some (noon 2026 5 31))) by (vm_compute; reflexivity). rewrite X in X'. injection X' as ->. exists sold.
  replace 21 with (Z.min 31 (days_in_month (dt_year (noon 2026 5 31)) (dt_month (noon 2026 5 31))) - dt_day (noon 2026 4 10)) by (vm_compute; reflexivity). exact E.
Defined.
