(* ===== verification/CrossValidation.v ===== *)
(** [sentinel/research/cv.py]: cross-validation that respects time.

    Arrays of indices are lists of integers.  A series of label ends is its index and
    values.  The mean and the standard deviation of numpy are the class [Numpy]; the
    square root, the products and the quotients are those of the hardware. *)

From Stdlib Require Import ZArith Lia SpecFloat.
From stdpp Require Import base list sorting.
From S2P Require Import Prelude Calendar PyFloat.

Local Open Scope Z_scope.
Local Open Scope py_scope.

(** ** Arrays *)

(** [sorted(indices)]. *)
Definition sorted_indices (l : list Z) : list Z := merge_sort Z.le l.
Definition array_min (l : list Z) : Z := match l with [] => 0 | x :: rest => fold_left Z.min rest x end.
Definition array_max (l : list Z) : Z := match l with [] => 0 | x :: rest => fold_left Z.max rest x end.
Definition mem (x : Z) (l : list Z) : bool := bool_decide (x ∈ l).

(** The distinct members of a sorted list. *)
Fixpoint unique (l : list Z) : list Z :=
  match l with
  | x :: (y :: _) as rest => if x =? y then unique rest else x :: unique rest
  | _ => l
  end.
(** [np.setdiff1d(a, b)]. *)
Definition setdiff1d (a b : list Z) : list Z := List.filter (fun x => negb (mem x b)) (unique (sorted_indices a)).

(** [np.array_split(l, n)]: contiguous parts, the first ones longer by one. *)
Definition part_sizes (len n : nat) : list nat :=
  replicate (len mod n) (len / n + 1)%nat ++ replicate (n - len mod n) (len / n)%nat.
Fixpoint cut {A} (sizes : list nat) (l : list A) : list (list A) :=
  match sizes with [] => [] | s :: rest => take s l :: cut rest (drop s l) end.
Definition array_split {A} (l : list A) (n : nat) : list (list A) := cut (part_sizes (length l) n) l.

(** [itertools.combinations(l, k)]. *)
Fixpoint combinations {A} (k : nat) (l : list A) : list (list A) :=
  match k, l with
  | O, _ => [[]]
  | S _, [] => []
  | S k', x :: rest => map (cons x) (combinations k' rest) ++ combinations k rest
  end.
(** [math.comb]. *)
Fixpoint comb (n k : nat) : nat :=
  match k, n with
  | O, _ => 1
  | S _, O => 0
  | S k', S n' => comb n' k' + comb n' k
  end%nat.

(** ** Splits *)

Record Split := mkSplit {
  sp_train : list Z;
  sp_test : list Z;
  sp_test_groups : list nat;
  sp_purged : Z;
  sp_embargoed : Z
}.

(** Where the label of an index ends: [spans.get(i, i)]. *)
Definition span_end (t1 : list (Z * Z)) (i : Z) : Z :=
  match find (fun kv => kv.1 =? i) (rev t1) with Some kv => kv.2 | None => i end.
Definition removed (before after : list Z) : Z := Z.of_nat (length before) - Z.of_nat (length after).

(** The label of [i] overlaps the window of a test set. *)
Definition overlaps (t1 : list (Z * Z)) (test_start test_end i : Z) : bool := (i <=? test_end) && (test_start <=? span_end t1 i).

Definition purge_train (train test : list Z) (t1 : list (Z * Z)) : list Z * Z :=
  match train, test with
  | _, [] | [], _ => (train, 0)
  | _, _ => let kept := List.filter (fun i => negb (overlaps t1 (array_min test) (array_max test) i)) train in
            (kept, removed train kept)
  end.

Definition embargo_width (n_bars : Z) (embargo_pct : spec_float) : res Z := py_round (fmul (float_of_Z n_bars) embargo_pct).
(** The band after a test set. *)
Definition banned (test : list Z) (width i : Z) : bool := (array_max test + 1 <=? i) && (i <? array_max test + 1 + width).

Definition apply_embargo (train test : list Z) (n_bars : Z) (embargo_pct : spec_float) : res (list Z * Z) :=
  if fleb embargo_pct (float_of_Z 0) || bool_decide (test = []) then Ok (train, 0)
  else
    let* width := embargo_width n_bars embargo_pct in
    if width <=? 0 then Ok (train, 0)
    else let kept := List.filter (fun i => negb (banned test width i)) train in Ok (kept, removed train kept).

(** ** [PurgedKFold] *)

Record PurgedKFold := mkKFold { kf_n_splits : Z; kf_embargo_pct : spec_float }.
Definition purged_kfold (n_splits : Z) (embargo_pct : spec_float) : res PurgedKFold :=
  if n_splits <? 2 then Raise ValueError
  else if negb (fleb (float_of_Z 0) embargo_pct && fltb embargo_pct (fdiv (float_of_Z 1) (float_of_Z 2))) then Raise ValueError
  else Ok (mkKFold n_splits embargo_pct).

(** The results of a loop, in order. *)
Fixpoint rmap {A B} (f : A -> res B) (l : list A) : res (list B) :=
  match l with [] => Ok [] | x :: rest => let* y := f x in let* ys := rmap f rest in Ok (y :: ys) end.

Definition kfold_split_of (kf : PurgedKFold) (idx : list Z) (t1 : list (Z * Z)) (n_bars : Z) (fold : nat * list Z) : res Split :=
  let '(k, test) := fold in
  let '(train, purged) := purge_train (setdiff1d idx test) test t1 in
  let* kept := apply_embargo train test n_bars (kf_embargo_pct kf) in
  Ok (mkSplit kept.1 test [k] purged kept.2).

(** [PurgedKFold.split]. *)
Definition kfold_split (kf : PurgedKFold) (indices : list Z) (t1 : list (Z * Z)) (n_bars : Z) : res (list Split) :=
  let idx := sorted_indices indices in
  rmap (kfold_split_of kf idx t1 n_bars) (imap pair (array_split idx (Z.to_nat (kf_n_splits kf)))).

(** ** [CombinatorialPurgedCV] *)

Record CombinatorialPurgedCV := mkCpcv { cv_n_groups : Z; cv_test_groups : Z; cv_embargo_pct : spec_float }.
Definition cpcv (n_groups test_groups : Z) (embargo_pct : spec_float) : res CombinatorialPurgedCV :=
  if n_groups <=? test_groups then Raise ValueError
  else if n_groups <? 3 then Raise ValueError
  else Ok (mkCpcv n_groups test_groups embargo_pct).

Definition cv_n (cv : CombinatorialPurgedCV) : nat := Z.to_nat (cv_n_groups cv).
Definition cv_k (cv : CombinatorialPurgedCV) : nat := Z.to_nat (cv_test_groups cv).
Definition cv_n_splits (cv : CombinatorialPurgedCV) : res Z :=
  if cv_test_groups cv <? 0 then Raise ValueError else Ok (Z.of_nat (comb (cv_n cv) (cv_k cv))).
Definition cv_n_paths (cv : CombinatorialPurgedCV) : res Z :=
  if cv_test_groups cv <? 1 then Raise ValueError else Ok (Z.of_nat (comb (cv_n cv - 1) (cv_k cv - 1))).

Definition group_of (groups : list (list Z)) (g : nat) : list Z := nth g groups [].

(** Purging and embargo against one block of the test set. *)
Definition clear_block (groups : list (list Z)) (t1 : list (Z * Z)) (n_bars : Z) (embargo_pct : spec_float) (acc : res (list Z * (Z * Z))) (g : nat)
    : res (list Z * (Z * Z)) :=
  let* state := acc in
  let '(train, (purged, embargoed)) := state in
  let '(train, p) := purge_train train (group_of groups g) t1 in
  let* kept := apply_embargo train (group_of groups g) n_bars embargo_pct in
  Ok (kept.1, (purged + p, embargoed + kept.2)).

Definition cpcv_split_of (cv : CombinatorialPurgedCV) (idx : list Z) (t1 : list (Z * Z)) (n_bars : Z) (combo : list nat) : res Split :=
  let groups := array_split idx (cv_n cv) in
  let test := flat_map (group_of groups) combo in
  let* state := fold_left (clear_block groups t1 n_bars (cv_embargo_pct cv)) combo (Ok (setdiff1d idx test, (0, 0))) in
  Ok (mkSplit state.1 (sorted_indices test) combo state.2.1 state.2.2).

Definition combos (cv : CombinatorialPurgedCV) : list (list nat) := combinations (cv_k cv) (seq 0 (cv_n cv)).

(** [CombinatorialPurgedCV.split]. *)
Definition cpcv_split (cv : CombinatorialPurgedCV) (indices : list Z) (t1 : list (Z * Z)) (n_bars : Z) : res (list Split) :=
  if cv_test_groups cv <? 1 then Raise ValueError
  else rmap (cpcv_split_of cv (sorted_indices indices) t1 n_bars) (combos cv).

(** ** Paths *)

Definition per_group_get {D} (g : nat) (per_group : list (nat * D)) : option D := snd <$> find (fun kv => Nat.eqb kv.1 g) per_group.

(** The results of one group, in the order of the splits. *)
Definition by_group {D} (g : nat) (results : list (list nat * list (nat * D))) : list D :=
  flat_map (fun r => flat_map (fun h => if Nat.eqb h g then match per_group_get h r.2 with Some d => [d] | None => [] end else []) r.1) results.

Definition path_at {D} (n : nat) (results : list (list nat * list (nat * D))) (p : nat) : list D :=
  flat_map (fun g => match nth_error (by_group g results) p with Some d => [d] | None => [] end) (seq 0 n).

(** [assemble_paths]. *)
Definition assemble_paths {D} (cv : CombinatorialPurgedCV) (results : list (list nat * list (nat * D))) : res (list (list D)) :=
  if forallb (fun r => forallb (fun g => Nat.ltb g (cv_n cv) || bool_decide (per_group_get g r.2 = None)) r.1) results
  then
    let* n_paths := cv_n_paths cv in
    Ok (List.filter (fun path => Nat.eqb (length path) (cv_n cv)) (map (path_at (cv_n cv) results) (seq 0 (Z.to_nat n_paths))))
  else Raise KeyError.

(** ** [walk_forward] *)

Record WalkForward := mkWalk {
  wf_n_bars : Z;
  wf_train_bars : Z;
  wf_test_bars : Z;
  wf_step : option Z;
  wf_anchored : bool;
  wf_gap_bars : Z;
  wf_embargo_bars : Z
}.
Definition wf_step_of (w : WalkForward) : Z :=
  match wf_step w with Some s => if s =? 0 then wf_test_bars w else s | None => wf_test_bars w end.
Definition wf_window (w : WalkForward) (start : Z) : Split :=
  let train_start := if wf_anchored w then 0 else start in
  let test_start := start + wf_train_bars w + wf_gap_bars w + wf_embargo_bars w in
  let test_end := start + wf_train_bars w + wf_gap_bars w + wf_test_bars w in
  mkSplit (seqZ train_start (start + wf_train_bars w - train_start)) (seqZ test_start (test_end - test_start)) [] 0 0.

(** The loop; [None] when it needs more turns. *)
Fixpoint wf_loop (fuel : nat) (w : WalkForward) (start : Z) : option (list Split) :=
  if start + wf_train_bars w + wf_gap_bars w + wf_test_bars w <=? wf_n_bars w then
    if wf_test_bars w <=? wf_embargo_bars w then Some []
    else match fuel with
         | O => None
         | S fuel' => rest ← wf_loop fuel' w (start + wf_step_of w); Some (wf_window w start :: rest)
         end
  else Some [].
Definition walk_forward (fuel : nat) (w : WalkForward) : res (option (list Split)) :=
  if (wf_gap_bars w <? 0) || (wf_embargo_bars w <? 0) then Raise ValueError else Ok (wf_loop fuel w 0).

(** ** The selection procedure, out of sample *)

Class Numpy := { np_mean : list spec_float -> spec_float; np_std : list spec_float -> spec_float }.

Definition is_nan (x : spec_float) : bool := match x with S754_nan => true | _ => false end.
Definition is_finite (x : spec_float) : bool := match x with S754_zero _ | S754_finite _ _ _ => true | _ => false end.

(** A matrix is the list of its rows. *)
Definition matrix := list (list spec_float).
Definition cell (m : matrix) (row : Z) (col : nat) : spec_float := nth col (nth (Z.to_nat row) m []) S754_nan.

(** [np.argmax]: the first maximum; a NaN is the greatest. *)
Fixpoint argmax_from (best : spec_float) (at_ i : nat) (l : list spec_float) : nat :=
  match l with
  | [] => at_
  | x :: rest => if is_nan best then at_ else if is_nan x || fltb best x then argmax_from x i (S i) rest else argmax_from best at_ (S i) rest
  end.
Definition argmax (l : list spec_float) : nat := match l with [] => 0 | x :: rest => argmax_from x 0 1 rest end.

Section Selection.
Context {NP : Numpy}.

Definition sharpe (m : matrix) (periods_per_year : Z) (rows : list Z) (col : nat) : spec_float :=
  let x := List.filter is_finite (map (fun i => cell m i col) rows) in
  if Nat.ltb (length x) 2 then S754_infinity true
  else
    let sd := np_std x in
    if fleb sd (float_of_Z 0) then S754_infinity true
    else fmul (fdiv (np_mean x) sd) (SFsqrt fprec femax (float_of_Z periods_per_year)).

(** The variant that looks best on the rows of a training set. *)
Definition best_variant (m : matrix) (periods_per_year : Z) (n_variants : nat) (train : list Z) : nat :=
  argmax (map (sharpe m periods_per_year train) (seq 0 n_variants)).

Record CPCVPathReport := mkPathReport {
  rp_n_variants : Z;
  rp_n_splits : Z;
  rp_n_paths : Z;
  rp_purged : Z;
  rp_embargoed : Z;
  rp_chosen_per_split : list nat;
  rp_paths : list (list (Z * spec_float))
}.

Record Selection := mkSelection {
  sl_matrix : matrix;
  sl_n_variants : nat;
  sl_n_groups : Z;
  sl_test_groups : Z;
  sl_embargo_pct : spec_float;
  sl_horizon_bars : Z;
  sl_periods_per_year : Z
}.
Definition sl_bars (s : Selection) : Z := Z.of_nat (length (sl_matrix s)).
Definition sl_indices (s : Selection) : list Z := seqZ 0 (sl_bars s).
(** Where the outcome of a bar ends. *)
Definition label_end (s : Selection) (i : Z) : Z := Z.min (i + Z.max 0 (sl_horizon_bars s)) (sl_bars s - 1).
Definition label_ends (s : Selection) : list (Z * Z) := map (fun i => (i, label_end s i)) (sl_indices s).

(** What a split chooses: its variant on each of its test groups. *)
Definition chosen_in (s : Selection) (groups : list (list Z)) (sp : Split) : nat * (list nat * list (nat * (list Z * nat))) :=
  let best := best_variant (sl_matrix s) (sl_periods_per_year s) (sl_n_variants s) (sp_train sp) in
  (best, (sp_test_groups sp, map (fun g => (g, (group_of groups g, best))) (sp_test_groups sp))).

(** The bars of a path, each with the return of the variant chosen for it. *)
Definition path_returns (m : matrix) (path : list (list Z * nat)) : list (Z * spec_float) :=
  flat_map (fun p => map (fun i => (i, cell m i p.2)) p.1) path.
Definition dropna (l : list (Z * spec_float)) : list (Z * spec_float) := List.filter (fun p => negb (is_nan p.2)) l.

Definition total {A} (f : A -> Z) (l : list A) : Z := fold_left (fun n x => n + f x) l 0.

(** [cpcv_paths_from_matrix]. *)
Definition cpcv_paths_from_matrix (s : Selection) : res CPCVPathReport :=
  if (sl_bars s <? sl_n_groups s * 4) || Nat.ltb (sl_n_variants s) 1 then Raise ValueError
  else
    let* cv := cpcv (sl_n_groups s) (sl_test_groups s) (sl_embargo_pct s) in
    let groups := array_split (sl_indices s) (cv_n cv) in
    let* splits := cpcv_split cv (sl_indices s) (label_ends s) (sl_bars s) in
    let chosen := map (chosen_in s groups) splits in
    let* paths := assemble_paths cv (map snd chosen) in
    let* n_splits := cv_n_splits cv in
    Ok (mkPathReport (Z.of_nat (sl_n_variants s)) n_splits (Z.of_nat (length paths)) (total sp_purged splits) (total sp_embargoed splits)
          (map fst chosen) (map (fun path => dropna (path_returns (sl_matrix s) path)) paths)).
End Selection.
