(* ===== verification/CrossValidationProps.v ===== *)
(** What cross-validation keeps apart: training and test sets, the selection of a
    variant and the rows it is judged on, and the order of time. *)

From Stdlib Require Import ZArith Lia SpecFloat.
From stdpp Require Import base list sorting.
From S2P Require Import Prelude Calendar PyFloat CrossValidation.

Local Open Scope Z_scope.
Local Open Scope py_scope.

(** ** Arrays *)

Lemma sorted_indices_elem x l : x ∈ sorted_indices l <-> x ∈ l.
Proof. unfold sorted_indices. now rewrite merge_sort_Permutation. Qed.

Lemma unique_elem x l : x ∈ unique l <-> x ∈ l.
Proof.
  induction l as [|y [|z l] IH]; [reflexivity|reflexivity|]. cbn [unique] in *. destruct (Z.eqb_spec y z) as [->|]; set_solver.
Qed.

Lemma setdiff1d_elem x a b : x ∈ setdiff1d a b <-> x ∈ a /\ x ∉ b.
Proof.
  unfold setdiff1d, mem. rewrite list_elem_of_In, List.filter_In, <- list_elem_of_In, unique_elem, sorted_indices_elem, negb_true_iff, bool_decide_eq_false.
  reflexivity.
Qed.

Lemma fold_min l : forall x, fold_left Z.min l x <= x /\ forall y, y ∈ l -> fold_left Z.min l x <= y.
Proof.
  induction l as [|z l IH]; intros x; cbn [fold_left]; [split; [lia|]; intros y Hy; inversion Hy|].
  destruct (IH (Z.min x z)) as [B A]. split; [lia|]. intros y [->|Hy]%elem_of_cons; [lia|now apply A].
Qed.
Lemma fold_max l : forall x, x <= fold_left Z.max l x /\ forall y, y ∈ l -> y <= fold_left Z.max l x.
Proof.
  induction l as [|z l IH]; intros x; cbn [fold_left]; [split; [lia|]; intros y Hy; inversion Hy|].
  destruct (IH (Z.max x z)) as [B A]. split; [lia|]. intros y [->|Hy]%elem_of_cons; [lia|now apply A].
Qed.
Lemma array_window x l : x ∈ l -> array_min l <= x <= array_max l.
Proof.
  destruct l as [|y l]; [intros Hx; inversion Hx|]. cbn. destruct (fold_min l y) as [A B], (fold_max l y) as [C D].
  intros [->|Hx]%elem_of_cons; [lia|]. specialize (B x Hx). specialize (D x Hx). lia.
Qed.

Lemma cut_concat {A} sizes : forall l : list A, length l = sum_list sizes -> concat (cut sizes l) = l.
Proof.
  induction sizes as [|s sizes IH]; intros l H; cbn [cut concat]; cbn in H; [now destruct l|].
  rewrite IH by (rewrite length_drop; lia). apply take_drop.
Qed.
Lemma cut_length {A} sizes : forall l : list A, length (cut sizes l) = length sizes.
Proof. induction sizes as [|s sizes IH]; intros l; cbn; [reflexivity|now rewrite IH]. Qed.
Lemma sum_replicate n x : sum_list (replicate n x) = (n * x)%nat.
Proof. induction n as [|n IH]; cbn; [reflexivity|]. rewrite IH. lia. Qed.

Lemma part_sizes_sum len n : (0 < n)%nat -> sum_list (part_sizes len n) = len.
Proof.
  intros Hn. unfold part_sizes. rewrite sum_list_with_app, !sum_replicate.
  pose proof (Nat.div_mod len n ltac:(lia)). pose proof (Nat.mod_upper_bound len n ltac:(lia)). nia.
Qed.
Lemma part_sizes_length len n : (0 < n)%nat -> length (part_sizes len n) = n.
Proof. intros Hn. unfold part_sizes. rewrite length_app, !length_replicate. pose proof (Nat.mod_upper_bound len n ltac:(lia)). lia. Qed.

(** The parts of an array, in order, are the array. *)
Lemma array_split_concat {A} (l : list A) n : (0 < n)%nat -> concat (array_split l n) = l.
Proof. intros Hn. apply cut_concat. now rewrite part_sizes_sum. Qed.
Lemma array_split_length {A} (l : list A) n : (0 < n)%nat -> length (array_split l n) = n.
Proof. intros Hn. unfold array_split. now rewrite cut_length, part_sizes_length. Qed.

Lemma cut_nonempty {A} sizes : forall l : list A, length l = sum_list sizes -> Forall (fun s => (0 < s)%nat) sizes -> Forall (fun p => p <> []) (cut sizes l).
Proof.
  induction sizes as [|s sizes IH]; intros l H Hs; cbn [cut]; [constructor|]. inversion Hs; subst. cbn in H. constructor.
  - intros E. apply (f_equal length) in E. rewrite length_take in E. cbn in E. lia.
  - apply IH; [rewrite length_drop; lia|assumption].
Qed.
Lemma array_split_nonempty {A} (l : list A) n : (0 < n <= length l)%nat -> Forall (fun p => p <> []) (array_split l n).
Proof.
  intros H. apply cut_nonempty; [now rewrite part_sizes_sum by lia|]. unfold part_sizes.
  assert (0 < length l / n)%nat by (apply Nat.div_str_pos; lia).
  apply Forall_app. split; apply Forall_replicate; lia.
Qed.

Lemma rmap_Ok {A B} (f : A -> res B) l : forall ys, rmap f l = Ok ys -> Forall2 (fun x y => f x = Ok y) l ys.
Proof.
  induction l as [|x l IH]; intros ys H; cbn in H; inv_res; subst; [constructor|]. constructor; [assumption|now apply IH].
Qed.

(** ** Purging and embargo *)

(** An index a training set may hold beside a test block: its label does not overlap
    the window of the block, and it is not in the band after it. *)
Definition clear_of (t1 : list (Z * Z)) (n_bars : Z) (pct : spec_float) (test : list Z) (i : Z) : Prop :=
  test <> [] -> overlaps t1 (array_min test) (array_max test) i = false /\
  forall width, fleb pct (float_of_Z 0) = false -> embargo_width n_bars pct = Ok width -> banned test width i = false.

Lemma purge_elem train test t1 i : i ∈ (purge_train train test t1).1 ->
  i ∈ train /\ (test <> [] -> overlaps t1 (array_min test) (array_max test) i = false).
Proof.
  unfold purge_train. destruct train as [|a train]; [destruct test; intros H; inversion H|]. destruct test as [|b test]; [easy|].
  cbn [fst]. rewrite list_elem_of_In, List.filter_In, <- list_elem_of_In, negb_true_iff. tauto.
Qed.

Lemma embargo_elem train test n_bars pct kept i : apply_embargo train test n_bars pct = Ok kept -> i ∈ kept.1 ->
  i ∈ train /\ (test <> [] -> forall width, fleb pct (float_of_Z 0) = false -> embargo_width n_bars pct = Ok width -> banned test width i = false).
Proof.
  unfold apply_embargo. destruct (fleb pct (float_of_Z 0)) eqn:Ep; cbn [orb].
  - intros [= <-] Hi. split; [exact Hi|]. discriminate.
  - case_bool_decide as Ht; [intros [= <-] Hi; split; [exact Hi|contradiction]|].
    destruct (embargo_width n_bars pct) as [w|]; [|discriminate]. cbn [rbind]. destruct (w <=? 0) eqn:Ew.
    + intros [= <-] Hi. split; [exact Hi|]. intros _ width _ [= <-]. apply Z.leb_le in Ew. unfold banned. lia.
    + intros [= <-]. cbn [fst]. rewrite list_elem_of_In, List.filter_In, <- list_elem_of_In, negb_true_iff. intros [Hi Hb].
      split; [exact Hi|]. now intros _ width _ [= <-].
Qed.

Lemma purged_and_embargoed train test t1 n_bars pct kept i :
  apply_embargo (purge_train train test t1).1 test n_bars pct = Ok kept -> i ∈ kept.1 -> i ∈ train /\ clear_of t1 n_bars pct test i.
Proof.
  intros H Hi. destruct (embargo_elem _ _ _ _ _ _ H Hi) as [H1 H2]. destruct (purge_elem _ _ _ _ H1) as [H3 H4].
  split; [exact H3|]. intros Ht. split; [now apply H4|now apply H2].
Qed.

(** A label that ends where it says and reaches no member of the block. *)
Lemma clear_label t1 n_bars pct test i j : clear_of t1 n_bars pct test i -> j ∈ test -> ~ (i <= j <= span_end t1 i).
Proof.
  intros H Hj. destruct (H ltac:(intros ->; inversion Hj)) as [Ho _]. pose proof (array_window j test Hj). unfold overlaps in Ho. lia.
Qed.

Lemma imap_tests (idx : list Z) n splits kf t1 n_bars : rmap (kfold_split_of kf idx t1 n_bars) (imap pair (array_split idx n)) = Ok splits ->
  map sp_test splits = array_split idx n.
Proof.
  intros H%rmap_Ok. revert H. generalize (array_split idx n). intros l. revert splits.
  cut (forall (h : nat -> nat) splits, Forall2 (fun x y => (kfold_split_of kf idx t1 n_bars x = Ok y)) (imap (fun i x => (h i, x)) l) splits -> map sp_test splits = l).
  { intros C splits H. exact (C id splits H). }
  induction l as [|x l IH]; intros h splits H; cbn in H; inversion H as [|? sp ? sps E Hr]; subst; [reflexivity|]. cbn [map]. f_equal.
  - unfold kfold_split_of in E. destruct (purge_train _ _ _) as [train purged]. inv_res. now subst.
  - exact (IH (h ∘ S) sps Hr).
Qed.

(** Every index is tested once, in order; the training set of a fold holds other
    indices, whose labels reach none that is tested and which are outside the band
    after the fold. *)
Theorem kfold_separates kf indices t1 n_bars splits : 2 <= kf_n_splits kf -> kfold_split kf indices t1 n_bars = Ok splits ->
  Z.of_nat (length splits) = kf_n_splits kf /\ concat (map sp_test splits) = sorted_indices indices /\
  forall sp i, sp ∈ splits -> i ∈ sp_train sp ->
    i ∈ indices /\ (i ∉ sp_test sp) /\ (forall j, j ∈ sp_test sp -> ~ (i <= j <= span_end t1 i)) /\ clear_of t1 n_bars (kf_embargo_pct kf) (sp_test sp) i.
Proof.
  intros Hn H. unfold kfold_split in H. pose proof (imap_tests _ _ _ _ _ _ H) as Et. split_and!.
  - apply (f_equal length) in Et. rewrite List.length_map, array_split_length in Et by lia. lia.
  - rewrite Et. apply array_split_concat. lia.
  - intros sp i Hs Hi. apply rmap_Ok in H. destruct (list_elem_of_lookup_1 _ _ Hs) as [q Hq].
    destruct (Forall2_lookup_r _ _ _ _ _ H Hq) as ([k test] & _ & E). unfold kfold_split_of in E.
    pose proof (purged_and_embargoed (setdiff1d (sorted_indices indices) test) test t1 n_bars (kf_embargo_pct kf)) as P.
    destruct (purge_train _ _ _) as [train purged]. cbn [fst] in P. inv_res. subst sp. cbn [sp_train sp_test] in *.
    destruct (P _ i eq_refl Hi) as [Hin Hc]. apply setdiff1d_elem in Hin as [Hin Hout]. rewrite sorted_indices_elem in Hin.
    split_and!; try assumption. intros j Hj. exact (clear_label _ _ _ _ _ _ Hc Hj).
Qed.

(** ** Combinations *)

Lemma combinations_0 {A} (l : list A) : combinations 0 l = [[]].
Proof. now destruct l. Qed.
Lemma comb_0 n : comb n 0 = 1%nat.
Proof. now destruct n. Qed.

Lemma combinations_length {A} (l : list A) : forall k, length (combinations k l) = comb (length l) k.
Proof.
  induction l as [|x l IH]; intros [|k]; cbn [combinations comb length]; try reflexivity.
  now rewrite length_app, List.length_map, !IH.
Qed.

Lemma combinations_incl {A} (l : list A) : forall k c, c ∈ combinations k l -> forall x, x ∈ c -> x ∈ l.
Proof.
  induction l as [|y l IH]; intros [|k] c Hc x Hx; cbn [combinations] in Hc; rewrite ?list_elem_of_singleton in Hc; try (subst; now inversion Hx);
    try (now inversion Hc).
  apply elem_of_app in Hc as [Hc|Hc]; [|apply elem_of_cons; right; exact (IH _ _ Hc _ Hx)].
  apply list_elem_of_fmap in Hc as (c' & -> & Hc'). apply elem_of_cons in Hx as [->|Hx]; [left|right; exact (IH _ _ Hc' _ Hx)].
Qed.

Lemma combinations_NoDup {A} (l : list A) : NoDup l -> forall k c, c ∈ combinations k l -> NoDup c.
Proof.
  induction 1 as [|y l Hy Hl IH]; intros [|k] c Hc; cbn [combinations] in Hc; rewrite ?list_elem_of_singleton in Hc; try (subst; constructor);
    try (now inversion Hc).
  apply elem_of_app in Hc as [Hc|Hc]; [|exact (IH _ _ Hc)]. apply list_elem_of_fmap in Hc as (c' & -> & Hc'). constructor; [|exact (IH _ _ Hc')].
  intros Hin. exact (Hy (combinations_incl _ _ _ Hc' _ Hin)).
Qed.

(** The positions of the combinations that hold a member. *)
Definition holding (g : nat) (c : list nat) : bool := bool_decide (g ∈ c).

Lemma filter_cons_holding g x l : g <> x -> length (List.filter (holding g) (map (cons x) l)) = length (List.filter (holding g) l).
Proof.
  intros Hg. induction l as [|c l IH]; [reflexivity|]. cbn [map List.filter].
  assert (E : holding g (x :: c) = holding g c) by (apply bool_decide_ext; set_solver). rewrite E. destruct (holding g c); cbn; now rewrite IH.
Qed.

Lemma keep_every {A} (f : A -> bool) l : (forall x, x ∈ l -> f x = true) -> List.filter f l = l.
Proof. induction l as [|x l IH]; intros H; [reflexivity|]. cbn. rewrite (H x) by left. rewrite IH; [reflexivity|]. intros y Hy. apply H. now right. Qed.
Lemma keep_no {A} (f : A -> bool) l : (forall x, x ∈ l -> f x = false) -> List.filter f l = [].
Proof. induction l as [|x l IH]; intros H; [reflexivity|]. cbn. rewrite (H x) by left. apply IH. intros y Hy. apply H. now right. Qed.

(** A member is in as many combinations as the others can complete. *)
Lemma holding_count g (l : list nat) : NoDup l -> g ∈ l -> forall k, length (List.filter (holding g) (combinations (S k) l)) = comb (length l - 1) k.
Proof.
  induction 1 as [|x l Hx Hl IH]; intros Hg k; [inversion Hg|]. cbn [combinations length]. rewrite Nat.sub_1_r. cbn [Nat.pred].
  rewrite List.filter_app, length_app. apply elem_of_cons in Hg as [->|Hg].
  - rewrite keep_every, keep_no, List.length_map, combinations_length; [cbn; lia| |].
    + intros c Hc. apply bool_decide_eq_false. intros H. exact (Hx (combinations_incl _ _ _ Hc _ H)).
    + intros c Hc. apply list_elem_of_fmap in Hc as (c' & -> & _). apply bool_decide_eq_true. left.
  - rewrite filter_cons_holding by (intros ->; contradiction). rewrite (IH Hg).
    destruct l as [|y l]; [inversion Hg|]. cbn [length] in *. rewrite Nat.sub_1_r. cbn [Nat.pred]. rewrite Nat.sub_1_r in IH. cbn [Nat.pred] in IH.
    destruct k as [|k]; [rewrite combinations_0, keep_no; [now rewrite !comb_0|]; intros c ->%list_elem_of_singleton; apply bool_decide_eq_false; intros H; inversion H|].
    rewrite (IH Hg k). cbn [comb]. lia.
Qed.

(** ** Combinatorial splits *)

Lemma clear_block_Ok groups t1 n_bars pct combo : forall acc out, fold_left (clear_block groups t1 n_bars pct) combo acc = Ok out ->
  exists state, acc = Ok state /\ forall i, i ∈ out.1 -> i ∈ state.1 /\ forall g, g ∈ combo -> clear_of t1 n_bars pct (group_of groups g) i.
Proof.
  induction combo as [|g combo IH]; intros acc out H; cbn [fold_left] in H.
  - subst acc. exists out. split; [reflexivity|]. intros i Hi. split; [exact Hi|]. intros g Hg. inversion Hg.
  - destruct (IH _ _ H) as ([train [p e]] & E & Hin). unfold clear_block in E. destruct acc as [[train0 [p0 e0]]|]; [|discriminate]. cbn [rbind] in E.
    pose proof (purged_and_embargoed train0 (group_of groups g) t1 n_bars pct) as P. destruct (purge_train _ _ _) as [train1 purged]. cbn [fst] in P.
    inv_res. subst. eexists. split; [reflexivity|]. cbn [fst] in *. intros i Hi. destruct (Hin i Hi) as [H1 H2].
    destruct (P _ i eq_refl H1) as [H3 H4]. split; [exact H3|]. intros g' [->|Hg']%elem_of_cons; [exact H4|now apply H2].
Qed.

Lemma cpcv_splits_Ok cv indices t1 n_bars splits : cpcv_split cv indices t1 n_bars = Ok splits ->
  1 <= cv_test_groups cv /\ Forall2 (fun c sp => cpcv_split_of cv (sorted_indices indices) t1 n_bars c = Ok sp) (combos cv) splits.
Proof. unfold cpcv_split. destruct (cv_test_groups cv <? 1) eqn:E; [discriminate|]. intros H%rmap_Ok. split; [lia|exact H]. Qed.

Lemma cpcv_split_facts cv idx t1 n_bars c sp : cpcv_split_of cv idx t1 n_bars c = Ok sp ->
  let groups := array_split idx (cv_n cv) in
  sp_test_groups sp = c /\ (forall i, i ∈ sp_test sp <-> exists g, g ∈ c /\ i ∈ group_of groups g) /\
  forall i, i ∈ sp_train sp -> i ∈ idx /\ forall g, g ∈ c -> (i ∉ group_of groups g) /\ clear_of t1 n_bars (cv_embargo_pct cv) (group_of groups g) i.
Proof.
  unfold cpcv_split_of. set (groups := array_split idx (cv_n cv)). intros H. inv_res. subst sp. cbn [sp_test_groups sp_test sp_train].
  match goal with E : fold_left _ _ _ = Ok _ |- _ => destruct (clear_block_Ok _ _ _ _ _ _ _ E) as (state & [= <-] & P) end. cbn [fst] in P.
  assert (T : forall i, i ∈ flat_map (group_of groups) c <-> exists g, g ∈ c /\ i ∈ group_of groups g).
  { intros i. rewrite list_elem_of_In, in_flat_map. setoid_rewrite <- list_elem_of_In. reflexivity. }
  split; [reflexivity|]. split; [intros i; rewrite sorted_indices_elem; apply T|]. intros i Hi. destruct (P i Hi) as [H1 H2].
  apply setdiff1d_elem in H1 as [H1 H3]. split; [exact H1|]. intros g Hg. split; [|now apply H2]. intros Hin. apply H3, T. eauto.
Qed.

(** ** Paths *)

Lemma flat_map_nth {A} (l : list (list A)) : flat_map (fun i => nth i l []) (seq 0 (length l)) = concat l.
Proof.
  rewrite flat_map_concat_map. f_equal. induction l as [|x l IH]; [reflexivity|]. cbn [length seq map nth]. f_equal. rewrite <- seq_shift, List.map_map. exact IH.
Qed.
Lemma flat_map_map {A B C} (f : B -> list C) (h : A -> B) l : flat_map f (map h l) = flat_map (fun x => f (h x)) l.
Proof. induction l as [|x l IH]; cbn; [reflexivity|now rewrite IH]. Qed.
Lemma flat_map_single {A B} (f : A -> list B) (h : A -> B) l : (forall x, x ∈ l -> f x = [h x]) -> flat_map f l = map h l.
Proof. induction l as [|x l IH]; intros H; [reflexivity|]. cbn. rewrite (H x) by left. cbn. f_equal. apply IH. intros y Hy. apply H. now right. Qed.

Lemma per_group_map {D} (f : nat -> D) g c : g ∈ c -> per_group_get g (map (fun h => (h, f h)) c) = Some (f g).
Proof.
  unfold per_group_get. induction c as [|h c IH]; intros Hg; [inversion Hg|]. cbn [map find fst]. destruct (Nat.eqb_spec h g) as [->|Hne]; [reflexivity|].
  apply IH. now apply elem_of_cons in Hg as [->|].
Qed.

Lemma one_result {D} (f : nat -> D) g c :
  NoDup c -> flat_map (fun h => if Nat.eqb h g then match per_group_get h (map (fun h => (h, f h)) c) with Some d => [d] | None => [] end else []) c
             = if holding g c then [f g] else [].
Proof.
  intros Hc. assert (E : forall l, (forall h, h ∈ l -> h ∈ c) -> NoDup l ->
    flat_map (fun h => if Nat.eqb h g then match per_group_get h (map (fun h => (h, f h)) c) with Some d => [d] | None => [] end else []) l
    = if holding g l then [f g] else []).
  { induction l as [|h l IH]; intros Hl Hn; [reflexivity|]. inversion Hn; subst. cbn [flat_map]. rewrite IH by (assumption || set_solver).
    unfold holding. destruct (Nat.eqb_spec h g) as [->|Hne].
    - rewrite (per_group_map f) by (apply Hl; left). rewrite !bool_decide_false, bool_decide_true by (assumption || left). reflexivity.
    - cbn. erewrite (bool_decide_ext (g ∈ h :: l)); [reflexivity|]. set_solver. }
  apply E; auto.
Qed.

(** The variants of the splits that test a group, in their order. *)
Definition tested_by (cs : list (list nat)) (chosen : list nat) (g : nat) : list nat :=
  map snd (List.filter (fun cb => holding g cb.1) (combine cs chosen)).

Lemma tested_by_length cs chosen g : length chosen = length cs -> length (tested_by cs chosen g) = length (List.filter (holding g) cs).
Proof.
  unfold tested_by. rewrite List.length_map. revert chosen. induction cs as [|c cs IH]; intros [|b chosen] H; try discriminate; [reflexivity|].
  cbn [combine List.filter fst]. destruct (holding g c); cbn [length]; rewrite IH by (cbn in H; lia); reflexivity.
Qed.

Section Paths.
Context {NP : Numpy}.
Context (s : Selection) (groups : list (list Z)).

Lemma by_group_chosen cs splits g : Forall2 (fun c sp => sp_test_groups sp = c) cs splits -> Forall NoDup cs ->
  by_group g (map snd (map (chosen_in s groups) splits)) = map (pair (group_of groups g)) (tested_by cs (map fst (map (chosen_in s groups) splits)) g).
Proof.
  unfold by_group. induction 1 as [|c sp cs splits E _ IH]; intros Hc; [reflexivity|]. inversion Hc; subst. cbn [map flat_map fst snd chosen_in].
  rewrite IH by assumption. rewrite (one_result (fun h => (group_of groups h, best_variant (sl_matrix s) (sl_periods_per_year s) (sl_n_variants s) (sp_train sp)))) by assumption.
  unfold tested_by. cbn [combine List.filter fst]. now destruct (holding g (sp_test_groups sp)).
Qed.

Lemma path_at_chosen cs splits n k p : Forall2 (fun c sp => sp_test_groups sp = c) cs splits -> cs = combinations (S k) (seq 0 n) -> (p < comb (n - 1) k)%nat ->
  path_at n (map snd (map (chosen_in s groups) splits)) p
  = map (fun g => (group_of groups g, nth p (tested_by cs (map fst (map (chosen_in s groups) splits)) g) 0%nat)) (seq 0 n).
Proof.
  intros H Hcs Hp. assert (Hn : Forall NoDup cs).
  { apply Forall_forall. intros c Hc. subst cs. exact (combinations_NoDup _ (NoDup_seq 0 n) _ _ Hc). }
  apply flat_map_single. intros g Hg. rewrite (by_group_chosen cs) by assumption. rewrite nth_error_map.
  rewrite (nth_error_nth' _ 0%nat); [reflexivity|]. rewrite tested_by_length, Hcs, holding_count; [now rewrite length_seq|apply NoDup_seq|exact Hg|].
  rewrite !List.length_map. symmetry. exact (Forall2_length _ _ _ H).
Qed.
End Paths.

Lemma groups_below n k c g : c ∈ combinations k (seq 0 n) -> g ∈ c -> (g < n)%nat.
Proof. intros Hc Hg. pose proof (combinations_incl _ _ _ Hc _ Hg) as H. apply elem_of_seq in H. lia. Qed.

(** The splits of a run of the selection, and what was chosen in each. *)
Lemma selection_Ok `{NP : Numpy} s r : cpcv_paths_from_matrix s = Ok r ->
  exists cv splits paths, cv = mkCpcv (sl_n_groups s) (sl_test_groups s) (sl_embargo_pct s) /\
    12 <= sl_n_groups s * 4 <= sl_bars s /\ 1 <= sl_test_groups s < sl_n_groups s /\
    Forall2 (fun c sp => cpcv_split_of cv (sorted_indices (sl_indices s)) (label_ends s) (sl_bars s) c = Ok sp) (combos cv) splits /\
    let chosen := map (chosen_in s (array_split (sl_indices s) (cv_n cv))) splits in
    assemble_paths cv (map snd chosen) = Ok paths /\ rp_chosen_per_split r = map fst chosen /\
    rp_n_splits r = Z.of_nat (comb (cv_n cv) (cv_k cv)) /\ rp_n_paths r = Z.of_nat (length paths) /\
    rp_paths r = map (fun path => dropna (path_returns (sl_matrix s) path)) paths.
Proof.
  unfold cpcv_paths_from_matrix. destruct ((_ <? _) || _) eqn:Eg; [discriminate|]. unfold cpcv at 1.
  destruct (_ <=? _) eqn:E1; [discriminate|]. destruct (_ <? 3) eqn:E2; [discriminate|]. cbn [rbind]. set (cv := mkCpcv _ _ _).
  intros H. inv_res. subst r. apply cpcv_splits_Ok in E as [Ht F]. cbn [cv_test_groups cv] in Ht.
  match goal with E : cv_n_splits cv = Ok _ |- _ => unfold cv_n_splits in E; destruct (_ <? 0); [discriminate|injection E as <-] end.
  eexists cv, _, _. split; [reflexivity|]. split; [lia|]. split; [lia|]. split; [exact F|]. cbn zeta. split_and!; try reflexivity. assumption.
Qed.

(** The paths are as many as the splits allow; each visits every bar of history once,
    in order, with the variant chosen by a split that tests it, and every choice of
    every split is used in exactly one path. *)
Theorem paths_tile_history `{NP : Numpy} s r : cpcv_paths_from_matrix s = Ok r ->
  let n := Z.to_nat (sl_n_groups s) in
  let k := Z.to_nat (sl_test_groups s) in
  let block := group_of (array_split (sl_indices s) n) in
  let variants := tested_by (combinations k (seq 0 n)) (rp_chosen_per_split r) in
  let n_paths := comb (n - 1) (k - 1) in
  flat_map block (seq 0 n) = sl_indices s /\
  rp_n_splits r = Z.of_nat (length (rp_chosen_per_split r)) /\ rp_n_paths r = Z.of_nat n_paths /\
  (forall g, (g < n)%nat -> length (variants g) = n_paths) /\
  rp_paths r = map (fun p => dropna (flat_map (fun g => map (fun i => (i, cell (sl_matrix s) i (nth p (variants g) 0%nat))) (block g)) (seq 0 n))) (seq 0 n_paths).
Proof.
  intros H. destruct (selection_Ok s r H) as (cv & splits & paths & Ecv & Hn & Hk & F & P). cbn zeta in P.
  assert (En : cv_n cv = Z.to_nat (sl_n_groups s)) by now subst cv. assert (Ek : cv_k cv = Z.to_nat (sl_test_groups s)) by now subst cv.
  rewrite En, Ek in P. destruct P as (Ea & Ec & Es & Ep & Er). cbn zeta.
  set (n := Z.to_nat (sl_n_groups s)) in *. set (k := Z.to_nat (sl_test_groups s)) in *. set (groups := array_split (sl_indices s) n) in *.
  assert (Eks : k = S (k - 1)) by lia. set (cs := combinations k (seq 0 n)).
  assert (Ecs : combos cv = cs) by (unfold combos; now rewrite En, Ek). rewrite Ecs in F.
  assert (Fg : Forall2 (fun c sp => sp_test_groups sp = c) cs splits).
  { eapply Forall2_impl; [exact F|]. intros c sp E. now destruct (cpcv_split_facts _ _ _ _ _ _ E). }
  assert (Hlen : length (rp_chosen_per_split r) = length cs) by (rewrite Ec, !List.length_map; symmetry; exact (Forall2_length _ _ _ Fg)).
  assert (Hv : forall g, (g < n)%nat -> length (tested_by cs (rp_chosen_per_split r) g) = comb (n - 1) (k - 1)).
  { intros g Hg. rewrite tested_by_length by exact Hlen. unfold cs. rewrite Eks, holding_count; [rewrite length_seq; f_equal; lia|apply NoDup_seq|apply elem_of_seq; lia]. }
  assert (Epaths : paths = map (fun p => map (fun g => (group_of groups g, nth p (tested_by cs (rp_chosen_per_split r) g) 0%nat)) (seq 0 n)) (seq 0 (comb (n - 1) (k - 1)))).
  { unfold assemble_paths in Ea. destruct (forallb _ _); [|discriminate]. unfold cv_n_paths in Ea. rewrite En, Ek in Ea. destruct (_ <? 1); [discriminate|].
    cbn [rbind] in Ea. injection Ea as <-. rewrite Nat2Z.id. set (N := comb (n - 1) (k - 1)) in *.
    assert (Em : map (path_at n (map snd (map (chosen_in s groups) splits))) (seq 0 N)
                 = map (fun p => map (fun g => (group_of groups g, nth p (tested_by cs (rp_chosen_per_split r) g) 0%nat)) (seq 0 n)) (seq 0 N)).
    { apply map_ext_in. intros p Hp%in_seq. rewrite Ec. apply (path_at_chosen s groups cs splits n (k - 1) p Fg); [unfold cs; f_equal; exact Eks|lia]. }
    rewrite Em. apply keep_every. intros path Hpath. apply list_elem_of_fmap in Hpath as (p & -> & _). apply Nat.eqb_eq. now rewrite List.length_map, length_seq. }
  split_and!.
  - assert (Hl : length groups = n) by (apply array_split_length; lia). rewrite <- Hl at 1. unfold group_of. rewrite flat_map_nth. apply array_split_concat. lia.
  - rewrite Es, Hlen. unfold cs. now rewrite combinations_length, length_seq.
  - rewrite Ep, Epaths, List.length_map, length_seq. reflexivity.
  - exact Hv.
  - rewrite Er, Epaths, List.map_map. apply map_ext. intros p. unfold path_returns. now rewrite flat_map_map.
Qed.

(** ** What a selection looks at *)

Lemma span_end_map f l i : i ∈ l -> span_end (map (fun j => (j, f j)) l) i = f i.
Proof.
  intros Hi. unfold span_end. rewrite <- List.map_rev. assert (Hr : i ∈ rev l) by (rewrite list_elem_of_In, <- in_rev, <- list_elem_of_In; exact Hi).
  revert Hr. generalize (rev l). clear l Hi. intros l Hi. induction l as [|j l IH]; [inversion Hi|]. cbn [map find fst].
  destruct (Z.eqb_spec j i) as [->|Hne]; [reflexivity|]. apply IH. now apply elem_of_cons in Hi as [->|].
Qed.

(** The bars a selection may not have seen for a set of test blocks: those whose
    outcome reaches the window of a block, and the band after it. *)
Definition held_out (s : Selection) (c : list nat) (i : Z) : Prop :=
  exists g, g ∈ c /\
    let block := group_of (array_split (sl_indices s) (Z.to_nat (sl_n_groups s))) g in
    ((i <= array_max block /\ array_min block <= label_end s i) \/
     (fleb (sl_embargo_pct s) (float_of_Z 0) = false /\ exists width, embargo_width (sl_bars s) (sl_embargo_pct s) = Ok width /\ banned block width i = true)).

Definition with_matrix (m : matrix) (s : Selection) : Selection :=
  mkSelection m (sl_n_variants s) (sl_n_groups s) (sl_test_groups s) (sl_embargo_pct s) (sl_horizon_bars s) (sl_periods_per_year s).

Lemma with_matrix_indices m s : length m = length (sl_matrix s) ->
  sl_bars (with_matrix m s) = sl_bars s /\ sl_indices (with_matrix m s) = sl_indices s /\ label_ends (with_matrix m s) = label_ends s.
Proof.
  intros H. assert (E : sl_bars (with_matrix m s) = sl_bars s) by (unfold sl_bars; cbn; now rewrite H).
  unfold label_ends, label_end, sl_indices. rewrite E. auto.
Qed.

Lemma lookup_map {A B} (f : A -> B) l q : map f l !! q = option_map f (l !! q).
Proof. exact (list_lookup_fmap f l q). Qed.
Lemma Forall2_functional {A B} (f : A -> res B) l xs ys : Forall2 (fun a b => f a = Ok b) l xs -> Forall2 (fun a b => f a = Ok b) l ys -> xs = ys.
Proof. intros H. revert ys. induction H as [|a b l xs E _ IH]; intros ys H'; inversion H'; subst; [reflexivity|]. f_equal; [congruence|now apply IH]. Qed.

Lemma best_variant_ext `{NP : Numpy} m m' ppy k train : (forall i, i ∈ train -> nth (Z.to_nat i) m [] = nth (Z.to_nat i) m' []) ->
  best_variant m ppy k train = best_variant m' ppy k train.
Proof.
  intros H. unfold best_variant. f_equal. apply map_ext. intros col. unfold sharpe.
  replace (map (fun i => cell m i col) train) with (map (fun i => cell m' i col) train); [reflexivity|].
  apply map_ext_in. intros i Hi%list_elem_of_In. unfold cell. now rewrite (H i Hi).
Qed.

(** The rows a split trains on are outside of what its blocks hold out. *)
Lemma train_not_held_out s c sp i : 0 < sl_n_groups s -> Z.of_nat (Z.to_nat (sl_n_groups s)) <= sl_bars s ->
  (forall g, g ∈ c -> (g < Z.to_nat (sl_n_groups s))%nat) ->
  cpcv_split_of (mkCpcv (sl_n_groups s) (sl_test_groups s) (sl_embargo_pct s)) (sorted_indices (sl_indices s)) (label_ends s) (sl_bars s) c = Ok sp ->
  i ∈ sp_train sp -> sorted_indices (sl_indices s) = sl_indices s -> 0 <= i < sl_bars s /\ ~ held_out s c i.
Proof.
  intros Hn Hb Hc E Hi Hsort. rewrite Hsort in E. destruct (cpcv_split_facts _ _ _ _ _ _ E) as (_ & _ & T). destruct (T i Hi) as [Hin Hg].
  split; [apply elem_of_seqZ in Hin; lia|]. intros (g & Hgc & Hh). cbn zeta in Hh. destruct (Hg g Hgc) as [_ Hclear].
  cbn [cv_n cv_n_groups cv_embargo_pct] in Hclear. unfold cv_n in Hclear. cbn [cv_n_groups] in Hclear.
  set (block := group_of (array_split (sl_indices s) (Z.to_nat (sl_n_groups s))) g) in *.
  assert (Hne : block <> []).
  { assert (F : Forall (fun p => p <> []) (array_split (sl_indices s) (Z.to_nat (sl_n_groups s)))).
    { apply array_split_nonempty. unfold sl_indices. rewrite length_seqZ. lia. }
    rewrite Forall_forall in F. apply F. unfold block, group_of. apply list_elem_of_In, nth_In. rewrite array_split_length by lia. now apply Hc. }
  destruct (Hclear Hne) as [Ho Hband]. unfold overlaps, label_ends in Ho. rewrite span_end_map in Ho by exact Hin.
  destruct Hh as [[H1 H2]|(Hp & w & Ew & Hw)]; [lia|]. rewrite (Hband w Hp Ew) in Hw. discriminate.
Qed.

Lemma seqZ_sorted m n : sorted_indices (seqZ m n) = seqZ m n.
Proof.
  apply (StronglySorted_unique Z.le); [apply Sorted_StronglySorted; [typeclasses eauto|apply Sorted_merge_sort; typeclasses eauto]| |apply merge_sort_Permutation].
  apply Sorted_StronglySorted; [typeclasses eauto|]. unfold seqZ. generalize (Z.to_nat n). intros k. revert m.
  induction k as [|k IH]; intros m; cbn; [constructor|]. constructor.
  - rewrite <- fmap_S_seq, <- list_fmap_compose. specialize (IH (m + 1)). erewrite list_fmap_ext; [exact IH|]. intros i x _. cbn. lia.
  - destruct k as [|k]; cbn; constructor. lia.
Qed.

(** C32: The variant that is chosen for a set of blocks depends on no bar they hold out:
    whatever the returns there, the choice is the same. *)
Theorem selection_is_out_of_sample `{NP : Numpy} s m' r r' q c : cpcv_paths_from_matrix s = Ok r -> cpcv_paths_from_matrix (with_matrix m' s) = Ok r' ->
  length m' = length (sl_matrix s) ->
  combinations (Z.to_nat (sl_test_groups s)) (seq 0 (Z.to_nat (sl_n_groups s))) !! q = Some c ->
  (forall i, 0 <= i < sl_bars s -> ~ held_out s c i -> nth (Z.to_nat i) (sl_matrix s) [] = nth (Z.to_nat i) m' []) ->
  exists v, rp_chosen_per_split r !! q = Some v /\ rp_chosen_per_split r' !! q = Some v.
Proof.
  intros H H' Hlen Hq Hrows. destruct (selection_Ok s r H) as (cv & splits & paths & Ecv & Hn & Hk & F & P).
  destruct (selection_Ok _ r' H') as (cv' & splits' & paths' & Ecv' & _ & _ & F' & P'). cbn zeta in P, P'.
  destruct P as (_ & Ec & _). destruct P' as (_ & Ec' & _). destruct (with_matrix_indices m' s Hlen) as (Eb & Ei & El). rewrite Eb, Ei, El in F'.
  change (mkCpcv (sl_n_groups (with_matrix m' s)) (sl_test_groups (with_matrix m' s)) (sl_embargo_pct (with_matrix m' s)))
    with (mkCpcv (sl_n_groups s) (sl_test_groups s) (sl_embargo_pct s)) in Ecv'. assert (cv' = cv) as -> by congruence.
  assert (splits' = splits) as -> by exact (Forall2_functional _ _ _ _ F' F).
  assert (Eq : combos cv !! q = Some c) by (rewrite Ecv; unfold combos, cv_n, cv_k; exact Hq).
  destruct (Forall2_lookup_l _ _ _ _ _ F Eq) as (sp & Esp & E).
  exists (best_variant (sl_matrix s) (sl_periods_per_year s) (sl_n_variants s) (sp_train sp)).
  rewrite Ec, Ec', !lookup_map, Esp. cbn [option_map fst chosen_in]. split; [reflexivity|]. f_equal.
  cbn [with_matrix sl_matrix sl_periods_per_year sl_n_variants]. symmetry. apply best_variant_ext. intros i Hi. rewrite Ecv in E.
  destruct (train_not_held_out s c sp i ltac:(lia) ltac:(lia)) as [Hr Hh]; [|exact E|exact Hi|apply seqZ_sorted|now apply Hrows].
  intros g Hg. apply (groups_below _ (Z.to_nat (sl_test_groups s)) c); [|exact Hg]. apply list_elem_of_lookup. now exists q.
Qed.

(** ** Rolling origins *)

(** The room for the windows. *)
Definition wf_room (w : WalkForward) : Z := wf_n_bars w - (wf_train_bars w + wf_gap_bars w + wf_test_bars w).
Definition wf_fuel (w : WalkForward) : nat := Z.to_nat (wf_room w + 1).
Definition wf_windows (w : WalkForward) : nat :=
  if wf_test_bars w <=? wf_embargo_bars w then 0%nat else Z.to_nat (wf_room w / wf_step_of w + 1).

Lemma wf_loop_ok w : 0 < wf_step_of w -> wf_embargo_bars w < wf_test_bars w -> forall fuel start, wf_room w - start + 1 <= Z.of_nat fuel ->
  wf_loop fuel w start = Some (map (fun k => wf_window w (start + Z.of_nat k * wf_step_of w)) (seq 0 (Z.to_nat ((wf_room w - start) / wf_step_of w + 1)))).
Proof.
  intros Hs He. induction fuel as [|fuel IH]; intros start Hf; cbn [wf_loop]; rewrite (proj2 (Z.leb_gt (wf_test_bars w) _)) by exact He;
    (destruct (_ <=? _) eqn:E; [apply Z.leb_le in E|apply Z.leb_gt in E]); unfold wf_room in *.
  - lia.
  - assert (D : (wf_n_bars w - (wf_train_bars w + wf_gap_bars w + wf_test_bars w) - start) / wf_step_of w < 0) by (apply Z.div_lt_upper_bound; lia).
    rewrite Z2Nat.nonpos by lia. reflexivity.
  - rewrite IH by lia. cbn [mbind option_bind]. f_equal.
    replace (wf_n_bars w - (wf_train_bars w + wf_gap_bars w + wf_test_bars w) - start)
      with ((wf_n_bars w - (wf_train_bars w + wf_gap_bars w + wf_test_bars w) - (start + wf_step_of w)) + 1 * wf_step_of w) by lia.
    rewrite Z.div_add by lia. set (x := _ / wf_step_of w).
    assert (Hx : -1 <= x) by (apply Z.div_le_lower_bound; lia).
    replace (Z.to_nat (x + 1 + 1)) with (S (Z.to_nat (x + 1))) by lia. cbn [seq map]. f_equal; [f_equal; lia|].
    rewrite <- seq_shift, List.map_map. apply map_ext. intros k. f_equal. lia.
  - assert (D : (wf_n_bars w - (wf_train_bars w + wf_gap_bars w + wf_test_bars w) - start) / wf_step_of w < 0) by (apply Z.div_lt_upper_bound; lia).
    rewrite Z2Nat.nonpos by lia. reflexivity.
Qed.

(** A window that fits, with a negative step, is followed by windows that fit: no
    number of turns is enough. *)
Lemma negative_step_never_ends w : wf_step_of w < 0 -> wf_embargo_bars w < wf_test_bars w ->
  forall fuel start, start <= wf_room w -> wf_loop fuel w start = None.
Proof.
  intros Hs He. induction fuel as [|fuel IH]; intros start H; cbn [wf_loop];
    rewrite (proj2 (Z.leb_gt (wf_test_bars w) _)) by exact He; rewrite (proj2 (Z.leb_le _ _)) by (unfold wf_room in H; lia); [reflexivity|].
  now rewrite IH by lia.
Qed.

(** C33: With a step that is not negative (a negative one never ends,
    [negative_step_never_ends]), the walk ends, with every window that fits, one step
    after the other, and a model trained for a window has seen no bar of its test nor
    of the seam before it.  No bar is tested twice when the bars of a test are at most
    a step and an embargo; with a shorter step tests overlap. *)
Theorem walk_forward_looks_back w : 0 <= wf_gap_bars w -> 0 <= wf_embargo_bars w -> match wf_step w with Some st => 0 <= st | None => True end ->
  let splits := map (fun k => wf_window w (Z.of_nat k * wf_step_of w)) (seq 0 (wf_windows w)) in
  walk_forward (wf_fuel w) w = Ok (Some splits) /\
  (forall sp i j, sp ∈ splits -> i ∈ sp_train sp -> j ∈ sp_test sp -> i + wf_gap_bars w + wf_embargo_bars w < j < wf_n_bars w) /\
  (wf_test_bars w <= wf_step_of w + wf_embargo_bars w -> forall p q sp sp' i j, (p < q)%nat -> splits !! p = Some sp -> splits !! q = Some sp' ->
     i ∈ sp_test sp -> j ∈ sp_test sp' -> i < j).
Proof.
  intros Hg He Hst splits. split_and!.
  - unfold walk_forward. rewrite !(proj2 (Z.ltb_ge _ _)) by assumption. cbn [orb]. f_equal. unfold splits, wf_windows.
    destruct (wf_test_bars w <=? wf_embargo_bars w) eqn:E.
    + cbn [seq map]. destruct (wf_fuel w); cbn [wf_loop]; rewrite E; match goal with |- (if ?b then _ else _) = _ => destruct b end; reflexivity.
    + apply Z.leb_gt in E. assert (Hs : 0 < wf_step_of w).
      { unfold wf_step_of. destruct (wf_step w) as [st|]; [|lia]. destruct (Z.eqb_spec st 0); lia. }
      rewrite (wf_loop_ok w Hs E) by (unfold wf_fuel; lia). rewrite Z.sub_0_r. reflexivity.
  - intros sp i j Hsp Hi Hj. apply list_elem_of_fmap in Hsp as (k & -> & Hk). cbn [wf_window sp_train sp_test] in *.
    rewrite elem_of_seqZ in Hi, Hj. apply elem_of_seq in Hk. unfold wf_windows in Hk. destruct (_ <=? _) eqn:E; [lia|]. apply Z.leb_gt in E.
    assert (Hs : 0 < wf_step_of w).
    { unfold wf_step_of. destruct (wf_step w) as [st|]; [|lia]. destruct (Z.eqb_spec st 0); lia. }
    assert (Hlast : Z.of_nat k * wf_step_of w <= wf_room w).
    { assert (Z.of_nat k <= wf_room w / wf_step_of w) by lia. pose proof (Z.mul_div_le (wf_room w) (wf_step_of w) Hs). nia. }
    unfold wf_room in Hlast. lia.
  - intros Htest p q sp sp' i j Hpq Hp Hq Hi Hj. unfold splits in Hp, Hq. rewrite lookup_map in Hp, Hq.
    destruct (seq 0 _ !! p) as [p'|] eqn:Ep; [|discriminate]. destruct (seq 0 _ !! q) as [q'|] eqn:Eq; [|discriminate].
    apply lookup_seq in Ep as [-> Hp']. apply lookup_seq in Eq as [-> Hq']. injection Hp as <-. injection Hq as <-. unfold wf_windows in Hp'.
    destruct (_ <=? _) eqn:E; [lia|]. apply Z.leb_gt in E. cbn [wf_window sp_test] in *. rewrite elem_of_seqZ in Hi, Hj. nia.
Qed.

(** ** The theorems on a demo history *)

#[local] Instance demo_numpy : Numpy := {
  np_mean := fun l => fdiv (fold_left fadd l (float_of_Z 0)) (float_of_Z (Z.of_nat (length l)));
  np_std := fun _ => float_of_Z 2 }.
(** A sixteenth. *)
Definition demo_pct : spec_float := fdiv (float_of_Z 1) (float_of_Z 16).
Definition demo_kfold : PurgedKFold := mkKFold 3 demo_pct.
Definition demo_days : list Z := [4; 0; 1; 2; 3; 5; 6; 7; 8].
Definition demo_ends : list (Z * Z) := map (fun i => (i, i + 1)) demo_days.
Definition or_none {A} (r : res (list A)) : list A := match r with Ok l => l | Raise _ => [] end.
Definition demo_folds : list Split := or_none (kfold_split demo_kfold demo_days demo_ends 16).

(** The middle fold tests three to five: two reaches it, six is in the band. *)
Example kfold_separates_witness : map sp_train demo_folds !! 1%nat = Some [0; 1; 7; 8] /\ concat (map sp_test demo_folds) = [0; 1; 2; 3; 4; 5; 6; 7; 8].
Proof.
  split; [vm_compute; reflexivity|].
  destruct (kfold_separates demo_kfold demo_days demo_ends 16 demo_folds ltac:(vm_compute; discriminate) ltac:(vm_compute; reflexivity)) as (_ & E & _).
  rewrite E. vm_compute. reflexivity.
Defined.

(** Two variants over sixteen bars: the first gains in the first half, the second in
    the other. *)
Definition demo_matrix : matrix := map (fun i => if i <? 8 then [float_of_Z 1; float_of_Z 0] else [float_of_Z 0; float_of_Z 1]) (seqZ 0 16).
Definition demo_selection : Selection := mkSelection demo_matrix 2 4 2 demo_pct 1 252.
Definition report_or (r : res CPCVPathReport) : CPCVPathReport := match r with Ok x => x | Raise _ => mkPathReport 0 0 0 0 0 [] [] end.
Definition demo_report : CPCVPathReport := report_or (cpcv_paths_from_matrix demo_selection).

Example paths_tile_history_witness : rp_n_paths demo_report = 3 /\ length (rp_chosen_per_split demo_report) = 6%nat /\
  map (map fst) (rp_paths demo_report) = replicate 3 (seqZ 0 16).
Proof.
  assert (R : cpcv_paths_from_matrix demo_selection = Ok demo_report) by (vm_compute; reflexivity).
  pose proof (paths_tile_history demo_selection demo_report R) as H. cbv zeta in H. destruct H as (_ & _ & E & _).
  split; [exact E|]. split; vm_compute; reflexivity.
Defined.

(** The returns of the last two blocks may be anything for the choice of the split
    that tests them. *)
Definition demo_other : matrix := map (fun i => if i <? 8 then [float_of_Z 1; float_of_Z 0] else [float_of_Z 7; S754_nan]) (seqZ 0 16).
Definition other_report : CPCVPathReport := report_or (cpcv_paths_from_matrix (with_matrix demo_other demo_selection)).
Example selection_is_out_of_sample_witness : exists v, rp_chosen_per_split demo_report !! 5%nat = Some v /\ rp_chosen_per_split other_report !! 5%nat = Some v.
Proof.
  assert (R : cpcv_paths_from_matrix demo_selection = Ok demo_report) by (vm_compute; reflexivity).
  assert (R' : cpcv_paths_from_matrix (with_matrix demo_other demo_selection) = Ok other_report) by (vm_compute; reflexivity).
  refine (selection_is_out_of_sample demo_selection demo_other demo_report other_report 5%nat [2; 3]%nat R R' eq_refl ltac:(vm_compute; reflexivity) _).
  intros i Hi Hh. change (sl_bars demo_selection) with 16 in Hi. destruct (Z.lt_ge_cases i 8) as [Hlt|Hge].
  - assert (C : In i (seqZ 0 8)) by (apply list_elem_of_In, elem_of_seqZ; lia). cbn in C. repeat (destruct C as [<-|C]; [reflexivity|]). destruct C.
  - exfalso. apply Hh. assert (El : label_end demo_selection i = Z.min (i + 1) 15) by reflexivity.
    assert (W : forall g, g = 2%nat \/ g = 3%nat ->
      array_max (group_of (array_split (sl_indices demo_selection) (Z.to_nat (sl_n_groups demo_selection))) g) = 4 * Z.of_nat g + 3 /\
      array_min (group_of (array_split (sl_indices demo_selection) (Z.to_nat (sl_n_groups demo_selection))) g) = 4 * Z.of_nat g)
      by (intros g [-> | ->]; vm_compute; split; reflexivity).
    destruct (W 2%nat (or_introl eq_refl)) as [A2 B2]. destruct (W 3%nat (or_intror eq_refl)) as [A3 B3].
    destruct (Z.lt_ge_cases i 12) as [H12|H12]; [exists 2%nat; split; [left|]|exists 3%nat; split; [right; left|]]; left;
      (split; [rewrite ?A2, ?A3|rewrite El, ?B2, ?B3]); clear -Hi H12 Hge; lia.
Defined.

Definition demo_walk : WalkForward := mkWalk 20 8 4 None false 1 1.
Example walk_forward_looks_back_witness : walk_forward (wf_fuel demo_walk) demo_walk = Ok (Some [wf_window demo_walk 0; wf_window demo_walk 4]) /\
  map sp_test [wf_window demo_walk 0; wf_window demo_walk 4] = [[10; 11; 12]; [14; 15; 16]].
Proof.
  destruct (walk_forward_looks_back demo_walk ltac:(vm_compute; discriminate) ltac:(vm_compute; discriminate) I) as (E & _).
  split; [rewrite E; vm_compute; reflexivity|vm_compute; reflexivity].
Defined.
