(* ===== verification/Memory.v ===== *)
(** [sentinel/agent/memory.py]: the lessons of the agent and its autopsies, with the
    findings of [agent/postmortem.py] they are made of.

    The tables of the database are lists of rows in the order of their identities;
    rows are never deleted from the lessons.  The clock is an argument.  The powers and
    logarithms of the C library are the class [CMath]. *)

From Stdlib Require Import ZArith Lia SpecFloat Ascii String.
From stdpp Require Import base strings list sorting.
From S2P Require Import Prelude PyDecimal Calendar PyFloat PyText PyDict PyJson.

Local Open Scope Z_scope.
Local Open Scope py_scope.

(** ** Texts of numbers *)

Definition negative (x : spec_float) : bool := match x with S754_zero s | S754_infinity s | S754_finite s _ _ => s | S754_nan => false end.
(** [f"{x:.2f}"] and [f"{x:.0f}"] without the sign. *)
Definition fixed_digits (places : nat) (x : spec_float) : string :=
  match round_digits x (Z.of_nat places) with
  | Some k =>
      let ds := digits (Z.abs k) in
      let padded := repeat 0 (S places - length ds) ++ ds in
      let split := (length padded - places)%nat in
      string_of_list_ascii (map digit_char (take split padded)
        ++ match drop split padded with [] => [] | fp => "."%char :: map digit_char fp end)
  | None => match x with S754_nan => "nan" | _ => "inf" end
  end.
(** [f"{x:+.2f}"]. *)
Definition signed2 (x : spec_float) : string := (if negative x then "-" else "+") +:+ fixed_digits 2 x.
Definition whole (x : spec_float) : string := (if negative x then "-" else "") +:+ fixed_digits 0 x.
Definition int_text (z : Z) : string := string_of_list_ascii (sign_text (z <? 0) ++ map digit_char (digits (Z.abs z))).

(** ** Findings *)

(** [PatternFinding]. *)
Record PatternFinding := mkFinding {
  pf_pattern : string;
  pf_n : Z;
  pf_share : spec_float;
  pf_mean_r : spec_float;
  pf_mean_delta_r : spec_float;
  pf_t_stat : spec_float;
  pf_p_value : spec_float;
  pf_recommendation : string;
  pf_evidence : json;
  pf_p_value_adjusted : spec_float;
  pf_significant : bool;
  pf_n_tests_in_family : Z;
  pf_diagnosis : string;
  pf_diagnosis_note : string;
  pf_stability : spec_float;
  pf_regime_concentration : spec_float;
  pf_dominant_regime : string
}.
(** [PatternFinding.to_dict]. *)
Definition finding_dict (f : PatternFinding) : list (string * json) :=
  [("pattern", JStr (pf_pattern f)); ("n", JInt (pf_n f)); ("share", JFloat (fround_to (pf_share f) 3));
   ("mean_r", JFloat (fround_to (pf_mean_r f) 3)); ("mean_delta_r", JFloat (fround_to (pf_mean_delta_r f) 3));
   ("t_stat", JFloat (fround_to (pf_t_stat f) 3)); ("p_value", JFloat (fround_to (pf_p_value f) 5));
   ("p_value_adjusted", JFloat (fround_to (pf_p_value_adjusted f) 5)); ("significant", JBool (pf_significant f));
   ("n_tests_in_family", JInt (pf_n_tests_in_family f)); ("diagnosis", JStr (pf_diagnosis f)); ("diagnosis_note", JStr (pf_diagnosis_note f));
   ("stability", JFloat (fround_to (pf_stability f) 3)); ("regime_concentration", JFloat (fround_to (pf_regime_concentration f) 3));
   ("dominant_regime", JStr (pf_dominant_regime f)); ("recommendation", JStr (pf_recommendation f)); ("evidence", pf_evidence f)].

(** ** Lessons *)

Record Lesson := mkLesson {
  le_scope : string;
  le_statement : string;
  le_evidence : list (string * json);
  le_sample_size : Z;
  le_effect_r : spec_float;
  le_p_value : spec_float;
  le_strategy : option string;
  le_instrument : option string;
  le_regime : option string;
  le_session : option string;
  le_caution : spec_float;
  le_created_ns : Z;
  le_last_confirmed_ns : Z;
  le_review_count : Z;
  le_contradiction_count : Z;
  le_half_life_days : spec_float
}.

Class CMath := {
  half_pow : spec_float -> spec_float;       (* 0.5 ** x *)
  log10_of : Z -> spec_float                 (* math.log10(n) *)
}.

Definition one : spec_float := float_of_Z 1.
Definition quarter : spec_float := fdiv (float_of_Z 1) (float_of_Z 4).
Definition HALF_LIFE : spec_float := float_of_Z 90.
(** [86_400e9]. *)
Definition DAY_NS : Z := 86400000000000.
Definition or_ns (a b : Z) : Z := if a =? 0 then b else a.

(** [Lesson.__post_init__]. *)
Definition post_init (l : Lesson) : Lesson :=
  mkLesson (le_scope l) (le_statement l) (le_evidence l) (le_sample_size l) (le_effect_r l) (le_p_value l) (le_strategy l) (le_instrument l)
    (le_regime l) (le_session l) (fmin one (fmax quarter (le_caution l))) (le_created_ns l) (or_ns (le_last_confirmed_ns l) (le_created_ns l))
    (le_review_count l) (le_contradiction_count l) (le_half_life_days l).

Definition age_days (l : Lesson) (now_ns : Z) : spec_float :=
  fmax (float_of_Z 0) (fdiv (float_of_Z (now_ns - or_ns (le_last_confirmed_ns l) (le_created_ns l))) (float_of_Z DAY_NS)).

Section Lessons.
Context {CM : CMath}.

(** [Lesson.effective_caution]. *)
Definition effective_caution (l : Lesson) (now_ns : Z) : spec_float :=
  if fleb one (le_caution l) then one
  else
    let hl := fmax one (le_half_life_days l) in
    let weight := half_pow (fdiv (age_days l now_ns) hl) in
    fmin one (fsub one (fmul (fsub one (le_caution l)) weight)).

(** [0.05] and [2.5]. *)
Definition confidence_of (sample_size : Z) (p_value : spec_float) : spec_float :=
  let n_term := fmin one (fdiv (log10_of (Z.max 1 sample_size)) (float_of_dec 2.5%dec)) in
  let p_term := fmax (float_of_Z 0) (fmin one (fsub one (fdiv p_value (float_of_dec 0.05%dec)))) in
  fround_to (fmul n_term p_term) 4.
(** [Lesson.confidence]. *)
Definition confidence (l : Lesson) : spec_float := confidence_of (le_sample_size l) (le_p_value l).

(** ** The store *)

Inductive Status := Active | Superseded | Retired.
#[export] Instance Status_eq_dec : EqDecision Status.
Proof. solve_decision. Defined.

Record LessonRow := mkRow {
  row_id : Z;
  row_updated_ns : Z;
  row_lesson : Lesson;
  row_confidence : spec_float;
  row_status : Status;
  row_superseded_by : option Z
}.
Record AutopsyRow := mkAutopsy { au_trade_id : string; au_created_ns : Z; au_strategy : string; au_payload : json }.
Record MemoryStore := mkMemory { mm_lessons : list LessonRow; mm_autopsies : list AutopsyRow }.
Definition empty_memory : MemoryStore := mkMemory [] [].

Definition set_lessons (f : list LessonRow -> list LessonRow) (m : MemoryStore) : MemoryStore := mkMemory (f (mm_lessons m)) (mm_autopsies m).
Definition update_row (f : LessonRow -> LessonRow) (id : Z) (rows : list LessonRow) : list LessonRow :=
  map (fun r => if row_id r =? id then f r else r) rows.
Definition is_status (s : Status) (r : LessonRow) : bool := bool_decide (row_status r = s).

(** [_row_to_lesson]. *)
Definition row_to_lesson (r : LessonRow) : Lesson := post_init (row_lesson r).

(** *** Autopsies *)

Definition record_autopsy (a : AutopsyRow) (m : MemoryStore) : MemoryStore :=
  mkMemory (mm_lessons m) (List.filter (fun b => negb (bool_decide (au_trade_id b = au_trade_id a))) (mm_autopsies m) ++ [a]).
Definition of_strategy (strategy : option string) (a : AutopsyRow) : bool :=
  match strategy with Some s => bool_decide (s = "") || bool_decide (au_strategy a = s) | None => true end.
(** [ORDER BY column DESC]. *)
Definition newest {A} (f : A -> Z) (a b : A) : Prop := f b <= f a.
#[export] Instance newest_dec {A} (f : A -> Z) : RelDecision (newest f).
Proof. intros a b. unfold newest. apply _. Defined.
Definition autopsies (strategy : option string) (limit : nat) (m : MemoryStore) : list json :=
  map au_payload (take limit (merge_sort (newest au_created_ns) (List.filter (of_strategy strategy) (mm_autopsies m)))).
Definition autopsy_count (strategy : option string) (m : MemoryStore) : Z := Z.of_nat (length (List.filter (of_strategy strategy) (mm_autopsies m))).

(** *** Adding *)

Definition or_empty (s : option string) : string := default "" s.
(** What makes two lessons versions of one. *)
Definition lesson_key (l : Lesson) : string * string * string * string :=
  (le_statement l, or_empty (le_strategy l), or_empty (le_instrument l), or_empty (le_regime l)).
Definition row_key (r : LessonRow) := lesson_key (row_lesson r).
Definition last_row (f : LessonRow -> bool) (rows : list LessonRow) : option LessonRow := find f (rev rows).
Definition same_key (l : Lesson) (r : LessonRow) : bool := bool_decide (row_key r = lesson_key l).

(** The previous version: the active one, or the last that was retired. *)
Definition prior_of (l : Lesson) (rows : list LessonRow) : option LessonRow :=
  match last_row (fun r => same_key l r && is_status Active r) rows with
  | Some r => Some r
  | None => last_row (fun r => same_key l r && is_status Retired r) rows
  end.

(** [json_extract(evidence, '$.retire_reason')], which is a text. *)
Definition retire_reason (l : Lesson) : string := match dict_get "retire_reason" (le_evidence l) with Some (JStr s) => s | _ => "" end.
(** Retired for a cause that new evidence does not overturn. *)
Definition condemned (r : LessonRow) : bool :=
  (0 <? le_contradiction_count (row_lesson r))
  || contains "contradict" (retire_reason (row_lesson r)) || contains "reversal" (retire_reason (row_lesson r))
  || contains "operator" (retire_reason (row_lesson r)) || contains "manual" (retire_reason (row_lesson r)).

Definition with_contradictions (n : Z) (l : Lesson) : Lesson :=
  mkLesson (le_scope l) (le_statement l) (le_evidence l) (le_sample_size l) (le_effect_r l) (le_p_value l) (le_strategy l) (le_instrument l)
    (le_regime l) (le_session l) (le_caution l) (le_created_ns l) (le_last_confirmed_ns l) (le_review_count l) n (le_half_life_days l).
Definition with_evidence (e : list (string * json)) (l : Lesson) : Lesson :=
  mkLesson (le_scope l) (le_statement l) e (le_sample_size l) (le_effect_r l) (le_p_value l) (le_strategy l) (le_instrument l)
    (le_regime l) (le_session l) (le_caution l) (le_created_ns l) (le_last_confirmed_ns l) (le_review_count l) (le_contradiction_count l) (le_half_life_days l).
Definition confirmed_lesson (now_ns merged_n : Z) (effect_r p_value : spec_float) (l : Lesson) : Lesson :=
  mkLesson (le_scope l) (le_statement l) (le_evidence l) merged_n effect_r p_value (le_strategy l) (le_instrument l)
    (le_regime l) (le_session l) (le_caution l) (le_created_ns l) now_ns (le_review_count l + 1) (le_contradiction_count l) (le_half_life_days l).
Definition supersede (now new_id : Z) (r : LessonRow) : LessonRow :=
  mkRow (row_id r) now (row_lesson r) (row_confidence r) Superseded (Some new_id).

(** The next identity: no row was ever deleted. *)
Definition next_id (rows : list LessonRow) : Z := Z.of_nat (length rows) + 1.
Definition new_row (now : Z) (id : Z) (l : Lesson) : LessonRow :=
  mkRow id now
    (mkLesson (le_scope l) (le_statement l) (le_evidence l) (le_sample_size l) (le_effect_r l) (le_p_value l) (le_strategy l) (le_instrument l)
       (le_regime l) (le_session l) (le_caution l) (le_created_ns l) (or_ns (le_last_confirmed_ns l) (le_created_ns l)) (le_review_count l)
       (le_contradiction_count l) (le_half_life_days l))
    (confidence l) Active None.

(** [add_lesson]. *)
Definition add_lesson (now : Z) (l : Lesson) (m : MemoryStore) : MemoryStore * Z :=
  let rows := mm_lessons m in
  let id := next_id rows in
  match prior_of l rows with
  | None => (set_lessons (fun rows => rows ++ [new_row now id l]) m, id)
  | Some prior =>
      if is_status Retired prior && condemned prior then (m, row_id prior)
      else
        let l := if is_status Retired prior
                 then with_contradictions (Z.max (le_contradiction_count l) (le_contradiction_count (row_lesson prior))) l else l in
        (set_lessons (fun rows => update_row (supersede now id) (row_id prior) rows ++ [new_row now id l]) m, id)
  end.

(** *** Retiring and reviewing *)

Definition retired_row (now contradictions : Z) (reason : string) (r : LessonRow) : LessonRow :=
  mkRow (row_id r) now (with_contradictions contradictions (with_evidence (dict_set "retire_reason" (JStr reason) (le_evidence (row_lesson r))) (row_lesson r)))
    (row_confidence r) Retired (row_superseded_by r).
Definition active_row (id : Z) (rows : list LessonRow) : option LessonRow := find (fun r => (row_id r =? id) && is_status Active r) rows.

(** [retire]. *)
Definition retire (now id : Z) (reason : string) (m : MemoryStore) : MemoryStore * bool :=
  match active_row id (mm_lessons m) with
  | None => (m, false)
  | Some _ => (set_lessons (update_row (fun r => retired_row now (le_contradiction_count (row_lesson r)) reason r) id) m, true)
  end.

Inductive Review := Confirmed | Contradicted | RetiredNow | Missing.
Definition positive_float (x : spec_float) : bool := fltb (float_of_Z 0) x.
Definition is_zero (x : spec_float) : bool := feqb x (float_of_Z 0).
Definition reversed_sign (before after : spec_float) : bool :=
  negb (is_zero before) && negb (is_zero after) && negb (Bool.eqb (positive_float before) (positive_float after)).
Definition MAX_CONTRADICTIONS : Z := 2.

Definition contradicted_row (now contradictions : Z) (r : LessonRow) : LessonRow :=
  mkRow (row_id r) now (with_contradictions contradictions (row_lesson r)) (row_confidence r) (row_status r) (row_superseded_by r).
Definition confirmed_row (now merged_n : Z) (effect_r p_value : spec_float) (r : LessonRow) : LessonRow :=
  mkRow (row_id r) now (confirmed_lesson now merged_n effect_r p_value (row_lesson r)) (confidence_of merged_n p_value) (row_status r) (row_superseded_by r).

(** [review_lesson]. *)
Definition review_lesson (now id : Z) (supported : bool) (sample_size : Z) (effect_r p_value : spec_float) (m : MemoryStore) : MemoryStore * Review :=
  match active_row id (mm_lessons m) with
  | None => (m, Missing)
  | Some row =>
      let l := row_lesson row in
      let reversed := reversed_sign (le_effect_r l) effect_r in
      if supported && negb reversed then
        (set_lessons (update_row (confirmed_row now (le_sample_size l + sample_size) effect_r p_value) id) m, Confirmed)
      else
        let contradictions := le_contradiction_count l + 1 in
        if reversed || (MAX_CONTRADICTIONS <=? contradictions) then
          let reason := if reversed then "the effect reversed sign on fresh evidence"
                        else "contradicted by fresh evidence " +:+ int_text contradictions +:+ " times" in
          (set_lessons (update_row (retired_row now contradictions reason) id) m, RetiredNow)
        else (set_lessons (update_row (contradicted_row now contradictions) id) m, Contradicted)
  end.

(** [expire_unconfirmed], with its default of 365 days. *)
Definition MAX_UNCONFIRMED_NS : Z := 365 * DAY_NS.
Definition unconfirmed (cutoff : Z) (r : LessonRow) : bool :=
  is_status Active r
  && ((if 0 <? le_last_confirmed_ns (row_lesson r) then le_last_confirmed_ns (row_lesson r) else le_created_ns (row_lesson r)) <? cutoff).
Definition expire_unconfirmed (now : Z) (m : MemoryStore) : MemoryStore * Z :=
  let cutoff := now - MAX_UNCONFIRMED_NS in
  (set_lessons (map (fun r => if unconfirmed cutoff r
                             then retired_row now (le_contradiction_count (row_lesson r)) "no confirming evidence in 365 days" r else r)) m,
   Z.of_nat (length (List.filter (unconfirmed cutoff) (mm_lessons m)))).

(** *** Reviewing against findings *)

(** The finding of a pattern: the last one wins. *)
Definition by_pattern (findings : list PatternFinding) (pattern : string) : option PatternFinding :=
  find (fun f => negb (bool_decide (pf_pattern f = "")) && bool_decide (pf_pattern f = pattern)) (rev findings).
Definition lesson_pattern (l : Lesson) : option string :=
  match dict_get "pattern" (le_evidence l) with Some (JStr s) => if bool_decide (s = "") then None else Some s | _ => None end.
Definition effective_p_of (f : PatternFinding) : spec_float := if is_zero (pf_p_value_adjusted f) then pf_p_value f else pf_p_value_adjusted f.

Record ReviewCounts := mkCounts { rv_confirmed : Z; rv_contradicted : Z; rv_retired : Z; rv_untested : Z }.
Definition count_review (r : Review) (c : ReviewCounts) : ReviewCounts :=
  match r with
  | Confirmed => mkCounts (rv_confirmed c + 1) (rv_contradicted c) (rv_retired c) (rv_untested c)
  | Contradicted => mkCounts (rv_confirmed c) (rv_contradicted c + 1) (rv_retired c) (rv_untested c)
  | RetiredNow => mkCounts (rv_confirmed c) (rv_contradicted c) (rv_retired c + 1) (rv_untested c)
  | Missing => c
  end.
Definition count_untested (c : ReviewCounts) : ReviewCounts := mkCounts (rv_confirmed c) (rv_contradicted c) (rv_retired c) (rv_untested c + 1).

Definition review_row (findings : list PatternFinding) (alpha : spec_float) (now : Z) (acc : MemoryStore * ReviewCounts) (r : LessonRow)
    : MemoryStore * ReviewCounts :=
  match lesson_pattern (row_to_lesson r) ≫= by_pattern findings with
  | None => (acc.1, count_untested acc.2)
  | Some f =>
      let p_eff := effective_p_of f in
      let supported := fltb p_eff alpha && (10 <=? pf_n f) in
      let (m, outcome) := review_lesson now (row_id r) supported (pf_n f) (pf_mean_delta_r f) p_eff acc.1 in
      (m, count_review outcome acc.2)
  end.

(** [all_lessons()]: the active ones, the last updated first. *)
Definition all_active (m : MemoryStore) : list LessonRow :=
  merge_sort (newest row_updated_ns) (List.filter (is_status Active) (mm_lessons m)).
(** [review_against]. *)
Definition review_against (findings : list PatternFinding) (alpha : spec_float) (now : Z) (m : MemoryStore) : MemoryStore * ReviewCounts :=
  fold_left (review_row findings alpha now) (all_active m) (m, mkCounts 0 0 0 0).

(** *** Recalling *)

(** [column IS NULL OR column = ?]. *)
Definition applies (column param : option string) : bool :=
  match column with None => true | Some c => match param with Some p => bool_decide (c = p) | None => false end end.
Record Situation := mkSituation { si_strategy : option string; si_instrument : option string; si_regime : option string; si_session : option string }.
Definition relevant (x : Situation) (r : LessonRow) : bool :=
  let l := row_lesson r in
  is_status Active r && applies (le_strategy l) (si_strategy x) && applies (le_instrument l) (si_instrument x)
  && applies (le_regime l) (si_regime x) && applies (le_session l) (si_session x).

(** [ORDER BY confidence DESC, sample_size DESC]. *)
Definition more_confident (a b : LessonRow) : Prop :=
  fltb (row_confidence b) (row_confidence a)
  || (negb (fltb (row_confidence a) (row_confidence b)) && (le_sample_size (row_lesson b) <=? le_sample_size (row_lesson a))) = true.
#[export] Instance more_confident_dec : RelDecision more_confident.
Proof. intros a b. unfold more_confident. apply _. Defined.

(** [recall]. *)
Definition recall (x : Situation) (limit : nat) (m : MemoryStore) : list Lesson :=
  map row_to_lesson (take limit (merge_sort more_confident (List.filter (relevant x) (mm_lessons m)))).

(** What a lesson weighs. *)
Definition weighted_caution (now : Z) (l : Lesson) : spec_float :=
  fsub one (fmul (fsub one (effective_caution l now)) (confidence l)).
Definition weigh (now : Z) (multiplier : spec_float) (l : Lesson) : spec_float :=
  if fleb one (effective_caution l now) then multiplier else fmul multiplier (weighted_caution now l).
(** [0.4]. *)
Definition CAUTION_FLOOR : spec_float := float_of_dec 0.4%dec.
(** [caution_multiplier], with its default floor. *)
Definition caution_multiplier (strategy instrument regime : option string) (now : Z) (m : MemoryStore) : spec_float :=
  let lessons := recall (mkSituation strategy instrument regime None) 12 m in
  fmax CAUTION_FLOOR (fround_to (fold_left (weigh now) lessons one) 4).
End Lessons.
