(* ===== verification/MemoryProps.v ===== *)
(** What the lessons of the agent keep through any calls: one active version of each,
    what was condemned stays retired, and a caution that never raises a size. *)

From Stdlib Require Import ZArith Lia SpecFloat Ascii String.
From stdpp Require Import base strings list sorting.
From S2P Require Import Prelude PyDecimal Calendar PyFloat PyText PyDict PyJson FloatTheory UnitFloat Memory.

Local Open Scope Z_scope.
Local Open Scope py_scope.

(** ** Calls *)

Section Calls.
Context {CM : CMath}.

Inductive MemoryCall :=
| CallAutopsy (a : AutopsyRow)
| CallAdd (now : Z) (l : Lesson)
| CallRetire (now id : Z) (reason : string)
| CallReview (now id : Z) (supported : bool) (sample_size : Z) (effect_r p_value : spec_float)
| CallExpire (now : Z)
| CallAgainst (findings : list PatternFinding) (alpha : spec_float) (now : Z).

Definition call (c : MemoryCall) (m : MemoryStore) : MemoryStore :=
  match c with
  | CallAutopsy a => record_autopsy a m
  | CallAdd now l => (add_lesson now l m).1
  | CallRetire now id reason => (retire now id reason m).1
  | CallReview now id supported n e p => (review_lesson now id supported n e p m).1
  | CallExpire now => (expire_unconfirmed now m).1
  | CallAgainst findings alpha now => (review_against findings alpha now m).1
  end.
Definition run_calls (cs : list MemoryCall) (m : MemoryStore) : MemoryStore := fold_left (fun m c => call c m) cs m.
(** Lessons are added without a negative count. *)
Definition call_ok (c : MemoryCall) : Prop := match c with CallAdd _ l => 0 <= le_contradiction_count l | _ => True end.

(** ** The invariant *)

Record Ordered (rows : list LessonRow) : Prop := {
  or_ids : map row_id rows = seqZ 1 (Z.of_nat (length rows));
  or_last : forall r r', r ∈ rows -> r' ∈ rows -> row_key r = row_key r' -> row_status r = Active -> row_id r' <= row_id r;
  or_counts : forall r, r ∈ rows -> 0 <= le_contradiction_count (row_lesson r)
}.

Lemma ids_unique rows r r' : Ordered rows -> r ∈ rows -> r' ∈ rows -> row_id r = row_id r' -> r = r'.
Proof.
  intros [Hids _ _] Hr Hr' E. apply list_elem_of_lookup in Hr as [i Hi]. apply list_elem_of_lookup in Hr' as [j Hj].
  assert (Li : map row_id rows !! i = Some (row_id r)) by (change (map row_id rows) with (row_id <$> rows); now rewrite list_lookup_fmap, Hi).
  assert (Lj : map row_id rows !! j = Some (row_id r')) by (change (map row_id rows) with (row_id <$> rows); now rewrite list_lookup_fmap, Hj).
  rewrite Hids in Li, Lj. apply lookup_seqZ in Li as [Ei _]. apply lookup_seqZ in Lj as [Ej _]. assert (i = j) as -> by lia. congruence.
Qed.

Lemma id_range rows r : Ordered rows -> r ∈ rows -> 1 <= row_id r <= Z.of_nat (length rows).
Proof.
  intros [Hids _ _] Hr. assert (H : row_id r ∈ map row_id rows) by (apply list_elem_of_fmap; eauto). rewrite Hids in H. apply elem_of_seqZ in H. lia.
Qed.

(** A change of active rows: identities and keys stay, a row may be retired. *)
Definition touched (r r' : LessonRow) : Prop :=
  r' = r \/ (row_status r = Active /\ row_id r' = row_id r /\ row_key r' = row_key r /\ row_status r' <> Superseded /\
             le_contradiction_count (row_lesson r) <= le_contradiction_count (row_lesson r')).
Definition Touched (rows rows' : list LessonRow) : Prop := exists h, rows' = map h rows /\ forall r, r ∈ rows -> touched r (h r).

Lemma touched_id r r' : touched r r' -> row_id r' = row_id r /\ row_key r' = row_key r /\ (row_status r' = Active -> row_status r = Active) /\
  le_contradiction_count (row_lesson r) <= le_contradiction_count (row_lesson r').
Proof. intros [->|(H1 & H2 & H3 & H4 & H5)]; [split_and!; auto; lia|]. split_and!; auto. Qed.

Lemma Touched_refl rows : Touched rows rows.
Proof. exists (fun r => r). split; [now rewrite List.map_id|]. intros r _. now left. Qed.

Lemma Touched_ordered rows rows' : Touched rows rows' -> Ordered rows -> Ordered rows'.
Proof.
  intros (h & -> & Hh) [Hids Hlast Hc]. split.
  - rewrite List.length_map, <- Hids, List.map_map. apply map_ext_in. intros r Hr%list_elem_of_In. now destruct (touched_id _ _ (Hh r Hr)).
  - intros x x' Hx Hx'. apply list_elem_of_fmap in Hx as (r & -> & Hr). apply list_elem_of_fmap in Hx' as (r' & -> & Hr').
    destruct (touched_id _ _ (Hh r Hr)) as (-> & -> & Ha & _). destruct (touched_id _ _ (Hh r' Hr')) as (-> & -> & _ & _). intros E A. apply Hlast; auto.
  - intros x Hx. apply list_elem_of_fmap in Hx as (r & -> & Hr). destruct (touched_id _ _ (Hh r Hr)) as (_ & _ & _ & Hle). specialize (Hc r Hr). lia.
Qed.

Lemma Touched_trans rows rows' rows'' : Touched rows rows' -> Touched rows' rows'' -> Touched rows rows''.
Proof.
  intros (h & -> & Hh) (g & -> & Hg). exists (fun r => g (h r)). split; [now rewrite List.map_map|]. intros r Hr.
  specialize (Hh r Hr). specialize (Hg (h r) ltac:(apply list_elem_of_fmap; eauto)).
  destruct Hg as [->|(A & I & K & S & C)]; [exact Hh|]. right. destruct (touched_id _ _ Hh) as (I' & K' & A' & C'). split_and!; [auto|congruence|congruence|exact S|lia].
Qed.

Lemma active_row_spec id rows r : active_row id rows = Some r -> r ∈ rows /\ row_id r = id /\ row_status r = Active.
Proof.
  unfold active_row. intros H. apply find_some in H as [Hin H]. apply andb_prop in H as [Hi Ha]. apply Z.eqb_eq in Hi. apply bool_decide_eq_true in Ha.
  rewrite <- list_elem_of_In in Hin. auto.
Qed.

(** Updating the active row of an identity. *)
Lemma update_touched f id rows r0 : Ordered rows -> active_row id rows = Some r0 ->
  (forall r, row_id (f r) = row_id r /\ row_key (f r) = row_key r) -> (row_status r0 = Active -> row_status (f r0) <> Superseded) ->
  le_contradiction_count (row_lesson r0) <= le_contradiction_count (row_lesson (f r0)) -> Touched rows (update_row f id rows).
Proof.
  intros Ho Ha Hf Hs Hc. apply active_row_spec in Ha as (Hin & Hid & Hact). exists (fun r => if row_id r =? id then f r else r). split; [reflexivity|].
  intros r Hr. destruct (Z.eqb_spec (row_id r) id) as [E|]; [|now left]. assert (r = r0) as -> by (apply (ids_unique rows); auto; congruence).
  destruct (Hf r0) as [H1 H2]. right. split_and!; auto.
Qed.

Lemma review_touched now id supported n e p m : Ordered (mm_lessons m) ->
  Touched (mm_lessons m) (mm_lessons (review_lesson now id supported n e p m).1).
Proof.
  intros Ho. unfold review_lesson. destruct (active_row id (mm_lessons m)) as [r|] eqn:Ea; [|apply Touched_refl].
  pose proof (active_row_spec _ _ _ Ea) as (_ & _ & Hact). destruct (_ && _); [|destruct (_ || _)]; cbn [fst mm_lessons set_lessons];
    (eapply update_touched; [exact Ho|exact Ea|intros r'; split; reflexivity| |cbn; lia]); cbn; congruence.
Qed.

Lemma retire_touched now id reason m : Ordered (mm_lessons m) -> Touched (mm_lessons m) (mm_lessons (retire now id reason m).1).
Proof.
  intros Ho. unfold retire. destruct (active_row id (mm_lessons m)) as [r|] eqn:Ea; [|apply Touched_refl]. cbn [fst mm_lessons set_lessons].
  eapply update_touched; [exact Ho|exact Ea|intros r'; split; reflexivity|cbn; congruence|cbn; lia].
Qed.

Lemma expire_touched now m : Touched (mm_lessons m) (mm_lessons (expire_unconfirmed now m).1).
Proof.
  cbn [expire_unconfirmed fst mm_lessons set_lessons]. eexists. split; [reflexivity|]. intros r Hr. cbn beta. destruct (unconfirmed _ r) eqn:E; [|now left].
  unfold unconfirmed in E. apply andb_prop in E as [E _]. apply bool_decide_eq_true in E. right. split_and!; [exact E|reflexivity|reflexivity|cbn; discriminate|cbn; lia].
Qed.

Lemma against_touched findings alpha now m : Ordered (mm_lessons m) -> Touched (mm_lessons m) (mm_lessons (review_against findings alpha now m).1).
Proof.
  intros Ho. unfold review_against. generalize (all_active m). intros l. generalize (mkCounts 0 0 0 0). intros c.
  cut (forall m', Touched (mm_lessons m) (mm_lessons m') -> Touched (mm_lessons m) (mm_lessons (fold_left (review_row findings alpha now) l (m', c)).1)).
  { intros H. apply H, Touched_refl. }
  revert c. induction l as [|r l IH]; intros c m' Hm; [exact Hm|]. cbn [fold_left]. unfold review_row at 2. cbn [fst snd].
  destruct (lesson_pattern _ ≫= _) as [f|]; [|now apply IH]. destruct (review_lesson _ _ _ _ _ _ m') as [m2 outcome] eqn:E. apply IH.
  eapply Touched_trans; [exact Hm|]. pose proof (review_touched now (row_id r) (fltb (effective_p_of f) alpha && (10 <=? pf_n f)) (pf_n f) (pf_mean_delta_r f)
    (effective_p_of f) m' (Touched_ordered _ _ Hm Ho)) as T. rewrite E in T. exact T.
Qed.

(** ** Adding *)

Lemma last_row_some f rows r : last_row f rows = Some r -> r ∈ rows /\ f r = true.
Proof. unfold last_row. intros H. apply find_some in H as [H1 H2]. apply in_rev in H1. now rewrite list_elem_of_In. Qed.
Lemma last_row_none f rows r : last_row f rows = None -> r ∈ rows -> f r = false.
Proof. unfold last_row. intros H Hr. apply (find_none _ _ H). apply in_rev. rewrite rev_involutive. now apply list_elem_of_In. Qed.

Lemma prior_key l rows r : prior_of l rows = Some r -> r ∈ rows /\ row_key r = lesson_key l /\ (row_status r = Active \/ row_status r = Retired).
Proof.
  unfold prior_of. destruct (last_row _ rows) as [x|] eqn:E; [intros [= ->]|intros H; rename E into E0; rename H into E];
    apply last_row_some in E as [Hin E]; apply andb_prop in E as [K S]; apply bool_decide_eq_true in K, S; auto.
Qed.
(** An active row of the key is the previous version. *)
Lemma prior_active l rows r : Ordered rows -> r ∈ rows -> row_key r = lesson_key l -> row_status r = Active -> prior_of l rows = Some r.
Proof.
  intros Ho Hr Hk Ha. unfold prior_of. destruct (last_row _ rows) as [x|] eqn:E.
  - apply last_row_some in E as [Hin E]. apply andb_prop in E as [K S]. apply bool_decide_eq_true in K, S. f_equal. apply (ids_unique rows); auto.
    pose proof (or_last _ Ho x r Hin Hr ltac:(congruence) S). pose proof (or_last _ Ho r x Hr Hin ltac:(congruence) Ha). lia.
  - apply (last_row_none _ _ r) in E; [|exact Hr]. unfold same_key, is_status in E. rewrite !bool_decide_true in E by assumption. discriminate.
Qed.

Definition added (now : Z) (l : Lesson) (sup : option Z) (rows : list LessonRow) : list LessonRow :=
  match sup with Some id => update_row (supersede now (next_id rows)) id rows | None => rows end ++ [new_row now (next_id rows) l].

(** What [add_lesson] does to the rows. *)
Lemma add_cases now l m :
  (exists r, prior_of l (mm_lessons m) = Some r /\ row_status r = Retired /\ condemned r = true /\ add_lesson now l m = (m, row_id r)) \/
  exists l', lesson_key l' = lesson_key l /\ le_caution l' = le_caution l /\ le_contradiction_count l <= le_contradiction_count l' /\
    (add_lesson now l m).2 = next_id (mm_lessons m) /\
    mm_lessons (add_lesson now l m).1 = added now l' (row_id <$> prior_of l (mm_lessons m)) (mm_lessons m).
Proof.
  unfold add_lesson, added. destruct (prior_of l (mm_lessons m)) as [r|] eqn:Ep.
  - destruct (is_status Retired r) eqn:Es; cbn [andb].
    + destruct (condemned r) eqn:Ec; [left; exists r; apply bool_decide_eq_true in Es; auto|]. right.
      eexists. split; [|split; [|split; [|split; [reflexivity|reflexivity]]]]; [reflexivity|reflexivity|cbn; lia].
    + right. exists l. split_and!; try reflexivity; lia.
  - right. exists l. split_and!; try reflexivity; lia.
Qed.

Lemma update_row_elem f id rows r : r ∈ update_row f id rows -> exists x, x ∈ rows /\ (r = x /\ row_id x <> id \/ r = f x /\ row_id x = id).
Proof. intros H. apply list_elem_of_fmap in H as (x & -> & Hx). exists x. split; [exact Hx|]. destruct (Z.eqb_spec (row_id x) id); auto. Qed.

Lemma add_ordered now l m : 0 <= le_contradiction_count l -> Ordered (mm_lessons m) -> Ordered (mm_lessons (add_lesson now l m).1).
Proof.
  intros Hl Ho. destruct (add_cases now l m) as [(r & _ & _ & _ & ->)|(l' & Hk & _ & Hc & _ & ->)]; [exact Ho|]. set (rows := mm_lessons m) in *.
  set (sup := row_id <$> prior_of l rows). set (old := match sup with Some id => update_row (supersede now (next_id rows)) id rows | None => rows end).
  assert (Elem : forall r, r ∈ old -> exists x, x ∈ rows /\ row_id r = row_id x /\ row_key r = row_key x /\ row_lesson r = row_lesson x /\
                            (row_status r = Active -> row_status x = Active /\ row_key x <> lesson_key l)).
  { intros r Hr. unfold old, sup in Hr. destruct (prior_of l rows) as [p|] eqn:Ep; cbn [fmap option_fmap option_map] in Hr.
    - apply update_row_elem in Hr as (x & Hx & [[-> Hne]|[-> He]]); exists x; split_and!; try reflexivity; try assumption; [|discriminate].
      intros A. split; [exact A|]. intros K. rewrite (prior_active l rows x Ho Hx K A) in Ep. injection Ep as ->. contradiction.
    - exists r. split_and!; try reflexivity; try assumption. intros A. split; [exact A|]. intros K. rewrite (prior_active l rows r Ho Hr K A) in Ep. discriminate. }
  assert (Elen : length old = length rows) by (unfold old; destruct sup; [apply List.length_map|reflexivity]).
  unfold added. fold old. split.
  - rewrite List.map_app, length_app, Elen. cbn [map length new_row row_id]. rewrite Nat.add_1_r, seqZ_S.
    assert (Eids : map row_id old = map row_id rows).
    { unfold old. destruct sup; [|reflexivity]. unfold update_row. rewrite List.map_map. apply map_ext. intros x. now destruct (_ =? _). }
    rewrite Eids, (or_ids _ Ho). f_equal. f_equal. unfold next_id. lia.
  - intros x y Hx Hy E A. apply elem_of_app in Hx as [Hx|Hx], Hy as [Hy|Hy]; rewrite ?list_elem_of_singleton in *.
    + destruct (Elem x Hx) as (x0 & Hx0 & -> & Kx & _ & Ax), (Elem y Hy) as (y0 & Hy0 & -> & Ky & _ & _). apply (or_last _ Ho); auto; [congruence|]. now apply Ax.
    + subst y. destruct (Elem x Hx) as (x0 & _ & _ & Kx & _ & Ax). destruct (Ax A) as [_ N]. exfalso. apply N. rewrite <- Kx, E. exact Hk.
    + subst x. destruct (Elem y Hy) as (y0 & Hy0 & -> & _). pose proof (id_range rows y0 Ho Hy0). cbn [new_row row_id]. unfold next_id. lia.
    + subst. lia.
  - intros r Hr. apply elem_of_app in Hr as [Hr|Hr]; [|apply list_elem_of_singleton in Hr as ->; cbn; lia].
    destruct (Elem r Hr) as (x & Hx & _ & _ & -> & _). exact (or_counts _ Ho x Hx).
Qed.

Lemma call_ordered c m : call_ok c -> Ordered (mm_lessons m) -> Ordered (mm_lessons (call c m)).
Proof.
  destruct c; cbn [call call_ok]; intros Hc Ho; [exact Ho|now apply add_ordered| | | |];
    (eapply Touched_ordered; [|exact Ho]); [now apply retire_touched|now apply review_touched|apply expire_touched|now apply against_touched].
Qed.
Lemma run_ordered cs : forall m, Forall call_ok cs -> Ordered (mm_lessons m) -> Ordered (mm_lessons (run_calls cs m)).
Proof. induction cs as [|c cs IH]; intros m Hc Ho; [exact Ho|]. inversion Hc; subst. apply (IH (call c m)); [assumption|now apply call_ordered]. Qed.
Lemma empty_ordered : Ordered (mm_lessons empty_memory).
Proof. split; [reflexivity|intros r r' Hr; inversion Hr|intros r Hr; inversion Hr]. Qed.

(** ** What was condemned *)

Definition Key : Type := string * string * string * string.
(** The last version of a key was retired for a cause, and none is active. *)
Definition Shut (k : Key) (rows : list LessonRow) : Prop :=
  (forall r, r ∈ rows -> row_key r = k -> row_status r <> Active) /\
  exists r, last_row (fun r => bool_decide (row_key r = k) && is_status Retired r) rows = Some r /\ condemned r = true.

Lemma find_map_agree {A} (f : A -> bool) (h : A -> A) l : (forall x, In x l -> h x = x \/ (f x = false /\ f (h x) = false)) -> find f (map h l) = find f l.
Proof.
  induction l as [|x l IH]; intros H; [reflexivity|]. cbn [map find]. destruct (H x (or_introl eq_refl)) as [->|[-> ->]];
    rewrite IH by (intros y Hy; apply H; now right); reflexivity.
Qed.
Lemma last_row_map f h rows : (forall r, r ∈ rows -> h r = r \/ (f r = false /\ f (h r) = false)) -> last_row f (map h rows) = last_row f rows.
Proof. intros H. unfold last_row. rewrite <- map_rev. apply find_map_agree. intros x Hx. apply H. apply list_elem_of_In. now apply in_rev. Qed.
Lemma last_row_snoc f rows r : f r = false -> last_row f (rows ++ [r]) = last_row f rows.
Proof. intros H. unfold last_row. rewrite rev_app_distr. cbn. now rewrite H. Qed.

Lemma touched_shut k rows rows' : Touched rows rows' -> Shut k rows -> Shut k rows'.
Proof.
  intros (h & -> & Hh) [Hno (r & Hl & Hc)]. split.
  - intros x Hx. apply list_elem_of_fmap in Hx as (y & -> & Hy). destruct (touched_id _ _ (Hh y Hy)) as (_ & -> & Ha & _). intros K A. exact (Hno y Hy K (Ha A)).
  - exists r. split; [|exact Hc]. rewrite <- Hl. apply last_row_map. intros x Hx. destruct (Hh x Hx) as [->|(A & _ & K & _)]; [now left|]. right.
    rewrite K. rewrite bool_decide_false by (intros E; exact (Hno x Hx E A)). split; reflexivity.
Qed.

Lemma add_shut now l m k : Ordered (mm_lessons m) -> Shut k (mm_lessons m) -> Shut k (mm_lessons (add_lesson now l m).1).
Proof.
  intros Ho [Hno (c & Hl & Hc)]. set (rows := mm_lessons m) in *. destruct (decide (lesson_key l = k)) as [E|N].
  - assert (Ep : prior_of l rows = Some c).
    { unfold prior_of. destruct (last_row (fun r => same_key l r && is_status Active r) rows) as [x|] eqn:Ex.
      - apply last_row_some in Ex as [Hin Ex]. apply andb_prop in Ex as [K S]. apply bool_decide_eq_true in K, S. exfalso. apply (Hno x Hin); [congruence|exact S].
      - unfold same_key. rewrite E. exact Hl. }
    pose proof (last_row_some _ _ _ Hl) as [_ S]. apply andb_prop in S as [_ S]. unfold add_lesson. fold rows. rewrite Ep, S, Hc. now split; [|exists c].
  - destruct (add_cases now l m) as [(r & _ & _ & _ & ->)|(l' & Hk & _ & _ & _ & ->)]; [now split; [|exists c]|]. fold rows. unfold added.
    set (old := match row_id <$> prior_of l rows with Some id => update_row (supersede now (next_id rows)) id rows | None => rows end).
    assert (Eo : exists h, old = map h rows /\ forall r, r ∈ rows -> h r = r \/ (row_key r <> k /\ row_key (h r) <> k)).
    { unfold old. destruct (prior_of l rows) as [p|] eqn:Ep; cbn [fmap option_fmap option_map].
      - eexists. split; [reflexivity|]. intros r Hr. cbn beta. destruct (Z.eqb_spec (row_id r) (row_id p)) as [E|]; [|now left]. right.
        apply prior_key in Ep as (Hp & Kp & _). assert (r = p) as -> by (apply (ids_unique rows); auto). cbn [row_key row_lesson supersede]. unfold row_key in *. cbn. split; congruence.
      - exists (fun r => r). split; [symmetry; apply List.map_id|]. now left. }
    destruct Eo as (h & -> & Hh). split.
    + intros r Hr K A. apply elem_of_app in Hr as [Hr|Hr].
      * apply list_elem_of_fmap in Hr as (x & -> & Hx). destruct (Hh x Hx) as [E|[_ E]]; [|contradiction]. rewrite E in K, A. exact (Hno x Hx K A).
      * apply list_elem_of_singleton in Hr as ->. apply N. rewrite <- Hk. exact K.
    + exists c. split; [|exact Hc]. rewrite last_row_snoc by (cbn; apply andb_false_r). rewrite last_row_map; [exact Hl|].
      intros r Hr. destruct (Hh r Hr) as [->|[K1 K2]]; [now left|]. right. rewrite !bool_decide_false by assumption. split; reflexivity.
Qed.

Lemma call_shut c m k : call_ok c -> Ordered (mm_lessons m) -> Shut k (mm_lessons m) -> Shut k (mm_lessons (call c m)).
Proof.
  destruct c; cbn [call call_ok]; intros Hc Ho Hs; [exact Hs|now apply add_shut| | | |];
    (eapply touched_shut; [|exact Hs]); [now apply retire_touched|now apply review_touched|apply expire_touched|now apply against_touched].
Qed.
Lemma run_shut cs k : forall m, Forall call_ok cs -> Ordered (mm_lessons m) -> Shut k (mm_lessons m) -> Shut k (mm_lessons (run_calls cs m)).
Proof.
  induction cs as [|c cs IH]; intros m Hc Ho Hs; [exact Hs|]. inversion Hc; subst. apply (IH (call c m)); [assumption|now apply call_ordered|now apply call_shut].
Qed.

(** The last row of a list is the newest. *)
Lemma last_row_newest f rows x r : map row_id rows = seqZ 1 (Z.of_nat (length rows)) -> last_row f rows = Some x -> r ∈ rows -> f r = true -> row_id r <= row_id x.
Proof.
  revert x r. induction rows as [|z rows IH] using rev_ind; intros x r Hids; [intros _ Hr; inversion Hr|].
  rewrite length_app, Nat.add_1_r, List.map_app, seqZ_S in Hids. cbn [map] in Hids. apply app_inj_tail in Hids as [Hids Hz].
  assert (Hrange : r ∈ rows -> row_id r <= Z.of_nat (length rows)).
  { intros Hr. assert (H : row_id r ∈ map row_id rows) by (apply list_elem_of_fmap; eauto). rewrite Hids in H. apply elem_of_seqZ in H. lia. }
  intros Hx Hr Hf. unfold last_row in *. rewrite rev_app_distr in Hx. cbn in Hx. rewrite elem_of_app, list_elem_of_singleton in Hr.
  destruct (f z) eqn:Ez.
  - injection Hx as <-. destruct Hr as [Hr| ->]; [specialize (Hrange Hr); lia|lia].
  - destruct Hr as [Hr| ->]; [now apply IH|congruence].
Qed.

(** Retiring the active version for a cause shuts its key. *)
Lemma retired_shut f id rows r : Ordered rows -> active_row id rows = Some r ->
  row_id (f r) = row_id r -> row_key (f r) = row_key r -> row_status (f r) = Retired -> condemned (f r) = true ->
  Touched rows (update_row f id rows) -> Shut (row_key r) (update_row f id rows).
Proof.
  intros Ho Ha Hid Hk Hs Hc Ht. pose proof (Touched_ordered _ _ Ht Ho) as Ho'. apply active_row_spec in Ha as (Hr & Er & Hact).
  assert (Hin : f r ∈ update_row f id rows) by (apply list_elem_of_fmap; exists r; rewrite Er, Z.eqb_refl; auto).
  assert (Max : forall y, y ∈ update_row f id rows -> row_key y = row_key r -> y = f r \/ row_id y < row_id r).
  { intros y Hy K. apply update_row_elem in Hy as (x & Hx & [[-> Hne]|[-> E]]).
    - right. pose proof (or_last _ Ho r x Hr Hx ltac:(congruence) Hact). lia.
    - left. f_equal. apply (ids_unique rows); [exact Ho|exact Hx|exact Hr|congruence]. }
  split.
  - intros y Hy K A. destruct (Max y Hy K) as [->|Lt]; [congruence|].
    pose proof (or_last _ Ho' y (f r) Hy Hin ltac:(congruence) A). lia.
  - exists (f r). split; [|exact Hc]. destruct (last_row _ _) as [x|] eqn:E.
    + pose proof (last_row_some _ _ _ E) as [Hx Fx]. pose proof (last_row_newest _ _ _ (f r) (or_ids _ Ho') E Hin) as Le.
      cbv beta in Le. rewrite bool_decide_true in Le by congruence. unfold is_status in Le. rewrite bool_decide_true in Le by congruence. specialize (Le eq_refl).
      apply andb_prop in Fx as [K _]. apply bool_decide_eq_true in K. destruct (Max x Hx K) as [->|Lt]; [reflexivity|lia].
    + apply (last_row_none _ _ _ E) in Hin. cbv beta in Hin. rewrite bool_decide_true in Hin by congruence. unfold is_status in Hin. rewrite bool_decide_true in Hin by congruence. discriminate.
Qed.

Lemma review_retired now id supported n e p m r : Ordered (mm_lessons m) -> active_row id (mm_lessons m) = Some r ->
  (review_lesson now id supported n e p m).2 = RetiredNow -> Shut (row_key r) (mm_lessons (review_lesson now id supported n e p m).1).
Proof.
  intros Ho Ha. pose proof (review_touched now id supported n e p m Ho) as Ht. revert Ht. unfold review_lesson. rewrite Ha.
  destruct (_ && _); [discriminate|]. destruct (_ || _); [|discriminate]. cbn [fst snd mm_lessons set_lessons]. intros Ht _.
  pose proof (active_row_spec _ _ _ Ha) as (Hr & _ & _). pose proof (or_counts _ Ho r Hr).
  apply (retired_shut _ id _ r); auto; try reflexivity. unfold condemned. cbn [retired_row row_lesson with_contradictions le_contradiction_count].
  replace (0 <? le_contradiction_count (row_lesson r) + 1) with true by lia. reflexivity.
Qed.

Lemma operator_retired now id reason m r : Ordered (mm_lessons m) -> active_row id (mm_lessons m) = Some r -> contains "operator" reason = true ->
  Shut (row_key r) (mm_lessons (retire now id reason m).1).
Proof.
  intros Ho Ha Hc. pose proof (retire_touched now id reason m Ho) as Ht. revert Ht. unfold retire. rewrite Ha. cbn [fst mm_lessons set_lessons]. intros Ht.
  apply (retired_shut _ id _ r); auto; try reflexivity. unfold condemned, retire_reason.
  cbn [retired_row row_lesson with_contradictions with_evidence le_evidence]. rewrite dict_get_set, bool_decide_true by reflexivity. rewrite Hc.
  now rewrite !orb_true_r.
Qed.

(** ** The caution of the recalled lessons *)

(** What is relied on of the C library: a power of one half with an exponent that is not
    negative lies in the unit interval, the logarithm of a count is not negative. *)
Record CMathLaws : Prop := {
  half_pow_unit : forall x, fltb x (float_of_Z 0) = false -> half_pow x = S754_nan \/ unit_float (half_pow x) = true;
  log10_plus : forall n, 1 <= n -> fltb (log10_of n) (float_of_Z 0) = false
}.

Lemma above_plus x y : fltb x y = true -> fltb x (float_of_Z 0) = false -> fltb y (float_of_Z 0) = false.
Proof.
  intros H Hx. destruct (fltb y (float_of_Z 0)) eqn:E; [|reflexivity]. exfalso. revert H.
  apply not_true_iff_false. destruct x as [s|s| |s m e]; [| |reflexivity|].
  - destruct s, y as [s'|s'| |s' m' e']; try destruct s'; try reflexivity; try discriminate; exact (fltb_asym _ _ E).
  - destruct s; [discriminate|]. now destruct y as [s'|s'| |s' m' e']; try destruct s'.
  - destruct y as [s'|s'| |s' m' e']; try (destruct s'); try discriminate; try reflexivity.
    all: try (rewrite fltb_pos_zero in E; discriminate).
    all: destruct s; [revert Hx; unfold fltb; cbn [mantissa exponent cond_Zopp float_of_Z binary_normalize]; rewrite Z.ltb_ge; pose proof (Z.pow_pos_nonneg 2 (e - Z.min e 0)); nia|].
    unfold fltb. cbn [mantissa exponent cond_Zopp]. apply Z.ltb_ge.
    pose proof (Z.pow_nonneg 2 (e - Z.min e e')). pose proof (Z.pow_nonneg 2 (e' - Z.min e e')). nia.
Qed.
Lemma unit_plus x : unit_float x = true -> fltb x (float_of_Z 0) = false.
Proof. unfold unit_float. intros H. apply andb_prop in H as [H _]. apply andb_prop in H as [H _]. now apply negb_true_iff in H. Qed.

(** A caution is read back between a quarter and one. *)
Lemma read_caution_unit r : unit_float (le_caution (row_to_lesson r)) = true.
Proof. cbn [row_to_lesson post_init le_caution]. apply fmin_unit. generalize (le_caution (row_lesson r)). intros c. unfold fmax. destruct (fltb quarter c) eqn:E; [exact (above_plus _ _ E eq_refl)|reflexivity]. Qed.

Lemma age_plus l now : fltb (age_days l now) (float_of_Z 0) = false.
Proof. apply fmax_not_below. Qed.
Lemma at_least_one_plus x : fltb (float_of_Z 0) (fmax one x) = true.
Proof.
  unfold fmax. destruct (fltb one x) eqn:E; [|reflexivity]. pose proof (above_plus _ _ E eq_refl) as H.
  destruct x as [s|s| |s m e]; try destruct s; try discriminate; try reflexivity; revert H; unfold fltb;
    cbn [mantissa exponent cond_Zopp float_of_Z binary_normalize]; intros H; [apply Z.ltb_ge in H|apply Z.ltb_lt].
  - assert (0 < 2 ^ (e - Z.min e 0)) by (apply Z.pow_pos_nonneg; lia). nia.
  - assert (0 < 2 ^ (e - Z.min 0 e)) by (apply Z.pow_pos_nonneg; lia). nia.
Qed.

Section Caution.
Context (CL : CMathLaws).

Lemma effective_unit l now : unit_float (le_caution l) = true -> unit_float (effective_caution l now) = true.
Proof.
  intros Hc. unfold effective_caution. destruct (fleb one (le_caution l)); [reflexivity|]. cbv zeta.
  set (w := half_pow _). assert (Hw : w = S754_nan \/ unit_float w = true).
  { apply (half_pow_unit CL). apply fdiv_plus; [apply age_plus|apply at_least_one_plus]. }
  apply fmin_unit_or. pose proof (one_minus_unit _ Hc) as Hs. destruct Hw as [->|Hw]; [left; now destruct (fsub one (le_caution l))|].
  right. apply one_minus_unit, fmul_unit; assumption.
Qed.

Lemma confidence_unit l : unit_float (confidence l) = true.
Proof.
  apply fround_to_unit; [lia|]. apply fmul_unit; [|apply clamp_is_unit]. apply fmin_unit. apply fdiv_plus; [|reflexivity]. apply (log10_plus CL). lia.
Qed.

Lemma weigh_unit now r m : unit_float m = true -> unit_float (weigh now m (row_to_lesson r)) = true.
Proof.
  intros Hm. unfold weigh. destruct (fleb one _); [exact Hm|]. apply fmul_unit; [exact Hm|]. apply one_minus_unit, fmul_unit; [|apply confidence_unit].
  apply one_minus_unit, effective_unit, read_caution_unit.
Qed.
Lemma weigh_all_unit now rows : forall m, unit_float m = true -> unit_float (fold_left (weigh now) (map row_to_lesson rows) m) = true.
Proof. induction rows as [|r rows IH]; intros m Hm; [exact Hm|]. cbn [map fold_left]. now apply IH, weigh_unit. Qed.

(** Whatever lessons are stored and recalled, the caution multiplier is a number of
    the unit interval, and not below the floor: lessons can only shrink a position, and
    cannot add up to stopping the trading. *)
Theorem caution_only_shrinks strategy instrument regime now m :
  unit_float (caution_multiplier strategy instrument regime now m) = true /\ fltb (caution_multiplier strategy instrument regime now m) CAUTION_FLOOR = false.
Proof.
  split; [|apply fmax_not_below]. unfold caution_multiplier, recall. set (x := fround_to _ _).
  assert (Hx : unit_float x = true) by (apply fround_to_unit; [lia|]; now apply weigh_all_unit).
  unfold fmax. now destruct (fltb CAUTION_FLOOR x).
Qed.
End Caution.

(** ** Properties *)

(** After any calls on a fresh memory, two active lessons with the same statement,
    strategy, instrument and regime are the same row, and it is the newest version. *)
Theorem one_active_version cs r r' : Forall call_ok cs -> r ∈ mm_lessons (run_calls cs empty_memory) -> r' ∈ mm_lessons (run_calls cs empty_memory) ->
  row_key r = row_key r' -> row_status r = Active -> row_id r' <= row_id r /\ (row_status r' = Active -> r' = r).
Proof.
  intros Hc Hr Hr' K A. pose proof (run_ordered cs _ Hc empty_ordered) as Ho. split; [now apply (or_last _ Ho)|]. intros A'.
  apply (ids_unique _ _ _ Ho Hr' Hr). pose proof (or_last _ Ho r r' Hr Hr' K A). pose proof (or_last _ Ho r' r Hr' Hr ltac:(congruence) A'). lia.
Qed.

(** Retired for a cause: contradicted by a review, or by an operator. *)
Definition retired_for_cause (id : Z) (m m' : MemoryStore) : Prop :=
  (exists now supported n e p, review_lesson now id supported n e p m = (m', RetiredNow)) \/
  (exists now reason, contains "operator" reason = true /\ retire now id reason m = (m', true)).

Lemma cause_shut id m m' r : Ordered (mm_lessons m) -> active_row id (mm_lessons m) = Some r -> retired_for_cause id m m' ->
  Ordered (mm_lessons m') /\ Shut (row_key r) (mm_lessons m').
Proof.
  intros Ho Ha [(now & supported & n & e & p & E)|(now & reason & Hc & E)].
  - pose proof (review_retired now id supported n e p m r Ho Ha) as H. pose proof (review_touched now id supported n e p m Ho) as T.
    rewrite E in H, T. split; [exact (Touched_ordered _ _ T Ho)|exact (H eq_refl)].
  - pose proof (operator_retired now id reason m r Ho Ha Hc) as H. pose proof (retire_touched now id reason m Ho) as T.
    rewrite E in H, T. split; [exact (Touched_ordered _ _ T Ho)|exact H].
Qed.

(** C25: A lesson retired because fresh evidence contradicted it, or with a reason that
    names the operator, does not come back under its key: no later calls make a row of
    the same statement, its numbers included, strategy, instrument and regime active.
    The reason left blank, which is the default, does not count, and the lesson in
    other numbers has another key. *)
Theorem condemned_lessons_stay_retired before after id m' r r' : Forall call_ok before -> Forall call_ok after ->
  active_row id (mm_lessons (run_calls before empty_memory)) = Some r -> retired_for_cause id (run_calls before empty_memory) m' ->
  r' ∈ mm_lessons (run_calls after m') -> row_key r' = row_key r -> row_status r' <> Active.
Proof.
  intros Hb Ha Hr Hcause. pose proof (run_ordered before _ Hb empty_ordered) as Ho. destruct (cause_shut _ _ _ _ Ho Hr Hcause) as [Ho' Hs].
  exact (proj1 (run_shut after _ _ Ha Ho' Hs) r').
Qed.
End Calls.

(** ** Witnesses *)

Definition demo_math : CMath := {|
  half_pow := fun x => if fltb x one then one else fdiv one (float_of_Z 2);
  log10_of := fun n => if n <? 10 then float_of_Z 0 else if n <? 100 then float_of_Z 1 else float_of_Z 2
|}.
Lemma demo_laws : @CMathLaws demo_math.
Proof. split; cbn [half_pow log10_of demo_math]; [intros x _; right; now destruct (fltb x one)|intros n _; now destruct (n <? 10), (n <? 100)]. Qed.

Definition demo_lesson (statement : string) (created : Z) : Lesson :=
  mkLesson "strategy" statement [("pattern", JStr "tag:late")] 40 (fsub (float_of_Z 0) (float_of_Z 1)) (float_of_Z 0) (Some "trend") None None None
    (fdiv one (float_of_Z 2)) created 0 0 0 HALF_LIFE.
Definition demo_calls : list MemoryCall := [CallAdd 10 (demo_lesson "late entries lose" 10); CallAdd 20 (demo_lesson "wide spreads lose" 20); CallAdd 30 (demo_lesson "late entries lose" 30)].

Lemma one_active_version_witness : let rows := mm_lessons (@run_calls demo_math demo_calls empty_memory) in
  exists r r', r ∈ rows /\ r' ∈ rows /\ row_key r = row_key r' /\ row_status r = Active /\ row_id r' = 1 /\ row_id r' <= row_id r.
Proof.
  intros rows.
  assert (R : exists a b c, rows = [a; b; c] /\ row_key c = row_key a /\ row_status c = Active /\ row_id a = 1) by (do 3 eexists; split; [vm_compute; reflexivity|split_and!; vm_compute; reflexivity]).
  destruct R as (a & b & c & E & K & A & I). exists c, a.
  assert (Hc : c ∈ rows) by (rewrite E, list_elem_of_In; cbn [In]; tauto). assert (Ha : a ∈ rows) by (rewrite E, list_elem_of_In; cbn [In]; tauto).
  split; [exact Hc|]. split; [exact Ha|]. split; [exact K|]. split; [exact A|]. split; [exact I|].
  apply (proj1 (@one_active_version demo_math demo_calls c a ltac:(repeat constructor; cbn; lia) Hc Ha K A)).
Defined.

Lemma condemned_lessons_stay_retired_witness :
  let m := @run_calls demo_math demo_calls empty_memory in
  let m' := (@review_lesson demo_math 40 3 true 50 one (float_of_Z 0) m).1 in
  let later := @run_calls demo_math [CallAdd 50 (demo_lesson "late entries lose" 50)] m' in
  exists r', r' ∈ mm_lessons later /\ row_id r' = 3 /\ row_status r' <> Active.
Proof.
  intros m m' later.
  assert (R : exists r a b c, active_row 3 (mm_lessons m) = Some r /\ @review_lesson demo_math 40 3 true 50 one (float_of_Z 0) m = (m', RetiredNow) /\
    mm_lessons later = [a; b; c] /\ row_id c = 3 /\ row_key c = row_key r) by (do 4 eexists; split; [vm_compute; reflexivity|split_and!; vm_compute; reflexivity]).
  destruct R as (r & a & b & c & Hr & Hrev & E & I & K). exists c. assert (Hc : c ∈ mm_lessons later) by (rewrite E, list_elem_of_In; cbn [In]; tauto).
  split; [exact Hc|]. split; [exact I|].
  apply (@condemned_lessons_stay_retired demo_math demo_calls [CallAdd 50 (demo_lesson "late entries lose" 50)] 3 m' r c); [repeat constructor; cbn; lia|repeat constructor; cbn; lia|exact Hr| |exact Hc|exact K].
  left. exists 40, true, 50, one, (float_of_Z 0). exact Hrev.
Defined.

Lemma caution_only_shrinks_witness : let m := @run_calls demo_math demo_calls empty_memory in
  let c := @caution_multiplier demo_math (Some "trend") None None 40 m in unit_float c = true /\ fltb c one = true.
Proof.
  intros m c. split; [exact (proj1 (@caution_only_shrinks demo_math demo_laws (Some "trend") None None 40 m))|vm_compute; reflexivity].
Defined.
