(* ===== verification/Proposals.v ===== *)
(** [sentinel/agent/proposals.py]: the parameter changes the agent may ask for, the
    lessons confined to one market state, the queue a human reviews; and the part of
    [Agent._learn] ([agent/orchestrator.py]) that turns findings into both.

    The clock is an argument.  A current value is the number of the configuration, or
    absent. *)

From Stdlib Require Import ZArith SpecFloat Ascii String HexadecimalString.
From stdpp Require Import base strings list sorting.
From S2P Require Import Prelude PyDecimal Config Calendar PyFloat PyText PyDict PyJson Memory.

Local Open Scope Z_scope.
Local Open Scope py_scope.

(** ** What may be proposed *)

Definition FROZEN_PATHS : list string := [
  "risk.daily_loss_limit_pct"; "risk.weekly_loss_limit_pct"; "risk.monthly_loss_limit_pct"; "risk.max_drawdown_halt_pct";
  "risk.ladder"; "risk.ladder_enabled"; "risk.require_broker_side_stop";
  "risk.max_trades_per_day"; "risk.max_trades_per_week"; "risk.max_trades_per_year";
  "risk.max_annual_cost_pct_of_equity"; "risk.max_gross_leverage";
  "risk.max_currency_exposure_pct"; "risk.max_correlated_risk_pct";
  "risk.risk_per_trade_pct"; "risk.max_lots_per_trade";
  "execution.venue_mode"; "execution.broker";
  "agent.mode"; "agent.proposal_requires_human";
  "security.dashboard_read_only_default"; "security.require_totp_for_writes";
  "security.bind_host"; "security.allowed_origins";
  "research.alpha"; "research.pbo_max"; "research.min_dsr";
  "research.declared_prior"; "research.cpcv_positive_path_fraction"]%string.

Inductive Direction := SaferLower | SaferHigher.
(** A number between two bounds, an integer or not; or a dictionary, which has no
    bounds and no direction. *)
Inductive Spec :=
| Bounded (lo hi : decimal) (whole_number : bool) (direction : Direction)
| Dictionary.

Definition PROPOSABLE : list (string * Spec) := [
  ("risk.breakeven_trigger_r", Bounded 0.0 3.0 false SaferLower);
  ("risk.partial_take_r", Bounded 0.5 5.0 false SaferLower);
  ("risk.trail_atr_multiple", Bounded 0.5 6.0 false SaferLower);
  ("risk.trail_activate_r", Bounded 0.0 3.0 false SaferLower);
  ("risk.max_spread_pips_multiple", Bounded 1.1 5.0 false SaferLower);
  ("risk.giveback_arm_r", Bounded 0.5 5.0 false SaferLower);
  ("risk.partial_take_fraction", Bounded 0.1 0.8 false SaferHigher);
  ("risk.min_reward_risk", Bounded 1.0 5.0 false SaferHigher);
  ("risk.min_stop_pips", Bounded 5.0 100.0 false SaferHigher);
  ("risk.min_seconds_between_entries", Bounded 60 86400 true SaferHigher);
  ("risk.block_minutes_before_high_impact", Bounded 5 240 true SaferHigher);
  ("risk.block_minutes_after_high_impact", Bounded 5 240 true SaferHigher);
  ("risk.giveback_keep_fraction", Bounded 0.2 0.9 false SaferHigher);
  ("strategy.params", Dictionary)]%string%dec.

Inductive Value := VInt (z : Z) | VFloat (x : spec_float) | VDict (fields : json).
(** [float(value)]; a dictionary is a [TypeError]. *)
Definition as_float (v : Value) : option spec_float :=
  match v with VInt z => Some (float_of_Z z) | VFloat x => Some x | VDict _ => None end.

(** Why a proposal is refused; [NotANumber] is the [TypeError] of [float]. *)
Inductive Refusal := Frozen | NotProposable | TooThin | MoreRisk | WeakEvidence | NotSignificant | NotParameter | InvalidConfig | StepMoreRisk | NotANumber.

(** [_clamp], of a bounded parameter. *)
Definition clamp_number (lo hi : decimal) (whole_number : bool) (x : spec_float) : Value :=
  let v := fmax (float_of_dec lo) (fmin (float_of_dec hi) x) in
  if whole_number then VInt (fround v) else VFloat (fround_to v 4).
Definition clamp_ (spec : Spec) (value : Value) : sum Refusal Value :=
  match spec with
  | Dictionary => inr value
  | Bounded lo hi whole_number _ =>
      match as_float value with None => inl NotANumber | Some x => inr (clamp_number lo hi whole_number x) end
  end.

(** ** Proposals *)

Inductive ProposalStatus := Pending | Approved | Rejected | Validated | Applied | Expired.
#[export] Instance ProposalStatus_eq_dec : EqDecision ProposalStatus.
Proof. solve_decision. Defined.

Record Proposal := mkProposal {
  pr_id : string;
  pr_created_ns : Z;
  pr_path : string;
  pr_current_value : option Value;
  pr_proposed_value : Value;
  pr_rationale : string;
  pr_evidence : list (string * json);
  pr_sample_size : Z;
  pr_expected_effect_r : spec_float;
  pr_effect_ci_low : spec_float;
  pr_effect_ci_high : spec_float;
  pr_p_value : spec_float;
  pr_status : ProposalStatus;
  pr_validation_run_id : option string;
  pr_reviewed_by : option string;
  pr_reviewed_ns : option Z;
  pr_expires_ns : Z;
  pr_strategy : option string
}.

(** The adverse move of the first check, and of the check after the step limit. *)
Definition riskier (d : Direction) (cur new : spec_float) : bool :=
  match d with SaferLower => fltb cur new | SaferHigher => negb (fltb cur new) end.
Definition final_riskier (d : Direction) (cur new : spec_float) : bool :=
  match d with SaferLower => fltb cur new | SaferHigher => fltb new cur end.
(** [try: cur_f, new_f = float(current_value), float(clamped)]. *)
Definition both_floats (current : option Value) (v : Value) : option (spec_float * spec_float) :=
  match current ≫= as_float, as_float v with Some c, Some n => Some (c, n) | _, _ => None end.
Definition moves_wrong (wrong : Direction -> spec_float -> spec_float -> bool) (spec : Spec) (current : option Value) (v : Value) : bool :=
  match spec, both_floats current v with
  | Bounded _ _ _ d, Some (c, n) => negb (feqb n c) && wrong d c n
  | _, _ => false
  end.

Definition effective_p (f : PatternFinding) : spec_float := if pf_n_tests_in_family f =? 0 then pf_p_value f else pf_p_value_adjusted f.
Definition not_a_parameter (f : PatternFinding) : bool := bool_decide (pf_diagnosis f ∈ ["luck"; "regime"; "insufficient"; "descriptive"]%string).

(** [RiskConfig] with one field set and every other at its default, as pydantic reads a
    float: by its shortest digits. *)
Definition dec_of_value (v : Value) : option decimal :=
  match v with
  | VInt z => Some (dec_of_Z z)
  | VFloat x => match dec_round x 4 with Ok d => Some d | Raise _ => None end
  | VDict _ => None
  end.
Definition int_of_value (v : Value) : Z := match v with VInt z => z | _ => 0 end.
Definition dry_config (path : string) (v : Value) (d : decimal) : RiskConfig :=
  let pick name default := if bool_decide (path = "risk." +:+ name) then d else default in
  let pick_int name default := if bool_decide (path = "risk." +:+ name) then int_of_value v else default in
  (mkRiskConfig 0.50 5 (pick "min_stop_pips" 10) 250 (pick "min_reward_risk" 1.2) true 4 1 5 1.25 0.90 2.00 3.00 2.00 300 0.65 240 2.0 4.0 6.0 10.0
    6 20 500 (pick_int "min_seconds_between_entries" 300%Z) 15 true default_ladder
    (pick "breakeven_trigger_r" 1.0) (pick "partial_take_r" 1.5) (pick "partial_take_fraction" 0.5)
    (pick "trail_atr_multiple" 2.5) (pick "trail_activate_r" 1.0)
    (pick "giveback_arm_r" 1.5) (pick "giveback_keep_fraction" 0.5) 0 3.0 0.6 0.5 2.5 90 750.0
    (pick "max_spread_pips_multiple" 2.5)
    (pick_int "block_minutes_before_high_impact" 30%Z) (pick_int "block_minutes_after_high_impact" 30%Z) true 19 120)%dec%string.
Definition dry_run (path : string) (spec : Spec) (v : Value) : bool :=
  match spec with
  | Dictionary => true
  | Bounded _ _ _ _ => match dec_of_value v with Some d => RiskConfig_valid (dry_config path v d) | None => false end
  end.

(** [0.35], [1e-9], [1.96]. *)
Definition MAX_RELATIVE_CHANGE : spec_float := float_of_dec 0.35%dec.
Definition TINY : spec_float := float_of_dec (mkDec 1 (-9)).
Definition fabs (x : spec_float) : spec_float := SFabs x.
Definition STEP_NOTE : string :=
  " (step limited to 35% of the current value: large parameter jumps are not learning, they are a different strategy)".

(** The step limit. *)
Definition limit_step (spec : Spec) (current : option Value) (v : Value) (rationale : string) : Value * string :=
  match spec, both_floats current v with
  | Bounded lo hi whole_number _, Some (c, n) =>
      if is_zero c then (v, rationale)
      else if fltb MAX_RELATIVE_CHANGE (fdiv (fabs (fsub n c)) (fmax TINY (fabs c)))
      then
        let sign := if fltb c n then one else float_of_Z (-1) in
        let limited := fmul c (fadd one (fmul sign MAX_RELATIVE_CHANGE)) in
        (clamp_number lo hi whole_number limited, rationale +:+ STEP_NOTE)
      else (v, rationale)
  | _, _ => (v, rationale)
  end.

Definition hex_text (z : Z) : string := NilZero.string_of_uint (N.to_hex_uint (Z.to_N z)).
Definition TTL_NS : Z := 21 * 86400 * 1000000000.

Definition new_proposal (now : Z) (path : string) (current : option Value) (v : Value) (rationale : string) (f : PatternFinding) (strategy : option string) : Proposal :=
  let se := if is_zero (pf_t_stat f) then float_of_Z 0 else fdiv (fabs (pf_mean_delta_r f)) (fmax TINY (fabs (pf_t_stat f))) in
  let half := fmul (float_of_dec 1.96%dec) se in
  mkProposal ("P" +:+ hex_text (now / 1000000)) now path current v rationale (finding_dict f) (pf_n f) (pf_mean_delta_r f)
    (fround_to (fsub (pf_mean_delta_r f) half) 4) (fround_to (fadd (pf_mean_delta_r f) half) 4) (pf_p_value f)
    Pending None None None (now + TTL_NS) strategy.

(** [propose]. *)
Definition propose (now : Z) (path : string) (current : option Value) (proposed : Value) (rationale : string) (f : PatternFinding)
    (strategy : option string) (min_sample : Z) (alpha : spec_float) : sum Refusal Proposal :=
  if bool_decide (path ∈ FROZEN_PATHS) then inl Frozen
  else match dict_get path PROPOSABLE with
  | None => inl NotProposable
  | Some spec =>
      if pf_n f <? min_sample then inl TooThin
      else match clamp_ spec proposed with
      | inl e => inl e
      | inr clamped =>
          if moves_wrong riskier spec current clamped then inl MoreRisk
          else if fleb alpha (effective_p f) then inl WeakEvidence
          else if negb (pf_n_tests_in_family f =? 0) && negb (pf_significant f) then inl NotSignificant
          else if not_a_parameter f then inl NotParameter
          else if negb (dry_run path spec clamped) then inl InvalidConfig
          else
            let (final, rationale) := limit_step spec current clamped rationale in
            if moves_wrong final_riskier spec current final then inl StepMoreRisk
            else inr (new_proposal now path current final rationale f strategy)
      end
  end.

(** ** Deriving *)

Fixpoint node_at (parts : list string) (node : json) : option json :=
  match parts with
  | [] => Some node
  | part :: rest => match node with JObj fields => dict_get part fields ≫= node_at rest | _ => None end
  end.
(** [float(node)]. *)
Definition float_of_json (j : json) : res spec_float :=
  match j with
  | JInt z => Ok (float_of_Z z)
  | JFloat x => Ok x
  | JBool b => Ok (float_of_Z (Z.b2z b))
  | JStr s => match decimal_of_str s with Some d => Ok (float_of_dec d) | None => Raise ValueError end
  | _ => Raise TypeError
  end.
(** [float(cur("risk.<name>", default))]. *)
Definition cur_risk (config : json) (name : string) (default : spec_float) : res spec_float :=
  match node_at ["risk"; name]%string config with Some j => float_of_json j | None => Ok default end.

Definition supported (f : PatternFinding) (min_sample : Z) (alpha : spec_float) : bool :=
  fltb (effective_p f) alpha && (min_sample <=? pf_n f) && (pf_significant f || (pf_n_tests_in_family f =? 0)) && negb (not_a_parameter f).

(** What a finding asks for: the field, its default, the value asked for given the current
    one, and the rationale. *)
Record Change := mkChange { ch_field : string; ch_default : spec_float; ch_value : spec_float -> spec_float; ch_rationale : string }.
Definition abs2 (x : spec_float) : string := fixed_digits 2 (fabs x).
Definition change_of (f : PatternFinding) (min_effect_r : spec_float) : option Change :=
  let pattern := pf_pattern f in
  let d := pf_mean_delta_r f in
  let n := int_text (pf_n f) in
  let helps := fltb min_effect_r d in
  let hurts := fltb d (SFopp min_effect_r) in
  (if bool_decide (pattern = "counterfactual:partial_at_1R") && helps then
    Some (mkChange "partial_take_r" (float_of_dec 1.5%dec) (fun c => fmax one (fmul c (float_of_dec 0.75%dec)))
      ("over " +:+ n +:+ " trades that reached +1R -- winners included, where banking half COSTS the runner -- taking half there would have added "
       +:+ signed2 d +:+ "R on average"))
  else if bool_decide (pattern = "counterfactual:breakeven_at_1R") && helps then
    Some (mkChange "breakeven_trigger_r" one (fun c => fmax (float_of_dec 0.5%dec) (fmul c (float_of_dec 0.8%dec)))
      ("on " +:+ n +:+ " trades that armed the rule, moving the stop to entry was worth " +:+ signed2 d
       +:+ "R against what actually happened, measured on the real price path"))
  else if bool_decide (pattern = "counterfactual:trail_tighter") && helps then
    Some (mkChange "trail_atr_multiple" (float_of_dec 2.5%dec) (fun c => fmax one (fmul c (float_of_dec 0.8%dec)))
      ("a tighter give-back floor was worth " +:+ signed2 d +:+ "R over " +:+ n +:+ " trades that armed it"))
  else if bool_decide (pattern = "tag:entry_slippage") && hurts then
    Some (mkChange "max_spread_pips_multiple" (float_of_dec 2.5%dec) (fun c => fmax (float_of_dec 1.2%dec) (fmul c (float_of_dec 0.8%dec)))
      ("trades with entry slippage underperform by " +:+ abs2 d +:+ "R over " +:+ n +:+ " of them; tighten the spread gate"))
  else if bool_decide (pattern = "tag:news_adjacent") && hurts then
    Some (mkChange "block_minutes_before_high_impact" (float_of_Z 30) (fun c => fmin (float_of_Z 240) (fmul c (float_of_dec 1.3%dec)))
      ("trades taken near a news event underperform by " +:+ abs2 d +:+ "R over " +:+ n +:+ " of them; sit out longer before the release"))
  else None)%string.

(** [min_effect_r = 0.10]. *)
Definition MIN_EFFECT_R : spec_float := float_of_dec 0.10%dec.

(** One finding of [derive_proposals]. *)
Definition derive_one (now : Z) (config : json) (strategy : option string) (min_sample : Z) (alpha : spec_float) (f : PatternFinding) : res (option Proposal) :=
  if negb (supported f min_sample alpha) then Ok None
  else match change_of f MIN_EFFECT_R with
  | None => Ok None
  | Some ch =>
      let* current := cur_risk config (ch_field ch) (ch_default ch) in
      match propose now ("risk." +:+ ch_field ch) (Some (VFloat current)) (VFloat (ch_value ch current)) (ch_rationale ch) f strategy min_sample alpha with
      | inr p => Ok (Some p)
      | inl NotANumber => Raise TypeError
      | inl _ => Ok None
      end
  end.
(** [derive_proposals]. *)
Fixpoint derive_proposals (now : Z) (findings : list PatternFinding) (config : json) (strategy : option string) (min_sample : Z) (alpha : spec_float)
    : res (list Proposal) :=
  match findings with
  | [] => Ok []
  | f :: rest =>
      let* p := derive_one now config strategy min_sample alpha f in
      let* ps := derive_proposals now rest config strategy min_sample alpha in
      Ok (match p with Some p => p :: ps | None => ps end)
  end.

(** ** Lessons confined to one market state *)

Record RegimeLesson := mkRegimeLesson {
  rl_strategy : option string;
  rl_regime : string;
  rl_statement : string;
  rl_evidence : list (string * json);
  rl_sample_size : Z;
  rl_effect_r : spec_float;
  rl_p_value : spec_float;
  rl_caution : spec_float
}.
Definition half_ : spec_float := float_of_dec 0.5%dec.
Definition eligible (min_sample : Z) (alpha : spec_float) (f : PatternFinding) : bool :=
  bool_decide (pf_diagnosis f = "regime") && (min_sample <=? pf_n f) && negb (bool_decide (pf_dominant_regime f ∈ [""; "unknown"]%string))
  && negb (fleb alpha (effective_p f)) && negb (fleb (float_of_Z 0) (pf_mean_delta_r f)).
Definition regime_candidate (strategy : option string) (f : PatternFinding) : RegimeLesson :=
  mkRegimeLesson strategy (pf_dominant_regime f)
    ("in the " +:+ pf_dominant_regime f +:+ " regime, " +:+ pf_pattern f +:+ " runs " +:+ signed2 (pf_mean_delta_r f)
     +:+ "R against the rest of the sample (" +:+ whole (fmul (pf_regime_concentration f) (float_of_Z 100)) +:+ "% of the effect is in that regime alone)")
    (finding_dict f ++ [("also_seen"%string, JList [])]) (pf_n f) (pf_mean_delta_r f) (effective_p f)
    (fmax half_ (fmin one (fadd one (fdiv (pf_mean_delta_r f) (float_of_Z 2))))).
Definition also_seen (c : RegimeLesson) : list json := match dict_get "also_seen" (rl_evidence c) with Some (JList l) => l | _ => [] end.
Definition seen_too (l : list json) (c : RegimeLesson) : RegimeLesson :=
  mkRegimeLesson (rl_strategy c) (rl_regime c) (rl_statement c) (dict_set "also_seen" (JList l) (rl_evidence c)) (rl_sample_size c) (rl_effect_r c)
    (rl_p_value c) (rl_caution c).
Definition note_regime (strategy : option string) (best : list (string * RegimeLesson)) (f : PatternFinding) : list (string * RegimeLesson) :=
  let regime := pf_dominant_regime f in
  let candidate := regime_candidate strategy f in
  match dict_get regime best with
  | None => dict_set regime candidate best
  | Some prior =>
      if fltb (fabs (rl_effect_r prior)) (fabs (pf_mean_delta_r f))
      then dict_set regime (seen_too (also_seen prior ++ [default JNull (dict_get "pattern" (rl_evidence prior))]) candidate) best
      else dict_set regime (seen_too (also_seen prior ++ [JStr (pf_pattern f)]) prior) best
  end.
(** [regime_lessons]. *)
Definition regime_lessons (findings : list PatternFinding) (strategy : option string) (min_sample : Z) (alpha : spec_float) : list RegimeLesson :=
  map snd (fold_left (note_regime strategy) (List.filter (eligible min_sample alpha) findings) []).

(** ** The queue *)

(** The proposals by identity and the file behind them. *)
Record ProposalQueue := mkQueue { pq_items : list (string * Proposal); pq_file : option (list Proposal) }.
Definition empty_queue : ProposalQueue := mkQueue [] None.
Definition with_items (items : list (string * Proposal)) (q : ProposalQueue) : ProposalQueue := mkQueue items (pq_file q).
(** [_save] and [_load]. *)
Definition save (q : ProposalQueue) : ProposalQueue := mkQueue (pq_items q) (Some (map snd (pq_items q))).
Definition load (file : option (list Proposal)) : ProposalQueue := mkQueue (dict_of pr_id (default [] file)) file.

Definition with_status (s : ProposalStatus) (p : Proposal) : Proposal :=
  mkProposal (pr_id p) (pr_created_ns p) (pr_path p) (pr_current_value p) (pr_proposed_value p) (pr_rationale p) (pr_evidence p) (pr_sample_size p)
    (pr_expected_effect_r p) (pr_effect_ci_low p) (pr_effect_ci_high p) (pr_p_value p) s (pr_validation_run_id p) (pr_reviewed_by p) (pr_reviewed_ns p)
    (pr_expires_ns p) (pr_strategy p).
Definition with_review (now : Z) (reviewer : string) (p : Proposal) : Proposal :=
  mkProposal (pr_id p) (pr_created_ns p) (pr_path p) (pr_current_value p) (pr_proposed_value p) (pr_rationale p) (pr_evidence p) (pr_sample_size p)
    (pr_expected_effect_r p) (pr_effect_ci_low p) (pr_effect_ci_high p) (pr_p_value p) (pr_status p) (pr_validation_run_id p) (Some reviewer) (Some now)
    (pr_expires_ns p) (pr_strategy p).
Definition with_run (run_id : string) (p : Proposal) : Proposal :=
  mkProposal (pr_id p) (pr_created_ns p) (pr_path p) (pr_current_value p) (pr_proposed_value p) (pr_rationale p) (pr_evidence p) (pr_sample_size p)
    (pr_expected_effect_r p) (pr_effect_ci_low p) (pr_effect_ci_high p) (pr_p_value p) (pr_status p) (Some run_id) (pr_reviewed_by p) (pr_reviewed_ns p)
    (pr_expires_ns p) (pr_strategy p).
Definition has_status (s : ProposalStatus) (p : Proposal) : bool := bool_decide (pr_status p = s).
Definition on_items (f : Proposal -> Proposal) (items : list (string * Proposal)) : list (string * Proposal) := map (fun kv => (kv.1, f kv.2)) items.

(** [add]. *)
Definition replaced (path : string) (p : Proposal) : Proposal :=
  if bool_decide (pr_path p = path) && has_status Pending p then with_status Expired p else p.
Definition add (proposal : Proposal) (q : ProposalQueue) : ProposalQueue :=
  save (with_items (dict_set (pr_id proposal) proposal (on_items (replaced (pr_path proposal)) (pq_items q))) q).

(** [expire_stale] and [pending]. *)
Definition stale (now : Z) (p : Proposal) : bool := has_status Pending p && negb (pr_expires_ns p =? 0) && (pr_expires_ns p <? now).
Definition expire_stale (now : Z) (q : ProposalQueue) : ProposalQueue * Z :=
  let n := Z.of_nat (length (List.filter (fun kv => stale now kv.2) (pq_items q))) in
  let q := with_items (on_items (fun p => if stale now p then with_status Expired p else p) (pq_items q)) q in
  (if n =? 0 then q else save q, n).
Definition pending (now : Z) (q : ProposalQueue) : ProposalQueue * list Proposal :=
  let q := (expire_stale now q).1 in (q, List.filter (has_status Pending) (map snd (pq_items q))).

(** A change of the proposal of an identity, which must have a status. *)
Definition change (id : string) (s : ProposalStatus) (f : Proposal -> Proposal) (q : ProposalQueue) : ProposalQueue * res Proposal :=
  match dict_get id (pq_items q) with
  | None => (q, Raise KeyError)
  | Some p => if negb (has_status s p) then (q, Raise ValueError)
              else (save (with_items (dict_set id (f p) (pq_items q)) q), Ok (f p))
  end.
(** [review], [mark_validated], [mark_applied]. *)
Definition review (now : Z) (id : string) (approve : bool) (reviewer : string) : ProposalQueue -> ProposalQueue * res Proposal :=
  change id Pending (fun p => with_review now reviewer (with_status (if approve then Approved else Rejected) p)).
Definition mark_validated (id run_id : string) (passed : bool) : ProposalQueue -> ProposalQueue * res Proposal :=
  change id Approved (fun p => with_status (if passed then Validated else Rejected) (with_run run_id p)).
Definition mark_applied (id : string) : ProposalQueue -> ProposalQueue * res Proposal := change id Validated (with_status Applied).
(** [all]. *)
Definition all_ (q : ProposalQueue) : list Proposal := merge_sort (newest pr_created_ns) (map snd (pq_items q)).

(** ** Learning from findings *)

Definition of_regime (now : Z) (c : RegimeLesson) : Lesson :=
  post_init (mkLesson "regime" (rl_statement c) (rl_evidence c) (rl_sample_size c) (rl_effect_r c) (rl_p_value c) (rl_strategy c) None
    (Some (rl_regime c)) None (rl_caution c) now 0 0 0 HALF_LIFE).

(** [-0.15]. *)
Definition ADVERSE : spec_float := float_of_dec (-0.15)%dec.
Definition teaches (alpha : spec_float) (f : PatternFinding) : bool :=
  fltb (effective_p f) alpha && (25 <=? pf_n f) && String.prefix "tag:" (pf_pattern f) && fltb (pf_mean_delta_r f) ADVERSE
  && (pf_significant f || (pf_n_tests_in_family f =? 0)) && negb (bool_decide (pf_diagnosis f ∈ ["luck"; "insufficient"; "descriptive"]%string)).
Definition scoped_regime (f : PatternFinding) : option string :=
  if bool_decide (pf_diagnosis f = "regime") && negb (bool_decide (pf_dominant_regime f ∈ [""; "unknown"]%string)) then Some (pf_dominant_regime f) else None.
Definition named (strategy : option string) : bool := match strategy with Some s => negb (bool_decide (s = "")) | None => false end.
Definition tag_lesson (now : Z) (strategy : option string) (f : PatternFinding) : Lesson :=
  post_init (mkLesson (if bool_decide (scoped_regime f <> None) then "regime" else if named strategy then "strategy" else "global") (pf_recommendation f) (finding_dict f) (pf_n f)
    (pf_mean_delta_r f) (effective_p f) strategy None (scoped_regime f) None (fmax half_ (fadd one (fdiv (pf_mean_delta_r f) (float_of_Z 2)))) now 0 0 0 HALF_LIFE).

Section Learning.
Context {CM : CMath}.

Definition taught (now : Z) (alpha : spec_float) (strategy : option string) (min_sample : Z) (findings : list PatternFinding) : list Lesson :=
  map (tag_lesson now strategy) (List.filter (teaches alpha) findings) ++ map (of_regime now) (regime_lessons findings strategy min_sample alpha).
Definition add_all (now : Z) (ls : list Lesson) (m : MemoryStore) : MemoryStore := fold_left (fun m l => (add_lesson now l m).1) ls m.

(** The part of [_learn] that follows [aggregate], for one strategy. *)
Definition learn_findings (now : Z) (alpha : spec_float) (min_sample : Z) (strategy : option string) (config : json) (findings : list PatternFinding)
    (m : MemoryStore) (q : ProposalQueue) : MemoryStore * ProposalQueue * res (Z * Z) :=
  let m := (review_against findings alpha now m).1 in
  let m := (expire_unconfirmed now m).1 in
  let lessons := taught now alpha strategy min_sample findings in
  let m := add_all now lessons m in
  match derive_proposals now findings config strategy min_sample alpha with
  | Raise e => (m, q, Raise e)
  | Ok ps => (m, fold_left (fun q p => add p q) ps q, Ok (Z.of_nat (length lessons), Z.of_nat (length ps)))
  end.
End Learning.
