(* ===== verification/ProposalProps.v ===== *)
(** What the agent's proposals and regime lessons may do: a proposal moves a parameter
    within its bounds and never toward more risk, the queue applies nothing a person
    did not review and a run did not validate, and learning only restrains. *)

From Stdlib Require Import ZArith Lia SpecFloat Ascii String.
From stdpp Require Import base strings list sorting.
From S2P Require Import Prelude PyDecimal DecimalTheory Config Calendar PyFloat PyText PyDict PyJson FloatTheory UnitFloat Memory MemoryProps Proposals.

Local Open Scope Z_scope.
Local Open Scope py_scope.

(** ** Rounding keeps the order *)

Lemma half_even_bounds a d : 0 < d -> (2 * half_even a d - 1) * d <= 2 * a <= (2 * half_even a d + 1) * d.
Proof.
  intros Hd. unfold half_even. pose proof (Z.div_mod a d ltac:(lia)). pose proof (Z.mod_pos_bound a d Hd).
  destruct (Z.ltb_spec (2 * (a mod d)) d); [nia|]. destruct (Z.ltb_spec d (2 * (a mod d))); [nia|]. destruct (Z.even _); nia.
Qed.
Lemma half_even_tie a d : 0 < d -> (2 * a = (2 * half_even a d + 1) * d \/ 2 * a = (2 * half_even a d - 1) * d) -> Z.even (half_even a d) = true.
Proof.
  intros Hd. unfold half_even. pose proof (Z.div_mod a d ltac:(lia)). pose proof (Z.mod_pos_bound a d Hd).
  destruct (Z.ltb_spec (2 * (a mod d)) d); [nia|]. destruct (Z.ltb_spec d (2 * (a mod d))); [nia|].
  intros _. destruct (Z.even (a / d)) eqn:E; [exact E|]. now rewrite Z.even_add, E.
Qed.
Lemma half_even_mono a d a' d' : 0 < d -> 0 < d' -> a * d' <= a' * d -> half_even a d <= half_even a' d'.
Proof.
  intros Hd Hd' H. pose proof (half_even_bounds a d Hd) as [L _]. pose proof (half_even_bounds a' d' Hd') as [_ U].
  pose proof (half_even_tie a d Hd) as T. pose proof (half_even_tie a' d' Hd') as T'.
  set (k := half_even a d) in *. set (k' := half_even a' d') in *. clearbody k k'.
  destruct (Z.le_gt_cases k k') as [|Hlt]; [assumption|exfalso].
  assert (k = k' + 1).
  { assert ((2 * k - 1) * (d * d') <= (2 * k' + 1) * (d * d')) by nia. assert (0 < d * d') by nia. nia. }
  subst k. assert (E : 2 * a * d' = (2 * k' + 1) * d * d' /\ 2 * a' * d = (2 * k' + 1) * d' * d) by nia. destruct E as [E E'].
  assert (A : 2 * a = (2 * (k' + 1) - 1) * d) by nia. assert (A' : 2 * a' = (2 * k' + 1) * d') by nia.
  specialize (T (or_intror A)). specialize (T' (or_introl A')). rewrite Z.even_add, T' in T. discriminate.
Qed.

(** The exact value of a float that is not negative, as a fraction. *)
Definition plain (x : spec_float) : bool := match x with S754_zero _ | S754_finite false _ _ => true | _ => false end.
Definition numer (x : spec_float) : Z := mantissa x * 2 ^ Z.max (exponent x) 0.
Definition denom (x : spec_float) : Z := 2 ^ Z.max (- exponent x) 0.
Lemma denom_pos x : 0 < denom x.
Proof. apply Z.pow_pos_nonneg; lia. Qed.

Lemma half_even_one a : half_even a 1 = a.
Proof. pose proof (half_even_bounds a 1 ltac:(lia)). lia. Qed.

Lemma plain_digits x n : plain x = true -> 0 <= n -> round_digits x n = Some (half_even (numer x * 10 ^ n) (denom x)).
Proof.
  unfold numer, denom. destruct x as [s|s| |s m e]; try discriminate; [intros _ Hn; cbn; now rewrite half_even_one|]. destruct s; [discriminate|].
  intros _ Hn. cbn [round_digits mantissa exponent cond_Zopp]. destruct (Z.leb_spec 0 e).
  - rewrite (Z.max_l e 0), (Z.max_r (- e) 0) by lia. now rewrite Z.pow_0_r, half_even_one.
  - rewrite (Z.max_r e 0), (Z.max_l (- e) 0) by lia. now rewrite Z.pow_0_r, Z.mul_1_r.
Qed.
Lemma plain_fround x : plain x = true -> fround x = half_even (numer x) (denom x).
Proof.
  unfold numer, denom. destruct x as [s|s| |s m e]; try discriminate; [intros _; cbn; now rewrite half_even_one|]. destruct s; [discriminate|].
  intros _. cbn [fround mantissa exponent cond_Zopp]. destruct (Z.leb_spec 0 e).
  - rewrite (Z.max_l e 0), (Z.max_r (- e) 0) by lia. now rewrite Z.pow_0_r, half_even_one.
  - rewrite (Z.max_r e 0), (Z.max_l (- e) 0) by lia. rewrite Z.pow_0_r, Z.mul_1_r. unfold half_even.
    destruct (Z.ltb_spec (2 * (Z.pos m mod 2 ^ (- e))) (2 ^ (- e))); [reflexivity|]. cbn [orb].
    destruct (Z.ltb_spec (2 ^ (- e)) (2 * (Z.pos m mod 2 ^ (- e)))); destruct (Z.eqb_spec (2 * (Z.pos m mod 2 ^ (- e))) (2 ^ (- e))); try lia; reflexivity.
Qed.

Lemma order_fraction x y : plain x = true -> plain y = true -> fltb y x = false -> numer x * denom y <= numer y * denom x.
Proof.
  intros Hx Hy H. assert (L : mantissa x * 2 ^ (exponent x - Z.min (exponent y) (exponent x)) <= mantissa y * 2 ^ (exponent y - Z.min (exponent y) (exponent x))).
  { destruct x as [s|s| |[] m e], y as [s'|s'| |[] m' e']; try discriminate; unfold fltb in H; now apply Z.ltb_ge in H. }
  unfold numer, denom. set (e := exponent x) in *. set (e' := exponent y) in *. clearbody e e'. set (mx := mantissa x) in *. set (my := mantissa y) in *. clearbody mx my.
  rewrite <- !Z.mul_assoc, <- !Z.pow_add_r by lia. set (k := Z.min e' e) in *.
  replace (Z.max e 0 + Z.max (- e') 0) with (e - k + (Z.max e 0 + Z.max (- e') 0 - (e - k))) by lia.
  replace (Z.max e' 0 + Z.max (- e) 0) with (e' - k + (Z.max e 0 + Z.max (- e') 0 - (e - k))) by lia.
  assert (0 <= Z.max e 0 + Z.max (- e') 0 - (e - k)) by lia.
  rewrite !Z.pow_add_r by lia. pose proof (Z.pow_nonneg 2 (Z.max e 0 + Z.max (- e') 0 - (e - k))). nia.
Qed.
Lemma digits_mono x y n k k' : plain x = true -> plain y = true -> fltb y x = false -> 0 <= n -> round_digits x n = Some k -> round_digits y n = Some k' -> k <= k'.
Proof.
  intros Hx Hy H Hn. rewrite !plain_digits by assumption. intros [= <-] [= <-]. apply half_even_mono; [apply denom_pos..|].
  pose proof (order_fraction x y Hx Hy H). pose proof (Z.pow_nonneg 10 n). nia.
Qed.
Lemma fround_mono x y : plain x = true -> plain y = true -> fltb y x = false -> fround x <= fround y.
Proof. intros Hx Hy H. rewrite !plain_fround by assumption. apply half_even_mono; [apply denom_pos..|]. now apply order_fraction. Qed.

(** ** Clamping *)

(** The bounds of the table, read as floats and rounded, are the bounds. *)
Definition bounds_exact (lo hi : decimal) : bool :=
  let l := float_of_dec lo in let h := float_of_dec hi in
  plain l && plain h && negb (fltb h l) && (-4 <=? expo lo) && (-4 <=? expo hi)
  && bool_decide (round_digits l 4 = Some (at_exp lo (-4))) && bool_decide (round_digits h 4 = Some (at_exp hi (-4))).
(** Of an integer parameter, the bounds are integers. *)
Definition spec_exact (spec : Spec) : bool :=
  match spec with
  | Bounded lo hi whole_number _ => bounds_exact lo hi && (negb whole_number || ((lo <=? mkDec (fround (float_of_dec lo)) 0)%dec && (mkDec (fround (float_of_dec hi)) 0 <=? hi)%dec
                                                        && (expo lo =? 0) && (expo hi =? 0)))
  | Dictionary => true
  end.
Lemma table_exact : forallb (fun kv => spec_exact kv.2) PROPOSABLE = true.
Proof. vm_compute. reflexivity. Qed.
Lemma proposable_exact path spec : dict_get path PROPOSABLE = Some spec -> spec_exact spec = true.
Proof. intros H%dict_get_elem. pose proof table_exact as T. rewrite forallb_forall in T. exact (T _ (proj1 (list_elem_of_In _ _) H)). Qed.

(** [lo <= v <= hi] of a stored value: an integer, or a number of at most four places. *)
Definition within (lo hi : decimal) (v : Value) : Prop :=
  match v with
  | VInt z => dleb lo (mkDec z 0) = true /\ dleb (mkDec z 0) hi = true
  | VFloat x => exists k, x = float_of_dec (mkDec k (-4)) /\ dleb lo (mkDec k (-4)) = true /\ dleb (mkDec k (-4)) hi = true
  | VDict _ => False
  end.

Lemma dleb_below a k e : e <= expo a -> dleb a (mkDec k e) = (at_exp a e <=? k).
Proof. intros H. unfold dleb. cbn [expo]. rewrite Z.min_r by lia. f_equal. unfold at_exp. cbn. rewrite Z.sub_diag. lia. Qed.
Lemma dleb_above a k e : e <= expo a -> dleb (mkDec k e) a = (k <=? at_exp a e).
Proof. intros H. unfold dleb. cbn [expo]. rewrite Z.min_l by lia. f_equal. unfold at_exp. cbn. rewrite Z.sub_diag. lia. Qed.

Lemma fltb_plain x y : plain x = true -> fltb x y = true -> y <> S754_infinity false -> plain y = true.
Proof.
  intros Hx H Hn. assert (H0 : fltb x (float_of_Z 0) = false) by (destruct x as [s|s| |[] m e]; try discriminate; [now destruct s|apply fltb_pos_zero]).
  pose proof (above_plus _ _ H H0) as Hy. destruct y as [s|s| |[] m e]; try reflexivity; [destruct s; [discriminate|congruence]|destruct x as [| | |]; discriminate|].
  exfalso. revert Hy. unfold fltb. cbn [mantissa exponent cond_Zopp float_of_Z binary_normalize]. intros Hy%Z.ltb_ge.
  assert (0 < 2 ^ (e - Z.min e 0)) by (apply Z.pow_pos_nonneg; lia). nia.
Qed.

(** The clamped float lies between the bounds. *)
Lemma clamp_between l h x : plain l = true -> plain h = true -> fltb h l = false ->
  let v := fmax l (fmin h x) in plain v = true /\ fltb v l = false /\ fltb h v = false.
Proof.
  intros Hl Hh Hlh. cbv zeta. split; [|split; [apply fmax_not_below|]]; unfold fmin; destruct (fltb x h) eqn:E; unfold fmax.
  - destruct (fltb l x) eqn:E'; [|exact Hl]. apply (fltb_plain l x Hl E'). intros ->. destruct h; try destruct s; discriminate.
  - now destruct (fltb l h).
  - destruct (fltb l x) eqn:E'; [now apply fltb_asym|exact Hlh].
  - destruct (fltb l h); [|exact Hlh]. destruct (fltb h h) eqn:E'; [|reflexivity]. now pose proof (fltb_asym _ _ E') as E2; rewrite E' in E2.
Qed.

Lemma clamp_within lo hi w d x : spec_exact (Bounded lo hi w d) = true -> within lo hi (clamp_number lo hi w x).
Proof.
  cbn [spec_exact]. unfold bounds_exact. cbv zeta. intros Hall. apply andb_prop in Hall as [H Hi]. repeat (apply andb_prop in H as [H ?]).
  repeat match goal with H : bool_decide _ = true |- _ => apply bool_decide_eq_true in H | H : negb _ = true |- _ => apply negb_true_iff in H | H : (_ <=? _) = true |- _ => apply Z.leb_le in H end.
  destruct (clamp_between (float_of_dec lo) (float_of_dec hi) x) as (Hv & Hl & Hh); try assumption. unfold clamp_number. set (v := fmax _ _) in *. destruct w.
  - cbn [negb orb] in Hi. repeat (apply andb_prop in Hi as [Hi ?]). repeat match goal with H : (_ =? _) = true |- _ => apply Z.eqb_eq in H end.
    assert (A : forall k, dleb lo (mkDec k 0) = (at_exp lo 0 <=? k)) by (intros k; apply dleb_below; lia).
    assert (B : forall k, dleb (mkDec k 0) hi = (k <=? at_exp hi 0)) by (intros k; apply dleb_above; lia).
    cbn [within]. rewrite A, B in *. rewrite !Z.leb_le in *.
    pose proof (fround_mono (float_of_dec lo) v ltac:(assumption) Hv Hl). pose proof (fround_mono v (float_of_dec hi) Hv ltac:(assumption) Hh). lia.
  - cbn [within]. exists (half_even (numer v * 10 ^ 4) (denom v)). unfold fround_to. rewrite plain_digits by (assumption || lia).
    split; [reflexivity|]. rewrite dleb_below, dleb_above by assumption. rewrite !Z.leb_le.
    split; [apply (digits_mono (float_of_dec lo) v 4)|apply (digits_mono v (float_of_dec hi) 4)]; try assumption; try lia; now apply plain_digits.
Qed.

(** ** What [propose] lets through *)

Lemma clamp_spec spec v v' : clamp_ spec v = inr v' -> match spec with Dictionary => v' = v | Bounded lo hi w _ => exists x, v' = clamp_number lo hi w x end.
Proof. destruct spec as [lo hi w d|]; cbn [clamp_]; [destruct (as_float v); [intros [= <-]; eauto|discriminate]|intros [= <-]; reflexivity]. Qed.
Lemma limit_spec spec current v r : match spec with Dictionary => (limit_step spec current v r).1 = v
  | Bounded lo hi w _ => (limit_step spec current v r).1 = v \/ exists x, (limit_step spec current v r).1 = clamp_number lo hi w x end.
Proof.
  unfold limit_step. destruct spec as [lo hi w d|]; [|reflexivity]. destruct (both_floats current v) as [[c n]|]; [|now left].
  destruct (is_zero c); [now left|]. destruct (fltb _ _); [right; eauto|now left].
Qed.

(** Not an adverse move: lower where lower is safer, higher where higher is safer. *)
Definition no_riskier (spec : Spec) (current : option Value) (v : Value) : Prop :=
  match spec, both_floats current v with
  | Bounded _ _ _ SaferLower, Some (c, n) => fltb c n = false
  | Bounded _ _ _ SaferHigher, Some (c, n) => fltb n c = false
  | _, _ => True
  end.
Definition in_bounds (spec : Spec) (v : Value) : Prop := match spec with Bounded lo hi _ _ => within lo hi v | Dictionary => True end.

Lemma feqb_order x y : feqb x y = true -> fltb x y = false /\ fltb y x = false.
Proof.
  assert (same : forall z, fltb z z = false) by (intros z; destruct (fltb z z) eqn:E; [pose proof (fltb_asym _ _ E); congruence|reflexivity]).
  destruct x as [s|s| |s m e], y as [s'|s'| |s' m' e']; try discriminate; try (destruct s, s'; (discriminate || (intros _; split; reflexivity))); intros H.
  all: try (destruct s; discriminate); try (destruct s'; discriminate).
  assert (E : S754_finite s m e = S754_finite s' m' e'); [|rewrite E; split; apply same].
  unfold feqb, SFeqb in H. cbn [SFcompare] in H. destruct (Z.compare_spec e e') as [->| |]; destruct s, s'; try discriminate;
    change (Pos.compare_cont Eq m m') with (Pos.compare m m') in H; destruct (Pos.compare_spec m m') as [->| |]; try discriminate; reflexivity.
Qed.

Lemma final_no_riskier spec current v : moves_wrong final_riskier spec current v = false -> no_riskier spec current v.
Proof.
  unfold moves_wrong, no_riskier. destruct spec as [lo hi w []|]; try (intros _; exact I); destruct (both_floats current v) as [[c n]|]; try (intros _; exact I);
    (destruct (feqb n c) eqn:E; [intros _; now apply feqb_order in E as []|cbn; auto]).
Qed.

(** The evidence a proposal must rest on. *)
Definition well_supported (f : PatternFinding) (min_sample : Z) (alpha : spec_float) : Prop :=
  min_sample <= pf_n f /\ fleb alpha (effective_p f) = false /\ (pf_n_tests_in_family f = 0 \/ pf_significant f = true) /\ not_a_parameter f = false.

(** What every proposal satisfies, whatever its status. *)
Definition restrained (p : Proposal) : Prop :=
  (pr_path p ∉ FROZEN_PATHS) /\
  exists spec, dict_get (pr_path p) PROPOSABLE = Some spec /\ in_bounds spec (pr_proposed_value p) /\ no_riskier spec (pr_current_value p) (pr_proposed_value p).

Lemma propose_restrained now path current proposed rationale f strategy min_sample alpha p :
  propose now path current proposed rationale f strategy min_sample alpha = inr p ->
  restrained p /\ pr_status p = Pending /\ pr_path p = path /\ pr_current_value p = current /\ well_supported f min_sample alpha.
Proof.
  unfold propose. destruct (bool_decide (path ∈ FROZEN_PATHS)) eqn:Ef; [discriminate|]. apply bool_decide_eq_false in Ef.
  destruct (dict_get path PROPOSABLE) as [spec|] eqn:Es; [|discriminate]. destruct (Z.ltb_spec (pf_n f) min_sample) as [|Hn]; [discriminate|].
  destruct (clamp_ spec proposed) as [|clamped] eqn:Ec; [discriminate|]. destruct (moves_wrong riskier _ _ _); [discriminate|].
  destruct (fleb alpha _) eqn:Ea; [discriminate|]. destruct (_ && negb (pf_significant f)) eqn:Eg; [discriminate|].
  destruct (not_a_parameter f) eqn:Ed; [discriminate|]. destruct (negb (dry_run _ _ _)); [discriminate|].
  destruct (limit_step spec current clamped rationale) as [final r] eqn:El. destruct (moves_wrong final_riskier _ _ _) eqn:Em; [discriminate|].
  intros [= <-]. split; [split; [exact Ef|]|split; [reflexivity|split; [reflexivity|split; [reflexivity|split; [exact Hn|split; [exact Ea|split; [|exact Ed]]]]]]].
  - exists spec. split; [exact Es|]. split; [|now apply final_no_riskier]. cbn [pr_proposed_value new_proposal].
    pose proof (proposable_exact _ _ Es) as Hx. apply clamp_spec in Ec. pose proof (limit_spec spec current clamped rationale) as L. rewrite El in L. cbn [fst] in L.
    destruct spec as [lo hi w d|]; [|exact I]. cbn [in_bounds]. destruct Ec as [x ->]. destruct L as [->|[y ->]]; now apply (clamp_within lo hi w d).
  - apply andb_false_iff in Eg as [Eg|Eg]; apply negb_false_iff in Eg; [left; now apply Z.eqb_eq|now right].
Qed.

Lemma derive_one_restrained now config strategy min_sample alpha f p : derive_one now config strategy min_sample alpha f = Ok (Some p) ->
  restrained p /\ pr_status p = Pending.
Proof.
  unfold derive_one. destruct (negb _); [discriminate|]. destruct (change_of _ _) as [ch|]; [|discriminate]. intros H. inv_res.
  destruct (propose _ _ _ _ _ _ _ _ _) as [[]|q] eqn:Ep; try discriminate. injection H as ->. apply propose_restrained in Ep as (H1 & H2 & _). now split.
Qed.
Lemma derive_restrained now config strategy min_sample alpha findings : forall ps, derive_proposals now findings config strategy min_sample alpha = Ok ps -> Forall (fun p => restrained p /\ pr_status p = Pending) ps.
Proof.
  induction findings as [|f rest IH]; intros ps H; [injection H as <-; constructor|]. cbn [derive_proposals] in H. inv_res. specialize (IH _ eq_refl).
  destruct a as [p|]; subst; [constructor; [|assumption]|assumption]. now apply derive_one_restrained in E.
Qed.

(** ** The queue *)

Inductive QueueCall :=
| QAdd (p : Proposal)
| QExpire (now : Z)
| QReview (now : Z) (id : string) (approve : bool) (reviewer : string)
| QValidated (id run_id : string) (passed : bool)
| QApplied (id : string)
| QRestart.
Definition queue_call (c : QueueCall) (q : ProposalQueue) : ProposalQueue :=
  match c with
  | QAdd p => add p q
  | QExpire now => (expire_stale now q).1
  | QReview now id approve reviewer => (review now id approve reviewer q).1
  | QValidated id run_id passed => (mark_validated id run_id passed q).1
  | QApplied id => (mark_applied id q).1
  | QRestart => load (pq_file q)
  end.
Definition run_queue (cs : list QueueCall) (q : ProposalQueue) : ProposalQueue := fold_left (fun q c => queue_call c q) cs q.
(** What is added is a fresh proposal. *)
Definition queue_call_ok (c : QueueCall) : Prop := match c with QAdd p => pr_status p = Pending | _ => True end.

(** Who stands behind a status, in the calls so far. *)
Definition reviewed (h : list QueueCall) (id : string) (p : Proposal) : Prop :=
  exists now reviewer, QReview now id true reviewer ∈ h /\ pr_reviewed_by p = Some reviewer.
Definition validated (h : list QueueCall) (id : string) (p : Proposal) : Prop :=
  exists run_id, QValidated id run_id true ∈ h /\ pr_validation_run_id p = Some run_id.
Definition backed (h : list QueueCall) (id : string) (p : Proposal) : Prop :=
  match pr_status p with
  | Approved => reviewed h id p
  | Validated => reviewed h id p /\ validated h id p
  | Applied => reviewed h id p /\ validated h id p /\ QApplied id ∈ h
  | _ => True
  end.
Record ItemsOk (h : list QueueCall) (d : list (string * Proposal)) : Prop := {
  io_nodup : NoDup (map fst d);
  io_each : forall k p, dict_get k d = Some p -> pr_id p = k /\ backed h k p;
  io_pending : forall k k' p p', dict_get k d = Some p -> dict_get k' d = Some p' -> pr_status p = Pending -> pr_status p' = Pending -> pr_path p = pr_path p' -> k = k'
}.
Record QueueOk (h : list QueueCall) (q : ProposalQueue) : Prop := {
  qo_items : ItemsOk h (pq_items q);
  qo_file : default [] (pq_file q) = map snd (pq_items q)
}.

Lemma backed_mono h h' k p : (forall c, c ∈ h -> c ∈ h') -> backed h k p -> backed h' k p.
Proof. intros Hs. unfold backed, reviewed, validated. destruct (pr_status p); naive_solver. Qed.
Lemma ItemsOk_mono h h' d : (forall c, c ∈ h -> c ∈ h') -> ItemsOk h d -> ItemsOk h' d.
Proof. intros Hs [A B C]. split; [exact A| |exact C]. intros k p Hk. destruct (B k p Hk) as [E Hb]. split; [exact E|]. now apply (backed_mono h). Qed.

Lemma on_items_keys f d : map fst (on_items f d) = map fst d.
Proof. unfold on_items. rewrite List.map_map. now apply map_ext. Qed.
Lemma on_items_get f k d : dict_get k (on_items f d) = f <$> dict_get k d.
Proof. induction d as [|[k0 p] d IH]; [reflexivity|]. cbn. case_bool_decide; [reflexivity|exact IH]. Qed.

(** Pending proposals may expire. *)
Definition expires (p p' : Proposal) : Prop := p' = p \/ (pr_status p = Pending /\ p' = with_status Expired p).
Lemma on_items_ok h f d : (forall p, expires p (f p)) -> ItemsOk h d -> ItemsOk h (on_items f d).
Proof.
  intros Hf [A B C]. assert (P : forall p, pr_status (f p) = Pending -> pr_status p = Pending /\ pr_path (f p) = pr_path p).
  { intros p. destruct (Hf p) as [->|[_ ->]]; [auto|discriminate]. }
  split; [now rewrite on_items_keys| |].
  - intros k p' H. rewrite on_items_get in H. destruct (dict_get k d) as [p|] eqn:E; [|discriminate]. injection H as <-. destruct (B k p E) as [Hid Hb].
    destruct (Hf p) as [->|[_ ->]]; [auto|]. split; [exact Hid|exact I].
  - intros k k' p p' H H' S S' Ep. rewrite on_items_get in H, H'. destruct (dict_get k d) as [x|] eqn:E; [|discriminate]. destruct (dict_get k' d) as [x'|] eqn:E'; [|discriminate].
    injection H as <-. injection H' as <-. destruct (P x S) as [Sx Px], (P x' S') as [Sx' Px']. apply (C k k' x x'); auto; congruence.
Qed.

Lemma dict_set_ok h k p d : ItemsOk h d -> pr_id p = k -> backed h k p ->
  (pr_status p = Pending -> forall k' p', dict_get k' d = Some p' -> pr_status p' = Pending -> pr_path p' <> pr_path p) -> ItemsOk h (dict_set k p d).
Proof.
  intros [A B C] Hid Hb Hp. split; [now apply dict_set_NoDup| |].
  - intros k' p'. rewrite dict_get_set. case_bool_decide as E; [intros [= <-]; subst; auto|auto].
  - intros k1 k2 p1 p2. rewrite !dict_get_set. repeat case_bool_decide; intros H1 H2 S1 S2 Ep; subst; try reflexivity;
      repeat match goal with H : Some _ = Some _ |- _ => injection H as <- end; [exfalso; exact (Hp S1 _ _ H2 S2 (eq_sym Ep))|exfalso; exact (Hp S2 _ _ H1 S1 Ep)|eauto].
Qed.

Lemma load_items d : NoDup (map fst d) -> (forall k p, (k, p) ∈ d -> pr_id p = k) -> dict_of pr_id (map snd d) = d.
Proof.
  intros Hn Hi. unfold dict_of. cut (forall acc, NoDup (map fst (acc ++ d)) -> fold_left (fun d x => dict_set (pr_id x) x d) (map snd d) acc = acc ++ d).
  { intros H. now apply (H []). }
  clear Hn. induction d as [|[k p] d IH]; intros acc Hn; cbn [map snd fold_left]; [symmetry; apply app_nil_r|].
  rewrite (Hi k p) by left. rewrite dict_set_new.
  - rewrite IH; [now rewrite <- app_assoc|intros k' p' H; apply Hi; now right|now rewrite <- app_assoc].
  - rewrite List.map_app in Hn. cbn [map fst] in Hn. apply NoDup_app in Hn as (_ & Hn & _). intros H. apply (Hn k H). left.
Qed.
Lemma load_ok h q : QueueOk h q -> pq_items (load (pq_file q)) = pq_items q.
Proof.
  intros [[A B _] F]. unfold load. cbn [pq_items]. rewrite F. apply load_items; [exact A|]. intros k p H. apply (B k p). now apply (dict_get_In k p _ A), list_elem_of_In.
Qed.

Lemma save_ok h d f : ItemsOk h d -> QueueOk h (save (mkQueue d f)).
Proof. now split. Qed.

Lemma add_ok h p q : pr_status p = Pending -> QueueOk h q -> QueueOk h (add p q).
Proof.
  intros Hp [Hi _]. apply save_ok. apply dict_set_ok; [|reflexivity|now unfold backed; rewrite Hp|].
  - apply on_items_ok; [|exact Hi]. intros x. unfold replaced. destruct (_ && _) eqn:E; [right|now left].
    apply andb_prop in E as [_ E]. apply bool_decide_eq_true in E. auto.
  - intros _ k x. rewrite on_items_get. destruct (dict_get k (pq_items q)) as [y|]; [|discriminate]. intros [= <-]. unfold replaced.
    destruct (bool_decide (pr_path y = pr_path p)) eqn:E; cbn [andb]; [|apply bool_decide_eq_false in E; auto]. destruct (has_status Pending y) eqn:E2.
    + intros H1. discriminate H1.
    + intros H1. now apply bool_decide_eq_false in E2.
Qed.

Lemma expire_ok h now q : QueueOk h q -> QueueOk h (expire_stale now q).1.
Proof.
  intros [Hi Hf]. unfold expire_stale. cbn [fst]. set (f := fun p : Proposal => _).
  assert (Hf' : forall p, expires p (f p)).
  { intros p. unfold f. destruct (stale now p) eqn:E; [right|now left]. unfold stale in E. apply andb_prop in E as [E _]. apply andb_prop in E as [E _].
    apply bool_decide_eq_true in E. auto. }
  pose proof (on_items_ok h f (pq_items q) Hf' Hi) as Hi'. destruct (Z.eqb_spec (Z.of_nat (length (List.filter (fun kv => stale now kv.2) (pq_items q)))) 0) as [E|E]; [|now split].
  assert (En : on_items f (pq_items q) = pq_items q).
  { clear - E. induction (pq_items q) as [|[k p] d IH]; [reflexivity|]. cbn [List.filter snd] in E. unfold on_items in *. cbn [map fst snd].
    destruct (stale now p) eqn:Es; [cbn in E; lia|]. rewrite IH by exact E. unfold f. now rewrite Es. }
  split; cbn [pq_items pq_file with_items]; rewrite En; assumption.
Qed.

(** A change that keeps the identity and leaves the pending ones. *)
Lemma change_ok h h' id s f q : QueueOk h q -> (forall c, c ∈ h -> c ∈ h') -> (forall p, pr_id (f p) = pr_id p) -> (forall p, pr_status (f p) <> Pending) ->
  (forall p, pr_status p = s -> backed h id p -> backed h' id (f p)) -> QueueOk h' (change id s f q).1.
Proof.
  intros [Hi Hf] Hs Hid Hp Hb. assert (Hi' : ItemsOk h' (pq_items q)) by now apply (ItemsOk_mono h). unfold change.
  destruct (dict_get id (pq_items q)) as [p|] eqn:E; [|now split]. destruct (has_status s p) eqn:S; [|now split]. cbn [negb fst]. apply bool_decide_eq_true in S.
  destruct (io_each _ _ Hi id p E) as [E1 Hbk]. apply save_ok, dict_set_ok; [exact Hi'|now rewrite Hid|auto|]. intros H. now apply Hp in H.
Qed.

Lemma queue_call_keeps h c q : queue_call_ok c -> QueueOk h q -> QueueOk (h ++ [c]) (queue_call c q).
Proof.
  intros Hc Hq. assert (Hs : forall x, x ∈ h -> x ∈ h ++ [c]) by (intros x Hx; rewrite elem_of_app; now left).
  assert (Hl : c ∈ h ++ [c]) by (rewrite elem_of_app; right; left).
  assert (Hq' : QueueOk (h ++ [c]) q) by (destruct Hq as [Hi Hf]; split; [now apply (ItemsOk_mono h)|exact Hf]).
  destruct c as [p|now|now id approve reviewer|id run_id passed|id|]; cbn [queue_call queue_call_ok] in *.
  - now apply add_ok.
  - now apply expire_ok.
  - apply (change_ok h); auto; [intros p; destruct approve; discriminate|]. intros p _ _. unfold backed. destruct approve; cbn; [|exact I].
    exists now, reviewer. now split.
  - apply (change_ok h); auto; [intros p; destruct passed; discriminate|]. intros p Hp Hb. unfold backed in *. rewrite Hp in Hb. destruct passed; cbn; [|exact I].
    split; [|exists run_id; now split]. destruct Hb as (n & r & Hr & E). exists n, r. auto.
  - apply (change_ok h); auto; try (intros p; discriminate). intros p Hp Hb. unfold backed in *. rewrite Hp in Hb. cbn.
    destruct Hb as [(n & r & Hr & E) (run & Hv & E')]. split; [exists n, r; auto|split; [exists run; auto|exact Hl]].
  - pose proof (load_ok _ _ Hq') as E. destruct Hq' as [Hi Hf]. split; rewrite E; assumption.
Qed.
Lemma run_queue_ok cs : forall h q, Forall queue_call_ok cs -> QueueOk h q -> QueueOk (h ++ cs) (run_queue cs q).
Proof.
  induction cs as [|c cs IH]; intros h q Hc Hq; [now rewrite app_nil_r|]. inversion Hc; subst. change (c :: cs) with ([c] ++ cs). rewrite app_assoc.
  apply (IH _ (queue_call c q)); [assumption|now apply queue_call_keeps].
Qed.
Lemma empty_queue_ok : QueueOk [] empty_queue.
Proof. split; [split; [constructor|intros k p H; discriminate H|intros k k' p p' H; discriminate H]|reflexivity]. Qed.

(** C24: A proposal is marked applied only when a person approved it and a validation run
    passed: both calls are in the history, and the proposal names the reviewer and the run. *)
Theorem applied_was_reviewed_and_validated cs id p : Forall queue_call_ok cs -> dict_get id (pq_items (run_queue cs empty_queue)) = Some p -> pr_status p = Applied ->
  (exists now reviewer, QReview now id true reviewer ∈ cs /\ pr_reviewed_by p = Some reviewer) /\
  (exists run_id, QValidated id run_id true ∈ cs /\ pr_validation_run_id p = Some run_id).
Proof.
  intros Hc Hg Hs. pose proof (run_queue_ok cs [] empty_queue Hc empty_queue_ok) as [Hi _]. destruct (io_each _ _ Hi id p Hg) as [_ Hb].
  unfold backed in Hb. rewrite Hs in Hb. now destruct Hb as (H1 & H2 & _).
Qed.

(** At most one proposal of a parameter is pending, and a restart reads back the
    queue that was written. *)
Theorem one_pending_per_path_across_restarts cs id id' p p' : Forall queue_call_ok cs -> let q := run_queue cs empty_queue in
  dict_get id (pq_items q) = Some p -> dict_get id' (pq_items (load (pq_file q))) = Some p' ->
  pr_status p = Pending -> pr_status p' = Pending -> pr_path p = pr_path p' -> id = id' /\ p = p'.
Proof.
  intros Hc q. pose proof (run_queue_ok cs [] empty_queue Hc empty_queue_ok) as Hq. fold q in Hq. rewrite (load_ok _ _ Hq). destruct Hq as [Hi _].
  intros H H' S S' E. assert (id = id') as -> by now apply (io_pending _ _ Hi id id' p p'). split; congruence.
Qed.

(** C23: Every proposal [propose] makes is of a parameter that is proposable and not frozen,
    rests on enough trades whose corrected significance clears the level and whose cause is
    a parameter, stays within the parameter's bounds after the step limit and the rounding,
    and does not move from the current value toward more risk. *)
Theorem proposals_never_add_risk now path current proposed rationale f strategy min_sample alpha p :
  propose now path current proposed rationale f strategy min_sample alpha = inr p ->
  (path ∉ FROZEN_PATHS) /\ well_supported f min_sample alpha /\
  exists spec, dict_get path PROPOSABLE = Some spec /\ in_bounds spec (pr_proposed_value p) /\ no_riskier spec current (pr_proposed_value p).
Proof.
  intros H. apply propose_restrained in H as ((Hf & Hs) & _ & Hp & Hc & Hw). rewrite Hp, Hc in *. auto.
Qed.

(** ** Lessons confined to one market state *)

Definition regime_ok (min_sample : Z) (c : RegimeLesson) : Prop :=
  min_sample <= rl_sample_size c /\ fltb (rl_caution c) half_ = false /\ fltb one (rl_caution c) = false /\ fleb (float_of_Z 0) (rl_effect_r c) = false.
Record BestOk (min_sample : Z) (best : list (string * RegimeLesson)) : Prop := {
  bo_nodup : NoDup (map fst best);
  bo_each : forall k c, dict_get k best = Some c -> rl_regime c = k /\ regime_ok min_sample c
}.

Lemma half_to_one x : fltb (fmax half_ (fmin one x)) half_ = false /\ fltb one (fmax half_ (fmin one x)) = false.
Proof.
  split; [apply fmax_not_below|]. unfold fmin. destruct (fltb x one) eqn:E; unfold fmax; [|reflexivity]. destruct (fltb half_ x); [now apply fltb_asym|reflexivity].
Qed.

Lemma candidate_ok min_sample alpha strategy f : eligible min_sample alpha f = true -> regime_ok min_sample (regime_candidate strategy f).
Proof.
  unfold eligible, regime_ok. intros H. repeat (apply andb_prop in H as [H ?]). cbn [regime_candidate rl_sample_size rl_caution rl_effect_r].
  split; [lia|]. pose proof (half_to_one (fadd one (fdiv (pf_mean_delta_r f) (float_of_Z 2)))) as [Hl Hh]. split; [exact Hl|]. split; [exact Hh|]. now apply negb_true_iff.
Qed.

Lemma set_best min_sample k c best : BestOk min_sample best -> rl_regime c = k -> regime_ok min_sample c -> BestOk min_sample (dict_set k c best).
Proof.
  intros [A B] Hk Hc. split; [now apply dict_set_NoDup|]. intros k' c'. rewrite dict_get_set. case_bool_decide; [intros [= <-]; subst; auto|auto].
Qed.
Lemma note_ok min_sample alpha strategy best f : eligible min_sample alpha f = true -> BestOk min_sample best -> BestOk min_sample (note_regime strategy best f).
Proof.
  intros He Hb. unfold note_regime. destruct (dict_get _ best) as [prior|] eqn:E; [destruct (fltb _ _)|]; apply set_best; auto; try (now apply (candidate_ok _ alpha)); now apply Hb in E as [].
Qed.
Lemma notes_ok min_sample alpha strategy findings : forall best, (forall f, In f findings -> eligible min_sample alpha f = true) -> BestOk min_sample best ->
  BestOk min_sample (fold_left (note_regime strategy) findings best).
Proof.
  induction findings as [|f rest IH]; intros best He Hb; [exact Hb|]. apply IH; [intros g Hg; apply He; now right|]. apply (note_ok _ alpha); [apply He; now left|exact Hb].
Qed.

(** One pass makes at most one lesson per regime, of an adverse effect over enough
    trades, whose caution lies between one half and one. *)
Theorem one_lesson_per_regime findings strategy min_sample alpha :
  NoDup (map rl_regime (regime_lessons findings strategy min_sample alpha)) /\
  Forall (regime_ok min_sample) (regime_lessons findings strategy min_sample alpha).
Proof.
  unfold regime_lessons. set (best := fold_left _ _ _).
  assert (Hb : BestOk min_sample best).
  { apply (notes_ok _ alpha); [intros f Hf; now apply filter_In in Hf as []|]. split; [constructor|discriminate]. }
  destruct Hb as [A B]. assert (G : forall k c, (k, c) ∈ best -> rl_regime c = k /\ regime_ok min_sample c).
  { intros k c H. apply B. now apply (dict_get_In k c _ A), list_elem_of_In. }
  clearbody best. clear B. split.
  - assert (E : map rl_regime (map snd best) = map fst best); [|now rewrite E].
    rewrite List.map_map. apply map_ext_in. intros [k c] H%list_elem_of_In. cbn. now apply G in H as [].
  - apply Forall_forall. intros c H. apply list_elem_of_fmap in H as ([k c'] & -> & H). now apply G in H as [].
Qed.

(** ** Learning *)

Section Learning.
Context {CM : CMath}.

(** Learning makes the memory calls of [MemoryProps]. *)
Definition learning_calls (now : Z) (alpha : spec_float) (min_sample : Z) (strategy : option string) (findings : list PatternFinding) : list MemoryCall :=
  [CallAgainst findings alpha now; CallExpire now] ++ map (CallAdd now) (taught now alpha strategy min_sample findings).

Lemma add_all_calls now ls : forall m, add_all now ls m = run_calls (map (CallAdd now) ls) m.
Proof. induction ls as [|l ls IH]; intros m; [reflexivity|]. cbn [add_all fold_left map run_calls]. apply IH. Qed.
Lemma taught_fresh now alpha strategy min_sample findings : Forall call_ok (learning_calls now alpha min_sample strategy findings).
Proof.
  unfold learning_calls. repeat constructor. unfold taught. rewrite List.map_app. apply Forall_app. rewrite !List.map_map.
  split; apply Forall_forall; intros c Hc; apply list_elem_of_fmap in Hc as (x & -> & _); cbn; lia.
Qed.

(** An item of the queue after learning: a new restrained proposal, pending or replaced by
    a later one, or an old one that may have been replaced. *)
Definition untouched (s : ProposalStatus) : Prop := s = Pending \/ s = Expired.
Definition kept_or_restrained (q q' : ProposalQueue) : Prop := forall k p, dict_get k (pq_items q') = Some p ->
  (restrained p /\ untouched (pr_status p)) \/ exists p0, dict_get k (pq_items q) = Some p0 /\ expires p0 p.

Lemma expires_trans p p' p'' : expires p p' -> expires p' p'' -> expires p p''.
Proof. intros [->|[H ->]] [->|[H' ->]]; try (now left); right; auto. Qed.
Lemma replaced_expires path p : expires p (replaced path p).
Proof. unfold replaced. destruct (_ && _) eqn:E; [right|now left]. apply andb_prop in E as [_ E]. apply bool_decide_eq_true in E. auto. Qed.

Lemma add_kept p q q' : restrained p -> pr_status p = Pending -> kept_or_restrained q q' -> kept_or_restrained q (add p q').
Proof.
  intros Hp Hs Hk k x. cbn [add save with_items pq_items]. rewrite dict_get_set. case_bool_decide; [intros [= <-]; left; split; [exact Hp|now left]|].
  rewrite on_items_get. destruct (dict_get k (pq_items q')) as [y|] eqn:E; [|discriminate]. intros [= <-].
  destruct (Hk k y E) as [[Hr Hu]|(p0 & H0 & He)]; [left|right; exists p0; split; [exact H0|]; eapply expires_trans; [exact He|apply replaced_expires]].
  destruct (replaced_expires (pr_path p) y) as [->|[_ ->]]; [now split|]. split; [exact Hr|now right].
Qed.
Lemma add_all_kept ps q : forall q', Forall (fun p => restrained p /\ pr_status p = Pending) ps -> kept_or_restrained q q' ->
  kept_or_restrained q (fold_left (fun q p => add p q) ps q').
Proof. induction ps as [|p ps IH]; intros q' Hp Hk; [exact Hk|]. inversion Hp as [|? ? [Hr Hs] Hps]; subst. apply IH; [exact Hps|]. now apply add_kept. Qed.

(** What a pass of learning can do: on the lessons, the calls of [MemoryProps]; on the
    queue, add proposals that move no parameter toward more risk, and replace pending ones.
    It approves, validates and applies nothing. *)
Theorem learning_only_proposes now alpha min_sample strategy config findings m q m' q' r :
  learn_findings now alpha min_sample strategy config findings m q = (m', q', r) ->
  (exists cs, Forall call_ok cs /\ m' = run_calls cs m) /\ kept_or_restrained q q'.
Proof.
  assert (Hself : kept_or_restrained q q) by (intros k p H; right; exists p; split; [exact H|now left]).
  assert (Hm : add_all now (taught now alpha strategy min_sample findings) (expire_unconfirmed now (review_against findings alpha now m).1).1
    = run_calls (learning_calls now alpha min_sample strategy findings) m) by (rewrite add_all_calls; reflexivity).
  unfold learn_findings. rewrite Hm. intros H. split.
  - exists (learning_calls now alpha min_sample strategy findings). split; [apply taught_fresh|]. destruct (derive_proposals _ _ _ _ _ _); now injection H.
  - destruct (derive_proposals _ _ _ _ _ _) as [ps|e] eqn:E; injection H as _ <- _; [|exact Hself]. apply add_all_kept; [|exact Hself]. now apply derive_restrained in E.
Qed.
End Learning.

(** ** Witnesses *)

Definition demo_finding (pattern diagnosis regime : string) (mean : decimal) : PatternFinding :=
  mkFinding pattern 60 (float_of_dec 0.5%dec) (float_of_dec (-0.2)%dec) (float_of_dec mean) (float_of_Z 4) (float_of_dec 0.0001%dec) "enter later" (JObj [])
    (float_of_dec 0.001%dec) true 20 diagnosis "" (float_of_dec 0.8%dec) (float_of_dec 0.9%dec) regime.
Definition demo_slippage : PatternFinding := demo_finding "tag:entry_slippage" "parameter" "" (-0.3).
Definition demo_findings : list PatternFinding :=
  [demo_slippage; demo_finding "tag:regime:stress" "regime" "stress" (-0.4); demo_finding "tag:late_entry" "regime" "stress" (-0.6)].
Definition demo_config : json := JObj [("risk"%string, JObj [("max_spread_pips_multiple"%string, JStr "2.5")])].
Definition demo_alpha : spec_float := float_of_dec 0.01%dec.
Definition spread_path : string := "risk.max_spread_pips_multiple".
Definition demo_ask (value : decimal) : sum Refusal Proposal :=
  propose 5000000 spread_path (Some (VFloat (float_of_dec 2.5%dec))) (VFloat (float_of_dec value)) "tighten" demo_slippage (Some "trend"%string) 40 demo_alpha.
Definition demo_proposal : Proposal := match demo_ask 2.0 with inr p => p | inl _ => new_proposal 0 "" None (VInt 0) "" demo_slippage None end.

(** Asked to leave the spread gate wider, or halve it at once. *)
Example asked_wider : demo_ask 3.0 = inl MoreRisk.
Proof. vm_compute. reflexivity. Qed.
Example asked_a_leap : match demo_ask 1.2 with inr p => pr_proposed_value p = VFloat (float_of_dec 1.625%dec) | inl _ => False end.
Proof. vm_compute. reflexivity. Qed.

Lemma proposals_never_add_risk_witness : (spread_path ∉ FROZEN_PATHS) /\ pr_proposed_value demo_proposal = VFloat (float_of_dec 2.0%dec).
Proof.
  assert (R : demo_ask 2.0 = inr demo_proposal) by (vm_compute; reflexivity).
  split; [exact (proj1 (proposals_never_add_risk _ _ _ _ _ _ _ _ _ _ R))|vm_compute; reflexivity].
Defined.

Definition demo_queue_calls : list QueueCall :=
  let id := pr_id demo_proposal in
  [QAdd demo_proposal; QReview 6000000 id true "owner"; QValidated id "run-1" true; QRestart; QApplied id].
Lemma demo_queue_calls_ok : Forall queue_call_ok demo_queue_calls.
Proof. repeat constructor; vm_compute; reflexivity. Qed.

Lemma applied_was_reviewed_and_validated_witness : exists p, dict_get (pr_id demo_proposal) (pq_items (run_queue demo_queue_calls empty_queue)) = Some p /\
  (exists now reviewer, QReview now (pr_id demo_proposal) true reviewer ∈ demo_queue_calls /\ pr_reviewed_by p = Some reviewer).
Proof.
  assert (R : exists p, dict_get (pr_id demo_proposal) (pq_items (run_queue demo_queue_calls empty_queue)) = Some p /\ pr_status p = Applied)
    by (eexists; split; vm_compute; reflexivity).
  destruct R as (p & Hg & Hs). exists p. split; [exact Hg|].
  exact (proj1 (applied_was_reviewed_and_validated demo_queue_calls _ p demo_queue_calls_ok Hg Hs)).
Defined.

Definition two_adds : list QueueCall := [QAdd demo_proposal; QAdd (new_proposal 9000000 spread_path None (VFloat one) "again" demo_slippage None)].
Lemma one_pending_per_path_across_restarts_witness : let q := run_queue two_adds empty_queue in
  exists id p, length (pq_items q) = 2%nat /\ dict_get id (pq_items q) = Some p /\ id = "P9"%string /\ pr_status p = Pending.
Proof.
  intros q. assert (R : exists p, dict_get "P9" (pq_items q) = Some p /\ dict_get "P9" (pq_items (load (pq_file q))) = Some p /\ pr_status p = Pending)
    by (eexists; split; [|split]; vm_compute; reflexivity).
  destruct R as (p & Hg & Hl & Hs). exists "P9"%string, p. split; [vm_compute; reflexivity|]. split; [exact Hg|]. split; [|exact Hs].
  exact (proj1 (one_pending_per_path_across_restarts two_adds "P9" "P9" p p ltac:(repeat constructor; vm_compute; reflexivity) Hg Hl Hs Hs eq_refl)).
Defined.

Definition demo_learning := @learn_findings demo_math 5000000 demo_alpha 40 (Some "trend"%string) demo_config demo_findings empty_memory empty_queue.
(** Two lessons of tags and one of a regime are active, and one proposal waits. *)
Example learned : length (List.filter (is_status Active) (mm_lessons demo_learning.1.1)) = 3%nat /\ map fst (pq_items demo_learning.1.2) = ["P5"%string].
Proof. vm_compute. split; reflexivity. Qed.
Lemma learning_only_proposes_witness : exists p, dict_get "P5" (pq_items demo_learning.1.2) = Some p /\ restrained p /\ untouched (pr_status p).
Proof.
  assert (R : exists p, dict_get "P5" (pq_items demo_learning.1.2) = Some p) by (eexists; vm_compute; reflexivity). destruct R as (p & Hg). exists p. split; [exact Hg|].
  destruct demo_learning as [[m q] r] eqn:E. cbn [fst snd] in Hg.
  destruct (proj2 (@learning_only_proposes demo_math _ _ _ _ _ _ _ _ m q r E) "P5"%string p Hg) as [H|(p0 & H & _)]; [exact H|discriminate H].
Defined.
