(* ===== verification/Postmortem.v ===== *)
(** [sentinel/agent/postmortem.py]: the autopsy of a closed trade, the alternative exits it
    is scored against, and the findings of many autopsies; the Benjamini-Hochberg
    procedure of [research/stats.py]; and the rest of [Agent._learn]
    ([agent/orchestrator.py]) for one strategy.

    Bars are numbers in units of the risk of the trade.  The statistics of numpy and scipy
    are the classes [Numpy] and [Scipy]. *)

From Stdlib Require Import ZArith Lia SpecFloat Ascii String.
From stdpp Require Import base strings list sorting.
From S2P Require Import Prelude PyDecimal Types Calendar PyFloat PyText PyDict PyJson CrossValidation Memory Proposals.

Local Open Scope Z_scope.
Local Open Scope py_scope.

(** ** Trades *)

(** A closed trade with what the agent noted about it; of the news only whether there
    were any. *)
Record Noted := mkNoted {
  nt_trade : ClosedTrade;
  nt_entry_slippage_pips : decimal;
  nt_exit_slippage_pips : decimal;
  nt_regime : string;
  nt_news : bool
}.

Inductive ExitKind := KindUnknown | TimeStop | WeekendFlat | StopLoss | TakeProfit | TrailStop | KindOther.
#[export] Instance ExitKind_eq_dec : EqDecision ExitKind.
Proof. solve_decision. Defined.
Definition kind_text (k : ExitKind) : string :=
  match k with
  | KindUnknown => "unknown" | TimeStop => "time_stop" | WeekendFlat => "weekend_flat" | StopLoss => "stop_loss"
  | TakeProfit => "take_profit" | TrailStop => "trail_stop" | KindOther => "other"
  end.

Definition TIME_STOP_REASONS : list string := ["time_stop"; "horizon_stop"].
Definition TIME_STOP_PREFIXES : list string := ["time stop"; "time_stop"; "horizon"].
Definition WEEKEND_FLAT_PREFIXES : list string := ["weekend flat"; "weekend_flat"].
Definition starts (reason : string) (prefixes : list string) : bool := existsb (fun p => String.prefix p reason) prefixes.

(** [exit_kind]. *)
Definition exit_kind (exit_reason : string) : ExitKind :=
  let reason := lower (strip exit_reason) in
  if bool_decide (reason = "") then KindUnknown
  else if bool_decide (reason ∈ TIME_STOP_REASONS) then TimeStop
  else if starts reason TIME_STOP_PREFIXES then TimeStop
  else if starts reason WEEKEND_FLAT_PREFIXES then WeekendFlat
  else if starts reason ["stop_loss"; "stop loss"] then StopLoss
  else if starts reason ["take_profit"; "target"] then TakeProfit
  else if starts reason ["trail"] then TrailStop
  else KindOther.

(** ** Bars in units of risk *)

Record PathPoint := mkPoint { pp_ts_ns : Z; pp_high_r : spec_float; pp_low_r : spec_float; pp_close_r : spec_float; pp_open_r : spec_float }.
Record Bar5 := mkBar5 { b5_ts_ns : Z; b5_open : spec_float; b5_high : spec_float; b5_low : spec_float; b5_close : spec_float }.

Definition zero : spec_float := float_of_Z 0.
Definition in_r (entry_price distance sign price : spec_float) : spec_float := fdiv (fmul (fsub price entry_price) sign) distance.
Definition point_of (entry_price distance sign : spec_float) (b : Bar5) : PathPoint :=
  let r := in_r entry_price distance sign in
  mkPoint (b5_ts_ns b) (fmax (r (b5_high b)) (r (b5_low b))) (fmin (r (b5_high b)) (r (b5_low b))) (r (b5_close b)) (r (b5_open b)).
(** [path_in_r]. *)
Definition path_in_r (bars : list Bar5) (entry_price distance : spec_float) (side : Side) : list PathPoint :=
  if fleb distance zero then []
  else map (point_of entry_price distance (match side with BUY => one | SELL => float_of_Z (-1) end)) bars.

(** ** Counterfactuals *)

Record Counterfactual := mkCf {
  cf_name : string;
  cf_description : string;
  cf_delta_r : spec_float;
  cf_applicable : bool;
  cf_computable : bool;
  cf_reason : string;
  cf_assumptions : list string
}.
(** [counts]. *)
Definition counts (c : Counterfactual) : bool := cf_applicable c && cf_computable c.

(** A literal. *)
Definition lit (d : decimal) : spec_float := float_of_dec d.
Arguments lit d%_dec_scope.
Definition fixed (places : nat) (x : spec_float) : string := ((if negative x then "-" else "") +:+ fixed_digits places x)%string.
(** [x > y] and [x >= y]. *)
Definition fgtb (x y : spec_float) : bool := fltb y x.
Definition fgeb (x y : spec_float) : bool := fleb y x.

Definition DEFAULT_SLIPPAGE_R : spec_float := lit 0.02.
Definition risk_of (t : ClosedTrade) : spec_float := if PyDecimal.is_zero (ct_initial_risk t) then zero else float_of_dec (ct_initial_risk t).
Definition charges (t : ClosedTrade) : spec_float := fadd (float_of_dec (ct_commission t)) (fabs (float_of_dec (ct_financing t))).
(** [_cost_r]. *)
Definition cost_r (t : ClosedTrade) : spec_float := if fleb (risk_of t) zero then zero else fdiv (charges t) (risk_of t).
(** [_slippage_r]. *)
Definition slippage_r (n : Noted) : spec_float :=
  let t := nt_trade n in
  let r := fabs (float_of_dec (ct_r_multiple t)) in
  let pips := fabs (float_of_dec (ct_pnl_pips t)) in
  let observed := fmax (float_of_dec (nt_entry_slippage_pips n)) (float_of_dec (nt_exit_slippage_pips n)) in
  if fgtb r (lit 0.05) && fgtb pips TINY && fgtb observed zero then
    let pips_per_r := fdiv pips r in
    if fgtb pips_per_r TINY then fmax DEFAULT_SLIPPAGE_R (fdiv observed pips_per_r) else DEFAULT_SLIPPAGE_R
  else DEFAULT_SLIPPAGE_R.

(** [_first_touch]: the bars from the first whose range reaches the level. *)
Fixpoint first_touch (path : list PathPoint) (level : spec_float) : option (list PathPoint) :=
  match path with [] => None | p :: rest => if fgeb (pp_high_r p) level then Some path else first_touch rest level end.
(** The first bar that falls to a level. *)
Definition first_fall (path : list PathPoint) (level : spec_float) : option PathPoint := find (fun p => fleb (pp_low_r p) level) path.
(** [_fill_at], of an order against the position. *)
Definition fill_at (p : PathPoint) (level slip : spec_float) : spec_float :=
  if fleb (pp_open_r p) level then fsub (pp_open_r p) slip else fsub level slip.

(** The give-back ratchet: the peak so far, until the bar that retraces to the floor, or
    the peak at the end. *)
Fixpoint ratchet (peak : spec_float) (path : list PathPoint) : spec_float + (PathPoint * spec_float) :=
  match path with
  | [] => inl peak
  | p :: rest =>
      if fgeb peak one && fleb (pp_low_r p) (fmul peak half_) then inr (p, fmul peak half_)
      else ratchet (fmax peak (pp_high_r p)) rest
  end.
(** [-1e9]. *)
Definition NO_PEAK : spec_float := float_of_Z (-1000000000).

Section Texts.
Local Open Scope string_scope.
Definition PATH_NEEDED : string :=
  "needs the price path inside the trade. MAE and MFE record how far the position went, not WHEN, and a stop rule is entirely a question of order.".
Definition UNANSWERABLE : string :=
  "unanswerable from any data this system holds. The trade ended at the stop; what the price did AFTERWARDS was never recorded, because the position was closed. Scoring it from the pre-exit MFE, as this used to, assumes the trade recovered -- which is the conclusion, not the evidence.".
Definition PATH_ENDS : string :=
  "the recorded path ENDS at the actual exit. A wider stop changes the exit, so scoring it needs prices from after the position was closed, which were never stored. Supply post-exit bars and this becomes answerable; until then it is a guess with a number attached.".
Definition BE_TO_ENTRY : string := "move the stop to entry once +1R is reached".

(** The alternative that banks half at +1R. *)
Definition partial_cf (r mfe cost slip : spec_float) : Counterfactual :=
  let extra := fmul (fmul half_ cost) half_ in
  if fgeb mfe one then
    let banked := fsub (fsub one slip) extra in
    let alt := fadd (fmul half_ banked) (fmul (fsub one half_) r) in
    mkCf "partial_at_1R" "bank 50% of the position at +1R" (fsub alt r) true true ""
      ["the partial fills " +:+ fixed 3 slip +:+ "R worse than the trigger level"; "an extra exit leg costs " +:+ fixed 3 extra +:+ "R";
       "the remaining position exits exactly where the trade actually did, which is true of a scale-out and not of a stop change"]
  else mkCf "partial_at_1R" "bank 50% at +1R" zero false true
    ("the trade never reached +1R (best was " +:+ signed2 mfe +:+ "R), so the rule would not have fired") [].

(** The alternative that moves the stop to entry at +1R. *)
Definition breakeven_cf (r cost slip : spec_float) (path : list PathPoint) : Counterfactual :=
  match first_touch path one with
  | None => mkCf "breakeven_at_1R" BE_TO_ENTRY zero false true "the price never reached +1R, so the rule never armed" []
  | Some rest =>
      match first_fall rest cost with
      | None => mkCf "breakeven_at_1R" BE_TO_ENTRY zero true true "the stop was never touched after arming; the outcome is unchanged"
                  ["the break-even stop sits at entry + round-trip cost"]
      | Some p => mkCf "breakeven_at_1R" BE_TO_ENTRY (fsub (fill_at p cost slip) r) true true ""
                    ["the break-even stop sits at entry + round-trip cost"; "it fills " +:+ fixed 3 slip +:+ "R worse than its level, or at the bar open on a gap";
                     "a bar containing both the stop and a better price is resolved against the position"]
      end
  end.

(** The alternative that gives back at most half of the peak. *)
Definition trail_cf (r slip : spec_float) (path : list PathPoint) : Counterfactual :=
  match ratchet NO_PEAK path with
  | inl peak => mkCf "trail_tighter" "give back at most 50% of the peak once armed" zero (fgeb peak one) true
                  (if fltb peak one then "never armed: the position did not reach the arming level" else "armed but never retraced to the floor") []
  | inr (p, floor) => mkCf "trail_tighter" "give back at most 50% of the peak once armed" (fsub (fill_at p floor slip) r) true true ""
      ["armed at +1R, floor at 50% of the running peak"; "fills " +:+ fixed 3 slip +:+ "R worse than the floor, or at the open on a gap";
       "the peak is measured bar by bar, so an intrabar spike that reversed within the same bar can arm a ratchet the live system would also have armed"]
  end.

Definition not_computable (name description reason : string) : Counterfactual := mkCf name description zero false false reason [].
Definition wider_stop (reason : string) : Counterfactual := not_computable "wider_stop_1.5x" "a stop 50% wider, with the risk budget held constant" reason.

(** [counterfactuals]; a missing path and an empty one are alike. *)
Definition counterfactuals (n : Noted) (path : list PathPoint) : list Counterfactual :=
  let t := nt_trade n in
  let r := float_of_dec (ct_r_multiple t) in
  let cost := cost_r t in
  let slip := slippage_r n in
  partial_cf r (float_of_dec (ct_max_favourable_r t)) cost slip ::
  match path with
  | [] => [not_computable "breakeven_at_1R" BE_TO_ENTRY PATH_NEEDED;
           not_computable "trail_tighter" "a tighter trailing stop after the favourable excursion" PATH_NEEDED;
           not_computable "horizon_exit" "exit at the intended horizon instead of holding on" PATH_NEEDED;
           wider_stop UNANSWERABLE]
  | _ => [breakeven_cf r cost slip path; trail_cf r slip path; wider_stop PATH_ENDS]
  end.

(** ** The autopsy *)

Definition MODES : list (string * string) := [
  ("gap_loss", "loss exceeded the stop distance (gap or slippage)");
  ("gave_back_open_profit", "was well in profit and closed at or below break-even");
  ("stopped_at_breakeven", "reached +1R, then the break-even stop took it out flat");
  ("stopped_then_reversed", "stopped out, then the trade would have worked");
  ("news_shock_loss", "a loss whose adverse excursion arrived alongside a news event");
  ("horizon_cut_a_winner", "the time stop closed a position that was still working");
  ("slow_bleed", "closed on the time stop near break-even");
  ("weekend_flat_exit", "closed by the Friday flatten rule, not by the thesis");
  ("cost_dominated", "gross result was positive; cost made it negative");
  ("target_too_far", "ran most of the way to the target and reversed");
  ("clean_win", "reached the target without a deep adverse excursion");
  ("clean_loss", "went against the position from the start");
  ("scratch", "no material movement either way")].
Definition MODE_ACTIONS : list (string * string) := [
  ("gap_loss", "none automatable: a gap is a property of the instrument and the session, not of a parameter. It argues for not holding through the event, which is a human decision about what to trade.");
  ("gave_back_open_profit", "risk.partial_take_r, risk.breakeven_trigger_r");
  ("stopped_at_breakeven", "diagnostic only. The lever would be a LATER break-even move, which is more risk, and the proposal engine may not propose more risk. A human decides this one.");
  ("stopped_then_reversed", "risk.min_stop_pips, and only with a price path: whether the trade would have recovered is not in the record.");
  ("news_shock_loss", "risk.block_minutes_before_high_impact / _after");
  ("horizon_cut_a_winner", "strategy.params horizon_bars");
  ("slow_bleed", "strategy.params horizon_bars");
  ("weekend_flat_exit", "none automatable: agent.trade_days is not proposable, and holding over a weekend is an increase in risk by definition.");
  ("cost_dominated", "risk.max_spread_pips_multiple, and the choice of instrument");
  ("target_too_far", "risk.partial_take_r");
  ("clean_win", "none: this is the system working");
  ("clean_loss", "none: this is the system working. A clean loss is what a stop is FOR, and the most expensive mistake available here is to treat a run of them as a defect and tighten something.");
  ("scratch", "none: cost without information")].
Definition mode_text (mode : string) : string := default mode (dict_get mode MODES).
Definition mode_action (mode : string) : string := default "unclassified" (dict_get mode MODE_ACTIONS).

Record TradeAutopsy := mkTradeAutopsy {
  ta_trade_id : string;
  ta_strategy : string;
  ta_instrument : string;
  ta_outcome : string;
  ta_mode : string;
  ta_r_multiple : spec_float;
  ta_mae_r : spec_float;
  ta_mfe_r : spec_float;
  ta_capture_ratio : spec_float;
  ta_tags : list string;
  ta_counterfactuals : list Counterfactual;
  ta_narrative : string;
  ta_regime : string;
  ta_closed_ns : Z;
  ta_had_path : bool
}.

(** The mode of a trade and its tags, in the order of the tests. *)
Definition classify (kind : ExitKind) (news : bool) (r mae mfe gross_r cost risk : spec_float) : string * list string :=
  let stopped := bool_decide (kind = StopLoss) in
  let timed := bool_decide (kind = TimeStop) in
  if stopped && fltb r (lit (-1.15)) then ("gap_loss", ["slippage_or_gap"])
  else if stopped && fgeb mfe one && fleb (fabs r) (lit 0.15) then ("stopped_at_breakeven", ["exit_discipline"; "breakeven_fired"])
  else if (stopped || bool_decide (kind = TrailStop)) && fgeb mfe one && fleb r (lit 0.15) then ("gave_back_open_profit", ["exit_discipline"; "consider_breakeven_move"])
  else if stopped && fleb mae (lit (-0.95)) && fgeb mfe (lit 0.5) then ("stopped_then_reversed", ["stop_placement"; "consider_wider_stop"])
  else if stopped && news && fleb mae (lit (-0.8)) then ("news_shock_loss", ["news_adjacent"; "consider_wider_news_window"])
  else if stopped then ("clean_loss", [])
  else if timed && fgeb mfe one && fltb r (fsub mfe (lit 0.5)) then ("horizon_cut_a_winner", ["horizon_too_short"])
  else if timed && fltb (fabs r) (lit 0.3) then ("slow_bleed", ["horizon_mismatch"])
  else if bool_decide (kind = WeekendFlat) then ("weekend_flat_exit", ["weekend_flat"])
  else if fgtb r zero && fgtb gross_r zero && fgtb risk zero && fgtb (fdiv (fdiv cost risk) (fmax TINY gross_r)) (lit 0.35) then ("cost_dominated", ["cost_pressure"])
  else if fleb r zero && fltb zero gross_r then ("cost_dominated", ["cost_pressure"])
  else if fgtb r zero && fgtb mae (lit (-0.45)) then ("clean_win", [])
  else if fgtb r zero then ("clean_win", ["survived_deep_drawdown"])
  else if fgeb mfe (lit 0.75) && fleb r zero then ("target_too_far", ["consider_partial_take"])
  else if fleb r (lit (-0.3)) then ("clean_loss", ["thesis_did_not_develop"])
  else ("scratch", []).

Definition news_tag (news : bool) (tags : list string) : list string :=
  if news && negb (bool_decide ("news_adjacent" ∈ tags)) then (tags ++ ["news_adjacent"])%list else tags.
Definition condition_tags (n : Noted) (tags : list string) : list string :=
  let tags := (tags ++ (if fgtb (float_of_dec (nt_entry_slippage_pips n)) one then ["entry_slippage"] else [])
                    ++ (if bool_decide (nt_regime n = "") then [] else ["regime:" +:+ nt_regime n]))%list in
  news_tag (nt_news n) tags.

(** [autopsy]. *)
Definition autopsy (n : Noted) (path : list PathPoint) : TradeAutopsy :=
  let t := nt_trade n in
  let r := float_of_dec (ct_r_multiple t) in
  let mae := float_of_dec (ct_max_adverse_r t) in
  let mfe := float_of_dec (ct_max_favourable_r t) in
  let risk := risk_of t in
  let cost := charges t in
  let gross_r := fadd r (if fgtb risk zero then fdiv cost risk else zero) in
  let kind := exit_kind (ct_exit_reason t) in
  let capture := if fgtb mfe zero then fdiv r mfe else if fgeb r zero then one else zero in
  let '(mode, tags) := classify kind (nt_news n) r mae mfe gross_r cost risk in
  let direction := match ct_side t with BUY => "long" | SELL => "short" end in
  let via := if bool_decide (ct_exit_reason t = "") then "?" else ct_exit_reason t in
  let narrative := ct_instrument t +:+ " " +:+ direction +:+ " closed " +:+ signed2 r +:+ "R via " +:+ via +:+ " (" +:+ kind_text kind +:+ "). Worst excursion "
    +:+ signed2 mae +:+ "R, best " +:+ signed2 mfe +:+ "R, capture " +:+ whole (fmul capture (float_of_Z 100)) +:+ "%. " +:+ mode_text mode +:+ ". Lever: " +:+ mode_action mode in
  mkTradeAutopsy (ct_trade_id t) (ct_strategy t) (ct_instrument t)
    (if fgtb r (lit 0.05) then "win" else if fltb r (lit (-0.05)) then "loss" else "scratch")
    mode r mae mfe capture (condition_tags n tags) (counterfactuals n path) narrative (nt_regime n) (ct_closed_ns t) (match path with [] => false | _ => true end).
End Texts.

(** ** The record of an autopsy *)

(** [to_dict], of a counterfactual and of an autopsy. *)
Definition cf_dict (c : Counterfactual) : json :=
  JObj [("name", JStr (cf_name c)); ("description", JStr (cf_description c)); ("delta_r", JFloat (fround_to (cf_delta_r c) 3)); ("applicable", JBool (cf_applicable c));
        ("computable", JBool (cf_computable c)); ("reason", JStr (cf_reason c)); ("assumptions", JList (map JStr (cf_assumptions c)))]%string.
Definition autopsy_dict (a : TradeAutopsy) : json :=
  JObj [("trade_id", JStr (ta_trade_id a)); ("strategy", JStr (ta_strategy a)); ("instrument", JStr (ta_instrument a)); ("outcome", JStr (ta_outcome a));
        ("mode", JStr (ta_mode a)); ("r_multiple", JFloat (fround_to (ta_r_multiple a) 3)); ("mae_r", JFloat (fround_to (ta_mae_r a) 3));
        ("mfe_r", JFloat (fround_to (ta_mfe_r a) 3)); ("capture_ratio", JFloat (fround_to (ta_capture_ratio a) 3)); ("tags", JList (map JStr (ta_tags a)));
        ("counterfactuals", JList (map cf_dict (ta_counterfactuals a))); ("narrative", JStr (ta_narrative a)); ("regime", JStr (ta_regime a));
        ("closed_ns", JInt (ta_closed_ns a)); ("had_path", JBool (ta_had_path a))]%string.
(** What [record_autopsy] stores. *)
Definition autopsy_row (now : Z) (a : TradeAutopsy) : AutopsyRow := mkAutopsy (ta_trade_id a) now (ta_strategy a) (autopsy_dict a).

(** The fields of a record that [_learn] reads back; the program wrote them with these
    types. *)
Definition str_at (key : string) (d : list (string * json)) : res string :=
  match dict_get key d with Some (JStr s) => Ok s | Some _ => Raise TypeError | None => Raise KeyError end.
Definition num_at (key : string) (d : list (string * json)) : res spec_float :=
  match dict_get key d with Some (JFloat x) => Ok x | Some (JInt z) => Ok (float_of_Z z) | Some _ => Raise TypeError | None => Raise KeyError end.
Definition bool_at (key : string) (d : list (string * json)) : res bool :=
  match dict_get key d with Some (JBool b) => Ok b | Some _ => Raise TypeError | None => Raise KeyError end.
(** [r.get(key, [])]. *)
Definition list_at (key : string) (d : list (string * json)) : res (list json) :=
  match dict_get key d with Some (JList l) => Ok l | Some _ => Raise TypeError | None => Ok [] end.
Definition str_item (j : json) : res string := match j with JStr s => Ok s | _ => Raise TypeError end.
Definition cf_of_json (j : json) : res Counterfactual :=
  match j with
  | JObj d =>
      let* name := str_at "name" d in let* description := str_at "description" d in let* delta_r := num_at "delta_r" d in
      let* applicable := bool_at "applicable" d in let* computable := bool_at "computable" d in let* reason := str_at "reason" d in
      let* assumptions := list_at "assumptions" d in let* assumptions := rmap str_item assumptions in
      Ok (mkCf name description delta_r applicable computable reason assumptions)
  | _ => Raise TypeError
  end.
(** The autopsy [_learn] builds of a record: the fields it does not pass have their
    defaults. *)
Definition autopsy_of_record (j : json) : res TradeAutopsy :=
  match j with
  | JObj d =>
      let* trade_id := str_at "trade_id" d in let* strategy := str_at "strategy" d in let* instrument := str_at "instrument" d in
      let* outcome := str_at "outcome" d in let* mode := str_at "mode" d in let* r := num_at "r_multiple" d in let* mae := num_at "mae_r" d in
      let* mfe := num_at "mfe_r" d in let* capture := num_at "capture_ratio" d in let* tags := list_at "tags" d in let* tags := rmap str_item tags in
      let* cfs := list_at "counterfactuals" d in let* cfs := rmap cf_of_json cfs in
      Ok (mkTradeAutopsy trade_id strategy instrument outcome mode r mae mfe capture tags cfs "" "" 0 false)
  | _ => Raise TypeError
  end.

(** ** Findings *)

Class Scipy := {
  np_sum : list spec_float -> spec_float;
  t_sf : spec_float -> Z -> spec_float;                                   (* stats.t.sf *)
  ttest_ind : list spec_float -> list spec_float -> spec_float * spec_float;
  argsort : list spec_float -> list nat;                                  (* np.argsort, of floats and of integers *)
  argsort_int : list Z -> list nat
}.

Section Findings.
Context {NP : Numpy} {SP : Scipy}.

Definition pick {A} (d : A) (l : list A) (order : list nat) : list A := map (fun i => nth i l d) order.

(** [benjamini_hochberg]: the positions of the sorted values that pass, the last of them,
    and all before it. *)
Definition bh_threshold (alpha : spec_float) (n i : nat) : spec_float := fmul alpha (fdiv (float_of_Z (Z.of_nat (S i))) (float_of_Z (Z.of_nat n))).
Definition bh_passes (alpha : spec_float) (n : nat) (i : nat) (p : spec_float) : bool := fleb p (bh_threshold alpha n i).
Fixpoint bh_cutoff (pass : nat -> spec_float -> bool) (i : nat) (sorted : list spec_float) : nat :=
  match sorted with
  | [] => 0
  | p :: rest => Nat.max (if pass i p then S i else 0) (bh_cutoff pass (S i) rest)
  end.
Definition rank_in (order : list nat) (i : nat) : option nat := fst <$> list_find (fun j => j = i) order.
Definition benjamini_hochberg (ps : list spec_float) (alpha : spec_float) : list bool :=
  let n := length ps in
  let order := argsort ps in
  let k := bh_cutoff (bh_passes alpha n) 0 (pick zero ps order) in
  map (fun i => bool_decide (i ∈ take k order)) (seq 0 n).

(** [_stability]. *)
Definition stability_of (values : list spec_float) (order : list Z) : spec_float :=
  if Nat.ltb (length values) 8 then zero
  else
    let arr := pick S754_nan values (argsort_int order) in
    let mid := (length arr / 2)%nat in
    let a := np_mean (take mid arr) in
    let b := np_mean (drop mid arr) in
    let smaller := fmin (fabs a) (fabs b) in
    let larger := fmax (fmax (fabs a) (fabs b)) TINY in
    if feqb a zero && feqb b zero then zero
    else if negb (Bool.eqb (fgtb a zero) (fgtb b zero)) then fdiv (SFopp smaller) larger
    else fdiv smaller larger.

(** The first item of a dictionary with the greatest value. *)
Definition top_item (d : list (string * spec_float)) : string * spec_float :=
  match d with [] => (""%string, zero) | x :: rest => fold_left (fun best y => if fltb best.2 y.2 then y else best) rest x end.
Definition tally (by_regime : list (string * spec_float)) (x : spec_float * string) : list (string * spec_float) :=
  let label := if bool_decide (x.2 = "") then "unknown"%string else x.2 in
  dict_set label (fadd (default zero (dict_get label by_regime)) (fabs x.1)) by_regime.
(** [_regime_concentration], with a label for every value. *)
Definition regime_concentration_of (values : list spec_float) (regimes : list string) : spec_float * string :=
  if bool_decide (values = []) then (zero, ""%string)
  else
    let total := np_sum (map fabs values) in
    if fleb total zero then (zero, ""%string)
    else let top := top_item (fold_left tally (zip values regimes) []) in (fdiv top.2 total, top.1).

Section DiagnosisTexts.
Local Open Scope string_scope.
(** [diagnose]. *)
Definition diagnose (f : PatternFinding) (min_sample : Z) : string * string :=
  if (pf_n f <? min_sample)%Z then
    ("insufficient", Memory.int_text (pf_n f) +:+ " observations against a minimum of " +:+ Memory.int_text min_sample +:+ "; nothing is being claimed either way")
  else if negb (pf_significant f) then
    ("luck", "p=" +:+ fixed 4 (pf_p_value f) +:+ " raw, " +:+ fixed 4 (pf_p_value_adjusted f) +:+ " after correcting for " +:+ Memory.int_text (pf_n_tests_in_family f)
       +:+ " tests in this family. The most likely explanation for a pattern this size is chance, and the most expensive mistake available here is to act on it.")
  else if fgtb (pf_regime_concentration f) (lit 0.6) && negb (bool_decide (pf_dominant_regime f ∈ [""; "unknown"])) then
    ("regime", whole (fmul (pf_regime_concentration f) (float_of_Z 100)) +:+ "% of the effect comes from the '" +:+ pf_dominant_regime f
       +:+ "' regime. This is a statement about that market state, not about the parameter; a global change would be applied to every other state too. Scope it as a regime lesson instead.")
  else if fltb (pf_stability f) (lit 0.25) then
    ("regime", "the effect does not survive a chronological split (stability " +:+ signed2 (pf_stability f)
       +:+ "): it is present in one half of the sample and not the other. That is the signature of a market that changed, and tuning to it fits the half that is already over.")
  else ("parameter", "significant after correcting for " +:+ Memory.int_text (pf_n_tests_in_family f) +:+ " tests (adjusted p=" +:+ fixed 4 (pf_p_value_adjusted f)
       +:+ "), stable across a chronological split (" +:+ fixed 2 (pf_stability f) +:+ "), and not confined to one regime ("
       +:+ whole (fmul (pf_regime_concentration f) (float_of_Z 100)) +:+ "% concentration)").
End DiagnosisTexts.

(** Tags assigned from the outcome of the trade. *)
Definition OUTCOME_DERIVED_TAGS : list string := [
  "consider_wider_stop"; "stop_placement"; "exit_discipline"; "consider_breakeven_move"; "breakeven_fired";
  "survived_deep_drawdown"; "slippage_or_gap"; "horizon_too_short"]%string.

Definition int_float (n : nat) : spec_float := float_of_Z (Z.of_nat n).
(** [a / b] of counts. *)
Definition ratio_of (a b : nat) : spec_float := fdiv (int_float a) (int_float b).
Definition r_of (l : list TradeAutopsy) : list spec_float := map ta_r_multiple l.
(** [Counter(...)]: the distinct members, in order of appearance, with their number. *)
Fixpoint distinct (l : list string) : list string :=
  match l with [] => [] | x :: rest => x :: List.filter (fun y => negb (bool_decide (y = x))) (distinct rest) end.
Definition number_of (x : string) (l : list string) : nat := length (List.filter (fun y => bool_decide (y = x)) l).
Definition tagged (tag : string) (a : TradeAutopsy) : bool := bool_decide (tag ∈ ta_tags a).

(** A finding as [PatternFinding(...)] builds it: what is not given has its default. *)
Definition new_finding (pattern : string) (n : nat) (share mean_r mean_delta_r t p : spec_float) (recommendation : string) (evidence : json) : PatternFinding :=
  mkFinding pattern (Z.of_nat n) share mean_r mean_delta_r t p recommendation evidence one false 0 "" "" zero zero "".
Definition descriptive (note : string) (f : PatternFinding) : PatternFinding :=
  mkFinding (pf_pattern f) (pf_n f) (pf_share f) (pf_mean_r f) (pf_mean_delta_r f) (pf_t_stat f) (pf_p_value f) (pf_recommendation f) (pf_evidence f)
    (pf_p_value_adjusted f) (pf_significant f) (pf_n_tests_in_family f) "descriptive" note (pf_stability f) (pf_regime_concentration f) (pf_dominant_regime f).
Definition with_context (stability : spec_float) (concentration : spec_float * string) (f : PatternFinding) : PatternFinding :=
  mkFinding (pf_pattern f) (pf_n f) (pf_share f) (pf_mean_r f) (pf_mean_delta_r f) (pf_t_stat f) (pf_p_value f) (pf_recommendation f) (pf_evidence f)
    (pf_p_value_adjusted f) (pf_significant f) (pf_n_tests_in_family f) (pf_diagnosis f) (pf_diagnosis_note f) stability concentration.1 concentration.2.
Definition with_correction (m : nat) (adjusted : spec_float) (keep : bool) (f : PatternFinding) : PatternFinding :=
  mkFinding (pf_pattern f) (pf_n f) (pf_share f) (pf_mean_r f) (pf_mean_delta_r f) (pf_t_stat f) (pf_p_value f) (pf_recommendation f) (pf_evidence f)
    adjusted keep (Z.of_nat m) (pf_diagnosis f) (pf_diagnosis_note f) (pf_stability f) (pf_regime_concentration f) (pf_dominant_regime f).
Definition with_diagnosis (d : string * string) (recommendation : string) (evidence : json) (f : PatternFinding) : PatternFinding :=
  mkFinding (pf_pattern f) (pf_n f) (pf_share f) (pf_mean_r f) (pf_mean_delta_r f) (pf_t_stat f) (pf_p_value f) recommendation evidence
    (pf_p_value_adjusted f) (pf_significant f) (pf_n_tests_in_family f) d.1 d.2 (pf_stability f) (pf_regime_concentration f) (pf_dominant_regime f).

(** *** Modes *)

Definition mode_finding (autopsies : list TradeAutopsy) (mode : string) : PatternFinding :=
  let subset := List.filter (fun a => bool_decide (ta_mode a = mode)) autopsies in
  let n := length subset in
  descriptive ("lever: " +:+ mode_action mode)%string
    (new_finding ("mode:" +:+ mode)%string n (ratio_of n (length autopsies)) (np_mean (r_of subset)) zero zero one (mode_text mode)
       (JObj [("description", JStr (mode_text mode)); ("lever", JStr (mode_action mode))]%string)).
Definition mode_findings (autopsies : list TradeAutopsy) : list PatternFinding := map (mode_finding autopsies) (distinct (map ta_mode autopsies)).

(** *** Counterfactuals *)

(** The counterfactuals with the autopsy they belong to. *)
Definition scored (autopsies : list TradeAutopsy) : list (Counterfactual * TradeAutopsy) :=
  flat_map (fun a => map (fun c => (c, a)) (ta_counterfactuals a)) autopsies.
Definition counted_of (name : string) (autopsies : list TradeAutopsy) : list (Counterfactual * TradeAutopsy) :=
  List.filter (fun x => bool_decide (cf_name x.1 = name) && counts x.1) (scored autopsies).
Definition counted_names (autopsies : list TradeAutopsy) : list string := distinct (map (fun x => cf_name x.1) (List.filter (fun x => counts x.1) (scored autopsies))).
Definition skipped_of (name : string) (autopsies : list TradeAutopsy) : nat :=
  length (List.filter (fun x => bool_decide (cf_name x.1 = name) && negb (cf_computable x.1)) (scored autopsies)).

(** The one-sided test of a mean against zero. *)
Definition mean_test (deltas : list spec_float) (sd : spec_float) : spec_float * spec_float :=
  let n := length deltas in
  if fgtb sd zero then
    let t := fdiv (np_mean deltas) (fdiv sd (SFsqrt fprec femax (int_float n))) in
    let p := t_sf t (Z.of_nat n - 1) in
    if is_finite p then (t, p) else (zero, one)
  else (zero, one).
Definition cf_finding (autopsies : list TradeAutopsy) (name : string) : PatternFinding :=
  let xs := counted_of name autopsies in
  let deltas := map (fun x => cf_delta_r x.1) xs in
  let n := length deltas in
  let sd := if Nat.ltb 1 n then np_std deltas else zero in
  let test := mean_test deltas sd in
  with_context (stability_of deltas (map (fun x => ta_closed_ns x.2) xs)) (regime_concentration_of deltas (map (fun x => ta_regime x.2) xs))
    (new_finding ("counterfactual:" +:+ name)%string n (ratio_of n (length autopsies)) (np_mean (r_of autopsies)) (np_mean deltas) test.1 test.2 ""
       (JObj [("n", JInt (Z.of_nat n)); ("mean_delta_r", JFloat (fround_to (np_mean deltas) 4)); ("std", JFloat (fround_to sd 4));
              ("n_not_computable", JInt (Z.of_nat (skipped_of name autopsies)))]%string)).
Definition cf_findings (autopsies : list TradeAutopsy) (min_sample : nat) : list PatternFinding :=
  map (cf_finding autopsies) (List.filter (fun name => Nat.leb min_sample (length (counted_of name autopsies))) (counted_names autopsies)).

(** *** Tags *)

Definition all_tags (autopsies : list TradeAutopsy) : list string := flat_map ta_tags autopsies.
Definition frequent_tags (autopsies : list TradeAutopsy) (min_sample : nat) : list string :=
  List.filter (fun tag => Nat.leb min_sample (number_of tag (all_tags autopsies))) (distinct (all_tags autopsies)).
Definition outcome_derived (tag : string) : bool := bool_decide (tag ∈ OUTCOME_DERIVED_TAGS).

Definition derived_tag_finding (autopsies : list TradeAutopsy) (tag : string) : PatternFinding :=
  let subset := List.filter (tagged tag) autopsies in
  let n := number_of tag (all_tags autopsies) in
  descriptive ""
    (new_finding ("tag:" +:+ tag)%string n (ratio_of n (length autopsies)) (np_mean (r_of subset)) zero zero one
       (str_of_int (Z.of_nat n) +:+ " trades tagged '" +:+ tag +:+ "', averaging " +:+ signed2 (np_mean (r_of subset))
          +:+ "R. This tag is assigned from the trade's own outcome, so it describes what happened and cannot be evidence about a parameter.")%string
       (JObj [("n_tagged", JInt (Z.of_nat (length subset))); ("outcome_derived", JBool true)]%string)).

Definition finite_or (x d : spec_float) : spec_float := if is_finite x then x else d.
(** The comparison of the tagged trades with the others, when both are at least ten. *)
Definition tag_finding (autopsies : list TradeAutopsy) (tag : string) : option PatternFinding :=
  let subset := List.filter (tagged tag) autopsies in
  let others := List.filter (fun a => negb (tagged tag a)) autopsies in
  let n := number_of tag (all_tags autopsies) in
  let rs := r_of subset in
  if Nat.ltb (length others) 10 || Nat.ltb (length subset) 10 then None
  else
    let test := ttest_ind rs (r_of others) in
    Some (with_context (stability_of rs (map ta_closed_ns subset)) (regime_concentration_of rs (map ta_regime subset))
      (new_finding ("tag:" +:+ tag)%string n (ratio_of n (length autopsies)) (np_mean rs) (fsub (np_mean rs) (np_mean (r_of others)))
         (finite_or test.1 zero) (finite_or test.2 one)
         ("trades tagged '" +:+ tag +:+ "' average " +:+ signed2 (np_mean rs) +:+ "R against " +:+ signed2 (np_mean (r_of others)) +:+ "R elsewhere")%string
         (JObj [("n_tagged", JInt (Z.of_nat (length subset))); ("n_other", JInt (Z.of_nat (length others)))]%string))).
Definition tag_findings (autopsies : list TradeAutopsy) (min_sample : nat) : list PatternFinding :=
  omap (tag_finding autopsies) (List.filter (fun tag => negb (outcome_derived tag)) (frequent_tags autopsies min_sample)).
Definition derived_tag_findings (autopsies : list TradeAutopsy) (min_sample : nat) : list PatternFinding :=
  map (derived_tag_finding autopsies) (List.filter outcome_derived (frequent_tags autopsies min_sample)).

(** *** The correction for the family *)

Definition first_adjusted (m : nat) (order : list nat) (i : nat) (p : spec_float) : spec_float :=
  fmin one (fdiv (fmul p (int_float m)) (int_float (Nat.max 1 (default 0%nat (S <$> rank_in order i))))).
(** The positions of the family by falling p-value. *)
Definition falling (ps : list spec_float) (i j : nat) : Prop := fltb (nth i ps S754_nan) (nth j ps S754_nan) = false.
#[export] Instance falling_dec ps : RelDecision (falling ps).
Proof. intros i j. unfold falling. apply _. Defined.
(** The running minimum from the largest p-value down. *)
Fixpoint running_min (running : spec_float) (adj : list spec_float) (order : list nat) : list (nat * spec_float) :=
  match order with
  | [] => []
  | i :: rest => let r := fmin running (nth i adj S754_nan) in (i, r) :: running_min r adj rest
  end.
Definition adjusted_of (ps : list spec_float) : list spec_float :=
  let m := length ps in
  let first := imap (first_adjusted m (argsort ps)) ps in
  let final := running_min one first (merge_sort (falling ps) (seq 0 m)) in
  map (fun i => match find (fun kv => Nat.eqb kv.1 i) final with Some kv => kv.2 | None => S754_nan end) (seq 0 m).
Definition corrected (tested : list PatternFinding) (alpha : spec_float) : list PatternFinding :=
  let ps := map pf_p_value tested in
  let m := length ps in
  zip_with (fun f x => with_correction m x.1 x.2 f) tested (zip (adjusted_of ps) (benjamini_hochberg ps alpha)).

(** *** The diagnosis *)

Definition set_evidence (key : string) (v : json) (j : json) : json := match j with JObj d => JObj (dict_set key v d) | _ => j end.
Definition diagnosed (min_sample : nat) (f : PatternFinding) : PatternFinding :=
  let d := diagnose f (Z.of_nat min_sample) in
  if String.prefix "counterfactual:" (pf_pattern f) then
    let verb := if bool_decide (d.1 = "parameter"%string) then "worth proposing"%string else ("not actionable (" +:+ d.1 +:+ ")")%string in
    with_diagnosis d
      (verb +:+ ": mean " +:+ signed2 (pf_mean_delta_r f) +:+ "R over " +:+ Memory.int_text (pf_n f) +:+ " trades (p=" +:+ fixed 4 (pf_p_value f)
         +:+ ", adjusted " +:+ fixed 4 (pf_p_value_adjusted f) +:+ "). " +:+ d.2)%string
      (set_evidence "diagnosis" (JStr d.1) (set_evidence "supported" (JBool (bool_decide (d.1 = "parameter"%string))) (pf_evidence f))) f
  else with_diagnosis d (pf_recommendation f) (pf_evidence f) f.

(** [key=lambda f: (f.p_value_adjusted, -abs(f.mean_delta_r))]. *)
Definition stronger (f g : PatternFinding) : Prop :=
  fltb (pf_p_value_adjusted f) (pf_p_value_adjusted g) = true \/
  (fltb (pf_p_value_adjusted g) (pf_p_value_adjusted f) = false /\ fltb (fabs (pf_mean_delta_r f)) (fabs (pf_mean_delta_r g)) = false).
#[export] Instance stronger_dec : RelDecision stronger.
Proof. intros f g. unfold stronger. apply _. Defined.

(** [aggregate]. *)
Definition aggregate (autopsies : list TradeAutopsy) (min_sample : nat) (alpha : spec_float) : list PatternFinding :=
  let tested := cf_findings autopsies min_sample ++ tag_findings autopsies min_sample in
  merge_sort stronger
    (mode_findings autopsies ++ derived_tag_findings autopsies min_sample ++ map (diagnosed min_sample) (corrected tested alpha)).

(** ** A strategy's pass of [_learn] *)

Context {CM : CMath}.

(** The agent's share of the configuration. *)
Record LearnConfig := mkLearnConfig { lc_alpha : spec_float; lc_proposal_min_sample : Z; lc_config : json }.
(** [min_sample=max(20, total // 4)]. *)
Definition sample_floor (total : Z) : nat := Z.to_nat (Z.max 20 (total / 4)).
(** The body of the loop over the strategies, after the guard: [limit=1000]. *)
Definition learn_strategy (now : Z) (cfg : LearnConfig) (strategy : option string) (m : MemoryStore) (q : ProposalQueue) : MemoryStore * ProposalQueue * res (Z * Z) :=
  let total := autopsy_count strategy m in
  if total <? lc_proposal_min_sample cfg then (m, q, Ok (0, 0))
  else
    match rmap autopsy_of_record (autopsies strategy 1000 m) with
    | Raise e => (m, q, Raise e)
    | Ok objs => learn_findings now (lc_alpha cfg) (lc_proposal_min_sample cfg) strategy (lc_config cfg) (aggregate objs (sample_floor total) (lc_alpha cfg)) m q
    end.
End Findings.
