(* ===== verification/PostmortemProps.v ===== *)
(** What the autopsies count and what the findings claim: an alternative exit is scored on
    every trade on which it would have fired and on no other, the significance of a family
    is the step-up procedure, and the pass of learning loses the regime of a trade. *)

From Stdlib Require Import ZArith Lia SpecFloat Ascii String.
From stdpp Require Import base strings list sorting.
From S2P Require Import Prelude PyDecimal Types Calendar PyFloat PyText PyDict PyJson FloatTheory UnitFloat CrossValidation Memory MemoryProps Proposals ProposalProps Postmortem.

Local Open Scope Z_scope.
Local Open Scope py_scope.

(** ** Counterfactuals *)

Lemma first_touch_some path level : is_Some (first_touch path level) <-> exists p, p ∈ path /\ fgeb (pp_high_r p) level = true.
Proof.
  induction path as [|p path IH]; cbn [first_touch]; [split; [intros [? [=]]|intros (p & Hp & _); inversion Hp]|].
  destruct (fgeb (pp_high_r p) level) eqn:E; [split; [intros _; exists p; split; [left|exact E]|eauto]|]. rewrite IH. split.
  - intros (q & Hq & H). exists q. split; [now right|exact H].
  - intros (q & Hq & H). apply elem_of_cons in Hq as [->|Hq]; [congruence|eauto].
Qed.

(** The peak of the ratchet is its start or the high of a bar. *)
Lemma ratchet_armed path : forall peak, (match ratchet peak path with inl final => fgeb final one | inr _ => true end) = true ->
  fgeb peak one = true \/ exists p, p ∈ path /\ fgeb (pp_high_r p) one = true.
Proof.
  induction path as [|p path IH]; intros peak; cbn [ratchet]; [now left|]. destruct (fgeb peak one) eqn:E; [now left|]. cbn [andb]. intros H.
  apply IH in H as [H|(q & Hq & H)]; [|right; exists q; split; [now right|exact H]]. unfold fmax in H. destruct (fltb peak (pp_high_r p)); [|congruence].
  right. exists p. split; [left|exact H].
Qed.

(** What an alternative exit needs to have fired: the banking of half, the best excursion;
    a rule about the order of prices, a bar that reached +1R. *)
Definition fires (n : Noted) (path : list PathPoint) (name : string) : Prop :=
  (name = "partial_at_1R"%string /\ fgeb (float_of_dec (ct_max_favourable_r (nt_trade n))) one = true) \/
  ((name = "breakeven_at_1R"%string \/ name = "trail_tighter"%string) /\ exists p, p ∈ path /\ fgeb (pp_high_r p) one = true).

Lemma counted_fired n path c : c ∈ counterfactuals n path -> counts c = true -> fires n path (cf_name c).
Proof.
  unfold counterfactuals. set (r := float_of_dec _). set (cost := cost_r _). set (slip := slippage_r _). intros H Hc. apply elem_of_cons in H as [->|H].
  - left. unfold partial_cf in *. destruct (fgeb _ one); [split; reflexivity|discriminate].
  - destruct path as [|p0 path]; [repeat (apply elem_of_cons in H as [->|H]; [discriminate|]); inversion H|]. set (l := p0 :: path) in *.
    repeat (apply elem_of_cons in H as [->|H]); [| |discriminate|inversion H]; right.
    + unfold breakeven_cf in *. destruct (first_touch l one) as [rest|] eqn:E; [|discriminate]. split; [left; destruct (first_fall rest cost); reflexivity|].
      apply first_touch_some. eauto.
    + pose proof (ratchet_armed l NO_PEAK) as A. unfold trail_cf in *. destruct (ratchet NO_PEAK l) as [peak|[p floor]]; (split; [right; reflexivity|]).
      * unfold counts in Hc. cbn [cf_applicable cf_computable] in Hc. rewrite andb_true_r in Hc. destruct (A Hc) as [A'|A']; [discriminate A'|exact A'].
      * destruct (A eq_refl) as [A'|A']; [discriminate A'|exact A'].
Qed.

(** C26: An alternative exit enters the statistics only of a trade on which its rule would
    have fired; banking half enters those of every such trade, and so does the break-even
    move when the bars are known: whether it helped is not asked.  What cannot be computed
    has no effect, and a wider stop is never counted. *)
Theorem counterfactuals_fire_or_are_excluded n path c : c ∈ counterfactuals n path ->
  (counts c = true -> fires n path (cf_name c)) /\
  (cf_name c = "partial_at_1R"%string \/ (cf_name c = "breakeven_at_1R"%string /\ path <> []) -> fires n path (cf_name c) -> counts c = true) /\
  (counts c = false -> cf_delta_r c = zero) /\ (cf_name c = "wider_stop_1.5x"%string -> counts c = false).
Proof.
  intros H. split; [now apply counted_fired|]. unfold counterfactuals in H. set (r := float_of_dec _) in *. set (cost := cost_r _) in *. set (slip := slippage_r _) in *.
  apply elem_of_cons in H as [->|H].
  - unfold fires, partial_cf. destruct (fgeb _ one); (split; [|split; [try discriminate; reflexivity|intros [=]]]); [reflexivity|]. intros _ [[_ [=]]|[[[=]|[=]] _]].
  - destruct path as [|p0 path].
    + repeat (apply elem_of_cons in H as [->|H]; [split; [intros [[=]|[[=] N]]; now destruct N|now split]|]); inversion H.
    + set (l := p0 :: path) in *. repeat (apply elem_of_cons in H as [->|H]); [| | |inversion H].
      * unfold breakeven_cf. pose proof (first_touch_some l one) as F. destruct (first_touch l one) as [rest|]; [destruct (first_fall rest cost)|];
          (split; [|split; [try discriminate; reflexivity|intros [=]]]); try reflexivity.
        intros _ [[[=] _]|[_ Hp]]. destruct (proj2 F Hp) as [? [=]].
      * unfold trail_cf. destruct (ratchet NO_PEAK l) as [peak|[p floor]]; (split; [intros [[=]|[[=] _]]|split; [try discriminate; reflexivity|intros [=]]]).
      * split; [intros [[=]|[[=] _]]|split; reflexivity].
Qed.

(** ** The step-up procedure *)

Lemma bh_cutoff_spec pass sorted : forall i, let k := bh_cutoff pass i sorted in
  (k = 0%nat \/ (i < k <= i + length sorted)%nat /\ exists p, sorted !! (k - S i)%nat = Some p /\ pass (k - 1)%nat p = true) /\
  (forall j p, (k <= i + j)%nat -> sorted !! j = Some p -> pass (i + j)%nat p = false).
Proof.
  induction sorted as [|p rest IH]; intros i; cbn [bh_cutoff length]; [split; [now left|intros j p _ [=]]|].
  specialize (IH (S i)). cbv zeta in IH. set (k := bh_cutoff pass (S i) rest) in *. destruct IH as [A B]. cbv zeta.
  destruct (pass i p) eqn:E.
  - destruct A as [->|[A (q & Hq & Pq)]].
    + rewrite Nat.max_0_r. split; [right; split; [lia|]; exists p; replace (S i - S i)%nat with 0%nat by lia; replace (S i - 1)%nat with i by lia; now split|].
      intros [|j] q Hj Hq; [lia|]. replace (i + S j)%nat with (S i + j)%nat by lia. apply B; [lia|exact Hq].
    + rewrite Nat.max_r by lia. split; [right; split; [lia|]; exists q; replace (k - S i)%nat with (S (k - S (S i)))%nat by lia; now split|].
      intros [|j] q' Hj Hq'; [lia|]. replace (i + S j)%nat with (S i + j)%nat by lia. apply B; [lia|exact Hq'].
  - rewrite Nat.max_0_l. split.
    + destruct A as [A|[A (q & Hq & Pq)]]; [now left|right]. split; [lia|]. exists q. replace (k - S i)%nat with (S (k - S (S i)))%nat by lia. now split.
    + intros [|j] q Hj Hq; [injection Hq as <-; now rewrite Nat.add_0_r|]. replace (i + S j)%nat with (S i + j)%nat by lia. apply B; [lia|exact Hq].
Qed.

Section StepUp.
Context {SP : Scipy}.

(** What is relied on of [np.argsort]: a permutation of the positions that sorts the values. *)
Definition sorts (ps : list spec_float) (order : list nat) : Prop :=
  order ≡ₚ seq 0 (length ps) /\
  forall a b i j x y, (a < b)%nat -> order !! a = Some i -> order !! b = Some j -> ps !! i = Some x -> ps !! j = Some y -> fltb y x = false.

(** A value is declared significant. *)
Definition declared (ps : list spec_float) (alpha : spec_float) (i : nat) : Prop := benjamini_hochberg ps alpha !! i = Some true.

Lemma pick_lookup {A} (d : A) l order a : pick d l order !! a = (fun i => nth i l d) <$> order !! a.
Proof. unfold pick. change (map (fun i => nth i l d) order) with ((fun i => nth i l d) <$> order). apply list_lookup_fmap. Qed.
Lemma nth_some {A} (d : A) l i : (i < length l)%nat -> l !! i = Some (nth i l d).
Proof. intros H. destruct (lookup_lt_is_Some_2 _ _ H) as [x Hx]. rewrite Hx. f_equal. symmetry. now apply nth_lookup_Some. Qed.
Lemma order_bound (ps : list spec_float) order a i : order ≡ₚ seq 0 (length ps) -> order !! a = Some i -> (i < length ps)%nat.
Proof. intros Hp H. apply list_elem_of_lookup_2 in H. rewrite Hp in H. apply elem_of_seq in H. lia. Qed.

Lemma declared_iff ps alpha i : argsort ps ≡ₚ seq 0 (length ps) ->
  declared ps alpha i <-> exists a, (a < bh_cutoff (bh_passes alpha (length ps)) 0 (pick zero ps (argsort ps)))%nat /\ argsort ps !! a = Some i.
Proof.
  intros Hp. unfold declared, benjamini_hochberg. set (k := bh_cutoff _ _ _). split.
  - intros H. change (map ?f ?l) with (f <$> l) in H. rewrite list_lookup_fmap in H. destruct (seq 0 (length ps) !! i) as [j|] eqn:E; [|discriminate].
    apply lookup_seq in E as [-> _]. cbn in H. injection H as H. apply bool_decide_eq_true in H. apply list_elem_of_lookup in H as [a Ha].
    apply lookup_take_Some in Ha as [Ha Hk]. eauto.
  - intros (a & Ha & Hi). pose proof (order_bound _ _ _ _ Hp Hi) as Hb. change (map ?f ?l) with (f <$> l). rewrite list_lookup_fmap, (proj2 (lookup_seq 0 (length ps) i i)) by (split; lia).
    cbn. f_equal. apply bool_decide_eq_true, list_elem_of_lookup. exists a. now apply lookup_take_Some.
Qed.

(** The procedure declares significant exactly the values up to the last sorted
    position whose value is within its threshold: none after it passes, and a value below
    a significant one is significant. *)
Theorem significance_is_step_up ps alpha : sorts ps (argsort ps) -> exists k, (k <= length ps)%nat /\
  (forall i, declared ps alpha i <-> exists a, (a < k)%nat /\ argsort ps !! a = Some i) /\
  (k <> 0%nat -> exists i p, argsort ps !! (k - 1)%nat = Some i /\ ps !! i = Some p /\ fleb p (bh_threshold alpha (length ps) (k - 1)) = true) /\
  (forall a i p, (k <= a)%nat -> argsort ps !! a = Some i -> ps !! i = Some p -> fleb p (bh_threshold alpha (length ps) a) = false) /\
  (forall i j x y, declared ps alpha i -> ps !! i = Some x -> ps !! j = Some y -> fltb y x = true -> declared ps alpha j).
Proof.
  intros [Hp Hs]. set (k := bh_cutoff (bh_passes alpha (length ps)) 0 (pick zero ps (argsort ps))). exists k.
  assert (Hlen : length (argsort ps) = length ps) by (rewrite Hp; apply length_seq).
  assert (Hpick : forall a i p, argsort ps !! a = Some i -> ps !! i = Some p -> pick zero ps (argsort ps) !! a = Some p).
  { intros a i p Ha Hi. rewrite pick_lookup, Ha. cbn. f_equal. now apply nth_lookup_Some. }
  pose proof (bh_cutoff_spec (bh_passes alpha (length ps)) (pick zero ps (argsort ps)) 0) as [A B]. fold k in A, B.
  assert (Lp : length (pick zero ps (argsort ps)) = length ps) by (unfold pick; now rewrite List.length_map).
  split; [destruct A as [->|[A _]]; lia|]. split; [intros i; now apply declared_iff|]. split; [|split].
  - intros Hk. destruct A as [A|[A (p & Hq & Pq)]]; [contradiction|]. destruct (lookup_lt_is_Some_2 (argsort ps) (k - 1)) as [i Hi]; [lia|].
    pose proof (nth_some zero ps i (order_bound _ _ _ _ Hp Hi)) as Hi'. exists i, (nth i ps zero). split; [exact Hi|]. split; [exact Hi'|].
    rewrite (Hpick _ _ _ Hi Hi') in Hq. injection Hq as <-. exact Pq.
  - intros a i p Hk Ha Hi. apply (B a p); [exact Hk|]. now apply (Hpick a i p).
  - intros i j x y Hr Hx Hy Hlt. apply (declared_iff _ _ _ Hp) in Hr as (a & Ha & Hi). apply (declared_iff _ _ _ Hp).
    assert (Hj : j ∈ argsort ps) by (rewrite Hp; apply elem_of_seq; apply lookup_lt_Some in Hy; lia). apply list_elem_of_lookup in Hj as [b Hb].
    exists b. split; [|exact Hb]. fold k. destruct (Nat.lt_trichotomy a b) as [L|[->|L]]; [|lia|lia].
    exfalso. rewrite (Hs a b i j x y L Hi Hb Hx Hy) in Hlt. discriminate.
Qed.
End StepUp.

(** ** What learning loses *)

Section Forgetting.
Context {NP : Numpy} {SP : Scipy} {CM : CMath}.

(** No regime is named. *)
Definition unnamed (regime : string) : Prop := regime ∈ [""; "unknown"]%string.

Lemma tally_unknown xs : forall d, Forall (fun x : spec_float * string => x.2 = ""%string) xs -> Forall (fun kv : string * spec_float => kv.1 = "unknown"%string) d ->
  Forall (fun kv : string * spec_float => kv.1 = "unknown"%string) (fold_left tally xs d).
Proof.
  induction xs as [|x xs IH]; intros d Hx Hd; [exact Hd|]. inversion Hx; subst. cbn [fold_left]. apply IH; [assumption|]. unfold tally.
  rewrite bool_decide_true by assumption. apply Forall_forall. intros [k v] H. apply dict_set_elem in H as [[= -> ->]|H]; [reflexivity|]. now rewrite Forall_forall in Hd; apply Hd in H.
Qed.
Lemma top_item_key d (P : string -> Prop) : P ""%string -> Forall (fun kv : string * spec_float => P kv.1) d -> P (top_item d).1.
Proof.
  intros H0 H. destruct d as [|x rest]; [exact H0|]. inversion H as [|? ? Hx Hrest]; subst. clear H. cbn [top_item]. revert x Hx. induction Hrest as [|y rest Hy _ IH]; intros x Hx; [exact Hx|].
  cbn [fold_left]. apply IH. now destruct (fltb x.2 y.2).
Qed.
Lemma concentration_unnamed values regimes : Forall (fun s => s = ""%string) regimes -> unnamed (regime_concentration_of values regimes).2.
Proof.
  intros H. unfold regime_concentration_of. case_bool_decide; [left|]. cbv zeta. destruct (fleb _ zero); [left|]. cbn [snd].
  apply (top_item_key _ unnamed); [left|]. eapply Forall_impl; [apply tally_unknown; [|constructor]|intros [k v] E; cbn in *; subst; right; left].
  apply Forall_forall. intros [x s] Hx. apply elem_of_zip_r in Hx. rewrite Forall_forall in H. exact (H s Hx).
Qed.

Lemma record_loses_regime j a : autopsy_of_record j = Ok a -> ta_regime a = ""%string /\ ta_closed_ns a = 0.
Proof. unfold autopsy_of_record. destruct j; try discriminate. intros H. inv_res. subst. now split. Qed.
Lemma rmap_all {A B} (f : A -> res B) (P : B -> Prop) l : forall ys, (forall x y, f x = Ok y -> P y) -> rmap f l = Ok ys -> Forall P ys.
Proof.
  induction l as [|x l IH]; intros ys Hf H; cbn [rmap] in H; [injection H as <-; constructor|]. inv_res. subst. constructor; [eauto|]. now apply IH.
Qed.

Lemma regimes_unnamed (objs : list TradeAutopsy) (l : list TradeAutopsy) : Forall (fun a => ta_regime a = ""%string) objs -> (forall a, a ∈ l -> a ∈ objs) ->
  Forall (fun s => s = ""%string) (map ta_regime l).
Proof. intros H Hl. apply Forall_forall. intros s Hs. apply list_elem_of_fmap in Hs as (a & -> & Ha). rewrite Forall_forall in H. apply H, Hl, Ha. Qed.

Lemma tested_unnamed objs min_sample f : Forall (fun a => ta_regime a = ""%string) objs -> f ∈ cf_findings objs min_sample ++ tag_findings objs min_sample -> unnamed (pf_dominant_regime f).
Proof.
  intros Ho H. apply elem_of_app in H as [H|H].
  - apply list_elem_of_fmap in H as (name & -> & _). apply concentration_unnamed.
    rewrite <- (List.map_map snd ta_regime). apply (regimes_unnamed objs); [exact Ho|]. intros a Ha. apply list_elem_of_fmap in Ha as ([c a'] & -> & Hx).
    apply list_elem_of_In, filter_In in Hx as [Hx _]. apply in_flat_map in Hx as (b & Hb & Hx). apply in_map_iff in Hx as (c' & [= _ <-] & _). now apply list_elem_of_In.
  - apply list_elem_of_omap in H as (tag & _ & H). unfold tag_finding in H. destruct (_ || _); [discriminate|]. injection H as <-. apply concentration_unnamed.
    apply (regimes_unnamed objs); [exact Ho|]. intros a Ha. apply list_elem_of_In, filter_In in Ha as [Ha _]. now apply list_elem_of_In.
Qed.
Lemma corrected_regimes tested alpha f : f ∈ corrected tested alpha -> exists g, g ∈ tested /\ pf_dominant_regime f = pf_dominant_regime g.
Proof.
  unfold corrected. intros H. apply elem_of_lookup_zip_with in H as (i & g & x & -> & Hg & _). exists g. split; [now apply list_elem_of_lookup_2 in Hg|reflexivity].
Qed.
Lemma aggregate_unnamed objs min_sample alpha f : Forall (fun a => ta_regime a = ""%string) objs -> f ∈ aggregate objs min_sample alpha -> unnamed (pf_dominant_regime f).
Proof.
  intros Ho H. unfold aggregate in H. rewrite merge_sort_Permutation in H. rewrite !elem_of_app in H. destruct H as [H|[H|H]].
  - apply list_elem_of_fmap in H as (x & -> & _). left.
  - apply list_elem_of_fmap in H as (x & -> & _). left.
  - apply list_elem_of_fmap in H as (g & -> & H). apply corrected_regimes in H as (g' & Hg & E). apply (tested_unnamed _ _ _ Ho) in Hg. rewrite <- E in Hg.
    unfold diagnosed. now destruct (String.prefix _ _).
Qed.

(** ** Lessons without a regime *)

Definition no_regime (l : Lesson) : Prop := le_regime l = None.
Definition RowsNoRegime (m : MemoryStore) : Prop := Forall (fun r => no_regime (row_lesson r)) (mm_lessons m).

Lemma update_no_regime f id rows : (forall r, no_regime (row_lesson r) -> no_regime (row_lesson (f r))) -> Forall (fun r => no_regime (row_lesson r)) rows ->
  Forall (fun r => no_regime (row_lesson r)) (update_row f id rows).
Proof. intros Hf H. apply Forall_forall. intros r Hr. rewrite Forall_forall in H. apply update_row_elem in Hr as (x & Hx & [[-> _]|[-> _]]); auto. Qed.

Lemma add_no_regime now l m : no_regime l -> RowsNoRegime m -> RowsNoRegime (add_lesson now l m).1.
Proof.
  intros Hl Hm. unfold RowsNoRegime, add_lesson. assert (Hn : forall l' now' id, le_regime l' = le_regime l -> no_regime (row_lesson (new_row now' id l'))) by (intros l' now' id E; cbn; unfold no_regime; cbn; congruence).
  destruct (prior_of l (mm_lessons m)) as [p|]; [destruct (_ && _); [exact Hm|]|]; cbn [fst mm_lessons set_lessons]; apply Forall_app.
  - split; [now apply update_no_regime|]. constructor; [|constructor]. apply Hn. now destruct (is_status Retired p).
  - split; [exact Hm|]. constructor; [now apply Hn|constructor].
Qed.
Lemma review_no_regime now id supported n e p m : RowsNoRegime m -> RowsNoRegime (review_lesson now id supported n e p m).1.
Proof.
  intros Hm. unfold review_lesson. destruct (active_row id (mm_lessons m)) as [r|]; [|exact Hm]. destruct (_ && _); [|destruct (_ || _)]; cbn [fst]; now apply update_no_regime.
Qed.
Lemma against_no_regime findings alpha now m : RowsNoRegime m -> RowsNoRegime (review_against findings alpha now m).1.
Proof.
  unfold review_against. generalize (all_active m). intros l. generalize (mkCounts 0 0 0 0). intros c. revert c m. induction l as [|r l IH]; intros c m Hm; [exact Hm|].
  cbn [fold_left]. unfold review_row at 2. cbn [fst snd]. destruct (lesson_pattern _ ≫= _) as [f|]; [|now apply IH].
  destruct (review_lesson _ _ _ _ _ _ m) as [m2 o] eqn:E. apply IH. pose proof (review_no_regime now (row_id r) (fltb (effective_p_of f) alpha && (10 <=? pf_n f)) (pf_n f) (pf_mean_delta_r f)
    (effective_p_of f) m Hm) as H. now rewrite E in H.
Qed.
Lemma expire_no_regime now m : RowsNoRegime m -> RowsNoRegime (expire_unconfirmed now m).1.
Proof.
  intros Hm. apply Forall_forall. intros r Hr. cbn in Hr. apply list_elem_of_fmap in Hr as (x & -> & Hx). unfold RowsNoRegime in Hm. rewrite Forall_forall in Hm. specialize (Hm x Hx). now destruct (unconfirmed _ x).
Qed.
Lemma add_all_no_regime now ls : forall m, Forall no_regime ls -> RowsNoRegime m -> RowsNoRegime (add_all now ls m).
Proof. induction ls as [|l ls IH]; intros m Hl Hm; [exact Hm|]. inversion Hl; subst. apply IH; [assumption|now apply add_no_regime]. Qed.

Lemma no_regime_lessons findings strategy min_sample alpha : (forall f, f ∈ findings -> unnamed (pf_dominant_regime f)) -> regime_lessons findings strategy min_sample alpha = [].
Proof.
  intros H. unfold regime_lessons. assert (E : List.filter (eligible min_sample alpha) findings = []); [|now rewrite E].
  destruct (List.filter _ findings) as [|f l] eqn:E; [reflexivity|]. assert (Hf : In f (List.filter (eligible min_sample alpha) findings)) by (rewrite E; now left).
  apply filter_In in Hf as [Hf He]. apply list_elem_of_In, H in Hf. unfold eligible in He. unfold unnamed in Hf. rewrite (bool_decide_true _ Hf) in He. rewrite andb_false_r in He. discriminate.
Qed.
Lemma taught_no_regime now alpha strategy min_sample findings : (forall f, f ∈ findings -> unnamed (pf_dominant_regime f)) -> Forall no_regime (taught now alpha strategy min_sample findings).
Proof.
  intros H. unfold taught. rewrite no_regime_lessons by exact H. cbn [map]. rewrite app_nil_r. apply Forall_forall. intros l Hl. apply list_elem_of_fmap in Hl as (f & -> & Hf).
  apply list_elem_of_In, filter_In in Hf as [Hf _]. apply list_elem_of_In, H in Hf. unfold no_regime, tag_lesson. cbn. unfold scoped_regime. unfold unnamed in Hf. now rewrite (bool_decide_true _ Hf), andb_false_r.
Qed.

(** C27: The pass of learning builds its autopsies from records without their regime, so no
    finding names one: from a memory without lessons of a regime, whatever was recorded,
    no pass makes one, and none of a tag is confined to the regime it was seen in. *)
Theorem learning_forgets_regimes now cfg strategy m q m' q' r : RowsNoRegime m -> learn_strategy now cfg strategy m q = (m', q', r) -> RowsNoRegime m'.
Proof.
  intros Hm. unfold learn_strategy. destruct (_ <? _); [congruence|]. destruct (rmap autopsy_of_record _) as [objs|e] eqn:E; [|congruence].
  assert (Ho : Forall (fun a => ta_regime a = ""%string) objs) by (eapply rmap_all; [|exact E]; intros j a Ha; now apply record_loses_regime in Ha as []).
  unfold learn_findings. set (findings := aggregate _ _ _).
  assert (H1 : RowsNoRegime (add_all now (taught now (lc_alpha cfg) strategy (lc_proposal_min_sample cfg) findings) (expire_unconfirmed now (review_against findings (lc_alpha cfg) now m).1).1)).
  { apply add_all_no_regime; [apply taught_no_regime; intros f; now apply aggregate_unnamed|]. now apply expire_no_regime, against_no_regime. }
  destruct (derive_proposals _ _ _ _ _ _); congruence.
Qed.
End Forgetting.

(** ** What a record keeps *)

(** A counterfactual and an autopsy as they are read back. *)
Definition reread_cf (c : Counterfactual) : Counterfactual :=
  mkCf (cf_name c) (cf_description c) (fround_to (cf_delta_r c) 3) (cf_applicable c) (cf_computable c) (cf_reason c) (cf_assumptions c).
Definition reread (a : TradeAutopsy) : TradeAutopsy :=
  mkTradeAutopsy (ta_trade_id a) (ta_strategy a) (ta_instrument a) (ta_outcome a) (ta_mode a) (fround_to (ta_r_multiple a) 3) (fround_to (ta_mae_r a) 3)
    (fround_to (ta_mfe_r a) 3) (fround_to (ta_capture_ratio a) 3) (ta_tags a) (map reread_cf (ta_counterfactuals a)) "" "" 0 false.

Lemma rmap_map {A B C} (f : B -> res C) (g : A -> B) (h : A -> C) l : (forall x, f (g x) = Ok (h x)) -> rmap f (map g l) = Ok (map h l).
Proof. intros H. induction l as [|x l IH]; [reflexivity|]. cbn [map rmap]. now rewrite H, IH. Qed.
Lemma strings_back l : rmap str_item (map JStr l) = Ok l.
Proof. rewrite (rmap_map _ _ (fun s => s)) by reflexivity. now rewrite List.map_id. Qed.
Lemma cf_back c : cf_of_json (cf_dict c) = Ok (reread_cf c).
Proof. lazy -[rmap map str_item fround_to cf_assumptions]. now rewrite strings_back. Qed.

(** An autopsy read back from its record has everything but the roundings, the
    narrative, the regime of the trade and the time it closed. *)
Theorem record_round_trip a : autopsy_of_record (autopsy_dict a) = Ok (reread a).
Proof.
  lazy -[rmap map str_item fround_to cf_of_json cf_dict reread ta_tags ta_counterfactuals]. rewrite strings_back. cbn beta iota.
  now rewrite (rmap_map _ _ reread_cf) by exact cf_back.
Qed.

(** ** Witnesses *)

Definition demo_mean (l : list spec_float) : spec_float := fdiv (fold_left fadd l zero) (int_float (length l)).
Definition demo_stats : Numpy := {| np_mean := demo_mean; np_std := fun _ => one |}.
Definition demo_order {A} (lt : A -> A -> bool) (d : A) (l : list A) : list nat :=
  fold_right (fun i acc => let fix insert acc := match acc with [] => [i] | j :: rest => if lt (nth j l d) (nth i l d) then j :: insert rest else i :: acc end in insert acc) [] (seq 0 (length l)).
Definition demo_scipy : Scipy := {|
  np_sum := fun l => fold_left fadd l zero;
  t_sf := fun _ _ => lit 0.0001;
  ttest_ind := fun _ _ => (lit (-5.0), lit 0.0001);
  argsort := demo_order fltb zero;
  argsort_int := demo_order Z.ltb 0
|}.

Definition demo_trade (id : string) (r : decimal) : ClosedTrade :=
  mkClosedTrade id "trend" "EUR_USD" BUY 1 1.1 1.09 1000 2000 (-100) (-10) 2 0 100 r "stop_loss" 0.2 (-0.9).
Definition demo_noted (i : nat) : Noted :=
  if Nat.ltb i 30 then mkNoted (demo_trade ("s" +:+ str_of_int (Z.of_nat i)) (-1.0)) 2 0 "stress" false
  else mkNoted (demo_trade ("c" +:+ str_of_int (Z.of_nat i)) (-0.1)) 0 0 "calm" false.
Definition demo_autopsies : list TradeAutopsy := map (fun i => autopsy (demo_noted i) []) (seq 0 42).
Definition demo_records : MemoryStore := fold_left (fun m a => record_autopsy (autopsy_row 5 a) m) demo_autopsies empty_memory.
Definition demo_learn_config : LearnConfig := mkLearnConfig demo_alpha 20 demo_config.

(** Every trade that slipped was in the stressed regime, as its record says. *)
Example slipped_in_stress : forallb (fun a => negb (tagged "entry_slippage" a) || bool_decide (ta_regime a = "stress"%string)) demo_autopsies = true.
Proof. vm_compute. reflexivity. Qed.
(** With the regimes the evidence is confined to stress; without them the same evidence is a
    lesson for every regime and a change of a parameter. *)
Example seen_in_stress : map (fun f => (pf_pattern f, pf_diagnosis f, pf_dominant_regime f))
    (take 2 (@aggregate demo_stats demo_scipy demo_autopsies 20 demo_alpha))
  = [("tag:regime:stress", "regime", "stress"); ("tag:entry_slippage", "regime", "stress")]%string.
Proof. vm_compute. reflexivity. Qed.

Lemma learning_forgets_regimes_witness : exists m' q' x r rest p,
  @learn_strategy demo_stats demo_scipy demo_math 5000000 demo_learn_config (Some "trend"%string) demo_records empty_queue = (m', q', x) /\
  mm_lessons m' = r :: rest /\ le_scope (row_lesson r) = "strategy"%string /\ no_regime (row_lesson r) /\
  map snd (pq_items q') = [p] /\ pr_path p = "risk.max_spread_pips_multiple"%string.
Proof.
  assert (R : exists m' q' x r rest p,
    @learn_strategy demo_stats demo_scipy demo_math 5000000 demo_learn_config (Some "trend"%string) demo_records empty_queue = (m', q', x) /\
    mm_lessons m' = r :: rest /\ le_scope (row_lesson r) = "strategy"%string /\ map snd (pq_items q') = [p] /\ pr_path p = "risk.max_spread_pips_multiple"%string)
    by (do 6 eexists; split; [vm_compute; reflexivity|split; [reflexivity|split; [reflexivity|split; reflexivity]]]).
  destruct R as (m' & q' & x & r & rest & p & E & Er & Es & Ep & Epath). exists m', q', x, r, rest, p.
  split; [exact E|]. split; [exact Er|]. split; [exact Es|]. split; [|split; [exact Ep|exact Epath]].
  assert (H0 : RowsNoRegime demo_records) by (assert (L : mm_lessons demo_records = []) by (vm_compute; reflexivity); unfold RowsNoRegime; rewrite L; constructor).
  pose proof (@learning_forgets_regimes demo_stats demo_scipy demo_math 5000000 demo_learn_config (Some "trend"%string) demo_records empty_queue m' q' x H0 E) as H.
  unfold RowsNoRegime in H. rewrite Er in H. now inversion H.
Defined.

Definition demo_ps : list spec_float := [lit 0.04; lit 0.5; lit 0.001; lit 0.03].
Lemma significance_is_step_up_witness : exists k, @declared demo_scipy demo_ps (lit 0.05) 2 /\ ~ @declared demo_scipy demo_ps (lit 0.05) 0 /\ (k <= 4)%nat /\
  (forall i, @declared demo_scipy demo_ps (lit 0.05) i <-> exists a, (a < k)%nat /\ @argsort demo_scipy demo_ps !! a = Some i).
Proof.
  assert (Hs : sorts demo_ps (@argsort demo_scipy demo_ps)).
  { assert (E : @argsort demo_scipy demo_ps = [2; 3; 0; 1]%nat) by (vm_compute; reflexivity). rewrite E. split.
    - exact (Permutation_app_comm [2; 3]%nat [0; 1]%nat).
    - intros a b i j x y L Ha Hb. destruct a as [|[|[|[|a]]]], b as [|[|[|[|b]]]]; try lia; try discriminate Ha; try discriminate Hb;
        injection Ha as <-; injection Hb as <-; intros [= <-] [= <-]; vm_compute; reflexivity. }
  destruct (@significance_is_step_up demo_scipy demo_ps (lit 0.05) Hs) as (k & Hk & Hr & _). exists k.
  split; [vm_compute; reflexivity|]. split; [vm_compute; congruence|]. split; [exact Hk|exact Hr].
Defined.

Lemma counterfactuals_fire_or_are_excluded_witness : let n := mkNoted (demo_trade "t" (-0.1)) 0 0 "" false in
  let path := [mkPoint 1 (lit 1.2) (lit 0.1) (lit 0.5) (lit 0.2); mkPoint 2 (lit 0.6) (lit (-0.4)) (lit (-0.1)) (lit 0.5)] in
  exists c, c ∈ counterfactuals n path /\ cf_name c = "breakeven_at_1R"%string /\ counts c = true /\ fires n path (cf_name c).
Proof.
  intros n path. assert (R : exists a c rest, counterfactuals n path = a :: c :: rest /\ cf_name c = "breakeven_at_1R"%string /\ counts c = true)
    by (do 3 eexists; split; [vm_compute; reflexivity|split; vm_compute; reflexivity]).
  destruct R as (a & c & rest & E & En & Ec). exists c. assert (Hc : c ∈ counterfactuals n path) by (rewrite E; right; left).
  split; [exact Hc|]. split; [exact En|]. split; [exact Ec|]. exact (proj1 (counterfactuals_fire_or_are_excluded n path c Hc) Ec).
Defined.

(** Two equal values of a family of two, one of them significant only by the other's rank:
    both are significant, but the adjusted value of the first is above the level. *)
Example equal_values_adjusted_apart : let ps := [lit 0.04; lit 0.04] in
  @benjamini_hochberg demo_scipy ps (lit 0.05) = [true; true] /\ map (fun x => fltb (lit 0.05) x) (@adjusted_of demo_scipy ps) = [true; false].
Proof. vm_compute. split; reflexivity. Qed.
