(* ===== verification/Security.v ===== *)
(** [sentinel/api/security.py]: accounts and their store, passwords, lockouts,
    sessions, the second factor and the rate limits of the HTTP interface.  The
    clocks, the random texts, the failures of the database and the one-time code
    are operations of the class [Host]; the password hash, the digest and the
    tokens are its functions.  The monotonic clock is in nanoseconds.  A method
    runs alone, except that a write is the two halves [admit_write] and
    [commit_write] it is made of, between which the source holds no lock.  Names
    and passwords are ASCII; the code of a write is a header of its request, a text
    of code points below 256; messages are left out. *)

From Stdlib Require Import ZArith Floats.SpecFloat Ascii String.
From stdpp Require Import base strings list.
From S2P Require Import Prelude Calendar PyText StateExn PyDict PyJson.

Local Open Scope py_scope.

(** ** Password and user name policy *)

Definition MIN_PASSWORD_LENGTH : nat := 12.

Definition COMMON_PASSWORDS : list string :=
  ["password"; "password1"; "password123"; "123456"; "12345678"; "123456789"; "1234567890"; "qwerty"; "qwerty123";
   "abc123"; "letmein"; "welcome"; "admin"; "admin123"; "root"; "toor"; "changeme"; "trustno1"; "iloveyou"; "monkey";
   "dragon"; "sunshine"; "princess"; "football"; "baseball"; "master"; "shadow"; "superman"; "batman"; "passw0rd";
   "p@ssword"; "p@ssw0rd"; "sentinel"; "sentinelfx"; "trading"; "forex"; "money"; "password1234"; "passwordpassword";
   "qwerty123456"; "123456789012"; "1234567890123"; "qwertyuiop123"; "iloveyou1234"; "letmein12345"; "administrator";
   "sentinel-fx1"; "welcome123456"; "adminadmin12"].

(** [_password_shapes]. *)
Definition password_shapes (password : string) : list string :=
  let lowered := lower (strip password) in
  [lowered; on_chars is_alnum lowered; on_chars is_alpha lowered; rstrip (one_of "0123456789!@#$%^&*._-") lowered].

Inductive PolicyProblem :=
| TooLong | Common | TooShort | HasUsername | FewCharacters | EmptyName | LongName | ShortName | BadCharacters.

(** [check_password_policy]. *)
Definition check_password_policy (password username : string) : option PolicyProblem :=
  if Nat.ltb 256 (String.length password) then Some TooLong
  else if existsb (fun s => bool_decide (s ∈ COMMON_PASSWORDS)) (password_shapes password) then Some Common
  else if Nat.ltb (String.length password) MIN_PASSWORD_LENGTH then Some TooShort
  else if negb (bool_decide (username = "")) && contains (lower username) (lower (strip password))
       then Some HasUsername
  else if Nat.ltb (length (remove_dups (list_ascii_of_string password))) 5 then Some FewCharacters
  else None.

(** [_check_username]. *)
Definition check_username (username : string) : option PolicyProblem :=
  if bool_decide (username = "") then Some EmptyName
  else if Nat.ltb 64 (String.length username) then Some LongName
  else if Nat.ltb (String.length username) 3 then Some ShortName
  else if forallb (fun c => is_alnum c || one_of "._-" c) (list_ascii_of_string username) then None
  else Some BadCharacters.

(** ** Accounts and sessions *)

Record User := mkUser {
  us_username : string;
  us_password_hash : string;
  us_totp_secret : string;
  us_role : string;
  us_created_ns : Z;
  us_disabled : bool
}.

Definition can_write (u : User) : bool := bool_decide (us_role u ∈ ["operator"; "owner"]) && negb (us_disabled u).
Definition can_change_risk (u : User) : bool := bool_decide (us_role u = "owner") && negb (us_disabled u).

Definition with_hash (h : string) (u : User) : User :=
  mkUser (us_username u) h (us_totp_secret u) (us_role u) (us_created_ns u) (us_disabled u).
Definition with_secret (s : string) (u : User) : User :=
  mkUser (us_username u) (us_password_hash u) s (us_role u) (us_created_ns u) (us_disabled u).
Definition with_role (r : string) (u : User) : User :=
  mkUser (us_username u) (us_password_hash u) (us_totp_secret u) r (us_created_ns u) (us_disabled u).
Definition with_disabled (d : bool) (u : User) : User :=
  mkUser (us_username u) (us_password_hash u) (us_totp_secret u) (us_role u) (us_created_ns u) d.

Record Session := mkSession {
  se_token_id : string;
  se_username : string;
  se_role : string;
  se_issued_ns : Z;
  se_expires_ns : Z;
  se_fingerprint : string;
  se_writes_used : Z
}.

Definition session_role (r : string) (s : Session) : Session :=
  mkSession (se_token_id s) (se_username s) r (se_issued_ns s) (se_expires_ns s) (se_fingerprint s) (se_writes_used s).
Definition session_wrote (s : Session) : Session :=
  mkSession (se_token_id s) (se_username s) (se_role s) (se_issued_ns s) (se_expires_ns s) (se_fingerprint s)
    (se_writes_used s + 1)%Z.

(** The tables of the account store: the rows, by user name. *)
Abbreviation Rows := (list (string * User)).

(** [INSERT ... ON CONFLICT DO UPDATE]: the creation time of a row stays. *)
Definition upsert_row (u : User) (rows : Rows) : Rows :=
  dict_set (us_username u)
    match dict_get (us_username u) rows with
    | Some old => mkUser (us_username u) (us_password_hash u) (us_totp_secret u) (us_role u) (us_created_ns old)
                    (us_disabled u)
    | None => u
    end rows.

(** ** The state *)

Record SecConfig := mkSecConfig {
  sf_session_ttl : Z;
  sf_max_login_attempts : Z;
  sf_lockout_sec : Z;
  sf_write_rate_per_minute : Z
}.

Inductive SecEvent :=
| EvFailure (username reason actor : string)
| EvSuccess (username role actor : string)
| EvDenied (username reason : string)
| EvWrite (action username : string).

Class Host (W : Type) := {
  h_monotonic : W -> W * Z;
  h_wall : W -> W * Z;
  h_sqlite_fails : W -> W * bool;
  h_token : W -> W * string;
  h_random_secret : W -> W * string;
  h_hash : string -> W -> W * string;
  h_totp_verify : string -> string -> W -> W * bool;
  h_jwt_decode : string -> W -> W * option (list (string * json));
  h_jwt_encode : list (string * json) -> string;
  h_verify_hash : string -> string -> bool;
  h_digest : string -> string;
  h_dummy_hash : string
}.

Record Sec (W : Type) := mkSec {
  sc_world : W;
  sc_store : option Rows;
  sc_users : list (string * User);
  sc_sessions : list (string * Session);
  sc_failures : list (string * list Z);
  sc_lockouts : list (string * Z);
  sc_strikes : list (string * Z);
  sc_used_totp : list ((string * string) * Z);
  sc_rate : list (string * list Z);
  sc_log : list SecEvent;
  sc_granted : list (string * Z)
}.
Arguments mkSec {W}.
Arguments sc_world {W}. Arguments sc_store {W}. Arguments sc_users {W}. Arguments sc_sessions {W}.
Arguments sc_failures {W}. Arguments sc_lockouts {W}. Arguments sc_strikes {W}. Arguments sc_used_totp {W}.
Arguments sc_rate {W}. Arguments sc_log {W}. Arguments sc_granted {W}.

Definition set_world {W} (w : W) (s : Sec W) : Sec W :=
  mkSec w (sc_store s) (sc_users s) (sc_sessions s) (sc_failures s) (sc_lockouts s) (sc_strikes s) (sc_used_totp s)
    (sc_rate s) (sc_log s) (sc_granted s).
Definition set_store {W} (x : option Rows) (s : Sec W) : Sec W :=
  mkSec (sc_world s) x (sc_users s) (sc_sessions s) (sc_failures s) (sc_lockouts s) (sc_strikes s) (sc_used_totp s)
    (sc_rate s) (sc_log s) (sc_granted s).
Definition set_users {W} (f : list (string * User) -> list (string * User)) (s : Sec W) : Sec W :=
  mkSec (sc_world s) (sc_store s) (f (sc_users s)) (sc_sessions s) (sc_failures s) (sc_lockouts s) (sc_strikes s)
    (sc_used_totp s) (sc_rate s) (sc_log s) (sc_granted s).
Definition set_sessions {W} (f : list (string * Session) -> list (string * Session)) (s : Sec W) : Sec W :=
  mkSec (sc_world s) (sc_store s) (sc_users s) (f (sc_sessions s)) (sc_failures s) (sc_lockouts s) (sc_strikes s)
    (sc_used_totp s) (sc_rate s) (sc_log s) (sc_granted s).
Definition set_failures {W} (f : list (string * list Z) -> list (string * list Z)) (s : Sec W) : Sec W :=
  mkSec (sc_world s) (sc_store s) (sc_users s) (sc_sessions s) (f (sc_failures s)) (sc_lockouts s) (sc_strikes s)
    (sc_used_totp s) (sc_rate s) (sc_log s) (sc_granted s).
Definition set_lockouts {W} (f : list (string * Z) -> list (string * Z)) (s : Sec W) : Sec W :=
  mkSec (sc_world s) (sc_store s) (sc_users s) (sc_sessions s) (sc_failures s) (f (sc_lockouts s)) (sc_strikes s)
    (sc_used_totp s) (sc_rate s) (sc_log s) (sc_granted s).
Definition set_strikes {W} (f : list (string * Z) -> list (string * Z)) (s : Sec W) : Sec W :=
  mkSec (sc_world s) (sc_store s) (sc_users s) (sc_sessions s) (sc_failures s) (sc_lockouts s) (f (sc_strikes s))
    (sc_used_totp s) (sc_rate s) (sc_log s) (sc_granted s).
Definition set_used_totp {W} (f : list ((string * string) * Z) -> list ((string * string) * Z)) (s : Sec W) : Sec W :=
  mkSec (sc_world s) (sc_store s) (sc_users s) (sc_sessions s) (sc_failures s) (sc_lockouts s) (sc_strikes s)
    (f (sc_used_totp s)) (sc_rate s) (sc_log s) (sc_granted s).
Definition set_rate {W} (f : list (string * list Z) -> list (string * list Z)) (s : Sec W) : Sec W :=
  mkSec (sc_world s) (sc_store s) (sc_users s) (sc_sessions s) (sc_failures s) (sc_lockouts s) (sc_strikes s)
    (sc_used_totp s) (f (sc_rate s)) (sc_log s) (sc_granted s).
Definition add_log {W} (e : SecEvent) (s : Sec W) : Sec W :=
  mkSec (sc_world s) (sc_store s) (sc_users s) (sc_sessions s) (sc_failures s) (sc_lockouts s) (sc_strikes s)
    (sc_used_totp s) (sc_rate s) (sc_log s ++ [e]) (sc_granted s).
Definition add_granted {W} (g : string * Z) (s : Sec W) : Sec W :=
  mkSec (sc_world s) (sc_store s) (sc_users s) (sc_sessions s) (sc_failures s) (sc_lockouts s) (sc_strikes s)
    (sc_used_totp s) (sc_rate s) (sc_log s) (sc_granted s ++ [g]).

(** ** Constants *)

Definition SEC : Z := 1000000000.
Definition MAX_TRACKED_KEYS : nat := Z.to_nat 20000.
Definition TOTP_REPLAY_TTL : Z := 120 * SEC.
Definition ROLES : list string := ["owner"; "operator"; "viewer"].

(** [max(v)] of a list that is not empty. *)
Definition latest (v : list Z) : Z := match v with x :: rest => fold_left Z.max rest x | [] => 0%Z end.

(** [dict(sorted(d.items(), key=key, reverse=True)[:n])], a stable sort. *)
Fixpoint insert_desc {A} (key : A -> Z) (x : A) (xs : list A) : list A :=
  match xs with
  | [] => [x]
  | y :: rest => if (key y <=? key x)%Z then x :: xs else y :: insert_desc key x rest
  end.
Definition keep_largest {A} (key : A -> Z) (n : nat) (xs : list A) : list A :=
  if Nat.leb (length xs) n then xs else take n (foldr (insert_desc key) [] xs).

(** [dict[pair] = v], and [pair in dict]. *)
Fixpoint pair_set (k : string * string) (v : Z) (d : list ((string * string) * Z)) : list ((string * string) * Z) :=
  match d with
  | [] => [(k, v)]
  | (k', v') :: rest => if bool_decide (k' = k) then (k', v) :: rest else (k', v') :: pair_set k v rest
  end.
Definition pair_in {A} (k : string * string) (d : list ((string * string) * A)) : bool :=
  existsb (fun e => bool_decide (e.1 = k)) d.

Section Manager.
Context {W : Type} `{!Host W}.
Variable cfg : SecConfig.

Definition SM (A : Type) : Type := M (Sec W) A.

Definition host {A} (op : W -> W * A) : SM A :=
  fun s => match op (sc_world s) with (w, a) => (set_world w s, Ok a) end.
Definition monotonic : SM Z := host h_monotonic.
Definition wall_ns : SM Z := host h_wall.
Definition audit (e : SecEvent) : SM unit := modify (add_log e).
Definition lockout_ns : Z := sf_lockout_sec cfg * SEC.

(** ** The account store *)

(** A statement on the database, which may raise. *)
Definition statement {A} (c : SM A) : SM A :=
  let! fails := host h_sqlite_fails in if fails : bool then throw OtherError else c.

(** [UserStore.load], [get], [upsert], [delete]. *)
Definition store_load (rows : Rows) : SM Rows := statement (ret rows).
Definition store_get (rows : Rows) (username : string) : SM (option User) := statement (ret (dict_get username rows)).
Definition store_upsert (rows : Rows) (u : User) : SM unit := statement (modify (set_store (Some (upsert_row u rows)))).
Definition store_delete (rows : Rows) (username : string) : SM bool :=
  statement (match dict_get username rows with
             | Some _ => modify (set_store (Some (dict_del username rows))) ;! ret true
             | None => ret false
             end).

(** [_persist]. *)
Definition persist (u : User) : SM bool :=
  let! st := gets sc_store in
  match st with
  | None => ret true
  | Some rows =>
      let! r := attempt (store_upsert rows u) in
      match r with
      | Ok _ => ret true
      | Raise _ => audit (EvDenied (us_username u) "account_write_failed") ;! ret false
      end
  end.

(** [_all_accounts]. *)
Definition all_accounts : SM Rows :=
  let! s := gets id in
  match sc_store s with
  | None => ret (sc_users s)
  | Some rows =>
      let! r := attempt (store_load rows) in
      match r with
      | Ok fresh => modify (set_users (fun _ => fresh)) ;! ret fresh
      | Raise _ => ret (sc_users s)
      end
  end.

(** [_reload_user]. *)
Definition reload_user (username : string) : SM (option User) :=
  let! s := gets id in
  match sc_store s with
  | None => ret (dict_get username (sc_users s))
  | Some rows =>
      let! r := attempt (store_get rows username) in
      match r with
      | Ok None => modify (set_users (dict_del username)) ;! ret None
      | Ok (Some fresh) => modify (set_users (dict_set username fresh)) ;! ret (Some fresh)
      | Raise _ => ret (dict_get username (sc_users s))
      end
  end.

Definition put_user (u : User) (username : string) : SM unit := modify (set_users (dict_set username u)).
(** The sessions of a user are dropped. *)
Definition drop_sessions (username : string) : SM unit :=
  modify (set_sessions (List.filter (fun e => negb (bool_decide (se_username e.2 = username))))).

(** ** Administration *)

(** [enabled_owners]. *)
Definition is_owner (u : User) : bool := bool_decide (us_role u = "owner") && negb (us_disabled u).
Definition owner_names (accounts : Rows) (excluding : string) : list string :=
  omap (fun e => if is_owner e.2 && negb (bool_decide (us_username e.2 = excluding)) then Some (us_username e.2)
                 else None) accounts.
Definition enabled_owners (excluding : string) : SM (list string) :=
  let! accounts := all_accounts in ret (sorted_set (owner_names accounts excluding)).

(** [_last_owner_problem_locked]. *)
Definition last_owner_problem (username : string) : SM bool :=
  let! accounts := all_accounts in
  match dict_get username accounts with
  | Some existing => ret (is_owner existing && bool_decide (owner_names accounts username = []))
  | None => ret false
  end.

(** [add_user]; the enrolment address it also returns is text of the secret. *)
Definition add_user (username password role : string) (totp_secret : option string) : SM User :=
  if negb (bool_decide (role ∈ ROLES)) then throw ValueError
  else
    let username := strip username in
    match check_username username, check_password_policy password username with
    | None, None =>
        let! secret := (match totp_secret with
                        | Some t => if bool_decide (t = "") then host h_random_secret else ret t
                        | None => host h_random_secret
                        end) in
        let! h := host (h_hash password) in
        let! created := wall_ns in
        let u := mkUser username h secret role created false in
        let! accounts := all_accounts in
        match dict_get username accounts with
        | Some _ => throw ValueError
        | None =>
            let! saved := persist u in
            if negb saved then throw OtherError
            else put_user u username ;! audit (EvWrite "user_created" username) ;! ret u
        end
    | _, _ => throw ValueError
    end.

(** [set_password]. *)
Definition set_password (username password : string) : SM bool :=
  let! existing := gets (fun s => dict_get username (sc_users s)) in
  match existing with
  | None => ret false
  | Some u =>
      match check_password_policy password username with
      | Some _ => throw ValueError
      | None =>
          let! h := host (h_hash password) in
          let updated := with_hash h u in
          let! saved := persist updated in
          if negb saved then ret false
          else put_user updated username ;! audit (EvWrite "password_changed" username) ;! ret true
      end
  end.

(** [set_role]. *)
Definition set_role (username role : string) : SM bool :=
  if negb (bool_decide (role ∈ ROLES)) then throw ValueError
  else
    let! accounts := all_accounts in
    match dict_get username accounts with
    | None => ret false
    | Some u =>
        let! problem := (if bool_decide (role = "owner") then ret false else last_owner_problem username) in
        if problem : bool then throw ValueError
        else
          let! saved := persist (with_role role u) in
          if negb saved then ret false
          else put_user (with_role role u) username ;! audit (EvWrite "role_changed" username) ;! ret true
    end.

(** [set_disabled]. *)
Definition set_disabled (username : string) (disabled : bool) : SM bool :=
  let! cached := gets (fun s => dict_get username (sc_users s)) in
  match cached with
  | None => ret false
  | Some _ =>
      let! accounts := all_accounts in
      match dict_get username accounts with
      | None => ret false
      | Some u =>
          let! problem := (if disabled then last_owner_problem username else ret false) in
          if problem : bool then throw ValueError
          else
            let! saved := persist (with_disabled disabled u) in
            if negb saved then ret false
            else
              put_user (with_disabled disabled u) username ;!
              when disabled (drop_sessions username) ;!
              audit (EvWrite (if disabled then "account_disabled" else "account_enabled") username) ;!
              ret true
      end
  end.

(** [delete_user]. *)
Definition delete_user (username : string) : SM bool :=
  let! problem := last_owner_problem username in
  if problem : bool then throw ValueError
  else
    let! accounts := all_accounts in
    match dict_get username accounts with
    | None => ret false
    | Some _ =>
        let! st := gets sc_store in
        let! deleted := (match st with Some rows => store_delete rows username | None => ret true end) in
        if negb deleted then ret false
        else
          modify (set_users (dict_del username)) ;!
          drop_sessions username ;!
          audit (EvWrite "user_deleted" username) ;!
          ret true
    end.

(** [rotate_totp]: whether it issued a new secret. *)
Definition rotate_totp (username : string) : SM bool :=
  let! existing := gets (fun s => dict_get username (sc_users s)) in
  match existing with
  | None => ret false
  | Some u =>
      let! secret := host h_random_secret in
      let updated := with_secret secret u in
      let! saved := persist updated in
      if negb saved then ret false
      else
        put_user updated username ;!
        drop_sessions username ;!
        modify (set_used_totp (List.filter (fun e => negb (bool_decide (e.1.1 = username))))) ;!
        audit (EvWrite "totp_rotated" username) ;!
        ret true
  end.

(** ** Lockouts *)

(** [_locked_out]: the time that remains. *)
Definition locked_out (key : string) : SM (option Z) :=
  let! entry := gets (fun s => dict_get key (sc_lockouts s)) in
  match entry with
  | None => ret None
  | Some until =>
      if (until =? 0)%Z then ret None
      else
        let! t := monotonic in
        if (t <? until)%Z then let! t' := monotonic in ret (Some (until - t')%Z)
        else modify (set_lockouts (dict_del key)) ;! ret None
  end.

(** A text or number that counts as true. *)
Definition nonzero (r : option Z) : option Z :=
  match r with Some x => if (x =? 0)%Z then None else Some x | None => None end.

(** [_record_failure]. *)
Definition record_failure (key : string) : SM unit :=
  let! t := monotonic in
  let! s := gets id in
  let window := List.filter (fun x => (t - x <? lockout_ns)%Z) (default [] (dict_get key (sc_failures s))) ++ [t] in
  modify (set_failures (dict_set key window)) ;!
  when (sf_max_login_attempts cfg <=? Z.of_nat (length window))%Z
    (let strikes := (default 0 (dict_get key (sc_strikes s)) + 1)%Z in
     modify (set_strikes (dict_set key strikes)) ;!
     let factor := (2 ^ Z.max 0 (strikes - 1))%Z in
     modify (set_lockouts (dict_set key (t + lockout_ns * Z.min factor 16)%Z)) ;!
     modify (set_failures (dict_set key []))).

(** One table of [_failures] and [_rate]. *)
Definition prune_times (t horizon : Z) (table : list (string * list Z)) : list (string * list Z) :=
  keep_largest (fun e => latest e.2) MAX_TRACKED_KEYS
    (List.filter (fun e => match e.2 with [] => false | _ => negb (horizon <? t - latest e.2)%Z end) table).
Definition prune_lockouts (t horizon : Z) (table : list (string * Z)) : list (string * Z) :=
  keep_largest snd MAX_TRACKED_KEYS (List.filter (fun e => negb (e.2 + horizon <? t)%Z) table).
(** The strikes that go with the lockouts dropped. *)
Definition prune_strikes (t horizon : Z) (lockouts : list (string * Z)) (strikes : list (string * Z))
    : list (string * Z) :=
  let expired := map fst (List.filter (fun e => (e.2 + horizon <? t)%Z) lockouts) in
  let alive := List.filter (fun e => negb (e.2 + horizon <? t)%Z) lockouts in
  let strikes := List.filter (fun e : string * Z => negb (bool_decide (e.1 ∈ expired))) strikes in
  if Nat.leb (length alive) MAX_TRACKED_KEYS then strikes
  else List.filter (fun e : string * Z => bool_decide (e.1 ∈ map fst (prune_lockouts t horizon lockouts))) strikes.

(** [_prune_tracking]. *)
Definition prune_tracking : SM unit :=
  let! t := monotonic in
  let horizon := (Z.max lockout_ns (60 * SEC) * 4)%Z in
  modify (set_failures (prune_times t horizon)) ;!
  modify (set_rate (prune_times t horizon)) ;!
  let! lockouts := gets sc_lockouts in
  modify (set_strikes (prune_strikes t horizon lockouts)) ;!
  modify (set_lockouts (prune_lockouts t horizon)) ;!
  modify (set_used_totp (List.filter (fun e => negb (e.2 <? t - TOTP_REPLAY_TTL)%Z))) ;!
  let! wall := wall_ns in
  modify (set_sessions (List.filter (fun e => negb (se_expires_ns e.2 <? wall)%Z))).

(** ** Sessions *)

(** [fingerprint]. *)
Definition fingerprint (user_agent client_ip : string) : string :=
  String.substring 0 32 (h_digest (user_agent +:+ "|" +:+ client_ip)).

Definition user_key (username : string) : string := "user:" +:+ username.
Definition ip_key (client_ip : string) : string := "ip:" +:+ client_ip.
Definition write_key (username : string) : string := "write:" +:+ username.

(** [int(ns / 1e9)]. *)
Definition epoch_seconds (ns : Z) : json :=
  match int_of_json int_of_str (JFloat (fdiv (float_of_Z ns) (float_of_Z SEC))) with
  | Ok z => JInt z
  | Raise _ => JNull
  end.

(** The first key that is locked, and for how long. *)
Fixpoint first_lock (keys : list string) : SM (option Z) :=
  match keys with
  | [] => ret None
  | k :: rest => let! r := locked_out k in
                 match nonzero r with Some x => ret (Some x) | None => first_lock rest end
  end.

(** [login] once no lockout stands in its way. *)
Definition try_login (username password user_agent client_ip : string) : SM (option string) :=
  let keys := [user_key username; ip_key client_ip] in
  let! user := reload_user username in
  let stored := match user with Some u => us_password_hash u | None => h_dummy_hash end in
  let ok := h_verify_hash stored password in
  match user with
  | Some u =>
      if negb ok || us_disabled u then
        each record_failure keys ;! audit (EvFailure username "bad_credentials" client_ip) ;! ret None
      else
        modify (set_failures (fun d => dict_del (ip_key client_ip) (dict_del (user_key username) d))) ;!
        let! token_id := host h_token in
        let! now := wall_ns in
        let session := mkSession token_id username (us_role u) now (now + sf_session_ttl cfg * SEC)
                         (fingerprint user_agent client_ip) 0 in
        modify (set_sessions (dict_set token_id session)) ;!
        audit (EvSuccess username (us_role u) client_ip) ;!
        ret (Some (h_jwt_encode
                     [("sub", JStr username); ("jti", JStr token_id); ("role", JStr (us_role u));
                      ("fp", JStr (se_fingerprint session)); ("exp", epoch_seconds (se_expires_ns session));
                      ("iat", epoch_seconds now)]))
  | None => each record_failure keys ;! audit (EvFailure username "bad_credentials" client_ip) ;! ret None
  end.

(** [login]: the token, if it issues one. *)
Definition login (username password user_agent client_ip : string) : SM (option string) :=
  prune_tracking ;!
  let! remaining := first_lock [user_key username; ip_key client_ip] in
  match remaining with
  | Some _ => audit (EvFailure username "locked_out" client_ip) ;! ret None
  | None => try_login username password user_agent client_ip
  end.

Definition get_session (token_id : string) : SM (option Session) := gets (fun s => dict_get token_id (sc_sessions s)).
Definition pop_session (token_id : string) : SM unit := modify (set_sessions (dict_del token_id)).

(** [verify_token], on the identifier in the token. *)
Definition check_session (token_id user_agent client_ip : string) : SM (option Session) :=
  let! found := get_session token_id in
  match found with
  | None => ret None
  | Some session =>
      let! wall := wall_ns in
      if (se_expires_ns session <? wall)%Z then pop_session token_id ;! ret None
      else if negb (bool_decide (se_fingerprint session = fingerprint user_agent client_ip)) then
        audit (EvFailure (se_username session) "fingerprint_mismatch" client_ip) ;! ret None
      else
        let! user := reload_user (se_username session) in
        match user with
        | Some u =>
            if us_disabled u then
              pop_session token_id ;!
              audit (EvFailure (se_username session) "account_disabled_or_removed" client_ip) ;! ret None
            else if bool_decide (us_role u = se_role session) then ret (Some session)
            else
              audit (EvDenied (se_username session) "role_changed_mid_session") ;!
              modify (set_sessions (dict_set token_id (session_role (us_role u) session))) ;!
              ret (Some (session_role (us_role u) session))
        | None =>
            pop_session token_id ;!
            audit (EvFailure (se_username session) "account_disabled_or_removed" client_ip) ;! ret None
        end
  end.

(** [verify_token]. *)
Definition verify_token (token user_agent client_ip : string) : SM (option Session) :=
  let! payload := host (h_jwt_decode token) in
  match payload with
  | None => ret None
  | Some fields =>
      match default (JStr "") (dict_get "jti" fields) with
      | JStr token_id => check_session token_id user_agent client_ip
      | _ => ret None
      end
  end.

(** [logout]. *)
Definition logout (token_id : string) : SM bool :=
  let! found := get_session token_id in pop_session token_id ;! ret (match found with Some _ => true | None => false end).

(** [purge_expired]. *)
Definition purge_expired : SM nat :=
  let! now := wall_ns in
  let! sessions := gets sc_sessions in
  let stale := List.filter (fun e => (se_expires_ns e.2 <? now)%Z) sessions in
  modify (set_sessions (List.filter (fun e => negb (se_expires_ns e.2 <? now)%Z))) ;!
  ret (length stale).

(** ** The second factor *)

(** [str.isspace] and [str.isdigit] of a code point below 256: besides the blanks of
    ASCII U+0085 and U+00A0, besides 0-9 the superscripts two, three and one. *)
Definition latin_space (c : ascii) : bool := is_space c || in_range 133 133 c || in_range 160 160 c.
Definition latin_digit (c : ascii) : bool := in_range 48 57 c || in_range 178 179 c || in_range 185 185 c.

(** [code.strip().replace(" ", "")]. *)
Definition plain_code (code : string) : string :=
  on_chars (fun c => negb (in_range 32 32 c))
    (rstrip latin_space (string_of_list_ascii (drop_while latin_space (list_ascii_of_string code)))).

(** [verify_totp], with [consume] false. *)
Definition verify_totp (username code : string) : SM bool :=
  let! cached := gets (fun s => dict_get username (sc_users s)) in
  match cached with
  | Some u =>
      if us_disabled u then ret false
      else
        let code := plain_code code in
        if negb (forallb latin_digit (list_ascii_of_string code)) || negb (Nat.eqb (String.length code) 6)
        then ret false
        else
          let! used := gets (fun s => pair_in (username, code) (sc_used_totp s)) in
          if used : bool then audit (EvDenied username "totp_replay") ;! ret false
          else
            let! valid := host (h_totp_verify (us_totp_secret u) code) in
            if negb valid then audit (EvDenied username "totp_invalid") ;! ret false else ret true
  | None => ret false
  end.

(** [consume_totp]. *)
Definition consume_totp (username code : string) : SM unit :=
  let! t := monotonic in modify (set_used_totp (pair_set (username, plain_code code) t)).

(** [check_rate]; an accepted call is recorded in [sc_granted], which nothing reads. *)
Definition check_rate (key : string) (per_minute : Z) : SM bool :=
  let! t := monotonic in
  let! s := gets id in
  let window := List.filter (fun x => (t - x <? 60 * SEC)%Z) (default [] (dict_get key (sc_rate s))) in
  if (per_minute <=? Z.of_nat (length window))%Z then modify (set_rate (dict_set key window)) ;! ret false
  else modify (set_rate (dict_set key (window ++ [t]))) ;! modify (add_granted (key, t)) ;! ret true.

(** ** Writes *)

(** The code of a write; a wrong one is a failure of the account. *)
Definition second_factor (username code : string) : SM bool :=
  let! ok := verify_totp username code in
  if negb ok then
    record_failure (user_key username) ;!
    let! remaining := locked_out (user_key username) in
    match nonzero remaining with
    | Some _ => drop_sessions username ;! ret false
    | None => ret false
    end
  else ret true.

(** [authorise_write] up to the consumption of the code. *)
Definition admit_write (username code action : string) (requires_owner : bool) : SM bool :=
  let! user := reload_user username in
  match user with
  | None => audit (EvDenied username "role_not_permitted") ;! ret false
  | Some u =>
      if negb (can_write u) then audit (EvDenied username "role_not_permitted") ;! ret false
      else if requires_owner && negb (can_change_risk u) then audit (EvDenied username "owner_required") ;! ret false
      else
        let! allowed := check_rate (write_key username) (sf_write_rate_per_minute cfg) in
        if negb allowed then audit (EvDenied username "rate_limited") ;! ret false
        else
          let! remaining := locked_out (user_key username) in
          match nonzero remaining with
          | Some _ => audit (EvDenied username "locked_out") ;! ret false
          | None => second_factor username code
          end
  end.

(** The rest of it, for the session [token_id] of the user. *)
Definition commit_write (token_id username code action : string) : SM unit :=
  consume_totp username code ;!
  modify (set_sessions (fun d => match dict_get token_id d with
                                 | Some se => dict_set token_id (session_wrote se) d | None => d end)) ;!
  audit (EvWrite action username).

(** [authorise_write]. *)
Definition authorise_write (token_id username code action : string) (requires_owner : bool) : SM bool :=
  let! ok := admit_write username code action requires_owner in
  if negb ok then ret false else commit_write token_id username code action ;! ret true.

(** ** Its clients *)

(** The calls of the routes and of the command line, a change of the database by
    another process, and the two halves of a write when two requests overlap. *)
Inductive SecCall :=
| CallLogin (username password user_agent client_ip : string)
| CallVerify (token user_agent client_ip : string)
| CallLogout (token_id : string)
| CallPurge
| CallAdmit (username code action : string) (requires_owner : bool)
| CallCommit (token_id username code action : string)
| CallWrite (token_id username code action : string) (requires_owner : bool)
| CallRate (key : string) (per_minute : Z)
| CallAddUser (username password role : string) (totp_secret : option string)
| CallSetPassword (username password : string)
| CallSetRole (username role : string)
| CallSetDisabled (username : string) (disabled : bool)
| CallDeleteUser (username : string)
| CallRotateTotp (username : string)
| CallOwners (excluding : string)
| CallExternal (rows : Rows).

Inductive SecAnswer := AnsNothing | AnsToken (t : option string) | AnsSession (s : option Session) | AnsBool (b : bool).

Definition answer {A} (f : A -> SecAnswer) (c : SM A) : SM SecAnswer := let! a := c in ret (f a).

Definition run_sec (c : SecCall) : SM SecAnswer :=
  match c with
  | CallLogin u p ua ip => answer AnsToken (login u p ua ip)
  | CallVerify t ua ip => answer AnsSession (verify_token t ua ip)
  | CallLogout t => answer AnsBool (logout t)
  | CallPurge => answer (fun _ => AnsNothing) purge_expired
  | CallAdmit u code a o => answer AnsBool (admit_write u code a o)
  | CallCommit t u code a => answer (fun _ => AnsNothing) (commit_write t u code a)
  | CallWrite t u code a o => answer AnsBool (authorise_write t u code a o)
  | CallRate k n => answer AnsBool (check_rate k n)
  | CallAddUser u p r t => answer (fun _ => AnsNothing) (add_user u p r t)
  | CallSetPassword u p => answer AnsBool (set_password u p)
  | CallSetRole u r => answer AnsBool (set_role u r)
  | CallSetDisabled u d => answer AnsBool (set_disabled u d)
  | CallDeleteUser u => answer AnsBool (delete_user u)
  | CallRotateTotp u => answer AnsBool (rotate_totp u)
  | CallOwners e => answer (fun _ => AnsNothing) (enabled_owners e)
  | CallExternal rows => modify (set_store (Some rows)) ;! ret AnsNothing
  end.

(** [SecurityManager.__init__]: the accounts of the store, no session. *)
Definition new_security (w : W) (store : option Rows) : Sec W :=
  mkSec w store (default [] store) [] [] [] [] [] [] [] [].
End Manager.
