(* ===== verification/SecurityInv.v ===== *)
(** What the operations of [Security] leave alone.  [HostLaws] says that the
    monotonic clock does not go back; [still] that the lockouts, the used codes,
    the rate windows and the refused codes are as before; [guards] that a lockout
    that is armed stays until it expires. *)

From Stdlib Require Import ZArith Lia Ascii String.
From stdpp Require Import base strings list.
From S2P Require Import Prelude PyText StateExn PyDict PyJson Security.

Local Open Scope py_scope.

#[export] Instance SecEvent_eq_dec : EqDecision SecEvent.
Proof. solve_decision. Defined.

(** [clock w] is a time the monotonic clock has reached. *)
Class HostLaws (W : Type) `{!Host W} := {
  clock : W -> Z;
  clock_monotonic w : (clock w <= (h_monotonic w).2 <= clock (h_monotonic w).1)%Z;
  clock_wall w : (clock w <= clock (h_wall w).1)%Z;
  clock_sqlite w : (clock w <= clock (h_sqlite_fails w).1)%Z;
  clock_token w : (clock w <= clock (h_token w).1)%Z;
  clock_secret w : (clock w <= clock (h_random_secret w).1)%Z;
  clock_hash p w : (clock w <= clock (h_hash p w).1)%Z;
  clock_totp secret code w : (clock w <= clock (h_totp_verify secret code w).1)%Z;
  clock_jwt t w : (clock w <= clock (h_jwt_decode t w).1)%Z
}.

(** ** Lists *)

Lemma keep_largest_all {A} (key : A -> Z) n xs : length xs <= n -> keep_largest key n xs = xs.
Proof. intros H. unfold keep_largest. now rewrite (proj2 (Nat.leb_le _ _) H). Qed.

Lemma filter_length_le {A} (f : A -> bool) xs : length (List.filter f xs) <= length xs.
Proof. induction xs as [|x xs IH]; cbn; [lia|]. destruct (f x); cbn; lia. Qed.

Lemma dict_get_filter {A} (f : string * A -> bool) k (v : A) d :
  dict_get k d = Some v -> f (k, v) = true -> dict_get k (List.filter f d) = Some v.
Proof.
  induction d as [|[k' v'] d IH]; cbn [dict_get List.filter]; [discriminate|].
  case_bool_decide as E.
  - subst k'. intros [= ->] Hf. rewrite Hf. cbn [dict_get]. now rewrite bool_decide_eq_true_2.
  - intros Hg Hf. destruct (f (k', v')); cbn [dict_get]; [rewrite bool_decide_eq_false_2 by exact E|]; now apply IH.
Qed.

Lemma pair_in_spec {A} k (d : list ((string * string) * A)) : pair_in k d = true <-> exists v, (k, v) ∈ d.
Proof.
  unfold pair_in. rewrite existsb_exists. split.
  - intros ([k' v] & Hin & E%bool_decide_eq_true). cbn in E. subst. exists v. now apply list_elem_of_In.
  - intros [v Hin]. exists (k, v). split; [now apply list_elem_of_In|]. now apply bool_decide_eq_true.
Qed.

(** The last entry written for a pair is there, and the others stay. *)
Lemma pair_set_new k v d : (k, v) ∈ pair_set k v d.
Proof.
  induction d as [|[k' v'] d IH]; cbn [pair_set]; [now left|]. case_bool_decide as E; [subst; now left|now right].
Qed.

Lemma pair_set_old k v k' v' d : (k', v') ∈ d -> k' <> k -> (k', v') ∈ pair_set k v d.
Proof.
  induction d as [|[k0 v0] d IH]; cbn [pair_set]; [now intros ?%not_elem_of_nil|].
  rewrite elem_of_cons. intros [[= -> ->]|Hin] Hne; case_bool_decide as E; subst; try congruence;
    rewrite elem_of_cons; auto.
Qed.

Section Manager.
Context {W : Type} `{!Host W} `{!HostLaws W}.
Variable cfg : SecConfig.
Implicit Types s : Sec W.

Definition now_of s : Z := clock (sc_world s).
Definition later s s' : Prop := (now_of s <= now_of s')%Z.
#[export] Instance later_preorder : PreOrder later.
Proof. split; [intros s; unfold later; lia|intros a b c; unfold later; lia]. Qed.

(** The refused codes of a user, in the journal. *)
Definition refused_codes (u : string) s : nat :=
  length (List.filter (fun e => bool_decide (e = EvDenied u "totp_invalid")) (sc_log s)).

(** Nothing but the clock, the accounts, the sessions and the failures moved. *)
Record still s s' : Prop := mkStill {
  st_later : later s s';
  st_lockouts : sc_lockouts s' = sc_lockouts s;
  st_used : sc_used_totp s' = sc_used_totp s;
  st_rate : sc_rate s' = sc_rate s;
  st_granted : sc_granted s' = sc_granted s;
  st_refused u : refused_codes u s' = refused_codes u s
}.
#[export] Instance still_preorder : PreOrder still.
Proof.
  split; [intros s; split; [apply Z.le_refl|reflexivity..]|].
  intros a b c [? ? ? ? ? Hab] [? ? ? ? ? Hbc]. split; [now transitivity b|congruence..|].
  intros u. now rewrite Hbc.
Qed.

Lemma host_later {A} (op : W -> W * A) : (forall w, (clock w <= clock (op w).1)%Z) -> Steps still (host op).
Proof.
  intros H s. unfold host. specialize (H (sc_world s)). destruct (op (sc_world s)) as [w a]. cbn in *.
  split; [exact H|reflexivity..].
Qed.

Lemma still_modify (f : Sec W -> Sec W) :
  (forall s, sc_world (f s) = sc_world s /\ sc_lockouts (f s) = sc_lockouts s /\ sc_used_totp (f s) = sc_used_totp s
             /\ sc_rate (f s) = sc_rate s /\ sc_granted (f s) = sc_granted s /\ sc_log (f s) = sc_log s) ->
  Steps still (modify f).
Proof.
  intros H s. destruct (H s) as (E1 & E2 & E3 & E4 & E5 & E6). cbn.
  split; auto; [unfold later, now_of; rewrite E1; lia|]. intros u. unfold refused_codes. now rewrite E6.
Qed.

Lemma still_audit e : (forall u, e <> EvDenied u "totp_invalid") -> Steps still (audit (W := W) e).
Proof.
  intros He s. split; [apply Z.le_refl|reflexivity..|]. intros u. change (refused_codes u (add_log e s) = refused_codes u s).
  unfold refused_codes, add_log. cbn [sc_log].
  rewrite List.filter_app, length_app. cbn [List.filter]. rewrite bool_decide_eq_false_2 by apply He. cbn. lia.
Qed.

Lemma still_monotonic : Steps still (monotonic (W := W)).
Proof. apply host_later. intros w. pose proof (clock_monotonic w). lia. Qed.

Ltac still_leaf :=
  lazymatch goal with
  | |- Steps _ monotonic => apply still_monotonic
  | |- Steps _ (host _) =>
      apply host_later; intros ?; first [apply clock_wall|apply clock_sqlite|apply clock_token|apply clock_secret
                                        |apply clock_hash|apply clock_totp|apply clock_jwt]
  | |- Steps _ (audit _) => apply still_audit; congruence
  | |- Steps _ (modify _) => apply still_modify; intros ?; repeat split
  | |- _ => solve [eauto]
  end.
Ltac still := steps; still_leaf.

Lemma still_persist u : Steps still (persist (W := W) u).
Proof. unfold persist, store_upsert, statement. still. Qed.
Lemma still_all_accounts : Steps still (all_accounts (W := W)).
Proof. unfold all_accounts, store_load, statement. still. Qed.
Lemma still_reload u : Steps still (reload_user (W := W) u).
Proof. unfold reload_user, store_get, statement. still. Qed.
#[local] Hint Resolve still_persist still_all_accounts still_reload : core.
Lemma still_last_owner u : Steps still (last_owner_problem (W := W) u).
Proof. unfold last_owner_problem. still. Qed.
#[local] Hint Resolve still_last_owner : core.

Lemma still_check_session t ua ip : Steps still (check_session (W := W) t ua ip).
Proof. unfold check_session, get_session, pop_session, wall_ns. still. Qed.

(** The calls that are still. *)
Definition is_still (c : SecCall) : bool :=
  match c with
  | CallVerify _ _ _ | CallLogout _ | CallPurge | CallAddUser _ _ _ _ | CallSetPassword _ _ | CallSetRole _ _
  | CallSetDisabled _ _ | CallDeleteUser _ | CallOwners _ | CallExternal _ => true
  | _ => false
  end.

Lemma run_still c : is_still c = true -> Steps still (run_sec (W := W) cfg c).
Proof.
  destruct c; try discriminate; intros _; unfold run_sec, answer.
  - unfold verify_token. steps; first [apply still_check_session|still_leaf].
  - unfold logout, get_session, pop_session. still.
  - unfold purge_expired, wall_ns. still.
  - unfold add_user, wall_ns, put_user. still.
  - unfold set_password, put_user. still.
  - unfold set_role, put_user. still.
  - unfold set_disabled, put_user, drop_sessions. still.
  - unfold delete_user, drop_sessions, store_delete, statement. still.
  - unfold enabled_owners. still.
  - still.
Qed.

(** ** Every call moves the clock forward *)

Lemma still_is_later {A} (c : SM (W := W) A) : Steps still c -> Steps later c.
Proof. intros H s. apply H. Qed.

Lemma later_modify (f : Sec W -> Sec W) : (forall s, sc_world (f s) = sc_world s) -> Steps later (modify f).
Proof. intros H s. cbn. unfold later, now_of. rewrite H. lia. Qed.

Ltac later_leaf :=
  lazymatch goal with
  | |- Steps _ (modify _) => apply later_modify; reflexivity
  | |- _ => first [solve [eauto]|apply still_is_later; still_leaf]
  end.
Ltac laters := steps; later_leaf.

Lemma later_locked_out k : Steps later (locked_out (W := W) k).
Proof. unfold locked_out. laters. Qed.
Lemma later_record_failure k : Steps later (record_failure (W := W) cfg k).
Proof. unfold record_failure. laters. Qed.
Lemma later_prune : Steps later (prune_tracking (W := W) cfg).
Proof. unfold prune_tracking, wall_ns. laters. Qed.
Lemma later_check_rate k n : Steps later (check_rate (W := W) k n).
Proof. unfold check_rate. laters. Qed.
Lemma later_verify_totp u code : Steps later (verify_totp (W := W) u code).
Proof. unfold verify_totp, audit. laters. Qed.
#[local] Hint Resolve later_locked_out later_record_failure later_prune later_check_rate later_verify_totp : core.

Lemma later_first_lock ks : Steps later (first_lock (W := W) ks).
Proof. induction ks as [|k ks IH]; cbn [first_lock]; laters. Qed.
#[local] Hint Resolve later_first_lock : core.

Lemma later_try_login u p ua ip : Steps later (try_login (W := W) cfg u p ua ip).
Proof. unfold try_login, wall_ns, audit. cbn [each]. laters. Qed.
Lemma later_second_factor u code : Steps later (second_factor (W := W) cfg u code).
Proof. unfold second_factor, drop_sessions. laters. Qed.
#[local] Hint Resolve later_try_login later_second_factor : core.
Lemma later_admit u code a o : Steps later (admit_write (W := W) cfg u code a o).
Proof. unfold admit_write, drop_sessions. laters. Qed.
Lemma later_commit t u code a : Steps later (commit_write (W := W) t u code a).
Proof. unfold commit_write, consume_totp, audit. laters. Qed.
#[local] Hint Resolve later_admit later_commit : core.

Lemma run_later c : Steps later (run_sec (W := W) cfg c).
Proof.
  destruct (is_still c) eqn:E; [now apply still_is_later, run_still|].
  destruct c; try discriminate; unfold run_sec, answer.
  - unfold login, wall_ns, audit. laters.
  - laters.
  - laters.
  - unfold authorise_write. laters.
  - laters.
  - unfold rotate_totp, put_user, drop_sessions. laters.
Qed.

Lemma Raises_host {A} P (op : W -> W * A) : Raises P (host op).
Proof. intros s e. unfold host. now destruct (op (sc_world s)). Qed.

Lemma wp_host {A} (op : W -> W * A) Q (E : exn -> Sec W -> Prop) s :
  (forall w a, op (sc_world s) = (w, a) -> Q a (set_world w s)) -> wp (host op) Q E s.
Proof. intros H. unfold wp, host. specialize (H _ _ (surjective_pairing _)). now destruct (op (sc_world s)). Qed.

(** The operations of the login path do not raise. *)
Definition silent_fail (_ : exn) : Prop := False.
Ltac no_raise := repeat first [apply Raises_host|raises_step|solve [eauto]].
Lemma total_locked_out k : Raises silent_fail (locked_out (W := W) k).
Proof. unfold locked_out, monotonic. no_raise. Qed.
Lemma total_record_failure k : Raises silent_fail (record_failure (W := W) cfg k).
Proof. unfold record_failure, monotonic. no_raise. Qed.
Lemma total_reload u : Raises silent_fail (reload_user (W := W) u).
Proof. unfold reload_user. no_raise. Qed.
#[local] Hint Resolve total_locked_out total_record_failure total_reload : core.
Lemma total_first_lock ks : Raises silent_fail (first_lock (W := W) ks).
Proof. induction ks as [|k ks IH]; cbn [first_lock]; no_raise. Qed.

Lemma total_try_login u p ua ip : Raises silent_fail (try_login (W := W) cfg u p ua ip).
Proof. unfold try_login, wall_ns, audit. cbn [each]. no_raise. Qed.
Lemma total_verify_totp u code : Raises silent_fail (verify_totp (W := W) u code).
Proof. unfold verify_totp, audit. no_raise. Qed.
#[local] Hint Resolve total_verify_totp : core.
Lemma total_second_factor u code : Raises silent_fail (second_factor (W := W) cfg u code).
Proof. unfold second_factor, drop_sessions. no_raise. Qed.
Lemma total_check_rate k n : Raises silent_fail (check_rate (W := W) k n).
Proof. unfold check_rate, monotonic. no_raise. Qed.

Lemma total_commit t u code a : Raises silent_fail (commit_write (W := W) t u code a).
Proof. unfold commit_write, consume_totp, monotonic, audit. no_raise. Qed.

(** A step that keeps [I] and does not raise. *)
Lemma keep_step {A} (I : Sec W -> Prop) (c : SM (W := W) A) s :
  Steps (keeps I) c -> Raises silent_fail c -> I s -> wp c (fun _ => I) (fun _ _ => False) s.
Proof.
  intros Hc Hr Hs. specialize (Hc s Hs). specialize (Hr s). unfold wp. destruct (c s) as [s' [a|e]]; [exact Hc|].
  exact (Hr e eq_refl).
Qed.

Lemma wp_answer {A} (f : A -> SecAnswer) (c : SM A) Q (E : exn -> Sec W -> Prop) s :
  wp c (fun a s' => Q (f a) s') E s -> wp (answer f c) Q E s.
Proof. intros H. unfold answer. apply wp_bind. eapply wp_mono; [exact H|auto|auto]. Qed.

Definition prune_horizon : Z := (Z.max (lockout_ns cfg) (60 * SEC) * 4)%Z.
Lemma prune_horizon_nonneg : (240 * SEC <= prune_horizon)%Z.
Proof. unfold prune_horizon, SEC. lia. Qed.

Lemma prune_run s : exists w t wall, (now_of s <= t <= clock w)%Z /\
  prune_tracking cfg s =
    (mkSec w (sc_store s) (sc_users s) (List.filter (fun e => negb (se_expires_ns e.2 <? wall)%Z) (sc_sessions s))
       (prune_times t prune_horizon (sc_failures s)) (prune_lockouts t prune_horizon (sc_lockouts s))
       (prune_strikes t prune_horizon (sc_lockouts s) (sc_strikes s))
       (List.filter (fun e => negb (e.2 <? t - TOTP_REPLAY_TTL)%Z) (sc_used_totp s))
       (prune_times t prune_horizon (sc_rate s)) (sc_log s) (sc_granted s), Ok tt).
Proof.
  unfold prune_tracking, mbind_, monotonic, wall_ns, host, gets, modify. cbn [sc_world].
  pose proof (clock_monotonic (sc_world s)) as [H1 H2]. destruct (h_monotonic (sc_world s)) as [w t].
  cbn [fst snd] in H1, H2. cbn. pose proof (clock_wall w) as H3. destruct (h_wall w) as [w' wall].
  exists w', t, wall. split; [unfold now_of; cbn in H3; lia|reflexivity].
Qed.

(** ** A lockout that is armed *)

(** The calls a locked key refuses: a login of the user or from the address, a
    write of the user. *)
Definition targets (key : string) (c : SecCall) : bool :=
  match c with
  | CallLogin u _ _ ip => bool_decide (key ∈ [user_key u; ip_key ip])
  | CallAdmit u _ _ _ | CallWrite _ u _ _ _ => bool_decide (key = user_key u)
  | _ => false
  end.

Section Lock.
Variables (key : string) (until : Z).

Definition locked s : Prop := dict_get key (sc_lockouts s) = Some until.

(** The lockout is still armed after, unless it has expired. *)
Definition guards s s' : Prop := later s s' /\ (locked s -> (now_of s' < until)%Z -> locked s').
#[export] Instance guards_preorder : PreOrder guards.
Proof.
  split; [intros s; split; [apply Z.le_refl|auto]|].
  intros a b c [H1 K1] [H2 K2]. split; [now transitivity b|]. unfold later in *. intros Ha Hc.
  apply K2; [apply K1; [exact Ha|lia]|exact Hc].
Qed.

Lemma guards_same {A} (c : SM (W := W) A) :
  Steps later c -> (forall s, sc_lockouts (c s).1 = sc_lockouts s) -> Steps guards c.
Proof. intros Hl He s. split; [apply Hl|]. unfold locked. now rewrite He. Qed.

Lemma still_guards {A} (c : SM (W := W) A) : Steps still c -> Steps guards c.
Proof. intros H. apply guards_same; [now apply still_is_later|]. intros s. apply H. Qed.

Lemma guards_monotonic (k : Z -> SM (W := W) unit) :
  (forall t s, (t <= now_of s)%Z -> guards s (k t s).1) -> Steps guards (let! t := monotonic in k t).
Proof.
  intros Hk s. unfold mbind_, monotonic, host. pose proof (clock_monotonic (sc_world s)) as [H1 H2].
  destruct (h_monotonic (sc_world s)) as [w t]. cbn in *. set (s1 := set_world w s).
  transitivity s1; [|now apply Hk]. split; [|auto]. unfold later, now_of. cbn. lia.
Qed.

Lemma guards_locked_out k : Steps guards (locked_out (W := W) k).
Proof.
  unfold locked_out. intros s. unfold mbind_ at 1. cbn [gets].
  destruct (dict_get k (sc_lockouts s)) as [u|] eqn:E; [|cbn; reflexivity].
  destruct (u =? 0)%Z eqn:E0; [cbn; reflexivity|].
  unfold mbind_ at 1, monotonic at 1, host. pose proof (clock_monotonic (sc_world s)) as [H1 H2].
  destruct (h_monotonic (sc_world s)) as [w t]. cbn in H1, H2. set (s1 := set_world w s).
  assert (G1 : guards s s1) by (split; [unfold later, now_of; cbn; lia|auto]).
  destruct (t <? u)%Z eqn:Et.
  - transitivity s1; [exact G1|]. apply still_guards. still.
  - transitivity s1; [exact G1|]. cbn. split; [apply Z.le_refl|]. unfold locked. cbn. intros Hk Hn.
    destruct (decide (key = k)) as [->|Hne]; [|now rewrite dict_get_del_ne].
    exfalso. rewrite E in Hk. injection Hk as ->. apply Z.ltb_ge in Et. unfold now_of in Hn. cbn in Hn. lia.
Qed.

Lemma guards_modify (f : Sec W -> Sec W) :
  (forall s, sc_world (f s) = sc_world s) ->
  (forall s, dict_get key (sc_lockouts (f s)) = dict_get key (sc_lockouts s)) -> Steps guards (modify f).
Proof. intros Hw Hl s. cbn. split; [unfold later, now_of; rewrite Hw; lia|]. unfold locked. now rewrite Hl. Qed.

Ltac guard_leaf :=
  lazymatch goal with
  | |- Steps _ (modify _) => apply guards_modify; intros ?; reflexivity
  | |- Steps _ (host _) => apply still_guards; still_leaf
  | |- Steps _ monotonic => apply still_guards; still_leaf
  | |- _ => first [solve [eauto]|apply still_guards; solve [eauto]]
  end.

Lemma guards_record_failure k : k <> key -> Steps guards (record_failure (W := W) cfg k).
Proof.
  intros Hk. unfold record_failure. steps; try guard_leaf.
  apply guards_modify; [reflexivity|]. intros s. cbn. rewrite dict_get_set. now rewrite bool_decide_eq_false_2 by congruence.
Qed.

Lemma guards_check_rate k n : Steps guards (check_rate (W := W) k n).
Proof. unfold check_rate. steps; guard_leaf. Qed.
Lemma guards_audit e : Steps guards (audit (W := W) e).
Proof. apply guards_modify; reflexivity. Qed.
Lemma guards_drop u : Steps guards (drop_sessions (W := W) u).
Proof. apply guards_modify; reflexivity. Qed.
#[local] Hint Resolve guards_locked_out guards_record_failure guards_check_rate guards_audit guards_drop : core.
Lemma guards_verify_totp u code : Steps guards (verify_totp (W := W) u code).
Proof. unfold verify_totp. steps; guard_leaf. Qed.
Lemma guards_commit t u code a : Steps guards (commit_write (W := W) t u code a).
Proof. unfold commit_write, consume_totp. steps; guard_leaf. Qed.
#[local] Hint Resolve guards_verify_totp guards_commit : core.

(** Forgetting old keys leaves it, while the table is within its cap. *)
Lemma guards_prune s : length (sc_lockouts s) <= MAX_TRACKED_KEYS -> guards s (prune_tracking (W := W) cfg s).1.
Proof.
  intros Hc. destruct (prune_run s) as (w & t & wall & Ht & ->). split; [unfold later, now_of in *; cbn; lia|].
  unfold locked, now_of. cbn [fst sc_lockouts sc_world]. intros Hk Hn.
  unfold prune_lockouts. rewrite keep_largest_all by (etransitivity; [apply filter_length_le|exact Hc]).
  apply dict_get_filter; [exact Hk|]. cbn [snd]. apply negb_true_iff, Z.ltb_ge.
  pose proof prune_horizon_nonneg as Hz. unfold SEC in Hz. lia.
Qed.
Lemma guards_first_lock ks : Steps guards (first_lock (W := W) ks).
Proof. induction ks as [|k ks IH]; cbn [first_lock]; steps; guard_leaf. Qed.

Lemma guards_reload u : Steps guards (reload_user (W := W) u).
Proof. apply still_guards, still_reload. Qed.
#[local] Hint Resolve guards_first_lock guards_reload : core.

Lemma guards_try_login u p ua ip :
  key <> user_key u -> key <> ip_key ip -> Steps guards (try_login (W := W) cfg u p ua ip).
Proof. intros Hu Hi. unfold try_login, wall_ns. cbn [each]. steps; guard_leaf. Qed.
Lemma guards_second_factor u code : key <> user_key u -> Steps guards (second_factor (W := W) cfg u code).
Proof. intros Hu. unfold second_factor. steps; guard_leaf. Qed.
#[local] Hint Resolve guards_try_login guards_second_factor : core.

(** A login that is not for the locked key, and a write of another user. *)
Lemma guards_login u p ua ip s :
  key <> user_key u -> key <> ip_key ip -> length (sc_lockouts s) <= MAX_TRACKED_KEYS ->
  guards s (login (W := W) cfg u p ua ip s).1.
Proof.
  intros Hu Hi Hf. pose proof (guards_prune s Hf) as Hp. unfold login. unfold mbind_ at 1.
  destruct (prune_tracking cfg s) as [s1 [[]|e]]; cbn [fst] in Hp; [|exact Hp]. transitivity s1; [exact Hp|].
  match goal with |- guards s1 (?c s1).1 => enough (H : Steps guards c) by apply H end.
  steps; guard_leaf.
Qed.

Lemma guards_admit u code a o : key <> user_key u -> Steps guards (admit_write (W := W) cfg u code a o).
Proof. intros Hu. unfold admit_write. steps; guard_leaf. Qed.

Lemma guards_rotate u : Steps guards (rotate_totp (W := W) u).
Proof. unfold rotate_totp, put_user. steps; guard_leaf. Qed.
#[local] Hint Resolve guards_admit guards_rotate : core.

(** Nor does any call that is not for the locked key disturb it. *)
Lemma guards_run c s :
  targets key c = false -> length (sc_lockouts s) <= MAX_TRACKED_KEYS -> guards s (run_sec (W := W) cfg c s).1.
Proof.
  intros Ht Hf. destruct (is_still c) eqn:E; [now apply still_guards, run_still|].
  destruct c; try discriminate; cbn [targets] in Ht; try apply bool_decide_eq_false in Ht; unfold run_sec, answer.
  - unfold mbind_ at 1. assert (Hu : key <> user_key username) by (intros ->; apply Ht; left).
    assert (Hi : key <> ip_key client_ip) by (intros ->; apply Ht; right; left).
    pose proof (guards_login _ password user_agent _ s Hu Hi Hf) as Hg.
    now destruct (login cfg username password user_agent client_ip s) as [s' [r|e]].
  - revert s Hf. intros s _. revert s. change (Steps guards (let! a := admit_write cfg username code action requires_owner in ret (AnsBool a))).
    steps; guard_leaf.
  - apply (Steps_bind guards); [guard_leaf|intros; apply (Steps_ret guards)].
  - unfold authorise_write. match goal with |- guards _ (?c s).1 => enough (HS : Steps guards c) by apply HS end.
    steps; guard_leaf.
  - apply (Steps_bind guards); [guard_leaf|intros; apply (Steps_ret guards)].
  - apply (Steps_bind guards); [guard_leaf|intros; apply (Steps_ret guards)].
Qed.

Lemma locked_out_locked s :
  until <> 0%Z -> locked s -> (now_of (locked_out (W := W) key s).1 < until)%Z ->
  exists r, (locked_out key s).2 = Ok (Some r) /\ nonzero (Some r) = Some r.
Proof.
  intros Hz Hk. unfold locked_out, mbind_, gets. rewrite Hk. destruct (until =? 0)%Z eqn:E0; [now apply Z.eqb_eq in E0|].
  unfold monotonic, host, modify, ret. pose proof (clock_monotonic (sc_world s)) as [H1 H2].
  destruct (h_monotonic (sc_world s)) as [w t]. cbn in H1, H2 |- *. unfold now_of. destruct (t <? until)%Z eqn:Et; cbn.
  - pose proof (clock_monotonic w) as [H3 H4]. destruct (h_monotonic w) as [w' t']. cbn in *. intros Hn.
    exists (until - t')%Z. split; [reflexivity|]. cbn. replace (until - t' =? 0)%Z with false; [reflexivity|].
    symmetry. apply Z.eqb_neq. lia.
  - apply Z.ltb_ge in Et. lia.
Qed.

Lemma first_lock_locked ks : forall s,
  until <> 0%Z -> key ∈ ks -> locked s -> (now_of (first_lock (W := W) ks s).1 < until)%Z ->
  exists r, (first_lock ks s).2 = Ok (Some r).
Proof.
  induction ks as [|k ks IH]; intros s Hz Hin Hk; [now apply not_elem_of_nil in Hin|].
  cbn [first_lock]. unfold mbind_. pose proof (guards_locked_out k s) as [Hl Hg].
  destruct (decide (key = k)) as [<-|Hne].
  - pose proof (locked_out_locked s Hz Hk) as HL. destruct (locked_out key s) as [s1 [r|e]] eqn:E; cbn [fst snd] in *.
    + destruct (nonzero r) as [x|] eqn:En.
      * intros _. eauto.
      * intros Hn. exfalso. assert (H1 : (now_of s1 < until)%Z) by (pose proof (later_first_lock ks s1); unfold later in *; lia).
        destruct (HL H1) as (x & [= ->] & Hx). congruence.
    + intros Hn. now destruct (HL Hn) as (x & [=] & _).
  - apply elem_of_cons in Hin as [?|Hin]; [congruence|].
    destruct (locked_out k s) as [s1 [r|e]] eqn:E; cbn [fst snd] in *.
    + destruct (nonzero r) as [x|]; [intros _; eauto|]. intros Hn. apply IH; auto. apply Hg; [exact Hk|].
      pose proof (later_first_lock ks s1). unfold later in *. lia.
    + exfalso. apply (total_locked_out k s e). now rewrite E.
Qed.
End Lock.

(** ** A code that was used *)

Section Used.
Variables (user code : string) (since : Z).

(** The code is among those used since [since], for as long as they are kept. *)
Definition spent s : Prop :=
  (since <= now_of s)%Z /\
  ((now_of s <= since + TOTP_REPLAY_TTL)%Z -> exists v, (since <= v)%Z /\ ((user, code), v) ∈ sc_used_totp s).

Lemma spent_later s s' : later s s' -> sc_used_totp s' = sc_used_totp s -> keeps spent s s'.
Proof.
  unfold later. intros Hl E [H1 H2]. split; [lia|]. intros Hn. rewrite E. apply H2. lia.
Qed.

Lemma still_spent {A} (c : SM (W := W) A) : Steps still c -> Steps (keeps spent) c.
Proof. intros H s. apply spent_later; apply H. Qed.

Lemma spent_modify (f : Sec W -> Sec W) :
  (forall s, sc_world (f s) = sc_world s) -> (forall s, sc_used_totp (f s) = sc_used_totp s) ->
  Steps (keeps spent) (modify f).
Proof. intros Hw Hu s. apply spent_later; cbn; [unfold later, now_of; rewrite Hw; lia|apply Hu]. Qed.

Ltac spent_leaf :=
  lazymatch goal with
  | |- Steps _ (modify _) => apply spent_modify; intros ?; reflexivity
  | |- Steps _ (host _) => apply still_spent; still_leaf
  | |- Steps _ monotonic => apply still_spent; still_leaf
  | |- _ => first [solve [eauto]|apply still_spent; solve [eauto]]
  end.

Lemma spent_audit e : Steps (keeps spent) (audit (W := W) e).
Proof. now apply spent_modify. Qed.
Lemma spent_locked_out k : Steps (keeps spent) (locked_out (W := W) k).
Proof. unfold locked_out. steps; spent_leaf. Qed.
Lemma spent_record_failure k : Steps (keeps spent) (record_failure (W := W) cfg k).
Proof. unfold record_failure. steps; spent_leaf. Qed.
Lemma spent_check_rate k n : Steps (keeps spent) (check_rate (W := W) k n).
Proof. unfold check_rate. steps; spent_leaf. Qed.
Lemma spent_drop u : Steps (keeps spent) (drop_sessions (W := W) u).
Proof. now apply spent_modify. Qed.
Lemma spent_reload u : Steps (keeps spent) (reload_user (W := W) u).
Proof. apply still_spent, still_reload. Qed.
#[local] Hint Resolve spent_audit spent_locked_out spent_record_failure spent_check_rate spent_drop spent_reload : core.
Lemma spent_verify_totp u c : Steps (keeps spent) (verify_totp (W := W) u c).
Proof. unfold verify_totp. steps; spent_leaf. Qed.
Lemma spent_first_lock ks : Steps (keeps spent) (first_lock (W := W) ks).
Proof. induction ks as [|k ks IH]; cbn [first_lock]; steps; spent_leaf. Qed.
Lemma spent_try_login u p ua ip : Steps (keeps spent) (try_login (W := W) cfg u p ua ip).
Proof. unfold try_login, wall_ns. cbn [each]. steps; spent_leaf. Qed.
#[local] Hint Resolve spent_verify_totp spent_first_lock spent_try_login : core.
Lemma spent_second_factor u c : Steps (keeps spent) (second_factor (W := W) cfg u c).
Proof. unfold second_factor. steps; spent_leaf. Qed.
#[local] Hint Resolve spent_second_factor : core.
Lemma spent_admit u c a o : Steps (keeps spent) (admit_write (W := W) cfg u c a o).
Proof. unfold admit_write. steps; spent_leaf. Qed.

(** The codes forgotten are older than the interval, *)
Lemma spent_prune : Steps (keeps spent) (prune_tracking (W := W) cfg).
Proof.
  intros s [H1 H2]. destruct (prune_run s) as (w & t & wall & Ht & ->). unfold spent, now_of. cbn [fst sc_world sc_used_totp].
  split; [lia|]. intros Hn. unfold now_of in *. destruct H2 as (v & Hv & Hin); [lia|]. exists v. split; [exact Hv|].
  apply list_elem_of_In, List.filter_In. split; [now apply list_elem_of_In|]. apply negb_true_iff, Z.ltb_ge. cbn [snd]. lia.
Qed.

(** using a code, this one or another, notes the time, *)
Lemma spent_consume u c : Steps (keeps spent) (consume_totp (W := W) u c).
Proof.
  intros s [H1 H2]. unfold consume_totp, mbind_, monotonic, host, modify.
  pose proof (clock_monotonic (sc_world s)) as [Ha Hb]. destruct (h_monotonic (sc_world s)) as [w t]. cbn in Ha, Hb.
  unfold spent, now_of in *. cbn. split; [lia|]. intros Hn.
  destruct (decide ((user, code) = (u, plain_code c))) as [->|Hne].
  - exists t. split; [lia|]. apply pair_set_new.
  - destruct H2 as (v & Hv & Hin); [lia|]. exists v. split; [exact Hv|]. now apply pair_set_old.
Qed.

(** and a new secret makes those of its user void. *)
Lemma spent_forget u : user <> u ->
  Steps (keeps spent) (modify (set_used_totp (W := W) (List.filter (fun e => negb (bool_decide (e.1.1 = u)))))).
Proof.
  intros Hu s [H1 H2]. unfold spent, now_of in *. cbn. split; [exact H1|]. intros Hn.
  destruct (H2 Hn) as (v & Hv & Hin). exists v. split; [exact Hv|].
  apply list_elem_of_In, List.filter_In. split; [now apply list_elem_of_In|]. cbn. now rewrite bool_decide_eq_false_2.
Qed.
#[local] Hint Resolve spent_admit spent_prune spent_consume spent_forget : core.

Lemma spent_commit t u c a : Steps (keeps spent) (commit_write (W := W) t u c a).
Proof. unfold commit_write. steps; spent_leaf. Qed.
#[local] Hint Resolve spent_commit : core.

(** The calls that give the user a new secret. *)
Definition rotates (c : SecCall) : bool :=
  match c with CallRotateTotp u => bool_decide (user = u) | _ => false end.

Lemma spent_run c : rotates c = false -> Steps (keeps spent) (run_sec (W := W) cfg c).
Proof.
  intros Hr. destruct (is_still c) eqn:E; [now apply still_spent, run_still|].
  destruct c; try discriminate; cbn [rotates] in Hr; unfold run_sec, answer.
  - unfold login. steps; spent_leaf.
  - steps; spent_leaf.
  - steps; spent_leaf.
  - unfold authorise_write. steps; spent_leaf.
  - steps; spent_leaf.
  - apply bool_decide_eq_false in Hr. unfold rotate_totp, put_user.
    steps; lazymatch goal with |- Steps _ (modify (set_used_totp _)) => now apply spent_forget | _ => spent_leaf end.
Qed.

(** A spent code is refused. *)
Lemma verify_spent c s : pair_in (user, plain_code c) (sc_used_totp s) = true ->
  (verify_totp (W := W) user c s).2 = Ok false.
Proof.
  intros Hp. unfold verify_totp, mbind_, gets. destruct (dict_get user (sc_users s)) as [u|]; [|reflexivity].
  destruct (us_disabled u); [reflexivity|]. cbv zeta. destruct (_ || _); [reflexivity|]. now rewrite Hp.
Qed.

Lemma spent_refused c s : plain_code c = code -> spent s ->
  wp (second_factor cfg user c) (fun b s' => (now_of s' <= since + TOTP_REPLAY_TTL)%Z -> b = false) (fun _ _ => False) s.
Proof.
  intros Hc [_ Hs]. pose proof (later_second_factor user c s) as H2.
  pose proof (total_second_factor user c s) as H3. unfold later in H2. unfold wp.
  destruct (second_factor cfg user c s) as [s' [b|e]] eqn:Ef; cbn [fst snd] in *; [|exact (H3 e eq_refl)].
  intros Hn. destruct Hs as (v & _ & Hin); [lia|].
  pose proof (verify_spent c s) as Hv. rewrite Hc in Hv. specialize (Hv (proj2 (pair_in_spec _ _) (ex_intro _ v Hin))).
  unfold second_factor, mbind_ in Ef. destruct (verify_totp user c s) as [s1 [b1|e1]]; cbn in Hv; [|discriminate].
  injection Hv as ->. cbn [negb] in Ef. destruct (record_failure cfg (user_key user) s1) as [s2 [[]|e]]; [|discriminate].
  destruct (locked_out (user_key user) s2) as [s3 [r|e]]; [|discriminate].
  unfold drop_sessions, modify, ret in Ef. destruct (nonzero r); now injection Ef.
Qed.
End Used.
End Manager.
