(* ===== verification/SecurityRate.v ===== *)
(** How often the writes of [Security] let a code be tried: the times at which a
    key is granted a call are [sc_granted]; [paced] says that any sixty seconds
    hold at most the limit of them, because the window in the table still has
    those that count, and that the codes refused are no more than the grants. *)

From Stdlib Require Import ZArith Lia Ascii String.
From stdpp Require Import base strings list.
From S2P Require Import Prelude PyText StateExn PyDict PyJson Security SecurityInv.

Local Open Scope py_scope.

(** ** Times *)

Definition MINUTE : Z := 60 * SEC.

(** The times less than a minute before [t]. *)
Definition recent (t : Z) (xs : list Z) : list Z := List.filter (fun x => (t - x <? MINUTE)%Z) xs.
(** The times in the minute, or in the [m] minutes, that [from] starts. *)
Definition within_minutes (from m : Z) (xs : list Z) : list Z :=
  List.filter (fun x => (from <=? x)%Z && (x <? from + m * MINUTE)%Z) xs.

Lemma filter_filter_subset {A} (f g : A -> bool) xs : (forall x, f x = true -> g x = true) ->
  List.filter f (List.filter g xs) = List.filter f xs.
Proof.
  intros H. induction xs as [|x xs IH]; cbn; [reflexivity|]. destruct (g x) eqn:Eg; cbn; rewrite IH; [reflexivity|].
  destruct (f x) eqn:Ef; [|reflexivity]. specialize (H _ Ef). congruence.
Qed.

Lemma recent_recent t t' xs : (t <= t')%Z -> recent t' (recent t xs) = recent t' xs.
Proof. intros H. apply filter_filter_subset. intros x. rewrite !Z.ltb_lt. lia. Qed.

Lemma filter_sub_le {A} (f g : A -> bool) xs : (forall x, In x xs -> f x = true -> g x = true) ->
  length (List.filter f xs) <= length (List.filter g xs).
Proof.
  induction xs as [|x xs IH]; intros H; cbn; [lia|]. specialize (IH (fun y Hy => H y (or_intror Hy))).
  destruct (f x) eqn:Ef; [rewrite (H x (or_introl eq_refl) Ef); cbn; lia|]. destruct (g x); cbn; lia.
Qed.

Lemma filter_empty {A} (f : A -> bool) xs : (forall x, In x xs -> f x = false) -> List.filter f xs = [].
Proof.
  intros H. induction xs as [|x xs IH]; [reflexivity|]. cbn. rewrite (H x (or_introl eq_refl)). apply IH.
  intros y Hy. apply H. now right.
Qed.

Lemma filter_split {A} (f g h : A -> bool) xs : (forall x, In x xs -> f x = true -> g x = true \/ h x = true) ->
  length (List.filter f xs) <= length (List.filter g xs) + length (List.filter h xs).
Proof.
  induction xs as [|x xs IH]; intros H; cbn; [lia|]. specialize (IH (fun y Hy => H y (or_intror Hy))).
  destruct (f x) eqn:Ef; [destruct (H x (or_introl eq_refl) Ef) as [-> | ->]|]; repeat case_match; cbn; lia.
Qed.

(** [m] minutes hold [m] times what one can. *)
Lemma minutes_add n xs from : (forall T, length (within_minutes T 1 xs) <= n) ->
  forall m : nat, length (within_minutes from (Z.of_nat m) xs) <= m * n.
Proof.
  intros H. induction m as [|m IH].
  - unfold within_minutes. rewrite filter_empty; [cbn; lia|]. intros x _. destruct (from <=? x)%Z eqn:E; cbn; [|reflexivity].
    apply Z.ltb_ge. lia.
  - unfold within_minutes in *. specialize (H (from + Z.of_nat m * MINUTE)%Z).
    etransitivity; [apply (filter_split _ (fun x => (from <=? x)%Z && (x <? from + Z.of_nat m * MINUTE)%Z)
      (fun x => (from + Z.of_nat m * MINUTE <=? x)%Z && (x <? from + Z.of_nat m * MINUTE + 1 * MINUTE)%Z))|cbn; lia].
    intros x _. rewrite !andb_true_iff, !Z.leb_le, !Z.ltb_lt. unfold MINUTE, SEC. lia.
Qed.

Lemma latest_ge v : forall x, In x v -> (x <= latest v)%Z.
Proof.
  destruct v as [|y v]; [intros x []|]. cbn [latest].
  assert (H : forall v a x, x = a \/ In x v -> (x <= fold_left Z.max v a)%Z).
  { clear. induction v as [|y v IH]; cbn; intros a x Hx; [destruct Hx as [->|[]]; lia|].
    destruct Hx as [->|[->|Hx]]; [|etransitivity; [|apply IH; now left]; lia|apply IH; now right].
    etransitivity; [|apply IH; now left]. lia. }
  intros x [->|Hx]; apply H; auto.
Qed.

Lemma dict_get_filter_keys {A} (f : string * A -> bool) k d : NoDup (map fst d) ->
  dict_get k (List.filter f d) = match dict_get k d with Some v => if f (k, v) then Some v else None | None => None end.
Proof.
  induction d as [|[k' v'] d IH]; cbn [dict_get List.filter map]; [reflexivity|]. rewrite NoDup_cons. cbn [fst].
  intros [Hn Hd]. specialize (IH Hd). case_bool_decide as E.
  - subst k'. destruct (f (k, v')); cbn [dict_get]; [now rewrite bool_decide_eq_true_2|].
    rewrite IH. apply dict_get_None in Hn. now rewrite Hn.
  - destruct (f (k', v')); cbn [dict_get]; [rewrite bool_decide_eq_false_2 by exact E|]; exact IH.
Qed.

Lemma filter_keys_NoDup {A} (f : string * A -> bool) d : NoDup (map fst d) -> NoDup (map fst (List.filter f d)).
Proof.
  induction d as [|[k v] d IH]; cbn; [auto|]. rewrite NoDup_cons. intros [Hn Hd]. destruct (f (k, v)); [|auto].
  cbn. apply NoDup_cons. split; [|auto]. intros Hin. apply Hn.
  apply list_elem_of_fmap in Hin as ([k' v'] & -> & Hin). apply list_elem_of_fmap. exists (k', v'). split; [reflexivity|].
  apply list_elem_of_In in Hin. apply List.filter_In in Hin as [Hin _]. now apply list_elem_of_In.
Qed.

Section Manager.
Context {W : Type} `{!Host W} `{!HostLaws W}.
Variable cfg : SecConfig.
Implicit Types s : Sec W.

(** ** The limit *)

Definition rates_fit s : Prop := length (sc_rate s) <= MAX_TRACKED_KEYS.

(** The limit of the writes, and the times at which a key was granted a call. *)
Definition limit : nat := Z.to_nat (sf_write_rate_per_minute cfg).
Definition grants (key : string) s : list Z := map snd (List.filter (fun e => bool_decide (e.1 = key)) (sc_granted s)).

Section User.
Variables (user : string) (start : Z).
Abbreviation key := (write_key user).

(** Neither the tables of the rates nor the refused codes of the user moved. *)
Record unrated s s' : Prop := mkUnrated {
  un_later : later s s';
  un_rate : sc_rate s' = sc_rate s;
  un_granted : sc_granted s' = sc_granted s;
  un_refused : refused_codes user s' = refused_codes user s
}.
#[export] Instance unrated_preorder : PreOrder unrated.
Proof.
  split; [intros s; split; [apply Z.le_refl|reflexivity..]|].
  intros a b c [? ? ? Hab] [? ? ? Hbc]. split; [now transitivity b|congruence..].
Qed.

Lemma still_unrated {A} (c : SM (W := W) A) : Steps still c -> Steps unrated c.
Proof. intros H s. split; apply H. Qed.

Lemma unrated_modify (f : Sec W -> Sec W) :
  (forall s, sc_world (f s) = sc_world s /\ sc_rate (f s) = sc_rate s /\ sc_granted (f s) = sc_granted s
             /\ sc_log (f s) = sc_log s) -> Steps unrated (modify f).
Proof.
  intros H s. destruct (H s) as (E1 & E2 & E3 & E4). cbn.
  split; [unfold later, now_of; rewrite E1; lia|exact E2|exact E3|]. unfold refused_codes. now rewrite E4.
Qed.

Lemma unrated_audit e : e <> EvDenied user "totp_invalid" -> Steps unrated (audit (W := W) e).
Proof.
  intros He s. split; [apply Z.le_refl|reflexivity..|]. unfold audit, modify, refused_codes, add_log. cbn [fst sc_log].
  rewrite List.filter_app, length_app. cbn [List.filter]. rewrite bool_decide_eq_false_2 by exact He. cbn. lia.
Qed.

Lemma unrated_host {A} (op : W -> W * A) : (forall w, (clock w <= clock (op w).1)%Z) -> Steps unrated (host op).
Proof. intros H. now apply still_unrated, host_later. Qed.

Lemma unrated_monotonic : Steps unrated (monotonic (W := W)).
Proof. apply still_unrated, still_monotonic. Qed.

Ltac unrated_leaf :=
  lazymatch goal with
  | |- Steps _ monotonic => apply unrated_monotonic
  | |- Steps _ (host _) => apply unrated_host; intros ?; first [apply clock_wall|apply clock_token|apply clock_secret|apply clock_totp]
  | |- Steps _ (audit _) => apply unrated_audit; congruence
  | |- Steps _ (modify _) => apply unrated_modify; intros ?; repeat split
  | |- _ => solve [eauto]
  end.

Lemma unrated_reload u : Steps unrated (reload_user (W := W) u).
Proof. apply still_unrated, still_reload. Qed.
Lemma unrated_persist u : Steps unrated (persist (W := W) u).
Proof. apply still_unrated, still_persist. Qed.
Lemma unrated_locked_out k : Steps unrated (locked_out (W := W) k).
Proof. unfold locked_out. steps; unrated_leaf. Qed.
Lemma unrated_record_failure k : Steps unrated (record_failure (W := W) cfg k).
Proof. unfold record_failure. steps; unrated_leaf. Qed.
#[local] Hint Resolve unrated_reload unrated_persist unrated_locked_out unrated_record_failure : core.
Lemma unrated_first_lock ks : Steps unrated (first_lock (W := W) ks).
Proof. induction ks as [|k ks IH]; cbn [first_lock]; steps; unrated_leaf. Qed.
Lemma unrated_try_login u p ua ip : Steps unrated (try_login (W := W) cfg u p ua ip).
Proof. unfold try_login, wall_ns. cbn [each]. steps; unrated_leaf. Qed.
Lemma unrated_commit t u c a : Steps unrated (commit_write (W := W) t u c a).
Proof. unfold commit_write, consume_totp. steps; unrated_leaf. Qed.
Lemma unrated_rotate u : Steps unrated (rotate_totp (W := W) u).
Proof. unfold rotate_totp, put_user, drop_sessions. steps; unrated_leaf. Qed.
#[local] Hint Resolve unrated_first_lock unrated_try_login unrated_commit unrated_rotate : core.

(** What the window of the key in the table is for; [extra] is a grant that no
    refused code has used yet. *)
Record paced (extra : nat) s : Prop := mkPaced {
  pa_start : (start <= now_of s)%Z;
  pa_keys : NoDup (map fst (sc_rate s));
  pa_past x : In x (grants key s) -> (start <= x <= now_of s)%Z;
  pa_recent t : (now_of s <= t)%Z -> recent t (default [] (dict_get key (sc_rate s))) = recent t (grants key s);
  pa_minute T : length (within_minutes T 1 (grants key s)) <= limit;
  pa_refused : refused_codes user s + extra <= length (grants key s)
}.

Lemma unrated_paced extra s s' : unrated s s' -> paced extra s -> paced extra s'.
Proof.
  intros [Hl Hr Hg Hu] [H0 H1 H2 H3 H4 H5]. unfold later in Hl.
  assert (E : grants key s' = grants key s) by (unfold grants; now rewrite Hg).
  split; rewrite ?E, ?Hr, ?Hu; auto; [lia|intros x Hx; specialize (H2 x Hx); lia|]. intros t Ht. apply H3. lia.
Qed.

Lemma unrated_keeps extra {A} (c : SM (W := W) A) : Steps unrated c -> Steps (keeps (paced extra)) c.
Proof. intros Hc s. exact (unrated_paced extra s _ (Hc s)). Qed.

Lemma paced_weaken extra s : paced (S extra) s -> paced extra s.
Proof. intros [H0 H1 H2 H3 H4 H5]. split; auto. lia. Qed.

Lemma paced_prune extra s : rates_fit s -> paced extra s -> paced extra (prune_tracking cfg s).1.
Proof.
  intros Hf [H0 H1 H2 H3 H4 H5]. destruct (prune_run cfg s) as (w & t & wall & Ht & ->).
  unfold prune_times. rewrite (keep_largest_all _ _ (List.filter _ (sc_rate s))) by (etransitivity; [apply filter_length_le|exact Hf]).
  unfold now_of in *. split; unfold now_of; cbn [fst sc_rate sc_world]; auto.
  - lia.
  - now apply filter_keys_NoDup.
  - intros x Hx. specialize (H2 x Hx). lia.
  - intros t' Ht'. change (grants key _) with (grants key s). rewrite <- H3 by lia.
    rewrite dict_get_filter_keys by exact H1. destruct (dict_get key (sc_rate s)) as [v|]; [|reflexivity]. cbn [snd].
    destruct v as [|y v]; [reflexivity|]. destruct (prune_horizon cfg <? t - latest (y :: v))%Z eqn:E; [|reflexivity].
    cbn [negb default id]. apply Z.ltb_lt in E. symmetry. apply filter_empty. intros x Hx. apply latest_ge in Hx.
    apply Z.ltb_ge. pose proof (prune_horizon_nonneg cfg). unfold MINUTE, SEC in *. lia.
Qed.

(** A call of the key is granted only if the last minute has room, *)
Lemma paced_check_rate extra s : paced extra s ->
  wp (check_rate key (sf_write_rate_per_minute cfg)) (fun b => paced (if b : bool then S extra else extra))
     (fun _ _ => False) s.
Proof.
  intros [H0 H1 H2 H3 H4 H5]. unfold check_rate, wp, mbind_, monotonic, host, gets. unfold now_of in *.
  pose proof (clock_monotonic (sc_world s)) as [Ha Hb]. destruct (h_monotonic (sc_world s)) as [w t]. cbn [fst snd] in Ha, Hb.
  cbn [id set_world sc_rate]. set (win := default [] (dict_get key (sc_rate s))) in *.
  change (List.filter _ win) with (recent t win). rewrite H3 by lia.
  assert (Hw : forall t', (t <= t')%Z -> recent t' (recent t (grants key s)) = recent t' (grants key s))
    by (intros; now apply recent_recent).
  destruct (sf_write_rate_per_minute cfg <=? Z.of_nat (length (recent t (grants key s))))%Z eqn:E; cbn.
  - split; cbn; auto; unfold now_of; cbn.
    + lia.
    + now apply dict_set_NoDup.
    + intros x Hx. specialize (H2 x Hx). lia.
    + intros t' Ht'. rewrite dict_get_set, bool_decide_eq_true_2 by reflexivity. apply Hw. lia.
  - apply Z.leb_gt in E.
    match goal with |- paced _ ?s' => assert (Eg : grants key s' = grants key s ++ [t]) end.
    { unfold grants. cbn [sc_granted add_granted set_rate set_world]. rewrite List.filter_app, map_app. cbn [List.filter].
      now rewrite bool_decide_eq_true_2 by reflexivity. }
    split; rewrite ?Eg; clear Eg; unfold now_of; cbn [sc_world sc_rate add_granted set_rate set_world].
    + lia.
    + now apply dict_set_NoDup.
    + intros x [Hx|[<-|[]]]%in_app_or; [specialize (H2 x Hx)|]; lia.
    + intros t' Ht'. rewrite dict_get_set, bool_decide_eq_true_2 by reflexivity. cbn [default id].
      unfold recent at 1 3. rewrite !List.filter_app. f_equal. apply Hw. lia.
    + intros T. unfold within_minutes. rewrite List.filter_app, length_app. cbn [List.filter].
      change (List.filter _ (grants key s)) with (within_minutes T 1 (grants key s)).
      destruct ((T <=? t)%Z && (t <? T + 1 * MINUTE)%Z) eqn:ET;
        [change (length [t]) with 1|specialize (H4 T); change (length (A := Z) []) with 0; lia].
      apply andb_true_iff in ET as [ET1%Z.leb_le ET2%Z.ltb_lt].
      enough (length (within_minutes T 1 (grants key s)) <= length (recent t (grants key s))) by (unfold limit; lia).
      apply filter_sub_le. intros x _. rewrite andb_true_iff, Z.leb_le, !Z.ltb_lt. lia.
    + rewrite length_app. change (length [t]) with 1. change (refused_codes user _) with (refused_codes user s). lia.
Qed.

Lemma paced_check_other extra k n : k <> key -> Steps (keeps (paced extra)) (check_rate (W := W) k n).
Proof.
  intros Hk s [H0 H1 H2 H3 H4 H5]. unfold check_rate, mbind_, monotonic, host, gets. unfold now_of in *.
  pose proof (clock_monotonic (sc_world s)) as [Ha Hb]. destruct (h_monotonic (sc_world s)) as [w t]. cbn [fst snd] in Ha, Hb.
  assert (Eg : forall l, map snd (List.filter (fun e : string * Z => bool_decide (e.1 = key)) (l ++ [(k, t)])) =
                         map snd (List.filter (fun e : string * Z => bool_decide (e.1 = key)) l)).
  { intros l. rewrite List.filter_app. cbn [List.filter]. rewrite bool_decide_eq_false_2 by exact Hk. now rewrite app_nil_r. }
  destruct (_ <=? _)%Z; cbn; (split; unfold now_of, grants; cbn [sc_world sc_rate sc_granted set_rate add_granted set_world];
    rewrite ?Eg; auto; [lia|now apply dict_set_NoDup| |]).
  all: try (intros x Hx; specialize (H2 x Hx); lia).
  all: intros t' Ht'; rewrite dict_get_set, bool_decide_eq_false_2 by congruence; apply H3; lia.
Qed.

(** and a refused code uses the grant of its write. *)
Lemma paced_audit extra e : e <> EvDenied user "totp_invalid" -> Steps (keeps (paced extra)) (audit (W := W) e).
Proof. intros He. now apply unrated_keeps, unrated_audit. Qed.

Lemma paced_refusal s : paced 1 s -> paced 0 (add_log (EvDenied user "totp_invalid") s).
Proof.
  intros [H0 H1 H2 H3 H4 H5]. split; auto. change (grants key _) with (grants key s).
  unfold refused_codes, add_log in *. cbn [sc_log]. rewrite List.filter_app, length_app. cbn [List.filter].
  rewrite bool_decide_eq_true_2 by reflexivity. cbn [length]. lia.
Qed.

Lemma paced_verify c s : paced 1 s -> wp (verify_totp user c) (fun _ => paced 0) (fun _ _ => False) s.
Proof.
  intros Hs. assert (H0 : paced 0 s) by now apply paced_weaken. unfold verify_totp.
  assert (Ha : forall s, paced 0 s -> paced 0 (audit (EvDenied user "totp_replay") s).1) by (apply paced_audit; discriminate).
  wps; auto.
  - exact (Ha s H0).
  - unfold wp. pose proof (unrated_host (h_totp_verify (us_totp_secret u) (plain_code c)) ltac:(intros; apply clock_totp)) as Hh.
    specialize (Hh s). unfold host in *. destruct (h_totp_verify _ _ (sc_world s)) as [w b]. cbn [fst] in Hh.
    apply (unrated_paced 1) in Hh; [|exact Hs]. destruct b; [now apply paced_weaken|now apply paced_refusal].
Qed.

Ltac paced_leaf :=
  first [solve [eauto]|apply unrated_keeps; first [solve [eauto]|unrated_leaf]].

Lemma paced_verify_other extra u c : u <> user -> Steps (keeps (paced extra)) (verify_totp (W := W) u c).
Proof. intros Hu. unfold verify_totp. steps; paced_leaf. Qed.

(** ** The calls *)

(** A write of another user, and of the user. *)
Lemma paced_admit_other extra u c a o : u <> user -> Steps (keeps (paced extra)) (admit_write (W := W) cfg u c a o).
Proof.
  intros Hu. unfold admit_write, second_factor, drop_sessions.
  assert (write_key u <> key) by (intros E; apply Hu; now injection E).
  steps; first [apply paced_check_other; assumption|apply paced_verify_other; assumption|paced_leaf].
Qed.

Lemma paced_second_factor c s : paced 1 s -> paced 0 (second_factor cfg user c s).1.
Proof.
  intros Hs. pose proof (paced_verify c s Hs) as Hv. unfold second_factor. apply keeps_bind_at.
  - unfold wp in Hv. now destruct (verify_totp user c s) as [s1 [b|e]].
  - intros b. unfold drop_sessions. steps; paced_leaf.
Qed.

Lemma paced_admit c a o s : paced 0 s -> paced 0 (admit_write cfg user c a o s).1.
Proof.
  intros Hs. enough (H : wp (admit_write cfg user c a o) (fun _ => paced 0) (fun _ => paced 0) s).
  { unfold wp in H. now destruct (admit_write cfg user c a o s) as [s' [b|e]]. }
  assert (no : forall e s, e <> EvDenied user "totp_invalid" -> paced 0 s ->
                 wp (audit e ;! ret false) (fun _ => paced 0) (fun _ => paced 0) s).
  { intros e s' He H'. exact (paced_audit 0 e He s' H'). }
  unfold admit_write. apply wp_bind.
  eapply wp_mono; [exact (keep_step (paced 0) _ s (unrated_keeps _ _ (unrated_reload user)) (total_reload user) Hs)| |intros ? ? []].
  clear s Hs. intros [u0|] s Hs; [|now apply no]. destruct (negb (can_write u0)); [now apply no|].
  destruct (o && negb (can_change_risk u0)); [now apply no|]. apply wp_bind.
  eapply wp_mono; [exact (paced_check_rate 0 s Hs)| |intros ? ? []]. clear s Hs. intros [|] s Hs; [|now apply no]. apply wp_bind.
  eapply wp_mono; [exact (keep_step (paced 1) _ s (unrated_keeps _ _ (unrated_locked_out _)) (total_locked_out _) Hs)| |intros ? ? []].
  clear s Hs. intros r s Hs. destruct (nonzero r); [now apply no; [|apply paced_weaken]|].
  pose proof (paced_second_factor c s Hs) as H. unfold wp. now destruct (second_factor cfg user c s) as [s' [b|e]].
Qed.

(** The rate limits of the routes that are not this key's. *)
Definition other_key (c : SecCall) : Prop := match c with CallRate k _ => k <> key | _ => True end.

Lemma paced_run c s : other_key c -> rates_fit s -> paced 0 s -> paced 0 (run_sec cfg c s).1.
Proof.
  intros Hk Hf Hs. destruct (is_still c) eqn:E.
  { exact (unrated_keeps 0 _ (still_unrated _ (run_still cfg c E)) s Hs). }
  assert (Ha : forall u code a o, paced 0 (admit_write cfg u code a o s).1).
  { intros u code a o. destruct (decide (u = user)) as [->|Hu]; [now apply paced_admit|now apply paced_admit_other]. }
  destruct c; try discriminate; unfold run_sec, answer; apply keeps_bind_at; intros; try apply (Steps_ret (keeps (paced 0))).
  - unfold login. apply keeps_bind_at; [now apply paced_prune|]. intros []. steps; paced_leaf.
  - apply Ha.
  - revert Hs. apply unrated_keeps. eauto.
  - unfold authorise_write. apply keeps_bind_at; [apply Ha|]. intros []; cbn [negb]; steps; paced_leaf.
  - revert Hs. apply paced_check_other. exact Hk.
  - revert Hs. apply unrated_keeps. eauto.
Qed.
End User.
End Manager.
