(* ===== verification/SecurityProps.v ===== *)
(** What the accounts, lockouts and second factor of [Security] guarantee, over any
    sequence of calls from any state ([run_all]): an armed lockout holds, a code
    authorises one write, the attempts at a code are rate limited, a write needs
    the authority of the account as it is in the store, an owner remains; and what
    they do not: a code shared by overlapping writes, an account written back from
    a stale copy. *)

From Stdlib Require Import ZArith Lia Ascii String.
From stdpp Require Import base strings list.
From S2P Require Import Prelude Calendar PyText StateExn PyDict PyJson Security SecurityInv SecurityRate.

Local Open Scope py_scope.

(** * A host to run [Security] on: a clock that counts its reads in tenths of a
    second, a database that answers, an authenticator that gives one code and, as
    [pyotp] does, compares normalised texts.  The witnesses of its theorems evaluate
    on it. *)

(** The compatibility normal form of the digits below 256. *)
Definition normal_digit (c : ascii) : ascii :=
  if in_range 185 185 c then "1"%char else if in_range 178 179 c then ascii_of_nat (nat_of_ascii c - 128) else c.
Definition normal_digits (s : string) : string := string_of_list_ascii (map normal_digit (list_ascii_of_string s)).

#[export] Instance demo_host : Host Z := {
  h_monotonic w := (w + 100000000, w)%Z;
  h_wall w := (w + 100000000, w)%Z;
  h_sqlite_fails w := (w, false);
  h_token w := (w, "token");
  h_random_secret w := (w, "secret");
  h_hash p w := (w, p);
  h_totp_verify secret code w := (w, bool_decide (normal_digits code = "123456"));
  h_jwt_decode t w := (w, Some [("jti", JStr t)]);
  h_jwt_encode fields := match dict_get "jti" fields with Some (JStr t) => t | _ => "" end;
  h_verify_hash stored p := bool_decide (stored = p);
  h_digest t := t;
  h_dummy_hash := "!"
}.

#[export] Instance demo_laws : HostLaws Z.
Proof. refine {| clock := id |}; intros; cbn; unfold id; lia. Defined.

Definition demo_owner : User := mkUser "olga" "correct horse battery" "seed" "owner" 7 false.
Definition demo_operator : User := mkUser "omar" "staple staple 42" "seed" "operator" 8 false.
Definition demo_rows : Rows := [("olga", demo_owner); ("omar", demo_operator)].
(** Sessions of an hour, three attempts, a lockout of a minute, two writes a minute. *)
Definition demo_config : SecConfig := mkSecConfig 3600 3 60 2.
Definition demo_start : Sec Z := new_security 0%Z (Some demo_rows).

(** * Sequences of calls *)

Section Runs.
Context {W : Type} `{!Host W} `{!HostLaws W}.
Variable cfg : SecConfig.
Implicit Types s : Sec W.

(** The calls one after the other, with their answers; a call that raises keeps
    what it changed. *)
Fixpoint run_all (cs : list SecCall) s : Sec W * list (SecCall * res SecAnswer) :=
  match cs with
  | [] => (s, [])
  | c :: cs => let (s1, a) := run_sec cfg c s in
               let (s2, answers) := run_all cs s1 in (s2, (c, a) :: answers)
  end.

(** [P] holds whenever a call starts. *)
Fixpoint always (P : Sec W -> Prop) (cs : list SecCall) s : Prop :=
  match cs with
  | [] => True
  | c :: cs => P s /\ always P cs (run_sec cfg c s).1
  end.

Lemma run_all_cons c cs s :
  run_all (c :: cs) s = ((run_all cs (run_sec cfg c s).1).1, (c, (run_sec cfg c s).2) :: (run_all cs (run_sec cfg c s).1).2).
Proof. cbn [run_all]. destruct (run_sec cfg c s) as [s1 a]. cbn. now destruct (run_all cs s1). Qed.

Lemma run_all_later cs : forall s, later s (run_all cs s).1.
Proof.
  induction cs as [|c cs IH]; intros s; [apply Z.le_refl|]. rewrite run_all_cons. cbn [fst].
  transitivity (run_sec cfg c s).1; [apply run_later|apply IH].
Qed.

Lemma always_true cs : forall s, always (fun _ => True) cs s.
Proof. induction cs as [|c cs IH]; intros s; cbn; auto. Qed.

(** What every call keeps until the clock reaches [until], the sequence keeps. *)
Lemma run_all_until (I P : Sec W -> Prop) (allowed : SecCall -> Prop) (ok : SecCall -> res SecAnswer -> Prop) (until : Z) :
  (forall c s, allowed c -> I s -> P s -> (now_of (run_sec cfg c s).1 < until)%Z ->
     I (run_sec cfg c s).1 /\ ok c (run_sec cfg c s).2) ->
  forall cs s, Forall allowed cs -> I s -> always P cs s -> (now_of (run_all cs s).1 < until)%Z ->
  I (run_all cs s).1 /\ Forall (fun a => ok a.1 a.2) (run_all cs s).2.
Proof.
  intros Hstep. induction cs as [|c cs IH]; intros s Hc Hs Ha Hu; [split; [exact Hs|constructor]|].
  rewrite run_all_cons in *. cbn [fst snd] in *. destruct Ha as [HP Ha]. apply Forall_cons in Hc as [Hc Hcs].
  pose proof (run_all_later cs (run_sec cfg c s).1) as Hl. unfold later in Hl.
  destruct (Hstep c s Hc Hs HP) as [Hi Ho]; [lia|]. destruct (IH _ Hcs Hi Ha Hu) as [H1 H2].
  split; [exact H1|]. now constructor.
Qed.

(** The first half of a write, from what its operations keep and what the lock
    and the code decide. *)
Lemma admit_wp (I : Sec W -> Prop) (Q : bool -> Sec W -> Prop) u code a o s :
  Steps (keeps I) (reload_user u) -> (forall e, Steps (keeps I) (audit e)) ->
  Steps (keeps I) (check_rate (write_key u) (sf_write_rate_per_minute cfg)) -> (forall s, I s -> Q false s) ->
  (forall s, I s -> wp (locked_out (user_key u))
     (fun r s' => match nonzero r with Some _ => I s' | None => wp (second_factor cfg u code) Q (fun _ _ => False) s' end)
     (fun _ _ => False) s) ->
  I s -> wp (admit_write cfg u code a o) Q (fun _ _ => False) s.
Proof.
  intros Hreload Haudit Hrate HQ Hlock Hs.
  assert (no : forall e s, I s -> wp (audit e ;! ret false) Q (fun _ _ => False) s).
  { intros e s' H'. apply HQ. exact (Haudit e s' H'). }
  unfold admit_write. apply wp_bind. eapply wp_mono; [exact (keep_step I _ s Hreload (total_reload u) Hs)| |auto].
  clear s Hs. intros [u0|] s Hs; [|now apply no]. destruct (negb (can_write u0)); [now apply no|].
  destruct (o && negb (can_change_risk u0)); [now apply no|]. apply wp_bind.
  eapply wp_mono; [exact (keep_step I _ s Hrate (total_check_rate _ _) Hs)| |auto].
  clear s Hs. intros [|] s Hs; [|now apply no]. apply wp_bind. eapply wp_mono; [exact (Hlock s Hs)| |auto].
  cbn beta. intros r s' Hr. now destruct (nonzero r); [apply no|].
Qed.

(** ** Lockouts *)

(** The refusal of a login or of a write. *)
Definition denied (r : res SecAnswer) : Prop := r = Ok (AnsToken None) \/ r = Ok (AnsBool false).

Definition lockouts_fit s : Prop := length (sc_lockouts s) <= MAX_TRACKED_KEYS.

Section Lock.
Variables (key : string) (until : Z).
Hypothesis Huntil : until <> 0%Z.

(** The lockout is armed, unless it has expired. *)
Definition held s : Prop := (now_of s < until)%Z -> locked key until s.

Lemma guards_held s s' : guards key until s s' -> held s -> held s'.
Proof. intros [Hl Hg] Hs Hn. unfold later in Hl. apply Hg; [apply Hs; lia|exact Hn]. Qed.

Lemma held_keeps {A} (c : SM (W := W) A) : Steps (guards key until) c -> Steps (keeps held) c.
Proof. intros Hc s. exact (guards_held s _ (Hc s)). Qed.

Lemma locked_out_held s : held s ->
  wp (locked_out key) (fun r s' => held s' /\ ((now_of s' < until)%Z -> exists x, nonzero r = Some x)) (fun _ _ => False) s.
Proof.
  intros Hs. pose proof (guards_locked_out key until key s) as Hg. pose proof (total_locked_out key s) as Ht.
  pose proof (locked_out_locked key until s Huntil) as Hl. unfold wp.
  destruct (locked_out key s) as [s' [r|e]]; cbn [fst snd] in *; [|exact (Ht e eq_refl)].
  split; [exact (guards_held s s' Hg Hs)|]. intros Hn. destruct Hg as [Hla _]. unfold later in Hla.
  destruct (Hl (Hs ltac:(lia)) Hn) as (x & [= ->] & Hx). eauto.
Qed.

Lemma first_lock_held ks s : key ∈ ks -> held s ->
  wp (first_lock ks) (fun r s' => held s' /\ ((now_of s' < until)%Z -> r <> None)) (fun _ _ => False) s.
Proof.
  intros Hin Hs. pose proof (guards_first_lock key until ks s) as Hg. pose proof (total_first_lock ks s) as Ht.
  pose proof (first_lock_locked key until ks s Huntil Hin) as Hl. unfold wp.
  destruct (first_lock ks s) as [s' [r|e]]; cbn [fst snd] in *; [|exact (Ht e eq_refl)].
  split; [exact (guards_held s s' Hg Hs)|]. intros Hn. destruct Hg as [Hla _]. unfold later in Hla.
  destruct (Hl (Hs ltac:(lia)) Hn) as (x & [= ->]). congruence.
Qed.

(** The refusal the lock gives, at the end of a login or of a write. *)
Definition refuses {A} (no : A) (a : A) (s' : Sec W) : Prop := held s' /\ ((now_of s' < until)%Z -> a = no).

Lemma login_held u p ua ip s : key ∈ [user_key u; ip_key ip] -> held s -> lockouts_fit s ->
  wp (login cfg u p ua ip) (refuses None) (fun _ _ => False) s.
Proof.
  intros Hin Hs Hf. unfold login. apply wp_bind.
  apply (wp_mono _ (fun _ => held) _ (fun _ _ => False)); [| |auto].
  { pose proof (guards_prune cfg key until s Hf) as Hg. destruct (prune_run cfg s) as (w & t & wall & _ & E).
    unfold wp. rewrite E in *. exact (guards_held _ _ Hg Hs). }
  clear s Hs Hf. intros [] s Hs. apply wp_bind. eapply wp_mono; [exact (first_lock_held _ s Hin Hs)| |auto].
  cbn beta. intros [r|] s' [Hh Hr].
  - unfold audit. wps. now split.
  - eapply wp_mono; [exact (wp_and _ _ _ _ _ s' (wp_Steps _ _ s' (later_try_login cfg u p ua ip))
                              (wp_Raises _ _ s' (total_try_login cfg u p ua ip)))| |].
    + intros a s'' [Hl _]. unfold later in Hl. split; intros Hn; exfalso; apply Hr; auto; lia.
    + intros e s'' [_ []].
Qed.

Lemma admit_held u code a o s : key = user_key u -> held s ->
  wp (admit_write cfg u code a o) (refuses false) (fun _ _ => False) s.
Proof.
  intros Hk. apply admit_wp.
  - apply held_keeps, guards_reload.
  - intros e. apply held_keeps, guards_audit.
  - apply held_keeps, guards_check_rate.
  - intros s' Hs'. now split.
  - clear s. intros s Hs. rewrite <- Hk. eapply wp_mono; [exact (locked_out_held s Hs)| |auto].
    intros r s' [Hh Hr]. destruct (nonzero r) as [x|]; [exact Hh|].
    pose proof (later_second_factor cfg u code s') as Hl. pose proof (total_second_factor cfg u code s') as Ht.
    unfold wp. destruct (second_factor cfg u code s') as [s'' [b|e]]; cbn [fst snd] in *; [|exact (Ht e eq_refl)].
    unfold later in Hl. split; intros Hn; exfalso; destruct Hr as [x [=]]; lia.
Qed.

Lemma run_held c s : held s -> lockouts_fit s ->
  held (run_sec cfg c s).1 /\
  (targets key c = true -> (now_of (run_sec cfg c s).1 < until)%Z -> denied (run_sec cfg c s).2).
Proof.
  intros Hs Hf. destruct (targets key c) eqn:Ht;
    [|split; [exact (guards_held _ _ (guards_run cfg key until c s Ht Hf) Hs)|discriminate]].
  enough (H : wp (run_sec cfg c) (fun a s' => held s' /\ ((now_of s' < until)%Z -> denied (Ok a))) (fun _ _ => False) s).
  { unfold wp in H. destruct (run_sec cfg c s) as [s' [a|e]]; [cbn; tauto|destruct H]. }
  destruct c; try discriminate; cbn [targets] in Ht; apply bool_decide_eq_true in Ht; unfold run_sec; apply wp_answer.
  - eapply wp_mono; [exact (login_held _ password user_agent _ s Ht Hs Hf)| |auto].
    intros r s' [H1 H2]. split; [exact H1|]. intros Hn. rewrite (H2 Hn). now left.
  - eapply wp_mono; [exact (admit_held _ code action requires_owner s Ht Hs)| |auto].
    intros r s' [H1 H2]. split; [exact H1|]. intros Hn. rewrite (H2 Hn). now right.
  - unfold authorise_write. apply wp_bind.
    eapply wp_mono; [exact (admit_held _ code action requires_owner s Ht Hs)| |auto].
    intros [|] s' [H1 H2]; [|split; [exact H1|]; intros _; now right].
    apply wp_bind. eapply wp_mono;
      [exact (wp_and _ _ _ _ _ s' (wp_Steps _ _ s' (later_commit token_id username code action))
                (keep_step held _ s' (held_keeps _ (guards_commit _ _ token_id username code action))
                   (total_commit _ _ _ _) H1))| |].
    + cbn beta. intros [] s'' [Hl Hh]. split; [exact Hh|]. intros Hn. unfold later in Hl.
      discriminate H2. lia.
    + intros e s'' [_ []].
Qed.

(** C13: A lockout holds.  From any state in which a key (an account or an
    address) is locked, and through any sequence of calls (logins, writes, the
    two halves of overlapping writes, administration, a change of the database by
    another process) that ends before the lock expires, no login for the key
    issues a token and no write of the account is authorised, whatever the
    password, the code and the failures of the database; and the key is still
    locked at the end.  The table of lockouts is within its cap when a call
    starts; above it the lockouts that expire first are dropped. *)
Theorem lockout_holds cs s :
  locked key until s -> always lockouts_fit cs s -> (now_of (run_all cs s).1 < until)%Z ->
  locked key until (run_all cs s).1 /\ Forall (fun a => targets key a.1 = true -> denied a.2) (run_all cs s).2.
Proof.
  intros Hk Ha Hn.
  destruct (run_all_until held lockouts_fit (fun _ => True) (fun c a => targets key c = true -> denied a) until) with cs s
    as [Hh Hd]; auto.
  - intros c s' _ Hs Hf Hc. destruct (run_held c s' Hs Hf). auto.
  - clear. now induction cs as [|c cs IH]; constructor.
  - now intros _.
Qed.
End Lock.

(** ** Codes *)

Section Code.
Variables (user code : string).

(** The writes of the user with the code. *)
Definition reuses (c : SecCall) : bool :=
  match c with
  | CallAdmit u code' _ _ | CallWrite _ u code' _ _ =>
      bool_decide (u = user) && bool_decide (plain_code code' = plain_code code)
  | _ => false
  end.

Lemma admit_spent since c a o s : plain_code c = plain_code code -> spent user (plain_code code) since s ->
  wp (admit_write cfg user c a o) (fun b s' => (now_of s' <= since + TOTP_REPLAY_TTL)%Z -> b = false) (fun _ _ => False) s.
Proof.
  intros Hc. apply (admit_wp (spent user (plain_code code) since)).
  - apply spent_reload.
  - intros e. apply spent_audit.
  - apply spent_check_rate.
  - reflexivity.
  - clear s. intros s Hs.
    eapply wp_mono; [exact (keep_step _ _ s (spent_locked_out _ _ _ (user_key user)) (total_locked_out _) Hs)| |auto].
    intros r s' Hs'. destruct (nonzero r); [exact Hs'|]. now apply (spent_refused cfg user (plain_code code)).
Qed.

Lemma reuse_refused since c s : reuses c = true -> spent user (plain_code code) since s ->
  (now_of (run_sec cfg c s).1 <= since + TOTP_REPLAY_TTL)%Z -> (run_sec cfg c s).2 = Ok (AnsBool false).
Proof.
  intros Hc Hs.
  enough (H : wp (run_sec cfg c) (fun a s' => (now_of s' <= since + TOTP_REPLAY_TTL)%Z -> a = AnsBool false) (fun _ _ => False) s).
  { unfold wp in H. destruct (run_sec cfg c s) as [s' [a|e]]; cbn in *; [|now destruct H]. intros Hn. now rewrite H. }
  destruct c; try discriminate; cbn [reuses] in Hc; apply andb_prop in Hc as [->%bool_decide_eq_true Hp%bool_decide_eq_true];
    unfold run_sec; apply wp_answer.
  - eapply wp_mono; [exact (admit_spent since _ action requires_owner s Hp Hs)| |auto].
    intros b s' Hb Hn. now rewrite Hb.
  - unfold authorise_write. apply wp_bind.
    eapply wp_mono; [exact (admit_spent since _ action requires_owner s Hp Hs)| |auto].
    intros [|] s' Hb; [|now intros _]. cbn [negb]. apply wp_bind.
    eapply wp_mono; [exact (wp_and _ _ _ _ _ s' (wp_Steps _ _ s' (later_commit token_id user code0 action))
                              (wp_Raises _ _ s' (total_commit token_id user code0 action)))| |].
    + intros [] s'' [Hl _] Hn. unfold later in Hl. discriminate Hb. lia.
    + intros e s'' [_ []].
Qed.

(** An authorised write spends its code. *)
Lemma write_spends t a o s : (run_sec cfg (CallWrite t user code a o) s).2 = Ok (AnsBool true) ->
  spent user (plain_code code) (now_of s) (run_sec cfg (CallWrite t user code a o) s).1.
Proof.
  unfold run_sec, answer, authorise_write, mbind_. pose proof (later_admit cfg user code a o s) as H1.
  destruct (admit_write cfg user code a o s) as [s1 [[|]|e]]; cbn [negb fst] in *; try discriminate.
  intros _. unfold commit_write, consume_totp, mbind_, monotonic, host, modify, audit.
  pose proof (clock_monotonic (sc_world s1)) as [Ha Hb]. destruct (h_monotonic (sc_world s1)) as [w x]. cbn in *.
  unfold later, spent, now_of in *. cbn. split; [lia|]. intros _. exists x. split; [lia|]. apply pair_set_new.
Qed.

(** C11: A text given as a code authorises one write.  Once a write of a user is
    authorised with it, no sequence of calls that ends within 120 seconds, and in
    which the user is not given a new secret, has a write of the user that begins
    after it authorised with the same text however it is spaced, nor the first half
    of one: the codes are compared without spaces, forgetting old codes does not
    forget it early, and neither another process, nor a failure of the database, nor
    administration of the accounts helps.  Writes that overlap can share a code
    ([overlapping_writes_share_a_code]), and the same digits in another spelling are
    another text ([superscripts_pass_again]). *)
Theorem totp_single_use t a o cs s :
  let first := run_sec cfg (CallWrite t user code a o) s in
  first.2 = Ok (AnsBool true) -> Forall (fun c => rotates user c = false) cs ->
  (now_of (run_all cs first.1).1 <= now_of s + TOTP_REPLAY_TTL)%Z ->
  Forall (fun a => reuses a.1 = true -> a.2 = Ok (AnsBool false)) (run_all cs first.1).2.
Proof.
  intros first Hf Hr Hn. pose proof (write_spends t a o s Hf) as Hs. fold first in Hs.
  apply (run_all_until (spent user (plain_code code) (now_of s)) (fun _ => True) (fun c => rotates user c = false)
           (fun c r => reuses c = true -> r = Ok (AnsBool false)) (now_of s + TOTP_REPLAY_TTL + 1)); auto.
  - intros c s' Hc H' _ Hlt. split; [now apply spent_run|]. intros Hu. apply (reuse_refused (now_of s)); auto; lia.
  - apply always_true.
  - lia.
Qed.
End Code.

(** ** Attempts *)

Lemma paced_new user w store : paced cfg user (clock w) 0 (new_security w store).
Proof.
  split; unfold now_of, refused_codes; cbn; [lia|apply NoDup_nil_2|intros x []|reflexivity|intros T; unfold limit; lia|lia].
Qed.

(** The second factor cannot be guessed quickly.  From the start of the
    process, whatever is called in between, at most [limit] writes of an account
    get as far as its code in any sixty seconds of the monotonic clock, and a run
    of at most [m] minutes refuses at most [m * limit] codes of the account,
    however many sessions, addresses or processes the guesses come from.  The
    table of rates is within its cap when a call starts, and the other limits
    use other keys. *)
Theorem code_attempts_bounded user w store cs m :
  Forall (other_key user) cs -> always rates_fit cs (new_security w store) ->
  let s := (run_all cs (new_security w store)).1 in
  (now_of s < clock w + Z.of_nat m * MINUTE)%Z ->
  refused_codes user s <= m * limit cfg /\
  forall T, length (within_minutes T 1 (grants (write_key user) s)) <= limit cfg.
Proof.
  intros Hk Hf s Hn.
  destruct (run_all_until (paced cfg user (clock w) 0) rates_fit (other_key user) (fun _ _ => True) (now_of s + 1)%Z)
    with cs (new_security w store) as [Hp _]; auto using paced_new; [| |].
  - intros c s' Hc Hs HP _. split; [now apply paced_run|exact I].
  - fold s. lia.
  - fold s in Hp. split; [|exact (pa_minute _ _ _ _ _ Hp)].
    pose proof (pa_refused _ _ _ _ _ Hp). pose proof (minutes_add _ _ (clock w) (pa_minute _ _ _ _ _ Hp) m) as Hm.
    enough (length (grants (write_key user) s) <= length (within_minutes (clock w) (Z.of_nat m) (grants (write_key user) s))) by lia.
    unfold within_minutes. rewrite List.forallb_filter_id; [reflexivity|]. apply forallb_forall. intros x Hx.
    pose proof (pa_past _ _ _ _ _ Hp x Hx). rewrite andb_true_iff, Z.leb_le, Z.ltb_lt. lia.
Qed.

(** ** Authority *)

Lemma reload_cached u s s1 row : reload_user u s = (s1, Ok (Some row)) -> dict_get u (sc_users s1) = Some row.
Proof.
  unfold reload_user, mbind_, gets, id. destruct (sc_store s) as [rows|]; [|now intros [= <- <-]].
  unfold attempt, store_get, statement, host, mbind_. destruct (h_sqlite_fails (sc_world s)) as [w [|]]; cbn.
  - now intros [= <- E].
  - destruct (dict_get u rows) as [fresh|]; cbn; [|discriminate]. intros [= <- <-]. cbn.
    now rewrite dict_get_set, bool_decide_eq_true_2.
Qed.

Lemma reload_store u s s1 row rows : reload_user u s = (s1, Ok (Some row)) -> sc_store s = Some rows ->
  (h_sqlite_fails (sc_world s)).2 = false -> dict_get u rows = Some row.
Proof.
  unfold reload_user, mbind_, gets, id. intros H E Hf. rewrite E in H. revert H.
  unfold attempt, store_get, statement, host, mbind_. destruct (h_sqlite_fails (sc_world s)) as [w b]. cbn in Hf. subst b. cbn.
  destruct (dict_get u rows) as [fresh|]; cbn; [|discriminate]. now intros [= <- <-].
Qed.

(** The texts that are a code: six code points that count as digits. *)
Definition six_digits (code : string) : bool :=
  forallb latin_digit (list_ascii_of_string code) && Nat.eqb (String.length code) 6.

(** What a write that ran until [until] rests on: the account as it is read for it, and
    its code, which the authenticator accepts during the write. *)
Record authority (u code : string) (o : bool) s (until : Z) (row : User) : Prop := mkAuthority {
  au_reload : exists s1, reload_user u s = (s1, Ok (Some row));
  au_role : us_role row = "owner" \/ us_role row = "operator" /\ o = false;
  au_enabled : us_disabled row = false;
  au_digits : six_digits (plain_code code) = true;
  au_unused : pair_in (u, plain_code code) (sc_used_totp s) = false;
  au_valid : exists w w', h_totp_verify (us_totp_secret row) (plain_code code) w = (w', true) /\
               (now_of s <= clock w /\ clock w' <= until)%Z
}.

Lemma roles_of u o : can_write u = true -> (o && negb (can_change_risk u)) = false ->
  us_disabled u = false /\ (us_role u = "owner" \/ us_role u = "operator" /\ o = false).
Proof.
  unfold can_write, can_change_risk. intros [Hr%bool_decide_eq_true Hd%negb_true_iff]%andb_prop Ho. split; [exact Hd|].
  rewrite Hd, andb_true_r in Ho. destruct o; cbn [andb] in Ho.
  - apply negb_false_iff, bool_decide_eq_true in Ho. now left.
  - apply elem_of_cons in Hr as [Hr|Hr]; [now right|]. apply list_elem_of_singleton in Hr. now left.
Qed.

(** The accounts and the used codes did not move. *)
Definition same_codes s s' : Prop := sc_users s' = sc_users s /\ sc_used_totp s' = sc_used_totp s.
#[export] Instance same_codes_preorder : PreOrder same_codes.
Proof. split; [now intros s|]. intros a b c [] []. split; congruence. Qed.

Lemma same_codes_host {A} (op : W -> W * A) : Steps same_codes (host op).
Proof. intros s. unfold host. now destruct (op (sc_world s)). Qed.

Lemma locked_out_codes k : Steps same_codes (locked_out (W := W) k).
Proof. unfold locked_out, monotonic. steps; first [apply same_codes_host|now intros ?]. Qed.
Lemma check_rate_codes k n : Steps same_codes (check_rate (W := W) k n).
Proof. unfold check_rate, monotonic. steps; first [apply same_codes_host|now intros ?]. Qed.

(** The code that is accepted is one the authenticator of the account gives. *)
Lemma second_factor_valid u code s :
  wp (second_factor cfg u code)
     (fun b s' => b = true -> exists row, dict_get u (sc_users s) = Some row /\ six_digits (plain_code code) = true /\
        pair_in (u, plain_code code) (sc_used_totp s) = false /\
        exists w', h_totp_verify (us_totp_secret row) (plain_code code) (sc_world s) = (w', true) /\ (clock w' <= now_of s')%Z)
     (fun _ _ => True) s.
Proof.
  unfold second_factor. apply wp_bind.
  apply (wp_mono _ (fun b s' => b = true -> exists row, dict_get u (sc_users s) = Some row /\ six_digits (plain_code code) = true /\
           pair_in (u, plain_code code) (sc_used_totp s) = false /\
           exists w', h_totp_verify (us_totp_secret row) (plain_code code) (sc_world s) = (w', true) /\ (clock w' <= now_of s')%Z)
           _ (fun _ _ => False)); [|intros [|] s' Hb; cbn [negb]|intros ? ? []].
  - unfold verify_totp. wps; lazymatch goal with |- false = true -> _ => discriminate | _ => idtac end.
    + unfold audit. wps. discriminate.
    + apply wp_host. intros w [|] Ev; cbn [negb]; [|unfold audit; wps; discriminate].
      apply wp_ret. intros _. exists u0. split; [reflexivity|]. split; [|split; [reflexivity|exists w; split; [exact Ev|now cbn]]].
      apply orb_false_iff in E1 as [E1%negb_false_iff E1'%negb_false_iff]. unfold six_digits. now rewrite E1, E1'.
  - apply wp_ret. exact Hb.
  - unfold wp, mbind_. destruct (record_failure cfg (user_key u) s') as [s2 [[]|e]]; [|exact I].
    destruct (locked_out (user_key u) s2) as [s3 [r|e]]; [|exact I]. now destruct (nonzero r).
Qed.

Lemma admit_authority u code a o s :
  wp (admit_write cfg u code a o) (fun b s' => b = true -> exists row, authority u code o s (now_of s') row) (fun _ _ => True) s.
Proof.
  unfold admit_write. apply wp_bind.
  assert (Hu := still_reload u s). pose proof (later_locked_out (user_key u)) as L3. pose proof (later_check_rate (write_key u) (sf_write_rate_per_minute cfg)) as L2. eapply wp_mono; [exact (wp_self (reload_user u) s)| |auto].
  intros [row|] s1 Hr; [|discriminate]. rewrite Hr in Hu. cbn [fst] in Hu. pose proof (st_later _ _ Hu) as L1. apply st_used in Hu.
  destruct (can_write row) eqn:Ew; [|discriminate]. cbn [negb].
  destruct (o && negb (can_change_risk row)) eqn:Eo; [discriminate|]. destruct (roles_of row o Ew Eo) as [Hd Hro].
  pose proof (reload_cached u s s1 row Hr) as Hc. apply wp_bind.
  eapply wp_mono; [exact (wp_and _ _ _ _ _ s1 (wp_Steps same_codes _ s1 (check_rate_codes _ _)) (wp_Steps later _ s1 L2))| |auto].
  intros [|] s2 [Hs2 K2]; [|discriminate]. cbn [negb]. apply wp_bind.
  eapply wp_mono; [exact (wp_and _ _ _ _ _ s2 (wp_Steps same_codes _ s2 (locked_out_codes _)) (wp_Steps later _ s2 L3))| |auto].
  intros r s3 [Hs3 K3]. destruct (nonzero r); [discriminate|].
  eapply wp_mono; [exact (second_factor_valid u code s3)| |auto].
  intros b s4 Hb Hbt. destruct (Hb Hbt) as (row' & Hg & Hdig & Hun & w' & Hv & Hw'). destruct (transitivity Hs2 Hs3) as [E1 E2].
  rewrite E1, Hc in Hg. injection Hg as <-. rewrite E2, Hu in Hun. exists row. split; eauto.
  exists (sc_world s3), w'. split; [exact Hv|]. unfold later, now_of in *. lia.
Qed.

(** C12: A write needs authority.  A write is authorised only for an account that,
    read again for this write, exists, is enabled and is an operator or an owner
    (an owner where the route asks for one), with a text of six digits that
    its authenticator accepts at a moment of the write and that is not noted as used
    by the account; where the database can be read, that account is the database's,
    not the copy kept since the login.  The write then spends the code, and is the last entry of the
    journal. *)
Theorem write_needs_authority t u code a o s :
  let write := run_sec cfg (CallWrite t u code a o) s in
  write.2 = Ok (AnsBool true) ->
  exists row, authority u code o s (now_of write.1) row /\
    (forall rows, sc_store s = Some rows -> (h_sqlite_fails (sc_world s)).2 = false -> dict_get u rows = Some row) /\
    pair_in (u, plain_code code) (sc_used_totp write.1) = true /\ last (sc_log write.1) = Some (EvWrite a u).
Proof.
  intros write. unfold write. unfold run_sec, answer, authorise_write, mbind_. pose proof (admit_authority u code a o s) as H.
  pose proof (later_commit t u code a (admit_write cfg u code a o s).1) as L.
  unfold wp in H. destruct (admit_write cfg u code a o s) as [s1 [[|]|e]]; cbn [negb]; try discriminate.
  destruct (H eq_refl) as [row Hrow]. intros _. exists row. split; [|split].
  - destruct Hrow as [A1 A2 A3 A4 A5 (w1 & w2 & A6 & A7)]. split; auto. exists w1, w2. split; [exact A6|]. revert L. unfold later. cbn [fst].
    destruct (commit_write t u code a s1) as [s2 [|]]; cbn; lia.
  - intros rows Hst Hf. destruct (au_reload _ _ _ _ _ _ Hrow) as [s2 Hr]. exact (reload_store u s s2 row rows Hr Hst Hf).
  - unfold commit_write, consume_totp, mbind_, monotonic, host, modify, audit.
    destruct (h_monotonic (sc_world s1)) as [w x]. cbn. split; [|now rewrite last_snoc].
    apply pair_in_spec. exists x. apply pair_set_new.
Qed.

(** ** Sessions *)

Lemma reload_sessions u s : sc_sessions (reload_user u s).1 = sc_sessions s.
Proof.
  unfold reload_user, mbind_, gets, id. destruct (sc_store s) as [rows|]; [|reflexivity].
  unfold attempt, store_get, statement, host, mbind_. destruct (h_sqlite_fails (sc_world s)) as [w [|]]; [reflexivity|].
  cbn. now destruct (dict_get u rows).
Qed.

(** The session a token stands for, with the role its account has now. *)
Definition current (token ua ip : string) s (se : Session) s' : Prop :=
  exists w fields id old row s1,
    h_jwt_decode token (sc_world s) = (w, Some fields) /\ default (JStr "") (dict_get "jti" fields) = JStr id /\
    dict_get id (sc_sessions s) = Some old /\ ((h_wall w).2 <= se_expires_ns old)%Z /\
    se_fingerprint old = fingerprint ua ip /\
    reload_user (se_username old) (set_world (h_wall w).1 (set_world w s)) = (s1, Ok (Some row)) /\
    us_disabled row = false /\ se = session_role (us_role row) old /\ dict_get id (sc_sessions s') = Some se.

(** A token is worth what the account is now.  The session a request is given
    is one that was issued by a login and not dropped since, that has not
    expired, presented from the address and program it was issued to; its
    account, read again for this request, exists and is enabled; and its role is
    the role the account has now, which the table of sessions then has too: a
    demoted account does not keep the role it logged in with. *)
Theorem session_is_current token ua ip s s' se :
  run_sec cfg (CallVerify token ua ip) s = (s', Ok (AnsSession (Some se))) -> current token ua ip s se s'.
Proof.
  unfold run_sec, answer. intros (s1 & r & H & [= <- ->])%mbind_Ok. unfold verify_token in H.
  apply mbind_Ok in H as (s2 & payload & Hd & H). unfold host in Hd.
  destruct (h_jwt_decode token (sc_world s)) as [w p] eqn:Ed. injection Hd as <- <-. destruct p as [fields|]; [|discriminate].
  destruct (default (JStr "") (dict_get "jti" fields)) as [| | | |id| |] eqn:Ej; try discriminate.
  unfold check_session in H.
  apply mbind_Ok in H as (s2 & found & [= <- <-] & H). cbn [set_world sc_sessions] in H.
  destruct (dict_get id (sc_sessions s)) as [old|] eqn:Eo; [|discriminate].
  apply mbind_Ok in H as (s2 & wall & Hw & H). unfold wall_ns, host in Hw. cbn [set_world sc_world] in Hw.
  destruct (h_wall w) as [w' x] eqn:Ew. injection Hw as <- <-. cbn [fst snd].
  destruct (se_expires_ns old <? x)%Z eqn:Ee; [discriminate|]. apply Z.ltb_ge in Ee.
  destruct (negb (bool_decide (se_fingerprint old = fingerprint ua ip))) eqn:Ef; [discriminate|].
  apply negb_false_iff, bool_decide_eq_true in Ef. apply mbind_Ok in H as (s2 & user & Hr & H).
  destruct user as [row|]; [|discriminate]. destruct (us_disabled row) eqn:Eb; [discriminate|].
  pose proof (reload_sessions (se_username old) (set_world w' (set_world w s))) as Hs.
  rewrite Hr in Hs. cbn [fst set_world sc_sessions] in Hs.
  exists w, fields, id, old, row, s2. rewrite Ew. cbn [fst snd]. repeat (split; [done|]).
  destruct (bool_decide (us_role row = se_role old)) eqn:Er.
  - injection H as <- <-. apply bool_decide_eq_true in Er. rewrite Hs, Er. split; [now destruct old|exact Eo].
  - apply mbind_Ok in H as (s3 & [] & [= <-] & H). apply mbind_Ok in H as (s4 & [] & [= <-] & H). injection H as <- <-.
    split; [reflexivity|]. cbn. now rewrite dict_get_set, bool_decide_eq_true_2.
Qed.
End Runs.

(** ** Witnesses *)

(** Three bad passwords lock an account. *)
Definition demo_locked : Sec Z :=
  (run_all demo_config [CallLogin "omar" "guess" "browser" "10.0.0.9"; CallLogin "omar" "guess again" "browser" "10.0.0.9";
                        CallLogin "omar" "one more guess" "browser" "10.0.0.9"] demo_start).1.
Definition demo_calls : list SecCall :=
  [CallLogin "omar" "staple staple 42" "browser" "10.0.0.1"; CallWrite "token" "omar" "123456" "close" false;
   CallSetPassword "omar" "another horse battery"; CallLogin "omar" "another horse battery" "browser" "10.0.0.1"].
Definition demo_until : Z := default 0%Z (dict_get (user_key "omar") (sc_lockouts demo_locked)).

Example lockout_holds_witness :
  locked (user_key "omar") demo_until (run_all demo_config demo_calls demo_locked).1 /\
  Forall (fun a => targets (user_key "omar") a.1 = true -> denied a.2) (run_all demo_config demo_calls demo_locked).2.
Proof.
  apply (lockout_holds demo_config (user_key "omar") demo_until ltac:(vm_compute; discriminate) demo_calls demo_locked).
  - vm_compute. reflexivity.
  - cbn [always demo_calls]. repeat split; unfold lockouts_fit; apply Nat.leb_le; vm_compute; reflexivity.
  - vm_compute. reflexivity.
Defined.

Definition demo_write : Sec Z * res SecAnswer :=
  run_sec demo_config (CallWrite "token" "omar" "123 456" "close" false) demo_start.

Example totp_single_use_witness :
  Forall (fun a => reuses "omar" "123 456" a.1 = true -> a.2 = Ok (AnsBool false))
    (run_all demo_config [CallWrite "token" "omar" "123456" "halt" false; CallPurge] demo_write.1).2.
Proof.
  apply (totp_single_use demo_config "omar" "123 456" "token" "close" false
           [CallWrite "token" "omar" "123456" "halt" false; CallPurge] demo_start).
  - vm_compute. reflexivity.
  - repeat constructor.
  - vm_compute. discriminate.
Defined.

Definition demo_guesses : list SecCall :=
  [CallAdmit "omar" "000000" "close" false; CallAdmit "omar" "000001" "close" false; CallAdmit "omar" "000002" "close" false].

Example code_attempts_bounded_witness :
  refused_codes "omar" (run_all demo_config demo_guesses demo_start).1 <= 1 * limit demo_config /\
  forall T, length (within_minutes T 1 (grants (write_key "omar") (run_all demo_config demo_guesses demo_start).1))
            <= limit demo_config.
Proof.
  apply (code_attempts_bounded demo_config "omar" 0%Z (Some demo_rows) demo_guesses 1).
  - repeat constructor.
  - cbn [always demo_guesses]. repeat split; unfold rates_fit; apply Nat.leb_le; vm_compute; reflexivity.
  - vm_compute. reflexivity.
Defined.

Example write_needs_authority_witness : exists row, authority "omar" "123 456" false demo_start (now_of demo_write.1) row.
Proof.
  destruct (write_needs_authority demo_config "token" "omar" "123 456" "close" false demo_start) as (row & H & _);
    [vm_compute; reflexivity|]. exists row. exact H.
Defined.

(** Omar logs in, and is made a viewer. *)
Definition demo_demoted : Sec Z :=
  (run_all demo_config [CallLogin "omar" "staple staple 42" "browser" "10.0.0.1"; CallSetRole "omar" "viewer"] demo_start).1.
Definition demo_session : Sec Z * res SecAnswer :=
  run_sec demo_config (CallVerify "token" "browser" "10.0.0.1") demo_demoted.

Example session_is_current_witness : exists se, se_role se = "viewer" /\
  current "token" "browser" "10.0.0.1" demo_demoted se demo_session.1.
Proof.
  eexists (mkSession _ _ "viewer" _ _ _ _). split; [reflexivity|].
  apply (session_is_current demo_config). vm_compute. reflexivity.
Defined.

(** Two writes that overlap use one code: both halves of both succeed. *)
Example overlapping_writes_share_a_code :
  map snd (run_all demo_config
    [CallAdmit "omar" "123456" "close" false; CallAdmit "omar" "123456" "halt" false;
     CallCommit "token" "omar" "123456" "close"; CallCommit "token" "omar" "123456" "halt"] demo_start).2
  = [Ok (AnsBool true); Ok (AnsBool true); Ok AnsNothing; Ok AnsNothing].
Proof. vm_compute. reflexivity. Qed.

(** The superscript two counts as a digit and the authenticator reads it as a two: one
    code authorises a second write in another spelling. *)
Example superscripts_pass_again :
  map snd (run_all demo_config
    [CallWrite "token" "omar" "123456" "close" false;
     CallWrite "token" "omar" (String "1" (String (ascii_of_nat 178) "3456")) "halt" false] demo_start).2
  = [Ok (AnsBool true); Ok (AnsBool true)].
Proof. vm_compute. reflexivity. Qed.
