(* ===== verification/SecurityOwners.v ===== *)
(** The accounts of [Security] over any sequence of calls: the cache agrees with
    the database and an owner who can act remains, whatever fails ([sound]); and
    what a change by another process does to it: an account is written back as
    the cache has it. *)

From Stdlib Require Import ZArith Lia Ascii String.
From stdpp Require Import base strings list.
From S2P Require Import Prelude Calendar PyText StateExn PyDict PyJson Security SecurityInv SecurityRate SecurityProps.

Local Open Scope py_scope.

Section Manager.
Context {W : Type} `{!Host W}.
Variable cfg : SecConfig.
Implicit Types s : Sec W.

(** The accounts: the database, or the table in memory when there is none. *)
Definition rows_of s : Rows := default (sc_users s) (sc_store s).
Definition wf_rows (d : Rows) : Prop := NoDup (map fst d) /\ forall k u, dict_get k d = Some u -> us_username u = k.
Definition owned (d : Rows) : Prop := exists k u, dict_get k d = Some u /\ is_owner u = true.

Record sound s : Prop := mkSound {
  so_users : wf_rows (sc_users s);
  so_rows : wf_rows (rows_of s);
  so_sync k : dict_get k (sc_users s) = dict_get k (rows_of s);
  so_owned : owned (rows_of s)
}.

(** ** Tables *)

Lemma wf_set d k u : wf_rows d -> us_username u = k -> wf_rows (dict_set k u d).
Proof.
  intros [H1 H2] Hu. split; [now apply dict_set_NoDup|]. intros k' u'. rewrite dict_get_set.
  case_bool_decide as E; [intros [= <-]; congruence|apply H2].
Qed.

Lemma wf_del d k : wf_rows d -> wf_rows (dict_del k d).
Proof.
  intros [H1 H2]. split; [now apply dict_del_NoDup|]. intros k' u'. rewrite dict_get_del by exact H1.
  case_bool_decide; [discriminate|apply H2].
Qed.

(** [u] may take the place of what is at [k]: it is an owner if that was, or
    another account is. *)
Definition may_replace (k : string) (owner : bool) (d : Rows) : Prop :=
  forall old, dict_get k d = Some old -> is_owner old = true ->
    owner = true \/ exists k' u', k' <> k /\ dict_get k' d = Some u' /\ is_owner u' = true.

Lemma owned_set k u d : owned d -> may_replace k (is_owner u) d -> owned (dict_set k u d).
Proof.
  intros (k0 & u0 & Hk & Ho) Hm. destruct (decide (k = k0)) as [->|Hne].
  - destruct (Hm u0 Hk Ho) as [Hu|(k' & u' & Hn & Hk' & Hu')].
    + exists k0, u. now rewrite dict_get_set, bool_decide_eq_true_2.
    + exists k', u'. now rewrite dict_get_set, bool_decide_eq_false_2 by congruence.
  - exists k0, u0. now rewrite dict_get_set, bool_decide_eq_false_2 by congruence.
Qed.

Lemma owned_del k d : NoDup (map fst d) -> owned d -> may_replace k false d -> owned (dict_del k d).
Proof.
  intros Hd (k0 & u0 & Hk & Ho) Hm.
  assert (exists k' u', k' <> k /\ dict_get k' d = Some u' /\ is_owner u' = true) as (k' & u' & Hn & Hk' & Hu').
  { destruct (decide (k = k0)) as [->|Hne]; [destruct (Hm u0 Hk Ho) as [[=]|H]; exact H|]. exists k0, u0. auto. }
  exists k', u'. rewrite dict_get_del by exact Hd. now rewrite bool_decide_eq_false_2 by congruence.
Qed.

Lemma owner_names_other d k : wf_rows d -> owner_names d k <> [] ->
  exists k' u', k' <> k /\ dict_get k' d = Some u' /\ is_owner u' = true.
Proof.
  intros [Hd Hn] Ho. destruct (owner_names d k) as [|n ns] eqn:E; [congruence|].
  assert (Hin : n ∈ owner_names d k) by (rewrite E; left). unfold owner_names in Hin.
  apply list_elem_of_omap in Hin as ([k' u'] & Hin & Hs). cbn [snd] in Hs.
  destruct (is_owner u') eqn:Eo; [|discriminate]. cbn [andb] in Hs. case_bool_decide as Eu; [discriminate|].
  apply list_elem_of_In, dict_get_In in Hin; [|exact Hd]. exists k', u'. split; [|auto]. rewrite <- (Hn _ _ Hin). exact Eu.
Qed.

Lemma upsert_same u k d old : us_username u = k -> dict_get k d = Some old -> us_created_ns u = us_created_ns old ->
  upsert_row u d = dict_set k u d.
Proof. intros Hu Hk Hc. unfold upsert_row. rewrite Hu, Hk. f_equal. rewrite <- Hc, <- Hu. now destruct u. Qed.

Lemma upsert_new u k d : us_username u = k -> dict_get k d = None -> upsert_row u d = dict_set k u d.
Proof. intros Hu Hk. unfold upsert_row. now rewrite Hu, Hk. Qed.

(** ** Operations *)

(** The accounts did not move. *)
Definition same_accounts s s' : Prop := sc_users s' = sc_users s /\ sc_store s' = sc_store s.
#[export] Instance same_accounts_preorder : PreOrder same_accounts.
Proof. split; [now intros s|]. intros a b c [] []. split; congruence. Qed.

Lemma same_sound s s' : same_accounts s s' -> sound s -> sound s'.
Proof.
  intros [Hu Hs] [H1 H2 H3 H4]. assert (Hr : rows_of s' = rows_of s) by (unfold rows_of; now rewrite Hu, Hs).
  split; rewrite ?Hr, ?Hu; auto.
Qed.

Lemma same_keeps {A} (c : SM (W := W) A) : Steps same_accounts c -> Steps (keeps sound) c.
Proof. intros Hc s. exact (same_sound s _ (Hc s)). Qed.

Lemma same_host {A} (op : W -> W * A) : Steps same_accounts (host op).
Proof. intros s. unfold host. now destruct (op (sc_world s)). Qed.

(** What the accounts answered. *)
Definition reads (s : Sec W) (d : Rows) s' : Prop :=
  sound s' /\ rows_of s' = rows_of s /\ sc_store s' = sc_store s /\ wf_rows d /\
  forall k, dict_get k d = dict_get k (rows_of s).

Lemma wp_statement {A} (c : SM (W := W) A) Q (E : exn -> Sec W -> Prop) s :
  (forall w, wp c Q E (set_world w s)) -> (forall w, E OtherError (set_world w s)) -> wp (statement c) Q E s.
Proof. intros H1 H2. unfold statement. apply wp_bind, wp_host. intros w [|] _; [apply H2|apply H1]. Qed.

Lemma sound_world w s : sound s -> sound (set_world w s).
Proof. now apply same_sound. Qed.

(** The cache is replaced by what the database says. *)
Lemma sound_cache f s : sc_store s <> None -> sound s -> wf_rows (f (sc_users s)) ->
  (forall k, dict_get k (f (sc_users s)) = dict_get k (rows_of s)) ->
  sound (set_users f s) /\ rows_of (set_users f s) = rows_of s.
Proof.
  intros Hn [H1 H2 H3 H4] Hw Hk. assert (Hr : rows_of (set_users f s) = rows_of s).
  { unfold rows_of. cbn. now destruct (sc_store s). }
  split; [|exact Hr]. split; rewrite ?Hr; auto.
Qed.

Lemma all_accounts_reads s : sound s -> wp (all_accounts (W := W)) (reads s) (fun _ _ => False) s.
Proof.
  intros Hs. pose proof (so_users _ Hs) as H1. pose proof (so_rows _ Hs) as H2. pose proof (so_sync _ Hs) as H3.
  unfold all_accounts. apply wp_bind, wp_gets. unfold id.
  destruct (sc_store s) as [rows|] eqn:Es; [|apply wp_ret; repeat (split; [done|]); exact H3].
  assert (Er : rows_of s = rows) by (unfold rows_of; now rewrite Es).
  apply wp_bind, wp_attempt, wp_statement; intros w; apply wp_ret.
  - apply wp_bind, wp_modify, wp_ret.
    destruct (sound_cache (fun _ => rows) (set_world w s)) as [Ha Hb]; cbn; rewrite ?Es; try congruence; try now apply sound_world.
    + now rewrite <- Er.
    + repeat (split; [first [done|exact Hb]|]). split; [now rewrite <- Er|]. intros k. now rewrite <- Er.
  - split; [now apply sound_world|]. repeat (split; [done|]). exact H3.
Qed.

(** An account read again is the one of the database, if it can be read. *)
Lemma reload_sound u s : sound s -> wp (reload_user (W := W) u)
  (fun r s' => sound s' /\ rows_of s' = rows_of s /\ r = dict_get u (rows_of s)) (fun _ _ => False) s.
Proof.
  intros Hs. pose proof (so_users _ Hs) as H1. pose proof (so_rows _ Hs) as H2. pose proof (so_sync _ Hs) as H3.
  unfold reload_user. apply wp_bind, wp_gets. unfold id.
  destruct (sc_store s) as [rows|] eqn:Es; [|apply wp_ret; repeat (split; [done|]); apply H3].
  assert (Er : rows_of s = rows) by (unfold rows_of; now rewrite Es).
  apply wp_bind, wp_attempt, wp_statement; intros w; apply wp_ret.
  - rewrite <- Er. destruct (dict_get u (rows_of s)) as [fresh|] eqn:Eu; apply wp_bind, wp_modify, wp_ret.
    + destruct (sound_cache (dict_set u fresh) (set_world w s)) as [Ha Hb]; cbn; rewrite ?Es; try congruence; try now apply sound_world.
      * apply wf_set; [exact H1|]. now apply H2.
      * intros k. change (default _ (Some rows)) with rows. rewrite <- Er, dict_get_set, H3. case_bool_decide; [|done]. subst k. now rewrite <- Eu.
      * repeat (split; [first [done|exact Hb]|]). done.
    + destruct (sound_cache (dict_del u) (set_world w s)) as [Ha Hb]; cbn; rewrite ?Es; try congruence; try now apply sound_world.
      * now apply wf_del.
      * intros k. change (default _ (Some rows)) with rows. rewrite <- Er, dict_get_del, H3 by apply H1. case_bool_decide; [|done]. subst k. now rewrite <- Eu.
      * repeat (split; [first [done|exact Hb]|]). done.
  - split; [now apply sound_world|]. split; [done|]. apply H3.
Qed.

(** An account that may be replaced is saved in the database and, after it, in the
    cache. *)
Definition replaces (u : User) (k : string) s : Prop :=
  us_username u = k /\ may_replace k (is_owner u) (rows_of s) /\
  forall old, dict_get k (rows_of s) = Some old -> us_created_ns u = us_created_ns old.

Lemma put_sound u k s s' : sound s -> replaces u k s -> sc_users s' = dict_set k u (sc_users s) ->
  rows_of s' = dict_set k u (rows_of s) -> sound s'.
Proof.
  intros [H1 H2 H3 H4] (Hu & Hm & _) Eu Er. split; rewrite ?Eu, ?Er.
  - now apply wf_set.
  - now apply wf_set.
  - intros k'. now rewrite !dict_get_set, H3.
  - now apply owned_set.
Qed.

Lemma persist_saves u k s : sound s -> replaces u k s ->
  wp (persist (W := W) u) (fun saved s' => if saved : bool then sound (set_users (dict_set k u) s') else sound s')
     (fun _ _ => False) s.
Proof.
  intros Hs Hr. destruct Hr as (Hu & Hm & Hc) eqn:E; clear E. unfold persist. apply wp_bind, wp_gets.
  destruct (sc_store s) as [rows|] eqn:Es.
  - assert (Er : rows_of s = rows) by (unfold rows_of; now rewrite Es).
    apply wp_bind, wp_attempt, wp_statement; intros w.
    + apply wp_modify, wp_ret. apply (put_sound u k s); auto. unfold rows_of at 1. cbn. rewrite Er.
      destruct (dict_get k rows) as [old|] eqn:Eo; [|now apply upsert_new].
      apply (upsert_same u k rows old); auto. apply Hc. now rewrite Er.
    + unfold audit. wps. now apply (same_sound s).
  - apply wp_ret. apply (put_sound u k s); auto. unfold rows_of. cbn. now rewrite Es.
Qed.

(** [persist], then the cache, then what keeps the accounts. *)
Lemma save_sound u k (after : SM bool) s : sound s -> replaces u k s -> Steps same_accounts after ->
  wp (let! saved := persist u in if negb saved then ret false else put_user u k ;! after)
     (fun _ => sound) (fun _ => sound) s.
Proof.
  intros Hs Hr Ha. apply wp_bind. eapply wp_mono; [exact (persist_saves u k s Hs Hr)| |intros ? ? []].
  intros [|] s' H; cbn [negb]; [|exact H]. apply wp_bind. unfold put_user. apply wp_modify.
  pose proof (Ha (set_users (dict_set k u) s')) as Hl. unfold wp.
  destruct (after (set_users (dict_set k u) s')) as [s'' [b|e]]; exact (same_sound _ _ Hl H).
Qed.

(** The last owner is not taken away. *)
Lemma last_owner_sound k s : sound s ->
  wp (last_owner_problem (W := W) k)
     (fun b s' => sound s' /\ rows_of s' = rows_of s /\ sc_store s' = sc_store s /\ (b = false -> may_replace k false (rows_of s)))
     (fun _ _ => False) s.
Proof.
  intros Hs. unfold last_owner_problem. apply wp_bind. eapply wp_mono; [exact (all_accounts_reads s Hs)| |auto].
  intros d s' (H1 & H2 & H3 & H4 & H5). rewrite H5. destruct (dict_get k (rows_of s)) as [u|] eqn:Eu; apply wp_ret.
  - repeat (split; [done|]). intros Hb old. rewrite Eu. intros [= <-] Ho. right. rewrite Ho in Hb. cbn in Hb.
    apply bool_decide_eq_false in Hb. destruct (owner_names_other d k H4 Hb) as (k' & u' & Hn & Hk & Hu').
    exists k', u'. now rewrite <- H5.
  - repeat (split; [done|]). intros _ old. now rewrite Eu.
Qed.

Ltac same_leaf :=
  lazymatch goal with
  | |- Steps _ (host _) => apply same_host
  | |- Steps _ (modify _) => intros ?; now split
  | |- Steps _ (audit _) => intros ?; now split
  | |- Steps _ monotonic => apply same_host
  | |- _ => solve [eauto]
  end.

Lemma replaces_rows u k s s' : rows_of s' = rows_of s -> replaces u k s -> replaces u k s'.
Proof. unfold replaces. now intros ->. Qed.

Lemma may_replace_weaken k b d : may_replace k false d -> may_replace k b d.
Proof. intros H old Hk Ho. destruct (H old Hk Ho) as [[=]|H']. now right. Qed.

(** A new version of an account. *)
Lemma replaces_version x x' u s : wf_rows (rows_of s) -> dict_get u (rows_of s) = Some x ->
  us_username x' = us_username x -> us_created_ns x' = us_created_ns x ->
  (is_owner x = true -> is_owner x' = true \/ may_replace u false (rows_of s)) -> replaces x' u s.
Proof.
  intros [_ Hw] Hx Hn Hc Ho. split; [rewrite Hn; now apply Hw|]. split.
  - intros old Hold Hown. rewrite Hx in Hold. injection Hold as <-. destruct (Ho Hown) as [H|H]; [now left|].
    destruct (H x Hx Hown) as [[=]|H']. now right.
  - intros old Hold. rewrite Hx in Hold. now injection Hold as <-.
Qed.

Lemma set_password_sound u p s : sound s -> wp (set_password (W := W) u p) (fun _ => sound) (fun _ => sound) s.
Proof.
  intros Hs. unfold set_password. apply wp_bind, wp_gets. destruct (dict_get u (sc_users s)) as [x|] eqn:Ex; [|exact Hs].
  destruct (check_password_policy p u); [exact Hs|]. apply wp_bind, wp_host. intros w h _.
  apply save_sound; [now apply sound_world| |steps; same_leaf]. rewrite (so_sync _ Hs) in Ex.
  apply (replaces_version x); auto. apply (so_rows _ Hs).
Qed.

Lemma rotate_sound u s : sound s -> wp (rotate_totp (W := W) u) (fun _ => sound) (fun _ => sound) s.
Proof.
  intros Hs. unfold rotate_totp. apply wp_bind, wp_gets. destruct (dict_get u (sc_users s)) as [x|] eqn:Ex; [|exact Hs].
  apply wp_bind, wp_host. intros w h _.
  apply save_sound; [now apply sound_world| |unfold drop_sessions; steps; same_leaf]. rewrite (so_sync _ Hs) in Ex.
  apply (replaces_version x); auto. apply (so_rows _ Hs).
Qed.

(** A change of the accounts as they were read, past the check of the last owner. *)
Lemma guarded_save u x x' (risky : bool) (after : SM bool) s : sound s -> dict_get u (rows_of s) = Some x ->
  us_username x' = us_username x -> us_created_ns x' = us_created_ns x ->
  (risky = false -> is_owner x = true -> is_owner x' = true) -> Steps same_accounts after ->
  wp (let! problem := (if risky then last_owner_problem u else ret false) in
      if problem : bool then throw ValueError
      else let! saved := persist x' in if negb saved then ret false else put_user x' u ;! after)
     (fun _ => sound) (fun _ => sound) s.
Proof.
  intros Hs Hx Hn Hc Ho Ha. apply wp_bind.
  apply (wp_mono _ (fun b s' => sound s' /\ rows_of s' = rows_of s /\
                      (b = false -> risky = true -> may_replace u false (rows_of s))) _ (fun _ _ => False)); [| |intros ? ? []].
  - destruct risky; [|now apply wp_ret]. eapply wp_mono; [exact (last_owner_sound u s Hs)| |auto].
    intros b s' (H1 & H2 & _ & H3). auto.
  - intros [|] s' (H1 & H2 & H3); [now apply wp_throw|]. apply save_sound; [exact H1| |exact Ha].
    apply (replaces_version x); rewrite ?H2; auto; [apply (so_rows _ Hs)|]. intros Hown.
    destruct risky; [right; now apply H3|left; now apply Ho].
Qed.

Lemma set_role_sound u r s : sound s -> wp (set_role (W := W) u r) (fun _ => sound) (fun _ => sound) s.
Proof.
  intros Hs. unfold set_role. destruct (negb _); [exact Hs|]. apply wp_bind.
  eapply wp_mono; [exact (all_accounts_reads s Hs)| |intros ? ? []]. intros d s' (H1 & H2 & _ & H4 & H5). rewrite H5, <- H2.
  destruct (dict_get u (rows_of s')) as [x|] eqn:Ex; [|exact H1].
  eapply wp_same; [|apply (guarded_save u x (with_role r x) (negb (bool_decide (r = "owner")))
                     (audit (EvWrite "role_changed" u) ;! ret true) s' H1 Ex); try done].
  - now destruct (bool_decide (r = "owner")).
  - intros Hr%negb_false_iff%bool_decide_eq_true. unfold is_owner, with_role. cbn. subst r. now intros [_ ->]%andb_prop.
Qed.

Lemma set_disabled_sound u b s : sound s -> wp (set_disabled (W := W) u b) (fun _ => sound) (fun _ => sound) s.
Proof.
  intros Hs. unfold set_disabled. apply wp_bind, wp_gets. destruct (dict_get u (sc_users s)); [|exact Hs]. apply wp_bind.
  eapply wp_mono; [exact (all_accounts_reads s Hs)| |intros ? ? []]. intros d s' (H1 & H2 & _ & H4 & H5). rewrite H5, <- H2.
  destruct (dict_get u (rows_of s')) as [x|] eqn:Ex; [|exact H1].
  apply (guarded_save u x (with_disabled b x) b _ s' H1 Ex); try done.
  - intros ->. unfold is_owner, with_disabled. cbn. now intros [-> _]%andb_prop.
  - unfold drop_sessions. steps; same_leaf.
Qed.

Lemma add_user_sound u p r t s : sound s -> wp (add_user (W := W) u p r t) (fun _ => sound) (fun _ => sound) s.
Proof.
  intros Hs. unfold add_user. destruct (negb _); [exact Hs|]. cbv zeta. set (name := strip u).
  destruct (check_username name); [exact Hs|]. destruct (check_password_policy p name); [exact Hs|]. apply wp_bind.
  apply (wp_mono _ (fun _ => sound) _ (fun _ _ => False)); [|clear s Hs; intros secret s Hs|intros ? ? []].
  { destruct t as [t|]; [destruct (bool_decide _)|]; try exact Hs; apply wp_host; intros; now apply sound_world. }
  apply wp_bind, wp_host. intros w h _. apply wp_bind, wp_host. intros w' created _. apply wp_bind.
  eapply wp_mono; [apply all_accounts_reads, (same_sound s); [now split|exact Hs]| |intros ? ? []].
  intros d s' (H1 & H2 & _ & H4 & H5). rewrite H5, <- H2. destruct (dict_get name (rows_of s')) eqn:Ex; [exact H1|].
  set (x := mkUser _ _ _ _ _ _).
  assert (Hr : replaces x name s') by (split; [done|]; split; intros old; now rewrite Ex).
  apply wp_bind. eapply wp_mono; [exact (persist_saves x name s' H1 Hr)| |intros ? ? []].
  intros [|] s'' H; cbn [negb]; [|exact H]. unfold put_user, audit. wps. revert H. now apply same_sound.
Qed.

Lemma delete_user_sound u s : sound s -> wp (delete_user (W := W) u) (fun _ => sound) (fun _ => sound) s.
Proof.
  intros Hs. unfold delete_user. apply wp_bind. eapply wp_mono; [exact (last_owner_sound u s Hs)| |intros ? ? []].
  intros [|] s1 (H1 & H2 & _ & H3); [exact H1|]. specialize (H3 eq_refl). rewrite <- H2 in H3. clear s Hs H2. apply wp_bind.
  eapply wp_mono; [exact (all_accounts_reads s1 H1)| |intros ? ? []]. intros d s2 (H4 & H5 & _ & _ & H6).
  rewrite H6. destruct (dict_get u (rows_of s1)) as [x|] eqn:Ex; [|exact H4]. apply wp_bind, wp_gets.
  rewrite <- H5 in H3, Ex. clear s1 H1 H5 H6.
  assert (Hd : forall s', sc_users s' = sc_users s2 -> rows_of (set_users (dict_del u) s') = dict_del u (rows_of s2) ->
                 sound (set_users (dict_del u) s')).
  { intros s' Eu Er. destruct H4 as [K1 K2 K3 K4]. split; rewrite ?Er; cbn; rewrite ?Eu.
    - now apply wf_del.
    - now apply wf_del.
    - intros k. rewrite !dict_get_del, K3 by (apply K1 || apply K2). done.
    - apply owned_del; [apply K2|exact K4|exact H3]. }
  destruct (sc_store s2) as [rows|] eqn:Es.
  - assert (Er : rows_of s2 = rows) by (unfold rows_of; now rewrite Es). apply wp_bind. unfold store_delete.
    apply wp_statement; intros w; [|now apply (same_sound s2)]. rewrite <- Er, Ex. apply wp_bind, wp_modify, wp_ret.
    cbn [negb]. unfold drop_sessions, audit. wps. apply (same_sound (set_users (dict_del u) (set_store (Some (dict_del u rows)) s2))).
    + rewrite Er. now split.
    + apply Hd; [done|]. now rewrite <- Er.
  - apply wp_bind, wp_ret. cbn [negb]. unfold drop_sessions, audit. wps. apply (same_sound (set_users (dict_del u) s2)); [now split|].
    apply Hd; [done|]. unfold rows_of. cbn. now rewrite Es.
Qed.

(** ** Accounts that another process changes too *)

(** Every enabled owner of the copy is one in the database, and the copy has one. *)
Record backed s : Prop := mkBacked {
  ba_users : wf_rows (sc_users s);
  ba_rows : wf_rows (rows_of s);
  ba_owner k u : dict_get k (sc_users s) = Some u -> is_owner u = true ->
    exists row, dict_get k (rows_of s) = Some row /\ is_owner row = true;
  ba_owned : owned (sc_users s)
}.

(** The copy has an enabled owner besides [k]. *)
Definition spare (k : string) s : Prop :=
  exists k' u', k' <> k /\ dict_get k' (sc_users s) = Some u' /\ is_owner u' = true.

Lemma backed_owned s : backed s -> owned (rows_of s).
Proof. intros [_ _ H (k & u & Hk & Hu)]. destruct (H k u Hk Hu) as (row & Hr & Ho). now exists k, row. Qed.

Lemma sound_backed s : sound s -> backed s.
Proof.
  intros [H1 H2 H3 (k & u & Hk & Hu)]. split; auto.
  - intros k' u' Hk' Hu'. exists u'. now rewrite <- H3.
  - exists k, u. now rewrite H3.
Qed.

Lemma same_backed s s' : same_accounts s s' -> backed s -> backed s'.
Proof.
  intros [Hu Hs] [H1 H2 H3 H4]. assert (Hr : rows_of s' = rows_of s) by (unfold rows_of; now rewrite Hu, Hs).
  split; rewrite ?Hr, ?Hu; auto.
Qed.
Lemma same_spare k s s' : same_accounts s s' -> spare k s -> spare k s'.
Proof. intros [Hu _]. unfold spare. now rewrite Hu. Qed.
Lemma same_keeps_backed {A} (c : SM (W := W) A) : Steps same_accounts c -> Steps (keeps backed) c.
Proof. intros Hc s. exact (same_backed s _ (Hc s)). Qed.

Lemma owned_spare k s : owned (sc_users s) -> (forall u, dict_get k (sc_users s) = Some u -> is_owner u = false) -> spare k s.
Proof.
  intros (k0 & u0 & Hk & Ho) Hn. exists k0, u0. split; [|auto]. intros ->. rewrite (Hn u0 Hk) in Ho. discriminate.
Qed.

(** The copy is read again from the database. *)
Lemma backed_refresh s : backed s -> sc_store s <> None ->
  backed (set_users (fun _ => rows_of s) s) /\ forall k, spare k s -> spare k (set_users (fun _ => rows_of s) s).
Proof.
  intros Hb Hn. pose proof (backed_owned s Hb) as Ho. destruct Hb as [_ H2 H3 _].
  assert (Hr : rows_of (set_users (fun _ => rows_of s) s) = rows_of s) by (unfold rows_of; cbn; now destruct (sc_store s)).
  split; [split; rewrite ?Hr; cbn; eauto|]. intros k (k' & u' & Hne & Hk & Hu). destruct (H3 k' u' Hk Hu) as (row & Hrow & Hrw).
  now exists k', row.
Qed.

Lemma all_accounts_backed s : backed s -> wp (all_accounts (W := W))
  (fun d s' => backed s' /\ d = sc_users s' /\ forall k, spare k s -> spare k s') (fun _ _ => False) s.
Proof.
  intros Hs. unfold all_accounts. apply wp_bind, wp_gets. unfold id. destruct (sc_store s) as [rows|] eqn:Es; [|now apply wp_ret].
  apply wp_bind, wp_attempt, wp_statement; intros w; apply wp_ret.
  - apply wp_bind, wp_modify, wp_ret.
    destruct (backed_refresh (set_world w s)) as [H1 H2]; [now apply (same_backed s)|cbn; congruence|].
    replace (rows_of (set_world w s)) with rows in H1, H2 by (unfold rows_of; cbn; now rewrite Es). auto.
  - split; [now apply (same_backed s)|]. split; [reflexivity|]. intros k. now apply same_spare.
Qed.

Lemma reload_backed u s : backed s -> wp (reload_user (W := W) u) (fun _ => backed) (fun _ _ => False) s.
Proof.
  intros Hs. unfold reload_user. apply wp_bind, wp_gets. unfold id. destruct (sc_store s) as [rows|] eqn:Es; [|now apply wp_ret].
  apply wp_bind, wp_attempt, wp_statement; intros w; apply wp_ret; [|now apply (same_backed s)].
  assert (Er : forall f, rows_of (set_users f (set_world w s)) = rows) by (intros f; unfold rows_of; cbn; now rewrite Es).
  assert (Er' : rows_of s = rows) by (unfold rows_of; now rewrite Es).
  destruct Hs as [H1 H2 H3 (k0 & u0 & Hk0 & Hu0)]. rewrite Er' in H2, H3. destruct (H3 k0 u0 Hk0 Hu0) as (row0 & Hr0 & Ho0).
  destruct (dict_get u rows) as [fresh|] eqn:Eu; apply wp_bind, wp_modify, wp_ret; split; rewrite ?Er; auto; cbn [set_users set_world sc_users].
  - apply wf_set; [exact H1|]. now apply H2.
  - intros k x. rewrite dict_get_set. case_bool_decide as E; [intros [= <-]; subst; eauto|apply H3].
  - exists k0. rewrite dict_get_set. case_bool_decide as E; [subst; exists fresh; split; [done|congruence]|now exists u0].
  - now apply wf_del.
  - intros k x. rewrite dict_get_del by apply H1. case_bool_decide; [discriminate|apply H3].
  - exists k0, u0. rewrite dict_get_del by apply H1. case_bool_decide; [congruence|done].
Qed.

Lemma upsert_is_set u d : exists v, upsert_row u d = dict_set (us_username u) v d /\ us_username v = us_username u /\ is_owner v = is_owner u.
Proof. unfold upsert_row. destruct (dict_get (us_username u) d); eauto. Qed.

(** An account is saved in the database and, after it, in the copy. *)
Lemma put_backed u v k s s' : backed s -> us_username u = k -> us_username v = k -> is_owner v = is_owner u ->
  owned (dict_set k u (sc_users s)) -> sc_users s' = dict_set k u (sc_users s) -> rows_of s' = dict_set k v (rows_of s) -> backed s'.
Proof.
  intros [H1 H2 H3 H4] Hu Hv Ho Hown Eu Er. split; rewrite ?Eu, ?Er; auto using wf_set.
  intros k' x. rewrite !dict_get_set. case_bool_decide; [intros [= <-] Hx; exists v; split; congruence|apply H3].
Qed.

Lemma persist_backed u k s : backed s -> us_username u = k -> owned (dict_set k u (sc_users s)) ->
  wp (persist (W := W) u) (fun saved s' => if saved : bool then backed (set_users (dict_set k u) s') else backed s') (fun _ _ => False) s.
Proof.
  intros Hs Hu Hown. unfold persist. apply wp_bind, wp_gets. destruct (sc_store s) as [rows|] eqn:Es.
  - apply wp_bind, wp_attempt, wp_statement; intros w; [|unfold audit; wps; now apply (same_backed s)].
    apply wp_modify, wp_ret. destruct (upsert_is_set u rows) as (v & Ev & Hv & Ho). rewrite Hu in Ev, Hv.
    apply (put_backed u v k s); auto. unfold rows_of. cbn. rewrite Es. exact Ev.
  - apply wp_ret. apply (put_backed u u k s); auto. unfold rows_of. cbn. now rewrite Es.
Qed.

Lemma save_backed u k (after : SM bool) s : backed s -> us_username u = k -> owned (dict_set k u (sc_users s)) ->
  Steps same_accounts after ->
  wp (let! saved := persist u in if negb saved then ret false else put_user u k ;! after)
     (fun _ => backed) (fun _ => backed) s.
Proof.
  intros Hs Hu Hown Ha. apply wp_bind. eapply wp_mono; [exact (persist_backed u k s Hs Hu Hown)| |intros ? ? []].
  intros [|] s' H; cbn [negb]; [|exact H]. apply wp_bind. unfold put_user. apply wp_modify.
  pose proof (Ha (set_users (dict_set k u) s')) as Hl. unfold wp.
  destruct (after (set_users (dict_set k u) s')) as [s'' [b|e]]; exact (same_backed _ _ Hl H).
Qed.

(** The copy still has an owner once [x'] is at [k]: it is one, another is, or [k] was none. *)
Lemma owned_put k x' s : backed s -> is_owner x' = true \/ spare k s \/ (forall x, dict_get k (sc_users s) = Some x -> is_owner x = false) ->
  owned (dict_set k x' (sc_users s)).
Proof.
  intros Hb H. assert (is_owner x' = true \/ spare k s) as [Ho|(k' & u' & Hn & Hk & Hu)].
  { destruct H as [H|[H|H]]; [now left|now right|right; apply owned_spare; [apply Hb|exact H]]. }
  - exists k, x'. now rewrite dict_get_set, bool_decide_eq_true_2.
  - exists k', u'. now rewrite dict_get_set, bool_decide_eq_false_2 by congruence.
Qed.

Lemma last_owner_backed k s : backed s ->
  wp (last_owner_problem (W := W) k) (fun b s' => backed s' /\ (b = false -> spare k s')) (fun _ _ => False) s.
Proof.
  intros Hs. unfold last_owner_problem. apply wp_bind. eapply wp_mono; [exact (all_accounts_backed s Hs)| |auto].
  intros d s' (H1 & -> & _). destruct (dict_get k (sc_users s')) as [u|] eqn:Eu; apply wp_ret; (split; [exact H1|]); intros Hb.
  - destruct (is_owner u) eqn:Eo; cbn in Hb.
    + apply bool_decide_eq_false in Hb. apply owner_names_other; [apply H1|exact Hb].
    + apply owned_spare; [apply H1|]. intros u'. rewrite Eu. now intros [= <-].
  - apply owned_spare; [apply H1|]. intros u'. now rewrite Eu.
Qed.

(** A new version of an account of the copy that is an owner if that was. *)
Lemma save_version u x x' (after : SM bool) s : backed s -> dict_get u (sc_users s) = Some x -> us_username x' = us_username x ->
  (is_owner x = true -> is_owner x' = true) -> Steps same_accounts after ->
  wp (let! saved := persist x' in if negb saved then ret false else put_user x' u ;! after) (fun _ => backed) (fun _ => backed) s.
Proof.
  intros Hs Hx Hn Ho Ha. apply save_backed; auto.
  - rewrite Hn. now apply (ba_users s Hs).
  - apply owned_put; [exact Hs|]. destruct (is_owner x) eqn:E; [left; auto|right; right]. intros y. rewrite Hx. now intros [= <-].
Qed.

Lemma set_password_backed u p s : backed s -> wp (set_password (W := W) u p) (fun _ => backed) (fun _ => backed) s.
Proof.
  intros Hs. unfold set_password. apply wp_bind, wp_gets. destruct (dict_get u (sc_users s)) as [x|] eqn:Ex; [|exact Hs].
  destruct (check_password_policy p u); [exact Hs|]. apply wp_bind, wp_host. intros w h _.
  apply (save_version u x); auto; [now apply (same_backed s)|steps; same_leaf].
Qed.

Lemma rotate_backed u s : backed s -> wp (rotate_totp (W := W) u) (fun _ => backed) (fun _ => backed) s.
Proof.
  intros Hs. unfold rotate_totp. apply wp_bind, wp_gets. destruct (dict_get u (sc_users s)) as [x|] eqn:Ex; [|exact Hs].
  apply wp_bind, wp_host. intros w h _.
  apply (save_version u x); auto; [now apply (same_backed s)|unfold drop_sessions; steps; same_leaf].
Qed.

(** A change of an account as it was read, past the check of the last owner. *)
Lemma guarded_save_backed u x x' (risky : bool) (after : SM bool) s : backed s -> dict_get u (sc_users s) = Some x ->
  us_username x' = us_username x -> (risky = false -> is_owner x = true -> is_owner x' = true) -> Steps same_accounts after ->
  wp (let! problem := (if risky then last_owner_problem u else ret false) in
      if problem : bool then throw ValueError
      else let! saved := persist x' in if negb saved then ret false else put_user x' u ;! after)
     (fun _ => backed) (fun _ => backed) s.
Proof.
  intros Hs Hx Hn Ho Ha. assert (Hname : us_username x' = u) by (rewrite Hn; now apply (ba_users s Hs)). apply wp_bind.
  destruct risky; [|apply wp_ret; apply (save_version u x); auto].
  eapply wp_mono; [exact (last_owner_backed u s Hs)| |intros ? ? []]. intros [|] s' (H1 & H2); [now apply wp_throw|].
  apply save_backed; auto. apply owned_put; auto.
Qed.

Lemma set_role_backed u r s : backed s -> wp (set_role (W := W) u r) (fun _ => backed) (fun _ => backed) s.
Proof.
  intros Hs. unfold set_role. destruct (negb _); [exact Hs|]. apply wp_bind.
  eapply wp_mono; [exact (all_accounts_backed s Hs)| |intros ? ? []]. intros d s' (H1 & -> & _).
  destruct (dict_get u (sc_users s')) as [x|] eqn:Ex; [|exact H1].
  eapply wp_same; [|apply (guarded_save_backed u x (with_role r x) (negb (bool_decide (r = "owner")))
                     (audit (EvWrite "role_changed" u) ;! ret true) s' H1 Ex); try done].
  - now destruct (bool_decide (r = "owner")).
  - intros Hr%negb_false_iff%bool_decide_eq_true. unfold is_owner, with_role. cbn. subst r. now intros [_ ->]%andb_prop.
Qed.

Lemma set_disabled_backed u b s : backed s -> wp (set_disabled (W := W) u b) (fun _ => backed) (fun _ => backed) s.
Proof.
  intros Hs. unfold set_disabled. apply wp_bind, wp_gets. destruct (dict_get u (sc_users s)); [|exact Hs]. apply wp_bind.
  eapply wp_mono; [exact (all_accounts_backed s Hs)| |intros ? ? []]. intros d s' (H1 & -> & _).
  destruct (dict_get u (sc_users s')) as [x|] eqn:Ex; [|exact H1].
  apply (guarded_save_backed u x (with_disabled b x) b _ s' H1 Ex); try done.
  - intros ->. unfold is_owner, with_disabled. cbn. now intros [-> _]%andb_prop.
  - unfold drop_sessions. steps; same_leaf.
Qed.

Lemma add_user_backed u p r t s : backed s -> wp (add_user (W := W) u p r t) (fun _ => backed) (fun _ => backed) s.
Proof.
  intros Hs. unfold add_user. destruct (negb _); [exact Hs|]. cbv zeta. set (name := strip u).
  destruct (check_username name); [exact Hs|]. destruct (check_password_policy p name); [exact Hs|]. apply wp_bind.
  apply (wp_mono _ (fun _ => backed) _ (fun _ _ => False)); [|clear s Hs; intros secret s Hs|intros ? ? []].
  { destruct t as [t|]; [destruct (bool_decide _)|]; try exact Hs; apply wp_host; intros; now apply (same_backed s). }
  apply wp_bind, wp_host. intros w h _. apply wp_bind, wp_host. intros w' created _. apply wp_bind.
  eapply wp_mono; [apply all_accounts_backed, (same_backed s); [now split|exact Hs]| |intros ? ? []].
  intros d s' (H1 & -> & _). destruct (dict_get name (sc_users s')) eqn:Ex; [exact H1|].
  set (x := mkUser _ _ _ _ _ _). apply wp_bind.
  eapply wp_mono; [apply (persist_backed x name s' H1 eq_refl)| |intros ? ? []].
  { apply owned_put; [exact H1|]. right. right. intros y. now rewrite Ex. }
  intros [|] s'' H; cbn [negb]; [|exact H]. unfold put_user, audit. wps. revert H. now apply same_backed.
Qed.

Lemma delete_user_backed u s : backed s -> wp (delete_user (W := W) u) (fun _ => backed) (fun _ => backed) s.
Proof.
  intros Hs. unfold delete_user. apply wp_bind. eapply wp_mono; [exact (last_owner_backed u s Hs)| |intros ? ? []].
  intros [|] s1 (H1 & H3); [exact H1|]. specialize (H3 eq_refl). apply wp_bind.
  eapply wp_mono; [exact (all_accounts_backed s1 H1)| |intros ? ? []]. intros d s2 (H4 & -> & H5). specialize (H5 u H3).
  destruct (dict_get u (sc_users s2)) as [x|] eqn:Ex; [|exact H4]. apply wp_bind, wp_gets. clear s Hs s1 H1 H3.
  assert (Hd : forall s', sc_users s' = sc_users s2 -> rows_of (set_users (dict_del u) s') = dict_del u (rows_of s2) ->
                 backed (set_users (dict_del u) s')).
  { intros s' Eu Er. destruct H4 as [K1 K2 K3 K4]. destruct H5 as (k' & u' & Hn & Hk' & Hu').
    split; rewrite ?Er; cbn; rewrite ?Eu; auto using wf_del.
    - intros k v. rewrite !dict_get_del by (apply K1 || apply K2). case_bool_decide; [discriminate|apply K3].
    - exists k', u'. rewrite dict_get_del by apply K1. now rewrite bool_decide_eq_false_2. }
  destruct (sc_store s2) as [rows|] eqn:Es.
  - assert (Er : rows_of s2 = rows) by (unfold rows_of; now rewrite Es). apply wp_bind. unfold store_delete.
    apply wp_statement; intros w; [|now apply (same_backed s2)].
    destruct (dict_get u rows); [|apply wp_ret; cbn [negb]; now apply (same_backed s2)]. apply wp_bind, wp_modify, wp_ret.
    cbn [negb]. unfold drop_sessions, audit. wps. apply (same_backed (set_users (dict_del u) (set_store (Some (dict_del u rows)) s2))).
    + now split.
    + apply Hd; [done|]. now rewrite Er.
  - apply wp_bind, wp_ret. cbn [negb]. unfold drop_sessions, audit. wps. apply (same_backed (set_users (dict_del u) s2)); [now split|].
    apply Hd; [done|]. unfold rows_of. cbn. now rewrite Es.
Qed.

(** ** The calls *)

Lemma locked_out_same k : Steps same_accounts (locked_out (W := W) k).
Proof. unfold locked_out. steps; same_leaf. Qed.
Lemma record_failure_same k : Steps same_accounts (record_failure (W := W) cfg k).
Proof. unfold record_failure. steps; same_leaf. Qed.
Lemma prune_same : Steps same_accounts (prune_tracking (W := W) cfg).
Proof. unfold prune_tracking, wall_ns. steps; same_leaf. Qed.
Lemma check_rate_same k n : Steps same_accounts (check_rate (W := W) k n).
Proof. unfold check_rate. steps; same_leaf. Qed.
Lemma verify_totp_same u c : Steps same_accounts (verify_totp (W := W) u c).
Proof. unfold verify_totp. steps; same_leaf. Qed.
Lemma commit_same t u c a : Steps same_accounts (commit_write (W := W) t u c a).
Proof. unfold commit_write, consume_totp. steps; same_leaf. Qed.
#[local] Hint Resolve locked_out_same record_failure_same prune_same check_rate_same verify_totp_same commit_same : core.
Lemma first_lock_same ks : Steps same_accounts (first_lock (W := W) ks).
Proof. induction ks as [|k ks IH]; cbn [first_lock]; steps; same_leaf. Qed.
#[local] Hint Resolve first_lock_same : core.

(** The change of the database by another process, and the calls that change an account. *)
Definition external (c : SecCall) : bool := match c with CallExternal _ => true | _ => false end.
Definition administers (c : SecCall) : bool :=
  match c with
  | CallAddUser _ _ _ _ | CallSetPassword _ _ | CallSetRole _ _ | CallSetDisabled _ _ | CallDeleteUser _ | CallRotateTotp _ => true
  | _ => false
  end.

(** What reading the accounts again keeps, every other call keeps. *)
Section Kept.
Variable I : Sec W -> Prop.
Hypothesis I_same : forall s s', same_accounts s s' -> I s -> I s'.
Hypothesis I_reload : forall u s, I s -> wp (reload_user u) (fun _ => I) (fun _ _ => False) s.
Hypothesis I_accounts : forall s, I s -> wp all_accounts (fun _ => I) (fun _ _ => False) s.

Lemma I_keeps {A} (c : SM (W := W) A) : Steps same_accounts c -> Steps (keeps I) c.
Proof. intros Hc s. exact (I_same s _ (Hc s)). Qed.
Lemma I_wp {A} (c : SM (W := W) A) : (forall s, I s -> wp c (fun _ => I) (fun _ _ => False) s) -> Steps (keeps I) c.
Proof. intros H. apply (Steps_wp I). intros s Hs. eapply wp_mono; [exact (H s Hs)|auto|intros ? ? []]. Qed.

Ltac kept_leaf := first [solve [eauto]|apply I_wp; solve [eauto]|apply I_keeps; same_leaf].

Lemma admit_keeps u c a o : Steps (keeps I) (admit_write (W := W) cfg u c a o).
Proof. unfold admit_write, second_factor, drop_sessions. steps; kept_leaf. Qed.
Lemma try_login_keeps u p ua ip : Steps (keeps I) (try_login (W := W) cfg u p ua ip).
Proof. unfold try_login, wall_ns. cbn [each]. steps; kept_leaf. Qed.
#[local] Hint Resolve admit_keeps try_login_keeps : core.

Lemma run_kept c : administers c = false -> external c = false -> Steps (keeps I) (run_sec (W := W) cfg c).
Proof.
  intros Ha Hc. destruct c; try discriminate; unfold run_sec, answer; steps; try kept_leaf.
  - unfold login. steps; kept_leaf.
  - unfold verify_token, check_session, get_session, pop_session, wall_ns. steps; kept_leaf.
  - unfold logout, get_session, pop_session. steps; kept_leaf.
  - unfold purge_expired, wall_ns. steps; kept_leaf.
  - unfold authorise_write. steps; kept_leaf.
  - unfold enabled_owners. steps; kept_leaf.
Qed.

(** A call that changes an account keeps it when its body does. *)
Lemma answer_kept {A} (f : A -> SecAnswer) (c : SM A) : (forall s, I s -> wp c (fun _ => I) (fun _ => I) s) -> Steps (keeps I) (answer f c).
Proof. intros H. unfold answer. steps. now apply (Steps_wp I). Qed.
End Kept.

Lemma run_sound c : external c = false -> Steps (keeps sound) (run_sec (W := W) cfg c).
Proof.
  intros Hc. destruct (administers c) eqn:Ha.
  - destruct c; try discriminate; apply answer_kept; intros s Hs;
      auto using add_user_sound, set_password_sound, set_role_sound, set_disabled_sound, delete_user_sound, rotate_sound.
  - apply run_kept; try assumption; [exact same_sound| |].
    + intros u s Hs. eapply wp_mono; [exact (reload_sound u s Hs)| |auto]. now intros r s' [H _].
    + intros s Hs. eapply wp_mono; [exact (all_accounts_reads s Hs)| |auto]. now intros r s' [H _].
Qed.

Lemma run_backed c : external c = false -> Steps (keeps backed) (run_sec (W := W) cfg c).
Proof.
  intros Hc. destruct (administers c) eqn:Ha.
  - destruct c; try discriminate; apply answer_kept; intros s Hs;
      auto using add_user_backed, set_password_backed, set_role_backed, set_disabled_backed, delete_user_backed, rotate_backed.
  - apply run_kept; try assumption; [exact same_backed|exact reload_backed|].
    intros s Hs. eapply wp_mono; [exact (all_accounts_backed s Hs)| |auto]. now intros r s' [H _].
Qed.

(** Another process takes no enabled owner away: what it leaves is a table of accounts in
    which every enabled owner is still one. *)
Definition retains (old new : Rows) : Prop :=
  wf_rows new /\ forall k u, dict_get k old = Some u -> is_owner u = true -> exists u', dict_get k new = Some u' /\ is_owner u' = true.
Fixpoint spared (cs : list SecCall) s : Prop :=
  match cs with
  | [] => True
  | c :: rest => (forall rows, c = CallExternal rows -> retains (rows_of s) rows) /\ spared rest (run_sec cfg c s).1
  end.

Lemma external_backed rows s : backed s -> retains (rows_of s) rows -> backed (set_store (Some rows) s).
Proof.
  intros [H1 H2 H3 H4] [Hw Hr]. split; auto. intros k u Hk Hu. destruct (H3 k u Hk Hu) as (row & E & Ho). exact (Hr k row E Ho).
Qed.

Lemma run_all_backed cs : forall s, backed s -> spared cs s -> backed (run_all cfg cs s).1.
Proof.
  induction cs as [|c cs IH]; intros s Hs H; [exact Hs|]. destruct H as [Hc H]. rewrite run_all_cons. cbn [fst]. apply IH; [|exact H].
  destruct (external c) eqn:E; [|now apply (run_backed c E)]. destruct c; try discriminate. apply external_backed; auto.
Qed.

Lemma run_all_sound cs : Forall (fun c => external c = false) cs -> forall s, sound s -> sound (run_all cfg cs s).1.
Proof.
  induction 1 as [|c cs Hx _ IH]; intros s Hs; [exact Hs|]. rewrite run_all_cons. cbn [fst]. apply IH. now apply (run_sound c Hx).
Qed.

(** C14: An owner remains.  From a state in which the copy of the accounts agrees with
    the database and an enabled owner exists, no sequence of calls (adding, disabling,
    demoting and deleting accounts, new passwords and secrets, logins and writes) and of
    changes by another process that takes no enabled owner away leaves the system
    without an enabled owner, whichever statements of the database fail and whichever
    calls raise: an account is judged the last owner on a copy that may be stale, but
    every enabled owner of the copy is one in the database.  If no other process
    changes the accounts, the copy agrees with the database account for account.  A
    change of this process can undo the other's ([password_restores_stale_account]). *)
Theorem owner_survives cs s : sound s -> spared cs s ->
  let s' := (run_all cfg cs s).1 in
  owned (rows_of s') /\
  (forall k u, dict_get k (sc_users s') = Some u -> is_owner u = true -> exists row, dict_get k (rows_of s') = Some row /\ is_owner row = true) /\
  (Forall (fun c => external c = false) cs -> forall k, dict_get k (sc_users s') = dict_get k (rows_of s')).
Proof.
  intros Hs Hc s'. assert (Hb : backed s') by (apply run_all_backed; [now apply sound_backed|exact Hc]).
  split; [now apply backed_owned|]. split; [apply Hb|]. intros Hx. now apply (so_sync s'), run_all_sound.
Qed.

(** A new password brings a revoked account back.  Whatever
    another process (the command line) has written to the database in the
    meantime, the account's role, and whether it is disabled, are those of the
    copy this process keeps, once it has answered that the password is changed. *)
Theorem password_restores_stale_account u p rows cached s :
  dict_get u (sc_users s) = Some cached -> us_username cached = u ->
  let s1 := (run_sec cfg (CallExternal rows) s).1 in
  let change := run_sec cfg (CallSetPassword u p) s1 in
  change.2 = Ok (AnsBool true) ->
  exists row, dict_get u (rows_of change.1) = Some row /\ us_role row = us_role cached /\ us_disabled row = us_disabled cached.
Proof.
  intros Hc Hu s1 change Ha. revert Ha. unfold change, run_sec, answer.
  set (Post := fun (b : bool) (s' : Sec W) => b = true -> exists row, dict_get u (rows_of s') = Some row /\ us_role row = us_role cached /\ us_disabled row = us_disabled cached).
  enough (H : wp (set_password u p) Post (fun _ _ => True) s1).
  { unfold wp, mbind_ in *. destruct (set_password u p s1) as [s2 [b|e]]; cbn; [|discriminate]. intros [= ->]. now apply H. }
  assert (E1 : sc_users s1 = sc_users s) by reflexivity. assert (E2 : sc_store s1 = Some rows) by reflexivity.
  unfold set_password. apply wp_bind, wp_gets. rewrite E1, Hc. destruct (check_password_policy p u); [exact I|].
  apply wp_bind, wp_host. intros w h _. apply wp_bind. unfold persist. apply wp_bind, wp_gets. cbn [set_world sc_store]. rewrite E2.
  apply wp_bind, wp_attempt, wp_statement; intros w'; [|unfold audit; wps; discriminate].
  apply wp_modify, wp_ret. cbn [negb]. unfold put_user, audit. wps. intros _.
  unfold rows_of. cbn. unfold upsert_row. cbn [with_hash us_username]. rewrite Hu, dict_get_set, bool_decide_eq_true_2 by done.
  destruct (dict_get u rows); eauto.
Qed.
End Manager.

(** ** Witnesses *)

Lemma demo_sound : sound demo_start.
Proof.
  assert (H : wf_rows demo_rows).
  { split; [apply (bool_decide_unpack _); vm_compute; exact I|]. intros k u. cbn [demo_rows dict_get].
    case_bool_decide as E1; [intros [= <-]; exact E1|]. case_bool_decide as E2; [intros [= <-]; exact E2|discriminate]. }
  split; [exact H|exact H|reflexivity|]. exists "olga", demo_owner. now split.
Qed.

(** The only owner cannot be demoted, nor deleted. *)
Definition demo_coup : list SecCall :=
  [CallSetRole "olga" "viewer"; CallDeleteUser "olga"; CallSetRole "omar" "owner"; CallSetDisabled "olga" true;
   CallDeleteUser "omar"].

(** The command line makes Omar an owner; this process has not read it yet. *)
Definition demo_promotion : list SecCall :=
  CallExternal (dict_set "omar" (with_role "owner" demo_operator) demo_rows) :: CallSetPassword "omar" "another horse battery" :: demo_coup.

Example owner_survives_witness :
  owned (rows_of (run_all demo_config demo_promotion demo_start).1) /\
  (forall k u, dict_get k (sc_users (run_all demo_config demo_promotion demo_start).1) = Some u -> is_owner u = true ->
     exists row, dict_get k (rows_of (run_all demo_config demo_promotion demo_start).1) = Some row /\ is_owner row = true) /\
  (Forall (fun c => external c = false) demo_promotion -> forall k,
     dict_get k (sc_users (run_all demo_config demo_promotion demo_start).1) =
     dict_get k (rows_of (run_all demo_config demo_promotion demo_start).1)).
Proof.
  apply (owner_survives demo_config demo_promotion demo_start demo_sound).
  split; [|cbn [spared]; repeat (split; [discriminate|]); exact I]. intros rows [= <-]. split.
  - split; [apply (bool_decide_unpack _); vm_compute; exact I|]. intros k u. cbn [demo_rows dict_set dict_get].
    repeat (case_bool_decide; [intros [= <-]; assumption|]). discriminate.
  - intros k u Hk Hu. apply dict_get_elem in Hk. apply elem_of_cons in Hk as [[= -> ->]|[[= -> ->]|[]%not_elem_of_nil]%elem_of_cons].
    + exists demo_owner. split; reflexivity.
    + discriminate.
Defined.

(** The command line disables Omar; the dashboard then changes his password. *)
Example password_restores_stale_account_witness :
  let s1 := (run_sec demo_config (CallExternal (dict_set "omar" (with_disabled true demo_operator) demo_rows)) demo_start).1 in
  exists row, dict_get "omar" (rows_of (run_sec demo_config (CallSetPassword "omar" "another horse battery") s1).1) = Some row /\
    us_role row = "operator" /\ us_disabled row = false.
Proof.
  apply (password_restores_stale_account demo_config "omar" "another horse battery"
           (dict_set "omar" (with_disabled true demo_operator) demo_rows) demo_operator demo_start);
    [reflexivity|reflexivity|vm_compute; reflexivity].
Defined.
