(* ===== verification/Clock.v ===== *)
(** [sentinel/core/clock.py]: durations on the monotonic counter, the skew against
    the clock of a venue and the regressions of the wall clock.  The readings of the
    clocks of the process are arguments; quotients of integers are the correctly
    rounded ones of Python. *)

From Stdlib Require Import ZArith Lia SpecFloat.
From stdpp Require Import base list sorting.
From S2P Require Import Prelude PyDecimal Calendar PyFloat FloatTheory IsoTime.

Local Open Scope Z_scope.
Local Open Scope py_scope.

Definition NS_PER_SECOND : Z := 1000000000.
Definition NS_PER_MS : Z := 1000000.

(** [a / b] of integers. *)
Definition int_div (a b : Z) : spec_float := fdiv (raw a) (raw b).
(** [int(x)] of a float. *)
Definition int_of_float (x : spec_float) : res Z :=
  match x with
  | S754_nan => Raise ValueError
  | _ => match modf x with Some (i, _) => Ok i | None => Raise OverflowError end
  end.

(** [ns_to_dt]: the moment in UTC. *)
Definition ns_to_dt (ns : Z) : res datetime := fromtimestamp (int_div ns NS_PER_SECOND).
(** [dt_to_ns] of an aware moment; [aware] tells whether it carries a zone. *)
Definition dt_to_ns (aware : bool) (t : datetime) : res Z :=
  if negb aware then Raise ValueError else int_of_float (fmul (unix_time t) (float_of_Z NS_PER_SECOND)).

(** ** Stopwatch and deadline *)

Record Stopwatch := mkStopwatch { sw_start : Z; sw_stop : option Z }.
Definition start_watch (mono : Z) : Stopwatch := mkStopwatch mono None.
Definition enter_watch (mono : Z) (w : Stopwatch) : Stopwatch := mkStopwatch mono (sw_stop w).
Definition exit_watch (mono : Z) (w : Stopwatch) : Stopwatch := mkStopwatch (sw_start w) (Some mono).
Definition elapsed_ns (mono : Z) (w : Stopwatch) : Z := (match sw_stop w with Some t => t | None => mono end) - sw_start w.
Definition elapsed_ms (mono : Z) (w : Stopwatch) : spec_float := int_div (elapsed_ns mono w) NS_PER_MS.

(** [Deadline(budget_ms)], as the moment it expires at. *)
Definition deadline (mono : Z) (budget_ms : spec_float) : res Z :=
  if fltb budget_ms (float_of_Z 0) then Raise ValueError
  else let* budget := int_of_float (fmul budget_ms (float_of_Z NS_PER_MS)) in Ok (mono + budget).
Definition remaining_ms (mono d : Z) : spec_float := fmax (float_of_Z 0) (int_div (d - mono) NS_PER_MS).
Definition deadline_expired (mono d : Z) : bool := d <=? mono.

(** ** Skew *)

Record SkewSample := mkSkewSample { sk_local_ns : Z; sk_remote_ns : Z; sk_round_trip_ns : Z }.
(** Positive when the clock of the process is ahead of the venue. *)
Definition skew_ns (s : SkewSample) : Z := sk_local_ns s - (sk_remote_ns s + sk_round_trip_ns s / 2).

(** [deque(maxlen=n).append(x)]. *)
Definition push {A} (n : nat) (xs : list A) (x : A) : list A :=
  let ys := xs ++ [x] in drop (length ys - n) ys.

Record ClockMonitor := mkClockMonitor { cm_window : nat; cm_samples : list SkewSample }.
Definition new_monitor (window : nat) : ClockMonitor := mkClockMonitor window [].
Definition observe (m : ClockMonitor) (wall remote_ns round_trip_ns : Z) : ClockMonitor :=
  mkClockMonitor (cm_window m) (push (cm_window m) (cm_samples m) (mkSkewSample wall remote_ns round_trip_ns)).
(** [samples[-1] = s]; a deque of no room has no last sample. *)
Definition replace_last (m : ClockMonitor) (s : SkewSample) : res ClockMonitor :=
  match cm_samples m with
  | [] => Raise IndexError
  | xs => Ok (mkClockMonitor (cm_window m) (take (length xs - 1) xs ++ [s]))
  end.
Definition sample_count (m : ClockMonitor) : nat := length (cm_samples m).
Definition sorted_skews (m : ClockMonitor) : list Z := merge_sort Z.le (map skew_ns (cm_samples m)).

(** The median in nanoseconds: of an even number the mean, a float. *)
Definition median_skew_ms (m : ClockMonitor) : option spec_float :=
  let xs := sorted_skews m in
  let n := length xs in
  let mid := Nat.div n 2 in
  match xs with
  | [] => None
  | _ => Some (if Nat.odd n then int_div (nth mid xs 0) NS_PER_MS
               else fdiv (int_div (nth (mid - 1) xs 0 + nth mid xs 0) 2) (float_of_Z NS_PER_MS))
  end.

(** [min(n - 1, int(p * (n - 1) + 0.5))]. *)
Definition quantile_index (p : spec_float) (n : nat) : res nat :=
  let* k := int_of_float (fadd (fmul p (float_of_Z (Z.of_nat n - 1))) (float_of_dec 0.5%dec)) in
  Ok (Z.to_nat (Z.min (Z.of_nat n - 1) k)).
Definition p95_abs_skew_ms (m : ClockMonitor) : res (option spec_float) :=
  let xs := merge_sort Z.le (map (fun s => Z.abs (skew_ns s)) (cm_samples m)) in
  match xs with
  | [] => Ok None
  | _ => let* i := quantile_index (float_of_dec 0.95%dec) (length xs) in Ok (Some (int_div (nth i xs 0) NS_PER_MS))
  end.
Definition abs_float (x : spec_float) : spec_float := SFabs x.
Definition clock_healthy (m : ClockMonitor) (ceiling_ms : spec_float) : bool :=
  match median_skew_ms m with Some x => fleb (abs_float x) ceiling_ms | None => false end.

(** ** Regressions of the wall clock *)

Record MonotonicGuard := mkMonotonicGuard {
  mg_last_wall : Z;
  mg_last_mono : Z;
  mg_regressions : Z;
  mg_max_regression_ms : spec_float
}.
Definition new_guard (wall mono : Z) : MonotonicGuard := mkMonotonicGuard wall mono 0 (float_of_Z 0).
(** [check]: the two counters may drift apart by 50 ms between two readings. *)
Definition check (g : MonotonicGuard) (wall mono : Z) : MonotonicGuard * option spec_float :=
  let divergence := (wall - mg_last_wall g) - (mono - mg_last_mono g) in
  if divergence <? - 50 * NS_PER_MS then
    let reg := int_div (Z.abs divergence) NS_PER_MS in
    (mkMonotonicGuard wall mono (mg_regressions g + 1) (fmax (mg_max_regression_ms g) reg), Some reg)
  else (mkMonotonicGuard wall mono (mg_regressions g) (mg_max_regression_ms g), None).

Lemma push_length {A} n (xs : list A) x : (length (push n xs x) <= n)%nat.
Proof. unfold push. rewrite length_drop. lia. Qed.

Lemma push_last {A} n (xs : list A) x : (0 < n)%nat -> last (push n xs x) = Some x.
Proof.
  intros Hn. unfold push. rewrite length_app. cbn [length].
  rewrite drop_app_le by lia. apply last_snoc.
Qed.

(** A guard that reads two clocks in step sees no regression. *)
Lemma guard_in_step g k : 0 <= k ->
  check g (mg_last_wall g + k) (mg_last_mono g + k) =
  (mkMonotonicGuard (mg_last_wall g + k) (mg_last_mono g + k) (mg_regressions g) (mg_max_regression_ms g), None).
Proof. intros Hk. unfold check. rewrite (proj2 (Z.ltb_ge _ _)); [reflexivity|unfold NS_PER_MS; lia]. Qed.

Example median_of_two : median_skew_ms (mkClockMonitor 4 [mkSkewSample 3000000 0 0; mkSkewSample 1000000 0 0]) = Some (float_of_Z 2).
Proof. vm_compute. reflexivity. Qed.
Example wall_clock_stepped_back : (check (new_guard 1000000000 0) 900000000 1000000).2 = Some (float_of_Z 101).
Proof. vm_compute. reflexivity. Qed.

(** * The quotient [a / b] of Python integers, as a float: it is a number, and it
    truncates to the integer quotient while the operands are not too large. *)

Definition finite_float (x : spec_float) : bool := match x with S754_infinity _ | S754_nan => false | _ => true end.

Lemma py_round_finite x : finite_float x = true -> py_round x = Ok (fround x).
Proof. now destruct x. Qed.

(** Rounding does not look at the sign. *)
Lemma round_sign s q e l :
  binary_round_aux fprec femax s q e l =
  match binary_round_aux fprec femax false q e l with
  | S754_finite _ m e' => S754_finite s m e'
  | S754_zero _ => S754_zero s
  | S754_infinity _ => S754_infinity s
  | S754_nan => S754_nan
  end.
Proof.
  unfold binary_round_aux. destruct (shr_fexp _ _ q e l) as [r e']. destruct (shr_fexp _ _ _ e' loc_Exact) as [r2 e2].
  destruct (shr_m r2); try reflexivity. now destruct (e2 <=? _).
Qed.

(** The bits the division computes before it rounds. *)
Definition quotient_scale (p b : positive) : Z := Z.max 0 (53 - (Z.log2 (Z.pos p) - Z.log2 (Z.pos b))).
Lemma fdiv_raw_round s p b : Z.pos p < 2 ^ 80 -> Z.pos b < 2 ^ 40 ->
  exists l, fdiv (S754_finite s p 0) (S754_finite false b 0) =
    binary_round_aux fprec femax s (Z.pos p * 2 ^ quotient_scale p b / Z.pos b) (- quotient_scale p b) l.
Proof.
  intros Hp Hb. assert (L1 : 0 <= Z.log2 (Z.pos p) < 80) by (split; [apply Z.log2_nonneg|apply Z.log2_lt_pow2; lia]).
  assert (L2 : 0 <= Z.log2 (Z.pos b) < 40) by (split; [apply Z.log2_nonneg|apply Z.log2_lt_pow2; lia]).
  unfold fdiv, SFdiv, SFdiv_core_binary, Zdigits2. rewrite !digits2_log2, fexp_normal by lia.
  set (e' := Z.min _ (0 - 0)). assert (He' : e' = - quotient_scale p b) by (unfold e', quotient_scale; lia). rewrite He'.
  replace (0 - 0 - - quotient_scale p b) with (quotient_scale p b) by lia.
  assert (M : (match quotient_scale p b with Z0 => Z.pos p | Z.pos _ => Z.shiftl (Z.pos p) (quotient_scale p b) | Z.neg _ => 0 end) = Z.pos p * 2 ^ quotient_scale p b).
  { destruct (quotient_scale p b) as [|q|q] eqn:E; [lia| |unfold quotient_scale in E; lia]. now rewrite Z.shiftl_mul_pow2 by lia. }
  rewrite M, (surjective_pairing (Z.div_eucl _ _)). cbn beta iota. rewrite xorb_false_r. eexists. reflexivity.
Qed.

Lemma quotient_bits p b : Z.pos p < 2 ^ 80 -> Z.pos b < 2 ^ 40 ->
  2 ^ 52 <= Z.pos p * 2 ^ quotient_scale p b / Z.pos b < 2 ^ 200.
Proof.
  intros Hp Hb. set (s := quotient_scale p b).
  pose proof (Z.log2_spec (Z.pos p) ltac:(lia)) as [P1 P2]. pose proof (Z.log2_spec (Z.pos b) ltac:(lia)) as [B1 B2].
  assert (L1 : 0 <= Z.log2 (Z.pos p) < 80) by (split; [apply Z.log2_nonneg|apply Z.log2_lt_pow2; lia]).
  assert (L2 : 0 <= Z.log2 (Z.pos b) < 40) by (split; [apply Z.log2_nonneg|apply Z.log2_lt_pow2; lia]).
  assert (Hs : 53 - (Z.log2 (Z.pos p) - Z.log2 (Z.pos b)) <= s <= 93) by (unfold s, quotient_scale; lia).
  assert (Hs0 : 0 <= s) by (unfold s, quotient_scale; lia).
  assert (Hps : 0 < 2 ^ s) by (apply Z.pow_pos_nonneg; lia). split.
  - apply Z.div_le_lower_bound; [lia|]. apply Z.le_trans with (2 ^ Z.succ (Z.log2 (Z.pos b)) * 2 ^ 52); [nia|].
    apply Z.le_trans with (2 ^ Z.log2 (Z.pos p) * 2 ^ s); [|apply Z.mul_le_mono_nonneg_r; lia].
    rewrite <- !Z.pow_add_r by lia. apply Z.pow_le_mono_r; lia.
  - apply Z.div_lt_upper_bound; [lia|]. assert (2 ^ s <= 2 ^ 93) by (apply Z.pow_le_mono_r; lia).
    assert (Z.pos p * 2 ^ s < 2 ^ 80 * 2 ^ 93) by nia. change (2 ^ 80 * 2 ^ 93) with (2 ^ 173) in *.
    apply Z.lt_le_trans with (2 ^ 173); [assumption|]. assert (2 ^ 173 <= 2 ^ 200) by (apply Z.pow_le_mono_r; lia). nia.
Qed.

Lemma fdiv_raw_finite a b : 0 < b < 2 ^ 40 -> Z.abs a < 2 ^ 80 -> finite_float (fdiv (raw a) (raw b)) = true.
Proof.
  intros Hb Ha. destruct b as [|b|b]; try lia.
  assert (go : forall s p, Z.pos p < 2 ^ 80 -> finite_float (fdiv (S754_finite s p 0) (raw (Z.pos b))) = true).
  { intros s p Hp. destruct (fdiv_raw_round s p b Hp ltac:(lia)) as [l E]. cbn [raw]. rewrite E, round_sign.
    destruct (quotient_bits p b Hp ltac:(lia)) as [Q1 Q2]. assert (Lq : Z.log2 (Z.pos p * 2 ^ quotient_scale p b / Z.pos b) < 200) by (apply Z.log2_lt_pow2; lia).
    assert (S : 0 <= quotient_scale p b <= 93).
    { unfold quotient_scale. pose proof (Z.log2_nonneg (Z.pos p)). assert (Z.log2 (Z.pos b) < 40) by (apply Z.log2_lt_pow2; lia). lia. }
    destruct (round_keeps (Z.pos p * 2 ^ quotient_scale p b / Z.pos b) (- quotient_scale p b) l) as (m & x & R & _); [exact Q1|lia|lia|].
    now rewrite R. }
  destruct a as [|p|p]; [reflexivity|apply (go false p); lia|apply (go true p); lia].
Qed.

(** A quotient [a / b] with [a < 2 ^ 50] truncates to the integer quotient. *)
Lemma float_floor p b : Z.pos p < 2 ^ 50 -> Z.pos b < 2 ^ 40 -> forall s,
  exists fp, modf (fdiv (S754_finite s p 0) (S754_finite false b 0)) = Some (cond_Zopp s (Z.pos p / Z.pos b), fp).
Proof.
  intros Hp Hb s. assert (Hp80 : Z.pos p < 2 ^ 80) by lia. destruct (fdiv_raw_round s p b Hp80 Hb) as [l E].
  rewrite E, round_sign. clear E. destruct (quotient_bits p b Hp80 Hb) as [Q1 Q2]. set (S := quotient_scale p b) in *.
  set (q := Z.pos p * 2 ^ S / Z.pos b) in *.
  pose proof (Z.log2_spec (Z.pos p) ltac:(lia)) as [P1 P2]. pose proof (Z.log2_spec (Z.pos b) ltac:(lia)) as [B1 B2].
  assert (L1 : 0 <= Z.log2 (Z.pos p) < 50) by (split; [apply Z.log2_nonneg|apply Z.log2_lt_pow2; lia]).
  assert (L2 : 0 <= Z.log2 (Z.pos b) < 40) by (split; [apply Z.log2_nonneg|apply Z.log2_lt_pow2; lia]).
  assert (HS : S = 53 - (Z.log2 (Z.pos p) - Z.log2 (Z.pos b))) by (unfold S, quotient_scale; lia).
  assert (Lq : Z.log2 q <= 53).
  { enough (q < 2 ^ 54) by (assert (Z.log2 q < 54) by (apply Z.log2_lt_pow2; lia); lia).
    apply Z.div_lt_upper_bound; [lia|]. apply Z.lt_le_trans with (2 ^ Z.succ (Z.log2 (Z.pos p)) * 2 ^ S); [apply Z.mul_lt_mono_pos_r; [apply Z.pow_pos_nonneg; lia|exact P2]|].
    apply Z.le_trans with (2 ^ Z.log2 (Z.pos b) * 2 ^ 54); [|apply Z.mul_le_mono_nonneg_r; lia]. rewrite <- !Z.pow_add_r by lia. apply Z.pow_le_mono_r; lia. }
  assert (Lq2 : 52 <= Z.log2 q) by (apply Z.log2_le_pow2; lia).
  destruct (round_value q (- S) l) as (m & e' & m2 & R & Hm & He & Em & Hm2); [exact Q1|lia|lia|]. rewrite R. clear R.
  set (n := Z.log2 q - 52) in *. set (T := 2 ^ (S - n)).
  assert (HT : 0 < T) by (apply Z.pow_pos_nonneg; lia).
  assert (Tb : 2 * Z.pos b <= T).
  { apply Z.le_trans with (2 ^ (Z.log2 (Z.pos b) + 2)); [rewrite Z.pow_add_r, Z.pow_succ_r in * by lia; lia|]. apply Z.pow_le_mono_r; lia. }
  assert (Hn : 0 < 2 ^ n) by (apply Z.pow_pos_nonneg; lia).
  assert (ST : 2 ^ S = T * 2 ^ n) by (unfold T; rewrite <- Z.pow_add_r by lia; f_equal; lia).
  assert (Eq : q / 2 ^ n = Z.pos p * T / Z.pos b).
  { unfold q. rewrite ST, Z.mul_assoc, Z.div_div by lia. rewrite Z.div_mul_cancel_r by lia. reflexivity. }
  rewrite Eq in Hm2. set (Q := Z.pos p / Z.pos b).
  pose proof (Z.div_mod (Z.pos p) (Z.pos b) ltac:(lia)) as D. pose proof (Z.mod_pos_bound (Z.pos p) (Z.pos b) ltac:(lia)) as Dm. fold Q in D.
  assert (Lo : Q * T <= Z.pos p * T / Z.pos b) by (apply Z.div_le_lower_bound; nia).
  assert (Hi : Z.pos p * T / Z.pos b < (Q + 1) * T - 1).
  { apply Z.div_lt_upper_bound; [lia|]. nia. }
  assert (F : m2 / T = Q) by (symmetry; apply Z.div_unique with (m2 - Q * T); [left; lia|lia]).
  cbn [modf]. rewrite (proj2 (Z.leb_gt 0 e')) by lia. eexists. do 2 f_equal. f_equal.
  set (d := e' - (- S + n)) in *. assert (Hd : 0 <= d) by lia.
  assert (Td : T = 2 ^ (- e') * 2 ^ d) by (unfold T; rewrite <- Z.pow_add_r by lia; f_equal; lia).
  rewrite <- F, <- Em, Td. symmetry. apply Z.div_mul_cancel_r; apply Z.pow_nonzero; lia.
Qed.

Theorem float_quotient a b : Z.abs a < 2 ^ 50 -> 0 < b < 2 ^ 40 -> int_of_float (int_div a b) = Ok (Z.quot a b).
Proof.
  intros Ha Hb. destruct b as [|b|b]; try lia. unfold int_div, int_of_float. destruct a as [|p|p].
  - rewrite Z.quot_0_l by discriminate. reflexivity.
  - destruct (float_floor p b ltac:(lia) ltac:(lia) false) as [fp E]. cbn [raw]. rewrite E.
    rewrite Z.quot_div_nonneg by lia. destruct (fdiv _ _); first [reflexivity|discriminate E].
  - destruct (float_floor p b ltac:(lia) ltac:(lia) true) as [fp E]. cbn [raw]. rewrite E.
    change (Z.neg p) with (- Z.pos p). rewrite Z.quot_opp_l, Z.quot_div_nonneg by lia. destruct (fdiv _ _); first [reflexivity|discriminate E].
Qed.
