(* ===== verification/TerminalWatchdog.v ===== *)
(** [sentinel/ops/terminal_watchdog.py]: the watchdog of the MetaTrader terminal.

    What it can do to the outside is the class [Console] over a world of its own:
    the probes of the adapter, the audit journal and the wall clock.  The texts of
    an exception are the exception.  The configuration is read anew by every check
    and is its argument. *)

From Stdlib Require Import ZArith Lia SpecFloat.
From stdpp Require Import base strings list.
From S2P Require Import Prelude Calendar PyFloat StateExn Clock.

Local Open Scope Z_scope.
Local Open Scope py_scope.

(** ** Configuration and readings *)

(** [TerminalWatchdogConfig] of [core/config.py]. *)
Record WatchdogConfig := mkWatchdogConfig {
  wc_enabled : bool;
  wc_grace_checks : Z;
  wc_backoff_initial_sec : Z;
  wc_backoff_max_sec : Z;
  wc_kill_hung_after_failures : Z;
  wc_restore_account : bool
}.
Definition default_watchdog_config : WatchdogConfig := mkWatchdogConfig true 2 30 600 3 true.
Definition between (lo hi z : Z) : bool := (lo <=? z) && (z <=? hi).
Definition WatchdogConfig_valid (c : WatchdogConfig) : bool :=
  between 1 20 (wc_grace_checks c) && between 5 3600 (wc_backoff_initial_sec c)
  && between 30 7200 (wc_backoff_max_sec c) && between 0 50 (wc_kill_hung_after_failures c).

(** A detail: what the adapter said, or the exception that was caught. *)
Inductive Detail := Said (text : string) | Caught (e : exn).
(** The answer of [broker.health()]; [None] is a key that is absent or null. *)
Record Health := mkHealth {
  hl_state : option string;
  hl_detail : option string;
  hl_algo_trading : option bool;
  hl_ping_ms : option spec_float
}.

(** What [_emit] appends to the journal, with the outage it belongs to and the
    state of the watchdog at the time. *)
Inductive DogAction :=
| Down (state : string) (detail : Detail)
| Killed (detail : Detail)
| KillSkipped (detail : Detail)
| Reconnected (detail : Detail) (previous_state : string) (down_sec : Z)
| ReconnectFailed (detail : Detail) (state : string) (failures retry_in_sec : Z)
| Recovered (down_sec : Z)
| AlgoOff
| AlgoOn.
Record Notice := mkNotice { nt_action : DogAction; nt_since_ns : Z; nt_state : string }.
Definition action_text (a : DogAction) : string :=
  match a with
  | Down _ _ => "down" | Killed _ => "killed" | KillSkipped _ => "kill_skipped"
  | Reconnected _ _ _ => "reconnected" | ReconnectFailed _ _ _ _ => "reconnect_failed"
  | Recovered _ => "recovered" | AlgoOff => "algo_off" | AlgoOn => "algo_on"
  end.

Class Console (W : Type) := {
  (** [callable] of [broker.health] and of [broker.reconnect]. *)
  applicable : bool;
  con_health : W -> W * res Health;
  con_reconnect : W -> W * res (bool * string);
  (** [broker.kill_terminal], where there is one. *)
  con_kill_terminal : option (W -> W * res (bool * string));
  con_can_sign_in : W -> bool;
  con_append : Notice -> W -> W * res unit;
  con_clock : W -> W * Z
}.

(** ** State *)

Record Dog := mkDog {
  dg_state : string;
  dg_detail : Detail;
  dg_bad_checks : Z;
  dg_failures : Z;
  dg_attempts : Z;
  dg_down_since_ns : Z;
  dg_next_attempt_ns : Z;
  dg_last_check_ns : Z;
  dg_last_action : string;
  dg_last_action_ns : Z;
  dg_recoveries : Z;
  dg_algo_trading : option bool;
  dg_ping_ms : option spec_float;
  dg_announced_down : bool;
  dg_algo_alerted : bool
}.
Definition fresh_dog : Dog := mkDog "unknown" (Said "") 0 0 0 0 0 0 "" 0 0 None None false false.

(** [status()]: the fields the watchdog shows, with what the adapter and the
    configuration say. *)
Record Status := mkStatus { su_dog : Dog; su_applicable : bool; su_enabled : bool; su_can_sign_in : bool }.

Definition set_reading (state : string) (detail : Detail) (d : Dog) : Dog :=
  mkDog state detail (dg_bad_checks d) (dg_failures d) (dg_attempts d) (dg_down_since_ns d) (dg_next_attempt_ns d)
    (dg_last_check_ns d) (dg_last_action d) (dg_last_action_ns d) (dg_recoveries d) (dg_algo_trading d) (dg_ping_ms d)
    (dg_announced_down d) (dg_algo_alerted d).
Definition set_last_check (now : Z) (d : Dog) : Dog :=
  mkDog (dg_state d) (dg_detail d) (dg_bad_checks d) (dg_failures d) (dg_attempts d) (dg_down_since_ns d) (dg_next_attempt_ns d)
    now (dg_last_action d) (dg_last_action_ns d) (dg_recoveries d) (dg_algo_trading d) (dg_ping_ms d)
    (dg_announced_down d) (dg_algo_alerted d).
Definition set_ping (ping : option spec_float) (d : Dog) : Dog :=
  mkDog (dg_state d) (dg_detail d) (dg_bad_checks d) (dg_failures d) (dg_attempts d) (dg_down_since_ns d) (dg_next_attempt_ns d)
    (dg_last_check_ns d) (dg_last_action d) (dg_last_action_ns d) (dg_recoveries d) (dg_algo_trading d) ping
    (dg_announced_down d) (dg_algo_alerted d).
Definition set_algo (algo : option bool) (alerted : bool) (d : Dog) : Dog :=
  mkDog (dg_state d) (dg_detail d) (dg_bad_checks d) (dg_failures d) (dg_attempts d) (dg_down_since_ns d) (dg_next_attempt_ns d)
    (dg_last_check_ns d) (dg_last_action d) (dg_last_action_ns d) (dg_recoveries d) algo (dg_ping_ms d)
    (dg_announced_down d) alerted.
Definition set_last_action (action : string) (now : Z) (d : Dog) : Dog :=
  mkDog (dg_state d) (dg_detail d) (dg_bad_checks d) (dg_failures d) (dg_attempts d) (dg_down_since_ns d) (dg_next_attempt_ns d)
    (dg_last_check_ns d) action now (dg_recoveries d) (dg_algo_trading d) (dg_ping_ms d)
    (dg_announced_down d) (dg_algo_alerted d).
(** [bad_checks += 1], and the start of the outage if none is running. *)
Definition count_bad (now : Z) (d : Dog) : Dog :=
  mkDog (dg_state d) (dg_detail d) (dg_bad_checks d + 1) (dg_failures d) (dg_attempts d)
    (if dg_down_since_ns d =? 0 then now else dg_down_since_ns d) (dg_next_attempt_ns d)
    (dg_last_check_ns d) (dg_last_action d) (dg_last_action_ns d) (dg_recoveries d) (dg_algo_trading d) (dg_ping_ms d)
    (dg_announced_down d) (dg_algo_alerted d).
Definition announce (d : Dog) : Dog :=
  mkDog (dg_state d) (dg_detail d) (dg_bad_checks d) (dg_failures d) (dg_attempts d) (dg_down_since_ns d) (dg_next_attempt_ns d)
    (dg_last_check_ns d) (dg_last_action d) (dg_last_action_ns d) (dg_recoveries d) (dg_algo_trading d) (dg_ping_ms d)
    true (dg_algo_alerted d).
Definition count_attempt (d : Dog) : Dog :=
  mkDog (dg_state d) (dg_detail d) (dg_bad_checks d) (dg_failures d) (dg_attempts d + 1) (dg_down_since_ns d) (dg_next_attempt_ns d)
    (dg_last_check_ns d) (dg_last_action d) (dg_last_action_ns d) (dg_recoveries d) (dg_algo_trading d) (dg_ping_ms d)
    (dg_announced_down d) (dg_algo_alerted d).
(** [min(backoff_max_sec, backoff_initial_sec * 2 ** (failures - 1))], after the failure is counted. *)
Definition delay_sec (cfg : WatchdogConfig) (failures : Z) : Z :=
  Z.min (wc_backoff_max_sec cfg) (wc_backoff_initial_sec cfg * 2 ^ (failures - 1)).
Definition SEC_NS : Z := 1000000000.
Definition count_failure (cfg : WatchdogConfig) (now : Z) (d : Dog) : Dog :=
  let failures := dg_failures d + 1 in
  mkDog (dg_state d) (dg_detail d) (dg_bad_checks d) failures (dg_attempts d) (dg_down_since_ns d)
    (now + delay_sec cfg failures * SEC_NS)
    (dg_last_check_ns d) (dg_last_action d) (dg_last_action_ns d) (dg_recoveries d) (dg_algo_trading d) (dg_ping_ms d)
    (dg_announced_down d) (dg_algo_alerted d).
(** [_reset]. *)
Definition reset (d : Dog) : Dog :=
  mkDog (dg_state d) (dg_detail d) 0 0 (dg_attempts d) 0 0
    (dg_last_check_ns d) (dg_last_action d) (dg_last_action_ns d)
    (dg_recoveries d + (if dg_down_since_ns d =? 0 then 0 else 1)) (dg_algo_trading d) (dg_ping_ms d)
    false (dg_algo_alerted d).

(** [round((now - self.down_since_ns) / _SEC)]. *)
Definition down_sec (now : Z) (d : Dog) : res Z := py_round (fdiv (raw (now - dg_down_since_ns d)) (raw SEC_NS)).

(** [x or default] of a text that may be absent. *)
Definition text_or (default : string) (x : option string) : string :=
  match x with None | Some EmptyString => default | Some s => s end.

(** ** Operations *)

Section Watchdog.
Context {W : Type} `{!Console W}.

Definition WM (A : Type) : Type := M (Dog * W) A.
Definition dog : WM Dog := gets fst.
Definition set_dog (f : Dog -> Dog) : WM unit := modify (fun s => (f s.1, s.2)).
Definition on_world {A} (op : W -> W * res A) : WM A := fun s => match op s.2 with (w, r) => ((s.1, w), r) end.

(** [_emit]; what the journal raises is swallowed. *)
Definition emit (a : DogAction) : WM unit :=
  let! d := dog in
  attempt (on_world (con_append (mkNotice a (dg_down_since_ns d) (dg_state d)))) ;!
  ret tt.
(** [_act]. *)
Definition act (a : DogAction) (now : Z) : WM unit := set_dog (set_last_action (action_text a) now) ;! emit a.

Definition status (cfg : WatchdogConfig) : WM Status :=
  gets (fun s => mkStatus s.1 applicable (wc_enabled cfg) (con_can_sign_in s.2)).

(** [_on_healthy]. *)
Definition on_healthy (now : Z) (algo : bool) : WM unit :=
  let! d := dog in
  when (negb (dg_down_since_ns d =? 0) && dg_announced_down d)
    (let! secs := lift (down_sec now d) in act (Recovered secs) now) ;!
  when (negb (dg_down_since_ns d =? 0)) (set_dog reset) ;!
  let! d := dog in
  (if negb algo && negb (dg_algo_alerted d) then set_dog (set_algo (dg_algo_trading d) true) ;! emit AlgoOff
   else when (algo && dg_algo_alerted d) (set_dog (set_algo (dg_algo_trading d) false) ;! emit AlgoOn)) ;!
  set_dog (fun d => set_algo (Some algo) (dg_algo_alerted d) d).

(** The reading of a check: a probe that fails is a reading. *)
Definition read_health : WM (Health * Detail) :=
  let! r := attempt (on_world con_health) in
  ret match r with
      | Ok h => (h, Said (text_or "" (hl_detail h)))
      | Raise e => (mkHealth (Some "terminal_down") None None None, Caught e)
      end.

Definition may_kill (cfg : WatchdogConfig) (state : string) (d : Dog) : bool :=
  negb (wc_kill_hung_after_failures cfg =? 0) && bool_decide (state = "terminal_down")
  && (wc_kill_hung_after_failures cfg <=? dg_failures d).
Definition kill_hung (cfg : WatchdogConfig) (state : string) (now : Z) : WM unit :=
  let! d := dog in
  match con_kill_terminal with
  | Some kill =>
      when (may_kill cfg state d)
        (let! (ok, detail) := on_world kill in
         act (if ok then Killed (Said detail) else KillSkipped (Said detail)) now)
  | None => ret tt
  end.

(** What an attempt to reconnect came to. *)
Definition settle (cfg : WatchdogConfig) (state : string) (now : Z) (ok : bool) (detail : Detail) : WM unit :=
  if ok then
    let! d := dog in
    let! secs := lift (down_sec now d) in
    act (Reconnected detail state secs) now ;!
    set_dog reset ;!
    set_dog (set_reading "ok" (Said ""))
  else
    set_dog (count_failure cfg now) ;!
    let! d := dog in
    act (ReconnectFailed detail state (dg_failures d) (delay_sec cfg (dg_failures d))) now.
Definition attempt_reconnect (cfg : WatchdogConfig) (state : string) (now : Z) : WM unit :=
  set_dog count_attempt ;!
  let! r := attempt (on_world con_reconnect) in
  match r with
  | Ok (ok, text) => settle cfg state now ok (Said text)
  | Raise e => settle cfg state now false (Caught e)
  end.

(** In attach mode the terminal is shared with a person. *)
Definition leave_alone (cfg : WatchdogConfig) (state : string) (can_sign_in : bool) : bool :=
  bool_decide (state = "wrong_account") && negb (wc_restore_account cfg && can_sign_in).

(** The ladder of an unhealthy reading. *)
Definition on_unhealthy (cfg : WatchdogConfig) (state : string) (detail : Detail) (now : Z) : WM unit :=
  set_dog (count_bad now) ;!
  let! d := dog in
  if dg_bad_checks d <? wc_grace_checks cfg then ret tt
  else
    when (negb (dg_announced_down d)) (set_dog announce ;! emit (Down state detail)) ;!
    let! can_sign_in := gets (fun s => con_can_sign_in s.2) in
    if leave_alone cfg state can_sign_in then ret tt
    else
      let! d := dog in
      if now <? dg_next_attempt_ns d then ret tt
      else kill_hung cfg state now ;! attempt_reconnect cfg state now.

(** [check]. *)
Definition check (cfg : WatchdogConfig) (now_ns : option Z) : WM Status :=
  let! now := match now_ns with
              | Some n => if n =? 0 then fun s => match con_clock s.2 with (w, t) => ((s.1, w), Ok t) end else ret n
              | None => fun s => match con_clock s.2 with (w, t) => ((s.1, w), Ok t) end
              end in
  if negb (wc_enabled cfg && applicable) then status cfg
  else
    set_dog (set_last_check now) ;!
    let! (h, detail) := read_health in
    let state := text_or "terminal_down" (hl_state h) in
    set_dog (set_reading state detail) ;!
    if bool_decide (state = "ok") then
      set_dog (set_ping (hl_ping_ms h)) ;!
      on_healthy now (match hl_algo_trading h with Some b => b | None => true end) ;!
      status cfg
    else
      on_unhealthy cfg state detail now ;!
      status cfg.
End Watchdog.
Arguments WM : clear implicits.

(** * What the watchdog of [TerminalWatchdog] does to the terminal, as a property of
    the log of the calls it makes: the world is wrapped in one that records them,
    and the counters of the watchdog are read off the log. *)

(** ** The duration of an outage is a number *)

Lemma down_sec_returns now d : Z.abs now < 2 ^ 79 -> Z.abs (dg_down_since_ns d) < 2 ^ 79 -> exists k, down_sec now d = Ok k.
Proof.
  intros H1 H2. unfold down_sec. rewrite py_round_finite; [eauto|].
  apply fdiv_raw_finite; [now vm_compute|lia].
Qed.

(** ** The log *)

Inductive WatchEvent :=
| Looked (cfg : WatchdogConfig) (now : Z)
| Read (state : string)
| Kill
| Tried (ok : bool).

(** The world with the log of the calls, the latest first. *)
Section Logged.
Context {W : Type} `{!Console W}.

Definition health_state (r : res Health) : string :=
  match r with Ok h => text_or "terminal_down" (hl_state h) | Raise _ => "terminal_down" end.
Definition reconnect_ok (r : res (bool * string)) : bool := match r with Ok (ok, _) => ok | Raise _ => false end.

Definition logging {A} (event : res A -> WatchEvent) (op : W -> W * res A) : W * list WatchEvent -> (W * list WatchEvent) * res A :=
  fun s => match op s.1 with (w, r) => ((w, event r :: s.2), r) end.

#[export] Instance logged : Console (W * list WatchEvent) := {|
  applicable := applicable;
  con_health := logging (fun r => Read (health_state r)) con_health;
  con_reconnect := logging (fun r => Tried (reconnect_ok r)) con_reconnect;
  con_kill_terminal := option_map (logging (fun _ => Kill)) con_kill_terminal;
  con_can_sign_in s := con_can_sign_in s.1;
  con_append n s := match con_append n s.1 with (w, r) => ((w, s.2), r) end;
  con_clock s := match con_clock s.1 with (w, t) => ((w, s.2), t) end
|}.

(** The checks of a run, each at its time and with the configuration of the
    moment; one that raises is given up, as the agent does. *)
Definition look (cfg : WatchdogConfig) (now : Z) (s : Dog * (W * list WatchEvent)) : Dog * (W * list WatchEvent) :=
  (check cfg (Some now) (s.1, (s.2.1, Looked cfg now :: s.2.2))).1.
Definition watch (w : W) (calls : list (WatchdogConfig * Z)) : Dog * (W * list WatchEvent) :=
  foldl (fun s c => look c.1 c.2 s) (fresh_dog, (w, [])) calls.
End Logged.

(** What a log says: the configuration and the time of the check it ends in, the
    last reading, the unhealthy readings and the failed attempts in a row. *)
Fixpoint looked (log : list WatchEvent) : option (WatchdogConfig * Z) :=
  match log with [] => None | Looked cfg now :: _ => Some (cfg, now) | _ :: r => looked r end.
Fixpoint reading (log : list WatchEvent) : option string :=
  match log with [] => None | Read s :: _ => Some s | _ :: r => reading r end.
Fixpoint bad_run (log : list WatchEvent) : Z :=
  match log with
  | [] => 0
  | Read s :: r => if bool_decide (s = "ok") then 0 else bad_run r + 1
  | Tried true :: _ => 0
  | _ :: r => bad_run r
  end.
Fixpoint failed_run (log : list WatchEvent) : Z :=
  match log with
  | [] => 0
  | Read s :: r => if bool_decide (s = "ok") then 0 else failed_run r
  | Tried ok :: r => if ok then 0 else failed_run r + 1
  | _ :: r => failed_run r
  end.
(** The time before which no attempt is due: a failed attempt is followed by the
    first delay, doubled with each failure in a row, up to the cap. *)
Definition backoff_end (cfg : WatchdogConfig) (now failures : Z) : Z :=
  now + Z.min (wc_backoff_max_sec cfg) (wc_backoff_initial_sec cfg * 2 ^ (failures - 1)) * 1000000000.
Fixpoint attempt_after (log : list WatchEvent) : Z :=
  match log with
  | [] => 0
  | Read s :: r => if bool_decide (s = "ok") then 0 else attempt_after r
  | Tried true :: _ => 0
  | Tried false :: r =>
      match looked r with Some (cfg, now) => backoff_end cfg now (failed_run r + 1) | None => attempt_after r end
  | _ :: r => attempt_after r
  end.

(** An attempt has its place: enough unhealthy readings in a row, and the delay of
    the last failed attempt is over. *)
Definition attempt_due (r : list WatchEvent) : Prop :=
  exists cfg now, looked r = Some (cfg, now) /\ wc_grace_checks cfg <= bad_run r /\ attempt_after r <= now /\
    reading r <> Some "ok" /\ wc_enabled cfg = true.
(** The terminal may be ended: besides, it does not answer, and attempts enough
    have failed. *)
Definition kill_due (r : list WatchEvent) : Prop :=
  attempt_due r /\ reading r = Some "terminal_down" /\
  exists cfg now, looked r = Some (cfg, now) /\ 0 < wc_kill_hung_after_failures cfg <= failed_run r.
Fixpoint lawful (log : list WatchEvent) : Prop :=
  match log with
  | [] => True
  | e :: r => lawful r /\ match e with Kill => kill_due r | Tried _ => attempt_due r | _ => True end
  end.

(** The times of a run and the configurations: not zero, which the code takes for
    no time, and within nanoseconds of an age. *)
Definition call_ok (c : WatchdogConfig * Z) : Prop := WatchdogConfig_valid c.1 = true /\ 0 < c.2 < 2 ^ 79.

(** ** The counters agree with the log *)

Section Agreement.
Context {W : Type} `{!Console W}.
Abbreviation LM := (WM (W * list WatchEvent)).
Abbreviation state := (Dog * (W * list WatchEvent))%type.

(** The part of the watchdog that decides. *)
Definition core (d : Dog) : Z * Z * Z * Z := (dg_bad_checks d, dg_failures d, dg_down_since_ns d, dg_next_attempt_ns d).

(** A claim on the counters and the log. *)
Definition on_core (P : Z * Z * Z * Z -> list WatchEvent -> Prop) (s : state) : Prop := P (core s.1) s.2.2.

Definition agrees (k : Z * Z * Z * Z) (log : list WatchEvent) : Prop :=
  let '(bad, failures, since, next) := k in
  bad = bad_run log /\ failures = failed_run log /\ next = attempt_after log /\
  (since = 0 <-> bad = 0) /\ 0 <= since < 2 ^ 79 /\ (bad = 0 -> failures = 0 /\ next = 0) /\ 0 <= bad /\ lawful log.

Lemma wp_set_dog (P : Z * Z * Z * Z -> list WatchEvent -> Prop) f E (s : state) :
  (forall d, core (f d) = core d) -> on_core P s -> wp (set_dog f : LM unit) (fun _ => on_core P) E s.
Proof. intros Hf H. unfold set_dog. apply wp_modify. unfold on_core in *. cbn [fst snd]. now rewrite Hf. Qed.

Lemma wp_emit P a E (s : state) : on_core P s -> wp (emit a : LM unit) (fun _ => on_core P) E s.
Proof.
  intros H. unfold emit, dog. wps. unfold wp, on_world. destruct s as [d [w log]]. cbn.
  destruct (con_append _ w) as [w' [[]|e]]; exact H.
Qed.

Lemma wp_act P a now E (s : state) : on_core P s -> wp (act a now : LM unit) (fun _ => on_core P) E s.
Proof.
  intros H. unfold act. apply wp_bind. eapply wp_mono; [apply (wp_set_dog P _ E); [reflexivity|exact H]| |auto].
  intros [] s' H'. now apply wp_emit.
Qed.

Lemma wp_down_sec P now d E (s : state) (Q : Z -> state -> Prop) :
  Z.abs now < 2 ^ 79 -> Z.abs (dg_down_since_ns d) < 2 ^ 79 -> on_core P s ->
  (forall k s', on_core P s' -> Q k s') -> wp (lift (down_sec now d) : LM Z) Q E s.
Proof.
  intros H1 H2 H HQ. destruct (down_sec_returns now d H1 H2) as [k ->]. apply wp_lift; [intros; now apply HQ|discriminate].
Qed.


Context (cfg : WatchdogConfig) (now : Z).
Hypothesis valid : WatchdogConfig_valid cfg = true.
Hypothesis timely : 0 < now < 2 ^ 79.

(** Inside a check at [now]: the log ends in a reading of [st]. *)
Definition in_check (st : string) (k : Z * Z * Z * Z) (log : list WatchEvent) : Prop :=
  agrees k log /\ looked log = Some (cfg, now) /\ reading log = Some st.
Definition just_read (st : string) (k : Z * Z * Z * Z) (log : list WatchEvent) : Prop :=
  exists log', log = Read st :: log' /\ agrees k log' /\ looked log' = Some (cfg, now).

Lemma just_read_ok k log : just_read "ok" k log -> lawful log /\ bad_run log = 0 /\ failed_run log = 0 /\ attempt_after log = 0.
Proof.
  destruct k as [[[bad failures] since] next]. intros (log' & -> & (_ & _ & _ & _ & _ & _ & _ & L) & _).
  cbn. now repeat split.
Qed.

Lemma agrees_reset log n : lawful log -> bad_run log = 0 -> failed_run log = 0 -> attempt_after log = 0 -> agrees (0, 0, n, 0) log <-> n = 0.
Proof. intros L B F D. unfold agrees. rewrite B, F, D. split; [intros H; apply H; reflexivity|intros ->; repeat split; auto; lia]. Qed.

(** A healthy reading. *)
Lemma wp_on_healthy algo (E : exn -> state -> Prop) (s : state) :
  on_core (just_read "ok") s -> wp (on_healthy now algo : LM unit) (fun _ => on_core agrees) E s.
Proof.
  intros H. assert (Hs : Z.abs (dg_down_since_ns s.1) < 2 ^ 79) by (destruct H as (? & _ & (_ & _ & _ & _ & B & _) & _); lia).
  unfold on_healthy, dog. apply wp_bind, wp_gets. set (d := s.1) in *. apply wp_bind.
  eapply (wp_mono _ (fun _ s' => on_core (fun k log => k = core d /\ just_read "ok" k log) s')); [| |intros e s' He; exact He].
  { apply wp_when; [intros _|intros _; split; [reflexivity|exact H]]. apply wp_bind.
    apply (wp_down_sec (fun k log => k = core d /\ just_read "ok" k log)); [lia|exact Hs|exact (conj eq_refl H)|]. intros k s' H'. now apply wp_act. }
  intros [] s1 [E1 H1]. apply wp_bind.
  eapply (wp_mono _ (fun _ s' => on_core agrees s')); [| |intros e s' He; exact He].
  { destruct (just_read_ok _ _ H1) as (L & B & F & D). unfold on_core in *. apply wp_when; intros Hd.
    - unfold set_dog. apply wp_modify. cbn [fst snd]. change (core (reset s1.1)) with (0, 0, 0, 0). now apply agrees_reset.
    - assert (Z0 : dg_down_since_ns d = 0) by (apply negb_false_iff, Z.eqb_eq in Hd; exact Hd). rewrite E1.
      destruct H1 as (log' & _ & A & _). rewrite E1 in A. unfold core in *. destruct A as (A1 & A2 & A3 & A4 & _ & A6 & _).
      destruct (A6 (proj1 A4 Z0)) as [F0 N0]. rewrite (proj1 A4 Z0), F0, N0, Z0. now apply agrees_reset. }
  clear d Hs H s1 E1 H1. intros [] s1 H1. apply wp_bind, wp_gets. apply wp_bind.
  eapply (wp_mono _ (fun _ => on_core agrees)); [| |intros e s' He; exact He].
  { destruct (negb algo && _); [|apply wp_when; [intros _|auto]]; apply wp_bind;
      (eapply (wp_mono _ (fun _ => on_core agrees)); [now apply wp_set_dog| |intros e s' He; exact He]; intros [] s' H'; now apply wp_emit). }
  intros [] s2 H2. now apply wp_set_dog.
Qed.

(** An unhealthy reading is counted. *)
Lemma count_bad_agrees st (s : state) : st <> "ok" -> on_core (just_read st) s ->
  in_check st (core (count_bad now s.1)) s.2.2.
Proof.
  intros Hst (log' & El & (A1 & A2 & A3 & A4 & A5 & A6 & A7 & A8) & Hl). unfold in_check, agrees, core. cbn.
  rewrite El. cbn. rewrite !bool_decide_eq_false_2 by exact Hst. rewrite <- A1, <- A2, <- A3.
  split; [|now split]. destruct (Z.eqb_spec (dg_down_since_ns s.1) 0) as [Z0|N0]; repeat split; auto; try lia.
Qed.

(** A place on the ladder: the attempt is due. *)
Definition on_ladder (st : string) (k : Z * Z * Z * Z) (log : list WatchEvent) : Prop :=
  in_check st k log /\ st <> "ok" /\ wc_enabled cfg = true /\ wc_grace_checks cfg <= bad_run log /\ attempt_after log <= now.

Lemma ladder_due st k log : on_ladder st k log -> attempt_due log.
Proof.
  intros ((A & L & R) & Hst & En & G & D). exists cfg, now. rewrite R. repeat split; auto. intros [= ->]. now apply Hst.
Qed.

Lemma wp_kill st (s : state) (E : exn -> state -> Prop) :
  (forall e s', on_core (on_ladder st) s' -> E e s') ->
  on_core (on_ladder st) s -> wp (kill_hung cfg st now : LM unit) (fun _ => on_core (on_ladder st)) E s.
Proof.
  intros HE H. unfold kill_hung, dog. apply wp_bind, wp_gets. cbn [con_kill_terminal logged].
  destruct con_kill_terminal as [kill|]; cbn [option_map]; [|now apply wp_ret].
  apply wp_when; [intros Hk|auto]. apply wp_bind.
  assert (K : forall s' : state, s'.1 = s.1 -> s'.2.2 = Kill :: s.2.2 -> on_core (on_ladder st) s').
  { intros s' E1 E2. unfold on_core. rewrite E1, E2. pose proof (ladder_due _ _ _ H) as Hd.
    destruct H as ((A & L & R) & Hst & En & G & D). unfold may_kill in Hk.
    rewrite !andb_true_iff, negb_true_iff, Z.eqb_neq, Z.leb_le, bool_decide_eq_true in Hk. destruct Hk as [[K1 K2] K3].
    split; [|now repeat split]. split; [|now split]. destruct A as (A1 & A2 & A3 & A4 & A5 & A6 & A7 & A8).
    repeat split; auto; try tauto; try lia. 1: now rewrite R, K2.
    exists cfg, now. split; [exact L|]. rewrite <- A2. split; [|exact K3].
    unfold WatchdogConfig_valid, between in valid. rewrite !andb_true_iff, !Z.leb_le in valid. lia. }
  unfold wp, on_world, logging. destruct s as [d [w log]]. cbn in *.
  destruct (kill w) as [w' [[ok text]|e]]; [|apply HE; now apply K].
  destruct ok; (eapply wp_mono; [apply (wp_act (on_ladder st) _ _ (fun _ _ => False)), K; reflexivity|auto|contradiction]).
Qed.

(** After an attempt that succeeded everything starts again. *)
Lemma tried_agrees k log st : on_ladder st k log -> agrees (0, 0, 0, 0) (Tried true :: log).
Proof. intros H. pose proof (ladder_due _ _ _ H). destruct k as [[[? ?] ?] ?]. destruct H as (((A & B & C & D & F & G & I & L) & _) & _). repeat split; auto; lia. Qed.

Definition attempted (st : string) (ok : bool) (k : Z * Z * Z * Z) (log : list WatchEvent) : Prop :=
  exists log', log = Tried ok :: log' /\ on_ladder st k log'.
Lemma wp_settle st ok detail (s : state) (E : exn -> state -> Prop) :
  on_core (attempted st ok) s ->
  wp (settle cfg st now ok detail : LM unit) (fun _ => on_core agrees) E s.
Proof.
  intros H. unfold settle. assert (Hs : Z.abs (dg_down_since_ns s.1) < 2 ^ 79)
    by (destruct H as (? & _ & ((_ & _ & _ & _ & B & _) & _) & _); lia).
  destruct ok; apply wp_bind.
  - unfold dog. apply wp_gets, wp_bind. apply (wp_down_sec (attempted st true)); [lia|exact Hs|exact H|]. clear s H Hs. intros secs s H. apply wp_bind.
    eapply wp_mono; [apply (wp_act (attempted st true) _ _ E), H| |auto]. clear s H. intros [] s (log' & El & H).
    apply wp_bind. unfold set_dog. apply wp_modify, wp_modify. unfold on_core. cbn [fst snd]. rewrite El.
    exact (tried_agrees _ _ _ H).
  - unfold set_dog. apply wp_modify. apply wp_bind. unfold dog. apply wp_gets, wp_act.
    destruct H as (log' & El & H). unfold on_core. cbn [fst snd]. rewrite El. pose proof (ladder_due _ _ _ H) as Hd.
    destruct H as (((A1 & A2 & A3 & A4 & A5 & A6 & A7 & A8) & L & R) & _ & _ & G & _).
    unfold agrees, core, count_failure. cbn. rewrite L, <- A1, <- A2. unfold backoff_end, delay_sec, SEC_NS.
    unfold WatchdogConfig_valid, between in valid. rewrite !andb_true_iff, !Z.leb_le in valid.
    repeat split; auto; try tauto; try lia.
Qed.

Lemma wp_attempt_reconnect st (s : state) (E : exn -> state -> Prop) :
  on_core (on_ladder st) s -> wp (attempt_reconnect cfg st now : LM unit) (fun _ => on_core agrees) E s.
Proof.
  intros H. unfold attempt_reconnect. apply wp_bind. eapply wp_mono; [apply (wp_set_dog (on_ladder st) _ E); [reflexivity|exact H]| |auto].
  clear s H. intros [] s H. apply wp_bind, wp_attempt. unfold wp at 1. unfold on_world. cbn [con_reconnect logged]. unfold logging.
  destruct s as [d [w log]]. cbn [fst snd] in *. destruct (con_reconnect w) as [w' [[ok text]|e]]; apply wp_settle; exists log; now split.
Qed.

Lemma wp_on_unhealthy st detail (s : state) :
  st <> "ok" -> wc_enabled cfg = true -> on_core (just_read st) s ->
  wp (on_unhealthy cfg st detail now : LM unit) (fun _ => on_core agrees) (fun _ => on_core agrees) s.
Proof.
  intros Hst En H. unfold on_unhealthy. apply wp_bind. unfold set_dog at 1. apply wp_modify.
  pose proof (count_bad_agrees st s Hst H) as H1. set (s1 := (count_bad now s.1, s.2)). change (on_core (in_check st) s1) in H1.
  clearbody s1. clear s H. apply wp_bind. unfold dog. apply wp_gets.
  destruct (Z.ltb_spec (dg_bad_checks s1.1) (wc_grace_checks cfg)) as [_|G]; [apply wp_ret, H1|].
  assert (H2 : on_core (fun k log => in_check st k log /\ wc_grace_checks cfg <= bad_run log) s1).
  { split; [exact H1|]. destruct H1 as ((A & _) & _). now rewrite <- A. }
  apply wp_bind. eapply (wp_mono _ (fun _ => on_core (fun k log => in_check st k log /\ wc_grace_checks cfg <= bad_run log)));
    [|clear s1 H1 H2 G|intros e s' He; exact He].
  { apply wp_when; [intros _|auto]. apply wp_bind. eapply wp_mono; [apply wp_set_dog; [reflexivity|exact H2]| |intros e s' He; exact He].
    intros [] s' H'. now apply wp_emit. }
  intros [] s (H & G). apply wp_bind, wp_gets. destruct (leave_alone _ _ _); [apply wp_ret, H|].
  apply wp_bind, wp_gets. destruct (Z.ltb_spec now (dg_next_attempt_ns s.1)) as [_|D]; [apply wp_ret, H|].
  apply wp_bind. eapply wp_mono; [apply (wp_kill st)| |].
  - intros e s' ((A & _) & _). exact A.
  - split; [exact H|]. destruct H as ((_ & _ & A & _) & _). rewrite <- A. now split.
  - intros [] s' H'. now apply wp_attempt_reconnect.
  - intros e s' He. exact He.
Qed.

Lemma look_agrees (s : state) : on_core agrees s -> on_core agrees (look cfg now s).
Proof.
  intros H. set (s0 := (s.1, (s.2.1, Looked cfg now :: s.2.2)) : state).
  assert (H0 : on_core (fun k log => agrees k log /\ looked log = Some (cfg, now)) s0).
  { split; [|reflexivity]. destruct H as (A & B & C & D & F & G & I & L). unfold agrees, core, s0. cbn [fst snd bad_run failed_run attempt_after lawful]. tauto. }
  assert (T : wp (check cfg (Some now) : LM Status) (fun _ => on_core agrees) (fun _ => on_core agrees) s0).
  2:{ unfold wp in T. unfold look. fold s0. now destruct (check cfg (Some now) s0) as [s' [a|e]]. }
  clearbody s0. clear s H. unfold check. rewrite (proj2 (Z.eqb_neq now 0)) by lia. apply wp_bind, wp_ret.
  destruct (wc_enabled cfg) eqn:En; cbn [andb negb]; [|apply wp_gets, H0]. destruct applicable; cbn [negb]; [|apply wp_gets, H0].
  apply wp_bind. eapply wp_mono; [apply wp_set_dog; [reflexivity|exact H0]| |intros e s' He; exact He].
  clear s0 H0. intros [] s H. apply wp_bind.
  eapply (wp_mono _ (fun hd => on_core (just_read (text_or "terminal_down" (hl_state hd.1))))); [| |intros e s' He; exact He].
  { unfold read_health. apply wp_bind, wp_attempt. unfold wp at 1, on_world. cbn [con_health logged]. unfold logging.
    destruct s as [d [w log]]. cbn [fst snd] in *. destruct H as [A L]. cbn [fst snd] in *.
    destruct (con_health w) as [w' [h|e]]; apply wp_ret; exists log; now split. }
  clear s H. intros [h detail] s H. cbn [fst] in H. set (st := text_or "terminal_down" (hl_state h)) in *. cbv zeta.
  apply wp_bind. eapply wp_mono; [apply wp_set_dog; [reflexivity|exact H]| |intros e s' He; exact He].
  clear s H. intros [] s H. destruct (bool_decide_reflect (st = "ok")) as [Eq|Ne]; apply wp_bind.
  - rewrite Eq in H. eapply wp_mono; [apply wp_set_dog; [reflexivity|exact H]| |intros e s' He; exact He].
    clear s H. intros [] s H. apply wp_bind. eapply wp_mono; [now apply wp_on_healthy| |intros e s' He; exact He].
    intros [] s' H'. now apply wp_gets.
  - eapply wp_mono; [now apply wp_on_unhealthy| |intros e s' He; exact He]. intros [] s' H'. now apply wp_gets.
Qed.
End Agreement.

(** C29: Whatever the terminal answers and whatever the configuration is changed to, the
    watchdog climbs its ladder: it reconnects only after the grace of unhealthy
    readings in a row and when the delay of the last failed attempt is over, and
    ends the terminal only when besides it does not answer and attempts enough have
    failed since it was last well. *)
Theorem watchdog_climbs_the_ladder {W} `{!Console W} (w : W) calls :
  Forall call_ok calls -> lawful (watch w calls).2.2.
Proof.
  intros H. enough (on_core agrees (watch w calls)) as (_ & _ & _ & _ & _ & _ & _ & L) by exact L.
  unfold watch. assert (H0 : on_core agrees (fresh_dog, (w, []))) by (unfold on_core, agrees; cbn; repeat split; auto; lia).
  revert H0. generalize (fresh_dog, (w, [] : list WatchEvent)). induction H as [|[cfg now] calls [V T] _ IH]; intros s Hs; [exact Hs|].
  cbn [foldl]. apply IH. now apply look_agrees.
Qed.

(** ** A terminal that comes back *)

(** A world for examples: the readings to come, whether an attempt brings the
    terminal back, and how often it was ended. *)
Record Room := mkRoom { rm_readings : list string; rm_answers : list bool; rm_ended : nat }.
#[export] Instance room : Console Room := {|
  applicable := true;
  con_health r := (mkRoom (tail (rm_readings r)) (rm_answers r) (rm_ended r),
                   Ok (mkHealth (head (rm_readings r)) None None None));
  con_reconnect r := (mkRoom (rm_readings r) (tail (rm_answers r)) (rm_ended r), Ok (default false (head (rm_answers r)), ""));
  con_kill_terminal := Some (fun r => (mkRoom (rm_readings r) (rm_answers r) (S (rm_ended r)), Ok (true, "")));
  con_can_sign_in _ := true;
  con_append _ r := (r, Ok tt);
  con_clock r := (r, 1)
|}.
Definition at_seconds (ts : list Z) : list (WatchdogConfig * Z) := map (fun t => (default_watchdog_config, t * 1000000000)) ts.

(** The attempts of an outage of [broker_disconnected] count toward the end of a
    terminal that fails to answer for the first time. *)
Example first_silence_ends_terminal :
  let w := mkRoom (repeat "broker_disconnected" 4 ++ ["terminal_down"]) [false; false; false; true] 0 in
  let '(d, (r, log)) := watch w (at_seconds [10; 11; 42; 103; 224]) in
  rm_ended r = 1%nat /\ reading log = Some "terminal_down" /\ dg_state d = "ok" /\
  List.length (List.filter (fun e => match e with Read s => bool_decide (s = "terminal_down") | _ => false end) log) = 1%nat.
Proof. vm_compute. repeat split; reflexivity. Qed.

Lemma watchdog_climbs_the_ladder_witness :
  let w := mkRoom ["ok"; "terminal_down"; "terminal_down"] [true] 0 in
  Forall call_ok (at_seconds [5; 10; 11]) /\ lawful (watch w (at_seconds [5; 10; 11])).2.2.
Proof.
  assert (H : Forall call_ok (at_seconds [5; 10; 11])) by (repeat constructor).
  split; [exact H|]. apply (watchdog_climbs_the_ladder _ _ H).
Defined.
