(* ===== verification/Health.v ===== *)
(** [sentinel/ops/health.py]: the probes of the link to the venue, its outages and
    the snapshot of the dashboard.

    Outages are objects: the list of past outages and the running one refer into a
    store of them, because an outage is listed before the running one is let go.
    The audit journal is an operation of its own state, or absent; what it raises is
    not caught.  Readings of the clocks are arguments; a snapshot reads the wall
    clock once, where the code reads it for each outage.  Warnings are tags. *)

From Stdlib Require Import ZArith Lia SpecFloat.
From stdpp Require Import base strings list sorting.
From S2P Require Import Prelude PyDecimal Calendar PyFloat StateExn Clock.

Local Open Scope Z_scope.
Local Open Scope py_scope.

(** ** State *)

Record Outage := mkOutage { ou_started_ns : Z; ou_ended_ns : option Z; ou_reason : string }.
(** [duration_sec]: an end of zero reads as no end. *)
Definition duration_sec (wall : Z) (o : Outage) : spec_float :=
  let until := match ou_ended_ns o with Some 0 | None => wall | Some t => t end in
  fdiv (float_of_Z (until - ou_started_ns o)) (float_of_Z 1000000000).

Inductive HealthEvent :=
| ClockAnomaly (regression_ms : spec_float)
| LinkRecovered (outage_sec : spec_float)
| LinkLost (reason : string).

Record HealthMonitor (J : Type) := mkHealthMonitor {
  hm_max_clock_skew_ms : spec_float;
  hm_window : nat;
  hm_clock : ClockMonitor;
  hm_monotonic : MonotonicGuard;
  hm_latencies : list spec_float;
  hm_probes : list (Z * bool);
  hm_store : list Outage;
  hm_outages : list nat;
  hm_current : option nat;
  hm_started_ns : Z;
  hm_journal : J
}.
Arguments mkHealthMonitor {J}.
Arguments hm_max_clock_skew_ms {J}.
Arguments hm_window {J}.
Arguments hm_clock {J}.
Arguments hm_monotonic {J}.
Arguments hm_latencies {J}.
Arguments hm_probes {J}.
Arguments hm_store {J}.
Arguments hm_outages {J}.
Arguments hm_current {J}.
Arguments hm_started_ns {J}.
Arguments hm_journal {J}.

Section Health.
Context {J : Type} (audit : option (HealthEvent -> J -> J * res unit)).

Definition HM (A : Type) : Type := M (HealthMonitor J) A.

(** [HealthMonitor(audit, window=..., max_clock_skew_ms=...)]. *)
Definition new_health (window : nat) (max_skew : spec_float) (wall mono : Z) (journal : J) : HealthMonitor J :=
  mkHealthMonitor max_skew window (new_monitor 512) (new_guard wall mono) [] [] [] [] None wall journal.

Definition set_clock (m : ClockMonitor) : HM unit :=
  modify (fun s => mkHealthMonitor (hm_max_clock_skew_ms s) (hm_window s) m (hm_monotonic s) (hm_latencies s) (hm_probes s)
    (hm_store s) (hm_outages s) (hm_current s) (hm_started_ns s) (hm_journal s)).
Definition set_monotonic (g : MonotonicGuard) : HM unit :=
  modify (fun s => mkHealthMonitor (hm_max_clock_skew_ms s) (hm_window s) (hm_clock s) g (hm_latencies s) (hm_probes s)
    (hm_store s) (hm_outages s) (hm_current s) (hm_started_ns s) (hm_journal s)).
Definition add_latency (x : spec_float) : HM unit :=
  modify (fun s => mkHealthMonitor (hm_max_clock_skew_ms s) (hm_window s) (hm_clock s) (hm_monotonic s)
    (push (hm_window s) (hm_latencies s) x) (hm_probes s) (hm_store s) (hm_outages s) (hm_current s) (hm_started_ns s) (hm_journal s)).
Definition add_probe (now : Z) (ok : bool) : HM unit :=
  modify (fun s => mkHealthMonitor (hm_max_clock_skew_ms s) (hm_window s) (hm_clock s) (hm_monotonic s) (hm_latencies s)
    (push (hm_window s) (hm_probes s) (now, ok)) (hm_store s) (hm_outages s) (hm_current s) (hm_started_ns s) (hm_journal s)).
Definition set_outages (store : list Outage) (outages : list nat) (current : option nat) : HM unit :=
  modify (fun s => mkHealthMonitor (hm_max_clock_skew_ms s) (hm_window s) (hm_clock s) (hm_monotonic s) (hm_latencies s)
    (hm_probes s) store outages current (hm_started_ns s) (hm_journal s)).

(** [if self.audit: self.audit.append(...)]. *)
Definition note (e : HealthEvent) : HM unit :=
  match audit with
  | None => ret tt
  | Some append => fun s =>
      match append e (hm_journal s) with
      | (j, r) => (mkHealthMonitor (hm_max_clock_skew_ms s) (hm_window s) (hm_clock s) (hm_monotonic s) (hm_latencies s)
                     (hm_probes s) (hm_store s) (hm_outages s) (hm_current s) (hm_started_ns s) j, r)
      end
  end.

(** ** Probes *)

(** The answer of a probe, and the clocks while it is recorded. *)
Record Probe := mkProbe {
  pb_ok : bool;
  pb_latency_ms : option spec_float;
  pb_venue_ts_ns : option Z;
  pb_reason : string;
  pb_now_ns : option Z;
  pb_wall : Z;
  pb_wall_observe : Z;
  pb_wall_check : Z;
  pb_mono_check : Z
}.
Definition probe_time (p : Probe) : Z := match pb_now_ns p with Some t => t | None => pb_wall p end.

(** [latency_ms or 0], in nanoseconds. *)
Definition round_trip (latency : option spec_float) : res Z :=
  match latency with
  | None => Ok 0
  | Some x => int_of_float (fmul x (float_of_Z 1000000))
  end.

(** The skew of an answer; an injected clock replaces the reading of the process. *)
Definition observe_venue (p : Probe) : HM unit :=
  match pb_venue_ts_ns p with
  | Some ts =>
      when (pb_ok p)
        (let! rt := lift (round_trip (pb_latency_ms p)) in
         let! m := gets hm_clock in
         set_clock (observe m (pb_wall_observe p) ts rt) ;!
         match pb_now_ns p with
         | Some now =>
             let! m := gets hm_clock in
             let! m := lift (replace_last m (mkSkewSample now ts rt)) in
             set_clock m
         | None => ret tt
         end)
  | None => ret tt
  end.

Definition check_clock (p : Probe) : HM unit :=
  let! g := gets hm_monotonic in
  let '(g, regression) := check g (pb_wall_check p) (pb_mono_check p) in
  set_monotonic g ;!
  match regression with
  | Some ms => when (negb (feqb ms (float_of_Z 0))) (note (ClockAnomaly (fround_to ms 2)))
  | None => ret tt
  end.

(** The end of the running outage: it is listed, reported and let go. *)
Definition end_outage (now wall : Z) (i : nat) : HM unit :=
  let! store := gets hm_store in
  let! outages := gets hm_outages in
  let store := alter (fun o => mkOutage (ou_started_ns o) (Some now) (ou_reason o)) i store in
  set_outages store (outages ++ [i]) (Some i) ;!
  note (LinkRecovered (match store !! i with Some o => fround_to (duration_sec wall o) 1 | None => float_of_Z 0 end)) ;!
  set_outages store (outages ++ [i]) None.
Definition start_outage (now : Z) (reason : string) : HM unit :=
  let! store := gets hm_store in
  let! outages := gets hm_outages in
  set_outages (store ++ [mkOutage now None reason]) outages (Some (length store)) ;!
  note (LinkLost reason).

(** [record_probe]. *)
Definition record_probe (p : Probe) : HM unit :=
  let now := probe_time p in
  add_probe now (pb_ok p) ;!
  match pb_latency_ms p with Some x => when (pb_ok p) (add_latency x) | None => ret tt end ;!
  observe_venue p ;!
  check_clock p ;!
  let! current := gets hm_current in
  if pb_ok p then
    match current with Some i => end_outage now (pb_wall p) i | None => ret tt end
  else
    match current with None => start_outage now (pb_reason p) | Some _ => ret tt end.

(** [probe]: the account is read against the stopwatch; [describe] is the text of an
    exception. *)
Definition probe (account_ts : res Z) (describe : exn -> string) (now_ns : option Z)
    (mono_before mono_after wall wall_observe wall_check mono_check : Z) : HM bool :=
  match account_ts with
  | Raise e =>
      record_probe (mkProbe false None None (describe e) now_ns wall wall_observe wall_check mono_check) ;! ret false
  | Ok ts =>
      let latency := elapsed_ms mono_after (start_watch mono_before) in
      record_probe (mkProbe true (Some latency) (Some ts) "" now_ns wall wall_observe wall_check mono_check) ;! ret true
  end.

(** ** The state of the link *)

Definition connected (s : HealthMonitor J) : bool := match hm_current s with None => true | Some _ => false end.
Definition current_outage (s : HealthMonitor J) : option Outage := match hm_current s with Some i => hm_store s !! i | None => None end.
Definition offline_seconds (wall : Z) (s : HealthMonitor J) : spec_float :=
  match current_outage s with Some o => duration_sec wall o | None => float_of_Z 0 end.
(** The outages of the list, looked up. *)
Definition past_outages (s : HealthMonitor J) : list Outage := omap (fun i => hm_store s !! i) (hm_outages s).

(** [uptime_pct(window_sec)]. *)
Definition uptime_pct (wall : Z) (window_sec : spec_float) (s : HealthMonitor J) : res spec_float :=
  let* w := int_of_float (fmul window_sec (float_of_Z 1000000000)) in
  let recent := List.filter (fun x => wall - w <=? x.1) (hm_probes s) in
  Ok match recent with
     | [] => float_of_Z 100
     | _ => fdiv (fmul (float_of_Z 100) (float_of_Z (Z.of_nat (length (List.filter snd recent))))) (float_of_Z (Z.of_nat (length recent)))
     end.

(** [sorted] of floats. *)
Fixpoint insert_duration (x : spec_float) (xs : list spec_float) : list spec_float :=
  match xs with [] => [x] | y :: rest => if fltb x y then x :: xs else y :: insert_duration x rest end.
Definition sorted_durations (xs : list spec_float) : list spec_float := foldl (fun acc x => insert_duration x acc) [] xs.
Definition quantile (p : spec_float) (xs : list spec_float) : res (option spec_float) :=
  match xs with
  | [] => Ok None
  | _ => let* i := quantile_index p (length xs) in Ok (nth_error (sorted_durations xs) i)
  end.
(** [_pct]. *)
Definition pct (p : spec_float) (s : HealthMonitor J) : res (option spec_float) := quantile p (hm_latencies s).

(** ** The snapshot *)

Inductive HealthWarning := LowUptime | LongOutage | ClockSkew | WallRegressions (n : Z) | SlowVenue.
Record HealthSnapshot := mkHealthSnapshot {
  sn_connected : bool;
  sn_uptime_pct : spec_float;
  sn_offline_seconds : spec_float;
  sn_median_latency_ms : option spec_float;
  sn_p95_latency_ms : option spec_float;
  sn_clock_skew_ms : option spec_float;
  sn_clock_regressions : Z;
  sn_outages_24h : Z;
  sn_longest_outage_sec : spec_float;
  sn_data_age_sec : list (string * spec_float);
  sn_warnings : list HealthWarning
}.

(** [max([o.duration_sec ...] + [self.offline_seconds] + [0.0])]. *)
Definition longest_outage (wall : Z) (recent : list Outage) (s : HealthMonitor J) : spec_float :=
  match map (duration_sec wall) recent ++ [offline_seconds wall s; float_of_Z 0] with
  | [] => float_of_Z 0
  | x :: rest => foldl fmax x rest
  end.
Definition warn (b : bool) (w : HealthWarning) : list HealthWarning := if b then [w] else [].
Definition snapshot (wall : Z) (data_age : list (string * spec_float)) (s : HealthMonitor J) : res HealthSnapshot :=
  let* uptime := uptime_pct wall (float_of_Z 86400) s in
  let recent := List.filter (fun o => wall - 86400000000000 <=? ou_started_ns o) (past_outages s) in
  let longest := longest_outage wall recent s in
  let skew := median_skew_ms (hm_clock s) in
  let* p95 := pct (float_of_dec 0.95%dec) s in
  let* p50 := pct (float_of_dec 0.5%dec) s in
  let warnings :=
    warn (fltb uptime (float_of_Z 99)) LowUptime
    ++ warn (fltb (float_of_Z 300) longest) LongOutage
    ++ warn (match skew with Some x => fltb (hm_max_clock_skew_ms s) (abs_float x) | None => false end) ClockSkew
    ++ warn (negb (mg_regressions (hm_monotonic s) =? 0)) (WallRegressions (mg_regressions (hm_monotonic s)))
    ++ warn (match p95 with Some x => fltb (float_of_Z 1500) x | None => false end) SlowVenue in
  Ok (mkHealthSnapshot (connected s) uptime (offline_seconds wall s) p50 p95 skew (mg_regressions (hm_monotonic s))
        (Z.of_nat (length recent)) longest data_age warnings).

(** [_jsonable]: what is not a finite number is [None]. *)
Definition jsonable (x : option spec_float) : option spec_float :=
  match x with
  | None | Some S754_nan | Some (S754_infinity _) => None
  | Some v => Some (fround_to v 1)
  end.

(** [outage_distribution], of the finished outages; [fsum] is [sum] of floats, whose
    rounding depends on the version of the interpreter. *)
Record OutageDistribution := mkOutageDistribution {
  od_n : Z; od_median_sec : spec_float; od_p90_sec : spec_float; od_p99_sec : spec_float;
  od_max_sec : spec_float; od_total_sec : spec_float
}.
Definition quantile_of (p : spec_float) (xs : list spec_float) : res spec_float :=
  let* i := quantile_index p (length xs) in
  match nth_error xs i with Some x => Ok (fround_to x 1) | None => Raise IndexError end.
Definition outage_distribution (fsum : list spec_float -> spec_float) (wall : Z) (s : HealthMonitor J) : res (option OutageDistribution) :=
  match past_outages s with
  | [] => Ok None
  | os =>
      let ds := sorted_durations (map (duration_sec wall) os) in
      let* med := quantile_of (float_of_dec 0.5%dec) ds in
      let* p90 := quantile_of (float_of_dec 0.9%dec) ds in
      let* p99 := quantile_of (float_of_dec 0.99%dec) ds in
      Ok (Some (mkOutageDistribution (Z.of_nat (length ds)) med p90 p99
            (fround_to (default (float_of_Z 0) (last ds)) 1)
            (fround_to (fsum ds) 1)))
  end.
End Health.
Arguments HM : clear implicits.

(** * The outages of [Health] are the runs of failed probes: what the monitor keeps
    of a sequence of probes, against the sequence itself. *)

(** ** Runs of failed probes *)

Abbreviation probe_log := (list (Z * bool)).

(** The link had been up, or was never probed. *)
Definition was_up (pre : probe_log) : Prop := pre = [] \/ exists pre' t, pre = pre' ++ [(t, true)].
Definition all_failed (mid : probe_log) : Prop := Forall (fun x => x.2 = false) mid.
(** A failed run from [a] that the next success ended at [b]. *)
Definition is_outage (log : probe_log) (a b : Z) : Prop :=
  exists pre mid post, log = pre ++ (a, false) :: mid ++ (b, true) :: post /\ all_failed mid /\ was_up pre.
(** A failed run from [a] to the end. *)
Definition open_run (log : probe_log) (a : Z) : Prop :=
  exists pre mid, log = pre ++ (a, false) :: mid /\ all_failed mid /\ was_up pre.
(** The successes that ended a failed run. *)
Fixpoint ends (up : bool) (log : probe_log) : nat :=
  match log with
  | [] => O
  | (_, ok) :: rest => ((if negb up && ok then 1 else 0) + ends ok rest)%nat
  end.
Fixpoint up_after (up : bool) (log : probe_log) : bool := match log with [] => up | (_, ok) :: rest => up_after ok rest end.

Lemma up_after_snoc up log t ok : up_after up (log ++ [(t, ok)]) = ok.
Proof. revert up. induction log as [|[u o] log IH]; intros up; cbn; auto. Qed.

Lemma ends_snoc up log t ok : ends up (log ++ [(t, ok)]) = (ends up log + (if negb (up_after up log) && ok then 1 else 0))%nat.
Proof. revert up. induction log as [|[u o] log IH]; intros up; cbn; [lia|]. rewrite IH. lia. Qed.

Lemma was_up_spec log : was_up log <-> up_after true log = true.
Proof.
  destruct log as [|[t ok] log _] using rev_ind; [split; [reflexivity|now left]|]. rewrite up_after_snoc. split.
  - intros [H|(pre & u & H)]; [now destruct log|]. apply app_inj_tail in H as [_ [= _ ->]]. reflexivity.
  - intros ->. right. eauto.
Qed.

Lemma snoc_split {A} (log : list A) x pre y rest :
  log ++ [x] = pre ++ y :: rest -> (rest = [] /\ pre = log /\ y = x) \/ exists rest', rest = rest' ++ [x] /\ log = pre ++ y :: rest'.
Proof.
  destruct rest as [|z rest _] using rev_ind; intros H.
  - left. apply app_inj_tail in H as [-> ->]. auto.
  - right. exists rest. rewrite app_comm_cons, app_assoc in H. apply app_inj_tail in H as [-> ->]. auto.
Qed.

Lemma open_run_snoc log t ok a :
  open_run (log ++ [(t, ok)]) a <-> ok = false /\ (open_run log a \/ a = t /\ was_up log).
Proof.
  split.
  - intros (pre & mid & H & F & U). apply snoc_split in H as [(-> & -> & [= -> <-])|(mid' & -> & ->)]; [auto|].
    apply Forall_app in F as [F [F' _]%Forall_cons]. cbn in F'. split; [exact F'|]. left. exists pre, mid'. auto.
  - intros [-> [(pre & mid & -> & F & U)|[-> U]]].
    + exists pre, (mid ++ [(t, false)]). rewrite <- app_assoc. split; [reflexivity|]. split; [|exact U]. apply Forall_app. split; [exact F|]. now repeat constructor.
    + exists log, []. split; [reflexivity|]. split; [constructor|exact U].
Qed.

Lemma is_outage_snoc log t ok a b :
  is_outage (log ++ [(t, ok)]) a b <-> is_outage log a b \/ ok = true /\ b = t /\ open_run log a.
Proof.
  split.
  - intros (pre & mid & post & H & F & U). apply snoc_split in H as [(E & _)|(rest & E & ->)]; [now destruct mid|].
    symmetry in E. apply snoc_split in E as [(-> & -> & [= <- <-])|(post' & -> & ->)].
    + right. split; [reflexivity|]. split; [reflexivity|]. exists pre, rest. auto.
    + left. exists pre, mid, post'. auto.
  - intros [(pre & mid & post & -> & F & U)|(-> & -> & (pre & mid & -> & F & U))].
    + exists pre, mid, (post ++ [(t, ok)]). rewrite <- !app_assoc. cbn. rewrite <- app_assoc. auto.
    + exists pre, mid, []. rewrite <- app_assoc. auto.
Qed.

Lemma open_run_down log a : open_run log a -> up_after true log = false.
Proof.
  intros (pre & mid & -> & F & _). destruct mid as [|[t ok] mid _] using rev_ind; [apply up_after_snoc|].
  rewrite app_comm_cons, app_assoc, up_after_snoc. now apply Forall_app in F as [_ [F _]%Forall_cons].
Qed.

(** ** What the monitor keeps *)

Definition listed (store : list Outage) (outages : list nat) : list Outage := omap (fun i => store !! i) outages.

(** The outages of a monitor after the probes of a log. *)
Record reflects (log : probe_log) (store : list Outage) (outages : list nat) (current : option nat) : Prop := {
  rf_stored : forall j, j ∈ outages -> (j < length store)%nat;
  rf_ended : forall o, o ∈ listed store outages -> ou_ended_ns o <> None;
  rf_times : forall a b, (exists o, (o ∈ listed store outages) /\ ou_started_ns o = a /\ ou_ended_ns o = Some b) <-> is_outage log a b;
  rf_count : length outages = ends true log;
  rf_current :
    match current with
    | None => up_after true log = true
    | Some i => up_after true log = false /\ S i = length store /\ (i ∉ outages) /\
        exists o, store !! i = Some o /\ forall a, open_run log a <-> a = ou_started_ns o
    end
}.

Lemma listed_elem store outages o : (o ∈ listed store outages) <-> exists i, i ∈ outages /\ store !! i = Some o.
Proof. apply list_elem_of_omap. Qed.

Lemma listed_alter f store outages i : i ∉ outages -> listed (alter f i store) outages = listed store outages.
Proof.
  intros H. induction outages as [|j outages IH]; [reflexivity|]. apply not_elem_of_cons in H as [Hj H].
  unfold listed in *. cbn [omap list_omap]. rewrite list_lookup_alter_ne by exact Hj. now rewrite (IH H).
Qed.

Lemma listed_grow store x outages : (forall j, j ∈ outages -> (j < length store)%nat) -> listed (store ++ [x]) outages = listed store outages.
Proof.
  intros H. unfold listed in *. induction outages as [|j outages IH]; [reflexivity|]. cbn [omap list_omap]. rewrite lookup_app_l by (apply H; left).
  rewrite IH; [reflexivity|]. intros k Hk. apply H. now right.
Qed.

Lemma reflects_quiet log store outages current t ok :
  reflects log store outages current -> (current = None <-> ok = true) -> reflects (log ++ [(t, ok)]) store outages current.
Proof.
  intros [R1 R2 R3 R4 R5] H. split; auto.
  - intros a b. rewrite R3, is_outage_snoc. split; [auto|]. intros [?|(-> & -> & O)]; [assumption|].
    apply open_run_down in O. rewrite (proj2 H eq_refl) in R5. congruence.
  - rewrite ends_snoc, R4. destruct current as [i|]; [|rewrite R5; cbn; lia].
    destruct ok; [now specialize (proj2 H eq_refl)|]. rewrite andb_false_r. lia.
  - rewrite up_after_snoc. destruct current as [i|].
    + destruct ok; [now specialize (proj2 H eq_refl)|]. destruct R5 as (U & L & N & o & Ho & Hr). split_and!; auto.
      exists o. split; [exact Ho|]. intros a. rewrite open_run_snoc, Hr. split; [|auto].
      intros [_ [?|[_ W]]]; [assumption|]. apply was_up_spec in W. congruence.
    + now apply H.
Qed.

Lemma reflects_end log store outages i t :
  reflects log store outages (Some i) ->
  reflects (log ++ [(t, true)]) (alter (fun o => mkOutage (ou_started_ns o) (Some t) (ou_reason o)) i store) (outages ++ [i]) None.
Proof.
  intros [R1 R2 R3 R4 (U & L & N & o & Ho & Hr)].
  assert (E : listed (alter (fun o => mkOutage (ou_started_ns o) (Some t) (ou_reason o)) i store) (outages ++ [i])
              = listed store outages ++ [mkOutage (ou_started_ns o) (Some t) (ou_reason o)]).
  { unfold listed. rewrite omap_app. f_equal; [now apply listed_alter|]. cbn. now rewrite list_lookup_alter_eq, Ho. }
  split.
  - intros j. rewrite length_alter, elem_of_app, list_elem_of_singleton. intros [Hj| ->]; [now apply R1|lia].
  - intros x. rewrite E, elem_of_app, list_elem_of_singleton. intros [Hx| ->]; [now apply R2|discriminate].
  - intros a b. rewrite E, is_outage_snoc, <- R3, Hr. split.
    + intros (x & [Hx| ->%list_elem_of_singleton]%elem_of_app & <- & Hb); [left; eauto|]. injection Hb as <-. right. auto.
    + intros [(x & Hx & Ha & Hb)|(_ & -> & ->)]; [exists x|eexists]; (split; [apply elem_of_app|]); [now left|now split| |].
      * right. now apply list_elem_of_singleton.
      * now split.
  - rewrite length_app, ends_snoc, U, R4. reflexivity.
  - apply up_after_snoc.
Qed.

Lemma reflects_start log store outages t reason :
  reflects log store outages None ->
  reflects (log ++ [(t, false)]) (store ++ [mkOutage t None reason]) outages (Some (length store)).
Proof.
  intros [R1 R2 R3 R4 U]. split.
  - intros j Hj. rewrite length_app. specialize (R1 j Hj). lia.
  - now rewrite listed_grow.
  - intros a b. rewrite listed_grow by exact R1. rewrite R3, is_outage_snoc. split; [auto|]. now intros [?|(? & _)].
  - rewrite ends_snoc, andb_false_r, R4. lia.
  - rewrite up_after_snoc, length_app. split_and!; [reflexivity|cbn; lia|intros Hj%R1; lia|].
    exists (mkOutage t None reason). split; [now rewrite list_lookup_middle|]. intros a. rewrite open_run_snoc, was_up_spec. cbn.
    split; [|auto]. intros [_ [H|[H _]]]; [|exact H]. apply open_run_down in H. congruence.
Qed.

(** ** Recording *)

Section Recording.
Context {J : Type} (audit : option (HealthEvent -> J -> J * res unit)).
(** A journal that takes what it is given. *)
Definition journal_accepts : Prop := forall append e j, audit = Some append -> exists j', append e j = (j', Ok tt).
Hypothesis accepts : journal_accepts.

Definition latency_ok (p : Probe) : Prop := exists rt, round_trip (pb_latency_ms p) = Ok rt.

Definition on_link (P : list Outage -> list nat -> option nat -> Prop) (s : HealthMonitor J) : Prop :=
  P (hm_store s) (hm_outages s) (hm_current s) /\ (0 < cm_window (hm_clock s))%nat.
Abbreviation never := (fun (_ : exn) (_ : HealthMonitor J) => False).

Lemma wp_note P e s : on_link P s -> wp (note audit e) (fun _ => on_link P) never s.
Proof.
  intros H. unfold note, wp. destruct audit as [append|] eqn:E; [|exact H].
  destruct (accepts append e (hm_journal s) E) as [j' ->]. exact H.
Qed.

Lemma wp_observe P p s : latency_ok p -> on_link P s -> wp (observe_venue p) (fun _ => on_link P) never s.
Proof.
  intros [rt Hrt] [H Hw]. unfold observe_venue. destruct (pb_venue_ts_ns p) as [ts|]; [|now apply wp_ret].
  apply wp_when; intros _; [|now split]. rewrite Hrt. apply wp_bind, wp_lift; [|discriminate]. intros ? [= <-].
  unfold set_clock. apply wp_bind, wp_gets, wp_bind, wp_modify. destruct (pb_now_ns p) as [now|]; [|now apply wp_ret].
  apply wp_bind, wp_gets, wp_bind. cbn [hm_clock]. apply wp_lift.
  - intros m Hm. apply wp_modify. split; [exact H|]. unfold replace_last in Hm. destruct (cm_samples _); [discriminate|]. injection Hm as <-. exact Hw.
  - intros e. unfold replace_last, observe. cbn [cm_samples]. destruct (push _ _ _) eqn:E; [|discriminate].
    pose proof (push_last _ (cm_samples (hm_clock s)) (mkSkewSample (pb_wall_observe p) ts rt) Hw) as L. now rewrite E in L.
Qed.

Lemma wp_check_clock P p s : on_link P s -> wp (check_clock audit p) (fun _ => on_link P) never s.
Proof.
  intros H. unfold check_clock. apply wp_bind, wp_gets. destruct (check _ _ _) as [g regression].
  unfold set_monotonic. apply wp_bind, wp_modify. destruct regression as [ms|]; [|now apply wp_ret].
  apply wp_when; [intros _; now apply wp_note|auto].
Qed.

Lemma wp_record_probe log p s : latency_ok p -> on_link (reflects log) s ->
  wp (record_probe audit p) (fun _ => on_link (reflects (log ++ [(probe_time p, pb_ok p)]))) never s.
Proof.
  intros Hp H. unfold record_probe, add_probe. apply wp_bind, wp_modify. apply wp_bind.
  eapply (wp_mono _ (fun _ => on_link (reflects log)) _ never); [|clear s H|auto].
  { destruct (pb_latency_ms p); [|now apply wp_ret]. apply wp_when; [|now auto]. intros _. unfold add_latency. now apply wp_modify. }
  intros [] s H. apply wp_bind. eapply wp_mono; [now apply (wp_observe (reflects log))|clear s H|auto].
  intros [] s H. apply wp_bind. eapply wp_mono; [now apply (wp_check_clock (reflects log))|clear s H|auto].
  intros [] s [H Hw]. apply wp_bind, wp_gets. destruct (pb_ok p) eqn:Ok_; destruct (hm_current s) as [i|] eqn:Ec.
  - unfold end_outage, set_outages. apply wp_bind, wp_gets, wp_bind, wp_gets, wp_bind, wp_modify. cbv zeta. apply wp_bind.
    match goal with |- wp (note audit ?e) _ _ ?st => set (s1 := st) end.
    eapply wp_mono; [apply (wp_note (fun store outages _ => store = hm_store s1 /\ outages = hm_outages s1) _ s1); split; [now split|exact Hw]| |auto].
    intros [] s2 [[E1 E2] Hw2]. apply wp_modify. split; [|exact Hw2]. now apply reflects_end.
  - apply wp_ret. split; [|exact Hw]. rewrite Ec. now apply reflects_quiet.
  - apply wp_ret. split; [|exact Hw]. rewrite Ec. now apply reflects_quiet.
  - unfold start_outage, set_outages. apply wp_bind, wp_gets, wp_bind, wp_gets, wp_bind, wp_modify.
    apply (wp_note (reflects (log ++ [(probe_time p, false)]))). split; [|exact Hw]. now apply reflects_start.
Qed.
End Recording.

Definition times (ps : list Probe) : probe_log := map (fun p => (probe_time p, pb_ok p)) ps.

(** C31: When the journal, if there is one, takes every event, and every latency can be
    measured, recording any probes returns, and the monitor then holds exactly the
    outages the probes show: an outage is listed with its start and its end iff a run
    of failed probes started and was ended then, each once, and the link counts as
    connected iff the last probe succeeded; the running outage started with the open
    run.  A journal that refuses an event makes an outage be listed twice
    ([refused_recovery_is_listed_twice]). *)
Theorem outages_are_failed_runs {J} (audit : option (HealthEvent -> J -> J * res unit)) window max_skew wall mono journal ps :
  journal_accepts audit -> Forall latency_ok ps ->
  exists s, each (record_probe audit) ps (new_health window max_skew wall mono journal) = (s, Ok tt) /\
    (forall a b, (exists o, o ∈ past_outages s /\ ou_started_ns o = a /\ ou_ended_ns o = Some b) <-> is_outage (times ps) a b) /\
    length (past_outages s) = ends true (times ps) /\
    connected s = up_after true (times ps) /\
    (forall a, option_map ou_started_ns (current_outage s) = Some a <-> open_run (times ps) a).
Proof.
  intros Hj Hps. set (s0 := new_health window max_skew wall mono journal).
  assert (H0 : on_link (reflects []) s0).
  { split; [|cbn; lia]. split; cbn.
    - intros j Hin. now apply not_elem_of_nil in Hin.
    - intros o Ho. now apply not_elem_of_nil in Ho.
    - intros a b. split; [intros (o & Ho & _); now apply not_elem_of_nil in Ho|intros (pre & mid & post & E & _); now destruct pre].
    - reflexivity.
    - reflexivity. }
  assert (T : forall log s, on_link (reflects log) s ->
            wp (each (record_probe audit) ps) (fun _ => on_link (reflects (log ++ times ps))) (fun _ _ => False) s).
  { clear s0 H0. induction Hps as [|p ps Hp _ IH]; intros log s Hs; cbn [each times map].
    - apply wp_ret. now rewrite app_nil_r.
    - apply wp_bind. eapply wp_mono; [now apply (wp_record_probe audit Hj log)| |auto]. intros [] s' H'.
      specialize (IH _ _ H'). now rewrite <- app_assoc in IH. }
  specialize (T [] s0 H0). unfold wp in T. destruct (each _ ps s0) as [s [[]|e]]; [|contradiction]. cbn [app] in T.
  exists s. split; [reflexivity|]. destruct T as [[R1 R2 R3 R4 R5] _]. unfold past_outages, connected, current_outage.
  split; [exact R3|]. split; [|split].
  - rewrite <- R4. clear - R1. induction (hm_outages s) as [|i is_ IH]; [reflexivity|]. cbn [omap list_omap].
    destruct (lookup_lt_is_Some_2 (hm_store s) i) as [o ->]; [apply R1; left|]. cbn [length]. f_equal. apply IH. intros j Hin. apply R1. now right.
  - destruct (hm_current s); [symmetry; apply R5|now rewrite R5].
  - destruct (hm_current s) as [i|].
    + destruct R5 as (_ & _ & _ & o & Ho & Hr). rewrite Ho. cbn. intros a. rewrite Hr. split; [intros [= <-]; reflexivity|intros ->; reflexivity].
    + intros a. cbn. split; [discriminate|]. intros O. apply open_run_down in O. congruence.
Qed.

(** ** Probes for examples *)

Definition demo_probe (ok : bool) (t : Z) : Probe := mkProbe ok None None "timeout" (Some t) t t t t.
Definition demo_log : list Probe := [demo_probe false 10; demo_probe false 20; demo_probe true 30; demo_probe false 40].

Lemma outages_are_failed_runs_witness :
  exists s, each (record_probe (J := unit) None) demo_log (new_health 2000 (float_of_Z 750) 5 5 tt) = (s, Ok tt) /\
    past_outages s = [mkOutage 10 (Some 30) "timeout"] /\ is_outage (times demo_log) 10 30 /\ connected s = false.
Proof.
  destruct (outages_are_failed_runs None 2000 (float_of_Z 750) 5 5 tt demo_log) as (s & E & H & _ & C & _).
  - intros append e j. discriminate.
  - repeat constructor; exists 0; reflexivity.
  - exists s. split; [exact E|]. assert (P : past_outages s = [mkOutage 10 (Some 30) "timeout"]).
    { vm_compute in E. injection E as <-. reflexivity. }
    split; [exact P|]. split; [|exact C]. apply H. exists (mkOutage 10 (Some 30) "timeout"). rewrite P. split; [left|now split].
Defined.

(** A journal that refuses the end of an outage leaves it running and listed: the
    next success lists it again, and both entries end at the later moment. *)
Definition refusing (e : HealthEvent) (n : nat) : nat * res unit :=
  match e, n with LinkRecovered _, O => (1%nat, Raise OSError) | _, _ => (n, Ok tt) end.
Example refused_recovery_is_listed_twice :
  let m0 := new_health 2000 (float_of_Z 750) 5 5 0%nat in
  let m1 := (record_probe (Some refusing) (demo_probe false 10) m0).1 in
  let m2 := (record_probe (Some refusing) (demo_probe true 20) m1).1 in
  let m3 := (record_probe (Some refusing) (demo_probe true 30) m2).1 in
  connected m2 = false /\ past_outages m3 = repeat (mkOutage 10 (Some 30) "timeout") 2.
Proof. vm_compute. split; reflexivity. Qed.
