(* ===== verification/Bound.v ===== *)
(** [sentinel/brokers/bound.py]: the wrapper that refuses to route anything once the
    venue's account changes, as a venue over the state of the one it wraps.

    The terminal of an adapter that has one ([_mt5]) is a further operation of the
    venue: its answer is the server of the account, [None] when there is no account.
    What an adapter has beside the methods of [Broker] ([close_position],
    [conversion_rate], [reconnect] and the rest) is a family of operations by name
    and arguments.
    Messages are left out; a problem keeps what was observed. *)

From Stdlib Require Import ZArith Lia.
From stdpp Require Import base strings list.
From S2P Require Import Prelude PyDecimal Money Types PyText StateExn Venue AgentEntry.

Local Open Scope py_scope.

(** ** The binding *)

Record Binding := mkBinding {
  bd_account_id : string;
  bd_account_type : string;
  bd_currency : string;
  bd_server : string
}.
(** What the constructor keeps of its arguments. *)
Definition bind_to (account_id account_type currency server : string) : Binding :=
  mkBinding account_id account_type (upper currency) server.

Inductive Problem :=
| OtherAccount (account_id : string)
| OtherCurrency (currency : string)
| NotLive (reported : string)
| NotDemo (reported : string)
| RealMoney
| OtherServer (server : string).

Definition when_ (b : bool) (p : Problem) : list Problem := if b then [p] else [].
Definition is_empty (s : string) : bool := bool_decide (s = "").
Definition same (a b : string) : bool := bool_decide (a = b).

(** The problems of what the venue reports of its account. *)
Definition account_problems (b : Binding) (a : AccountState) : list Problem :=
  let reported := acc_account_type a in
  when_ (negb (is_empty (bd_account_id b)) && negb (same (acc_account_id a) (bd_account_id b))) (OtherAccount (acc_account_id a))
  ++ when_ (negb (is_empty (bd_currency b)) && negb (same (upper (acc_currency a)) (bd_currency b))) (OtherCurrency (acc_currency a))
  ++ when_ (same (bd_account_type b) "live" && negb (same reported "live")) (NotLive reported)
  ++ when_ (same (bd_account_type b) "demo" && negb (same reported "demo" || is_empty reported)) (NotDemo reported)
  ++ when_ (same (bd_account_type b) "paper" && same reported "live") RealMoney.

(** The outcome of the check: the code of what it raises, or what the venue raised. *)
Inductive CheckError :=
| AccountMismatch (problems : list Problem)
| AccountUnreadable (e : exn)
| VenueRaised (e : exn).
Definition raised (e : CheckError) : exn :=
  match e with AccountMismatch _ | AccountUnreadable _ => BrokerError | VenueRaised e => e end.

Section Bound.
Context {W : Type} `{!Venue W} (terminal : option (venue_op W (option string))).

(** The server of the terminal, where it is to be checked. *)
Definition server_problems (b : Binding) : W -> W * (list Problem + exn) := fun w =>
  match terminal with
  | Some account_info =>
      if is_empty (bd_server b) then (w, inl [])
      else match account_info w with
           | (w, Raise e) => (w, inr e)
           | (w, Ok info) =>
               let observed := match info with Some s => s | None => "" end in
               (w, inl (when_ (negb (same observed (bd_server b))) (OtherServer observed)))
           end
  | None => (w, inl [])
  end.

(** [_check]. *)
Definition check_binding (b : Binding) : W -> W * (AccountState + CheckError) := fun w =>
  match v_account w with
  | (w, Raise e) => (w, inr (VenueRaised e))
  | (w, Ok account) =>
      match server_problems b w with
      | (w, inr e) => (w, inr (AccountUnreadable e))
      | (w, inl more) =>
          match account_problems b account ++ more with
          | [] => (w, inl account)
          | problems => (w, inr (AccountMismatch problems))
          end
      end
  end.
Definition check (b : Binding) : venue_op W AccountState := fun w =>
  match check_binding b w with
  | (w, inl a) => (w, Ok a)
  | (w, inr e) => (w, Raise (raised e))
  end.

(** The constructor: a mismatch always refuses to start, an account that cannot be
    read only where an account was declared. *)
Definition start (b : Binding) (strict_start : bool) : venue_op W unit := fun w =>
  match check_binding b w with
  | (w, inl _) => (w, Ok tt)
  | (w, inr (AccountMismatch _ as e)) => (w, Raise (raised e))
  | (w, inr e) => (w, if strict_start then Raise (raised e) else Ok tt)
  end.

(** [__getattr__] of a method: the check comes first. *)
Definition checked_first {A} (b : Binding) (op : venue_op W A) : venue_op W A := fun w =>
  match check b w with
  | (w, Ok _) => op w
  | (w, Raise e) => (w, Raise e)
  end.
(** Methods whose name starts with an underscore and [close] are not guarded. *)
Definition unguarded (name : string) : bool := String.prefix "_" name || bool_decide (name = "close").
(** A method that the wrapper takes from the adapter by its name. *)
Definition getattr {A} (b : Binding) (name : string) (op : venue_op W A) : venue_op W A :=
  if unguarded name then op else checked_first b op.

(** [AccountBoundBroker] as a [Broker]. *)
Definition bound_venue (b : Binding) : Venue W := {|
  supports_client_order_id := supports_client_order_id;
  v_instrument symbol := checked_first b (v_instrument symbol);
  v_quote symbol := checked_first b (v_quote symbol);
  v_account := check b;
  v_positions := checked_first b v_positions;
  v_submit intent := checked_first b (v_submit intent);
  v_query_order id := checked_first b (v_query_order id);
  v_modify_position symbol stop := checked_first b (v_modify_position symbol stop);
  v_transactions_since id := checked_first b (v_transactions_since id);
  v_wall_ns := v_wall_ns
|}.
End Bound.

(** ** The calls of an engine *)

Inductive VenueCall :=
| Instrument_ (symbol : string)
| Quote_ (symbol : string)
| Account_
| Positions_
| Submit_ (intent : OrderIntent)
| QueryOrder_ (id : string)
| ModifyPosition_ (symbol : string) (stop : decimal)
| TransactionsSince_ (id : string)
| Attribute_ (name arguments : string).

(** The other methods of an adapter. *)
Definition Attributes (W : Type) : Type := string -> string -> venue_op W unit.
Definition bound_attributes {W} `{!Venue W} (terminal : option (venue_op W (option string))) (b : Binding)
    (extras : Attributes W) : Attributes W :=
  fun name arguments => getattr terminal b name (extras name arguments).

(** The state after a call, and the exception it raised if it did. *)
Definition forget {W A} (op : venue_op W A) : W -> W * option exn :=
  fun w => match op w with (w, Ok _) => (w, None) | (w, Raise e) => (w, Some e) end.
Definition perform {W} (V : Venue W) (extras : Attributes W) (c : VenueCall) : W -> W * option exn :=
  match c with
  | Instrument_ symbol => forget (v_instrument symbol)
  | Quote_ symbol => forget (v_quote symbol)
  | Account_ => forget v_account
  | Positions_ => forget v_positions
  | Submit_ intent => forget (v_submit intent)
  | QueryOrder_ id => forget (v_query_order id)
  | ModifyPosition_ symbol stop => forget (v_modify_position symbol stop)
  | TransactionsSince_ id => forget (v_transactions_since id)
  | Attribute_ name arguments => forget (extras name arguments)
  end.
Definition perform_all {W} (V : Venue W) (extras : Attributes W) (calls : list VenueCall) (w : W) : W :=
  foldl (fun w c => (perform V extras c w).1) w calls.

(** * The account binding of [Bound]: nothing is forwarded but right after the venue
    stated the account the engine is for. *)

(** ** What a binding asks of an account *)

Definition mode_agrees (declared reported : string) : Prop :=
  (declared = "live" -> reported = "live") /\
  (declared = "demo" -> reported = "demo" \/ reported = "") /\
  (declared = "paper" -> reported <> "live").
Definition serves (b : Binding) (a : AccountState) : Prop :=
  (bd_account_id b = "" \/ acc_account_id a = bd_account_id b) /\
  (bd_currency b = "" \/ upper (acc_currency a) = bd_currency b) /\
  mode_agrees (bd_account_type b) (acc_account_type a).

Lemma when_nil c p : when_ c p = [] <-> c = false.
Proof. now destruct c. Qed.

Lemma account_problems_spec b a : account_problems b a = [] <-> serves b a.
Proof.
  unfold account_problems, serves, mode_agrees. rewrite !app_nil, !when_nil, !andb_false_iff, !negb_false_iff.
  rewrite orb_true_iff. unfold is_empty, same. rewrite !bool_decide_eq_true, !bool_decide_eq_false.
  assert (D : forall s t : string, {s = t} + {s <> t}) by (intros; apply decide; apply _).
  destruct (D (bd_account_type b) "live"), (D (bd_account_type b) "demo"), (D (bd_account_type b) "paper"),
    (D (acc_account_type a) "live"); intuition congruence.
Qed.

(** ** The calls that reach the venue *)

Inductive Reached :=
| Stated (r : res AccountState)
| ServerStated (r : res (option string))
| Forwarded (c : VenueCall).

Section Traced.
Context {W : Type} (V : Venue W) (extras : Attributes W).

(** A venue that records what reaches it, the latest first. *)
Definition note {A} (event : res A -> Reached) (op : venue_op W A) : venue_op (W * list Reached) A :=
  fun s => match op s.1 with (w, r) => ((w, event r :: s.2), r) end.
Definition traced : Venue (W * list Reached) := {|
  supports_client_order_id := supports_client_order_id;
  v_instrument symbol := note (fun _ => Forwarded (Instrument_ symbol)) (v_instrument symbol);
  v_quote symbol := note (fun _ => Forwarded (Quote_ symbol)) (v_quote symbol);
  v_account := note Stated v_account;
  v_positions := note (fun _ => Forwarded Positions_) v_positions;
  v_submit intent := note (fun _ => Forwarded (Submit_ intent)) (v_submit intent);
  v_query_order id := note (fun _ => Forwarded (QueryOrder_ id)) (v_query_order id);
  v_modify_position symbol stop := note (fun _ => Forwarded (ModifyPosition_ symbol stop)) (v_modify_position symbol stop);
  v_transactions_since id := note (fun _ => Forwarded (TransactionsSince_ id)) (v_transactions_since id);
  v_wall_ns s := match v_wall_ns s.1 with (w, t) => ((w, s.2), t) end
|}.
Definition traced_attributes : Attributes (W * list Reached) :=
  fun name arguments => note (fun _ => Forwarded (Attribute_ name arguments)) (extras name arguments).

Context (terminal : option (venue_op W (option string))) (b : Binding).
Definition traced_terminal : option (venue_op (W * list Reached) (option string)) := option_map (note ServerStated) terminal.
Definition bound_traced : Venue (W * list Reached) := bound_venue (Venue0 := traced) traced_terminal b.
Definition bound_extras : Attributes (W * list Reached) := bound_attributes (Venue0 := traced) traced_terminal b traced_attributes.

(** The last statement of the venue is of the account of the binding; where a server
    is bound and the adapter has a terminal, it then stated that server. *)
Definition just_confirmed (log : list Reached) : Prop :=
  match log with
  | Stated (Ok a) :: _ => serves b a /\ (terminal = None \/ bd_server b = "")
  | ServerStated (Ok server) :: Stated (Ok a) :: _ => serves b a /\ default "" server = bd_server b
  | _ => False
  end.
(** Every call that the wrapper guards came right after such a statement. *)
Definition guarded_call (c : VenueCall) : bool :=
  match c with Attribute_ name _ => negb (unguarded name) | _ => true end.
Fixpoint all_confirmed (log : list Reached) : Prop :=
  match log with
  | [] => True
  | e :: rest =>
      all_confirmed rest /\ match e with Forwarded c => guarded_call c = true -> just_confirmed rest | _ => True end
  end.

Lemma check_confirms s :
  all_confirmed s.2 ->
  let '(s', r) := check (Venue0 := traced) traced_terminal b s in
  all_confirmed s'.2 /\ match r with Ok _ => just_confirmed s'.2 | Raise _ => True end.
Proof.
  intros H. unfold check, check_binding. cbn [v_account traced]. unfold note at 1. destruct (v_account s.1) as [w [a|e]]; [|now repeat split].
  unfold server_problems, traced_terminal. destruct terminal as [account_info|] eqn:Et; cbn [option_map].
  - destruct (is_empty (bd_server b)) eqn:Es.
    + rewrite app_nil_r. destruct (account_problems b a) eqn:Ea; [|now repeat split].
      apply account_problems_spec in Ea. apply bool_decide_eq_true in Es. cbn. split; [split; [exact H|exact I]|]. split; [exact Ea|now right].
    + unfold note. cbn [fst snd]. destruct (account_info w) as [w' [server|e]]; [|now repeat split].
      destruct (account_problems b a ++ _) eqn:Ea; [|now repeat split].
      apply app_nil in Ea as [Ea En]. apply account_problems_spec in Ea. apply when_nil, negb_false_iff, bool_decide_eq_true in En.
      cbn. split; [now repeat split|]. split; [exact Ea|]. destruct server; exact En.
  - rewrite app_nil_r. destruct (account_problems b a) eqn:Ea; [|now repeat split].
    apply account_problems_spec in Ea. cbn. split; [split; [exact H|exact I]|]. split; [exact Ea|left; exact Et].
Qed.

Lemma guarded_confirms {A} (op : venue_op W A) c s :
  all_confirmed s.2 -> all_confirmed (checked_first (Venue0 := traced) traced_terminal b (note (fun _ => Forwarded c) op) s).1.2.
Proof.
  intros H. unfold checked_first. pose proof (check_confirms s H) as C. destruct (check _ _ s) as [s' [a|e]]; [|apply C].
  unfold note. destruct (op s'.1) as [w r]. cbn. destruct C as [C1 C2]. now split.
Qed.

Lemma forget_state {X A} (op : venue_op X A) w : (forget op w).1 = (op w).1.
Proof. unfold forget. now destruct (op w) as [w' [a|e]]. Qed.

Lemma perform_confirms c s : all_confirmed s.2 -> all_confirmed (perform bound_traced bound_extras c s).1.2.
Proof.
  intros H. destruct c; unfold perform; rewrite forget_state; try (now apply guarded_confirms).
  2: { unfold bound_extras, bound_attributes, getattr. destruct (unguarded name) eqn:En; [|now apply guarded_confirms].
       unfold traced_attributes, note. destruct (extras name arguments s.1). cbn. rewrite En. now split. }
  cbn [v_account bound_traced bound_venue]. pose proof (check_confirms s H) as C. now destruct (check _ _ s).
Qed.
End Traced.

(** C28: Whatever the engine calls of the adapter, [close] and names that start with
    an underscore excepted, and whatever the venue answers, the call is forwarded
    right after the venue stated an account that serves the binding: the account id
    and currency where they are declared, the server where one is declared and the
    adapter has a terminal, and a type that agrees with the declared one.  A binding
    for live takes only an account reported as live; one for demo only demo or
    blank; one for paper anything but live; another word is not compared. *)
Theorem bound_account_only {W} (V : Venue W) extras terminal b calls w :
  all_confirmed terminal b (perform_all (bound_traced V terminal b) (bound_extras V extras terminal b) calls (w, [])).2.
Proof.
  unfold perform_all. assert (H : all_confirmed terminal b ((w, [] : list Reached).2)) by exact I. revert H.
  generalize (w, [] : list Reached). induction calls as [|c calls IH]; intros s H; [exact H|]. cbn [foldl]. apply IH.
  now apply perform_confirms.
Qed.

(** A venue that states an account of the binding is reached as it is. *)
Lemma bound_is_transparent {W} `{!Venue W} b (op : venue_op W unit) w w' a :
  v_account w = (w', Ok a) -> serves b a -> checked_first None b op w = op w'.
Proof.
  intros E H. unfold checked_first, check, check_binding, server_problems. rewrite E, app_nil_r. now rewrite (proj2 (account_problems_spec b a) H).
Qed.

(** ** Examples *)

Definition demo_account (id kind : string) : AccountState :=
  mkAccountState id "usd" (mkDec 0 0) (mkDec 0 0) (mkDec 0 0) (mkDec 0 0) (mkDec 0 0) 0 "" 0 kind 30.
(** A terminal whose account is what it is signed in to. *)
Definition desk_of (a : AccountState) : Venue nat := {|
  supports_client_order_id := true;
  v_instrument _ w := (w, Raise KeyError);
  v_quote _ w := (w, Raise KeyError);
  v_account w := (w, Ok a);
  v_positions w := (w, Ok []);
  v_submit _ w := (S w, Raise BrokerError);
  v_query_order _ w := (w, Ok None);
  v_modify_position _ _ w := (S w, Ok true);
  v_transactions_since _ w := (w, Ok []);
  v_wall_ns w := (w, 0%Z)
|}.
Definition desk_extras : Attributes nat := fun _ _ w => (S w, Ok tt).
Definition two_calls : list VenueCall :=
  [ModifyPosition_ "EUR_USD" (mkDec 1 0); Attribute_ "close_position" "EUR_USD"; Positions_].
Definition after_calls (a : AccountState) (b : Binding) (calls : list VenueCall) : nat :=
  (perform_all (bound_traced (desk_of a) None b) (bound_extras (desk_of a) desk_extras None b) calls (0%nat, [])).1.

Example other_account_refused : after_calls (demo_account "2" "demo") (bind_to "1" "demo" "USD" "") two_calls = 0%nat.
Proof. vm_compute. reflexivity. Qed.
Example own_account_served : after_calls (demo_account "1" "demo") (bind_to "1" "demo" "USD" "") two_calls = 2%nat.
Proof. vm_compute. reflexivity. Qed.
(** An account of no stated type is taken for a demo account, and closing the adapter
    is not guarded. *)
Example blank_type_served : after_calls (demo_account "1" "") (bind_to "1" "demo" "USD" "") two_calls = 2%nat.
Proof. vm_compute. reflexivity. Qed.
Example close_is_not_guarded :
  after_calls (demo_account "2" "live") (bind_to "1" "demo" "USD" "") [Attribute_ "close" ""] = 1%nat.
Proof. vm_compute. reflexivity. Qed.
Example real_money_refused_without_identity :
  (start (Venue0 := desk_of (demo_account "1" "live")) None (bind_to "" "paper" "" "") false 0%nat).2 = Raise BrokerError.
Proof. vm_compute. reflexivity. Qed.
