(* ===== verification/Jalali.v ===== *)
(** [sentinel/core/jalali.py]: the Persian calendar and the calendar day in Tehran.

    A calendar day is its ordinal ([Calendar]); the text of a day, which has four
    digits of the year, two of the month and two of the day, stands for it.
    [int(a / b)] is the quotient truncated toward zero: the theorem
    [Clock.float_quotient] shows that the quotient of floats truncates to it
    while the operands are below [2 ^ 50]. *)

From Stdlib Require Import ZArith Lia SpecFloat.
From stdpp Require Import base list.
From S2P Require Import Prelude PyDecimal Calendar PyFloat FloatTheory Clock.

Local Open Scope Z_scope.
Local Open Scope py_scope.

(** [TEHRAN], in microseconds. *)
Definition TEHRAN : Z := 3 * HOUR_US + 30 * 60 * 1000000.
Definition BREAKS_FIRST : Z := -61.
Definition BREAKS_REST : list Z :=
  [9; 38; 199; 426; 686; 756; 818; 1111; 1181; 1210; 1635; 2060; 2097; 2192; 2262; 2324; 2394; 2456; 3178].
Definition BREAKS_LAST : Z := 3178.

Definition tdiv (a b : Z) : Z := Z.quot a b.
Definition tmod (a b : Z) : Z := a - tdiv a b * b.

(** The loop over the breaks: the leap years so far, the start of the era of [jy]
    and its length. *)
Fixpoint breaks_loop (jy leap_j jp jump : Z) (breaks : list Z) : Z * Z * Z :=
  match breaks with
  | [] => (leap_j, jp, jump)
  | jm :: rest =>
      let jump := jm - jp in
      if jy <? jm then (leap_j, jp, jump)
      else breaks_loop jy (leap_j + (tdiv jump 33 * 8 + tdiv (tmod jump 33) 4)) jm jump rest
  end.

(** [_jal_cal], within the supported years: leap, Gregorian year, day of March. *)
Definition jal_cal_of (jy : Z) : Z * Z * Z :=
  let gy := jy + 621 in
  let '(leap_j, jp, jump) := breaks_loop jy (-14) BREAKS_FIRST 0 BREAKS_REST in
  let n := jy - jp in
  let leap_j := leap_j + (tdiv n 33 * 8 + tdiv (tmod n 33 + 3) 4) in
  let leap_j := if (tmod jump 33 =? 4) && (jump - n =? 4) then leap_j + 1 else leap_j in
  let leap_g := tdiv gy 4 - tdiv ((tdiv gy 100 + 1) * 3) 4 - 150 in
  let march := 20 + leap_j - leap_g in
  let n := if jump - n <? 6 then n - jump + tdiv (jump + 4) 33 * 33 else n in
  let leap := tmod (tmod (n + 1) 33 - 1) 4 in
  let leap := if leap =? -1 then 4 else leap in
  (leap, gy, march).
Definition jal_cal (jy : Z) : res (Z * Z * Z) :=
  if (jy <? BREAKS_FIRST) || (BREAKS_LAST <=? jy) then Raise ValueError else Ok (jal_cal_of jy).

(** [_g2d] and [_d2g]: Gregorian dates and day numbers. *)
Definition g2d (gy gm gd : Z) : Z :=
  let d := tdiv ((gy + tdiv (gm - 8) 6 + 100100) * 1461) 4 + tdiv (153 * tmod (gm + 9) 12 + 2) 5 + gd - 34840408 in
  d - tdiv (tdiv (gy + 100100 + tdiv (gm - 8) 6) 100 * 3) 4 + 752.
Definition d2g (jdn : Z) : Z * Z * Z :=
  let j := 4 * jdn + 139361631 in
  let j := j + tdiv (tdiv (4 * jdn + 183187720) 146097 * 3) 4 * 4 - 3908 in
  let i := tdiv (tmod j 1461) 4 * 5 + 308 in
  let gd := tdiv (tmod i 153) 5 + 1 in
  let gm := tmod (tdiv i 153) 12 + 1 in
  let gy := tdiv j 1461 - 100100 + tdiv (8 - gm) 6 in
  (gy, gm, gd).

(** [_d2j]. *)
Definition d2j (jdn : Z) : res (Z * Z * Z) :=
  let '(gy, _, _) := d2g jdn in
  let jy := gy - 621 in
  let* (leap, _, march) := jal_cal jy in
  let k := jdn - g2d gy 3 march in
  if 0 <=? k then
    if k <=? 185 then Ok (jy, 1 + tdiv k 31, tmod k 31 + 1)
    else let k := k - 186 in Ok (jy, 7 + tdiv k 30, tmod k 30 + 1)
  else
    let k := k + 179 + (if leap =? 1 then 1 else 0) in
    Ok (jy - 1, 7 + tdiv k 30, tmod k 30 + 1).

Definition to_jalali (gy gm gd : Z) : res (Z * Z * Z) := d2j (g2d gy gm gd).

(** [tehran_day] of a moment in nanoseconds. *)
Definition tehran_day (ts_ns : Z) : res Z := let* t := from_timestamp_ns ts_ns TEHRAN in Ok (dt_date t).
(** [jalali_month_of_day]. *)
Definition jalali_month_of_day (day : Z) : res (Z * Z) :=
  let '(y, m, d) := ord2ymd day in
  let* (jy, jm, _) := to_jalali y m d in Ok (jy, jm).

Example new_year_1403 : to_jalali 2024 3 20 = Ok (1403, 1, 1).
Proof. vm_compute. reflexivity. Qed.
Example last_day_of_leap_1403 : to_jalali 2025 3 20 = Ok (1403, 12, 30).
Proof. vm_compute. reflexivity. Qed.
Example tehran_is_ahead : tehran_day 1711400000000000000 = Ok (ymd2ord 2024 3 26).
Proof. vm_compute. reflexivity. Qed.

(** * The Persian calendar of [Jalali] counts days: each day has one date, whose month
    is as long as the calendar has it, and the day after it has the next. *)

(** ** Years *)

(** The day number of the first of Farvardin. *)
Definition new_year (jy : Z) : Z := g2d (jal_cal_of jy).1.2 3 (jal_cal_of jy).2.
Definition jalali_leap (jy : Z) : bool := (jal_cal_of jy).1.1 =? 0.
Definition jalali_year_length (jy : Z) : Z := if jalali_leap jy then 366 else 365.

Definition year_ok (jy : Z) : bool :=
  (new_year (jy + 1) =? new_year jy + jalali_year_length jy)
  && ((jal_cal_of jy).1.2 =? jy + 621)
  && (19 <=? (jal_cal_of jy).2) && ((jal_cal_of jy).2 <=? 22)
  && Bool.eqb ((jal_cal_of (jy + 1)).1.1 =? 1) (jalali_leap jy).
Lemma years_checked : forallb (fun i => year_ok (1178 + Z.of_nat i)) (seq 0 456) = true.
Proof. vm_compute. reflexivity. Qed.

Definition known_year (jy : Z) : Prop := 1178 <= jy <= 1633.

Lemma year_facts jy : known_year jy ->
  new_year (jy + 1) = new_year jy + jalali_year_length jy /\ (jal_cal_of jy).1.2 = jy + 621 /\
  19 <= (jal_cal_of jy).2 <= 22 /\ ((jal_cal_of (jy + 1)).1.1 =? 1) = jalali_leap jy.
Proof.
  intros H. pose proof years_checked as T. rewrite forallb_forall in T. specialize (T (Z.to_nat (jy - 1178))).
  rewrite Z2Nat.id in T by (unfold known_year in H; lia). replace (1178 + (jy - 1178)) with jy in T by lia.
  unfold year_ok in T. rewrite !andb_true_iff, !Z.eqb_eq, !Z.leb_le in T.
  destruct T as ((((A & B) & C) & D) & E); [apply in_seq; unfold known_year in H; lia|]. apply Bool.eqb_prop in E. auto.
Qed.

(** ** Gregorian dates *)

(** Days of the years that start in March, before year [z]. *)
Definition march_days (z : Z) : Z := 365 * z + z / 4 - z / 100 + z / 400.

Lemma days_to_march y : days_before_year y + (if is_leap y then 1 else 0) = march_days y - 365.
Proof.
  pose proof (year_length y) as L. unfold march_days. unfold days_before_year in *. rewrite Z.add_simpl_r in L. destruct (is_leap y); lia.
Qed.

Lemma g2d_march z e : 0 <= z -> tdiv ((z + 100100) * 1461) 4 + e - tdiv (tdiv (z + 100100) 100 * 3) 4 = march_days z + e + 36560775.
Proof.
  intros Hz. unfold tdiv, march_days. rewrite (Z.quot_div_nonneg (_ * _) 4), (Z.quot_div_nonneg (z + 100100) 100) by lia.
  assert (A : (z + 100100) * 1461 / 4 = 365 * z + z / 4 + 36561525) by (Z.to_euclidean_division_equations; lia).
  assert (B : (z + 100100) / 100 = z / 100 + 1001) by (Z.to_euclidean_division_equations; lia).
  assert (C : (z / 100 + 1001) * 3 / 4 = z / 100 - z / 400 + 750) by (Z.to_euclidean_division_equations; lia).
  rewrite A, B, Z.quot_div_nonneg, C by (Z.to_euclidean_division_equations; lia). lia.
Qed.

(** Day numbers are ordinals moved. *)
Lemma g2d_ordinal y m d : 1 <= y -> 1 <= m <= 12 -> g2d y m d = ymd2ord y m d + 1721425.
Proof.
  intros Hy Hm. pose proof (days_to_march y) as D. unfold g2d, ymd2ord, days_before_month.
  assert (C : m = 1 \/ m = 2 \/ m = 3 \/ m = 4 \/ m = 5 \/ m = 6 \/ m = 7 \/ m = 8 \/ m = 9 \/ m = 10 \/ m = 11 \/ m = 12) by lia.
  pose proof (g2d_march y) as G. pose proof (g2d_march (y - 1)) as G1.
  assert (E : march_days (y - 1) = days_before_year y) by (unfold march_days, days_before_year; lia).
  destruct C as [->|[->|C]].
  3: replace (tdiv (m - 8) 6) with 0 by (destruct C as [->|[->|[->|[->|[->|[->|[->|[->|[->| ->]]]]]]]]]; reflexivity).
  3: rewrite !Z.add_0_r; specialize (G (tdiv (153 * tmod (m + 9) 12 + 2) 5) ltac:(lia));
     destruct C as [->|[->|[->|[->|[->|[->|[->|[->|[->| ->]]]]]]]]];
     match goal with |- context [nth ?a ?b ?c] => let v := eval vm_compute in (nth a b c) in change (nth a b c) with v end;
     match type of G with context [tdiv (153 * ?a + 2) 5] => let v := eval vm_compute in (tdiv (153 * a + 2) 5) in change (tdiv (153 * a + 2) 5) with v in * end;
     rewrite (proj2 (Z.ltb_lt 2 _)) by lia; cbn [andb]; destruct (is_leap y); lia.
  - specialize (G1 306 ltac:(lia)). change (tdiv (1 - 8) 6) with (-1). change (tdiv (153 * tmod (1 + 9) 12 + 2) 5) with 306.
    change (nth (Z.to_nat 1) _ 0) with 0. rewrite (proj2 (Z.ltb_ge 2 _)) by lia; cbn [andb]. replace (y + -1 + 100100) with (y - 1 + 100100) by lia. replace (y + 100100 + -1) with (y - 1 + 100100) by lia. lia.
  - specialize (G1 337 ltac:(lia)). change (tdiv (2 - 8) 6) with (-1). change (tdiv (153 * tmod (2 + 9) 12 + 2) 5) with 337.
    change (nth (Z.to_nat 2) _ 0) with 31. rewrite (proj2 (Z.ltb_ge 2 _)) by lia; cbn [andb]. replace (y + -1 + 100100) with (y - 1 + 100100) by lia. replace (y + 100100 + -1) with (y - 1 + 100100) by lia. lia.
Qed.

(** The Gregorian year of a day number: day [u] of the March-year [z]. *)
Lemma d2g_year z u : 0 <= z -> 0 <= u <= 364 + (if is_leap (z + 1) then 1 else 0) ->
  (d2g (march_days z + u + 1721120)).1.1 = z + (if 306 <=? u then 1 else 0).
Proof.
  intros Hz Hu. unfold d2g. cbn [fst]. set (jdn := march_days z + u + 1721120).
  assert (Hleap : is_leap (z + 1) = true -> z mod 4 = 3 /\ (z mod 100 = 99 -> z mod 400 = 399)).
  { unfold is_leap. rewrite andb_true_iff, orb_true_iff, negb_true_iff, Z.eqb_neq, !Z.eqb_eq. intros [A B]. split; [Z.to_euclidean_division_equations; lia|].
    intros C. destruct B as [B|B]; Z.to_euclidean_division_equations; lia. }
  assert (Hu' : 0 <= u <= 364 \/ u = 365 /\ z mod 4 = 3 /\ (z mod 100 = 99 -> z mod 400 = 399)).
  { destruct (is_leap (z + 1)); [|left; lia]. destruct (Z.eq_dec u 365); [right; split; [assumption|now apply Hleap]|left; lia]. }
  assert (Hj : 0 <= jdn) by (clear Hleap Hu'; unfold jdn, march_days; destruct (is_leap (z + 1)); Z.to_euclidean_division_equations; lia).
  clear Hu Hleap.
  assert (C : tdiv (4 * jdn + 183187720) 146097 = z / 100 + 1301).
  { unfold tdiv. rewrite Z.quot_div_nonneg by lia. unfold jdn, march_days. Z.to_euclidean_division_equations. lia. }
  rewrite C. assert (E : tdiv ((z / 100 + 1301) * 3) 4 = z / 100 - z / 400 + 975).
  { unfold tdiv. rewrite Z.quot_div_nonneg by (Z.to_euclidean_division_equations; lia). Z.to_euclidean_division_equations. lia. }
  rewrite E. set (j := 4 * jdn + 139361631 + (z / 100 - z / 400 + 975) * 4 - 3908).
  assert (Ej : j = 1461 * (z + 100100) + (4 * u + 3 - z mod 4)).
  { unfold j, jdn, march_days. Z.to_euclidean_division_equations. lia. }
  assert (J : tdiv j 1461 = z + 100100).
  { unfold tdiv. rewrite Z.quot_div_nonneg by (Z.to_euclidean_division_equations; lia).
    symmetry. apply Z.div_unique with (4 * u + 3 - z mod 4); [left; Z.to_euclidean_division_equations; lia|exact Ej]. }
  assert (M : tdiv (tmod j 1461) 4 = u).
  { unfold tmod. rewrite J, Ej. unfold tdiv. rewrite Z.quot_div_nonneg by (Z.to_euclidean_division_equations; lia). Z.to_euclidean_division_equations. lia. }
  rewrite M, J. assert (Hu : 0 <= u <= 365) by lia. clear - Hu. unfold tmod, tdiv.
  destruct (Z.leb_spec 306 u); Z.to_euclidean_division_equations; lia.
Qed.

(** ** Days of a year *)

(** The calendar: six months of 31 days, five of 30, and a last of 29 or 30. *)
Definition month_length (jy jm : Z) : Z := if jm <=? 6 then 31 else if jm <=? 11 then 30 else if jalali_leap jy then 30 else 29.
Definition next_day (date : Z * Z * Z) : Z * Z * Z :=
  let '(jy, jm, jd) := date in
  if jd <? month_length jy jm then (jy, jm, jd + 1) else if jm <? 12 then (jy, jm + 1, 1) else (jy + 1, 1, 1).
(** Month and day of day [k] of a year, from 0. *)
Definition date_in_year (k : Z) : Z * Z :=
  if k <=? 185 then (1 + k / 31, k mod 31 + 1) else (7 + (k - 186) / 30, (k - 186) mod 30 + 1).

Lemma mod_pos a b : 0 <= a -> 0 < b -> tmod a b = a mod b.
Proof. intros. unfold tmod, tdiv. rewrite Z.quot_div_nonneg by lia. rewrite Z.mod_eq by lia. lia. Qed.
Lemma div_pos_ a b : 0 <= a -> 0 < b -> tdiv a b = a / b.
Proof. intros. unfold tdiv. apply Z.quot_div_nonneg; lia. Qed.

Lemma jal_cal_year jy : (jal_cal_of jy).1.2 = jy + 621.
Proof. unfold jal_cal_of. now destruct (breaks_loop _ _ _ _ _) as [[leap_j jp] jump]. Qed.

Lemma new_year_march jy : known_year jy -> new_year jy = march_days (jy + 621) + ((jal_cal_of jy).2 - 1) + 1721120.
Proof.
  intros H. unfold new_year. rewrite jal_cal_year, g2d_ordinal by (unfold known_year in H; lia). unfold ymd2ord, days_before_month.
  pose proof (days_to_march (jy + 621)) as D. change (nth (Z.to_nat 3) _ 0) with 59. change (2 <? 3) with true. cbn [andb]. lia.
Qed.

Lemma jal_cal_ok y : -61 <= y < 3178 -> jal_cal y = Ok ((jal_cal_of y).1.1, y + 621, (jal_cal_of y).2).
Proof.
  intros H. unfold jal_cal, BREAKS_FIRST, BREAKS_LAST. rewrite (proj2 (Z.ltb_ge _ _)), (proj2 (Z.leb_gt _ _)) by lia. cbn [orb].
  rewrite <- jal_cal_year. now destruct (jal_cal_of y) as [[l g] m].
Qed.

(** A day whose Gregorian year is the one the Persian year starts in. *)
Lemma d2j_same jy k : known_year jy -> 0 <= k -> (d2g (new_year jy + k)).1.1 = jy + 621 ->
  d2j (new_year jy + k) = Ok (jy, (date_in_year k).1, (date_in_year k).2).
Proof.
  intros H Hk Y. unfold d2j. destruct (d2g _) as [[gy gm] gd]. cbn [fst] in Y. subst gy. cbv zeta.
  replace (jy + 621 - 621) with jy by lia. rewrite jal_cal_ok by (unfold known_year in H; lia). cbn [rbind].
  assert (E : new_year jy + k - g2d (jy + 621) 3 (jal_cal_of jy).2 = k) by (unfold new_year; rewrite jal_cal_year; lia).
  rewrite E, (proj2 (Z.leb_le 0 k)) by lia. unfold date_in_year. destruct (Z.leb_spec k 185); cbn [fst snd]; now rewrite div_pos_, mod_pos by lia.
Qed.

(** A day after the turn of the Gregorian year. *)
Lemma d2j_next jy k : known_year jy -> 186 <= k < jalali_year_length jy -> (d2g (new_year jy + k)).1.1 = jy + 622 ->
  d2j (new_year jy + k) = Ok (jy, (date_in_year k).1, (date_in_year k).2).
Proof.
  intros H Hk Y. destruct (year_facts jy H) as (NY & _ & _ & Hl). unfold d2j. destruct (d2g _) as [[gy gm] gd]. cbn [fst] in Y. subst gy. cbv zeta.
  replace (jy + 622 - 621) with (jy + 1) by lia. rewrite jal_cal_ok by (unfold known_year in H; lia). cbn [rbind].
  assert (E : new_year jy + k - g2d (jy + 622) 3 (jal_cal_of (jy + 1)).2 = k - jalali_year_length jy).
  { unfold new_year in NY at 1. rewrite jal_cal_year in NY. replace (jy + 1 + 621) with (jy + 622) in NY by lia. lia. }
  rewrite E, (proj2 (Z.leb_gt 0 _)), Hl by lia.
  assert (K : k - jalali_year_length jy + 179 + (if jalali_leap jy then 1 else 0) = k - 186) by (unfold jalali_year_length; destruct (jalali_leap jy); lia).
  rewrite K. unfold date_in_year. rewrite (proj2 (Z.leb_gt k 185)) by lia. cbn [fst snd]. rewrite div_pos_, mod_pos by lia.
  do 3 f_equal. lia.
Qed.

Lemma march_days_next z : 0 <= z -> march_days (z + 1) = march_days z + 365 + (if is_leap (z + 1) then 1 else 0).
Proof.
  intros Hz. pose proof (days_to_march (z + 1)) as D. pose proof (year_length (z + 1)) as L.
  assert (E : forall y, march_days y = days_before_year (y + 1)) by (intros y; unfold march_days, days_before_year; rewrite Z.add_simpl_r; lia).
  rewrite !E in *. pose proof (year_length (z + 1)). destruct (is_leap (z + 1)); lia.
Qed.

(** A day within a supported year gets that year and its place in it. *)
Lemma d2j_spec jy k : known_year jy -> 0 <= k < jalali_year_length jy ->
  d2j (new_year jy + k) = Ok (jy, (date_in_year k).1, (date_in_year k).2).
Proof.
  intros H Hk. destruct (year_facts jy H) as (_ & _ & Hm & _). pose proof (new_year_march jy H) as M.
  set (z := jy + 621) in *. set (u := (jal_cal_of jy).2 - 1 + k).
  assert (Ls : jalali_year_length jy <= 366) by (unfold jalali_year_length; destruct (jalali_leap jy); lia).
  assert (Hz : 0 <= z) by (unfold z, known_year in *; lia).
  assert (E : new_year jy + k = march_days z + u + 1721120) by (unfold u; lia).
  destruct (Z.le_gt_cases u (364 + (if is_leap (z + 1) then 1 else 0))) as [Hu|Hu].
  - pose proof (d2g_year z u Hz ltac:(unfold u in *; lia)) as Y. rewrite <- E in Y. destruct (Z.leb_spec 306 u) as [Hs|Hs].
    + apply d2j_next; [exact H|unfold u in Hs; lia|]. rewrite Y. unfold z. lia.
    + apply d2j_same; [exact H|lia|]. rewrite Y. unfold z. lia.
  - set (v := u - 365 - (if is_leap (z + 1) then 1 else 0)).
    pose proof (march_days_next z Hz) as N. assert (Hv : 0 <= v <= 364) by (unfold v, u in *; destruct (is_leap (z + 1)); lia).
    pose proof (d2g_year (z + 1) v ltac:(lia) ltac:(destruct (is_leap (z + 1 + 1)); lia)) as Y.
    replace (march_days (z + 1) + v + 1721120) with (new_year jy + k) in Y by (unfold v; lia).
    rewrite (proj2 (Z.leb_gt 306 v)) in Y by (unfold v, u; destruct (is_leap (z + 1)); lia).
    apply d2j_next; [exact H|unfold u in Hu; destruct (is_leap (z + 1)); lia|]. rewrite Y. unfold z. lia.
Qed.

(** ** The calendar *)

(** The Persian date of the day of an ordinal. *)
Definition persian_date (ord : Z) : res (Z * Z * Z) := let '(y, m, d) := ord2ymd ord in to_jalali y m d.

(** The year of a day of the supported years. *)
Lemma year_of_day n : forall jdn, new_year 1178 <= jdn < new_year (1178 + Z.of_nat n) -> (n <= 456)%nat ->
  exists jy k, known_year jy /\ 0 <= k < jalali_year_length jy /\ jdn = new_year jy + k.
Proof.
  induction n as [|n IH]; intros jdn Hj Hn; [change (1178 + Z.of_nat 0) with 1178 in Hj; lia|].
  destruct (Z.lt_ge_cases jdn (new_year (1178 + Z.of_nat n))) as [Hl|Hg]; [apply IH; lia|].
  assert (S : known_year (1178 + Z.of_nat n)) by (unfold known_year; lia). destruct (year_facts _ S) as (NY & _).
  exists (1178 + Z.of_nat n), (jdn - new_year (1178 + Z.of_nat n)). replace (1178 + Z.of_nat (Datatypes.S n)) with (1178 + Z.of_nat n + 1) in Hj by lia.
  split; [exact S|]. lia.
Qed.

Lemma date_in_year_ok jy k : 0 <= k < jalali_year_length jy ->
  1 <= (date_in_year k).1 <= 12 /\ 1 <= (date_in_year k).2 <= month_length jy (date_in_year k).1 /\
  (k + 1 < jalali_year_length jy -> next_day (jy, (date_in_year k).1, (date_in_year k).2) = (jy, (date_in_year (k + 1)).1, (date_in_year (k + 1)).2)) /\
  (k + 1 = jalali_year_length jy -> next_day (jy, (date_in_year k).1, (date_in_year k).2) = (jy + 1, 1, 1)).
Proof.
  intros Hk. unfold next_day, month_length, date_in_year. unfold jalali_year_length in *.
  destruct (jalali_leap jy), (Z.leb_spec k 185), (Z.leb_spec (k + 1) 185); cbn [fst snd].
  all: repeat match goal with |- context [if ?b then _ else _] => lazymatch b with context [if _ then _ else _] => fail | _ => destruct b eqn:? end end.
  all: rewrite ?Z.leb_le, ?Z.leb_gt, ?Z.ltb_lt, ?Z.ltb_ge in *.
  all: repeat split; try match goal with |- _ -> _ => intros ? end; try (f_equal; [f_equal|]); Z.to_euclidean_division_equations; lia.
Qed.

(** The days of the supported years, but the last. *)
Definition in_calendar (ord : Z) : Prop := new_year 1178 <= ord + 1721425 < new_year 1634 - 1.

Lemma persian_date_spec ord : in_calendar ord ->
  exists jy k, known_year jy /\ 0 <= k < jalali_year_length jy /\ ord + 1721425 = new_year jy + k /\
    persian_date ord = Ok (jy, (date_in_year k).1, (date_in_year k).2) /\ persian_date (ord + 1) = d2j (new_year jy + (k + 1)).
Proof.
  unfold in_calendar. intros H. assert (B : new_year 1178 = 2378211 /\ new_year 1634 = 2544761) by (split; reflexivity).
  assert (D : forall o, 1 <= o <= MAXORDINAL -> persian_date o = d2j (o + 1721425)).
  { intros o Ho. pose proof (ord2ymd_date o Ho) as E. unfold persian_date, to_jalali. unfold date_year, date_month, date_day in E.
    destruct (ord2ymd o) as [[y m] d]. cbn [fst snd] in E. unfold date_ in E. unfold MINYEAR in E.
    destruct (_ && _) eqn:C1 in E; [|discriminate]. cbn [negb] in E. destruct (_ && _) eqn:C2 in E; [|discriminate]. cbn [negb] in E.
    destruct (_ && _) in E; [|discriminate]. injection E as E. rewrite andb_true_iff, !Z.leb_le in C1, C2. rewrite g2d_ordinal by lia. now rewrite E. }
  rewrite !D by (unfold MAXORDINAL; lia). clear D.
  destruct (year_of_day 456 (ord + 1721425)) as (jy & k & S & Hk & E); [change (1178 + Z.of_nat 456) with 1634; lia|lia|].
  exists jy, k. rewrite E, d2j_spec by assumption. do 4 (split; [auto|]). f_equal. lia.
Qed.

(** From 1178 to 1633 the conversion counts days: each day has a valid date, and the
    day after it has the date after it. *)
Theorem persian_dates_count_days ord :
  in_calendar ord ->
  exists jy jm jd, persian_date ord = Ok (jy, jm, jd) /\ known_year jy /\ 1 <= jm <= 12 /\ 1 <= jd <= month_length jy jm /\
    persian_date (ord + 1) = Ok (next_day (jy, jm, jd)).
Proof.
  intros H. destruct (persian_date_spec ord H) as (jy & k & S & Hk & E & D & D1). destruct (date_in_year_ok jy k Hk) as (V1 & V2 & N1 & N2).
  exists jy, (date_in_year k).1, (date_in_year k).2. do 4 (split; [assumption|]). rewrite D1.
  destruct (Z.lt_ge_cases (k + 1) (jalali_year_length jy)) as [Hl|Hg].
  - rewrite N1 by lia. apply d2j_spec; [assumption|lia].
  - rewrite N2 by lia. destruct (year_facts jy S) as (NY & _).
    assert (S' : known_year (jy + 1)).
    { unfold known_year in *. destruct (Z.eq_dec jy 1633) as [->|]; [|lia]. exfalso. unfold in_calendar in H. change (1633 + 1) with 1634 in NY. lia. }
    replace (new_year jy + (k + 1)) with (new_year (jy + 1) + 0) by lia.
    rewrite d2j_spec; [reflexivity|exact S'|]. unfold jalali_year_length. destruct (jalali_leap _); lia.
Qed.

Lemma persian_dates_count_days_witness :
  exists jy jm jd, persian_date (ymd2ord 2025 3 20) = Ok (jy, jm, jd) /\ persian_date (ymd2ord 2025 3 20 + 1) = Ok (next_day (jy, jm, jd)) /\
    (jy, jm, jd) = (1403, 12, 30).
Proof.
  destruct (persian_dates_count_days (ymd2ord 2025 3 20)) as (jy & jm & jd & E & _ & _ & _ & N).
  - vm_compute. split; [discriminate|reflexivity].
  - exists jy, jm, jd. split; [exact E|]. split; [exact N|]. vm_compute in E. congruence.
Defined.

(** The month of a day of the calendar. *)
Lemma month_of_day_ok ord : in_calendar ord -> exists jy jm, jalali_month_of_day ord = Ok (jy, jm) /\ 1 <= jm <= 12.
Proof.
  intros H. destruct (persian_date_spec ord H) as (jy & k & S & Hk & _ & D & _). exists jy, (date_in_year k).1.
  split; [|apply (date_in_year_ok jy k Hk)]. unfold persian_date in D. unfold jalali_month_of_day. destruct (ord2ymd ord) as [[y m] d]. now rewrite D.
Qed.

(** The months of the calendar, counted. *)
Definition month_number (k : Z * Z) : Z := 12 * k.1 + k.2.

Lemma new_year_mono n : forall jy, known_year jy -> known_year (jy + Z.of_nat n) -> new_year jy <= new_year (jy + Z.of_nat n).
Proof.
  induction n as [|n IH]; intros jy H H'; [rewrite Z.add_0_r; lia|].
  assert (K : known_year (jy + Z.of_nat n)) by (unfold known_year in *; lia). specialize (IH jy H K).
  destruct (year_facts _ K) as (E & _). replace (jy + Z.of_nat (S n)) with (jy + Z.of_nat n + 1) by lia. rewrite E.
  unfold jalali_year_length. destruct (jalali_leap _); lia.
Qed.

(** A later day is not in an earlier month. *)
Lemma month_of_day_mono a b k k' : in_calendar a -> in_calendar b -> a <= b ->
  jalali_month_of_day a = Ok k -> jalali_month_of_day b = Ok k' -> month_number k <= month_number k'.
Proof.
  intros Ha Hb Hle Ek Ek'. destruct (persian_date_spec a Ha) as (ja & ka & Ka & Ra & Ea & Da & _).
  destruct (persian_date_spec b Hb) as (jb & kb & Kb & Rb & Eb & Db & _).
  unfold persian_date, jalali_month_of_day in *. destruct (ord2ymd a) as [[? ?] ?], (ord2ymd b) as [[? ?] ?].
  rewrite Da in Ek. rewrite Db in Ek'. injection Ek as <-. injection Ek' as <-. unfold month_number. cbn [fst snd].
  destruct (date_in_year_ok ja ka Ra) as [Ma _], (date_in_year_ok jb kb Rb) as [Mb _].
  destruct (Z.lt_trichotomy ja jb) as [L|[<-|L]]; [lia| |].
  - enough ((date_in_year ka).1 <= (date_in_year kb).1) by lia. assert (ka <= kb) by lia. unfold date_in_year.
    destruct (Z.leb_spec ka 185), (Z.leb_spec kb 185); cbn [fst]; Z.to_euclidean_division_equations; lia.
  - exfalso. destruct (year_facts jb Kb) as (E & _).
    assert (K1 : known_year (jb + 1)) by (unfold known_year in *; lia).
    pose proof (new_year_mono (Z.to_nat (ja - (jb + 1))) (jb + 1) K1) as M. rewrite Z2Nat.id in M by lia.
    replace (jb + 1 + (ja - (jb + 1))) with ja in M by lia. specialize (M Ka). lia.
Qed.
