(* ===== verification/EquityLedger.v ===== *)
(** [sentinel/ops/equity_ledger.py]: the record of the account's equity, a row per
    calendar day in Tehran, and the monthly returns of the Persian calendar.

    The table is the list of its rows in the order of its key, the day, an ordinal
    ([Jalali]).  SQLite takes a float that is not a number for NULL, which the
    columns refuse.  The lock and the file are not modelled. *)

From Stdlib Require Import ZArith Lia SpecFloat.
From stdpp Require Import base strings list sorting.
From S2P Require Import Prelude PyDecimal Calendar PyFloat StateExn Jalali.

Local Open Scope Z_scope.
Local Open Scope py_scope.

(** ** The table *)

Record DayRow := mkDayRow {
  dr_day : Z;
  dr_account : string;
  dr_first_ts_ns : Z;
  dr_first_equity : spec_float;
  dr_last_ts_ns : Z;
  dr_last_equity : spec_float;
  dr_last_balance : spec_float
}.
Definition WRITE_INTERVAL_NS : Z := 300 * 1000000000.

(** [_last_key]: the day and the account of the last write; [None] before the first. *)
Record EquityLedger := mkEquityLedger {
  el_rows : list DayRow;
  el_last_write_ns : Z;
  el_last_key : option (Z * string)
}.
Definition open_ledger (rows : list DayRow) : EquityLedger := mkEquityLedger rows 0 None.

Definition day_row (day : Z) (rows : list DayRow) : option DayRow := List.find (fun r => dr_day r =? day) rows.
(** [INSERT OR REPLACE]: the row takes its place in the order of the key. *)
Fixpoint replace_row (r : DayRow) (rows : list DayRow) : list DayRow :=
  match rows with
  | [] => [r]
  | x :: rest =>
      if dr_day r =? dr_day x then r :: rest
      else if dr_day r <? dr_day x then r :: rows
      else x :: replace_row r rest
  end.
(** [UPDATE ... WHERE day=?]. *)
Definition touch_row (day ts_ns : Z) (equity balance : spec_float) (rows : list DayRow) : list DayRow :=
  map (fun r => if dr_day r =? day
                then mkDayRow (dr_day r) (dr_account r) (dr_first_ts_ns r) (dr_first_equity r) ts_ns equity balance
                else r) rows.
(** An integer the table takes. *)
Definition int64 (z : Z) : bool := (- 2 ^ 63 <=? z) && (z <? 2 ^ 63).
Definition is_nan (x : spec_float) : bool := match x with S754_nan => true | _ => false end.

(** ** [record] *)

Record LedgerReading := mkLedgerReading { rg_ts_ns : Z; rg_equity : spec_float; rg_balance : spec_float; rg_account : string }.

Definition too_soon (l : EquityLedger) (day : Z) (r : LedgerReading) : bool :=
  bool_decide (el_last_key l = Some (day, rg_account r)) && (rg_ts_ns r - el_last_write_ns l <? WRITE_INTERVAL_NS).

(** The rows after a reading is written. *)
Definition after_write (rows : list DayRow) (day : Z) (r : LedgerReading) : list DayRow :=
  match day_row day rows with
  | Some row =>
      if bool_decide (dr_account row = rg_account r) then touch_row day (rg_ts_ns r) (rg_equity r) (rg_balance r) rows
      else replace_row (mkDayRow day (rg_account r) (rg_ts_ns r) (rg_equity r) (rg_ts_ns r) (rg_equity r) (rg_balance r)) rows
  | None => replace_row (mkDayRow day (rg_account r) (rg_ts_ns r) (rg_equity r) (rg_ts_ns r) (rg_equity r) (rg_balance r)) rows
  end.

Definition record (r : LedgerReading) : M EquityLedger bool :=
  let! day := lift (tehran_day (rg_ts_ns r)) in
  let! l := gets id in
  if too_soon l day r then ret false
  else if negb (int64 (rg_ts_ns r)) then throw OverflowError
  else if is_nan (rg_equity r) || is_nan (rg_balance r) then throw OtherError
  else
    modify (fun l => mkEquityLedger (after_write (el_rows l) day r) (rg_ts_ns r) (Some (day, rg_account r))) ;!
    ret true.

(** ** [monthly] *)

Abbreviation month_key := (Z * Z)%type.
Record Monthly := mkMonthly {
  mo_rows : list (Z * list (option spec_float));
  mo_partial : list month_key;
  mo_since_ns : option Z;
  mo_days : Z
}.

(** [months] with [order]: the days of each month, in the order the months appear. *)
Fixpoint add_day (key : month_key) (d : DayRow) (months : list (month_key * list DayRow)) : list (month_key * list DayRow) :=
  match months with
  | [] => [(key, [d])]
  | (k, ds) :: rest => if bool_decide (k = key) then (k, ds ++ [d]) :: rest else (k, ds) :: add_day key d rest
  end.
Fixpoint group_days (days : list DayRow) (months : list (month_key * list DayRow)) : res (list (month_key * list DayRow)) :=
  match days with
  | [] => Ok months
  | d :: rest => let* key := jalali_month_of_day (dr_day d) in group_days rest (add_day key d months)
  end.

(** The start of the last uninterrupted stretch of an account: the rows before
    index [start], walked back. *)
Fixpoint stretch_start (rows : list DayRow) (account : string) (start : nat) : nat :=
  match start with
  | O => O
  | S k => match rows !! k with
           | Some r => if bool_decide (dr_account r = account) then stretch_start rows account k else start
           | None => start
           end
  end.

(** The return from [base] to [last], in percent. *)
Definition return_pct (last base : spec_float) : option spec_float :=
  if fltb (float_of_Z 0) base
  then Some (fround_to (fmul (fsub (fdiv last base) (float_of_Z 1)) (float_of_Z 100)) 2)
  else None.

(** The loop over the months: the values, the partial months and the last day of the
    month before. *)
Record MonthState := mkMonthState {
  ms_values : list (month_key * option spec_float);
  ms_partial : list month_key;
  ms_previous_end : option DayRow
}.
Definition bridged (previous_end : option DayRow) (rows : list DayRow) (last : DayRow) : option spec_float :=
  let mixed := existsb (fun r => negb (bool_decide (dr_account r = dr_account last))) rows in
  match previous_end with
  | Some p => if bool_decide (dr_account p = dr_account last) && negb mixed then Some (dr_last_equity p) else None
  | None => None
  end.
Definition month_step (s : MonthState) (m : month_key * list DayRow) : res MonthState :=
  let '(key, rows) := m in
  match last rows with
  | None => Raise IndexError
  | Some end_ =>
      match bridged (ms_previous_end s) rows end_ with
      | Some base => Ok (mkMonthState (ms_values s ++ [(key, return_pct (dr_last_equity end_) base)]) (ms_partial s) (Some end_))
      | None =>
          match rows !! stretch_start rows (dr_account end_) (length rows - 1) with
          | Some first => Ok (mkMonthState (ms_values s ++ [(key, return_pct (dr_last_equity end_) (dr_first_equity first))])
                                (ms_partial s ++ [key]) (Some end_))
          | None => Raise IndexError
          end
      end
  end.
Fixpoint ledger_loop (s : MonthState) (months : list (month_key * list DayRow)) : res MonthState :=
  match months with [] => Ok s | m :: rest => let* s := month_step s m in ledger_loop s rest end.

(** [values.get(key)]. *)
Definition month_value (values : list (month_key * option spec_float)) (key : month_key) : option spec_float :=
  match List.find (fun x => bool_decide (x.1 = key)) values with Some (_, v) => v | None => None end.
(** [sorted] of a set of years. *)
Fixpoint insert_year (y : Z) (ys : list Z) : list Z :=
  match ys with [] => [y] | x :: rest => if y =? x then ys else if y <? x then y :: ys else x :: insert_year y rest end.
Definition months_of_year (values : list (month_key * option spec_float)) (y : Z) : list (option spec_float) :=
  map (fun m => month_value values (y, m)) [1; 2; 3; 4; 5; 6; 7; 8; 9; 10; 11; 12].

Definition monthly (l : EquityLedger) : res Monthly :=
  match el_rows l with
  | [] => Ok (mkMonthly [] [] None 0)
  | d0 :: _ =>
      let* months := group_days (el_rows l) [] in
      let* s := ledger_loop (mkMonthState [] [] None) months in
      let years := foldr insert_year [] (map (fun m => m.1.1) months) in
      Ok (mkMonthly (map (fun y => (y, months_of_year (ms_values s) y)) years) (ms_partial s)
            (Some (dr_first_ts_ns d0)) (Z.of_nat (length (el_rows l))))
  end.

(** What happens to a ledger: a reading is taken, and lost when it raises; the engine
    starts again on the same file. *)
Inductive LedgerEvent := Take (r : LedgerReading) | Reopen.
Definition ledger_step (l : EquityLedger) (e : LedgerEvent) : EquityLedger :=
  match e with Take r => (record r l).1 | Reopen => open_ledger (el_rows l) end.
Definition run_ledger (es : list LedgerEvent) : EquityLedger := foldl ledger_step (open_ledger []) es.

(** * What the ledger of [EquityLedger] keeps of the readings it was given, and what a
    monthly return is a return of. *)

(** ** The table *)

Definition day_lt (a b : DayRow) : Prop := dr_day a < dr_day b.
(** A row is of readings of its account, taken on its day. *)
Definition taken (es : list LedgerEvent) (day : Z) (account : string) (equity : spec_float) : Prop :=
  exists r, Take r ∈ es /\ tehran_day (rg_ts_ns r) = Ok day /\ rg_account r = account /\ rg_equity r = equity.
Definition witnessed (es : list LedgerEvent) (row : DayRow) : Prop :=
  taken es (dr_day row) (dr_account row) (dr_first_equity row) /\ taken es (dr_day row) (dr_account row) (dr_last_equity row).
Definition table_ok (es : list LedgerEvent) (rows : list DayRow) : Prop :=
  StronglySorted day_lt rows /\ Forall (witnessed es) rows.

Lemma taken_more es e day account equity : taken es day account equity -> taken (es ++ [e]) day account equity.
Proof. intros (r & H & K). exists r. split; [apply elem_of_app; now left|exact K]. Qed.

Lemma table_more es e rows : table_ok es rows -> table_ok (es ++ [e]) rows.
Proof.
  intros [S F]. split; [exact S|]. eapply Forall_impl; [exact F|]. intros row [A B]. split; now apply taken_more.
Qed.

Lemma replace_row_elem r rows x : x ∈ replace_row r rows -> x = r \/ x ∈ rows.
Proof.
  induction rows as [|y rows IH]; cbn [replace_row]; [rewrite list_elem_of_singleton; auto|].
  destruct (dr_day r =? dr_day y); [rewrite !elem_of_cons; tauto|]. destruct (dr_day r <? dr_day y); rewrite !elem_of_cons; tauto.
Qed.

Lemma replace_row_sorted r rows : StronglySorted day_lt rows -> StronglySorted day_lt (replace_row r rows).
Proof.
  induction 1 as [|y rows S IH F]; cbn [replace_row]; [repeat constructor|].
  destruct (Z.eqb_spec (dr_day r) (dr_day y)) as [E|Ne].
  - constructor; [exact S|]. eapply Forall_impl; [exact F|]. unfold day_lt. lia.
  - destruct (Z.ltb_spec (dr_day r) (dr_day y)).
    + constructor; [now constructor|]. constructor; [exact H|]. eapply Forall_impl; [exact F|]. unfold day_lt in *. lia.
    + constructor; [exact IH|]. rewrite Forall_forall in *. intros x [->|Hx]%replace_row_elem; [unfold day_lt; lia|now apply F].
Qed.

Lemma update_row_sorted day ts e b rows : StronglySorted day_lt rows -> StronglySorted day_lt (touch_row day ts e b rows).
Proof.
  assert (D : forall r, dr_day (if dr_day r =? day then mkDayRow (dr_day r) (dr_account r) (dr_first_ts_ns r) (dr_first_equity r) ts e b else r) = dr_day r)
    by (intros r; now destruct (dr_day r =? day)).
  induction 1 as [|y rows S IH F]; cbn; constructor; [exact IH|]. rewrite Forall_forall in *. intros x (z & -> & Hz)%list_elem_of_fmap.
  unfold day_lt. rewrite !D. now apply F.
Qed.

Lemma sorted_same_day rows x y : StronglySorted day_lt rows -> x ∈ rows -> y ∈ rows -> dr_day x = dr_day y -> x = y.
Proof.
  induction 1 as [|z rows S IH F]; intros Hx Hy E; [now apply not_elem_of_nil in Hx|]. rewrite Forall_forall in F. unfold day_lt in F.
  apply elem_of_cons in Hx as [->|Hx], Hy as [->|Hy]; auto.
  - apply F in Hy. lia.
  - apply F in Hx. lia.
Qed.

Lemma sorted_lookup rows i j x y : StronglySorted day_lt rows -> rows !! i = Some x -> rows !! j = Some y -> (i < j)%nat -> dr_day x < dr_day y.
Proof.
  intros S. revert i j. induction S as [|z rows S IH F]; intros i j Hi Hj L; [now rewrite lookup_nil in Hi|].
  destruct j as [|j]; [lia|]. cbn in Hj. destruct i as [|i]; cbn in Hi; [|apply (IH i j); auto; lia].
  injection Hi as <-. rewrite Forall_forall in F. apply F. now apply list_elem_of_lookup_2 in Hj.
Qed.

Lemma written_ok es rows day r :
  table_ok es rows -> tehran_day (rg_ts_ns r) = Ok day -> table_ok (es ++ [Take r]) (after_write rows day r).
Proof.
  intros H Hd. pose proof (table_more es (Take r) rows H) as [S F]. clear H.
  assert (T : taken (es ++ [Take r]) day (rg_account r) (rg_equity r))
    by (exists r; split_and!; auto; apply elem_of_app; right; now apply list_elem_of_singleton).
  assert (R : table_ok (es ++ [Take r])
     (replace_row (mkDayRow day (rg_account r) (rg_ts_ns r) (rg_equity r) (rg_ts_ns r) (rg_equity r) (rg_balance r)) rows)).
  { split; [now apply replace_row_sorted|]. rewrite Forall_forall in *. intros x [->|Hx]%replace_row_elem; [now split|now apply F]. }
  unfold after_write. destruct (day_row day rows) as [row|] eqn:E; [|exact R]. destruct (bool_decide_reflect (dr_account row = rg_account r)) as [Ea|_]; [|exact R].
  apply List.find_some in E as [Hrow Hday]. apply list_elem_of_In in Hrow. apply Z.eqb_eq in Hday.
  split; [now apply update_row_sorted|]. rewrite Forall_forall in *. intros x (z & -> & Hz)%list_elem_of_fmap.
  destruct (Z.eqb_spec (dr_day z) day) as [Ez|_]; [|now apply F].
  assert (z = row) as -> by (apply (sorted_same_day rows); auto; congruence).
  destruct (F row Hrow) as [A B]. split; [exact A|]. cbn. now rewrite Ea, Hday.
Qed.

Lemma step_ok es l e : table_ok es (el_rows l) -> table_ok (es ++ [e]) (el_rows (ledger_step l e)).
Proof.
  intros H. destruct e as [r|]; [|now apply table_more]. cbn [ledger_step]. unfold record, mbind_, lift.
  destruct (tehran_day (rg_ts_ns r)) as [day|x] eqn:Ed; [|now apply table_more]. cbn.
  destruct (too_soon l day r); [now apply table_more|]. destruct (negb _); [now apply table_more|].
  destruct (_ || _); [now apply table_more|]. cbn. now apply written_ok.
Qed.

Lemma run_ok es : table_ok es (el_rows (run_ledger es)).
Proof.
  induction es as [|e es IH] using rev_ind; [repeat constructor|]. unfold run_ledger in *. rewrite foldl_app. now apply step_ok.
Qed.

(** ** Months *)

Definition month_of (d : DayRow) : option month_key := match jalali_month_of_day (dr_day d) with Ok k => Some k | Raise _ => None end.
Definition days_of (key : month_key) (days : list DayRow) : list DayRow := filter (fun d => month_of d = Some key) days.

(** Days in their order, of the supported years. *)
Definition dated (days : list DayRow) : Prop := StronglySorted day_lt days /\ forall d, d ∈ days -> in_calendar (dr_day d).

Lemma month_of_ok days d : dated days -> d ∈ days -> exists k, month_of d = Some k /\ 1 <= k.2 <= 12.
Proof.
  intros [_ C] Hd. destruct (month_of_day_ok _ (C d Hd)) as (y & m & E & Hm). exists (y, m). unfold month_of. now rewrite E.
Qed.

Lemma month_of_spec d k : month_of d = Some k <-> jalali_month_of_day (dr_day d) = Ok k.
Proof. unfold month_of. destruct (jalali_month_of_day (dr_day d)); split; congruence. Qed.

Lemma month_mono days d d' k k' : dated days -> d ∈ days -> d' ∈ days -> month_of d = Some k -> month_of d' = Some k' ->
  dr_day d <= dr_day d' -> month_number k <= month_number k'.
Proof. intros [_ C] Hd Hd' Hk%month_of_spec Hk'%month_of_spec L. exact (month_of_day_mono _ _ _ _ (C d Hd) (C d' Hd') L Hk Hk'). Qed.

Lemma month_eq days d d' k k' : dated days -> d ∈ days -> d' ∈ days -> month_of d = Some k -> month_of d' = Some k' ->
  month_number k = month_number k' -> k = k'.
Proof.
  intros C Hd Hd' Hk Hk' E. destruct (month_of_ok days d C Hd) as (x & Ex & Hx), (month_of_ok days d' C Hd') as (y & Ey & Hy).
  assert (x = k) as -> by congruence. assert (y = k') as -> by congruence. destruct k, k'. unfold month_number in E. cbn in *. f_equal; lia.
Qed.

Definition earlier (a b : month_key) : Prop := month_number a < month_number b.

Record grouped (days : list DayRow) (months : list (month_key * list DayRow)) : Prop := {
  gp_unique : NoDup months.*1;
  gp_days : forall key ds, (key, ds) ∈ months -> ds = days_of key days /\ ds <> [];
  gp_all : forall d, d ∈ days -> exists key, month_of d = Some key /\ key ∈ months.*1;
  gp_order : StronglySorted earlier months.*1
}.

Lemma days_of_snoc key days d : days_of key (days ++ [d]) = days_of key days ++ (if decide (month_of d = Some key) then [d] else []).
Proof. unfold days_of. rewrite filter_app. f_equal. Qed.

Lemma add_day_keys key d months : (add_day key d months).*1 = if decide (key ∈ months.*1) then months.*1 else months.*1 ++ [key].
Proof.
  induction months as [|[k ds] months IH]; cbn [add_day].
  - rewrite decide_False; [reflexivity|apply not_elem_of_nil].
  - destruct (bool_decide_reflect (k = key)) as [->|Ne]; rewrite !fmap_cons; cbn [fst].
    + rewrite decide_True by left. reflexivity.
    + rewrite IH. destruct (decide (key ∈ months.*1)) as [H1|H1].
      * rewrite decide_True by now right. reflexivity.
      * rewrite decide_False; [reflexivity|]. apply not_elem_of_cons. split; [congruence|exact H1].
Qed.

Lemma add_day_elem key d months k ds : (k, ds) ∈ add_day key d months -> NoDup months.*1 ->
  (k <> key /\ (k, ds) ∈ months) \/
  (k = key /\ ((exists ds0, ((key, ds0) ∈ months) /\ ds = ds0 ++ [d]) \/ ((key ∉ months.*1) /\ ds = [d]))).
Proof.
  induction months as [|[k0 ds0] months IH]; cbn [add_day].
  - intros [= -> ->]%list_elem_of_singleton _. right. split; [reflexivity|]. right. split; [apply not_elem_of_nil|reflexivity].
  - rewrite fmap_cons. cbn [fst]. intros H [N ND]%NoDup_cons. destruct (bool_decide_reflect (k0 = key)) as [->|Ne].
    + apply elem_of_cons in H as [[= -> ->]|H]; [right; split; [reflexivity|left; exists ds0; split; [left|reflexivity]]|].
      left. split; [|now right]. intros ->. apply N. apply list_elem_of_fmap. now exists (key, ds).
    + apply elem_of_cons in H as [[= -> ->]|H]; [left; split; [exact Ne|left]|].
      destruct (IH H ND) as [[A B]|[A [(x & B & C)|[B C]]]]; [left; split; [exact A|now right]|right; split; [exact A|left; exists x; split; [now right|exact C]]|].
      right. split; [exact A|]. right. split; [|exact C]. apply not_elem_of_cons. split; [congruence|exact B].
Qed.

Lemma sorted_snoc (k : month_key) l : StronglySorted earlier l -> (forall x, x ∈ l -> earlier x k) -> StronglySorted earlier (l ++ [k]).
Proof.
  induction 1 as [|y l S IH F]; intros H; cbn; [repeat constructor|]. constructor; [apply IH; intros x Hx; apply H; now right|].
  rewrite Forall_forall in *. intros x [Hx| ->%list_elem_of_singleton]%elem_of_app; [now apply F|]. apply H. now left.
Qed.

Lemma add_day_grouped pre d key months :
  dated (pre ++ [d]) -> grouped pre months -> month_of d = Some key -> grouped (pre ++ [d]) (add_day key d months).
Proof.
  intros Cd [U D A O] Hd. assert (K : forall k, k ∈ (add_day key d months).*1 <-> k = key \/ k ∈ months.*1).
  { intros k. rewrite add_day_keys. destruct (decide _) as [H|H]; [|rewrite elem_of_app, list_elem_of_singleton; tauto].
    split; [auto|]. intros [->|?]; assumption. }
  split.
  - rewrite add_day_keys. destruct (decide _) as [H|H]; [exact U|]. apply NoDup_app. split; [exact U|]. split; [|apply NoDup_singleton].
    intros x Hx ->%list_elem_of_singleton. contradiction.
  - intros k ds H. apply add_day_elem in H; [|exact U]. rewrite days_of_snoc, Hd.
    destruct H as [[Ne Hin]|[-> [(ds0 & Hin & ->)|[Nin ->]]]].
    + rewrite decide_False by congruence. rewrite app_nil_r. now apply D.
    + destruct (D key ds0 Hin) as [-> _]. rewrite decide_True by reflexivity. split; [reflexivity|]. now destruct (days_of key pre).
    + rewrite decide_True by reflexivity. split; [|discriminate]. assert (E : days_of key pre = []); [|now rewrite E].
      destruct (days_of key pre) as [|x xs] eqn:E; [reflexivity|]. exfalso. apply Nin.
      assert (Hx : x ∈ days_of key pre) by (rewrite E; left). apply list_elem_of_filter in Hx as [Hm Hx].
      destruct (A x Hx) as (k & Ek & Hk). congruence.
  - intros x [Hx| ->%list_elem_of_singleton]%elem_of_app.
    + destruct (A x Hx) as (k & Ek & Hk). exists k. split; [exact Ek|]. apply K. now right.
    + exists key. split; [exact Hd|]. apply K. now left.
  - rewrite add_day_keys. destruct (decide _) as [H|H]; [exact O|]. apply sorted_snoc; [exact O|].
    intros k Hk. apply list_elem_of_fmap in Hk as ([k' ds] & -> & Hk). cbn [fst] in *. destruct (D k' ds Hk) as [-> Ne].
    destruct (days_of k' pre) as [|x xs] eqn:Ex; [contradiction|]. clear Ne.
    assert (Hx : x ∈ days_of k' pre) by (rewrite Ex; left). apply list_elem_of_filter in Hx as [Mx Hx].
    assert (Hx' : x ∈ pre ++ [d]) by (apply elem_of_app; now left).
    assert (Hd' : d ∈ pre ++ [d]) by (apply elem_of_app; right; now apply list_elem_of_singleton).
    assert (L : dr_day x < dr_day d).
    { apply list_elem_of_lookup_1 in Hx as [i Hi]. pose proof (lookup_lt_Some _ _ _ Hi).
      apply (sorted_lookup (pre ++ [d]) i (length pre)); [apply Cd|now rewrite lookup_app_l|now rewrite list_lookup_middle|assumption]. }
    pose proof (month_mono _ x d k' key Cd Hx' Hd' Mx Hd ltac:(lia)) as M. unfold earlier.
    enough (month_number k' <> month_number key) by lia. intros E. apply H.
    rewrite <- (month_eq _ x d k' key Cd Hx' Hd' Mx Hd E). apply list_elem_of_fmap. now exists (k', x :: xs).
Qed.

Lemma dated_prefix xs ys : dated (xs ++ ys) -> dated xs.
Proof.
  intros [S C]. split; [|intros d Hd; apply C, elem_of_app; now left].
  revert S. clear. induction xs as [|x xs IH]; intros S; [constructor|]. cbn in S. apply StronglySorted_inv in S as [S F].
  constructor; [now apply IH|]. rewrite Forall_forall in *. intros y Hy. apply F, elem_of_app. now left.
Qed.

Lemma group_days_spec days : forall pre months,
  grouped pre months -> dated (pre ++ days) ->
  exists months', group_days days months = Ok months' /\ grouped (pre ++ days) months'.
Proof.
  induction days as [|d days IH]; intros pre months G F; cbn [group_days].
  - rewrite app_nil_r. eauto.
  - assert (Hin : d ∈ pre ++ d :: days) by (apply elem_of_app; right; left).
    destruct (month_of_ok _ d F Hin) as (key & E & _). pose proof (proj1 (month_of_spec d key) E) as E'. rewrite E'. cbn [rbind].
    rewrite cons_middle, app_assoc in F |- *. apply IH; [|exact F]. apply add_day_grouped; [|exact G|exact E].
    now apply dated_prefix in F.
Qed.

(** ** Returns *)

(** The value of a month: the closing equity [e] of its last day against that of [b],
    the last recorded day before the month, every day of the month being on the
    account; or, in a partial month, against the opening equity of [b], a day of the
    month.  From [b] to [e] every recorded day is on one account. *)
Definition month_spec (days : list DayRow) (key : month_key) (v : option spec_float) (partial : Prop) : Prop :=
  exists e b, e ∈ days /\ b ∈ days /\ month_of e = Some key /\
    (forall d, d ∈ days -> month_of d = Some key -> dr_day d <= dr_day e) /\
    (forall d, d ∈ days -> dr_day b <= dr_day d <= dr_day e -> dr_account d = dr_account e) /\
    ((~ partial /\ v = return_pct (dr_last_equity e) (dr_last_equity b) /\ dr_day b < dr_day e /\ month_of b <> Some key /\
      (forall d, d ∈ days -> dr_day d <= dr_day b \/ month_of d = Some key \/ dr_day e < dr_day d) /\
      forall d, d ∈ days -> month_of d = Some key -> dr_account d = dr_account e) \/
     (partial /\ v = return_pct (dr_last_equity e) (dr_first_equity b) /\ dr_day b <= dr_day e /\ month_of b = Some key)).

Lemma month_spec_iff days key v P Q : (P <-> Q) -> month_spec days key v P -> month_spec days key v Q.
Proof. intros E (e & b & A & B & C & D & F & [G|G]); exists e, b; do 5 (split; [assumption|]); [left|right]; tauto. Qed.

Lemma bridged_spec p rows e base : bridged p rows e = Some base ->
  exists q, p = Some q /\ dr_account q = dr_account e /\ base = dr_last_equity q /\ forall d, d ∈ rows -> dr_account d = dr_account e.
Proof.
  unfold bridged. destruct p as [q|]; [|discriminate]. destruct (bool_decide_reflect (dr_account q = dr_account e)) as [E|]; [|discriminate].
  cbn [andb]. destruct (existsb _ rows) eqn:X; [discriminate|]. intros [= <-]. exists q. split_and!; auto. intros d Hd.
  destruct (bool_decide_reflect (dr_account d = dr_account e)) as [|N]; [assumption|]. exfalso.
  assert (T : existsb (fun r => negb (bool_decide (dr_account r = dr_account e))) rows = true); [|congruence].
  apply existsb_exists. exists d. split; [now apply list_elem_of_In|]. now rewrite bool_decide_false.
Qed.

Lemma stretch_start_spec rows account n r :
  rows !! n = Some r -> dr_account r = account ->
  exists f, rows !! stretch_start rows account n = Some f /\ (stretch_start rows account n <= n)%nat /\
    forall i x, (stretch_start rows account n <= i <= n)%nat -> rows !! i = Some x -> dr_account x = account.
Proof.
  revert r. induction n as [|n IH]; intros r Hr Ha; cbn [stretch_start].
  - exists r. split; [exact Hr|]. split; [lia|]. intros i x Hi Hx. assert (i = 0%nat) as -> by lia. congruence.
  - destruct (lookup_lt_is_Some_2 rows n) as [x Ex]; [apply lookup_lt_Some in Hr; lia|]. rewrite Ex.
    destruct (bool_decide_reflect (dr_account x = account)) as [E|_].
    + destruct (IH x Ex E) as (f & Ef & L & H). exists f. split; [exact Ef|]. split; [lia|]. intros i y Hi Hy.
      destruct (decide (i = S n)) as [->|]; [congruence|]. apply (H i); [lia|exact Hy].
    + exists r. split; [exact Hr|]. split; [lia|]. intros i y Hi Hy. assert (i = S n) as -> by lia. congruence.
Qed.

(** The loop after the months of [done]. *)
Record months_done (days : list DayRow) (done : list month_key) (s : MonthState) : Prop := {
  md_values : forall key v, (key, v) ∈ ms_values s -> month_spec days key v (key ∈ ms_partial s);
  md_keys : forall key v, (key, v) ∈ ms_values s -> key ∈ done;
  md_partial : forall key, key ∈ ms_partial s -> key ∈ done;
  md_previous : forall p, ms_previous_end s = Some p -> p ∈ days /\ (exists k, month_of p = Some k /\ k ∈ done) /\
    forall d k, d ∈ days -> month_of d = Some k -> k ∈ done -> dr_day d <= dr_day p
}.

(** A month that comes after those of [done]. *)
Definition next_month (days : list DayRow) (done : list month_key) (key : month_key) : Prop :=
  (forall k, k ∈ done -> earlier k key) /\
  forall d k, d ∈ days -> month_of d = Some k -> k ∈ done \/ k = key \/ earlier key k.

Section MonthStep.
Context (days : list DayRow) (Cd : dated days) (done : list month_key) (key : month_key) (Hn : next_month days done key).
Context (ds : list DayRow) (Eds : ds = days_of key days) (e : DayRow) (El : last ds = Some e).

Lemma of_month d : d ∈ ds <-> month_of d = Some key /\ d ∈ days.
Proof. rewrite Eds. unfold days_of. now rewrite list_elem_of_filter. Qed.

Lemma of_month_sorted : StronglySorted day_lt ds.
Proof.
  rewrite Eds. destruct Cd as [S _]. clear - S. unfold days_of. induction S as [|x l S IH F]; [constructor|].
  rewrite filter_cons. destruct (decide _); [|exact IH]. constructor; [exact IH|].
  rewrite Forall_forall in *. intros y [_ Hy]%list_elem_of_filter. now apply F.
Qed.

Lemma end_in : month_of e = Some key /\ e ∈ days.
Proof. apply of_month, last_Some_elem_of, El. Qed.

Lemma end_lookup : ds !! (length ds - 1)%nat = Some e.
Proof. rewrite last_lookup in El. now replace (length ds - 1)%nat with (Init.Nat.pred (length ds)) by lia. Qed.

Lemma end_is_last d : d ∈ days -> month_of d = Some key -> dr_day d <= dr_day e.
Proof.
  intros Hd Hm. assert (Hi : d ∈ ds) by (now apply of_month). apply list_elem_of_lookup_1 in Hi as [i Hi].
  pose proof (lookup_lt_Some _ _ _ Hi). pose proof end_lookup as He. destruct (decide (i = (length ds - 1)%nat)) as [->|]; [replace d with e by congruence; lia|].
  pose proof (sorted_lookup ds i _ _ _ of_month_sorted Hi He ltac:(lia)). lia.
Qed.

Lemma month_further_on d k : d ∈ days -> month_of d = Some k -> earlier key k -> dr_day e < dr_day d.
Proof.
  intros Hd Hk L. destruct end_in as [Me He]. apply Z.nle_gt. intros C.
  pose proof (month_mono days d e k key Cd Hd He Hk Me C). unfold earlier in L. lia.
Qed.

Lemma earlier_month d k : d ∈ days -> month_of d = Some k -> k ∈ done -> dr_day d < dr_day e.
Proof.
  intros Hd Hk L. destruct end_in as [Me He]. apply Z.nle_gt. intros C. apply Hn in L.
  pose proof (month_mono days e d key k Cd He Hd Me Hk C). unfold earlier in L. lia.
Qed.

Lemma end_previous p : Some e = Some p -> p ∈ days /\ (exists k, month_of p = Some k /\ k ∈ done ++ [key]) /\
  forall d k, d ∈ days -> month_of d = Some k -> k ∈ done ++ [key] -> dr_day d <= dr_day p.
Proof.
  intros [= <-]. destruct end_in as [Me He]. split; [exact He|]. split.
  - exists key. split; [exact Me|]. apply elem_of_app. right. now apply list_elem_of_singleton.
  - intros d k Hd Hk [Hin| ->%list_elem_of_singleton]%elem_of_app; [pose proof (earlier_month d k Hd Hk Hin); lia|now apply end_is_last].
Qed.

Lemma bridged_month s base : months_done days done s -> bridged (ms_previous_end s) ds e = Some base ->
  month_spec days key (return_pct (dr_last_equity e) base) False.
Proof.
  intros [_ _ _ Pr] Eb. apply bridged_spec in Eb as (p & Ep & Ea & -> & All). destruct (Pr p Ep) as (Hp & (k & Hk & Hd) & Hmax).
  destruct end_in as [Me He]. pose proof (earlier_month p k Hp Hk Hd) as Hpe.
  assert (Hall : forall d, d ∈ days -> month_of d = Some key -> dr_account d = dr_account e) by (intros d H1 H2; apply All, of_month; auto).
  assert (H3 : forall d, d ∈ days -> dr_day d <= dr_day p \/ month_of d = Some key \/ dr_day e < dr_day d).
  { intros d Hdd. destruct (month_of_ok days d Cd Hdd) as (k' & Hk' & _). destruct (proj2 Hn d k' Hdd Hk') as [H|[->|H]]; [left|auto|right; right].
    - exact (Hmax d k' Hdd Hk' H).
    - exact (month_further_on d k' Hdd Hk' H). }
  exists e, p. split; [exact He|]. split; [exact Hp|]. split; [exact Me|]. split; [exact end_is_last|]. split.
  - intros d Hdd L. destruct (H3 d Hdd) as [H|[H|H]]; [|now apply Hall|lia].
    rewrite (sorted_same_day days d p); [exact Ea|apply Cd|exact Hdd|exact Hp|lia].
  - left. split; [tauto|]. split; [reflexivity|]. split; [exact Hpe|]. split; [|split; [exact H3|exact Hall]].
    intros E. rewrite Hk in E. injection E as ->. pose proof (proj1 Hn _ Hd) as L. unfold earlier in L. lia.
Qed.

Lemma partial_month : exists f, ds !! stretch_start ds (dr_account e) (length ds - 1) = Some f /\
  month_spec days key (return_pct (dr_last_equity e) (dr_first_equity f)) True.
Proof.
  pose proof end_lookup as He. destruct (stretch_start_spec ds (dr_account e) (length ds - 1) e He eq_refl) as (f & Ef & Ls & Hacc).
  exists f. split; [exact Ef|]. assert (Hf : month_of f = Some key /\ f ∈ days) by (apply of_month; now apply list_elem_of_lookup_2 in Ef).
  destruct end_in as [Me Hed]. exists e, f. split; [exact Hed|]. split; [apply Hf|]. split; [exact Me|]. split; [exact end_is_last|]. split.
  - intros d Hd [L1 L2]. destruct (month_of_ok days d Cd Hd) as (k & Hk & _).
    assert (k = key) as ->.
    { apply (month_eq days d e); auto.
      pose proof (month_mono days f d key k Cd (proj2 Hf) Hd (proj1 Hf) Hk L1). pose proof (month_mono days d e k key Cd Hd Hed Hk Me L2). lia. }
    assert (Hi : d ∈ ds) by (now apply of_month). apply list_elem_of_lookup_1 in Hi as [i Hi]. pose proof (lookup_lt_Some _ _ _ Hi).
    apply (Hacc i); [|exact Hi]. split; [|lia]. apply Nat.nlt_ge. intros C. pose proof (sorted_lookup ds i _ d f of_month_sorted Hi Ef C). lia.
  - right. split; [exact I|]. split; [reflexivity|]. split; [|apply Hf]. apply end_is_last; apply Hf.
Qed.
End MonthStep.

Lemma month_step_done days done s key ds :
  dated days -> next_month days done key ->
  months_done days done s -> key ∉ done -> ds = days_of key days -> ds <> [] ->
  exists s', month_step s (key, ds) = Ok s' /\ months_done days (done ++ [key]) s'.
Proof.
  intros Cd Hn Hs Nd Eds Nds. pose proof Hs as [V K Pa Pr]. unfold month_step. destruct (last ds) as [e|] eqn:El; [|now apply last_None in El].
  assert (Dn : forall k, k ∈ done -> k ∈ done ++ [key]) by (intros k Hk; apply elem_of_app; now left).
  assert (Kn : key ∈ done ++ [key]) by (apply elem_of_app; right; now apply list_elem_of_singleton).
  assert (Np : key ∉ ms_partial s) by (intros H; now apply Nd, Pa).
  pose proof (end_previous days Cd done key Hn ds Eds e El) as Pv.
  destruct (bridged _ ds e) as [base|] eqn:Eb.
  - eexists. split; [reflexivity|]. split; cbn.
    + intros k0 v [Hv|[= -> ->]%list_elem_of_singleton]%elem_of_app; [now apply V|].
      eapply month_spec_iff; [|exact (bridged_month days Cd done key Hn ds Eds e El s base Hs Eb)]. tauto.
    + intros k0 v [Hv|[= -> ->]%list_elem_of_singleton]%elem_of_app; [now apply Dn, (K k0 v)|exact Kn].
    + intros k0 Hk0. now apply Dn, Pa.
    + exact Pv.
  - destruct (partial_month days Cd key ds Eds e El) as (f & Ef & Hf). rewrite Ef.
    assert (Pn : forall k, k ∈ ms_partial s ++ [key] <-> k ∈ ms_partial s \/ k = key) by (intros k; now rewrite elem_of_app, list_elem_of_singleton).
    eexists. split; [reflexivity|]. split; cbn.
    + intros k0 v [Hv|[= -> ->]%list_elem_of_singleton]%elem_of_app.
      * eapply month_spec_iff; [|now apply V]. rewrite Pn. split; [auto|]. intros [?| ->]; [assumption|]. now apply K in Hv.
      * eapply month_spec_iff; [|exact Hf]. rewrite Pn. tauto.
    + intros k0 v [Hv|[= -> ->]%list_elem_of_singleton]%elem_of_app; [now apply Dn, (K k0 v)|exact Kn].
    + intros k0 [Hk0| ->]%Pn; [now apply Dn, Pa|exact Kn].
    + exact Pv.
Qed.

Lemma next_of_sorted days done key rest : StronglySorted earlier (done ++ key :: rest) ->
  (forall d k, d ∈ days -> month_of d = Some k -> k ∈ done ++ key :: rest) -> next_month days done key.
Proof.
  intros S H. split.
  - revert S. clear. induction done as [|x done IH]; intros S k Hk; [now apply not_elem_of_nil in Hk|]. cbn in S.
    apply StronglySorted_inv in S as [S F]. apply elem_of_cons in Hk as [->|Hk]; [|now apply IH]. rewrite Forall_forall in F. apply F, elem_of_app. right. left.
  - intros d k Hd Hk. specialize (H d k Hd Hk). apply elem_of_app in H as [H|H]; [now left|right]. apply elem_of_cons in H as [H|H]; [now left|right].
    revert S H. clear. induction done as [|x done IH]; intros S H; cbn in S; apply StronglySorted_inv in S as [S F]; [|now apply IH].
    rewrite Forall_forall in F. now apply F.
Qed.

Lemma month_loop_done days months : dated days -> forall done s,
  months_done days done s -> NoDup (done ++ months.*1) -> StronglySorted earlier (done ++ months.*1) ->
  (forall d k, d ∈ days -> month_of d = Some k -> k ∈ done ++ months.*1) ->
  (forall key ds, (key, ds) ∈ months -> ds = days_of key days /\ ds <> []) ->
  exists s', ledger_loop s months = Ok s' /\ months_done days (done ++ months.*1) s'.
Proof.
  intros Cd. induction months as [|[key ds] months IH]; intros done s H ND S A G; cbn [ledger_loop].
  - rewrite app_nil_r. eauto.
  - rewrite fmap_cons in ND, S, A |- *. cbn [fst] in ND, S, A |- *. pose proof (next_of_sorted days done key _ S A) as Hn.
    rewrite cons_middle, app_assoc in ND, S, A |- *.
    destruct (G key ds) as [E Ne]; [left|]. assert (Nk : key ∉ done).
    { apply NoDup_app in ND as [ND _]. apply NoDup_app in ND as (_ & N & _). intros Hk. apply (N key Hk). now apply list_elem_of_singleton. }
    destruct (month_step_done days done s key ds Cd Hn H Nk E Ne) as (s' & Es & H'). rewrite Es. cbn [rbind].
    apply IH; [exact H'|exact ND|exact S|exact A|]. intros k x Hx. apply G. now right.
Qed.

Lemma month_value_elem values key v : month_value values key = Some v -> (key, Some v) ∈ values.
Proof.
  unfold month_value. destruct (List.find _ values) as [[k x]|] eqn:E; [|discriminate]. intros ->.
  apply List.find_some in E as [Hin Hk]. apply bool_decide_eq_true in Hk. cbn in Hk. subst k. now apply list_elem_of_In.
Qed.

Lemma months_of_year_lookup values y i x : months_of_year values y !! i = Some x -> x = month_value values (y, Z.of_nat i + 1).
Proof. unfold months_of_year. do 12 (destruct i as [|i]; [now intros [= <-]|]). discriminate. Qed.

(** The readings of a run fall in the supported years. *)
Definition timely (es : list LedgerEvent) : Prop :=
  forall r day, Take r ∈ es -> tehran_day (rg_ts_ns r) = Ok day -> in_calendar day.

(** C30: Whatever readings were taken, of whatever accounts and through whatever restarts,
    the monthly report returns, and every return it shows is that of the closing
    equity of the last recorded day [e] of its month, and is measured on one account:
    every recorded day from the base day [b] to [e] is on it.  In a month reported as
    partial, [b] is a day of the month and the base is its opening equity.  In any
    other, [b] is the last day recorded before the month, whose days are all on the
    account, and the base is its closing equity.  Both days are as readings that the
    ledger was given say. *)
Theorem returns_stay_on_one_account es :
  timely es ->
  exists m, monthly (run_ledger es) = Ok m /\
  forall y months i v, (y, months) ∈ mo_rows m -> months !! i = Some (Some v) ->
  let key := (y, Z.of_nat i + 1) in let days := el_rows (run_ledger es) in
  exists e b, e ∈ days /\ b ∈ days /\ witnessed es e /\ witnessed es b /\ month_of e = Some key /\
    (forall d, d ∈ days -> month_of d = Some key -> dr_day d <= dr_day e) /\
    (forall d, d ∈ days -> dr_day b <= dr_day d <= dr_day e -> dr_account d = dr_account e) /\
    dr_day b <= dr_day e /\
    (key ∈ mo_partial m -> month_of b = Some key /\ Some v = return_pct (dr_last_equity e) (dr_first_equity b)) /\
    (key ∉ mo_partial m -> dr_day b < dr_day e /\ month_of b <> Some key /\
       (forall d, d ∈ days -> dr_day d <= dr_day b \/ month_of d = Some key \/ dr_day e < dr_day d) /\
       (forall d, d ∈ days -> month_of d = Some key -> dr_account d = dr_account e) /\
       Some v = return_pct (dr_last_equity e) (dr_last_equity b)).
Proof.
  intros Ht. destruct (run_ok es) as [S F]. unfold monthly. destruct (el_rows (run_ledger es)) as [|d0 ds] eqn:Er.
  { eexists. split; [reflexivity|]. cbn. intros y months i v H. now apply not_elem_of_nil in H. }
  rewrite <- Er in *. clear ds Er. set (days := el_rows (run_ledger es)) in *. rewrite Forall_forall in F.
  assert (C : dated days).
  { split; [exact S|]. intros d Hd. destruct (F d Hd) as [(r & Hr & Hday & _) _]. exact (Ht r _ Hr Hday). }
  destruct (group_days_spec days [] []) as (months & Eg & G); [|exact C|].
  { split; [constructor|intros k x Hx; now apply not_elem_of_nil in Hx|intros d Hd; now apply not_elem_of_nil in Hd|constructor]. }
  rewrite Eg. cbn [rbind app] in *. destruct G as [U Dk A O].
  destruct (month_loop_done days months C [] (mkMonthState [] [] None)) as (s & Es & [V _ _ _]); [|exact U|exact O| |exact Dk|].
  { split; cbn; [intros k v Hx|intros k v Hx|intros k Hx|discriminate]; now apply not_elem_of_nil in Hx. }
  { intros d k Hd Hk. destruct (A d Hd) as (k' & Hk' & Hin). now replace k with k' by congruence. }
  rewrite Es. cbn [rbind]. eexists. split; [reflexivity|]. cbn [mo_rows mo_partial]. intros y ms i v Hy Hi.
  apply list_elem_of_fmap in Hy as (y' & [= <- ->] & _). apply months_of_year_lookup in Hi. symmetry in Hi. apply month_value_elem in Hi.
  set (key := (y, Z.of_nat i + 1)) in *. destruct (V key _ Hi) as (e & b & He & Hb & Me & Hmax & Hacc & R). exists e, b. do 2 (split; [assumption|]).
  split; [now apply F|]. split; [now apply F|]. do 3 (split; [assumption|]).
  destruct R as [(Np & Ev & L & Mb & H3 & All)|(Pp & Ev & L & Mb)]; (split; [lia|]); (split; [tauto|]); [|tauto].
  intros _. auto.
Qed.

(** ** Examples *)

Definition reading (day : Z) (equity : Z) (account : string) : LedgerEvent :=
  Take (mkLedgerReading ((day - 719163) * 86400 * 1000000000) (float_of_Z equity) (float_of_Z equity) account).
(** Three months of 1404; the second has no reading. *)
Definition gap_run : list LedgerEvent :=
  [reading (ymd2ord 2025 4 1) 1000 "demo:1"; reading (ymd2ord 2025 4 10) 1100 "demo:1"; Reopen; reading (ymd2ord 2025 6 1) 1210 "demo:1"].

(** A month nothing was recorded in is bridged: the return after it spans both and is
    not reported as partial. *)
Example recorded_gap_is_bridged :
  match monthly (run_ledger gap_run) with
  | Ok m => mo_rows m = [(1404, [return_pct (float_of_Z 1100) (float_of_Z 1000); None; return_pct (float_of_Z 1210) (float_of_Z 1100);
                                 None; None; None; None; None; None; None; None; None])]
            /\ mo_partial m = [(1404, 1)]
  | Raise _ => False
  end.
Proof. vm_compute. split; reflexivity. Qed.

(** A day on which the account changed starts again on the new one. *)
Example day_restarts_on_new_account :
  map (fun d => (dr_account d, dr_first_equity d)) (el_rows (run_ledger
    [reading (ymd2ord 2025 4 1) 1000 "demo:1"; reading (ymd2ord 2025 4 1) 50 "demo:2"])) = [("demo:2"%string, float_of_Z 50)].
Proof. vm_compute. reflexivity. Qed.

Lemma gap_run_timely : timely gap_run.
Proof.
  intros r day Hr Hd. unfold gap_run in Hr. rewrite !elem_of_cons in Hr.
  destruct Hr as [[= ->]|[[= ->]|[[=]|[[= ->]|H]]]]; [| | |now apply not_elem_of_nil in H];
    vm_compute in Hd; injection Hd as <-; vm_compute; split; (discriminate || reflexivity).
Qed.
Lemma returns_stay_on_one_account_witness :
  timely gap_run /\ exists m, monthly (run_ledger gap_run) = Ok m /\ mo_partial m = [(1404, 1)].
Proof.
  split; [exact gap_run_timely|]. destruct (returns_stay_on_one_account gap_run gap_run_timely) as (m & E & _).
  exists m. split; [exact E|]. vm_compute in E. now injection E as <-.
Defined.
